(* ===== verification/_CoqProject ===== *)
-Q . S2P
Prelude.v
Decimal.v
IOUAmount.v
BigNum.v
Serializer.v
STAmount.v
AmountWire.v
AmountArith.v
Quality.v
RangeSet.v
Timing.v
DisputedTx.v
Consensus.v
ConsensusInv.v
ConsensusRun.v
View.v
StateTable.v
ApplyStateTable.v
Fields.v
Indexes.v
PaymentSandbox.v
ViewOps.v
Directory.v
DirWalk.v
TrustLines.v
Transfers.v
LineCredit.v
LineLife.v
LineClose.v
Holdings.v
LedgerBuild.v
LedgerChain.v
AmendmentTable.v
Change.v
FeeVoting.v
AmendmentRun.v
LoadFeeTrack.v
ShaNode.v
ShaMap.v
ShaTree.v
ShaEdit.v
ShaHash.v
ShaRun.v
ShaUnique.v
ShaDelta.v
ShaWire.v
ShaStore.v
MultiSign.v
TxMeta.v
Threading.v
Transactor.v
TransactorRun.v
Footprint.v
TransactorSteps.v
TxFlags.v
DividendTx.v
PaymentTx.v
SignerListTx.v
SignerListRun.v
AccountTx.v
AccountRun.v
KeyRun.v
TrustTx.v
TrustRun.v
OwnedTx.v
OwnedRun.v
BasicTaker.v
TakerFlow.v
TakerCross.v
OfferTaker.v
OfferBook.v
CreateOfferTx.v
OfferRun.v
OfferMade.v
CanonicalTx.v
Dispatch.v
ApplySet.v
