(* ===== verification/Prelude.v ===== *)
(** * Verification of the SAN ledger server (sand, a rippled derivative)

    The server keeps a replicated ledger.  Its own code is under
    src/src/ripple; this library models the parts below, in the order in which
    the files are compiled, and proves what makes them correct.

    ** The program and the files

    - Shared ground: this file.  A [w]-bit integer is a [Z] and the reductions
      [u8], [u32], [u64], [i32], [i64] are written where the code computes at
      that width.  Code that throws, fails an assertion or calls [LogicError]
      returns in [result]; [fatal] tells the outcomes that end the process from the
      exceptions a [catch] clause sees ([catching]); [wp] is total correctness.
      Loops run with fuel ([while_], or a fixpoint of their own).
    - Amounts, the values every transaction moves.  [Decimal] has the loops
      that bring a mantissa and exponent into range.  [IOUAmount] is
      protocol/impl/IOUAmount.cpp.  [BigNum] has the helpers of
      crypto/impl/CBigNum.cpp that the amount code uses, over a parameter for
      the OpenSSL numbers with the laws of their documentation.  [STAmount] is
      protocol/impl/STAmount.cpp: construction, [canonicalize], comparison,
      addition, [multiply], [divide], [mulRound], [divRound], [getRate], the
      wire form.  [AmountWire] proves the wire form, [AmountArith] the
      products, quotients and rates, [Quality] protocol/impl/Quality.cpp.
    - The wire: [Serializer] is protocol/impl/Serializer.cpp, a serializer being
      the list of its bytes and an iterator its buffer with its position.
    - Indexes of the ledgers at hand: [RangeSet] is basics/impl/RangeSet.cpp.
    - Consensus on the next ledger.  [Timing] is app/ledger/impl/LedgerTiming.cpp
      with the decisions at the top of LedgerConsensusImp.cpp.  [DisputedTx] is
      one disputed transaction with its votes.  [Consensus] is a round of
      app/ledger/impl/LedgerConsensusImp.cpp: its members are the record
      [State], each handler is a function on it, and what it sends or schedules
      is appended to [out].  Transaction sets are a parameter ([SHAMapOps]) with
      the laws of finite maps named by their hash ([SHAMapLaws]).
      [ConsensusInv] has the step relation of a round and its invariant,
      [ConsensusRun] the close time vote, concrete rounds and an instance of
      the parameter.
    - Views of the ledger state.  [View] has keylets, the interfaces [ReadView]
      and [RawView] as classes with laws, and the closed ledger of
      app/ledger/Ledger.cpp over finite maps.  [StateTable] has the overlay of a
      table on a base, ledger/impl/RawStateTable.cpp and ledger/impl/OpenView.cpp.
      [ApplyStateTable] has ledger/impl/ApplyStateTable.cpp with the entries as
      shared objects of a heap, and ledger/impl/ApplyViewBase.cpp.  Each view
      over a lawful base is proved lawful, so stacks of any height are.
    - Entries of the ledger.  [Fields] has the objects of
      protocol/impl/STObject.cpp as the ledger code uses them, with the fields
      of SField.cpp and the formats of LedgerFormats.cpp; [Indexes] the keys of
      protocol/impl/Indexes.cpp over a parameter for the digest
      ([SHA512Half], with the laws that digests are not zero and differ for
      different inputs: the usual idealisation of a digest without collisions,
      which no function into 256 bits has; the theorems on hash trees, where it
      matters, ask instead that the strings hashed do not collide).
    - The helpers every transaction is written with, ledger/impl/View.cpp.
      [ViewOps] has the monad of programs over an [ApplyView] (pointers to
      shared entries, assignments, [update], [insert], [erase]) and its proof
      rules; [PaymentSandbox] the credits that a payment must not spend
      (ledger/impl/PaymentSandbox.cpp).  [Directory] has the paged directories
      and [DirWalk] the walks over them; [TrustLines] has balances, freezes,
      rates and all the modifiers of trust lines, accounts and offers, proved in
      [Transfers] (drops), [LineCredit] (credits on a line), [LineLife] (lines
      made and deleted), [LineClose] (credits that close a line) and [Holdings]
      (what an account can spend).
    - Building ledgers.  [LedgerBuild] has the constructors, hashes, fees,
      acceptance and skip lists of app/ledger/Ledger.cpp, the end of a consensus
      round that makes the closed ledger, and [hashOfSeq]; the root hashes of the
      trees and the application of the agreed transactions are parameters.
      [LedgerChain] has the theorems on headers and on chains of ledgers.
    - Voting on fees and amendments.  [AmendmentTable] is
      app/misc/AmendmentTableImpl.cpp and the record kept in the ledger; [Change]
      has app/misc/FeeVoteImpl.cpp, the pseudo-transactions that the votes
      propose and the transactor app/tx/impl/Change.cpp.  [FeeVoting] proves the
      vote on fees and its effect; [AmendmentRun] follows an amendment from the
      votes through the ledger over any number of flag ledgers.  Whether the server
      proposes amendments at all is the build option [RIPPLE_PROPOSE_AMENDMENTS],
      off by default, here a parameter.
    - Load: [LoadFeeTrack] is core/impl/LoadFeeTrackImp.h, the factor by which
      fees go up under load.

    - The hash tree that holds ledgers and transaction sets, under shamap.
      [ShaNode] has the nodes of impl/SHAMapTreeNode.cpp with their hashes and
      serialised forms and the positions of impl/SHAMapNodeID.cpp; [ShaMap] the
      operations of impl/SHAMap.cpp, a map being its root with the sequence
      number by which it knows its own nodes, over a node store; [ShaDelta] the
      comparison of impl/SHAMapDelta.cpp.  [ShaTree] relates a tree to the finite
      map it holds, [ShaEdit] proves the changes, [ShaHash] the hashes and the
      flush, [ShaRun] sequences of operations, [ShaUnique] that hashes identify
      contents, [ShaWire] the serialised nodes and [ShaStore] the store.

    - What a transaction leaves besides its changes: [TxMeta] has the metadata of
      ledger/impl/TxMeta.cpp and its making in ledger/impl/ApplyStateTable.cpp,
      with the threading of entries to the transactions that changed them;
      [Threading] proves it.
    - Transactions, app/tx/impl.  [MultiSign] has the checks of several
      signatures (protocol/impl/STTx.cpp, SignerEntries.cpp and
      Transactor.cpp).  [Transactor] is Transactor.cpp: a type of transaction is a
      [Processor], the record of the functions it overrides, and [run] is
      [operator()].  [TransactorRun], [Footprint] and [TransactorSteps] prove what
      holds for every type and give the rules by which the types are proved:
      [apply_rule] for the checks, bounds on the number of entries touched
      ([grows]), and [applied] for what reaches the ledger.  [TxFlags] has the
      flags of protocol/TxFlags.h.  The types: [DividendTx] (Dividend.cpp),
      [PaymentTx] (Payment.cpp), [SignerListTx] and [SignerListRun]
      (SetSignerList.cpp), [AccountTx], [AccountRun] and [KeyRun] (SetAccount.cpp
      and SetRegularKey.cpp), [TrustTx] and [TrustRun] (SetTrust.cpp), [OwnedTx]
      and [OwnedRun] (CancelOffer.cpp, CreateTicket.cpp, CancelTicket.cpp), and
      [Change] above.
    - The exchange of currencies.  [BasicTaker] is the arithmetic of crossing an
      offer, directly or through two offers bridged by the native currency
      (Taker.cpp), proved in [TakerFlow] and [TakerCross].  [OfferTaker] has the
      offers of a book (Offer.h) and the [Taker] that moves the funds, [OfferBook]
      the walk over the offers of a book (BookTip.cpp) and the stream of those
      that can be taken (OfferStream.cpp), a program over two views.
      [CreateOfferTx] is the transactor CreateOffer.cpp; [OfferRun] and [OfferMade]
      prove what it leaves when there is nothing to take.
    - Sets of transactions.  [CanonicalTx] is app/misc/CanonicalTXSet.cpp, the
      order of transactions that wait; [Dispatch] is app/tx/impl/apply.cpp, the
      choice of the transactor by type and the exceptions that become a result;
      [ApplySet] has the passes by which
      LedgerConsensusImp.cpp applies the agreed set and OpenLedger.cpp fills the
      next open ledger.

    The parts meet in the ledger: consensus decides which transactions the next
    ledger has, [LedgerBuild.build_ledger] makes it, [ApplySet.apply_agreed]
    applies the agreed set to it, [Dispatch.apply] and [Transactor.run] each
    transaction, which changes the ledger through an [ApplyView] with the helpers
    of [TrustLines] and [Directory], and the votes of the next flag ledger read
    what they left.

    ** What is proved

    - Amounts: [canonicalize] and [normalize] end, throw only when the amount is
      out of range, and otherwise give the truncated value in the unique canonical
      form; a native amount that takes more than 64 bits is the exception, its
      drops are computed modulo [2^64]; issued addition refines that of [IOUAmount]; comparison
      decides the order of values; native sums are exact; products and
      quotients are within stated bounds of the exact ones, with the direction
      of rounding the code really has; rates sort like the prices they encode;
      [ceil_in] and [ceil_out] never exceed the offer.
    - Wire: integers, field headers, variable-length blobs and amounts are read
      back as written, with what follows left in place.
    - Ranges: each operation keeps the intervals sorted and apart and has the
      set-theoretic effect it should, or the one it has where that differs.
    - Consensus: in every reachable state the counts of a dispute are the votes
      it holds and only peers with a position vote; our own set is at hand and
      agrees with our votes; the timer's handler never fails; a round ends only
      with agreement on the close time and with 81 percent of those that take part
      behind our set, or with as many validators already on a later ledger.  One
      theorem exhibits an interleaving that loses a vote.
    - Views: any sequence of modifications that fits what a view shows is
      accepted; the buffered view reads like the base changed directly, and
      applying it gives the same entries and the same number of drops; a write
      to an entry that is not flagged by [update] is shown but not applied.
    - Entries: an object made from a format has its fields with their types, every
      getter of the right type answers, and setting a field keeps that and is read
      back; the keys of the directories of a book are an
      interval sorted by quality.
    - Directories: related to the list of their pages, [dirAdd] appends and
      [dirDelete] removes one key, the pages that stay being given exactly; the walks
      end and give the keys in order, and the two kinds of walk agree.
    - Trust lines: [trustCreate] lists a line in both directories and
      [trustDelete] removes it from both; [rippleCredit], [issueIOU] and
      [redeemIOU] move the balance by the amount, in the terms of the side that
      pays, and agree; the reserve is given up exactly when the side that pays needs
      none any more, and a line nobody needs is deleted.  Transfers of drops conserve them.  [accountHolds] is characterised
      for drops and issued currencies, with freezes and deferred credits.
    - Ledgers: a header is read back as written; in a chain of ledgers
      [hashOfSeq] gives the hash of every one of the last 256 ancestors and of
      every 256th before, and of no ledger another hash.
    - Votes: a fee chosen is the most voted one between the ledger's and ours and
      takes effect in the ledgers with the settings; an amendment is enabled only
      after a majority of the trusted validations at every flag ledger over the
      majority time (safety), and is enabled when it has one (liveness), in a build
      that proposes amendments.
    - Load: the local factor never passes its maximum, and as long as the remote
      factors leave room in 32 bits it stays above normal, moves the right way and
      returns to normal; scaled fees are within a stated error of the exact ones.
    - Hash trees: any sequence of operations answers as on a finite map and keeps
      the shape of the tree, so that the hash of the root is a function of the
      items ([root_hash]); neighbours are those in the order of keys; as long as
      no two of the strings hashed collide, equal hashes mean equal items,
      [compare] finds exactly the differences, and a tree is read back from what
      a flush puts in the store; nodes are read back from both their forms.  On a
      backed map [walkMap] throws where it should report a missing node.

    - Transactions of any type: one that fails for a reason that costs its fee
      changes nothing but fee and sequence number of its account; the metadata
      lists what changed and the changes are threaded; signatures are accepted
      exactly when they are valid and reach the quorum of the list; a transaction
      that is not the next one of its account is never applied.
    - Transactions by type, each with the entries, the drops of the accounts and
      the drops of the ledger afterwards: direct payments, dividends, account
      settings (an account is never left without a key that signs for it),
      regular keys, signer lists (what is stored is what signatures are checked
      against), trust lines (reserves follow the use of the two sides), tickets
      and the cancelling of offers.
    - Exchange: crossing an offer never fails an assertion and takes no more than
      the offer has, the taker offers, wants and can pay, whatever the rounding
      does; the two legs of a bridge carry the same native amount; an offer that
      finds nothing to take is refused, placed in its book, or leaves the ledger as
      it was.
    - Sets: the order of waiting transactions is the same for all servers; the
      passes end, fail no assertion of their own and account for every transaction;
      a queue of one account is
      applied completely whatever its order in the set.

    ** Fuel

    The loops that scale a mantissa by ten get twenty steps, enough because a
    64-bit mantissa has at most twenty digits; the loops that move an exponent
    get the distance to its goal; the loop of [succ] gets one more than the
    number of items of the table.  The search of [dirDelete] gets as many steps
    as the code's own limit on the pages it looks at (20) leaves, the walks over a
    directory one step for each of its pages.  The loops over the offers of a book
    have a bound of their own as argument, on directories, pages and offers.  The descents of a hash tree get
    [levels] = 65 steps, the root and one for each of the 64 digits of a key.
    The totality theorems show that
    [OutOfFuel] is never the result, but for the bound on books, which a set of
    transactions may meet in one of them.

    The passes over a set of transactions are those of the code, at most three.

    ** Not modelled

    Text and JSON forms; serialisation of whole objects by field (the bytes of
    metadata and transactions are parameters); of the hash trees the cache of
    nodes, the sharing of nodes in memory (a node that is not ours is cloned
    before it is changed, so trees are values here), the synchronisation with
    peers (SHAMapSync.cpp) and the iterators; what an exception leaves of the
    sandboxes of a crossing, a parameter of [CreateOfferTx]; path finding and the
    ripple calculation, a parameter of [PaymentTx]; the computation of
    dividends, which works with database queries and floating point numbers; the
    end of [accept] after the ledger is built; reading of the configuration; the
    caches of validations; storage, networking, RPC, cryptography.  The vendored
    libraries of the tree are outside the library altogether. *)

From stdpp Require Import base tactics numbers list strings option.

(** ** Machine integers

    A [w]-bit integer is a [Z]; the reductions below are written out where the
    source computes at that width. *)

Open Scope Z_scope.

Definition u8 (z : Z) : Z := z mod 2 ^ 8.
Definition u32 (z : Z) : Z := z mod 2 ^ 32.
Definition u64 (z : Z) : Z := z mod 2 ^ 64.
Definition i32 (z : Z) : Z := (z + 2 ^ 31) mod 2 ^ 32 - 2 ^ 31.
Definition i64 (z : Z) : Z := (z + 2 ^ 63) mod 2 ^ 64 - 2 ^ 63.

Lemma u8_id z : 0 <= z < 2 ^ 8 -> u8 z = z.
Proof. apply Z.mod_small. Qed.

Lemma u32_id z : 0 <= z < 2 ^ 32 -> u32 z = z.
Proof. apply Z.mod_small. Qed.

Lemma u64_id z : 0 <= z < 2 ^ 64 -> u64 z = z.
Proof. apply Z.mod_small. Qed.

Lemma i32_id z : - 2 ^ 31 <= z < 2 ^ 31 -> i32 z = z.
Proof. intros. unfold i32. rewrite Z.mod_small; lia. Qed.

Lemma i64_id z : - 2 ^ 63 <= z < 2 ^ 63 -> i64 z = z.
Proof. intros. unfold i64. rewrite Z.mod_small; lia. Qed.

Lemma u32_range z : 0 <= u32 z < 2 ^ 32.
Proof. apply Z.mod_pos_bound. lia. Qed.

Lemma u64_range z : 0 <= u64 z < 2 ^ 64.
Proof. apply Z.mod_pos_bound. lia. Qed.

(** Reductions inside a reduced sum or difference. *)
Lemma u64_add_l a b : u64 (u64 a + b) = u64 (a + b).
Proof. apply Zplus_mod_idemp_l. Qed.

Lemma u64_add_r a b : u64 (a + u64 b) = u64 (a + b).
Proof. apply Zplus_mod_idemp_r. Qed.

Lemma u64_sub_l a b : u64 (u64 a - b) = u64 (a - b).
Proof. apply Zminus_mod_idemp_l. Qed.

Lemma u64_sub_r a b : u64 (a - u64 b) = u64 (a - b).
Proof. apply Zminus_mod_idemp_r. Qed.

(** ** Bit fields *)

Lemma testbit_high y k i : 0 <= y < 2 ^ k -> k <= i -> Z.testbit y i = false.
Proof.
  intros Hy Hi. destruct (decide (y = 0)) as [->|]; [apply Z.bits_0|].
  apply Z.bits_above_log2; [lia|]. eapply Z.lt_le_trans; [|exact Hi].
  apply Z.log2_lt_pow2; lia.
Qed.

Lemma land_shiftl_low x y k : 0 <= k -> 0 <= y < 2 ^ k -> Z.land (Z.shiftl x k) y = 0.
Proof.
  intros Hk Hy. apply Z.bits_inj'. intros i Hi. rewrite Z.land_spec, Z.bits_0.
  destruct (decide (i < k)).
  - by rewrite Z.shiftl_spec_low by lia.
  - rewrite (testbit_high y k i) by lia. apply andb_false_r.
Qed.

(** Packing two fields: [(x << k) | y]. *)
Lemma lor_shiftl x y k : 0 <= k -> 0 <= y < 2 ^ k -> Z.lor (Z.shiftl x k) y = x * 2 ^ k + y.
Proof.
  intros. rewrite <- Z.shiftl_mul_pow2 by lia.
  pose proof (Z.add_lor_land (Z.shiftl x k) y). rewrite land_shiftl_low in * by lia. lia.
Qed.

(** Taking them apart. *)
Lemma shiftr_packed x y k : 0 <= k -> 0 <= y < 2 ^ k -> Z.shiftr (x * 2 ^ k + y) k = x.
Proof.
  intros. rewrite Z.shiftr_div_pow2 by lia. rewrite Z.div_add_l by lia.
  rewrite Z.div_small by lia. lia.
Qed.

Lemma land_packed x y k : 0 <= k -> 0 <= y < 2 ^ k -> Z.land (x * 2 ^ k + y) (Z.ones k) = y.
Proof.
  intros. rewrite Z.land_ones by lia. rewrite Z.add_comm, Z.mod_add by lia.
  by apply Z.mod_small.
Qed.

(** [x & ~(mask << k)] where the mask reaches the top of [x]. *)
Lemma ldiff_top x k n : 0 <= k -> 0 <= n -> 0 <= x < 2 ^ (k + n) ->
  Z.ldiff x (Z.shiftl (Z.ones n) k) = x mod 2 ^ k.
Proof.
  intros Hk Hn Hx. apply Z.bits_inj'. intros i Hi. rewrite Z.ldiff_spec.
  destruct (decide (i < k)).
  - rewrite Z.shiftl_spec_low, Z.mod_pow2_bits_low by lia. apply andb_true_r.
  - rewrite Z.mod_pow2_bits_high by lia. destruct (decide (i < k + n)).
    + rewrite Z.shiftl_spec, Z.ones_spec_low by lia. apply andb_false_r.
    + rewrite (testbit_high x (k + n)) by lia. done.
Qed.

(** Testing one bit with a mask. *)
Lemma land_bit x k : 0 <= k -> (Z.land x (2 ^ k) =? 0) = negb (Z.testbit x k).
Proof.
  intros Hk. destruct (Z.testbit x k) eqn:Hb; simpl.
  - apply Z.eqb_neq. intros Hz. assert (Z.testbit (Z.land x (2 ^ k)) k = false) as Hf
      by (rewrite Hz; apply Z.bits_0).
    rewrite Z.land_spec, Hb, Z.pow2_bits_true in Hf by lia. done.
  - apply Z.eqb_eq, Z.bits_inj'. intros i Hi. rewrite Z.land_spec, Z.bits_0.
    destruct (decide (i = k)) as [->|]; [by rewrite Hb|].
    rewrite Z.pow2_bits_false by lia. apply andb_false_r.
Qed.

Lemma testbit_div x k : 0 <= k -> Z.testbit x k = ((x / 2 ^ k) mod 2 =? 1).
Proof.
  intros Hk. destruct (Z.testbit x k) eqn:Hb; symmetry.
  - apply Z.eqb_eq. by apply Z.testbit_true.
  - apply Z.eqb_neq. apply Z.testbit_false in Hb; [lia|done].
Qed.

(** ** Results of fallible code

    [Ok] is a normal return and [Throw what] a C++ exception with its message.
    A loop is run with fuel; [OutOfFuel] is kept apart from both, and the
    totality theorems show that it is never the result. *)

Inductive result (A : Type) : Type :=
| Ok (a : A)
| Throw (what : string)
| OutOfFuel.
Arguments Ok {A} a.
Arguments Throw {A} what.
Arguments OutOfFuel {A}.

(** Not every [Throw] is a C++ exception.  A failed assertion, a call of [abort], a
    null or past-the-end pointer that is followed, and [LogicError], which follows
    one on purpose (basics/impl/contract.cpp), end the process, and no [catch]
    clause sees them. *)
Definition crashes : list string := [
  "assert"; "assertion"; "abort"; "null"; "end iterator";
  "ApplyStateTable::erase: missing key"; "ApplyStateTable::erase: unknown SLE"; "ApplyStateTable::erase: double erase";
  "ApplyStateTable::rawErase: double erase"; "ApplyStateTable::insert: already cached"; "ApplyStateTable::insert: already inserted";
  "ApplyStateTable::insert: already modified"; "ApplyStateTable::replace: already erased"; "ApplyStateTable::update: missing key";
  "ApplyStateTable::update: unknown SLE"; "ApplyStateTable::update: erased";
  "RawStateTable::erase: already erased"; "RawStateTable::insert: already inserted"; "RawStateTable::insert: already exists";
  "RawStateTable::replace: was erased"; "rawTxInsert: duplicate TX id";
  "Ledger::rawErase: key not found"; "Ledger::rawInsert: key already exists"; "Ledger::rawReplace: key not found"; "duplicate_tx: " ]%string.

Definition fatal (e : string) : bool := bool_decide (e ∈ crashes).

(** [try { r } catch (...) { handler }]. *)
Definition catching {A} (handler : A) (r : result A) : result A :=
  match r with
  | Throw e => if fatal e then Throw e else Ok handler
  | r => r
  end.

#[export] Instance result_ret : MRet result := fun A a => Ok a.

#[export] Instance result_bind : MBind result := fun A B f r =>
  match r with
  | Ok a => f a
  | Throw e => Throw e
  | OutOfFuel => OutOfFuel
  end.

#[export] Instance result_eq_dec {A} `{EqDecision A} : EqDecision (result A).
Proof. solve_decision. Defined.

(** [throw_if b what] is [if (b) throw what;]. *)
Definition throw_if (b : bool) (what : string) : result unit :=
  if b then Throw what else Ok tt.

Definition is_ok {A} (r : result A) : bool :=
  match r with Ok _ => true | _ => false end.

(** Total correctness: the computation ends, in a value satisfying [Q] or in
    an exception satisfying [E]. *)
Definition wp {A} (r : result A) (Q : A -> Prop) (E : string -> Prop) : Prop :=
  match r with
  | Ok a => Q a
  | Throw e => E e
  | OutOfFuel => False
  end.

Lemma wp_bind {A B} (r : result A) (f : A -> result B) (Q : B -> Prop) E :
  wp r (fun a => wp (f a) Q E) E -> wp (r ≫= f) Q E.
Proof. by destruct r. Qed.

(** The outcome can be kept at hand. *)
Lemma wp_eqn {A} (r : result A) (Q : A -> Prop) (E : string -> Prop) : wp r Q E -> wp r (fun a => r = Ok a /\ Q a) E.
Proof. by destruct r. Qed.

Lemma wp_mono {A} (r : result A) (Q Q' : A -> Prop) (E E' : string -> Prop) :
  wp r Q E -> (forall a, Q a -> Q' a) -> (forall e, E e -> E' e) -> wp r Q' E'.
Proof. destruct r; simpl; auto. Qed.

Lemma wp_ok {A} (r : result A) (Q : A -> Prop) E a : wp r Q E -> r = Ok a -> Q a.
Proof. by intros ? ->. Qed.

Lemma wp_throw_if b what (Q : unit -> Prop) (E : string -> Prop) :
  (b = true -> E what) -> (b = false -> Q tt) -> wp (throw_if b what) Q E.
Proof. destruct b; simpl; auto. Qed.

(** [while (cond s) s = body s;] with at most [fuel] iterations. *)
Fixpoint while_ {S} (fuel : nat) (cond : S -> bool) (body : S -> result S)
    (s : S) : result S :=
  if cond s then
    match fuel with
    | O => OutOfFuel
    | Datatypes.S fuel' => s' ← body s; while_ fuel' cond body s'
    end
  else Ok s.

(** The loop rule: an invariant [I] and a variant [V] that the body decreases;
    fuel at least the initial variant is enough. *)
Lemma while_wp {S} (I : S -> Prop) (V : S -> Z) (E : string -> Prop)
    (cond : S -> bool) (body : S -> result S) :
  (forall s, I s -> cond s = true ->
     0 < V s /\ wp (body s) (fun s' => I s' /\ V s' <= V s - 1) E) ->
  forall fuel s, I s -> V s <= Z.of_nat fuel ->
  wp (while_ fuel cond body s) (fun s' => I s' /\ cond s' = false) E.
Proof.
  intros Hbody fuel. induction fuel as [|fuel IH]; intros s HI HV; simpl.
  - destruct (cond s) eqn:Hc; simpl; [|done].
    destruct (Hbody s HI Hc). lia.
  - destruct (cond s) eqn:Hc; [|done].
    destruct (Hbody s HI Hc) as [Hpos Hwp]. apply wp_bind.
    eapply wp_mono; [exact Hwp| |done].
    intros s' [HI' HV']. apply IH; [done|lia].
Qed.

(** Two bodies that agree on the invariant run the same loop. *)
Lemma while_ext {S} (I : S -> Prop) (cond : S -> bool) (b1 b2 : S -> result S) :
  (forall s, I s -> cond s = true -> b1 s = b2 s /\ (forall s', b1 s = Ok s' -> I s')) ->
  forall fuel s, I s -> while_ fuel cond b1 s = while_ fuel cond b2 s.
Proof.
  intros Hb fuel. induction fuel as [|fuel IH]; intros s HI; simpl; [done|].
  destruct (cond s) eqn:Hc; [|done]. destruct (Hb s HI Hc) as [<- HI'].
  destruct (b1 s) as [s'| |]; simpl; auto.
Qed.

(** A range-based [for] loop whose body can throw. *)
Fixpoint foldM {S A} (f : S -> A -> result S) (s : S) (l : list A) : result S :=
  match l with
  | [] => Ok s
  | x :: l' => s' ← f s x; foldM f s' l'
  end.

Lemma foldM_wp {S A} (I : S -> Prop) (E : string -> Prop) (f : S -> A -> result S) l s :
  (forall s x, x ∈ l -> I s -> wp (f s x) I E) -> I s -> wp (foldM f s l) I E.
Proof.
  revert s. induction l as [|x l IH]; intros s Hf Hs; [done|]. simpl. apply wp_bind.
  eapply wp_mono; [apply Hf; [by left|done]| |done]. intros s' Hs'. apply IH; [|done].
  intros s'' y Hy. apply Hf. by right.
Qed.

(** [agrees f r r']: the same outcome, values related by [f], whatever the
    messages of the exceptions. *)
Definition agrees {A B} (f : A -> B) (r : result A) (r' : result B) : Prop :=
  match r, r' with
  | Ok a, Ok b => f a = b
  | Throw _, Throw _ => True
  | OutOfFuel, OutOfFuel => True
  | _, _ => False
  end.

Lemma agrees_bind {A B C D} (f : A -> B) (g : C -> D) r r' (k : A -> result C) (k' : B -> result D) :
  agrees f r r' -> (forall a, agrees g (k a) (k' (f a))) -> agrees g (r ≫= k) (r' ≫= k').
Proof. destruct r, r'; simpl; intros H Hk; try done. by rewrite <- H. Qed.

Lemma agrees_refl {A} (r : result A) : agrees (fun a => a) r r.
Proof. by destruct r. Qed.

(** ** Automation *)

Create HintDb sand.
#[export] Hint Resolve u8_id u32_id u64_id i32_id i64_id : sand.
#[export] Hint Extern 4 (_ <= _) => lia : sand.
#[export] Hint Extern 4 (_ < _) => lia : sand.
#[export] Hint Extern 4 (_ <= _ < _) => lia : sand.

(** Turn the boolean tests of the code into propositions. *)
Ltac reflect_bools :=
  repeat match goal with
  | H : (_ && _)%bool = true |- _ => apply andb_true_iff in H as [? ?]
  | H : (_ && _)%bool = false |- _ => apply andb_false_iff in H
  | H : (_ || _)%bool = true |- _ => apply orb_true_iff in H
  | H : (_ || _)%bool = false |- _ => apply orb_false_iff in H as [? ?]
  | H : negb _ = true |- _ => apply negb_true_iff in H
  | H : negb _ = false |- _ => apply negb_false_iff in H
  | H : (_ <? _) = true |- _ => apply Z.ltb_lt in H
  | H : (_ <? _) = false |- _ => apply Z.ltb_ge in H
  | H : (_ <=? _) = true |- _ => apply Z.leb_le in H
  | H : (_ <=? _) = false |- _ => apply Z.leb_gt in H
  | H : (_ =? _) = true |- _ => apply Z.eqb_eq in H
  | H : (_ =? _) = false |- _ => apply Z.eqb_neq in H
  end.

(** Split on the condition of an [if] of the goal. *)
Ltac case_if :=
  match goal with
  | |- context [if ?b then _ else _] =>
      match b with
      | context [if _ then _ else _] => fail 1
      | _ => let H := fresh "Hif" in destruct b eqn:H; reflect_bools
      end
  end.

(** Remove the width reductions that are the identity. *)
Ltac wrap_id :=
  repeat first
  [ rewrite u8_id by lia | rewrite u32_id by lia | rewrite u64_id by lia
  | rewrite i32_id by lia | rewrite i64_id by lia ].
