(* ===== verification/Decimal.v ===== *)
(** * Decimal floating point: the two normalisation loops

    [IOUAmount::normalize] and [STAmount::canonicalize] bring a mantissa and an
    exponent into range with the same two loops, the first multiplying the
    mantissa by ten and the second dividing it.  This file has the loops, over
    the width [w] at which the mantissa is computed, with their specification,
    and the comparison of decimals [m * 10 ^ e] that the specifications of the
    amounts are stated with. *)

From stdpp Require Import base tactics numbers list strings option.
From S2P Require Import Prelude.

(** ** Comparison of decimals

    [m1 * 10 ^ e1] against [m2 * 10 ^ e2], at the smaller exponent, so that no
    rational number is needed. *)

Definition dec_le (m1 e1 m2 e2 : Z) : Prop :=
  m1 * 10 ^ (e1 - Z.min e1 e2) <= m2 * 10 ^ (e2 - Z.min e1 e2).

Definition dec_lt (m1 e1 m2 e2 : Z) : Prop :=
  m1 * 10 ^ (e1 - Z.min e1 e2) < m2 * 10 ^ (e2 - Z.min e1 e2).

#[export] Instance dec_le_dec m1 e1 m2 e2 : Decision (dec_le m1 e1 m2 e2).
Proof. unfold dec_le. apply _. Defined.

#[export] Instance dec_lt_dec m1 e1 m2 e2 : Decision (dec_lt m1 e1 m2 e2).
Proof. unfold dec_lt. apply _. Defined.

Lemma pow10_pos k : 0 <= k -> 0 < 10 ^ k.
Proof. intros. by apply Z.pow_pos_nonneg. Qed.

Lemma pow10_split (a b k : Z) : k <= b -> b <= a -> 10 ^ (a - k) = 10 ^ (a - b) * 10 ^ (b - k).
Proof. intros. rewrite <- Z.pow_add_r by lia. f_equal. lia. Qed.

(** Any common exponent below both can be used for the comparison. *)
Lemma dec_lt_at k m1 e1 m2 e2 : k <= e1 -> k <= e2 ->
  dec_lt m1 e1 m2 e2 <-> m1 * 10 ^ (e1 - k) < m2 * 10 ^ (e2 - k).
Proof.
  intros. unfold dec_lt.
  rewrite (pow10_split e1 (Z.min e1 e2) k), (pow10_split e2 (Z.min e1 e2) k) by lia.
  rewrite !Z.mul_assoc. apply Z.mul_lt_mono_pos_r, pow10_pos. lia.
Qed.

Lemma dec_le_at k m1 e1 m2 e2 : k <= e1 -> k <= e2 ->
  dec_le m1 e1 m2 e2 <-> m1 * 10 ^ (e1 - k) <= m2 * 10 ^ (e2 - k).
Proof.
  intros. unfold dec_le.
  rewrite (pow10_split e1 (Z.min e1 e2) k), (pow10_split e2 (Z.min e1 e2) k) by lia.
  rewrite !Z.mul_assoc. apply Z.mul_le_mono_pos_r, pow10_pos. lia.
Qed.

Lemma dec_le_lt m1 e1 m2 e2 : dec_le m1 e1 m2 e2 <-> ~ dec_lt m2 e2 m1 e1.
Proof.
  rewrite (dec_le_at (Z.min e1 e2)), (dec_lt_at (Z.min e1 e2)) by lia. lia.
Qed.

Lemma dec_lt_same m1 m2 e : dec_lt m1 e m2 e <-> m1 < m2.
Proof. rewrite (dec_lt_at e) by lia. rewrite Z.sub_diag. lia. Qed.

Lemma dec_le_same m1 m2 e : dec_le m1 e m2 e <-> m1 <= m2.
Proof. rewrite (dec_le_at e) by lia. rewrite Z.sub_diag. lia. Qed.

Lemma dec_le_refl m e : dec_le m e m e.
Proof. apply dec_le_same. lia. Qed.

Lemma dec_lt_le_trans m1 e1 m2 e2 m3 e3 :
  dec_lt m1 e1 m2 e2 -> dec_le m2 e2 m3 e3 -> dec_lt m1 e1 m3 e3.
Proof.
  set (k := Z.min e1 (Z.min e2 e3)).
  rewrite !(dec_lt_at k), (dec_le_at k) by lia. lia.
Qed.

Lemma dec_le_trans m1 e1 m2 e2 m3 e3 :
  dec_le m1 e1 m2 e2 -> dec_le m2 e2 m3 e3 -> dec_le m1 e1 m3 e3.
Proof.
  set (k := Z.min e1 (Z.min e2 e3)). rewrite !(dec_le_at k) by lia. lia.
Qed.

(** Smaller mantissa and smaller exponent: smaller decimal. *)
Lemma dec_lt_mono m1 e1 m2 e2 : 0 <= m1 -> m1 < m2 -> e1 <= e2 -> dec_lt m1 e1 m2 e2.
Proof.
  intros. rewrite (dec_lt_at e1) by lia. rewrite Z.sub_diag.
  pose proof (pow10_pos (e2 - e1)). nia.
Qed.

Lemma dec_le_mono m1 e1 m2 e2 : 0 <= m1 -> m1 <= m2 -> e1 <= e2 -> dec_le m1 e1 m2 e2.
Proof.
  intros. rewrite (dec_le_at e1) by lia. rewrite Z.sub_diag.
  pose proof (pow10_pos (e2 - e1)). nia.
Qed.

(** Moving powers of ten between mantissa and exponent. *)
Lemma dec_le_scale_r m1 e1 m2 e2 k : 0 <= k ->
  dec_le m1 e1 (m2 * 10 ^ k) (e2 - k) <-> dec_le m1 e1 m2 e2.
Proof.
  intros. set (b := Z.min e1 (e2 - k)). rewrite !(dec_le_at b) by lia.
  rewrite (pow10_split e2 (e2 - k) b) by lia.
  replace (e2 - (e2 - k)) with k by lia. by rewrite Z.mul_assoc.
Qed.

Lemma dec_lt_scale_r m1 e1 m2 e2 k : 0 <= k ->
  dec_lt m1 e1 (m2 * 10 ^ k) (e2 - k) <-> dec_lt m1 e1 m2 e2.
Proof.
  intros. set (b := Z.min e1 (e2 - k)). rewrite !(dec_lt_at b) by lia.
  rewrite (pow10_split e2 (e2 - k) b) by lia.
  replace (e2 - (e2 - k)) with k by lia. by rewrite Z.mul_assoc.
Qed.

Lemma dec_lt_scale_l m1 e1 m2 e2 k : 0 <= k ->
  dec_lt (m1 * 10 ^ k) (e1 - k) m2 e2 <-> dec_lt m1 e1 m2 e2.
Proof.
  intros. set (b := Z.min e2 (e1 - k)). rewrite !(dec_lt_at b) by lia.
  rewrite (pow10_split e1 (e1 - k) b) by lia.
  replace (e1 - (e1 - k)) with k by lia. by rewrite Z.mul_assoc.
Qed.

(** Dividing the mantissa truncates the decimal by less than one unit. *)
Lemma dec_div_le m e k : 0 <= m -> 0 <= k -> dec_le (m / 10 ^ k) (e + k) m e.
Proof.
  intros. rewrite (dec_le_at e) by lia. rewrite Z.sub_diag, Z.pow_0_r.
  replace (e + k - e) with k by lia. pose proof (pow10_pos k).
  pose proof (Z.mul_div_le m (10 ^ k)). lia.
Qed.

Lemma dec_div_lt m e k : 0 <= k -> dec_lt m e (m / 10 ^ k + 1) (e + k).
Proof.
  intros. rewrite (dec_lt_at e) by lia. rewrite Z.sub_diag, Z.pow_0_r.
  replace (e + k - e) with k by lia. pose proof (pow10_pos k).
  pose proof (Z.mul_succ_div_gt m (10 ^ k)). lia.
Qed.

(** ** The loops *)

(** Iterations of either loop: a 64-bit mantissa has at most 20 digits. *)
Definition digits_fuel : nat := 20.

(** [while (v < minM && o > minE) { v *= 10; --o; }] *)
Definition scale_up (w : Z -> Z) (minM minE : Z) (vo : Z * Z) : result (Z * Z) :=
  while_ digits_fuel
    (fun '(v, o) => (v <? minM) && (minE <? o))%bool
    (fun '(v, o) => Ok (w (v * 10), o - 1)) vo.

(** [while (v > maxM) { if (o >= maxE) throw; v /= 10; ++o; }] *)
Definition scale_down (what : string) (maxM maxE : Z) (vo : Z * Z) : result (Z * Z) :=
  while_ digits_fuel
    (fun '(v, o) => maxM <? v)
    (fun '(v, o) => _ ← throw_if (maxE <=? o) what; Ok (v / 10, o + 1)) vo.

Lemma pow10_S k : 0 <= k -> 10 ^ (k + 1) = 10 * 10 ^ k.
Proof. intros. rewrite Z.pow_add_r by lia. lia. Qed.

Lemma pow10_lt_inv k n : 10 ^ k < 10 ^ n -> 0 <= n -> k < n.
Proof. intros ? ?. eapply (Z.pow_lt_mono_r_iff 10); lia. Qed.

Lemma div10_pow v k : 0 <= k -> v / 10 ^ (k + 1) = v / 10 ^ k / 10.
Proof.
  intros. pose proof (pow10_pos k). rewrite pow10_S, Z.mul_comm by lia.
  rewrite Z.div_div; lia.
Qed.

Lemma scale_up_spec w minM minE v o E :
  0 < v -> 0 < minM <= 10 ^ 18 -> (forall z, 0 <= z <= 10 * minM -> w z = z) ->
  wp (scale_up w minM minE (v, o)) (fun '(v', o') => exists k, 0 <= k /\
        v' = v * 10 ^ k /\ o' = o - k /\
        (k = 0 \/ (v' < 10 * minM /\ minE <= o')) /\
        (minM <= v' \/ o' <= minE)) E.
Proof.
  intros Hv HM Hw. unfold scale_up.
  eapply wp_mono.
  - apply (while_wp
      (fun '(v', o') => exists k, 0 <= k /\ v' = v * 10 ^ k /\ o' = o - k /\
          (k = 0 \/ (v' < 10 * minM /\ minE <= o')))
      (fun '(v', o') => 20 - (o - o'))).
    + intros [v' o'] (k & Hk & -> & -> & Hb) Hc. reflect_bools.
      pose proof (pow10_pos k Hk).
      assert (k < 18) by (apply pow10_lt_inv; nia).
      split; [lia|]. simpl. split; [|lia].
      exists (k + 1). rewrite Hw by nia. rewrite pow10_S by lia.
      split_and!; [lia|lia|lia|right]. nia.
    + exists 0. split_and!; try lia.
    + unfold digits_fuel. lia.
  - intros [v' o'] [(k & Hk & -> & -> & Hb) Hc]. exists k.
    split_and!; [done..|]. reflect_bools. destruct Hc; reflect_bools; lia.
  - done.
Qed.

Lemma scale_down_spec what maxM maxE v o :
  0 < v < 10 ^ 20 -> 0 < maxM ->
  wp (scale_down what maxM maxE (v, o))
     (fun '(v', o') => exists k, 0 <= k /\ v' = v / 10 ^ k /\ o' = o + k /\
        v' <= maxM /\ (k = 0 \/ (maxM < v / 10 ^ (k - 1) /\ o' <= maxE)))
     (fun e => e = what /\ exists k, 0 <= k /\ maxM < v / 10 ^ k /\ maxE <= o + k).
Proof.
  intros Hv HM. unfold scale_down. eapply wp_mono.
  - apply (while_wp
      (fun '(v', o') => exists k, 0 <= k /\ v' = v / 10 ^ k /\ o' = o + k /\
          (k = 0 \/ (maxM < v / 10 ^ (k - 1) /\ o' <= maxE)))
      (fun '(v', o') => 20 - (o' - o))
      (fun e => e = what /\ exists k, 0 <= k /\ maxM < v / 10 ^ k /\ maxE <= o + k)).
    + intros [v' o'] (k & Hk & -> & -> & Hb) Hc. reflect_bools.
      pose proof (pow10_pos k Hk).
      pose proof (Z.mul_div_le v (10 ^ k) ltac:(lia)).
      assert (k < 20) by (apply pow10_lt_inv; nia).
      split; [lia|]. apply wp_bind, wp_throw_if; intros Ho; reflect_bools.
      * split; [done|]. exists k. lia.
      * simpl. split; [|lia]. exists (k + 1). rewrite div10_pow by lia.
        replace (k + 1 - 1) with k by lia. split_and!; lia.
    + exists 0. rewrite Z.pow_0_r, Z.div_1_r. split_and!; lia.
    + unfold digits_fuel. lia.
  - intros [v' o'] [(k & Hk & -> & -> & Hb) Hc]. reflect_bools. exists k. lia.
  - done.
Qed.

(** ** Fitting a decimal into the range of an issued amount

    Both routines end the same way: an amount too small becomes zero ([None])
    and an exponent still too large is an overflow. *)

Definition cMinOffset : Z := -96.
Definition cMaxOffset : Z := 80.
Definition cMinValue : Z := 1000000000000000.
Definition cMaxValue : Z := 9999999999999999.

Definition fit (w : Z -> Z) (what : string) (vo : Z * Z) : result (option (Z * Z)) :=
  vo ← scale_up w cMinValue cMinOffset vo;
  vo ← scale_down what cMaxValue cMaxOffset vo;
  let '(v, o) := vo in
  if ((o <? cMinOffset) || (v <? cMinValue))%bool then Ok None
  else _ ← throw_if (cMaxOffset <? o) "value overflow"; Ok (Some (v, o)).

(** [fit_to v o r]: [r] is what the range keeps of [v * 10 ^ o], truncated. *)
Definition fit_to (v o : Z) (r : option (Z * Z)) : Prop :=
  match r with
  | Some (v', o') =>
      cMinValue <= v' <= cMaxValue /\ cMinOffset <= o' <= cMaxOffset /\
      dec_le v' o' v o /\ dec_lt v o (v' + 1) o' /\
      (v <= cMaxValue -> o' <= o /\ v' = v * 10 ^ (o - o')) /\
      (cMaxValue < v -> o <= o' /\ v' = v / 10 ^ (o' - o))
  | None => dec_lt v o cMinValue cMinOffset
  end.

Lemma dec_lt_underflow v o : 0 <= v -> v <= cMaxValue -> o < cMinOffset ->
  dec_lt v o cMinValue cMinOffset.
Proof.
  unfold cMaxValue, cMinOffset, cMinValue. intros.
  apply (dec_lt_scale_r _ _ _ _ 1); [lia|]. apply dec_lt_mono; lia.
Qed.

Lemma dec_le_overflow v o : cMinValue <= v -> cMaxOffset < o ->
  dec_le (cMaxValue + 1) cMaxOffset v o.
Proof.
  unfold cMinValue, cMaxOffset, cMaxValue. intros.
  eapply (dec_le_trans _ _ (10 ^ 15) 81); [|apply dec_le_mono; lia].
  vm_compute. congruence.
Qed.

Lemma scale_down_stays v k : 0 <= v <= cMaxValue -> cMaxValue < v / 10 ^ k -> 0 <= k -> False.
Proof.
  intros. pose proof (pow10_pos k).
  assert (v / 10 ^ k <= v) by (apply Z.div_le_upper_bound; nia). lia.
Qed.

(** The exact case: the mantissa was small enough for [scale_down] to do nothing. *)
Lemma fit_exact v o k : 0 <= k -> 0 < v -> v * 10 ^ k <= cMaxValue ->
  cMinValue <= v * 10 ^ k -> cMinOffset <= o - k <= cMaxOffset ->
  fit_to v o (Some (v * 10 ^ k, o - k)).
Proof.
  intros Hk Hv HM Hm Ho. unfold fit_to. pose proof (pow10_pos k Hk).
  split_and!; try lia.
  - rewrite <- (dec_le_scale_r _ _ _ _ k) by lia. apply dec_le_refl.
  - rewrite <- (dec_lt_scale_l _ _ _ _ k) by lia. apply dec_lt_same. lia.
  - intros. split; [lia|]. f_equal. f_equal. lia.
  - nia.
Qed.

(** The truncating case: [scale_down] divided by [10 ^ k]. *)
Lemma fit_truncates v o k : 0 <= k -> cMaxValue < v -> v / 10 ^ k <= cMaxValue ->
  cMinValue <= v / 10 ^ k -> cMinOffset <= o + k <= cMaxOffset ->
  fit_to v o (Some (v / 10 ^ k, o + k)).
Proof.
  intros Hk Hv HM Hm Ho. unfold fit_to, cMaxValue in *.
  split_and!; try lia.
  - apply dec_div_le; lia.
  - apply dec_div_lt; lia.
  - intros. split; [lia|]. f_equal. f_equal. lia.
Qed.

Lemma scaled_min v k : 0 < k -> cMaxValue < v / 10 ^ (k - 1) -> cMinValue <= v / 10 ^ k.
Proof.
  unfold cMaxValue, cMinValue. intros. replace k with (k - 1 + 1) by lia.
  rewrite div10_pow by lia. apply Z.div_le_lower_bound; lia.
Qed.

(** The specification of the range check, for a mantissa of at most 64 bits. *)
Lemma fit_spec w what v o :
  0 < v < 10 ^ 20 -> (forall z, 0 <= z <= 10 ^ 16 -> w z = z) ->
  wp (fit w what (v, o)) (fit_to v o)
     (fun e => (e = what \/ e = "value overflow"%string) /\
               dec_le (cMaxValue + 1) cMaxOffset v o).
Proof.
  intros Hv Hw. unfold fit. apply wp_bind.
  eapply wp_mono; [apply scale_up_spec; [lia|unfold cMinValue; lia|]| |].
  { intros. apply Hw. unfold cMinValue in *. lia. }
  2: { exact (fun _ (H : False) => match H with end). }
  intros [v1 o1] (k & Hk & -> & -> & Hb & Hx). apply wp_bind.
  pose proof (pow10_pos k Hk).
  eapply wp_mono; [apply scale_down_spec; [|unfold cMaxValue; lia]| |].
  { destruct Hb as [->|[? ?]]; [rewrite Z.pow_0_r; lia|unfold cMinValue in *; nia]. }
  - intros [v2 o2] (j & Hj & -> & -> & HM & Hd).
    destruct (decide (j = 0)) as [->|Hj0].
    + rewrite Z.pow_0_r, Z.div_1_r, Z.add_0_r in *. case_if; simpl.
      * rewrite <- (dec_lt_scale_l _ _ _ _ k) by lia.
        destruct (decide (o - k < cMinOffset)); [by apply dec_lt_underflow; nia|].
        destruct Hif as [?|?]; reflect_bools; [lia|]. apply dec_lt_mono; nia.
      * apply wp_bind, wp_throw_if; intros Ho; reflect_bools; simpl.
        -- split; [by right|]. rewrite <- (dec_le_scale_r _ _ _ _ k) by lia.
           apply dec_le_overflow; lia.
        -- apply fit_exact; lia.
    + destruct Hd as [?|[HM' Hd]]; [done|].
      assert (k = 0) as ->.
      { destruct Hb as [?|[Hlt ?]]; [done|]. exfalso.
        apply (scale_down_stays (v * 10 ^ k) (j - 1)); try lia.
        unfold cMinValue, cMaxValue in *. nia. }
      rewrite Z.pow_0_r, Z.mul_1_r, Z.sub_0_r in *.
      assert (cMaxValue < v).
      { destruct (decide (cMaxValue < v)); [done|]. exfalso.
        apply (scale_down_stays v (j - 1)); lia. }
      pose proof (scaled_min v j ltac:(lia) HM'). case_if; simpl.
      * destruct Hif as [?|?]; reflect_bools; [|lia].
        eapply dec_lt_le_trans; [apply (dec_div_lt v o j); lia|].
        apply (dec_le_scale_r _ _ _ _ 1); [lia|].
        apply dec_le_mono; unfold cMaxValue, cMinValue, cMinOffset in *; lia.
      * apply wp_bind, wp_throw_if; intros Ho; reflect_bools; [lia|].
        apply fit_truncates; lia.
  - intros e (-> & j & Hj & HM & Ho). split; [by left|].
    rewrite <- (dec_le_scale_r _ _ _ _ k) by lia.
    eapply dec_le_trans; [|apply (dec_div_le _ _ j); nia].
    apply dec_le_mono; unfold cMaxValue in *; lia.
Qed.

(** The width and the messages do not change the outcome. *)
Lemma scale_up_ext w1 w2 minM minE v o :
  (forall z, 0 <= z <= 10 * minM -> w1 z = z /\ w2 z = z) -> 0 <= v ->
  scale_up w1 minM minE (v, o) = scale_up w2 minM minE (v, o).
Proof.
  intros Hw Hv. apply (while_ext (fun '(v, _) => 0 <= v)); [|done].
  intros [v' o'] HI Hc. reflect_bools. destruct (Hw (v' * 10)) as [-> ->]; [lia|].
  split; [done|]. intros [v'' o''] [= <- <-]. lia.
Qed.

Lemma scale_down_agrees what1 what2 maxM maxE vo :
  agrees (fun a => a) (scale_down what1 maxM maxE vo) (scale_down what2 maxM maxE vo).
Proof.
  unfold scale_down. generalize digits_fuel as fuel. intros fuel. revert vo.
  induction fuel as [|fuel IH]; intros [v o]; simpl; destruct (maxM <? v); try done.
  destruct (maxE <=? o); simpl; [done|]. apply IH.
Qed.

Lemma fit_agrees w1 w2 what1 what2 v o :
  (forall z, 0 <= z <= 10 ^ 16 -> w1 z = z /\ w2 z = z) -> 0 <= v ->
  agrees (fun a => a) (fit w1 what1 (v, o)) (fit w2 what2 (v, o)).
Proof.
  intros Hw Hv. unfold fit. rewrite (scale_up_ext w1 w2); [|by intros; apply Hw|done].
  apply (agrees_bind (fun a => a)); [apply agrees_refl|]. intros vo.
  apply (agrees_bind (fun a => a)); [apply scale_down_agrees|]. intros [v' o'].
  apply agrees_refl.
Qed.

(** A decimal that is in range already is left alone. *)
Lemma fit_id w what v o :
  cMinValue <= v <= cMaxValue -> cMinOffset <= o <= cMaxOffset ->
  fit w what (v, o) = Ok (Some (v, o)).
Proof.
  intros Hv Ho. unfold fit, scale_up, scale_down, digits_fuel.
  assert ((v <? cMinValue) = false) as Hm by (apply Z.ltb_ge; lia).
  assert ((cMaxValue <? v) = false) as HM by (apply Z.ltb_ge; lia).
  assert ((o <? cMinOffset) = false) as Hl by (apply Z.ltb_ge; lia).
  assert ((cMaxOffset <? o) = false) as Hh by (apply Z.ltb_ge; lia).
  cbn -[cMinValue cMaxValue cMinOffset cMaxOffset].
  rewrite Hm. cbn -[cMinValue cMaxValue cMinOffset cMaxOffset].
  rewrite HM. cbn -[cMinValue cMaxValue cMinOffset cMaxOffset].
  rewrite Hm, Hl. cbn -[cMinValue cMaxValue cMinOffset cMaxOffset]. by rewrite Hh.
Qed.

(** ** Aligning two mantissas before an addition *)

(** [while (o < e) { m /= 10; ++o; }], with the division of C++, which rounds
    toward zero. *)
Definition shrink_to (e : Z) (mo : Z * Z) : result (Z * Z) :=
  while_ (Z.to_nat (e - snd mo))
    (fun '(_, o) => o <? e)
    (fun '(m, o) => Ok (Z.quot m 10, o + 1)) mo.

Lemma quot10_pow m k : 0 <= k -> Z.quot m (10 ^ (k + 1)) = Z.quot (Z.quot m (10 ^ k)) 10.
Proof.
  intros. pose proof (pow10_pos k). rewrite pow10_S, Z.mul_comm by lia.
  rewrite Z.quot_quot; lia.
Qed.

Lemma shrink_to_eq e m o :
  shrink_to e (m, o) = Ok (Z.quot m (10 ^ (Z.max o e - o)), Z.max o e).
Proof.
  assert (wp (shrink_to e (m, o))
    (fun s => s = (Z.quot m (10 ^ (Z.max o e - o)), Z.max o e)) (fun _ => False)) as H.
  2: { destruct (shrink_to e (m, o)); simpl in H; [by subst|done..]. }
  unfold shrink_to. eapply wp_mono.
  - apply (while_wp
      (fun '(m', o') => o <= o' <= Z.max o e /\ m' = Z.quot m (10 ^ (o' - o)))
      (fun '(_, o') => e - o') (fun _ => False)).
    + intros [m' o'] [Ho ->] Hc. reflect_bools. split; [lia|]. simpl.
      replace (o' + 1 - o) with (o' - o + 1) by lia. rewrite quot10_pow by lia. lia.
    + rewrite Z.sub_diag, Z.pow_0_r, Z.quot_1_r. lia.
    + simpl. lia.
  - intros [m' o'] [[Ho ->] Hc]. reflect_bools.
    assert (o' = Z.max o e) as -> by lia. done.
  - done.
Qed.
