(* ===== verification/IOUAmount.v ===== *)
(** * IOUAmount: floating point amounts of issued currency

    Models [class IOUAmount] (src/src/ripple/protocol/IOUAmount.h and
    impl/IOUAmount.cpp): a signed 64-bit mantissa and an exponent, kept
    normalised.  The theorems give the exact meaning of normalisation
    (truncation toward zero, silent underflow, overflow exactly when the value
    is out of range), that the order of the code is the order of the values,
    and how far an addition is from the exact sum. *)

From stdpp Require Import base tactics numbers list strings option.
From S2P Require Import Prelude Decimal.

Module IOUAmount.

Record t := mk { mantissa_ : Z; exponent_ : Z }.

#[export] Instance t_eq_dec : EqDecision t.
Proof. solve_decision. Defined.

Definition minExponent : Z := -96.
Definition maxExponent : Z := 80.
Definition minMantissa : Z := 1000000000000000.
Definition maxMantissa : Z := 9999999999999999.

(** [operator= (beast::Zero)] *)
Definition zero : t := mk 0 (-100).

(** [IOUAmount::normalize] *)
Definition normalize (a : t) : result t :=
  if mantissa_ a =? 0 then Ok zero
  else
    let negative := mantissa_ a <? 0 in
    let m := if negative then i64 (- mantissa_ a) else mantissa_ a in
    me ← scale_up i64 minMantissa minExponent (m, exponent_ a);
    me ← scale_down "IOUAmount::normalize" maxMantissa maxExponent me;
    let '(m, e) := me in
    if ((e <? minExponent) || (m <? minMantissa))%bool then Ok zero
    else
      _ ← throw_if (maxExponent <? e) "value overflow";
      Ok (mk (if negative then i64 (- m) else m) e).

(** [IOUAmount (std::int64_t mantissa, int exponent)] *)
Definition make (m e : Z) : result t := normalize (mk m e).

Definition eqb (a b : t) : bool :=
  ((exponent_ a =? exponent_ b) && (mantissa_ a =? mantissa_ b))%bool.

Definition ltb (a b : t) : bool :=
  let lneg := mantissa_ a <? 0 in
  let rneg := mantissa_ b <? 0 in
  if negb (Bool.eqb lneg rneg) then lneg
  else if mantissa_ a =? 0 then 0 <? mantissa_ b
  else if mantissa_ b =? 0 then false
  else if exponent_ b <? exponent_ a then lneg
  else if exponent_ a <? exponent_ b then negb lneg
  else mantissa_ a <? mantissa_ b.

Definition signum (a : t) : Z :=
  if mantissa_ a <? 0 then -1 else if mantissa_ a =? 0 then 0 else 1.

Definition to_bool (a : t) : bool := negb (mantissa_ a =? 0).

(** Unary [operator-]: the constructor normalises again. *)
Definition neg (a : t) : result t := make (i64 (- mantissa_ a)) (exponent_ a).

(** [operator+=] *)
Definition add (a other : t) : result t :=
  if eqb other zero then Ok a
  else if eqb a zero then Ok other
  else
    me ← shrink_to (exponent_ other) (mantissa_ a, exponent_ a);
    let '(mant, exp) := me in
    me ← shrink_to exp (mantissa_ other, exponent_ other);
    let '(m, _) := me in
    let s := i64 (mant + m) in
    if ((-10 <=? s) && (s <=? 10))%bool then Ok zero
    else normalize (mk s exp).

(** [operator-=] *)
Definition sub (a other : t) : result t := n ← neg other; add a n.

(** ** Normalised amounts *)

Definition wf (a : t) : Prop :=
  a = zero \/
  (minMantissa <= Z.abs (mantissa_ a) <= maxMantissa /\
   minExponent <= exponent_ a <= maxExponent).

#[export] Instance wf_dec a : Decision (wf a).
Proof. unfold wf. apply _. Defined.

(** The value in units of [10 ^ -100], an integer for every normalised amount. *)
Definition units (a : t) : Z := mantissa_ a * 10 ^ (exponent_ a + 100).

(** [normalizes_to m e a]: [a] is the normal form of [m * 10 ^ e]. *)
Definition normalizes_to (m e : Z) (a : t) : Prop :=
  (a = zero /\ (m = 0 \/ dec_lt (Z.abs m) e minMantissa minExponent)) \/
  (a <> zero /\ Z.sgn (mantissa_ a) = Z.sgn m /\
   fit_to (Z.abs m) e (Some (Z.abs (mantissa_ a), exponent_ a))).

(** [normalize] is [fit] on the absolute value with the sign put back. *)
Lemma normalize_fit a :
  mantissa_ a <> 0 -> - 2 ^ 63 < mantissa_ a < 2 ^ 63 ->
  normalize a =
    (r ← fit i64 "IOUAmount::normalize" (Z.abs (mantissa_ a), exponent_ a);
     Ok (match r with
         | Some (v, o) => mk (if mantissa_ a <? 0 then i64 (- v) else v) o
         | None => zero
         end)).
Proof.
  intros Hm Hr. unfold normalize, fit.
  rewrite (proj2 (Z.eqb_neq _ _) Hm).
  replace (if mantissa_ a <? 0 then i64 (- mantissa_ a) else mantissa_ a)
    with (Z.abs (mantissa_ a)) by (case_if; wrap_id; lia).
  change minMantissa with cMinValue. change maxMantissa with cMaxValue.
  change minExponent with cMinOffset. change maxExponent with cMaxOffset.
  destruct (scale_up _ _ _ _) as [vo| |]; simpl; [|done..].
  destruct (scale_down _ _ _ _) as [[v o]| |]; simpl; [|done..].
  case_if; simpl; [done|]. by destruct (cMaxOffset <? o).
Qed.

Lemma fit_i64_spec v o : 0 < v < 2 ^ 63 ->
  wp (fit i64 "IOUAmount::normalize" (v, o)) (fit_to v o)
     (fun _ => dec_le (cMaxValue + 1) cMaxOffset v o).
Proof.
  intros Hv. eapply wp_mono; [apply fit_spec; [lia|]|done|by intros ? [_ ?]].
  intros. apply i64_id. lia.
Qed.

Lemma normalize_spec m e : - 2 ^ 63 < m < 2 ^ 63 ->
  wp (normalize (mk m e))
     (fun a => wf a /\ normalizes_to m e a /\ dec_lt (Z.abs m) e (cMaxValue + 1) cMaxOffset)
     (fun _ => dec_le (cMaxValue + 1) cMaxOffset (Z.abs m) e).
Proof.
  intros Hm. destruct (decide (m = 0)) as [->|Hm0].
  { simpl. split_and!; [by left|by left; split; [|left]|].
    unfold dec_lt. rewrite Z.mul_0_l. pose proof (pow10_pos (cMaxOffset - Z.min e cMaxOffset)).
    unfold cMaxValue in *. nia. }
  rewrite normalize_fit by (simpl; lia). cbn [mantissa_ exponent_].
  apply wp_bind. eapply wp_mono; [apply fit_i64_spec; lia| |done].
  intros [[v o]|]; intros Hf; simpl.
  - pose proof Hf as (Hv & Ho & Hle & Hlt & _).
    assert (Z.abs (if m <? 0 then i64 (- v) else v) = v) as Habs.
    { unfold cMaxValue, cMinValue in *. case_if; wrap_id; lia. }
    split_and!.
    + right. cbn [mantissa_ exponent_]. rewrite Habs. done.
    + right. cbn [mantissa_ exponent_]. rewrite Habs. unfold cMaxValue, cMinValue in *.
      split_and!; [unfold zero; case_if; intros [=]; lia| |done].
      case_if; wrap_id; lia.
    + eapply dec_lt_le_trans; [exact Hlt|]. apply dec_le_mono; lia.
  - split_and!; [by left|left; by split; [|right]|].
    eapply dec_lt_le_trans; [exact Hf|].
    apply dec_le_mono; unfold cMinValue, cMaxValue, cMinOffset, cMaxOffset; lia.
Qed.

(** Normalisation is total on the 64-bit mantissas that can be negated and
    means what it should: it throws exactly when the value is at least
    [10^16 * 10^80]; otherwise the result is well formed and is the value
    truncated toward zero, or zero when the value is below [10^15 * 10^-96]. *)
Theorem normalize_correct m e : - 2 ^ 63 < m < 2 ^ 63 ->
  wp (normalize (mk m e))
     (fun a => wf a /\ normalizes_to m e a /\ dec_lt (Z.abs m) e (cMaxValue + 1) cMaxOffset)
     (fun _ => dec_le (cMaxValue + 1) cMaxOffset (Z.abs m) e).
Proof. apply normalize_spec. Qed.

Lemma normalize_correct_witness :
  (- 2 ^ 63 < 123 < 2 ^ 63) /\
  wp (normalize (mk 123 (-2)))
     (fun a => wf a /\ normalizes_to 123 (-2) a /\ dec_lt (Z.abs 123) (-2) (cMaxValue + 1) cMaxOffset)
     (fun _ => dec_le (cMaxValue + 1) cMaxOffset (Z.abs 123) (-2)).
Proof. split; [lia|apply (normalize_correct 123 (-2)); lia]. Defined.

(** ** Order *)

Lemma wf_units_abs a : wf a -> a <> zero ->
  10 ^ (exponent_ a + 115) <= Z.abs (units a) < 10 ^ (exponent_ a + 116).
Proof.
  intros [?|[Hm He]] Hz; [done|]. unfold units, minMantissa, maxMantissa, minExponent in *.
  rewrite Z.abs_mul, (Z.abs_eq (10 ^ _)) by (apply Z.pow_nonneg; lia).
  replace (exponent_ a + 115) with (15 + (exponent_ a + 100)) by lia.
  replace (exponent_ a + 116) with (16 + (exponent_ a + 100)) by lia.
  pose proof (pow10_pos (exponent_ a + 100)). rewrite !(Z.pow_add_r 10 _ (_ + 100)) by lia. nia.
Qed.

Lemma units_sgn a : wf a -> Z.sgn (units a) = Z.sgn (mantissa_ a).
Proof.
  intros Hwf. unfold units. rewrite Z.sgn_mul.
  assert (0 < 10 ^ (exponent_ a + 100)).
  { apply pow10_pos. destruct Hwf as [->|[_ ?]]; simpl; unfold minExponent in *; lia. }
  rewrite (Z.sgn_pos (10 ^ _)); lia.
Qed.

(** Among amounts of one sign the larger exponent is the larger magnitude. *)
Lemma units_exponent_lt a b : wf a -> wf b -> a <> zero -> b <> zero ->
  exponent_ a < exponent_ b -> Z.abs (units a) < Z.abs (units b).
Proof.
  intros Ha Hb Hza Hzb He.
  pose proof (wf_units_abs a Ha Hza). pose proof (wf_units_abs b Hb Hzb).
  enough (10 ^ (exponent_ a + 116) <= 10 ^ (exponent_ b + 115)) by lia.
  apply Z.pow_le_mono_r; lia.
Qed.

Lemma wf_nonzero a : wf a -> a <> zero -> mantissa_ a <> 0.
Proof. intros [->|[Hm _]]; [done|]. unfold minMantissa in *. lia. Qed.

Lemma ltb_spec a b : wf a -> wf b ->
  (ltb a b = true <-> units a < units b) /\ (eqb a b = true <-> units a = units b).
Proof.
  intros Ha Hb.
  pose proof (units_sgn a Ha). pose proof (units_sgn b Hb).
  pose proof (wf_nonzero a Ha). pose proof (wf_nonzero b Hb).
  pose proof (units_exponent_lt a b Ha Hb). pose proof (units_exponent_lt b a Hb Ha).
  assert (exponent_ a = exponent_ b -> 0 < 10 ^ (exponent_ a + 100) /\
    units a = mantissa_ a * 10 ^ (exponent_ a + 100) /\
    units b = mantissa_ b * 10 ^ (exponent_ a + 100)).
  { intros He. unfold units. rewrite <- He. split; [|done]. apply pow10_pos.
    destruct Ha as [->|[_ ?]]; simpl; unfold minExponent in *; lia. }
  unfold eqb, ltb. rewrite andb_true_iff, !Z.eqb_eq.
  destruct (decide (a = zero)) as [->|Hza], (decide (b = zero)) as [->|Hzb].
  - done.
  - specialize (H2 Hzb). change (units zero) with 0. simpl.
    destruct (mantissa_ b <? 0) eqn:Hsb; simpl; reflect_bools;
      rewrite ?Z.ltb_lt; split; split; intros; try done; lia.
  - specialize (H1 Hza). change (units zero) with 0. simpl.
    destruct (mantissa_ a <? 0) eqn:Hsa; simpl; reflect_bools;
      [|destruct (mantissa_ a =? 0) eqn:Hma; reflect_bools]; split; split; intros; try done; lia.
  - specialize (H1 Hza). specialize (H2 Hzb). specialize (H3 Hza Hzb). specialize (H4 Hzb Hza).
    destruct (decide (exponent_ a = exponent_ b)) as [He|He].
    + destruct H5 as (Hp & -> & ->); [done|].
      rewrite <- Z.mul_lt_mono_pos_r, Z.mul_cancel_r by lia. rewrite He, Z.ltb_irrefl.
      destruct (mantissa_ a <? 0) eqn:Hsa, (mantissa_ b <? 0) eqn:Hsb; simpl; reflect_bools;
        repeat case_if; rewrite ?Z.ltb_lt; split; split; intros; try done; lia.
    + destruct (mantissa_ a <? 0) eqn:Hsa, (mantissa_ b <? 0) eqn:Hsb; simpl; reflect_bools;
        repeat case_if; rewrite ?Z.ltb_lt; split; split; intros; try done; lia.
Qed.

(** The order the code computes by sign, exponent and mantissa is the order
    of the values, and its equality is equality of values. *)
Theorem ltb_correct a b : wf a -> wf b ->
  (ltb a b = true <-> units a < units b) /\ (eqb a b = true <-> units a = units b).
Proof. apply ltb_spec. Qed.

Lemma ltb_correct_witness :
  wf (mk 1500000000000000 (-15)) /\ wf (mk (-2000000000000000) 3) /\
  (ltb (mk 1500000000000000 (-15)) (mk (-2000000000000000) 3) = true <->
     units (mk 1500000000000000 (-15)) < units (mk (-2000000000000000) 3)) /\
  (eqb (mk 1500000000000000 (-15)) (mk (-2000000000000000) 3) = true <->
     units (mk 1500000000000000 (-15)) = units (mk (-2000000000000000) 3)).
Proof.
  assert (wf (mk 1500000000000000 (-15))) as H1 by (right; vm_compute; intuition congruence).
  assert (wf (mk (-2000000000000000) 3)) as H2 by (right; vm_compute; intuition congruence).
  split; [exact H1|split; [exact H2|]]. exact (ltb_correct _ _ H1 H2).
Defined.

Lemma ltb_same_exponent a b : exponent_ a = exponent_ b -> ltb a b = (mantissa_ a <? mantissa_ b).
Proof.
  intros He. unfold ltb. rewrite He, Z.ltb_irrefl.
  destruct (mantissa_ a <? 0) eqn:Ha, (mantissa_ b <? 0) eqn:Hb; reflect_bools; simpl;
    repeat case_if; symmetry; rewrite ?Z.ltb_lt, ?Z.ltb_ge; (reflexivity || lia).
Qed.

(** ** Addition *)

(** The sum of the aligned mantissas, before normalisation. *)
Definition aligned_sum (a b : t) : Z :=
  let e := Z.max (exponent_ a) (exponent_ b) in
  Z.quot (mantissa_ a) (10 ^ (e - exponent_ a)) + Z.quot (mantissa_ b) (10 ^ (e - exponent_ b)).

Lemma eqb_eq a b : eqb a b = true <-> a = b.
Proof.
  unfold eqb. rewrite andb_true_iff, !Z.eqb_eq. destruct a, b; simpl.
  split; [by intros [-> ->]|by intros [= -> ->]].
Qed.

Lemma quot_abs_le m p : 0 < p -> Z.abs (Z.quot m p) <= Z.abs m.
Proof.
  intros. rewrite <- Z.quot_abs, Z.quot_div_nonneg by lia.
  apply Z.div_le_upper_bound; nia.
Qed.

Lemma wf_mantissa_abs a : wf a -> Z.abs (mantissa_ a) <= maxMantissa.
Proof. intros [->|[? _]]; [vm_compute; congruence|lia]. Qed.

Lemma wf_exponent a : wf a -> a <> zero -> minExponent <= exponent_ a <= maxExponent.
Proof. by intros [->|[_ ?]]. Qed.

Lemma aligned_sum_abs a b : wf a -> wf b -> Z.abs (aligned_sum a b) <= 2 * maxMantissa.
Proof.
  intros Ha%wf_mantissa_abs Hb%wf_mantissa_abs. unfold aligned_sum.
  set (e := Z.max _ _).
  pose proof (quot_abs_le (mantissa_ a) (10 ^ (e - exponent_ a)) ltac:(apply pow10_pos; lia)).
  pose proof (quot_abs_le (mantissa_ b) (10 ^ (e - exponent_ b)) ltac:(apply pow10_pos; lia)).
  lia.
Qed.

Lemma add_unfold a b : wf a -> wf b -> a <> zero -> b <> zero ->
  add a b = if ((-10 <=? aligned_sum a b) && (aligned_sum a b <=? 10))%bool then Ok zero
            else normalize (mk (aligned_sum a b) (Z.max (exponent_ a) (exponent_ b))).
Proof.
  intros Ha Hb Hza Hzb. unfold add.
  rewrite <- eqb_eq in Hza, Hzb. apply not_true_is_false in Hza, Hzb.
  rewrite Hza, Hzb, shrink_to_eq. cbn -[shrink_to]. rewrite shrink_to_eq. cbn.
  pose proof (aligned_sum_abs a b Ha Hb) as HS. unfold aligned_sum, maxMantissa in *.
  rewrite (Z.max_r (exponent_ b)) by lia.
  rewrite i64_id by lia. done.
Qed.

(** Truncating one operand loses less than one unit of the larger exponent. *)
Lemma quot_error m e E : 0 <= e + 100 -> e <= E ->
  Z.abs (Z.quot m (10 ^ (E - e)) * 10 ^ (E + 100) - m * 10 ^ (e + 100)) < 10 ^ (E + 100) /\
  (e = E -> Z.quot m (10 ^ (E - e)) * 10 ^ (E + 100) = m * 10 ^ (e + 100)).
Proof.
  intros He HE. pose proof (pow10_pos (E - e) ltac:(lia)).
  pose proof (pow10_pos (e + 100) ltac:(lia)).
  replace (E + 100) with (E - e + (e + 100)) by lia. rewrite Z.pow_add_r by lia.
  pose proof (Z.quot_rem' m (10 ^ (E - e))).
  pose proof (Z.rem_bound_abs m (10 ^ (E - e)) ltac:(lia)).
  rewrite !Z.mul_assoc, <- Z.mul_sub_distr_r, Z.abs_mul. split.
  - rewrite (Z.abs_eq (10 ^ (e + 100))) by lia. apply Z.mul_lt_mono_pos_r; lia.
  - intros ->. rewrite Z.sub_diag, Z.pow_0_r, Z.quot_1_r. lia.
Qed.

Lemma aligned_sum_error a b : wf a -> wf b -> a <> zero -> b <> zero ->
  let E := Z.max (exponent_ a) (exponent_ b) in
  Z.abs (aligned_sum a b * 10 ^ (E + 100) - (units a + units b)) < 10 ^ (E + 100).
Proof.
  intros Ha Hb Hza Hzb E. unfold aligned_sum, units. fold E.
  pose proof (wf_exponent a Ha Hza). pose proof (wf_exponent b Hb Hzb).
  unfold minExponent in *.
  destruct (quot_error (mantissa_ a) (exponent_ a) E ltac:(lia) ltac:(lia)) as [Hea Hxa].
  destruct (quot_error (mantissa_ b) (exponent_ b) E ltac:(lia) ltac:(lia)) as [Heb Hxb].
  rewrite Z.mul_add_distr_r.
  destruct (decide (exponent_ a = E)) as [He|He].
  - rewrite (Hxa He). lia.
  - rewrite Hxb by lia. lia.
Qed.

(** A normal form is within nine units of the exponent it came from. *)
Lemma fit_units_error v o v' o' : 0 <= v < 10 ^ 17 -> - 100 <= o ->
  fit_to v o (Some (v', o')) ->
  Z.abs (v' * 10 ^ (o' + 100) - v * 10 ^ (o + 100)) <= 9 * 10 ^ (o + 100).
Proof.
  intros Hv Ho (Hm & He & _ & _ & Hexact & Htrunc).
  pose proof (pow10_pos (o + 100) ltac:(lia)).
  destruct (decide (v <= cMaxValue)) as [Hle|Hgt].
  - destruct (Hexact Hle) as [? ->]. rewrite <- Z.mul_assoc, <- Z.pow_add_r by
      (unfold cMinOffset in *; lia).
    replace (o - o' + (o' + 100)) with (o + 100) by lia. lia.
  - destruct (Htrunc ltac:(lia)) as [? ->].
    assert (o' - o < 2).
    { apply (pow10_lt_inv (o' - o) 2); [|lia]. unfold cMinValue in *.
      pose proof (pow10_pos (o' - o) ltac:(lia)).
      pose proof (Z.mul_div_le v (10 ^ (o' - o)) ltac:(lia)). nia. }
    assert (o' = o \/ o' = o + 1) as [->| ->] by lia.
    + rewrite Z.sub_diag, Z.pow_0_r, Z.div_1_r. lia.
    + replace (o + 1 - o) with 1 by lia. replace (o + 1 + 100) with (o + 100 + 1) by lia.
      rewrite pow10_S, Z.pow_1_r by lia. pose proof (Z.div_mod v 10 ltac:(lia)).
      pose proof (Z.mod_pos_bound v 10 ltac:(lia)).
      rewrite Z.mul_assoc, <- Z.mul_sub_distr_r, Z.abs_mul, (Z.abs_eq (10 ^ (o + 100))) by lia.
      apply Z.mul_le_mono_nonneg_r; lia.
Qed.

Lemma dec_lt_units m1 e1 m2 e2 : - 100 <= e1 -> - 100 <= e2 ->
  dec_lt m1 e1 m2 e2 <-> m1 * 10 ^ (e1 + 100) < m2 * 10 ^ (e2 + 100).
Proof.
  intros. rewrite (dec_lt_at (-100)) by lia.
  by replace (e1 - -100) with (e1 + 100) by lia; replace (e2 - -100) with (e2 + 100) by lia.
Qed.

Lemma units_signed a s : Z.sgn (mantissa_ a) = Z.sgn s -> - 100 <= exponent_ a ->
  forall U, 0 <= U -> Z.abs (units a - s * U) =
    Z.abs (Z.abs (mantissa_ a) * 10 ^ (exponent_ a + 100) - Z.abs s * U).
Proof.
  intros Hs He U HU. unfold units. pose proof (pow10_pos (exponent_ a + 100) ltac:(lia)).
  destruct (Z.sgn_spec (mantissa_ a)) as [[? ?]|[[? ?]|[? ?]]],
    (Z.sgn_spec s) as [[? ?]|[[? ?]|[? ?]]]; lia.
Qed.

(** Addition is total on well-formed amounts; the sum is well formed and
    within eleven units of the larger exponent of the exact sum, except that a
    sum too small to represent becomes zero; it throws only when the exact sum
    is out of range. *)
Theorem add_correct a b : wf a -> wf b ->
  let E := Z.max (exponent_ a) (exponent_ b) in
  wp (add a b)
     (fun c => wf c /\
        (Z.abs (units c - (units a + units b)) < 11 * 10 ^ (E + 100) \/
         (c = zero /\ Z.abs (units a + units b) < 2 * 10 ^ 19)))
     (fun _ => 10 ^ 196 - 10 ^ 180 < Z.abs (units a + units b)).
Proof.
  intros Ha Hb E.
  assert (-100 <= E) as HE.
  { unfold E. destruct Ha as [->|[_ ?]]; simpl; unfold minExponent in *; lia. }
  pose proof (pow10_pos (E + 100) ltac:(lia)) as Hp.
  destruct (decide (b = zero)) as [->|Hzb].
  { unfold add. simpl. split; [done|]. left. change (units zero) with 0. lia. }
  destruct (decide (a = zero)) as [->|Hza].
  { unfold add. rewrite (not_true_is_false (eqb b zero)) by by rewrite eqb_eq.
    simpl. split; [done|]. left. change (units zero) with 0. lia. }
  pose proof (aligned_sum_error a b Ha Hb Hza Hzb) as Herr. fold E in Herr. simpl in Herr.
  pose proof (aligned_sum_abs a b Ha Hb) as HS. unfold maxMantissa in HS.
  pose proof (wf_exponent a Ha Hza). pose proof (wf_exponent b Hb Hzb).
  rewrite add_unfold by done. fold E. set (s := aligned_sum a b) in *.
  destruct ((-10 <=? s) && (s <=? 10))%bool eqn:Hs; reflect_bools.
  { simpl. split; [by left|]. left. change (units zero) with 0. nia. }
  eapply wp_mono; [apply normalize_spec; lia| |].
  - intros c (Hwf & Hn & _). split; [done|].
    destruct Hn as [[-> [?|Hu]]|(Hz & Hsg & Hf)].
    + destruct Hs; reflect_bools; lia.
    + right. split; [done|]. apply dec_lt_units in Hu; [|lia|unfold minExponent; lia].
      unfold minMantissa, minExponent in Hu. simpl (10 ^ (-96 + 100)) in Hu.
      destruct Hs; reflect_bools; nia.
    + left. pose proof (wf_exponent c Hwf Hz). unfold minExponent in *.
      pose proof (fit_units_error (Z.abs s) E (Z.abs (mantissa_ c)) (exponent_ c)
        ltac:(lia) ltac:(lia) Hf).
      pose proof (units_signed c s Hsg ltac:(lia) (10 ^ (E + 100)) ltac:(lia)). lia.
  - intros ? Ho. unfold cMaxValue, cMaxOffset in Ho. apply dec_le_lt in Ho.
    rewrite dec_lt_units in Ho by lia. simpl (9999999999999999 + 1) in Ho.
    assert (10 ^ (E + 100) <= 10 ^ 180).
    { apply Z.pow_le_mono_r; [lia|]. unfold E, maxExponent in *. lia. }
    change (10 ^ 196) with (10000000000000000 * 10 ^ (80 + 100)). nia.
Qed.

Lemma add_correct_witness :
  wf (mk 1500000000000000 (-15)) /\ wf (mk 2500000000000000 (-14)) /\
  wp (add (mk 1500000000000000 (-15)) (mk 2500000000000000 (-14)))
     (fun c => wf c /\
        (Z.abs (units c - (units (mk 1500000000000000 (-15)) + units (mk 2500000000000000 (-14))))
           < 11 * 10 ^ (Z.max (-15) (-14) + 100) \/
         (c = zero /\ Z.abs (units (mk 1500000000000000 (-15)) + units (mk 2500000000000000 (-14)))
           < 2 * 10 ^ 19)))
     (fun _ => 10 ^ 196 - 10 ^ 180 <
        Z.abs (units (mk 1500000000000000 (-15)) + units (mk 2500000000000000 (-14)))).
Proof.
  assert (wf (mk 1500000000000000 (-15))) as H1 by (right; vm_compute; intuition congruence).
  assert (wf (mk 2500000000000000 (-14))) as H2 by (right; vm_compute; intuition congruence).
  split; [exact H1|split; [exact H2|]]. exact (add_correct _ _ H1 H2).
Defined.

Lemma normalize_wf a : wf a -> normalize a = Ok a.
Proof.
  intros Hwf. destruct (decide (a = zero)) as [->|Hz]; [done|].
  pose proof (wf_nonzero a Hwf Hz). pose proof (wf_mantissa_abs a Hwf).
  destruct Hwf as [?|[Hm He]]; [done|]. unfold maxMantissa in *.
  rewrite normalize_fit, fit_id by (done || lia). cbn.
  destruct a; simpl in *. do 2 f_equal. case_if; wrap_id; lia.
Qed.

Lemma neg_wf a : wf a -> wf (mk (- mantissa_ a) (exponent_ a)) \/ a = zero.
Proof. intros [->|[Hm He]]; [by right|left]. right. simpl. lia. Qed.

(** Negation of a well-formed amount keeps the exponent and negates the
    mantissa, and an amount minus itself is zero. *)
Theorem sub_self a : wf a ->
  neg a = Ok (mk (- mantissa_ a) (exponent_ a)) /\ sub a a = Ok zero.
Proof.
  intros Hwf. pose proof (wf_mantissa_abs a Hwf). unfold maxMantissa in *.
  assert (neg a = Ok (mk (- mantissa_ a) (exponent_ a))) as Hneg.
  { unfold neg, make. rewrite i64_id by lia.
    destruct (neg_wf a Hwf) as [Hn| ->]; [by apply normalize_wf|done]. }
  split; [done|]. unfold sub. rewrite Hneg. simpl.
  destruct (neg_wf a Hwf) as [Hn| ->]; [|done].
  destruct (decide (a = zero)) as [->|Hz]; [done|].
  rewrite add_unfold; try done.
  - unfold aligned_sum. simpl. rewrite Z.max_id, !Z.sub_diag, !Z.quot_1_r.
    rewrite Z.add_opp_diag_r. done.
  - pose proof (wf_nonzero a Hwf Hz). intros [= ? ?]. lia.
Qed.

Lemma sub_self_witness :
  wf (mk (-1234567890123456) 12) /\
  neg (mk (-1234567890123456) 12) = Ok (mk (- (-1234567890123456)) 12) /\
  sub (mk (-1234567890123456) 12) (mk (-1234567890123456) 12) = Ok zero.
Proof.
  assert (wf (mk (-1234567890123456) 12)) as H1 by (right; vm_compute; intuition congruence).
  split; [exact H1|]. exact (sub_self _ H1).
Defined.

(** Addition is commutative, exceptions included. *)
Theorem add_comm a b : wf a -> wf b -> add a b = add b a.
Proof.
  intros Ha Hb.
  destruct (decide (a = zero)) as [->|Hza], (decide (b = zero)) as [->|Hzb].
  - done.
  - unfold add. rewrite (not_true_is_false (eqb b zero)) by by rewrite eqb_eq. done.
  - unfold add. rewrite (not_true_is_false (eqb a zero)) by by rewrite eqb_eq. done.
  - rewrite !add_unfold by done. unfold aligned_sum.
    rewrite (Z.max_comm (exponent_ b)), (Z.add_comm (Z.quot (mantissa_ b) _)). done.
Qed.

Lemma add_comm_witness :
  wf (mk 1500000000000000 (-15)) /\ wf (mk (-2500000000000000) 7) /\
  add (mk 1500000000000000 (-15)) (mk (-2500000000000000) 7) =
  add (mk (-2500000000000000) 7) (mk 1500000000000000 (-15)).
Proof.
  assert (wf (mk 1500000000000000 (-15))) as H1 by (right; vm_compute; intuition congruence).
  assert (wf (mk (-2500000000000000) 7)) as H2 by (right; vm_compute; intuition congruence).
  split; [exact H1|split; [exact H2|]]. exact (add_comm _ _ H1 H2).
Defined.

End IOUAmount.
