(* ===== verification/BigNum.v ===== *)
(** * CBigNum: the interface to the big-number library

    [CBigNum] (src/src/ripple/crypto/impl/CBigNum.cpp) wraps OpenSSL's [BIGNUM],
    which is not part of this repository.  Its operations are the fields of the
    class [BN]; what the amounts rely on, OpenSSL's documented behaviour of
    [BN_add_word], [BN_mul_word], [BN_div_word] and [BN_get_word], is the class
    [BNLaws].  [Zbn] is an instance of both on the integers. *)

From stdpp Require Import base tactics numbers list strings option.
From S2P Require Import Prelude.

(** The operations mutate their first argument: each returns its C result and
    the new number. *)
Class BN := {
  bn : Type;
  BN_new : bn;
  BN_add_word : bn -> Z -> Z * bn;
  BN_mul_word : bn -> Z -> Z * bn;
  BN_div_word : bn -> Z -> Z * bn;
  BN_get_word : bn -> Z
}.

Definition word_ok (w : Z) : Prop := 0 <= w < 2 ^ 64.

(** [BN_add_word] and [BN_mul_word] return 1 on success; [BN_div_word] returns
    the remainder, or all ones for a zero divisor; [BN_get_word] returns all
    ones for a number of more than 64 bits. *)
Class BNLaws (B : BN) := {
  bn_val : bn -> Z;
  bn_val_new : bn_val BN_new = 0;
  bn_add_spec a w : 0 <= bn_val a -> word_ok w ->
    exists a', BN_add_word a w = (1, a') /\ bn_val a' = bn_val a + w;
  bn_mul_spec a w : 0 <= bn_val a -> word_ok w ->
    exists a', BN_mul_word a w = (1, a') /\ bn_val a' = bn_val a * w;
  bn_div_spec a w : 0 <= bn_val a -> 0 < w < 2 ^ 64 ->
    exists a', BN_div_word a w = (bn_val a mod w, a') /\ bn_val a' = bn_val a / w;
  bn_div_zero a : fst (BN_div_word a 0) = 2 ^ 64 - 1;
  bn_get_spec a : 0 <= bn_val a ->
    BN_get_word a = if decide (bn_val a < 2 ^ 64) then bn_val a else 2 ^ 64 - 1
}.

(** The wrappers of CBigNum.cpp on a platform with 64-bit words. *)
Definition BN_add_word64 `{BN} (a : bn) (w : Z) : Z * bn := BN_add_word a w.
Definition BN_mul_word64 `{BN} (a : bn) (w : Z) : Z * bn := BN_mul_word a w.
Definition BN_div_word64 `{BN} (a : bn) (w : Z) : Z * bn := BN_div_word a w.
Definition getuint64 `{BN} (a : bn) : Z := u64 (BN_get_word a).

(** Integers implement the interface. *)
#[export] Instance Zbn : BN := {
  bn := Z;
  BN_new := 0;
  BN_add_word a w := (1, a + w);
  BN_mul_word a w := (1, a * w);
  BN_div_word a w := if w =? 0 then (2 ^ 64 - 1, a) else (a mod w, a / w);
  BN_get_word a := if a <? 2 ^ 64 then a else 2 ^ 64 - 1
}.

#[export] Instance Zbn_laws : BNLaws Zbn.
Proof.
  unshelve refine (@Build_BNLaws Zbn (fun a => a) _ _ _ _ _ _); try done; simpl; intros.
  - eauto.
  - eauto.
  - rewrite (proj2 (Z.eqb_neq _ _)) by lia. eauto.
  - case_decide; case_if; lia.
Defined.

(** [v = (a * b + c) / d] as the amounts compute it, with their error checks. *)
Section muldiv.
Context `{B : BN}.

Definition bn_muldiv (a b : Z) (c : option Z) (d : Z) : result bn :=
  let '(r1, v) := BN_add_word64 BN_new a in
  let '(r2, v) := BN_mul_word64 v b in
  _ ← throw_if (negb (r1 =? 1) || negb (r2 =? 1))%bool "internal bn error";
  let v := match c with Some c => snd (BN_add_word64 v c) | None => v end in
  let '(r3, v) := BN_div_word64 v d in
  _ ← throw_if (r3 =? 2 ^ 64 - 1) "internal bn error";
  Ok v.

Context {L : BNLaws B}.

Lemma bn_muldiv_spec a b c d : word_ok a -> word_ok b -> 0 < d < 2 ^ 64 ->
  match c with Some c => word_ok c | None => True end ->
  exists v, bn_muldiv a b c d = Ok v /\ bn_val v = (a * b + default 0 c) / d.
Proof.
  unfold word_ok. intros Ha Hb Hd Hc. unfold bn_muldiv, BN_add_word64, BN_mul_word64, BN_div_word64.
  destruct (bn_add_spec BN_new a) as (v1 & -> & Hv1); [by rewrite bn_val_new|done|].
  rewrite bn_val_new in Hv1.
  destruct (bn_mul_spec v1 b) as (v2 & -> & Hv2); [lia|done|]. simpl.
  assert (exists v3, match c with Some c => snd (BN_add_word v2 c) | None => v2 end = v3 /\
    bn_val v3 = a * b + default 0 c) as (v3 & Hv & Hv3).
  { destruct c as [c|]; simpl; [|eexists; split; [done|rewrite Hv2, Hv1; lia]].
    destruct (bn_add_spec v2 c) as (v3 & -> & Hv3); [nia|done|].
    exists v3; split; [done|]. rewrite Hv3, Hv2, Hv1. lia. }
  rewrite Hv. assert (0 <= bn_val v3) by (rewrite Hv3; destruct c; simpl; nia).
  destruct (bn_div_spec v3 d) as (v4 & -> & Hv4); [done..|].
  pose proof (Z.mod_pos_bound (bn_val v3) d ltac:(lia)).
  rewrite (proj2 (Z.eqb_neq _ _)) by lia. simpl. exists v4. split; [done|].
  by rewrite Hv4, Hv3.
Qed.

Lemma getuint64_spec v : 0 <= bn_val v < 2 ^ 64 -> getuint64 v = bn_val v.
Proof.
  intros. unfold getuint64. rewrite bn_get_spec by lia. case_decide; [|lia]. by apply u64_id.
Qed.

End muldiv.
