(* ===== verification/Serializer.v ===== *)
(** * Serializer and SerialIter: the binary format

    Models [class Serializer] and [class SerialIter]
    (src/src/ripple/protocol/Serializer.h and impl/Serializer.cpp).  A byte is a
    [Z] in [0, 256); a [Blob] is a list of bytes; the writers append to the
    blob and return its previous size, as the code does; the iterator keeps
    the buffer, the number of bytes used and the number remaining.  The
    theorems are the round trips of the format: integers, field identifiers
    and variable-length blobs are read back as they were written, and the
    iterator ends exactly behind them. *)

From stdpp Require Import base tactics numbers list strings option pretty.
From S2P Require Import Prelude.

Module Serializer.

Abbreviation Blob := (list Z).

Definition byte (b : Z) : Prop := 0 <= b < 256.
Definition bytes (l : Blob) : Prop := Forall byte l.

Definition size (s : Blob) : Z := Z.of_nat (length s).

(** Bytes [i >> 8(n-1)], ..., [i & 0xff]: most significant first. *)
Fixpoint be_bytes (n : nat) (i : Z) : Blob :=
  match n with
  | O => []
  | S n' => be_bytes n' (Z.shiftr i 8) ++ [Z.land i 255]
  end.

(** [mData.insert (mData.end (), ...)], returning the old size. *)
Definition addRaw (b : Blob) (s : Blob) : Z * Blob := (size s, s ++ b).

Definition addZeros (uBytes : nat) (s : Blob) : Z * Blob :=
  (size s, s ++ replicate uBytes 0).

Definition add8 (b : Z) (s : Blob) : Z * Blob := (size s, s ++ [b]).

Definition add16 (i : Z) (s : Blob) : Z * Blob :=
  (size s, s ++ [u8 (Z.shiftr i 8); u8 (Z.land i 255)]).

Definition add32 (i : Z) (s : Blob) : Z * Blob :=
  (size s, s ++ [u8 (Z.shiftr i 24); u8 (Z.land (Z.shiftr i 16) 255);
                 u8 (Z.land (Z.shiftr i 8) 255); u8 (Z.land i 255)]).

Definition add64 (i : Z) (s : Blob) : Z * Blob :=
  (size s, s ++ [u8 (Z.shiftr i 56); u8 (Z.land (Z.shiftr i 48) 255);
                 u8 (Z.land (Z.shiftr i 40) 255); u8 (Z.land (Z.shiftr i 32) 255);
                 u8 (Z.land (Z.shiftr i 24) 255); u8 (Z.land (Z.shiftr i 16) 255);
                 u8 (Z.land (Z.shiftr i 8) 255); u8 (Z.land i 255)]).

(** [addBitString<Bits>]: a [base_uint] is stored most significant byte first. *)
Definition addBitString (n : nat) (v : Z) (s : Blob) : Z * Blob :=
  (size s, s ++ be_bytes n v).
Definition add128 := addBitString 16.
Definition add160 := addBitString 20.
Definition add256 := addBitString 32.

Definition addFieldID (type name : Z) (s : Blob) : Z * Blob :=
  (size s,
   s ++ (if type <? 16 then
           if name <? 16 then [u8 (Z.lor (Z.shiftl type 4) name)]
           else [u8 (Z.shiftl type 4); u8 name]
         else if name <? 16 then [u8 name; u8 type]
         else [u8 0; u8 type; u8 name])).

(** ** Length prefixes *)

Definition encodeLengthLength (length : Z) : result Z :=
  if length <? 0 then Throw "len<0"
  else if length <=? 192 then Ok 1
  else if length <=? 12480 then Ok 2
  else if length <=? 918744 then Ok 3
  else Throw "len>918744".

Definition lengthVL (length : Z) : result Z :=
  l ← encodeLengthLength length; Ok (length + l).

Definition addEncoded (length : Z) (s : Blob) : result (Z * Blob) :=
  if length <=? 192 then Ok (addRaw [u8 length] s)
  else if length <=? 12480 then
    let length := length - 193 in
    Ok (addRaw [u8 (193 + u8 (Z.shiftr length 8)); u8 (Z.land length 255)] s)
  else if length <=? 918744 then
    let length := length - 12481 in
    Ok (addRaw [u8 (241 + u8 (Z.shiftr length 16));
                u8 (Z.land (Z.shiftr length 8) 255); u8 (Z.land length 255)] s)
  else Throw "lenlen".

Definition addVL (v : Blob) (s : Blob) : result (Z * Blob) :=
  rs ← addEncoded (size v) s;
  let '(ret, s) := rs in
  Ok (ret, snd (addRaw v s)).

Definition decodeLengthLength (b1 : Z) : result Z :=
  if b1 <? 0 then Throw "b1<0"
  else if b1 <=? 192 then Ok 1
  else if b1 <=? 240 then Ok 2
  else if b1 <=? 254 then Ok 3
  else Throw "b1>254".

Definition decodeVLLength1 (b1 : Z) : result Z :=
  if b1 <? 0 then Throw "b1<0"
  else if 254 <? b1 then Throw "b1>254"
  else Ok b1.

Definition decodeVLLength2 (b1 b2 : Z) : result Z :=
  if b1 <? 193 then Throw "b1<193"
  else if 240 <? b1 then Throw "b1>240"
  else Ok (193 + (b1 - 193) * 256 + b2).

Definition decodeVLLength3 (b1 b2 b3 : Z) : result Z :=
  if b1 <? 241 then Throw "b1<241"
  else if 254 <? b1 then Throw "b1>254"
  else Ok (12481 + (b1 - 241) * 65536 + b2 * 256 + b3).

(** ** Reading at an offset

    [None] is a [false] return; a [false] return leaves the output unchanged. *)

Definition get8 (offset : Z) (s : Blob) : option Z :=
  if size s <=? offset then None else s !! Z.to_nat offset.

Definition getRaw (offset length : Z) (s : Blob) : option Blob :=
  if size s <? offset + length then None
  else Some (take (Z.to_nat length) (drop (Z.to_nat offset) s)).

Definition chop (n : Z) (s : Blob) : option Blob :=
  if size s <? n then None else Some (take (Z.to_nat (size s - n)) s).

(** [catch (...) { return false; }] *)
Definition no_throw {A} (r : result A) : option A :=
  match r with Ok a => Some a | _ => None end.

Definition getFieldID (offset : Z) (s : Blob) : option (Z * Z) :=
  b ← get8 offset s;
  let name := Z.land b 15 in
  let type := Z.shiftr b 4 in
  to ← (if type =? 0 then
          t ← get8 (offset + 1) s;
          if ((t =? 0) || (t <? 16))%bool then None else Some (t, offset + 1)
        else Some (type, offset));
  let '(type, offset) := to in
  if name =? 0 then
    n ← get8 (offset + 1) s;
    if ((n =? 0) || (n <? 16))%bool then None else Some (type, n)
  else Some (type, name).

(** The length of the data behind a prefix at [offset], the size of the prefix,
    and the offset behind it.  [decodeLengthLength] is called outside the [try]
    block, so its exception escapes. *)
Definition readVLLength (offset : Z) (s : Blob) : result (option (Z * Z * Z)) :=
  match get8 offset s with
  | None => Ok None
  | Some b1 =>
      lenLen ← decodeLengthLength b1;
      Ok (if lenLen =? 1 then
            datLen ← no_throw (decodeVLLength1 b1); Some (datLen, lenLen, offset + 1)
          else if lenLen =? 2 then
            b2 ← get8 (offset + 1) s;
            datLen ← no_throw (decodeVLLength2 b1 b2); Some (datLen, lenLen, offset + 2)
          else if lenLen =? 3 then
            b2 ← get8 (offset + 1) s;
            b3 ← get8 (offset + 2) s;
            datLen ← no_throw (decodeVLLength3 b1 b2 b3); Some (datLen, lenLen, offset + 3)
          else None)
  end.

Definition getVLLength (offset : Z) (s : Blob) : result (option Z) :=
  r ← readVLLength offset s;
  Ok (match r with Some (datLen, _, _) => Some datLen | None => None end).

(** The blob and the number of bytes it occupies, prefix included. *)
Definition getVL (offset : Z) (s : Blob) : result (option (Blob * Z)) :=
  r ← readVLLength offset s;
  Ok (match r with
      | Some (datLen, lenLen, offset) =>
          b ← getRaw offset datLen s; Some (b, lenLen + datLen)
      | None => None
      end).

(** ** SerialIter *)

Record iter := mkIter { buf_ : Blob; used_ : Z; remain_ : Z }.

Definition SerialIter (data : Blob) : iter := mkIter data 0 (size data).

Definition reader (A : Type) := iter -> result (A * iter).

#[export] Instance reader_ret : MRet reader := fun A a it => Ok (a, it).
#[export] Instance reader_bind : MBind reader := fun A B f m it =>
  match m it with
  | Ok (a, it') => f a it'
  | Throw e => Throw e
  | OutOfFuel => OutOfFuel
  end.

Definition lift {A} (r : result A) : reader A := fun it => a ← r; Ok (a, it).

Definition throw {A} (what : string) : reader A := fun _ => Throw what.

Definition reset (it : iter) : iter := mkIter (buf_ it) 0 (remain_ it + used_ it).

Definition empty (it : iter) : bool := remain_ it =? 0.

(** [n] bytes at [p_], with the bounds check that precedes every read. *)
Definition advance (n : Z) (what : string) : reader Blob := fun it =>
  if remain_ it <? n then Throw what
  else Ok (take (Z.to_nat n) (drop (Z.to_nat (used_ it)) (buf_ it)),
           mkIter (buf_ it) (used_ it + n) (remain_ it - n)).

Definition iget8 : reader Z :=
  t ← advance 1 "invalid SerialIter get8"; mret (t !!! 0%nat).

Definition iget16 : reader Z :=
  t ← advance 2 "invalid SerialIter get16";
  mret (Z.shiftl (t !!! 0%nat) 8 + t !!! 1%nat).

Definition iget32 : reader Z :=
  t ← advance 4 "invalid SerialIter get32";
  mret (Z.shiftl (t !!! 0%nat) 24 + Z.shiftl (t !!! 1%nat) 16 +
        Z.shiftl (t !!! 2%nat) 8 + t !!! 3%nat).

Definition iget64 : reader Z :=
  t ← advance 8 "invalid SerialIter get64";
  mret (Z.shiftl (t !!! 0%nat) 56 + Z.shiftl (t !!! 1%nat) 48 +
        Z.shiftl (t !!! 2%nat) 40 + Z.shiftl (t !!! 3%nat) 32 +
        Z.shiftl (t !!! 4%nat) 24 + Z.shiftl (t !!! 5%nat) 16 +
        Z.shiftl (t !!! 6%nat) 8 + t !!! 7%nat).

(** The value of a [base_uint] from its bytes. *)
Definition be_value (l : Blob) : Z := foldl (fun acc b => Z.shiftl acc 8 + b) 0 l.

Definition igetBitString (n : Z) : reader Z :=
  t ← advance n "invalid SerialIter getBitString"; mret (be_value t).
Definition iget128 := igetBitString 16.
Definition iget160 := igetBitString 20.
Definition iget256 := igetBitString 32.

Definition igetFieldID : reader (Z * Z) :=
  b ← iget8;
  let name := Z.land b 15 in
  let type := Z.shiftr b 4 in
  type ← (if type =? 0 then
            t ← iget8;
            if ((t =? 0) || (t <? 16))%bool
            then throw ("gFID: uncommon type out of range " +:+ pretty t) else mret t
          else mret type);
  if name =? 0 then
    n ← iget8;
    if ((n =? 0) || (n <? 16))%bool
    then throw ("gFID: uncommon name out of range " +:+ pretty n) else mret (type, n)
  else mret (type, name).

Definition igetRaw (n : Z) : reader Blob := advance n "invalid SerialIter getRaw".
Definition igetSlice (n : Z) : reader Blob := advance n "invalid SerialIter getSlice".

Definition igetVLDataLength : reader Z :=
  b1 ← iget8;
  lenLen ← lift (decodeLengthLength b1);
  if lenLen =? 1 then lift (decodeVLLength1 b1)
  else if lenLen =? 2 then
    b2 ← iget8; lift (decodeVLLength2 b1 b2)
  else
    b2 ← iget8; b3 ← iget8; lift (decodeVLLength3 b1 b2 b3).

Definition igetVL : reader Blob := n ← igetVLDataLength; igetRaw n.

(** ** Big-endian bytes *)

Lemma land_255 z : Z.land z 255 = z mod 256.
Proof. change 255 with (Z.ones 8). by rewrite Z.land_ones by lia. Qed.

Lemma shiftr_8 z : Z.shiftr z 8 = z / 256.
Proof. by rewrite Z.shiftr_div_pow2 by lia. Qed.

Lemma u8_land z : u8 (Z.land z 255) = Z.land z 255.
Proof. rewrite land_255. apply u8_id. change (2 ^ 8) with 256. apply Z.mod_pos_bound. lia. Qed.

Lemma length_be_bytes n i : length (be_bytes n i) = n.
Proof. revert i. induction n; intros; simpl; [done|]. rewrite length_app, IHn. simpl. lia. Qed.

Lemma be_bytes_bytes n i : bytes (be_bytes n i).
Proof.
  revert i. induction n; intros; simpl; [by constructor|].
  apply Forall_app_2; [apply IHn|]. constructor; [|by constructor].
  rewrite land_255. by apply Z.mod_pos_bound.
Qed.

Lemma be_value_snoc l b : be_value (l ++ [b]) = be_value l * 256 + b.
Proof. unfold be_value. rewrite foldl_app. simpl. by rewrite Z.shiftl_mul_pow2 by lia. Qed.

Lemma be_value_bytes n i : be_value (be_bytes n i) = i mod 2 ^ (8 * Z.of_nat n).
Proof.
  revert i. induction n as [|n IH]; intros; simpl be_bytes.
  { by rewrite Z.mul_0_r, Z.pow_0_r, Z.mod_1_r. }
  rewrite be_value_snoc, IH, shiftr_8, land_255.
  replace (8 * Z.of_nat (S n)) with (8 * Z.of_nat n + 8) by lia.
  rewrite Z.pow_add_r by lia. change (2 ^ 8) with 256.
  pose proof (Z.pow_pos_nonneg 2 (8 * Z.of_nat n) ltac:(lia) ltac:(lia)).
  rewrite (Z.mul_comm (2 ^ _) 256), (Z.rem_mul_r i 256) by lia. lia.
Qed.

Lemma shiftr_8_8 z a : 0 <= a -> Z.shiftr (Z.shiftr z a) 8 = Z.shiftr z (a + 8).
Proof. intros. by rewrite Z.shiftr_shiftr by lia. Qed.

Lemma u8_shiftr i k : u8 (Z.shiftr i k) = Z.land (Z.shiftr i k) 255.
Proof. rewrite land_255. unfold u8. by change (2 ^ 8) with 256. Qed.

(** The writers of the code produce the big-endian bytes. *)
Lemma add16_be i s : add16 i s = (size s, s ++ be_bytes 2 i).
Proof. unfold add16. simpl be_bytes. by rewrite !u8_land, u8_shiftr. Qed.

Lemma add32_be i s : add32 i s = (size s, s ++ be_bytes 4 i).
Proof.
  unfold add32. simpl be_bytes. rewrite !u8_land, u8_shiftr.
  by rewrite !shiftr_8_8 by lia.
Qed.

Lemma add64_be i s : add64 i s = (size s, s ++ be_bytes 8 i).
Proof.
  unfold add64. simpl be_bytes. rewrite !u8_land, u8_shiftr.
  by rewrite !shiftr_8_8 by lia.
Qed.

(** ** The iterator over a known rest of the buffer *)

(** [view it l]: the bytes from the current position to the end are [l]. *)
Definition view (it : iter) (l : Blob) : Prop :=
  0 <= used_ it /\ drop (Z.to_nat (used_ it)) (buf_ it) = l /\ remain_ it = size l.

Lemma view_start l : view (SerialIter l) l.
Proof. unfold view, SerialIter. simpl. split_and!; [lia|by rewrite drop_0|done]. Qed.

(** [reads it bs rest m a]: with [bs ++ rest] ahead, [m] returns [a] and stops
    in front of [rest]. *)
Definition reads {A} (it : iter) (rest : Blob) (m : reader A) (a : A) : Prop :=
  exists it', m it = Ok (a, it') /\ view it' rest.

Lemma advance_reads it bs rest n what : view it (bs ++ rest) -> size bs = n ->
  reads it rest (advance n what) bs.
Proof.
  intros (Hu & Hd & Hr) Hn. unfold reads, advance, size in *. rewrite length_app in Hr.
  rewrite (proj2 (Z.ltb_ge _ _)) by lia. rewrite Hd.
  rewrite take_app_length' by lia. eexists; split; [done|].
  unfold view. simpl. split_and!; [lia| |unfold size; lia].
  rewrite Z2Nat.inj_add, <- drop_drop, Hd by lia. by rewrite drop_app_length' by lia.
Qed.

Lemma reads_bind {A B} it mid rest (m : reader A) (f : A -> reader B) a b :
  reads it mid m a -> (forall it', view it' mid -> reads it' rest (f a) b) ->
  reads it rest (m ≫= f) b.
Proof.
  intros (it' & Hm & Hv) Hf. destruct (Hf it' Hv) as (it'' & He & Hv').
  exists it''. split; [|done]. unfold mbind, reader_bind. by rewrite Hm.
Qed.

Lemma reads_ret {A} it rest (a : A) : view it rest -> reads it rest (mret a) a.
Proof. by exists it. Qed.

Lemma reads_lift {A} it rest (r : result A) a :
  view it rest -> r = Ok a -> reads it rest (lift r) a.
Proof. intros Hv ->. by exists it. Qed.

Lemma iget8_reads it b rest : view it (b :: rest) -> reads it rest iget8 b.
Proof.
  intros Hv. eapply reads_bind; [by apply (advance_reads it [b] rest)|].
  intros it' Hv'. by apply reads_ret.
Qed.

(** An integer is read back if the reader combines the bytes as [be_value]. *)
Lemma int_reads it n i rest what (f : Blob -> Z) :
  (forall t, length t = n -> f t = be_value t) ->
  view it (be_bytes n i ++ rest) -> 0 <= i < 2 ^ (8 * Z.of_nat n) ->
  reads it rest (t ← advance (Z.of_nat n) what; mret (f t)) i.
Proof.
  intros Hf Hv Hi. eapply reads_bind; [apply (advance_reads it (be_bytes n i) rest)|].
  - done.
  - unfold size. by rewrite length_be_bytes.
  - intros it' Hv'. rewrite Hf, be_value_bytes, Z.mod_small by (lia || apply length_be_bytes).
    by apply reads_ret.
Qed.

Ltac be_value_explicit :=
  intros l Hl;
  repeat match goal with
  | H : length ?l = _ |- _ => destruct l; simpl in H; [try done|try done; injection H as H]
  end;
  unfold be_value; simpl; rewrite ?Z.shiftl_mul_pow2 by lia; lia.

Lemma igetBitString_reads it n i rest :
  view it (be_bytes n i ++ rest) -> 0 <= i < 2 ^ (8 * Z.of_nat n) ->
  reads it rest (igetBitString (Z.of_nat n)) i.
Proof. by apply int_reads. Qed.

Lemma iget16_reads it i rest : view it (be_bytes 2 i ++ rest) -> 0 <= i < 2 ^ 16 ->
  reads it rest iget16 i.
Proof. apply (int_reads it 2). be_value_explicit. Qed.

Lemma iget32_reads it i rest : view it (be_bytes 4 i ++ rest) -> 0 <= i < 2 ^ 32 ->
  reads it rest iget32 i.
Proof. apply (int_reads it 4). be_value_explicit. Qed.

Lemma iget64_reads it i rest : view it (be_bytes 8 i ++ rest) -> 0 <= i < 2 ^ 64 ->
  reads it rest iget64 i.
Proof. apply (int_reads it 8). be_value_explicit. Qed.

(** ** Round trips *)

(** Every integer of the format is read back as written: a blob that
    [add8], [add16], [add32], [add64] or [addBitString] extended is, from the
    returned position on, read by the matching getter as the same number. *)
Theorem integers_roundtrip (s rest : Blob) b i16 i32' i64' n i :
  byte b -> 0 <= i16 < 2 ^ 16 -> 0 <= i32' < 2 ^ 32 -> 0 <= i64' < 2 ^ 64 ->
  0 <= i < 2 ^ (8 * Z.of_nat n) ->
  let after '((pos, s') : Z * Blob) := SerialIter (drop (Z.to_nat pos) s' ++ rest) in
  reads (after (add8 b s)) rest iget8 b /\
  reads (after (add16 i16 s)) rest iget16 i16 /\
  reads (after (add32 i32' s)) rest iget32 i32' /\
  reads (after (add64 i64' s)) rest iget64 i64' /\
  reads (after (addBitString n i s)) rest (igetBitString (Z.of_nat n)) i.
Proof.
  intros Hb H16 H32 H64 Hi after.
  assert (forall l, after (size s, s ++ l) = SerialIter (l ++ rest)) as Hafter.
  { intros l. unfold after, size. rewrite Nat2Z.id, drop_app_length. done. }
  rewrite add16_be, add32_be, add64_be. unfold add8, addBitString.
  rewrite !Hafter. split_and!.
  - apply iget8_reads, view_start.
  - apply iget16_reads; [apply view_start|done].
  - apply iget32_reads; [apply view_start|done].
  - apply iget64_reads; [apply view_start|done].
  - apply igetBitString_reads; [apply view_start|done].
Qed.

Lemma integers_roundtrip_witness :
  let after '((pos, s') : Z * Blob) := SerialIter (drop (Z.to_nat pos) s' ++ [9]) in
  reads (after (add8 200 [1; 2])) [9] iget8 200 /\
  reads (after (add16 300 [1; 2])) [9] iget16 300 /\
  reads (after (add32 70000 [1; 2])) [9] iget32 70000 /\
  reads (after (add64 5000000000 [1; 2])) [9] iget64 5000000000 /\
  reads (after (addBitString 20 77 [1; 2])) [9] (igetBitString (Z.of_nat 20)) 77.
Proof.
  apply (integers_roundtrip [1; 2] [9] 200 300 70000 5000000000 20 77);
    unfold byte; vm_compute; intuition congruence.
Defined.

(** The field header of the code and its two decodings. *)
Definition header (type name : Z) : Blob := snd (addFieldID type name []).

Lemma addFieldID_header type name s : addFieldID type name s = (size s, s ++ header type name).
Proof. done. Qed.

Lemma header_cases type name : 0 < type < 256 -> 0 < name < 256 ->
  header type name =
    if type <? 16 then
      if name <? 16 then [type * 2 ^ 4 + name] else [type * 2 ^ 4 + 0; name]
    else if name <? 16 then [0 * 2 ^ 4 + name; type] else [0 * 2 ^ 4 + 0; type; name].
Proof.
  intros. unfold header, addFieldID. simpl app. simpl snd. repeat case_if.
  - rewrite lor_shiftl by lia. by rewrite u8_id by lia.
  - rewrite Z.shiftl_mul_pow2 by lia. by rewrite !u8_id, Z.add_0_r by lia.
  - by rewrite !u8_id by lia.
  - by rewrite !u8_id by lia.
Qed.

Lemma nibbles x y : 0 <= y < 16 ->
  Z.land (x * 2 ^ 4 + y) 15 = y /\ Z.shiftr (x * 2 ^ 4 + y) 4 = x.
Proof.
  intros. change 15 with (Z.ones 4). split; [apply land_packed|apply shiftr_packed]; lia.
Qed.

Lemma igetFieldID_reads it rest type name : 0 < type < 256 -> 0 < name < 256 ->
  view it (header type name ++ rest) -> reads it rest igetFieldID (type, name).
Proof.
  intros Ht Hn. rewrite header_cases by lia. intros Hv.
  assert (forall n, 16 <= n -> ((n =? 0) || (n <? 16))%bool = false) as Hunc.
  { intros. apply orb_false_iff; split; [apply Z.eqb_neq|apply Z.ltb_ge]; lia. }
  assert (forall n, 0 < n -> (n =? 0) = false) as Hnz by (intros; apply Z.eqb_neq; lia).
  unfold igetFieldID.
  destruct (type <? 16) eqn:Ht16, (name <? 16) eqn:Hn16; reflect_bools;
    (eapply reads_bind; [by apply iget8_reads|]); intros it1 Hv1;
    match goal with |- context [Z.land (?x * _ + ?y) 15] =>
      destruct (nibbles x y ltac:(lia)) as [-> ->] end;
    rewrite ?(Hnz type), ?(Hnz name) by lia; simpl.
  - eapply reads_bind; [by apply reads_ret|]. intros it2 Hv2. by apply reads_ret.
  - eapply reads_bind; [by apply reads_ret|]. intros it2 Hv2.
    eapply reads_bind; [by apply iget8_reads|]. intros it3 Hv3.
    rewrite Hunc by lia. by apply reads_ret.
  - eapply reads_bind; [eapply reads_bind; [by apply iget8_reads|]|].
    + intros it2 Hv2. rewrite Hunc by lia. by apply reads_ret.
    + intros it3 Hv3. by apply reads_ret.
  - eapply reads_bind; [eapply reads_bind; [by apply iget8_reads|]|].
    + intros it2 Hv2. rewrite Hunc by lia. by apply reads_ret.
    + intros it3 Hv3. eapply reads_bind; [by apply iget8_reads|]. intros it4 Hv4.
      rewrite Hunc by lia. by apply reads_ret.
Qed.

(** ** Reading at an offset behind a known prefix *)

Lemma get8_app s l k : 0 <= k < size l -> get8 (size s + k) (s ++ l) = l !! Z.to_nat k.
Proof.
  intros Hk. unfold get8, size in *. rewrite length_app.
  rewrite (proj2 (Z.leb_gt _ _)) by lia.
  rewrite lookup_app_r by lia. f_equal. lia.
Qed.

Lemma get8_head s b l : get8 (size s) (s ++ b :: l) = Some b.
Proof.
  pose proof (get8_app s (b :: l) 0) as H. rewrite Z.add_0_r in H. apply H.
  unfold size. simpl. lia.
Qed.

Lemma get8_second s b1 b2 l : get8 (size s + 1) (s ++ b1 :: b2 :: l) = Some b2.
Proof. apply (get8_app s (b1 :: b2 :: l) 1). unfold size. simpl. lia. Qed.

Lemma get8_third s b1 b2 b3 l : get8 (size s + 2) (s ++ b1 :: b2 :: b3 :: l) = Some b3.
Proof. apply (get8_app s (b1 :: b2 :: b3 :: l) 2). unfold size. simpl. lia. Qed.

Lemma getRaw_app s l rest : getRaw (size s) (size l) (s ++ l ++ rest) = Some l.
Proof.
  unfold getRaw, size. rewrite !length_app.
  rewrite (proj2 (Z.ltb_ge _ _)) by lia. rewrite !Nat2Z.id, drop_app_length.
  by rewrite take_app_length.
Qed.

(** A field header written for a type and a field code in [1, 255] is read
    back as the same pair, by the iterator and by the offset reader, whichever
    of the four encodings was used. *)
Theorem fieldID_roundtrip (s rest : Blob) type name :
  0 < type < 256 -> 0 < name < 256 ->
  let '(pos, s') := addFieldID type name s in
  reads (SerialIter (drop (Z.to_nat pos) s' ++ rest)) rest igetFieldID (type, name) /\
  getFieldID pos (s' ++ rest) = Some (type, name).
Proof.
  intros Ht Hn. rewrite addFieldID_header. split.
  { unfold size. rewrite Nat2Z.id, drop_app_length.
    apply igetFieldID_reads; [done..|apply view_start]. }
  rewrite <- app_assoc. rewrite header_cases by lia. unfold getFieldID.
  assert (forall n, 16 <= n -> ((n =? 0) || (n <? 16))%bool = false) as Hunc.
  { intros. apply orb_false_iff; split; [apply Z.eqb_neq|apply Z.ltb_ge]; lia. }
  assert (forall n, 0 < n -> (n =? 0) = false) as Hnz by (intros; apply Z.eqb_neq; lia).
  destruct (type <? 16) eqn:Ht16, (name <? 16) eqn:Hn16; reflect_bools; cbn [app];
    rewrite get8_head; unfold mbind, option_bind;
    match goal with |- context [Z.land (?x * _ + ?y) 15] =>
      destruct (nibbles x y ltac:(lia)) as [-> ->] end;
    rewrite ?(Hnz type), ?(Hnz name) by lia; simpl;
    rewrite ?get8_second, ?Hunc by lia; try done.
  rewrite <- Z.add_assoc, get8_third, Hunc by lia. done.
Qed.

Lemma fieldID_roundtrip_witness :
  reads (SerialIter (drop (Z.to_nat 2) [7; 7; 5; 17] ++ [1])) [1] igetFieldID (17, 5) /\
  getFieldID 2 ([7; 7; 5; 17] ++ [1]) = Some (17, 5).
Proof. apply (fieldID_roundtrip [7; 7] [1] 17 5); lia. Defined.

(** ** Variable-length blobs *)

Lemma div_bounds a b c d : 0 < b -> c * b <= a < (d + 1) * b -> c <= a / b <= d.
Proof.
  intros. split; [apply Z.div_le_lower_bound; lia|].
  enough (a / b < d + 1) by lia. apply Z.div_lt_upper_bound; lia.
Qed.

(** [decodes p n]: both decoders read the prefix [p] as the length [n]. *)
Definition decodes (p : Blob) (n : Z) : Prop :=
  (forall it rest, view it (p ++ rest) -> reads it rest igetVLDataLength n) /\
  (forall s' rest, readVLLength (size s') (s' ++ p ++ rest) =
     Ok (Some (n, size p, size (s' ++ p)))).

Ltac read_byte := eapply reads_bind; [by apply iget8_reads|intros ? ?].
Ltac read_offset Hl Hd :=
  let s' := fresh in intros s' ?; unfold readVLLength; cbn [app];
  rewrite get8_head, Hl; simpl; rewrite ?get8_second; simpl; rewrite ?get8_third; simpl;
  rewrite Hd; simpl; unfold size; rewrite length_app; simpl; repeat f_equal; lia.

Lemma decodes_1 b1 n :
  decodeLengthLength b1 = Ok 1 -> decodeVLLength1 b1 = Ok n -> decodes [b1] n.
Proof.
  intros Hl Hd. split; [|read_offset Hl Hd]. intros it rest Hv. read_byte.
  eapply reads_bind; [by apply reads_lift|]. intros. by apply reads_lift.
Qed.

Lemma decodes_2 b1 b2 n :
  decodeLengthLength b1 = Ok 2 -> decodeVLLength2 b1 b2 = Ok n -> decodes [b1; b2] n.
Proof.
  intros Hl Hd. split; [|read_offset Hl Hd]. intros it rest Hv. read_byte.
  eapply reads_bind; [by apply reads_lift|]. intros. simpl. read_byte. by apply reads_lift.
Qed.

Lemma decodes_3 b1 b2 b3 n :
  decodeLengthLength b1 = Ok 3 -> decodeVLLength3 b1 b2 b3 = Ok n -> decodes [b1; b2; b3] n.
Proof.
  intros Hl Hd. split; [|read_offset Hl Hd]. intros it rest Hv. read_byte.
  eapply reads_bind; [by apply reads_lift|]. intros. simpl. read_byte. read_byte.
  by apply reads_lift.
Qed.

(** The prefix the code writes for a length. *)
Lemma addEncoded_spec n s : 0 <= n <= 918744 -> exists p,
  addEncoded n s = Ok (size s, s ++ p) /\ encodeLengthLength n = Ok (size p) /\ decodes p n.
Proof.
  intros Hn. unfold addEncoded, encodeLengthLength.
  rewrite (proj2 (Z.ltb_ge n 0)) by lia. destruct (n <=? 192) eqn:H1; reflect_bools.
  - exists [n]. rewrite u8_id by lia. split_and!; [done..|].
    apply decodes_1; [unfold decodeLengthLength|unfold decodeVLLength1];
      repeat case_if; done || lia.
  - destruct (n <=? 12480) eqn:H2; reflect_bools.
    + set (m := n - 193). pose proof (div_bounds m 256 0 47 ltac:(lia) ltac:(lia)).
      pose proof (Z.div_mod m 256 ltac:(lia)). pose proof (Z.mod_pos_bound m 256 ltac:(lia)).
      exists [193 + m / 256; m mod 256].
      rewrite u8_land, land_255, shiftr_8, (u8_id (m / 256)), u8_id by lia.
      split_and!; [done..|].
      apply decodes_2; [unfold decodeLengthLength|unfold decodeVLLength2];
        repeat case_if; first [done|lia|f_equal; lia].
    + rewrite (proj2 (Z.leb_le n 918744)) by lia.
      set (m := n - 12481). pose proof (div_bounds m 65536 0 13 ltac:(lia) ltac:(lia)).
      pose proof (Z.div_mod m 256 ltac:(lia)). pose proof (Z.mod_pos_bound m 256 ltac:(lia)).
      pose proof (Z.div_mod (m / 256) 256 ltac:(lia)).
      pose proof (Z.mod_pos_bound (m / 256) 256 ltac:(lia)).
      assert (m / 65536 = m / 256 / 256) as Hmm by (rewrite Z.div_div by lia; done).
      exists [241 + m / 65536; (m / 256) mod 256; m mod 256].
      rewrite !u8_land, !land_255, shiftr_8.
      replace (Z.shiftr m 16) with (m / 65536) by by rewrite Z.shiftr_div_pow2 by lia.
      rewrite (u8_id (m / 65536)), u8_id by lia. split_and!; [done..|].
      apply decodes_3; [unfold decodeLengthLength|unfold decodeVLLength3];
        repeat case_if; first [done|lia|f_equal; lia].
Qed.

(** A blob of at most 918744 bytes written with a length prefix takes
    [lengthVL] bytes and is read back, by the iterator and by the offset
    reader, with whatever follows it left in place; a longer blob is refused. *)
Theorem vl_roundtrip (v s rest : Blob) :
  if decide (size v <= 918744) then
    exists s', addVL v s = Ok (size s, s') /\
      lengthVL (size v) = Ok (size s' - size s) /\
      reads (SerialIter (drop (length s) s' ++ rest)) rest igetVL v /\
      getVL (size s) (s' ++ rest) = Ok (Some (v, size s' - size s))
  else addVL v s = Throw "lenlen".
Proof.
  case_decide as Hv.
  - destruct (addEncoded_spec (size v) s ltac:(unfold size in *; lia))
      as (p & Hadd & Hlen & Hread & Hoff).
    exists ((s ++ p) ++ v). unfold addVL. rewrite Hadd. split_and!.
    + done.
    + unfold lengthVL. rewrite Hlen. simpl. f_equal. unfold size. rewrite !length_app. lia.
    + rewrite <- app_assoc, drop_app_length, <- app_assoc.
      eapply reads_bind; [apply Hread, view_start|]. intros it Hit.
      by apply advance_reads.
    + unfold getVL. rewrite <- !app_assoc, Hoff. simpl.
      rewrite (app_assoc s p), getRaw_app. simpl. do 3 f_equal.
      unfold size. rewrite !length_app. lia.
  - unfold addVL, addEncoded. rewrite !(proj2 (Z.leb_gt _ _)) by lia. done.
Qed.

End Serializer.
