(* ===== verification/STAmount.v ===== *)
(** * STAmount: the amounts of the ledger

    Models [class STAmount] (src/src/ripple/protocol/STAmount.h and
    impl/STAmount.cpp): an amount of an issue, either of the native currency (a
    number of drops, offset 0) or an issued currency (mantissa and offset), with
    its canonical form, its operators, its arithmetic with and without rounding
    direction, its wire format, and the 64-bit encoding of exchange rates.  The
    field name an amount carries as an [STBase] is left out: the operations
    only copy it. *)

From stdpp Require Import base tactics numbers list strings option.
From S2P Require Import Prelude Decimal IOUAmount BigNum Serializer.

Module STAmount.

(** ** Issues: a 160-bit currency and a 160-bit account *)

Record Issue := mkIssue { currency : Z; account : Z }.

#[export] Instance Issue_eq_dec : EqDecision Issue.
Proof. solve_decision. Defined.

Definition xrpIssue : Issue := mkIssue 0 0.
Definition noIssue : Issue := mkIssue 1 1.

Definition isXRP_id (c : Z) : bool := c =? 0.

Definition isConsistent (i : Issue) : bool :=
  Bool.eqb (isXRP_id (currency i)) (isXRP_id (account i)).

(** [compare (base_uint const&, base_uint const&)] *)
Definition compare_id (a b : Z) : Z := if a <? b then -1 else if b <? a then 1 else 0.

Definition compare_issue (l r : Issue) : Z :=
  let diff := compare_id (currency l) (currency r) in
  if negb (diff =? 0) then diff
  else if isXRP_id (currency l) then 0
  else compare_id (account l) (account r).

Definition issue_eqb (l r : Issue) : bool := compare_issue l r =? 0.
Definition issue_ltb (l r : Issue) : bool := compare_issue l r <? 0.

(** ** Amounts *)

Record t := mk {
  mIssue : Issue;
  mValue : Z;
  mOffset : Z;
  mIsNative : bool;
  mIsNegative : bool
}.

#[export] Instance t_eq_dec : EqDecision t.
Proof. solve_decision. Defined.

Definition cMaxNative : Z := 9000000000000000000.
Definition cMaxNativeN : Z := 100000000000000000.
Definition cNotNative : Z := 0x8000000000000000.
Definition cPosNative : Z := 0x4000000000000000.
Definition tenTo14 : Z := 100000000000000.
Definition tenTo14m1 : Z := tenTo14 - 1.
Definition tenTo17 : Z := tenTo14 * 1000.

Definition isXRP (a : t) : bool := isXRP_id (currency (mIssue a)).

Definition signum (a : t) : Z :=
  if negb (mValue a =? 0) then (if mIsNegative a then -1 else 1) else 0.

(** [amount == beast::zero] *)
Definition is_zero (a : t) : bool := signum a =? 0.

(** [STAmount::canonicalize] *)
Definition canonicalize (a : t) : result t :=
  if isXRP a then
    if mValue a =? 0 then Ok (mk (mIssue a) (mValue a) 0 true false)
    else
      vo ← while_ (Z.to_nat (- mOffset a)) (fun '(_, o) => o <? 0)
             (fun '(v, o) => Ok (v / 10, o + 1)) (mValue a, mOffset a);
      vo ← while_ (Z.to_nat (snd vo)) (fun '(_, o) => 0 <? o)
             (fun '(v, o) => Ok (u64 (v * 10), o - 1)) vo;
      let '(v, o) := vo in
      _ ← throw_if (cMaxNativeN <? v) "Native currency amount out of range";
      Ok (mk (mIssue a) v o true (mIsNegative a))
  else if mValue a =? 0 then Ok (mk (mIssue a) (mValue a) (-100) false false)
  else
    r ← fit u64 "value overflow" (mValue a, mOffset a);
    Ok (match r with
        | Some (v, o) => mk (mIssue a) v o false (mIsNegative a)
        | None => mk (mIssue a) 0 (-100) false false
        end).

(** ** Constructors *)

(** [STAmount (Issue const&, mantissa, exponent, native, negative, unchecked)] *)
Definition unchecked (i : Issue) (m e : Z) (native negative : bool) : t := mk i m e native negative.

(** [STAmount (Issue const&, mantissa, exponent, native, negative)] *)
Definition of_native (i : Issue) (m e : Z) (native negative : bool) : result t :=
  canonicalize (mk i m e native negative).

(** [STAmount (Issue const&, std::uint64_t, int, bool)]; [mIsNative] is set by
    [canonicalize]. *)
Definition of_issue (i : Issue) (m e : Z) (negative : bool) : result t :=
  canonicalize (mk i m e false negative).

(** [STAmount::set] *)
Definition set (a : t) (v : Z) : t :=
  if v <? 0 then mk (mIssue a) (u64 (i64 (- v))) (mOffset a) (mIsNative a) true
  else mk (mIssue a) (u64 v) (mOffset a) (mIsNative a) false.

(** [STAmount (SField const&, std::int64_t)] *)
Definition of_i64 (v : Z) : t := set (mk xrpIssue 0 0 true false) v.

(** [STAmount (SField const&, std::uint64_t, bool)] *)
Definition of_u64_named (m : Z) (negative : bool) : t := mk xrpIssue m 0 true negative.

(** [STAmount (std::uint64_t, bool)] *)
Definition of_u64 (m : Z) (negative : bool) : t :=
  mk xrpIssue m 0 true (negb (m =? 0) && negative)%bool.

(** [STAmount (Issue const&, std::int64_t, int)] *)
Definition of_issue_i64 (i : Issue) (v e : Z) : result t :=
  canonicalize (set (mk i 0 e false false) v).

Definition setIssue (a : t) (i : Issue) : t :=
  mk i (mValue a) (mOffset a) (isXRP_id (currency i)) (mIsNegative a).

Definition setIssuer (a : t) (acct : Z) : t :=
  setIssue a (mkIssue (currency (mIssue a)) acct).

Definition clear (a : t) : t :=
  mk (mIssue a) 0 (if mIsNative a then 0 else -100) (mIsNative a) false.

Definition clear_issue (a : t) (i : Issue) : t := clear (setIssue a i).

Definition negate (a : t) : t :=
  if negb (is_zero a)
  then mk (mIssue a) (mValue a) (mOffset a) (mIsNative a) (negb (mIsNegative a))
  else a.

Definition zeroed (a : t) : result t := of_issue (mIssue a) 0 0 false.

Definition isLegalNet (a : t) : bool := (negb (mIsNative a) || (mValue a <=? cMaxNativeN))%bool.

Definition isDefault (a : t) : bool := ((mValue a =? 0) && mIsNative a)%bool.

(** ** Operators *)

Definition getSNValue (a : t) : result Z :=
  _ ← throw_if (negb (mIsNative a)) "amount is not native!";
  let ret := i64 (mValue a) in
  Ok (if mIsNegative a then i64 (- ret) else ret).

Definition areComparable (a b : t) : bool :=
  (Bool.eqb (mIsNative a) (mIsNative b) &&
   (currency (mIssue a) =? currency (mIssue b)))%bool.

Definition eqb (l r : t) : bool :=
  (areComparable l r && Bool.eqb (mIsNegative l) (mIsNegative r) &&
   (mOffset l =? mOffset r) && (mValue l =? mValue r))%bool.

Definition ltb (l r : t) : result bool :=
  _ ← throw_if (negb (areComparable l r)) "Can't compare amounts that are't comparable!";
  Ok (if negb (Bool.eqb (mIsNegative l) (mIsNegative r)) then mIsNegative l
      else if mValue l =? 0 then
        if mIsNegative r then false else negb (mValue r =? 0)
      else if mValue r =? 0 then false
      else if mOffset r <? mOffset l then mIsNegative l
      else if mOffset l <? mOffset r then negb (mIsNegative l)
      else if mValue r <? mValue l then mIsNegative l
      else if mValue l <? mValue r then negb (mIsNegative l)
      else false).

Definition gtb (l r : t) : result bool := ltb r l.
Definition leb (l r : t) : result bool := b ← ltb r l; Ok (negb b).
Definition geb (l r : t) : result bool := b ← ltb l r; Ok (negb b).

Definition neg (a : t) : t :=
  if mValue a =? 0 then a
  else unchecked (mIssue a) (mValue a) (mOffset a) (mIsNative a) (negb (mIsNegative a)).

(** The 64-bit signed mantissa [operator+] computes with. *)
Definition signed_value (a : t) : Z :=
  if mIsNegative a then i64 (- i64 (mValue a)) else i64 (mValue a).

Definition add (v1 v2 : t) : result t :=
  _ ← throw_if (negb (areComparable v1 v2)) "Can't add amounts that are't comparable!";
  if is_zero v2 then Ok v1
  else if is_zero v1 then of_issue (mIssue v1) (mValue v2) (mOffset v2) (mIsNegative v2)
  else if mIsNative v1 then
    s1 ← getSNValue v1; s2 ← getSNValue v2; Ok (of_i64 (i64 (s1 + s2)))
  else
    vo ← shrink_to (mOffset v2) (signed_value v1, mOffset v1);
    let '(vv1, ov1) := vo in
    vo ← shrink_to ov1 (signed_value v2, mOffset v2);
    let '(vv2, _) := vo in
    let fv := i64 (vv1 + vv2) in
    if ((-10 <=? fv) && (fv <=? 10))%bool then of_issue (mIssue v1) 0 0 false
    else if 0 <=? fv then of_issue (mIssue v1) (u64 fv) ov1 false
    else of_issue (mIssue v1) (u64 (i64 (- fv))) ov1 true.

Definition sub (v1 v2 : t) : result t := add v1 (neg v2).

(** ** Arithmetic *)

Section arithmetic.
Context `{B : BN}.

(** [if (native) while (val < cMinValue) { val *= 10; --offset; }] *)
Definition bring_into_range (native : bool) (val off : Z) : result (Z * Z) :=
  if native then
    while_ digits_fuel (fun '(v, _) => v <? cMinValue)
      (fun '(v, o) => Ok (u64 (v * 10), o - 1)) (val, off)
  else Ok (val, off).

Definition divide (num den : t) (i : Issue) : result t :=
  if is_zero den then Throw "division by zero"
  else if is_zero num then of_issue i 0 0 false
  else
    no ← bring_into_range (mIsNative num) (mValue num) (mOffset num);
    let '(numVal, numOffset) := no in
    do' ← bring_into_range (mIsNative den) (mValue den) (mOffset den);
    let '(denVal, denOffset) := do' in
    v ← bn_muldiv numVal tenTo17 None denVal;
    of_issue i (u64 (getuint64 v + 5)) (numOffset - denOffset - 17)
      (negb (Bool.eqb (mIsNegative num) (mIsNegative den))).

(** The product of two native amounts as a native amount. *)
Definition multiply_native (v1 v2 : t) : result t :=
  s1 ← getSNValue v1; s2 ← getSNValue v2;
  let minV := u64 (if s1 <? s2 then s1 else s2) in
  let maxV := u64 (if s1 <? s2 then s2 else s1) in
  _ ← throw_if (3000000000 <? minV) "Native value overflow";
  _ ← throw_if (2095475792 <? u64 (Z.shiftr maxV 32 * minV)) "Native value overflow";
  Ok (of_u64_named (u64 (minV * maxV)) false).

Definition multiply (v1 v2 : t) (i : Issue) : result t :=
  if (is_zero v1 || is_zero v2)%bool then of_issue i 0 0 false
  else if (mIsNative v1 && mIsNative v2 && isXRP_id (currency i))%bool then multiply_native v1 v2
  else
    vo ← bring_into_range (mIsNative v1) (mValue v1) (mOffset v1);
    let '(value1, offset1) := vo in
    vo ← bring_into_range (mIsNative v2) (mValue v2) (mOffset v2);
    let '(value2, offset2) := vo in
    v ← bn_muldiv value1 value2 None tenTo14;
    of_issue i (u64 (getuint64 v + 7)) (offset1 + offset2 + 14)
      (negb (Bool.eqb (mIsNegative v1) (mIsNegative v2))).

Definition canonicalizeRound (native : bool) (value offset : Z) (roundUp : bool)
    : result (Z * Z) :=
  if negb roundUp then Ok (value, offset)
  else if native then
    if offset <? 0 then
      s ← while_ (Z.to_nat (- offset)) (fun '(_, o, _) => o <? -1)
            (fun '(v, o, loops) => Ok (v / 10, o + 1, loops + 1)) (value, offset, 0);
      let '(v, o, loops) := s in
      Ok (u64 (v + (if 2 <=? loops then 9 else 10)) / 10, o + 1)
    else Ok (value, offset)
  else if cMaxValue <? value then
    vo ← while_ digits_fuel (fun '(v, _) => 10 * cMaxValue <? v)
           (fun '(v, o) => Ok (v / 10, o + 1)) (value, offset);
    let '(v, o) := vo in
    Ok (u64 (v + 9) / 10, o + 1)
  else Ok (value, offset).

Definition mulRound (v1 v2 : t) (i : Issue) (roundUp : bool) : result t :=
  if (is_zero v1 || is_zero v2)%bool then of_issue i 0 0 false
  else if (mIsNative v1 && mIsNative v2 && isXRP_id (currency i))%bool then multiply_native v1 v2
  else
    vo ← bring_into_range (mIsNative v1) (mValue v1) (mOffset v1);
    let '(value1, offset1) := vo in
    vo ← bring_into_range (mIsNative v2) (mValue v2) (mOffset v2);
    let '(value2, offset2) := vo in
    let resultNegative := negb (Bool.eqb (mIsNegative v1) (mIsNegative v2)) in
    let away := negb (Bool.eqb resultNegative roundUp) in
    v ← bn_muldiv value1 value2 (if away then Some tenTo14m1 else None) tenTo14;
    ao ← canonicalizeRound (isXRP_id (currency i)) (getuint64 v) (offset1 + offset2 + 14) away;
    let '(amount, offset) := ao in
    of_issue i amount offset resultNegative.

Definition divRound (num den : t) (i : Issue) (roundUp : bool) : result t :=
  if is_zero den then Throw "division by zero"
  else if is_zero num then of_issue i 0 0 false
  else
    no ← bring_into_range (mIsNative num) (mValue num) (mOffset num);
    let '(numVal, numOffset) := no in
    do' ← bring_into_range (mIsNative den) (mValue den) (mOffset den);
    let '(denVal, denOffset) := do' in
    let resultNegative := negb (Bool.eqb (mIsNegative num) (mIsNegative den)) in
    let away := negb (Bool.eqb resultNegative roundUp) in
    v ← bn_muldiv numVal tenTo17 (if away then Some (u64 (denVal - 1)) else None) denVal;
    ao ← canonicalizeRound (isXRP_id (currency i)) (getuint64 v) (numOffset - denOffset - 17) away;
    let '(amount, offset) := ao in
    of_issue i amount offset resultNegative.

(** ** Rates *)

(** [getRate]: every exception is caught and gives 0. *)
Definition getRate (offerOut offerIn : t) : result Z :=
  if is_zero offerOut then Ok 0
  else
    match divide offerIn offerOut noIssue with
    | Ok r =>
        if is_zero r then Ok 0
        else Ok (Z.lor (u64 (Z.shiftl (u64 (mOffset r + 100)) 56)) (mValue r))
    | Throw _ => Ok 0
    | OutOfFuel => OutOfFuel
    end.

End arithmetic.

Definition amountFromRate (uRate : Z) : result t := of_issue noIssue uRate (-9) false.

Definition amountFromQuality (rate : Z) : result t :=
  if rate =? 0 then of_issue noIssue 0 0 false
  else
    let mantissa := Z.ldiff rate (Z.shiftl 255 56) in
    let exponent := Z.shiftr rate 56 - 100 in
    of_issue noIssue mantissa exponent false.

(** ** Wire format *)

(** [STAmount::add (Serializer& s)] *)
Definition serialize (a : t) (s : Serializer.Blob) : Serializer.Blob :=
  if mIsNative a then
    if negb (mIsNegative a) then snd (Serializer.add64 (Z.lor (mValue a) cPosNative) s)
    else snd (Serializer.add64 (mValue a) s)
  else
    let s :=
      if is_zero a then snd (Serializer.add64 cNotNative s)
      else if mIsNegative a then
        snd (Serializer.add64
          (Z.lor (mValue a) (u64 (Z.shiftl (u64 (mOffset a + 512 + 97)) 54))) s)
      else
        snd (Serializer.add64
          (Z.lor (mValue a) (u64 (Z.shiftl (u64 (mOffset a + 512 + 256 + 97)) 54))) s) in
    let s := snd (Serializer.add160 (currency (mIssue a)) s) in
    snd (Serializer.add160 (account (mIssue a)) s).

Section deserialize.
Import Serializer.

(** [STAmount::STAmount (SerialIter& sit, SField const& name)] *)
Definition deserialize : reader t :=
  value ← iget64;
  if Z.land value cNotNative =? 0 then
    if negb (Z.land value cPosNative =? 0) then
      mret (mk xrpIssue (Z.ldiff value cPosNative) 0 true false)
    else if value =? 0 then throw "negative zero is not canonical"
    else mret (mk xrpIssue value 0 true true)
  else
    cur ← iget160;
    if isXRP_id cur then throw "invalid native currency"
    else
      acc ← iget160;
      if isXRP_id acc then throw "invalid native account"
      else
        let issue := mkIssue cur acc in
        let offset := Z.shiftr value 54 in
        let value := Z.ldiff value (Z.shiftl 1023 54) in
        if negb (value =? 0) then
          let isNegative := Z.land offset 256 =? 0 in
          let offset := Z.land offset 255 - 97 in
          if ((value <? cMinValue) || (cMaxValue <? value) ||
              (offset <? cMinOffset) || (cMaxOffset <? offset))%bool
          then throw "invalid currency value"
          else lift (canonicalize (mk issue value offset false isNegative))
        else if negb (offset =? 512) then throw "invalid currency value"
        else lift (canonicalize (mk issue 0 0 false false)).

End deserialize.

(** ** Canonical amounts *)

Definition id160 (x : Z) : Prop := 0 <= x < 2 ^ 160.

Definition wf (a : t) : Prop :=
  mIsNative a = isXRP a /\
  (mValue a = 0 -> mIsNegative a = false) /\
  if isXRP a then mOffset a = 0 /\ 0 <= mValue a <= cMaxNativeN
  else (mValue a = 0 /\ mOffset a = -100) \/
       (cMinValue <= mValue a <= cMaxValue /\ cMinOffset <= mOffset a <= cMaxOffset).

#[export] Instance wf_dec a : Decision (wf a).
Proof. unfold wf. destruct (isXRP a); apply _. Defined.

(** The mantissa with its sign, and the value in units of [10 ^ -100]. *)
Definition signed (a : t) : Z := if mIsNegative a then - mValue a else mValue a.
Definition units (a : t) : Z := signed a * 10 ^ (mOffset a + 100).

(** The [IOUAmount] with the same mantissa and exponent. *)
Definition iou (a : t) : IOUAmount.t := IOUAmount.mk (signed a) (mOffset a).

(** What the loops of [canonicalize] leave of a native mantissa and offset: the
    multiplication wraps around. *)
Definition scaled (v o : Z) : Z := if o <? 0 then v / 10 ^ (- o) else u64 (v * 10 ^ o).

Lemma native_shrink v o : 0 <= v ->
  while_ (Z.to_nat (- o)) (fun '(_, o) => o <? 0) (fun '(v, o) => Ok (v / 10, o + 1)) (v, o) =
  Ok (v / 10 ^ (Z.max o 0 - o), Z.max o 0).
Proof.
  intros Hv.
  match goal with |- ?r = _ => assert (wp r
    (fun s => s = (v / 10 ^ (Z.max o 0 - o), Z.max o 0)) (fun _ => False)) as H end.
  2: { match goal with |- ?r = _ => destruct r end; simpl in H; [by subst|done..]. }
  eapply wp_mono.
  - apply (while_wp (fun '(v', o') => o <= o' <= Z.max o 0 /\ v' = v / 10 ^ (o' - o))
      (fun '(_, o') => - o') (fun _ => False)).
    + intros [v' o'] [Ho ->] Hc. reflect_bools. split; [lia|]. simpl.
      replace (o' + 1 - o) with (o' - o + 1) by lia. rewrite div10_pow by lia. lia.
    + rewrite Z.sub_diag, Z.pow_0_r, Z.div_1_r. lia.
    + lia.
  - intros [v' o'] [[Ho ->] Hc]. reflect_bools. by assert (o' = Z.max o 0) as -> by lia.
  - done.
Qed.

Lemma u64_mul_l a b : u64 (u64 a * b) = u64 (a * b).
Proof. unfold u64. by rewrite Z.mul_mod_idemp_l by lia. Qed.

Lemma native_grow v o : 0 <= o -> 0 <= v < 2 ^ 64 ->
  while_ (Z.to_nat o) (fun '(_, o) => 0 <? o) (fun '(v, o) => Ok (u64 (v * 10), o - 1)) (v, o) =
  Ok (u64 (v * 10 ^ o), 0).
Proof.
  intros Ho Hv.
  match goal with |- ?r = _ => assert (wp r
    (fun s => s = (u64 (v * 10 ^ o), 0)) (fun _ => False)) as H end.
  2: { match goal with |- ?r = _ => destruct r end; simpl in H; [by subst|done..]. }
  eapply wp_mono.
  - apply (while_wp (fun '(v', o') => 0 <= o' <= o /\ v' = u64 (v * 10 ^ (o - o')))
      (fun '(_, o') => o') (fun _ => False)).
    + intros [v' o'] [Ho' ->] Hc. reflect_bools. split; [lia|]. simpl.
      replace (o - (o' - 1)) with (o - o' + 1) by lia. rewrite u64_mul_l, pow10_S by lia.
      split; [split; [lia|]|lia]. f_equal. lia.
    + rewrite Z.sub_diag, Z.pow_0_r, Z.mul_1_r, u64_id by lia. lia.
    + lia.
  - intros [v' o'] [[Ho' ->] Hc]. reflect_bools. assert (o' = 0) as -> by lia.
    by rewrite Z.sub_0_r.
  - done.
Qed.

Lemma canonicalize_native a : isXRP a = true -> 0 < mValue a < 2 ^ 64 ->
  canonicalize a =
    if cMaxNativeN <? scaled (mValue a) (mOffset a)
    then Throw "Native currency amount out of range"
    else Ok (mk (mIssue a) (scaled (mValue a) (mOffset a)) 0 true (mIsNegative a)).
Proof.
  intros Hx Hv. unfold canonicalize, scaled. rewrite Hx.
  rewrite (proj2 (Z.eqb_neq _ _)) by lia. rewrite native_shrink by lia. cbn -[while_].
  destruct (mOffset a <? 0) eqn:Ho; reflect_bools.
  - rewrite Z.max_r by lia. replace (0 - mOffset a) with (- mOffset a) by lia.
    simpl. unfold throw_if. by destruct (cMaxNativeN <? _).
  - rewrite Z.max_l, Z.sub_diag, Z.pow_0_r, Z.div_1_r, native_grow by lia. simpl.
    unfold throw_if. by destruct (cMaxNativeN <? _).
Qed.

Lemma fit_u64_spec v o : 0 < v < 2 ^ 64 ->
  wp (fit u64 "value overflow" (v, o)) (fit_to v o)
     (fun e => e = "value overflow"%string /\ dec_le (cMaxValue + 1) cMaxOffset v o).
Proof.
  intros Hv. eapply wp_mono; [apply fit_spec; [lia|]|done|by intros e [[->| ->] ?]].
  intros. apply u64_id. lia.
Qed.

(** [canonical_of a b]: [b] is the canonical form of [a]. *)
Definition canonical_of (a b : t) : Prop :=
  mIssue b = mIssue a /\
  if mValue a =? 0 then mValue b = 0
  else if isXRP a then
    mValue b = scaled (mValue a) (mOffset a) /\ mIsNegative b = mIsNegative a
  else if mValue b =? 0 then dec_lt (mValue a) (mOffset a) cMinValue cMinOffset
  else mIsNegative b = mIsNegative a /\
       fit_to (mValue a) (mOffset a) (Some (mValue b, mOffset b)).

Lemma canonicalize_spec a : 0 <= mValue a < 2 ^ 64 ->
  wp (canonicalize a)
     (fun b => canonical_of a b /\
        (wf b \/ (isXRP a = true /\ mIsNegative a = true /\
                  scaled (mValue a) (mOffset a) = 0)) /\
        (isXRP a = false -> dec_lt (mValue a) (mOffset a) (cMaxValue + 1) cMaxOffset))
     (fun e => if isXRP a
        then e = "Native currency amount out of range"%string /\
             cMaxNativeN < scaled (mValue a) (mOffset a)
        else e = "value overflow"%string /\
             dec_le (cMaxValue + 1) cMaxOffset (mValue a) (mOffset a)).
Proof.
  intros Hv. unfold canonical_of. destruct (isXRP a) eqn:Hx.
  - destruct (mValue a =? 0) eqn:Hz; reflect_bools.
    + unfold canonicalize. rewrite Hx, Hz. simpl. split_and!; try done.
      left. unfold wf, isXRP in *. simpl. by rewrite Hx.
    + rewrite canonicalize_native by (done || lia).
      destruct (cMaxNativeN <? scaled _ _) eqn:Hmax; reflect_bools; simpl; [done|].
      split_and!; try done.
      destruct (decide (scaled (mValue a) (mOffset a) = 0 /\ mIsNegative a = true))
        as [[Hd Hn]|Hok]; [by right|left].
      unfold wf, isXRP in *. simpl. rewrite Hx. split_and!; try done.
      * intros Hd. destruct (mIsNegative a); [exfalso; auto|done].
      * unfold scaled. case_if; [apply Z.div_pos; [lia|apply pow10_pos; lia]|apply u64_range].
  - destruct (mValue a =? 0) eqn:Hz; reflect_bools.
    + unfold canonicalize. rewrite Hx, (proj2 (Z.eqb_eq _ _) Hz). simpl.
      split_and!; [done..| |].
      * left. unfold wf, isXRP in *. simpl. rewrite Hx. auto.
      * intros _. unfold dec_lt. rewrite Hz, Z.mul_0_l. apply Z.mul_pos_pos; [done|].
        apply pow10_pos. lia.
    + unfold canonicalize. rewrite Hx, (proj2 (Z.eqb_neq _ _) Hz).
      apply wp_bind. eapply wp_mono; [apply fit_u64_spec; lia| |done].
      intros [[v o]|] Hf; simpl.
      * pose proof Hf as (Hr & Ho & _ & Hlt & _).
        assert (v <> 0) as Hv0 by (unfold cMinValue in *; lia).
        rewrite (proj2 (Z.eqb_neq _ _) Hv0).
        split; [exact (conj eq_refl (conj eq_refl Hf))|split].
        -- left. unfold wf, isXRP in *. simpl. rewrite Hx. split_and!; [done|by intros|auto].
        -- intros _. eapply dec_lt_le_trans; [exact Hlt|]. apply dec_le_mono;
             unfold cMinValue in *; lia.
      * split_and!; try done.
        -- left. unfold wf, isXRP in *. simpl. rewrite Hx. auto.
        -- intros _. eapply dec_lt_le_trans; [exact Hf|]. apply dec_le_mono;
             unfold cMinValue, cMaxValue, cMinOffset, cMaxOffset; lia.
Qed.

(** The drops denoted by a native mantissa and offset, rounded down. *)
Definition drops (v o : Z) : Z := if o <? 0 then v / 10 ^ (- o) else v * 10 ^ o.

Lemma drops_scaled v o : 0 <= v < 2 ^ 64 -> 0 <= drops v o /\ scaled v o = u64 (drops v o).
Proof.
  intros Hv. unfold drops, scaled. destruct (Z.ltb_spec o 0).
  - pose proof (pow10_pos (- o) ltac:(lia)). split; [apply Z.div_pos; lia|]. rewrite u64_id; [done|]. split; [apply Z.div_pos; lia|].
    apply Z.div_lt_upper_bound; nia.
  - pose proof (pow10_pos o ltac:(lia)). split; [nia|done].
Qed.

Lemma scaled_le v o : 0 <= v < 2 ^ 64 -> scaled v o <= drops v o.
Proof. intros Hv. destruct (drops_scaled v o Hv) as [Hd ->]. unfold u64. apply Z.mod_le; lia. Qed.

(** [b] is the canonical form of [a]: the same issue, the value rounded toward
    zero.  A native amount whose drops take more than 64 bits is the exception. *)
Definition canonical_form (a b : t) : Prop :=
  mIssue b = mIssue a /\
  if mValue a =? 0 then mValue b = 0
  else if isXRP a then
    let d := drops (mValue a) (mOffset a) in
    mIsNegative b = mIsNegative a /\
    (if d <? 2 ^ 64 then mValue b = d /\ d <= cMaxNativeN else mValue b = d mod 2 ^ 64)
  else if mValue b =? 0 then dec_lt (mValue a) (mOffset a) cMinValue cMinOffset
  else mIsNegative b = mIsNegative a /\
       fit_to (mValue a) (mOffset a) (Some (mValue b, mOffset b)).

(** C1: [canonicalize] always ends.  It throws only when the exact value of the
    amount is out of range: a native amount above the network maximum, an issued
    amount of [10^16 * 10^80] or more.  It throws on every such issued amount, and
    on every such native amount of less than [2^64] drops.  Otherwise the result is
    the value rounded toward zero in canonical form, with two exceptions: a native
    amount of [2^64] drops or more is multiplied out modulo [2^64] and refused or
    accepted as what is left (a flaw of the code, theorem [native_exponent_wraps]);
    and a negative native amount that comes to no drops keeps its sign. *)
Theorem canonicalize_correct a : 0 <= mValue a < 2 ^ 64 ->
  wp (canonicalize a)
     (fun b => canonical_form a b /\
        (wf b \/ (isXRP a = true /\ mIsNegative a = true /\ mValue b = 0)) /\
        (isXRP a = false -> dec_lt (mValue a) (mOffset a) (cMaxValue + 1) cMaxOffset))
     (fun e => if isXRP a
        then e = "Native currency amount out of range"%string /\
             cMaxNativeN < drops (mValue a) (mOffset a)
        else e = "value overflow"%string /\
             dec_le (cMaxValue + 1) cMaxOffset (mValue a) (mOffset a)).
Proof.
  intros Hv. destruct (drops_scaled _ (mOffset a) Hv) as [Hd Hs]. pose proof (scaled_le _ (mOffset a) Hv) as Hle.
  destruct (canonicalize a) as [b|e|] eqn:Hc; pose proof (canonicalize_spec a Hv) as H; rewrite Hc in H; cbn [wp] in H |- *; [| |done].
  2: { destruct (isXRP a); [|done]. destruct H as [-> H]. split; [done|lia]. }
  destruct H as (Hcan & Hwf & Hlt). split; [|split; [|done]].
  - unfold canonical_of in Hcan. unfold canonical_form. destruct Hcan as [Hi Hcan]. split; [done|].
    destruct (mValue a =? 0) eqn:Hz; [done|]. destruct (isXRP a) eqn:Hx; [|done]. destruct Hcan as [Hval Hneg]. split; [done|].
    reflect_bools. rewrite canonicalize_native in Hc by (done || lia).
    destruct (Z.ltb_spec cMaxNativeN (scaled (mValue a) (mOffset a))); [done|].
    destruct (Z.ltb_spec (drops (mValue a) (mOffset a)) (2 ^ 64)); [|by rewrite Hval, Hs].
    rewrite u64_id in Hs by lia. split; [congruence|lia].
  - destruct Hwf as [?|(Hx & Hn & H0)]; [by left|right]. split_and!; [done..|]. unfold canonical_of in Hcan. destruct Hcan as [_ Hcan].
    destruct (mValue a =? 0); [done|]. rewrite Hx in Hcan. by rewrite (proj1 Hcan).
Qed.

Lemma canonicalize_correct_witness :
  0 <= 12345 < 2 ^ 64 /\
  wp (canonicalize (mk (mkIssue 7 9) 12345 (-3) false true))
     (fun b => canonical_form (mk (mkIssue 7 9) 12345 (-3) false true) b /\
        (wf b \/ (false = true /\ true = true /\ mValue b = 0)) /\
        (false = false -> dec_lt 12345 (-3) (cMaxValue + 1) cMaxOffset))
     (fun e => e = "value overflow"%string /\ dec_le (cMaxValue + 1) cMaxOffset 12345 (-3)).
Proof.
  split; [lia|].
  apply (canonicalize_correct (mk (mkIssue 7 9) 12345 (-3) false true)). simpl. lia.
Defined.

Lemma canonicalize_wf a : wf a -> canonicalize a = Ok a.
Proof.
  intros (Hn & Hneg & Hc). destruct (isXRP a) eqn:Hx.
  - destruct Hc as [Ho Hv]. unfold cMaxNativeN in *.
    destruct (decide (mValue a = 0)) as [Hz|Hz].
    + unfold canonicalize. rewrite Hx, Hz. simpl. destruct a; simpl in *. subst. by rewrite Hneg.
    + rewrite canonicalize_native by (done || lia). unfold scaled. rewrite Ho. simpl.
      rewrite Z.mul_1_r, u64_id by lia. unfold cMaxNativeN.
      rewrite (proj2 (Z.ltb_ge _ _)) by lia. destruct a; simpl in *. by subst.
  - destruct Hc as [[Hz Ho]|[Hv Ho]]; unfold canonicalize; rewrite Hx.
    + rewrite Hz. simpl. destruct a; simpl in *. subst. by rewrite Hneg.
    + rewrite (proj2 (Z.eqb_neq (mValue a) 0)) by (unfold cMinValue in *; lia).
      rewrite fit_id by done. simpl. destruct a; simpl in *. by subst.
Qed.

(** ** Order *)

Lemma wf_value a : wf a -> 0 <= mValue a <= cMaxNativeN.
Proof.
  intros (_ & _ & Hc). unfold cMaxNativeN, cMinValue, cMaxValue in *.
  destruct (isXRP a); lia.
Qed.

Lemma signed_neg a : wf a -> (signed a <? 0) = mIsNegative a.
Proof.
  intros Hwf. pose proof (wf_value a Hwf). destruct Hwf as (_ & Hz & _). unfold signed.
  destruct (mIsNegative a); [apply Z.ltb_lt|apply Z.ltb_ge; lia].
  destruct (decide (mValue a = 0)) as [Hv|]; [by specialize (Hz Hv)|lia].
Qed.

Lemma signed_zero a : (signed a =? 0) = (mValue a =? 0).
Proof.
  unfold signed. destruct (mIsNegative a); [|done].
  destruct (Z.eqb_spec (- mValue a) 0), (Z.eqb_spec (mValue a) 0); (done || lia).
Qed.

(** The code's comparison is the comparison of [IOUAmount]. *)
Lemma ltb_iou l r : wf l -> wf r -> areComparable l r = true ->
  ltb l r = Ok (IOUAmount.ltb (iou l) (iou r)).
Proof.
  intros Hl Hr Hc. unfold ltb, IOUAmount.ltb, iou. rewrite Hc. simpl. f_equal.
  rewrite !signed_neg, !signed_zero by done.
  pose proof (wf_value l Hl). pose proof (wf_value r Hr).
  destruct Hl as (_ & Hzl & _), Hr as (_ & Hzr & _).
  unfold signed. destruct (mIsNegative l), (mIsNegative r); simpl; try done;
    repeat case_if; symmetry; rewrite ?Z.ltb_lt, ?Z.ltb_ge; try done; lia.
Qed.

Lemma iou_wf a : wf a -> isXRP a = false -> IOUAmount.wf (iou a).
Proof.
  intros (_ & Hn & Hc) Hx. rewrite Hx in Hc. unfold iou, signed.
  destruct Hc as [[Hv Ho]|[Hv Ho]].
  - left. rewrite Hn, Hv, Ho by done. done.
  - right. simpl. unfold cMinValue in *. destruct (mIsNegative a); (split; [|done]); simpl in *.
    + rewrite Z.abs_opp, Z.abs_eq by lia. done.
    + rewrite Z.abs_eq by lia. done.
Qed.

Lemma comparable_xrp l r : wf l -> wf r -> areComparable l r = true -> isXRP l = isXRP r.
Proof.
  intros (Hl & _) (Hr & _) Hc. unfold areComparable in Hc. reflect_bools.
  apply Bool.eqb_prop in H. congruence.
Qed.

(** Equal values of comparable canonical amounts are equal representations. *)
Lemma eqb_iou l r : wf l -> wf r -> areComparable l r = true ->
  eqb l r = IOUAmount.eqb (iou l) (iou r).
Proof.
  intros Hl Hr Hc. unfold eqb, IOUAmount.eqb, iou. rewrite Hc. simpl.
  rewrite <- (signed_neg l), <- (signed_neg r) by done.
  pose proof (signed_neg l Hl) as Hnl. pose proof (signed_neg r Hr) as Hnr.
  unfold signed in *. destruct (mIsNegative l), (mIsNegative r); rewrite Hnl, Hnr; simpl;
    reflect_bools.
  - f_equal. destruct (Z.eqb_spec (mValue l) (mValue r)),
      (Z.eqb_spec (- mValue l) (- mValue r)); (done || lia).
  - symmetry. apply andb_false_iff. right. apply Z.eqb_neq. lia.
  - symmetry. apply andb_false_iff. right. apply Z.eqb_neq. lia.
  - done.
Qed.

Lemma ltb_value_spec l r : wf l -> wf r ->
  if areComparable l r
  then exists b, ltb l r = Ok b /\ (b = true <-> units l < units r) /\
                 (eqb l r = true <-> units l = units r)
  else ltb l r = Throw "Can't compare amounts that are't comparable!".
Proof.
  intros Hl Hr. destruct (areComparable l r) eqn:Hc; [|by unfold ltb; rewrite Hc].
  exists (IOUAmount.ltb (iou l) (iou r)). rewrite ltb_iou, eqb_iou by done. split; [done|].
  pose proof (comparable_xrp l r Hl Hr Hc) as Hx. destruct (isXRP l) eqn:Hxl.
  - destruct Hl as (_ & _ & Hl), Hr as (_ & _ & Hr). rewrite Hxl in Hl. rewrite <- Hx in Hr.
    destruct Hl as [Hol _], Hr as [Hor _]. unfold units. rewrite Hol, Hor.
    rewrite IOUAmount.ltb_same_exponent by (simpl; lia). simpl (iou _). simpl.
    unfold IOUAmount.eqb. simpl. rewrite Hol, Hor, andb_true_l.
    rewrite Z.ltb_lt, Z.eqb_eq. simpl. split; lia.
  - apply (IOUAmount.ltb_spec (iou l) (iou r)); by apply iou_wf.
Qed.

(** Comparing two canonical amounts throws exactly when they are of
    different currencies; otherwise [operator<] and [operator==] decide the
    order and the equality of the values. *)
Theorem ltb_value l r : wf l -> wf r ->
  if areComparable l r
  then exists b, ltb l r = Ok b /\ (b = true <-> units l < units r) /\
                 (eqb l r = true <-> units l = units r)
  else ltb l r = Throw "Can't compare amounts that are't comparable!".
Proof. apply ltb_value_spec. Qed.

Lemma ltb_value_witness :
  exists b, ltb (mk (mkIssue 7 9) 1500000000000000 (-15) false false)
                (mk (mkIssue 7 4) 2500000000000000 (-3) false true) = Ok b /\
    (b = true <-> units (mk (mkIssue 7 9) 1500000000000000 (-15) false false) <
                  units (mk (mkIssue 7 4) 2500000000000000 (-3) false true)) /\
    (eqb (mk (mkIssue 7 9) 1500000000000000 (-15) false false)
         (mk (mkIssue 7 4) 2500000000000000 (-3) false true) = true <->
       units (mk (mkIssue 7 9) 1500000000000000 (-15) false false) =
       units (mk (mkIssue 7 4) 2500000000000000 (-3) false true)).
Proof.
  apply (ltb_value (mk (mkIssue 7 9) 1500000000000000 (-15) false false)
                   (mk (mkIssue 7 4) 2500000000000000 (-3) false true));
    by apply (bool_decide_unpack _).
Defined.

(** ** Addition *)

Lemma is_zero_iff a : is_zero a = (mValue a =? 0).
Proof. unfold is_zero, signum. destruct (mValue a =? 0), (mIsNegative a); done. Qed.

Lemma iou_zero a : wf a -> isXRP a = false ->
  is_zero a = IOUAmount.eqb (iou a) IOUAmount.zero.
Proof.
  intros (_ & _ & Hc) Hx. rewrite is_zero_iff. rewrite Hx in Hc. unfold IOUAmount.eqb. simpl.
  rewrite signed_zero. destruct Hc as [[Hv Ho]|[Hv Ho]].
  - by rewrite Hv, Ho.
  - rewrite (proj2 (Z.eqb_neq (mValue a) 0)) by (unfold cMinValue in *; lia).
    by rewrite andb_false_r.
Qed.

Lemma signed_value_eq a : wf a -> signed_value a = signed a.
Proof.
  intros Hwf%wf_value. unfold cMaxNativeN, signed_value, signed in *.
  rewrite (i64_id (mValue a)) by lia. destruct (mIsNegative a); wrap_id; done.
Qed.

(** Building an issued amount is normalising an [IOUAmount]. *)
Lemma of_issue_iou i m e negative : isXRP_id (currency i) = false -> 0 < m < 2 ^ 63 ->
  agrees iou (of_issue i m e negative)
    (IOUAmount.normalize (IOUAmount.mk (if negative then - m else m) e)).
Proof.
  intros Hx Hm. unfold of_issue, canonicalize, isXRP. simpl. rewrite Hx.
  rewrite (proj2 (Z.eqb_neq m 0)) by lia.
  rewrite IOUAmount.normalize_fit by (simpl; destruct negative; lia). simpl.
  replace (Z.abs (if negative then - m else m)) with m by (destruct negative; lia).
  pose proof (fit_agrees u64 i64 "value overflow" "IOUAmount::normalize" m e
    ltac:(intros; split; [apply u64_id|apply i64_id]; lia) ltac:(lia)) as Hag.
  pose proof (fit_u64_spec m e ltac:(lia)) as Hspec.
  destruct (fit u64 _ _) as [r| |], (fit i64 _ _) as [r'| |]; try done. simpl in *. subst r'.
  destruct r as [[v o]|]; [|done]. destruct Hspec as ([? ?] & _).
  unfold cMinValue, cMaxValue in *. unfold iou, signed. simpl.
  destruct negative; simpl.
  - rewrite (proj2 (Z.ltb_lt _ _)) by lia. by wrap_id.
  - by rewrite (proj2 (Z.ltb_ge _ _)) by lia.
Qed.

Lemma of_issue_wf i m e negative r : isXRP_id (currency i) = false -> 0 <= m < 2 ^ 64 ->
  of_issue i m e negative = Ok r -> wf r /\ mIssue r = i.
Proof.
  intros Hx Hm Hr. unfold of_issue, canonicalize, isXRP in Hr. simpl in Hr. rewrite Hx in Hr.
  destruct (m =? 0) eqn:Hz; reflect_bools.
  - injection Hr as <-. unfold wf, isXRP. simpl. rewrite Hx. split_and!; auto.
  - pose proof (fit_u64_spec m e ltac:(lia)) as Hspec.
    destruct (fit u64 _ _) as [o| |]; try done. simpl in Hspec. injection Hr as <-.
    destruct o as [[v o]|]; unfold wf, isXRP; simpl; rewrite Hx; [|by split_and!; auto].
    destruct Hspec as (? & ? & _). unfold cMinValue in *. split; [|done].
    split_and!; [done|lia|auto].
Qed.

Lemma quot_signed_bound a k : 0 <= mValue a <= cMaxNativeN -> 0 <= k ->
  Z.abs (Z.quot (signed a) (10 ^ k)) <= cMaxNativeN.
Proof.
  intros Hv Hk. pose proof (IOUAmount.quot_abs_le (signed a) (10 ^ k) (pow10_pos k Hk)).
  unfold signed in *. destruct (mIsNegative a); lia.
Qed.

(** C3: on canonical issued amounts of one currency, [operator+] has the outcome
    of [IOUAmount::operator+=], and the sum is canonical and in the issue of the
    left operand; on different currencies it throws. *)
Theorem add_refines_iou v1 v2 : wf v1 -> wf v2 -> isXRP v1 = false ->
  if areComparable v1 v2
  then agrees iou (add v1 v2) (IOUAmount.add (iou v1) (iou v2)) /\
       (forall r, add v1 v2 = Ok r -> wf r /\ mIssue r = mIssue v1)
  else add v1 v2 = Throw "Can't add amounts that are't comparable!".
Proof.
  intros H1 H2 Hx. destruct (areComparable v1 v2) eqn:Hc; [|by unfold add; rewrite Hc].
  pose proof (comparable_xrp _ _ H1 H2 Hc) as Hx2. rewrite Hx in Hx2. symmetry in Hx2.
  pose proof (wf_value v1 H1) as Hv1. pose proof (wf_value v2 H2) as Hv2.
  unfold add, IOUAmount.add. rewrite Hc. simpl. rewrite !iou_zero by done.
  destruct (IOUAmount.eqb (iou v2) _) eqn:Hz2; [by split; [|by intros r [= <-]]|].
  destruct (IOUAmount.eqb (iou v1) _) eqn:Hz1.
  - assert (canonicalize (mk (mIssue v1) (mValue v2) (mOffset v2) false (mIsNegative v2)) =
      Ok (mk (mIssue v1) (mValue v2) (mOffset v2) false (mIsNegative v2))) as Hcan.
    { apply canonicalize_wf. destruct H2 as (_ & ? & Hc2). rewrite Hx2 in Hc2.
      unfold wf, isXRP in *. simpl. by rewrite Hx. }
    unfold of_issue. rewrite Hcan. split; [done|]. intros r [= <-].
    destruct H2 as (_ & ? & Hc2). rewrite Hx2 in Hc2. unfold wf, isXRP in *. simpl. by rewrite Hx.
  - destruct H1 as (Hn & Hrest). rewrite Hn, Hx. rewrite !signed_value_eq by (done || by split).
    rewrite !shrink_to_eq. cbn -[shrink_to]. rewrite !shrink_to_eq. cbn -[i64].
    set (q1 := Z.quot (signed v1) _). set (q2 := Z.quot (signed v2) _).
    assert (Z.abs q1 <= cMaxNativeN) by (apply quot_signed_bound; lia).
    assert (Z.abs q2 <= cMaxNativeN) by (apply quot_signed_bound; lia).
    set (fv := i64 (q1 + q2)). unfold cMaxNativeN in *.
    assert (- 2 ^ 63 < fv < 2 ^ 63) by (unfold fv; rewrite i64_id; lia).
    destruct ((-10 <=? fv) && (fv <=? 10))%bool eqn:Hs; reflect_bools.
    + unfold of_issue, canonicalize, isXRP in *. simpl. rewrite Hx. split; [done|].
      intros r [= <-]. unfold wf, isXRP. simpl. rewrite Hx. split_and!; auto.
    + destruct (0 <=? fv) eqn:Hp; reflect_bools.
      * rewrite u64_id by lia. split; [|intros; eapply of_issue_wf; [exact Hx| |done]; lia].
        apply (of_issue_iou _ fv _ false); [exact Hx|]. destruct Hs; reflect_bools; lia.
      * rewrite i64_id, u64_id by lia.
        split; [|intros; eapply of_issue_wf; [exact Hx| |done]; lia].
        pose proof (of_issue_iou (mIssue v1) (- fv)) as Hag. rewrite Z.opp_involutive in Hag.
        apply (Hag _ true); [exact Hx|]. lia.
Qed.

Lemma add_refines_iou_witness :
  agrees iou (add (mk (mkIssue 7 9) 5000000000000000 (-15) false false)
                  (mk (mkIssue 7 4) 7000000000000000 (-16) false true))
    (IOUAmount.add (iou (mk (mkIssue 7 9) 5000000000000000 (-15) false false))
                   (iou (mk (mkIssue 7 4) 7000000000000000 (-16) false true))) /\
  (forall r, add (mk (mkIssue 7 9) 5000000000000000 (-15) false false)
                 (mk (mkIssue 7 4) 7000000000000000 (-16) false true) = Ok r ->
     wf r /\ mIssue r = mkIssue 7 9).
Proof.
  apply (add_refines_iou (mk (mkIssue 7 9) 5000000000000000 (-15) false false)
                         (mk (mkIssue 7 4) 7000000000000000 (-16) false true));
    [by apply (bool_decide_unpack _)..|reflexivity].
Defined.

Lemma signed_abs a : 0 <= mValue a -> Z.abs (signed a) = mValue a.
Proof. unfold signed. destruct (mIsNegative a); lia. Qed.

Lemma getSNValue_eq a : wf a -> mIsNative a = true -> getSNValue a = Ok (signed a).
Proof.
  intros Hwf Hn. pose proof (wf_value a Hwf). unfold getSNValue, signed, cMaxNativeN in *.
  rewrite Hn, (i64_id (mValue a)) by lia. simpl. by destruct (mIsNegative a); wrap_id.
Qed.

Lemma of_i64_signed v : - 2 ^ 63 < v < 2 ^ 63 ->
  isXRP (of_i64 v) = true /\ mIsNative (of_i64 v) = true /\ mOffset (of_i64 v) = 0 /\
  signed (of_i64 v) = v.
Proof.
  intros Hv. unfold of_i64, set. case_if; unfold signed; simpl.
  - rewrite i64_id, u64_id by lia. split_and!; done || lia.
  - rewrite u64_id by lia. done.
Qed.

(** The sum of two native amounts is exact: no truncation, no wrap-around
    and no exception, whatever the signs. *)
Theorem native_add_exact v1 v2 : wf v1 -> wf v2 -> isXRP v1 = true -> isXRP v2 = true ->
  exists r, add v1 v2 = Ok r /\ isXRP r = true /\ mIsNative r = true /\ mOffset r = 0 /\
    signed r = signed v1 + signed v2.
Proof.
  intros H1 H2 Hx1 Hx2. pose proof (wf_value v1 H1). pose proof (wf_value v2 H2).
  pose proof H1 as (Hn1 & _ & Hc1). pose proof H2 as (Hn2 & _ & Hc2).
  rewrite Hx1 in *. rewrite Hx2 in *.
  assert (areComparable v1 v2 = true) as Hc.
  { unfold areComparable, isXRP, isXRP_id in *. rewrite Hn1, Hn2. simpl. reflect_bools.
    apply Z.eqb_eq. lia. }
  unfold add. rewrite Hc. simpl. rewrite !is_zero_iff.
  destruct (mValue v2 =? 0) eqn:Hz2; reflect_bools.
  { exists v1. split_and!; try done; [lia|].
    assert (signed v2 = 0) by (unfold signed; destruct (mIsNegative v2); lia). lia. }
  destruct (mValue v1 =? 0) eqn:Hz1; reflect_bools.
  { unfold of_issue. rewrite canonicalize_native by (unfold cMaxNativeN in *; simpl; lia || done).
    simpl. unfold scaled. destruct Hc2 as [-> ?]. simpl.
    unfold cMaxNativeN in *. rewrite Z.mul_1_r, u64_id by lia.
    rewrite (proj2 (Z.ltb_ge _ _)) by lia. eexists; split_and!; try done.
    assert (signed v1 = 0) by (unfold signed; destruct (mIsNegative v1); lia).
    unfold signed in *. simpl. lia. }
  rewrite Hn1, !getSNValue_eq by done. simpl.
  eexists; split; [done|]. pose proof (signed_abs v1). pose proof (signed_abs v2).
  unfold cMaxNativeN in *. rewrite i64_id by lia. apply of_i64_signed. lia.
Qed.

Lemma native_add_exact_witness :
  exists r, add (mk xrpIssue 70000000000000 0 true false) (mk xrpIssue 12 0 true true) = Ok r /\
    isXRP r = true /\ mIsNative r = true /\ mOffset r = 0 /\
    signed r = 70000000000000 + - 12.
Proof.
  apply (native_add_exact (mk xrpIssue 70000000000000 0 true false) (mk xrpIssue 12 0 true true));
    [by apply (bool_decide_unpack _)..|reflexivity|reflexivity].
Defined.

(** ** What canonicalisation does not catch *)

(** The scaling loop of a native amount multiplies at 64 bits without a
    check, so an amount far above the network maximum can wrap around below it
    and be accepted: 1844674407370955162e1 drops become 4 drops. *)
Theorem native_exponent_wraps :
  of_issue xrpIssue 1844674407370955162 1 false = Ok (mk xrpIssue 4 0 true false) /\
  cMaxNativeN < 1844674407370955162 * 10 ^ 1.
Proof. split; vm_compute; reflexivity. Qed.

End STAmount.
