(* ===== verification/AmountWire.v ===== *)
(** * The wire format of amounts

    [STAmount::add] writes 64 bits (a native amount with its sign bit, or ten
    bits of flags and offset over a 54-bit mantissa) followed, for an issued
    amount, by the currency and the account; the constructor from a
    [SerialIter] reads them back (src/src/ripple/protocol/impl/STAmount.cpp). *)

From stdpp Require Import base tactics numbers list strings option.
From S2P Require Import Prelude Decimal Serializer STAmount.

Module AmountWire.
Import STAmount.

(** Amounts with a wire form: a native amount carries the null issue, an issued
    one a 160-bit currency and account that are not null. *)
Definition wire_ok (a : t) : Prop :=
  wf a /\ if isXRP a then mIssue a = xrpIssue
          else id160 (currency (mIssue a)) /\ id160 (account (mIssue a)) /\ account (mIssue a) <> 0.

(** The first 64 bits. *)
Definition head_word (a : t) : Z :=
  if mIsNative a then (if mIsNegative a then mValue a else 1 * 2 ^ 62 + mValue a)
  else if is_zero a then 512 * 2 ^ 54 + 0
  else (mOffset a + 97 + 512 + (if mIsNegative a then 0 else 256)) * 2 ^ 54 + mValue a.

Lemma lor_field x y k : 0 <= k -> 0 <= y < 2 ^ k -> 0 <= x < 2 ^ (64 - k) -> k <= 64 ->
  Z.lor y (u64 (Z.shiftl (u64 x) k)) = x * 2 ^ k + y.
Proof.
  intros Hk Hy Hx Hk64.
  assert (2 ^ (64 - k) <= 2 ^ 64) by (apply Z.pow_le_mono_r; lia).
  rewrite (u64_id x) by lia. rewrite u64_id.
  - rewrite Z.lor_comm. by apply lor_shiftl.
  - rewrite Z.shiftl_mul_pow2 by lia. replace (2 ^ 64) with (2 ^ (64 - k) * 2 ^ k).
    + pose proof (Z.pow_pos_nonneg 2 k ltac:(lia) Hk). nia.
    + rewrite <- Z.pow_add_r by lia. f_equal. lia.
Qed.

Lemma serialize_bytes a s : wire_ok a ->
  serialize a s = s ++ Serializer.be_bytes 8 (head_word a) ++
    (if isXRP a then [] else Serializer.be_bytes 20 (currency (mIssue a)) ++
                             Serializer.be_bytes 20 (account (mIssue a))).
Proof.
  intros [Hwf Hi]. pose proof (wf_value a Hwf) as Hv. unfold cMaxNativeN in Hv.
  destruct Hwf as (Hn & Hneg & Hc). unfold serialize, head_word. rewrite Hn.
  destruct (isXRP a) eqn:Hx.
  - rewrite app_nil_r. destruct (mIsNegative a); cbn [negb];
      rewrite Serializer.add64_be; cbn [snd]; [done|].
    do 2 f_equal. rewrite Z.lor_comm. apply (lor_shiftl 1 (mValue a) 62); lia.
  - unfold Serializer.add160, Serializer.addBitString. rewrite is_zero_iff in *.
    assert (forall w, snd (Serializer.add64 w s) = s ++ Serializer.be_bytes 8 w) as Hadd
      by (intros; by rewrite Serializer.add64_be).
    destruct Hc as [[Hz Ho]|[Hr Ho]].
    + rewrite Hz, Z.eqb_refl, Hadd. cbn [snd]. by rewrite <- !app_assoc.
    + rewrite (proj2 (Z.eqb_neq _ _)) by (unfold cMinValue in *; lia).
      unfold cMinValue, cMaxValue, cMinOffset, cMaxOffset in *.
      destruct (mIsNegative a); rewrite Hadd, lor_field by lia; cbn [snd];
        rewrite <- !app_assoc; do 3 f_equal; lia.
Qed.

Lemma head_word_range a : wf a -> 0 <= head_word a < 2 ^ 64.
Proof.
  intros Hwf. pose proof (wf_value a Hwf) as Hv. unfold cMaxNativeN in Hv.
  destruct Hwf as (Hn & Hneg & Hc). unfold head_word. rewrite Hn.
  destruct (isXRP a); [destruct (mIsNegative a); lia|].
  destruct (is_zero a) eqn:Hz; [lia|]. rewrite is_zero_iff in Hz. reflect_bools.
  unfold cMinValue, cMaxValue, cMinOffset, cMaxOffset in *. destruct (mIsNegative a); lia.
Qed.

(** The fields of an issued amount's first word. *)
Lemma issued_fields x v : 512 <= x < 1024 -> 0 <= v < 2 ^ 54 ->
  let w := x * 2 ^ 54 + v in
  (Z.land w cNotNative =? 0) = false /\ Z.shiftr w 54 = x /\
  Z.ldiff w (Z.shiftl 1023 54) = v.
Proof.
  intros Hx Hv w. assert (Z.shiftr w 54 = x) as Hs by (apply shiftr_packed; lia).
  split_and!; [|done|].
  - change cNotNative with (2 ^ 63). rewrite land_bit by lia.
    change 63 with (9 + 54). rewrite <- (Z.shiftr_spec w 54 9), Hs, testbit_div by lia.
    assert (x / 2 ^ 9 = 1) as -> by (symmetry; apply (Z.div_unique x 512 1 (x - 512)); lia). done.
  - change 1023 with (Z.ones 10). rewrite ldiff_top by (unfold w; lia).
    unfold w. rewrite Z.add_comm, Z.mod_add by lia. by apply Z.mod_small.
Qed.

Lemma offset_fields o (n : bool) : cMinOffset <= o <= cMaxOffset ->
  let x := o + 97 + 512 + (if n then 0 else 256) in
  (Z.land x 256 =? 0) = n /\ Z.land x 255 - 97 = o.
Proof.
  intros Ho x. unfold cMinOffset, cMaxOffset in Ho. split.
  - change 256 with (2 ^ 8) at 1. rewrite land_bit, testbit_div by lia.
    assert (x / 2 ^ 8 = if n then 2 else 3) as ->; [|by destruct n].
    symmetry. destruct n; unfold x;
      [apply (Z.div_unique _ _ 2 (o + 97))|apply (Z.div_unique _ _ 3 (o + 97))]; lia.
  - change 255 with (Z.ones 8). rewrite Z.land_ones by lia.
    assert (x mod 2 ^ 8 = o + 97) as ->; [|lia].
    symmetry. apply (Z.mod_unique _ _ (if n then 2 else 3)); unfold x; destruct n; lia.
Qed.

(** The fields of the first word of a native amount that is not negative. *)
Lemma native_fields v : 0 <= v < 2 ^ 62 ->
  let w := 1 * 2 ^ 62 + v in
  (Z.land w cNotNative =? 0) = true /\ (Z.land w cPosNative =? 0) = false /\
  Z.ldiff w cPosNative = v.
Proof.
  intros Hv w. unfold w. change cNotNative with (2 ^ 63). change cPosNative with (2 ^ 62).
  rewrite !land_bit, (testbit_high _ 63), (testbit_div _ 62) by lia.
  assert ((1 * 2 ^ 62 + v) / 2 ^ 62 = 1) as ->
    by (symmetry; apply (Z.div_unique _ _ 1 v); lia).
  split_and!; [done|done|].
  change (2 ^ 62) with (Z.shiftl (Z.ones 1) 62) at 2. rewrite ldiff_top by lia.
  by rewrite Z.add_comm, Z.mod_add, (Z.mod_small v) by lia.
Qed.

(** The first word of an issued amount as its two fields. *)
Lemma issued_head a : wf a -> isXRP a = false -> exists x,
  (if is_zero a then 512 * 2 ^ 54 + 0 else
     (mOffset a + 97 + 512 + (if mIsNegative a then 0 else 256)) * 2 ^ 54 + mValue a)
    = x * 2 ^ 54 + mValue a /\ 512 <= x < 1024 /\ 0 <= mValue a < 2 ^ 54 /\
  (mValue a = 0 -> x = 512) /\
  (mValue a <> 0 -> x = mOffset a + 97 + 512 + (if mIsNegative a then 0 else 256)).
Proof.
  intros Hwf Hx. pose proof (wf_value a Hwf) as Hv. destruct Hwf as (Hn & Hneg & Hc). rewrite Hx in Hc.
  rewrite is_zero_iff. unfold cMinValue, cMaxValue, cMinOffset, cMaxOffset in *.
  destruct (mValue a =? 0) eqn:Hz; reflect_bools.
  - exists 512. split_and!; lia.
  - eexists. split; [done|]. destruct (mIsNegative a); split_and!; lia.
Qed.

(** C2: every amount with a wire form is read back unchanged from what it
    writes, and the reader stops behind it. *)
Theorem amount_roundtrip a rest : wire_ok a ->
  Serializer.reads (Serializer.SerialIter (serialize a [] ++ rest)) rest deserialize a.
Proof.
  intros Hok. pose proof Hok as [Hwf Hi]. rewrite serialize_bytes by done.
  rewrite app_nil_l, <- app_assoc. pose proof (wf_value a Hwf) as Hv. unfold cMaxNativeN in Hv.
  eapply Serializer.reads_bind; [apply Serializer.iget64_reads;
    [apply Serializer.view_start|by apply head_word_range]|].
  intros it Hit. pose proof Hwf as (Hn & Hneg & Hc). unfold head_word. rewrite Hn.
  destruct (isXRP a) eqn:Hx.
  - assert (a = mk xrpIssue (mValue a) 0 true (mIsNegative a)) as Ha.
    { destruct a; simpl in *. destruct Hc as [-> _]. by subst. }
    destruct (mIsNegative a).
    + change cNotNative with (2 ^ 63). change cPosNative with (2 ^ 62).
      rewrite !land_bit, !(testbit_high (mValue a) 62) by lia. simpl.
      rewrite (proj2 (Z.eqb_neq (mValue a) 0)) by (intros ?; by specialize (Hneg H)).
      rewrite <- Ha. by apply Serializer.reads_ret.
    + destruct (native_fields (mValue a)) as (-> & -> & ->); [lia|]. cbn [negb]. rewrite <- Ha.
      by apply Serializer.reads_ret.
  - destruct Hi as (Hcur & Hacc & Hacc0). unfold id160 in *.
    destruct (issued_head a Hwf Hx) as (x & -> & Hxr & Hvr & Hx0 & Hx1).
    destruct (issued_fields x (mValue a) Hxr Hvr) as (-> & -> & ->).
    eapply Serializer.reads_bind.
    { apply (Serializer.igetBitString_reads it 20); [|exact Hcur]. by rewrite <- app_assoc in Hit. }
    intros it1 Hit1. unfold isXRP in Hx. rewrite Hx.
    eapply Serializer.reads_bind;
      [apply (Serializer.igetBitString_reads it1 20); [exact Hit1|exact Hacc]|].
    intros it2 Hit2. unfold isXRP_id at 1. rewrite (proj2 (Z.eqb_neq _ _) Hacc0).
    assert (mkIssue (currency (mIssue a)) (account (mIssue a)) = mIssue a) as ->
      by by destruct (mIssue a).
    destruct (mValue a =? 0) eqn:Hz; cbn [negb]; reflect_bools.
    + rewrite Hx0 by done. cbn [negb Z.eqb Pos.eqb]. apply Serializer.reads_lift; [done|].
      assert (a = mk (mIssue a) 0 (-100) false false) as ->.
      { destruct a; simpl in *. destruct Hc as [[-> ->]|[? _]];
          [by rewrite Hn, Hneg|unfold cMinValue in *; lia]. }
      unfold canonicalize, isXRP. cbn [mIssue mValue]. by rewrite Hx.
    + destruct Hc as [[? _]|[Hr Ho]]; [done|].
      rewrite (Hx1 Hz) in *. destruct (offset_fields (mOffset a) (mIsNegative a) Ho) as [-> ->].
      replace (_ || _ || _ || _)%bool with false.
      2: { symmetry. rewrite !orb_false_iff, !Z.ltb_ge. lia. }
      apply Serializer.reads_lift; [done|].
      replace (mk (mIssue a) (mValue a) (mOffset a) false (mIsNegative a)) with a
        by (destruct a; simpl in *; by subst).
      by apply canonicalize_wf.
Qed.

Lemma amount_roundtrip_witness :
  Serializer.reads
    (Serializer.SerialIter (serialize (mk (mkIssue 7 9) 5000000000000000 (-15) false true) [] ++ [1; 2]))
    [1; 2] deserialize (mk (mkIssue 7 9) 5000000000000000 (-15) false true).
Proof.
  apply (amount_roundtrip (mk (mkIssue 7 9) 5000000000000000 (-15) false true) [1; 2]).
  split; [by apply (bool_decide_unpack _)|]. vm_compute. intuition congruence.
Defined.

(** The negative zero that [canonicalize] can produce is not readable: the
    amount -5e-1 in native currency is constructed without an exception, is
    written as a zero word, and the reader refuses that word. *)
Theorem negative_zero_unreadable :
  of_issue xrpIssue 5 (-1) true = Ok (mk xrpIssue 0 0 true true) /\
  deserialize (Serializer.SerialIter (serialize (mk xrpIssue 0 0 true true) [])) =
    Throw "negative zero is not canonical".
Proof. split; vm_compute; reflexivity. Qed.

End AmountWire.
