(* ===== verification/AmountArith.v ===== *)
(** * Arithmetic of amounts against exact arithmetic

    The products and quotients of [STAmount] (multiply, divide, mulRound and
    divRound of src/src/ripple/protocol/impl/STAmount.cpp) compared with the
    exact rational result: within one unit in the last place, truncation
    towards zero when the rounding direction says so, and how far rounding away
    from zero can miss.  All theorems hold for any big-number library that
    satisfies [BNLaws]. *)

From stdpp Require Import base tactics numbers list strings option.
From S2P Require Import Prelude Decimal IOUAmount BigNum Serializer STAmount.

Module AmountArith.
Import STAmount.

(** ** Decimals with a denominator *)

Lemma dec_lt_shift m1 e1 m2 e2 k : dec_lt m1 (e1 + k) m2 (e2 + k) <-> dec_lt m1 e1 m2 e2.
Proof.
  rewrite (dec_lt_at (Z.min e1 e2 + k)), (dec_lt_at (Z.min e1 e2) m1 e1) by lia.
  by replace (e1 + k - (Z.min e1 e2 + k)) with (e1 - Z.min e1 e2) by lia;
     replace (e2 + k - (Z.min e1 e2 + k)) with (e2 - Z.min e1 e2) by lia.
Qed.

Lemma dec_lt_mul m1 e1 m2 e2 d : 0 < d -> dec_lt (m1 * d) e1 (m2 * d) e2 <-> dec_lt m1 e1 m2 e2.
Proof.
  intros Hd. rewrite !(dec_lt_at (Z.min e1 e2)) by lia.
  rewrite (Z.mul_shuffle0 m1), (Z.mul_shuffle0 m2). symmetry. by apply Z.mul_lt_mono_pos_r.
Qed.

Lemma dec_le_lt_trans m1 e1 m2 e2 m3 e3 :
  dec_le m1 e1 m2 e2 -> dec_lt m2 e2 m3 e3 -> dec_lt m1 e1 m3 e3.
Proof.
  set (k := Z.min e1 (Z.min e2 e3)). rewrite !(dec_lt_at k), (dec_le_at k) by lia. lia.
Qed.

(** [within lo hi d o' A o]: [lo < A / d < hi], where [A / d] counts units of
    [10 ^ o] and [lo], [hi] units of [10 ^ o']. *)
Definition within (lo hi d o' A o : Z) : Prop :=
  dec_lt (lo * d) o' A o /\ dec_lt A o (hi * d) o'.

(** From a bound on the floor to a bound on the quotient. *)
Lemma floor_within lo hi d o' A o k : 0 < d -> 0 <= k -> o' = o + k ->
  lo * 10 ^ k < A / d -> A / d + 1 <= hi * 10 ^ k -> within lo hi d o' A o.
Proof.
  intros Hd Hk -> Hlo Hhi. pose proof (Z.mul_div_le A d Hd). pose proof (Z.mul_succ_div_gt A d Hd).
  unfold within. rewrite !(dec_lt_at o) by lia. rewrite Z.sub_diag.
  replace (o + k - o) with k by lia. pose proof (pow10_pos k Hk). nia.
Qed.

(** ** Building the result *)

Lemma of_issue_fit i m e n : isXRP_id (currency i) = false -> 0 < m < 2 ^ 64 ->
  wp (of_issue i m e n)
    (fun r => wf r /\ mIssue r = i /\ (mValue r <> 0 -> mIsNegative r = n) /\
       if mValue r =? 0 then dec_lt m e cMinValue cMinOffset
       else fit_to m e (Some (mValue r, mOffset r)))
    (fun x => x = "value overflow"%string /\ dec_le (cMaxValue + 1) cMaxOffset m e).
Proof.
  intros Hx Hm. unfold of_issue, canonicalize, isXRP. simpl. rewrite Hx.
  rewrite (proj2 (Z.eqb_neq m 0)) by lia. apply wp_bind.
  eapply wp_mono; [by apply fit_u64_spec| |done].
  intros [[v o]|] Hf; unfold wf, isXRP; simpl; rewrite Hx.
  - pose proof Hf as ([? ?] & ? & _). unfold cMinValue in *.
    rewrite (proj2 (Z.eqb_neq v 0)) by lia. split; [|exact (conj eq_refl (conj (fun _ => eq_refl) Hf))].
    split_and!; [done|lia|auto].
  - split_and!; try done. auto.
Qed.

Lemma bring_into_range_spec a : wf a -> 0 < mValue a <= cMaxValue ->
  exists k, 0 <= k /\
    bring_into_range (mIsNative a) (mValue a) (mOffset a) = Ok (mValue a * 10 ^ k, mOffset a - k) /\
    cMinValue <= mValue a * 10 ^ k <= cMaxValue.
Proof.
  intros (Hn & _ & Hc) Hv. unfold bring_into_range, cMinValue, cMaxValue in *.
  destruct (mIsNative a) eqn:Hnat; rewrite <- Hn in Hc.
  - destruct Hc as [Ho _].
    assert (wp (while_ digits_fuel (fun '(v, _) => v <? 1000000000000000)
      (fun '(v, o) => Ok (u64 (v * 10), o - 1)) (mValue a, mOffset a))
      (fun '(v, o) => exists k, 0 <= k /\ v = mValue a * 10 ^ k /\ o = mOffset a - k /\
         1000000000000000 <= v <= 9999999999999999) (fun _ => False)) as H.
    { eapply wp_mono.
      - apply (while_wp (fun '(v, o) => exists k, 0 <= k /\ v = mValue a * 10 ^ k /\
          o = mOffset a - k /\ v <= 9999999999999999) (fun '(v, o) => 16 + o - mOffset a)
          (fun _ => False)).
        + intros [v o] (k & Hk & -> & -> & Hmax) Hlt. reflect_bools. pose proof (pow10_pos k Hk).
          assert (k < 15) by (apply pow10_lt_inv; nia). split; [lia|]. simpl. split; [|lia].
          exists (k + 1). rewrite u64_id, pow10_S by lia. split_and!; lia.
        + exists 0. rewrite Z.pow_0_r. split_and!; lia.
        + unfold digits_fuel. lia.
      - intros [v o] [(k & Hk & -> & -> & Hmax) Hge]. reflect_bools. exists k. lia.
      - done. }
    destruct (while_ _ _ _ _) as [[v o]| |]; try done. destruct H as (k & Hk & -> & -> & ?).
    by exists k.
  - exists 0. rewrite Z.pow_0_r, Z.mul_1_r, Z.sub_0_r. split_and!; try done; lia.
Qed.

(** What a positive quotient [A / d] in units of [10 ^ o] becomes as a result:
    [lo] and [hi] bound the distance, in units in the last place. *)
Definition rounds (i : Issue) (n : bool) (d A o : Z) (bounds : t -> Prop) (r : result t) : Prop :=
  wp r
    (fun r => wf r /\ mIssue r = i /\
       if mValue r =? 0 then dec_lt A o (cMinValue * d) cMinOffset
       else mIsNegative r = n /\ bounds r)
    (fun x => x = "value overflow"%string /\ dec_lt ((cMaxValue - 9) * d) cMaxOffset A o).

Definition near (d A o : Z) (r : t) : Prop :=
  within (mValue r - 1) (mValue r + 1) d (mOffset r) A o.

(** Exact truncation: [r <= A / d < r + 1]. *)
Definition truncated (d A o : Z) (r : t) : Prop :=
  dec_le (mValue r * d) (mOffset r) A o /\ dec_lt A o ((mValue r + 1) * d) (mOffset r).

(** At least the quotient less a tenth of a unit, and less than a unit above. *)
Definition raised (d A o : Z) (r : t) : Prop :=
  dec_lt ((mValue r - 1) * d) (mOffset r) A o /\
  dec_lt A o ((10 * mValue r + 1) * d) (mOffset r - 1).

(** ** Rounding a quotient of at least 17 digits *)

Lemma truncate_digits v k v' : 0 <= k -> v' = v / 10 ^ k ->
  v' * 10 ^ k <= v < (v' + 1) * 10 ^ k.
Proof.
  intros Hk ->. pose proof (pow10_pos k Hk). pose proof (Z.mul_div_le v (10 ^ k)).
  pose proof (Z.mul_succ_div_gt v (10 ^ k)). lia.
Qed.

(** [of_issue] on [A / d + c] drops at least one digit. *)
Lemma of_issue_quotient i n d A o c : isXRP_id (currency i) = false -> 0 < d -> 0 <= c <= 9 ->
  10 ^ 16 <= A / d -> A / d + c < 2 ^ 64 ->
  rounds i n d A o
    (fun r => exists k, 1 <= k /\ mOffset r = o + k /\ mValue r = (A / d + c) / 10 ^ k)
    (of_issue i (A / d + c) o n).
Proof.
  intros Hx Hd Hc HQ Hmax. pose proof (Z.mul_div_le A d Hd). pose proof (Z.mul_succ_div_gt A d Hd).
  eapply wp_mono; [apply of_issue_fit; [done|lia]| |].
  - intros r (Hwf & Hi & Hn & Hf). split_and!; [done..|]. destruct (mValue r =? 0) eqn:Hz.
    + revert Hf. unfold cMinValue, cMinOffset. destruct (decide (-96 <= o)).
      * intros Hf. exfalso. revert Hf. apply dec_le_lt, dec_le_mono; lia.
      * rewrite !(dec_lt_at o) by lia. rewrite Z.sub_diag. pose proof (pow10_pos (-96 - o)). nia.
    + reflect_bools. split; [auto|]. destruct Hf as (Hr & _ & _ & _ & _ & Hbig).
      destruct Hbig as [Ho Hv]; [unfold cMaxValue; lia|]. exists (mOffset r - o).
      split_and!; [|lia|done]. destruct (decide (mOffset r = o)) as [He|]; [|lia].
      rewrite He, Z.sub_diag, Z.pow_0_r, Z.div_1_r in Hv. unfold cMaxValue in *. lia.
  - intros e [-> Hov]. split; [done|]. revert Hov. unfold cMaxValue, cMaxOffset.
    destruct (decide (80 <= o)).
    + intros _. rewrite (dec_lt_at 80) by lia. pose proof (pow10_pos (o - 80)). nia.
    + rewrite (dec_le_at o), (dec_lt_at o) by lia. rewrite Z.sub_diag.
      replace (80 - o) with (80 - o - 1 + 1) by lia. rewrite pow10_S by lia.
      pose proof (pow10_pos (80 - o - 1)). nia.
Qed.

Lemma rounds_mono i n d A o (P P' : t -> Prop) r : (forall r, P r -> P' r) ->
  rounds i n d A o P r -> rounds i n d A o P' r.
Proof.
  intros HP H. eapply wp_mono; [exact H| |done]. intros r' (? & ? & Hr).
  split_and!; [done..|]. destruct (mValue r' =? 0); [done|]. destruct Hr. auto.
Qed.

Lemma of_issue_near i n d A o c : isXRP_id (currency i) = false -> 0 < d -> 1 <= c <= 9 ->
  10 ^ 16 <= A / d -> A / d + c < 2 ^ 64 ->
  rounds i n d A o (near d A o) (of_issue i (A / d + c) o n).
Proof.
  intros ? ? ? ? ?. eapply rounds_mono; [|apply of_issue_quotient; (done || lia)].
  intros r (k & Hk & Ho & Hv). apply truncate_digits in Hv as [Hlo Hhi]; [|lia].
  replace k with (k - 1 + 1) in Hlo, Hhi by lia. rewrite pow10_S in Hlo, Hhi by lia.
  pose proof (pow10_pos (k - 1)).
  apply floor_within with (k := k - 1 + 1); try lia; rewrite pow10_S by lia; nia.
Qed.

Lemma of_issue_truncated i n d A o : isXRP_id (currency i) = false -> 0 < d ->
  10 ^ 16 <= A / d < 2 ^ 64 ->
  rounds i n d A o (truncated d A o) (of_issue i (A / d) o n).
Proof.
  intros Hx Hd HQ. rewrite <- (Z.add_0_r (A / d)).
  eapply rounds_mono; [|apply of_issue_quotient; (done || lia)].
  intros r (k & Hk & Ho & Hv). rewrite Z.add_0_r in Hv.
  apply truncate_digits in Hv as [Hlo Hhi]; [|lia]. pose proof (pow10_pos k).
  pose proof (Z.mul_div_le A d Hd). pose proof (Z.mul_succ_div_gt A d Hd).
  unfold truncated. rewrite Ho. rewrite (dec_le_at o), (dec_lt_at o) by lia. rewrite Z.sub_diag.
  replace (o + k - o) with k by lia. nia.
Qed.

(** [canonicalizeRound] away from zero: all but the last dropped digit are
    truncated, the last is rounded up. *)
Lemma canonicalizeRound_spec Q o : 10 ^ 16 <= Q < 2 ^ 64 - 9 ->
  exists v k, canonicalizeRound false Q o true = Ok (v, o + k) /\ 1 <= k /\
    cMinValue <= v <= cMaxValue /\
    (v - 1) * 10 ^ k <= Q - 10 ^ (k - 1) /\ Q < (10 * v + 1) * 10 ^ (k - 1).
Proof.
  intros HQ. unfold canonicalizeRound. simpl negb. cbv iota. unfold cMaxValue, cMinValue.
  rewrite (proj2 (Z.ltb_lt _ _)) by lia.
  assert (wp (while_ digits_fuel (fun '(v, _) => 10 * 9999999999999999 <? v)
    (fun '(v, o) => Ok (v / 10, o + 1)) (Q, o))
    (fun '(v, o') => exists k, 0 <= k /\ o' = o + k /\ v = Q / 10 ^ k /\
       9999999999999999 <= v <= 99999999999999990 /\ (k = 0 -> v = Q)) (fun _ => False)) as H.
  { eapply wp_mono.
    - apply (while_wp (fun '(v, o') => exists k, 0 <= k /\ o' = o + k /\ v = Q / 10 ^ k /\
        9999999999999999 <= v) (fun '(_, o') => 20 - (o' - o)) (fun _ => False)).
      + intros [v o'] (k & Hk & -> & -> & _) Hc. reflect_bools. pose proof (pow10_pos k Hk).
        pose proof (Z.mul_div_le Q (10 ^ k) ltac:(lia)).
        assert (k < 20) by (apply pow10_lt_inv; nia). split; [lia|]. simpl. split; [|lia].
        exists (k + 1). rewrite div10_pow by lia. split_and!; try lia.
        apply Z.div_le_lower_bound; lia.
      + exists 0. rewrite Z.pow_0_r, Z.div_1_r. lia.
      + unfold digits_fuel. lia.
    - intros [v o'] [(k & Hk & -> & -> & ?) Hc]. reflect_bools. exists k.
      split_and!; try lia. intros ->. by rewrite Z.pow_0_r, Z.div_1_r.
    - done. }
  destruct (while_ _ _ _ _) as [[u o']| |]; try done. destruct H as (k & Hk & -> & Hu & Hr & _).
  simpl. rewrite u64_id by lia. exists ((u + 9) / 10), (k + 1).
  apply truncate_digits in Hu as [Hlo Hhi]; [|done]. pose proof (pow10_pos k Hk).
  pose proof (Z.mul_div_le (u + 9) 10 ltac:(lia)).
  pose proof (Z.mul_succ_div_gt (u + 9) 10 ltac:(lia)).
  replace (k + 1 - 1) with k by lia. rewrite pow10_S, Z.add_assoc by lia.
  split_and!; [done|lia|lia|lia| |nia].
  assert (((u + 9) / 10 - 1) * 10 <= u - 1) by lia. nia.
Qed.

Lemma of_issue_raised i n d A o Q : isXRP_id (currency i) = false -> 0 < d ->
  Q = (A + (d - 1)) / d -> 10 ^ 16 <= Q < 2 ^ 64 - 9 ->
  rounds i n d A o (raised d A o)
    (ao ← canonicalizeRound false Q o true; let '(a, o) := ao in of_issue i a o n).
Proof.
  intros Hx Hd HQ Hr. destruct (canonicalizeRound_spec Q o Hr) as (v & k & -> & Hk & Hv & Hlo & Hhi).
  simpl. pose proof (Z.mul_div_le (A + (d - 1)) d Hd). rewrite <- HQ in *.
  pose proof (Z.mul_succ_div_gt (A + (d - 1)) d Hd). rewrite <- HQ in *.
  pose proof (pow10_pos (k - 1) ltac:(lia)).
  assert (dec_lt ((v - 1) * d) (o + k) A o) as Hlow.
  { rewrite (dec_lt_at o) by lia. rewrite Z.sub_diag. replace (o + k - o) with k by lia. nia. }
  assert (dec_lt A o ((10 * v + 1) * d) (o + k - 1)) as Hhigh.
  { rewrite (dec_lt_at o) by lia. rewrite Z.sub_diag. replace (o + k - 1 - o) with (k - 1) by lia.
    nia. }
  unfold cMinValue, cMaxValue in *.
  eapply wp_mono; [apply of_issue_fit; [done|lia]| |].
  - intros r (Hwf & Hi & Hn & Hf). split_and!; [done..|]. destruct (mValue r =? 0) eqn:Hz.
    + apply (dec_lt_le_trans _ _ _ _ _ _ Hhigh). unfold cMinValue, cMinOffset in *.
      assert (o + k < -96). { destruct (decide (o + k < -96)); [done|exfalso]. revert Hf.
        apply dec_le_lt, dec_le_mono; lia. }
      apply (dec_le_scale_r _ _ _ _ 2); [lia|]. apply dec_le_mono; nia.
    + reflect_bools. split; [auto|]. destruct Hf as (Hrr & _ & _ & _ & Hsmall & _).
      unfold cMinValue, cMaxValue in *. destruct Hsmall as [Hle Heq]; [lia|].
      assert (mOffset r = o + k) as Ho.
      { destruct (decide (mOffset r = o + k)); [done|].
        replace (o + k - mOffset r) with (o + k - mOffset r - 1 + 1) in Heq by lia.
        rewrite pow10_S in Heq by lia. pose proof (pow10_pos (o + k - mOffset r - 1)). nia. }
      rewrite Ho, Z.sub_diag, Z.pow_0_r, Z.mul_1_r in Heq.
      unfold raised. rewrite Ho, Heq. done.
  - intros e [-> Hov]. split; [done|]. refine (dec_le_lt_trans _ _ _ _ _ _ _ Hlow).
    unfold cMaxOffset, cMaxValue in *.
    assert (80 < o + k). { destruct (decide (80 < o + k)); [done|exfalso]. revert Hov.
      rewrite dec_le_lt. intros Hov. apply Hov. apply dec_lt_mono; lia. }
    rewrite <- (dec_le_scale_r _ _ _ _ 1) by lia. apply dec_le_mono; nia.
Qed.

(** ** The same quotient in other units *)

Definition ratio_eq (d A o d' A' o' : Z) : Prop := forall x e,
  (dec_lt (x * d) e A o <-> dec_lt (x * d') e A' o') /\
  (dec_lt A o (x * d) e <-> dec_lt A' o' (x * d') e).

Lemma ratio_scale d A o j k : 0 <= j -> 0 <= k ->
  ratio_eq (d * 10 ^ j) (A * 10 ^ k) (o - k + j) d A o.
Proof.
  intros Hj Hk x e. rewrite !Z.mul_assoc. replace e with (e - j + j) at 1 3 by lia.
  rewrite !dec_lt_shift. rewrite dec_lt_scale_l, dec_lt_scale_r by done. split; [done|].
  by rewrite dec_lt_scale_l, dec_lt_scale_r by done.
Qed.

Lemma rounds_ratio i n d A o d' A' o' (P P' : t -> Prop) r : ratio_eq d A o d' A' o' ->
  (forall r, P r -> P' r) -> rounds i n d A o P r -> rounds i n d' A' o' P' r.
Proof.
  intros Hr HP H. eapply wp_mono; [exact H| |].
  - intros r' (? & ? & Hv). split_and!; [done..|].
    destruct (mValue r' =? 0); [by apply Hr|]. destruct Hv. auto.
  - intros e [-> ?]. split; [done|]. by apply Hr.
Qed.

Lemma near_ratio d A o d' A' o' r : ratio_eq d A o d' A' o' -> near d A o r -> near d' A' o' r.
Proof. intros H [??]. by split; apply H. Qed.

Lemma raised_ratio d A o d' A' o' r :
  ratio_eq d A o d' A' o' -> raised d A o r -> raised d' A' o' r.
Proof. intros H [??]. by split; apply H. Qed.

Lemma truncated_ratio d A o d' A' o' r :
  ratio_eq d A o d' A' o' -> truncated d A o r -> truncated d' A' o' r.
Proof.
  intros H [Hle ?]. split; [|by apply H]. apply dec_le_lt. apply dec_le_lt in Hle.
  intros ?. apply Hle. by apply H.
Qed.

(** An operand of the theorems: canonical, not zero, with at most 16 digits
    (every issued amount, and native amounts below 10^16 drops). *)
Definition operand (a : t) : Prop := wf a /\ 0 < mValue a <= cMaxValue.

Section results.
Context `{L : BNLaws}.

Lemma bn_muldiv_u64 a b c d : word_ok a -> word_ok b -> 0 < d < 2 ^ 64 ->
  match c with Some c => word_ok c | None => True end ->
  (a * b + default 0 c) / d < 2 ^ 64 ->
  exists v, bn_muldiv a b c d = Ok v /\ getuint64 v = (a * b + default 0 c) / d.
Proof.
  intros Ha Hb Hd Hc Hlt. destruct (bn_muldiv_spec a b c d Ha Hb Hd Hc) as (v & -> & Hv).
  exists v. split; [done|]. rewrite getuint64_spec, Hv; [done|]. rewrite Hv. split; [|done].
  unfold word_ok in *. apply Z.div_pos; [|lia]. destruct c; simpl; nia.
Qed.

Lemma quotient_range a b c d : cMinValue <= a <= cMaxValue -> 0 <= c < d ->
  cMinValue * 10 ^ 17 <= a * b -> a * b <= cMaxValue * 10 ^ 17 ->
  cMinValue <= d <= cMaxValue ->
  10 ^ 16 <= (a * b + c) / d < 2 ^ 63.
Proof.
  unfold cMinValue, cMaxValue. intros. split.
  - apply Z.div_le_lower_bound; lia.
  - apply Z.div_lt_upper_bound; lia.
Qed.

Lemma product_range a b c : cMinValue <= a <= cMaxValue -> cMinValue <= b <= cMaxValue ->
  0 <= c < tenTo14 -> 10 ^ 16 <= (a * b + c) / tenTo14 < 2 ^ 63.
Proof.
  unfold cMinValue, cMaxValue, tenTo14. intros. split.
  - apply Z.div_le_lower_bound; [lia|]. nia.
  - apply Z.div_lt_upper_bound; [lia|]. nia.
Qed.

(** The operands of a product, in range. *)
Lemma product_ratio v1 v2 k1 k2 : 0 <= k1 -> 0 <= k2 ->
  ratio_eq tenTo14 (mValue v1 * 10 ^ k1 * (mValue v2 * 10 ^ k2))
    (mOffset v1 - k1 + (mOffset v2 - k2) + 14)
    1 (mValue v1 * mValue v2) (mOffset v1 + mOffset v2).
Proof.
  intros H1 H2.
  pose proof (ratio_scale 1 (mValue v1 * mValue v2) (mOffset v1 + mOffset v2) 14 (k1 + k2)
    ltac:(lia) ltac:(lia)) as H.
  replace (1 * 10 ^ 14) with tenTo14 in H by done. rewrite Z.pow_add_r in H by lia.
  replace (mValue v1 * 10 ^ k1 * (mValue v2 * 10 ^ k2))
    with (mValue v1 * mValue v2 * (10 ^ k1 * 10 ^ k2)) by lia.
  by replace (mOffset v1 - k1 + (mOffset v2 - k2) + 14)
    with (mOffset v1 + mOffset v2 - (k1 + k2) + 14) by lia.
Qed.

Lemma quotient_ratio num den kn kd : 0 <= kn -> 0 <= kd ->
  ratio_eq (mValue den * 10 ^ kd) (mValue num * 10 ^ kn * tenTo17)
    (mOffset num - kn - (mOffset den - kd) - 17)
    (mValue den) (mValue num) (mOffset num - mOffset den).
Proof.
  intros Hn Hd.
  pose proof (ratio_scale (mValue den) (mValue num) (mOffset num - mOffset den) kd (kn + 17)
    ltac:(lia) ltac:(lia)) as H.
  rewrite Z.pow_add_r, Z.mul_assoc in H by lia.
  by replace (mOffset num - kn - (mOffset den - kd) - 17)
    with (mOffset num - mOffset den - (kn + 17) + kd) by lia.
Qed.

Lemma operand_nonzero a : operand a -> is_zero a = false.
Proof. intros [_ ?]. rewrite is_zero_iff. apply Z.eqb_neq. lia. Qed.

Lemma operand_in_range a : operand a -> exists k, 0 <= k /\
  bring_into_range (mIsNative a) (mValue a) (mOffset a) = Ok (mValue a * 10 ^ k, mOffset a - k) /\
  cMinValue <= mValue a * 10 ^ k <= cMaxValue.
Proof. intros [??]. by apply bring_into_range_spec. Qed.

(** The product of two non-zero amounts in an issued currency: it is
    canonical and has the right sign, and the exact product lies strictly
    within one unit in the last place of it.  It is zero only if the exact
    product is below the smallest amount, and the operation throws only if
    the exact product is above [(10^16 - 10) * 10^80]. *)
Theorem multiply_near v1 v2 i : operand v1 -> operand v2 -> isXRP_id (currency i) = false ->
  rounds i (negb (Bool.eqb (mIsNegative v1) (mIsNegative v2)))
    1 (mValue v1 * mValue v2) (mOffset v1 + mOffset v2)
    (near 1 (mValue v1 * mValue v2) (mOffset v1 + mOffset v2))
    (multiply v1 v2 i).
Proof.
  intros H1 H2 Hx. unfold multiply. rewrite !operand_nonzero, Hx, andb_false_r by done. simpl.
  destruct (operand_in_range v1 H1) as (k1 & Hk1 & -> & Hr1). simpl.
  destruct (operand_in_range v2 H2) as (k2 & Hk2 & -> & Hr2). simpl.
  pose proof (product_range _ _ 0 Hr1 Hr2 ltac:(done)) as Hq. rewrite Z.add_0_r in Hq.
  edestruct (bn_muldiv_u64 (mValue v1 * 10 ^ k1) (mValue v2 * 10 ^ k2) None tenTo14)
    as (v & -> & Hv); try (unfold word_ok, cMinValue, cMaxValue in *; simpl; rewrite ?Z.add_0_r; done || lia).
  simpl in *. rewrite Z.add_0_r in Hv. rewrite Hv, u64_id by lia.
  eapply rounds_ratio; [by apply (product_ratio v1 v2 k1 k2)| |apply of_issue_near; (done || lia)].
  intros r. by apply near_ratio, product_ratio.
Qed.

Lemma divide_near_spec num den i : operand num -> operand den -> isXRP_id (currency i) = false ->
  rounds i (negb (Bool.eqb (mIsNegative num) (mIsNegative den)))
    (mValue den) (mValue num) (mOffset num - mOffset den)
    (near (mValue den) (mValue num) (mOffset num - mOffset den))
    (divide num den i).
Proof.
  intros H1 H2 Hx. unfold divide. rewrite !operand_nonzero by done.
  destruct (operand_in_range num H1) as (kn & Hkn & -> & Hrn). simpl.
  destruct (operand_in_range den H2) as (kd & Hkd & -> & Hrd). simpl.
  pose proof (quotient_range _ tenTo17 0 (mValue den * 10 ^ kd) Hrn ltac:(unfold cMinValue in *; lia)
    ltac:(unfold tenTo17, tenTo14; lia) ltac:(unfold tenTo17, tenTo14; lia) Hrd) as Hq.
  rewrite Z.add_0_r in Hq.
  edestruct (bn_muldiv_u64 (mValue num * 10 ^ kn) tenTo17 None (mValue den * 10 ^ kd))
    as (v & -> & Hv);
    try (unfold word_ok, cMinValue, cMaxValue in *; simpl; rewrite ?Z.add_0_r; done || lia).
  simpl in *. rewrite Z.add_0_r in Hv. rewrite Hv, u64_id by lia.
  eapply rounds_ratio; [by apply (quotient_ratio num den kn kd)| |apply of_issue_near; (done || lia || idtac)].
  - intros r. by apply near_ratio, quotient_ratio.
  - unfold cMinValue in *; lia.
Qed.

(** The quotient of two non-zero amounts in an issued currency, with the
    same guarantee as the product. *)
Theorem divide_near num den i : operand num -> operand den -> isXRP_id (currency i) = false ->
  rounds i (negb (Bool.eqb (mIsNegative num) (mIsNegative den)))
    (mValue den) (mValue num) (mOffset num - mOffset den)
    (near (mValue den) (mValue num) (mOffset num - mOffset den))
    (divide num den i).
Proof. apply divide_near_spec. Qed.

Lemma mulRound_spec v1 v2 i roundUp : operand v1 -> operand v2 ->
  isXRP_id (currency i) = false ->
  let negative := negb (Bool.eqb (mIsNegative v1) (mIsNegative v2)) in
  rounds i negative 1 (mValue v1 * mValue v2) (mOffset v1 + mOffset v2)
    (if Bool.eqb negative roundUp
     then truncated 1 (mValue v1 * mValue v2) (mOffset v1 + mOffset v2)
     else raised 1 (mValue v1 * mValue v2) (mOffset v1 + mOffset v2))
    (mulRound v1 v2 i roundUp).
Proof.
  intros H1 H2 Hx negative. unfold mulRound.
  rewrite !operand_nonzero, Hx, andb_false_r by done. simpl orb. cbv iota.
  destruct (operand_in_range v1 H1) as (k1 & Hk1 & -> & Hr1). simpl.
  destruct (operand_in_range v2 H2) as (k2 & Hk2 & -> & Hr2). simpl. fold negative.
  set (c := if negb (Bool.eqb negative roundUp) then Some tenTo14m1 else None).
  pose proof (product_range _ _ (default 0 c) Hr1 Hr2 ltac:(unfold c, tenTo14m1, tenTo14;
    destruct (Bool.eqb negative roundUp); simpl; lia)) as Hq.
  edestruct (bn_muldiv_u64 (mValue v1 * 10 ^ k1) (mValue v2 * 10 ^ k2) c tenTo14)
    as (v & -> & Hv); try (unfold word_ok, cMinValue, cMaxValue in *; done || lia);
    [unfold c, word_ok, tenTo14m1, tenTo14; destruct (Bool.eqb negative roundUp); simpl; lia || done|].
  simpl. rewrite Hv. subst c. destruct (Bool.eqb negative roundUp); simpl in *.
  - rewrite Z.add_0_r in *.
    eapply rounds_ratio; [by apply (product_ratio v1 v2 k1 k2)| |apply of_issue_truncated; (done || lia)].
    intros r. by apply truncated_ratio, product_ratio.
  - eapply rounds_ratio; [by apply (product_ratio v1 v2 k1 k2)| |apply of_issue_raised; (done || lia)].
    intros r. by apply raised_ratio, product_ratio.
Qed.

(** [mulRound] in an issued currency.  Rounding towards zero (the sign of
    the result and the direction agree) is exact truncation.  Rounding away
    from zero gives less than one unit more than the exact product, and never
    less than it by a tenth of a unit or more. *)
Theorem mulRound_correct v1 v2 i roundUp : operand v1 -> operand v2 ->
  isXRP_id (currency i) = false ->
  let negative := negb (Bool.eqb (mIsNegative v1) (mIsNegative v2)) in
  rounds i negative 1 (mValue v1 * mValue v2) (mOffset v1 + mOffset v2)
    (if Bool.eqb negative roundUp
     then truncated 1 (mValue v1 * mValue v2) (mOffset v1 + mOffset v2)
     else raised 1 (mValue v1 * mValue v2) (mOffset v1 + mOffset v2))
    (mulRound v1 v2 i roundUp).
Proof. apply mulRound_spec. Qed.

(** [divRound] in an issued currency, with the same guarantees. *)
Theorem divRound_correct num den i roundUp : operand num -> operand den ->
  isXRP_id (currency i) = false ->
  let negative := negb (Bool.eqb (mIsNegative num) (mIsNegative den)) in
  rounds i negative (mValue den) (mValue num) (mOffset num - mOffset den)
    (if Bool.eqb negative roundUp
     then truncated (mValue den) (mValue num) (mOffset num - mOffset den)
     else raised (mValue den) (mValue num) (mOffset num - mOffset den))
    (divRound num den i roundUp).
Proof.
  intros H1 H2 Hx negative. unfold divRound. rewrite !operand_nonzero by done. cbv iota.
  destruct (operand_in_range num H1) as (kn & Hkn & -> & Hrn). simpl.
  destruct (operand_in_range den H2) as (kd & Hkd & -> & Hrd). simpl. fold negative.
  assert (0 < mValue den * 10 ^ kd < 2 ^ 64) as Hd by (unfold cMinValue, cMaxValue in *; lia).
  rewrite (u64_id (_ - 1)) by lia. rewrite Hx.
  set (c := if negb (Bool.eqb negative roundUp) then Some _ else None).
  pose proof (quotient_range _ tenTo17 (default 0 c) (mValue den * 10 ^ kd) Hrn ltac:(unfold c; destruct (Bool.eqb negative roundUp); simpl; lia)
    ltac:(unfold tenTo17, tenTo14; lia) ltac:(unfold tenTo17, tenTo14; lia) Hrd) as Hq.
  edestruct (bn_muldiv_u64 (mValue num * 10 ^ kn) tenTo17 c (mValue den * 10 ^ kd))
    as (v & -> & Hv); try (unfold word_ok, cMinValue, cMaxValue in *; done || lia);
    [unfold c, word_ok; destruct (Bool.eqb negative roundUp); simpl; lia || done|].
  simpl. rewrite Hv. subst c. destruct (Bool.eqb negative roundUp); simpl in *.
  - rewrite Z.add_0_r in *.
    eapply rounds_ratio; [by apply (quotient_ratio num den kn kd)| |apply of_issue_truncated; (done || lia)].
    intros r. by apply truncated_ratio, quotient_ratio.
  - eapply rounds_ratio; [by apply (quotient_ratio num den kn kd)| |apply of_issue_raised; (done || lia)].
    intros r. by apply raised_ratio, quotient_ratio.
Qed.

(** ** Rates *)

(** The encoding of a canonical positive amount as a rate. *)
Lemma rate_encoding r : wf r -> isXRP r = false -> mValue r <> 0 ->
  Z.lor (u64 (Z.shiftl (u64 (mOffset r + 100)) 56)) (mValue r) =
    (mOffset r + 100) * 2 ^ 56 + mValue r /\ 4 <= mOffset r + 100 <= 180 /\
    0 < mValue r < 2 ^ 56.
Proof.
  intros (_ & _ & Hc) Hx Hv. rewrite Hx in Hc.
  destruct Hc as [[? ?]|[Hr Ho]]; [done|]. unfold cMinValue, cMaxValue, cMinOffset, cMaxOffset in *.
  split; [|lia]. rewrite (u64_id (_ + 100)) by lia.
  rewrite (u64_id (Z.shiftl _ _)) by (rewrite Z.shiftl_mul_pow2; lia). apply lor_shiftl; lia.
Qed.

Lemma amountFromQuality_encoding r : wf r -> mIssue r = noIssue -> mValue r <> 0 ->
  mIsNegative r = false ->
  amountFromQuality ((mOffset r + 100) * 2 ^ 56 + mValue r) = Ok r.
Proof.
  intros Hwf Hi Hv Hn. assert (isXRP r = false) as Hx by (unfold isXRP; by rewrite Hi).
  destruct (rate_encoding r Hwf Hx Hv) as (_ & Ho & Hr). unfold amountFromQuality.
  rewrite (proj2 (Z.eqb_neq _ 0)) by lia. change 255 with (Z.ones 8).
  rewrite ldiff_top, shiftr_packed by lia. rewrite (Z.add_comm (_ * _)), Z.mod_add, Z.mod_small by lia.
  unfold of_issue. rewrite <- (canonicalize_wf r Hwf). f_equal.
  destruct Hwf as [Hnat _]. destruct r; simpl in *. rewrite Hnat, Hx. f_equal; (done || lia).
Qed.

(** A rate other than 0 is the encoding of the quotient. *)
Lemma getRate_spec offerOut offerIn q : operand offerOut -> operand offerIn ->
  mIsNegative offerOut = mIsNegative offerIn -> getRate offerOut offerIn = Ok q -> q <> 0 ->
  exists r, divide offerIn offerOut noIssue = Ok r /\ wf r /\ mIssue r = noIssue /\
    mValue r <> 0 /\ mIsNegative r = false /\ q = (mOffset r + 100) * 2 ^ 56 + mValue r.
Proof.
  intros Ho Hi Hs Hq Hnz. unfold getRate in Hq. rewrite operand_nonzero in Hq by done.
  pose proof (divide_near_spec offerIn offerOut noIssue Hi Ho eq_refl) as H. rewrite Hs in H.
  destruct (divide offerIn offerOut noIssue) as [r| |]; simplify_eq.
  destruct H as (Hwf & Hir & Hr). rewrite is_zero_iff in Hq.
  destruct (mValue r =? 0) eqn:Hz; simplify_eq. reflect_bools. destruct Hr as [Hn _].
  rewrite Bool.eqb_reflx in Hn.
  destruct (rate_encoding r) as [He _]; [done|unfold isXRP; by rewrite Hir|done|].
  rewrite He. by exists r.
Qed.

(** Encodings are ordered as the amounts they encode. *)
Lemma encoding_order r1 r2 : wf r1 -> wf r2 -> isXRP r1 = false -> isXRP r2 = false ->
  mValue r1 <> 0 -> mValue r2 <> 0 -> mIsNegative r1 = false -> mIsNegative r2 = false ->
  (mOffset r1 + 100) * 2 ^ 56 + mValue r1 < (mOffset r2 + 100) * 2 ^ 56 + mValue r2 <->
  units r1 < units r2.
Proof.
  intros H1 H2 Hx1 Hx2 Hv1 Hv2 Hn1 Hn2.
  destruct (rate_encoding r1 H1 Hx1 Hv1) as (_ & Ho1 & Hr1).
  destruct (rate_encoding r2 H2 Hx2 Hv2) as (_ & Ho2 & Hr2).
  pose proof (IOUAmount.ltb_spec (iou r1) (iou r2) (iou_wf r1 H1 Hx1) (iou_wf r2 H2 Hx2)) as [Hl _].
  change (units r1) with (IOUAmount.units (iou r1)).
  change (units r2) with (IOUAmount.units (iou r2)). rewrite <- Hl.
  unfold IOUAmount.ltb, iou, signed. simpl. rewrite Hn1, Hn2.
  rewrite (proj2 (Z.ltb_ge (mValue r1) 0)), (proj2 (Z.ltb_ge (mValue r2) 0)) by lia.
  rewrite (proj2 (Z.eqb_neq (mValue r1) 0)), (proj2 (Z.eqb_neq (mValue r2) 0)) by lia. simpl.
  repeat case_if; rewrite ?Z.ltb_lt; split; intros; (done || lia).
Qed.

(** Rates sort like the prices they stand for.  For offers of positive
    amounts whose rate is not 0, [amountFromQuality] reads the rate back as the
    quotient that [getRate] encoded, and of two such rates the smaller number is
    the smaller price. *)
Theorem getRate_order out1 in1 out2 in2 q1 q2 :
  operand out1 -> operand in1 -> operand out2 -> operand in2 ->
  mIsNegative out1 = mIsNegative in1 -> mIsNegative out2 = mIsNegative in2 ->
  getRate out1 in1 = Ok q1 -> getRate out2 in2 = Ok q2 -> q1 <> 0 -> q2 <> 0 ->
  exists r1 r2, divide in1 out1 noIssue = Ok r1 /\ divide in2 out2 noIssue = Ok r2 /\
    amountFromQuality q1 = Ok r1 /\ amountFromQuality q2 = Ok r2 /\
    (q1 < q2 <-> units r1 < units r2).
Proof.
  intros Ho1 Hi1 Ho2 Hi2 Hs1 Hs2 Hq1 Hq2 Hn1 Hn2.
  destruct (getRate_spec out1 in1 q1) as (r1 & Hd1 & Hw1 & His1 & ? & ? & ->); [done..|].
  destruct (getRate_spec out2 in2 q2) as (r2 & Hd2 & Hw2 & His2 & ? & ? & ->); [done..|].
  exists r1, r2. rewrite !amountFromQuality_encoding by done. split_and!; [done..|].
  apply encoding_order; try done; unfold isXRP; by rewrite ?His1, ?His2.
Qed.

End results.

(** ** The theorems at concrete amounts *)

Definition usd_a : t := mk (mkIssue 7 9) 2500000000000000 (-15) false true.
Definition usd_b : t := mk (mkIssue 7 4) 3333333333333333 (-17) false false.
Definition usd_c : t := mk (mkIssue 7 4) 5000000000000000 (-17) false false.
Definition usd : Issue := mkIssue 7 9.

Lemma usd_a_operand : operand usd_a.
Proof. split; [by apply (bool_decide_unpack _)|done]. Qed.

Lemma usd_b_operand : operand usd_b.
Proof. split; [by apply (bool_decide_unpack _)|done]. Qed.

Lemma usd_c_operand : operand usd_c.
Proof. split; [by apply (bool_decide_unpack _)|done]. Qed.

Lemma multiply_near_witness :
  rounds usd true 1 (2500000000000000 * 3333333333333333) (-15 + -17)
    (near 1 (2500000000000000 * 3333333333333333) (-15 + -17)) (multiply usd_a usd_b usd).
Proof. exact (multiply_near usd_a usd_b usd usd_a_operand usd_b_operand eq_refl). Defined.

Lemma divide_near_witness :
  rounds usd true 3333333333333333 2500000000000000 (-15 - -17)
    (near 3333333333333333 2500000000000000 (-15 - -17)) (divide usd_a usd_b usd).
Proof. exact (divide_near usd_a usd_b usd usd_a_operand usd_b_operand eq_refl). Defined.

Lemma mulRound_correct_witness :
  let negative := negb (Bool.eqb (mIsNegative usd_a) (mIsNegative usd_b)) in
  rounds usd negative 1 (mValue usd_a * mValue usd_b) (mOffset usd_a + mOffset usd_b)
    (if Bool.eqb negative true
     then truncated 1 (mValue usd_a * mValue usd_b) (mOffset usd_a + mOffset usd_b)
     else raised 1 (mValue usd_a * mValue usd_b) (mOffset usd_a + mOffset usd_b))
    (mulRound usd_a usd_b usd true).
Proof. exact (mulRound_correct usd_a usd_b usd true usd_a_operand usd_b_operand eq_refl). Defined.

Lemma divRound_correct_witness :
  let negative := negb (Bool.eqb (mIsNegative usd_a) (mIsNegative usd_b)) in
  rounds usd negative (mValue usd_b) (mValue usd_a) (mOffset usd_a - mOffset usd_b)
    (if Bool.eqb negative false
     then truncated (mValue usd_b) (mValue usd_a) (mOffset usd_a - mOffset usd_b)
     else raised (mValue usd_b) (mValue usd_a) (mOffset usd_a - mOffset usd_b))
    (divRound usd_a usd_b usd false).
Proof. exact (divRound_correct usd_a usd_b usd false usd_a_operand usd_b_operand eq_refl). Defined.

Lemma getRate_order_witness :
  exists r1 r2, divide usd_b usd_b noIssue = Ok r1 /\ divide usd_c usd_b noIssue = Ok r2 /\
    amountFromQuality 6125895493223874560 = Ok r1 /\ amountFromQuality 6126395493223874560 = Ok r2 /\
    (6125895493223874560 < 6126395493223874560 <-> units r1 < units r2).
Proof.
  apply (getRate_order usd_b usd_b usd_b usd_c _ _ usd_b_operand usd_b_operand usd_b_operand
    usd_c_operand); (reflexivity || lia).
Defined.

(** Rounding up does not always give an upper bound.  For the product
    4000000000000001 * 4000000000000004 the loop of [canonicalizeRound] drops
    a non-zero digit before the digit it rounds up, and the result is below
    the exact product. *)
Theorem mulRound_up_below_exact :
  mulRound (mk usd 4000000000000001 0 false false) (mk usd 4000000000000004 0 false false) usd true
    = Ok (mk usd 1600000000000002 16 false false) /\
  1600000000000002 * 10 ^ 16 < 4000000000000001 * 4000000000000004.
Proof. split; vm_compute; reflexivity. Qed.

End AmountArith.
