(* ===== verification/Quality.v ===== *)
(** * Quality: the price of an offer

    Models [struct Amounts], [class Quality] and [composed_quality]
    (src/src/ripple/protocol/Quality.h and impl/Quality.cpp).  A quality is the
    64-bit rate of [STAmount.getRate]; a lower number is a better quality.
    Assertions are kept: a failed one is the exception ["assertion"]. *)

From stdpp Require Import base tactics numbers list strings option.
From S2P Require Import Prelude Decimal IOUAmount BigNum Serializer STAmount AmountArith.

Module Quality.
Import STAmount AmountArith.

Definition assert_ (b : bool) : result unit := throw_if (negb b) "assertion".

Record Amounts := mkAmounts { in_ : t; out : t }.

(** [in <= zero || out <= zero], comparing the sign with 0. *)
Definition empty (a : Amounts) : bool := ((signum (in_ a) <=? 0) || (signum (out a) <=? 0))%bool.

Definition amounts_eqb (l r : Amounts) : bool := (eqb (in_ l) (in_ r) && eqb (out l) (out r))%bool.

Definition max64 : Z := 2 ^ 64 - 1.

(** [Quality::operator++]: the next better quality. *)
Definition incr (q : Z) : result Z := _ ← assert_ (0 <? q); Ok (u64 (q - 1)).

(** [Quality::operator--]: the next worse quality. *)
Definition decr (q : Z) : result Z := _ ← assert_ (q <? max64); Ok (u64 (q + 1)).

(** The postfix forms return the old value beside the new one. *)
Definition incr_post (q : Z) : result (Z * Z) := q' ← incr q; Ok (q, q').
Definition decr_post (q : Z) : result (Z * Z) := q' ← decr q; Ok (q, q').

Definition rate (q : Z) : result t := amountFromQuality q.

(** [operator<]: lower quality is the higher number. *)
Definition ltb (l r : Z) : bool := r <? l.
Definition eqb (l r : Z) : bool := l =? r.

Section quality.
Context `{B : BN}.

(** [Quality (Amounts const&)] *)
Definition of_amounts (a : Amounts) : result Z := getRate (out a) (in_ a).

Definition ceil_in (q : Z) (amount : Amounts) (limit : t) : result Amounts :=
  gt ← gtb (in_ amount) limit;
  if gt : bool then
    r ← rate q;
    o ← divRound limit r (mIssue (out amount)) true;
    clamp ← gtb o (out amount);
    let res := mkAmounts limit (if clamp : bool then out amount else o) in
    _ ← assert_ (STAmount.eqb (in_ res) limit);
    Ok res
  else
    le ← leb (in_ amount) limit; _ ← assert_ le;
    Ok amount.

Definition ceil_out (q : Z) (amount : Amounts) (limit : t) : result Amounts :=
  gt ← gtb (out amount) limit;
  if gt : bool then
    r ← rate q;
    i ← mulRound limit r (mIssue (in_ amount)) true;
    clamp ← gtb i (in_ amount);
    let res := mkAmounts (if clamp : bool then in_ amount else i) limit in
    _ ← assert_ (STAmount.eqb (out res) limit);
    Ok res
  else
    le ← leb (out amount) limit; _ ← assert_ le;
    Ok amount.

Definition composed_quality (lhs rhs : Z) : result Z :=
  lhs_rate ← rate lhs; _ ← assert_ (negb (is_zero lhs_rate));
  rhs_rate ← rate rhs; _ ← assert_ (negb (is_zero rhs_rate));
  r ← mulRound lhs_rate rhs_rate (mIssue lhs_rate) true;
  let stored_exponent := u64 (mOffset r + 100) in
  let stored_mantissa := mValue r in
  _ ← assert_ ((0 <? stored_exponent) && (stored_exponent <=? 255))%bool;
  Ok (Z.lor (u64 (Z.shiftl stored_exponent 56)) stored_mantissa).

End quality.

(** ** The directed operations on all canonical amounts

    Weaker than the theorems of [AmountArith], but for native amounts of any
    size and native results too: they end, and what they return is canonical. *)

Definition not_assertion (e : string) : Prop := e <> "assertion"%string.

Lemma of_issue_nonneg i m e : 0 <= m < 2 ^ 64 ->
  wp (of_issue i m e false) (fun r => wf r /\ mIssue r = i /\ mIsNegative r = false) not_assertion.
Proof.
  intros Hm. unfold of_issue. eapply wp_mono; [by apply canonicalize_spec| |].
  - intros r ((Hi & Hc) & [Hwf|(_ & ? & _)] & _); [|done]. split_and!; [done..|].
    pose proof Hwf as (_ & Hz & _). cbn [mValue mIsNegative] in Hc.
    destruct (m =? 0); [auto|]. destruct (isXRP _); [by destruct Hc|].
    destruct (mValue r =? 0) eqn:Hr; reflect_bools; [auto|by destruct Hc].
  - intros x. simpl. case_if; by intros [-> _].
Qed.

Lemma bring_into_range_ok native v o : 0 < v < 2 ^ 64 ->
  wp (bring_into_range native v o) (fun '(v', _) => 0 < v' < 2 ^ 64) not_assertion.
Proof.
  intros Hv. unfold bring_into_range. destruct native; [|done].
  eapply wp_mono.
  - apply (while_wp (fun '(v', o') => exists k, 0 <= k /\ o' = o - k /\ v' = v * 10 ^ k /\ v' < 2 ^ 64)
      (fun '(_, o') => 16 + o' - o)).
    + intros [v' o'] (k & Hk & -> & -> & Hlt) Hc. unfold cMinValue in *. reflect_bools.
      pose proof (pow10_pos k Hk). assert (k < 15) by (apply pow10_lt_inv; nia).
      split; [lia|]. simpl. split; [|lia]. exists (k + 1). rewrite u64_id, pow10_S by nia.
      split_and!; lia.
    + exists 0. rewrite Z.pow_0_r. lia.
    + unfold digits_fuel. lia.
  - intros [v' o'] [(k & Hk & -> & -> & Hlt) _]. pose proof (pow10_pos k Hk). nia.
  - done.
Qed.

Lemma canonicalizeRound_ok native v o up : 0 <= v < 2 ^ 64 ->
  wp (canonicalizeRound native v o up) (fun '(v', _) => 0 <= v' < 2 ^ 64) not_assertion.
Proof.
  intros Hv. unfold canonicalizeRound. destruct up; cbn [negb]; [|done].
  assert (forall x, 0 <= u64 x / 10 < 2 ^ 64) as Hdiv.
  { intros x. pose proof (u64_range x). split; [apply Z.div_pos; lia|].
    apply Z.div_lt_upper_bound; lia. }
  destruct native.
  - destruct (o <? 0) eqn:Ho; [|done]. reflect_bools. apply wp_bind. eapply wp_mono.
    + apply (while_wp (fun _ => True) (fun '(_, o', _) => - o') not_assertion); [|done|lia].
      intros [[v' o'] l] _ Hc. reflect_bools. simpl. lia.
    + intros [[v' o'] l] _. apply Hdiv.
    + done.
  - case_if; [|done]. apply wp_bind. eapply wp_mono.
    + apply (while_wp (fun '(v', o') => exists k, 0 <= k /\ o' = o + k /\ v' = v / 10 ^ k)
        (fun '(_, o') => 20 - (o' - o)) not_assertion).
      * intros [v' o'] (k & Hk & -> & ->) Hc. unfold cMaxValue in *. reflect_bools.
        pose proof (pow10_pos k Hk). pose proof (Z.mul_div_le v (10 ^ k) ltac:(lia)).
        assert (k < 20) by (apply pow10_lt_inv; nia). split; [lia|]. simpl. split; [|lia].
        exists (k + 1). rewrite div10_pow by lia. lia.
      * exists 0. rewrite Z.pow_0_r, Z.div_1_r. lia.
      * unfold digits_fuel. lia.
    + intros [v' o'] _. apply Hdiv.
    + done.
Qed.

Section directed.
Context `{L : BNLaws}.

Lemma bn_muldiv_ok a b c d : 0 < a < 2 ^ 64 -> 0 < b < 2 ^ 64 -> 0 < d < 2 ^ 64 ->
  match c with Some c => 0 <= c < 2 ^ 64 | None => True end ->
  wp (bn_muldiv a b c d) (fun v => 0 <= getuint64 v < 2 ^ 64) not_assertion.
Proof.
  intros Ha Hb Hd Hc. destruct (bn_muldiv_spec a b c d) as (v & -> & _);
    [unfold word_ok; lia..|done|]. simpl. apply u64_range.
Qed.

Lemma wf_word a : wf a -> is_zero a = false -> 0 < mValue a < 2 ^ 64.
Proof.
  intros Hwf Hz. pose proof (wf_value a Hwf) as Hv. rewrite is_zero_iff in Hz. reflect_bools.
  unfold cMaxNativeN in *. lia.
Qed.

Lemma divRound_ok num den i up : wf num -> wf den -> mIsNegative num = mIsNegative den ->
  wp (divRound num den i up) (fun r => wf r /\ mIssue r = i /\ mIsNegative r = false) not_assertion.
Proof.
  intros Hn Hd Hs. unfold divRound. destruct (is_zero den) eqn:Hzd; [done|].
  destruct (is_zero num) eqn:Hzn; [by apply of_issue_nonneg|].
  apply wp_bind. eapply wp_mono; [apply bring_into_range_ok; by apply wf_word| |done].
  intros [nv no] Hnv. apply wp_bind.
  eapply wp_mono; [apply bring_into_range_ok; by apply wf_word| |done].
  intros [dv do'] Hdv. rewrite Hs, Bool.eqb_reflx. apply wp_bind.
  eapply wp_mono; [apply bn_muldiv_ok; [done|done|done|by case_if; try apply u64_range]| |done].
  intros v Hv. apply wp_bind. eapply wp_mono; [by apply canonicalizeRound_ok| |done].
  intros [am off] Ham. by apply of_issue_nonneg.
Qed.

Lemma mulRound_ok v1 v2 i up : wf v1 -> wf v2 -> mIsNegative v1 = mIsNegative v2 ->
  mIsNative v2 = false ->
  wp (mulRound v1 v2 i up) (fun r => wf r /\ mIssue r = i /\ mIsNegative r = false) not_assertion.
Proof.
  intros H1 H2 Hs Hnat. unfold mulRound. rewrite Hnat, andb_false_r. simpl andb.
  destruct (is_zero v1) eqn:Hz1; [by apply of_issue_nonneg|].
  destruct (is_zero v2) eqn:Hz2; [by apply of_issue_nonneg|]. simpl orb. cbv iota.
  apply wp_bind. eapply wp_mono; [apply bring_into_range_ok; by apply wf_word| |done].
  intros [nv no] Hnv. apply wp_bind.
  eapply wp_mono; [apply bring_into_range_ok; by apply wf_word| |done].
  intros [dv do'] Hdv. rewrite Hs, Bool.eqb_reflx. apply wp_bind.
  eapply wp_mono; [apply bn_muldiv_ok; [done|done|done|by case_if]| |done].
  intros v Hv. apply wp_bind. eapply wp_mono; [by apply canonicalizeRound_ok| |done].
  intros [am off] Ham. by apply of_issue_nonneg.
Qed.

(** The rate of any 64-bit quality is canonical and not negative. *)
Lemma rate_ok q : 0 <= q < 2 ^ 64 ->
  wp (rate q) (fun r => wf r /\ mIssue r = noIssue /\ mIsNegative r = false) not_assertion.
Proof.
  intros Hq. unfold rate, amountFromQuality. case_if; [by apply of_issue_nonneg|].
  apply of_issue_nonneg. change 255 with (Z.ones 8). rewrite ldiff_top by lia.
  pose proof (Z.mod_pos_bound q (2 ^ 56)). lia.
Qed.

(** ** The clamped scaling of offers *)

(** Comparing canonical amounts of one currency. *)
Lemma gtb_units a b : wf a -> wf b -> areComparable a b = true ->
  gtb a b = Ok (units b <? units a).
Proof.
  intros Ha Hb Hc. assert (areComparable b a = true) as Hc'.
  { unfold areComparable in *. reflect_bools. apply andb_true_iff. split; [|by apply Z.eqb_eq].
    apply Bool.eqb_true_iff. symmetry. by apply Bool.eqb_prop. }
  pose proof (ltb_value_spec b a Hb Ha) as H. rewrite Hc' in H. destruct H as (x & Hx & Hlt & _).
  unfold gtb. rewrite Hx. f_equal. destruct x, (Z.ltb_spec (units b) (units a)); try done.
  - pose proof (proj1 Hlt eq_refl). lia.
  - by apply Hlt.
Qed.

Lemma eqb_refl a : STAmount.eqb a a = true.
Proof.
  unfold STAmount.eqb, areComparable. by rewrite !Bool.eqb_reflx, !Z.eqb_refl.
Qed.

Lemma same_issue_comparable a b : wf a -> wf b -> mIssue a = mIssue b -> areComparable a b = true.
Proof.
  intros (Ha & _) (Hb & _) Hi. unfold areComparable, isXRP in *. rewrite Ha, Hb, Hi.
  by rewrite Bool.eqb_reflx, Z.eqb_refl.
Qed.

(** The common part of [ceil_in] and [ceil_out]: the smaller of the computed
    amount and the offered one. *)
Lemma clamp_ok o a (k : bool -> result Amounts) (Q : Amounts -> Prop) : wf o -> wf a ->
  mIssue o = mIssue a ->
  wp (k (units a <? units o)) Q not_assertion ->
  wp (c ← gtb o a; k c) Q not_assertion.
Proof. intros. rewrite gtb_units by (done || by apply same_issue_comparable). done. Qed.

(** [ceil_in] ends without a failed assertion.  An offer whose input is
    within the limit is returned as it is; otherwise the input is the limit and
    the output is the smaller of the offered output and the limit divided by
    the rate, rounded up: the output is never more than was offered. *)
Theorem ceil_in_clamps q amount limit : 0 <= q < 2 ^ 64 ->
  wf (in_ amount) -> wf (out amount) -> wf limit -> mIsNegative limit = false ->
  areComparable (in_ amount) limit = true ->
  wp (ceil_in q amount limit)
    (fun r => if units limit <? units (in_ amount)
       then in_ r = limit /\ wf (out r) /\ units (out r) <= units (out amount) /\
         exists rt o, rate q = Ok rt /\ divRound limit rt (mIssue (out amount)) true = Ok o /\
           units (out r) = Z.min (units o) (units (out amount))
       else r = amount)
    not_assertion.
Proof.
  intros Hq Hi Ho Hl Hn Hc. unfold ceil_in. rewrite gtb_units by done.
  simpl. destruct (units limit <? units (in_ amount)) eqn:Hlt.
  - pose proof (rate_ok q Hq) as Hr. destruct (rate q) as [rt| |]; try done.
    destruct Hr as (Hwr & _ & Hnr). simpl.
    pose proof (divRound_ok limit rt (mIssue (out amount)) true Hl Hwr ltac:(congruence)) as Hd.
    destruct (divRound limit rt _ true) as [o| |] eqn:Hdiv; try done.
    destruct Hd as (Hwo & Hio & _). simpl. apply clamp_ok; [done..|]. rewrite eqb_refl. simpl.
    destruct (units (out amount) <? units o) eqn:Hcl; reflect_bools; split_and!; try done; try lia;
      exists rt, o; split_and!; (done || lia).
  - unfold leb. pose proof (gtb_units (in_ amount) limit Hi Hl Hc) as Hg. unfold gtb in Hg.
    rewrite Hg. simpl. by rewrite Hlt.
Qed.

(** [ceil_out] ends without a failed assertion.  An offer whose output is
    within the limit is returned as it is; otherwise the output is the limit
    and the input is the smaller of the offered input and the limit multiplied
    by the rate, rounded up. *)
Theorem ceil_out_clamps q amount limit : 0 <= q < 2 ^ 64 ->
  wf (in_ amount) -> wf (out amount) -> wf limit -> mIsNegative limit = false ->
  areComparable (out amount) limit = true ->
  wp (ceil_out q amount limit)
    (fun r => if units limit <? units (out amount)
       then out r = limit /\ wf (in_ r) /\ units (in_ r) <= units (in_ amount) /\
         exists rt i, rate q = Ok rt /\ mulRound limit rt (mIssue (in_ amount)) true = Ok i /\
           units (in_ r) = Z.min (units i) (units (in_ amount))
       else r = amount)
    not_assertion.
Proof.
  intros Hq Hi Ho Hl Hn Hc. unfold ceil_out. rewrite gtb_units by done.
  simpl. destruct (units limit <? units (out amount)) eqn:Hlt.
  - pose proof (rate_ok q Hq) as Hr. destruct (rate q) as [rt| |]; try done.
    destruct Hr as (Hwr & Hir & Hnr). simpl.
    assert (mIsNative rt = false) as Hnat.
    { destruct Hwr as [-> _]. unfold isXRP. by rewrite Hir. }
    pose proof (mulRound_ok limit rt (mIssue (in_ amount)) true Hl Hwr ltac:(congruence) Hnat) as Hd.
    destruct (mulRound limit rt _ true) as [o| |] eqn:Hmul; try done.
    destruct Hd as (Hwo & Hio & _). simpl. apply clamp_ok; [done..|]. rewrite eqb_refl. simpl.
    destruct (units (in_ amount) <? units o) eqn:Hcl; reflect_bools; split_and!; try done; try lia;
      exists rt, o; split_and!; (done || lia).
  - unfold leb. pose proof (gtb_units (out amount) limit Ho Hl Hc) as Hg. unfold gtb in Hg.
    rewrite Hg. simpl. by rewrite Hlt.
Qed.

(** ** Composition *)

(** Composing two non-zero qualities multiplies their rates, rounding up:
    the result reads back as a rate less than one unit in the last place above
    the exact product and less than a tenth of a unit below it.  The only
    failures are the overflow of the product and, for a product below the
    smallest amount, the assertion on the exponent. *)
Theorem composed_quality_correct lhs rhs l r :
  rate lhs = Ok l -> rate rhs = Ok r -> operand l -> operand r ->
  mIssue l = noIssue -> mIsNegative l = false -> mIsNegative r = false ->
  wp (composed_quality lhs rhs)
    (fun q => exists p, rate q = Ok p /\
       raised 1 (mValue l * mValue r) (mOffset l + mOffset r) p)
    (fun e => (e = "value overflow"%string /\
         dec_lt ((cMaxValue - 9) * 1) cMaxOffset (mValue l * mValue r) (mOffset l + mOffset r)) \/
       (e = "assertion"%string /\
         dec_lt (mValue l * mValue r) (mOffset l + mOffset r) (cMinValue * 1) cMinOffset)).
Proof.
  intros Hl Hr Hol Hor Hi Hnl Hnr. unfold composed_quality. rewrite Hl, Hr. simpl.
  rewrite !operand_nonzero by done. simpl. apply wp_bind.
  pose proof (mulRound_spec l r (mIssue l) true Hol Hor ltac:(by rewrite Hi)) as Hm.
  cbv zeta in Hm. rewrite Hnl, Hnr in Hm. simpl in Hm.
  eapply wp_mono; [exact Hm| |by left]. intros p (Hwf & Hip & Hp).
  assert (isXRP p = false) as Hxp by (unfold isXRP; by rewrite Hip, Hi).
  destruct (mValue p =? 0) eqn:Hz; reflect_bools.
  - pose proof Hwf as (_ & _ & Hc). rewrite Hxp in Hc. unfold cMinValue in Hc.
    assert (mOffset p = -100) as -> by lia. simpl. by right.
  - destruct Hp as [Hn Hb]. destruct (rate_encoding p Hwf Hxp Hz) as (He & Ho & _).
    unfold assert_. rewrite (u64_id (mOffset p + 100)) in * by lia.
    rewrite (proj2 (Z.ltb_lt _ _)), (proj2 (Z.leb_le _ _)) by lia. simpl. rewrite He.
    exists p. split; [|done]. unfold rate. apply amountFromQuality_encoding; try done. congruence.
Qed.

End directed.

(** ** The theorems at concrete offers *)

Definition par : Z := 6125895493223874560.
Definition offer0 : Amounts := mkAmounts usd_c usd_b.

Lemma par_rate : rate par = Ok (mk noIssue 1000000000000000 (-15) false false).
Proof. vm_compute. reflexivity. Qed.

Lemma ceil_in_clamps_witness :
  wp (ceil_in par offer0 usd_b)
    (fun r => if units usd_b <? units (in_ offer0)
       then in_ r = usd_b /\ wf (out r) /\ units (out r) <= units (out offer0) /\
         exists rt o, rate par = Ok rt /\ divRound usd_b rt (mIssue (out offer0)) true = Ok o /\
           units (out r) = Z.min (units o) (units (out offer0))
       else r = offer0)
    not_assertion.
Proof.
  apply (ceil_in_clamps par offer0 usd_b); [unfold par; lia|..|reflexivity|reflexivity];
    by apply (bool_decide_unpack _).
Defined.

Lemma ceil_out_clamps_witness :
  wp (ceil_out par (mkAmounts usd_b usd_c) usd_b)
    (fun r => if units usd_b <? units (out (mkAmounts usd_b usd_c))
       then out r = usd_b /\ wf (in_ r) /\ units (in_ r) <= units (in_ (mkAmounts usd_b usd_c)) /\
         exists rt i, rate par = Ok rt /\
           mulRound usd_b rt (mIssue (in_ (mkAmounts usd_b usd_c))) true = Ok i /\
           units (in_ r) = Z.min (units i) (units (in_ (mkAmounts usd_b usd_c)))
       else r = mkAmounts usd_b usd_c)
    not_assertion.
Proof.
  apply (ceil_out_clamps par (mkAmounts usd_b usd_c) usd_b);
    [unfold par; lia|..|reflexivity|reflexivity]; by apply (bool_decide_unpack _).
Defined.

Lemma composed_quality_correct_witness :
  wp (composed_quality par par)
    (fun q => exists p, rate q = Ok p /\
       raised 1 (1000000000000000 * 1000000000000000) (-15 + -15) p)
    (fun e => (e = "value overflow"%string /\
         dec_lt ((cMaxValue - 9) * 1) cMaxOffset (1000000000000000 * 1000000000000000) (-15 + -15)) \/
       (e = "assertion"%string /\
         dec_lt (1000000000000000 * 1000000000000000) (-15 + -15) (cMinValue * 1) cMinOffset)).
Proof.
  apply (composed_quality_correct par par _ _ par_rate par_rate); try reflexivity;
    (split; [by apply (bool_decide_unpack _)|by vm_compute]).
Defined.

End Quality.
