(* ===== verification/RangeSet.v ===== *)
(** * RangeSet: sparse sets of ledger sequence numbers

    Models [class RangeSet] (src/src/ripple/basics/RangeSet.h and
    impl/RangeSet.cpp), which holds the complete ledgers a server has: a
    [std::map] from the first to the last number of each range, here an
    association list in the order of its keys.  The diagnostics of a debug
    build ([checkInternalConsistency], [bassert]) are kept: a failed one is the
    exception ["assertion"]. *)

From stdpp Require Import base tactics numbers list strings option gmap pretty.
From S2P Require Import Prelude.

Module RangeSet.

(** ** [std::map <std::uint32_t, std::uint32_t>] *)

Abbreviation Map := (list (Z * Z)).

(** [m[k] = v] *)
Fixpoint mset (k v : Z) (m : Map) : Map :=
  match m with
  | [] => [(k, v)]
  | (a, b) :: m' =>
      if k <? a then (k, v) :: m
      else if k =? a then (k, v) :: m'
      else (a, b) :: mset k v m'
  end.

(** [m.erase (it)] for the iterator at key [k] *)
Fixpoint merase (k : Z) (m : Map) : Map :=
  match m with
  | [] => []
  | (a, b) :: m' => if k =? a then m' else (a, b) :: merase k m'
  end.

(** ** The operations *)

Definition absent : Z := 2 ^ 32 - 1.

Definition contains (it : Z * Z) (v : Z) : bool := ((fst it <=? v) && (v <=? snd it))%bool.

Definition hasValue (m : Map) (v : Z) : bool := existsb (fun it => contains it v) m.

Definition getFirst (m : Map) : Z :=
  match m with [] => absent | (a, _) :: _ => a end.

Fixpoint getNext (m : Map) (v : Z) : Z :=
  match m with
  | [] => absent
  | it :: m' =>
      if v <? fst it then fst it
      else if contains it (u32 (v + 1)) then u32 (v + 1)
      else getNext m' v
  end.

Definition getLast (m : Map) : Z :=
  match rev m with [] => absent | (_, b) :: _ => b end.

(** The loop of [getPrev], over the map in reverse. *)
Fixpoint getPrev_loop (rm : Map) (v : Z) : Z :=
  match rm with
  | [] => absent
  | it :: rm' =>
      if snd it <? v then snd it
      else if contains it (u32 (v + 1)) then u32 (v - 1)
      else getPrev_loop rm' v
  end.

Definition getPrev (m : Map) (v : Z) : Z := getPrev_loop (rev m) v.

(** The assertions of [checkInternalConsistency]. *)
Fixpoint adjacent_ok (m : Map) : bool :=
  match m with
  | (a, b) :: (((c, d) :: _) as m') =>
      (a <=? b) && (c <=? d) && (u32 (b + 1) <? c) && adjacent_ok m'
  | _ => true
  end%bool.

Definition checkInternalConsistency (m : Map) : result unit :=
  throw_if (negb (if (1 <? length m)%nat then adjacent_ok m
                  else match m with [(a, b)] => a <=? b | _ => true end)) "assertion".

(** The loop of [prevMissing], over the map in reverse. *)
Fixpoint prevMissing_loop (rm : Map) (result : Z) : Z :=
  match rm with
  | [] => result
  | it :: rm' => if contains it result then u32 (fst it - 1) else prevMissing_loop rm' result
  end.

Definition prevMissing (m : Map) (v : Z) : result Z :=
  r ← (if negb (v =? 0) then
         _ ← checkInternalConsistency m;
         Ok (prevMissing_loop (rev m) (u32 (v - 1)))
       else Ok absent);
  _ ← throw_if (negb ((r =? absent) || negb (hasValue m r))) "assertion";
  Ok r.

(** [simplify] with the iterator at [(a, b)] and the ranges behind it. *)
Fixpoint simplify_from (a b : Z) (m : Map) : Map :=
  match m with
  | [] => [(a, b)]
  | (c, d) :: m' =>
      if u32 (c - 1) <=? b then simplify_from a (Z.max b d) m'
      else (a, b) :: simplify_from c d m'
  end.

Definition simplify (m : Map) : result Map :=
  let m' := match m with [] => [] | (a, b) :: m' => simplify_from a b m' end in
  _ ← checkInternalConsistency m'; Ok m'.

Definition setValue (m : Map) (v : Z) : result Map :=
  if negb (hasValue m v) then simplify (mset v v m) else Ok m.

(** The loop of [setRange]: the first value to add, or [None] where the code
    returns. *)
Fixpoint setRange_loop (fuel : nat) (m : Map) (minV maxV : Z) : result (option Z) :=
  if hasValue m minV then
    match fuel with
    | O => OutOfFuel
    | S fuel' =>
        let minV := u32 (minV + 1) in
        if maxV <=? minV then Ok None else setRange_loop fuel' m minV maxV
    end
  else Ok (Some minV).

Definition setRange (m : Map) (minV maxV : Z) : result Map :=
  r ← setRange_loop (S (Z.to_nat (maxV - minV))) m minV maxV;
  match r with
  | None => Ok m
  | Some minV => simplify (mset minV maxV m)
  end.

(** The map without [v], for the iterator at the range that contains it. *)
Definition clear_at (v first second : Z) (m : Map) : Map :=
  if first =? v then
    if second =? v then merase first m
    else mset (u32 (v + 1)) second (merase first m)
  else if second =? v then mset first (u32 (second - 1)) m
  else mset (u32 (v + 1)) second (mset first (u32 (v - 1)) m).

Definition clearValue (m : Map) (v : Z) : result Map :=
  match list_find (fun it => contains it v = true) m with
  | None => Ok m
  | Some (_, (first, second)) =>
      let m' := clear_at v first second m in
      _ ← checkInternalConsistency m'; Ok m'
  end.

Definition lebesgue_sum (m : Map) : Z :=
  fold_left (fun sum e => u64 (sum + u32 (snd e - fst e))) m (Z.of_nat (length m)).

Definition toString (m : Map) : string :=
  let ret := fold_left (fun ret it =>
    let ret := if bool_decide (ret = "") then ret else String.append ret "," in
    if fst it =? snd it then String.append ret (pretty (fst it))
    else String.append ret (String.append (pretty (fst it)) (String.append "-" (pretty (snd it)))))
    m "" in
  if bool_decide (ret = "") then "empty" else ret.

(** ** Well-formed maps *)

(** Ranges in order with a gap between any two of them. *)
Fixpoint ok_from (lo : Z) (m : Map) : Prop :=
  match m with
  | [] => True
  | (a, b) :: m' => lo < a /\ a <= b < 2 ^ 32 /\ ok_from (b + 1) m'
  end.

Definition ok (m : Map) : Prop := ok_from (-1) m.

(** Ranges in the order of their first value only, as [simplify] finds them. *)
Fixpoint sorted_from (lo : Z) (m : Map) : Prop :=
  match m with
  | [] => True
  | (a, b) :: m' => lo < a /\ a <= b < 2 ^ 32 /\ sorted_from a m'
  end.

Lemma hasValue_cons a b m v : hasValue ((a, b) :: m) v = true <-> a <= v <= b \/ hasValue m v = true.
Proof.
  unfold hasValue, contains. simpl. rewrite orb_true_iff, andb_true_iff, !Z.leb_le. done.
Qed.

Arguments hasValue : simpl never.

Lemma sorted_weaken lo lo' m : lo' <= lo -> sorted_from lo m -> sorted_from lo' m.
Proof. destruct m as [|[a b] m]; simpl; [done|]. intros ? (? & ? & ?). split_and!; (done || lia). Qed.

Lemma ok_sorted lo m : ok_from lo m -> sorted_from lo m.
Proof.
  revert lo. induction m as [|[a b] m IH]; simpl; [done|]. intros lo (? & ? & Hok).
  split; [lia|split; [lia|]]. apply (sorted_weaken (b + 1)); [lia|auto].
Qed.

(** Every value of the set is above the bound. *)
Lemma sorted_above lo m v : sorted_from lo m -> hasValue m v = true -> lo < v < 2 ^ 32.
Proof.
  revert lo. induction m as [|[a b] m IH]; intros lo; [done|].
  intros (? & ? & Hs) [?|Hm]%hasValue_cons; [lia|]. pose proof (IH a Hs Hm). lia.
Qed.

Lemma ok_above lo m v : ok_from lo m -> hasValue m v = true -> lo < v < 2 ^ 32.
Proof. intros ?%ok_sorted. by apply sorted_above. Qed.

Lemma not_in_tail lo m v : ok_from lo m -> v <= lo -> hasValue m v = false.
Proof.
  intros Hok Hv. apply not_true_iff_false. intros Hm. pose proof (ok_above lo m v Hok Hm). lia.
Qed.

Lemma ok_consistent m : ok m -> checkInternalConsistency m = Ok tt.
Proof.
  intros Hok. unfold checkInternalConsistency. 
  assert (forall lo, -1 <= lo -> ok_from lo m -> adjacent_ok m = true) as Ha.
  { clear Hok. induction m as [|[a b] [|[c d] m] IH]; [done..|]. intros lo Hlo (? & ? & Hc).
    pose proof (IH (b + 1) ltac:(lia) Hc) as Hm. destruct Hc as (? & ? & _).
    change (adjacent_ok ((a, b) :: (c, d) :: m)) with
      ((a <=? b) && (c <=? d) && (u32 (b + 1) <? c) && adjacent_ok ((c, d) :: m))%bool.
    rewrite Hm, u32_id by lia. rewrite (proj2 (Z.leb_le a b)), (proj2 (Z.leb_le c d)) by lia.
    by rewrite (proj2 (Z.ltb_lt (b + 1) c)) by lia. }
  case_if; [by rewrite (Ha (-1))|]. destruct m as [|[a b] [|? ?]]; [done| |done].
  destruct Hok as (_ & ? & _). by rewrite (proj2 (Z.leb_le a b)) by lia.
Qed.

(** ** [simplify] *)

Lemma simplify_from_ok lo a b m : lo < a -> a <= b < 2 ^ 32 -> -1 <= lo -> sorted_from a m ->
  ok_from lo (simplify_from a b m) /\
  forall v, hasValue (simplify_from a b m) v = true <-> a <= v <= b \/ hasValue m v = true.
Proof.
  revert lo a b. induction m as [|[c d] m IH]; intros lo a b Hlo Hab H0 Hs; simpl.
  - split; [lia|]. intros v. by rewrite hasValue_cons.
  - destruct Hs as (Hac & Hcd & Hs). rewrite u32_id by lia.
    destruct (c - 1 <=? b) eqn:Hc; reflect_bools.
    + destruct (IH lo a (Z.max b d)) as [Hok Hv]; [lia..|by apply (sorted_weaken c); [lia|]|].
      split; [done|]. intros v. rewrite Hv, hasValue_cons. 
      assert (a <= v <= Z.max b d <-> a <= v <= b \/ c <= v <= d) by lia. tauto.
    + destruct (IH (b + 1) c d) as [Hok Hv]; [lia..|done|]. split; [done|].
      intros v. by rewrite !hasValue_cons, Hv.
Qed.

Lemma simplify_ok m : sorted_from (-1) m -> exists m', simplify m = Ok m' /\ ok m' /\
  forall v, hasValue m' v = hasValue m v.
Proof.
  intros Hs. unfold simplify. destruct m as [|[a b] m]; [by exists []|].
  destruct Hs as (? & ? & Hs). destruct (simplify_from_ok (-1) a b m) as [Hok Hv]; [lia..|done|].
  rewrite ok_consistent by done. eexists. split_and!; [done..|].
  intros v. apply Bool.eq_true_iff_eq. by rewrite hasValue_cons, Hv.
Qed.

(** Adding a range that starts outside the set. *)
Lemma mset_sorted lo k x m : sorted_from lo m -> lo < k -> k <= x < 2 ^ 32 ->
  hasValue m k = false ->
  sorted_from lo (mset k x m) /\
  forall v, hasValue (mset k x m) v = true <-> k <= v <= x \/ hasValue m v = true.
Proof.
  revert lo. induction m as [|[a b] m IH]; intros lo Hs Hlo Hk Hn; simpl.
  - split; [lia|]. intros v. by rewrite hasValue_cons.
  - destruct Hs as (? & ? & Hs).
    assert (~ (a <= k <= b) /\ hasValue m k = false) as [Hout Hn'].
    { split; [|apply not_true_iff_false]; intros ?; rewrite <- not_true_iff_false, hasValue_cons in Hn;
        tauto. }
    destruct (k <? a) eqn:Hka; reflect_bools.
    { split; [simpl; split_and!; (done || lia)|]. intros v. by rewrite hasValue_cons. }
    rewrite (proj2 (Z.eqb_neq k a)) by lia. destruct (IH a) as [Hs' Hv]; [done|lia..|done|].
    split; [simpl; split_and!; (done || lia)|]. intros v. rewrite !hasValue_cons, Hv. tauto.
Qed.

Lemma insert_ok m k x : ok m -> 0 <= k -> k <= x < 2 ^ 32 -> hasValue m k = false ->
  exists m', simplify (mset k x m) = Ok m' /\ ok m' /\
    forall v, hasValue m' v = true <-> k <= v <= x \/ hasValue m v = true.
Proof.
  intros Hok Hk Hx Hn. destruct (mset_sorted (-1) k x m) as [Hs Hv];
    [by apply ok_sorted|lia..|done|].
  destruct (simplify_ok _ Hs) as (m' & Hm & Hok' & Hv'). exists m'. split_and!; [done..|].
  intros v. by rewrite Hv', Hv.
Qed.

(** [setValue] adds the value and nothing else, keeps the representation
    well formed and trips no assertion. *)
Theorem setValue_correct m v : ok m -> 0 <= v < 2 ^ 32 ->
  exists m', setValue m v = Ok m' /\ ok m' /\
    forall x, hasValue m' x = true <-> x = v \/ hasValue m x = true.
Proof.
  intros Hok Hv. unfold setValue. destruct (hasValue m v) eqn:Hh; simpl.
  - exists m. split_and!; [done..|]. intros x. split; [by right|by intros [->|]].
  - destruct (insert_ok m v v) as (m' & Hm & Hok' & Hx); [done|lia..|done|].
    exists m'. split_and!; [done..|]. intros x. rewrite Hx. by assert (v <= x <= v <-> x = v) as -> by lia.
Qed.

Lemma setValue_correct_witness :
  exists m', setValue [(1, 4); (6, 9)] 5 = Ok m' /\ ok m' /\
    forall x, hasValue m' x = true <-> x = 5 \/ hasValue [(1, 4); (6, 9)] x = true.
Proof. apply (setValue_correct [(1, 4); (6, 9)] 5); [vm_compute; intuition congruence|lia]. Defined.

(** ** [setRange] *)

(** The loop stops at the first missing value, or after the last but one. *)
Lemma setRange_loop_ok m minV maxV fuel : 0 <= minV <= maxV -> maxV < 2 ^ 32 - 1 ->
  maxV - minV < Z.of_nat fuel ->
  exists r, setRange_loop fuel m minV maxV = Ok r /\
    match r with
    | Some k => minV <= k <= maxV /\ hasValue m k = false /\
        forall x, minV <= x < k -> hasValue m x = true
    | None => hasValue m minV = true /\ forall x, minV <= x < maxV -> hasValue m x = true
    end.
Proof.
  revert minV. induction fuel as [|fuel IH]; intros minV Hmin Hmax Hf; [lia|]. simpl.
  destruct (hasValue m minV) eqn:Hh.
  - rewrite u32_id by lia. destruct (maxV <=? minV + 1) eqn:Hc; reflect_bools.
    + exists None. split_and!; [done..|]. intros x Hx. by assert (x = minV) as -> by lia.
    + destruct (IH (minV + 1)) as (r & -> & Hr); [lia..|]. exists r. split; [done|].
      destruct r as [k|].
      * destruct Hr as (? & ? & Hall). split_and!; [lia|lia|done|]. intros x Hx.
        destruct (decide (x = minV)) as [->|]; [done|apply Hall; lia].
      * destruct Hr as (? & Hall). split; [done|]. intros x Hx.
        destruct (decide (x = minV)) as [->|]; [done|apply Hall; lia].
  - exists (Some minV). split_and!; [done|lia|lia|done|lia].
Qed.

(** [setRange] on an interval within the 32-bit numbers ends, keeps the
    representation well formed and trips no assertion.  It adds exactly the
    values of the closed interval, except that when everything below the upper
    end is present already (and the interval has more than one value), nothing
    is added: the upper end can be left out. *)
Theorem setRange_correct m minV maxV : ok m -> 0 <= minV <= maxV -> maxV < 2 ^ 32 - 1 ->
  exists m', setRange m minV maxV = Ok m' /\ ok m' /\
    ((forall x, hasValue m' x = true <-> minV <= x <= maxV \/ hasValue m x = true) \/
     (m' = m /\ minV < maxV /\ forall x, minV <= x < maxV -> hasValue m x = true)).
Proof.
  intros Hok Hmin Hmax. unfold setRange.
  destruct (setRange_loop_ok m minV maxV (S (Z.to_nat (maxV - minV)))) as (r & -> & Hr); [lia..|].
  simpl. destruct r as [k|].
  - destruct Hr as (Hk & Hn & Hall). destruct (insert_ok m k maxV) as (m' & Hm & Hok' & Hv);
      [done|lia..|done|].
    exists m'. split_and!; [done..|]. left. intros x. rewrite Hv. split; [intros [?|?]; [left; lia|auto]|].
    intros [?|?]; [|auto]. destruct (decide (x < k)); [right; apply Hall; lia|left; lia].
  - destruct Hr as [Hh Hall]. exists m. split_and!; [done..|].
    destruct (decide (minV = maxV)) as [<-|]; [left|right; split_and!; (done || lia)].
    intros x. split; [auto|]. intros [?|?]; [|done]. by assert (x = minV) as -> by lia.
Qed.

Lemma setRange_correct_witness :
  exists m', setRange [(1, 4); (8, 9)] 3 8 = Ok m' /\ ok m' /\
    ((forall x, hasValue m' x = true <-> 3 <= x <= 8 \/ hasValue [(1, 4); (8, 9)] x = true) \/
     (m' = [(1, 4); (8, 9)] /\ 3 < 8 /\ forall x, 3 <= x < 8 -> hasValue [(1, 4); (8, 9)] x = true)).
Proof.
  apply (setRange_correct [(1, 4); (8, 9)] 3 8); [vm_compute; intuition congruence|lia|lia].
Defined.

(** Adding the interval from 5 to 6 to the set of 5 leaves 6 out. *)
Theorem setRange_drops_upper_end :
  setRange [(5, 5)] 5 6 = Ok [(5, 5)] /\ hasValue [(5, 5)] 6 = false.
Proof. split; vm_compute; reflexivity. Qed.

(** ** [clearValue] *)

Lemma mset_front k x lo m : ok_from lo m -> k <= lo -> mset k x m = (k, x) :: m.
Proof.
  destruct m as [|[a b] m]; simpl; [done|]. intros (? & _) ?.
  by rewrite (proj2 (Z.ltb_lt k a)) by lia.
Qed.

Lemma mset_skip k x a b m : a < k -> mset k x ((a, b) :: m) = (a, b) :: mset k x m.
Proof.
  intros. simpl. rewrite (proj2 (Z.ltb_ge k a)) by lia. by rewrite (proj2 (Z.eqb_neq k a)) by lia.
Qed.

Lemma merase_skip k a b m : a <> k -> merase k ((a, b) :: m) = (a, b) :: merase k m.
Proof. intros. simpl. by rewrite (proj2 (Z.eqb_neq k a)) by lia. Qed.

Lemma mset_head a b x m : mset a x ((a, b) :: m) = (a, x) :: m.
Proof. simpl. by rewrite Z.ltb_irrefl, Z.eqb_refl. Qed.

(** A range that does not contain the value is passed over. *)
Lemma clear_at_skip v a b c d m : a < c -> c <= v <= d -> 0 <= c -> d < 2 ^ 32 ->
  clear_at v c d ((a, b) :: m) = (a, b) :: clear_at v c d m.
Proof.
  intros. unfold clear_at. destruct (c =? v) eqn:Hc; [|destruct (d =? v) eqn:Hd]; reflect_bools.
  - rewrite merase_skip by lia. case_if; [done|]. by rewrite u32_id, mset_skip by lia.
  - by rewrite mset_skip by lia.
  - rewrite u32_id, mset_skip by lia. by rewrite mset_skip by lia.
Qed.

Lemma clear_at_head v a b lo m : ok_from lo ((a, b) :: m) -> -1 <= lo -> a <= v <= b ->
  ok_from lo (clear_at v a b ((a, b) :: m)) /\
  forall x, hasValue (clear_at v a b ((a, b) :: m)) x = true <->
    (a <= x <= b /\ x <> v) \/ hasValue m x = true.
Proof.
  intros (? & ? & Hm) Hlo Hv. unfold clear_at. rewrite !mset_head.
  assert (merase a ((a, b) :: m) = m) as -> by (simpl; by rewrite Z.eqb_refl).
  destruct (a =? v) eqn:Ha; [|]; destruct (b =? v) eqn:Hb; reflect_bools.
  - split; [destruct m as [|[c d] m]; simpl in *; [done|]; destruct Hm as (? & ? & ?);
      split_and!; (done || lia)|].
    intros x. assert (~ (a <= x <= b /\ x <> v)) by lia. tauto.
  - rewrite u32_id by lia. rewrite (mset_front _ _ (b + 1)) by (done || lia).
    split; [simpl; split_and!; (done || lia)|]. intros x. rewrite hasValue_cons.
    assert (a <= x <= b /\ x <> v <-> v + 1 <= x <= b) by lia. tauto.
  - rewrite u32_id by lia. split.
    + simpl. split_and!; try lia. destruct m as [|[c d] m]; simpl in *; [done|].
      destruct Hm as (? & ? & ?). split_and!; (done || lia).
    + intros x. rewrite hasValue_cons. assert (a <= x <= b /\ x <> v <-> a <= x <= b - 1) by lia. tauto.
  - rewrite !u32_id by lia. rewrite mset_skip, (mset_front _ _ (b + 1)) by (done || lia).
    split; [simpl; split_and!; (done || lia)|]. intros x. rewrite !hasValue_cons.
    assert (a <= x <= b /\ x <> v <-> a <= x <= v - 1 \/ v + 1 <= x <= b) by lia. tauto.
Qed.

Lemma clear_at_ok v m lo i a b : ok_from lo m -> -1 <= lo ->
  list_find (fun it => contains it v = true) m = Some (i, (a, b)) ->
  ok_from lo (clear_at v a b m) /\
  forall x, hasValue (clear_at v a b m) x = true <-> hasValue m x = true /\ x <> v.
Proof.
  revert lo i. induction m as [|[c d] m IH]; intros lo i Hok Hlo; [done|]. simpl list_find.
  assert (contains (c, d) v = true <-> c <= v <= d) as Hcon.
  { unfold contains. simpl. rewrite andb_true_iff, !Z.leb_le. done. }
  case_decide as Hc; rewrite Hcon in Hc.
  - intros [= _ <- <-]. destruct (clear_at_head v c d lo m Hok Hlo Hc) as [? Hx].
    split; [done|]. intros x. rewrite Hx, hasValue_cons. destruct Hok as (? & ? & Hm).
    assert (hasValue m x = true -> x <> v) by (intros Hmx; pose proof (ok_above _ _ _ Hm Hmx); lia).
    tauto.
  - destruct (list_find _ m) as [[j [a' b']]|] eqn:Hf; [|done]. simpl. intros [= _ -> ->].
    destruct Hok as (? & ? & Hm). destruct (IH (d + 1) j) as [Hok' Hx]; [done|lia|done|].
    apply list_find_Some in Hf as (Hj & Hab & _).
    assert (a <= v <= b) as Hv by (unfold contains in Hab; simpl in Hab; reflect_bools; lia).
    assert (d + 1 < a /\ b < 2 ^ 32) as [? ?].
    { assert (hasValue m a = true /\ hasValue m b = true) as [Ha Hb].
      { unfold hasValue. split; apply existsb_exists; exists (a, b);
          (split; [by apply list_elem_of_In, (list_elem_of_lookup_2 _ j)|]);
          unfold contains; simpl; apply andb_true_iff; rewrite !Z.leb_le; lia. }
      pose proof (ok_above _ _ _ Hm Ha). pose proof (ok_above _ _ _ Hm Hb). lia. }
    rewrite clear_at_skip by lia. split; [simpl; split_and!; (done || lia)|].
    intros x. rewrite !hasValue_cons, Hx. assert (c <= x <= d -> x <> v) by lia. tauto.
Qed.

(** [clearValue] removes the value and nothing else, keeps the
    representation well formed and trips no assertion. *)
Theorem clearValue_correct m v : ok m -> 0 <= v < 2 ^ 32 ->
  exists m', clearValue m v = Ok m' /\ ok m' /\
    forall x, hasValue m' x = true <-> hasValue m x = true /\ x <> v.
Proof.
  intros Hok Hv. unfold clearValue. destruct (list_find _ m) as [[i [a b]]|] eqn:Hf.
  - destruct (clear_at_ok v m (-1) i a b Hok ltac:(lia) Hf) as [Hok' Hx].
    rewrite ok_consistent by done. eexists. by split_and!.
  - exists m. split_and!; [done..|]. intros x. split; [|by intros [? _]]. intros Hx. split; [done|].
    intros ->. unfold hasValue in Hx. apply existsb_exists in Hx as (it & Hin & Hc).
    apply list_find_None in Hf. rewrite Forall_forall in Hf. apply (Hf it); [|done].
    by apply list_elem_of_In.
Qed.

Lemma clearValue_correct_witness :
  exists m', clearValue [(1, 4); (6, 9)] 7 = Ok m' /\ ok m' /\
    forall x, hasValue m' x = true <-> hasValue [(1, 4); (6, 9)] x = true /\ x <> 7.
Proof. apply (clearValue_correct [(1, 4); (6, 9)] 7); [vm_compute; intuition congruence|lia]. Defined.

(** ** Queries *)

Lemma getNext_ok m v lo : ok_from lo m -> 0 <= v < 2 ^ 32 - 1 ->
  (getNext m v = absent /\ forall x, hasValue m x = true -> x <= v) \/
  (hasValue m (getNext m v) = true /\ v < getNext m v /\
   forall x, hasValue m x = true -> v < x -> getNext m v <= x).
Proof.
  revert lo. induction m as [|[a b] m IH]; intros lo Hok Hv; [by left|].
  destruct Hok as (? & ? & Hm).
  pose proof (fun x => ok_above (b + 1) m x Hm) as Habove.
  simpl. rewrite u32_id by lia. unfold contains. simpl.
  destruct (v <? a) eqn:Ha; reflect_bools.
  { right. rewrite hasValue_cons. split_and!; [lia|done|].
    intros x [?|Hx]%hasValue_cons _; [lia|]. pose proof (Habove x Hx). lia. }
  rewrite (proj2 (Z.leb_le a (v + 1))) by lia. simpl.
  destruct (v + 1 <=? b) eqn:Hb; reflect_bools.
  - right. rewrite hasValue_cons. split_and!; [lia..|]. intros; lia.
  - destruct (IH (b + 1) Hm Hv) as [[-> Hx]|(Hh & Hlt & Hmin)].
    + left. split; [done|]. intros x [?|?]%hasValue_cons; [lia|auto].
    + right. rewrite hasValue_cons. split_and!; [by right|done|].
      intros x [?|?]%hasValue_cons ?; [lia|auto].
Qed.

(** [getNext] returns the least member above the given number, or [absent]
    when there is none. *)
Theorem getNext_correct m v : ok m -> 0 <= v < 2 ^ 32 - 1 ->
  (getNext m v = absent /\ forall x, hasValue m x = true -> x <= v) \/
  (hasValue m (getNext m v) = true /\ v < getNext m v /\
   forall x, hasValue m x = true -> v < x -> getNext m v <= x).
Proof. apply getNext_ok. Qed.

Lemma getNext_correct_witness :
  (getNext [(1, 4); (6, 9)] 4 = absent /\ forall x, hasValue [(1, 4); (6, 9)] x = true -> x <= 4) \/
  (hasValue [(1, 4); (6, 9)] (getNext [(1, 4); (6, 9)] 4) = true /\ 4 < getNext [(1, 4); (6, 9)] 4 /\
   forall x, hasValue [(1, 4); (6, 9)] x = true -> 4 < x -> getNext [(1, 4); (6, 9)] 4 <= x).
Proof. apply (getNext_correct [(1, 4); (6, 9)] 4); [vm_compute; intuition congruence|lia]. Defined.

(** [getPrev] tests the wrong neighbour: the predecessor of 10 in the set of
    1 to 10 is 9, but the code finds none. *)
Theorem getPrev_misses_predecessor :
  getPrev [(1, 10)] 10 = absent /\ hasValue [(1, 10)] 9 = true.
Proof. split; vm_compute; reflexivity. Qed.

Lemma hasValue_In m v : hasValue m v = true <-> exists a b, In (a, b) m /\ a <= v <= b.
Proof.
  unfold hasValue. rewrite existsb_exists. unfold contains. split.
  - intros ([a b] & Hin & Hc). simpl in Hc. reflect_bools. exists a, b. by split.
  - intros (a & b & Hin & Hv). exists (a, b). split; [done|]. simpl.
    apply andb_true_iff. by rewrite !Z.leb_le.
Qed.

(** The number before a range is not in the set. *)
Lemma before_range lo m a b : ok_from lo m -> In (a, b) m -> hasValue m (a - 1) = false.
Proof.
  revert lo. induction m as [|[c d] m IH]; intros lo Hok Hin; [done|].
  destruct Hok as (? & ? & Hm). apply not_true_iff_false. rewrite hasValue_cons.
  destruct Hin as [[= -> ->]|Hin].
  - intros [?|Hx]; [lia|]. pose proof (ok_above _ _ _ Hm Hx). lia.
  - assert (a <= b) as Hab.
    { clear -Hm Hin. revert Hm. generalize (d + 1). induction m as [|[e f] m IH]; [done|].
      intros z (? & ? & ?). destruct Hin as [[= -> ->]|?]; [lia|eauto]. }
    assert (hasValue m a = true) as Ha by (apply hasValue_In; exists a, b; split; [done|lia]).
    pose proof (ok_above _ _ _ Hm Ha). rewrite (IH _ Hm Hin). intros [?|?]; [lia|done].
Qed.

Lemma prevMissing_loop_spec rm r :
  (prevMissing_loop rm r = r /\ hasValue rm r = false) \/
  exists a b, In (a, b) rm /\ a <= r <= b /\ prevMissing_loop rm r = u32 (a - 1).
Proof.
  induction rm as [|[a b] rm IH]; [by left|]. simpl. unfold contains. simpl.
  destruct ((a <=? r) && (r <=? b))%bool eqn:Hc.
  - right. reflect_bools. exists a, b. split_and!; auto.
  - destruct IH as [[-> Hh]|(c & d & ? & ? & ->)].
    + left. split; [done|]. unfold hasValue in *. simpl. unfold contains at 1. simpl. by rewrite Hc.
    + right. exists c, d. auto.
Qed.

Lemma hasValue_rev m v : hasValue (rev m) v = hasValue m v.
Proof.
  apply Bool.eq_true_iff_eq. rewrite !hasValue_In. by setoid_rewrite <- in_rev.
Qed.

(** [prevMissing] returns the largest number below the given one that is
    not in the set, or [absent] when there is none; its assertions hold. *)
Theorem prevMissing_correct m v : ok m -> 0 <= v < 2 ^ 32 ->
  exists r, prevMissing m v = Ok r /\
    ((r = absent /\ forall x, 0 <= x < v -> hasValue m x = true) \/
     (0 <= r < v /\ hasValue m r = false /\ forall x, r < x < v -> hasValue m x = true)).
Proof.
  intros Hok Hv. unfold prevMissing. destruct (v =? 0) eqn:Hz; reflect_bools; simpl.
  { exists absent. split; [done|]. left. split; [done|lia]. }
  rewrite ok_consistent, u32_id by (done || lia). simpl.
  destruct (prevMissing_loop_spec (rev m) (v - 1)) as [[-> Hh]|(a & b & Hin & Hab & ->)].
  - rewrite hasValue_rev in Hh. rewrite Hh, orb_true_r. exists (v - 1). split; [done|].
    right. split_and!; [lia|lia|done|lia].
  - rewrite <- in_rev in Hin. pose proof (before_range _ _ _ _ Hok Hin) as Hbefore.
    assert (forall x, a <= x < v -> hasValue m x = true) as Hall.
    { intros x Hx. apply hasValue_In. exists a, b. split; [done|lia]. }
    assert (0 <= a).
    { assert (hasValue m a = true) as Ha by (apply Hall; lia).
      pose proof (ok_above _ _ _ Hok Ha). lia. }
    destruct (decide (a = 0)) as [->|].
    + exists absent. split; [done|]. left. by split.
    + rewrite u32_id, Hbefore, orb_true_r by lia. exists (a - 1). split; [done|]. right.
      split_and!; [lia|lia|done|]. intros x Hx. apply Hall. lia.
Qed.

Lemma prevMissing_correct_witness :
  exists r, prevMissing [(1, 4); (6, 9)] 9 = Ok r /\
    ((r = absent /\ forall x, 0 <= x < 9 -> hasValue [(1, 4); (6, 9)] x = true) \/
     (0 <= r < 9 /\ hasValue [(1, 4); (6, 9)] r = false /\
      forall x, r < x < 9 -> hasValue [(1, 4); (6, 9)] x = true)).
Proof. apply (prevMissing_correct [(1, 4); (6, 9)] 9); [vm_compute; intuition congruence|lia]. Defined.

(** ** [lebesgue_sum] *)

Definition elements (m : Map) : list Z := flat_map (fun '(a, b) => seqZ a (b - a + 1)) m.

Lemma elements_hasValue m x : x ∈ elements m <-> hasValue m x = true.
Proof.
  rewrite hasValue_In. unfold elements. rewrite list_elem_of_In, in_flat_map. split.
  - intros ([a b] & Hin & Hx). apply list_elem_of_In, elem_of_seqZ in Hx. exists a, b. split; [done|lia].
  - intros (a & b & Hin & Hx). exists (a, b). split; [done|].
    apply list_elem_of_In, elem_of_seqZ. lia.
Qed.

Lemma elements_NoDup lo m : ok_from lo m -> NoDup (elements m).
Proof.
  revert lo. induction m as [|[a b] m IH]; intros lo Hok; simpl; [constructor|].
  destruct Hok as (? & ? & Hm). apply NoDup_app. split_and!; [apply NoDup_seqZ| |by eapply IH].
  intros x Hx%elem_of_seqZ Hin%elements_hasValue. pose proof (ok_above _ _ _ Hm Hin). lia.
Qed.

Lemma lebesgue_fold lo m s : ok_from lo m -> -1 <= lo -> 0 <= s -> s + 2 ^ 32 < 2 ^ 64 + lo ->
  fold_left (fun sum e => u64 (sum + u32 (snd e - fst e))) m s + Z.of_nat (length m) =
    s + Z.of_nat (length (elements m)).
Proof.
  revert lo s. induction m as [|[a b] m IH]; intros lo s Hok Hlo Hs Hb; [done|].
  destruct Hok as (? & ? & Hm).
  change (fold_left ?f ((a, b) :: m) s) with (fold_left f m (u64 (s + u32 (b - a)))).
  rewrite u32_id, u64_id by lia. specialize (IH (b + 1) (s + (b - a)) Hm).
  unfold elements in *. simpl. rewrite length_app, length_seqZ. lia.
Qed.

(** There are fewer ranges than numbers. *)
Lemma ok_length lo m : ok_from lo m -> -1 <= lo ->
  Z.of_nat (length m) <= Z.max 0 (2 ^ 32 - 1 - lo).
Proof.
  revert lo. induction m as [|[a b] m IH]; intros lo Hok Hlo; simpl; [lia|].
  destruct Hok as (? & ? & Hm). pose proof (IH (b + 1) Hm). lia.
Qed.

(** [lebesgue_sum] is the number of members. *)
Theorem lebesgue_sum_correct m : ok m -> lebesgue_sum m = Z.of_nat (length (elements m)) /\
  NoDup (elements m) /\ forall x, x ∈ elements m <-> hasValue m x = true.
Proof.
  intros Hok. split_and!; [|by apply (elements_NoDup (-1))|apply elements_hasValue].
  pose proof (ok_length (-1) m Hok).
  pose proof (lebesgue_fold (-1) m (Z.of_nat (length m)) Hok) as Hf. unfold lebesgue_sum. lia.
Qed.

Lemma lebesgue_sum_correct_witness :
  lebesgue_sum [(1, 4); (6, 9)] = Z.of_nat (length (elements [(1, 4); (6, 9)])) /\
  NoDup (elements [(1, 4); (6, 9)]) /\
  forall x, x ∈ elements [(1, 4); (6, 9)] <-> hasValue [(1, 4); (6, 9)] x = true.
Proof. apply (lebesgue_sum_correct [(1, 4); (6, 9)]). vm_compute. intuition congruence. Defined.

End RangeSet.
