(* ===== verification/Timing.v ===== *)
(** * Timing: the rules that pace and decide a consensus round

    Models src/src/ripple/app/ledger/LedgerTiming.h and impl/LedgerTiming.cpp,
    and the decision functions at the top of impl/LedgerConsensusImp.cpp
    (shouldCloseLedger, checkConsensusReached, checkConsensus,
    participantsNeeded).  [int] values are integers: signed overflow is
    undefined in the source and the values are small counts and times; division
    is C++ division ([Z.quot]).  Failed assertions are ["assertion"]. *)

From stdpp Require Import base tactics numbers list strings option.
From S2P Require Import Prelude.

Module Timing.

(** ** Protocol parameters *)

Definition minimumConsensusPercentage : Z := 80.
Definition ledgerPossibleTimeResolutions : list Z := [10; 20; 30; 60; 90; 120].
Definition increaseLedgerTimeResolutionEvery : Z := 8.
Definition decreaseLedgerTimeResolutionEvery : Z := 1.
Definition LEDGER_IDLE_INTERVAL : Z := 15.
Definition LEDGER_MIN_CONSENSUS : Z := 2000.
Definition LEDGER_MIN_CLOSE : Z := 2000.
Definition PROPOSE_FRESHNESS : Z := 20.
Definition PROPOSE_INTERVAL : Z := 12.
Definition AV_INIT_CONSENSUS_PCT : Z := 50.
Definition AV_MID_CONSENSUS_TIME : Z := 50.
Definition AV_MID_CONSENSUS_PCT : Z := 65.
Definition AV_LATE_CONSENSUS_TIME : Z := 85.
Definition AV_LATE_CONSENSUS_PCT : Z := 70.
Definition AV_STUCK_CONSENSUS_TIME : Z := 200.
Definition AV_STUCK_CONSENSUS_PCT : Z := 95.
Definition AV_CT_CONSENSUS_PCT : Z := 75.

(** ** Close time resolution *)

(** [iter] is the position in the table; [++iter] and [iter--] move it. *)
Definition getNextLedgerTimeResolution (previousResolution : Z) (previousAgree : bool)
    (ledgerSeq : Z) : result Z :=
  _ ← throw_if (ledgerSeq =? 0) "assertion";
  match list_find (eq previousResolution) ledgerPossibleTimeResolutions with
  | None => Throw "assertion"
  | Some (iter, _) =>
      let coarser :=
        if (negb previousAgree && (ledgerSeq mod decreaseLedgerTimeResolutionEvery =? 0))%bool
        then ledgerPossibleTimeResolutions !! S iter else None in
      let finer :=
        if (previousAgree && (ledgerSeq mod increaseLedgerTimeResolutionEvery =? 0))%bool
        then match iter with O => None | S i => ledgerPossibleTimeResolutions !! i end
        else None in
      Ok (match coarser, finer with
          | Some r, _ => r
          | None, Some r => r
          | None, None => previousResolution
          end)
  end.

Definition roundCloseTime (closeTime closeResolution : Z) : Z :=
  if closeTime =? 0 then 0
  else
    let closeTime := u32 (closeTime + closeResolution / 2) in
    u32 (closeTime - closeTime mod closeResolution).

(** ** Decisions *)

Definition shouldCloseLedger (anyTransactions : bool)
    (previousProposers proposersClosed proposersValidated : Z)
    (previousMSeconds currentMSeconds openMSeconds idleInterval : Z) : bool :=
  if ((previousMSeconds <? -1000) || (600000 <? previousMSeconds) ||
      (currentMSeconds <? -1000) || (600000 <? currentMSeconds))%bool then true
  else if negb anyTransactions then
    if Z.quot previousProposers 4 <? proposersClosed then true
    else idleInterval * 1000 <=? currentMSeconds
  else if ((openMSeconds <? LEDGER_MIN_CLOSE) &&
           (proposersClosed + proposersValidated <? Z.quot previousProposers 2))%bool then false
  else if ((currentMSeconds <? previousMSeconds) &&
           (proposersClosed + proposersValidated <? previousProposers))%bool then false
  else true.

Definition checkConsensusReached (agreeing proposing : Z) : bool :=
  let currentPercentage := Z.quot (agreeing * 100) (proposing + 1) in
  minimumConsensusPercentage <? currentPercentage.

Inductive ConsensusState := No | MovedOn | Yes.

Definition checkConsensus (previousProposers currentProposers currentAgree currentFinished
    previousAgreeTime currentAgreeTime : Z) : ConsensusState :=
  if currentAgreeTime <=? LEDGER_MIN_CONSENSUS then No
  else if ((currentProposers <? Z.quot (previousProposers * 3) 4) &&
           (currentAgreeTime <? previousAgreeTime + LEDGER_MIN_CONSENSUS))%bool then No
  else if checkConsensusReached (currentAgree + 1) currentProposers then Yes
  else if checkConsensusReached currentFinished currentProposers then MovedOn
  else No.

Definition participantsNeeded (participants percent : Z) : Z :=
  let result := Z.quot (participants * percent + Z.quot percent 2) 100 in
  if result =? 0 then 1 else result.

(** The thresholds by the share of the expected time that has passed. *)
Definition neededWeight (closePercent : Z) : Z :=
  if closePercent <? AV_MID_CONSENSUS_TIME then AV_INIT_CONSENSUS_PCT
  else if closePercent <? AV_LATE_CONSENSUS_TIME then AV_MID_CONSENSUS_PCT
  else if closePercent <? AV_STUCK_CONSENSUS_TIME then AV_LATE_CONSENSUS_PCT
  else AV_STUCK_CONSENSUS_PCT.

(** ** Theorems *)

(** The next resolution is always one of the table.  After agreement it is
    the same or the next finer one, after disagreement the same or the next
    coarser one (the coarsest has no next). *)
Theorem getNextLedgerTimeResolution_step i r agree seq :
  ledgerPossibleTimeResolutions !! i = Some r -> 0 < seq ->
  exists j r', getNextLedgerTimeResolution r agree seq = Ok r' /\
    ledgerPossibleTimeResolutions !! j = Some r' /\
    if agree then j = i \/ (S j = i /\ seq mod 8 = 0)
    else j = S i \/ (j = i /\ i = 5%nat).
Proof.
  intros Hi Hs. unfold getNextLedgerTimeResolution. rewrite (proj2 (Z.eqb_neq seq 0)) by lia. simpl.
  assert (exists b, (seq mod increaseLedgerTimeResolutionEvery =? 0) = b /\ (b = true -> seq mod 8 = 0))
    as (b & Hb & Hb8) by (eexists; split; [done|]; intros; by reflect_bools).
  unfold decreaseLedgerTimeResolutionEvery. rewrite Hb, Z.mod_1_r. simpl.
  do 6 (destruct i as [|i]; [injection Hi as <-; destruct agree, b; simpl;
    first [eexists 0%nat, _; split_and!; by auto | eexists 1%nat, _; split_and!; by auto
          |eexists 2%nat, _; split_and!; by auto | eexists 3%nat, _; split_and!; by auto
          |eexists 4%nat, _; split_and!; by auto | eexists 5%nat, _; split_and!; by auto]|]).
  done.
Qed.

Lemma getNextLedgerTimeResolution_step_witness :
  exists j r', getNextLedgerTimeResolution 30 false 17 = Ok r' /\
    ledgerPossibleTimeResolutions !! j = Some r' /\ (j = 3%nat \/ (j = 2%nat /\ 2%nat = 5%nat)).
Proof. apply (getNextLedgerTimeResolution_step 2 30 false 17); [reflexivity|lia]. Defined.

Lemma roundCloseTime_spec t r : 0 < t -> 0 < r -> t + r / 2 < 2 ^ 32 ->
  roundCloseTime t r = (t + r / 2) / r * r.
Proof.
  intros Ht Hr Hmax. unfold roundCloseTime. rewrite (proj2 (Z.eqb_neq t 0)) by lia.
  assert (0 <= r / 2) by (apply Z.div_pos; lia).
  pose proof (Z.mod_pos_bound (t + r / 2) r Hr). pose proof (Z.div_mod (t + r / 2) r).
  assert (0 <= (t + r / 2) / r) by (apply Z.div_pos; lia).
  rewrite (u32_id (t + r / 2)) by lia. rewrite u32_id by nia. lia.
Qed.

(** A close time is rounded to a multiple of the resolution, at most half a
    resolution away, and rounding again changes nothing, so nodes that compare
    rounded times compare what they mean to. *)
Theorem roundCloseTime_correct t r : 0 <= t -> 0 < r -> t + r < 2 ^ 32 ->
  let t' := roundCloseTime t r in
  (r | t') /\ (t <> 0 -> 2 * Z.abs (t' - t) <= r) /\ roundCloseTime t' r = t'.
Proof.
  intros Ht Hr Hmax t'. destruct (decide (t = 0)) as [Hz|Hz].
  { assert (t' = 0) as -> by (subst t'; by rewrite Hz). split_and!; [by exists 0|done|done]. }
  assert (0 <= r / 2 < r) as Hh by (split; [apply Z.div_pos; lia|apply Z.div_lt; lia]).
  assert (r - 1 <= 2 * (r / 2) <= r) by (pose proof (Z.div_mod r 2); pose proof (Z.mod_pos_bound r 2); lia).
  assert (t' = (t + r / 2) / r * r) as Ht' by (apply roundCloseTime_spec; lia). clearbody t'.
  pose proof (Z.mod_pos_bound (t + r / 2) r Hr). pose proof (Z.div_mod (t + r / 2) r).
  split; [by exists ((t + r / 2) / r)|]. split; [intros _; lia|].
  destruct (decide (t' = 0)) as [->|]; [done|].
  assert (0 <= (t + r / 2) / r) by (apply Z.div_pos; lia).
  assert (0 <= t' <= t + r / 2) by nia. rewrite roundCloseTime_spec by lia. rewrite Ht' at 1.
  rewrite Z.div_add_l, (Z.div_small (r / 2) r) by lia. lia.
Qed.

Lemma roundCloseTime_correct_witness :
  let t' := roundCloseTime 471234567 30 in
  (30 | t') /\ (471234567 <> 0 -> 2 * Z.abs (t' - 471234567) <= 30) /\ roundCloseTime t' 30 = t'.
Proof. apply (roundCloseTime_correct 471234567 30); lia. Defined.

Lemma checkConsensusReached_iff agreeing proposing : 0 <= agreeing -> 0 <= proposing ->
  checkConsensusReached agreeing proposing = true <-> 81 * (proposing + 1) <= 100 * agreeing.
Proof.
  intros. unfold checkConsensusReached, minimumConsensusPercentage.
  rewrite Z.quot_div_nonneg by lia. rewrite Z.ltb_lt. split; intros.
  - pose proof (Z.mul_div_le (agreeing * 100) (proposing + 1)). nia.
  - enough (81 <= agreeing * 100 / (proposing + 1)) by lia. apply Z.div_le_lower_bound; lia.
Qed.

(** The share is reached only by a count that is not negative. *)
Lemma checkConsensusReached_share agreeing proposing : 0 <= proposing ->
  checkConsensusReached agreeing proposing = true -> 81 * (proposing + 1) <= 100 * agreeing.
Proof.
  intros Hp Hr. destruct (Z.le_gt_cases 0 agreeing) as [Ha|Ha]; [by apply checkConsensusReached_iff|].
  unfold checkConsensusReached, minimumConsensusPercentage in Hr. apply Z.ltb_lt in Hr.
  rewrite <- (Z.opp_involutive (agreeing * 100)), Z.quot_opp_l in Hr by lia.
  pose proof (Z.quot_pos (- (agreeing * 100)) (proposing + 1) ltac:(lia) ltac:(lia)). lia.
Qed.

(** What a consensus decision means.  It is never taken in the first two
    seconds, nor while more than a quarter of the previous proposers are
    missing and the previous round's time has not passed.  After that, [Yes]
    is decided exactly when at least 81% of the participants (this server
    included) agree with it, and [MovedOn] exactly when they do not but as many
    have validated a later ledger. *)
Theorem checkConsensus_correct prevProposers proposers agree finished prevTime time :
  0 <= proposers -> 0 <= agree -> 0 <= finished -> 0 <= prevProposers ->
  match checkConsensus prevProposers proposers agree finished prevTime time with
  | Yes => 2000 < time /\ 81 * (proposers + 1) <= 100 * (agree + 1)
  | MovedOn => 2000 < time /\ 100 * (agree + 1) < 81 * (proposers + 1) <= 100 * finished
  | No => time <= 2000 \/ (proposers < prevProposers * 3 / 4 /\ time < prevTime + 2000) \/
          (100 * (agree + 1) < 81 * (proposers + 1) /\ 100 * finished < 81 * (proposers + 1))
  end.
Proof.
  intros Hp Ha Hf Hpp. unfold checkConsensus, LEDGER_MIN_CONSENSUS.
  destruct (time <=? 2000) eqn:Ht; reflect_bools; [by left|].
  rewrite Z.quot_div_nonneg by lia.
  destruct ((_ <? _) && (_ <? _))%bool eqn:Hfast; [reflect_bools; right; left; lia|].
  pose proof (checkConsensusReached_iff (agree + 1) proposers ltac:(lia) Hp) as H1.
  pose proof (checkConsensusReached_iff finished proposers Hf Hp) as H2.
  destruct (checkConsensusReached (agree + 1) proposers); [split; [lia|by apply H1]|].
  assert (~ 81 * (proposers + 1) <= 100 * (agree + 1)) by (intros ?; by apply H1 in H).
  destruct (checkConsensusReached finished proposers); [pose proof (proj1 H2 eq_refl); lia|].
  assert (~ 81 * (proposers + 1) <= 100 * finished) by (intros ?; by apply H2 in H0).
  right. right. lia.
Qed.

Lemma checkConsensus_correct_witness :
  match checkConsensus 10 10 9 0 3000 2500 with
  | Yes => 2000 < 2500 /\ 81 * (10 + 1) <= 100 * (9 + 1)
  | MovedOn => 2000 < 2500 /\ 100 * (9 + 1) < 81 * (10 + 1) <= 100 * 0
  | No => 2500 <= 2000 \/ (10 < 10 * 3 / 4 /\ 2500 < 3000 + 2000) \/
          (100 * (9 + 1) < 81 * (10 + 1) /\ 100 * 0 < 81 * (10 + 1))
  end.
Proof. apply (checkConsensus_correct 10 10 9 0 3000 2500); lia. Defined.

(** A ledger with transactions is not closed in its first two seconds
    unless half of the previous proposers closed or validated, and any ledger is
    closed once the idle interval, the previous round's time and two seconds
    have passed. *)
Theorem shouldCloseLedger_paced anyTx prevProposers closed validated prevMS curMS openMS idle :
  -1000 <= prevMS <= 600000 -> -1000 <= curMS <= 600000 -> 0 <= prevProposers ->
  (anyTx = true -> openMS < 2000 -> closed + validated < prevProposers / 2 ->
     shouldCloseLedger anyTx prevProposers closed validated prevMS curMS openMS idle = false) /\
  (2000 <= openMS -> prevMS <= curMS -> idle * 1000 <= curMS ->
     shouldCloseLedger anyTx prevProposers closed validated prevMS curMS openMS idle = true).
Proof.
  intros H1 H2 H3. unfold shouldCloseLedger, LEDGER_MIN_CLOSE.
  rewrite (proj2 (Z.ltb_ge prevMS (-1000))), (proj2 (Z.ltb_ge 600000 prevMS)),
    (proj2 (Z.ltb_ge curMS (-1000))), (proj2 (Z.ltb_ge 600000 curMS)) by lia. simpl.
  rewrite !Z.quot_div_nonneg by lia. split.
  - intros -> Ho Hc. simpl. rewrite (proj2 (Z.ltb_lt _ _) Ho). simpl.
    by rewrite (proj2 (Z.ltb_lt _ _) Hc).
  - intros Ho Hp Hi. destruct anyTx; simpl.
    + rewrite (proj2 (Z.ltb_ge openMS 2000)), (proj2 (Z.ltb_ge curMS prevMS)) by lia. done.
    + rewrite (proj2 (Z.leb_le _ _) Hi). by destruct (_ <? _).
Qed.

Lemma shouldCloseLedger_paced_witness :
  (true = true -> 1500 < 2000 -> 1 + 1 < 8 / 2 ->
     shouldCloseLedger true 8 1 1 2500 3000 1500 15 = false) /\
  (2000 <= 1500 -> 2500 <= 3000 -> 15 * 1000 <= 3000 ->
     shouldCloseLedger true 8 1 1 2500 3000 1500 15 = true).
Proof. apply (shouldCloseLedger_paced true 8 1 1 2500 3000 1500 15); lia. Defined.

(** The number needed is between one and everyone. *)
Lemma participantsNeeded_range participants percent : 1 <= participants -> 0 <= percent <= 100 ->
  1 <= participantsNeeded participants percent <= participants.
Proof.
  intros Hp Hpc. unfold participantsNeeded. rewrite (Z.quot_div_nonneg percent) by lia.
  assert (0 <= percent / 2 /\ 2 * (percent / 2) <= percent) as [? ?].
  { pose proof (Z.mul_div_le percent 2). split; [apply Z.div_pos|]; lia. }
  rewrite Z.quot_div_nonneg by nia.
  assert (0 <= (participants * percent + percent / 2) / 100 <= participants).
  { split; [apply Z.div_pos; nia|]. apply Z.lt_succ_r, Z.div_lt_upper_bound; nia. }
  case_if; lia.
Qed.

End Timing.
