(* ===== verification/DisputedTx.v ===== *)
(** * DisputedTx: the votes on one disputed transaction

    Models [class DisputedTx] (src/src/ripple/app/ledger/impl/DisputedTx.h and
    DisputedTx.cpp): the votes of the trusted peers, the running counts of both
    sides and this server's own vote.  The transaction itself is carried as its
    serialized bytes. *)

From stdpp Require Import base tactics numbers list strings option gmap fin_maps.
From S2P Require Import Prelude Serializer Timing.

Module DisputedTx.
Import Timing.

Abbreviation NodeID := Z.

Record t := mk {
  mTransactionID : Z;
  mYays : Z;
  mNays : Z;
  mOurVote : bool;
  transaction : Serializer.Blob;
  mVotes : gmap NodeID bool
}.

(** The constructor. *)
Definition make (txID : Z) (tx : Serializer.Blob) (ourVote : bool) : t := mk txID 0 0 ourVote tx ∅.

Definition setOurVote (o : bool) (d : t) : t :=
  mk (mTransactionID d) (mYays d) (mNays d) o (transaction d) (mVotes d).

Definition setVote (peer : NodeID) (votesYes : bool) (d : t) : t :=
  match mVotes d !! peer with
  | None =>
      let votes := <[peer := votesYes]> (mVotes d) in
      if votesYes
      then mk (mTransactionID d) (mYays d + 1) (mNays d) (mOurVote d) (transaction d) votes
      else mk (mTransactionID d) (mYays d) (mNays d + 1) (mOurVote d) (transaction d) votes
  | Some old =>
      if (votesYes && negb old)%bool then
        mk (mTransactionID d) (mYays d + 1) (mNays d - 1) (mOurVote d) (transaction d)
          (<[peer := true]> (mVotes d))
      else if (negb votesYes && old)%bool then
        mk (mTransactionID d) (mYays d - 1) (mNays d + 1) (mOurVote d) (transaction d)
          (<[peer := false]> (mVotes d))
      else d
  end.

Definition unVote (peer : NodeID) (d : t) : t :=
  match mVotes d !! peer with
  | None => d
  | Some v =>
      mk (mTransactionID d) (if v : bool then mYays d - 1 else mYays d)
        (if v : bool then mNays d else mNays d - 1) (mOurVote d) (transaction d)
        (delete peer (mVotes d))
  end.

(** [updateVote] returns whether our vote changed, and the new object. *)
Definition updateVote (percentTime : Z) (proposing : bool) (d : t) : bool * t :=
  if (mOurVote d && (mNays d =? 0))%bool then (false, d)
  else if (negb (mOurVote d) && (mYays d =? 0))%bool then (false, d)
  else
    let newPosition :=
      if proposing then
        let weight := Z.quot (mYays d * 100 + (if mOurVote d then 100 else 0))
                             (mNays d + mYays d + 1) in
        if percentTime <? AV_MID_CONSENSUS_TIME then AV_INIT_CONSENSUS_PCT <? weight
        else if percentTime <? AV_LATE_CONSENSUS_TIME then AV_MID_CONSENSUS_PCT <? weight
        else if percentTime <? AV_STUCK_CONSENSUS_TIME then AV_LATE_CONSENSUS_PCT <? weight
        else AV_STUCK_CONSENSUS_PCT <? weight
      else mNays d <? mYays d in
    if Bool.eqb newPosition (mOurVote d) then (false, d)
    else (true, setOurVote newPosition d).

(** ** The counts are the counts *)

Definition count (v : bool) (votes : gmap NodeID bool) : Z :=
  Z.of_nat (size (filter (fun kv => snd kv = v) votes)).

Definition ok (d : t) : Prop :=
  mYays d = count true (mVotes d) /\ mNays d = count false (mVotes d).

Lemma count_insert_new v k x m : m !! k = None ->
  count v (<[k := x]> m) = count v m + (if Bool.eqb x v then 1 else 0).
Proof.
  intros Hk. unfold count.
  destruct (Bool.eqb x v) eqn:Hx.
  - apply Bool.eqb_prop in Hx as ->. rewrite map_filter_insert_True by done.
    rewrite map_size_insert_None by (by apply map_lookup_filter_None_2; left). lia.
  - apply Bool.eqb_false_iff in Hx. rewrite map_filter_insert_not' by (simpl; congruence). lia.
Qed.

Lemma count_delete v k x m : m !! k = Some x ->
  count v (delete k m) = count v m - (if Bool.eqb x v then 1 else 0).
Proof.
  intros Hk. pose proof (count_insert_new v k x (delete k m)) as H.
  rewrite insert_delete_id in H by done. rewrite H by apply lookup_delete_eq. lia.
Qed.

Lemma count_insert_old v k x y m : m !! k = Some y ->
  count v (<[k := x]> m) =
    count v m + (if Bool.eqb x v then 1 else 0) - (if Bool.eqb y v then 1 else 0).
Proof.
  intros Hk. rewrite <- (insert_delete_eq m k x). rewrite count_insert_new by apply lookup_delete_eq.
  rewrite (count_delete v k y) by done. lia.
Qed.

Lemma count_split m : count true m + count false m = Z.of_nat (size m).
Proof.
  induction m as [|k x m Hk IH] using map_ind; [done|].
  rewrite !count_insert_new, map_size_insert_None by done. destruct x; simpl; lia.
Qed.

Lemma make_ok txID tx ourVote : ok (make txID tx ourVote).
Proof. done. Qed.

Lemma setOurVote_ok o d : ok d -> ok (setOurVote o d).
Proof. done. Qed.

Lemma setVote_ok peer v d : ok d -> ok (setVote peer v d).
Proof.
  intros [Hy Hn]. unfold setVote, ok. destruct (mVotes d !! peer) as [old|] eqn:Hp.
  - destruct v, old; simpl; rewrite ?(count_insert_old _ _ _ _ _ Hp), ?Hy, ?Hn; simpl; split; lia.
  - destruct v; simpl; rewrite !count_insert_new by done; simpl; split; lia.
Qed.

Lemma unVote_ok peer d : ok d -> ok (unVote peer d).
Proof.
  intros [Hy Hn]. unfold unVote, ok. destruct (mVotes d !! peer) as [old|] eqn:Hp; [|done].
  simpl. rewrite !(count_delete _ _ _ _ Hp). destruct old; simpl; split; lia.
Qed.

Lemma setVote_votes peer v d : mVotes (setVote peer v d) = <[peer := v]> (mVotes d).
Proof.
  unfold setVote. destruct (mVotes d !! peer) as [old|] eqn:Hp; [|by destruct v].
  destruct v, old; simpl; try done; by rewrite insert_id.
Qed.

Lemma unVote_votes peer d : mVotes (unVote peer d) = delete peer (mVotes d).
Proof.
  unfold unVote. destruct (mVotes d !! peer) eqn:Hp; [done|]. by rewrite delete_id.
Qed.

Lemma setVote_id peer v d : mTransactionID (setVote peer v d) = mTransactionID d.
Proof. unfold setVote. by repeat case_match. Qed.

Lemma unVote_id peer d : mTransactionID (unVote peer d) = mTransactionID d.
Proof. unfold unVote. by case_match. Qed.

Lemma setVote_ours peer v d : mOurVote (setVote peer v d) = mOurVote d.
Proof. unfold setVote. by repeat case_match. Qed.

Lemma unVote_ours peer d : mOurVote (unVote peer d) = mOurVote d.
Proof. unfold unVote. by case_match. Qed.

(** The operations a peer's proposals cause, as steps. *)
Inductive step : t -> t -> Prop :=
| step_setVote peer v d : step d (setVote peer v d)
| step_unVote peer d : step d (unVote peer d)
| step_setOurVote o d : step d (setOurVote o d)
| step_updateVote percent proposing d : step d (snd (updateVote percent proposing d)).

Lemma updateVote_ok percent proposing d : ok d -> ok (snd (updateVote percent proposing d)).
Proof. intros Hd. unfold updateVote. repeat case_match; done. Qed.

(** Whatever sequence of votes, changes of vote and withdrawals a dispute
    goes through, the running counts are the numbers of yes and no votes held,
    so they are never negative and their sum is the number of voters. *)
Theorem vote_counts txID tx ourVote d : rtc step (make txID tx ourVote) d ->
  mYays d = count true (mVotes d) /\ mNays d = count false (mVotes d) /\
  mYays d + mNays d = Z.of_nat (size (mVotes d)) /\ 0 <= mYays d /\ 0 <= mNays d.
Proof.
  intros Hs. assert (ok d) as [Hy Hn].
  { pose proof (make_ok txID tx ourVote) as H0. revert H0.
    induction Hs as [|d1 d2 d3 Hstep _ IH]; [done|]. intros H1. apply IH.
    destruct Hstep; auto using setVote_ok, unVote_ok, updateVote_ok. }
  pose proof (count_split (mVotes d)). rewrite Hy, Hn. unfold count in *. lia.
Qed.

Lemma vote_counts_witness :
  let d := unVote 7 (setVote 8 false (setVote 7 true (make 1 [] true))) in
  mYays d = count true (mVotes d) /\ mNays d = count false (mVotes d) /\
  mYays d + mNays d = Z.of_nat (size (mVotes d)) /\ 0 <= mYays d /\ 0 <= mNays d.
Proof.
  apply (vote_counts 1 [] true). eapply rtc_l; [apply (step_setVote 7 true)|].
  eapply rtc_l; [apply (step_setVote 8 false)|]. apply rtc_once. apply (step_unVote 7).
Defined.

(** How our vote moves.  Without opposition it stays.  When proposing, the
    new vote is yes exactly when the percentage of yes votes, ours included,
    exceeds the threshold of the time; when only watching, exactly when the yes
    votes are the majority.  The result says whether the vote changed. *)
Theorem updateVote_correct percent proposing d : ok d ->
  let '(changed, d') := updateVote percent proposing d in
  changed = negb (Bool.eqb (mOurVote d') (mOurVote d)) /\ mVotes d' = mVotes d /\
  if ((mOurVote d && (mNays d =? 0)) || (negb (mOurVote d) && (mYays d =? 0)))%bool
  then d' = d
  else mOurVote d' = true <->
    if proposing
    then neededWeight percent * (mYays d + mNays d + 1) + (mYays d + mNays d + 1) <=
         100 * (mYays d + if mOurVote d then 1 else 0)
    else mNays d < mYays d.
Proof.
  intros [Hy Hn]. assert (0 <= mYays d) as Hy0 by (unfold count in *; lia).
  assert (0 <= mNays d) as Hn0 by (unfold count in *; lia). clear Hy Hn.
  unfold updateVote. destruct (mOurVote d && (mNays d =? 0))%bool eqn:H1; simpl.
  { by rewrite Bool.eqb_reflx. }
  destruct (negb (mOurVote d) && (mYays d =? 0))%bool eqn:H2; simpl.
  { by rewrite Bool.eqb_reflx. }
  match goal with |- context [Bool.eqb ?np (mOurVote d)] => set (newPosition := np) end.
  assert (newPosition = true <-> if proposing
    then neededWeight percent * (mYays d + mNays d + 1) + (mYays d + mNays d + 1) <=
         100 * (mYays d + if mOurVote d then 1 else 0)
    else mNays d < mYays d) as Hnew.
  { subst newPosition. destruct proposing; [|by rewrite Z.ltb_lt].
    unfold neededWeight. set (w := Z.quot _ _).
    assert (forall p, p < w <-> p * (mYays d + mNays d + 1) + (mYays d + mNays d + 1) <=
      100 * (mYays d + if mOurVote d then 1 else 0)) as Hw.
    { intros p. subst w. rewrite Z.quot_div_nonneg by (destruct (mOurVote d); lia).
      replace (mYays d * 100 + (if mOurVote d then 100 else 0))
        with (100 * (mYays d + if mOurVote d then 1 else 0)) by (destruct (mOurVote d); lia).
      set (x := 100 * _). split; intros Hp.
      - pose proof (Z.mul_div_le x (mNays d + mYays d + 1)). nia.
      - enough (p + 1 <= x / (mNays d + mYays d + 1)) by lia. apply Z.div_le_lower_bound; lia. }
    repeat case_if; rewrite Z.ltb_lt; apply Hw. }
  destruct (Bool.eqb newPosition (mOurVote d)) eqn:He.
  - apply Bool.eqb_prop in He. rewrite Bool.eqb_reflx, <- Hnew, He. done.
  - simpl. rewrite He. done.
Qed.

Lemma updateVote_correct_witness :
  let '(changed, d') := updateVote 90 true (setVote 8 false (setVote 7 true (make 1 [] true))) in
  let d := setVote 8 false (setVote 7 true (make 1 [] true)) in
  changed = negb (Bool.eqb (mOurVote d') (mOurVote d)) /\ mVotes d' = mVotes d /\
  if ((mOurVote d && (mNays d =? 0)) || (negb (mOurVote d) && (mYays d =? 0)))%bool
  then d' = d
  else mOurVote d' = true <->
    neededWeight 90 * (mYays d + mNays d + 1) + (mYays d + mNays d + 1) <=
         100 * (mYays d + if mOurVote d then 1 else 0).
Proof.
  apply (updateVote_correct 90 true (setVote 8 false (setVote 7 true (make 1 [] true)))).
  split; reflexivity.
Defined.

End DisputedTx.
