(* ===== verification/Consensus.v ===== *)
(** * Consensus: a round of the ledger consensus

    Models [class LedgerProposal] (src/src/ripple/app/ledger/LedgerProposal.h and
    .cpp) and [class LedgerConsensusImp] (impl/LedgerConsensusImp.h and .cpp):
    the proposals of the trusted peers, the transaction sets they name, the
    disputed transactions and their votes, and the handlers that a proposal, an
    acquired transaction set and the timer run.

    Transaction sets are [SHAMap]s, used through the class [SHAMapOps]; what the
    round relies on is [SHAMapLaws].  Calls into other parts of the server
    (overlay, validations, ledger master) are the [Action]s that a handler
    appends to [out]; what they return is an argument of the handler.  Times are
    in milliseconds.  Iteration over a [hash_map] is in the order of
    [map_to_list].  A null dereference is the exception ["null"], a failed
    assertion ["assertion"], the call of [abort] the exception ["abort"]. *)

From stdpp Require Import base tactics numbers list strings option gmap fin_maps.
From S2P Require Import Prelude Serializer Timing DisputedTx.

(** ** LedgerProposal *)

Module LedgerProposal.

Definition seqJoin : Z := 0.
Definition seqLeave : Z := 0xffffffff.

Record t := mk {
  mPreviousLedger : Z;
  mCurrentHash : Z;
  mCloseTime : Z;
  mProposeSeq : Z;
  mPeerID : Z;
  mTime : Z
}.

(** Our own proposal. *)
Definition ours (nodeID prevLgr position closeTime now : Z) : t :=
  mk prevLgr position closeTime seqJoin nodeID now.

Definition isPrevLedger (pl : Z) (p : t) : bool := mPreviousLedger p =? pl.
Definition isInitial (p : t) : bool := mProposeSeq p =? seqJoin.
Definition isBowOut (p : t) : bool := mProposeSeq p =? seqLeave.
Definition isStale (cutoff : Z) (p : t) : bool := mTime p <=? cutoff.

(** [changePosition] returns whether the proposal still stands, and the new
    proposal. *)
Definition changePosition (newPosition closeTime now : Z) (p : t) : bool * t :=
  if mProposeSeq p =? seqLeave then (false, p)
  else (true, mk (mPreviousLedger p) newPosition closeTime (u32 (mProposeSeq p + 1)) (mPeerID p) now).

Definition bowOut (now : Z) (p : t) : t :=
  mk (mPreviousLedger p) (mCurrentHash p) (mCloseTime p) seqLeave (mPeerID p) now.

End LedgerProposal.

(** ** Transaction sets *)

Class SHAMapOps := {
  SHAMap : Type;
  getHash : SHAMap -> Z;
  hasItem : SHAMap -> Z -> bool;
  addItem : SHAMap -> Z -> Serializer.Blob -> SHAMap;
  delItem : SHAMap -> Z -> SHAMap;
  (** the first differences, each with the item of either side *)
  compare : SHAMap -> SHAMap -> list (Z * (option Serializer.Blob * option Serializer.Blob))
}.

(** Sets with one hash have the same items; a difference between two sets of
    transactions is an item of exactly one of them. *)
Class SHAMapLaws (SM : SHAMapOps) := {
  getHash_inj m1 m2 : getHash m1 = getHash m2 -> forall k, hasItem m1 k = hasItem m2 k;
  hasItem_add m k b k' : hasItem (addItem m k b) k' = bool_decide (k' = k) || hasItem m k';
  hasItem_del m k k' : hasItem (delItem m k) k' = negb (bool_decide (k' = k)) && hasItem m k';
  compare_sided m1 m2 k a b : (k, (a, b)) ∈ compare m1 m2 ->
    (is_Some a /\ b = None) \/ (a = None /\ is_Some b)
}.

Module Consensus.
Import Timing.

Abbreviation Proposal := LedgerProposal.t.
Abbreviation NodeID := Z.

Inductive Phase := open | establish | finished | accepted.

#[export] Instance Phase_eq_dec : EqDecision Phase.
Proof. solve_decision. Defined.

(** What a round uses of a closed ledger. *)
Record Ledger := mkLedger {
  hash : Z;
  parentHash : Z;
  seq : Z;
  closeTime : Z;
  closeTimeResolution : Z;
  closeAgree : bool
}.

Section consensus.
Context {SM : SHAMapOps}.

Inductive Action :=
| GiveSet (h : Z) (m : SHAMap)
| HaveTxSet (h : Z)
| Propose (p : Proposal)
| RelayTx (txID : Z)
| ViewChange
| AcquireLedger (h : Z)
| NewLCL (proposers : Z) (convergeTime : Z)
| Accept (m : SHAMap)
| CheckOurValidation
| SetLastCloseTime (t : Z)
| StatusClosing
| ApplyHeldTransactions
| SetBuildingLedger (s : Z)
| EndConsensus (haveCorrectLCL : bool).

Record State := mkState {
  state_ : Phase;
  mCloseTime : Z;
  mPrevLedgerHash : Z;
  mAcquiringLedger : Z;
  mPreviousLedger : Ledger;
  mOurPosition : option Proposal;
  mProposing : bool;
  mHaveCorrectLCL : bool;
  mConsensusFail : bool;
  mCurrentMSeconds : Z;
  mClosePercent : Z;
  mCloseResolution : Z;
  mHaveCloseTimeConsensus : bool;
  mPreviousProposers : Z;
  mPreviousMSeconds : Z;
  mPeerPositions : gmap NodeID Proposal;
  mAcquired : gmap Z (option SHAMap);
  mDisputes : gmap Z DisputedTx.t;
  mCompares : gset Z;
  mCloseTimes : gmap Z Z;
  mDeadNodes : gset NodeID;
  out : list Action
}.

(** Assignments to the members. *)
Definition set_state (x : Phase) (s : State) : State :=
  mkState x (mCloseTime s) (mPrevLedgerHash s) (mAcquiringLedger s) (mPreviousLedger s)
    (mOurPosition s) (mProposing s) (mHaveCorrectLCL s) (mConsensusFail s) (mCurrentMSeconds s)
    (mClosePercent s) (mCloseResolution s) (mHaveCloseTimeConsensus s) (mPreviousProposers s)
    (mPreviousMSeconds s) (mPeerPositions s) (mAcquired s) (mDisputes s) (mCompares s)
    (mCloseTimes s) (mDeadNodes s) (out s).

Definition set_mCloseTime (x : Z) (s : State) : State :=
  mkState (state_ s) x (mPrevLedgerHash s) (mAcquiringLedger s) (mPreviousLedger s)
    (mOurPosition s) (mProposing s) (mHaveCorrectLCL s) (mConsensusFail s) (mCurrentMSeconds s)
    (mClosePercent s) (mCloseResolution s) (mHaveCloseTimeConsensus s) (mPreviousProposers s)
    (mPreviousMSeconds s) (mPeerPositions s) (mAcquired s) (mDisputes s) (mCompares s)
    (mCloseTimes s) (mDeadNodes s) (out s).

Definition set_mPrevLedgerHash (x : Z) (s : State) : State :=
  mkState (state_ s) (mCloseTime s) x (mAcquiringLedger s) (mPreviousLedger s) (mOurPosition s)
    (mProposing s) (mHaveCorrectLCL s) (mConsensusFail s) (mCurrentMSeconds s) (mClosePercent s)
    (mCloseResolution s) (mHaveCloseTimeConsensus s) (mPreviousProposers s) (mPreviousMSeconds
    s) (mPeerPositions s) (mAcquired s) (mDisputes s) (mCompares s) (mCloseTimes s) (mDeadNodes
    s) (out s).

Definition set_mAcquiringLedger (x : Z) (s : State) : State :=
  mkState (state_ s) (mCloseTime s) (mPrevLedgerHash s) x (mPreviousLedger s) (mOurPosition s)
    (mProposing s) (mHaveCorrectLCL s) (mConsensusFail s) (mCurrentMSeconds s) (mClosePercent s)
    (mCloseResolution s) (mHaveCloseTimeConsensus s) (mPreviousProposers s) (mPreviousMSeconds
    s) (mPeerPositions s) (mAcquired s) (mDisputes s) (mCompares s) (mCloseTimes s) (mDeadNodes
    s) (out s).

Definition set_mPreviousLedger (x : Ledger) (s : State) : State :=
  mkState (state_ s) (mCloseTime s) (mPrevLedgerHash s) (mAcquiringLedger s) x (mOurPosition s)
    (mProposing s) (mHaveCorrectLCL s) (mConsensusFail s) (mCurrentMSeconds s) (mClosePercent s)
    (mCloseResolution s) (mHaveCloseTimeConsensus s) (mPreviousProposers s) (mPreviousMSeconds
    s) (mPeerPositions s) (mAcquired s) (mDisputes s) (mCompares s) (mCloseTimes s) (mDeadNodes
    s) (out s).

Definition set_mOurPosition (x : option Proposal) (s : State) : State :=
  mkState (state_ s) (mCloseTime s) (mPrevLedgerHash s) (mAcquiringLedger s) (mPreviousLedger s)
    x (mProposing s) (mHaveCorrectLCL s) (mConsensusFail s) (mCurrentMSeconds s) (mClosePercent
    s) (mCloseResolution s) (mHaveCloseTimeConsensus s) (mPreviousProposers s)
    (mPreviousMSeconds s) (mPeerPositions s) (mAcquired s) (mDisputes s) (mCompares s)
    (mCloseTimes s) (mDeadNodes s) (out s).

Definition set_mProposing (x : bool) (s : State) : State :=
  mkState (state_ s) (mCloseTime s) (mPrevLedgerHash s) (mAcquiringLedger s) (mPreviousLedger s)
    (mOurPosition s) x (mHaveCorrectLCL s) (mConsensusFail s) (mCurrentMSeconds s)
    (mClosePercent s) (mCloseResolution s) (mHaveCloseTimeConsensus s) (mPreviousProposers s)
    (mPreviousMSeconds s) (mPeerPositions s) (mAcquired s) (mDisputes s) (mCompares s)
    (mCloseTimes s) (mDeadNodes s) (out s).

Definition set_mHaveCorrectLCL (x : bool) (s : State) : State :=
  mkState (state_ s) (mCloseTime s) (mPrevLedgerHash s) (mAcquiringLedger s) (mPreviousLedger s)
    (mOurPosition s) (mProposing s) x (mConsensusFail s) (mCurrentMSeconds s) (mClosePercent s)
    (mCloseResolution s) (mHaveCloseTimeConsensus s) (mPreviousProposers s) (mPreviousMSeconds
    s) (mPeerPositions s) (mAcquired s) (mDisputes s) (mCompares s) (mCloseTimes s) (mDeadNodes
    s) (out s).

Definition set_mConsensusFail (x : bool) (s : State) : State :=
  mkState (state_ s) (mCloseTime s) (mPrevLedgerHash s) (mAcquiringLedger s) (mPreviousLedger s)
    (mOurPosition s) (mProposing s) (mHaveCorrectLCL s) x (mCurrentMSeconds s) (mClosePercent s)
    (mCloseResolution s) (mHaveCloseTimeConsensus s) (mPreviousProposers s) (mPreviousMSeconds
    s) (mPeerPositions s) (mAcquired s) (mDisputes s) (mCompares s) (mCloseTimes s) (mDeadNodes
    s) (out s).

Definition set_mCurrentMSeconds (x : Z) (s : State) : State :=
  mkState (state_ s) (mCloseTime s) (mPrevLedgerHash s) (mAcquiringLedger s) (mPreviousLedger s)
    (mOurPosition s) (mProposing s) (mHaveCorrectLCL s) (mConsensusFail s) x (mClosePercent s)
    (mCloseResolution s) (mHaveCloseTimeConsensus s) (mPreviousProposers s) (mPreviousMSeconds
    s) (mPeerPositions s) (mAcquired s) (mDisputes s) (mCompares s) (mCloseTimes s) (mDeadNodes
    s) (out s).

Definition set_mClosePercent (x : Z) (s : State) : State :=
  mkState (state_ s) (mCloseTime s) (mPrevLedgerHash s) (mAcquiringLedger s) (mPreviousLedger s)
    (mOurPosition s) (mProposing s) (mHaveCorrectLCL s) (mConsensusFail s) (mCurrentMSeconds s)
    x (mCloseResolution s) (mHaveCloseTimeConsensus s) (mPreviousProposers s) (mPreviousMSeconds
    s) (mPeerPositions s) (mAcquired s) (mDisputes s) (mCompares s) (mCloseTimes s) (mDeadNodes
    s) (out s).

Definition set_mCloseResolution (x : Z) (s : State) : State :=
  mkState (state_ s) (mCloseTime s) (mPrevLedgerHash s) (mAcquiringLedger s) (mPreviousLedger s)
    (mOurPosition s) (mProposing s) (mHaveCorrectLCL s) (mConsensusFail s) (mCurrentMSeconds s)
    (mClosePercent s) x (mHaveCloseTimeConsensus s) (mPreviousProposers s) (mPreviousMSeconds s)
    (mPeerPositions s) (mAcquired s) (mDisputes s) (mCompares s) (mCloseTimes s) (mDeadNodes s)
    (out s).

Definition set_mHaveCloseTimeConsensus (x : bool) (s : State) : State :=
  mkState (state_ s) (mCloseTime s) (mPrevLedgerHash s) (mAcquiringLedger s) (mPreviousLedger s)
    (mOurPosition s) (mProposing s) (mHaveCorrectLCL s) (mConsensusFail s) (mCurrentMSeconds s)
    (mClosePercent s) (mCloseResolution s) x (mPreviousProposers s) (mPreviousMSeconds s)
    (mPeerPositions s) (mAcquired s) (mDisputes s) (mCompares s) (mCloseTimes s) (mDeadNodes s)
    (out s).

Definition set_mPeerPositions (x : gmap NodeID Proposal) (s : State) : State :=
  mkState (state_ s) (mCloseTime s) (mPrevLedgerHash s) (mAcquiringLedger s) (mPreviousLedger s)
    (mOurPosition s) (mProposing s) (mHaveCorrectLCL s) (mConsensusFail s) (mCurrentMSeconds s)
    (mClosePercent s) (mCloseResolution s) (mHaveCloseTimeConsensus s) (mPreviousProposers s)
    (mPreviousMSeconds s) x (mAcquired s) (mDisputes s) (mCompares s) (mCloseTimes s)
    (mDeadNodes s) (out s).

Definition set_mAcquired (x : gmap Z (option SHAMap)) (s : State) : State :=
  mkState (state_ s) (mCloseTime s) (mPrevLedgerHash s) (mAcquiringLedger s) (mPreviousLedger s)
    (mOurPosition s) (mProposing s) (mHaveCorrectLCL s) (mConsensusFail s) (mCurrentMSeconds s)
    (mClosePercent s) (mCloseResolution s) (mHaveCloseTimeConsensus s) (mPreviousProposers s)
    (mPreviousMSeconds s) (mPeerPositions s) x (mDisputes s) (mCompares s) (mCloseTimes s)
    (mDeadNodes s) (out s).

Definition set_mDisputes (x : gmap Z DisputedTx.t) (s : State) : State :=
  mkState (state_ s) (mCloseTime s) (mPrevLedgerHash s) (mAcquiringLedger s) (mPreviousLedger s)
    (mOurPosition s) (mProposing s) (mHaveCorrectLCL s) (mConsensusFail s) (mCurrentMSeconds s)
    (mClosePercent s) (mCloseResolution s) (mHaveCloseTimeConsensus s) (mPreviousProposers s)
    (mPreviousMSeconds s) (mPeerPositions s) (mAcquired s) x (mCompares s) (mCloseTimes s)
    (mDeadNodes s) (out s).

Definition set_mCompares (x : gset Z) (s : State) : State :=
  mkState (state_ s) (mCloseTime s) (mPrevLedgerHash s) (mAcquiringLedger s) (mPreviousLedger s)
    (mOurPosition s) (mProposing s) (mHaveCorrectLCL s) (mConsensusFail s) (mCurrentMSeconds s)
    (mClosePercent s) (mCloseResolution s) (mHaveCloseTimeConsensus s) (mPreviousProposers s)
    (mPreviousMSeconds s) (mPeerPositions s) (mAcquired s) (mDisputes s) x (mCloseTimes s)
    (mDeadNodes s) (out s).

Definition set_mCloseTimes (x : gmap Z Z) (s : State) : State :=
  mkState (state_ s) (mCloseTime s) (mPrevLedgerHash s) (mAcquiringLedger s) (mPreviousLedger s)
    (mOurPosition s) (mProposing s) (mHaveCorrectLCL s) (mConsensusFail s) (mCurrentMSeconds s)
    (mClosePercent s) (mCloseResolution s) (mHaveCloseTimeConsensus s) (mPreviousProposers s)
    (mPreviousMSeconds s) (mPeerPositions s) (mAcquired s) (mDisputes s) (mCompares s) x
    (mDeadNodes s) (out s).

Definition set_mDeadNodes (x : gset NodeID) (s : State) : State :=
  mkState (state_ s) (mCloseTime s) (mPrevLedgerHash s) (mAcquiringLedger s) (mPreviousLedger s)
    (mOurPosition s) (mProposing s) (mHaveCorrectLCL s) (mConsensusFail s) (mCurrentMSeconds s)
    (mClosePercent s) (mCloseResolution s) (mHaveCloseTimeConsensus s) (mPreviousProposers s)
    (mPreviousMSeconds s) (mPeerPositions s) (mAcquired s) (mDisputes s) (mCompares s)
    (mCloseTimes s) x (out s).

Definition set_out (x : list Action) (s : State) : State :=
  mkState (state_ s) (mCloseTime s) (mPrevLedgerHash s) (mAcquiringLedger s) (mPreviousLedger s)
    (mOurPosition s) (mProposing s) (mHaveCorrectLCL s) (mConsensusFail s) (mCurrentMSeconds s)
    (mClosePercent s) (mCloseResolution s) (mHaveCloseTimeConsensus s) (mPreviousProposers s)
    (mPreviousMSeconds s) (mPeerPositions s) (mAcquired s) (mDisputes s) (mCompares s)
    (mCloseTimes s) (mDeadNodes s) x.

Definition emit (a : Action) (s : State) : State := set_out (out s ++ [a]) s.

(** ** Disputes *)

(** [mOurPosition->] and [mAcquired[h]->] *)
Definition deref {A} (o : option A) : result A :=
  match o with Some a => Ok a | None => Throw "null" end.

(** The set acquired under a hash, if it is there and not null. *)
Definition acquired_set (s : State) (h : Z) : option SHAMap := mjoin (mAcquired s !! h).

(** [relayed txID] is what [HashRouter::setFlag (txID, SF_RELAYED)] returns. *)
Definition addDisputedTransaction (relayed : Z -> bool) (s : State)
    (txID : Z) (tx : Serializer.Blob) : result State :=
  match mDisputes s !! txID with
  | Some _ => Ok s
  | None =>
      ourVote ← (match mOurPosition s with
                 | None => Ok false
                 | Some p =>
                     match mAcquired s !! LedgerProposal.mCurrentHash p with
                     | None => Throw "assertion"
                     | Some m => m ← deref m; Ok (hasItem m txID)
                     end
                 end);
      let txn := DisputedTx.make txID tx ourVote in
      let txn := map_fold (fun peer p txn =>
        match acquired_set s (LedgerProposal.mCurrentHash p) with
        | Some m => DisputedTx.setVote peer (hasItem m txID) txn
        | None => txn
        end) txn (mPeerPositions s) in
      let s := set_mDisputes (<[txID := txn]> (mDisputes s)) s in
      Ok (if relayed txID then emit (RelayTx txID) s else s)
  end.

Definition createDisputes (relayed : Z -> bool) (s : State) (m1 m2 : SHAMap) : result State :=
  if getHash m1 =? getHash m2 then Ok s
  else
    foldM (fun s '(k, (first, second)) =>
      match first, second with
      | Some tx, None => addDisputedTransaction relayed s k tx
      | None, Some tx => addDisputedTransaction relayed s k tx
      | _, _ => Throw "assertion"
      end) s (compare m1 m2).

Definition adjustCount (s : State) (map : SHAMap) (peers : list NodeID) : State :=
  set_mDisputes ((fun d =>
    let setHas := hasItem map (DisputedTx.mTransactionID d) in
    fold_left (fun d pit => DisputedTx.setVote pit setHas d) peers d) <$> mDisputes s) s.

(** ** Transaction sets arriving *)

(** The peers whose position is the set [h]. *)
Definition peers_at (s : State) (h : Z) : list NodeID :=
  (fun kv => LedgerProposal.mPeerID (snd kv)) <$>
    filter (fun kv => LedgerProposal.mCurrentHash (snd kv) = h) (map_to_list (mPeerPositions s)).

Definition mapCompleteInternal (relayed : Z -> bool) (s : State)
    (h : Z) (map : option SHAMap) (acquired : bool) : result State :=
  match map with
  | None => Ok (set_mAcquired (<[h := None]> (mAcquired s)) s)
  | Some map =>
      _ ← throw_if (negb (h =? getHash map)) "assertion";
      match mAcquired s !! h with
      | Some (Some _) => Ok s
      | found =>
          let s := match found with
                   | Some _ => set_mAcquired (delete h (mAcquired s)) s
                   | None => s
                   end in
          let s := if negb acquired then emit (GiveSet h map) s else s in
          let s := emit (HaveTxSet h) s in
          s ← (match mOurPosition s with
               | Some p =>
                   if (negb (LedgerProposal.isBowOut p) &&
                       negb (h =? LedgerProposal.mCurrentHash p))%bool then
                     match mAcquired s !! LedgerProposal.mCurrentHash p with
                     | Some (Some m) =>
                         createDisputes relayed (set_mCompares ({[h]} ∪ mCompares s) s) m map
                     | _ => Throw "assertion"
                     end
                   else Ok s
               | None => Ok s
               end);
          let s := set_mAcquired (<[h := Some map]> (mAcquired s)) s in
          let peers := peers_at s (getHash map) in
          Ok (match peers with [] => s | _ => adjustCount s map peers end)
      end
  end.

(** [getSet h] is what [InboundTransactions::getSet (h, true)] returns. *)
Definition getTransactionTree (getSet : Z -> option SHAMap) (s : State) (h : Z)
    : option SHAMap * State :=
  match acquired_set s h with
  | Some m => (Some m, s)
  | None =>
      match getSet h with
      | Some m => (Some m, set_mAcquired (<[h := Some m]> (mAcquired s)) s)
      | None => (None, s)
      end
  end.

(** ** Proposals arriving *)

Definition peerPosition (getSet : Z -> option SHAMap) (s : State) (newPosition : Proposal)
    : bool * State :=
  let peerID := LedgerProposal.mPeerID newPosition in
  if bool_decide (peerID ∈ mDeadNodes s) then (false, s)
  else if match mPeerPositions s !! peerID with
          | Some current =>
              LedgerProposal.mProposeSeq newPosition <=? LedgerProposal.mProposeSeq current
          | None => false
          end then (false, s)
  else if LedgerProposal.isBowOut newPosition then
    let s := set_mDisputes (DisputedTx.unVote peerID <$> mDisputes s) s in
    let s := set_mPeerPositions (delete peerID (mPeerPositions s)) s in
    (true, set_mDeadNodes ({[peerID]} ∪ mDeadNodes s) s)
  else
    let s := if LedgerProposal.isInitial newPosition
             then let ct := LedgerProposal.mCloseTime newPosition in
                  set_mCloseTimes (<[ct := default 0 (mCloseTimes s !! ct) + 1]> (mCloseTimes s)) s
             else s in
    let s := set_mPeerPositions (<[peerID := newPosition]> (mPeerPositions s)) s in
    let '(set, s) := getTransactionTree getSet s (LedgerProposal.mCurrentHash newPosition) in
    match set with
    | Some m =>
        (true, set_mDisputes (map_imap (fun k d =>
           Some (DisputedTx.setVote peerID (hasItem m k) d)) (mDisputes s)) s)
    | None => (true, s)
    end.

(** [stored] are the proposals of [ConsensusImp::peekStoredProposals]. *)
Definition playbackProposals (getSet : Z -> option SHAMap) (stored : list Proposal) (s : State)
    : State :=
  fold_left (fun s p =>
    if LedgerProposal.isPrevLedger (mPrevLedgerHash s) p then snd (peerPosition getSet s p) else s)
    stored s.

(** ** Our position *)

(** [propose]: the proposal as it stands is signed and sent. *)
Definition propose (s : State) : result State :=
  p ← deref (mOurPosition s); Ok (emit (Propose p) s).

Definition leaveConsensus (now : Z) (s : State) : result State :=
  if mProposing s then
    s ← (match mOurPosition s with
         | Some p =>
             if negb (LedgerProposal.isBowOut p)
             then propose (set_mOurPosition (Some (LedgerProposal.bowOut now p)) s)
             else Ok s
         | None => Ok s
         end);
    Ok (set_mProposing false s)
  else Ok s.

(** The last loop of [takeInitialPosition]: disputes with a peer's position;
    [found] are the positions seen. *)
Definition contrary (relayed : Z -> bool) (initialSet : SHAMap) (acc : gset Z * State)
    (kv : NodeID * Proposal) : result (gset Z * State) :=
  let '(found, s) := acc in
  let h := LedgerProposal.mCurrentHash (snd kv) in
  if bool_decide (h ∈ found) then Ok (found, s)
  else
    match mAcquired s !! h with
    | Some m =>
        m ← deref m;
        s ← createDisputes relayed (set_mCompares ({[getHash m]} ∪ mCompares s) s) initialSet m;
        Ok ({[h]} ∪ found, s)
    | None => Ok ({[h]} ∪ found, s)
    end.

(** [initialSet] is the transaction tree of the open ledger, with the fee and
    amendment votes of a flag ledger; [txExists] and [openParent] are the open
    ledger's. *)
Definition takeInitialPosition (relayed : Z -> bool) (now nodeID : Z) (s : State)
    (initialSet : SHAMap) (txExists : Z -> bool) (openParent : Z) : result State :=
  let s := emit (SetBuildingLedger (u32 (seq (mPreviousLedger s) + 1))) s in
  let txSet := getHash initialSet in
  s ← mapCompleteInternal relayed s txSet (Some initialSet) false;
  let s := set_mOurPosition
    (Some (LedgerProposal.ours nodeID openParent txSet (mCloseTime s) now)) s in
  let s := set_mDisputes (map_imap (fun k d =>
    Some (DisputedTx.setOurVote (txExists k) d)) (mDisputes s)) s in
  fs ← foldM (contrary relayed initialSet) (∅, s) (map_to_list (mPeerPositions s));
  let s := snd fs in
  if mProposing s then propose s else Ok s.

(** The votes for close times: a [std::map], kept in the order of the times. *)
Abbreviation CloseTimes := (list (Z * Z)).

(** [++closeTimes[t]] *)
Fixpoint ct_incr (t : Z) (ct : CloseTimes) : CloseTimes :=
  match ct with
  | [] => [(t, 1)]
  | (u, n) :: ct' =>
      if t <? u then (t, 1) :: ct
      else if t =? u then (u, n + 1) :: ct'
      else (u, n) :: ct_incr t ct'
  end.

(** [closeTimes[t]] *)
Definition ct_get (t : Z) (ct : CloseTimes) : Z :=
  match list_find (fun '(u, _) => u = t) ct with Some (_, (_, n)) => n | None => 0 end.

(** The first loop of [updateOurPositions]: drop stale positions, count the
    close times of the others. *)
Definition sweep (peerCutoff closeResolution : Z)
    (acc : gmap NodeID Proposal * gmap Z DisputedTx.t * CloseTimes) (kv : NodeID * Proposal)
    : gmap NodeID Proposal * gmap Z DisputedTx.t * CloseTimes :=
  let '(positions, disputes, ct) := acc in
  let '(k, p) := kv in
  if LedgerProposal.isStale peerCutoff p
  then (delete k positions, DisputedTx.unVote (LedgerProposal.mPeerID p) <$> disputes, ct)
  else (positions, disputes,
        ct_incr (roundCloseTime (LedgerProposal.mCloseTime p) closeResolution) ct).

(** The second loop: our votes, and our set with the changes ([None] as long as
    there is no change); [ours] is the set of our current position. *)
Definition revote (closePercent : Z) (proposing : bool) (ours : option SHAMap)
    (acc : gmap Z DisputedTx.t * option SHAMap) (kd : Z * DisputedTx.t)
    : result (gmap Z DisputedTx.t * option SHAMap) :=
  let '(disputes, ourPosition) := acc in
  let '(k, d) := kd in
  let '(changed, d') := DisputedTx.updateVote closePercent proposing d in
  if changed : bool then
    m ← (match ourPosition with Some m => Ok m | None => deref ours end);
    Ok (<[k := d']> disputes,
        Some (if DisputedTx.mOurVote d' then addItem m k (DisputedTx.transaction d')
              else delItem m k))
  else Ok (disputes, ourPosition).

(** The loop over the close times: the time with the most votes at or above the
    threshold, and whether a consensus threshold was reached. *)
Definition ct_vote (threshConsensus : Z) (acc : Z * Z * bool) (tn : Z * Z) : Z * Z * bool :=
  let '(closeTime, threshVote, have) := acc in
  let '(t, n) := tn in
  if threshVote <=? n then (t, n, (have || (threshConsensus <=? n))%bool) else acc.

Definition closeTimeConsensus (peers : Z) (proposing : bool) (closePercent ourTime : Z)
    (ct : CloseTimes) : Z * bool :=
  if peers =? 0 then (ourTime, true)
  else
    let '(ct, participants) :=
      if proposing then (ct_incr ourTime ct, peers + 1) else (ct, peers) in
    let threshVote := participantsNeeded participants (neededWeight closePercent) in
    let threshConsensus := participantsNeeded participants AV_CT_CONSENSUS_PCT in
    let '(closeTime, _, have) := fold_left (ct_vote threshConsensus) ct (0, threshVote, false) in
    if (negb have && (threshConsensus <? ct_get 0 ct))%bool then (0, true) else (closeTime, have).

Definition updateOurPositions (relayed : Z -> bool) (now : Z) (s : State) : result State :=
  let ourCutoff := now - PROPOSE_INTERVAL * 1000 in
  let peerCutoff := now - PROPOSE_FRESHNESS * 1000 in
  let '(positions, disputes, ct) :=
    fold_left (sweep peerCutoff (mCloseResolution s)) (map_to_list (mPeerPositions s))
      (mPeerPositions s, mDisputes s, []) in
  let s := set_mDisputes disputes (set_mPeerPositions positions s) in
  our ← deref (mOurPosition s);
  let ours := acquired_set s (LedgerProposal.mCurrentHash our) in
  do' ← foldM (revote (mClosePercent s) (mProposing s) ours) (mDisputes s, None)
          (map_to_list (mDisputes s));
  let '(disputes, ourPosition) := do' in
  let s := set_mDisputes disputes s in
  let ourTime := roundCloseTime (LedgerProposal.mCloseTime our) (mCloseResolution s) in
  let '(closeTime, have) :=
    closeTimeConsensus (Z.of_nat (size (mPeerPositions s))) (mProposing s) (mClosePercent s)
      ourTime ct in
  let s := set_mHaveCloseTimeConsensus have s in
  ourPosition ← (match ourPosition with
    | None =>
        if (negb (closeTime =? ourTime) || LedgerProposal.isStale ourCutoff our)%bool
        then m ← deref ours; Ok (Some m)
        else Ok None
    | Some m => Ok (Some m)
    end);
  match ourPosition with
  | None => Ok s
  | Some m =>
      let newHash := getHash m in
      let '(stands, our) := LedgerProposal.changePosition newHash closeTime now our in
      if stands : bool then
        let s := set_mOurPosition (Some our) s in
        s ← (if mProposing s then propose s else Ok s);
        mapCompleteInternal relayed s newHash (Some m) false
      else Ok s
  end.

(** ** Deciding *)

(** One peer's position in [haveConsensus]. *)
Definition countPosition (relayed : Z -> bool) (ourHash : Z) (acc : Z * Z * State)
    (kv : NodeID * Proposal) : result (Z * Z * State) :=
  let '(agree, disagree, s) := acc in
  let p := snd kv in
  if LedgerProposal.isBowOut p then Ok acc
  else if LedgerProposal.mCurrentHash p =? ourHash then Ok (agree + 1, disagree, s)
  else
    let h := LedgerProposal.mCurrentHash p in
    if bool_decide (h ∈ mCompares s) then Ok (agree, disagree + 1, s)
    else
      match acquired_set s h, acquired_set s ourHash with
      | Some m1, Some m2 =>
          s ← createDisputes relayed (set_mCompares ({[h]} ∪ mCompares s) s) m2 m1;
          Ok (agree, disagree + 1, s)
      | _, _ => Ok (agree, disagree + 1, s)
      end.

(** [currentValidations] is [Validations::getNodesAfter (mPrevLedgerHash)]. *)
Definition haveConsensus (relayed : Z -> bool) (currentValidations : Z) (s : State)
    : result (bool * State) :=
  our ← deref (mOurPosition s);
  acc ← foldM (countPosition relayed (LedgerProposal.mCurrentHash our)) (0, 0, s)
          (map_to_list (mPeerPositions s));
  let '(agree, disagree, s) := acc in
  match checkConsensus (mPreviousProposers s) (agree + disagree) agree currentValidations
          (mPreviousMSeconds s) (mCurrentMSeconds s) with
  | No => Ok (false, s)
  | MovedOn => Ok (true, set_mConsensusFail true s)
  | Yes => Ok (true, set_mConsensusFail false s)
  end.

(** [beginAccept (false)]: [accept] runs as a job. *)
Definition beginAccept (s : State) : result State :=
  our ← deref (mOurPosition s);
  match acquired_set s (LedgerProposal.mCurrentHash our) with
  | None => Throw "abort"
  | Some m =>
      Ok (emit (Accept m)
            (emit (NewLCL (Z.of_nat (size (mPeerPositions s))) (mCurrentMSeconds s)) s))
  end.

Definition stateEstablish (relayed : Z -> bool) (now currentValidations : Z) (s : State)
    : result State :=
  if mCurrentMSeconds s <? LEDGER_MIN_CONSENSUS then Ok s
  else
    s ← updateOurPositions relayed now s;
    bs ← haveConsensus relayed currentValidations s;
    let '(b, s) := bs in
    if negb b then Ok s
    else if negb (mHaveCloseTimeConsensus s) then Ok s
    else beginAccept (set_state finished s).

(** ** The last closed ledger *)

(** What a timer event reads from the rest of the server. *)
Record Env := mkEnv {
  now : Z;
  getCloseTimeNC : Z;
  getLastCloseTime : Z;
  elapsed : Z;
  currentValidationCounts : list (Z * Z);
  trustedValidationCount : Z;
  nodesAfter : Z;
  relayed : Z -> bool;
  getSet : Z -> option SHAMap;
  storedProposals : list Proposal;
  getLedgerByHash : Z -> option Ledger;
  anyTransactions : bool;
  initialSet : SHAMap;
  txExists : Z -> bool;
  openParent : Z;
  nodeID : Z
}.

Definition handleLCL (e : Env) (lclHash : Z) (s : State) : result State :=
  _ ← throw_if (negb (negb (lclHash =? mPrevLedgerHash s) ||
                      negb (hash (mPreviousLedger s) =? lclHash))) "assertion";
  s ← (if negb (mPrevLedgerHash s =? lclHash) then
         let s := set_mPrevLedgerHash lclHash s in
         s ← (match mOurPosition s with
              | Some p =>
                  if (mHaveCorrectLCL s && mProposing s)%bool
                  then propose (set_mOurPosition (Some (LedgerProposal.bowOut (now e) p)) s)
                  else Ok s
              | None => Ok s
              end);
         let s := set_mProposing false s in
         let s := set_mPeerPositions ∅ s in
         let s := set_mDisputes ∅ s in
         let s := set_mCloseTimes ∅ s in
         let s := set_mDeadNodes ∅ s in
         Ok (playbackProposals (getSet e) (storedProposals e) s)
       else Ok s);
  if hash (mPreviousLedger s) =? mPrevLedgerHash s then Ok s
  else
    match getLedgerByHash e (mPrevLedgerHash s) with
    | None =>
        if negb (mAcquiringLedger s =? lclHash) then
          let s := set_mAcquiringLedger (mPrevLedgerHash s) s in
          Ok (set_mHaveCorrectLCL false (emit (AcquireLedger (mPrevLedgerHash s)) s))
        else Ok s
    | Some newLCL =>
        _ ← throw_if (negb (hash newLCL =? lclHash)) "assertion";
        let s := set_mPreviousLedger newLCL s in
        let s := set_mPrevLedgerHash lclHash s in
        let s := set_mHaveCorrectLCL true s in
        r ← getNextLedgerTimeResolution (closeTimeResolution newLCL) (closeAgree newLCL)
              (u32 (seq newLCL + 1));
        Ok (set_mCloseResolution r s)
    end.

(** The ledger most validators are on; a tie goes to ours. *)
Definition favoured (prev : Z) (vals : list (Z * Z)) : Z * Z :=
  fold_left (fun '(netLgr, n) '(h, c) =>
    if ((n <? c) || ((c =? n) && (h =? prev)))%bool then (h, c) else (netLgr, n)) vals (prev, 0).

Definition checkLCL (e : Env) (s : State) : result State :=
  let netLgr := fst (favoured (mPrevLedgerHash s) (currentValidationCounts e)) in
  if negb (netLgr =? mPrevLedgerHash s) then
    handleLCL e netLgr (if mHaveCorrectLCL s then emit ViewChange s else s)
  else if negb (hash (mPreviousLedger s) =? mPrevLedgerHash s) then handleLCL e netLgr s
  else Ok s.

(** ** The timer *)

Definition closeLedger (e : Env) (s : State) : result State :=
  let s := emit CheckOurValidation s in
  let s := set_state establish s in
  let s := set_mCloseTime (getCloseTimeNC e) s in
  let s := emit (SetLastCloseTime (mCloseTime s)) s in
  let s := emit StatusClosing s in
  let s := emit ApplyHeldTransactions s in
  takeInitialPosition (relayed e) (now e) (nodeID e) s (initialSet e) (txExists e) (openParent e).

Definition statePreClose (e : Env) (s : State) : result State :=
  let proposersClosed := Z.of_nat (size (mPeerPositions s)) in
  let '(sinceClose, idleInterval) :=
    if (mHaveCorrectLCL s && closeAgree (mPreviousLedger s))%bool then
      (i32 (u32 (1000 * (getCloseTimeNC e - closeTime (mPreviousLedger s)))),
       Z.max (2 * closeTimeResolution (mPreviousLedger s)) LEDGER_IDLE_INTERVAL)
    else
      (i32 (u32 (1000 * (getCloseTimeNC e - getLastCloseTime e))), LEDGER_IDLE_INTERVAL) in
  let idleInterval := Z.max idleInterval LEDGER_IDLE_INTERVAL in
  let idleInterval := Z.max idleInterval (2 * closeTimeResolution (mPreviousLedger s)) in
  if shouldCloseLedger (anyTransactions e) (mPreviousProposers s) proposersClosed
       (trustedValidationCount e) (mPreviousMSeconds s) sinceClose (mCurrentMSeconds s) idleInterval
  then closeLedger e s
  else Ok s.

Definition timerEntry (e : Env) (s : State) : result State :=
  s ← (if (bool_decide (state_ s <> finished) && bool_decide (state_ s <> accepted))%bool
       then checkLCL e s else Ok s);
  let s := set_mCurrentMSeconds (elapsed e) s in
  let s := set_mClosePercent (Z.quot (mCurrentMSeconds s * 100) (mPreviousMSeconds s)) s in
  match state_ s with
  | open => statePreClose e s
  | establish => stateEstablish (relayed e) (now e) (nodesAfter e) s
  | finished => Ok s
  | accepted => Ok (emit (EndConsensus (mHaveCorrectLCL s)) s)
  end.

End consensus.

End Consensus.
