(* ===== verification/ConsensusInv.v ===== *)
(** * What holds throughout a consensus round

    The invariant of [Consensus.State] and its preservation by every handler:
    vote counts are exact, only peers with a current position vote, peers that
    bowed out stay out, every acquired set has the hash it is filed under, our
    own set is always at hand and contains exactly the disputed transactions we
    vote for.  No handler dereferences a null pointer, fails an assertion or
    calls [abort]. *)

From stdpp Require Import base tactics numbers list strings option gmap fin_maps.
From S2P Require Import Prelude Serializer Timing DisputedTx Consensus.

Module ConsensusInv.
Import Timing Consensus.

Section invariant.
Context {SM : SHAMapOps}.

(** ** The invariant *)

Definition dispute_ok (positions : gmap Z Proposal) (k : Z) (d : DisputedTx.t) : Prop :=
  DisputedTx.ok d /\ DisputedTx.mTransactionID d = k /\
  forall p, is_Some (DisputedTx.mVotes d !! p) -> is_Some (positions !! p).

Record base (s : State) : Prop := {
  base_disputes k d : mDisputes s !! k = Some d -> dispute_ok (mPeerPositions s) k d;
  base_positions k p : mPeerPositions s !! k = Some p ->
    LedgerProposal.mPeerID p = k /\ LedgerProposal.isBowOut p = false;
  base_dead k : k ∈ mDeadNodes s -> mPeerPositions s !! k = None;
  base_acquired h m : mAcquired s !! h = Some m -> exists m', m = Some m' /\ getHash m' = h
}.

(** Our votes are what our set says, unless we bowed out. *)
Definition votes_match (p : Proposal) (m : SHAMap) (s : State) : Prop :=
  LedgerProposal.isBowOut p = false ->
  forall k d, mDisputes s !! k = Some d -> DisputedTx.mOurVote d = hasItem m k.

Definition ours_ok (s : State) : Prop :=
  match mOurPosition s with
  | None => mDisputes s = ∅
  | Some p => exists m, mAcquired s !! LedgerProposal.mCurrentHash p = Some (Some m) /\
      votes_match p m s
  end.

Definition phase_ok (s : State) : Prop :=
  match state_ s with open => mOurPosition s = None | _ => is_Some (mOurPosition s) end.

Definition inv (s : State) : Prop := base s /\ ours_ok s /\ phase_ok s.

(** [createDisputes] and what it calls change only these members. *)
Definition disputes_only (s s' : State) : Prop :=
  s' = set_out (out s') (set_mCompares (mCompares s') (set_mDisputes (mDisputes s') s)).

Lemma disputes_only_refl s : disputes_only s s.
Proof. by destruct s. Qed.

Lemma disputes_only_trans s1 s2 s3 :
  disputes_only s1 s2 -> disputes_only s2 s3 -> disputes_only s1 s3.
Proof. unfold disputes_only. intros H1 H2. rewrite H2, H1. by destruct s1, s2, s3. Qed.

Lemma disputes_only_members s s' : disputes_only s s' ->
  mPeerPositions s' = mPeerPositions s /\ mAcquired s' = mAcquired s /\
  mOurPosition s' = mOurPosition s /\ mDeadNodes s' = mDeadNodes s /\ state_ s' = state_ s.
Proof. intros ->. done. Qed.

(** ** Creating disputes *)

(** The votes a new dispute starts with. *)
Lemma initial_votes (acq : Z -> option SHAMap) k tx ours (positions : gmap Z Proposal) :
  let txn := map_fold (fun peer p txn =>
    match acq (LedgerProposal.mCurrentHash p) with
    | Some m => DisputedTx.setVote peer (hasItem m k) txn
    | None => txn
    end) (DisputedTx.make k tx ours) positions in
  DisputedTx.ok txn /\ DisputedTx.mTransactionID txn = k /\ DisputedTx.mOurVote txn = ours /\
  forall p, DisputedTx.mVotes txn !! p =
    pos ← positions !! p; m ← acq (LedgerProposal.mCurrentHash pos); Some (hasItem m k).
Proof.
  cbv zeta. apply (map_fold_weak_ind (fun txn positions =>
    DisputedTx.ok txn /\ DisputedTx.mTransactionID txn = k /\ DisputedTx.mOurVote txn = ours /\
    forall p, DisputedTx.mVotes txn !! p =
      pos ← positions !! p; m ← acq (LedgerProposal.mCurrentHash pos); Some (hasItem m k))).
  - split_and!; [apply DisputedTx.make_ok|done..|]. intros p. by rewrite lookup_empty.
  - intros i x m txn Hi (Hok & Hid & Ho & Hv).
    destruct (acq (LedgerProposal.mCurrentHash x)) as [mm|] eqn:Ha.
    + rewrite DisputedTx.setVote_id, DisputedTx.setVote_ours, DisputedTx.setVote_votes.
      split_and!; [by apply DisputedTx.setVote_ok|done..|]. intros p.
      destruct (decide (p = i)) as [->|].
      * rewrite !lookup_insert_eq. simpl. by rewrite Ha.
      * rewrite !lookup_insert_ne by done. apply Hv.
    + split_and!; [done..|]. intros p. rewrite Hv. destruct (decide (p = i)) as [->|].
      * rewrite lookup_insert_eq, Hi. simpl. by rewrite Ha.
      * by rewrite lookup_insert_ne.
Qed.

Lemma addDisputedTransaction_ok relayed s k tx p m : base s -> mOurPosition s = Some p ->
  mAcquired s !! LedgerProposal.mCurrentHash p = Some (Some m) -> votes_match p m s ->
  wp (addDisputedTransaction relayed s k tx)
    (fun s' => disputes_only s s' /\ base s' /\ votes_match p m s') (fun _ => False).
Proof.
  intros Hb Ho Ha Hv. unfold addDisputedTransaction. destruct (mDisputes s !! k) eqn:Hk.
  { split_and!; [apply disputes_only_refl|done..]. }
  rewrite Ho, Ha. simpl.
  pose proof (initial_votes (acquired_set s) k tx (hasItem m k) (mPeerPositions s)) as Hi.
  cbv zeta in Hi. set (txn := map_fold _ _ _) in *. destruct Hi as (Hok & Hid & Hours & Hvotes).
  assert (forall s', s' = set_mDisputes (<[k := txn]> (mDisputes s)) s \/
    s' = emit (RelayTx k) (set_mDisputes (<[k := txn]> (mDisputes s)) s) ->
    disputes_only s s' /\ base s' /\ votes_match p m s') as Hfin.
  { intros s' Hs'. assert (disputes_only s s') as Hd by (destruct Hs' as [->| ->]; by destruct s).
    assert (mDisputes s' = <[k := txn]> (mDisputes s)) as Hds by (destruct Hs' as [->| ->]; done).
    destruct (disputes_only_members _ _ Hd) as (Hp & Hac & _ & Hdead & _). destruct Hb as [B1 B2 B3 B4].
    split_and!; [done| |].
    - constructor; rewrite ?Hp, ?Hac, ?Hdead, ?Hds; [|done..]. intros k' d Hk'.
      apply lookup_insert_Some in Hk' as [[<- <-]|[_ Hk']]; [|by apply B1].
      split_and!; [done..|]. intros q Hq. rewrite Hvotes in Hq.
      destruct (mPeerPositions s !! q); [done|]. by destruct Hq.
    - intros Hbow k' d. rewrite Hds. intros [[<- <-]|[_ Hk']]%lookup_insert_Some; [done|by apply Hv]. }
  destruct (relayed k); simpl; apply Hfin; auto.
Qed.

Context {SL : SHAMapLaws SM}.

Lemma createDisputes_ok relayed s m1 m2 p m : base s -> mOurPosition s = Some p ->
  mAcquired s !! LedgerProposal.mCurrentHash p = Some (Some m) -> votes_match p m s ->
  wp (createDisputes relayed s m1 m2)
    (fun s' => disputes_only s s' /\ base s' /\ votes_match p m s') (fun _ => False).
Proof.
  intros Hb Ho Ha Hv. unfold createDisputes. case_if; [split_and!; [apply disputes_only_refl|done..]|].
  apply foldM_wp; [|split_and!; [apply disputes_only_refl|done..]].
  intros s' [k [a b]] Hin (Hd & Hb' & Hv'). destruct (disputes_only_members _ _ Hd) as (_ & Hac & Hop & _).
  assert (forall tx, wp (addDisputedTransaction relayed s' k tx)
    (fun s'' => disputes_only s s'' /\ base s'' /\ votes_match p m s'') (fun _ => False)) as Hadd.
  { intros tx. eapply wp_mono; [apply (addDisputedTransaction_ok _ _ _ _ p m); (done || congruence)| |done].
    intros s'' (? & ? & ?). split_and!; [by eapply disputes_only_trans|done..]. }
  destruct (compare_sided _ _ _ _ _ Hin) as [[[x ->] ->]|[-> [x ->]]]; apply Hadd.
Qed.

(** ** Transaction sets *)

Lemma setVotes_ok positions k d (peers : list Z) v : dispute_ok positions k d ->
  (forall p, p ∈ peers -> is_Some (positions !! p)) ->
  let d' := fold_left (fun d p => DisputedTx.setVote p v d) peers d in
  dispute_ok positions k d' /\ DisputedTx.mOurVote d' = DisputedTx.mOurVote d /\
  forall p, DisputedTx.mVotes d' !! p =
    if bool_decide (p ∈ peers) then Some v else DisputedTx.mVotes d !! p.
Proof.
  revert d. induction peers as [|q peers IH]; intros d Hd Hp; simpl; [done|].
  assert (dispute_ok positions k (DisputedTx.setVote q v d)) as Hd'.
  { destruct Hd as (Hok & Hid & Hv). unfold dispute_ok.
    rewrite DisputedTx.setVote_id, DisputedTx.setVote_votes.
    split_and!; [by apply DisputedTx.setVote_ok|done|]. intros x.
    rewrite lookup_insert_is_Some. intros [<-|[_ ?]]; [apply Hp; by left|auto]. }
  destruct (IH _ Hd') as (H1 & H2 & H3); [intros x Hx; apply Hp; by right|].
  rewrite DisputedTx.setVote_ours in H2. rewrite DisputedTx.setVote_votes in H3.
  split_and!; [done..|]. intros x. rewrite H3. destruct (decide (x ∈ peers)) as [Hx|Hx].
  - rewrite !bool_decide_true by (done || by right). done.
  - rewrite (bool_decide_false _ Hx). destruct (decide (x = q)) as [->|Hne].
    + rewrite lookup_insert_eq, bool_decide_true by by left. done.
    + rewrite lookup_insert_ne, bool_decide_false; [done| |done].
      intros [->|]%elem_of_cons; done.
Qed.

Lemma peers_at_spec s h q : base s ->
  q ∈ peers_at s h <-> exists p, mPeerPositions s !! q = Some p /\ LedgerProposal.mCurrentHash p = h.
Proof.
  intros Hb. unfold peers_at. rewrite list_elem_of_fmap. split.
  - intros ([k p] & -> & Hin). apply list_elem_of_filter in Hin as [Hh Hin].
    apply elem_of_map_to_list in Hin. destruct (base_positions s Hb _ _ Hin) as [Hid _].
    simpl in *. exists p. by rewrite Hid.
  - intros (p & Hp & Hh). exists (q, p). destruct (base_positions s Hb _ _ Hp) as [Hid _].
    split; [simpl; by rewrite Hid|]. apply list_elem_of_filter. split; [done|]. by apply elem_of_map_to_list.
Qed.

(** Replacing the disputes, the rest unchanged. *)
Lemma base_set_disputes D s : base s ->
  (forall k d, D !! k = Some d -> dispute_ok (mPeerPositions s) k d) -> base (set_mDisputes D s).
Proof. intros [B1 B2 B3 B4] HD. by constructor. Qed.

Lemma adjustCount_ok s map peers : base s ->
  (forall q, q ∈ peers -> is_Some (mPeerPositions s !! q)) ->
  base (adjustCount s map peers) /\
  (forall p m, votes_match p m s -> votes_match p m (adjustCount s map peers)) /\
  forall k d, mDisputes (adjustCount s map peers) !! k = Some d -> forall q, q ∈ peers ->
    DisputedTx.mVotes d !! q = Some (hasItem map k).
Proof.
  intros Hb Hp. unfold adjustCount. split_and!.
  - apply base_set_disputes; [done|]. intros k d Hd. rewrite lookup_fmap in Hd.
    destruct (mDisputes s !! k) as [d0|] eqn:Hk; [|done]. injection Hd as <-.
    by apply setVotes_ok; [apply Hb|].
  - intros p m Hv Hbow k d. simpl. rewrite lookup_fmap.
    destruct (mDisputes s !! k) as [d0|] eqn:Hk; [|done]. intros [= <-].
    pose proof (base_disputes s Hb _ _ Hk) as Hd0.
    destruct (setVotes_ok _ k d0 peers (hasItem map (DisputedTx.mTransactionID d0)) Hd0 Hp)
      as (_ & -> & _). by apply Hv.
  - intros k d. simpl. rewrite lookup_fmap.
    destruct (mDisputes s !! k) as [d0|] eqn:Hk; [|done]. intros [= <-] q Hq.
    pose proof (base_disputes s Hb _ _ Hk) as Hd0.
    destruct (setVotes_ok _ k d0 peers (hasItem map (DisputedTx.mTransactionID d0)) Hd0 Hp)
      as (_ & _ & ->). rewrite bool_decide_true by done. by destruct Hd0 as (_ & -> & _).
Qed.

(** The end of [mapCompleteInternal]: the set is filed and the peers at it vote. *)
Definition file_set (s : State) (h : Z) (map : SHAMap) : State :=
  let s := set_mAcquired (<[h := Some map]> (mAcquired s)) s in
  match peers_at s (getHash map) with [] => s | _ => adjustCount s map (peers_at s (getHash map)) end.

Lemma file_set_ok s h map : base s -> getHash map = h ->
  base (file_set s h map) /\
  mOurPosition (file_set s h map) = mOurPosition s /\ state_ (file_set s h map) = state_ s /\
  mPeerPositions (file_set s h map) = mPeerPositions s /\
  mAcquired (file_set s h map) = <[h := Some map]> (mAcquired s) /\
  (mDisputes s = ∅ -> mDisputes (file_set s h map) = ∅) /\
  (forall p m, votes_match p m s -> votes_match p m (file_set s h map)) /\
  forall k d q p, mDisputes (file_set s h map) !! k = Some d -> mPeerPositions s !! q = Some p ->
    LedgerProposal.mCurrentHash p = h -> DisputedTx.mVotes d !! q = Some (hasItem map k).
Proof.
  intros Hb Hh. unfold file_set. set (s1 := set_mAcquired _ s).
  assert (base s1) as Hb1.
  { destruct Hb as [B1 B2 B3 B4]. constructor; [done..|]. simpl. intros h' m.
    intros [[<- <-]|[_ ?]]%lookup_insert_Some; [by exists map|eauto]. }
  assert (forall q, q ∈ peers_at s1 (getHash map) -> is_Some (mPeerPositions s1 !! q)) as Hpeers.
  { intros q (p & Hp & _)%peers_at_spec; [by rewrite Hp|done]. }
  destruct (adjustCount_ok s1 map (peers_at s1 (getHash map)) Hb1 Hpeers) as (A1 & A2 & A3).
  destruct (peers_at s1 (getHash map)) as [|q0 qs] eqn:Hq.
  - split_and!; try done. intros k d q p _ Hp Hph. exfalso.
    assert (q ∈ peers_at s1 (getHash map)) as Hin.
    { apply peers_at_spec; [done|]. exists p. split; [done|congruence]. }
    rewrite Hq in Hin. by apply elem_of_nil in Hin.
  - split_and!; try done.
    + intros He. unfold adjustCount. simpl. rewrite He. apply fmap_empty.
    + intros k d q p Hk Hp Hph. apply (A3 _ _ Hk). rewrite <- Hq. apply peers_at_spec; [done|].
      exists p. split; [done|congruence].
Qed.

Lemma acquired_some s h : base s ->
  mAcquired s !! h = None \/ exists m, mAcquired s !! h = Some (Some m) /\ getHash m = h.
Proof.
  intros Hb. destruct (mAcquired s !! h) as [m|] eqn:Hm; [right|by left].
  destruct (base_acquired s Hb _ _ Hm) as (m' & -> & ?). by exists m'.
Qed.

(** States that differ only in what was sent. *)
Lemma base_emit a s : base s -> base (emit a s).
Proof. intros [B1 B2 B3 B4]. by constructor. Qed.

Lemma base_compares c s : base s -> base (set_mCompares c s).
Proof. intros [B1 B2 B3 B4]. by constructor. Qed.

(** A new set is filed, with disputes against ours where it differs. *)
Lemma mapComplete_new relayed s h map acquired : base s -> ours_ok s -> getHash map = h ->
  mAcquired s !! h = None ->
  wp (mapCompleteInternal relayed s h (Some map) acquired)
    (fun s' => base s' /\ ours_ok s' /\ mOurPosition s' = mOurPosition s /\ state_ s' = state_ s /\
       mPeerPositions s' = mPeerPositions s /\ mAcquired s' = <[h := Some map]> (mAcquired s) /\
       forall k d q p, mDisputes s' !! k = Some d -> mPeerPositions s' !! q = Some p ->
         LedgerProposal.mCurrentHash p = h -> DisputedTx.mVotes d !! q = Some (hasItem map k))
    (fun _ => False).
Proof.
  intros Hb Ho Hh Hnew. unfold mapCompleteInternal. rewrite (proj2 (Z.eqb_eq h (getHash map))) by done.
  unfold throw_if. cbn [negb mbind result_bind]. rewrite Hnew. cbv iota beta zeta.
  set (s1 := emit (HaveTxSet h) _).
  assert (base s1) as Hb1 by (apply base_emit; destruct acquired; [done|by apply base_emit]).
  assert (mOurPosition s1 = mOurPosition s /\ state_ s1 = state_ s /\ mAcquired s1 = mAcquired s /\
    mPeerPositions s1 = mPeerPositions s /\ mDisputes s1 = mDisputes s)
    as (E1 & E2 & E3 & E4 & E5) by (unfold s1; by destruct acquired).
  clearbody s1.
  apply wp_bind.
  apply (wp_mono _ (fun s' => base s' /\ mOurPosition s' = mOurPosition s /\ state_ s' = state_ s /\
    mAcquired s' = mAcquired s /\ mPeerPositions s' = mPeerPositions s /\
    match mOurPosition s with
    | None => mDisputes s' = ∅
    | Some p => exists m, mAcquired s !! LedgerProposal.mCurrentHash p = Some (Some m) /\ votes_match p m s'
    end) _ (fun _ => False)); [| |done].
  - unfold ours_ok in Ho. rewrite E1. destruct (mOurPosition s) as [p|] eqn:Hp; [|split_and!; (done || congruence)].
    destruct Ho as (m & Hm & Hv).
    assert (votes_match p m s1) as Hv1 by (intros Hbow k d; rewrite E5; by apply Hv).
    destruct (negb (LedgerProposal.isBowOut p) && _)%bool; [|split_and!; eauto].
    rewrite E3, Hm.
    eapply wp_mono; [apply (createDisputes_ok _ (set_mCompares _ s1) _ _ p m);
      [by apply base_compares|done|by simpl; rewrite E3|done]| |done].
    intros s' (Hd & Hb' & Hv'). apply disputes_only_members in Hd as (D1 & D2 & D3 & D4 & D5).
    simpl in *. split_and!; try congruence. by exists m.
  - intros s' (Hb' & O1 & O2 & O3 & O4 & O5).
    destruct (file_set_ok s' h map Hb' Hh) as (F1 & F2 & F3 & F4 & F5 & F6 & F7 & F8).
    match goal with |- wp _ ?Q _ => change (Q (file_set s' h map)) end. cbv beta. split_and!; try congruence.
    + unfold ours_ok. rewrite F2, O1. destruct (mOurPosition s) as [p|]; [|auto].
      destruct O5 as (m & Hm & Hv). exists m. rewrite F5, O3, lookup_insert_ne by congruence. auto.
    + rewrite F4. eauto.
Qed.

Lemma mapComplete_ok relayed s h map acquired : base s -> ours_ok s -> getHash map = h ->
  wp (mapCompleteInternal relayed s h (Some map) acquired)
    (fun s' => base s' /\ ours_ok s' /\ mOurPosition s' = mOurPosition s /\ state_ s' = state_ s /\
       mPeerPositions s' = mPeerPositions s /\
       exists m, mAcquired s' !! h = Some (Some m) /\ getHash m = h)
    (fun _ => False).
Proof.
  intros Hb Ho Hh. destruct (acquired_some s h Hb) as [Hnew|(m & Hm & Hmh)].
  - eapply wp_mono; [by apply mapComplete_new| |done].
    intros s' (? & ? & ? & ? & ? & Hac & _). split_and!; [done..|].
    exists map. by rewrite Hac, lookup_insert_eq.
  - unfold mapCompleteInternal. rewrite (proj2 (Z.eqb_eq h (getHash map))) by done.
    unfold throw_if. cbn [negb mbind result_bind]. rewrite Hm. simpl. split_and!; eauto.
Qed.

(** The set of a position just taken. *)
Lemma mapComplete_own relayed s p map : base s -> mOurPosition s = Some p ->
  getHash map = LedgerProposal.mCurrentHash p -> votes_match p map s ->
  wp (mapCompleteInternal relayed s (LedgerProposal.mCurrentHash p) (Some map) false)
    (fun s' => base s' /\ ours_ok s' /\ mOurPosition s' = Some p /\ state_ s' = state_ s)
    (fun _ => False).
Proof.
  intros Hb Ho Hh Hv. unfold mapCompleteInternal. rewrite (proj2 (Z.eqb_eq _ (getHash map))) by done.
  unfold throw_if. cbn [negb mbind result_bind].
  destruct (acquired_some s (LedgerProposal.mCurrentHash p) Hb) as [Hnew|(m & Hm & Hmh)].
  - rewrite Hnew. cbv iota beta zeta. set (s1 := emit (HaveTxSet _) _).
    assert (base s1) as Hb1 by (by apply base_emit, base_emit).
    assert (mOurPosition s1 = Some p /\ state_ s1 = state_ s /\ votes_match p map s1)
      as (E1 & E2 & E3) by done.
    clearbody s1. rewrite E1, Z.eqb_refl, andb_false_r. cbn [mbind result_bind].
    destruct (file_set_ok s1 _ map Hb1 Hh) as (F1 & F2 & F3 & F4 & F5 & F6 & F7 & F8).
    match goal with |- wp _ ?Q _ =>
      change (Q (file_set s1 (LedgerProposal.mCurrentHash p) map)) end. cbv beta.
    split_and!; try congruence. unfold ours_ok. rewrite F2, E1. exists map.
    rewrite F5, lookup_insert_eq. auto.
  - rewrite Hm. simpl. split_and!; try done. unfold ours_ok. rewrite Ho. exists m. split; [done|].
    intros Hbow k d Hd. rewrite (Hv Hbow k d Hd). apply getHash_inj. congruence.
Qed.

(** ** Proposals *)

Definition getSet_ok (getSet : Z -> option SHAMap) : Prop :=
  forall h m, getSet h = Some m -> getHash m = h.

Lemma unVote_dispute_ok positions k d q : dispute_ok positions k d ->
  dispute_ok (delete q positions) k (DisputedTx.unVote q d).
Proof.
  intros (Hok & Hid & Hv). unfold dispute_ok. rewrite DisputedTx.unVote_id, DisputedTx.unVote_votes.
  split_and!; [by apply DisputedTx.unVote_ok|done|]. intros x.
  rewrite !lookup_delete_is_Some. intros [? ?]. auto.
Qed.

Lemma setVote_dispute_ok positions k d q p v : dispute_ok positions k d ->
  dispute_ok (<[q := p]> positions) k (DisputedTx.setVote q v d).
Proof.
  intros (Hok & Hid & Hv). unfold dispute_ok. rewrite DisputedTx.setVote_id, DisputedTx.setVote_votes.
  split_and!; [by apply DisputedTx.setVote_ok|done|]. intros x.
  rewrite !lookup_insert_is_Some. intros [?|[? ?]]; [by left|right; auto].
Qed.

Lemma weaken_dispute_ok positions k d q p : dispute_ok positions k d ->
  dispute_ok (<[q := p]> positions) k d.
Proof.
  intros (Hok & Hid & Hv). split_and!; [done..|]. intros x Hx. rewrite lookup_insert_is_Some.
  destruct (decide (q = x)); [by left|right; auto].
Qed.

(** Our position is untouched when the votes of others change and sets are added. *)
Lemma ours_ok_frame s s' : ours_ok s -> mOurPosition s' = mOurPosition s ->
  (forall h m, mAcquired s !! h = Some (Some m) -> mAcquired s' !! h = Some (Some m)) ->
  (forall k d', mDisputes s' !! k = Some d' ->
     exists d, mDisputes s !! k = Some d /\ DisputedTx.mOurVote d' = DisputedTx.mOurVote d) ->
  ours_ok s'.
Proof.
  unfold ours_ok. intros Ho E1 Ha Hd. rewrite E1. destruct (mOurPosition s) as [p|].
  - destruct Ho as (m & Hm & Hv). exists m. split; [auto|]. intros Hbow k d' Hk.
    destruct (Hd _ _ Hk) as (d & Hdk & ->). by apply Hv.
  - apply map_empty. intros k. destruct (mDisputes s' !! k) as [d'|] eqn:Hk; [|done].
    destruct (Hd _ _ Hk) as (d & Hdk & _). by rewrite Ho in Hdk.
Qed.

(** Filing a position under its peer, possibly with the set it names. *)
Lemma base_position s p (acq : option SHAMap) : base s ->
  LedgerProposal.isBowOut p = false -> LedgerProposal.mPeerID p ∉ mDeadNodes s ->
  (forall m, acq = Some m -> getHash m = LedgerProposal.mCurrentHash p) ->
  forall s', mPeerPositions s' = <[LedgerProposal.mPeerID p := p]> (mPeerPositions s) ->
  mDeadNodes s' = mDeadNodes s ->
  mAcquired s' = match acq with
                 | Some m => <[LedgerProposal.mCurrentHash p := Some m]> (mAcquired s)
                 | None => mAcquired s
                 end ->
  (forall k d', mDisputes s' !! k = Some d' ->
     exists d, mDisputes s !! k = Some d /\
       (d' = d \/ exists v, d' = DisputedTx.setVote (LedgerProposal.mPeerID p) v d)) ->
  base s'.
Proof.
  intros [B1 B2 B3 B4] Hbow Hdead Hacq s' Ep Ed Ea Edis. constructor.
  - intros k d' Hk. rewrite Ep. destruct (Edis _ _ Hk) as (d & Hd & [->|[v ->]]).
    + by apply weaken_dispute_ok, B1.
    + by apply setVote_dispute_ok, B1.
  - intros k q. rewrite Ep. intros [[<- <-]|[_ ?]]%lookup_insert_Some; [done|auto].
  - intros k Hk. rewrite Ed in Hk. rewrite Ep, lookup_insert_ne; [auto|]. by intros <-.
  - intros h m. rewrite Ea. destruct acq as [m0|]; [|auto].
    intros [[<- <-]|[_ ?]]%lookup_insert_Some; [|eauto]. exists m0. auto.
Qed.

Lemma peerPosition_ok getSet s p : base s -> ours_ok s -> getSet_ok getSet ->
  let s' := snd (peerPosition getSet s p) in
  base s' /\ ours_ok s' /\ mOurPosition s' = mOurPosition s /\ state_ s' = state_ s /\
  mPrevLedgerHash s' = mPrevLedgerHash s.
Proof.
  intros Hb Ho Hg. unfold peerPosition. case_bool_decide as Hdead; [done|].
  match goal with |- context [if ?c then (false, s) else _] => destruct c; [done|] end.
  destruct (LedgerProposal.isBowOut p) eqn:Hbow; cbv zeta.
  - simpl. split_and!; try done.
    + destruct Hb as [B1 B2 B3 B4]. constructor; simpl; [| | |done].
      * intros k d. rewrite lookup_fmap. destruct (mDisputes s !! k) as [d0|] eqn:Hk; [|done].
        intros [= <-]. by apply unVote_dispute_ok, B1.
      * intros k q [_ ?]%lookup_delete_Some. auto.
      * intros k [->%elem_of_singleton|Hk]%elem_of_union; [apply lookup_delete_eq|].
        destruct (decide (LedgerProposal.mPeerID p = k)) as [<-|]; [apply lookup_delete_eq|].
        rewrite lookup_delete_ne by done. auto.
    + apply (ours_ok_frame s); try done. intros k d'. simpl. rewrite lookup_fmap.
      destruct (mDisputes s !! k) as [d0|] eqn:Hk; [|done]. intros [= <-].
      exists d0. by rewrite DisputedTx.unVote_ours.
  - set (s1 := if LedgerProposal.isInitial p then _ else _).
    assert (exists c, s1 = set_mCloseTimes c s) as [c Hs1].
    { unfold s1. destruct (LedgerProposal.isInitial p); [by eexists|]. exists (mCloseTimes s). by destruct s. }
    clearbody s1. subst s1. unfold getTransactionTree.
    change (acquired_set (set_mPeerPositions _ _) _) with
      (acquired_set s (LedgerProposal.mCurrentHash p)).
    unfold acquired_set. destruct (acquired_some s (LedgerProposal.mCurrentHash p) Hb)
      as [Hnew|(m & Hm & Hmh)].
    + rewrite Hnew. simpl. destruct (getSet (LedgerProposal.mCurrentHash p)) as [m|] eqn:Hset; simpl.
      * split_and!; try done.
        -- apply (base_position s p (Some m)); try done; [by intros ? [= <-]; apply Hg|].
           simpl. intros k d'. rewrite map_lookup_imap. destruct (mDisputes s !! k) as [d|] eqn:Hk; [|done].
           intros [= <-]. eauto.
        -- apply (ours_ok_frame s); try done; simpl.
           ++ intros h m' Hm'. rewrite lookup_insert_ne; [done|]. intros <-. congruence.
           ++ intros k d'. rewrite map_lookup_imap. destruct (mDisputes s !! k) as [d|] eqn:Hk; [|done].
              intros [= <-]. exists d. by rewrite DisputedTx.setVote_ours.
      * split_and!; try done. apply (base_position s p None); try done. eauto.
    + rewrite Hm. simpl. split_and!; try done.
      * apply (base_position s p None); try done. simpl. intros k d'. rewrite map_lookup_imap.
        destruct (mDisputes s !! k) as [d|] eqn:Hk; [|done]. intros [= <-]. eauto.
      * apply (ours_ok_frame s); try done. simpl. intros k d'. rewrite map_lookup_imap.
        destruct (mDisputes s !! k) as [d|] eqn:Hk; [|done]. intros [= <-].
        exists d. by rewrite DisputedTx.setVote_ours.
Qed.

Lemma playback_ok getSet stored s : base s -> ours_ok s -> getSet_ok getSet ->
  let s' := playbackProposals getSet stored s in
  base s' /\ ours_ok s' /\ mOurPosition s' = mOurPosition s /\ state_ s' = state_ s /\
  mPrevLedgerHash s' = mPrevLedgerHash s.
Proof.
  intros Hb Ho Hg. unfold playbackProposals. revert s Hb Ho.
  induction stored as [|p stored IH]; intros s Hb Ho; simpl; [done|].
  destruct (LedgerProposal.isPrevLedger _ p); [|by apply IH].
  destruct (peerPosition_ok getSet s p Hb Ho Hg) as (H1 & H2 & H3 & H4 & H5).
  destruct (IH _ H1 H2) as (K1 & K2 & K3 & K4 & K5). split_and!; congruence.
Qed.

(** ** Our position *)

Lemma sweep_ok cutoff res l positions disputes ct :
  (forall k p, (k, p) ∈ l -> LedgerProposal.mPeerID p = k) ->
  (forall k d, disputes !! k = Some d -> dispute_ok positions k d) ->
  let '(positions', disputes', _) := fold_left (sweep cutoff res) l (positions, disputes, ct) in
  (forall k p, positions' !! k = Some p -> positions !! k = Some p) /\
  (forall k d', disputes' !! k = Some d' -> dispute_ok positions' k d' /\
     exists d, disputes !! k = Some d /\ DisputedTx.mOurVote d' = DisputedTx.mOurVote d).
Proof.
  revert positions disputes ct. induction l as [|[q p] l IH]; intros positions disputes ct Hl Hd; simpl.
  { split; [done|]. intros k d Hk. split; [auto|by exists d]. }
  assert (forall k p, (k, p) ∈ l -> LedgerProposal.mPeerID p = k) as Hl' by (intros ?? ?; apply Hl; by right).
  destruct (LedgerProposal.isStale cutoff p).
  - rewrite (Hl q p) by by left.
    specialize (IH (delete q positions) (DisputedTx.unVote q <$> disputes) ct Hl').
    destruct (fold_left _ _ _) as [[positions' disputes'] ct']. destruct IH as [IH1 IH2].
    { intros k d. rewrite lookup_fmap. destruct (disputes !! k) as [d0|] eqn:Hk; [|done].
      intros [= <-]. by apply unVote_dispute_ok, Hd. }
    split; [intros k p' Hk; by apply IH1, lookup_delete_Some in Hk as [_ ?]|].
    intros k d' Hk. destruct (IH2 k d' Hk) as (Hok & d & Hdk & Hv). split; [done|].
    rewrite lookup_fmap in Hdk. destruct (disputes !! k) as [d0|]; [|done]. injection Hdk as <-.
    exists d0. by rewrite Hv, DisputedTx.unVote_ours.
  - by apply IH.
Qed.

Lemma updateVote_dispute_ok positions k d pct prop : dispute_ok positions k d ->
  dispute_ok positions k (snd (DisputedTx.updateVote pct prop d)).
Proof.
  intros (Hok & Hid & Hv). pose proof (DisputedTx.updateVote_ok pct prop d Hok) as Hok'.
  unfold DisputedTx.updateVote in *. repeat case_match; done.
Qed.

(** The votes and the set stay in step ([H] says when they were). *)
Lemma revote_ok (H : Prop) positions pct prop m0 l D cur : NoDup l.*1 ->
  (forall k d, (k, d) ∈ l -> D !! k = Some d) ->
  (forall k d, D !! k = Some d -> dispute_ok positions k d /\
     (H -> DisputedTx.mOurVote d = hasItem (default m0 cur) k)) ->
  wp (foldM (revote pct prop (Some m0)) (D, cur) l)
    (fun '(D', cur') => forall k d, D' !! k = Some d -> dispute_ok positions k d /\
       (H -> DisputedTx.mOurVote d = hasItem (default m0 cur') k)) (fun _ => False).
Proof.
  revert D cur. induction l as [|[k d] l IH]; intros D cur Hnd Hl HD; simpl; [done|].
  apply NoDup_cons in Hnd as [Hk Hnd]. pose proof (Hl k d ltac:(by left)) as HDk.
  assert (forall k' d', (k', d') ∈ l -> k' <> k) as Hne.
  { intros k' d' Hin ->. apply Hk. apply list_elem_of_fmap. by exists (k, d'). }
  destruct (DisputedTx.updateVote pct prop d) as [changed d'] eqn:Hu.
  destruct (HD k d HDk) as [Hok _].
  pose proof (updateVote_dispute_ok positions k d pct prop Hok) as Hok'. rewrite Hu in Hok'.
  destruct changed; simpl.
  - assert (match cur with Some m => Ok m | None => Ok m0 end = Ok (default m0 cur)) as ->
      by by destruct cur.
    simpl. apply IH; [done| |].
    + intros k' d'' Hin. rewrite lookup_insert_ne; [apply Hl; by right|]. intros <-. by eapply Hne.
    + intros k' d'' [[<- <-]|[Hkk Hin]]%lookup_insert_Some; (split; [|]).
      * done.
      * intros _. simpl. destruct (DisputedTx.mOurVote d').
        -- by rewrite hasItem_add, bool_decide_true.
        -- by rewrite hasItem_del, bool_decide_true.
      * by apply (HD k' d'').
      * intros HH. simpl. destruct (HD k' d'' Hin) as [_ Hm]. rewrite (Hm HH).
        destruct (DisputedTx.mOurVote d').
        -- by rewrite hasItem_add, bool_decide_false.
        -- by rewrite hasItem_del, bool_decide_false.
  - apply IH; [done| |done]. intros k' d'' Hin. apply Hl. by right.
Qed.

(** Members that only pace the round. *)
Lemma base_haveCloseTime b s : base s -> base (set_mHaveCloseTimeConsensus b s).
Proof. intros [B1 B2 B3 B4]. by constructor. Qed.

Lemma propose_ok s p : mOurPosition s = Some p -> propose s = Ok (emit (Propose p) s).
Proof. intros H. unfold propose. by rewrite H. Qed.

(** The last part of [updateOurPositions]: the new position, if there is one. *)
Lemma newPosition_ok relayed now closeTime s p m0 (new : option SHAMap) : base s ->
  mOurPosition s = Some p -> mAcquired s !! LedgerProposal.mCurrentHash p = Some (Some m0) ->
  votes_match p (default m0 new) s ->
  wp (match new with
      | None => Ok s
      | Some m =>
          let newHash := getHash m in
          let '(stands, our) := LedgerProposal.changePosition newHash closeTime now p in
          if stands : bool then
            let s := set_mOurPosition (Some our) s in
            s ← (if mProposing s then propose s else Ok s);
            mapCompleteInternal relayed s newHash (Some m) false
          else Ok s
      end)
    (fun s' => base s' /\ ours_ok s' /\ is_Some (mOurPosition s') /\ state_ s' = state_ s)
    (fun _ => False).
Proof.
  intros Hb Ho Ha Hv. destruct new as [m|]; simpl in Hv; cbv zeta.
  - unfold LedgerProposal.changePosition. destruct (_ =? _) eqn:Hleave.
    + simpl. split_and!; [done| |by rewrite Ho|done]. unfold ours_ok. rewrite Ho. exists m0.
      split; [done|]. intros Hbow. unfold LedgerProposal.isBowOut in Hbow. congruence.
    + set (p' := LedgerProposal.mk _ _ _ _ _ _).
      assert (exists s1, (if mProposing (set_mOurPosition (Some p') s)
          then propose (set_mOurPosition (Some p') s) else Ok (set_mOurPosition (Some p') s)) = Ok s1 /\
        base s1 /\ mOurPosition s1 = Some p' /\ state_ s1 = state_ s /\ mDisputes s1 = mDisputes s)
        as (s1 & -> & Hb1 & Ho1 & Hs1 & Hd1).
      { assert (base (set_mOurPosition (Some p') s)) by (destruct Hb; by constructor).
        destruct (mProposing _); [rewrite (propose_ok _ p') by done|]; eexists; split_and!; try done.
        by apply base_emit. }
      simpl. change (getHash m) with (LedgerProposal.mCurrentHash p').
      eapply wp_mono; [apply mapComplete_own; [done..|]| |done].
      * intros _ k d Hk. rewrite Hd1 in Hk. by apply Hv.
      * intros s' (? & ? & Hos & ?). split_and!; [done|done|by rewrite Hos|congruence].
  - split_and!; [done| |by rewrite Ho|done]. unfold ours_ok. rewrite Ho. eauto.
Qed.

Lemma updateOurPositions_ok relayed now s p : base s -> ours_ok s -> mOurPosition s = Some p ->
  wp (updateOurPositions relayed now s)
    (fun s' => base s' /\ ours_ok s' /\ is_Some (mOurPosition s') /\ state_ s' = state_ s)
    (fun _ => False).
Proof.
  intros Hb Ho Hp. unfold ours_ok in Ho. rewrite Hp in Ho. destruct Ho as (m0 & Hm0 & Hv).
  unfold updateOurPositions.
  pose proof (sweep_ok (now - PROPOSE_FRESHNESS * 1000) (mCloseResolution s)
    (map_to_list (mPeerPositions s)) (mPeerPositions s) (mDisputes s) []) as Hsweep.
  destruct (fold_left _ _ _) as [[positions disputes] ct]. destruct Hsweep as [Hpos Hdis].
  { intros k q Hin%elem_of_map_to_list. by apply (base_positions s Hb) in Hin as [? _]. }
  { apply Hb. }
  cbv zeta. set (s1 := set_mDisputes disputes (set_mPeerPositions positions s)).
  assert (mOurPosition s1 = Some p /\ state_ s1 = state_ s /\ mAcquired s1 = mAcquired s /\
    mDeadNodes s1 = mDeadNodes s /\ mPeerPositions s1 = positions /\ mDisputes s1 = disputes)
    as (E1 & E2 & E3 & E4 & E5 & E6) by done.
  clearbody s1. rewrite E1. cbn [deref mbind result_bind].
  assert (acquired_set s1 (LedgerProposal.mCurrentHash p) = Some m0) as ->
    by (unfold acquired_set; by rewrite E3, Hm0).
  rewrite E6. apply wp_bind.
  eapply wp_mono; [apply (revote_ok (LedgerProposal.isBowOut p = false) positions _ _ m0)| |done].
  { apply NoDup_fst_map_to_list. }
  { intros k d Hin. by apply elem_of_map_to_list in Hin. }
  { intros k d Hk. destruct (Hdis k d Hk) as (Hok & d0 & Hd0 & Hvd). split; [done|].
    intros Hbow. rewrite Hvd. by apply Hv. }
  intros [disputes' new] Hrev. cbv beta iota zeta.
  set (s2 := set_mDisputes disputes' s1).
  assert (mOurPosition s2 = Some p /\ state_ s2 = state_ s /\ mAcquired s2 = mAcquired s /\
    mDisputes s2 = disputes') as (F1 & F2 & F3 & F4) by (unfold s2; simpl; by rewrite E1, E2, E3).
  assert (base s2) as Hb2.
  { destruct Hb as [B1 B2 B3 B4]. constructor; unfold s2; simpl; rewrite ?E3, ?E4, ?E5.
    - intros k d Hk. by apply Hrev.
    - intros k q Hk. by apply B2, Hpos.
    - intros k Hk. destruct (positions !! k) as [q|] eqn:Hq; [|done].
      apply Hpos in Hq. by rewrite (B3 k Hk) in Hq.
    - done. }
  clearbody s2. destruct (closeTimeConsensus _ _ _ _ _) as [closeTime have].
  set (s3 := set_mHaveCloseTimeConsensus have s2).
  assert (mOurPosition s3 = Some p /\ state_ s3 = state_ s /\ mAcquired s3 = mAcquired s /\
    mDisputes s3 = disputes') as (G1 & G2 & G3 & G4) by done.
  assert (base s3) as Hb3 by by apply base_haveCloseTime. clearbody s3. apply wp_bind.
  match goal with |- wp ?r _ _ => assert (exists new', r = Ok new' /\ default m0 new' = default m0 new)
    as (new' & -> & Hnew') end.
  { destruct new as [m|]; [by exists (Some m)|]. destruct (_ || _)%bool; [by exists (Some m0)|by exists None]. }
  rewrite <- G2. apply (newPosition_ok _ _ _ _ _ m0); [done..| |].
  - by rewrite G3.
  - rewrite Hnew'. intros Hbow k d. rewrite G4. intros Hk. by apply (Hrev k d Hk).
Qed.

(** ** Deciding *)

Lemma votes_match_frame p m s s' : mDisputes s' = mDisputes s -> votes_match p m s -> votes_match p m s'.
Proof. intros E Hv Hbow k d. rewrite E. by apply Hv. Qed.

Lemma disputes_only_compares c s s' : disputes_only (set_mCompares c s) s' -> disputes_only s s'.
Proof. unfold disputes_only. intros H. rewrite H. by destruct s, s'. Qed.

(** Comparing with another set, as three of the handlers do. *)
Lemma compare_with relayed c s m1 m2 p m : base s -> mOurPosition s = Some p ->
  mAcquired s !! LedgerProposal.mCurrentHash p = Some (Some m) -> votes_match p m s ->
  wp (createDisputes relayed (set_mCompares c s) m1 m2)
    (fun s' => disputes_only s s' /\ base s' /\ votes_match p m s') (fun _ => False).
Proof.
  intros Hb Ho Ha Hv. eapply wp_mono; [apply (createDisputes_ok _ _ _ _ p m); [by apply base_compares|done..]| |done].
  intros s' (Hd & ? & ?). split_and!; [by eapply disputes_only_compares|done..].
Qed.

(** The peers that take part in the round, and those whose position is the set
    with hash [h]. *)
Definition proposers (l : list (NodeID * Proposal)) : list (NodeID * Proposal) :=
  filter (fun kv => LedgerProposal.isBowOut kv.2 = false) l.
Definition agreeing (h : Z) (l : list (NodeID * Proposal)) : list (NodeID * Proposal) :=
  filter (fun kv => LedgerProposal.mCurrentHash kv.2 = h) (proposers l).

Lemma countPosition_counts relayed h kv agree disagree s agree' disagree' s' :
  countPosition relayed h (agree, disagree, s) kv = Ok (agree', disagree', s') ->
  agree' = agree + Z.of_nat (length (agreeing h [kv])) /\
  agree' + disagree' = agree + disagree + Z.of_nat (length (proposers [kv])).
Proof.
  unfold agreeing, proposers, countPosition. rewrite !filter_cons, filter_nil.
  destruct (LedgerProposal.isBowOut kv.2); [intros [= <- <- <-]; simpl; lia|]. rewrite decide_True by done.
  rewrite filter_cons, filter_nil. destruct (Z.eqb_spec (LedgerProposal.mCurrentHash kv.2) h) as [Heq|Hne].
  { rewrite decide_True by done. intros [= <- <- <-]. simpl. lia. }
  rewrite decide_False by done. case_bool_decide; [intros [= <- <- <-]; simpl; lia|].
  destruct (acquired_set s _); [|intros [= <- <- <-]; simpl; lia].
  destruct (acquired_set s h); [|intros [= <- <- <-]; simpl; lia].
  destruct (createDisputes _ _ _ _) as [sd| |]; [|done..]. intros [= <- <- <-]. simpl. lia.
Qed.

Lemma countPositions_counts relayed h l : forall agree disagree s agree' disagree' s',
  foldM (countPosition relayed h) (agree, disagree, s) l = Ok (agree', disagree', s') ->
  agree' = agree + Z.of_nat (length (agreeing h l)) /\
  agree' + disagree' = agree + disagree + Z.of_nat (length (proposers l)).
Proof.
  induction l as [|kv l IH]; intros agree disagree s agree' disagree' s'; [intros [= <- <- <-]; simpl; lia|].
  cbn [foldM]. destruct (countPosition relayed h (agree, disagree, s) kv) as [[[a1 d1] s1]| |] eqn:Hc; [|done..].
  cbn [mbind result_bind]. intros Hf%IH. apply countPosition_counts in Hc.
  unfold agreeing, proposers in *. change (kv :: l) with ([kv] ++ l). rewrite !filter_app, !length_app. lia.
Qed.

(** What a decision to end the round rests on, [n] being the validators that
    have moved to a later ledger.  Two seconds have passed, and either as many
    peers take part as three quarters of those of the last round or its time has
    passed.  Of the peers that take part and this server at least 81 percent
    agree on the set [h]; or they do not, and as many have moved on, which is
    recorded as a failure. *)
Record decided (n h : Z) (s : State) : Prop := {
  decided_time : 2000 < mCurrentMSeconds s;
  decided_quick : mPreviousProposers s * 3 ÷ 4 <= Z.of_nat (length (proposers (map_to_list (mPeerPositions s)))) \/
    mPreviousMSeconds s + 2000 <= mCurrentMSeconds s;
  decided_share :
    let proposing := Z.of_nat (length (proposers (map_to_list (mPeerPositions s)))) in
    let agree := Z.of_nat (length (agreeing h (map_to_list (mPeerPositions s)))) in
    if mConsensusFail s
    then 100 * (agree + 1) < 81 * (proposing + 1) /\ 81 * (proposing + 1) <= 100 * n
    else 81 * (proposing + 1) <= 100 * (agree + 1) }.

Lemma checkConsensus_decided n h s (fail : bool) : let l := map_to_list (mPeerPositions s) in
  checkConsensus (mPreviousProposers s) (Z.of_nat (length (proposers l))) (Z.of_nat (length (agreeing h l))) n
    (mPreviousMSeconds s) (mCurrentMSeconds s) = (if fail then MovedOn else Yes) ->
  decided n h (set_mConsensusFail fail s).
Proof.
  intros l. unfold checkConsensus, LEDGER_MIN_CONSENSUS. destruct (_ <=? 2000) eqn:Ht; [by destruct fail|].
  destruct ((_ <? _) && (_ <? _))%bool eqn:Hq; [by destruct fail|]. reflect_bools. intros Hc.
  pose proof (checkConsensusReached_iff (Z.of_nat (length (agreeing h l)) + 1) (Z.of_nat (length (proposers l)))
    ltac:(lia) ltac:(lia)) as Hiff.
  split; [simpl; lia|simpl; fold l; destruct Hq; lia|]. simpl. fold l.
  destruct (checkConsensusReached (_ + 1) _); [destruct fail; [done|by apply Hiff]|].
  destruct (checkConsensusReached n _) eqn:Hn; destruct fail; try done.
  apply checkConsensusReached_share in Hn; [|lia]. split; [|done].
  apply Z.nle_gt. by intros ?%Hiff.
Qed.

(** [haveConsensus] keeps the state in order and answers yes only on such a
    decision. *)
Lemma haveConsensus_ok relayed n s p : base s -> ours_ok s -> mOurPosition s = Some p ->
  wp (haveConsensus relayed n s)
    (fun '(b, s') => base s' /\ ours_ok s' /\ mOurPosition s' = Some p /\ state_ s' = state_ s /\
       (b = true -> decided n (LedgerProposal.mCurrentHash p) s'))
    (fun _ => False).
Proof.
  intros Hb Ho Hp. unfold ours_ok in Ho. rewrite Hp in Ho. destruct Ho as (m & Hm & Hv).
  unfold haveConsensus. rewrite Hp. cbn [deref mbind result_bind]. apply wp_bind.
  eapply wp_mono; [apply wp_eqn, (foldM_wp (fun '(_, _, s') => disputes_only s s' /\ base s' /\ votes_match p m s')
    (fun _ => False))| |done].
  - intros [[agree disagree] s'] [q pos] _ (Hd & Hb' & Hv'). unfold countPosition. cbn [snd].
    destruct (disputes_only_members _ _ Hd) as (_ & D2 & D3 & _).
    repeat case_if; [done..|]. destruct (acquired_set s' _) as [m1|]; [|done].
    destruct (acquired_set s' _) as [m2|]; [|done]. apply wp_bind.
    eapply wp_mono; [apply (compare_with _ _ _ _ _ p m); (done || congruence)| |done].
    intros s'' (? & ? & ?). simpl. split_and!; [by eapply disputes_only_trans|done..].
  - split_and!; [apply disputes_only_refl|done..].
  - intros [[agree disagree] s'] [Hf (Hd & Hb' & Hv')]. cbv beta iota zeta.
    destruct (disputes_only_members _ _ Hd) as (D1 & D2 & D3 & _ & D5).
    assert (ours_ok s') as Ho' by (unfold ours_ok; rewrite D3, Hp; exists m; split; [congruence|done]).
    apply countPositions_counts in Hf as [Ha Hn]. rewrite <- D1 in Ha, Hn. rewrite !Z.add_0_l in *.
    rewrite Hn, Ha. pose proof (checkConsensus_decided n (LedgerProposal.mCurrentHash p) s') as Hdec. cbv zeta in Hdec.
    destruct (checkConsensus _ _ _ _ _ _); simpl; split_and!; try congruence; try done;
      try (destruct Hb'; by constructor); intros _; [by apply (Hdec true)|by apply (Hdec false)].
Qed.

Lemma takeInitialPosition_ok relayed now nodeID s initialSet txExists parent : base s ->
  mOurPosition s = None -> ours_ok s ->
  wp (takeInitialPosition relayed now nodeID s initialSet txExists parent)
    (fun s' => base s' /\ ours_ok s' /\ is_Some (mOurPosition s') /\ state_ s' = state_ s)
    (fun _ => False).
Proof.
  intros Hb Hp Ho. unfold takeInitialPosition. cbv zeta. apply wp_bind.
  eapply wp_mono; [apply mapComplete_ok; [by apply base_emit|done|done]| |done].
  intros s1 (Hb1 & Ho1 & Hp1 & Hs1 & _ & m & Hm & Hmh).
  change (mOurPosition (emit _ s)) with (mOurPosition s) in Hp1. rewrite Hp in Hp1.
  unfold ours_ok in Ho1. rewrite Hp1 in Ho1. cbn [mDisputes set_mOurPosition].
  set (p := LedgerProposal.ours _ _ _ _ _). set (s2 := set_mDisputes _ _).
  assert (mOurPosition s2 = Some p /\ mAcquired s2 = mAcquired s1 /\ state_ s2 = state_ s1 /\
    mDisputes s2 = ∅) as (E1 & E2 & E3 & E4).
  { split_and!; try done. unfold s2. simpl. by rewrite Ho1. }
  assert (base s2) as Hb2.
  { destruct Hb1 as [B1 B2 B3 B4]. constructor; try done. intros k d. by rewrite E4. }
  clearbody s2. apply wp_bind.
  eapply wp_mono; [apply (foldM_wp (fun '(_, s') => disputes_only s2 s' /\ base s' /\ votes_match p m s')
    (fun _ => False))| |done].
  - intros [found s'] [q pos] _ (Hd & Hb' & Hv'). unfold contrary. case_if; [done|]. cbn [snd].
    destruct (disputes_only_members _ _ Hd) as (_ & D2 & D3 & _).
    destruct (acquired_some s' (LedgerProposal.mCurrentHash pos) Hb') as [->|(m' & -> & _)]; [done|].
    cbn [deref mbind result_bind]. apply wp_bind.
    eapply wp_mono; [apply (compare_with _ _ _ _ _ p m); try (done || congruence)| |done].
    + rewrite D2, E2. done.
    + intros s'' (? & ? & ?). simpl. split_and!; [by eapply disputes_only_trans|done..].
  - split_and!; [apply disputes_only_refl|done|]. intros _ k d. by rewrite E4.
  - intros [found s'] (Hd & Hb' & Hv'). cbn [snd].
    destruct (disputes_only_members _ _ Hd) as (_ & D2 & D3 & _ & D5).
    assert (ours_ok s') as Ho'.
    { unfold ours_ok. rewrite D3, E1. exists m. split; [|done]. by rewrite D2, E2. }
    assert (state_ s' = state_ s) by (rewrite D5, E3, Hs1; done).
    destruct (mProposing s'); [rewrite (propose_ok s' p) by congruence|]; simpl; split_and!; try done;
      try (by apply base_emit); by rewrite D3, E1.
Qed.

(** ** The timer *)

(** What the rest of the server guarantees: sets and ledgers are found under
    their own hash, and ledgers carry a resolution of the table. *)
Definition env_ok (e : Env) : Prop :=
  getSet_ok (getSet e) /\
  forall h l, getLedgerByHash e h = Some l ->
    hash l = h /\ closeTimeResolution l ∈ ledgerPossibleTimeResolutions /\
    u32 (seq l + 1) <> 0.

Lemma resolution_ok r agree n : r ∈ ledgerPossibleTimeResolutions -> n <> 0 ->
  exists r', getNextLedgerTimeResolution r agree n = Ok r'.
Proof.
  intros Hr Hn. unfold getNextLedgerTimeResolution. rewrite (proj2 (Z.eqb_neq n 0)) by done. simpl throw_if.
  destruct (list_find (eq r) ledgerPossibleTimeResolutions) as [[i x]|] eqn:Hf; [by eexists|].
  apply list_find_None in Hf. rewrite Forall_forall in Hf. by destruct (Hf r).
Qed.

(** [inv] without the phase, and the phase and position kept. *)
Definition same_round (s s' : State) : Prop :=
  state_ s' = state_ s /\ (mOurPosition s = None -> mOurPosition s' = None) /\
  (is_Some (mOurPosition s) -> is_Some (mOurPosition s')).

Lemma handleLCL_ok e h s : env_ok e -> base s -> ours_ok s ->
  (h <> mPrevLedgerHash s \/ hash (mPreviousLedger s) <> h) ->
  wp (handleLCL e h s) (fun s' => base s' /\ ours_ok s' /\ same_round s s') (fun _ => False).
Proof.
  intros [Hg Hl] Hb Ho Hh. unfold handleLCL.
  replace (negb (_ || _))%bool with false by (symmetry; rewrite negb_false_iff, orb_true_iff,
    !negb_true_iff, !Z.eqb_neq; tauto).
  cbn [throw_if mbind result_bind]. apply wp_bind.
  apply (wp_mono _ (fun s' => base s' /\ ours_ok s' /\ same_round s s' /\ mPrevLedgerHash s' = h)
    _ (fun _ => False)); [| |done].
  - case_if; [|done]. apply wp_bind.
    apply (wp_mono _ (fun s' => base s' /\ state_ s' = state_ s /\ mPrevLedgerHash s' = h /\
      match mOurPosition s with
      | None => mOurPosition s' = None
      | Some p => exists p' m, mOurPosition s' = Some p' /\
          mAcquired s' !! LedgerProposal.mCurrentHash p' = Some (Some m)
      end) _ (fun _ => False)); [| |done].
    + assert (base (set_mPrevLedgerHash h s)) as Hb' by (destruct Hb; by constructor).
      cbn [mOurPosition set_mPrevLedgerHash]. unfold ours_ok in Ho.
      destruct (mOurPosition s) as [p|] eqn:Hp; [|done]. destruct Ho as (m & Hm & _).
      case_if; [|by split_and!; eauto]. rewrite (propose_ok _ (LedgerProposal.bowOut (now e) p)) by done.
      simpl. split_and!; [|done|done|by eexists _, m]. apply base_emit. destruct Hb'; by constructor.
    + intros s1 (Hb1 & Hs1 & Hh1 & Hm1). cbv zeta. simpl wp.
      match goal with |- context [playbackProposals _ _ ?x] => set (s2 := x) end.
      assert (mOurPosition s2 = mOurPosition s1 /\ state_ s2 = state_ s /\ mAcquired s2 = mAcquired s1 /\
        mDisputes s2 = ∅ /\ base s2 /\ mPrevLedgerHash s2 = h) as (E1 & E2 & E3 & E4 & Hb2 & E5).
      { split_and!; try done. constructor; try done. apply Hb1. }
      clearbody s2.
      assert (ours_ok s2) as Ho2.
      { unfold ours_ok. rewrite E1. destruct (mOurPosition s) as [p|].
        - destruct Hm1 as (p' & m & -> & Hm'). exists m. split; [by rewrite E3|].
          intros _ k d. by rewrite E4.
        - by rewrite Hm1. }
      destruct (playback_ok (getSet e) (storedProposals e) s2 Hb2 Ho2 Hg) as (P1 & P2 & P3 & P4 & P5).
      split_and!; [done..| |congruence]. unfold same_round. rewrite P3, P4, E1. split_and!; [congruence|..].
      * intros Hn. by rewrite Hn in Hm1.
      * intros [p Hp]. rewrite Hp in Hm1. destruct Hm1 as (p' & m & -> & _). eauto.
  - intros s1 (Hb1 & Ho1 & Hr1 & Hh1). case_if; [done|].
    destruct (getLedgerByHash e (mPrevLedgerHash s1)) as [l|] eqn:Hlh.
    + destruct (Hl _ _ Hlh) as (Hlh' & Hres & Hseq).
      rewrite (proj2 (Z.eqb_eq (hash l) h)) by congruence. cbn [throw_if negb mbind result_bind].
      destruct (resolution_ok (closeTimeResolution l) (closeAgree l) (u32 (seq l + 1)) Hres Hseq) as [r ->].
      simpl. split_and!; [destruct Hb1; by constructor|done..].
    + case_if; simpl; [|done]. split_and!; [destruct Hb1; by constructor|done..].
Qed.

Lemma checkLCL_ok e s : env_ok e -> base s -> ours_ok s ->
  wp (checkLCL e s) (fun s' => base s' /\ ours_ok s' /\ same_round s s') (fun _ => False).
Proof.
  intros He Hb Ho. unfold checkLCL. cbv zeta. case_if; [|case_if; [|done]].
  - eapply wp_mono; [apply handleLCL_ok; [done|..]| |done].
    + destruct (mHaveCorrectLCL s); [by apply base_emit|done].
    + by destruct (mHaveCorrectLCL s).
    + left. by destruct (mHaveCorrectLCL s).
    + intros s' (? & ? & Hr). split_and!; [done..|]. by destruct (mHaveCorrectLCL s).
  - apply handleLCL_ok; [done..|]. right. congruence.
Qed.

Lemma beginAccept_ok s : base s -> ours_ok s -> is_Some (mOurPosition s) ->
  wp (beginAccept s) (fun s' => base s' /\ ours_ok s' /\ mOurPosition s' = mOurPosition s /\
    state_ s' = state_ s) (fun _ => False).
Proof.
  intros Hb Ho [p Hp]. pose proof Ho as Ho'. unfold ours_ok in Ho. rewrite Hp in Ho.
  destruct Ho as (m & Hm & _). unfold beginAccept, acquired_set. rewrite Hp. cbn [deref mbind result_bind].
  rewrite Hm. simpl. split_and!; [|done|done|done]. by apply base_emit, base_emit.
Qed.

Lemma stateEstablish_ok relayed now n s : base s -> ours_ok s -> is_Some (mOurPosition s) ->
  state_ s = establish ->
  wp (stateEstablish relayed now n s)
    (fun s' => base s' /\ ours_ok s' /\ is_Some (mOurPosition s') /\
       (state_ s' = establish \/ state_ s' = finished)) (fun _ => False).
Proof.
  intros Hb Ho [p Hp] Hs. unfold stateEstablish. case_if.
  { split_and!; [done..| |by left]. by rewrite Hp. }
  apply wp_bind. eapply wp_mono; [by apply (updateOurPositions_ok _ _ _ p)| |done].
  intros s1 (Hb1 & Ho1 & [p1 Hp1] & Hs1). apply wp_bind.
  eapply wp_mono; [by apply (haveConsensus_ok _ _ _ p1)| |done].
  intros [b s2] (Hb2 & Ho2 & Hp2 & Hs2 & _). cbv beta iota.
  assert (is_Some (mOurPosition s2)) by by rewrite Hp2. assert (state_ s2 = establish) by congruence.
  case_if; [by split_and!; auto|]. case_if; [by split_and!; auto|].
  eapply wp_mono; [apply beginAccept_ok; [destruct Hb2; by constructor|done..]| |done].
  intros s3 (? & ? & Hp3 & Hs3). split_and!; [done..|by rewrite Hp3|by right].
Qed.

Lemma timerEntry_ok e s : env_ok e -> inv s -> wp (timerEntry e s) inv (fun _ => False).
Proof.
  intros He (Hb & Ho & Hph). unfold timerEntry. apply wp_bind.
  apply (wp_mono _ (fun s' => base s' /\ ours_ok s' /\ same_round s s') _ (fun _ => False)); [| |done].
  { case_if; [by apply checkLCL_ok|done]. }
  intros s1 (Hb1 & Ho1 & Hs1 & Hn1 & Hp1). cbv zeta.
  set (s2 := set_mClosePercent _ _).
  assert (base s2 /\ ours_ok s2 /\ state_ s2 = state_ s /\ mOurPosition s2 = mOurPosition s1)
    as (Hb2 & Ho2 & Hs2 & Hp2) by (split_and!; [destruct Hb1; by constructor|done..]).
  clearbody s2. unfold phase_ok in Hph. rewrite Hs2. destruct (state_ s) eqn:Hs.
  - unfold statePreClose. destruct (if _ && _ then _ else _)%bool as [since idle].
    rewrite Hn1 in Hp2 by done. case_if.
    + unfold closeLedger. cbv zeta. eapply wp_mono; [apply takeInitialPosition_ok; [|done..]| |done].
      * destruct Hb2; by constructor.
      * intros s' (? & ? & Hsome & Hst). split_and!; [done..|]. unfold phase_ok. by rewrite Hst.
    + split_and!; [done..|]. unfold phase_ok. by rewrite Hs2.
  - eapply wp_mono; [apply stateEstablish_ok; [done|done| |done]| |done]; [rewrite Hp2; auto|].
    intros s' (? & ? & Hsome & Hst). split_and!; [done..|]. unfold phase_ok.
    by destruct Hst as [-> | ->].
  - split_and!; [done..|]. unfold phase_ok. rewrite Hs2, Hp2. auto.
  - split_and!; [by apply base_emit|done|]. unfold phase_ok. simpl. rewrite Hs2, Hp2. auto.
Qed.

Lemma leaveConsensus_ok now s : inv s -> wp (leaveConsensus now s) inv (fun _ => False).
Proof.
  intros (Hb & Ho & Hph). unfold leaveConsensus. case_if; [|done]. unfold phase_ok in Hph.
  assert (forall s', base s' -> ours_ok s' -> state_ s' = state_ s ->
    (mOurPosition s = None -> mOurPosition s' = None) ->
    (is_Some (mOurPosition s) -> is_Some (mOurPosition s')) -> inv (set_mProposing false s')) as Hfin.
  { intros s' [B1 B2 B3 B4] Ho' E1 E2 E3. split_and!; [by constructor|done|].
    unfold phase_ok. simpl. rewrite E1. destruct (state_ s); auto. }
  unfold ours_ok in Ho. destruct (mOurPosition s) as [p|] eqn:Hp.
  - destruct Ho as (m & Hm & Hv). destruct (LedgerProposal.isBowOut p) eqn:Hbow; cbn [negb].
    + simpl. apply Hfin; try done; try (by rewrite Hp). unfold ours_ok. rewrite Hp. eauto.
    + rewrite (propose_ok _ (LedgerProposal.bowOut now p)) by done. simpl.
      apply Hfin; try done; [apply base_emit; destruct Hb; by constructor|].
      exists m. split; [done|]. done.
  - simpl. apply Hfin; try done; try (by rewrite Hp). unfold ours_ok. by rewrite Hp.
Qed.

(** ** Rounds *)

(** A round starts with nothing known and no position. *)
Definition initial (s : State) : Prop :=
  state_ s = open /\ mOurPosition s = None /\ mPeerPositions s = ∅ /\ mAcquired s = ∅ /\
  mDisputes s = ∅ /\ mDeadNodes s = ∅.

Inductive step : State -> State -> Prop :=
| step_proposal getSet p s : getSet_ok getSet -> step s (snd (peerPosition getSet s p))
| step_set relayed h m s s' : mapCompleteInternal relayed s h (Some m) true = Ok s' -> step s s'
| step_timer e s s' : env_ok e -> timerEntry e s = Ok s' -> step s s'
| step_leave now s s' : leaveConsensus now s = Ok s' -> step s s'.

Lemma initial_inv s : initial s -> inv s.
Proof.
  intros (H1 & H2 & H3 & H4 & H5 & H6). split_and!.
  - constructor; intros ?; rewrite ?H3, ?H4, ?H5, ?H6; set_solver.
  - unfold ours_ok. by rewrite H2.
  - unfold phase_ok. by rewrite H1.
Qed.

Lemma step_inv s s' : step s s' -> inv s -> inv s'.
Proof.
  intros Hs (Hb & Ho & Hph). destruct Hs as [getSet p s Hg|relayed h m s s' Hm|e s s' He Ht|now s s' Hl].
  - destruct (peerPosition_ok getSet s p Hb Ho Hg) as (? & ? & E1 & E2 & _).
    split_and!; [done..|]. unfold phase_ok. by rewrite E1, E2.
  - assert (getHash m = h) as Hh.
    { unfold mapCompleteInternal in Hm. destruct (h =? getHash m) eqn:Hhm; [by reflect_bools|done]. }
    pose proof (mapComplete_ok relayed s h m true Hb Ho Hh) as Hwp. rewrite Hm in Hwp.
    destruct Hwp as (? & ? & E1 & E2 & _). split_and!; [done..|]. unfold phase_ok. by rewrite E1, E2.
  - exact (wp_ok _ _ _ _ (timerEntry_ok e s He (conj Hb (conj Ho Hph))) Ht).
  - exact (wp_ok _ _ _ _ (leaveConsensus_ok now s (conj Hb (conj Ho Hph))) Hl).
Qed.

Lemma reachable_inv s0 s : initial s0 -> rtc step s0 s -> inv s.
Proof. intros H0%initial_inv. induction 1; eauto using step_inv. Qed.

(** C5: in every state a round reaches, each dispute's counts are the numbers of
    yes and no votes it holds, only peers with a current position vote (so there
    are never more votes than positions), every position is filed under its own
    peer, and a peer that bowed out has no position. *)
Theorem round_votes s0 s : initial s0 -> rtc step s0 s ->
  (forall k d, mDisputes s !! k = Some d ->
     DisputedTx.mYays d = DisputedTx.count true (DisputedTx.mVotes d) /\
     DisputedTx.mNays d = DisputedTx.count false (DisputedTx.mVotes d) /\
     DisputedTx.mYays d + DisputedTx.mNays d <= Z.of_nat (size (mPeerPositions s)) /\
     forall q, is_Some (DisputedTx.mVotes d !! q) -> is_Some (mPeerPositions s !! q)) /\
  (forall q p, mPeerPositions s !! q = Some p -> LedgerProposal.mPeerID p = q) /\
  (forall q, q ∈ mDeadNodes s -> mPeerPositions s !! q = None).
Proof.
  intros H0 Hs. destruct (reachable_inv s0 s H0 Hs) as ([B1 B2 B3 B4] & _). split_and!.
  - intros k d Hk. destruct (B1 k d Hk) as ([Hy Hn] & _ & Hv). split_and!; [done..| |done].
    rewrite Hy, Hn, DisputedTx.count_split. apply Nat2Z.inj_le.
    rewrite <- !size_dom. apply subseteq_size. intros q. rewrite !elem_of_dom. apply Hv.
  - intros q p Hq. by apply B2.
  - apply B3.
Qed.

(** C7: once we have a position, its transaction set is at hand, and as long as
    we have not bowed out it contains a disputed transaction exactly when we
    vote for it. *)
Theorem round_own_set s0 s p : initial s0 -> rtc step s0 s -> mOurPosition s = Some p ->
  exists m, mAcquired s !! LedgerProposal.mCurrentHash p = Some (Some m) /\
    getHash m = LedgerProposal.mCurrentHash p /\
    (LedgerProposal.isBowOut p = false -> forall k d, mDisputes s !! k = Some d ->
       DisputedTx.mOurVote d = hasItem m k).
Proof.
  intros H0 Hs Hp. destruct (reachable_inv s0 s H0 Hs) as (Hb & Ho & _). unfold ours_ok in Ho.
  rewrite Hp in Ho. destruct Ho as (m & Hm & Hv). exists m. split_and!; [done| |done].
  by destruct (base_acquired s Hb _ _ Hm) as (m' & [= ->] & ?).
Qed.

(** C8: in every state a round reaches, the timer's handler returns: it fails
    no assertion, dereferences no null pointer and never calls [abort]. *)
Theorem round_timer_total s0 s e : initial s0 -> rtc step s0 s -> env_ok e ->
  exists s', timerEntry e s = Ok s'.
Proof.
  intros H0 Hs He. pose proof (timerEntry_ok e s He (reachable_inv s0 s H0 Hs)) as Hwp.
  destruct (timerEntry e s) as [s'| |]; [by exists s'|done..].
Qed.

(** C10: after a peer's proposal whose transaction set is available, the peer's
    vote on every dispute is what that set says. *)
Theorem peerPosition_votes getSet s p m k d :
  fst (peerPosition getSet s p) = true -> LedgerProposal.isBowOut p = false ->
  acquired_set (snd (peerPosition getSet s p)) (LedgerProposal.mCurrentHash p) = Some m ->
  mDisputes (snd (peerPosition getSet s p)) !! k = Some d ->
  DisputedTx.mVotes d !! LedgerProposal.mPeerID p = Some (hasItem m k) /\
  mPeerPositions (snd (peerPosition getSet s p)) !! LedgerProposal.mPeerID p = Some p.
Proof.
  unfold peerPosition. intros Ht Hbow. revert Ht. case_bool_decide; [done|].
  match goal with |- context [if ?c then (false, s) else _] => destruct c; [done|] end.
  rewrite Hbow. intros _. cbv zeta. set (s1 := if LedgerProposal.isInitial p then _ else _).
  unfold getTransactionTree. set (s2 := set_mPeerPositions _ s1).
  assert (mPeerPositions s2 !! LedgerProposal.mPeerID p = Some p) as Hp2 by apply lookup_insert_eq.
  clearbody s2. destruct (acquired_set s2 _) as [m'|] eqn:Ha.
  - simpl. unfold acquired_set in *. simpl. rewrite Ha. intros [= <-]. rewrite map_lookup_imap.
    destruct (mDisputes s2 !! k) as [d0|]; [|done]. intros [= <-].
    by rewrite DisputedTx.setVote_votes, lookup_insert_eq.
  - destruct (getSet _) as [m'|]; simpl.
    + unfold acquired_set. simpl. rewrite lookup_insert_eq. intros [= <-]. rewrite map_lookup_imap.
      destruct (mDisputes s2 !! k) as [d0|]; [|done]. intros [= <-].
      by rewrite DisputedTx.setVote_votes, lookup_insert_eq.
    + unfold acquired_set in *. by rewrite Ha.
Qed.


(** When a transaction set arrives that was not known before, every peer
    whose position it is votes, on every dispute, as the set says. *)
Theorem mapComplete_votes s0 s relayed h m acquired s' : initial s0 -> rtc step s0 s ->
  mAcquired s !! h = None -> mapCompleteInternal relayed s h (Some m) acquired = Ok s' ->
  forall k d q p, mDisputes s' !! k = Some d -> mPeerPositions s' !! q = Some p ->
    LedgerProposal.mCurrentHash p = h -> DisputedTx.mVotes d !! q = Some (hasItem m k).
Proof.
  intros H0 Hs Hnew Hm. destruct (reachable_inv s0 s H0 Hs) as (Hb & Ho & _).
  assert (getHash m = h) as Hh.
  { unfold mapCompleteInternal in Hm. destruct (h =? getHash m) eqn:Hhm; [by reflect_bools|done]. }
  pose proof (mapComplete_new relayed s h m acquired Hb Ho Hh Hnew) as Hwp. rewrite Hm in Hwp.
  by destruct Hwp as (_ & _ & _ & _ & _ & _ & Hv).
Qed.

End invariant.

End ConsensusInv.
