(* ===== verification/ConsensusRun.v ===== *)
(** * Consensus rounds at work

    The close time vote, an instance of the transaction-set interface by finite
    maps, and concrete rounds: the theorems of [ConsensusInv] applied to one, and
    an interleaving in which a peer's vote is lost. *)

From stdpp Require Import base tactics numbers countable list strings option gmap fin_maps.
From S2P Require Import Prelude Serializer Timing DisputedTx Consensus ConsensusInv.

Module ConsensusRun.
Import Timing Consensus ConsensusInv.

(** ** The close time vote *)

Lemma ct_vote_fold tc ct done t th have :
  (forall u n, (u, n) ∈ done -> n <= th) ->
  (have = true -> (t, th) ∈ done /\ tc <= th) ->
  let '(t', th', have') := fold_left (ct_vote tc) ct (t, th, have) in
  (forall u n, (u, n) ∈ done ++ ct -> n <= th') /\
  (have' = true -> (t', th') ∈ done ++ ct /\ tc <= th').
Proof.
  revert done t th have. induction ct as [|[u n] ct IH]; intros done t th have Hmax Hhave; simpl.
  { rewrite app_nil_r. done. }
  replace (done ++ (u, n) :: ct) with ((done ++ [(u, n)]) ++ ct) by (rewrite <- app_assoc; done).
  destruct (th <=? n) eqn:Hn; reflect_bools; apply IH.
  - intros u' n' [Hin|Heq%list_elem_of_singleton]%elem_of_app; [|injection Heq as -> ->; lia].
    pose proof (Hmax _ _ Hin). lia.
  - intros [Hh|Htc]%orb_true_iff.
    + destruct (Hhave Hh). split; [|lia]. apply elem_of_app. right. by left.
    + reflect_bools. split; [|lia]. apply elem_of_app. right. by left.
  - intros u' n' [Hin|Heq%list_elem_of_singleton]%elem_of_app; [by eapply Hmax|].
    injection Heq as -> ->. lia.
  - intros Hh. destruct (Hhave Hh). split; [|lia]. apply elem_of_app. by left.
Qed.

(** When a close time consensus is declared, the chosen time has the votes
    of 75% of the participants (rounded as [participantsNeeded] does) and no
    time has more, or it is the agreement to disagree: time 0 has more votes
    than that threshold. *)
Theorem closeTime_agreed peers proposing closePercent ourTime ct t : peers <> 0 ->
  closeTimeConsensus peers proposing closePercent ourTime ct = (t, true) ->
  let ct' := if proposing then ct_incr ourTime ct else ct in
  let needed := participantsNeeded (if proposing then peers + 1 else peers) AV_CT_CONSENSUS_PCT in
  (exists n, (t, n) ∈ ct' /\ needed <= n /\ forall u n', (u, n') ∈ ct' -> n' <= n) \/
  (t = 0 /\ needed < ct_get 0 ct').
Proof.
  intros Hp. unfold closeTimeConsensus. rewrite (proj2 (Z.eqb_neq peers 0)) by done.
  set (ct' := if proposing then ct_incr ourTime ct else ct).
  set (participants := if proposing then peers + 1 else peers).
  replace (if proposing then (ct_incr ourTime ct, peers + 1) else (ct, peers)) with (ct', participants)
    by (by destruct proposing).
  cbv zeta beta iota. set (needed := participantsNeeded participants AV_CT_CONSENSUS_PCT).
  pose proof (ct_vote_fold needed ct' [] 0 (participantsNeeded participants (neededWeight closePercent)) false)
    as Hf.
  destruct (fold_left _ _ _) as [[t' th'] have']. destruct Hf as [Hmax Hhave]; [by intros ?? ?%elem_of_nil|done|].
  simpl in Hmax, Hhave. destruct have'; simpl.
  - intros [= <-]. left. destruct (Hhave eq_refl). by exists th'.
  - destruct (needed <? ct_get 0 ct') eqn:H0; [|done]. reflect_bools. intros [= <-]. by right.
Qed.

Lemma closeTime_agreed_witness :
  let ct' := ct_incr 60 [(30, 1); (60, 3)] in
  let needed := participantsNeeded (4 + 1) AV_CT_CONSENSUS_PCT in
  (exists n, (60, n) ∈ ct' /\ needed <= n /\ forall u n', (u, n') ∈ ct' -> n' <= n) \/
  (60 = 0 /\ needed < ct_get 0 ct').
Proof. apply (closeTime_agreed 4 true 10 60 [(30, 1); (60, 3)]); [lia|reflexivity]. Defined.

(** ** Transaction sets as finite maps *)

Definition side (first : bool) (kb : Z * Serializer.Blob)
    : Z * (option Serializer.Blob * option Serializer.Blob) :=
  (fst kb, if first then (Some (snd kb), None) else (None, Some (snd kb))).

(** Any injective numbering of the maps serves as the hash. *)
#[export] Instance FinSets : SHAMapOps := {
  SHAMap := gmap Z Serializer.Blob;
  getHash m := Z.pos (encode m);
  hasItem m k := bool_decide (is_Some (m !! k));
  addItem m k b := <[k := b]> m;
  delItem m k := delete k m;
  compare m1 m2 :=
    (side true <$> map_to_list (m1 ∖ m2)) ++ (side false <$> map_to_list (m2 ∖ m1))
}.

#[export] Instance FinSets_laws : SHAMapLaws FinSets.
Proof.
  constructor; simpl.
  - intros m1 m2 H k. injection H as H. by apply (inj encode) in H as ->.
  - intros m k b k'. apply Bool.eq_true_iff_eq.
    rewrite orb_true_iff, !bool_decide_eq_true, lookup_insert_is_Some'. split; intros [->|?]; auto.
  - intros m k k'. apply Bool.eq_true_iff_eq.
    rewrite andb_true_iff, negb_true_iff, bool_decide_eq_false, !bool_decide_eq_true,
      lookup_delete_is_Some. split; intros [? ?]; auto.
  - intros m1 m2 k a b [Hin|Hin]%elem_of_app; apply list_elem_of_fmap in Hin as ([k' x] & [= -> -> ->] & _);
      [left|right]; (split; [|done]) || (split; [done|]); by eexists.
Defined.

(** ** A round *)

Definition ledger0 : Ledger := mkLedger 100 99 10 1000 30 true.

(** The start of a round after [ledger0], whose consensus had no other proposers
    and took 3 seconds; this server proposes. *)
Definition start : State :=
  mkState open 1000 100 0 ledger0 None true true false 0 0 30 false 0 3000 ∅ ∅ ∅ ∅ ∅ ∅ [].

(** 100 seconds later, with no transactions of our own. *)
Definition env0 : Env :=
  mkEnv 5000 1100 1000 3000 [] 0 0 (fun _ => true) (fun _ => None) [] (fun _ => None) false
    (∅ : gmap Z Serializer.Blob) (fun _ => false) 100 50.

Definition set7 : SHAMap := ({[7 := [1]]} : gmap Z Serializer.Blob).
Definition set78 : SHAMap := ({[7 := [1]; 8 := [2]]} : gmap Z Serializer.Blob).

(** A peer's first proposal of a set, in time for the round. *)
Definition proposal (peer : Z) (m : SHAMap) : Proposal :=
  LedgerProposal.mk 100 (getHash m) 1100 0 peer 5000.

Definition no_set (h : Z) : option SHAMap := None.
Definition only_set (m : SHAMap) (h : Z) : option SHAMap :=
  if h =? getHash m then Some m else None.

Lemma no_set_ok : getSet_ok no_set.
Proof. intros h m. discriminate. Qed.

Lemma start_initial : initial start.
Proof. done. Qed.

Lemma env0_ok : env_ok env0.
Proof. split; [|done]. by intros ? ?. Qed.

(** The server closes its ledger, learns that peer 3 wants transaction 7, then
    peer 1 and peer 2 propose transactions 7 and 8. *)
Definition closed : result State := timerEntry env0 start.
(** The position of peer 3, before its set is known. *)
Definition awaits7 (s : State) : State := snd (peerPosition no_set s (proposal 3 set7)).

Definition disputed : result State :=
  s ← closed; mapCompleteInternal (fun _ => true) (awaits7 s) (getHash set7) (Some set7) true.

Lemma is_ok_inv {A} (r : result A) : is_ok r = true -> exists a, r = Ok a.
Proof. destruct r; [by eexists|done..]. Qed.

Lemma disputed_reachable : exists s, disputed = Ok s /\ rtc step start s.
Proof.
  destruct (is_ok_inv closed) as [s1 H1]; [vm_compute; reflexivity|].
  destruct (is_ok_inv disputed) as [s2 H2]; [vm_compute; reflexivity|].
  exists s2. split; [done|]. eapply rtc_l; [apply (step_timer env0 start s1 env0_ok H1)|].
  eapply rtc_l; [exact (step_proposal no_set (proposal 3 set7) s1 no_set_ok)|].
  apply rtc_once. unfold disputed in H2. rewrite H1 in H2. exact (step_set _ _ _ _ _ H2).
Qed.

(** A test that holds of the result of a run. *)
Lemma run_check {A} (r : result A) (check : A -> bool) :
  match r with Ok s => check s | _ => false end = true -> exists s, r = Ok s /\ check s = true.
Proof. destruct r; [by eexists|done..]. Qed.

(** ** The lost vote *)

(** Peer 1 proposes a set before it is available.  It becomes available to the
    server; before the notification is handled, peer 2 proposes the same set;
    then the notification is handled. *)
Definition race_from (m : SHAMap) (s : State) : result State :=
  let s := snd (peerPosition no_set s (proposal 1 m)) in
  let s := snd (peerPosition (only_set m) s (proposal 2 m)) in
  mapCompleteInternal (fun _ => true) s (getHash m) (Some m) true.

(** The set of 7 and 8, while 7 is in dispute. *)
Definition raced : result State := disputed ≫= race_from set78.

Definition lost (s : State) : bool :=
  match mPeerPositions s !! 1, mDisputes s !! 7 with
  | Some p, Some d =>
      match acquired_set s (LedgerProposal.mCurrentHash p) with
      | Some m => hasItem m 7 && bool_decide (DisputedTx.mVotes d !! 1 = None) &&
                  bool_decide (DisputedTx.mVotes d !! 2 = Some true)
      | None => false
      end
  | _, _ => false
  end%bool.

Lemma only_set_ok m : getSet_ok (only_set m).
Proof.
  intros h m'. unfold only_set. destruct (Z.eqb_spec h (getHash m)) as [->|]; [|discriminate].
  intros [= <-]. reflexivity.
Qed.

Lemma race_from_reachable m s0 s s' : rtc step s0 s -> race_from m s = Ok s' -> rtc step s0 s'.
Proof.
  unfold race_from. intros Hr Hs.
  eapply rtc_r; [eapply rtc_r; [eapply rtc_r; [exact Hr|]|]|exact (step_set _ _ _ _ _ Hs)].
  - exact (step_proposal no_set (proposal 1 m) _ no_set_ok).
  - exact (step_proposal (only_set m) (proposal 2 m) _ (only_set_ok m)).
Qed.

Lemma raced_reachable s : raced = Ok s -> rtc step start s.
Proof.
  unfold raced. destruct disputed_reachable as (s1 & -> & Hr). cbn [mbind result_bind].
  exact (race_from_reachable set78 start s1 s Hr).
Qed.

(** An interleaving in which a vote is lost.  In the round [raced], peer 1's
    position is a set the server has and that contains the disputed transaction
    7, yet peer 1 has no vote on it, while peer 2, with the same position, votes
    yes: the set was filed by [getTransactionTree] when peer 2 proposed it, so
    the notification that would have counted peer 1's vote returned early. *)
Theorem vote_lost : exists s p d m, rtc step start s /\
  mPeerPositions s !! 1 = Some p /\ acquired_set s (LedgerProposal.mCurrentHash p) = Some m /\
  mDisputes s !! 7 = Some d /\ hasItem m 7 = true /\
  DisputedTx.mVotes d !! 1 = None /\ DisputedTx.mVotes d !! 2 = Some true.
Proof.
  destruct (run_check raced lost) as (s & Hs & Hl); [vm_compute; reflexivity|].
  exists s. unfold lost in Hl. destruct (mPeerPositions s !! 1) as [p|]; [|done].
  destruct (mDisputes s !! 7) as [d|]; [|done].
  destruct (acquired_set s (LedgerProposal.mCurrentHash p)) as [m|] eqn:Hm; [|done].
  apply andb_true_iff in Hl as [[Hi Hn]%andb_true_iff Hy].
  apply bool_decide_eq_true in Hn. apply bool_decide_eq_true in Hy.
  exists p, d, m. split; [exact (raced_reachable s Hs)|].
  repeat split; first [assumption|reflexivity].
Qed.

(** ** The theorems on the round *)

Definition established (s : State) : bool :=
  match mOurPosition s with Some _ => bool_decide (state_ s = establish) | None => false end.

Lemma disputed_state : exists s p, disputed = Ok s /\ rtc step start s /\ mOurPosition s = Some p.
Proof.
  destruct (run_check disputed established) as (s & Hs & Hl); [vm_compute; reflexivity|].
  unfold established in Hl. destruct (mOurPosition s) as [p|] eqn:Hp; [|done]. exists s, p.
  split_and!; [done| |done]. destruct disputed_reachable as (s' & Hs' & Hr).
  rewrite Hs in Hs'. by injection Hs' as ->.
Qed.

Lemma round_votes_witness : exists s, disputed = Ok s /\
  (forall k d, mDisputes s !! k = Some d ->
     DisputedTx.mYays d = DisputedTx.count true (DisputedTx.mVotes d) /\
     DisputedTx.mNays d = DisputedTx.count false (DisputedTx.mVotes d) /\
     DisputedTx.mYays d + DisputedTx.mNays d <= Z.of_nat (size (mPeerPositions s)) /\
     forall q, is_Some (DisputedTx.mVotes d !! q) -> is_Some (mPeerPositions s !! q)) /\
  (forall q p, mPeerPositions s !! q = Some p -> LedgerProposal.mPeerID p = q) /\
  (forall q, q ∈ mDeadNodes s -> mPeerPositions s !! q = None).
Proof.
  destruct disputed_state as (s & p & Hs & Hr & _). exists s. split; [exact Hs|].
  exact (round_votes start s start_initial Hr).
Defined.

Lemma round_own_set_witness : exists s p, disputed = Ok s /\ mOurPosition s = Some p /\
  exists m, mAcquired s !! LedgerProposal.mCurrentHash p = Some (Some m) /\
    getHash m = LedgerProposal.mCurrentHash p /\
    (LedgerProposal.isBowOut p = false -> forall k d, mDisputes s !! k = Some d ->
       DisputedTx.mOurVote d = hasItem m k).
Proof.
  destruct disputed_state as (s & p & Hs & Hr & Hp). exists s, p. split; [exact Hs|]. split; [exact Hp|].
  exact (round_own_set start s p start_initial Hr Hp).
Defined.

Lemma round_timer_total_witness : exists s, disputed = Ok s /\ exists s', timerEntry env0 s = Ok s'.
Proof.
  destruct disputed_state as (s & p & Hs & Hr & _). exists s. split; [exact Hs|].
  exact (round_timer_total start s env0 start_initial Hr env0_ok).
Defined.

Lemma closed_state : exists s, closed = Ok s /\ rtc step start s /\ state_ s = establish.
Proof.
  destruct (run_check closed established) as (s & Hs & Hl); [vm_compute; reflexivity|].
  exists s. split; [exact Hs|]. split; [apply rtc_once; exact (step_timer env0 start s env0_ok Hs)|].
  unfold established in Hl. destruct (mOurPosition s); [|discriminate].
  by apply bool_decide_eq_true in Hl.
Qed.



Lemma mapComplete_votes_witness : exists s s', closed = Ok s /\
  mapCompleteInternal (fun _ => true) (awaits7 s) (getHash set7) (Some set7) true = Ok s' /\
  forall k d q p, mDisputes s' !! k = Some d -> mPeerPositions s' !! q = Some p ->
    LedgerProposal.mCurrentHash p = getHash set7 -> DisputedTx.mVotes d !! q = Some (hasItem set7 k).
Proof.
  destruct closed_state as (s & Hs & Hr & _). exists s.
  destruct (run_check disputed (fun _ => true)) as (s' & Hs' & _); [vm_compute; reflexivity|].
  destruct (run_check closed (fun s =>
    match mAcquired (awaits7 s) !! getHash set7 with None => true | Some _ => false end))
    as (s1 & Hs1 & Hnone); [vm_compute; reflexivity|].
  rewrite Hs in Hs1. injection Hs1 as <-. unfold disputed in Hs'. rewrite Hs in Hs'.
  cbn [mbind result_bind] in Hs'.
  destruct (mAcquired (awaits7 s) !! getHash set7) eqn:Hnew; [discriminate|].
  exists s'. split; [exact Hs|]. split; [exact Hs'|].
  exact (mapComplete_votes start (awaits7 s) (fun _ => true) (getHash set7) set7 true s' start_initial
    (rtc_r _ _ _ Hr (step_proposal no_set (proposal 3 set7) s no_set_ok)) Hnew Hs').
Defined.

(** Peer 2 proposes the available set of 7 and 8 while 7 is in dispute. *)
Definition proposes78 (s : State) : bool * State :=
  peerPosition (only_set set78) s (proposal 2 set78).

Definition counted (bs : bool * State) : bool :=
  match fst bs, acquired_set (snd bs) (getHash set78), mDisputes (snd bs) !! 7 with
  | true, Some _, Some _ => true
  | _, _, _ => false
  end.

Lemma peerPosition_votes_witness : exists s m d, disputed = Ok s /\
  mDisputes (snd (proposes78 s)) !! 7 = Some d /\
  DisputedTx.mVotes d !! 2 = Some (hasItem m 7) /\
  mPeerPositions (snd (proposes78 s)) !! 2 = Some (proposal 2 set78).
Proof.
  destruct (run_check disputed (fun s => counted (proposes78 s))) as (s & Hs & Hc);
    [vm_compute; reflexivity|].
  unfold counted in Hc. destruct (fst (proposes78 s)) eqn:Hf; [|discriminate].
  destruct (acquired_set (snd (proposes78 s)) (getHash set78)) as [m|] eqn:Hm; [|discriminate].
  destruct (mDisputes (snd (proposes78 s)) !! 7) as [d|] eqn:Hd; [|discriminate].
  exists s, m, d. split; [exact Hs|]. split; [exact Hd|].
  exact (peerPosition_votes (only_set set78) s (proposal 2 set78) m 7 d Hf eq_refl Hm Hd).
Defined.

End ConsensusRun.
