(* ===== verification/View.v ===== *)
(** * Views of the ledger state

    Keylets (protocol/Keylet.h, impl/Keylet.cpp), the interfaces [ReadView] and
    [RawView] of ledger/ReadView.h and ledger/RawView.h as classes with the laws
    their clients rely on, and the closed ledger of app/ledger/Ledger.cpp as the
    view at the bottom of every stack.  A key is the 256-bit integer; a ledger
    entry has its key, its type and its other fields, of a type [F] that no view
    looks into.  The two [SHAMap]s of a ledger are the finite maps they
    represent, entries in decoded form. *)

From stdpp Require Import base tactics numbers list strings gmap sorting option.
From S2P Require Import Prelude Serializer.

(** ** Ordered iteration over a [std::map] *)

Module Ordered.

Definition key_le {A} (x y : Z * A) : Prop := x.1 <= y.1.

#[export] Instance key_le_dec {A} : RelDecision (@key_le A).
Proof. intros x y. unfold key_le. apply _. Defined.

#[export] Instance key_le_total {A} : Total (@key_le A).
Proof. intros x y. unfold key_le. lia. Qed.

#[export] Instance key_le_trans {A} : Transitive (@key_le A).
Proof. intros x y z. unfold key_le. lia. Qed.

(** The elements in the order of the keys. *)
Definition in_order {A} (m : gmap Z A) : list (Z * A) := merge_sort key_le (map_to_list m).

(** The first element after [key] that satisfies [p]: the loop
    [for (iter = m.upper_bound(key); iter != m.end(); ++iter) if (p) break]. *)
Definition first_above {A} (p : A -> bool) (key : Z) (m : gmap Z A) : option (Z * A) :=
  List.find (fun kv => (key <? kv.1) && p kv.2)%bool (in_order m).

Lemma elem_of_in_order {A} (m : gmap Z A) k v : (k, v) ∈ in_order m <-> m !! k = Some v.
Proof. unfold in_order. by rewrite merge_sort_Permutation, elem_of_map_to_list. Qed.

Lemma in_order_keys {A} (m : gmap Z A) : NoDup (in_order m).*1.
Proof. unfold in_order. rewrite merge_sort_Permutation. apply NoDup_fst_map_to_list. Qed.

Lemma find_sorted {A} (P : Z * A -> bool) l : StronglySorted key_le l ->
  match List.find P l with
  | Some x => x ∈ l /\ P x = true /\ (forall y, y ∈ l -> P y = true -> x.1 <= y.1)
  | None => forall y, y ∈ l -> P y = false
  end.
Proof.
  induction 1 as [|x l Hl IH Hx]; simpl; [by intros y ?%elem_of_nil|].
  destruct (P x) eqn:HP.
  - split; [by left|]. split; [done|]. intros y [->|Hy]%elem_of_cons _; [lia|].
    rewrite list.Forall_forall in Hx. exact (Hx y Hy).
  - destruct (List.find P l) as [z|].
    + destruct IH as (Hz & HPz & Hmin). split; [by right|]. split; [done|].
      intros y [->|Hy]%elem_of_cons HPy; [congruence|auto].
    + intros y [->|Hy]%elem_of_cons; auto.
Qed.

Lemma first_above_spec {A} (p : A -> bool) key (m : gmap Z A) :
  match first_above p key m with
  | Some (k, v) => m !! k = Some v /\ key < k /\ p v = true /\
      (forall j w, key < j < k -> m !! j = Some w -> p w = false)
  | None => forall j w, key < j -> m !! j = Some w -> p w = false
  end.
Proof.
  unfold first_above.
  pose proof (find_sorted (fun kv => (key <? kv.1) && p kv.2)%bool (in_order m)
                (StronglySorted_merge_sort _ _)) as H.
  destruct (List.find _ _) as [[k v]|]; simpl in H.
  - destruct H as (Hin & HP & Hmin). reflect_bools. apply elem_of_in_order in Hin.
    repeat split; try done. intros j w Hj Hw. destruct (p w) eqn:Hp; [|done].
    apply elem_of_in_order in Hw. specialize (Hmin _ Hw). simpl in Hmin. rewrite Hp in Hmin.
    destruct (Z.ltb_spec key j); simpl in *; [|lia]. specialize (Hmin eq_refl). lia.
  - intros j w Hj Hw%elem_of_in_order. specialize (H _ Hw). simpl in H.
    destruct (Z.ltb_spec key j); [done|lia].
Qed.

End Ordered.

(** ** Ledger entries and keylets *)

(** Whether assertions are compiled in. *)
Class Build := { NDEBUG : bool }.

(** The parts of an [STLedgerEntry] the views look at; the rest of its fields. *)
Record SLE (F : Type) := mkSLE { sle_key : Z; getType : Z; fields : F }.
Arguments mkSLE {F} sle_key getType fields.
Arguments sle_key {F} s.
Arguments getType {F} s.
Arguments fields {F} s.

#[export] Instance SLE_eq_dec {F} `{EqDecision F} : EqDecision (SLE F).
Proof. solve_decision. Defined.

Module Keylet.

Definition ltANY : Z := -3.
Definition ltCHILD : Z := -2.
Definition ltINVALID : Z := -1.
Definition ltACCOUNT_ROOT : Z := 97.
Definition ltDIR_NODE : Z := 100.

Record t := mk { type : Z; key : Z }.

Definition unchecked (key : Z) : t := mk ltANY key.

Section check.
Context `{Build} {F : Type}.

Definition assert (b : bool) : result unit := throw_if (negb NDEBUG && negb b) "assert".

(** [Keylet::check]. *)
Definition check (k : t) (sle : SLE F) : result bool :=
  if type k =? ltANY then Ok true
  else if type k =? ltINVALID then Ok false
  else if type k =? ltCHILD then
    _ ← assert (negb (getType sle =? ltDIR_NODE));
    Ok (negb (getType sle =? ltDIR_NODE))
  else
    _ ← assert (getType sle =? type k);
    Ok (getType sle =? type k).

(** What every view does with the entry it found under the keylet's key. *)
Definition checked (k : t) (found : option (SLE F)) : result (option (SLE F)) :=
  match found with
  | None => Ok None
  | Some sle => c ← check k sle; Ok (if c : bool then Some sle else None)
  end.

Lemma check_any i sle : check (unchecked i) sle = Ok true.
Proof. done. Qed.

Lemma check_total k sle : check k sle <> OutOfFuel.
Proof. unfold check, assert, throw_if. by repeat case_if. Qed.

Lemma checked_any i found : checked (unchecked i) found = Ok found.
Proof. by destruct found. Qed.

End check.
End Keylet.

(** ** The interfaces *)

(** [LedgerInfo] of ledger/ReadView.h; hashes are 256-bit integers. *)
Record LedgerInfo := mkInfo {
  isOpen : bool; seq : Z; parentCloseTime : Z;
  hash : Z; txHash : Z; accountHash : Z; parentHash : Z;
  drops : Z;
  validated : bool; accepted : bool;
  closeFlags : Z; closeTimeResolution : Z; closeTime : Z }.

#[export] Instance LedgerInfo_eq_dec : EqDecision LedgerInfo.
Proof. solve_decision. Defined.

Definition set_info_drops (n : Z) (i : LedgerInfo) : LedgerInfo :=
  mkInfo (isOpen i) (seq i) (parentCloseTime i) (hash i) (txHash i) (accountHash i) (parentHash i)
    n (validated i) (accepted i) (closeFlags i) (closeTimeResolution i) (closeTime i).

(** What an open ledger on top of [i] starts with. *)
Definition next_open (i : LedgerInfo) : LedgerInfo :=
  mkInfo true (u32 (seq i + 1)) (closeTime i) (hash i) (txHash i) (accountHash i) (parentHash i)
    (drops i) (validated i) (accepted i) (closeFlags i) (closeTimeResolution i) (closeTime i).

(** The defaults of the structure. *)
Definition info0 : LedgerInfo := mkInfo true 0 0 0 0 0 0 0 false false 0 0 0.

(** The reading half of [ReadView]. *)
Class ReadView (F V : Type) := {
  vinfo : V -> LedgerInfo;
  vexists : V -> Keylet.t -> result bool;
  vsucc : V -> Z -> option Z -> result (option Z);
  vread : V -> Keylet.t -> result (option (SLE F)) }.

(** [RawView]: modifications that go straight to the store. *)
Class RawView (F V : Type) := {
  rawErase : V -> SLE F -> result V;
  rawInsert : V -> SLE F -> result V;
  rawReplace : V -> SLE F -> result V;
  rawDestroyXRP : V -> Z -> V;
  rawCreateXRP : V -> Z -> V }.

(** [TxsRawView] adds the transactions of the ledger. *)
Class TxsRawView (V : Type) := {
  rawTxInsert : V -> Z -> list Z -> option (list Z) -> result V }.

Definition below (last : option Z) (k : Z) : Prop :=
  match last with Some l => k < l | None => True end.

(** [r] is the next key of [m] after [key] and before [last]. *)
Definition next_in {A} (m : gmap Z A) (key : Z) (last : option Z) (r : option Z) : Prop :=
  match r with
  | Some k => key < k /\ is_Some (m !! k) /\ below last k /\
      (forall j, key < j < k -> m !! j = None)
  | None => forall j, key < j -> below last j -> m !! j = None
  end.

Lemma next_in_unique {A} (m : gmap Z A) key last r r' :
  next_in m key last r -> next_in m key last r' -> r = r'.
Proof.
  destruct r as [k|], r' as [k'|]; simpl; [| | |done].
  - intros (? & [? Hk] & _ & H1) (? & [? Hk'] & _ & H2).
    destruct (Z.lt_trichotomy k k') as [?|[->|?]]; [|done|].
    + rewrite (H2 k) in Hk by lia. done.
    + rewrite (H1 k') in Hk' by lia. done.
  - intros (? & [? Hk] & ? & _) Hn. by rewrite Hn in Hk.
  - intros Hn (? & [? Hk] & ? & _). by rewrite Hn in Hk.
Qed.

(** What a view stands for: the entries it shows, and the number of drops of
    the ledger it leads to. *)
Class ViewModel (F V : Type) := {
  contents : V -> gmap Z (SLE F);
  supply : V -> Z;
  good : V -> Prop }.

(** The contract of [ReadView]. *)
Class ReadViewLaws (F V : Type) `{Build} {RV : ReadView F V} {VM : ViewModel F V} : Prop := {
  good_keys v i s : good v -> contents v !! i = Some s -> sle_key s = i /\ i <> 0;
  good_supply v : good v -> 0 <= supply v < 2 ^ 64;
  read_law v k : good v -> Keylet.key k <> 0 ->
    vread v k = Keylet.checked k (contents v !! Keylet.key k);
  exists_law v k : good v -> Keylet.key k <> 0 ->
    (forall s, contents v !! Keylet.key k = Some s -> Keylet.check k s = Ok true) ->
    vexists v k = Ok (bool_decide (is_Some (contents v !! Keylet.key k)));
  succ_law v key last : good v ->
    exists r, vsucc v key last = Ok r /\ next_in (contents v) key last r }.

(** A view became [v'], showing [m] and accounting for [n] drops. *)
Definition becomes {F V} `{ViewModel F V} (r : result V) (m : gmap Z (SLE F)) (n : Z) : Prop :=
  exists v', r = Ok v' /\ good v' /\ contents v' = m /\ supply v' = n.

(** The contract of [RawView]: a modification that fits what the view shows
    is accepted and shows in the view. *)
Class RawViewLaws (F V : Type) {WV : RawView F V} {VM : ViewModel F V} : Prop := {
  rawErase_law v sle s0 : good v -> contents v !! sle_key sle = Some s0 ->
    becomes (rawErase v sle) (delete (sle_key sle) (contents v)) (supply v);
  rawInsert_law v sle : good v -> sle_key sle <> 0 -> contents v !! sle_key sle = None ->
    becomes (rawInsert v sle) (<[sle_key sle := sle]> (contents v)) (supply v);
  rawReplace_law v sle s0 : good v -> contents v !! sle_key sle = Some s0 ->
    becomes (rawReplace v sle) (<[sle_key sle := sle]> (contents v)) (supply v);
  rawDestroyXRP_law v n : good v ->
    becomes (Ok (rawDestroyXRP v n)) (contents v) (u64 (supply v - n));
  rawCreateXRP_law v n : good v ->
    becomes (Ok (rawCreateXRP v n)) (contents v) (u64 (supply v + n)) }.

(** ** Sequences of modifications *)

Module RawOps.

Inductive t (F : Type) :=
| Erase (sle : SLE F) | Insert (sle : SLE F) | Replace (sle : SLE F)
| DestroyXRP (n : Z) | CreateXRP (n : Z).
Arguments Erase {F} sle.
Arguments Insert {F} sle.
Arguments Replace {F} sle.
Arguments DestroyXRP {F} n.
Arguments CreateXRP {F} n.

Section ops.
Context {F : Type}.

Definition run_op {V} `{RawView F V} (v : V) (op : t F) : result V :=
  match op with
  | Erase sle => rawErase v sle
  | Insert sle => rawInsert v sle
  | Replace sle => rawReplace v sle
  | DestroyXRP n => Ok (rawDestroyXRP v n)
  | CreateXRP n => Ok (rawCreateXRP v n)
  end.

(** The modification fits the state. *)
Definition fits (m : gmap Z (SLE F)) (op : t F) : bool :=
  match op with
  | Erase sle | Replace sle => bool_decide (is_Some (m !! sle_key sle))
  | Insert sle => negb (sle_key sle =? 0) && bool_decide (m !! sle_key sle = None)
  | DestroyXRP _ | CreateXRP _ => true
  end.

Definition effect (s : gmap Z (SLE F) * Z) (op : t F) : gmap Z (SLE F) * Z :=
  match op with
  | Erase sle => (delete (sle_key sle) s.1, s.2)
  | Insert sle | Replace sle => (<[sle_key sle := sle]> s.1, s.2)
  | DestroyXRP n => (s.1, u64 (s.2 - n))
  | CreateXRP n => (s.1, u64 (s.2 + n))
  end.

Fixpoint all_fit (s : gmap Z (SLE F) * Z) (ops : list (t F)) : bool :=
  match ops with
  | [] => true
  | op :: ops => fits s.1 op && all_fit (effect s op) ops
  end.

Lemma run_op_spec {V} `{RawViewLaws F V} v op : good v -> fits (contents v) op = true ->
  let s := effect (contents v, supply v) op in becomes (run_op v op) s.1 s.2.
Proof.
  intros Hg. destruct op; simpl; intros Hfit.
  - apply bool_decide_eq_true in Hfit as [s0 ?]. by eapply rawErase_law.
  - reflect_bools. apply bool_decide_eq_true in H1. by apply rawInsert_law.
  - apply bool_decide_eq_true in Hfit as [s0 ?]. by eapply rawReplace_law.
  - by apply rawDestroyXRP_law.
  - by apply rawCreateXRP_law.
Qed.

(** A sequence that fits is accepted, and the view shows its effect. *)
Lemma run_spec {V} `{RawViewLaws F V} ops : forall v, good v ->
  all_fit (contents v, supply v) ops = true ->
  let s := fold_left effect ops (contents v, supply v) in becomes (foldM run_op v ops) s.1 s.2.
Proof.
  induction ops as [|op ops IH]; intros v Hg; simpl.
  - intros _. exists v. done.
  - intros [Hfit Hfits]%andb_true_iff.
    destruct (run_op_spec v op Hg Hfit) as (v' & -> & Hg' & Hc & Hs). simpl.
    destruct (effect (contents v, supply v) op) as [m n]. simpl in *. subst m n. by apply IH.
Qed.

End ops.
End RawOps.

(** ** The closed ledger *)

Module Ledger.

Record t (F : Type) := mk {
  stateMap_ : gmap Z (SLE F);
  txMap_ : gmap Z (list Z);
  info_ : LedgerInfo }.
Arguments mk {F} stateMap_ txMap_ info_.
Arguments stateMap_ {F} t.
Arguments txMap_ {F} t.
Arguments info_ {F} t.

#[export] Instance t_eq_dec {F} `{EqDecision F} : EqDecision (t F).
Proof. solve_decision. Defined.

Section ledger.
Context `{Build} {F : Type}.

Definition set_state (m : gmap Z (SLE F)) (l : t F) : t F := mk m (txMap_ l) (info_ l).
Definition set_drops (n : Z) (l : t F) : t F :=
  mk (stateMap_ l) (txMap_ l) (set_info_drops n (info_ l)).
Definition set_txs (m : gmap Z (list Z)) (l : t F) : t F := mk (stateMap_ l) m (info_ l).

Definition exists_ (l : t F) (k : Keylet.t) : result bool :=
  Ok (bool_decide (is_Some (stateMap_ l !! Keylet.key k))).

Definition succ (l : t F) (key : Z) (last : option Z) : result (option Z) :=
  Ok (match Ordered.first_above (fun _ => true) key (stateMap_ l) with
      | None => None
      | Some (k, _) => match last with
                       | Some e => if e <=? k then None else Some k
                       | None => Some k
                       end
      end).

Definition read (l : t F) (k : Keylet.t) : result (option (SLE F)) :=
  if Keylet.key k =? 0 then _ ← Keylet.assert false; Ok None
  else Keylet.checked k (stateMap_ l !! Keylet.key k).

Definition raw_erase (l : t F) (sle : SLE F) : result (t F) :=
  match stateMap_ l !! sle_key sle with
  | None => Throw "Ledger::rawErase: key not found"
  | Some _ => Ok (set_state (delete (sle_key sle) (stateMap_ l)) l)
  end.

Definition raw_insert (l : t F) (sle : SLE F) : result (t F) :=
  match stateMap_ l !! sle_key sle with
  | Some _ => Throw "Ledger::rawInsert: key already exists"
  | None => Ok (set_state (<[sle_key sle := sle]> (stateMap_ l)) l)
  end.

Definition raw_replace (l : t F) (sle : SLE F) : result (t F) :=
  match stateMap_ l !! sle_key sle with
  | None => Throw "Ledger::rawReplace: key not found"
  | Some _ => Ok (set_state (<[sle_key sle := sle]> (stateMap_ l)) l)
  end.

Definition raw_destroyXRP (l : t F) (feeDrops : Z) : t F :=
  set_drops (u64 (drops (info_ l) - feeDrops)) l.

Definition raw_createXRP (l : t F) (feeDrops : Z) : t F :=
  set_drops (u64 (drops (info_ l) + feeDrops)) l.

(** With metadata the item holds both blobs, each with its length. *)
Definition raw_tx_insert (l : t F) (key : Z) (txn : list Z) (metaData : option (list Z))
    : result (t F) :=
  _ ← Keylet.assert (negb (Bool.eqb (bool_decide (is_Some metaData)) (isOpen (info_ l))));
  item ← (match metaData with
          | Some meta => s ← Serializer.addVL txn []; s ← Serializer.addVL meta s.2; Ok s.2
          | None => Ok txn
          end);
  match txMap_ l !! key with
  | Some _ => Throw "duplicate_tx: "
  | None => Ok (set_txs (<[key := item]> (txMap_ l)) l)
  end.

#[global] Instance ReadView_Ledger : ReadView F (t F) :=
  { vinfo := info_; vexists := exists_; vsucc := succ; vread := read }.

#[global] Instance RawView_Ledger : RawView F (t F) :=
  { rawErase := raw_erase; rawInsert := raw_insert; rawReplace := raw_replace;
    rawDestroyXRP := raw_destroyXRP; rawCreateXRP := raw_createXRP }.

#[global] Instance TxsRawView_Ledger : TxsRawView (t F) := { rawTxInsert := raw_tx_insert }.

#[global] Instance ViewModel_Ledger : ViewModel F (t F) :=
  { contents := stateMap_; supply l := drops (info_ l);
    good l := (forall i s, stateMap_ l !! i = Some s -> sle_key s = i /\ i <> 0) /\
              0 <= drops (info_ l) < 2 ^ 64 }.

Lemma ledger_succ_spec l key last : exists r, succ l key last = Ok r /\ next_in (stateMap_ l) key last r.
Proof.
  eexists. split; [done|].
  pose proof (Ordered.first_above_spec (fun _ => true) key (stateMap_ l)) as Hn.
  destruct (Ordered.first_above _ _ _) as [[k s]|].
  - destruct Hn as (Hk & Hlt & _ & Hmin).
    assert (Hgap : forall j, key < j < k -> stateMap_ l !! j = None).
    { intros j Hj. destruct (stateMap_ l !! j) eqn:E; [|done]. by specialize (Hmin j _ Hj E). }
    destruct last as [e|]; [destruct (Z.leb_spec e k)|]; simpl; eauto 6.
    intros j ? ?. apply Hgap. lia.
  - intros j Hj _. destruct (stateMap_ l !! j) eqn:E; [|done]. by specialize (Hn j _ Hj E).
Qed.

#[global] Instance ReadViewLaws_Ledger : ReadViewLaws F (t F).
Proof.
  split.
  - intros v i s [Hg _] Hi. by apply Hg.
  - by intros v [_ ?].
  - intros v k _ Hk. simpl. unfold read. destruct (Z.eqb_spec (Keylet.key k) 0); [done|done].
  - done.
  - intros v key last _. apply ledger_succ_spec.
Qed.

#[global] Instance RawViewLaws_Ledger : RawViewLaws F (t F).
Proof.
  split.
  - intros v sle s0 [Hg Hd] Hs. simpl in *. unfold raw_erase. rewrite Hs.
    eexists. split; [done|]. split; [|done]. split; [|done]. simpl.
    intros i s [_ Hi]%lookup_delete_Some. auto.
  - intros v sle [Hg Hd] Hk Hs. simpl in *. unfold raw_insert. rewrite Hs.
    eexists. split; [done|]. split; [|done]. split; [|done]. simpl.
    intros i s [[<- <-]|[_ Hi]]%lookup_insert_Some; auto.
  - intros v sle s0 [Hg Hd] Hs. simpl in *. unfold raw_replace. rewrite Hs.
    eexists. split; [done|]. split; [|done]. split; [|done]. simpl.
    intros i s [[<- <-]|[_ Hi]]%lookup_insert_Some; [|auto].
    split; [done|]. by apply Hg in Hs as [_ ?].
  - intros v n [Hg Hd]. eexists. split; [done|]. split; [|done]. split; [exact Hg|apply u64_range].
  - intros v n [Hg Hd]. eexists. split; [done|]. split; [|done]. split; [exact Hg|apply u64_range].
Qed.

End ledger.
End Ledger.
