(* ===== verification/StateTable.v ===== *)
(** * Buffered modifications of a view

    Module [StateTable] holds what the two state tables have in common: the
    overlay of a table on a base view, the loop of [succ] and the loop of
    [apply].  [RawStateTable] is ledger/detail/RawStateTable.h and
    ledger/impl/RawStateTable.cpp; [OpenView] is ledger/impl/OpenView.cpp, a
    view over any base that obeys the contract of [ReadView], which obeys the
    contracts of [ReadView] and [RawView] itself. *)

From stdpp Require Import base tactics numbers list strings gmap sorting option.
From S2P Require Import Prelude Serializer View.

Module StateTable.
Import Ordered.

Section table.
Context `{Build} {F A : Type}.

(** What a table's item does to the entry of the base: nothing ([None]),
    remove it ([Some None]) or put another one there. *)
Implicit Types eff : A -> option (option (SLE F)).

Definition overlay eff (items : gmap Z A) (m : gmap Z (SLE F)) : gmap Z (SLE F) :=
  merge (fun it b => match it with
                     | None => b
                     | Some a => match eff a with None => b | Some r => r end
                     end) items m.

Lemma lookup_overlay eff items m i :
  overlay eff items m !! i =
  match items !! i with
  | None => m !! i
  | Some a => match eff a with None => m !! i | Some r => r end
  end.
Proof. unfold overlay. rewrite lookup_merge. by destruct (items !! i), (m !! i). Qed.

Section succ.
Context {V : Type} {RV : ReadView F V} {VM : ViewModel F V} {RL : ReadViewLaws F V}.
Variable erased : A -> bool.

(** The base successor that is not also deleted in the list. *)
Fixpoint base_succ (fuel : nat) (base : V) (items : gmap Z A) (next : Z) (last : option Z)
    : result (option Z) :=
  match fuel with
  | O => OutOfFuel
  | S fuel =>
      n ← vsucc base next last;
      match n with
      | None => Ok None
      | Some k =>
          match items !! k with
          | Some a => if erased a then base_succ fuel base items k last else Ok (Some k)
          | None => Ok (Some k)
          end
      end
  end.

(** [RawStateTable::succ] and [ApplyStateTable::succ]. *)
Definition table_succ (base : V) (items : gmap Z A) (key : Z) (last : option Z)
    : result (option Z) :=
  next ← base_succ (S (size items)) base items key last;
  let next :=
    match first_above (fun a => negb (erased a)) key items with
    | None => next
    | Some (k, _) =>
        match next with
        | None => Some k
        | Some n => if k <? n then Some k else Some n
        end
    end in
  Ok (match last, next with
      | Some e, Some n => if e <=? n then None else Some n
      | _, _ => next
      end).

(** Position [j] shows nothing of the base. *)
Definition gone (items : gmap Z A) (m : gmap Z (SLE F)) (j : Z) : Prop :=
  m !! j = None \/ exists a, items !! j = Some a /\ erased a = true.

Definition base_next (items : gmap Z A) (m : gmap Z (SLE F)) key last (r : option Z) : Prop :=
  match r with
  | Some k => key < k /\ is_Some (m !! k) /\ below last k /\
      (forall a, items !! k = Some a -> erased a = false) /\
      (forall j, key < j < k -> gone items m j)
  | None => forall j, key < j -> below last j -> gone items m j
  end.

Definition after (items : gmap Z A) (next : Z) : gmap Z A :=
  filter (fun kv => next < kv.1) items.

Lemma after_shrinks items n k a : n < k -> items !! k = Some a ->
  (size (after items k) < size (after items n))%nat.
Proof.
  intros Hn Hk. apply map_subset_size. apply map_subset_alt. split.
  - apply map_subseteq_spec. intros i x [Hi Hx]%map_lookup_filter_Some.
    apply map_lookup_filter_Some. simpl in *. split; [done|lia].
  - exists k. split.
    + apply map_lookup_filter_None. right. intros x _. simpl. lia.
    + exists a. by apply map_lookup_filter_Some.
Qed.

Lemma base_succ_spec base items key last : good base -> forall fuel next,
  key <= next -> (forall j, key < j <= next -> gone items (contents base) j) ->
  (size (after items next) < fuel)%nat ->
  exists r, base_succ fuel base items next last = Ok r /\
            base_next items (contents base) key last r.
Proof.
  intros Hg fuel. induction fuel as [|fuel IH]; intros next Hk Hgone Hf; [lia|]. simpl.
  destruct (succ_law base next last Hg) as (r & -> & Hr). simpl.
  assert (Hgap : forall j, key < j -> (j <= next \/ contents base !! j = None) ->
                 gone items (contents base) j).
  { intros j ? [?|?]; [apply Hgone; lia|by left]. }
  destruct r as [k|]; simpl in Hr.
  - destruct Hr as (Hnk & Hs & Hb & Hmin).
    assert (Hbelow : forall j, key < j < k -> gone items (contents base) j).
    { intros j Hj. apply Hgap; [lia|]. destruct (decide (j <= next)); [by left|].
      right. apply Hmin. lia. }
    destruct (items !! k) as [a|] eqn:Hi; [destruct (erased a) eqn:He|].
    + apply IH; [lia| |pose proof (after_shrinks items next k a Hnk Hi); lia].
      intros j Hj. destruct (decide (j = k)) as [->|]; [right; eauto|apply Hbelow; lia].
    + exists (Some k). split; [done|]. repeat split; try done; [lia|]. intros b ?. congruence.
    + exists (Some k). split; [done|]. repeat split; try done; [lia|]. intros b ?. congruence.
  - exists None. split; [done|]. intros j Hj Hb. apply Hgap; [done|].
    destruct (decide (j <= next)); [by left|]. right. apply Hr; [lia|done].
Qed.

(** Dropping a candidate that is not before [last]. *)
Lemma cut_last (m : gmap Z (SLE F)) key last r :
  match r with
  | Some k => key < k /\ is_Some (m !! k) /\
      (forall j, key < j < k -> below last j -> m !! j = None)
  | None => forall j, key < j -> below last j -> m !! j = None
  end ->
  next_in m key last (match last, r with
                      | Some e, Some n => if e <=? n then None else Some n
                      | _, _ => r
                      end).
Proof.
  destruct last as [e|], r as [k|]; simpl; intros Hr; try done.
  - destruct Hr as (Hk & Hs & Hgap). destruct (Z.leb_spec e k); simpl.
    + intros j ? ?. apply Hgap; lia.
    + repeat split; try done. intros j ?. apply Hgap; lia.
  - destruct Hr as (Hk & Hs & Hgap). repeat split; try done. intros j ?. by apply Hgap.
Qed.

(** [succ] on a table is the successor in the overlay. *)
Lemma table_succ_spec eff base items key last : good base ->
  (forall i a, items !! i = Some a -> (eff a = Some None <-> erased a = true)) ->
  (forall i a, items !! i = Some a -> eff a <> None) ->
  exists r, table_succ base items key last = Ok r /\
            next_in (overlay eff items (contents base)) key last r.
Proof.
  intros Hg He Hn. unfold table_succ.
  destruct (base_succ_spec base items key last Hg (S (size items)) key) as (n & -> & Hb);
    [lia|intros; lia| |].
  { unfold after. pose proof (map_size_filter (fun kv : Z * A => key < kv.1) items). lia. }
  pose proof (first_above_spec (fun a => negb (erased a)) key items) as Hf.
  set (m := contents base) in *. simpl.
  assert (Hover : forall j, gone items m j -> (forall a, items !! j = Some a -> erased a = true) ->
                 overlay eff items m !! j = None).
  { intros j Hj Ha. rewrite lookup_overlay. destruct (items !! j) as [a|] eqn:Hi.
    - specialize (Ha a eq_refl). apply (He _ _ Hi) in Ha. by rewrite Ha.
    - destruct Hj as [Hj|(a & Hi' & _)]; [done|congruence]. }
  assert (Hshow : forall k, is_Some (m !! k) \/ is_Some (items !! k) ->
                 (forall a, items !! k = Some a -> erased a = false) ->
                 is_Some (overlay eff items m !! k)).
  { intros k Hk Ha. rewrite lookup_overlay. destruct (items !! k) as [a|] eqn:Hi.
    - specialize (Ha a eq_refl). destruct (eff a) as [[s|]|] eqn:E; [by eauto| |by destruct (Hn _ _ Hi)].
      apply (He _ _ Hi) in E. congruence.
    - by destruct Hk as [?|[? ?]]. }
  assert (Hdead : forall j, key < j -> gone items m j ->
     match first_above (fun a => negb (erased a)) key items with
     | Some (k, _) => j < k | None => True end -> overlay eff items m !! j = None).
  { intros j Hj Hj' Hjk. apply Hover; [done|]. intros a Ha. apply negb_false_iff.
    destruct (first_above _ _ _) as [[k b]|]; [destruct Hf as (_ & _ & _ & Hf)|]; eauto. }
  eexists. split; [done|]. apply cut_last.
  destruct (first_above _ _ _) as [[k b]|].
  - destruct Hf as (Hk & Hkey & Hp & _). apply negb_true_iff in Hp.
    assert (is_Some (overlay eff items m !! k)) by (apply Hshow; [eauto|congruence]).
    destruct n as [n|]; [destruct Hb as (Hn1 & Hn2 & Hn3 & Hn4 & Hn5); destruct (Z.ltb_spec k n)|].
    + repeat split; try done. intros j Hj _. apply Hdead; [lia|apply Hn5; lia|lia].
    + repeat split; [done|auto|]. intros j Hj _. apply Hdead; [lia|apply Hn5; lia|lia].
    + repeat split; try done. intros j Hj Hjl. apply Hdead; [lia|apply Hb; [lia|done]|lia].
  - destruct n as [n|]; [destruct Hb as (Hn1 & Hn2 & Hn3 & Hn4 & Hn5)|].
    + repeat split; [done|auto|]. intros j Hj _. apply Hdead; [lia|apply Hn5; lia|done].
    + intros j Hj Hjl. apply Hdead; [lia|by apply Hb|done].
Qed.

End succ.

(** Applying the items to a target that shows what the base shows. *)
Lemma apply_items_spec {T} {VM : ViewModel F T} eff (f : T -> Z * A -> result T)
    (items : gmap Z A) (m : gmap Z (SLE F)) :
  (forall to i a, items !! i = Some a -> good to -> contents to !! i = m !! i ->
     becomes (f to (i, a))
       (match eff a with
        | None => contents to
        | Some None => delete i (contents to)
        | Some (Some s) => <[i := s]> (contents to)
        end) (supply to)) ->
  forall to, good to -> contents to = m ->
  becomes (foldM f to (in_order items)) (overlay eff items m) (supply to).
Proof.
  intros Hf. set (O := overlay eff items m).
  assert (forall l to, NoDup l.*1 -> (forall i a, (i, a) ∈ l -> items !! i = Some a) -> good to ->
    (forall i, contents to !! i = if decide (i ∈ l.*1) then m !! i else O !! i) ->
    becomes (foldM f to l) O (supply to)) as Hl.
  { intros l. induction l as [|[i a] l IH]; intros to Hnd Hin Hg Hto; simpl.
    - exists to. repeat split; try done. apply map_eq. intros i. rewrite Hto.
      rewrite decide_False; [done|]. apply not_elem_of_nil.
    - apply list.NoDup_cons in Hnd as [Hi Hnd]. simpl in Hi.
      assert (Ha : items !! i = Some a) by (apply Hin; left).
      destruct (Hf to i a Ha Hg) as (to1 & -> & Hg1 & Hc1 & Hs1).
      { rewrite Hto, decide_True; [done|]. left. }
      rewrite <- Hs1. simpl. apply IH; [done|intros; apply Hin; by right|done|].
      intros j. rewrite Hc1.
      destruct (decide (j = i)) as [->|Hji].
      + rewrite decide_False by done. unfold O. rewrite lookup_overlay, Ha.
        destruct (eff a) as [[s|]|]; [by rewrite lookup_insert_eq|by rewrite lookup_delete_eq|].
        rewrite Hto, decide_True; [done|]. left.
      + assert (contents to !! j = if decide (j ∈ l.*1) then m !! j else O !! j) as Hj.
        { rewrite Hto. simpl. destruct (decide (j ∈ l.*1)).
          - rewrite decide_True; [done|]. by right.
          - rewrite decide_False; [done|]. by intros [?|?]%elem_of_cons. }
        destruct (eff a) as [[s|]|]; [by rewrite lookup_insert_ne|by rewrite lookup_delete_ne|done]. }
  intros to Hg Hc. apply Hl; [apply in_order_keys| |done|].
  - intros i a. apply elem_of_in_order.
  - intros i. rewrite Hc. case_decide as Hi; [done|]. unfold O. rewrite lookup_overlay.
    destruct (items !! i) as [a|] eqn:Ha; [|done]. destruct Hi.
    apply elem_of_in_order in Ha. apply (list_elem_of_fmap_2 fst _ _ Ha).
Qed.

End table.
End StateTable.

Module RawStateTable.
Import Ordered StateTable.

Inductive Action := erase_ | insert_ | replace_.

#[export] Instance Action_eq_dec : EqDecision Action.
Proof. solve_decision. Defined.

Record t (F : Type) := mk {
  items_ : gmap Z (Action * SLE F);
  dropsDestroyed_ : Z;
  dropsCreated_ : Z }.
Arguments mk {F} items_ dropsDestroyed_ dropsCreated_.
Arguments items_ {F} t.
Arguments dropsDestroyed_ {F} t.
Arguments dropsCreated_ {F} t.

Section raw.
Context `{Build} {F : Type}.
Implicit Types (tb : t F) (sle : SLE F).

Definition empty : t F := mk ∅ 0 0.

Definition set_items (m : gmap Z (Action * SLE F)) tb : t F :=
  mk m (dropsDestroyed_ tb) (dropsCreated_ tb).

Definition erase sle tb : result (t F) :=
  match items_ tb !! sle_key sle with
  | None => Ok (set_items (<[sle_key sle := (erase_, sle)]> (items_ tb)) tb)
  | Some (erase_, _) => Throw "RawStateTable::erase: already erased"
  | Some (insert_, _) => Ok (set_items (delete (sle_key sle) (items_ tb)) tb)
  | Some (replace_, _) => Ok (set_items (<[sle_key sle := (erase_, sle)]> (items_ tb)) tb)
  end.

Definition insert sle tb : result (t F) :=
  match items_ tb !! sle_key sle with
  | None => Ok (set_items (<[sle_key sle := (insert_, sle)]> (items_ tb)) tb)
  | Some (erase_, _) => Ok (set_items (<[sle_key sle := (replace_, sle)]> (items_ tb)) tb)
  | Some (insert_, _) => Throw "RawStateTable::insert: already inserted"
  | Some (replace_, _) => Throw "RawStateTable::insert: already exists"
  end.

Definition replace sle tb : result (t F) :=
  match items_ tb !! sle_key sle with
  | None => Ok (set_items (<[sle_key sle := (replace_, sle)]> (items_ tb)) tb)
  | Some (erase_, _) => Throw "RawStateTable::replace: was erased"
  | Some (insert_, _) => Ok (set_items (<[sle_key sle := (insert_, sle)]> (items_ tb)) tb)
  | Some (replace_, _) => Ok (set_items (<[sle_key sle := (replace_, sle)]> (items_ tb)) tb)
  end.

Definition destroyXRP (feeDrops : Z) tb : t F :=
  mk (items_ tb) (u64 (dropsDestroyed_ tb + feeDrops)) (dropsCreated_ tb).

Definition createXRP (feeDrops : Z) tb : t F :=
  mk (items_ tb) (dropsDestroyed_ tb) (u64 (dropsCreated_ tb + feeDrops)).

(** One turn of the loop of [apply]. *)
Definition apply_item {T} `{RawView F T} (to : T) (elem : Z * (Action * SLE F)) : result T :=
  match elem.2 with
  | (erase_, sle) => rawErase to sle
  | (insert_, sle) => rawInsert to sle
  | (replace_, sle) => rawReplace to sle
  end.

Definition apply {T} `{RawView F T} tb (to : T) : result T :=
  let to := rawCreateXRP to (dropsCreated_ tb) in
  let to := rawDestroyXRP to (dropsDestroyed_ tb) in
  foldM apply_item to (in_order (items_ tb)).

Definition erased (it : Action * SLE F) : bool := bool_decide (it.1 = erase_).

Section reads.
Context {V : Type} {RV : ReadView F V}.

Definition exists_ (base : V) tb (k : Keylet.t) : result bool :=
  _ ← Keylet.assert (negb (Keylet.key k =? 0));
  match items_ tb !! Keylet.key k with
  | None => vexists base k
  | Some (erase_, _) => Ok false
  | Some (_, sle) => c ← Keylet.check k sle; Ok (if c : bool then true else false)
  end.

Definition succ (base : V) tb (key : Z) (last : option Z) : result (option Z) :=
  table_succ erased base (items_ tb) key last.

Definition read (base : V) tb (k : Keylet.t) : result (option (SLE F)) :=
  match items_ tb !! Keylet.key k with
  | None => vread base k
  | Some (erase_, _) => Ok None
  | Some (_, sle) => c ← Keylet.check k sle; Ok (if c : bool then Some sle else None)
  end.

End reads.

(** ** What a table stands for *)

Definition eff (it : Action * SLE F) : option (option (SLE F)) :=
  match it with
  | (erase_, _) => Some None
  | (_, sle) => Some (Some sle)
  end.

(** The table fits the base [m]: only what the base does not have is inserted,
    only what it has is erased or replaced. *)
Definition item_ok (m : gmap Z (SLE F)) (i : Z) (it : Action * SLE F) : Prop :=
  sle_key it.2 = i /\ i <> 0 /\
  match it.1 with insert_ => m !! i = None | _ => is_Some (m !! i) end.

Definition ok (m : gmap Z (SLE F)) tb : Prop :=
  (forall i it, items_ tb !! i = Some it -> item_ok m i it) /\
  0 <= dropsDestroyed_ tb < 2 ^ 64 /\ 0 <= dropsCreated_ tb < 2 ^ 64.

Abbreviation shown m tb := (overlay eff (items_ tb) m).

Definition drops_after (n : Z) tb : Z := u64 (u64 (n + dropsCreated_ tb) - dropsDestroyed_ tb).

Lemma raw_drops_after_eq n tb : drops_after n tb = u64 (n + dropsCreated_ tb - dropsDestroyed_ tb).
Proof. apply u64_sub_l. Qed.

Lemma ok_set_items m tb i it : ok m tb -> item_ok m i it ->
  ok m (set_items (<[i := it]> (items_ tb)) tb).
Proof.
  intros [Hok Hd] Hit. split; [|done]. intros j jt. simpl.
  intros [[<- <-]|[_ Hj]]%lookup_insert_Some; auto.
Qed.

Lemma ok_drop_item m tb i : ok m tb -> ok m (set_items (delete i (items_ tb)) tb).
Proof.
  intros [Hok Hd]. split; [|done]. intros j jt. simpl. intros [_ Hj]%lookup_delete_Some. auto.
Qed.

Lemma shown_insert m tb i it : shown m (set_items (<[i := it]> (items_ tb)) tb) =
  match eff it with
  | Some (Some s) => <[i := s]> (shown m tb)
  | _ => delete i (shown m tb)
  end.
Proof.
  apply map_eq. intros j. rewrite lookup_overlay. simpl.
  destruct (decide (i = j)) as [<-|].
  - rewrite lookup_insert_eq. destruct it as [[] s]; simpl;
      by rewrite ?lookup_insert_eq, ?lookup_delete_eq.
  - rewrite lookup_insert_ne by done. destruct it as [[] s]; simpl;
      by rewrite ?lookup_insert_ne, ?lookup_delete_ne, lookup_overlay by done.
Qed.

Lemma shown_drop m tb i : m !! i = None ->
  shown m (set_items (delete i (items_ tb)) tb) = delete i (shown m tb).
Proof.
  intros Hm. apply map_eq. intros j. rewrite lookup_overlay. simpl.
  destruct (decide (i = j)) as [<-|].
  - by rewrite !lookup_delete_eq.
  - by rewrite !lookup_delete_ne, lookup_overlay by done.
Qed.

(** [tb'] has the drops of [tb], fits the base and shows [shown']. *)
Definition steps_to (m : gmap Z (SLE F)) tb (r : result (t F)) (shown' : gmap Z (SLE F)) : Prop :=
  exists tb', r = Ok tb' /\ ok m tb' /\ shown m tb' = shown' /\
    dropsDestroyed_ tb' = dropsDestroyed_ tb /\ dropsCreated_ tb' = dropsCreated_ tb.

Lemma steps_insert m tb i a sle : ok m tb -> item_ok m i (a, sle) ->
  steps_to m tb (Ok (set_items (<[i := (a, sle)]> (items_ tb)) tb))
    (match a with erase_ => delete i (shown m tb) | _ => <[i := sle]> (shown m tb) end).
Proof.
  intros Hok Hit. eexists. split; [done|]. split; [by apply ok_set_items|]. split; [|done].
  rewrite shown_insert. by destruct a.
Qed.

Lemma steps_drop m tb i : ok m tb -> m !! i = None ->
  steps_to m tb (Ok (set_items (delete i (items_ tb)) tb)) (delete i (shown m tb)).
Proof.
  intros Hok Hi. eexists. split; [done|]. split; [by apply ok_drop_item|]. split; [|done].
  by apply shown_drop.
Qed.

Section ops.
Variables (m : gmap Z (SLE F)) (tb : t F).
Hypothesis base_keys : forall i s, m !! i = Some s -> i <> 0.
Hypothesis Hok : ok m tb.

(** What the item under [i] says of the base. *)
Lemma raw_item_facts i a s : items_ tb !! i = Some (a, s) ->
  i <> 0 /\ match a with insert_ => m !! i = None | _ => is_Some (m !! i) end.
Proof. intros Hi. by destruct (proj1 Hok _ _ Hi) as (_ & ? & ?). Qed.

Lemma raw_erase_spec sle s0 : shown m tb !! sle_key sle = Some s0 ->
  steps_to m tb (erase sle tb) (delete (sle_key sle) (shown m tb)).
Proof.
  rewrite lookup_overlay. unfold erase.
  destruct (items_ tb !! sle_key sle) as [[[] s]|] eqn:Hi; simpl; intros Hs; try done;
    try apply raw_item_facts in Hi as [Hz Hm].
  - by apply steps_drop.
  - by apply (steps_insert m tb _ erase_ sle).
  - apply (steps_insert m tb _ erase_ sle); [done|]. repeat split; simpl; eauto.
Qed.

Lemma raw_insert_spec sle : sle_key sle <> 0 -> shown m tb !! sle_key sle = None ->
  steps_to m tb (insert sle tb) (<[sle_key sle := sle]> (shown m tb)).
Proof.
  intros Hz. rewrite lookup_overlay. unfold insert.
  destruct (items_ tb !! sle_key sle) as [[[] s]|] eqn:Hi; simpl; intros Hs; try done;
    try apply raw_item_facts in Hi as [_ Hm].
  - by apply (steps_insert m tb _ replace_ sle).
  - by apply (steps_insert m tb _ insert_ sle).
Qed.

Lemma raw_replace_spec sle s0 : shown m tb !! sle_key sle = Some s0 ->
  steps_to m tb (replace sle tb) (<[sle_key sle := sle]> (shown m tb)).
Proof.
  rewrite lookup_overlay. unfold replace.
  destruct (items_ tb !! sle_key sle) as [[[] s]|] eqn:Hi; simpl; intros Hs; try done;
    try apply raw_item_facts in Hi as [Hz Hm].
  - by apply (steps_insert m tb _ insert_ sle).
  - by apply (steps_insert m tb _ replace_ sle).
  - apply (steps_insert m tb _ replace_ sle); [done|]. repeat split; simpl; eauto.
Qed.

(** The table's modifications reach a target that shows what the base shows. *)
Lemma raw_apply_spec {T} `{RawViewLaws F T} (to : T) : good to -> contents to = m ->
  becomes (apply tb to) (shown m tb) (drops_after (supply to) tb).
Proof.
  intros Hg Hto. unfold apply, drops_after.
  destruct (rawCreateXRP_law to (dropsCreated_ tb) Hg) as (to1 & [= <-] & Hg1 & Hc1 & Hs1).
  destruct (rawDestroyXRP_law _ (dropsDestroyed_ tb) Hg1) as (to2 & [= <-] & Hg2 & Hc2 & Hs2).
  rewrite Hs1 in Hs2. rewrite <- Hs2. apply apply_items_spec; [|done|congruence].
  intros to' i [a sle] Hi Hg' Hc. destruct (proj1 Hok _ _ Hi) as (Hk & Hz & Hm). simpl in *. subst i.
  destruct a; simpl; [destruct Hm as [s0 Hm]|by apply rawInsert_law; congruence|destruct Hm as [s0 Hm]].
  - apply (rawErase_law to' sle s0); [done|congruence].
  - apply (rawReplace_law to' sle s0); [done|congruence].
Qed.

End ops.

Section views.
Context {V : Type} {RV : ReadView F V} {VM : ViewModel F V} {RL : ReadViewLaws F V}.
Variables (base : V) (tb : t F).
Hypothesis base_good : good base.

Lemma raw_read_spec k : Keylet.key k <> 0 ->
  read base tb k = Keylet.checked k (shown (contents base) tb !! Keylet.key k).
Proof.
  intros Hk. unfold read. rewrite lookup_overlay.
  destruct (items_ tb !! Keylet.key k) as [[[] s]|]; try done. by apply read_law.
Qed.

Lemma raw_exists_spec k : Keylet.key k <> 0 ->
  (forall s, shown (contents base) tb !! Keylet.key k = Some s -> Keylet.check k s = Ok true) ->
  exists_ base tb k = Ok (bool_decide (is_Some (shown (contents base) tb !! Keylet.key k))).
Proof.
  intros Hk. unfold exists_, Keylet.assert. apply Z.eqb_neq in Hk as Hk'. rewrite Hk', andb_false_r. simpl.
  rewrite lookup_overlay.
  destruct (items_ tb !! Keylet.key k) as [[[] s]|]; simpl; intros Hc; try done;
    [by rewrite (Hc s)|by rewrite (Hc s)|by apply exists_law].
Qed.

Lemma raw_succ_spec key last : exists r, succ base tb key last = Ok r /\
  next_in (shown (contents base) tb) key last r.
Proof.
  apply table_succ_spec; [done| |by intros ? [[] ?]].
  intros i [[] s] _; unfold erased; simpl; by rewrite ?bool_decide_eq_true.
Qed.

End views.

End raw.
End RawStateTable.

Module OpenView.
Import Ordered StateTable.

Record t (F V : Type) := mk {
  txs_ : gmap Z (list Z * option (list Z));
  info_ : LedgerInfo;
  base_ : V;
  items_ : RawStateTable.t F }.
Arguments mk {F V} txs_ info_ base_ items_.
Arguments info_ {F V} t.
Arguments base_ {F V} t.
Arguments items_ {F V} t.
Arguments txs_ {F V} t.

Section open_view.
Context `{Build} {F V : Type}.
Context {RV : ReadView F V} {VM : ViewModel F V} {RL : ReadViewLaws F V}.
Implicit Types (v : t F V) (sle : SLE F).

Definition make (base : V) : t F V := mk ∅ (vinfo base) base RawStateTable.empty.

(** The constructor for the next open ledger. *)
Definition make_open (base : V) : t F V := mk ∅ (next_open (vinfo base)) base RawStateTable.empty.

Definition with_items v (r : result (RawStateTable.t F)) : result (t F V) :=
  tb ← r; Ok (mk (txs_ v) (info_ v) (base_ v) tb).

Definition exists_ v (k : Keylet.t) : result bool := RawStateTable.exists_ (base_ v) (items_ v) k.

Definition succ v (key : Z) (last : option Z) : result (option Z) :=
  RawStateTable.succ (base_ v) (items_ v) key last.

Definition read v (k : Keylet.t) : result (option (SLE F)) :=
  RawStateTable.read (base_ v) (items_ v) k.

Definition txCount v : Z := Z.of_nat (size (txs_ v)).

Definition txExists v (key : Z) : bool := bool_decide (is_Some (txs_ v !! key)).

Definition raw_erase v sle : result (t F V) := with_items v (RawStateTable.erase sle (items_ v)).
Definition raw_insert v sle : result (t F V) := with_items v (RawStateTable.insert sle (items_ v)).
Definition raw_replace v sle : result (t F V) := with_items v (RawStateTable.replace sle (items_ v)).

Definition raw_destroyXRP v (feeDrops : Z) : t F V :=
  mk (txs_ v) (info_ v) (base_ v) (RawStateTable.destroyXRP feeDrops (items_ v)).
Definition raw_createXRP v (feeDrops : Z) : t F V :=
  mk (txs_ v) (info_ v) (base_ v) (RawStateTable.createXRP feeDrops (items_ v)).

Definition raw_tx_insert v (key : Z) (txn : list Z) (metaData : option (list Z))
    : result (t F V) :=
  match txs_ v !! key with
  | Some _ => Throw "rawTxInsert: duplicate TX id"
  | None => Ok (mk (<[key := (txn, metaData)]> (txs_ v)) (info_ v) (base_ v) (items_ v))
  end.

Definition apply {T} `{RawView F T} `{TxsRawView T} v (to : T) : result T :=
  to ← RawStateTable.apply (items_ v) to;
  foldM (fun to item => rawTxInsert to item.1 item.2.1 item.2.2) to (in_order (txs_ v)).

#[global] Instance ReadView_OpenView : ReadView F (t F V) :=
  { vinfo := info_; vexists := exists_; vsucc := succ; vread := read }.

#[global] Instance RawView_OpenView : RawView F (t F V) :=
  { rawErase := raw_erase; rawInsert := raw_insert; rawReplace := raw_replace;
    rawDestroyXRP := raw_destroyXRP; rawCreateXRP := raw_createXRP }.

#[global] Instance TxsRawView_OpenView : TxsRawView (t F V) := { rawTxInsert := raw_tx_insert }.

(** The view shows its table over the base. *)
#[global] Instance ViewModel_OpenView : ViewModel F (t F V) :=
  { contents v := overlay RawStateTable.eff (RawStateTable.items_ (items_ v)) (contents (base_ v));
    supply v := RawStateTable.drops_after (supply (base_ v)) (items_ v);
    good v := good (base_ v) /\ RawStateTable.ok (contents (base_ v)) (items_ v) }.

#[global] Instance ReadViewLaws_OpenView : ReadViewLaws F (t F V).
Proof.
  split.
  - intros v i s [Hb [Hok _]]. simpl. rewrite lookup_overlay.
    destruct (RawStateTable.items_ (items_ v) !! i) as [[a s']|] eqn:Hi; simpl.
    + destruct (Hok _ _ Hi) as (? & ? & _). by destruct a; intros [= <-].
    + by apply good_keys.
  - intros v _. apply u64_range.
  - intros v k [Hb _]. by apply RawStateTable.raw_read_spec.
  - intros v k [Hb _]. by apply RawStateTable.raw_exists_spec.
  - intros v key last [Hb _]. by apply RawStateTable.raw_succ_spec.
Qed.

Lemma open_with_items_becomes v r shown' : good v ->
  RawStateTable.steps_to (contents (base_ v)) (items_ v) r shown' ->
  becomes (with_items v r) shown' (supply v).
Proof.
  intros [Hb _] (tb' & -> & Hok & Hs & Hd & Hc). eexists. split; [done|].
  split; [done|]. split; [done|]. simpl. unfold RawStateTable.drops_after. by rewrite Hd, Hc.
Qed.

Lemma open_base_keys v : good v -> forall i s, contents (base_ v) !! i = Some s -> i <> 0.
Proof. intros [Hb _] i s Hs. by apply (good_keys _ _ _ Hb Hs). Qed.

#[global] Instance RawViewLaws_OpenView : RawViewLaws F (t F V).
Proof.
  split.
  - intros v sle s0 Hg Hs. apply open_with_items_becomes; [done|].
    eapply RawStateTable.raw_erase_spec; [by apply open_base_keys|apply Hg|exact Hs].
  - intros v sle Hg Hz Hs. apply open_with_items_becomes; [done|].
    by apply RawStateTable.raw_insert_spec; [apply Hg| |].
  - intros v sle s0 Hg Hs. apply open_with_items_becomes; [done|].
    eapply RawStateTable.raw_replace_spec; [by apply open_base_keys|apply Hg|exact Hs].
  - intros v n (Hb & Hok & Hd & Hc). eexists. split; [done|]. split; [|split; [done|]].
    + split; [done|]. split; [done|]. split; [apply u64_range|done].
    + simpl. rewrite !RawStateTable.raw_drops_after_eq. simpl.
      rewrite u64_sub_l, u64_sub_r. f_equal. lia.
  - intros v n (Hb & Hok & Hd & Hc). eexists. split; [done|]. split; [|split; [done|]].
    + split; [done|]. split; [done|]. split; [done|apply u64_range].
    + simpl. rewrite !RawStateTable.raw_drops_after_eq. simpl.
      rewrite u64_add_l, <- (u64_sub_l (_ + u64 _)), u64_add_r, u64_sub_l. f_equal. lia.
Qed.

Lemma run_base ops : forall v v', foldM RawOps.run_op v ops = Ok v' -> base_ v' = base_ v.
Proof.
  induction ops as [|op ops IH]; intros v v'; simpl; [by intros [= <-]|].
  assert (forall r v', with_items v r = Ok v' -> base_ v' = base_ v) as Hw
    by (intros [] ?; simpl; [intros [= <-]|..]; done).
  destruct (RawOps.run_op v op) as [v1| |] eqn:Ho; simpl; [|done..]. intros Hv.
  rewrite (IH _ _ Hv). destruct op; simpl in Ho; [by eapply Hw..| |]; by injection Ho as <-.
Qed.

Lemma open_make_good base : good base ->
  good (make base) /\ contents (make base) = contents base /\ supply (make base) = supply base.
Proof.
  intros Hb. split; [|split].
  - split; [done|]. split; [|done]. intros i it Hi. simpl in Hi. by rewrite lookup_empty in Hi.
  - apply map_eq. intros i. simpl. by rewrite lookup_overlay, lookup_empty.
  - pose proof (good_supply _ Hb). simpl. rewrite RawStateTable.raw_drops_after_eq. simpl.
    rewrite u64_id; lia.
Qed.

(** Two views of which the first cannot be told from the second by reading. *)
Definition reads_like {V1 V2} `{ReadView F V1} `{ReadView F V2} (v1 : V1) (v2 : V2) : Prop :=
  (forall k, Keylet.key k <> 0 -> vread v1 k = vread v2 k) /\
  (forall key last, vsucc v1 key last = vsucc v2 key last).

Lemma reads_like_contents {V1 V2} {RV1 : ReadView F V1} {VM1 : ViewModel F V1}
    {RV2 : ReadView F V2} {VM2 : ViewModel F V2} {RL1 : ReadViewLaws F V1}
    {RL2 : ReadViewLaws F V2} (v1 : V1) (v2 : V2) :
  good v1 -> good v2 -> contents v1 = contents v2 -> reads_like v1 v2.
Proof.
  intros Hg1 Hg2 Hc. split.
  - intros k Hk. rewrite !read_law by done. by rewrite Hc.
  - intros key last.
    destruct (succ_law v1 key last Hg1) as (r1 & -> & Hr1).
    destruct (succ_law v2 key last Hg2) as (r2 & -> & Hr2).
    rewrite Hc in Hr1. by rewrite (next_in_unique _ _ _ _ _ Hr1 Hr2).
Qed.

End open_view.

Section transactions.
Context `{Build} {F V : Type} {RV : ReadView F V} {WV : RawView F V} {VM : ViewModel F V}.
Context {RL : ReadViewLaws F V} {WL : RawViewLaws F V}.
Import RawOps.

(** C6: a view buffers modifications faithfully.  Let [v] be any view that
    keeps the contracts, such as a closed ledger or another open view, and
    [ops] a sequence of erasures, insertions, replacements and changes of the
    drops that fits what [v] shows.  Then an open view over [v] takes the
    sequence without failing and while [v] itself is unchanged: reading it by
    keylet or stepping through its keys is the same as on [v] modified
    directly, and applying it to [v] leads to the same entries and the same
    number of drops as modifying [v] directly. *)
Theorem openview_transparent (v : V) (ops : list (RawOps.t F)) : good v ->
  all_fit (contents v, supply v) ops = true ->
  exists ov v1 v2, foldM run_op (make v) ops = Ok ov /\ base_ ov = v /\
    foldM run_op v ops = Ok v1 /\ reads_like ov v1 /\
    RawStateTable.apply (items_ ov) v = Ok v2 /\
    contents v2 = contents v1 /\ supply v2 = supply v1.
Proof.
  intros Hg Hfit. destruct (open_make_good v Hg) as (Hg0 & Hc0 & Hs0).
  destruct (run_spec ops v Hg Hfit) as (v1 & Hrun1 & Hg1 & Hc1 & Hs1).
  destruct (run_spec ops (make v) Hg0) as (ov & Hrun & Hgo & Hco & Hso);
    [by rewrite Hc0, Hs0|].
  rewrite Hc0, Hs0 in Hco, Hso. pose proof (run_base _ _ _ Hrun) as Hb. simpl in Hb.
  assert (Hok : RawStateTable.ok (contents v) (items_ ov)) by (rewrite <- Hb; apply Hgo).
  destruct (RawStateTable.raw_apply_spec (contents v) (items_ ov) Hok v Hg eq_refl)
    as (v2 & Ha & Hg2 & Hc2 & Hs2).
  exists ov, v1, v2. do 3 (split; [done|]).
  split; [apply reads_like_contents; [done|done|congruence]|]. split; [done|].
  simpl in Hco, Hso. rewrite Hb in Hco, Hso. split; congruence.
Qed.

End transactions.

(** A ledger with two entries, and a sequence on three. *)
#[local] Instance debug : Build := {| NDEBUG := false |}.

Definition ledger2 : Ledger.t Z :=
  Ledger.mk {[ 5 := mkSLE 5 Keylet.ltACCOUNT_ROOT 100; 9 := mkSLE 9 Keylet.ltDIR_NODE 7 ]} ∅ (set_info_drops 1000 info0).

Definition ops3 : list (RawOps.t Z) :=
  [RawOps.Insert (mkSLE 7 Keylet.ltACCOUNT_ROOT 1); RawOps.Erase (mkSLE 9 Keylet.ltDIR_NODE 7);
   RawOps.Replace (mkSLE 5 Keylet.ltACCOUNT_ROOT 90); RawOps.DestroyXRP 10;
   RawOps.Insert (mkSLE 9 Keylet.ltDIR_NODE 8); RawOps.Erase (mkSLE 7 Keylet.ltACCOUNT_ROOT 1)].

Lemma open_ledger2_good : good (F := Z) ledger2.
Proof.
  split; [|done]. intros i s Hs. simpl in Hs. apply lookup_insert_Some in Hs as [[<- <-]|[_ Hs]]; [done|].
  apply lookup_singleton_Some in Hs as [<- <-]. done.
Qed.

Lemma openview_transparent_witness : exists ov v1 v2,
  foldM RawOps.run_op (make (F := Z) ledger2) ops3 = Ok ov /\ base_ ov = ledger2 /\
  foldM RawOps.run_op ledger2 ops3 = Ok v1 /\
  reads_like (F := Z) ov v1 /\ RawStateTable.apply (items_ ov) ledger2 = Ok v2 /\
  contents (F := Z) v2 = contents v1 /\ supply (F := Z) v2 = supply (F := Z) v1.
Proof.
  apply (@openview_transparent debug Z (Ledger.t Z)); try apply _; [apply open_ledger2_good|].
  vm_compute. reflexivity.
Defined.

End OpenView.
