(* ===== verification/ApplyStateTable.v ===== *)
(** * The table a transaction works on

    Module [ApplyStateTable] is ledger/detail/ApplyStateTable.h and
    ledger/impl/ApplyStateTable.cpp without the metadata; [ApplyView] is
    ledger/impl/ApplyViewBase.cpp with the [apply] of ledger/Sandbox.h.

    The table shares its entries with its clients: [peek] hands out a pointer
    through which the client changes the entry in place, and [update] only
    flags it.  So the entries are objects of a heap, the table and the clients
    hold their addresses, and an assignment of a client ([write]) is an
    operation on the heap.  The pointers [read] returns are to constant
    objects; it is modelled by the value they have at that time. *)

From stdpp Require Import base tactics numbers list strings gmap sorting option infinite fin_sets.
From S2P Require Import Prelude Serializer View StateTable.

Module ApplyStateTable.
Import Ordered StateTable.

Inductive Action := cache_ | erase_ | insert_ | modify_.

#[export] Instance Action_eq_dec : EqDecision Action.
Proof. solve_decision. Defined.

(** An address of an entry. *)
Abbreviation loc := Z.

Record t (F : Type) := mk {
  items_ : gmap Z (Action * loc);
  heap : gmap loc (SLE F);
  dropsDestroyed_ : Z;
  dropsCreated_ : Z }.
Arguments mk {F} items_ heap dropsDestroyed_ dropsCreated_.
Arguments items_ {F} t.
Arguments heap {F} t.
Arguments dropsDestroyed_ {F} t.
Arguments dropsCreated_ {F} t.

Section apply_table.
Context `{Build} {F : Type}.
Implicit Types (tb : t F) (sle : SLE F) (p : loc).

Definition empty : t F := mk ∅ ∅ 0 0.

Definition set_items (m : gmap Z (Action * loc)) tb : t F :=
  mk m (heap tb) (dropsDestroyed_ tb) (dropsCreated_ tb).
Definition set_heap (h : gmap loc (SLE F)) tb : t F :=
  mk (items_ tb) h (dropsDestroyed_ tb) (dropsCreated_ tb).

(** [std::make_shared<SLE>(sle)]. *)
Definition make_shared sle tb : loc * t F :=
  let p := fresh (dom (heap tb)) in (p, set_heap (<[p := sle]> (heap tb)) tb).

(** The entry a pointer leads to. *)
Definition deref p tb : result (SLE F) :=
  match heap tb !! p with Some sle => Ok sle | None => Throw "null" end.

(** A client assigns fields of the entry; its key and type stay. *)
Definition write p (x : F) tb : result (t F) :=
  sle ← deref p tb;
  Ok (set_heap (<[p := mkSLE (sle_key sle) (getType sle) x]> (heap tb)) tb).

(** One turn of the loop of [apply]. *)
Definition apply_item {T} `{RawView F T} tb (to : T) (item : Z * (Action * loc)) : result T :=
  let '(_, (a, p)) := item in
  match a with
  | cache_ => Ok to
  | erase_ => sle ← deref p tb; rawErase to sle
  | insert_ => sle ← deref p tb; rawInsert to sle
  | modify_ => sle ← deref p tb; rawReplace to sle
  end.

Definition apply {T} `{RawView F T} tb (to : T) : result T :=
  let to := rawCreateXRP to (dropsCreated_ tb) in
  let to := rawDestroyXRP to (dropsDestroyed_ tb) in
  foldM (apply_item tb) to (in_order (items_ tb)).

Definition size_ tb : Z :=
  fold_left (fun ret item => match item.2.1 with
                             | erase_ | insert_ | modify_ => ret + 1
                             | cache_ => ret
                             end) (in_order (items_ tb)) 0.

Definition erased (it : Action * loc) : bool := bool_decide (it.1 = erase_).

Section base.
Context {V : Type} {RV : ReadView F V}.

Definition exists_ (base : V) tb (k : Keylet.t) : result bool :=
  match items_ tb !! Keylet.key k with
  | None => vexists base k
  | Some (erase_, _) => Ok false
  | Some (_, p) => sle ← deref p tb; c ← Keylet.check k sle; Ok (if c : bool then true else false)
  end.

Definition succ (base : V) tb (key : Z) (last : option Z) : result (option Z) :=
  table_succ erased base (items_ tb) key last.

Definition read (base : V) tb (k : Keylet.t) : result (option (SLE F)) :=
  match items_ tb !! Keylet.key k with
  | None => vread base k
  | Some (erase_, _) => Ok None
  | Some (_, p) =>
      sle ← deref p tb; c ← Keylet.check k sle; Ok (if c : bool then Some sle else None)
  end.

(** An entry of the base is copied into the table. *)
Definition peek (base : V) (k : Keylet.t) tb : result (option loc * t F) :=
  match items_ tb !! Keylet.key k with
  | None =>
      found ← vread base k;
      match found with
      | None => Ok (None, tb)
      | Some sle =>
          let '(p, tb) := make_shared sle tb in
          Ok (Some p, set_items (<[sle_key sle := (cache_, p)]> (items_ tb)) tb)
      end
  | Some (erase_, _) => Ok (None, tb)
  | Some (_, p) =>
      sle ← deref p tb; c ← Keylet.check k sle; Ok (if c : bool then Some p else None, tb)
  end.

End base.

Definition erase p tb : result (t F) :=
  sle ← deref p tb;
  match items_ tb !! sle_key sle with
  | None => Throw "ApplyStateTable::erase: missing key"
  | Some (a, q) =>
      _ ← throw_if (negb (q =? p)) "ApplyStateTable::erase: unknown SLE";
      match a with
      | erase_ => Throw "ApplyStateTable::erase: double erase"
      | insert_ => Ok (set_items (delete (sle_key sle) (items_ tb)) tb)
      | cache_ | modify_ => Ok (set_items (<[sle_key sle := (erase_, q)]> (items_ tb)) tb)
      end
  end.

Definition rawErase_ p tb : result (t F) :=
  sle ← deref p tb;
  match items_ tb !! sle_key sle with
  | None => Ok (set_items (<[sle_key sle := (erase_, p)]> (items_ tb)) tb)
  | Some (erase_, _) => Throw "ApplyStateTable::rawErase: double erase"
  | Some (insert_, _) => Ok (set_items (delete (sle_key sle) (items_ tb)) tb)
  | Some (cache_, _) | Some (modify_, _) =>
      Ok (set_items (<[sle_key sle := (erase_, p)]> (items_ tb)) tb)
  end.

Definition insert p tb : result (t F) :=
  sle ← deref p tb;
  match items_ tb !! sle_key sle with
  | None => Ok (set_items (<[sle_key sle := (insert_, p)]> (items_ tb)) tb)
  | Some (cache_, _) => Throw "ApplyStateTable::insert: already cached"
  | Some (insert_, _) => Throw "ApplyStateTable::insert: already inserted"
  | Some (modify_, _) => Throw "ApplyStateTable::insert: already modified"
  | Some (erase_, _) => Ok (set_items (<[sle_key sle := (modify_, p)]> (items_ tb)) tb)
  end.

Definition replace p tb : result (t F) :=
  sle ← deref p tb;
  match items_ tb !! sle_key sle with
  | None => Ok (set_items (<[sle_key sle := (modify_, p)]> (items_ tb)) tb)
  | Some (erase_, _) => Throw "ApplyStateTable::replace: already erased"
  | Some (cache_, _) | Some (modify_, _) =>
      Ok (set_items (<[sle_key sle := (modify_, p)]> (items_ tb)) tb)
  | Some (insert_, _) => Ok (set_items (<[sle_key sle := (insert_, p)]> (items_ tb)) tb)
  end.

Definition update p tb : result (t F) :=
  sle ← deref p tb;
  match items_ tb !! sle_key sle with
  | None => Throw "ApplyStateTable::update: missing key"
  | Some (a, q) =>
      _ ← throw_if (negb (q =? p)) "ApplyStateTable::update: unknown SLE";
      match a with
      | erase_ => Throw "ApplyStateTable::update: erased"
      | cache_ => Ok (set_items (<[sle_key sle := (modify_, q)]> (items_ tb)) tb)
      | insert_ | modify_ => Ok tb
      end
  end.

Definition destroyXRP (feeDrops : Z) tb : t F :=
  mk (items_ tb) (heap tb) (u64 (dropsDestroyed_ tb + feeDrops)) (dropsCreated_ tb).

Definition createXRP (feeDrops : Z) tb : t F :=
  mk (items_ tb) (heap tb) (dropsDestroyed_ tb) (u64 (dropsCreated_ tb + feeDrops)).

(** ** What a table stands for *)

(** What it shows, ... *)
Definition eff (h : gmap loc (SLE F)) (it : Action * loc) : option (option (SLE F)) :=
  match it with
  | (erase_, _) => Some None
  | (_, p) => Some (h !! p)
  end.

(** ... and what it will apply. *)
Definition eff_applied (h : gmap loc (SLE F)) (it : Action * loc) : option (option (SLE F)) :=
  match it with
  | (cache_, _) => None
  | (erase_, _) => Some None
  | (_, p) => Some (h !! p)
  end.

Abbreviation shown m tb := (overlay (eff (heap tb)) (items_ tb) m).
Abbreviation applied m tb := (overlay (eff_applied (heap tb)) (items_ tb) m).

(** The table fits the base [m]. *)
Definition item_ok (m : gmap Z (SLE F)) (h : gmap loc (SLE F)) (i : Z) (it : Action * loc) : Prop :=
  (exists s, h !! it.2 = Some s /\ sle_key s = i) /\ i <> 0 /\
  match it.1 with insert_ => m !! i = None | _ => is_Some (m !! i) end.

Definition ok (m : gmap Z (SLE F)) tb : Prop :=
  (forall i it, items_ tb !! i = Some it -> item_ok m (heap tb) i it) /\
  0 <= dropsDestroyed_ tb < 2 ^ 64 /\ 0 <= dropsCreated_ tb < 2 ^ 64.

(** Entries that are only cached are as in the base, but those in [D], which a
    client has assigned to without flagging them yet. *)
Definition clean (D : Z -> Prop) (m : gmap Z (SLE F)) tb : Prop :=
  forall i p, ~ D i -> items_ tb !! i = Some (cache_, p) -> heap tb !! p = m !! i.

Definition none (_ : Z) : Prop := False.

Definition drops_after (n : Z) tb : Z := u64 (u64 (n + dropsCreated_ tb) - dropsDestroyed_ tb).

Lemma drops_after_eq n tb : drops_after n tb = u64 (n + dropsCreated_ tb - dropsDestroyed_ tb).
Proof. apply u64_sub_l. Qed.

(** ** Lemmas *)

Section lemmas.
Variable m : gmap Z (SLE F).
Hypothesis base_keys : forall i s, m !! i = Some s -> i <> 0.

Variable D : Z -> Prop.

Definition fine tb : Prop := ok m tb /\ clean D m tb.

Definition same_drops tb tb' : Prop :=
  dropsDestroyed_ tb' = dropsDestroyed_ tb /\ dropsCreated_ tb' = dropsCreated_ tb.

(** [r] is a table that fits, showing [sh], with the drops of [tb]. *)
Definition steps_to tb (r : result (t F)) (sh : gmap Z (SLE F)) : Prop :=
  exists tb', r = Ok tb' /\ fine tb' /\ shown m tb' = sh /\ same_drops tb tb'.

Lemma item_heap tb i a p : ok m tb -> items_ tb !! i = Some (a, p) ->
  exists s, heap tb !! p = Some s /\ sle_key s = i.
Proof. intros [Hok _] Hi. by destruct (Hok _ _ Hi) as (? & _). Qed.

Lemma lookup_shown tb i a p s : items_ tb !! i = Some (a, p) -> a <> erase_ ->
  heap tb !! p = Some s -> shown m tb !! i = Some s.
Proof. intros Hi Ha Hp. rewrite lookup_overlay, Hi. by destruct a. Qed.

Lemma clean_applied tb : fine tb -> (forall i, ~ D i) -> applied m tb = shown m tb.
Proof.
  intros [_ Hc] HD. apply map_eq. intros i. rewrite !lookup_overlay.
  destruct (items_ tb !! i) as [[[] p]|] eqn:Hi; simpl; try done. symmetry. by apply Hc.
Qed.

Lemma make_shared_spec sle tb : fine tb ->
  exists p tb', make_shared sle tb = (p, tb') /\ heap tb' !! p = Some sle /\ fine tb' /\
    items_ tb' = items_ tb /\ shown m tb' = shown m tb /\ same_drops tb tb'.
Proof.
  intros [[Hok Hd] Hc]. eexists _, _. split; [done|]. simpl.
  set (p := fresh _). assert (Hp : heap tb !! p = None).
  { apply not_elem_of_dom. apply is_fresh. }
  assert (Hne : forall i a q, items_ tb !! i = Some (a, q) -> p <> q).
  { intros i a q Hi <-. destruct (Hok _ _ Hi) as ((s & Hs & _) & _). simpl in Hs. congruence. }
  rewrite lookup_insert_eq. split; [done|]. split; [|split; [done|split; [|done]]].
  - split; [split; [|done]|].
    + intros i [a q] Hi. destruct (Hok _ _ Hi) as (Hs & ?). split; [|done]. simpl in *.
      rewrite lookup_insert_ne; [done|by eapply Hne].
    + intros i q Hi' Hi. simpl in *. rewrite lookup_insert_ne by (by eapply Hne). by apply Hc.
  - apply map_eq. intros i. rewrite !lookup_overlay. simpl.
    destruct (items_ tb !! i) as [[a q]|] eqn:Hi; [|done].
    destruct a; simpl; try done; rewrite lookup_insert_ne; try done; by eapply Hne.
Qed.

Lemma set_item_spec tb i a p s : fine tb -> heap tb !! p = Some s -> sle_key s = i -> i <> 0 ->
  match a with insert_ => m !! i = None | _ => is_Some (m !! i) end ->
  (a = cache_ -> m !! i = Some s) ->
  steps_to tb (Ok (set_items (<[i := (a, p)]> (items_ tb)) tb))
    (match a with erase_ => delete i (shown m tb) | _ => <[i := s]> (shown m tb) end).
Proof.
  intros [[Hok Hd] Hc] Hp Hs Hz Ha Hcache. eexists. split; [done|]. split; [split; [split; [|done]|]|].
  - intros j jt. simpl. intros [[<- <-]|[_ Hj]]%lookup_insert_Some; [|by apply Hok].
    split; [by exists s|done].
  - intros j q Hj'. simpl. intros [[<- [= -> ->]]|[_ Hj]]%lookup_insert_Some; [|by apply Hc].
    rewrite Hcache by done. done.
  - split; [|done]. apply map_eq. intros j. rewrite lookup_overlay. simpl.
    destruct (decide (i = j)) as [<-|].
    + rewrite lookup_insert_eq. destruct a; simpl; by rewrite ?lookup_insert_eq, ?lookup_delete_eq.
    + rewrite lookup_insert_ne by done.
      destruct a; by rewrite ?lookup_insert_ne, ?lookup_delete_ne, lookup_overlay by done.
Qed.

Lemma drop_item_spec tb i : fine tb -> m !! i = None ->
  steps_to tb (Ok (set_items (delete i (items_ tb)) tb)) (delete i (shown m tb)).
Proof.
  intros [[Hok Hd] Hc] Hi. eexists. split; [done|]. split; [split; [split; [|done]|]|].
  - intros j jt. simpl. intros [_ Hj]%lookup_delete_Some. by apply Hok.
  - intros j q Hj'. simpl. intros [_ Hj]%lookup_delete_Some. by apply Hc.
  - split; [|done]. apply map_eq. intros j. rewrite lookup_overlay. simpl.
    destruct (decide (i = j)) as [<-|]; [by rewrite !lookup_delete_eq|].
    by rewrite !lookup_delete_ne, lookup_overlay by done.
Qed.

Lemma item_facts tb i a p : fine tb -> items_ tb !! i = Some (a, p) ->
  i <> 0 /\ match a with insert_ => m !! i = None | _ => is_Some (m !! i) end.
Proof. intros [[Hok _] _] Hi. by destruct (Hok _ _ Hi) as (_ & ? & ?). Qed.

Lemma deref_ok tb p s : heap tb !! p = Some s -> deref p tb = Ok s.
Proof. unfold deref. by intros ->. Qed.

Lemma erase_spec tb i a p s : fine tb -> items_ tb !! i = Some (a, p) -> a <> erase_ ->
  heap tb !! p = Some s -> sle_key s = i -> steps_to tb (erase p tb) (delete i (shown m tb)).
Proof.
  intros Hf Hi Ha Hp Hk. unfold erase. rewrite (deref_ok _ _ _ Hp). simpl. rewrite Hk, Hi, Z.eqb_refl.
  destruct (item_facts _ _ _ _ Hf Hi) as [Hz Hm].
  destruct a; simpl; try done.
  - by apply (set_item_spec tb i erase_ p s).
  - by apply drop_item_spec.
  - by apply (set_item_spec tb i erase_ p s).
Qed.

Lemma rawErase_spec tb p s s0 : fine tb -> heap tb !! p = Some s ->
  shown m tb !! sle_key s = Some s0 ->
  steps_to tb (rawErase_ p tb) (delete (sle_key s) (shown m tb)).
Proof.
  intros Hf Hp. rewrite lookup_overlay. unfold rawErase_. rewrite (deref_ok _ _ _ Hp). simpl.
  destruct (items_ tb !! sle_key s) as [[a q]|] eqn:Hi; intros Hs.
  - destruct (item_facts _ _ _ _ Hf Hi) as [Hz Hm]. destruct a; simpl; try done.
    + by apply (set_item_spec tb _ erase_ p s).
    + by apply drop_item_spec.
    + by apply (set_item_spec tb _ erase_ p s).
  - apply (set_item_spec tb _ erase_ p s); simpl; eauto. done.
Qed.

Lemma insert_spec tb p s : fine tb -> heap tb !! p = Some s -> sle_key s <> 0 ->
  shown m tb !! sle_key s = None ->
  steps_to tb (insert p tb) (<[sle_key s := s]> (shown m tb)).
Proof.
  intros Hf Hp Hz. rewrite lookup_overlay. unfold insert. rewrite (deref_ok _ _ _ Hp). simpl.
  destruct (items_ tb !! sle_key s) as [[a q]|] eqn:Hi; intros Hs.
  - destruct (item_heap _ _ _ _ (proj1 Hf) Hi) as (s1 & Hq & _).
    destruct (item_facts _ _ _ _ Hf Hi) as [_ Hm]. destruct a; simpl in *; try congruence.
    by apply (set_item_spec tb _ modify_ p s).
  - by apply (set_item_spec tb _ insert_ p s).
Qed.

Lemma replace_spec tb p s s0 : fine tb -> heap tb !! p = Some s ->
  shown m tb !! sle_key s = Some s0 ->
  steps_to tb (replace p tb) (<[sle_key s := s]> (shown m tb)).
Proof.
  intros Hf Hp. rewrite lookup_overlay. unfold replace. rewrite (deref_ok _ _ _ Hp). simpl.
  destruct (items_ tb !! sle_key s) as [[a q]|] eqn:Hi; intros Hs.
  - destruct (item_facts _ _ _ _ Hf Hi) as [Hz Hm]. destruct a; simpl; try done.
    + by apply (set_item_spec tb _ modify_ p s).
    + by apply (set_item_spec tb _ insert_ p s).
    + by apply (set_item_spec tb _ modify_ p s).
  - apply (set_item_spec tb _ modify_ p s); simpl; eauto. done.
Qed.

(** An assignment to a live entry shows at once. *)
Lemma write_spec tb i a p s x : fine tb -> items_ tb !! i = Some (a, p) -> a <> erase_ ->
  heap tb !! p = Some s -> sle_key s = i ->
  exists tb', write p x tb = Ok tb' /\ ok m tb' /\
    clean (fun j => D j \/ j = i /\ a = cache_) m tb' /\ items_ tb' = items_ tb /\
    heap tb' !! p = Some (mkSLE i (getType s) x) /\
    shown m tb' = <[i := mkSLE i (getType s) x]> (shown m tb) /\ same_drops tb tb' /\
    (forall q, q <> p -> heap tb' !! q = heap tb !! q).
Proof.
  intros [Hok Hc] Hi Ha Hp Hk. unfold write. rewrite (deref_ok _ _ _ Hp). simpl. rewrite Hk.
  assert (Hne : forall j b q, j <> i -> items_ tb !! j = Some (b, q) -> p <> q).
  { intros j b q Hj Hq <-. destruct (item_heap _ _ _ _ Hok Hq) as (s' & ? & ?). congruence. }
  eexists. split; [done|]. split; [split; [|apply Hok]|].
  - intros j [b q] Hj. simpl in *. destruct (proj1 Hok _ _ Hj) as (Hs & ?). split; [|done]. simpl in *.
    destruct (decide (j = i)) as [->|].
    + rewrite Hi in Hj. injection Hj as <- <-. rewrite lookup_insert_eq. by eexists.
    + rewrite lookup_insert_ne by (by eapply Hne). done.
  - split; [|split; [done|split; [by simpl; rewrite lookup_insert_eq|split; [|split; [done|]]]]].
    + intros j q Hj Hq. simpl in *. destruct (decide (j = i)) as [->|].
      { rewrite Hi in Hq. injection Hq as -> ->. destruct Hj. by right. }
      rewrite lookup_insert_ne by (by eapply Hne). apply Hc; [|done]. intros ?. apply Hj. by left.
    + apply map_eq. intros j. rewrite lookup_overlay. simpl. destruct (decide (j = i)) as [->|Hj].
      * rewrite Hi, lookup_insert_eq. destruct a; simpl; by rewrite ?lookup_insert_eq.
      * rewrite lookup_insert_ne, lookup_overlay by done.
        destruct (items_ tb !! j) as [[b q]|] eqn:Hq; [|done].
        destruct b; simpl; try done; (rewrite lookup_insert_ne; [done|by eapply Hne]).
    + intros q Hq. simpl. by rewrite lookup_insert_ne.
Qed.

(** An entry that is only cached is not applied, whatever is assigned to it. *)
Lemma applied_write tb i p x tb' : ok m tb -> items_ tb !! i = Some (cache_, p) ->
  write p x tb = Ok tb' -> applied m tb' = applied m tb.
Proof.
  intros Hok Hi. destruct (item_heap _ _ _ _ Hok Hi) as (s & Hp & Hk).
  unfold write. rewrite (deref_ok _ _ _ Hp). intros [= <-]. apply map_eq. intros j.
  rewrite !lookup_overlay. simpl. destruct (items_ tb !! j) as [[b q]|] eqn:Hj; [|done].
  destruct (decide (j = i)) as [->|Hne]; [rewrite Hi in Hj; by injection Hj as <- <-|].
  destruct (item_heap _ _ _ _ Hok Hj) as (s' & Hq & Hk').
  destruct b; simpl; try done; (rewrite lookup_insert_ne; [done|congruence]).
Qed.

Lemma update_spec tb i a p s : ok m tb -> clean (fun j => D j \/ j = i /\ a = cache_) m tb ->
  items_ tb !! i = Some (a, p) ->
  a <> erase_ -> heap tb !! p = Some s -> sle_key s = i -> steps_to tb (update p tb) (shown m tb).
Proof.
  intros [Hok Hd] Hc Hi Ha Hp Hk. unfold update. rewrite (deref_ok _ _ _ Hp). simpl.
  rewrite Hk, Hi, Z.eqb_refl. simpl. destruct (Hok _ _ Hi) as (_ & Hz & Hm). simpl in Hm.
  assert (Hflagged : a <> cache_ -> fine tb).
  { intros Ha'. split; [done|]. intros j q HD Hj. apply Hc; [|done]. by intros [?|[_ ?]]. }
  destruct a; try done; [|exists tb; split; [done|]; split; [by apply Hflagged|done]..].
  eexists. split; [done|]. split; [split; [split; [|done]|]|split; [|done]].
  - intros j jt. simpl. intros [[<- <-]|[_ Hj]]%lookup_insert_Some; [|by apply Hok].
    split; [by exists s|done].
  - intros j q HD. simpl. intros [[<- [=]]|[? Hj]]%lookup_insert_Some. apply Hc; [|done].
    by intros [?|[-> _]].
  - apply map_eq. intros j. rewrite !lookup_overlay. simpl. destruct (decide (i = j)) as [<-|].
    + by rewrite lookup_insert_eq, Hi.
    + by rewrite lookup_insert_ne.
Qed.

(** Changing an entry in place and flagging it. *)
Lemma modify_spec tb i a p s x : fine tb -> items_ tb !! i = Some (a, p) -> a <> erase_ ->
  heap tb !! p = Some s -> sle_key s = i ->
  steps_to tb (tb ← write p x tb; update p tb) (<[i := mkSLE i (getType s) x]> (shown m tb)).
Proof.
  intros Hf Hi Ha Hp Hk.
  destruct (write_spec tb i a p s x Hf Hi Ha Hp Hk)
    as (tb1 & -> & Hok1 & Hc1 & Hit & Hp1 & Hs1 & [Hd1 Hd2] & _). simpl.
  rewrite <- Hit in Hi.
  destruct (update_spec tb1 i a p _ Hok1 Hc1 Hi Ha Hp1 eq_refl) as (tb2 & -> & Hf2 & Hs2 & [? ?]).
  exists tb2. split; [done|]. split; [done|]. split; [congruence|]. split; congruence.
Qed.

(** The flagged items reach a target that shows what the base shows. *)
Lemma apply_spec {T} `{RawViewLaws F T} tb (to : T) : ok m tb -> good to -> contents to = m ->
  becomes (apply tb to) (applied m tb) (drops_after (supply to) tb).
Proof.
  intros [Hok _] Hg Hto. unfold apply, drops_after.
  destruct (rawCreateXRP_law to (dropsCreated_ tb) Hg) as (to1 & [= <-] & Hg1 & Hc1 & Hs1).
  destruct (rawDestroyXRP_law _ (dropsDestroyed_ tb) Hg1) as (to2 & [= <-] & Hg2 & Hc2 & Hs2).
  rewrite Hs1 in Hs2. rewrite <- Hs2. apply apply_items_spec; [|done|congruence].
  intros to' i [a p] Hi Hg' Hc. destruct (Hok _ _ Hi) as ((s & Hp & Hk) & Hz & Hm). simpl in *. subst i.
  destruct a; simpl; [by exists to'|..]; rewrite (deref_ok _ _ _ Hp); simpl; rewrite ?Hp;
    [destruct Hm as [s0 Hm]|by apply rawInsert_law; congruence|destruct Hm as [s0 Hm]].
  - apply (rawErase_law to' s s0); [done|congruence].
  - apply (rawReplace_law to' s s0); [done|congruence].
Qed.

End lemmas.

(** What [update], [erase] and [insert] do to the items: only the one under the
    entry's key changes, and the objects stay. *)
Definition item_changed (i : Z) tb tb' : Prop :=
  heap tb' = heap tb /\ (forall j, j <> i -> items_ tb' !! j = items_ tb !! j).

Lemma set_item_changed i it tb : item_changed i tb (set_items (<[i := it]> (items_ tb)) tb).
Proof. split; [done|]. intros j Hj. simpl. by rewrite lookup_insert_ne. Qed.

Lemma update_items p s tb tb' : heap tb !! p = Some s -> update p tb = Ok tb' ->
  item_changed (sle_key s) tb tb' /\
  exists a, items_ tb' !! sle_key s = Some (a, p) /\ a <> erase_ /\ a <> cache_.
Proof.
  intros Hp. unfold update. rewrite (deref_ok _ _ _ Hp). simpl.
  destruct (items_ tb !! sle_key s) as [[a q]|] eqn:Hi; [|done].
  destruct (Z.eqb_spec q p) as [->|]; simpl; [|done].
  destruct a; intros [= <-]; try (split; [done|by eauto]).
  split; [apply set_item_changed|]. exists modify_. simpl. by rewrite lookup_insert_eq.
Qed.

Lemma erase_items p s tb tb' : heap tb !! p = Some s -> erase p tb = Ok tb' ->
  item_changed (sle_key s) tb tb' /\
  (forall a q, items_ tb' !! sle_key s = Some (a, q) -> a = erase_ /\ q = p).
Proof.
  intros Hp. unfold erase. rewrite (deref_ok _ _ _ Hp). simpl.
  destruct (items_ tb !! sle_key s) as [[a q]|] eqn:Hi; [|done].
  destruct (Z.eqb_spec q p) as [->|]; simpl; [|done].
  destruct a; intros [= <-]; simpl.
  - split; [apply set_item_changed|]. intros a q. rewrite lookup_insert_eq. by intros [= <- <-].
  - split; [split; [done|]|].
    + intros j Hj. simpl. by rewrite lookup_delete_ne.
    + intros a q. by rewrite lookup_delete_eq.
  - split; [apply set_item_changed|]. intros a q. rewrite lookup_insert_eq. by intros [= <- <-].
Qed.

Lemma insert_items p s tb tb' : heap tb !! p = Some s -> insert p tb = Ok tb' ->
  item_changed (sle_key s) tb tb' /\
  exists a, items_ tb' !! sle_key s = Some (a, p) /\ a <> erase_ /\ a <> cache_.
Proof.
  intros Hp. unfold insert. rewrite (deref_ok _ _ _ Hp). simpl.
  destruct (items_ tb !! sle_key s) as [[[] q]|] eqn:Hi; try done; intros [= <-];
    (split; [apply set_item_changed|]); eexists; simpl; by rewrite lookup_insert_eq.
Qed.

(** Assigning to an object the table does not have changes nothing it shows. *)
Lemma write_loose m D p s x tb tb' : fine m D tb -> heap tb !! p = Some s ->
  (forall i a q, items_ tb !! i = Some (a, q) -> q <> p) -> write p x tb = Ok tb' ->
  fine m D tb' /\ items_ tb' = items_ tb /\ same_drops tb tb' /\
  heap tb' = <[p := mkSLE (sle_key s) (getType s) x]> (heap tb) /\ shown m tb' = shown m tb.
Proof.
  intros [[Hok Hd] Hc] Hp Hne. unfold write. rewrite (deref_ok _ _ _ Hp). intros [= <-]. simpl.
  assert (Hq : forall i a q, items_ tb !! i = Some (a, q) ->
     <[p := mkSLE (sle_key s) (getType s) x]> (heap tb) !! q = heap tb !! q).
  { intros i a q Hi. apply lookup_insert_ne. intros ->. by eapply Hne. }
  split; [split; [split; [|done]|]|repeat split; try done].
  - intros i [a q] Hi. destruct (Hok _ _ Hi) as (Hs & ?). split; [|done]. simpl in *.
    by rewrite (Hq _ _ _ Hi).
  - intros i q HD Hi. simpl in *. rewrite (Hq _ _ _ Hi). by apply Hc.
  - apply map_eq. intros i. rewrite !lookup_overlay. simpl.
    destruct (items_ tb !! i) as [[a q]|] eqn:Hi; [|done].
    destruct a; simpl; try done; by rewrite (Hq _ _ _ Hi).
Qed.

Section views.
Context {V : Type} {RV : ReadView F V} {VM : ViewModel F V} {RL : ReadViewLaws F V}.
Variables (base : V) (tb : t F).
Hypothesis base_good : good base.
Hypothesis Hok : ok (contents base) tb.

Lemma read_spec k : Keylet.key k <> 0 ->
  read base tb k = Keylet.checked k (shown (contents base) tb !! Keylet.key k).
Proof.
  intros Hk. unfold read. rewrite lookup_overlay.
  destruct (items_ tb !! Keylet.key k) as [[a p]|] eqn:Hi; [|by apply read_law].
  destruct (item_heap _ _ _ _ _ Hok Hi) as (s & Hp & _).
  destruct a; simpl; try done; by rewrite (deref_ok _ _ _ Hp), Hp.
Qed.

Lemma exists_spec k : Keylet.key k <> 0 ->
  (forall s, shown (contents base) tb !! Keylet.key k = Some s -> Keylet.check k s = Ok true) ->
  exists_ base tb k = Ok (bool_decide (is_Some (shown (contents base) tb !! Keylet.key k))).
Proof.
  intros Hk. unfold exists_. rewrite lookup_overlay.
  destruct (items_ tb !! Keylet.key k) as [[a p]|] eqn:Hi; [|by apply exists_law].
  destruct (item_heap _ _ _ _ _ Hok Hi) as (s & Hp & _).
  destruct a; simpl; intros Hc; try done; rewrite (deref_ok _ _ _ Hp), Hp in *; simpl; by rewrite (Hc s).
Qed.

Lemma succ_spec key last : exists r, succ base tb key last = Ok r /\
  next_in (shown (contents base) tb) key last r.
Proof.
  apply table_succ_spec; [done|intros i [a p] Hi..].
  - destruct (item_heap _ _ _ _ _ Hok Hi) as (s & Hp & _).
    unfold erased; destruct a; simpl; by rewrite ?Hp, ?bool_decide_eq_true.
  - by destruct a.
Qed.

(** [peek] only adds an item under the key it looks up. *)
Lemma peek_items k r tb' : Keylet.key k <> 0 -> peek base k tb = Ok (r, tb') ->
  (forall j, j <> Keylet.key k -> items_ tb' !! j = items_ tb !! j) /\
  (is_Some (items_ tb !! Keylet.key k) -> items_ tb' = items_ tb) /\
  (forall p e, heap tb !! p = Some e -> heap tb' !! p = Some e) /\
  (forall j a q, items_ tb' !! j = Some (a, q) -> items_ tb !! j = Some (a, q) \/ heap tb !! q = None).
Proof.
  intros Hk. unfold peek. destruct (items_ tb !! Keylet.key k) as [[a p]|] eqn:Hi.
  - destruct a; intros Hpk; try (injection Hpk as <- <-; repeat split; by auto);
      destruct (deref p tb) as [s| |]; try done; simpl in Hpk;
      destruct (Keylet.check k s) as [c| |]; try done; simpl in Hpk; injection Hpk as <- <-;
      repeat split; by auto.
  - rewrite read_law by done. unfold Keylet.checked.
    destruct (contents base !! Keylet.key k) as [s|] eqn:Hs; simpl; [|intros [= <- <-]; repeat split; by auto].
    destruct (good_keys _ _ _ base_good Hs) as [Hks _].
    destruct (Keylet.check k s) as [[]| |]; simpl; try done; intros [= <- <-]; [|repeat split; by auto].
    set (q := fresh _). assert (Hq : heap tb !! q = None) by (apply not_elem_of_dom, is_fresh).
    rewrite Hks. simpl. split; [|split; [by intros [? ?]|split]].
    + intros j Hj. by rewrite lookup_insert_ne.
    + intros p e Hp. rewrite lookup_insert_ne; [done|congruence].
    + intros j a p [[<- [= <- <-]]|[_ ?]]%lookup_insert_Some; auto.
Qed.

(** [peek] gives a pointer to what [read] returns, without changing what the
    table shows. *)
Lemma peek_spec D k : Keylet.key k <> 0 -> clean D (contents base) tb ->
  match Keylet.checked k (shown (contents base) tb !! Keylet.key k) with
  | Ok (Some s) => exists a p tb', peek base k tb = Ok (Some p, tb') /\
      fine (contents base) D tb' /\ shown (contents base) tb' = shown (contents base) tb /\
      same_drops tb tb' /\ items_ tb' !! Keylet.key k = Some (a, p) /\ a <> erase_ /\
      heap tb' !! p = Some s /\ sle_key s = Keylet.key k /\
      (items_ tb !! Keylet.key k = None -> a = cache_)
  | Ok None => peek base k tb = Ok (None, tb)
  | Throw e => peek base k tb = Throw e
  | OutOfFuel => False
  end.
Proof.
  intros Hk Hc. unfold peek. rewrite lookup_overlay.
  destruct (items_ tb !! Keylet.key k) as [[a p]|] eqn:Hi.
  - destruct (item_heap _ _ _ _ _ Hok Hi) as (s & Hp & Hks).
    assert (Hck := Keylet.check_total k s).
    destruct a; simpl; try done; rewrite (deref_ok _ _ _ Hp), Hp; simpl;
      destruct (Keylet.check k s) as [[]| |]; simpl; try done;
      (eexists _, p, tb; do 3 (split; [done|]); do 4 (split; [done|]); done).
  - rewrite read_law by done. simpl.
    destruct (contents base !! Keylet.key k) as [s|] eqn:Hs; simpl; [|done].
    assert (Hck := Keylet.check_total k s).
    destruct (Keylet.check k s) as [[]| |]; simpl; try done.
    destruct (good_keys _ _ _ base_good Hs) as [Hks _].
    destruct (make_shared_spec (contents base) D s tb (conj Hok Hc))
      as (p & tb1 & Hm & Hp & Hf1 & Hi1 & Hs1 & [Hd1 Hd2]).
    injection Hm as <- <-. rewrite Hks. set (p := fresh _) in *. set (tb1 := set_heap _ _) in *.
    destruct (set_item_spec (contents base) D tb1 (Keylet.key k) cache_ p s)
      as (tb2 & [= <-] & Hf2 & Hs2 & [Hd3 Hd4]); try done.
    exists cache_, p. eexists. split; [done|]. split; [exact Hf2|]. split.
    { rewrite Hs2, Hs1, insert_id; [done|]. by rewrite lookup_overlay, Hi. }
    split; [done|]. split; [simpl; by rewrite lookup_insert_eq|]. done.
Qed.

End views.

End apply_table.
End ApplyStateTable.

Module ApplyView.
Import Ordered StateTable.

Record t (F V : Type) := mk { base_ : V; items_ : ApplyStateTable.t F }.
Arguments mk {F V} base_ items_.
Arguments base_ {F V} t.
Arguments items_ {F V} t.

Section apply_view.
Context `{Build} {F V : Type}.
Context {RV : ReadView F V} {VM : ViewModel F V} {RL : ReadViewLaws F V}.
Implicit Types (v : t F V) (sle : SLE F).

Definition make (base : V) : t F V := mk base ApplyStateTable.empty.

Definition with_items v (r : result (ApplyStateTable.t F)) : result (t F V) :=
  tb ← r; Ok (mk (base_ v) tb).

Definition exists_ v k : result bool := ApplyStateTable.exists_ (base_ v) (items_ v) k.
Definition succ v key last : result (option Z) := ApplyStateTable.succ (base_ v) (items_ v) key last.
Definition read v k : result (option (SLE F)) := ApplyStateTable.read (base_ v) (items_ v) k.

Definition peek v k : result (option Z * t F V) :=
  pt ← ApplyStateTable.peek (base_ v) k (items_ v); Ok (pt.1, mk (base_ v) pt.2).
Definition erase v p : result (t F V) := with_items v (ApplyStateTable.erase p (items_ v)).
Definition insert v p : result (t F V) := with_items v (ApplyStateTable.insert p (items_ v)).
Definition update v p : result (t F V) := with_items v (ApplyStateTable.update p (items_ v)).
Definition write v p (x : F) : result (t F V) := with_items v (ApplyStateTable.write p x (items_ v)).

(** The entry a nested view hands over is an object of its own. *)
Definition adopt v sle (f : Z -> ApplyStateTable.t F -> result (ApplyStateTable.t F))
    : result (t F V) :=
  let '(p, tb) := ApplyStateTable.make_shared sle (items_ v) in with_items v (f p tb).

Definition raw_erase v sle : result (t F V) := adopt v sle ApplyStateTable.rawErase_.
Definition raw_insert v sle : result (t F V) := adopt v sle ApplyStateTable.insert.
Definition raw_replace v sle : result (t F V) := adopt v sle ApplyStateTable.replace.
Definition raw_destroyXRP v (feeDrops : Z) : t F V :=
  mk (base_ v) (ApplyStateTable.destroyXRP feeDrops (items_ v)).
Definition raw_createXRP v (feeDrops : Z) : t F V :=
  mk (base_ v) (ApplyStateTable.createXRP feeDrops (items_ v)).

(** [Sandbox::apply]. *)
Definition apply {T} `{RawView F T} v (to : T) : result T := ApplyStateTable.apply (items_ v) to.

#[global] Instance ReadView_ApplyView : ReadView F (t F V) :=
  { vinfo v := vinfo (base_ v); vexists := exists_; vsucc := succ; vread := read }.

#[global] Instance RawView_ApplyView : RawView F (t F V) :=
  { rawErase := raw_erase; rawInsert := raw_insert; rawReplace := raw_replace;
    rawDestroyXRP := raw_destroyXRP; rawCreateXRP := raw_createXRP }.

#[global] Instance ViewModel_ApplyView : ViewModel F (t F V) :=
  { contents v := overlay (ApplyStateTable.eff (ApplyStateTable.heap (items_ v)))
                    (ApplyStateTable.items_ (items_ v)) (contents (base_ v));
    supply v := ApplyStateTable.drops_after (supply (base_ v)) (items_ v);
    good v := good (base_ v) /\ ApplyStateTable.fine (contents (base_ v)) ApplyStateTable.none (items_ v) }.

#[global] Instance ReadViewLaws_ApplyView : ReadViewLaws F (t F V).
Proof.
  split.
  - intros v i s [Hb [Hok _]]. simpl. rewrite lookup_overlay.
    destruct (ApplyStateTable.items_ (items_ v) !! i) as [[a p]|] eqn:Hi; simpl; [|by apply good_keys].
    destruct (proj1 Hok _ _ Hi) as ((s' & Hp & ?) & ? & _). simpl in Hp.
    destruct a; simpl; rewrite ?Hp; by intros [= <-].
  - intros v _. apply u64_range.
  - intros v k [Hb [Hok _]]. by apply ApplyStateTable.read_spec.
  - intros v k [Hb [Hok _]]. by apply ApplyStateTable.exists_spec.
  - intros v key last [Hb [Hok _]]. by apply ApplyStateTable.succ_spec.
Qed.

Lemma with_items_becomes v tb r sh : good v -> ApplyStateTable.same_drops (items_ v) tb ->
  ApplyStateTable.steps_to (contents (base_ v)) ApplyStateTable.none tb r sh -> becomes (with_items v r) sh (supply v).
Proof.
  intros [Hb _] [Hd Hc] (tb' & -> & Hf & Hs & Hd' & Hc'). eexists. split; [done|].
  split; [done|]. split; [done|]. simpl. unfold ApplyStateTable.drops_after. congruence.
Qed.

(** Handing over an entry to an operation that works on objects. *)
Lemma adopt_becomes v sle f sh : good v ->
  (forall p tb, ApplyStateTable.fine (contents (base_ v)) ApplyStateTable.none tb ->
     ApplyStateTable.heap tb !! p = Some sle ->
     overlay (ApplyStateTable.eff (ApplyStateTable.heap tb)) (ApplyStateTable.items_ tb)
       (contents (base_ v)) = contents v ->
     ApplyStateTable.steps_to (contents (base_ v)) ApplyStateTable.none tb (f p tb) sh) ->
  becomes (adopt v sle f) sh (supply v).
Proof.
  intros Hg Hf. unfold adopt.
  destruct (ApplyStateTable.make_shared_spec (contents (base_ v)) ApplyStateTable.none sle (items_ v))
    as (p & tb & -> & Hp & Hf1 & _ & Hs1 & Hd1); [apply Hg|].
  apply (with_items_becomes v tb); [done|done|]. by apply Hf.
Qed.

Lemma base_keys v : good v -> forall i s, contents (base_ v) !! i = Some s -> i <> 0.
Proof. intros [Hb _] i s Hs. by apply (good_keys _ _ _ Hb Hs). Qed.

#[global] Instance RawViewLaws_ApplyView : RawViewLaws F (t F V).
Proof.
  split.
  - intros v sle s0 Hg Hs. apply adopt_becomes; [done|]. intros p tb Hf Hp Hsh. rewrite <- Hsh in *.
    eapply ApplyStateTable.rawErase_spec; [by apply base_keys|done|done|exact Hs].
  - intros v sle Hg Hz Hs. apply adopt_becomes; [done|]. intros p tb Hf Hp Hsh. rewrite <- Hsh in *.
    by apply ApplyStateTable.insert_spec.
  - intros v sle s0 Hg Hs. apply adopt_becomes; [done|]. intros p tb Hf Hp Hsh. rewrite <- Hsh in *.
    eapply ApplyStateTable.replace_spec; [by apply base_keys|done|done|exact Hs].
  - intros v n (Hb & (Hok & Hd & Hc) & Hcl). eexists. split; [done|]. split; [|split; [done|]].
    + split; [done|]. split; [|done]. split; [done|]. split; [apply u64_range|done].
    + simpl. rewrite !ApplyStateTable.drops_after_eq. simpl.
      rewrite u64_sub_l, u64_sub_r. f_equal. lia.
  - intros v n (Hb & (Hok & Hd & Hc) & Hcl). eexists. split; [done|]. split; [|split; [done|]].
    + split; [done|]. split; [|done]. split; [done|]. split; [done|apply u64_range].
    + simpl. rewrite !ApplyStateTable.drops_after_eq. simpl.
      rewrite u64_add_l, <- (u64_sub_l (_ + u64 _)), u64_add_r, u64_sub_l. f_equal. lia.
Qed.

Lemma make_good base : good base ->
  good (make base) /\ contents (make base) = contents base /\ supply (make base) = supply base.
Proof.
  intros Hb. split; [|split].
  - split; [done|]. split; [split; [|done]|].
    + intros i it Hi. simpl in Hi. by rewrite lookup_empty in Hi.
    + intros i p _ Hi. simpl in Hi. by rewrite lookup_empty in Hi.
  - apply map_eq. intros i. simpl. by rewrite lookup_overlay, lookup_empty.
  - pose proof (good_supply _ Hb). simpl. rewrite ApplyStateTable.drops_after_eq. simpl.
    rewrite u64_id; lia.
Qed.

End apply_view.

(** ** Transactions *)

Section clients.
Context `{Build} {F V : Type} {RV : ReadView F V} {WV : RawView F V} {VM : ViewModel F V}.
Context {RL : ReadViewLaws F V} {WL : RawViewLaws F V}.

(** What a transactor does with a view: look at an entry, change the fields of
    an entry it looked up, remove such an entry, create a new entry, or apply
    the modifications of a nested view. *)
Inductive client :=
| Look (k : Keylet.t)
| Modify (k : Keylet.t) (x : F)
| Remove (k : Keylet.t)
| Create (sle : SLE F)
| Nested (op : RawOps.t F).

Definition with_fields (s : SLE F) (x : F) : SLE F := mkSLE (sle_key s) (getType s) x.

(** On the view: [peek], assignments through the pointer, [update]. *)
Definition run_client (v : t F V) (c : client) : result (t F V) :=
  match c with
  | Look k => pv ← peek v k; Ok pv.2
  | Modify k x =>
      pv ← peek v k;
      match pv.1 with
      | None => Ok pv.2
      | Some p => v ← write pv.2 p x; update v p
      end
  | Remove k =>
      pv ← peek v k;
      match pv.1 with
      | None => Ok pv.2
      | Some p => erase pv.2 p
      end
  | Create sle => adopt v sle ApplyStateTable.insert
  | Nested op => RawOps.run_op v op
  end.

(** The same, on the base itself. *)
Definition direct {W} `{ReadView F W} `{RawView F W} (v : W) (c : client) : result W :=
  match c with
  | Look k => _ ← vread v k; Ok v
  | Modify k x =>
      r ← vread v k;
      match r with None => Ok v | Some s => rawReplace v (with_fields s x) end
  | Remove k =>
      r ← vread v k;
      match r with None => Ok v | Some s => rawErase v s end
  | Create sle => rawInsert v sle
  | Nested op => RawOps.run_op v op
  end.

(** The modification a client makes on the state [m], if any; [None] when a
    lookup trips an assertion or has no key. *)
Definition intent (m : gmap Z (SLE F)) (c : client) : option (option (RawOps.t F)) :=
  let found k (op : SLE F -> option (RawOps.t F)) :=
    if Keylet.key k =? 0 then None
    else match Keylet.checked k (m !! Keylet.key k) with
         | Ok (Some s) => Some (op s)
         | Ok None => Some None
         | _ => None
         end in
  match c with
  | Look k => found k (fun _ => None)
  | Modify k x => found k (fun s => Some (RawOps.Replace (with_fields s x)))
  | Remove k => found k (fun s => Some (RawOps.Erase s))
  | Create sle => Some (Some (RawOps.Insert sle))
  | Nested op => Some (Some op)
  end.

Definition client_fits (m : gmap Z (SLE F)) (c : client) : bool :=
  match intent m c with
  | None => false
  | Some None => true
  | Some (Some op) => RawOps.fits m op
  end.

Definition client_effect (s : gmap Z (SLE F) * Z) (c : client) : gmap Z (SLE F) * Z :=
  match intent s.1 c with
  | Some (Some op) => RawOps.effect s op
  | _ => s
  end.

Fixpoint clients_fit (s : gmap Z (SLE F) * Z) (cs : list client) : bool :=
  match cs with
  | [] => true
  | c :: cs => client_fits s.1 c && clients_fit (client_effect s c) cs
  end.

Lemma run_peek v k : good v -> Keylet.key k <> 0 ->
  match Keylet.checked k (contents v !! Keylet.key k) with
  | Ok (Some s) => exists a p v', peek v k = Ok (Some p, v') /\ good v' /\ base_ v' = base_ v /\
      contents v' = contents v /\ supply v' = supply v /\
      ApplyStateTable.items_ (items_ v') !! Keylet.key k = Some (a, p) /\
      a <> ApplyStateTable.erase_ /\ ApplyStateTable.heap (items_ v') !! p = Some s /\
      sle_key s = Keylet.key k /\
      (ApplyStateTable.items_ (items_ v) !! Keylet.key k = None -> a = ApplyStateTable.cache_)
  | Ok None => peek v k = Ok (None, v)
  | _ => True
  end.
Proof.
  intros [Hb [Hok Hc]] Hk. pose proof (ApplyStateTable.peek_spec (base_ v) (items_ v) Hb Hok _ k Hk Hc) as Hp.
  unfold peek. simpl. destruct (Keylet.checked _ _) as [[s|]| |]; [| |done..].
  - destruct Hp as (a & p & tb' & -> & Hf & Hs & [Hd1 Hd2] & Hi & Ha & Hh & Hks & Hca).
    exists a, p. eexists. split; [done|]. split; [done|]. split; [done|]. split; [done|].
    split; [|done]. simpl. unfold ApplyStateTable.drops_after. by rewrite Hd1, Hd2.
  - rewrite Hp. simpl. by destruct v.
Qed.

Lemma run_client_spec v c : good v -> client_fits (contents v) c = true ->
  let s := client_effect (contents v, supply v) c in becomes (run_client v c) s.1 s.2.
Proof.
  intros Hg. unfold client_fits, client_effect.
  destruct c as [k|k x|k|sle|op]; cbn [intent run_client fst];
    [..|exact (RawOps.run_op_spec v (RawOps.Insert sle) Hg)|exact (RawOps.run_op_spec v op Hg)];
    (destruct (Z.eqb_spec (Keylet.key k) 0); [done|]);
    pose proof (run_peek v k Hg ltac:(done)) as Hp;
    remember (contents v) as m eqn:Hm; remember (supply v) as d eqn:Hd0;
    (destruct (Keylet.checked k _) as [[s|]| |]; [| |done..]);
    try (intros _; rewrite Hp; by exists v);
    destruct Hp as (a & p & v' & -> & Hg' & Hb & Hc & Hs & Hi & Ha & Hh & Hks & _);
    intros _; cbn [mbind result_bind fst snd RawOps.effect sle_key with_fields]; rewrite <- Hc, <- Hs.
  - by exists v'.
  - rewrite Hks. pose proof (proj2 Hg') as Hf'.
    destruct (ApplyStateTable.modify_spec _ _ _ _ a p s x Hf' Hi Ha Hh Hks) as (tb2 & Hr & Hf2 & Hs2 & Hd).
    unfold write, update, with_items. simpl.
    destruct (ApplyStateTable.write p x (items_ v')) as [tb1| |]; simpl in *; try done. rewrite Hr.
    destruct Hd as [Hd1 Hd2]. eexists. split; [done|]. split; [split; [apply Hg'|done]|].
    split; [simpl; rewrite Hs2; unfold with_fields; by rewrite Hks|]. simpl. unfold ApplyStateTable.drops_after. by rewrite Hd1, Hd2.
  - rewrite Hks. apply (with_items_becomes v' (items_ v')); [done|done|].
    by apply (ApplyStateTable.erase_spec _ _ _ _ a p s); [apply Hg'|..].
Qed.

Lemma direct_spec (v : V) c : good v -> client_fits (contents v) c = true ->
  let s := client_effect (contents v, supply v) c in becomes (direct v c) s.1 s.2.
Proof.
  intros Hg. unfold client_fits, client_effect. destruct c as [k|k x|k|sle|op]; simpl;
    [..|exact (RawOps.run_op_spec v (RawOps.Insert sle) Hg)|exact (RawOps.run_op_spec v op Hg)];
    (destruct (Z.eqb_spec (Keylet.key k) 0); [done|]); rewrite read_law by done;
    (destruct (Keylet.checked k _) as [[s|]| |]; [| |done..]); simpl; try (intros _; by exists v);
    intros Hfit.
  - by apply (RawOps.run_op_spec v (RawOps.Replace (with_fields s x))).
  - by apply (RawOps.run_op_spec v (RawOps.Erase s)).
Qed.

Lemma clients_spec {W} `{ViewModel F W} (f : W -> client -> result W) cs :
  (forall v c, good v -> client_fits (contents v) c = true ->
     let s := client_effect (contents v, supply v) c in becomes (f v c) s.1 s.2) ->
  forall v, good v -> clients_fit (contents v, supply v) cs = true ->
  let s := fold_left client_effect cs (contents v, supply v) in becomes (foldM f v cs) s.1 s.2.
Proof.
  intros Hf. induction cs as [|c cs IH]; intros v Hg; simpl.
  - intros _. by exists v.
  - intros [Hfit Hfits]%andb_true_iff.
    destruct (Hf v c Hg Hfit) as (v' & -> & Hg' & Hc & Hs). simpl.
    destruct (client_effect (contents v, supply v) c) as [m n]. simpl in *. subst m n. by apply IH.
Qed.

Lemma with_items_base (v : t F V) r v' : with_items v r = Ok v' -> base_ v' = base_ v.
Proof. destruct r; [intros [= <-]|..]; done. Qed.

Lemma peek_base (v : t F V) k pv : peek v k = Ok pv -> base_ pv.2 = base_ v.
Proof. unfold peek. destruct (ApplyStateTable.peek _ _ _); [intros [= <-]|..]; done. Qed.

Lemma adopt_base (v : t F V) sle f v' : adopt v sle f = Ok v' -> base_ v' = base_ v.
Proof. apply with_items_base. Qed.

Lemma run_client_base (v : t F V) c v' : run_client v c = Ok v' -> base_ v' = base_ v.
Proof.
  destruct c as [k|k x|k|sle|op]; cbn [run_client].
  1-3: destruct (peek v k) as [pv| |] eqn:Hp; simpl; [apply peek_base in Hp; rewrite <- Hp|done..].
  - by intros [= <-].
  - destruct pv.1; [|by intros [= <-]].
    destruct (write pv.2 _ x) as [v1| |] eqn:Hw; simpl; [|done..].
    apply with_items_base in Hw. intros Hu%with_items_base. congruence.
  - destruct pv.1; [apply with_items_base|by intros [= <-]].
  - apply adopt_base.
  - destruct op; cbn; [apply adopt_base..| |]; by intros [= <-].
Qed.

Lemma run_clients_base cs : forall v v' : t F V, foldM run_client v cs = Ok v' -> base_ v' = base_ v.
Proof.
  induction cs as [|c cs IH]; intros v v'; simpl; [by intros [= <-]|].
  destruct (run_client v c) as [v1| |] eqn:Hc; simpl; [|done..]. intros Hv.
  apply run_client_base in Hc. rewrite <- Hc. by apply IH.
Qed.

(** C4: a transaction's view isolates and commits.  Let [v] be any view that
    keeps the contracts (a closed ledger, an open view, another sandbox) and
    [cs] a sequence of lookups, changes in place of looked-up entries, removals,
    creations and applications of nested views that fits what [v] shows.  The
    sandbox over [v] takes it without failing, [v] being unchanged; by reading,
    the sandbox cannot be told from [v] changed directly; and its [apply] makes
    [v] show the same entries and account for the same drops as changing [v]
    directly. *)
Theorem sandbox_transparent (v : V) (cs : list client) : good v ->
  clients_fit (contents v, supply v) cs = true ->
  exists sb v1 v2, foldM run_client (make v) cs = Ok sb /\ base_ sb = v /\
    foldM direct v cs = Ok v1 /\ OpenView.reads_like (F := F) sb v1 /\
    apply sb v = Ok v2 /\ contents v2 = contents v1 /\ supply v2 = supply v1.
Proof.
  intros Hg Hfit. destruct (make_good v Hg) as (Hg0 & Hc0 & Hs0).
  destruct (clients_spec direct cs direct_spec v Hg Hfit) as (v1 & Hrun1 & Hg1 & Hc1 & Hs1).
  destruct (clients_spec run_client cs run_client_spec (make v) Hg0) as (sb & Hrun & Hgs & Hcs & Hss);
    [by rewrite Hc0, Hs0|].
  rewrite Hc0, Hs0 in Hcs, Hss. pose proof (run_clients_base _ _ _ Hrun) as Hb. simpl in Hb.
  assert (Hf : ApplyStateTable.fine (contents v) ApplyStateTable.none (items_ sb)) by (rewrite <- Hb; apply Hgs).
  destruct (ApplyStateTable.apply_spec (contents v) (items_ sb) v (proj1 Hf) Hg eq_refl)
    as (v2 & Ha & Hg2 & Hc2 & Hs2).
  rewrite (ApplyStateTable.clean_applied _ _ _ Hf (fun _ => id)) in Hc2.
  exists sb, v1, v2. do 3 (split; [done|]).
  split; [apply OpenView.reads_like_contents; [done|done|congruence]|]. split; [done|].
  simpl in Hcs, Hss. rewrite Hb in Hcs, Hss. split; congruence.
Qed.

(** An assignment through a peeked pointer shows at once, but is dropped
    unless [update] follows.  After [peek] and an assignment on a fresh sandbox
    over [v], reading the entry gives the assigned fields, while [apply] leaves
    every entry of [v] as it was. *)
Theorem unflagged_write_dropped (v : V) (k : Keylet.t) (s : SLE F) (x : F) : good v ->
  Keylet.key k <> 0 -> contents v !! Keylet.key k = Some s -> Keylet.check k s = Ok true ->
  exists p sb sb' v', peek (make v) k = Ok (Some p, sb) /\ write sb p x = Ok sb' /\
    read sb' (Keylet.unchecked (Keylet.key k)) = Ok (Some (with_fields s x)) /\
    apply sb' v = Ok v' /\ contents v' = contents v.
Proof.
  intros Hg Hk Hs Hck. destruct (make_good v Hg) as (Hg0 & Hc0 & Hs0).
  pose proof (run_peek (make v) k Hg0 Hk) as Hp. rewrite Hc0, Hs in Hp. simpl in Hp. rewrite Hck in Hp.
  destruct Hp as (a & p & sb & Hpk & Hgs & Hb & Hcs & _ & Hi & Ha & Hh & Hks & Hca).
  cbn in Hb. rewrite (Hca eq_refl) in *.
  assert (Hf : ApplyStateTable.fine (contents v) ApplyStateTable.none (items_ sb)) by (rewrite <- Hb; apply Hgs).
  destruct (ApplyStateTable.write_spec (contents v) _ (items_ sb) _ _ p s x Hf Hi Ha Hh Hks)
    as (tb' & Hw & Hok & _ & Hit & Hp' & Hsh & _ & _).
  destruct (ApplyStateTable.apply_spec (contents v) tb' v Hok Hg eq_refl) as (v' & Hv' & _ & Hc' & _).
  exists p, sb, (mk v tb'), v'. split; [done|]. split; [unfold write; rewrite Hw; simpl; by rewrite Hb|].
  split; [|split; [done|]].
  - unfold read. rewrite ApplyStateTable.read_spec by done. simpl.
    rewrite Hsh, lookup_insert_eq. unfold with_fields. by rewrite Hks.
  - rewrite Hc', (ApplyStateTable.applied_write _ _ _ _ _ _ (proj1 Hf) Hi Hw).
    rewrite (ApplyStateTable.clean_applied _ _ _ Hf (fun _ => id)). transitivity (contents sb); [|done].
    simpl. by rewrite Hb.
Qed.

End clients.

(** A transaction on an open view of a ledger with two accounts. *)
#[local] Instance debug : Build := {| NDEBUG := false |}.

Definition ledger2 : Ledger.t Z :=
  Ledger.mk {[ 5 := mkSLE 5 Keylet.ltACCOUNT_ROOT 100; 9 := mkSLE 9 Keylet.ltACCOUNT_ROOT 7 ]} ∅ (set_info_drops 1000 info0).

Definition account (i : Z) : Keylet.t := Keylet.mk Keylet.ltACCOUNT_ROOT i.

Definition payment : list client :=
  [Look (account 9); Modify (account 5) 60; Modify (account 9) 37; Nested (RawOps.DestroyXRP 10);
   Create (mkSLE 12 Keylet.ltDIR_NODE 1); Look (account 11); Remove (account 9);
   Nested (RawOps.Insert (mkSLE 9 Keylet.ltACCOUNT_ROOT 37)); Modify (account 9) 38].

Lemma ledger2_good : good (F := Z) ledger2.
Proof.
  split; [|done]. intros i s Hs. simpl in Hs. apply lookup_insert_Some in Hs as [[<- <-]|[_ Hs]]; [done|].
  apply lookup_singleton_Some in Hs as [<- <-]. done.
Qed.

Lemma open2_good : good (F := Z) (OpenView.make (F := Z) ledger2).
Proof. apply (OpenView.open_make_good (F := Z) ledger2 ledger2_good). Qed.

Lemma sandbox_transparent_witness : exists sb v1 v2,
  foldM run_client (make (F := Z) (OpenView.make (F := Z) ledger2)) payment = Ok sb /\
  base_ sb = OpenView.make ledger2 /\
  foldM direct (OpenView.make (F := Z) ledger2) payment = Ok v1 /\
  OpenView.reads_like (F := Z) sb v1 /\
  apply sb (OpenView.make ledger2) = Ok v2 /\
  contents (F := Z) v2 = contents v1 /\ supply (F := Z) v2 = supply (F := Z) v1.
Proof.
  apply (sandbox_transparent (OpenView.make (F := Z) ledger2) payment open2_good).
  vm_compute. reflexivity.
Defined.

Lemma unflagged_write_dropped_witness : exists p sb sb' v',
  peek (make (F := Z) ledger2) (account 5) = Ok (Some p, sb) /\ write sb p 1 = Ok sb' /\
  read sb' (Keylet.unchecked 5) = Ok (Some (mkSLE 5 Keylet.ltACCOUNT_ROOT 1)) /\
  apply sb' ledger2 = Ok v' /\ contents (F := Z) v' = contents ledger2.
Proof.
  apply (unflagged_write_dropped ledger2 (account 5) (mkSLE 5 Keylet.ltACCOUNT_ROOT 100) 1 ledger2_good);
    [done|reflexivity|reflexivity].
Defined.

End ApplyView.
