(* ===== verification/Fields.v ===== *)
(** * The fields of ledger entries

    [STObject] (protocol/STObject.h, protocol/impl/STObject.cpp) as the ledger
    code uses it: an object made from a template has a place for every field of
    the template, which is present with a value or absent.  Reading an absent
    field gives the default of its type; reading or setting a field the
    template does not have, or with the type of another field, throws.  The
    templates are those of protocol/impl/LedgerFormats.cpp. *)

From stdpp Require Import base tactics numbers list strings gmap option.
From S2P Require Import Prelude Decimal IOUAmount BigNum Serializer STAmount View.

Module Fields.

(** ** Values by serialized type *)

(** A field is its code: the type and the index within the type. *)
Abbreviation SField := Z.

(** The objects within an array are signers and majorities: they have the name
    of a field, and their own fields are integers, hashes and accounts, listed
    with their codes. *)
Record Inner := mkInner { inner_name : SField; inner_fields : list (SField * Z) }.

#[export] Instance Inner_eq_dec : EqDecision Inner.
Proof. solve_decision. Defined.

(** An element of a path of a payment ([STPathElement]): its type, account,
    currency and issuer. *)
Record PathElement := mkPathElement { pe_type : Z; pe_account : Z; pe_currency : Z; pe_issuer : Z }.

#[export] Instance PathElement_eq_dec : EqDecision PathElement.
Proof. solve_decision. Defined.

Inductive Value :=
| U8 (v : Z) | U16 (v : Z) | U32 (v : Z) | U64 (v : Z)
| H128 (v : Z) | H160 (v : Z) | H256 (v : Z)
| AMT (v : STAmount.t) | VL (v : list Z) | ACC (v : Z) | VEC (v : list Z)
| ARR (v : list Inner) | PATHS (v : list (list PathElement)).

#[export] Instance Issue_eq_dec : EqDecision STAmount.Issue.
Proof. solve_decision. Defined.
#[export] Instance STAmount_eq_dec : EqDecision STAmount.t.
Proof. solve_decision. Defined.
#[export] Instance Value_eq_dec : EqDecision Value.
Proof. solve_decision. Defined.

(** The [SerializedTypeID] of a value. *)
Definition getSType (v : Value) : Z :=
  match v with
  | U16 _ => 1 | U32 _ => 2 | U64 _ => 3 | H128 _ => 4 | H256 _ => 5
  | AMT _ => 6 | VL _ => 7 | ACC _ => 8 | ARR _ => 15 | U8 _ => 16 | H160 _ => 17 | PATHS _ => 18 | VEC _ => 19
  end.

Definition field_code (type index : Z) : SField := Z.lor (Z.shiftl type 16) index.
Definition fieldType (f : SField) : Z := Z.shiftr f 16.

Definition sfLedgerEntryType : SField := Eval vm_compute in field_code 1 1.
Definition sfTransactionType : SField := Eval vm_compute in field_code 1 2.
Definition sfSignerWeight : SField := Eval vm_compute in field_code 1 3.
Definition sfFlags : SField := Eval vm_compute in field_code 2 2.
Definition sfSourceTag : SField := Eval vm_compute in field_code 2 3.
Definition sfSequence : SField := Eval vm_compute in field_code 2 4.
Definition sfPreviousTxnLgrSeq : SField := Eval vm_compute in field_code 2 5.
Definition sfLedgerSequence : SField := Eval vm_compute in field_code 2 6.
Definition sfCloseTime : SField := Eval vm_compute in field_code 2 7.
Definition sfExpiration : SField := Eval vm_compute in field_code 2 10.
Definition sfTransferRate : SField := Eval vm_compute in field_code 2 11.
Definition sfWalletSize : SField := Eval vm_compute in field_code 2 12.
Definition sfOwnerCount : SField := Eval vm_compute in field_code 2 13.
Definition sfHighQualityIn : SField := Eval vm_compute in field_code 2 16.
Definition sfHighQualityOut : SField := Eval vm_compute in field_code 2 17.
Definition sfLowQualityIn : SField := Eval vm_compute in field_code 2 18.
Definition sfLowQualityOut : SField := Eval vm_compute in field_code 2 19.
Definition sfFirstLedgerSequence : SField := Eval vm_compute in field_code 2 26.
Definition sfLastLedgerSequence : SField := Eval vm_compute in field_code 2 27.
Definition sfOperationLimit : SField := Eval vm_compute in field_code 2 29.
Definition sfReferenceFeeUnits : SField := Eval vm_compute in field_code 2 30.
Definition sfReserveBase : SField := Eval vm_compute in field_code 2 31.
Definition sfReserveIncrement : SField := Eval vm_compute in field_code 2 32.
Definition sfSignerQuorum : SField := Eval vm_compute in field_code 2 35.
Definition sfDividendLedger : SField := Eval vm_compute in field_code 2 181.
Definition sfIndexNext : SField := Eval vm_compute in field_code 3 1.
Definition sfIndexPrevious : SField := Eval vm_compute in field_code 3 2.
Definition sfBookNode : SField := Eval vm_compute in field_code 3 3.
Definition sfOwnerNode : SField := Eval vm_compute in field_code 3 4.
Definition sfBaseFee : SField := Eval vm_compute in field_code 3 5.
Definition sfExchangeRate : SField := Eval vm_compute in field_code 3 6.
Definition sfLowNode : SField := Eval vm_compute in field_code 3 7.
Definition sfHighNode : SField := Eval vm_compute in field_code 3 8.
Definition sfDividendCoins : SField := Eval vm_compute in field_code 3 181.
Definition sfEmailHash : SField := Eval vm_compute in field_code 4 1.
Definition sfPreviousTxnID : SField := Eval vm_compute in field_code 5 5.
Definition sfLedgerIndex : SField := Eval vm_compute in field_code 5 6.
Definition sfWalletLocator : SField := Eval vm_compute in field_code 5 7.
Definition sfRootIndex : SField := Eval vm_compute in field_code 5 8.
Definition sfAccountTxnID : SField := Eval vm_compute in field_code 5 9.
Definition sfBookDirectory : SField := Eval vm_compute in field_code 5 16.
Definition sfAmendment : SField := Eval vm_compute in field_code 5 19.
Definition sfBalance : SField := Eval vm_compute in field_code 6 2.
Definition sfTakerPays : SField := Eval vm_compute in field_code 6 4.
Definition sfTakerGets : SField := Eval vm_compute in field_code 6 5.
Definition sfLowLimit : SField := Eval vm_compute in field_code 6 6.
Definition sfHighLimit : SField := Eval vm_compute in field_code 6 7.
Definition sfFee : SField := Eval vm_compute in field_code 6 8.
Definition sfMessageKey : SField := Eval vm_compute in field_code 7 2.
Definition sfSigningPubKey : SField := Eval vm_compute in field_code 7 3.
Definition sfTxnSignature : SField := Eval vm_compute in field_code 7 4.
Definition sfDomain : SField := Eval vm_compute in field_code 7 7.
Definition sfAccount : SField := Eval vm_compute in field_code 8 1.
Definition sfOwner : SField := Eval vm_compute in field_code 8 2.
Definition sfTarget : SField := Eval vm_compute in field_code 8 7.
Definition sfRegularKey : SField := Eval vm_compute in field_code 8 8.
Definition sfTakerPaysCurrency : SField := Eval vm_compute in field_code 17 1.
Definition sfTakerPaysIssuer : SField := Eval vm_compute in field_code 17 2.
Definition sfTakerGetsCurrency : SField := Eval vm_compute in field_code 17 3.
Definition sfTakerGetsIssuer : SField := Eval vm_compute in field_code 17 4.
Definition sfIndexes : SField := Eval vm_compute in field_code 19 1.
Definition sfHashes : SField := Eval vm_compute in field_code 19 2.
Definition sfAmendments : SField := Eval vm_compute in field_code 19 3.
Definition sfMajority : SField := Eval vm_compute in field_code 14 18.
Definition sfSignerEntry : SField := Eval vm_compute in field_code 14 11.
Definition sfSignerEntries : SField := Eval vm_compute in field_code 15 4.
Definition sfMultiSigners : SField := Eval vm_compute in field_code 15 3.
Definition sfMemos : SField := Eval vm_compute in field_code 15 9.
Definition sfMajorities : SField := Eval vm_compute in field_code 15 16.
Definition sfDestinationTag : SField := Eval vm_compute in field_code 2 14.
Definition sfQualityIn : SField := Eval vm_compute in field_code 2 20.
Definition sfQualityOut : SField := Eval vm_compute in field_code 2 21.
Definition sfOfferSequence : SField := Eval vm_compute in field_code 2 25.
Definition sfSetFlag : SField := Eval vm_compute in field_code 2 33.
Definition sfClearFlag : SField := Eval vm_compute in field_code 2 34.
Definition sfInvoiceID : SField := Eval vm_compute in field_code 5 17.
Definition sfTicketID : SField := Eval vm_compute in field_code 5 20.
Definition sfAmount : SField := Eval vm_compute in field_code 6 1.
Definition sfLimitAmount : SField := Eval vm_compute in field_code 6 3.
Definition sfSendMax : SField := Eval vm_compute in field_code 6 9.
Definition sfDeliverMin : SField := Eval vm_compute in field_code 6 10.
Definition sfDestination : SField := Eval vm_compute in field_code 8 3.
Definition sfPaths : SField := Eval vm_compute in field_code 18 1.
Definition sfDividendType : SField := Eval vm_compute in field_code 16 182.
Definition sfDividendState : SField := Eval vm_compute in field_code 16 181.

(** ** Objects *)

(** A place per field of the template; [None] is [STI_NOTPRESENT]. *)
Abbreviation STObject := (gmap SField (option Value)).

Inductive SOE_Flags := SOE_REQUIRED | SOE_OPTIONAL | SOE_DEFAULT.

#[export] Instance SOE_Flags_eq_dec : EqDecision SOE_Flags.
Proof. solve_decision. Defined.

(** [STAmount empty{}]: no drops of the native currency. *)
Definition amount0 : STAmount.t := STAmount.of_u64 0 false.

(** [detail::defaultObject] for a field of this type. *)
Definition defaultObject (f : SField) : option Value :=
  match fieldType f with
  | 1 => Some (U16 0) | 2 => Some (U32 0) | 3 => Some (U64 0)
  | 4 => Some (H128 0) | 5 => Some (H256 0) | 6 => Some (AMT amount0)
  | 7 => Some (VL []) | 8 => Some (ACC 0) | 15 => Some (ARR []) | 16 => Some (U8 0)
  | 17 => Some (H160 0) | 18 => Some (PATHS []) | 19 => Some (VEC [])
  | _ => None
  end.

(** [STObject::set (SOTemplate const&)]. *)
Definition set_template (type : list (SField * SOE_Flags)) : STObject :=
  fold_left (fun o e =>
    <[e.1 := if bool_decide (e.2 = SOE_REQUIRED) then defaultObject e.1 else None]> o) type ∅.

Definition isFieldPresent (f : SField) (o : STObject) : bool :=
  match o !! f with Some (Some _) => true | _ => false end.

(** [getFieldByValue] and [getFieldByConstRef]; [as_T] is the [dynamic_cast]. *)
Definition getField {A} (as_T : Value -> option A) (empty : A) (f : SField) (o : STObject)
    : result A :=
  match o !! f with
  | None => Throw "Field not found"
  | Some None => Ok empty
  | Some (Some v) => match as_T v with
                     | None => Throw "Wrong field type"
                     | Some a => Ok a
                     end
  end.

(** [setFieldUsingSetValue] and [setFieldUsingAssignment]: an absent field is
    first made present with a value of its own type. *)
Definition setField (f : SField) (v : Value) (o : STObject) : result STObject :=
  match o !! f with
  | None => Throw "Field not found"
  | Some cur =>
      let type := match cur with Some w => getSType w | None => fieldType f end in
      if type =? getSType v then Ok (<[f := Some v]> o) else Throw "Wrong field type"
  end.

Definition as_u8 (v : Value) : option Z := match v with U8 z => Some z | _ => None end.
Definition as_u16 (v : Value) : option Z := match v with U16 z => Some z | _ => None end.
Definition as_h128 (v : Value) : option Z := match v with H128 z => Some z | _ => None end.
Definition as_h160 (v : Value) : option Z := match v with H160 z => Some z | _ => None end.
Definition as_u32 (v : Value) : option Z := match v with U32 z => Some z | _ => None end.
Definition as_u64 (v : Value) : option Z := match v with U64 z => Some z | _ => None end.
Definition as_h256 (v : Value) : option Z := match v with H256 z => Some z | _ => None end.
Definition as_acc (v : Value) : option Z := match v with ACC z => Some z | _ => None end.
Definition as_amt (v : Value) : option STAmount.t := match v with AMT a => Some a | _ => None end.
Definition as_vec (v : Value) : option (list Z) := match v with VEC l => Some l | _ => None end.
Definition as_vl (v : Value) : option (list Z) := match v with VL l => Some l | _ => None end.
Definition as_arr (v : Value) : option (list Inner) := match v with ARR l => Some l | _ => None end.

Definition as_paths (v : Value) : option (list (list PathElement)) :=
  match v with PATHS l => Some l | _ => None end.

Definition getFieldU8 := getField as_u8 0.
Definition getFieldU16 := getField as_u16 0.
Definition getFieldH128 := getField as_h128 0.
Definition getFieldH160 := getField as_h160 0.
Definition getFieldU32 := getField as_u32 0.
Definition getFieldU64 := getField as_u64 0.
Definition getFieldH256 := getField as_h256 0.
Definition getAccountID := getField as_acc 0.
Definition getFieldAmount := getField as_amt amount0.
Definition getFieldV256 := getField as_vec [].
Definition getFieldArray := getField as_arr [].
Definition getFieldVL := getField as_vl [].
Definition getFieldPathSet := getField as_paths [].

Definition setFieldU8 (f : SField) (v : Z) := setField f (U8 v).
Definition setFieldH128 (f : SField) (v : Z) := setField f (H128 v).
Definition setFieldVL (f : SField) (v : list Z) := setField f (VL v).
Definition setFieldU32 (f : SField) (v : Z) := setField f (U32 v).
Definition setFieldU64 (f : SField) (v : Z) := setField f (U64 v).
Definition setFieldH256 (f : SField) (v : Z) := setField f (H256 v).
Definition setAccountID (f : SField) (v : Z) := setField f (ACC v).
Definition setFieldAmount (f : SField) (v : STAmount.t) := setField f (AMT v).
Definition setFieldV256 (f : SField) (v : list Z) := setField f (VEC v).
Definition setFieldArray (f : SField) (v : list Inner) := setField f (ARR v).

Definition makeFieldAbsent (f : SField) (o : STObject) : result STObject :=
  match o !! f with
  | None => Throw "Field not found"
  | Some None => Ok o
  | Some (Some _) => Ok (<[f := None]> o)
  end.

(** The field of an object within an array. *)
Definition inner_get (f : SField) (inner : Inner) : result Z :=
  match list_find (fun p => p.1 = f) (inner_fields inner) with
  | None => Throw "Field not found"
  | Some (_, p) => Ok p.2
  end.

(** No flags when the field is missing or is no 32-bit integer. *)
Definition getFlags (o : STObject) : Z :=
  match o !! sfFlags with Some (Some (U32 z)) => z | _ => 0 end.

Definition isFlag (f : Z) (o : STObject) : bool := Z.land (getFlags o) f =? f.

(** On an object with a template: no place is added. *)
Definition setFlag (f : Z) (o : STObject) : STObject :=
  match o !! sfFlags with Some (Some (U32 z)) => <[sfFlags := Some (U32 (Z.lor z f))]> o | _ => o end.
Definition clearFlag (f : Z) (o : STObject) : STObject :=
  match o !! sfFlags with Some (Some (U32 z)) => <[sfFlags := Some (U32 (Z.land z (u32 (Z.lnot f))))]> o | _ => o end.

Definition makeFieldPresent (f : SField) (o : STObject) : result STObject :=
  match o !! f with
  | None => Throw "Field not found"
  | Some (Some _) => Ok o
  | Some None => Ok (<[f := defaultObject f]> o)
  end.

(** ** The formats of ledger entries *)

Definition common_fields : list (SField * SOE_Flags) :=
  [(sfLedgerIndex, SOE_OPTIONAL); (sfLedgerEntryType, SOE_REQUIRED); (sfFlags, SOE_REQUIRED)].

Definition ltRIPPLE_STATE : Z := 114.
Definition ltOFFER : Z := 111.
Definition ltDIVIDEND : Z := 68.
Definition ltTICKET : Z := 84.
Definition ltSIGNER_LIST : Z := 83.
Definition ltLEDGER_HASHES : Z := 104.
Definition ltAMENDMENTS : Z := 102.
Definition ltFEE_SETTINGS : Z := 115.

Definition AccountRoot : list (SField * SOE_Flags) :=
  [(sfAccount, SOE_REQUIRED); (sfSequence, SOE_REQUIRED); (sfBalance, SOE_REQUIRED);
   (sfOwnerCount, SOE_REQUIRED); (sfPreviousTxnID, SOE_REQUIRED);
   (sfPreviousTxnLgrSeq, SOE_REQUIRED); (sfAccountTxnID, SOE_OPTIONAL);
   (sfRegularKey, SOE_OPTIONAL); (sfEmailHash, SOE_OPTIONAL); (sfWalletLocator, SOE_OPTIONAL);
   (sfWalletSize, SOE_OPTIONAL); (sfMessageKey, SOE_OPTIONAL); (sfTransferRate, SOE_OPTIONAL);
   (sfDomain, SOE_OPTIONAL); (sfDividendLedger, SOE_OPTIONAL)].

Definition DirectoryNode : list (SField * SOE_Flags) :=
  [(sfOwner, SOE_OPTIONAL); (sfTakerPaysCurrency, SOE_OPTIONAL); (sfTakerPaysIssuer, SOE_OPTIONAL);
   (sfTakerGetsCurrency, SOE_OPTIONAL); (sfTakerGetsIssuer, SOE_OPTIONAL);
   (sfExchangeRate, SOE_OPTIONAL); (sfIndexes, SOE_REQUIRED); (sfRootIndex, SOE_REQUIRED);
   (sfIndexNext, SOE_OPTIONAL); (sfIndexPrevious, SOE_OPTIONAL)].

Definition Offer : list (SField * SOE_Flags) :=
  [(sfAccount, SOE_REQUIRED); (sfSequence, SOE_REQUIRED); (sfTakerPays, SOE_REQUIRED);
   (sfTakerGets, SOE_REQUIRED); (sfBookDirectory, SOE_REQUIRED); (sfBookNode, SOE_REQUIRED);
   (sfOwnerNode, SOE_REQUIRED); (sfPreviousTxnID, SOE_REQUIRED);
   (sfPreviousTxnLgrSeq, SOE_REQUIRED); (sfExpiration, SOE_OPTIONAL)].

Definition RippleState : list (SField * SOE_Flags) :=
  [(sfBalance, SOE_REQUIRED); (sfLowLimit, SOE_REQUIRED); (sfHighLimit, SOE_REQUIRED);
   (sfPreviousTxnID, SOE_REQUIRED); (sfPreviousTxnLgrSeq, SOE_REQUIRED); (sfLowNode, SOE_OPTIONAL);
   (sfLowQualityIn, SOE_OPTIONAL); (sfLowQualityOut, SOE_OPTIONAL); (sfHighNode, SOE_OPTIONAL);
   (sfHighQualityIn, SOE_OPTIONAL); (sfHighQualityOut, SOE_OPTIONAL)].

Definition LedgerHashes : list (SField * SOE_Flags) :=
  [(sfFirstLedgerSequence, SOE_OPTIONAL); (sfLastLedgerSequence, SOE_OPTIONAL);
   (sfHashes, SOE_REQUIRED)].

Definition Amendments : list (SField * SOE_Flags) :=
  [(sfLedgerSequence, SOE_OPTIONAL); (sfAmendments, SOE_OPTIONAL); (sfMajorities, SOE_OPTIONAL)].

Definition FeeSettings : list (SField * SOE_Flags) :=
  [(sfLedgerSequence, SOE_OPTIONAL); (sfBaseFee, SOE_REQUIRED); (sfReferenceFeeUnits, SOE_REQUIRED);
   (sfReserveBase, SOE_REQUIRED); (sfReserveIncrement, SOE_REQUIRED)].

Definition Ticket : list (SField * SOE_Flags) :=
  [(sfAccount, SOE_REQUIRED); (sfSequence, SOE_REQUIRED); (sfOwnerNode, SOE_REQUIRED);
   (sfTarget, SOE_OPTIONAL); (sfExpiration, SOE_OPTIONAL)].

Definition Dividend : list (SField * SOE_Flags) :=
  [(sfDividendState, SOE_REQUIRED); (sfDividendLedger, SOE_REQUIRED); (sfDividendCoins, SOE_REQUIRED);
   (sfPreviousTxnID, SOE_OPTIONAL); (sfPreviousTxnLgrSeq, SOE_OPTIONAL)].

Definition SignerList : list (SField * SOE_Flags) :=
  [(sfOwnerNode, SOE_REQUIRED); (sfSignerQuorum, SOE_REQUIRED); (sfSignerEntries, SOE_REQUIRED)].

Definition findByType (type : Z) : option (list (SField * SOE_Flags)) :=
  if type =? Keylet.ltACCOUNT_ROOT then Some (AccountRoot ++ common_fields)
  else if type =? Keylet.ltDIR_NODE then Some (DirectoryNode ++ common_fields)
  else if type =? ltOFFER then Some (Offer ++ common_fields)
  else if type =? ltRIPPLE_STATE then Some (RippleState ++ common_fields)
  else if type =? ltLEDGER_HASHES then Some (LedgerHashes ++ common_fields)
  else if type =? ltAMENDMENTS then Some (Amendments ++ common_fields)
  else if type =? ltFEE_SETTINGS then Some (FeeSettings ++ common_fields)
  else if type =? ltTICKET then Some (Ticket ++ common_fields)
  else if type =? ltDIVIDEND then Some (Dividend ++ common_fields)
  else if type =? ltSIGNER_LIST then Some (SignerList ++ common_fields)
  else None.

(** [STLedgerEntry (Keylet const&)]. *)
Definition make_SLE (k : Keylet.t) : result (SLE STObject) :=
  match findByType (Keylet.type k) with
  | None => Throw "invalid ledger entry type"
  | Some elements =>
      o ← setField sfLedgerEntryType (U16 (Keylet.type k)) (set_template elements);
      Ok (mkSLE (Keylet.key k) (Keylet.type k) o)
  end.

(** ** Flags *)

Definition lsfPasswordSpent : Z := 0x00010000.
Definition lsfRequireDestTag : Z := 0x00020000.
Definition lsfRequireAuth : Z := 0x00040000.
Definition lsfDisallowXRP : Z := 0x00080000.
Definition lsfDisableMaster : Z := 0x00100000.
Definition lsfNoFreeze : Z := 0x00200000.
Definition lsfGlobalFreeze : Z := 0x00400000.
Definition lsfDefaultRipple : Z := 0x00800000.
Definition lsfPassive : Z := 0x00010000.
Definition lsfSell : Z := 0x00020000.
Definition lsfLowReserve : Z := 0x00010000.
Definition lsfHighReserve : Z := 0x00020000.
Definition lsfLowAuth : Z := 0x00040000.
Definition lsfHighAuth : Z := 0x00080000.
Definition lsfLowNoRipple : Z := 0x00100000.
Definition lsfHighNoRipple : Z := 0x00200000.
Definition lsfLowFreeze : Z := 0x00400000.
Definition lsfHighFreeze : Z := 0x00800000.

(** ** Lemmas *)

(** The place [f] exists, empty or with a value of its own type. *)
Definition has_place (f : SField) (o : STObject) : Prop :=
  match o !! f with
  | Some (Some v) => getSType v = fieldType f
  | Some None => True
  | None => False
  end.

Lemma setField_ok f v o : has_place f o -> getSType v = fieldType f ->
  setField f v o = Ok (<[f := Some v]> o).
Proof.
  unfold has_place, setField. intros Hp Hv. destruct (o !! f) as [[w|]|]; [..|done].
  - by rewrite Hp, <- Hv, Z.eqb_refl.
  - by rewrite <- Hv, Z.eqb_refl.
Qed.

Lemma has_place_insert f g v o : has_place f o -> getSType v = fieldType g ->
  has_place f (<[g := Some v]> o).
Proof.
  unfold has_place. intros Hp Hv. destruct (decide (g = f)) as [->|].
  - by rewrite lookup_insert_eq.
  - by rewrite lookup_insert_ne.
Qed.

Lemma getField_insert_eq {A} (as_T : Value -> option A) e f v o a : as_T v = Some a ->
  getField as_T e f (<[f := Some v]> o) = Ok a.
Proof. intros Ha. unfold getField. by rewrite lookup_insert_eq, Ha. Qed.

Lemma getField_insert_ne {A} (as_T : Value -> option A) e f g v o : g <> f ->
  getField as_T e f (<[g := v]> o) = getField as_T e f o.
Proof. intros Hne. unfold getField. by rewrite lookup_insert_ne. Qed.

(** ** Objects of a format *)

(** The object was made from this template: it has the template's places, and
    no value of another type than its field's. *)
Definition conforms (elements : list (SField * SOE_Flags)) (o : STObject) : Prop :=
  (forall f, is_Some (o !! f) <-> f ∈ elements.*1) /\
  (forall f, f ∈ elements.*1 -> has_place f o).

(** The values read, when the type is right. *)
Definition u32_of (f : SField) (o : STObject) : Z :=
  match o !! f with Some (Some (U32 z)) => z | _ => 0 end.
Definition u64_of (f : SField) (o : STObject) : Z :=
  match o !! f with Some (Some (U64 z)) => z | _ => 0 end.
Definition h256_of (f : SField) (o : STObject) : Z :=
  match o !! f with Some (Some (H256 z)) => z | _ => 0 end.
Definition acc_of (f : SField) (o : STObject) : Z :=
  match o !! f with Some (Some (ACC z)) => z | _ => 0 end.
Definition amt_of (f : SField) (o : STObject) : STAmount.t :=
  match o !! f with Some (Some (AMT a)) => a | _ => amount0 end.
Definition vec_of (f : SField) (o : STObject) : list Z :=
  match o !! f with Some (Some (VEC l)) => l | _ => [] end.
Definition arr_of (f : SField) (o : STObject) : list Inner :=
  match o !! f with Some (Some (ARR l)) => l | _ => [] end.

Ltac typed_getter :=
  let Hp := fresh in let Ht := fresh in
  unfold has_place, getField; intros Hp Ht;
  match goal with |- context [?o !! ?f] => destruct (o !! f) as [[[]|]|] end;
  try done; rewrite Ht in Hp; done.

Lemma get_u32_of f o : has_place f o -> fieldType f = 2 -> getFieldU32 f o = Ok (u32_of f o).
Proof. unfold getFieldU32, u32_of. typed_getter. Qed.
Lemma get_u64_of f o : has_place f o -> fieldType f = 3 -> getFieldU64 f o = Ok (u64_of f o).
Proof. unfold getFieldU64, u64_of. typed_getter. Qed.
Lemma get_h256_of f o : has_place f o -> fieldType f = 5 -> getFieldH256 f o = Ok (h256_of f o).
Proof. unfold getFieldH256, h256_of. typed_getter. Qed.
Lemma get_amt_of f o : has_place f o -> fieldType f = 6 -> getFieldAmount f o = Ok (amt_of f o).
Proof. unfold getFieldAmount, amt_of. typed_getter. Qed.
Lemma get_acc_of f o : has_place f o -> fieldType f = 8 -> getAccountID f o = Ok (acc_of f o).
Proof. unfold getAccountID, acc_of. typed_getter. Qed.
Lemma get_vec_of f o : has_place f o -> fieldType f = 19 -> getFieldV256 f o = Ok (vec_of f o).
Proof. unfold getFieldV256, vec_of. typed_getter. Qed.

Lemma get_arr_of f o : has_place f o -> fieldType f = 15 -> getFieldArray f o = Ok (arr_of f o).
Proof. unfold getFieldArray, arr_of. typed_getter. Qed.

Lemma default_type f v : defaultObject f = Some v -> getSType v = fieldType f.
Proof.
  unfold defaultObject. destruct (fieldType f) as [|p|p]; try done.
  repeat (destruct p as [p|p|]; try done; try (by intros [= <-])).
Qed.

(** A template fills its places with defaults of the right types. *)
Lemma fold_template elements : forall o fs,
  (forall f, is_Some (o !! f) <-> f ∈ fs) -> (forall f, f ∈ fs -> has_place f o) ->
  let o' := fold_left (fun o e =>
    <[e.1 := if bool_decide (e.2 = SOE_REQUIRED) then defaultObject e.1 else None]> o) elements o in
  (forall f, is_Some (o' !! f) <-> f ∈ fs ++ elements.*1) /\
  (forall f, f ∈ fs ++ elements.*1 -> has_place f o').
Proof.
  induction elements as [|[f flag] elements IH]; intros o fs Hd Hp; [simpl; by rewrite app_nil_r|].
  replace (fs ++ ((f, flag) :: elements).*1) with ((fs ++ [f]) ++ elements.*1) by (by rewrite <- app_assoc).
  apply IH; simpl.
  - intros g. rewrite elem_of_app, list_elem_of_singleton, <- Hd.
    destruct (decide (g = f)) as [->|]; [rewrite lookup_insert_eq; split; eauto|].
    rewrite lookup_insert_ne by done. split; [by left|]. by intros [|].
  - intros g Hg. unfold has_place. destruct (decide (g = f)) as [->|Hne].
    + rewrite lookup_insert_eq. case_bool_decide; [|done].
      destruct (defaultObject f) as [v|] eqn:Hv; [by apply default_type|done].
    + rewrite lookup_insert_ne by done. apply Hp.
      apply elem_of_app in Hg as [|?%list_elem_of_singleton]; done.
Qed.

Lemma set_template_conforms elements : conforms elements (set_template elements).
Proof.
  apply (fold_template elements ∅ []).
  - intros f. rewrite lookup_empty. split; [by intros []|by intros []%not_elem_of_nil].
  - by intros f []%not_elem_of_nil.
Qed.

Lemma setField_conforms elements o f v : conforms elements o ->
  match setField f v o with
  | Ok o' => f ∈ elements.*1 /\ getSType v = fieldType f /\ o' = <[f := Some v]> o /\ conforms elements o'
  | Throw _ => f ∉ elements.*1 \/ getSType v <> fieldType f
  | OutOfFuel => False
  end.
Proof.
  intros [Hd Hp]. unfold setField. destruct (o !! f) as [cur|] eqn:Hf.
  - assert (Hin : f ∈ elements.*1) by (apply Hd; by rewrite Hf).
    specialize (Hp f Hin) as Hpf. unfold has_place in Hpf. rewrite Hf in Hpf.
    assert (Ht : match cur with Some w => getSType w | None => fieldType f end = fieldType f) by (by destruct cur).
    rewrite Ht. destruct (Z.eqb_spec (fieldType f) (getSType v)) as [He|He]; [|by right].
    split_and!; try done. split.
    + intros g. rewrite <- Hd. destruct (decide (g = f)) as [->|]; [by rewrite lookup_insert_eq, Hf|].
      by rewrite lookup_insert_ne.
    + intros g Hg. apply has_place_insert; [by apply Hp|done].
  - left. intros Hin%Hd. rewrite Hf in Hin. by destruct Hin.
Qed.

Lemma make_SLE_conforms type key elements : findByType type = Some elements ->
  exists o, make_SLE (Keylet.mk type key) = Ok (mkSLE key type o) /\ conforms elements o.
Proof.
  intros He. unfold make_SLE. simpl. rewrite He.
  pose proof (setField_conforms elements _ sfLedgerEntryType (U16 type) (set_template_conforms elements)) as Hs.
  assert (Hin : sfLedgerEntryType ∈ elements.*1).
  { unfold findByType in He. repeat case_match; simplify_eq; rewrite fmap_app; apply elem_of_app; right;
      right; by left. }
  destruct (setField _ _ _) as [o| |]; simpl in Hs; [|by destruct Hs|done].
  exists o. by split; [|apply Hs].
Qed.

(** An entry made and some of its fields set. *)
Definition build (type : Z) (sets : list (SField * Value)) : result STObject :=
  sle ← make_SLE (Keylet.mk type 0);
  foldM (fun o fv => setField fv.1 fv.2 o) (fields sle) sets.

Lemma build_conforms type elements sets o : findByType type = Some elements ->
  build type sets = Ok o -> conforms elements o.
Proof.
  intros He. unfold build. destruct (make_SLE_conforms type 0 elements He) as (o0 & -> & H0). simpl.
  revert o0 H0. induction sets as [|[f v] sets IH]; intros o0 H0; simpl; [by intros [= <-]|].
  pose proof (setField_conforms elements o0 f v H0) as Hs.
  destruct (setField f v o0) as [o1| |]; simpl; [|done..]. apply IH, Hs.
Qed.

(** The getter for values of the type of [v] gives [v]. *)
Definition reads (f : SField) (o : STObject) (v : Value) : Prop :=
  match v with
  | U8 z => getFieldU8 f o = Ok z
  | U16 z => getFieldU16 f o = Ok z
  | U32 z => getFieldU32 f o = Ok z
  | U64 z => getFieldU64 f o = Ok z
  | H128 z => getFieldH128 f o = Ok z
  | H160 z => getFieldH160 f o = Ok z
  | H256 z => getFieldH256 f o = Ok z
  | AMT a => getFieldAmount f o = Ok a
  | VL l => getFieldVL f o = Ok l
  | ACC z => getAccountID f o = Ok z
  | VEC l => getFieldV256 f o = Ok l
  | ARR l => getFieldArray f o = Ok l
  | PATHS l => getFieldPathSet f o = Ok l
  end.

Lemma reads_set f v o : o !! f = Some (Some v) -> reads f o v.
Proof.
  intros Ho. unfold reads, getFieldU8, getFieldU16, getFieldU32, getFieldU64, getFieldH128, getFieldH160, getFieldH256, getFieldAmount,
    getFieldVL, getAccountID, getFieldV256, getFieldArray, getFieldPathSet, getField. rewrite Ho. by destruct v.
Qed.

(** An absent field reads as the default of its type. *)
Lemma reads_absent f v o : o !! f = Some None -> defaultObject f = Some v -> reads f o v.
Proof.
  intros Ho. unfold defaultObject. destruct (fieldType f) as [|p|p]; try done.
  repeat (destruct p as [p|p|]; try done); intros [= <-]; cbn [reads];
    unfold getFieldU8, getFieldU16, getFieldU32, getFieldU64, getFieldH128, getFieldH160, getFieldH256, getFieldAmount,
    getFieldVL, getAccountID, getFieldV256, getFieldArray, getFieldPathSet, getField; by rewrite Ho.
Qed.

(** Every field of a format has a type with a default. *)
Lemma format_types type elements f : findByType type = Some elements -> f ∈ elements.*1 -> is_Some (defaultObject f).
Proof.
  intros He Hf. assert (Hall : forallb (fun f => bool_decide (is_Some (defaultObject f))) elements.*1 = true).
  { unfold findByType in He. repeat case_match; simplify_eq; by vm_compute. }
  rewrite forallb_forall in Hall. specialize (Hall f). rewrite bool_decide_eq_true in Hall. by apply Hall, list_elem_of_In.
Qed.

Lemma reads_some type elements o f : findByType type = Some elements -> conforms elements o -> f ∈ elements.*1 ->
  exists v, getSType v = fieldType f /\ reads f o v.
Proof.
  intros He [_ Hp] Hf. destruct (format_types _ _ _ He Hf) as [d Hd]. specialize (Hp f Hf). unfold has_place in Hp.
  destruct (o !! f) as [[v|]|] eqn:Ho; [|exists d; split; [by apply default_type|by apply reads_absent]|done].
  exists v. split; [done|by apply reads_set].
Qed.

(** C40: entries stay well typed.  An entry is created with the places of its
    format.  On an object of the format the getter of a field's type, be it one of
    the integers, hashes, amounts, blobs, accounts, lists, arrays or path sets,
    never throws.  Setting a field succeeds exactly when the format has it and the
    value is of its type; then the object is of the format again, the getter of
    that type gives the value that was set, and the other fields read as before. *)
Theorem entries_typed type key elements : findByType type = Some elements ->
  (exists o, make_SLE (Keylet.mk type key) = Ok (mkSLE key type o) /\ conforms elements o) /\
  forall o, conforms elements o ->
    (forall f, f ∈ elements.*1 -> exists v, getSType v = fieldType f /\ reads f o v) /\
    (forall f v, match setField f v o with
     | Ok o' => f ∈ elements.*1 /\ getSType v = fieldType f /\ conforms elements o' /\
         reads f o' v /\ (forall g w, g <> f -> reads g o' w <-> reads g o w)
     | Throw _ => f ∉ elements.*1 \/ getSType v <> fieldType f
     | OutOfFuel => False
     end).
Proof.
  intros He. split; [by apply make_SLE_conforms|]. intros o Ho. split; [intros f; by apply (reads_some type elements)|].
  intros f v. pose proof (setField_conforms elements o f v Ho) as Hs.
  destruct (setField f v o) as [o'| |]; [|done|done]. destruct Hs as (? & ? & -> & ?).
  split_and!; try done; [by apply reads_set, lookup_insert_eq|]. intros g w Hg.
  unfold reads, getFieldU8, getFieldU16, getFieldU32, getFieldU64, getFieldH128, getFieldH160, getFieldH256, getFieldAmount,
    getFieldVL, getAccountID, getFieldV256, getFieldArray, getFieldPathSet. destruct w; by rewrite getField_insert_ne.
Qed.

Lemma entries_typed_witness :
  exists o, make_SLE (Keylet.mk ltRIPPLE_STATE 17) = Ok (mkSLE 17 ltRIPPLE_STATE o) /\
    conforms (RippleState ++ common_fields) o.
Proof.
  apply (proj1 (entries_typed ltRIPPLE_STATE 17 (RippleState ++ common_fields) eq_refl)).
Defined.

End Fields.
