(* ===== verification/Indexes.v ===== *)
(** * Keys of ledger entries

    protocol/impl/Indexes.cpp: the key of an entry is the SHA-512-Half of a
    name space and what identifies the entry.  The digest is a parameter; what
    the ledger relies on is that different inputs have different digests and
    that no digest is zero. *)

From stdpp Require Import base tactics numbers list strings option.
From S2P Require Import Prelude Serializer STAmount View Fields.

(** [sha512Half] on the bytes its arguments append to the hasher. *)
Class SHA512Half := sha512Half : list Z -> Z.

Class SHA512HalfLaws (H : SHA512Half) : Prop := {
  sha_inj a b : Serializer.bytes a -> Serializer.bytes b -> sha512Half a = sha512Half b -> a = b;
  sha_pos a : Serializer.bytes a -> 0 < sha512Half a }.

Module Indexes.
Import Serializer.

Definition spaceAccount : Z := 97.
Definition spaceDirNode : Z := 100.
Definition spaceRipple : Z := 114.
Definition spaceOffer : Z := 111.
Definition spaceOwnerDir : Z := 79.
Definition spaceBookDir : Z := 66.
Definition spaceSkipList : Z := 115.
Definition spaceAmendment : Z := 102.
Definition spaceFee : Z := 101.
Definition spaceTicket : Z := 84.
Definition spaceDividend : Z := 68.
Definition spaceSignerList : Z := 83.

Section keys.
Context {SHA : SHA512Half}.

Definition getLedgerHashIndex : Z := sha512Half (be_bytes 2 spaceSkipList).
Definition getLedgerHashIndex_of (desiredLedgerIndex : Z) : Z :=
  sha512Half (be_bytes 2 spaceSkipList ++ be_bytes 4 (Z.shiftr desiredLedgerIndex 16)).
Definition getLedgerAmendmentIndex : Z := sha512Half (be_bytes 2 spaceAmendment).
Definition getLedgerFeeIndex : Z := sha512Half (be_bytes 2 spaceFee).
Definition getLedgerDividendIndex : Z := sha512Half (be_bytes 2 spaceDividend).

Definition getAccountRootIndex (account : Z) : Z :=
  sha512Half (be_bytes 2 spaceAccount ++ be_bytes 20 account).
Definition getOwnerDirIndex (account : Z) : Z :=
  sha512Half (be_bytes 2 spaceOwnerDir ++ be_bytes 20 account).
Definition getSignerListIndex (account : Z) : Z :=
  sha512Half (be_bytes 2 spaceSignerList ++ be_bytes 20 account).
Definition getOfferIndex (account uSequence : Z) : Z :=
  sha512Half (be_bytes 2 spaceOffer ++ be_bytes 20 account ++ be_bytes 4 uSequence).
Definition getTicketIndex (account uSequence : Z) : Z :=
  sha512Half (be_bytes 2 spaceTicket ++ be_bytes 20 account ++ be_bytes 4 uSequence).

Definition getDirNodeIndex (uDirRoot uNodeIndex : Z) : Z :=
  if uNodeIndex =? 0 then uDirRoot
  else sha512Half (be_bytes 2 spaceDirNode ++ be_bytes 32 uDirRoot ++ be_bytes 8 uNodeIndex).

Definition getRippleStateIndex (a b currency : Z) : Z :=
  if a <? b
  then sha512Half (be_bytes 2 spaceRipple ++ be_bytes 20 a ++ be_bytes 20 b ++ be_bytes 20 currency)
  else sha512Half (be_bytes 2 spaceRipple ++ be_bytes 20 b ++ be_bytes 20 a ++ be_bytes 20 currency).

(** The last eight bytes of the key of a book directory are the quality. *)
Definition getQualityIndex (uBase uNodeDir : Z) : Z := Z.lor (Z.shiftl (Z.shiftr uBase 64) 64) uNodeDir.
Definition getQualityNext (uBase : Z) : Z := (uBase + 2 ^ 64) mod 2 ^ 256.
Definition getQuality (uBase : Z) : Z := u64 uBase.

(** A book: what the taker pays in, and gets out. *)
Record Book := mkBook { b_in : STAmount.Issue; b_out : STAmount.Issue }.

Definition book_isConsistent (b : Book) : bool :=
  STAmount.isConsistent (b_in b) && STAmount.isConsistent (b_out b) &&
  negb (STAmount.issue_eqb (b_in b) (b_out b)).

Definition getBookBase `{Build} (book : Book) : result Z :=
  _ ← Keylet.assert (book_isConsistent book);
  Ok (getQualityIndex (sha512Half (be_bytes 2 spaceBookDir ++
    be_bytes 20 (STAmount.currency (b_in book)) ++ be_bytes 20 (STAmount.currency (b_out book)) ++
    be_bytes 20 (STAmount.account (b_in book)) ++ be_bytes 20 (STAmount.account (b_out book)))) 0).

(** ** Keylets *)

Definition account (id : Z) : Keylet.t := Keylet.mk Keylet.ltACCOUNT_ROOT (getAccountRootIndex id).
Definition child (key : Z) : Keylet.t := Keylet.mk Keylet.ltCHILD key.
Definition ownerDir (id : Z) : Keylet.t := Keylet.mk Keylet.ltDIR_NODE (getOwnerDirIndex id).
Definition page (key index : Z) : Keylet.t := Keylet.mk Keylet.ltDIR_NODE (getDirNodeIndex key index).
Definition line (id0 id1 currency : Z) : Keylet.t :=
  Keylet.mk Fields.ltRIPPLE_STATE (getRippleStateIndex id0 id1 currency).
Definition line_at (key : Z) : Keylet.t := Keylet.mk Fields.ltRIPPLE_STATE key.
Definition line_issue (id : Z) (issue : STAmount.Issue) : Keylet.t :=
  line id (STAmount.account issue) (STAmount.currency issue).
Definition offer (id seq : Z) : Keylet.t := Keylet.mk Fields.ltOFFER (getOfferIndex id seq).
Definition ticket (id seq : Z) : Keylet.t := Keylet.mk Fields.ltTICKET (getTicketIndex id seq).
Definition signers (id : Z) : Keylet.t := Keylet.mk Fields.ltSIGNER_LIST (getSignerListIndex id).
Definition skip : Keylet.t := Keylet.mk Fields.ltLEDGER_HASHES getLedgerHashIndex.
Definition skip_of (ledger : Z) : Keylet.t := Keylet.mk Fields.ltLEDGER_HASHES (getLedgerHashIndex_of ledger).
Definition amendments : Keylet.t := Keylet.mk Fields.ltAMENDMENTS getLedgerAmendmentIndex.
Definition fees : Keylet.t := Keylet.mk Fields.ltFEE_SETTINGS getLedgerFeeIndex.
Definition dividend : Keylet.t := Keylet.mk Fields.ltDIVIDEND getLedgerDividendIndex.

Definition book `{Build} (b : Book) : result Keylet.t :=
  key ← getBookBase b; Ok (Keylet.mk Keylet.ltDIR_NODE key).
Definition quality `{Build} (k : Keylet.t) (q : Z) : result Keylet.t :=
  _ ← Keylet.assert (Keylet.type k =? Keylet.ltDIR_NODE);
  Ok (Keylet.mk Keylet.ltDIR_NODE (getQualityIndex (Keylet.key k) q)).
Definition next `{Build} (k : Keylet.t) : result Keylet.t :=
  _ ← Keylet.assert (Keylet.type k =? Keylet.ltDIR_NODE);
  Ok (Keylet.mk Keylet.ltDIR_NODE (getQualityNext (Keylet.key k))).

End keys.

(** ** Keys that never meet *)

Lemma be_bytes_inj n x y : be_bytes n x = be_bytes n y ->
  0 <= x < 2 ^ (8 * Z.of_nat n) -> 0 <= y < 2 ^ (8 * Z.of_nat n) -> x = y.
Proof.
  intros H Hx Hy. apply (f_equal be_value) in H. rewrite !be_value_bytes in H.
  by rewrite !Z.mod_small in H.
Qed.

Lemma be_bytes_app_inv n x y r s :
  be_bytes n x ++ r = be_bytes n y ++ s -> be_bytes n x = be_bytes n y /\ r = s.
Proof. apply app_inj_1. by rewrite !length_be_bytes. Qed.

Lemma bytes_app a b : bytes a -> bytes b -> bytes (a ++ b).
Proof. apply Forall_app_2. Qed.

#[local] Hint Resolve be_bytes_bytes bytes_app : sand.

(** The keys of a directory's pages differ, and none is zero. *)
Definition pages_distinct {SHA : SHA512Half} (root : Z) : Prop :=
  (forall n, 0 <= n < 2 ^ 64 -> getDirNodeIndex root n <> 0) /\
  (forall n m, 0 <= n < 2 ^ 64 -> 0 <= m < 2 ^ 64 ->
     getDirNodeIndex root n = getDirNodeIndex root m -> n = m).

Section laws.
Context {SHA : SHA512Half} {SL : SHA512HalfLaws SHA}.

Lemma sha_split n x y r s : bytes r -> bytes s ->
  sha512Half (be_bytes n x ++ r) = sha512Half (be_bytes n y ++ s) ->
  be_bytes n x = be_bytes n y /\ r = s.
Proof.
  intros Hr Hs Heq. apply be_bytes_app_inv. apply sha_inj; [..|done]; auto with sand.
Qed.

Lemma spaces_differ sp sp' r s : bytes r -> bytes s -> be_bytes 2 sp <> be_bytes 2 sp' ->
  sha512Half (be_bytes 2 sp ++ r) <> sha512Half (be_bytes 2 sp' ++ s).
Proof. intros Hr Hs Hne Heq. by apply sha_split in Heq as [? _]. Qed.

Lemma ownerDir_pages account : pages_distinct (getOwnerDirIndex account).
Proof.
  split.
  - intros n _. unfold getDirNodeIndex. case_if; apply Z.neq_sym, Z.lt_neq, sha_pos; auto 6 with sand.
  - intros n m Hn Hm. unfold getDirNodeIndex. repeat case_if; intros Heq; [lia|..].
    + apply spaces_differ in Heq; [done|auto with sand..|by vm_compute].
    + symmetry in Heq. apply spaces_differ in Heq; [done|auto with sand..|by vm_compute].
    + apply sha_split in Heq as [_ Heq]; [|auto with sand..].
      apply be_bytes_app_inv in Heq as [_ Heq]. by apply be_bytes_inj in Heq.
Qed.

Lemma getAccountRootIndex_inj a b : 0 <= a < 2 ^ 160 -> 0 <= b < 2 ^ 160 ->
  getAccountRootIndex a = getAccountRootIndex b -> a = b.
Proof.
  intros Ha Hb Heq. apply sha_split in Heq as [_ Heq]; [|auto with sand..].
  by apply be_bytes_inj in Heq.
Qed.

Lemma getAccountRootIndex_pos a : getAccountRootIndex a <> 0.
Proof. apply Z.neq_sym, Z.lt_neq, sha_pos. auto with sand. Qed.

Lemma getSignerListIndex_pos a : getSignerListIndex a <> 0.
Proof. apply Z.neq_sym, Z.lt_neq, sha_pos. auto with sand. Qed.

Lemma getRippleStateIndex_pos a b c : getRippleStateIndex a b c <> 0.
Proof.
  unfold getRippleStateIndex. case_if; apply Z.neq_sym, Z.lt_neq, sha_pos; auto 8 with sand.
Qed.

(** A trust line has one key from both sides. *)
Lemma getRippleStateIndex_sym a b c : getRippleStateIndex a b c = getRippleStateIndex b a c.
Proof.
  unfold getRippleStateIndex. repeat case_if; try done; [lia|].
  by assert (a = b) as -> by lia.
Qed.

Lemma account_not_line x a b c : getAccountRootIndex x <> getRippleStateIndex a b c.
Proof.
  unfold getRippleStateIndex. case_if; apply spaces_differ;
    try (by auto 6 with sand); by vm_compute.
Qed.

Lemma account_not_signers x y : getAccountRootIndex x <> getSignerListIndex y.
Proof. apply spaces_differ; try (by auto 6 with sand); by vm_compute. Qed.

Lemma page_not_account x r n : n <> 0 -> getDirNodeIndex r n <> getAccountRootIndex x.
Proof.
  intros Hn. unfold getDirNodeIndex. case_if; [done|]. apply spaces_differ;
    try (by auto 6 with sand); by vm_compute.
Qed.

End laws.

(** ** Books *)

Lemma getQualityIndex_sum base q : 0 <= q < 2 ^ 64 ->
  getQualityIndex base q = base / 2 ^ 64 * 2 ^ 64 + q.
Proof.
  intros Hq. unfold getQualityIndex. rewrite lor_shiftl by lia. by rewrite Z.shiftr_div_pow2 by lia.
Qed.

(** The directories of a book lie together, best price first.  The keys
    from the book's base up to, and not including, [getQualityNext] are exactly
    those [getQualityIndex] makes of the 64-bit qualities; each gives its
    quality back, and they sort like the qualities. *)
Theorem book_directories_sorted base : 0 <= base < 2 ^ 256 - 2 ^ 64 ->
  (forall key, getQualityIndex base 0 <= key < getQualityNext (getQualityIndex base 0) <->
     exists q, 0 <= q < 2 ^ 64 /\ key = getQualityIndex base q) /\
  (forall q, 0 <= q < 2 ^ 64 -> getQuality (getQualityIndex base q) = q) /\
  (forall q r, 0 <= q < 2 ^ 64 -> 0 <= r < 2 ^ 64 ->
     (getQualityIndex base q < getQualityIndex base r <-> q < r)).
Proof.
  intros Hb. pose proof (Z.div_mod base (2 ^ 64) ltac:(lia)) as Hd.
  pose proof (Z.mod_pos_bound base (2 ^ 64) ltac:(lia)) as Hm.
  split_and!.
  - intros key. unfold getQualityNext. rewrite getQualityIndex_sum by lia.
    rewrite Z.mod_small by lia. split.
    + intros Hk. exists (key - base / 2 ^ 64 * 2 ^ 64). rewrite getQualityIndex_sum; lia.
    + intros (q & Hq & ->). rewrite getQualityIndex_sum; lia.
  - intros q Hq. unfold getQuality, u64. rewrite getQualityIndex_sum by done.
    rewrite Z.add_comm, Z.mod_add by lia. by apply Z.mod_small.
  - intros q r Hq Hr. rewrite !getQualityIndex_sum by done. lia.
Qed.

Lemma book_directories_sorted_witness :
  getQuality (getQualityIndex (2 ^ 200 + 12345) 77) = 77 /\
  getQualityIndex (2 ^ 200 + 12345) 77 < getQualityIndex (2 ^ 200 + 12345) 78.
Proof.
  destruct (book_directories_sorted (2 ^ 200 + 12345) ltac:(lia)) as (_ & Hq & Ho).
  split; [apply Hq; lia|]. apply Ho; lia.
Defined.

End Indexes.

(** An instance: the number whose digits to the base 256 are 1 and the bytes. *)
Module IdealHash.

#[export] Instance ideal : SHA512Half := fun l => Serializer.be_value (1 :: l).

Lemma be_value_lt l acc : Serializer.bytes l -> 0 <= acc ->
  acc * 256 ^ Z.of_nat (length l) <= foldl (fun acc b => Z.shiftl acc 8 + b) acc l
    < (acc + 1) * 256 ^ Z.of_nat (length l).
Proof.
  revert acc. induction l as [|b l IH]; intros acc Hl Hacc; [simpl; lia|].
  apply Forall_cons_1 in Hl as [Hb Hl]. unfold Serializer.byte in Hb. simpl foldl.
  rewrite Z.shiftl_mul_pow2 by lia. change (2 ^ 8) with 256.
  specialize (IH (acc * 256 + b) Hl ltac:(lia)). simpl length.
  rewrite Nat2Z.inj_succ, Z.pow_succ_r by lia.
  pose proof (Z.pow_pos_nonneg 256 (Z.of_nat (length l)) ltac:(lia) ltac:(lia)). nia.
Qed.

Lemma foldl_inj l l' acc : Serializer.bytes l -> Serializer.bytes l' -> length l = length l' ->
  foldl (fun acc b => Z.shiftl acc 8 + b) acc l = foldl (fun acc b => Z.shiftl acc 8 + b) acc l' ->
  0 <= acc -> l = l'.
Proof.
  revert l' acc. induction l as [|b l IH]; intros [|b' l'] acc Hl Hl' Hlen Heq Hacc; try done.
  apply Forall_cons_1 in Hl as [Hb Hl]. apply Forall_cons_1 in Hl' as [Hb' Hl']. injection Hlen as Hlen.
  unfold Serializer.byte in *. simpl in Heq. rewrite !Z.shiftl_mul_pow2 in Heq by lia.
  change (2 ^ 8) with 256 in Heq.
  pose proof (be_value_lt l (acc * 256 + b) Hl ltac:(lia)) as H1.
  pose proof (be_value_lt l' (acc * 256 + b') Hl' ltac:(lia)) as H2.
  rewrite <- Hlen in H2. rewrite <- Heq in H2.
  pose proof (Z.pow_pos_nonneg 256 (Z.of_nat (length l)) ltac:(lia) ltac:(lia)).
  assert (b = b') as -> by nia. f_equal. eapply IH; [done..|exact Heq|lia].
Qed.

#[export] Instance ideal_laws : SHA512HalfLaws ideal.
Proof.
  split.
  - intros a b Ha Hb Heq. unfold sha512Half, ideal, Serializer.be_value in Heq. simpl in Heq.
    change (Z.shiftl 0 8 + 1) with 1 in Heq.
    pose proof (be_value_lt a 1 Ha ltac:(lia)) as H1. pose proof (be_value_lt b 1 Hb ltac:(lia)) as H2.
    assert (length a = length b) as Hlen.
    { destruct (Nat.lt_trichotomy (length a) (length b)) as [?|[?|?]]; [|done|]; exfalso.
      - assert (256 ^ Z.of_nat (length a) * 256 <= 256 ^ Z.of_nat (length b)); [|lia].
        rewrite Z.mul_comm, <- Z.pow_succ_r by lia. apply Z.pow_le_mono_r; lia.
      - assert (256 ^ Z.of_nat (length b) * 256 <= 256 ^ Z.of_nat (length a)); [|lia].
        rewrite Z.mul_comm, <- Z.pow_succ_r by lia. apply Z.pow_le_mono_r; lia. }
    eapply foldl_inj; [done..|exact Heq|lia].
  - intros a Ha. unfold sha512Half, ideal, Serializer.be_value. simpl.
    pose proof (be_value_lt a 1 Ha ltac:(lia)) as H1.
    pose proof (Z.pow_pos_nonneg 256 (Z.of_nat (length a)) ltac:(lia) ltac:(lia)).
    change (Z.shiftl 0 8 + 1) with 1. lia.
Qed.

End IdealHash.
