(* ===== verification/PaymentSandbox.v ===== *)
(** * Credits a payment must not spend

    [DeferredCredits] of ledger/PaymentSandbox.h and ledger/impl/PaymentSandbox.cpp:
    the credits made while a payment is being worked out, by pair of accounts
    and currency, which the balances reported to the payment leave out.  A
    [PaymentSandbox] asks its parent first, so the tables of a sandbox and of
    its ancestors are a list; a view without such a table is the empty list. *)

From stdpp Require Import base tactics numbers list strings gmap option.
From S2P Require Import Prelude Decimal IOUAmount BigNum Serializer STAmount View Fields.

Module DeferredCredits.
Import STAmount.

(** The lower and the higher account, and the currency. *)
Abbreviation Key := (Z * Z * Z)%type.

(** The credits from the higher to the lower account, and the other way. *)
Abbreviation Value := (STAmount.t * STAmount.t)%type.

Abbreviation table := (gmap Key Value).

Definition makeKey (a1 a2 c : Z) : Key := if a1 <? a2 then (a1, a2, c) else (a2, a1, c).

Section credits.
Context `{Build}.

Definition credit (sender receiver : Z) (amount : STAmount.t) (map_ : table) : result table :=
  _ ← Keylet.assert (negb (sender =? receiver));
  _ ← Keylet.assert (negb (mIsNegative amount));
  let k := makeKey sender receiver (currency (mIssue amount)) in
  match map_ !! k with
  | None =>
      z ← zeroed amount;
      Ok (<[k := if sender <? receiver then (z, amount) else (amount, z)]> map_)
  | Some (v0, v1) =>
      if sender <? receiver
      then v1 ← add v1 amount; Ok (<[k := (v0, v1)]> map_)
      else v0 ← add v0 amount; Ok (<[k := (v0, v1)]> map_)
  end.

Definition adjustedBalance (main other : Z) (curBalance : STAmount.t) (map_ : table)
    : result STAmount.t :=
  match map_ !! makeKey main other (currency (mIssue curBalance)) with
  | None => Ok curBalance
  | Some (v0, v1) => if main <? other then sub curBalance v0 else sub curBalance v1
  end.

(** One turn of the loop of [apply]. *)
Definition apply_one (to : table) (p : Key * Value) : result table :=
  match to !! p.1 with
  | None => Ok (<[p.1 := p.2]> to)
  | Some (v0, v1) => v0 ← add v0 p.2.1; v1 ← add v1 p.2.2; Ok (<[p.1 := (v0, v1)]> to)
  end.

(** The order of the loop does not matter: each key is added once. *)
Definition apply (map_ to : table) : result table := foldM apply_one to (map_to_list map_).

(** [PaymentSandbox::balanceHook] and [creditHook] on the tables of the sandbox
    and its ancestors. *)
Fixpoint balanceHook (tabs : list table) (account issuer : Z) (amount : STAmount.t)
    : result STAmount.t :=
  match tabs with
  | [] => Ok amount
  | tab :: ps => a ← balanceHook ps account issuer amount; adjustedBalance account issuer a tab
  end.

Definition creditHook (from to : Z) (amount : STAmount.t) (tabs : list table) : result (list table) :=
  match tabs with
  | [] => Ok []
  | tab :: ps => tab ← credit from to amount tab; Ok (tab :: ps)
  end.

(** ** What the table says *)

(** The credits recorded from [sender] to [receiver]. *)
Definition credits (sender receiver c : Z) (map_ : table) : option STAmount.t :=
  (fun v => if sender <? receiver then v.2 else v.1) <$> map_ !! makeKey sender receiver c.

Lemma makeKey_sym a b c : makeKey a b c = makeKey b a c.
Proof.
  unfold makeKey. destruct (Z.ltb_spec a b), (Z.ltb_spec b a); try done; [lia|].
  by assert (a = b) as -> by lia.
Qed.

Lemma makeKey_inj a b c a' b' c' : makeKey a b c = makeKey a' b' c' ->
  c = c' /\ (a = a' /\ b = b' \/ a = b' /\ b = a').
Proof. unfold makeKey. repeat case_if; intros [=]; subst; auto. Qed.

Lemma adjustedBalance_credits main other cur map_ : main <> other ->
  adjustedBalance main other cur map_ =
  match credits other main (currency (mIssue cur)) map_ with
  | None => Ok cur
  | Some x => sub cur x
  end.
Proof.
  intros Hne. unfold adjustedBalance, credits. rewrite (makeKey_sym other main).
  destruct (map_ !! _) as [[v0 v1]|]; [|done]. simpl.
  destruct (Z.ltb_spec main other), (Z.ltb_spec other main); try done; lia.
Qed.

Lemma zeroed_ok a : zeroed a =
  Ok (if isXRP a then mk (mIssue a) 0 0 true false else mk (mIssue a) 0 (-100) false false).
Proof. unfold zeroed, of_issue, canonicalize, isXRP. simpl. by case_if. Qed.

(** Nothing comparable is lost by subtracting nothing. *)
Lemma sub_zeroed cur a z : wf cur -> currency (mIssue cur) = currency (mIssue a) ->
  zeroed a = Ok z -> sub cur z = Ok cur.
Proof.
  intros (Hn & _) Hc Hz. rewrite zeroed_ok in Hz. unfold sub, add, areComparable.
  assert (Hx : isXRP a = isXRP cur) by (unfold isXRP; by rewrite Hc).
  rewrite Hx in Hz. injection Hz as <-. rewrite Hn.
  destruct (isXRP cur); simpl; by rewrite <- Hc, Z.eqb_refl.
Qed.

(** What a credit changes: the total of its direction, and with the first
    credit of a pair the other direction gets an empty total. *)
Lemma credit_totals sender receiver amount map_ map' : sender <> receiver ->
  credit sender receiver amount map_ = Ok map' ->
  let c := currency (mIssue amount) in
  match credits sender receiver c map_ with
  | None => credits sender receiver c map' = Some amount /\
      (exists z, zeroed amount = Ok z /\ credits receiver sender c map' = Some z) /\
      credits receiver sender c map_ = None
  | Some x => exists r, add x amount = Ok r /\ credits sender receiver c map' = Some r /\
      credits receiver sender c map' = credits receiver sender c map_
  end /\
  (forall a b d, makeKey a b d <> makeKey sender receiver c ->
     credits a b d map' = credits a b d map_).
Proof.
  intros Hne Hcr c. unfold credit in Hcr. unfold credits. subst c.
  destruct (Keylet.assert (negb (sender =? receiver))) as [[]| |]; simpl in Hcr; [|discriminate..].
  destruct (Keylet.assert _) as [[]| |]; simpl in Hcr; [|discriminate..]. revert Hcr.
  rewrite (makeKey_sym receiver sender). set (k := makeKey _ _ _).
  assert (Hother : forall (v : Value) a b d, makeKey a b d <> k -> <[k := v]> map_ !! makeKey a b d
            = map_ !! makeKey a b d) by (intros; by apply lookup_insert_ne).
  destruct (map_ !! k) as [[v0 v1]|] eqn:Hk; simpl.
  - destruct (Z.ltb_spec sender receiver); destruct (Z.ltb_spec receiver sender); try lia;
      [destruct (add v1 amount) as [r| |] eqn:Ha|destruct (add v0 amount) as [r| |] eqn:Ha];
      simpl; try discriminate; intros [= <-]; rewrite lookup_insert_eq; simpl;
      (split; [by eauto|]); intros a b d Hd; by rewrite Hother.
  - destruct (zeroed amount) as [z| |]; simpl; try discriminate. intros [= <-]. rewrite lookup_insert_eq.
    destruct (Z.ltb_spec sender receiver); destruct (Z.ltb_spec receiver sender); try lia; simpl;
      (split; [by eauto|]); intros a b d Hd; by rewrite Hother.
Qed.

(** A credit is held back from its receiver only.  After [sender] credits
    [receiver], the balance of the receiver against the sender is reported
    without the credit and without those recorded before; the balance of the
    sender against the receiver, and every balance between other accounts or in
    another currency, is reported as before. *)
Theorem credit_deferred sender receiver amount map_ map' cur : sender <> receiver ->
  wf cur -> currency (mIssue cur) = currency (mIssue amount) ->
  credit sender receiver amount map_ = Ok map' ->
  adjustedBalance receiver sender cur map' =
    match credits sender receiver (currency (mIssue amount)) map_ with
    | None => sub cur amount
    | Some x => total ← add x amount; sub cur total
    end /\
  adjustedBalance sender receiver cur map' = adjustedBalance sender receiver cur map_ /\
  (forall main other b, main <> other ->
     makeKey main other (currency (mIssue b)) <> makeKey sender receiver (currency (mIssue amount)) ->
     adjustedBalance main other b map' = adjustedBalance main other b map_).
Proof.
  intros Hne Hwf Hc Hcr. destruct (credit_totals _ _ _ _ _ Hne Hcr) as [Ht Ho].
  split; [|split].
  - rewrite adjustedBalance_credits, Hc by done.
    destruct (credits sender receiver _ map_) as [x|].
    + destruct Ht as (r & -> & -> & _). done.
    + by destruct Ht as (-> & _).
  - rewrite !adjustedBalance_credits, Hc by done.
    destruct (credits sender receiver _ map_) as [x|].
    + by destruct Ht as (r & _ & _ & ->).
    + destruct Ht as (_ & (z & Hz & ->) & ->). by apply (sub_zeroed cur amount).
  - intros main other b Hmo Hk. rewrite !adjustedBalance_credits by done. rewrite Ho; [done|].
    by rewrite (makeKey_sym other).
Qed.

End credits.

(** Two payments of 5 and 7 of a currency, seen from a balance of 20. *)
#[local] Instance debug : Build := {| NDEBUG := false |}.

Definition usd (v : Z) : STAmount.t := mk (mkIssue 5 9) (v * 10 ^ 15) (-15) false false.

Definition after5 : table := {[ (1, 2, 5) := (usd 5, mk (mkIssue 5 9) 0 (-100) false false) ]}.

Lemma credit_deferred_witness : exists map',
  credit 2 1 (usd 7) after5 = Ok map' /\ adjustedBalance 1 2 (usd 9) map' =
    (total ← add (usd 5) (usd 7); sub (usd 9) total).
Proof.
  eexists. split; [vm_compute; reflexivity|].
  refine (proj1 (credit_deferred 2 1 (usd 7) after5 _ (usd 9) _ _ _ _));
    [lia|apply (bool_decide_unpack _); vm_compute; exact I|reflexivity|vm_compute; reflexivity].
Defined.

End DeferredCredits.
