(* ===== verification/ViewOps.v ===== *)
(** * Programs over an [ApplyView]

    The monad of the code that changes the ledger through an [ApplyView]:
    pointers from [peek], assignments through them, [update], [insert] and
    [erase], and the credit hook of a payment sandbox.  [rep] relates a view to
    what a program knows of it: the entries it shows, the pointers the program
    holds, and the entries it has assigned to without flagging them yet; each
    operation has a rule in terms of these. *)

From stdpp Require Import base tactics numbers list strings gmap sorting option.
From S2P Require Import Prelude Decimal IOUAmount BigNum Serializer STAmount.
From S2P Require Import View StateTable ApplyStateTable Fields PaymentSandbox.

Module ViewOps.
Import Fields.

(** "Transaction engine result": the codes of protocol/TER.h, and the number
    each has, whose range gives its class. *)
Inductive TER :=
| telLOCAL_ERROR | telBAD_DOMAIN | telBAD_PATH_COUNT | telBAD_PUBLIC_KEY | telFAILED_PROCESSING
| telINSUF_FEE_P | telNO_DST_PARTIAL
| temMALFORMED | temBAD_AMOUNT | temBAD_CURRENCY | temBAD_EXPIRATION | temBAD_FEE | temBAD_ISSUER
| temBAD_LIMIT | temBAD_OFFER | temBAD_PATH | temBAD_PATH_LOOP | temBAD_SEND_XRP_LIMIT | temBAD_SEND_XRP_MAX
| temBAD_SEND_XRP_NO_DIRECT | temBAD_SEND_XRP_PARTIAL | temBAD_SEND_XRP_PATHS | temBAD_SEQUENCE
| temBAD_SIGNATURE | temBAD_SRC_ACCOUNT | temBAD_TRANSFER_RATE | temDST_IS_SRC | temDST_NEEDED | temINVALID
| temINVALID_FLAG | temREDUNDANT | temRIPPLE_EMPTY | temDISABLED | temBAD_DIV_TYPE | temBAD_SIGNER
| temBAD_QUORUM | temUNCERTAIN | temUNKNOWN
| tefFAILURE | tefALREADY | tefBAD_ADD_AUTH | tefBAD_AUTH | tefBAD_LEDGER | tefCREATED | tefEXCEPTION
| tefINTERNAL | tefNO_AUTH_REQUIRED | tefPAST_SEQ | tefWRONG_PRIOR | tefMASTER_DISABLED | tefMAX_LEDGER
| tefBAD_SIGNATURE | tefBAD_QUORUM | tefNOT_MULTI_SIGNING | tefBAD_AUTH_MASTER
| terRETRY | terFUNDS_SPENT | terINSUF_FEE_B | terNO_ACCOUNT | terNO_AUTH | terNO_LINE | terOWNERS
| terPRE_SEQ | terLAST | terNO_RIPPLE
| tesSUCCESS
| tecCLAIM | tecPATH_PARTIAL | tecUNFUNDED_ADD | tecUNFUNDED_OFFER | tecUNFUNDED_PAYMENT
| tecFAILED_PROCESSING | tecDIR_FULL | tecINSUF_RESERVE_LINE | tecINSUF_RESERVE_OFFER | tecNO_DST
| tecNO_DST_INSUF_XRP | tecNO_LINE_INSUF_RESERVE | tecNO_LINE_REDUNDANT | tecPATH_DRY | tecUNFUNDED
| tecMASTER_DISABLED | tecNO_REGULAR_KEY | tecOWNERS | tecNO_ISSUER | tecNO_AUTH | tecNO_LINE | tecINSUFF_FEE
| tecFROZEN | tecNO_TARGET | tecNO_PERMISSION | tecNO_ENTRY | tecINSUFFICIENT_RESERVE | tecNEED_MASTER_KEY
| tecDST_TAG_NEEDED | tecINTERNAL | tecOVERSIZE.

Definition TER_code (t : TER) : Z :=
  match t with
  | telLOCAL_ERROR => -399 | telBAD_DOMAIN => -398 | telBAD_PATH_COUNT => -397 | telBAD_PUBLIC_KEY => -396
  | telFAILED_PROCESSING => -395 | telINSUF_FEE_P => -394 | telNO_DST_PARTIAL => -393 | temMALFORMED => -299
  | temBAD_AMOUNT => -298 | temBAD_CURRENCY => -297 | temBAD_EXPIRATION => -296 | temBAD_FEE => -295
  | temBAD_ISSUER => -294 | temBAD_LIMIT => -293 | temBAD_OFFER => -292 | temBAD_PATH => -291
  | temBAD_PATH_LOOP => -290 | temBAD_SEND_XRP_LIMIT => -289 | temBAD_SEND_XRP_MAX => -288
  | temBAD_SEND_XRP_NO_DIRECT => -287 | temBAD_SEND_XRP_PARTIAL => -286 | temBAD_SEND_XRP_PATHS => -285
  | temBAD_SEQUENCE => -284 | temBAD_SIGNATURE => -283 | temBAD_SRC_ACCOUNT => -282
  | temBAD_TRANSFER_RATE => -281 | temDST_IS_SRC => -280 | temDST_NEEDED => -279 | temINVALID => -278
  | temINVALID_FLAG => -277 | temREDUNDANT => -276 | temRIPPLE_EMPTY => -275 | temDISABLED => -274
  | temBAD_DIV_TYPE => -273 | temBAD_SIGNER => -272 | temBAD_QUORUM => -271 | temUNCERTAIN => -270
  | temUNKNOWN => -269 | tefFAILURE => -199 | tefALREADY => -198 | tefBAD_ADD_AUTH => -197
  | tefBAD_AUTH => -196 | tefBAD_LEDGER => -195 | tefCREATED => -194 | tefEXCEPTION => -193
  | tefINTERNAL => -192 | tefNO_AUTH_REQUIRED => -191 | tefPAST_SEQ => -190 | tefWRONG_PRIOR => -189
  | tefMASTER_DISABLED => -188 | tefMAX_LEDGER => -187 | tefBAD_SIGNATURE => -186 | tefBAD_QUORUM => -185
  | tefNOT_MULTI_SIGNING => -184 | tefBAD_AUTH_MASTER => -183 | terRETRY => -99 | terFUNDS_SPENT => -98
  | terINSUF_FEE_B => -97 | terNO_ACCOUNT => -96 | terNO_AUTH => -95 | terNO_LINE => -94 | terOWNERS => -93
  | terPRE_SEQ => -92 | terLAST => -91 | terNO_RIPPLE => -90 | tesSUCCESS => 0 | tecCLAIM => 100
  | tecPATH_PARTIAL => 101 | tecUNFUNDED_ADD => 102 | tecUNFUNDED_OFFER => 103 | tecUNFUNDED_PAYMENT => 104
  | tecFAILED_PROCESSING => 105 | tecDIR_FULL => 121 | tecINSUF_RESERVE_LINE => 122
  | tecINSUF_RESERVE_OFFER => 123 | tecNO_DST => 124 | tecNO_DST_INSUF_XRP => 125
  | tecNO_LINE_INSUF_RESERVE => 126 | tecNO_LINE_REDUNDANT => 127 | tecPATH_DRY => 128 | tecUNFUNDED => 129
  | tecMASTER_DISABLED => 130 | tecNO_REGULAR_KEY => 131 | tecOWNERS => 132 | tecNO_ISSUER => 133
  | tecNO_AUTH => 134 | tecNO_LINE => 135 | tecINSUFF_FEE => 136 | tecFROZEN => 137 | tecNO_TARGET => 138
  | tecNO_PERMISSION => 139 | tecNO_ENTRY => 140 | tecINSUFFICIENT_RESERVE => 141 | tecNEED_MASTER_KEY => 142
  | tecDST_TAG_NEEDED => 143 | tecINTERNAL => 144 | tecOVERSIZE => 145
  end.

(** The code with a number. *)
Definition TER_of (z : Z) : option TER :=
  match z with
  | -399 => Some telLOCAL_ERROR | -398 => Some telBAD_DOMAIN | -397 => Some telBAD_PATH_COUNT
  | -396 => Some telBAD_PUBLIC_KEY | -395 => Some telFAILED_PROCESSING | -394 => Some telINSUF_FEE_P
  | -393 => Some telNO_DST_PARTIAL | -299 => Some temMALFORMED | -298 => Some temBAD_AMOUNT
  | -297 => Some temBAD_CURRENCY | -296 => Some temBAD_EXPIRATION | -295 => Some temBAD_FEE
  | -294 => Some temBAD_ISSUER | -293 => Some temBAD_LIMIT | -292 => Some temBAD_OFFER
  | -291 => Some temBAD_PATH | -290 => Some temBAD_PATH_LOOP | -289 => Some temBAD_SEND_XRP_LIMIT
  | -288 => Some temBAD_SEND_XRP_MAX | -287 => Some temBAD_SEND_XRP_NO_DIRECT
  | -286 => Some temBAD_SEND_XRP_PARTIAL | -285 => Some temBAD_SEND_XRP_PATHS | -284 => Some temBAD_SEQUENCE
  | -283 => Some temBAD_SIGNATURE | -282 => Some temBAD_SRC_ACCOUNT | -281 => Some temBAD_TRANSFER_RATE
  | -280 => Some temDST_IS_SRC | -279 => Some temDST_NEEDED | -278 => Some temINVALID
  | -277 => Some temINVALID_FLAG | -276 => Some temREDUNDANT | -275 => Some temRIPPLE_EMPTY
  | -274 => Some temDISABLED | -273 => Some temBAD_DIV_TYPE | -272 => Some temBAD_SIGNER
  | -271 => Some temBAD_QUORUM | -270 => Some temUNCERTAIN | -269 => Some temUNKNOWN | -199 => Some tefFAILURE
  | -198 => Some tefALREADY | -197 => Some tefBAD_ADD_AUTH | -196 => Some tefBAD_AUTH
  | -195 => Some tefBAD_LEDGER | -194 => Some tefCREATED | -193 => Some tefEXCEPTION
  | -192 => Some tefINTERNAL | -191 => Some tefNO_AUTH_REQUIRED | -190 => Some tefPAST_SEQ
  | -189 => Some tefWRONG_PRIOR | -188 => Some tefMASTER_DISABLED | -187 => Some tefMAX_LEDGER
  | -186 => Some tefBAD_SIGNATURE | -185 => Some tefBAD_QUORUM | -184 => Some tefNOT_MULTI_SIGNING
  | -183 => Some tefBAD_AUTH_MASTER | -99 => Some terRETRY | -98 => Some terFUNDS_SPENT
  | -97 => Some terINSUF_FEE_B | -96 => Some terNO_ACCOUNT | -95 => Some terNO_AUTH | -94 => Some terNO_LINE
  | -93 => Some terOWNERS | -92 => Some terPRE_SEQ | -91 => Some terLAST | -90 => Some terNO_RIPPLE
  | 0 => Some tesSUCCESS | 100 => Some tecCLAIM | 101 => Some tecPATH_PARTIAL | 102 => Some tecUNFUNDED_ADD
  | 103 => Some tecUNFUNDED_OFFER | 104 => Some tecUNFUNDED_PAYMENT | 105 => Some tecFAILED_PROCESSING
  | 121 => Some tecDIR_FULL | 122 => Some tecINSUF_RESERVE_LINE | 123 => Some tecINSUF_RESERVE_OFFER
  | 124 => Some tecNO_DST | 125 => Some tecNO_DST_INSUF_XRP | 126 => Some tecNO_LINE_INSUF_RESERVE
  | 127 => Some tecNO_LINE_REDUNDANT | 128 => Some tecPATH_DRY | 129 => Some tecUNFUNDED
  | 130 => Some tecMASTER_DISABLED | 131 => Some tecNO_REGULAR_KEY | 132 => Some tecOWNERS
  | 133 => Some tecNO_ISSUER | 134 => Some tecNO_AUTH | 135 => Some tecNO_LINE | 136 => Some tecINSUFF_FEE
  | 137 => Some tecFROZEN | 138 => Some tecNO_TARGET | 139 => Some tecNO_PERMISSION | 140 => Some tecNO_ENTRY
  | 141 => Some tecINSUFFICIENT_RESERVE | 142 => Some tecNEED_MASTER_KEY | 143 => Some tecDST_TAG_NEEDED
  | 144 => Some tecINTERNAL | 145 => Some tecOVERSIZE
  | _ => None
  end.

Lemma TER_of_code t : TER_of (TER_code t) = Some t.
Proof. by destruct t. Qed.

#[export] Instance TER_eq_dec : EqDecision TER.
Proof.
  refine (fun x y => match decide (TER_code x = TER_code y) with left e => left _ | right n => right _ end).
  - abstract (apply (f_equal TER_of) in e; rewrite !TER_of_code in e; by injection e).
  - abstract (by intros ->).
Defined.

Definition isTesSuccess (x : TER) : bool := TER_code x =? TER_code tesSUCCESS.
Definition isTecClaim (x : TER) : bool := TER_code tecCLAIM <=? TER_code x.

Abbreviation Entry := (SLE STObject).
Abbreviation loc := Z.

Record St (V : Type) := mkSt {
  av : ApplyView.t STObject V;
  tabs : list DeferredCredits.table }.
Arguments mkSt {V} av tabs.
Arguments av {V} s.
Arguments tabs {V} s.

Definition M (V A : Type) : Type := St V -> result (A * St V).

#[export] Instance M_ret V : MRet (M V) := fun A a s => Ok (a, s).
#[export] Instance M_bind V : MBind (M V) := fun A B f m s =>
  match m s with
  | Ok (a, s') => f a s'
  | Throw e => Throw e
  | OutOfFuel => OutOfFuel
  end.

Section ops.
Context `{Build} {V : Type} {RV : ReadView STObject V}.

Definition lift {A} (r : result A) : M V A := fun s => a ← r; Ok (a, s).
Definition throw {A} (what : string) : M V A := fun _ => Throw what.
Definition assert (b : bool) : M V unit := lift (Keylet.assert b).

(** Following a pointer that may be null. *)
Definition need (p : option loc) : M V loc :=
  match p with Some p => mret p | None => throw "null" end.

Definition on_view {A} (f : ApplyView.t STObject V -> result (A * ApplyView.t STObject V)) : M V A :=
  fun s => av' ← f (av s); Ok (av'.1, mkSt av'.2 (tabs s)).

Definition do_view (f : ApplyView.t STObject V -> result (ApplyView.t STObject V)) : M V unit :=
  on_view (fun v => v' ← f v; Ok (tt, v')).

Definition peek (k : Keylet.t) : M V (option loc) := on_view (fun v => ApplyView.peek v k).
Definition vread (k : Keylet.t) : M V (option Entry) :=
  fun s => r ← ApplyView.read (av s) k; Ok (r, s).
Definition vopen : M V bool := fun s => Ok (isOpen (View.vinfo (av s)), s).
Definition erase (p : loc) : M V unit := do_view (fun v => ApplyView.erase v p).
Definition insert (p : loc) : M V unit := do_view (fun v => ApplyView.insert v p).
Definition update (p : loc) : M V unit := do_view (fun v => ApplyView.update v p).

(** [std::make_shared<SLE>(...)]. *)
Definition make_shared (sle : Entry) : M V loc :=
  on_view (fun v => let '(p, tb) := ApplyStateTable.make_shared sle (ApplyView.items_ v) in
                    Ok (p, ApplyView.mk (ApplyView.base_ v) tb)).

Definition deref (p : loc) : M V Entry :=
  fun s => e ← ApplyStateTable.deref p (ApplyView.items_ (av s)); Ok (e, s).

(** [p->getField...], and [p->setField...]. *)
Definition get {A} (p : loc) (f : STObject -> result A) : M V A :=
  e ← deref p; lift (f (fields e)).
Definition set (p : loc) (f : STObject -> result STObject) : M V unit :=
  e ← deref p; o ← lift (f (fields e)); do_view (fun v => ApplyView.write v p o).

Definition creditHook (from to : Z) (amount : STAmount.t) : M V unit :=
  fun s => t ← DeferredCredits.creditHook from to amount (tabs s); Ok (tt, mkSt (av s) t).

End ops.

Lemma assert_true `{Build} b : b = true -> Keylet.assert b = Ok tt.
Proof. intros ->. unfold Keylet.assert. by destruct NDEBUG. Qed.

(** An entry of the keylet's own type passes its check. *)
Lemma check_own_type `{Build} k (o : STObject) : 0 <= Keylet.type k ->
  Keylet.check k (mkSLE (Keylet.key k) (Keylet.type k) o) = Ok true.
Proof.
  intros Hk. unfold Keylet.check, Keylet.assert, Keylet.ltANY, Keylet.ltINVALID, Keylet.ltCHILD. cbn [getType].
  rewrite !(proj2 (Z.eqb_neq _ _)) by lia. rewrite Z.eqb_refl. simpl. by rewrite andb_false_r.
Qed.

Lemma checked_own `{Build} k (o : STObject) : 0 <= Keylet.type k ->
  Keylet.checked k (Some (mkSLE (Keylet.key k) (Keylet.type k) o)) =
  Ok (Some (mkSLE (Keylet.key k) (Keylet.type k) o)).
Proof. intros Hk. unfold Keylet.checked. by rewrite check_own_type. Qed.

(** ** Reasoning *)

Section logic.
Context `{Build} {V : Type} {RV : ReadView STObject V} {VM : ViewModel STObject V}.
Context {RL : ReadViewLaws STObject V}.

(** The program ends without an exception, in a state satisfying [Q]. *)
Definition wpm {A} (m : M V A) (s : St V) (Q : A -> St V -> Prop) : Prop :=
  exists a s', m s = Ok (a, s') /\ Q a s'.

Lemma wpm_ret {A} (a : A) s (Q : A -> St V -> Prop) : Q a s -> wpm (mret a) s Q.
Proof. intros HQ. by exists a, s. Qed.

Lemma wpm_bind {A B} (m : M V A) (f : A -> M V B) s (Q : B -> St V -> Prop) :
  wpm m s (fun a s' => wpm (f a) s' Q) -> wpm (m ≫= f) s Q.
Proof.
  intros (a & s' & Hm & b & s'' & Hf & HQ). exists b, s''. split; [|done].
  unfold mbind, M_bind. by rewrite Hm.
Qed.

Lemma wpm_mono {A} (m : M V A) s (Q Q' : A -> St V -> Prop) :
  wpm m s Q -> (forall a s', Q a s' -> Q' a s') -> wpm m s Q'.
Proof. intros (a & s' & Hm & HQ) HQQ'. exists a, s'. auto. Qed.

Lemma wpm_lift {A} (r : result A) a s (Q : A -> St V -> Prop) : r = Ok a -> Q a s -> wpm (lift r) s Q.
Proof. intros -> HQ. by exists a, s. Qed.

Lemma wpm_assert b s (Q : unit -> St V -> Prop) : b = true -> Q tt s -> wpm (assert b) s Q.
Proof. intros -> HQ. apply (wpm_lift _ tt); [|done]. unfold Keylet.assert. by rewrite andb_false_r. Qed.

Lemma wpm_need p s (Q : loc -> St V -> Prop) : Q p s -> wpm (need (Some p)) s Q.
Proof. apply wpm_ret. Qed.

(** Two steps of a program as one. *)
Lemma wpm_pair {A B C} (m : M V A) (n : M V B) (K : B -> M V C) s (Q : C -> St V -> Prop) :
  wpm (_ ← m; n) s (fun x s' => wpm (K x) s' Q) -> wpm (_ ← m; x ← n; K x) s Q.
Proof.
  intros (x & s' & Hrun & c & s'' & HK & HQ). exists c, s''. split; [|done]. revert Hrun HK.
  unfold mbind, M_bind. destruct (m s) as [[? s1]| |]; [|done..].
  by destruct (n s1) as [[? s2]| |]; [intros [= -> ->]|..].
Qed.

(** What a program knows of a view. *)
Record know := mkKnow {
  am : gmap Z Entry;                      (* the entries shown *)
  ap : gmap Z (loc * bool);               (* pointers held, and whether flagged *)
  loose : gmap loc Entry;                 (* new objects the view does not have yet *)
  dirty : Z -> Prop }.                    (* assigned to and not flagged *)

Record rep (b : V) (d : Z * Z) (s : St V) (k : know) : Prop := {
  rep_good : good b;
  rep_base : ApplyView.base_ (av s) = b;
  rep_drops : (ApplyStateTable.dropsDestroyed_ (ApplyView.items_ (av s)),
               ApplyStateTable.dropsCreated_ (ApplyView.items_ (av s))) = d;
  rep_fine : ApplyStateTable.fine (contents b) (dirty k) (ApplyView.items_ (av s));
  rep_shown : StateTable.overlay (ApplyStateTable.eff (ApplyStateTable.heap (ApplyView.items_ (av s))))
                (ApplyStateTable.items_ (ApplyView.items_ (av s))) (contents b) = am k;
  rep_ptr i p f : ap k !! i = Some (p, f) -> exists a,
    ApplyStateTable.items_ (ApplyView.items_ (av s)) !! i = Some (a, p) /\
    a <> ApplyStateTable.erase_ /\ (f = true -> a <> ApplyStateTable.cache_);
  rep_loose p e : loose k !! p = Some e ->
    ApplyStateTable.heap (ApplyView.items_ (av s)) !! p = Some e /\
    (forall i a q, ApplyStateTable.items_ (ApplyView.items_ (av s)) !! i = Some (a, q) -> q <> p) }.

(** A good view is known with no pointers held. *)
Lemma good_rep s : good (av s) ->
  rep (ApplyView.base_ (av s))
    (ApplyStateTable.dropsDestroyed_ (ApplyView.items_ (av s)),
     ApplyStateTable.dropsCreated_ (ApplyView.items_ (av s)))
    s (mkKnow (contents (av s)) ∅ ∅ ApplyStateTable.none).
Proof. intros [Hb Hf]. split; try done. Qed.

Lemma rep_is_good b d s k : rep b d s k -> (forall i, ~ dirty k i) ->
  good (av s) /\ contents (av s) = am k.
Proof.
  intros [Hb Hbase _ [Hok Hc] Hsh _ _] HD. simpl. rewrite Hbase. split; [|done]. split; [done|].
  split; [done|]. intros j p _. apply Hc. apply HD.
Qed.

Section rules.
Variables (b : V) (d : Z * Z).

(** The object behind a pointer held, and that it is shown. *)
Lemma rep_live s k i p f : rep b d s k -> ap k !! i = Some (p, f) -> exists a e,
  ApplyStateTable.items_ (ApplyView.items_ (av s)) !! i = Some (a, p) /\
  a <> ApplyStateTable.erase_ /\ (f = true -> a <> ApplyStateTable.cache_) /\
  ApplyStateTable.heap (ApplyView.items_ (av s)) !! p = Some e /\ sle_key e = i /\
  am k !! i = Some e.
Proof.
  intros Hr Hp. destruct (rep_ptr _ _ _ _ Hr _ _ _ Hp) as (a & Hi & Ha & Hf).
  destruct (ApplyStateTable.item_heap _ _ _ _ _ (proj1 (rep_fine _ _ _ _ Hr)) Hi) as (e & He & Hk).
  exists a, e. repeat split; try done. rewrite <- (rep_shown _ _ _ _ Hr).
  by eapply ApplyStateTable.lookup_shown.
Qed.

Lemma deref_rule s k i p f e (Q : Entry -> St V -> Prop) : rep b d s k ->
  ap k !! i = Some (p, f) -> am k !! i = Some e -> Q e s -> wpm (deref p) s Q.
Proof.
  intros Hr Hp He HQ. destruct (rep_live _ _ _ _ _ Hr Hp) as (a & e' & _ & _ & _ & Hh & _ & He').
  assert (e' = e) as -> by congruence. exists e, s. split; [|done].
  unfold deref. by rewrite (ApplyStateTable.deref_ok _ _ _ Hh).
Qed.

Lemma get_rule {A} s k i p f e (g : STObject -> result A) a (Q : A -> St V -> Prop) :
  rep b d s k -> ap k !! i = Some (p, f) -> am k !! i = Some e -> g (fields e) = Ok a ->
  Q a s -> wpm (get p g) s Q.
Proof.
  intros Hr Hp He Hg HQ. apply wpm_bind. eapply deref_rule; [done..|]. by eapply wpm_lift.
Qed.

(** New objects stay as they are when the heap grows and the table only takes
    up objects it had or that are newer. *)
Lemma loose_frame (tb tb' : ApplyStateTable.t STObject) (lo : gmap loc Entry) :
  (forall p e, lo !! p = Some e -> ApplyStateTable.heap tb !! p = Some e /\
     forall i a q, ApplyStateTable.items_ tb !! i = Some (a, q) -> q <> p) ->
  (forall p e, ApplyStateTable.heap tb !! p = Some e -> ApplyStateTable.heap tb' !! p = Some e) ->
  (forall j a q, ApplyStateTable.items_ tb' !! j = Some (a, q) ->
     ApplyStateTable.items_ tb !! j = Some (a, q) \/ ApplyStateTable.heap tb !! q = None) ->
  forall p e, lo !! p = Some e -> ApplyStateTable.heap tb' !! p = Some e /\
    forall i a q, ApplyStateTable.items_ tb' !! i = Some (a, q) -> q <> p.
Proof.
  intros Hlo Hheap Hptr p e Hp. destruct (Hlo p e Hp) as [Hh Hne]. split; [auto|].
  intros i a q Hq ->. destruct (Hptr _ _ _ Hq) as [Hi|Hn]; [by eapply Hne|congruence].
Qed.

(** [peek] of an entry that is there: the first time ... *)
Lemma peek_rule s k kl e (Q : option loc -> St V -> Prop) : rep b d s k -> Keylet.key kl <> 0 ->
  am k !! Keylet.key kl = Some e -> Keylet.check kl e = Ok true -> ap k !! Keylet.key kl = None ->
  (forall p s', tabs s' = tabs s ->
     rep b d s' (mkKnow (am k) (<[Keylet.key kl := (p, false)]> (ap k)) (loose k) (dirty k)) -> Q (Some p) s') ->
  wpm (peek kl) s Q.
Proof.
  intros Hr Hk He Hck Hnew HQ. destruct Hr as [Hb Hbase Hd [Hok Hc] Hsh Hpt Hlo].
  pose proof (ApplyStateTable.peek_spec b (ApplyView.items_ (av s)) Hb Hok (dirty k) kl Hk Hc) as Hp.
  rewrite Hsh, He in Hp. simpl in Hp. rewrite Hck in Hp. simpl in Hp.
  destruct Hp as (a & p & tb' & Hpk & Hf' & Hsh' & [Hd1 Hd2] & Hi & Ha & Hh & Hks & Hca).
  exists (Some p), (mkSt (ApplyView.mk b tb') (tabs s)). split.
  { unfold peek, on_view, ApplyView.peek. by rewrite Hbase, Hpk. }
  destruct (ApplyStateTable.peek_items _ _ Hb _ _ _ Hk Hpk) as (Hj & _ & Hheap & Hptr).
  apply HQ; [done|]. split; try done; simpl; [by rewrite Hd1, Hd2| |by eapply loose_frame].
  intros i q f [[<- [= <- <-]]|[Hne Hq]]%lookup_insert_Some; [by exists a|].
  rewrite Hj by done. by apply Hpt.
Qed.

(** ... and again, which gives the pointer held. *)
Lemma peek_held_rule s k kl e p f (Q : option loc -> St V -> Prop) : rep b d s k -> Keylet.key kl <> 0 ->
  am k !! Keylet.key kl = Some e -> Keylet.check kl e = Ok true ->
  ap k !! Keylet.key kl = Some (p, f) ->
  (forall s', tabs s' = tabs s -> rep b d s' k -> Q (Some p) s') -> wpm (peek kl) s Q.
Proof.
  intros Hr Hk He Hck Hp HQ. pose proof Hr as [Hb Hbase Hd [Hok Hc] Hsh Hpt Hlo].
  destruct (Hpt _ _ _ Hp) as (a & Hi & Ha & Hfl).
  pose proof (ApplyStateTable.peek_spec b (ApplyView.items_ (av s)) Hb Hok (dirty k) kl Hk Hc) as Hps.
  rewrite Hsh, He in Hps. simpl in Hps. rewrite Hck in Hps. simpl in Hps.
  destruct Hps as (a' & p' & tb' & Hpk & Hf' & Hsh' & [Hd1 Hd2] & Hi' & _).
  destruct (ApplyStateTable.peek_items _ _ Hb _ _ _ Hk Hpk) as (_ & Hit & Hheap & Hptr).
  specialize (Hit (ex_intro _ _ Hi)).
  rewrite Hit, Hi in Hi'. injection Hi' as <- <-.
  exists (Some p), (mkSt (ApplyView.mk b tb') (tabs s)). split.
  { unfold peek, on_view, ApplyView.peek. by rewrite Hbase, Hpk. }
  apply HQ; [done|]. split; try done; simpl;
    [by rewrite Hd1, Hd2|by rewrite Hit|by eapply loose_frame].
Qed.

(** [peek] of an entry that is not there, or not of the type asked for. *)
Lemma peek_refused_rule s k kl (Q : option loc -> St V -> Prop) : rep b d s k -> Keylet.key kl <> 0 ->
  Keylet.checked kl (am k !! Keylet.key kl) = Ok None -> Q None s -> wpm (peek kl) s Q.
Proof.
  intros [Hb Hbase Hd [Hok Hc] Hsh Hpt Hlo] Hk He HQ.
  pose proof (ApplyStateTable.peek_spec b (ApplyView.items_ (av s)) Hb Hok (dirty k) kl Hk Hc) as Hp.
  rewrite Hsh, He in Hp. exists None, s. split; [|done].
  unfold peek, on_view, ApplyView.peek. rewrite Hbase, Hp. simpl. rewrite <- Hbase.
  by destruct s as [[] ?].
Qed.

Lemma peek_none_rule s k kl (Q : option loc -> St V -> Prop) : rep b d s k -> Keylet.key kl <> 0 ->
  am k !! Keylet.key kl = None -> Q None s -> wpm (peek kl) s Q.
Proof. intros Hr Hk He. apply (peek_refused_rule s k); [done|done|by rewrite He]. Qed.

Lemma read_rule s k kl (Q : option Entry -> St V -> Prop) r : rep b d s k -> Keylet.key kl <> 0 ->
  Keylet.checked kl (am k !! Keylet.key kl) = Ok r -> Q r s -> wpm (vread kl) s Q.
Proof.
  intros [Hb Hbase Hd [Hok Hc] Hsh Hpt Hlo] Hk He HQ. exists r, s. split; [|done].
  unfold vread, ApplyView.read. rewrite Hbase, ApplyStateTable.read_spec by done.
  by rewrite Hsh, He.
Qed.

Definition with_fields (e : Entry) (o : STObject) : Entry := mkSLE (sle_key e) (getType e) o.

(** Assigning through a pointer held: the entry shows the change; unless it is
    flagged, the change is pending. *)
Lemma set_rule s k i p (f : bool) e (g : STObject -> result STObject) o (Q : unit -> St V -> Prop) : rep b d s k ->
  ap k !! i = Some (p, f) -> am k !! i = Some e -> g (fields e) = Ok o ->
  (forall s', tabs s' = tabs s ->
     rep b d s' (mkKnow (<[i := with_fields e o]> (am k)) (ap k) (loose k)
                   (if f then dirty k else fun j => dirty k j \/ j = i)) -> Q tt s') ->
  wpm (set p g) s Q.
Proof.
  intros Hr Hp He Hg HQ. apply wpm_bind. eapply deref_rule; [done..|].
  apply wpm_bind. eapply wpm_lift; [done|].
  destruct (rep_live _ _ _ _ _ Hr Hp) as (a & e' & Hi & Ha & Hf & Hh & Hk & He').
  assert (e' = e) as -> by congruence.
  destruct Hr as [Hb Hbase Hd Hfine Hsh Hpt Hlo].
  destruct (ApplyStateTable.write_spec _ _ _ _ _ _ _ o Hfine Hi Ha Hh Hk)
    as (tb' & Hw & Hok' & Hc' & Hit & Hh' & Hsh' & [Hd1 Hd2] & Hother).
  exists tt, (mkSt (ApplyView.mk b tb') (tabs s)). split.
  { unfold do_view, on_view, ApplyView.write, ApplyView.with_items. by rewrite Hw, Hbase. }
  apply HQ; [done|]. split; simpl; try done.
  - by rewrite Hd1, Hd2.
  - split; [done|]. intros j q Hj. apply Hc'. intros [?|[-> ->]].
    + apply Hj. destruct f; [done|by left].
    + destruct f; [by apply Hf|]. apply Hj. by right.
  - rewrite Hsh', Hsh. unfold with_fields. by rewrite Hk.
  - by rewrite Hit.
  - intros q e' Hq. destruct (Hlo q e' Hq) as [Hhq Hnq]. rewrite Hit. split; [|done].
    rewrite Hother; [done|]. intros ->. by eapply Hnq.
Qed.

(** A pointer to a new object. *)
Lemma make_shared_rule s k e (Q : loc -> St V -> Prop) : rep b d s k ->
  (forall p s', tabs s' = tabs s -> loose k !! p = None ->
     rep b d s' (mkKnow (am k) (ap k) (<[p := e]> (loose k)) (dirty k)) -> Q p s') ->
  wpm (make_shared e) s Q.
Proof.
  intros [Hb Hbase Hd Hfine Hsh Hpt Hlo] HQ.
  destruct (ApplyStateTable.make_shared_spec _ _ e _ Hfine)
    as (p & tb' & Hm & Hp & Hf' & Hit & Hsh' & [Hd1 Hd2]).
  assert (Hfresh : ApplyStateTable.heap (ApplyView.items_ (av s)) !! p = None).
  { injection Hm as <- _. apply not_elem_of_dom, is_fresh. }
  assert (Hheap : ApplyStateTable.heap tb' = <[p := e]> (ApplyStateTable.heap (ApplyView.items_ (av s)))).
  { by injection Hm as <- <-. }
  exists p, (mkSt (ApplyView.mk b tb') (tabs s)). split.
  { unfold make_shared, on_view. rewrite Hm, Hbase. done. }
  apply HQ; [done| |].
  - destruct (loose k !! p) eqn:Hl; [|done]. apply Hlo in Hl as [? _]. congruence.
  - split; simpl; try done; [by rewrite Hd1, Hd2|by rewrite Hsh'|by rewrite Hit|].
    rewrite Hit, Hheap. intros q e' [[<- <-]|[Hne Hq]]%lookup_insert_Some.
    + rewrite lookup_insert_eq. split; [done|]. intros i a q Hi ->.
      destruct (ApplyStateTable.item_heap _ _ _ _ _ (proj1 Hfine) Hi) as (? & ? & _). congruence.
    + rewrite lookup_insert_ne by done. by apply Hlo.
Qed.

Lemma deref_loose_rule s k p e (Q : Entry -> St V -> Prop) : rep b d s k ->
  loose k !! p = Some e -> Q e s -> wpm (deref p) s Q.
Proof.
  intros Hr Hp HQ. destruct (rep_loose _ _ _ _ Hr _ _ Hp) as [Hh _]. exists e, s. split; [|done].
  unfold deref. by rewrite (ApplyStateTable.deref_ok _ _ _ Hh).
Qed.

Lemma set_loose_rule s k p e (g : STObject -> result STObject) o (Q : unit -> St V -> Prop) : rep b d s k ->
  loose k !! p = Some e -> g (fields e) = Ok o ->
  (forall s', tabs s' = tabs s ->
     rep b d s' (mkKnow (am k) (ap k) (<[p := with_fields e o]> (loose k)) (dirty k)) -> Q tt s') ->
  wpm (set p g) s Q.
Proof.
  intros Hr Hp Hg HQ. apply wpm_bind. eapply deref_loose_rule; [done..|].
  apply wpm_bind. eapply wpm_lift; [done|].
  destruct Hr as [Hb Hbase Hd Hfine Hsh Hpt Hlo]. destruct (Hlo _ _ Hp) as [Hh Hne].
  destruct (ApplyStateTable.write p o (ApplyView.items_ (av s))) as [tb'| |] eqn:Hw;
    [|unfold ApplyStateTable.write in Hw; by rewrite (ApplyStateTable.deref_ok _ _ _ Hh) in Hw..].
  destruct (ApplyStateTable.write_loose _ _ _ _ _ _ _ Hfine Hh Hne Hw)
    as (Hf' & Hit & [Hd1 Hd2] & Hheap & Hsh').
  exists tt, (mkSt (ApplyView.mk b tb') (tabs s)). split.
  { unfold do_view, on_view, ApplyView.write, ApplyView.with_items. by rewrite Hw, Hbase. }
  apply HQ; [done|].
  split; simpl; try done; [by rewrite Hd1, Hd2|by rewrite Hsh'|by rewrite Hit|].
  rewrite Hit, Hheap. intros q e' [[<- <-]|[Hq Hl]]%lookup_insert_Some.
  - by rewrite lookup_insert_eq.
  - rewrite lookup_insert_ne by done. by apply Hlo.
Qed.

(** The table after an operation on the item under [i], which takes up at most
    the object [p]. *)
Lemma changed_frame tb tb' i k : ApplyStateTable.item_changed i tb tb' ->
  (forall j q f, ap k !! j = Some (q, f) -> exists a,
     ApplyStateTable.items_ tb !! j = Some (a, q) /\ a <> ApplyStateTable.erase_ /\
     (f = true -> a <> ApplyStateTable.cache_)) ->
  (forall p e, loose k !! p = Some e -> ApplyStateTable.heap tb !! p = Some e /\
     forall j a q, ApplyStateTable.items_ tb !! j = Some (a, q) -> q <> p) ->
  (forall j q f, j <> i -> ap k !! j = Some (q, f) -> exists a,
     ApplyStateTable.items_ tb' !! j = Some (a, q) /\ a <> ApplyStateTable.erase_ /\
     (f = true -> a <> ApplyStateTable.cache_)) /\
  (forall p e, loose k !! p = Some e ->
     (forall a q, ApplyStateTable.items_ tb' !! i = Some (a, q) -> q <> p) ->
     ApplyStateTable.heap tb' !! p = Some e /\
     forall j a q, ApplyStateTable.items_ tb' !! j = Some (a, q) -> q <> p).
Proof.
  intros [Hh Hj] Hpt Hlo. split.
  - intros j q f Hne Hq. rewrite Hj by done. by apply Hpt.
  - intros p e Hp Hi. destruct (Hlo _ _ Hp) as [Hhp Hnp]. rewrite Hh. split; [done|].
    intros j a q Hq. destruct (decide (j = i)) as [->|]; [by eapply Hi|].
    rewrite Hj in Hq by done. by eapply Hnp.
Qed.

(** [update] flags the entry. *)
Lemma update_rule s k i p f (Q : unit -> St V -> Prop) : rep b d s k ->
  ap k !! i = Some (p, f) ->
  (forall s', tabs s' = tabs s ->
     rep b d s' (mkKnow (am k) (<[i := (p, true)]> (ap k)) (loose k)
                   (fun j => dirty k j /\ j <> i)) -> Q tt s') ->
  wpm (update p) s Q.
Proof.
  intros Hr Hp HQ. destruct (rep_live _ _ _ _ _ Hr Hp) as (a & e & Hi & Ha & Hf & Hh & Hk & He).
  destruct Hr as [Hb Hbase Hd [Hok Hc] Hsh Hpt Hlo].
  destruct (ApplyStateTable.update_spec (contents b) (fun j => dirty k j /\ j <> i) _ i a p e Hok)
    as (tb' & Hu & Hf' & Hsh' & [Hd1 Hd2]); try done.
  { intros j q Hj Hq. apply Hc; [|done]. intros HD. apply Hj.
    destruct (decide (j = i)) as [->|]; [|by left]. right. split; [done|]. congruence. }
  destruct (ApplyStateTable.update_items _ _ _ _ Hh Hu) as [Hch (a' & Hi' & Ha' & Hca')].
  rewrite Hk in Hch, Hi'. destruct (changed_frame _ _ _ k Hch Hpt Hlo) as [Hpt' Hlo'].
  exists tt, (mkSt (ApplyView.mk b tb') (tabs s)). split.
  { unfold update, do_view, on_view, ApplyView.update, ApplyView.with_items. by rewrite Hu, Hbase. }
  apply HQ; [done|]. split; simpl; try done; [by rewrite Hd1, Hd2|by rewrite Hsh'| |].
  - intros j q g [[<- [= <- <-]]|[Hne Hq]]%lookup_insert_Some; [by exists a'|by apply Hpt'].
  - intros q e' Hq. apply Hlo'; [done|]. intros a2 q2. rewrite Hi'. intros [= <- <-].
    by eapply (proj2 (Hlo _ _ Hq)).
Qed.

(** [erase] removes the entry. *)
Lemma erase_rule s k i p f (Q : unit -> St V -> Prop) : rep b d s k ->
  ap k !! i = Some (p, f) ->
  (forall s', tabs s' = tabs s ->
     rep b d s' (mkKnow (delete i (am k)) (delete i (ap k)) (loose k)
                   (fun j => dirty k j /\ j <> i)) -> Q tt s') ->
  wpm (erase p) s Q.
Proof.
  intros Hr Hp HQ. destruct (rep_live _ _ _ _ _ Hr Hp) as (a & e & Hi & Ha & Hf & Hh & Hk & He).
  destruct Hr as [Hb Hbase Hd Hfine Hsh Hpt Hlo].
  destruct (ApplyStateTable.erase_spec _ _ _ _ _ _ _ Hfine Hi Ha Hh Hk)
    as (tb' & Hu & [Hok' Hc'] & Hsh' & [Hd1 Hd2]).
  destruct (ApplyStateTable.erase_items _ _ _ _ Hh Hu) as [Hch Hi'].
  rewrite Hk in Hch, Hi'. destruct (changed_frame _ _ _ k Hch Hpt Hlo) as [Hpt' Hlo'].
  exists tt, (mkSt (ApplyView.mk b tb') (tabs s)). split.
  { unfold erase, do_view, on_view, ApplyView.erase, ApplyView.with_items. by rewrite Hu, Hbase. }
  apply HQ; [done|]. split; simpl; try done; [by rewrite Hd1, Hd2| |by rewrite Hsh', Hsh| |].
  - split; [done|]. intros j q Hj Hq. apply Hc'; [|done]. intros HD. apply Hj. split; [done|].
    intros ->. by apply Hi' in Hq as [? _].
  - intros j q g [Hne Hq]%lookup_delete_Some. by apply Hpt'.
  - intros q e' Hq. apply Hlo'; [done|]. intros a2 q2 [-> ->]%Hi'. by eapply (proj2 (Hlo _ _ Hq)).
Qed.

(** [insert] takes up a new object under a key that is not shown. *)
Lemma insert_rule s k p e (Q : unit -> St V -> Prop) : rep b d s k ->
  loose k !! p = Some e -> sle_key e <> 0 -> am k !! sle_key e = None ->
  (forall s', tabs s' = tabs s ->
     rep b d s' (mkKnow (<[sle_key e := e]> (am k)) (<[sle_key e := (p, true)]> (ap k))
                   (delete p (loose k)) (dirty k)) -> Q tt s') ->
  wpm (insert p) s Q.
Proof.
  intros Hr Hp Hz Hnew HQ. destruct Hr as [Hb Hbase Hd Hfine Hsh Hpt Hlo].
  destruct (Hlo _ _ Hp) as [Hh Hne].
  destruct (ApplyStateTable.insert_spec (contents b) (dirty k) _ p e Hfine Hh Hz)
    as (tb' & Hu & Hf' & Hsh' & [Hd1 Hd2]); [by rewrite Hsh|].
  destruct (ApplyStateTable.insert_items _ _ _ _ Hh Hu) as [Hch (a' & Hi' & Ha' & Hca')].
  destruct (changed_frame _ _ _ k Hch Hpt Hlo) as [Hpt' Hlo'].
  exists tt, (mkSt (ApplyView.mk b tb') (tabs s)). split.
  { unfold insert, do_view, on_view, ApplyView.insert, ApplyView.with_items. by rewrite Hu, Hbase. }
  apply HQ; [done|]. split; simpl; try done; [by rewrite Hd1, Hd2|by rewrite Hsh', Hsh| |].
  - intros j q g [[<- [= <- <-]]|[Hj Hq]]%lookup_insert_Some; [by exists a'|by apply Hpt'].
  - intros q e' [Hqp Hq]%lookup_delete_Some. apply Hlo'; [done|].
    intros a2 q2. rewrite Hi'. by intros [= <- <-].
Qed.

(** Less may be known: pointers and new objects forgotten, more entries taken
    to be pending. *)
Lemma rep_weaken s k k' : rep b d s k -> am k' = am k -> ap k' ⊆ ap k -> loose k' ⊆ loose k ->
  (forall i, dirty k i -> dirty k' i) -> rep b d s k'.
Proof.
  intros [Hb Hbase Hd [Hok Hc] Hsh Hpt Hlo] Ham Hap Hl HD. split; try done.
  - split; [done|]. intros j q Hj. apply Hc. auto.
  - by rewrite Ham.
  - intros i p f Hp. eapply Hpt, lookup_weaken; done.
  - intros p e Hp. eapply Hlo, lookup_weaken; done.
Qed.

(** Assigning and flagging, at the end of a program and before [K]. *)
Lemma set_update_settles s k i p (f : bool) e (g : STObject -> result STObject) o
    (Q : unit -> St V -> Prop) : rep b d s k ->
  ap k !! i = Some (p, f) -> am k !! i = Some e -> g (fields e) = Ok o ->
  (forall s', tabs s' = tabs s ->
     rep b d s' (mkKnow (<[i := with_fields e o]> (am k)) (<[i := (p, true)]> (ap k)) (loose k)
                   (fun j => dirty k j /\ j <> i)) -> Q tt s') ->
  wpm (_ ← set p g; update p) s Q.
Proof.
  intros Hr Hp He Hg HQ. apply wpm_bind. eapply set_rule; [done..|]. intros s1 Ht1 Hr1.
  eapply update_rule; [done|done|]. intros s2 Ht2 Hr2. apply HQ; [congruence|].
  eapply rep_weaken; [done..|]. simpl. intros j [Hj Hne]. split; [|done].
  destruct f; [done|by destruct Hj].
Qed.

Lemma set_update_last s k i p (f : bool) e (g : STObject -> result STObject) o
    (Q : unit -> St V -> Prop) : rep b d s k ->
  ap k !! i = Some (p, f) -> am k !! i = Some e -> g (fields e) = Ok o ->
  (forall s', tabs s' = tabs s ->
     rep b d s' (mkKnow (<[i := with_fields e o]> (am k)) (<[i := (p, true)]> (ap k)) (loose k) (dirty k)) ->
     Q tt s') ->
  wpm (_ ← set p g; update p) s Q.
Proof.
  intros Hr Hp He Hg HQ. eapply set_update_settles; [done..|]. intros s' Ht Hr'. apply HQ; [done|].
  eapply rep_weaken; [done..|]. by intros j [? _].
Qed.

(** Assigning without flagging yet. *)
Lemma set_pending s k i p (f : bool) e (g : STObject -> result STObject) o (Q : unit -> St V -> Prop) :
  rep b d s k -> ap k !! i = Some (p, f) -> am k !! i = Some e -> g (fields e) = Ok o ->
  (forall s', tabs s' = tabs s ->
     rep b d s' (mkKnow (<[i := with_fields e o]> (am k)) (ap k) (loose k) (fun j => dirty k j \/ j = i)) ->
     Q tt s') ->
  wpm (set p g) s Q.
Proof.
  intros Hr Hp He Hg HQ. eapply set_rule; [done..|]. intros s' Ht Hr'. apply HQ; [done|].
  eapply rep_weaken; [done..|]. simpl. intros j Hj. by destruct f; [left|].
Qed.

(** The credit hook looks at the tables only. *)
Lemma creditHook_rule s k from to amount tabs' (Q : unit -> St V -> Prop) : rep b d s k ->
  DeferredCredits.creditHook from to amount (tabs s) = Ok tabs' ->
  (forall s', tabs s' = tabs' -> rep b d s' k -> Q tt s') -> wpm (creditHook from to amount) s Q.
Proof.
  intros Hr Hc HQ. exists tt, (mkSt (av s) tabs'). split; [unfold creditHook; by rewrite Hc|].
  apply HQ; [done|]. by destruct Hr.
Qed.

Lemma set_update_rule {A} s k i p (f : bool) e (g : STObject -> result STObject) o (K : M V A)
    (Q : A -> St V -> Prop) : rep b d s k ->
  ap k !! i = Some (p, f) -> am k !! i = Some e -> g (fields e) = Ok o ->
  (forall s', tabs s' = tabs s ->
     rep b d s' (mkKnow (<[i := with_fields e o]> (am k)) (<[i := (p, true)]> (ap k)) (loose k) (dirty k)) ->
     wpm K s' Q) ->
  wpm (_ ← set p g; _ ← update p; K) s Q.
Proof. intros Hr Hp He Hg HQ. apply wpm_pair. by eapply set_update_last. Qed.

(** [peek] of an entry that is there, held before or not. *)
Lemma peek_any_rule s k kl e (Q : option loc -> St V -> Prop) : rep b d s k -> Keylet.key kl <> 0 ->
  am k !! Keylet.key kl = Some e -> Keylet.check kl e = Ok true ->
  (forall p f s', tabs s' = tabs s ->
     (ap k !! Keylet.key kl = None \/ ap k !! Keylet.key kl = Some (p, f)) ->
     rep b d s' (mkKnow (am k) (<[Keylet.key kl := (p, f)]> (ap k)) (loose k) (dirty k)) -> Q (Some p) s') ->
  wpm (peek kl) s Q.
Proof.
  intros Hr Hk He Hck HQ. destruct (ap k !! Keylet.key kl) as [[p f]|] eqn:Hp.
  - eapply peek_held_rule; [done..|]. intros s' Ht Hr'. apply (HQ p f); [done|auto|].
    rewrite insert_id by done. by destruct k.
  - eapply peek_rule; [done..|]. eauto.
Qed.

(** A program that ends without pending changes. *)
Lemma settled (s s' : St V) ap' lo (m' : gmap Z Entry) (P : gmap Z Entry -> Prop) :
  tabs s' = tabs s -> rep b d s' (mkKnow m' ap' lo ApplyStateTable.none) -> P m' ->
  tabs s' = tabs s /\ exists k, rep b d s' k /\ (forall i, ~ dirty k i) /\ P (am k).
Proof. intros Ht Hr HP. split; [done|]. eexists. split; [exact Hr|]. split; [by intros i []|done]. Qed.

End rules.
End logic.

(** What no program over a view changes by itself: the view below, and the
    drops created and destroyed. *)
Definition same_store {V} (s s' : St V) : Prop :=
  ApplyView.base_ (av s') = ApplyView.base_ (av s) /\
  ApplyStateTable.dropsDestroyed_ (ApplyView.items_ (av s')) =
    ApplyStateTable.dropsDestroyed_ (ApplyView.items_ (av s)) /\
  ApplyStateTable.dropsCreated_ (ApplyView.items_ (av s')) =
    ApplyStateTable.dropsCreated_ (ApplyView.items_ (av s)).

Definition untouched {V} (s s' : St V) : Prop := tabs s' = tabs s /\ same_store s s'.

(** From knowing to what the view shows: a program that ends knowing a view
    without pending changes. *)
Section view.
Context `{Build} {V A : Type} {RV : ReadView STObject V} {VM : ViewModel STObject V}.
Context {RL : ReadViewLaws STObject V}.

Lemma wpm_run (prog : M V A) (s : St V) (Q : A -> list DeferredCredits.table -> gmap Z Entry -> Prop) : good (av s) ->
  (forall b d, rep b d s (mkKnow (contents (av s)) ∅ ∅ ApplyStateTable.none) ->
     wpm prog s (fun a s' => exists k, rep b d s' k /\ (forall i, ~ dirty k i) /\ Q a (tabs s') (am k))) ->
  exists a s', prog s = Ok (a, s') /\ good (av s') /\ same_store s s' /\ Q a (tabs s') (contents (av s')).
Proof.
  intros Hg Hp. destruct (Hp _ _ (good_rep s Hg)) as (a & s' & Hrun & k & Hr & HD & HQ).
  destruct (rep_is_good _ _ _ _ Hr HD) as [Hg' Hc]. exists a, s'. rewrite Hc.
  split; [done|]. split; [done|]. split; [|done].
  pose proof (rep_drops _ _ _ _ Hr) as [= ? ?]. pose proof (rep_base _ _ _ _ Hr). done.
Qed.

Lemma wpm_view (prog : M V A) (s : St V) (Q : A -> gmap Z Entry -> Prop) : good (av s) ->
  (forall b d, rep b d s (mkKnow (contents (av s)) ∅ ∅ ApplyStateTable.none) ->
     wpm prog s (fun a s' => tabs s' = tabs s /\ exists k, rep b d s' k /\ (forall i, ~ dirty k i) /\ Q a (am k))) ->
  exists a s', prog s = Ok (a, s') /\ good (av s') /\ untouched s s' /\ Q a (contents (av s')).
Proof.
  intros Hg Hp. destruct (wpm_run prog s (fun a t m => t = tabs s /\ Q a m) Hg) as (a & s' & ? & ? & ? & ? & ?).
  - intros b d Hr. eapply wpm_mono; [by apply Hp|]. intros a s' (Ht & k & Hr' & HD & HQ). by exists k.
  - by exists a, s'.
Qed.

End view.
End ViewOps.
