(* ===== verification/Directory.v ===== *)
(** * Directories

    The directory functions of ledger/impl/View.cpp.  A directory is a list of
    pages of at most 32 keys; the pages are linked in a circle through their
    page numbers, the root being page 0.  [dirAdd] appends to the last page,
    [dirDelete] removes from a page and drops pages that became empty, and
    [cdirFirst]/[cdirNext] (on a read-only view) or [dirFirst]/[dirNext] (on an
    [ApplyView]) walk over the keys.  [dir] relates the entries of a view to the
    list of the pages, and the theorems state the functions on that list. *)

From stdpp Require Import base tactics numbers list strings gmap sorting option.
From S2P Require Import Prelude Decimal IOUAmount BigNum Serializer STAmount.
From S2P Require Import View StateTable ApplyStateTable Fields Indexes PaymentSandbox ViewOps.

Module Directory.
Import Fields ViewOps Indexes.

Definition DIR_NODE_MAX : Z := 32.

(** Where an iteration stands: the current page, the next entry in it, and the
    entry last given. *)
Record Cursor (P : Type) := mkCursor { sleNode : P; uDirEntry : Z; uEntryIndex : Z }.
Arguments mkCursor {P} sleNode uDirEntry uEntryIndex.
Arguments sleNode {P} c.
Arguments uDirEntry {P} c.
Arguments uEntryIndex {P} c.

Definition size (l : list Z) : Z := Z.of_nat (length l).

(** ** Reading *)

Section reading.
Context `{Build} {SHA : SHA512Half} {V : Type} {RV : ReadView STObject V}.

Definition dirIsEmpty (view : V) (k : Keylet.t) : result bool :=
  found ← View.vread view k;
  match found with
  | None => Ok true
  | Some sleNode =>
      svIndexes ← getFieldV256 sfIndexes (fields sleNode);
      if negb (size svIndexes =? 0) then Ok false
      else next ← getFieldU64 sfIndexNext (fields sleNode); Ok (next =? 0)
  end.

(** The recursion is from page to page; [fuel] bounds the pages. *)
Fixpoint cdirNext (fuel : nat) (view : V) (uRootIndex : Z) (c : Cursor Entry)
    : result (bool * Cursor Entry) :=
  match fuel with
  | O => OutOfFuel
  | S fuel =>
      svIndexes ← getFieldV256 sfIndexes (fields (sleNode c));
      _ ← Keylet.assert (uDirEntry c <=? size svIndexes);
      match svIndexes !! Z.to_nat (uDirEntry c) with
      | None =>
          uNodeNext ← getFieldU64 sfIndexNext (fields (sleNode c));
          if uNodeNext =? 0 then Ok (false, mkCursor (sleNode c) (uDirEntry c) 0)
          else
            found ← View.vread view (page uRootIndex uNodeNext);
            match found with
            | None => Ok (false, mkCursor (sleNode c) 0 (uEntryIndex c))
            | Some sleNext => cdirNext fuel view uRootIndex (mkCursor sleNext 0 (uEntryIndex c))
            end
      | Some entry => Ok (true, mkCursor (sleNode c) (u32 (uDirEntry c + 1)) entry)
      end
  end.

Definition cdirFirst (fuel : nat) (view : V) (uRootIndex uEntryIndex : Z)
    : result (bool * Cursor Entry) :=
  found ← View.vread view (page uRootIndex 0);
  _ ← Keylet.assert (bool_decide (is_Some found));
  match found with
  | None => Throw "null"
  | Some sleNode => cdirNext fuel view uRootIndex (mkCursor sleNode 0 uEntryIndex)
  end.

(** The entries [forEachItem] calls its function on, in order. *)
Fixpoint forEachItem_from (fuel : nat) (view : V) (root : Z) (pos : Keylet.t)
    : result (list (option Entry)) :=
  match fuel with
  | O => OutOfFuel
  | S fuel =>
      found ← View.vread view pos;
      match found with
      | None => Ok []
      | Some sle =>
          keys ← getFieldV256 sfIndexes (fields sle);
          items ← foldM (fun acc key => e ← View.vread view (child key); Ok (acc ++ [e])) [] keys;
          next ← getFieldU64 sfIndexNext (fields sle);
          if next =? 0 then Ok items
          else rest ← forEachItem_from fuel view root (page root next); Ok (items ++ rest)
      end
  end.

Definition forEachItem (fuel : nat) (view : V) (id : Z) : result (list (option Entry)) :=
  forEachItem_from fuel view (getOwnerDirIndex id) (ownerDir id).

End reading.

(** ** Modifying *)

Section modifying.
Context `{Build} {SHA : SHA512Half} {V : Type} {RV : ReadView STObject V}.

Fixpoint dirNext (fuel : nat) (uRootIndex : Z) (c : Cursor loc) : M V (bool * Cursor loc) :=
  match fuel with
  | O => lift OutOfFuel
  | S fuel =>
      svIndexes ← get (sleNode c) (getFieldV256 sfIndexes);
      _ ← assert (uDirEntry c <=? size svIndexes);
      match svIndexes !! Z.to_nat (uDirEntry c) with
      | None =>
          uNodeNext ← get (sleNode c) (getFieldU64 sfIndexNext);
          if uNodeNext =? 0 then mret (false, mkCursor (sleNode c) (uDirEntry c) 0)
          else
            found ← peek (page uRootIndex uNodeNext);
            match found with
            | None => mret (false, mkCursor (sleNode c) 0 (uEntryIndex c))
            | Some sleNext => dirNext fuel uRootIndex (mkCursor sleNext 0 (uEntryIndex c))
            end
      | Some entry => mret (true, mkCursor (sleNode c) (u32 (uDirEntry c + 1)) entry)
      end
  end.

Definition dirFirst (fuel : nat) (uRootIndex uEntryIndex : Z) : M V (bool * Cursor loc) :=
  found ← peek (page uRootIndex 0);
  _ ← assert (bool_decide (is_Some found));
  sleNode ← need found;
  dirNext fuel uRootIndex (mkCursor sleNode 0 uEntryIndex).

(** [std::make_shared<SLE>(k)] with its [sfRootIndex] set. *)
Definition make_page (uRootIndex : Z) (k : Keylet.t) : M V loc :=
  sle ← lift (make_SLE k);
  p ← make_shared sle;
  _ ← set p (setFieldH256 sfRootIndex uRootIndex);
  mret p.

(** The end of [dirAdd]: the entry goes to the end of [sleNode]. *)
Definition append_entry (sleNode : loc) (svIndexes : list Z) (uLedgerIndex : Z) : M V unit :=
  set sleNode (setFieldV256 sfIndexes (svIndexes ++ [uLedgerIndex])).

(** [dirAdd] on the last page [sleNode], whose number is [uNodeDir]. *)
Definition dirAdd_last (uRootIndex uLedgerIndex : Z) (fDescriber : loc -> bool -> M V unit)
    (uNodeDir : Z) (sleRoot sleNode : loc) : M V (TER * Z) :=
  svIndexes ← get sleNode (getFieldV256 sfIndexes);
  if negb (DIR_NODE_MAX =? size svIndexes) then
    _ ← update sleNode;
    _ ← append_entry sleNode svIndexes uLedgerIndex;
    mret (tesSUCCESS, uNodeDir)
  else
    let uNodeDir := u64 (uNodeDir + 1) in
    if uNodeDir =? 0 then mret (tecDIR_FULL, uNodeDir)
    else
      _ ← set sleNode (setFieldU64 sfIndexNext uNodeDir);
      _ ← update sleNode;
      _ ← set sleRoot (setFieldU64 sfIndexPrevious uNodeDir);
      _ ← update sleRoot;
      sleNode ← make_page uRootIndex (page uRootIndex uNodeDir);
      _ ← insert sleNode;
      _ ← (if negb (uNodeDir =? 1)
           then set sleNode (setFieldU64 sfIndexPrevious (u64 (uNodeDir - 1)))
           else mret tt);
      _ ← fDescriber sleNode false;
      _ ← append_entry sleNode [] uLedgerIndex;
      mret (tesSUCCESS, uNodeDir).

(** The result and [uNodeDir]. *)
Definition dirAdd (uRootIndex uLedgerIndex : Z) (fDescriber : loc -> bool -> M V unit)
    : M V (TER * Z) :=
  let k := page uRootIndex 0 in
  found ← peek k;
  match found with
  | None =>
      sleRoot ← make_page uRootIndex k;
      _ ← insert sleRoot;
      _ ← fDescriber sleRoot true;
      _ ← append_entry sleRoot [] uLedgerIndex;
      mret (tesSUCCESS, 0)
  | Some sleRoot =>
      uNodeDir ← get sleRoot (getFieldU64 sfIndexPrevious);
      sleNode ← (if uNodeDir =? 0 then mret sleRoot
                 else p ← peek (page uRootIndex uNodeDir);
                      _ ← assert (bool_decide (is_Some p));
                      need p);
      dirAdd_last uRootIndex uLedgerIndex fDescriber uNodeDir sleRoot sleNode
  end.

(** Removing the element the iterator [it] points to. *)
Definition remove_at (bStable : bool) (it : nat) (svIndexes : list Z) : list Z :=
  if 1 <? size svIndexes then
    if bStable then delete it svIndexes
    else take (length svIndexes - 1) (<[it := default 0 (svIndexes !! (length svIndexes - 1)%nat)]> svIndexes)
  else [].

(** The page just emptied, and its neighbours, may go. *)
Definition dirDelete_pages (bKeepRoot : bool) (uNodeCur uRootIndex : Z) (sleNode : loc) : M V TER :=
  uNodePrevious ← get sleNode (getFieldU64 sfIndexPrevious);
  uNodeNext ← get sleNode (getFieldU64 sfIndexNext);
  if uNodeCur =? 0 then
    if uNodePrevious =? 0 then _ ← erase sleNode; mret tesSUCCESS
    else if bKeepRoot then mret tesSUCCESS
    else if negb (uNodePrevious =? uNodeNext) then mret tesSUCCESS
    else
      p ← peek (page uRootIndex uNodeNext);
      _ ← assert (bool_decide (is_Some p));
      sleLast ← need p;
      lastIndexes ← get sleLast (getFieldV256 sfIndexes);
      if size lastIndexes =? 0 then _ ← erase sleNode; _ ← erase sleLast; mret tesSUCCESS
      else mret tesSUCCESS
  else if negb (uNodeNext =? 0) then
    slePrevious ← peek (page uRootIndex uNodePrevious);
    sleNext ← peek (page uRootIndex uNodeNext);
    _ ← assert (bool_decide (is_Some slePrevious));
    match slePrevious with
    | None => mret tefBAD_LEDGER
    | Some slePrevious =>
        _ ← assert (bool_decide (is_Some sleNext));
        match sleNext with
        | None => mret tefBAD_LEDGER
        | Some sleNext =>
            _ ← set slePrevious (setFieldU64 sfIndexNext uNodeNext);
            _ ← update slePrevious;
            _ ← set sleNext (setFieldU64 sfIndexPrevious uNodePrevious);
            _ ← update sleNext;
            _ ← erase sleNode;
            mret tesSUCCESS
        end
    end
  else if bKeepRoot || negb (uNodePrevious =? 0) then mret tesSUCCESS
  else
    p ← peek (page uRootIndex 0);
    _ ← assert (bool_decide (is_Some p));
    sleRoot ← need p;
    rootIndexes ← get sleRoot (getFieldV256 sfIndexes);
    if size rootIndexes =? 0 then _ ← erase sleRoot; _ ← erase sleNode; mret tesSUCCESS
    else mret tesSUCCESS.

(** The entry was found in the page: remove it. *)
Definition dirDelete_found (bKeepRoot bStable : bool) (uNodeCur uRootIndex : Z) (sleNode : loc)
    (svIndexes : list Z) (it : nat) : M V TER :=
  let svIndexes := remove_at bStable it svIndexes in
  _ ← set sleNode (setFieldV256 sfIndexes svIndexes);
  _ ← update sleNode;
  if size svIndexes =? 0 then dirDelete_pages bKeepRoot uNodeCur uRootIndex sleNode
  else mret tesSUCCESS.

(** A soft deletion tries the pages up to number 20 in turn. *)
Fixpoint dirDelete_from (fuel : nat) (bKeepRoot : bool) (uNodeDir uRootIndex uLedgerIndex : Z)
    (bStable bSoft : bool) : M V TER :=
  match fuel with
  | O => lift OutOfFuel
  | S fuel =>
      let not_here :=
        if negb bSoft then _ ← assert false; mret tefBAD_LEDGER
        else if uNodeDir <? 20
        then dirDelete_from fuel bKeepRoot (uNodeDir + 1) uRootIndex uLedgerIndex bStable true
        else mret tefBAD_LEDGER in
      found ← peek (page uRootIndex uNodeDir);
      match found with
      | None => not_here
      | Some sleNode =>
          svIndexes ← get sleNode (getFieldV256 sfIndexes);
          match list_find (eq uLedgerIndex) svIndexes with
          | None => not_here
          | Some (it, _) => dirDelete_found bKeepRoot bStable uNodeDir uRootIndex sleNode svIndexes it
          end
      end
  end.

Definition dirDelete (bKeepRoot : bool) (uNodeDir uRootIndex uLedgerIndex : Z) (bStable bSoft : bool)
    : M V TER :=
  dirDelete_from (S (Z.to_nat (20 - uNodeDir))) bKeepRoot uNodeDir uRootIndex uLedgerIndex bStable bSoft.

End modifying.

(** ** The list a directory is *)

Section list.
Context {SHA : SHA512Half}.

(** The number of the page before the [j]-th, which for the root is the last
    one, and of the page after it, with 0 after the last. *)
Definition prev_no (ns : list Z) (j : nat) : Z :=
  default 0 (ns !! (match j with O => length ns - 1 | S i => i end)%nat).
Definition next_no (ns : list Z) (j : nat) : Z := default 0 (ns !! S j).

(** A 64-bit field with this value; zero may be absent. *)
Definition u64_at (f : SField) (n : Z) (o : STObject) : Prop :=
  o !! f = Some (Some (U64 n)) \/ n = 0 /\ o !! f = Some None.

Record page_of (root prev next : Z) (es : list Z) (o : STObject) : Prop := {
  page_indexes : o !! sfIndexes = Some (Some (VEC es));
  page_root : o !! sfRootIndex = Some (Some (H256 root));
  page_place f : f ∈ DirectoryNode.*1 -> has_place f o;
  page_prev : u64_at sfIndexPrevious prev o;
  page_next : u64_at sfIndexNext next o }.

Definition page_entry (root n : Z) (o : STObject) : Entry :=
  mkSLE (getDirNodeIndex root n) Keylet.ltDIR_NODE o.

(** The page [n] among the entries [m]. *)
Definition holds (m : gmap Z Entry) (root n prev next : Z) (es : list Z) : Prop := exists o,
  m !! getDirNodeIndex root n = Some (page_entry root n o) /\ page_of root prev next es o.

(** The entries [m] hold the directory with these pages: their numbers start
    at 0 and increase, a page has at most 32 keys, and there are no others. *)
Record dir (m : gmap Z Entry) (root : Z) (pages : list (Z * list Z)) : Prop := {
  dir_start : pages.*1 !! 0%nat = None \/ pages.*1 !! 0%nat = Some 0;
  dir_sorted i j a b : pages.*1 !! i = Some a -> pages.*1 !! j = Some b -> (i < j)%nat -> a < b;
  dir_range i a : pages.*1 !! i = Some a -> 0 <= a < 2 ^ 64;
  dir_size j n es : pages !! j = Some (n, es) -> size es <= DIR_NODE_MAX;
  dir_pages j n es : pages !! j = Some (n, es) ->
    holds m root n (prev_no pages.*1 j) (next_no pages.*1 j) es;
  dir_others n : 0 <= n < 2 ^ 64 -> n ∉ pages.*1 -> m !! getDirNodeIndex root n = None }.

Definition entries (pages : list (Z * list Z)) : list Z := concat pages.*2.

(** The key of no page. *)
Definition outside (root : Z) (i : Z) : Prop :=
  forall n, 0 <= n < 2 ^ 64 -> i <> getDirNodeIndex root n.

End list.

(** ** Pages *)

Section pages.
Context {SHA : SHA512Half}.

Lemma u64_at_get f n o : u64_at f n o -> getFieldU64 f o = Ok n.
Proof. unfold getFieldU64, getField. by intros [->|[-> ->]]. Qed.

Lemma page_get root prev next es o : page_of root prev next es o ->
  getFieldV256 sfIndexes o = Ok es /\ getFieldU64 sfIndexPrevious o = Ok prev /\
  getFieldU64 sfIndexNext o = Ok next.
Proof.
  intros [Hi _ _ Hp Hn]. split; [|by split; apply u64_at_get].
  unfold getFieldV256, getField. by rewrite Hi.
Qed.

(** Setting one of the fields of a page. *)
Lemma page_set root prev next es o f v : page_of root prev next es o -> f ∈ DirectoryNode.*1 ->
  getSType v = fieldType f -> setField f v o = Ok (<[f := Some v]> o) /\
  forall g, g ∈ DirectoryNode.*1 -> has_place g (<[f := Some v]> o).
Proof.
  intros Ho Hf Hv. split; [apply setField_ok; [by apply Ho|done]|].
  intros g Hg. apply has_place_insert; [by apply Ho|done].
Qed.

#[local] Ltac field_of_page := by apply (bool_decide_unpack _); vm_compute.

Lemma page_set_indexes root prev next es es' o : page_of root prev next es o ->
  exists o', setFieldV256 sfIndexes es' o = Ok o' /\ page_of root prev next es' o'.
Proof.
  intros Ho. destruct (page_set _ _ _ _ _ sfIndexes (VEC es') Ho) as [Hs Hp]; [field_of_page|done|].
  eexists. split; [exact Hs|]. destruct Ho as [Hi Hr _ Hpr Hn].
  split; unfold u64_at; by simplify_map_eq.
Qed.

Lemma page_set_next root prev next next' es o : page_of root prev next es o ->
  exists o', setFieldU64 sfIndexNext next' o = Ok o' /\ page_of root prev next' es o'.
Proof.
  intros Ho. destruct (page_set _ _ _ _ _ sfIndexNext (U64 next') Ho) as [Hs Hp]; [field_of_page|done|].
  eexists. split; [exact Hs|]. destruct Ho as [Hi Hr _ Hpr Hn].
  split; unfold u64_at in *; try by simplify_map_eq. left. by simplify_map_eq.
Qed.

Lemma page_set_prev root prev prev' next es o : page_of root prev next es o ->
  exists o', setFieldU64 sfIndexPrevious prev' o = Ok o' /\ page_of root prev' next es o'.
Proof.
  intros Ho. destruct (page_set _ _ _ _ _ sfIndexPrevious (U64 prev') Ho) as [Hs Hp]; [field_of_page|done|].
  eexists. split; [exact Hs|]. destruct Ho as [Hi Hr _ Hpr Hn].
  split; unfold u64_at in *; try by simplify_map_eq. left. by simplify_map_eq.
Qed.

(** A new page. *)
Lemma make_page_entry root n : exists o o', make_SLE (page root n) = Ok (page_entry root n o) /\
  setFieldH256 sfRootIndex root o = Ok o' /\ page_of root 0 0 [] o'.
Proof.
  assert (Hplace : Forall (fun f => has_place f
    (<[sfLedgerEntryType := Some (U16 Keylet.ltDIR_NODE)]> (set_template (DirectoryNode ++ common_fields))))
    DirectoryNode.*1).
  { repeat (apply Forall_cons; [vm_compute; done|]). apply Forall_nil. }
  rewrite list.Forall_forall in Hplace.
  eexists. eexists. split; [reflexivity|].
  split; [apply setField_ok; [apply Hplace; field_of_page|done]|].
  split; [by vm_compute..| |right; by vm_compute|right; by vm_compute].
  intros f Hf. apply has_place_insert; [by apply Hplace|done].
Qed.

End pages.

(** ** Changing a directory *)

Section change.
Context {SHA : SHA512Half}.
Variables (root : Z) (Hroot : pages_distinct root).

Lemma holds_insert_eq m n prev next es o : page_of root prev next es o ->
  holds (<[getDirNodeIndex root n := page_entry root n o]> m) root n prev next es.
Proof. intros Ho. exists o. by rewrite lookup_insert_eq. Qed.

Lemma key_ne n n' : 0 <= n < 2 ^ 64 -> 0 <= n' < 2 ^ 64 -> n <> n' ->
  getDirNodeIndex root n <> getDirNodeIndex root n'.
Proof. intros Hn Hn' Hne ?. by apply Hne, Hroot. Qed.

Lemma holds_frame m m' n prev next es : m' !! getDirNodeIndex root n = m !! getDirNodeIndex root n ->
  holds m root n prev next es -> holds m' root n prev next es.
Proof. intros Hm (o & Ho & ?). exists o. by rewrite Hm. Qed.

Lemma pages_no (pages : list (Z * list Z)) j n es : pages !! j = Some (n, es) -> pages.*1 !! j = Some n.
Proof. intros Hj. by rewrite list_lookup_fmap, Hj. Qed.

Lemma no_page (pages : list (Z * list Z)) j n : pages.*1 !! j = Some n -> exists es, pages !! j = Some (n, es).
Proof.
  rewrite list_lookup_fmap. destruct (pages !! j) as [[n' es]|]; simpl; [|done].
  intros [= <-]. by exists es.
Qed.

Lemma dir_no_ne m pages i j a c : dir m root pages -> pages.*1 !! i = Some a ->
  pages.*1 !! j = Some c -> i <> j -> a <> c.
Proof.
  intros Hd Hi Hj Hne. destruct (Nat.lt_total i j) as [Hl|[?|Hl]]; [|done|].
  - pose proof (dir_sorted _ _ _ Hd _ _ _ _ Hi Hj Hl). lia.
  - pose proof (dir_sorted _ _ _ Hd _ _ _ _ Hj Hi Hl). lia.
Qed.

(** A directory looks at its pages only. *)
Lemma dir_frame m m' pages : dir m root pages ->
  (forall n, 0 <= n < 2 ^ 64 -> m' !! getDirNodeIndex root n = m !! getDirNodeIndex root n) ->
  dir m' root pages.
Proof.
  intros [Hst Hso Hra Hsi Hpa Hot] Hm. split; try done.
  - intros j n es Hj. eapply holds_frame; [|by apply Hpa]. apply Hm. by eapply Hra, pages_no.
  - intros n Hn Hno. rewrite Hm by done. auto.
Qed.

(** The keys of one page change. *)
Lemma dir_set_entries m pages j n es es' o :
  dir m root pages -> pages !! j = Some (n, es) -> size es' <= DIR_NODE_MAX ->
  page_of root (prev_no pages.*1 j) (next_no pages.*1 j) es' o ->
  dir (<[getDirNodeIndex root n := page_entry root n o]> m) root (<[j := (n, es')]> pages).
Proof.
  intros Hd Hj Hes Ho. pose proof (pages_no _ _ _ _ Hj) as Hjn.
  assert (Hns : (<[j := (n, es')]> pages).*1 = pages.*1).
  { rewrite list_fmap_insert. simpl. by apply list_insert_id. }
  pose proof Hd as [Hst Hso Hra Hsi Hpa Hot].
  split; rewrite ?Hns; try done.
  - intros i n' x [(<- & [= <- <-] & _)|[_ Hi]]%list_lookup_insert_Some; [done|by eapply Hsi].
  - intros i n' x [(<- & [= <- <-] & _)|[Hne Hi]]%list_lookup_insert_Some.
    + by apply holds_insert_eq.
    + eapply holds_frame; [|by apply Hpa]. rewrite lookup_insert_ne; [done|].
      pose proof (pages_no _ _ _ _ Hi) as Hin.
      apply key_ne; [by eapply Hra..|]. by eapply dir_no_ne.
  - intros n' Hn' Hno. rewrite lookup_insert_ne; [auto|]. apply key_ne; [by eapply Hra|done|].
    intros ->. by eapply Hno, list_elem_of_lookup_2.
Qed.

(** The first page. *)
Lemma dir_new_root m x o : dir m root [] -> size x <= DIR_NODE_MAX -> page_of root 0 0 x o ->
  dir (<[getDirNodeIndex root 0 := page_entry root 0 o]> m) root [(0, x)].
Proof.
  intros [_ _ _ _ _ Hot] Hx Ho. split; simpl; [by right|..].
  - intros [|i] [|j]; simpl; [lia|done|done|done].
  - intros [|i] a; simpl; [intros [= <-]; lia|done].
  - by intros [|j] n es; simpl; [intros [= <- <-]|].
  - intros [|j] n es; simpl; [intros [= <- <-]; by apply holds_insert_eq|done].
  - intros n Hn Hno. rewrite lookup_insert_ne; [apply Hot; [done|by apply not_elem_of_nil]|].
    apply key_ne; [lia|done|]. intros <-. apply Hno. by left.
Qed.

(** The numbers with one more page. *)
Lemma prev_no_app (ns : list Z) c j n : ns !! j = Some n ->
  prev_no (ns ++ [c]) j = if decide (j = 0%nat) then c else prev_no ns j.
Proof.
  intros Hj%lookup_lt_Some. unfold prev_no. destruct j as [|i]; simpl.
  - rewrite length_app, Nat.add_sub, lookup_app_r, Nat.sub_diag by done. done.
  - rewrite lookup_app_l by lia. done.
Qed.

Lemma next_no_app (ns : list Z) c j n : ns !! j = Some n ->
  next_no (ns ++ [c]) j = if decide (S j = length ns) then c else next_no ns j.
Proof.
  intros Hj%lookup_lt_Some. unfold next_no. case_decide as Hl.
  - by rewrite lookup_app_r, Hl, Nat.sub_diag by lia.
  - by rewrite lookup_app_l by lia.
Qed.

(** One more page at the end: the page that was last gets a next one, and the
    root's previous page is the new one. *)
Lemma dir_new_page m m' pages n es x :
  dir m root pages -> pages !! (length pages - 1)%nat = Some (n, es) -> n + 1 < 2 ^ 64 ->
  size x <= DIR_NODE_MAX ->
  holds m' root (n + 1) n 0 x ->
  (forall j a y, pages !! j = Some (a, y) ->
     holds m' root a (if decide (j = 0%nat) then n + 1 else prev_no pages.*1 j)
       (if decide (S j = length pages) then n + 1 else next_no pages.*1 j) y) ->
  (forall a, 0 <= a < 2 ^ 64 -> a ∉ (pages ++ [(n + 1, x)]).*1 ->
     m' !! getDirNodeIndex root a = m !! getDirNodeIndex root a) ->
  dir m' root (pages ++ [(n + 1, x)]).
Proof.
  intros Hd Hl Hn Hx Hnew Hold Hrest. pose proof (pages_no _ _ _ _ Hl) as Hln.
  pose proof Hd as [Hst Hso Hra Hsi Hpa Hot]. pose proof (lookup_lt_Some _ _ _ Hl) as Hlt.
  assert (Hbelow : forall i a, pages.*1 !! i = Some a -> a <= n).
  { intros i a Hi. pose proof (lookup_lt_Some _ _ _ Hi) as Hi'. rewrite length_fmap in Hi'.
    destruct (decide (i = (length pages - 1)%nat)) as [->|]; [assert (a = n) by congruence; lia|].
    pose proof (Hso _ _ _ _ Hi Hln ltac:(lia)). lia. }
  pose proof (Hra _ _ Hln).
  split; rewrite ?fmap_app; simpl.
  - destruct Hst as [Hn0|Hn0]; [|right; by rewrite lookup_app_l by (rewrite length_fmap; lia)].
    apply lookup_ge_None in Hn0. rewrite length_fmap in Hn0. lia.
  - intros i j a c [Hi|[Hi Hi']]%lookup_app_Some [Hj|[Hj Hj']]%lookup_app_Some Hij; [by eapply Hso|..].
    + apply list_lookup_singleton_Some in Hj' as [_ <-]. apply Hbelow in Hi. lia.
    + apply lookup_lt_Some in Hj. lia.
    + apply list_lookup_singleton_Some in Hi' as [? _], Hj' as [? _]. lia.
  - intros i a [Hi|[_ [_ <-]%list_lookup_singleton_Some]]%lookup_app_Some; [by eapply Hra|lia].
  - intros j a y [Hj|[_ [_ [= <- <-]]%list_lookup_singleton_Some]]%lookup_app_Some; [by eapply Hsi|done].
  - intros j a y [Hj|[Hj [Hj' [= <- <-]]%list_lookup_singleton_Some]]%lookup_app_Some.
    + rewrite (prev_no_app _ _ _ _ (pages_no _ _ _ _ Hj)), (next_no_app _ _ _ _ (pages_no _ _ _ _ Hj)).
      rewrite length_fmap. by apply Hold.
    + assert (j = length pages) as -> by lia. unfold prev_no, next_no.
      rewrite (lookup_ge_None_2 (_ ++ _) (S _)) by (rewrite length_app, length_fmap; simpl; lia).
      destruct (length pages) as [|l] eqn:El; [lia|].
      rewrite lookup_app_l by (rewrite length_fmap; lia).
      replace l with (S l - 1)%nat by lia. by rewrite Hln.
  - intros a Ha Hno. rewrite Hrest by (done || by rewrite fmap_app). apply Hot; [done|].
    intros Hin. apply Hno. apply elem_of_app. by left.
Qed.

(** All pages gone. *)
Lemma dir_gone m m' pages : dir m root pages ->
  (forall j n es, pages !! j = Some (n, es) -> m' !! getDirNodeIndex root n = None) ->
  (forall a, 0 <= a < 2 ^ 64 -> a ∉ pages.*1 ->
     m' !! getDirNodeIndex root a = m !! getDirNodeIndex root a) ->
  dir m' root [].
Proof.
  intros Hd Hgone Hrest. split; simpl; try done; [by left|].
  intros n Hn _. destruct (decide (n ∈ pages.*1)) as [(j & Hj)%list_elem_of_lookup_1|Hno].
  - destruct (no_page _ _ _ Hj) as [es ?]. by eapply Hgone.
  - rewrite Hrest by done. by apply (dir_others _ _ _ Hd).
Qed.

(** The numbers with a page in the middle gone; [skip j i] is where the page
    now at [i] was. *)
Definition skip (j i : nat) : nat := if decide (i < j)%nat then i else S i.

Lemma lookup_skip {A} (l : list A) j i : delete j l !! i = l !! skip j i.
Proof.
  unfold skip. case_decide; [by apply list_lookup_delete_lt|apply list_lookup_delete_ge; lia].
Qed.

Lemma prev_no_skip (ns : list Z) j i : (0 < j)%nat -> (S j < length ns)%nat ->
  (i < length ns - 1)%nat ->
  prev_no (delete j ns) i = if decide (skip j i = S j) then prev_no ns j else prev_no ns (skip j i).
Proof.
  intros Hj Hlen Hi. unfold prev_no. rewrite lookup_skip, length_delete by (apply lookup_lt_is_Some; lia).
  f_equal. unfold skip. destruct j as [|j]; [lia|].
  destruct i as [|i]; repeat case_decide; try lia; simpl; f_equal; try lia; f_equal; lia.
Qed.

Lemma next_no_skip (ns : list Z) j i :
  next_no (delete j ns) i = if decide (S (skip j i) = j) then next_no ns j else next_no ns (skip j i).
Proof. unfold next_no. rewrite lookup_skip. unfold skip. by repeat case_decide; f_equal; f_equal; lia. Qed.

(** A page in the middle gone: its neighbours point to each other. *)
Lemma dir_unlink m m' pages j n es :
  dir m root pages -> pages !! j = Some (n, es) -> (0 < j)%nat -> (S j < length pages)%nat ->
  m' !! getDirNodeIndex root n = None ->
  (forall i a y, i <> j -> pages !! i = Some (a, y) ->
     holds m' root a (if decide (i = S j) then prev_no pages.*1 j else prev_no pages.*1 i)
       (if decide (S i = j) then next_no pages.*1 j else next_no pages.*1 i) y) ->
  (forall a, 0 <= a < 2 ^ 64 -> a ∉ pages.*1 ->
     m' !! getDirNodeIndex root a = m !! getDirNodeIndex root a) ->
  dir m' root (delete j pages).
Proof.
  intros Hd Hj Hj0 Hlen Hgone Hold Hrest. pose proof Hd as [Hst Hso Hra Hsi Hpa Hot].
  assert (Hns : (delete j pages).*1 = delete j pages.*1) by apply list_fmap_delete.
  assert (Hskip : forall i, skip j i <> j) by (intros i; unfold skip; case_decide; lia).
  split; rewrite ?Hns; try setoid_rewrite lookup_skip.
  - unfold skip. by rewrite decide_True by done.
  - intros i i' a c Hi Hi' Hlt. eapply Hso; [exact Hi|exact Hi'|]. unfold skip. repeat case_decide; lia.
  - intros i a. apply Hra.
  - intros i. apply Hsi.
  - intros i a y Hi. pose proof (lookup_lt_Some _ _ _ Hi) as Hil.
    rewrite next_no_skip, prev_no_skip; [by apply Hold|done|by rewrite length_fmap|].
    rewrite length_fmap. revert Hil. unfold skip. case_decide; lia.
  - intros a Ha Hno. destruct (decide (a = n)) as [->|Hne]; [done|].
    assert (a ∉ pages.*1); [|rewrite Hrest by done; by apply Hot].
    intros (i & Hi)%list_elem_of_lookup_1. apply Hno.
    destruct (decide (i = j)) as [->|]; [rewrite (pages_no _ _ _ _ Hj) in Hi; congruence|].
    apply (list_elem_of_lookup_2 _ (if decide (i < j)%nat then i else (i - 1)%nat)).
    rewrite lookup_skip, <- Hi. f_equal. unfold skip. repeat case_decide; lia.
Qed.

End change.

(** ** [dirAdd] *)

Section programs.
Context `{Build} {SHA : SHA512Half} {V : Type} {RV : ReadView STObject V}.
Context {VM : ViewModel STObject V} {RL : ReadViewLaws STObject V}.
Variables (root : Z) (Hroot : pages_distinct root).

(** [fDescriber] assigns to fields of the page other than those of the list. *)
Definition describes (g : bool -> STObject -> result STObject) : Prop :=
  forall isroot prev next es o, page_of root prev next es o ->
    exists o', g isroot o = Ok o' /\ page_of root prev next es o'.

(** What [dirAdd] does to the pages. *)
Definition added (m m' : gmap Z Entry) (pages : list (Z * list Z)) (x : Z) (r : TER) (n : Z) : Prop :=
  (forall i, outside root i -> m' !! i = m !! i) /\
  (r = tesSUCCESS /\ (exists pages', dir m' root pages' /\ entries pages' = entries pages ++ [x] /\
     exists es, pages' !! (length pages' - 1)%nat = Some (n, es ++ [x])) \/
   r = tecDIR_FULL /\ m' = m /\
     exists es, pages !! (length pages - 1)%nat = Some (2 ^ 64 - 1, es) /\ size es = DIR_NODE_MAX).

Section rules.
Variables (b : V) (d : Z * Z).

Lemma page_check n o : Keylet.check (page root n) (page_entry root n o) = Ok true.
Proof. unfold Keylet.check, Keylet.assert. simpl. by rewrite andb_false_r. Qed.

Lemma peek_page_rule s k n prev next es (Q : option loc -> St V -> Prop) : rep b d s k ->
  0 <= n < 2 ^ 64 -> holds (am k) root n prev next es ->
  (forall p f o s', tabs s' = tabs s -> am k !! getDirNodeIndex root n = Some (page_entry root n o) ->
     page_of root prev next es o ->
     (ap k !! getDirNodeIndex root n = None \/ ap k !! getDirNodeIndex root n = Some (p, f)) ->
     rep b d s' (mkKnow (am k) (<[getDirNodeIndex root n := (p, f)]> (ap k)) (loose k) (dirty k)) ->
     Q (Some p) s') ->
  wpm (peek (page root n)) s Q.
Proof.
  intros Hr Hn (o & Ho & Hpo) HQ. eapply peek_any_rule; [done|by apply Hroot|done|apply page_check|].
  intros p f s' Ht Hh Hr'. by eapply HQ.
Qed.

(** A new page enters the view. *)
Lemma new_page_rule {A} s k n (K : loc -> M V A) (Q : A -> St V -> Prop) : rep b d s k ->
  0 <= n < 2 ^ 64 -> am k !! getDirNodeIndex root n = None ->
  (forall p o s', tabs s' = tabs s -> page_of root 0 0 [] o ->
     rep b d s' (mkKnow (<[getDirNodeIndex root n := page_entry root n o]> (am k))
                   (<[getDirNodeIndex root n := (p, true)]> (ap k)) (loose k) (dirty k)) ->
     wpm (K p) s' Q) ->
  wpm (p ← make_page root (page root n); _ ← insert p; K p) s Q.
Proof.
  intros Hr Hn Hnew HQ. destruct (make_page_entry root n) as (o & o' & Hm & Ho & Hpo).
  apply wpm_bind. unfold make_page. apply wpm_bind. eapply wpm_lift; [done|].
  apply wpm_bind. eapply make_shared_rule; [done|]. intros p s1 Ht1 Hlo Hr1.
  apply wpm_bind. eapply set_loose_rule; [done|by apply lookup_insert_eq|done|]. intros s2 Ht2 Hr2.
  simpl in Hr2. rewrite insert_insert_eq in Hr2. apply wpm_ret.
  apply wpm_bind. eapply insert_rule; [done|by apply lookup_insert_eq|by apply Hroot|done|].
  intros s3 Ht3 Hr3. simpl in Hr3. rewrite delete_insert_id in Hr3 by done.
  eapply HQ; [congruence|done|exact Hr3].
Qed.

(** The end of [dirAdd]. *)
Lemma append_rule s k n p prev next es x o (Q : TER * Z -> St V -> Prop) : rep b d s k ->
  ap k !! getDirNodeIndex root n = Some (p, true) ->
  am k !! getDirNodeIndex root n = Some (page_entry root n o) -> page_of root prev next es o ->
  (forall o' s', tabs s' = tabs s -> page_of root prev next (es ++ [x]) o' ->
     rep b d s' (mkKnow (<[getDirNodeIndex root n := page_entry root n o']> (am k)) (ap k) (loose k) (dirty k)) ->
     Q (tesSUCCESS, n) s') ->
  wpm (_ ← append_entry p es x; mret (tesSUCCESS, n)) s Q.
Proof.
  intros Hr Hp He Ho HQ. apply wpm_bind.
  destruct (page_set_indexes _ _ _ _ (es ++ [x]) _ Ho) as (o' & Hs & Ho').
  eapply set_rule; [done..|]. intros s' Ht Hr'. apply wpm_ret. by eapply HQ.
Qed.

(** The description and the entry of a new page. *)
Lemma fill_rule s k n p c prev g x o (Q : TER * Z -> St V -> Prop) : rep b d s k -> describes g ->
  ap k !! getDirNodeIndex root n = Some (p, true) ->
  am k !! getDirNodeIndex root n = Some (page_entry root n o) -> page_of root prev 0 [] o ->
  (forall o' s', tabs s' = tabs s -> page_of root prev 0 [x] o' ->
     rep b d s' (mkKnow (<[getDirNodeIndex root n := page_entry root n o']> (am k)) (ap k) (loose k) (dirty k)) ->
     Q (tesSUCCESS, n) s') ->
  wpm (_ ← set p (g c); _ ← append_entry p [] x; mret (tesSUCCESS, n)) s Q.
Proof.
  intros Hr Hg Hp He Ho HQ. destruct (Hg c _ _ _ _ Ho) as (o' & Hgo & Ho').
  apply wpm_bind. eapply set_rule; [done..|]. intros s1 Ht1 Hr1.
  eapply append_rule; [done|done|by apply lookup_insert_eq|done|].
  intros o2 s2 Ht2 Ho2 Hr2. simpl in Hr2. rewrite insert_insert_eq in Hr2. eapply HQ; [congruence|done..].
Qed.

(** Forgetting the pointer to a page. *)
Lemma forget_page s k m n p (ap' : gmap Z (loc * bool)) : ap k ⊆ ap' ->
  ap k !! getDirNodeIndex root n = None ->
  rep b d s (mkKnow m (<[getDirNodeIndex root n := (p, true)]> ap') (loose k) (dirty k)) ->
  rep b d s (mkKnow m (ap k) (loose k) (dirty k)).
Proof.
  intros Hap Hn Hr. eapply rep_weaken; [done|done| |done|done]. simpl.
  by apply insert_subseteq_r.
Qed.

(** The last part of [dirAdd], once the page that was last and the root point
    to the page [n + 1]. *)
Lemma grow_rule s k m pages n es x g ap0 (Q : TER * Z -> St V -> Prop) :
  rep b d s k -> describes g -> ap0 ⊆ ap k ->
  (forall a, 0 <= a < 2 ^ 64 -> ap0 !! getDirNodeIndex root a = None) ->
  dir m root pages -> pages !! (length pages - 1)%nat = Some (n, es) -> n + 1 < 2 ^ 64 ->
  (forall i, outside root i -> am k !! i = m !! i) ->
  (forall a, 0 <= a < 2 ^ 64 -> a ∉ pages.*1 ->
     am k !! getDirNodeIndex root a = m !! getDirNodeIndex root a) ->
  (forall j a y, pages !! j = Some (a, y) ->
     holds (am k) root a (if decide (j = 0%nat) then n + 1 else prev_no pages.*1 j)
       (if decide (S j = length pages) then n + 1 else next_no pages.*1 j) y) ->
  (forall m' s', tabs s' = tabs s -> rep b d s' (mkKnow m' ap0 (loose k) (dirty k)) ->
     added m m' pages x tesSUCCESS (n + 1) -> Q (tesSUCCESS, n + 1) s') ->
  wpm (p ← make_page root (page root (n + 1));
       _ ← insert p;
       _ ← (if negb (n + 1 =? 1) then set p (setFieldU64 sfIndexPrevious (u64 (n + 1 - 1))) else mret tt);
       _ ← set p (g false);
       _ ← append_entry p [] x;
       mret (tesSUCCESS, n + 1)) s Q.
Proof.
  intros Hr Hg Hap Hfree Hd Hl Hn Hout Hrest Hold HQ.
  pose proof (dir_range _ _ _ Hd _ _ (pages_no _ _ _ _ Hl)) as Hn0.
  assert (Hno : n + 1 ∉ pages.*1).
  { intros (i & Hi)%list_elem_of_lookup_1. pose proof (lookup_lt_Some _ _ _ Hi) as Hlt.
    rewrite length_fmap in Hlt.
    destruct (decide (i = length pages - 1)%nat) as [->|]; [rewrite (pages_no _ _ _ _ Hl) in Hi; injection Hi; lia|].
    pose proof (dir_sorted _ _ _ Hd _ _ _ _ Hi (pages_no _ _ _ _ Hl) ltac:(lia)). lia. }
  assert (Hfin : forall o s', tabs s' = tabs s -> page_of root n 0 [x] o ->
    rep b d s' (mkKnow (<[getDirNodeIndex root (n + 1) := page_entry root (n + 1) o]> (am k)) ap0 (loose k) (dirty k)) ->
    Q (tesSUCCESS, n + 1) s').
  { intros o s' Ht Ho Hr'. eapply HQ; [done..|]. split.
    - intros i Hi. rewrite lookup_insert_ne; [by apply Hout|]. symmetry. apply Hi. lia.
    - left. split; [done|]. exists (pages ++ [(n + 1, [x])]). split; [|split].
      + eapply dir_new_page; [done..|by apply holds_insert_eq| |].
        * intros j a y Hj. eapply holds_frame; [|by apply Hold]. apply lookup_insert_ne.
          pose proof (pages_no _ _ _ _ Hj) as Hja.
          apply key_ne; [done|lia|by eapply dir_range|]. intros <-. by eapply Hno, list_elem_of_lookup_2.
        * intros a Ha Hna. rewrite fmap_app in Hna. apply not_elem_of_app in Hna as [Ha1 Ha2].
          rewrite lookup_insert_ne; [by apply Hrest|]. apply key_ne; [done|lia|done|].
          intros <-. apply Ha2. by left.
      + unfold entries. by rewrite fmap_app, concat_app.
      + exists []. by rewrite length_app, Nat.add_sub, lookup_app_r, Nat.sub_diag. }
  eapply new_page_rule; [done|lia|rewrite Hrest by (done || lia); apply (dir_others _ _ _ Hd); [lia|done]|].
  intros p o s1 Ht1 Ho Hr1. apply wpm_bind.
  destruct (Z.eqb_spec (n + 1) 1) as [He|He]; simpl.
  - apply wpm_ret. assert (n = 0) as -> by lia.
    eapply fill_rule; [done|done|by apply lookup_insert_eq..|done|].
    intros o' s2 Ht2 Ho' Hr2. simpl in Hr2. rewrite insert_insert_eq in Hr2.
    eapply Hfin; [congruence|done|]. eapply rep_weaken; [done|done| |done|done]. simpl.
    apply insert_subseteq_r; [|done]. apply Hfree. lia.
  - destruct (page_set_prev _ _ (u64 (n + 1 - 1)) _ _ _ Ho) as (o' & Hs & Ho').
    eapply set_rule; [done|by apply lookup_insert_eq..|done|]. intros s2 Ht2 Hr2.
    simpl in Hr2. rewrite insert_insert_eq in Hr2.
    eapply fill_rule; [done|done|by apply lookup_insert_eq..|done|].
    intros o2 s3 Ht3 Ho2 Hr3. simpl in Hr3. rewrite insert_insert_eq in Hr3.
    replace (u64 (n + 1 - 1)) with n in Ho2 by (rewrite u64_id; lia).
    eapply Hfin; [congruence|done|]. eapply rep_weaken; [done|done| |done|done]. simpl.
    apply insert_subseteq_r; [|done]. apply Hfree. lia.
Qed.

(** The last page, and the root. *)
Lemma dir_last m p0 pages : dir m root (p0 :: pages) -> exists n es,
  (p0 :: pages) !! length pages = Some (n, es) /\ p0.1 = 0 /\ 0 <= n < 2 ^ 64 /\
  (n = 0 <-> pages = []) /\
  prev_no (p0 :: pages).*1 0 = n /\ next_no (p0 :: pages).*1 (length pages) = 0.
Proof.
  intros Hd. destruct (lookup_lt_is_Some_2 (p0 :: pages) (length pages)) as [[n es] Hl]; [simpl; lia|].
  pose proof (pages_no _ _ _ _ Hl) as Hln.
  assert (p0.1 = 0) as Hz0 by (destruct (dir_start _ _ _ Hd) as [|[=]]; done).
  exists n, es. split; [done|]. split; [done|]. split; [by eapply dir_range|]. split; [|split].
  - destruct pages as [|p1 pages]; [by simplify_eq/=|]. split; [|done]. intros ->.
    pose proof (dir_sorted _ _ _ Hd 0 _ _ _ eq_refl Hln ltac:(simpl; lia)). lia.
  - unfold prev_no. rewrite length_fmap. replace (length (p0 :: pages) - 1)%nat with (length pages) by (simpl; lia). by rewrite Hln.
  - unfold next_no. by rewrite lookup_ge_None_2 by (rewrite length_fmap; simpl; lia).
Qed.

Lemma split_at (pages : list (Z * list Z)) j n es : pages !! j = Some (n, es) ->
  exists l1 l2, pages = l1 ++ (n, es) :: l2 /\ length l1 = j.
Proof.
  intros Hj. exists (take j pages), (drop (S j) pages). split; [by rewrite take_drop_middle|].
  apply length_take_le. apply lookup_lt_Some in Hj. lia.
Qed.

Lemma entries_app l1 l2 : entries (l1 ++ l2) = entries l1 ++ entries l2.
Proof. unfold entries. by rewrite fmap_app, concat_app. Qed.

Lemma entries_cons n es l : entries ((n, es) :: l) = es ++ entries l.
Proof. done. Qed.

Lemma entries_insert_last (pages : list (Z * list Z)) j n es r :
  pages !! j = Some (n, es) -> S j = length pages ->
  entries (<[j := (n, es ++ r)]> pages) = entries pages ++ r.
Proof.
  intros Hj Hlen. destruct (split_at _ _ _ _ Hj) as (l1 & l2 & -> & <-).
  rewrite length_app in Hlen. destruct l2; [|simpl in Hlen; lia].
  replace (length l1) with (length l1 + 0)%nat by lia. rewrite insert_app_r. simpl.
  rewrite !entries_app. unfold entries. simpl. by rewrite !app_nil_r, app_assoc.
Qed.

(** Appending to the last page, which is held. *)
Lemma append_last_rule s k ap0 p0 pages n es p f o x (Q : TER * Z -> St V -> Prop) :
  rep b d s k -> ap0 ⊆ ap k -> (forall a, 0 <= a < 2 ^ 64 -> ap0 !! getDirNodeIndex root a = None) ->
  dir (am k) root (p0 :: pages) -> (p0 :: pages) !! length pages = Some (n, es) -> size es < DIR_NODE_MAX ->
  ap k !! getDirNodeIndex root n = Some (p, f) ->
  am k !! getDirNodeIndex root n = Some (page_entry root n o) ->
  page_of root (prev_no (p0 :: pages).*1 (length pages)) (next_no (p0 :: pages).*1 (length pages)) es o ->
  (forall m' s', tabs s' = tabs s -> rep b d s' (mkKnow m' ap0 (loose k) (dirty k)) ->
     added (am k) m' (p0 :: pages) x tesSUCCESS n -> Q (tesSUCCESS, n) s') ->
  wpm (_ ← update p; _ ← append_entry p es x; mret (tesSUCCESS, n)) s Q.
Proof.
  intros Hr Hap Hfree Hd Hl Hes Hp He Ho HQ.
  pose proof (dir_range _ _ _ Hd _ _ (pages_no _ _ _ _ Hl)) as Hn.
  apply wpm_bind. eapply update_rule; [done..|]. intros s1 Ht1 Hr1.
  eapply append_rule; [done|by apply lookup_insert_eq|done..|]. intros o' s2 Ht2 Ho' Hr2.
  eapply HQ; [congruence| |].
  { eapply rep_weaken; [exact Hr2|done| |done|by intros ? [? _]]. simpl.
    apply insert_subseteq_r; [by apply Hfree|done]. }
  split; [intros i Hi; apply lookup_insert_ne; symmetry; by apply Hi|]. left. split; [done|].
  exists (<[length pages := (n, es ++ [x])]> (p0 :: pages)). split; [|split].
  - eapply dir_set_entries; [done..| |done]. unfold size in *. rewrite length_app. simpl. lia.
  - eapply entries_insert_last; [done|simpl; lia].
  - exists es. rewrite length_insert. simpl length. rewrite Nat.sub_succ, Nat.sub_0_r.
    apply list_lookup_insert_eq. simpl. lia.
Qed.

Lemma dirAdd_last_rule s k ap0 es0 pages n es p f pr fr o x g (Q : TER * Z -> St V -> Prop) :
  rep b d s k -> describes g -> ap0 ⊆ ap k ->
  (forall a, 0 <= a < 2 ^ 64 -> ap0 !! getDirNodeIndex root a = None) ->
  dir (am k) root ((0, es0) :: pages) -> ((0, es0) :: pages) !! length pages = Some (n, es) ->
  (n = 0 -> p = pr /\ pages = []) ->
  ap k !! getDirNodeIndex root 0 = Some (pr, fr) -> ap k !! getDirNodeIndex root n = Some (p, f) ->
  am k !! getDirNodeIndex root n = Some (page_entry root n o) ->
  page_of root (prev_no ((0, es0) :: pages).*1 (length pages))
    (next_no ((0, es0) :: pages).*1 (length pages)) es o ->
  (forall r n' m' s', tabs s' = tabs s -> rep b d s' (mkKnow m' ap0 (loose k) (dirty k)) ->
     added (am k) m' ((0, es0) :: pages) x r n' -> Q (r, n') s') ->
  wpm (dirAdd_last root x (fun p c => set p (g c)) n pr p) s Q.
Proof.
  intros Hr Hg Hap Hfree Hd Hl Hz Hpr Hp He Ho HQ. unfold dirAdd_last.
  pose proof (dir_range _ _ _ Hd _ _ (pages_no _ _ _ _ Hl)) as Hn.
  destruct (page_get _ _ _ _ _ Ho) as (Hes & _). apply wpm_bind. eapply get_rule; [done..|].
  pose proof (dir_size _ _ _ Hd _ _ _ Hl) as Hsz.
  destruct (Z.eqb_spec DIR_NODE_MAX (size es)) as [Hfull|Hfull]; simpl.
  2:{ eapply append_last_rule; [done|done|done|done|done|lia|done|done|done|]. eauto. }
  assert (Hlast : ((0, es0) :: pages) !! (length ((0%Z, es0) :: pages) - 1)%nat = Some (n, es)).
  { by replace (length ((0%Z, es0) :: pages) - 1)%nat with (length pages) by (simpl; lia). }
  destruct (decide (n + 1 = 2 ^ 64)) as [Hw|Hw].
  { replace (u64 (n + 1)) with 0 by (by rewrite Hw). simpl. apply wpm_ret. eapply HQ; [done| |].
    - by eapply rep_weaken.
    - split; [done|]. right. split; [done|]. split; [done|]. exists es. by replace (2 ^ 64 - 1) with n by lia. }
  rewrite u64_id by lia. destruct (Z.eqb_spec (n + 1) 0) as [|_]; [lia|].
  destruct (page_set_next _ _ _ (n + 1) _ _ Ho) as (o1 & Hs1 & Ho1).
  eapply set_update_rule; [done..|]. intros s1 Ht1 Hr1. simpl in Hr1.
  assert (Hout : forall (o o' : STObject) i, outside root i ->
    <[getDirNodeIndex root 0 := page_entry root 0 o']>
      (<[getDirNodeIndex root n := page_entry root n o]> (am k)) !! i = am k !! i).
  { intros o2 o3 i Hi. by rewrite !lookup_insert_ne by (symmetry; by apply Hi). }
  assert (Hkeep : forall (o o' : STObject) a, 0 <= a < 2 ^ 64 -> a ∉ ((0, es0) :: pages).*1 ->
    <[getDirNodeIndex root 0 := page_entry root 0 o']>
      (<[getDirNodeIndex root n := page_entry root n o]> (am k)) !! getDirNodeIndex root a =
    am k !! getDirNodeIndex root a).
  { intros o2 o3 a Ha Hna. rewrite !lookup_insert_ne; [done|apply key_ne; [done..|]|apply key_ne; [done..|]];
      intros <-; apply Hna; [by eapply list_elem_of_lookup_2, pages_no|by left]. }
  destruct (decide (n = 0)) as [->|Hne].
  - destruct (Hz eq_refl) as [-> ->]. simpl in Hl. injection Hl as <-.
    destruct (page_set_prev _ _ 1 _ _ _ Ho1) as (o2 & Hs2 & Ho2).
    eapply set_update_rule; [done|by apply lookup_insert_eq..|done|]. intros s2 Ht2 Hr2. simpl in Hr2.
    eapply (grow_rule _ _ (am k)); [exact Hr2|done| |done|exact Hd|done|done|apply Hout|apply Hkeep| |].
    + simpl. by repeat (apply insert_subseteq_r; [by apply Hfree|]).
    + intros [|j] a y; [|done]. intros [= <- <-]. by apply holds_insert_eq.
    + intros m' s' Ht. apply HQ. congruence.
  - destruct (dir_pages _ _ _ Hd 0%nat _ _ eq_refl) as (o0 & He0 & Ho0).
    destruct (page_set_prev _ _ (n + 1) _ _ _ Ho0) as (o2 & Hs2 & Ho2).
    assert (Hk0 : getDirNodeIndex root n <> getDirNodeIndex root 0) by (by apply key_ne).
    eapply set_update_rule; [done|simpl; by rewrite lookup_insert_ne|simpl; by rewrite lookup_insert_ne|done|].
    intros s2 Ht2 Hr2. simpl in Hr2.
    eapply (grow_rule _ _ (am k)); [exact Hr2|done| |done|exact Hd|done|lia|apply Hout|apply Hkeep| |].
    + simpl. by repeat (apply insert_subseteq_r; [by apply Hfree|]).
    + assert (Hlen : length pages <> 0%nat).
      { destruct pages; [|done]. simpl in Hl. by injection Hl as <- _. }
      intros j a y Hj. pose proof (pages_no _ _ _ _ Hj) as Hja. simpl am.
      destruct (decide (j = 0%nat)) as [->|Hj0].
      { injection Hj as <- <-. rewrite decide_False by (simpl; lia). by apply holds_insert_eq. }
      assert (a <> 0) by (by apply (dir_no_ne root _ _ j 0%nat a 0 Hd)).
      pose proof (dir_range _ _ _ Hd _ _ Hja) as Ha.
      eapply holds_frame; [apply lookup_insert_ne; by apply key_ne|].
      destruct (decide (S j = length ((0, es0) :: pages))) as [Hjl|Hjl].
      * assert (j = length pages) as -> by (simpl in Hjl; lia).
        rewrite Hl in Hj. injection Hj as <- <-. by apply holds_insert_eq.
      * eapply holds_frame; [|by apply (dir_pages _ _ _ Hd)]. apply lookup_insert_ne. apply key_ne; [done..|].
        apply (dir_no_ne root _ _ (length pages) j n a Hd); [by eapply pages_no|done|simpl in Hjl; lia].
    + intros m' s' Ht. apply HQ. congruence.
Qed.

Lemma dirAdd_rule s k pages x g (Q : TER * Z -> St V -> Prop) :
  rep b d s k -> describes g -> dir (am k) root pages ->
  (forall n, 0 <= n < 2 ^ 64 -> ap k !! getDirNodeIndex root n = None) ->
  (forall r n m' s', tabs s' = tabs s -> rep b d s' (mkKnow m' (ap k) (loose k) (dirty k)) ->
     added (am k) m' pages x r n -> Q (r, n) s') ->
  wpm (dirAdd root x (fun p c => set p (g c))) s Q.
Proof.
  intros Hr Hg Hd Hfree HQ. unfold dirAdd. apply wpm_bind. destruct pages as [|p0 pages].
  { eapply peek_none_rule; [done|by apply Hroot|apply (dir_others _ _ _ Hd); [done|apply not_elem_of_nil]|].
    eapply new_page_rule; [done|done|apply (dir_others _ _ _ Hd); [done|apply not_elem_of_nil]|].
    intros p o s1 Ht1 Ho Hr1. eapply fill_rule; [done|done|by apply lookup_insert_eq..|done|].
    intros o' s2 Ht2 Ho' Hr2. simpl in Hr2. rewrite insert_insert_eq in Hr2.
    eapply HQ; [congruence|eapply forget_page; [| |exact Hr2]; [done|by apply Hfree]|]. split.
    - intros i Hi. apply lookup_insert_ne. symmetry. by apply Hi.
    - left. split; [done|]. exists [(0, [x])]. split; [by apply dir_new_root|]. split; [done|]. by exists []. }
  destruct (dir_last _ _ _ Hd) as (n & es & Hl & Hz0 & Hn & Hn0 & Hprev & Hnext).
  destruct p0 as [z es0]. simpl in Hz0. subst z.
  eapply peek_page_rule; [done|done|by apply (dir_pages _ _ _ Hd 0%nat)|]. intros pr fr o0 s1 Ht1 He0 Ho0 _ Hr1.
  destruct (page_get _ _ _ _ _ Ho0) as (_ & Hgp & _). rewrite Hprev in Hgp.
  apply wpm_bind. eapply get_rule; [done|by apply lookup_insert_eq|done|done|].
  apply wpm_bind. destruct (Z.eqb_spec n 0) as [Hz|Hz].
  - apply wpm_ret. assert (pages = []) as -> by tauto. simpl in Hl. injection Hl as <- <-.
    eapply dirAdd_last_rule; [done|done| |done|done|done|done|by apply lookup_insert_eq..|done|done|].
    + apply insert_subseteq. by apply Hfree.
    + intros r n' m' s' Ht. apply HQ. congruence.
  - apply wpm_bind. eapply peek_page_rule; [done|done|by apply (dir_pages _ _ _ Hd)|].
    intros p f o s2 Ht2 He Ho _ Hr2. apply wpm_bind, wpm_assert; [done|]. apply wpm_need.
    assert (Hkey : getDirNodeIndex root n <> getDirNodeIndex root 0) by (by apply key_ne).
    eapply dirAdd_last_rule; [exact Hr2|done| |done|done|done|done| |by apply lookup_insert_eq|done|done|].
    + simpl. apply insert_subseteq_r; [by apply Hfree|]. apply insert_subseteq. by apply Hfree.
    + simpl. by rewrite lookup_insert_ne, lookup_insert_eq.
    + intros r n' m' s' Ht. apply HQ. congruence.
Qed.

(** ** [dirDelete] *)

(** The pages that stay when the page at [j] has become empty: none of a directory
    of one page; the others when it is neither the first nor the last one; none of
    two empty pages, unless the root is to be kept; else all of them, so that an
    empty first or last page of a longer directory stays. *)
Definition tidy (keep : bool) (j : nat) (pages : list (Z * list Z)) : list (Z * list Z) :=
  match pages !! j with
  | Some (_, []) =>
      if (length pages =? 1)%nat then []
      else if (0 <? j)%nat && (S j <? length pages)%nat then delete j pages
      else if negb keep && (length pages =? 2)%nat && bool_decide (entries pages = []) then []
      else pages
  | _ => pages
  end.

Lemma tidy_entries keep j pages : entries (tidy keep j pages) = entries pages.
Proof.
  unfold tidy. destruct (pages !! j) as [[n [|e es]]|] eqn:Hj; [|done|done].
  destruct (Nat.eqb_spec (length pages) 1) as [H1|H1].
  { destruct pages as [|p [|p' pages]]; [done| |done]. destruct j; [|done]. by injection Hj as ->. }
  case_match; [|case_match eqn:Hb; [|done]].
  - destruct (split_at _ _ _ _ Hj) as (l1 & l2 & -> & <-). rewrite delete_middle. by rewrite !entries_app.
  - apply andb_true_iff in Hb as [_ Hb%bool_decide_eq_true]. by rewrite Hb.
Qed.

(** The directory has these pages, and nothing else changed. *)
Definition tidied (m m' : gmap Z Entry) (pages' : list (Z * list Z)) : Prop :=
  (forall i, outside root i -> m' !! i = m !! i) /\ dir m' root pages'.

Lemma tidied_same m pages : dir m root pages -> tidied m m pages.
Proof. by intros Hd. Qed.

Lemma erase_page_rule {A} s k ap0 n p f (K : M V A) (Q : A -> St V -> Prop) : rep b d s k ->
  ap0 ⊆ ap k -> ap0 !! getDirNodeIndex root n = None -> ap k !! getDirNodeIndex root n = Some (p, f) ->
  (forall s', tabs s' = tabs s -> ap0 ⊆ delete (getDirNodeIndex root n) (ap k) ->
     rep b d s' (mkKnow (delete (getDirNodeIndex root n) (am k)) (delete (getDirNodeIndex root n) (ap k))
                   (loose k) (dirty k)) -> wpm K s' Q) ->
  wpm (_ ← erase p; K) s Q.
Proof.
  intros Hr Hap Hfree Hp HQ. apply wpm_bind. eapply erase_rule; [done..|]. intros s1 Ht1 Hr1.
  apply HQ; [done| |].
  - rewrite <- (delete_id ap0 (getDirNodeIndex root n)) by done. by apply delete_mono.
  - eapply rep_weaken; [done..|]. by intros i [? _].
Qed.

(** A directory of two pages without keys goes. *)
Lemma two_gone m n n' es es' : dir m root [(n, es); (n', es')] ->
  dir (delete (getDirNodeIndex root n') (delete (getDirNodeIndex root n) m)) root [].
Proof.
  intros Hd. eapply dir_gone; [exact Hd|..].
  - intros [|[|j]] a y; [| |done]; intros [= <- <-]; simplify_map_eq; [|done].
    apply lookup_delete_None. right. apply lookup_delete_eq.
  - intros a Ha [Hn [Hn' _]%not_elem_of_cons]%not_elem_of_cons.
    rewrite !lookup_delete_ne; [done|..]; (apply key_ne; [done|..|done|done]); [|].
    + by apply (dir_range _ _ _ Hd 0%nat).
    + by apply (dir_range _ _ _ Hd 1%nat).
Qed.

Lemma delete_outside m n i : 0 <= n < 2 ^ 64 -> outside root i ->
  delete (getDirNodeIndex root n) m !! i = (m : gmap Z Entry) !! i.
Proof. intros Hn Hi. apply lookup_delete_ne. symmetry. by apply Hi. Qed.

Section tidy.
Variables (s : St V) (k : know) (ap0 : gmap Z (loc * bool)) (pages : list (Z * list Z)).
Variables (j : nat) (n : Z) (p : loc) (f keep : bool) (Q : TER -> St V -> Prop).
Hypotheses (Hr : rep b d s k) (Hap : ap0 ⊆ ap k)
  (Hfree : forall a, 0 <= a < 2 ^ 64 -> ap0 !! getDirNodeIndex root a = None)
  (Hd : dir (am k) root pages) (Hj : pages !! j = Some (n, []))
  (Hp : ap k !! getDirNodeIndex root n = Some (p, f))
  (HQ : forall m' s', tabs s' = tabs s -> rep b d s' (mkKnow m' ap0 (loose k) (dirty k)) ->
     tidied (am k) m' (tidy keep j pages) -> Q tesSUCCESS s').

Lemma tidy_stay : tidy keep j pages = pages -> wpm (mret tesSUCCESS) s Q.
Proof.
  intros Hst. apply wpm_ret. apply (HQ (am k)); [done| |rewrite Hst; by apply tidied_same]. by eapply rep_weaken.
Qed.

Lemma tidy_stay_later s' k' : tabs s' = tabs s -> rep b d s' k' -> am k' = am k -> ap0 ⊆ ap k' ->
  loose k' = loose k -> dirty k' = dirty k -> tidy keep j pages = pages -> wpm (mret tesSUCCESS) s' Q.
Proof.
  intros Ht Hr' Ham Hap' Hl HD Hst. apply wpm_ret. apply (HQ (am k)); [done| |rewrite Hst; by apply tidied_same].
  eapply rep_weaken; [exact Hr'|done..| |]; simpl; [by rewrite Hl|by rewrite HD].
Qed.

(** The directory has one other page, which is peeked at: if it is empty, both
    pages go. *)
Lemma tidy_two (q : Z) (eq' : list Z) (order : bool) :
  0 <= n < 2 ^ 64 -> 0 <= q < 2 ^ 64 -> n <> q -> keep = false ->
  pages = [(n, []); (q, eq')] /\ j = 0%nat \/ pages = [(q, eq'); (n, [])] /\ j = 1%nat ->
  wpm (p' ← peek (page root q);
       _ ← assert (bool_decide (is_Some p'));
       other ← need p';
       indexes ← get other (getFieldV256 sfIndexes);
       if size indexes =? 0 then
         _ ← erase (if order then p else other); _ ← erase (if order then other else p); mret tesSUCCESS
       else mret tesSUCCESS) s Q.
Proof.
  intros Hn Hq Hnq Hk0 Hpages. assert (Hkey : getDirNodeIndex root n <> getDirNodeIndex root q) by (by apply key_ne).
  pose proof (not_eq_sym Hkey) as Hkey'. assert (exists i, pages !! i = Some (q, eq')) as [i Hi].
  { destruct Hpages as [[-> _]|[-> _]]; [by exists 1%nat|by exists 0%nat]. }
  assert (Htidy : tidy keep j pages = if bool_decide (eq' = []) then [] else pages).
  { rewrite Hk0. destruct Hpages as [[-> ->]|[-> ->]]; unfold tidy; cbn; rewrite ?app_nil_r; by destruct eq'. }
  apply wpm_bind. eapply peek_page_rule; [done|done|by apply (dir_pages _ _ _ Hd i)|].
  intros p' f' o' s1 Ht1 He' Ho' _ Hr1. apply wpm_bind, wpm_assert; [done|]. apply wpm_bind, wpm_need.
  destruct (page_get _ _ _ _ _ Ho') as (Hes & _).
  apply wpm_bind. eapply get_rule; [exact Hr1|by apply lookup_insert_eq|done|done|].
  assert (Hap1 : ap0 ⊆ <[getDirNodeIndex root q := (p', f')]> (ap k)).
  { apply insert_subseteq_r; [by apply Hfree|done]. }
  destruct (Z.eqb_spec (size eq') 0) as [Hz|Hz].
  2: { eapply tidy_stay_later; [done|exact Hr1|done..|]. rewrite Htidy. by destruct eq'. }
  assert (eq' = []) as -> by (destruct eq'; [done|unfold size in Hz; simpl in Hz; lia]).
  assert (Hgone : dir (delete (getDirNodeIndex root q) (delete (getDirNodeIndex root n) (am k))) root []).
  { destruct Hpages as [[-> _]|[-> _]]; [by eapply two_gone|]. rewrite delete_delete. by eapply two_gone. }
  assert (Hfin : forall s', tabs s' = tabs s ->
    rep b d s' (mkKnow (delete (getDirNodeIndex root q) (delete (getDirNodeIndex root n) (am k))) ap0
                  (loose k) (dirty k)) -> Q tesSUCCESS s').
  { intros s' Ht Hr'. eapply HQ; [done|exact Hr'|]. split.
    - intros i' Hi'. by rewrite !delete_outside.
    - by rewrite Htidy. }
  destruct order.
  - eapply (erase_page_rule _ _ _ n); [exact Hr1|done|by apply Hfree|simpl; by rewrite lookup_insert_ne|].
    intros s2 Ht2 Hap2 Hr2.
    eapply (erase_page_rule _ _ _ q); [exact Hr2|done|by apply Hfree|
      simpl; rewrite lookup_delete_ne by done; by apply lookup_insert_eq|].
    intros s3 Ht3 Hap3 Hr3. apply wpm_ret, Hfin; [congruence|]. by eapply rep_weaken.
  - eapply (erase_page_rule _ _ _ q); [exact Hr1|done|by apply Hfree|by apply lookup_insert_eq|].
    intros s2 Ht2 Hap2 Hr2.
    eapply (erase_page_rule _ _ _ n); [exact Hr2|done|by apply Hfree|
      simpl; by rewrite lookup_delete_ne, lookup_insert_ne|].
    intros s3 Ht3 Hap3 Hr3. apply wpm_ret, Hfin; [congruence|]. rewrite delete_delete. by eapply rep_weaken.
Qed.

(** A page in the middle goes. *)
Lemma tidy_middle pv nx :
  (0 < j)%nat -> (S j < length pages)%nat -> pv = prev_no pages.*1 j -> nx = next_no pages.*1 j ->
  wpm (slePrevious ← peek (page root pv);
       sleNext ← peek (page root nx);
       _ ← assert (bool_decide (is_Some slePrevious));
       match slePrevious with
       | None => mret tefBAD_LEDGER
       | Some slePrevious =>
           _ ← assert (bool_decide (is_Some sleNext));
           match sleNext with
           | None => mret tefBAD_LEDGER
           | Some sleNext =>
               _ ← set slePrevious (setFieldU64 sfIndexNext nx);
               _ ← update slePrevious;
               _ ← set sleNext (setFieldU64 sfIndexPrevious pv);
               _ ← update sleNext;
               _ ← erase p;
               mret tesSUCCESS
           end
       end) s Q.
Proof.
  intros Hj0 Hlen Hpv Hnx.
  destruct (lookup_lt_is_Some_2 pages (j - 1)) as [[pv' epv] Hipv]; [lia|].
  destruct (lookup_lt_is_Some_2 pages (S j)) as [[nx' enx] Hinx]; [lia|].
  pose proof (pages_no _ _ _ _ Hipv) as Hnpv. pose proof (pages_no _ _ _ _ Hinx) as Hnnx.
  pose proof (pages_no _ _ _ _ Hj) as Hnn.
  assert (pv = pv') as <-.
  { rewrite Hpv. unfold prev_no. destruct j as [|j']; [lia|]. rewrite Nat.sub_succ, Nat.sub_0_r in Hnpv.
    by rewrite Hnpv. }
  assert (nx = nx') as <- by (rewrite Hnx; unfold next_no; by rewrite Hnnx).
  pose proof (dir_range _ _ _ Hd _ _ Hnpv) as Hrpv. pose proof (dir_range _ _ _ Hd _ _ Hnnx) as Hrnx.
  pose proof (dir_range _ _ _ Hd _ _ Hnn) as Hrn.
  assert (Hlt1 : pv < n) by (eapply (dir_sorted _ _ _ Hd (j - 1) j); [done..|lia]).
  assert (Hlt2 : n < nx) by (eapply (dir_sorted _ _ _ Hd j (S j)); [done..|lia]).
  assert (Hk1 : getDirNodeIndex root pv <> getDirNodeIndex root n) by (apply key_ne; [done..|lia]).
  assert (Hk2 : getDirNodeIndex root nx <> getDirNodeIndex root n) by (apply key_ne; [done..|lia]).
  assert (Hk3 : getDirNodeIndex root nx <> getDirNodeIndex root pv) by (apply key_ne; [done..|lia]).
  apply wpm_bind. eapply peek_page_rule; [done|done|by apply (dir_pages _ _ _ Hd (j - 1))|].
  intros pp fp opv s1 Ht1 Hepv Hopv _ Hr1.
  apply wpm_bind. eapply peek_page_rule; [done|done|by apply (dir_pages _ _ _ Hd (S j))|].
  intros pn fn onx s2 Ht2 Henx Honx _ Hr2. simpl in Hr2.
  apply wpm_bind, wpm_assert; [done|]. apply wpm_bind, wpm_assert; [done|].
  destruct (page_set_next _ _ _ nx _ _ Hopv) as (opv' & Hspv & Hopv').
  destruct (page_set_prev _ _ pv _ _ _ Honx) as (onx' & Hsnx & Honx').
  eapply (set_update_rule _ _ _ _ (getDirNodeIndex root pv) pp fp);
    [exact Hr2|simpl; by simplify_map_eq|exact Hepv|exact Hspv|].
  intros s3 Ht3 Hr3. simpl in Hr3.
  eapply (set_update_rule _ _ _ _ (getDirNodeIndex root nx) pn fn);
    [exact Hr3|simpl; by simplify_map_eq|
     simpl; rewrite lookup_insert_ne by (by apply not_eq_sym); exact Henx|exact Hsnx|].
  intros s4 Ht4 Hr4. simpl in Hr4.
  eapply (erase_page_rule _ _ ap0 n); [exact Hr4| |by apply Hfree|simpl; by simplify_map_eq|].
  { simpl. by repeat (apply insert_subseteq_r; [by apply Hfree|]). }
  intros s5 Ht5 Hap5 Hr5. apply wpm_ret. eapply HQ; [congruence|by eapply rep_weaken|]. simpl. split.
  { intros i Hi. rewrite delete_outside by done. by rewrite !lookup_insert_ne by (symmetry; by apply Hi). }
  assert (tidy keep j pages = delete j pages) as ->.
  { unfold tidy. rewrite Hj. rewrite (proj2 (Nat.eqb_neq _ _)) by lia. by rewrite (proj2 (Nat.ltb_lt _ _) Hj0), (proj2 (Nat.ltb_lt _ _) Hlen). }
  eapply dir_unlink; [exact Hd|exact Hj|done|done|apply lookup_delete_eq| |].
  - intros i a y Hij Hi. pose proof (pages_no _ _ _ _ Hi) as Hin.
    pose proof (dir_range _ _ _ Hd _ _ Hin) as Hra.
    assert (Hne : forall i' a', pages.*1 !! i' = Some a' -> i' <> i ->
      getDirNodeIndex root a' <> getDirNodeIndex root a).
    { intros i' a' Hi' Hii. apply key_ne; [done|by eapply dir_range|done|by eapply dir_no_ne]. }
    eapply holds_frame; [apply lookup_delete_ne; by apply (Hne j)|].
    destruct (decide (i = S j)) as [->|HiS].
    { rewrite Hinx in Hi. injection Hi as <- <-. rewrite <- Hpv, decide_False by lia.
      by apply holds_insert_eq. }
    eapply holds_frame; [apply lookup_insert_ne; by apply (Hne (S j))|].
    destruct (decide (S i = j)) as [HSi|HSi].
    { replace (j - 1)%nat with i in * by lia. rewrite Hipv in Hi. injection Hi as <- <-.
      rewrite <- Hnx. by apply holds_insert_eq. }
    eapply holds_frame; [apply lookup_insert_ne; by apply (Hne (j - 1)%nat); [|lia]|].
    by apply (dir_pages _ _ _ Hd).
  - intros a Ha Hno.
    assert (Hne : forall i' a', pages.*1 !! i' = Some a' -> getDirNodeIndex root a' <> getDirNodeIndex root a).
    { intros i' a' Hi'. apply key_ne; [done|by eapply dir_range|done|].
      intros ->. by eapply Hno, list_elem_of_lookup_2. }
    rewrite lookup_delete_ne by (by eapply (Hne j)). by rewrite !lookup_insert_ne by (by eapply Hne).
Qed.

End tidy.

Lemma tidy_root s k ap0 pages j n p f keep (Q : TER -> St V -> Prop) :
  rep b d s k -> ap0 ⊆ ap k -> (forall a, 0 <= a < 2 ^ 64 -> ap0 !! getDirNodeIndex root a = None) ->
  dir (am k) root pages -> pages !! j = Some (n, []) -> ap k !! getDirNodeIndex root n = Some (p, f) ->
  (forall m' s', tabs s' = tabs s -> rep b d s' (mkKnow m' ap0 (loose k) (dirty k)) ->
     tidied (am k) m' (tidy keep j pages) -> Q tesSUCCESS s') ->
  j = 0%nat -> wpm (dirDelete_pages keep n root p) s Q.
Proof.
  intros Hr Hap Hfree Hd Hj Hp HQ ->. pose proof (dir_range _ _ _ Hd _ _ (pages_no _ _ _ _ Hj)) as Hn.
  destruct pages as [|p0 pages']; [done|]. simpl in Hj. assert (p0 = (n, [])) as -> by congruence.
  destruct (dir_last _ _ _ Hd) as (nl & esl & Hl & Hz0 & Hnl & Hnl0 & Hprev & _). simpl in Hz0. subst n.
  destruct (dir_pages _ _ _ Hd 0%nat _ _ eq_refl) as (o & He & Ho).
  destruct (page_get _ _ _ _ _ Ho) as (_ & Hgp & Hgn). rewrite Hprev in Hgp.
  unfold dirDelete_pages. apply wpm_bind. eapply get_rule; [done..|].
  apply wpm_bind. eapply get_rule; [done..|]. rewrite Z.eqb_refl. destruct (Z.eqb_spec nl 0) as [Hz|Hz].
  { assert (pages' = []) as -> by tauto.
    eapply (erase_page_rule _ _ ap0 0); [done|done|by apply Hfree|done|]. intros s1 Ht1 Hap1 Hr1.
    apply wpm_ret. eapply HQ; [done|by eapply rep_weaken|]. split; [intros i Hi; by apply delete_outside|].
    eapply dir_gone; [exact Hd|..].
    - intros [|i] a y; [|done]. intros [= <- <-]. apply lookup_delete_eq.
    - intros a Ha Hno. apply lookup_delete_ne. apply key_ne; [done..|]. intros <-. apply Hno. by left. }
  assert (Hmore : pages' <> []) by tauto.
  destruct keep; [eapply tidy_stay; [done..|]; unfold tidy; by destruct pages'|].
  destruct (Z.eqb_spec nl (next_no ((0, []) :: pages').*1 0)) as [Hnx|Hnx]; simpl.
  2: { eapply tidy_stay; [done..|]. unfold tidy. destruct pages' as [|p1 [|p2 pages']]; [done| |done].
       simpl in Hl. injection Hl as ->. by destruct Hnx. }
  assert (Hlen : length pages' = 1%nat).
  { destruct pages' as [|p1 [|p2 pages']]; [by simplify_eq/=|done|]. exfalso.
    pose proof (dir_sorted _ _ _ Hd 1 (S (S (length pages'))) p1.1 nl eq_refl
      (pages_no _ _ _ _ Hl) ltac:(simpl; lia)). unfold next_no in Hnx. simpl in Hnx. lia. }
  destruct pages' as [|p1 []]; [done| |done]. simpl in Hl. injection Hl as ->.
  unfold next_no. simpl. eapply (tidy_two _ _ _ _ 0%nat _ _ _ _ _ Hr Hap Hfree Hd Hj Hp HQ nl esl true); [done|done|done|done|by left].
Qed.

Lemma tidy_other s k ap0 pages j n p f keep (Q : TER -> St V -> Prop) :
  rep b d s k -> ap0 ⊆ ap k -> (forall a, 0 <= a < 2 ^ 64 -> ap0 !! getDirNodeIndex root a = None) ->
  dir (am k) root pages -> pages !! j = Some (n, []) -> ap k !! getDirNodeIndex root n = Some (p, f) ->
  (forall m' s', tabs s' = tabs s -> rep b d s' (mkKnow m' ap0 (loose k) (dirty k)) ->
     tidied (am k) m' (tidy keep j pages) -> Q tesSUCCESS s') ->
  (0 < j)%nat -> wpm (dirDelete_pages keep n root p) s Q.
Proof.
  intros Hr Hap Hfree Hd Hj Hp HQ Hj0. pose proof (pages_no _ _ _ _ Hj) as Hjn. pose proof (lookup_lt_Some _ _ _ Hj) as Hlen.
  destruct (lookup_lt_is_Some_2 pages 0) as [[r es0] H0]; [lia|].
  assert (r = 0) as ->.
  { destruct (dir_start _ _ _ Hd) as [Hn|Hn]; rewrite (pages_no _ _ _ _ H0) in Hn; congruence. }
  assert (0 < n) by (eapply (dir_sorted _ _ _ Hd 0 j); [by eapply pages_no|done|done]).
  pose proof (dir_range _ _ _ Hd _ _ Hjn) as Hn.
  destruct (dir_pages _ _ _ Hd _ _ _ Hj) as (o & He & Ho).
  destruct (page_get _ _ _ _ _ Ho) as (_ & Hgp & Hgn).
  unfold dirDelete_pages. apply wpm_bind. eapply get_rule; [done..|].
  apply wpm_bind. eapply get_rule; [done..|]. destruct (Z.eqb_spec n 0) as [|_]; [lia|].
  destruct (Z.eqb_spec (next_no pages.*1 j) 0) as [Hnx|Hnx]; simpl; last first.
  { eapply tidy_middle; [done..| |done|done]. destruct (decide (S j < length pages)%nat); [done|]. exfalso.
    apply Hnx. unfold next_no. by rewrite lookup_ge_None_2 by (rewrite length_fmap; lia). }
  assert (Hlast : S j = length pages).
  { destruct (decide (S j < length pages)%nat) as [Hlt|]; [exfalso|lia].
    destruct (lookup_lt_is_Some_2 pages.*1 (S j)) as [c Hc]; [rewrite length_fmap; lia|].
    pose proof (dir_sorted _ _ _ Hd j (S j) _ _ Hjn Hc ltac:(lia)). unfold next_no in Hnx. rewrite Hc in Hnx. simpl in Hnx. lia. }
  assert (Hstay : keep = true \/ length pages <> 2%nat -> tidy keep j pages = pages).
  { intros Hor. unfold tidy. rewrite Hj, (proj2 (Nat.eqb_neq (length pages) 1)), (proj2 (Nat.ltb_ge (S j) _)) by lia. rewrite andb_false_r.
    destruct Hor as [->|Hl2]; [done|]. by rewrite (proj2 (Nat.eqb_neq _ _) Hl2), andb_false_r. }
  destruct keep; [eapply tidy_stay; [done..|by apply Hstay; left]|].
  destruct (Z.eqb_spec (prev_no pages.*1 j) 0) as [Hpv|Hpv]; simpl.
  2: { eapply tidy_stay; [done..|]. apply Hstay. right. intros Hl2. assert (j = 1%nat) as -> by lia. apply Hpv.
       unfold prev_no. by rewrite (pages_no _ _ _ _ H0). }
  assert (j = 1%nat) as ->.
  { destruct j as [|[|i]]; [lia|done|]. exfalso.
    destruct (lookup_lt_is_Some_2 pages.*1 (S i)) as [c Hc]; [rewrite length_fmap; lia|].
    pose proof (dir_sorted _ _ _ Hd 0 (S i) _ _ (pages_no _ _ _ _ H0) Hc ltac:(lia)).
    unfold prev_no in Hpv. rewrite Hc in Hpv. simpl in Hpv. lia. }
  eapply (tidy_two _ _ _ _ 1%nat _ _ _ _ _ Hr Hap Hfree Hd Hj Hp HQ 0 es0 false); [done|done|lia|done|]. right. split; [|done].
  destruct pages as [|? [|? []]]; try done. simpl in H0, Hj. congruence.
Qed.

Lemma dirDelete_pages_rule s k ap0 pages j n p f keep (Q : TER -> St V -> Prop) :
  rep b d s k -> ap0 ⊆ ap k -> (forall a, 0 <= a < 2 ^ 64 -> ap0 !! getDirNodeIndex root a = None) ->
  dir (am k) root pages -> pages !! j = Some (n, []) -> ap k !! getDirNodeIndex root n = Some (p, f) ->
  (forall m' s', tabs s' = tabs s -> rep b d s' (mkKnow m' ap0 (loose k) (dirty k)) ->
     tidied (am k) m' (tidy keep j pages) -> Q tesSUCCESS s') ->
  wpm (dirDelete_pages keep n root p) s Q.
Proof.
  intros. destruct (decide (j = 0%nat)); [by eapply tidy_root|eapply tidy_other; try done; lia].
Qed.

(** The key [x] is gone: one occurrence of it, and with [bStable] the others
    keep their order. *)
Definition removed (bStable : bool) (x : Z) (l l' : list Z) : Prop :=
  l ≡ₚ x :: l' /\ (bStable = true -> exists l1 l2, l = l1 ++ x :: l2 /\ l' = l1 ++ l2).

Lemma remove_at_removed st it x es : es !! it = Some x -> removed st x es (remove_at st it es).
Proof.
  intros Hit. pose proof (lookup_lt_Some _ _ _ Hit) as Hlt.
  assert (Hmid : delete it es = take it es ++ drop (S it) es) by apply delete_take_drop.
  pose proof (take_drop_middle _ _ _ Hit) as Hes. unfold remove_at.
  destruct (Z.ltb_spec 1 (size es)) as [Hs|Hs]; unfold size in Hs.
  - destruct st.
    + split; [by apply delete_Permutation|]. intros _. exists (take it es), (drop (S it) es). done.
    + split; [|done]. destruct (lookup_lt_is_Some_2 es (length es - 1)) as [y Hy]; [lia|]. rewrite Hy. simpl.
      pose proof (take_drop_middle _ _ _ Hy) as Hes'. rewrite drop_ge in Hes' by lia.
      destruct (decide (it = length es - 1)%nat) as [->|Hne].
      * assert (x = y) as <- by congruence. rewrite list_insert_id by done.
        rewrite <- Hes' at 1. by rewrite Permutation_app_comm.
      * rewrite take_insert_lt by lia. set (front := take (length es - 1) es) in *.
        assert (front !! it = Some x) as Hf by (unfold front; rewrite lookup_take_lt by lia; done).
        rewrite <- Hes' at 1. rewrite Permutation_app_comm. simpl.
        rewrite (delete_Permutation front it x Hf) at 1.
        rewrite (delete_Permutation (<[it := y]> front) it y)
          by (apply list_lookup_insert_eq; by eapply lookup_lt_Some).
        replace (delete it (<[it := y]> front)) with (delete it front); [by apply perm_swap|].
        rewrite !delete_take_drop, take_insert_ge, drop_insert_lt by lia. done.
  - assert (es = [x]) as -> by (destruct es as [|? []]; destruct it; simplify_eq/=; try done; lia).
    split; [done|]. intros _. by exists [], [].
Qed.

Lemma remove_at_size st it x es : es !! it = Some x -> size (remove_at st it es) < size es.
Proof.
  intros Hit. destruct (remove_at_removed st it x es Hit) as [Hp _].
  apply Permutation_length in Hp. unfold size. rewrite Hp. simpl. lia.
Qed.

Lemma removed_entries st x pages j n es es' : pages !! j = Some (n, es) -> removed st x es es' ->
  removed st x (entries pages) (entries (<[j := (n, es')]> pages)).
Proof.
  intros Hj [Hp Hst]. destruct (split_at _ _ _ _ Hj) as (l1 & l2 & -> & <-).
  replace (length l1) with (length l1 + 0)%nat by lia. rewrite insert_app_r. simpl.
  rewrite !entries_app, !entries_cons. split.
  - rewrite Hp. simpl. symmetry. apply Permutation_middle.
  - intros Hs. destruct (Hst Hs) as (e1 & e2 & -> & ->).
    exists (entries l1 ++ e1), (e2 ++ entries l2). by rewrite <- !app_assoc.
Qed.

(** What a deletion does to the pages: the key is gone from the page at [j], the
    pages that are no longer needed are unlinked, and nothing else changes. *)
Definition deleted_from (keep bStable : bool) (m m' : gmap Z Entry) (pages : list (Z * list Z)) (j : nat) (n : Z) (es : list Z) (x : Z) : Prop :=
  (forall i, outside root i -> m' !! i = m !! i) /\
  exists es', removed bStable x es es' /\ dir m' root (tidy keep j (<[j := (n, es')]> pages)).

(** The same, of the directory as a list of keys. *)
Definition deleted (bStable : bool) (m m' : gmap Z Entry) (pages : list (Z * list Z)) (x : Z) : Prop :=
  (forall i, outside root i -> m' !! i = m !! i) /\
  exists pages', dir m' root pages' /\ removed bStable x (entries pages) (entries pages').

Lemma deleted_weaken keep st m m' pages j n es x : pages !! j = Some (n, es) ->
  deleted_from keep st m m' pages j n es x -> deleted st m m' pages x.
Proof.
  intros Hj [Hout (es' & Hrem & Hd)]. split; [done|]. eexists. split; [exact Hd|]. rewrite tidy_entries. by eapply removed_entries.
Qed.

Lemma dirDelete_found_rule s k ap0 pages j n es it p f o keep st x (Q : TER -> St V -> Prop) :
  rep b d s k -> ap0 ⊆ ap k -> (forall a, 0 <= a < 2 ^ 64 -> ap0 !! getDirNodeIndex root a = None) ->
  dir (am k) root pages -> pages !! j = Some (n, es) -> es !! it = Some x ->
  ap k !! getDirNodeIndex root n = Some (p, f) ->
  am k !! getDirNodeIndex root n = Some (page_entry root n o) ->
  page_of root (prev_no pages.*1 j) (next_no pages.*1 j) es o ->
  (forall m' s', tabs s' = tabs s -> rep b d s' (mkKnow m' ap0 (loose k) (dirty k)) ->
     deleted_from keep st (am k) m' pages j n es x -> Q tesSUCCESS s') ->
  wpm (dirDelete_found keep st n root p es it) s Q.
Proof.
  intros Hr Hap Hfree Hd Hj Hit Hp He Ho HQ. unfold dirDelete_found.
  pose proof (dir_range _ _ _ Hd _ _ (pages_no _ _ _ _ Hj)) as Hn.
  pose proof (remove_at_removed st _ _ _ Hit) as Hrem. pose proof (remove_at_size st _ _ _ Hit) as Hsz.
  pose proof (dir_size _ _ _ Hd _ _ _ Hj) as Hmax.
  set (es' := remove_at st it es) in *.
  destruct (page_set_indexes _ _ _ _ es' _ Ho) as (o' & Hs & Ho').
  eapply set_update_rule; [done..|]. intros s1 Ht1 Hr1. simpl in Hr1.
  assert (Hd' : dir (<[getDirNodeIndex root n := page_entry root n o']> (am k)) root
                  (<[j := (n, es')]> pages)) by (eapply dir_set_entries; [done..|lia|done]).
  assert (Hap' : ap0 ⊆ <[getDirNodeIndex root n := (p, true)]> (ap k)).
  { apply insert_subseteq_r; [by apply Hfree|done]. }
  assert (Hfin : forall m' s', tabs s' = tabs s -> rep b d s' (mkKnow m' ap0 (loose k) (dirty k)) ->
    tidied (<[getDirNodeIndex root n := page_entry root n o']> (am k)) m' (tidy keep j (<[j := (n, es')]> pages)) ->
    Q tesSUCCESS s').
  { intros m' s' Ht Hr' [Hout Hdir]. eapply HQ; [done|exact Hr'|]. split.
    - intros i Hi. rewrite Hout by done. apply lookup_insert_ne. symmetry. by apply Hi.
    - by exists es'. }
  destruct (Z.eqb_spec (size es') 0) as [Hz|Hz].
  - assert (Hnil : es' = []) by (destruct es'; [done|unfold size in Hz; simpl in Hz; lia]).
    eapply dirDelete_pages_rule; [exact Hr1|exact Hap'|done|exact Hd'| |by apply lookup_insert_eq|].
    + rewrite list_lookup_insert_eq by (by eapply lookup_lt_Some). by rewrite Hnil.
    + intros m' s' Ht. apply Hfin. congruence.
  - apply wpm_ret. eapply Hfin; [done|by eapply rep_weaken|].
    assert (tidy keep j (<[j := (n, es')]> pages) = <[j := (n, es')]> pages) as ->; [|by apply tidied_same].
    unfold tidy. rewrite list_lookup_insert_eq by (by eapply lookup_lt_Some). by destruct es'.
Qed.

(** Looking at a page, which may not be there. *)
Lemma dirDelete_step fuel s k ap0 pages u keep st soft x (Q : TER -> St V -> Prop) :
  rep b d s k -> ap0 ⊆ ap k -> (forall a, 0 <= a < 2 ^ 64 -> ap0 !! getDirNodeIndex root a = None) ->
  dir (am k) root pages -> 0 <= u < 2 ^ 64 ->
  (forall j es, pages !! j = Some (u, es) -> x ∈ es ->
     forall m' s', tabs s' = tabs s -> rep b d s' (mkKnow m' ap0 (loose k) (dirty k)) ->
     deleted_from keep st (am k) m' pages j u es x -> Q tesSUCCESS s') ->
  ((forall j es, pages !! j = Some (u, es) -> x ∉ es) ->
     forall s' ap', tabs s' = tabs s -> ap0 ⊆ ap' ->
     rep b d s' (mkKnow (am k) ap' (loose k) (dirty k)) ->
     wpm (if negb soft then _ ← assert false; mret tefBAD_LEDGER
          else if u <? 20 then dirDelete_from fuel keep (u + 1) root x st true
          else mret tefBAD_LEDGER) s' Q) ->
  wpm (dirDelete_from (S fuel) keep u root x st soft) s Q.
Proof.
  intros Hr Hap Hfree Hd Hu Hhere Hnot. simpl. apply wpm_bind.
  destruct (decide (u ∈ pages.*1)) as [(j & Hj)%list_elem_of_lookup_1|Hno].
  - destruct (no_page _ _ _ Hj) as [es Hes].
    eapply peek_page_rule; [done|done|by apply (dir_pages _ _ _ Hd)|]. intros p f o s1 Ht1 He Ho _ Hr1.
    destruct (page_get _ _ _ _ _ Ho) as (Hg & _).
    apply wpm_bind. eapply get_rule; [exact Hr1|by apply lookup_insert_eq|done|done|].
    assert (Hap1 : ap0 ⊆ <[getDirNodeIndex root u := (p, f)]> (ap k)).
    { apply insert_subseteq_r; [by apply Hfree|done]. }
    destruct (list_find (eq x) es) as [[it y]|] eqn:Hfind.
    + apply list_find_Some in Hfind as (Hit & <- & _).
      eapply dirDelete_found_rule; [exact Hr1|exact Hap1|done|exact Hd|done|done|by apply lookup_insert_eq|done|done|].
      intros m' s' Ht. eapply Hhere; [done| |congruence]. by eapply list_elem_of_lookup_2.
    + eapply Hnot; [|done|exact Hap1|exact Hr1]. intros j' es' Hj' Hx.
      destruct (decide (j' = j)) as [->|Hne].
      * assert (es' = es) as -> by congruence. apply list_find_None in Hfind.
        rewrite list.Forall_forall in Hfind. by apply (Hfind x).
      * by eapply (dir_no_ne root _ _ j' j u u Hd); [by eapply pages_no|done|done|].
  - eapply peek_none_rule; [done|by apply Hroot|by apply (dir_others _ _ _ Hd)|].
    eapply (Hnot _ _ (ap k)); [done|done|by destruct k].
    Unshelve. intros j es Hj _. by eapply Hno, list_elem_of_lookup_2, pages_no.
Qed.

(** The key is in the page [n], and in none that is looked at before. *)
Lemma dirDelete_at_rule fuel : forall s k ap0 pages j n es u keep st soft x (Q : TER -> St V -> Prop),
  rep b d s k -> ap0 ⊆ ap k -> (forall a, 0 <= a < 2 ^ 64 -> ap0 !! getDirNodeIndex root a = None) ->
  dir (am k) root pages -> pages !! j = Some (n, es) -> x ∈ es ->
  0 <= u -> u = n \/ u <= n <= 20 /\ soft = true ->
  (forall i a y, pages !! i = Some (a, y) -> u <= a < n -> x ∉ y) -> n - u < Z.of_nat fuel ->
  (forall m' s', tabs s' = tabs s -> rep b d s' (mkKnow m' ap0 (loose k) (dirty k)) ->
     deleted_from keep st (am k) m' pages j n es x -> Q tesSUCCESS s') ->
  wpm (dirDelete_from fuel keep u root x st soft) s Q.
Proof.
  induction fuel as [|fuel IH]; intros s k ap0 pages j n es u keep st soft x Q
    Hr Hap Hfree Hd Hj Hx Hu Hun Hbefore Hfuel HQ; [lia|].
  pose proof (dir_range _ _ _ Hd _ _ (pages_no _ _ _ _ Hj)) as Hn.
  eapply dirDelete_step; [done..|lia| |].
  { intros i y Hi Hxy m' s' Ht Hr' Hdel. destruct (decide (u = n)) as [->|Hne].
    - assert (i = j) as -> by (destruct (decide (i = j)) as [|Hij]; [done|]; exfalso;
        by eapply (dir_no_ne root _ _ i j n n Hd); [by eapply pages_no|by eapply pages_no|done|]).
      assert (y = es) as -> by congruence. by eapply HQ.
    - exfalso. eapply (Hbefore _ _ _ Hi); [lia|done]. }
  intros Hnot s1 ap1 Ht1 Hap1 Hr1. assert (u <> n) by (intros ->; by eapply Hnot).
  destruct Hun as [|[Hle ->]]; [done|]. simpl. destruct (Z.ltb_spec u 20); [|lia].
  eapply IH; [exact Hr1|exact Hap1|done|exact Hd|done|done|lia| | |lia|].
  - destruct (decide (u + 1 = n)); [by left|]. right. split; [lia|done].
  - intros i a y Hi Ha. eapply Hbefore; [done|lia].
  - intros m' s' Ht. apply HQ. congruence.
Qed.

Lemma dirDelete_rule fuel s k ap0 pages j n es u keep st soft x (Q : TER -> St V -> Prop) :
  rep b d s k -> ap0 ⊆ ap k -> (forall a, 0 <= a < 2 ^ 64 -> ap0 !! getDirNodeIndex root a = None) ->
  dir (am k) root pages -> pages !! j = Some (n, es) -> x ∈ es ->
  0 <= u -> u = n \/ u <= n <= 20 /\ soft = true ->
  (forall i a y, pages !! i = Some (a, y) -> u <= a < n -> x ∉ y) -> n - u < Z.of_nat fuel ->
  (forall m' s', tabs s' = tabs s -> rep b d s' (mkKnow m' ap0 (loose k) (dirty k)) ->
     deleted st (am k) m' pages x -> Q tesSUCCESS s') ->
  wpm (dirDelete_from fuel keep u root x st soft) s Q.
Proof. intros. eapply dirDelete_at_rule; [done..|]. intros. eauto using deleted_weaken. Qed.

(** The key is in none of the pages a soft deletion looks at. *)
Lemma dirDelete_none_rule fuel : forall s k ap0 pages u keep st x (Q : TER -> St V -> Prop),
  rep b d s k -> ap0 ⊆ ap k -> (forall a, 0 <= a < 2 ^ 64 -> ap0 !! getDirNodeIndex root a = None) ->
  dir (am k) root pages -> 0 <= u < 2 ^ 64 -> (Z.to_nat (20 - u) < fuel)%nat ->
  (forall i a y, pages !! i = Some (a, y) -> u <= a <= Z.max u 20 -> x ∉ y) ->
  (forall s', tabs s' = tabs s -> rep b d s' (mkKnow (am k) ap0 (loose k) (dirty k)) ->
     Q tefBAD_LEDGER s') ->
  wpm (dirDelete_from fuel keep u root x st true) s Q.
Proof.
  induction fuel as [|fuel IH]; intros s k ap0 pages u keep st x Q Hr Hap Hfree Hd Hu Hfuel Hno HQ; [lia|].
  eapply dirDelete_step; [done..| |].
  { intros j es Hj Hx. exfalso. eapply Hno; [done|lia|done]. }
  intros _ s1 ap1 Ht1 Hap1 Hr1. simpl. destruct (Z.ltb_spec u 20).
  - eapply IH; [exact Hr1|exact Hap1|done|exact Hd|lia|lia| |].
    + intros i a y Hi Ha. eapply Hno; [done|lia].
    + intros s' Ht. apply HQ. congruence.
  - apply wpm_ret. apply HQ; [done|]. by eapply rep_weaken.
Qed.

End rules.

(** ** The theorems *)

Lemma empty_free a : (∅ : gmap Z (loc * bool)) !! getDirNodeIndex root a = None.
Proof. apply lookup_empty. Qed.

(** C32: [dirAdd] appends.  On a view that holds a directory, the key becomes the
    last one of the directory, in a page whose number is returned; only pages
    of this directory change.  It fails, changing nothing, only when the last
    page is full and has the greatest number. *)
Theorem dirAdd_appends (s : St V) pages x g : good (av s) -> describes g ->
  dir (contents (av s)) root pages -> exists r n s',
    dirAdd root x (fun p c => set p (g c)) s = Ok ((r, n), s') /\
    good (av s') /\ untouched s s' /\ added (contents (av s)) (contents (av s')) pages x r n.
Proof.
  intros Hg Hdes Hd. destruct (wpm_view (dirAdd root x (fun p c => set p (g c))) s
    (fun a m => added (contents (av s)) m pages x a.1 a.2)) as ([r n] & s' & ?); [done| |by exists r, n, s'].
  intros b d Hr. eapply dirAdd_rule; [done..|intros; apply empty_free|].
  intros r n m' s' Ht Hr' Ha. by apply (settled b d s s' _ _ _ (fun m => added (contents (av s)) m pages x r n) Ht Hr').
Qed.

(** C33: [dirDelete] removes one occurrence of the key, from the page it is told
    or, when soft, from the first page up to number 20 that has the key; the other
    keys of that page stay, in their order if [bStable].  If this leaves the page
    empty, it is unlinked when it lies between two others; a directory of one page
    is gone; one of two pages is gone when the other is empty too and the root is
    not to be kept; in the other cases all pages stay.  The pages that stay are
    linked to each other again, and nothing else changes. *)
Theorem dirDelete_removes (s : St V) pages j n es u keep st soft x : good (av s) ->
  dir (contents (av s)) root pages -> pages !! j = Some (n, es) -> x ∈ es -> 0 <= u ->
  u = n \/ u <= n <= 20 /\ soft = true ->
  (forall i a y, pages !! i = Some (a, y) -> u <= a < n -> x ∉ y) -> exists s' es',
    dirDelete keep u root x st soft s = Ok (tesSUCCESS, s') /\ good (av s') /\ untouched s s' /\
    removed st x es es' /\ dir (contents (av s')) root (tidy keep j (<[j := (n, es')]> pages)) /\
    (forall i, outside root i -> contents (av s') !! i = contents (av s) !! i).
Proof.
  intros Hg Hd Hj Hx Hu Hun Hbefore. destruct (wpm_view (dirDelete keep u root x st soft) s
    (fun r m => r = tesSUCCESS /\ deleted_from keep st (contents (av s)) m pages j n es x)) as (r & s' & Hrun & Hg' & Hut & -> & Hout & es' & Hrem & Hdir);
    [done| |by exists s', es'].
  intros b d Hr. eapply dirDelete_at_rule; [exact Hr|done|intros; apply empty_free|done..|lia|].
  intros m' s' Ht Hr' Ha. by apply (settled b d s s' _ _ _ (fun m => _ = _ /\ deleted_from keep st (contents (av s)) m pages j n es x) Ht Hr').
Qed.

(** A soft deletion of a key that no page up to number 20 has ends with
    [tefBAD_LEDGER], and the view shows what it showed. *)
Theorem dirDelete_missing (s : St V) pages u keep st x : good (av s) ->
  dir (contents (av s)) root pages -> 0 <= u < 2 ^ 64 ->
  (forall i a y, pages !! i = Some (a, y) -> u <= a <= Z.max u 20 -> x ∉ y) -> exists s',
    dirDelete keep u root x st true s = Ok (tefBAD_LEDGER, s') /\
    good (av s') /\ untouched s s' /\ contents (av s') = contents (av s).
Proof.
  intros Hg Hd Hu Hno. destruct (wpm_view (dirDelete keep u root x st true) s
    (fun r m => r = tefBAD_LEDGER /\ m = contents (av s))) as (r & s' & ? & ? & ? & -> & ?);
    [done| |by exists s'].
  intros b d Hr. eapply dirDelete_none_rule; [exact Hr|done|intros; apply empty_free|done|done|lia|done|].
  intros s' Ht Hr'. by apply (settled b d s s' _ _ _ (fun m => _ = _ /\ m = contents (av s)) Ht Hr').
Qed.

End programs.

(** ** An example: the owner directory of the account 7, with the keys 5 and 6 *)

Module Examples.

#[export] Instance debug : Build := {| NDEBUG := false |}.
#[local] Existing Instance IdealHash.ideal.
#[local] Existing Instance IdealHash.ideal_laws.

Definition root7 : Z := getOwnerDirIndex 7.

Definition page56 : STObject :=
  match (sle ← make_SLE (page root7 0); o ← setFieldH256 sfRootIndex root7 (fields sle);
         setFieldV256 sfIndexes [5; 6] o) with Ok o => o | _ => ∅ end.

Definition ledger56 : Ledger.t STObject :=
  Ledger.mk {[ getDirNodeIndex root7 0 := page_entry root7 0 page56 ]} ∅ info0.

Definition start56 : St (Ledger.t STObject) := mkSt (ApplyView.make ledger56) [].

Lemma root7_pages : pages_distinct root7.
Proof. apply ownerDir_pages. Qed.

Lemma root7_keys n : getDirNodeIndex root7 n <> 0.
Proof.
  unfold getDirNodeIndex. case_if; [by vm_compute|]. apply Z.neq_sym, Z.lt_neq, sha_pos.
  apply bytes_app; [|apply bytes_app]; apply Serializer.be_bytes_bytes.
Qed.

Lemma page56_of : page_of root7 0 0 [5; 6] page56.
Proof.
  unfold page56. destruct (make_page_entry root7 0) as (o & o' & -> & Ho & Hp). simpl. rewrite Ho. simpl.
  by destruct (page_set_indexes _ _ _ _ [5; 6] _ Hp) as (o2 & -> & ?).
Qed.

Lemma ledger56_dir : dir (contents ledger56) root7 [(0, [5; 6])].
Proof.
  simpl contents. rewrite <- insert_empty. apply dir_new_root; [apply root7_pages| |done|apply page56_of].
  split; simpl; try done; by left.
Qed.

Lemma ledger56_good : good ledger56.
Proof.
  split; [|done]. intros i s Hs. simpl in Hs. apply lookup_singleton_Some in Hs as [<- <-].
  split; [done|apply root7_keys].
Qed.

Lemma start56_good : good (av start56).
Proof. apply ApplyView.make_good, ledger56_good. Qed.

Lemma start56_dir : dir (contents (av start56)) root7 [(0, [5; 6])].
Proof.
  destruct (ApplyView.make_good ledger56 ledger56_good) as (_ & Hc & _).
  unfold start56. simpl av. rewrite Hc. apply ledger56_dir.
Qed.

(** The description of an owner directory. *)
Definition owner7 (_ : bool) : STObject -> result STObject := setAccountID sfOwner 7.

Lemma owner7_describes : describes root7 owner7.
Proof.
  intros c prev next es o Ho. unfold owner7, setAccountID.
  destruct (page_set _ _ _ _ _ sfOwner (ACC 7) Ho) as [-> Hp];
    [by apply (bool_decide_unpack _); vm_compute|done|].
  eexists. split; [done|]. destruct Ho as [Hi Hr _ Hpr Hn].
  split; unfold u64_at in *; by simplify_map_eq.
Qed.

Lemma dirAdd_appends_witness : exists r n s',
  dirAdd root7 9 (fun p c => set p (owner7 c)) start56 = Ok ((r, n), s') /\ good (av s') /\
  untouched start56 s' /\ added root7 (contents (av start56)) (contents (av s')) [(0, [5; 6])] 9 r n.
Proof.
  apply (dirAdd_appends root7 root7_pages start56 [(0, [5; 6])] 9 owner7);
    [apply start56_good|apply owner7_describes|apply start56_dir].
Defined.

Lemma dirDelete_removes_witness : exists s' es',
  dirDelete false 0 root7 6 true true start56 = Ok (tesSUCCESS, s') /\ good (av s') /\
  untouched start56 s' /\ removed true 6 [5; 6] es' /\
  dir (contents (av s')) root7 (tidy false 0 (<[0%nat := (0, es')]> [(0, [5; 6])])) /\
  (forall i, outside root7 i -> contents (av s') !! i = contents (av start56) !! i).
Proof.
  apply (dirDelete_removes root7 root7_pages start56 [(0, [5; 6])] 0 0 [5; 6] 0 false true true 6);
    [apply start56_good|apply start56_dir|done|by right; left|done|by left|lia].
Defined.

Lemma dirDelete_missing_witness : exists s',
  dirDelete false 0 root7 8 true true start56 = Ok (tefBAD_LEDGER, s') /\ good (av s') /\
  untouched start56 s' /\ contents (av s') = contents (av start56).
Proof.
  apply (dirDelete_missing root7 root7_pages start56 [(0, [5; 6])] 0 false true 8);
    [apply start56_good|apply start56_dir|done|].
  intros [|i] a y; [|done]. intros [= <- <-] _.
  apply (bool_decide_unpack _). vm_compute. exact I.
Defined.

End Examples.
End Directory.
