(* ===== verification/DirWalk.v ===== *)
(** * Walking over directories

    The iteration functions of ledger/impl/View.cpp give the keys of a
    directory in order and stop; the walk on an [ApplyView] agrees with the one
    on a read-only view. *)

From stdpp Require Import base tactics numbers list strings gmap sorting option.
From S2P Require Import Prelude Decimal IOUAmount BigNum Serializer STAmount.
From S2P Require Import View StateTable ApplyStateTable Fields Indexes PaymentSandbox ViewOps Directory.

Module DirWalk.
Import Fields ViewOps Indexes Directory.

Section walk.
Context `{Build} {SHA : SHA512Half} {V : Type} {RV : ReadView STObject V}.
Context {VM : ViewModel STObject V} {RL : ReadViewLaws STObject V}.

(** The loop of a client: [do ... while (cdirNext (...))]. *)
Fixpoint cdirRest (steps fuel : nat) (view : V) (root : Z) (c : Cursor Entry) : result (list Z) :=
  match steps with
  | O => OutOfFuel
  | S steps =>
      r ← cdirNext fuel view root c;
      if r.1 : bool then rest ← cdirRest steps fuel view root r.2; Ok (uEntryIndex r.2 :: rest)
      else Ok []
  end.

Definition cdirAll (steps fuel : nat) (view : V) (root : Z) : result (list Z) :=
  r ← cdirFirst fuel view root 0;
  if r.1 : bool then rest ← cdirRest steps fuel view root r.2; Ok (uEntryIndex r.2 :: rest) else Ok [].

Section spec.
Variables (view : V) (root : Z) (pages : list (Z * list Z)).
Hypotheses (Hv : good view) (Hroot : pages_distinct root) (Hd : dir (contents view) root pages).

(** The cursor is in page [j] and [rest] is still to come. *)
Record ahead (j : nat) (c : Cursor Entry) (rest : list Z) : Prop := mkAhead {
  ahead_page : exists n es o, pages !! j = Some (n, es) /\ sleNode c = page_entry root n o /\
    page_of root (prev_no pages.*1 j) (next_no pages.*1 j) es o /\
    rest = drop (Z.to_nat (uDirEntry c)) es ++ entries (drop (S j) pages) /\
    0 <= uDirEntry c <= size es }.

Lemma read_page j n es : pages !! j = Some (n, es) -> exists o,
  View.vread view (page root n) = Ok (Some (page_entry root n o)) /\
  page_of root (prev_no pages.*1 j) (next_no pages.*1 j) es o.
Proof.
  intros Hj. destruct (dir_pages _ _ _ Hd _ _ _ Hj) as (o & He & Ho). exists o. split; [|done].
  rewrite read_law by (done || by apply Hroot; eapply dir_range; [exact Hd|by eapply pages_no]).
  simpl. rewrite He. unfold Keylet.checked. by rewrite page_check.
Qed.

(** One step: the next key, or the end. *)
Lemma cdirNext_spec fuel : forall j c rest, (length pages - j <= fuel)%nat -> (0 < fuel)%nat ->
  ahead j c rest ->
  match rest with
  | [] => exists c', cdirNext fuel view root c = Ok (false, c') /\ uEntryIndex c' = 0
  | x :: rest => exists j' c', cdirNext fuel view root c = Ok (true, c') /\
      uEntryIndex c' = x /\ (j <= j')%nat /\ ahead j' c' rest
  end.
Proof.
  induction fuel as [|fuel IH]; intros j [e i z] rest Hf Hf0 [(n & es & o & Hj & He & Ho & -> & Hi)]; [lia|].
  simpl in *. subst e. pose proof (lookup_lt_Some _ _ _ Hj) as Hlen.
  destruct (page_get _ _ _ _ _ Ho) as (Hes & _ & Hnx). pose proof (dir_size _ _ _ Hd _ _ _ Hj) as Hsz.
  change (fields (page_entry root n o)) with o in *.
  unfold size, DIR_NODE_MAX in *. rewrite Hes. simpl. unfold Keylet.assert.
  destruct (Z.leb_spec i (Z.of_nat (length es))); [|lia]. rewrite andb_false_r. simpl.
  destruct (es !! Z.to_nat i) as [x|] eqn:Hx.
  - rewrite (drop_S _ _ _ Hx). simpl. exists j. eexists. split; [done|]. split; [done|]. split; [lia|].
    apply lookup_lt_Some in Hx. split. exists n, es, o. unfold size. simpl.
    rewrite u32_id by lia. replace (Z.to_nat (i + 1)) with (S (Z.to_nat i)) by lia. split_and!; try done; lia.
  - rewrite drop_ge by (by apply lookup_ge_None). simpl. rewrite Hnx. simpl. unfold next_no.
    rewrite list_lookup_fmap. destruct (pages !! S j) as [[n' es']|] eqn:HS; simpl.
    + pose proof (dir_sorted _ _ _ Hd j (S j) n n' (pages_no _ _ _ _ Hj) (pages_no _ _ _ _ HS) ltac:(lia)).
      pose proof (dir_range _ _ _ Hd _ _ (pages_no _ _ _ _ Hj)).
      destruct (Z.eqb_spec n' 0); [lia|]. destruct (read_page _ _ _ HS) as (o' & -> & Ho'). simpl.
      rewrite (drop_S _ _ _ HS), entries_cons. pose proof (lookup_lt_Some _ _ _ HS) as HSl.
      specialize (IH (S j) (mkCursor (page_entry root n' o') 0 z) (es' ++ entries (drop (S (S j)) pages))
        ltac:(lia) ltac:(lia)).
      assert (Ha : ahead (S j) (mkCursor (page_entry root n' o') 0 z) (es' ++ entries (drop (S (S j)) pages))).
      { split. exists n', es', o'. simpl. split_and!; try done; try lia. unfold size. lia. }
      specialize (IH Ha). destruct (es' ++ _); [done|].
      destruct IH as (j' & c' & ? & ? & ? & ?). exists j', c'. split_and!; try done. lia.
    + rewrite (drop_ge pages) by (by apply lookup_ge_None). by eexists.
Qed.

Lemma cdirRest_spec fuel : (length pages <= fuel)%nat -> forall steps j c rest,
  (length rest < steps)%nat -> ahead j c rest -> cdirRest steps fuel view root c = Ok rest.
Proof.
  intros Hf. induction steps as [|steps IH]; intros j c rest Hs Hc; [lia|]. simpl.
  assert (0 < fuel)%nat.
  { destruct Hc as [(n & es & o & Hj & _)]. apply lookup_lt_Some in Hj. lia. }
  pose proof (cdirNext_spec fuel j c rest ltac:(lia) ltac:(lia) Hc) as Hn. destruct rest as [|x rest].
  - destruct Hn as (c' & -> & _). done.
  - destruct Hn as (j' & c' & -> & Hx & _ & Hc'). simpl. rewrite (IH j' c' rest); [by rewrite Hx| |done].
    simpl in Hs. lia.
Qed.

Lemma cdirAll_spec : pages <> [] ->
  cdirAll (length (entries pages)) (length pages) view root = Ok (entries pages).
Proof.
  intros Hne. assert (exists p0 pages', pages = p0 :: pages') as (p0 & pages' & Ep).
  { clear Hd. destruct pages as [|p0 pages']; [done|by exists p0, pages']. }
  assert (Hj : pages !! 0%nat = Some (0, p0.2)).
  { destruct (dir_start _ _ _ Hd) as [Hs|Hs]; rewrite Ep in Hs |- *; [done|].
    destruct p0. by simplify_eq/=. }
  unfold cdirAll, cdirFirst. destruct (read_page _ _ _ Hj) as (o & -> & Ho). simpl.
  unfold Keylet.assert. rewrite andb_false_r. simpl.
  assert (Hc : ahead 0 (mkCursor (page_entry root 0 o) 0 0) (entries pages)).
  { split. exists 0, p0.2, o. simpl. split_and!; try done; [|unfold size; lia].
    rewrite Ep. simpl. by destruct p0. }
  pose proof (lookup_lt_Some _ _ _ Hj) as Hlen.
  pose proof (cdirNext_spec (length pages) 0 _ _ ltac:(lia) ltac:(lia) Hc) as Hn.
  destruct (entries pages) as [|x rest]; [by destruct Hn as (c' & -> & _)|].
  destruct Hn as (j' & c' & -> & Hx & _ & Hc'). cbn -[cdirRest length].
  rewrite (cdirRest_spec (length pages) ltac:(lia) (length (x :: rest)) j' c' rest ltac:(simpl; lia) Hc').
  simpl. by rewrite Hx.
Qed.

(** The keys of one page, each read once. *)
Lemma read_children (f : Z -> option Entry) keys : forall acc,
  (forall x, x ∈ keys -> View.vread view (child x) = Ok (f x)) ->
  foldM (fun acc key => e ← View.vread view (child key); Ok (acc ++ [e])) acc keys =
    Ok (acc ++ (f <$> keys)).
Proof.
  induction keys as [|x keys IH]; intros acc Hf; simpl; [by rewrite app_nil_r|].
  rewrite Hf by left. simpl. rewrite IH by (intros y Hy; apply Hf; by right). by rewrite <- app_assoc.
Qed.

Lemma forEachItem_from_spec (f : Z -> option Entry) fuel : forall j n es pos,
  (length pages - j <= fuel)%nat -> pages !! j = Some (n, es) ->
  (forall x, x ∈ entries (drop j pages) -> View.vread view (child x) = Ok (f x)) ->
  View.vread view pos = View.vread view (page root n) ->
  forEachItem_from fuel view root pos = Ok (f <$> entries (drop j pages)).
Proof.
  induction fuel as [|fuel IH]; intros j n es pos Hf Hj Hx Hpos;
    pose proof (lookup_lt_Some _ _ _ Hj) as Hlen; [lia|].
  simpl. rewrite Hpos. destruct (read_page _ _ _ Hj) as (o & -> & Ho). simpl.
  destruct (page_get _ _ _ _ _ Ho) as (Hes & _ & Hnx). rewrite Hes. simpl.
  rewrite (drop_S _ _ _ Hj), entries_cons in Hx |- *.
  rewrite (read_children f) by (intros x ?; apply Hx, elem_of_app; by left). simpl.
  rewrite Hnx, fmap_app. simpl. unfold next_no. rewrite list_lookup_fmap.
  destruct (pages !! S j) as [[n' es']|] eqn:HS; simpl.
  - pose proof (dir_sorted _ _ _ Hd j (S j) n n' (pages_no _ _ _ _ Hj) (pages_no _ _ _ _ HS) ltac:(lia)).
    pose proof (dir_range _ _ _ Hd _ _ (pages_no _ _ _ _ Hj)).
    destruct (Z.eqb_spec n' 0); [lia|]. rewrite (IH (S j) n' es'); [done|lia|done| |done].
    intros x ?. apply Hx, elem_of_app. by right.
  - rewrite (drop_ge pages) by (by apply lookup_ge_None). by rewrite app_nil_r.
Qed.

Lemma dirIsEmpty_spec : dirIsEmpty view (page root 0) =
  Ok (match pages with [] | [(_, [])] => true | _ => false end).
Proof.
  unfold dirIsEmpty. destruct (pages !! 0%nat) as [[n es]|] eqn:Hj.
  - assert (n = 0) as ->.
    { destruct (dir_start _ _ _ Hd) as [Hs|Hs]; rewrite (pages_no _ _ _ _ Hj) in Hs; congruence. }
    destruct (read_page _ _ _ Hj) as (o & -> & Ho). simpl.
    destruct (page_get _ _ _ _ _ Ho) as (Hes & _ & Hnx). rewrite Hes. simpl.
    destruct (Z.eqb_spec (size es) 0) as [Hz|Hz]; unfold size in Hz; simpl.
    + rewrite Hnx. simpl. destruct es; [|simpl in Hz; lia]. f_equal. unfold next_no.
      rewrite list_lookup_fmap. destruct (pages !! 1%nat) as [[n' es']|] eqn:HS; simpl.
      * pose proof (dir_sorted _ _ _ Hd 0 1 0 n' (pages_no _ _ _ _ Hj) (pages_no _ _ _ _ HS) ltac:(lia)).
        destruct (Z.eqb_spec n' 0); [lia|]. clear Hd. destruct pages as [|[? []] []]; by simplify_eq/=.
      * clear Hd Ho Hnx. destruct pages as [|[? []] []]; by simplify_eq/=.
    + clear Hd Ho. destruct pages as [|[? []] []]; by simplify_eq/=.
  - rewrite read_law by (done || by apply Hroot). simpl.
    rewrite (dir_others _ _ _ Hd); [|done|].
    + clear Hd. by destruct pages.
    + clear Hd. destruct pages; [apply not_elem_of_nil|done].
Qed.

End spec.

(** [forEachItem] calls its function on what the view shows for each key of
    the owner directory, in order and each once, and ends. *)
Theorem forEachItem_visits (view : V) (id : Z) (pages : list (Z * list Z)) (f : Z -> option Entry) :
  good view -> pages_distinct (getOwnerDirIndex id) ->
  dir (contents view) (getOwnerDirIndex id) pages ->
  (forall x, x ∈ entries pages -> View.vread view (child x) = Ok (f x)) ->
  forEachItem (S (length pages)) view id = Ok (f <$> entries pages).
Proof.
  intros Hv Hr Hd Hx. unfold forEachItem. destruct pages as [|[n es] pages'] eqn:Ep.
  - simpl. rewrite read_law by (done || by apply (proj1 Hr 0)). simpl.
    pose proof (dir_others _ _ _ Hd 0 ltac:(done) ltac:(apply not_elem_of_nil)) as Hn.
    change (getDirNodeIndex (getOwnerDirIndex id) 0) with (getOwnerDirIndex id) in Hn. by rewrite Hn.
  - rewrite <- Ep in *. assert (Hj : pages !! 0%nat = Some (n, es)) by (by rewrite Ep).
    assert (n = 0) as ->.
    { destruct (dir_start _ _ _ Hd) as [Hs|Hs]; rewrite (pages_no _ _ _ _ Hj) in Hs; congruence. }
    eapply (forEachItem_from_spec view _ pages Hv Hr Hd f _ 0); [lia|done|done|done].
Qed.

(** C38: walking over a directory with [cdirFirst] and [cdirNext] gives its keys
    in order, each once, and ends: one call per key and one more, each looking
    at no more pages than there are. *)
Theorem cdir_enumerates (view : V) (root : Z) (pages : list (Z * list Z)) : good view ->
  pages_distinct root -> dir (contents view) root pages -> pages <> [] ->
  cdirAll (length (entries pages)) (length pages) view root = Ok (entries pages).
Proof. apply cdirAll_spec. Qed.

End walk.

(** ** The walk on an [ApplyView] *)

Section apply.
Context `{Build} {SHA : SHA512Half} {V : Type} {RV : ReadView STObject V}.
Context {VM : ViewModel STObject V} {RL : ReadViewLaws STObject V}.

(** The loop of a client of [dirFirst] and [dirNext]. *)
Fixpoint dirRest (steps fuel : nat) (root : Z) (c : Cursor loc) : M V (list Z) :=
  match steps with
  | O => lift OutOfFuel
  | S steps =>
      r ← dirNext fuel root c;
      if r.1 : bool then rest ← dirRest steps fuel root r.2; mret (uEntryIndex r.2 :: rest)
      else mret []
  end.

Definition dirAll (steps fuel : nat) (root : Z) : M V (list Z) :=
  r ← dirFirst fuel root 0;
  if r.1 : bool then rest ← dirRest steps fuel root r.2; mret (uEntryIndex r.2 :: rest) else mret [].

Section agree.
Context {W : Type} {RW : ReadView STObject W}.
Variables (b : V) (d : Z * Z) (w : W) (root : Z) (m : gmap Z Entry).
Hypotheses (Hkeys : forall n, getDirNodeIndex root n <> 0)
  (Hw : forall kl, Keylet.key kl <> 0 -> View.vread w kl = Keylet.checked kl (m !! Keylet.key kl)).

(** The two cursors stand at the same place, the view showing [m]. *)
Definition same_place (s s' : St V) (c : Cursor Entry) (c' : Cursor loc) : Prop :=
  tabs s' = tabs s /\ uDirEntry c' = uDirEntry c /\ uEntryIndex c' = uEntryIndex c /\
  exists k f, rep b d s' k /\ am k = m /\ dirty k = ApplyStateTable.none /\
    ap k !! sle_key (sleNode c) = Some (sleNode c', f) /\ m !! sle_key (sleNode c) = Some (sleNode c).

Lemma checked_some kl (found : option Entry) e : Keylet.checked kl found = Ok (Some e) ->
  found = Some e /\ Keylet.check kl e = Ok true.
Proof.
  destruct found as [e'|]; simpl; [|done].
  destruct (Keylet.check kl e') as [[]| |] eqn:Hck; simpl; try done. by intros [= <-].
Qed.

Lemma peek_agrees (s s1 : St V) k kl r (Q : option loc -> St V -> Prop) :
  rep b d s1 k -> am k = m -> dirty k = ApplyStateTable.none -> tabs s1 = tabs s ->
  Keylet.key kl <> 0 -> View.vread w kl = Ok r ->
  match r with
  | None => Q None s1
  | Some e => forall p s2 i z, same_place s s2 (mkCursor e i z) (mkCursor p i z) -> Q (Some p) s2
  end -> wpm (peek kl) s1 Q.
Proof.
  intros Hr Hm HD Ht Hk Hrd HQ. rewrite Hw in Hrd by done. destruct r as [e|].
  - apply checked_some in Hrd as [He Hck]. eapply peek_any_rule; [exact Hr|done|by rewrite Hm|done|].
    intros p f s2 Ht2 _ Hr2. apply (HQ p s2 0 0). split; [congruence|]. do 2 (split; [done|]).
    pose proof (rep_live _ _ _ _ _ _ _ Hr2 (lookup_insert_eq _ _ _)) as (a & e' & _ & _ & _ & _ & Hke & He').
    simpl in He'. rewrite Hm, He in He'. injection He' as <-.
    eexists _, f. split; [exact Hr2|]. simpl. rewrite Hke. by rewrite lookup_insert_eq.
  - eapply peek_refused_rule; [exact Hr|done|by rewrite Hm|done].
Qed.

Lemma dirNext_agrees fuel : forall s s1 c c' r c2,
  same_place s s1 c c' -> cdirNext fuel w root c = Ok (r, c2) ->
  wpm (dirNext fuel root c') s1 (fun a s2 => a.1 = r /\ same_place s s2 c2 a.2).
Proof.
  induction fuel as [|fuel IH]; intros s s1 [e i z] [p i' z'] r c2 Hsame; [done|].
  pose proof Hsame as (Ht & Hi & Hz & k & f & Hr & Hm & HD & Hp & He). simpl in Hi, Hz, Hp, He. subst i' z'.
  rewrite <- Hm in He. simpl.
  destruct (getFieldV256 sfIndexes (fields e)) as [es| |] eqn:Hes; simpl; [|done..]. intros Hc.
  apply wpm_bind. eapply get_rule; [exact Hr|done..|]. apply wpm_bind.
  destruct (Keylet.assert (i <=? size es)) as [[]| |] eqn:Ha; simpl in Hc; [|done..].
  eapply wpm_lift; [done|]. destruct (es !! Z.to_nat i) as [x|].
  { injection Hc as <- <-. apply wpm_ret. split; [done|]. split_and!; try done. exists k, f.
    split_and!; try done. by rewrite <- Hm. }
  destruct (getFieldU64 sfIndexNext (fields e)) as [nx| |] eqn:Hnx; simpl in Hc; [|done..].
  apply wpm_bind. eapply get_rule; [exact Hr|done..|]. destruct (nx =? 0).
  { injection Hc as <- <-. apply wpm_ret. split; [done|]. split_and!; try done. exists k, f.
    split_and!; try done. by rewrite <- Hm. }
  destruct (View.vread w (page root nx)) as [found| |] eqn:Hrd; simpl in Hc; [|done..].
  apply wpm_bind. eapply peek_agrees; [exact Hr|done|done|exact Ht|apply Hkeys|exact Hrd|].
  destruct found as [e'|].
  - intros p' s2 i2 z2 (? & _ & _ & Hs2). eapply IH; [|exact Hc]. by split_and!.
  - injection Hc as <- <-. apply wpm_ret. split; [done|]. split_and!; try done. exists k, f.
    split_and!; try done. by rewrite <- Hm.
Qed.

Lemma dirRest_agrees fuel steps : forall s s1 c c' l, same_place s s1 c c' ->
  cdirRest steps fuel w root c = Ok l ->
  wpm (dirRest steps fuel root c') s1 (fun l' s2 => l' = l /\ exists c2 c2', same_place s s2 c2 c2').
Proof.
  induction steps as [|steps IH]; intros s s1 c c' l Hs; [done|]. simpl.
  destruct (cdirNext fuel w root c) as [[r c2]| |] eqn:Hn; simpl; [|done..]. intros Hl.
  apply wpm_bind. eapply wpm_mono; [by eapply dirNext_agrees|]. simpl. intros [r' c2'] s2 [-> Hs2].
  simpl in *. destruct r.
  - destruct (cdirRest steps fuel w root c2) as [rest| |] eqn:Hrest; simpl in Hl; [|done..].
    injection Hl as <-. apply wpm_bind. eapply wpm_mono; [by eapply IH|]. simpl.
    intros rest' s3 [-> Hs3]. apply wpm_ret. split; [|done]. destruct Hs2 as (_ & _ & Hz & _). simpl in *. by rewrite Hz.
  - injection Hl as <-. apply wpm_ret. split; [done|]. by exists c2, c2'.
Qed.

Lemma dirAll_rule steps fuel s k l : rep b d s k -> am k = m -> dirty k = ApplyStateTable.none ->
  cdirAll steps fuel w root = Ok l ->
  wpm (dirAll steps fuel root) s (fun l' s2 => l' = l /\ exists c2 c2', same_place s s2 c2 c2').
Proof.
  intros Hr Hm HD. unfold cdirAll, dirAll, cdirFirst, dirFirst.
  destruct (View.vread w (page root 0)) as [found| |] eqn:Hrd; simpl; [|done..].
  destruct (Keylet.assert _) as [[]| |] eqn:Ha; simpl; [|done..]. destruct found as [e|]; [|done]. intros Hl.
  apply wpm_bind, wpm_bind. eapply peek_agrees; [exact Hr|done|done|done|apply Hkeys|exact Hrd|].
  intros p s1 i z Hs. apply wpm_bind, wpm_assert; [done|]. apply wpm_bind, wpm_need.
  destruct (cdirNext fuel w root _) as [[r c2]| |] eqn:Hn; simpl in Hl; [|done..].
  eapply wpm_mono; [eapply dirNext_agrees; [|exact Hn]|].
  { destruct Hs as (? & _ & _ & Hs). by split_and!. }
  intros [r' c2'] s2 [-> Hs2]. simpl. destruct r.
  - destruct (cdirRest steps fuel w root c2) as [rest| |] eqn:Hrest; simpl in Hl; [|done..].
    injection Hl as <-. apply wpm_bind. eapply wpm_mono; [by eapply dirRest_agrees|].
    intros rest' s3 [-> Hs3]. apply wpm_ret. split; [|done]. destruct Hs2 as (_ & _ & Hz & _). simpl in *. by rewrite Hz.
  - injection Hl as <-. apply wpm_ret. split; [done|]. by exists c2, c2'.
Qed.

End agree.

(** The walk on an [ApplyView] with [dirFirst] and [dirNext], which cache
    the pages in the table, gives the keys that the read-only walk with
    [cdirFirst] and [cdirNext] gives on the same view, and does not change what
    the view shows. *)
Theorem dirNext_equivalent (s : St V) root steps fuel l : good (av s) ->
  (forall n, getDirNodeIndex root n <> 0) ->
  cdirAll (V := ApplyView.t STObject V) steps fuel (av s) root = Ok l ->
  exists s', dirAll steps fuel root s = Ok (l, s') /\
    good (av s') /\ untouched s s' /\ contents (av s') = contents (av s).
Proof.
  intros Hg Hkeys Hl. destruct (wpm_view (dirAll steps fuel root) s
    (fun l' m => l' = l /\ m = contents (av s))) as (l' & s' & ? & ? & ? & -> & ?); [done| |by exists s'].
  intros b d Hr. eapply wpm_mono.
  - eapply (dirAll_rule b d (av s) root (contents (av s))); [done|by intros; apply read_law|done..].
  - intros l' s' [-> (c & c' & Ht & _ & _ & k & f & Hr' & Hm & HD & _)]. split; [done|].
    exists k. split; [done|]. split; [|done]. intros i. rewrite HD. by intros [].
Qed.

End apply.

(** ** A directory that stays behind *)

Section examples.
Import Examples.
#[local] Existing Instance IdealHash.ideal.

Abbreviation View0 := (ApplyView.t STObject (Ledger.t STObject)).

Definition start : St (Ledger.t STObject) := mkSt (ApplyView.make (Ledger.mk ∅ ∅ info0)) [].

(** Keys are added, and deleted from the page [n]. *)
Definition add_keys (s : St (Ledger.t STObject)) (keys : list Z) : result (St (Ledger.t STObject)) :=
  foldM (fun s x => r ← dirAdd root7 x (fun p _ => set p (setAccountID sfOwner 7)) s; Ok r.2) s keys.
Definition delete_keys (n : Z) (s : St (Ledger.t STObject)) (keys : list Z) : result (St (Ledger.t STObject)) :=
  foldM (fun s x => r ← dirDelete false n root7 x false false s; Ok r.2) s keys.

(** The keys from [a] to [b]. *)
Definition keys (a b : Z) : list Z := seqZ a (b - a + 1).

(** 65 keys, then those of the root, of the last page and of the page between
    are deleted. *)
Definition emptied : result (St (Ledger.t STObject)) :=
  s ← add_keys start (keys 1 65);
  s ← delete_keys 0 s (keys 1 32);
  s ← delete_keys 2 s (keys 65 65);
  delete_keys 1 s (keys 33 64).

(** A directory can lose all its keys and keep two pages, and then
    [dirIsEmpty] takes it for one that has keys: 65 keys are added to a new
    directory and all of them deleted, each deletion successfully, the page in
    the middle last; the walk finds no key and [dirIsEmpty] answers no. *)
Theorem dirIsEmpty_leftover : exists s, emptied = Ok s /\
  cdirAll (V := View0) 1 3 (av s) root7 = Ok [] /\
  dirIsEmpty (V := View0) (av s) (page root7 0) = Ok false.
Proof.
  destruct emptied as [s| |] eqn:He; [|by vm_compute in He..].
  exists s. split; [done|].
  assert ((s ← emptied; a ← cdirAll (V := View0) 1 3 (av s) root7;
           b ← dirIsEmpty (V := View0) (av s) (page root7 0); Ok (a, b)) = Ok ([], false)) as Hrun
    by (vm_compute; reflexivity).
  rewrite He in Hrun. simpl in Hrun.
  destruct (cdirAll 1 3 (av s) root7) as [l| |]; simpl in Hrun; [|done..].
  destruct (dirIsEmpty (av s) (page root7 0)) as [c| |]; simpl in Hrun; [|done..].
  clear He. injection Hrun as -> ->. done.
Qed.

(** The directory with the keys 5 and 6. *)
Lemma forEachItem_visits_witness :
  forEachItem (V := Ledger.t STObject) 2 ledger56 7 = Ok [None; None].
Proof.
  apply (forEachItem_visits ledger56 7 [(0, [5; 6])] (fun _ => None));
    [apply ledger56_good|apply root7_pages|apply ledger56_dir|].
  intros x [->|[->|[]%not_elem_of_nil]%elem_of_cons]%elem_of_cons; vm_compute; reflexivity.
Defined.

Lemma cdir_enumerates_witness :
  cdirAll (V := Ledger.t STObject) 2 1 ledger56 root7 = Ok [5; 6].
Proof.
  apply (cdir_enumerates ledger56 root7 [(0, [5; 6])]);
    [apply ledger56_good|apply root7_pages|apply ledger56_dir|done].
Defined.

Lemma dirNext_equivalent_witness : exists s',
  dirAll (V := Ledger.t STObject) 2 1 root7 start56 = Ok ([5; 6], s') /\
  good (av s') /\ untouched start56 s' /\ contents (av s') = contents (av start56).
Proof.
  apply (dirNext_equivalent start56 root7 2 1 [5; 6]);
    [apply start56_good| |vm_compute; reflexivity].
  intros n. apply root7_keys.
Defined.

End examples.
End DirWalk.
