(* ===== verification/TrustLines.v ===== *)
(** * Trust lines and transfers

    The rest of ledger/impl/View.cpp: what an account holds and whether it is
    frozen, transfer rates, and the modifiers [adjustOwnerCount], [trustCreate],
    [trustDelete], [offerDelete], [rippleCredit], [rippleSend], [accountSend],
    [issueIOU], [redeemIOU] and [transferXRP].  Logging is left out; following
    a null pointer throws. *)

From stdpp Require Import base tactics numbers list strings gmap sorting option.
From S2P Require Import Prelude Decimal IOUAmount BigNum Serializer STAmount.
From S2P Require Import View StateTable ApplyStateTable Fields Indexes PaymentSandbox ViewOps Directory.

Module TrustLines.
Import Fields ViewOps Indexes Directory.

Definition noAccount : Z := 1.
Definition QUALITY_ONE : Z := 1000000000.

Inductive FreezeHandling := fhIGNORE_FREEZE | fhZERO_IF_FROZEN.

#[export] Instance FreezeHandling_eq_dec : EqDecision FreezeHandling.
Proof. solve_decision. Defined.

(** [Fees] of ledger/ReadView.h; a view has them from the ledger's fee entry. *)
Record Fees := mkFees { base : Z; units : Z; reserve : Z; increment : Z }.

Definition accountReserve (fees : Fees) (ownerCount : Z) : Z :=
  u64 (reserve fees + u64 (ownerCount * increment fees)).

(** [!amount], [amount > zero] and [amount <= zero]. *)
Abbreviation isZero := STAmount.is_zero.
Definition positive (a : STAmount.t) : bool := 0 <? STAmount.signum a.

(** [STAmount ({currency, account})]. *)
Definition no_amount (currency account : Z) : result STAmount.t :=
  STAmount.of_issue (STAmount.mkIssue currency account) 0 0 false.

(** Balances are kept in the low account's terms; [sided high] turns one into
    the terms of the account that is high or not, and back. *)
Definition sided (high : bool) (a : STAmount.t) : STAmount.t := if high then STAmount.negate a else a.

(** A field or flag of the low or the high side. *)
Definition side {A} (high : bool) (low hi : A) : A := if high then hi else low.

Definition has (flags f : Z) : bool := negb (Z.land flags f =? 0).

(** [flags & ~f] on 32 bits. *)
Definition without (flags f : Z) : Z := Z.land flags (u32 (Z.lnot f)).

(** ** Observers *)

Section reading.
Context `{Build} {SHA : SHA512Half} {V : Type} {RV : ReadView STObject V}.

(** [sle && sle->isFlag (f)]. *)
Definition flagged (found : option Entry) (f : Z) : bool :=
  match found with Some sle => isFlag f (fields sle) | None => false end.

Definition isGlobalFrozen (view : V) (issuer : Z) : result bool :=
  if STAmount.isXRP_id issuer then Ok false
  else sle ← View.vread view (account issuer); Ok (flagged sle lsfGlobalFreeze).

Definition isFrozen (view : V) (acct currency issuer : Z) : result bool :=
  if STAmount.isXRP_id currency then Ok false
  else
    sle ← View.vread view (account issuer);
    if flagged sle lsfGlobalFreeze then Ok true
    else if negb (issuer =? acct) then
      sle ← View.vread view (line acct issuer currency);
      Ok (flagged sle (if acct <? issuer then lsfHighFreeze else lsfLowFreeze))
    else Ok false.

(** The balance before the hook; the view's fees are an argument. *)
Definition accountHolds_amount (fees : Fees) (view : V) (acct currency issuer : Z)
    (zeroIfFrozen : FreezeHandling) : result STAmount.t :=
  if STAmount.isXRP_id currency then
    found ← View.vread view (account acct);
    match found with
    | None => Throw "null"
    | Some sle =>
        ownerCount ← getFieldU32 sfOwnerCount (fields sle);
        let reserve := STAmount.of_u64 (accountReserve fees ownerCount) false in
        balance ← getFieldAmount sfBalance (fields sle);
        less ← STAmount.ltb balance reserve;
        if less : bool then Ok (STAmount.clear amount0) else STAmount.sub balance reserve
    end
  else
    found ← View.vread view (line acct issuer currency);
    match found with
    | None => Ok (STAmount.clear_issue amount0 (STAmount.mkIssue currency issuer))
    | Some sle =>
        frozen ← (if bool_decide (zeroIfFrozen = fhZERO_IF_FROZEN)
                  then isFrozen view acct currency issuer else Ok false);
        if frozen : bool then Ok (STAmount.clear_issue amount0 (STAmount.mkIssue currency issuer))
        else
          amount ← getFieldAmount sfBalance (fields sle);
          let amount := if issuer <? acct then STAmount.negate amount else amount in
          Ok (STAmount.setIssuer amount issuer)
    end.

(** [tabs] are the tables of deferred credits the view's hook consults. *)
Definition accountHolds (fees : Fees) (tabs : list DeferredCredits.table) (view : V)
    (acct currency issuer : Z) (zeroIfFrozen : FreezeHandling) : result STAmount.t :=
  amount ← accountHolds_amount fees view acct currency issuer zeroIfFrozen;
  DeferredCredits.balanceHook tabs acct issuer amount.

Definition accountFunds (fees : Fees) (tabs : list DeferredCredits.table) (view : V) (id : Z)
    (saDefault : STAmount.t) (freezeHandling : FreezeHandling) : result STAmount.t :=
  let i := STAmount.mIssue saDefault in
  if negb (STAmount.mIsNative saDefault) && (STAmount.account i =? id) then Ok saDefault
  else accountHolds fees tabs view id (STAmount.currency i) (STAmount.account i) freezeHandling.

(** The rate of an entry that may be missing. *)
Definition rate_of (found : option Entry) : result Z :=
  match found with
  | Some sle => if isFieldPresent sfTransferRate (fields sle)
                then getFieldU32 sfTransferRate (fields sle) else Ok QUALITY_ONE
  | None => Ok QUALITY_ONE
  end.

Definition rippleTransferRate (view : V) (issuer : Z) : result Z :=
  sle ← View.vread view (account issuer); rate_of sle.

Definition rippleTransferRate_between (view : V) (uSenderID uReceiverID issuer : Z) : result Z :=
  if (uSenderID =? issuer) || (uReceiverID =? issuer) then Ok QUALITY_ONE
  else rippleTransferRate view issuer.

End reading.

(** ** Modifiers *)

Section modifying.
Context `{Build} {SHA : SHA512Half} {V : Type} {RV : ReadView STObject V}.

(** The new owner count; [amount] is not zero. *)
Definition adjusted (current amount : Z) : M V Z :=
  let adjusted := u32 (current + amount) in
  if 0 <? amount then mret (if adjusted <? current then 2 ^ 32 - 1 else adjusted)
  else if current <? adjusted then _ ← assert false; mret 0
  else mret adjusted.

Definition adjustOwnerCount (sle : loc) (amount : Z) : M V unit :=
  _ ← assert (negb (amount =? 0));
  current ← get sle (getFieldU32 sfOwnerCount);
  adjusted ← adjusted current amount;
  _ ← set sle (setFieldU32 sfOwnerCount adjusted);
  update sle.

(** [sle->setAccountID (sfOwner, owner)]. *)
Definition ownerDirDescriber (owner : Z) (sle : loc) (_ : bool) : M V unit :=
  set sle (setAccountID sfOwner owner).

(** The part of [trustCreate] after the directories. *)
Definition trustCreate_line (bSrcHigh : bool) (uSrcAccountID uDstAccountID : Z) (sleRippleState sleAccount : loc)
    (bAuth bNoRipple bFreeze : bool) (saBalance saLimit : STAmount.t) (uQualityIn uQualityOut : Z)
    (uLowNode uHighNode : Z) : M V unit :=
  let uLowAccountID := if negb bSrcHigh then uSrcAccountID else uDstAccountID in
  let uHighAccountID := if bSrcHigh then uSrcAccountID else uDstAccountID in
  let bSetDst := STAmount.account (STAmount.mIssue saLimit) =? uDstAccountID in
  let bSetHigh := xorb bSrcHigh bSetDst in
  _ ← (if NDEBUG then mret tt
       else acct ← get sleAccount (getAccountID sfAccount);
            assert (acct =? (if bSetHigh then uHighAccountID else uLowAccountID)));
  p ← peek (account (if bSetHigh then uLowAccountID else uHighAccountID));
  _ ← assert (bool_decide (is_Some p));
  _ ← set sleRippleState (setFieldU64 sfLowNode uLowNode);
  _ ← set sleRippleState (setFieldU64 sfHighNode uHighNode);
  _ ← set sleRippleState (setFieldAmount (side bSetHigh sfLowLimit sfHighLimit) saLimit);
  noLimit ← lift (no_amount (STAmount.currency (STAmount.mIssue saBalance))
                    (if bSetDst then uSrcAccountID else uDstAccountID));
  _ ← set sleRippleState (setFieldAmount (side bSetHigh sfHighLimit sfLowLimit) noLimit);
  _ ← (if negb (uQualityIn =? 0)
       then set sleRippleState (setFieldU32 (side bSetHigh sfLowQualityIn sfHighQualityIn) uQualityIn)
       else mret tt);
  _ ← (if negb (uQualityOut =? 0)
       then set sleRippleState (setFieldU32 (side bSetHigh sfLowQualityOut sfHighQualityOut) uQualityOut)
       else mret tt);
  let uFlags := side bSetHigh lsfLowReserve lsfHighReserve in
  let uFlags := if bAuth then Z.lor uFlags (side bSetHigh lsfLowAuth lsfHighAuth) else uFlags in
  let uFlags := if bNoRipple then Z.lor uFlags (side bSetHigh lsfLowNoRipple lsfHighNoRipple) else uFlags in
  let uFlags := if bFreeze then Z.lor uFlags (side bSetHigh lsfLowFreeze lsfHighFreeze) else uFlags in
  slePeer ← need p;
  peerFlags ← get slePeer (fun o => Ok (getFlags o));
  let uFlags := if Z.land peerFlags lsfDefaultRipple =? 0
                then Z.lor uFlags (side bSetHigh lsfHighNoRipple lsfLowNoRipple) else uFlags in
  _ ← set sleRippleState (setFieldU32 sfFlags uFlags);
  _ ← adjustOwnerCount sleAccount 1;
  _ ← set sleRippleState (setFieldAmount sfBalance (if bSetHigh then STAmount.neg saBalance else saBalance));
  creditHook uSrcAccountID uDstAccountID saBalance.

Definition trustCreate (bSrcHigh : bool) (uSrcAccountID uDstAccountID uIndex : Z) (sleAccount : loc)
    (bAuth bNoRipple bFreeze : bool) (saBalance saLimit : STAmount.t) (uQualityIn uQualityOut : Z) : M V TER :=
  let uLowAccountID := if negb bSrcHigh then uSrcAccountID else uDstAccountID in
  let uHighAccountID := if bSrcHigh then uSrcAccountID else uDstAccountID in
  sle ← lift (make_SLE (line_at uIndex));
  sleRippleState ← make_shared sle;
  _ ← insert sleRippleState;
  e ← deref sleRippleState;
  low ← dirAdd (getOwnerDirIndex uLowAccountID) (sle_key e) (ownerDirDescriber uLowAccountID);
  if negb (bool_decide (low.1 = tesSUCCESS)) then mret low.1
  else
    e ← deref sleRippleState;
    high ← dirAdd (getOwnerDirIndex uHighAccountID) (sle_key e) (ownerDirDescriber uHighAccountID);
    if negb (bool_decide (high.1 = tesSUCCESS)) then mret high.1
    else
      _ ← trustCreate_line bSrcHigh uSrcAccountID uDstAccountID sleRippleState sleAccount
            bAuth bNoRipple bFreeze saBalance saLimit uQualityIn uQualityOut low.2 high.2;
      mret tesSUCCESS.

Definition trustDelete (sleRippleState : loc) (uLowAccountID uHighAccountID : Z) : M V TER :=
  bLowNode ← get sleRippleState (fun o => Ok (isFieldPresent sfLowNode o));
  bHighNode ← get sleRippleState (fun o => Ok (isFieldPresent sfHighNode o));
  uLowNode ← get sleRippleState (getFieldU64 sfLowNode);
  uHighNode ← get sleRippleState (getFieldU64 sfHighNode);
  e ← deref sleRippleState;
  terResult ← dirDelete false uLowNode (getOwnerDirIndex uLowAccountID) (sle_key e) false (negb bLowNode);
  terResult ← (if bool_decide (terResult = tesSUCCESS)
               then e ← deref sleRippleState;
                    dirDelete false uHighNode (getOwnerDirIndex uHighAccountID) (sle_key e) false (negb bHighNode)
               else mret terResult);
  _ ← erase sleRippleState;
  mret terResult.

Definition offerDelete (sle : option loc) : M V TER :=
  match sle with
  | None => mret tesSUCCESS
  | Some sle =>
      e ← deref sle;
      owner ← get sle (getAccountID sfAccount);
      bOwnerNode ← get sle (fun o => Ok (isFieldPresent sfOwnerNode o));
      uOwnerNode ← get sle (getFieldU64 sfOwnerNode);
      uDirectory ← get sle (getFieldH256 sfBookDirectory);
      uBookNode ← get sle (getFieldU64 sfBookNode);
      terResult ← dirDelete false uOwnerNode (getOwnerDirIndex owner) (sle_key e) false (negb bOwnerNode);
      terResult2 ← dirDelete false uBookNode uDirectory (sle_key e) true false;
      _ ← (if bool_decide (terResult = tesSUCCESS)
           then p ← peek (account owner); q ← need p; adjustOwnerCount q (-1)
           else mret tt);
      _ ← erase sle;
      mret (if bool_decide (terResult = tesSUCCESS) then terResult2 else terResult)
  end.

(** The condition of [rippleCredit] and [updateTrustLine] for giving up the
    reserve of the sender's side [high]; its operands are evaluated in turn, the
    flags of the sender's account ([senderFlags]) only when it comes to them. *)
Definition clears_reserve (state : loc) (high : bool) (before after : STAmount.t) (flags : Z)
    (senderFlags : M V Z) : M V bool :=
  if negb (positive before) then mret false
  else if positive after then mret false
  else if negb (has flags (side high lsfLowReserve lsfHighReserve)) then mret false
  else
    account_flags ← senderFlags;
    if Bool.eqb (has flags (side high lsfLowNoRipple lsfHighNoRipple)) (has account_flags lsfDefaultRipple)
    then mret false
    else if has flags (side high lsfLowFreeze lsfHighFreeze) then mret false
    else
      limit ← get state (getFieldAmount (side high sfLowLimit sfHighLimit));
      if negb (isZero limit) then mret false
      else
        qualityIn ← get state (getFieldU32 (side high sfLowQualityIn sfHighQualityIn));
        if negb (qualityIn =? 0) then mret false
        else
          qualityOut ← get state (getFieldU32 (side high sfLowQualityOut sfHighQualityOut));
          mret (qualityOut =? 0).

(** The balance is zero and the receiver's reserve is clear. *)
Definition unused (high : bool) (after : STAmount.t) (flags : Z) : bool :=
  isZero after && negb (has flags (side high lsfHighReserve lsfLowReserve)).

(** [rippleCredit] on a line that exists. *)
Definition rippleCredit_line (sleRippleState : loc) (uSenderID uReceiverID : Z) (saAmount : STAmount.t)
    : M V TER :=
  let bSenderHigh := uReceiverID <? uSenderID in
  _ ← creditHook uSenderID uReceiverID saAmount;
  balance ← get sleRippleState (getFieldAmount sfBalance);
  let saBefore := sided bSenderHigh balance in
  saBalance ← lift (STAmount.sub saBefore saAmount);
  uFlags ← get sleRippleState (getFieldU32 sfFlags);
  clear ← clears_reserve sleRippleState bSenderHigh saBefore saBalance uFlags
            (e ← vread (account uSenderID);
             match e with Some e => mret (getFlags (fields e)) | None => throw "null" end);
  _ ← (if clear : bool then
         p ← peek (account uSenderID);
         q ← need p;
         _ ← adjustOwnerCount q (-1);
         set sleRippleState (setFieldU32 sfFlags (without uFlags (side bSenderHigh lsfLowReserve lsfHighReserve)))
       else mret tt);
  let bDelete := clear && unused bSenderHigh saBalance uFlags in
  _ ← set sleRippleState (setFieldAmount sfBalance (sided bSenderHigh saBalance));
  if bDelete
  then trustDelete sleRippleState (side bSenderHigh uSenderID uReceiverID) (side bSenderHigh uReceiverID uSenderID)
  else _ ← update sleRippleState; mret tesSUCCESS.

(** A line for a balance that has none yet, by [rippleCredit] and [issueIOU]. *)
Definition new_line (bSenderHigh : bool) (currency uSenderID uReceiverID uIndex : Z) (saAmount : STAmount.t)
    : M V TER :=
  saReceiverLimit ← lift (no_amount currency uReceiverID);
  let saBalance := STAmount.setIssuer saAmount noAccount in
  p ← peek (account uReceiverID);
  sleAccount ← need p;
  flags ← get sleAccount (fun o => Ok (getFlags o));
  let noRipple := Z.land flags lsfDefaultRipple =? 0 in
  trustCreate bSenderHigh uSenderID uReceiverID uIndex sleAccount false noRipple false
    saBalance saReceiverLimit 0 0.

Definition rippleCredit (uSenderID uReceiverID : Z) (saAmount : STAmount.t) (bCheckIssuer : bool) : M V TER :=
  let issuer := STAmount.account (STAmount.mIssue saAmount) in
  let currency := STAmount.currency (STAmount.mIssue saAmount) in
  _ ← assert (negb bCheckIssuer || (uSenderID =? issuer) || (uReceiverID =? issuer));
  _ ← assert (negb (uSenderID =? uReceiverID));
  let bSenderHigh := uReceiverID <? uSenderID in
  let uIndex := getRippleStateIndex uSenderID uReceiverID currency in
  sleRippleState ← peek (line_at uIndex);
  _ ← assert (negb (STAmount.isXRP_id uSenderID) && negb (uSenderID =? noAccount));
  _ ← assert (negb (STAmount.isXRP_id uReceiverID) && negb (uReceiverID =? noAccount));
  match sleRippleState with
  | None => new_line bSenderHigh currency uSenderID uReceiverID uIndex saAmount
  | Some sleRippleState => rippleCredit_line sleRippleState uSenderID uReceiverID saAmount
  end.

Definition rippleTransferFee (from to issuer : Z) (saAmount : STAmount.t) : M V STAmount.t :=
  if negb (from =? issuer) && negb (to =? issuer) then
    sle ← vread (account issuer);
    uTransitRate ← lift (rate_of sle);
    if negb (QUALITY_ONE =? uTransitRate) then
      rate ← lift (STAmount.amountFromRate uTransitRate);
      saTransferTotal ← lift (STAmount.multiply saAmount rate (STAmount.mIssue saAmount));
      lift (STAmount.sub saTransferTotal saAmount)
    else lift (STAmount.zeroed saAmount)
  else lift (STAmount.zeroed saAmount).

(** The result and [saActual]. *)
Definition rippleSend (uSenderID uReceiverID : Z) (saAmount : STAmount.t) : M V (TER * STAmount.t) :=
  let issuer := STAmount.account (STAmount.mIssue saAmount) in
  _ ← assert (negb (STAmount.isXRP_id uSenderID) && negb (STAmount.isXRP_id uReceiverID));
  _ ← assert (negb (uSenderID =? uReceiverID));
  if (uSenderID =? issuer) || (uReceiverID =? issuer) || (issuer =? noAccount) then
    _ ← rippleCredit uSenderID uReceiverID saAmount false;
    mret (tesSUCCESS, saAmount)
  else
    saTransitFee ← rippleTransferFee uSenderID uReceiverID issuer saAmount;
    saActual ← lift (if isZero saTransitFee then Ok saAmount else STAmount.add saAmount saTransitFee);
    let saActual := STAmount.setIssuer saActual issuer in
    terResult ← rippleCredit issuer uReceiverID saAmount true;
    terResult ← (if bool_decide (terResult = tesSUCCESS)
                 then rippleCredit uSenderID issuer saActual true else mret terResult);
    mret (terResult, saActual).

(** The result for a balance that does not suffice. *)
Definition failed_processing : M V TER :=
  is_open ← vopen; mret (if is_open : bool then telFAILED_PROCESSING else tecFAILED_PROCESSING).

(** [accountSend] of XRP, after the hook. *)
Definition accountSend_XRP (uSenderID uReceiverID : Z) (saAmount : STAmount.t) : M V TER :=
  sender ← (if uSenderID =? 0 then mret None else peek (account uSenderID));
  receiver ← (if uReceiverID =? 0 then mret None else peek (account uReceiverID));
  terResult ← match sender with
              | None => mret tesSUCCESS
              | Some sender =>
                  balance ← get sender (getFieldAmount sfBalance);
                  less ← lift (STAmount.ltb balance saAmount);
                  if less : bool then failed_processing
                  else
                    left ← lift (STAmount.sub balance saAmount);
                    _ ← set sender (setFieldAmount sfBalance left);
                    _ ← update sender;
                    mret tesSUCCESS
              end;
  match receiver with
  | Some receiver =>
      if bool_decide (terResult = tesSUCCESS) then
        balance ← get receiver (getFieldAmount sfBalance);
        sum ← lift (STAmount.add balance saAmount);
        _ ← set receiver (setFieldAmount sfBalance sum);
        _ ← update receiver;
        mret terResult
      else mret terResult
  | None => mret terResult
  end.

Definition accountSend (uSenderID uReceiverID : Z) (saAmount : STAmount.t) : M V TER :=
  _ ← assert (0 <=? STAmount.signum saAmount);
  if isZero saAmount || (uSenderID =? uReceiverID) then mret tesSUCCESS
  else if negb (STAmount.mIsNative saAmount) then
    r ← rippleSend uSenderID uReceiverID saAmount; mret r.1
  else
    _ ← creditHook uSenderID uReceiverID saAmount;
    accountSend_XRP uSenderID uReceiverID saAmount.

(** Whether the line must be deleted. *)
Definition updateTrustLine (state : loc) (bSenderHigh : bool) (sender : Z) (before after : STAmount.t) : M V bool :=
  flags ← get state (getFieldU32 sfFlags);
  p ← peek (account sender);
  _ ← assert (bool_decide (is_Some p));
  clear ← clears_reserve state bSenderHigh before after flags
            (sle ← need p; get sle (fun o => Ok (getFlags o)));
  if clear : bool then
    sle ← need p;
    _ ← adjustOwnerCount sle (-1);
    _ ← set state (setFieldU32 sfFlags (without flags (side bSenderHigh lsfLowReserve lsfHighReserve)));
    mret (unused bSenderHigh after flags)
  else mret false.

(** The common end of [issueIOU] and [redeemIOU], on a line that exists. *)
Definition adjust_line (state : loc) (uSenderID uReceiverID : Z) (amount : STAmount.t) : M V TER :=
  let bSenderHigh := uReceiverID <? uSenderID in
  balance ← get state (getFieldAmount sfBalance);
  let start_balance := sided bSenderHigh balance in
  final_balance ← lift (STAmount.sub start_balance amount);
  must_delete ← updateTrustLine state bSenderHigh uSenderID start_balance final_balance;
  let final_balance := sided bSenderHigh final_balance in
  _ ← creditHook uSenderID uReceiverID amount;
  _ ← set state (setFieldAmount sfBalance final_balance);
  if must_delete : bool
  then trustDelete state (side bSenderHigh uSenderID uReceiverID) (side bSenderHigh uReceiverID uSenderID)
  else _ ← update state; mret tesSUCCESS.

Definition issueIOU (acct : Z) (amount : STAmount.t) (issue : STAmount.Issue) : M V TER :=
  _ ← assert (negb (STAmount.isXRP_id acct) && negb (STAmount.isXRP_id (STAmount.account issue)));
  _ ← assert (STAmount.issue_eqb issue (STAmount.mIssue amount));
  _ ← assert (negb (STAmount.account issue =? acct));
  let bSenderHigh := acct <? STAmount.account issue in
  let index := getRippleStateIndex (STAmount.account issue) acct (STAmount.currency issue) in
  state ← peek (line_at index);
  match state with
  | None => new_line bSenderHigh (STAmount.currency issue) (STAmount.account issue) acct index amount
  | Some state => adjust_line state (STAmount.account issue) acct amount
  end.

Definition redeemIOU (acct : Z) (amount : STAmount.t) (issue : STAmount.Issue) : M V TER :=
  _ ← assert (negb (STAmount.isXRP_id acct) && negb (STAmount.isXRP_id (STAmount.account issue)));
  _ ← assert (STAmount.issue_eqb issue (STAmount.mIssue amount));
  _ ← assert (negb (STAmount.account issue =? acct));
  let index := getRippleStateIndex acct (STAmount.account issue) (STAmount.currency issue) in
  state ← peek (line_at index);
  match state with
  | None => mret tefINTERNAL
  | Some state => adjust_line state acct (STAmount.account issue) amount
  end.

Definition transferXRP (from to : Z) (amount : STAmount.t) : M V TER :=
  _ ← assert (negb (from =? 0));
  _ ← assert (negb (to =? 0));
  _ ← assert (negb (from =? to));
  _ ← assert (STAmount.mIsNative amount);
  sender ← peek (account from);
  receiver ← peek (account to);
  sender ← need sender;
  balance ← get sender (getFieldAmount sfBalance);
  less ← lift (STAmount.ltb balance amount);
  if less : bool then failed_processing
  else
    left ← lift (STAmount.sub balance amount);
    _ ← set sender (setFieldAmount sfBalance left);
    _ ← update sender;
    receiver ← need receiver;
    balance ← get receiver (getFieldAmount sfBalance);
    sum ← lift (STAmount.add balance amount);
    _ ← set receiver (setFieldAmount sfBalance sum);
    _ ← update receiver;
    mret tesSUCCESS.

End modifying.
End TrustLines.
