(* ===== verification/Transfers.v ===== *)
(** * Transfers of XRP

    [transferXRP] and [accountSend] of XRP (ledger/impl/View.cpp) move drops from
    one account root to another: all or nothing, nothing else changes, and the
    drops that the accounts hold together stay the same. *)

From stdpp Require Import base tactics numbers list strings gmap sorting option.
From S2P Require Import Prelude Decimal IOUAmount BigNum Serializer STAmount.
From S2P Require Import View StateTable ApplyStateTable Fields Indexes PaymentSandbox ViewOps Directory TrustLines.

Module Transfers.
Import Fields ViewOps Indexes TrustLines.

(** [n] drops. *)
Definition xrp (n : Z) : STAmount.t := STAmount.mk STAmount.xrpIssue n 0 true false.

Definition drops_ok (n : Z) : Prop := 0 <= n <= STAmount.cMaxNativeN.

Lemma xrp_wf n : drops_ok n -> STAmount.wf (xrp n).
Proof. unfold drops_ok. intros Hn. split_and!; done. Qed.

Lemma xrp_ltb a b : drops_ok a -> drops_ok b -> STAmount.ltb (xrp a) (xrp b) = Ok (a <? b).
Proof.
  unfold drops_ok. intros Ha Hb. unfold STAmount.ltb. simpl. f_equal.
  destruct (Z.eqb_spec a 0), (Z.eqb_spec b 0); simpl; symmetry.
  - apply Z.ltb_ge. lia.
  - apply Z.ltb_lt. lia.
  - apply Z.ltb_ge. lia.
  - destruct (Z.ltb_spec b a), (Z.ltb_spec a b); try done; lia.
Qed.

(** [xrp n] or its negation. *)
Definition sxrp (n : Z) : STAmount.t := STAmount.mk STAmount.xrpIssue (Z.abs n) 0 true (n <? 0).

Lemma sxrp_pos n : 0 <= n -> sxrp n = xrp n.
Proof. intros Hn. unfold sxrp, xrp. by rewrite Z.abs_eq, (proj2 (Z.ltb_ge _ _)). Qed.

Lemma add_sxrp a b : Z.abs a <= STAmount.cMaxNativeN -> Z.abs b <= STAmount.cMaxNativeN ->
  STAmount.add (sxrp a) (sxrp b) = Ok (sxrp (a + b)).
Proof.
  unfold STAmount.cMaxNativeN. intros Ha Hb. unfold STAmount.add.
  assert (Hs : forall n, Z.abs n < 2 ^ 63 -> STAmount.getSNValue (sxrp n) = Ok n).
  { intros x Hx. unfold STAmount.getSNValue. simpl. rewrite (i64_id (Z.abs x)) by lia.
    destruct (Z.ltb_spec x 0); f_equal; [rewrite i64_id|]; lia. }
  rewrite !Hs by lia. rewrite !STAmount.is_zero_iff. simpl.
  destruct (Z.eqb_spec (Z.abs b) 0); [by replace (a + b) with a by lia|].
  destruct (Z.eqb_spec (Z.abs a) 0).
  { unfold STAmount.of_issue. rewrite STAmount.canonicalize_native by (simpl; lia || done).
    unfold STAmount.scaled. simpl. rewrite Z.mul_1_r, u64_id by lia.
    rewrite (proj2 (Z.ltb_ge STAmount.cMaxNativeN (Z.abs b))) by (unfold STAmount.cMaxNativeN; lia).
    replace (a + b) with b by lia. done. }
  rewrite i64_id by lia. f_equal. unfold STAmount.of_i64, STAmount.set, sxrp.
  destruct (Z.ltb_spec (a + b) 0); simpl; f_equal; rewrite ?i64_id, u64_id; lia.
Qed.

Lemma add_xrp a b : drops_ok a -> drops_ok b -> STAmount.add (xrp a) (xrp b) = Ok (xrp (a + b)).
Proof.
  unfold drops_ok. intros Ha Hb. rewrite <- !sxrp_pos by lia. apply add_sxrp; lia.
Qed.

Lemma sub_xrp a b : drops_ok a -> drops_ok b -> b <= a -> STAmount.sub (xrp a) (xrp b) = Ok (xrp (a - b)).
Proof.
  unfold drops_ok. intros Ha Hb Hab. unfold STAmount.sub.
  replace (STAmount.neg (xrp b)) with (sxrp (- b)).
  - rewrite <- !sxrp_pos by lia. rewrite add_sxrp by lia. by rewrite Z.add_opp_r.
  - unfold STAmount.neg, sxrp. simpl. destruct (Z.eqb_spec b 0) as [->|]; [done|].
    unfold STAmount.unchecked. rewrite (proj2 (Z.ltb_lt _ _)), Z.abs_neq by lia. f_equal. lia.
Qed.

(** ** Accounts and their drops *)

Definition account_entry {SHA : SHA512Half} (id : Z) (o : STObject) : Entry :=
  mkSLE (getAccountRootIndex id) Keylet.ltACCOUNT_ROOT o.

Definition with_drops (o : STObject) (n : Z) : STObject := <[sfBalance := Some (AMT (xrp n))]> o.

(** The drops of an entry, and of all entries. *)
Definition drops_of (e : Entry) : Z :=
  if getType e =? Keylet.ltACCOUNT_ROOT then
    match fields e !! sfBalance with Some (Some (AMT a)) => STAmount.signed a | _ => 0 end
  else 0.

Definition total (m : gmap Z Entry) : Z := map_fold (fun _ e n => drops_of e + n) 0 m.

Lemma total_insert m i e : m !! i = None -> total (<[i := e]> m) = drops_of e + total m.
Proof.
  intros Hi. unfold total. rewrite map_fold_insert_L; [done| |done]. intros. lia.
Qed.

Lemma total_replace m i e e' : m !! i = Some e -> total (<[i := e']> m) = total m - drops_of e + drops_of e'.
Proof.
  intros Hi. rewrite <- (insert_delete_id m i e Hi) at 2. rewrite <- insert_delete_eq.
  rewrite !total_insert by apply lookup_delete_eq. lia.
Qed.

(** ** The transfer *)

Section transfer.
Context `{Build} {SHA : SHA512Half} {SL : SHA512HalfLaws SHA} {V : Type} {RV : ReadView STObject V}.
Context {VM : ViewModel STObject V} {RL : ReadViewLaws STObject V}.

(** The view shows an account with these drops. *)
Definition holds_drops (m : gmap Z Entry) (id n : Z) (o : STObject) : Prop :=
  m !! getAccountRootIndex id = Some (account_entry id o) /\
  o !! sfBalance = Some (Some (AMT (xrp n))) /\ drops_ok n.

Lemma account_check id o : Keylet.check (account id) (account_entry id o) = Ok true.
Proof. unfold Keylet.check, Keylet.assert. simpl. by rewrite andb_false_r. Qed.

Lemma get_balance o n : o !! sfBalance = Some (Some (AMT (xrp n))) -> getFieldAmount sfBalance o = Ok (xrp n).
Proof. intros Ho. unfold getFieldAmount, getField. by rewrite Ho. Qed.

Lemma set_balance o n n' : o !! sfBalance = Some (Some (AMT (xrp n))) ->
  setFieldAmount sfBalance (xrp n') o = Ok (with_drops o n').
Proof. intros Ho. apply setField_ok; [|done]. unfold has_place. by rewrite Ho. Qed.

Lemma account_key_ne a c : STAmount.id160 a -> STAmount.id160 c -> a <> c ->
  getAccountRootIndex a <> getAccountRootIndex c.
Proof. intros Ha Hc Hne Heq. by apply Hne, getAccountRootIndex_inj. Qed.

(** What a transfer of [a] drops leaves behind. *)
Definition moved (m m' : gmap Z Entry) (from to a nf nt : Z) (fo ro : STObject) (r : TER) (is_open : bool) : Prop :=
  if a <=? nf
  then r = tesSUCCESS /\
       m' = <[getAccountRootIndex to := account_entry to (with_drops ro (nt + a))]>
              (<[getAccountRootIndex from := account_entry from (with_drops fo (nf - a))]> m)
  else r = (if is_open then telFAILED_PROCESSING else tecFAILED_PROCESSING) /\ m' = m.

Lemma moved_total m m' from to a nf nt fo ro r c : STAmount.id160 from -> STAmount.id160 to -> from <> to ->
  holds_drops m from nf fo -> holds_drops m to nt ro -> moved m m' from to a nf nt fo ro r c ->
  total m' = total m.
Proof.
  intros Hf Ht Hne (Hmf & Hbf & _) (Hmt & Hbt & _). unfold moved. case_if; intros [_ ->]; [|done].
  rewrite (total_replace _ _ (account_entry to ro)), (total_replace _ _ _ _ Hmf).
  - unfold drops_of. simpl. unfold with_drops. rewrite !lookup_insert_eq, Hbf, Hbt.
    unfold STAmount.signed. simpl. lia.
  - rewrite lookup_insert_ne; [done|]. by apply account_key_ne.
Qed.

Section rule.
Variables (b : V) (d : Z * Z) (from to a nf nt : Z) (fo ro : STObject).
Hypotheses (Hf : STAmount.id160 from) (Ht : STAmount.id160 to) (Hne : from <> to)
  (Ha : drops_ok a) (Hsum : drops_ok (nt + a)).

Lemma transferXRP_rule s k (Q : TER -> St V -> Prop) : rep b d s k -> from <> 0 -> to <> 0 ->
  holds_drops (am k) from nf fo -> holds_drops (am k) to nt ro ->
  (forall r m' ap' s', tabs s' = tabs s -> rep b d s' (mkKnow m' ap' (loose k) (dirty k)) ->
     moved (am k) m' from to a nf nt fo ro r (isOpen (View.vinfo (av s'))) -> Q r s') ->
  wpm (transferXRP from to (xrp a)) s Q.
Proof.
  intros Hr Hf0 Ht0 (Hmf & Hbf & Hnf) (Hmt & Hbt & Hnt) HQ. unfold transferXRP.
  pose proof (account_key_ne from to Hf Ht Hne) as Hk. pose proof (not_eq_sym Hk) as Hk'.
  do 4 (apply wpm_bind, wpm_assert; [by rewrite ?(proj2 (Z.eqb_neq _ _))|]).
  apply wpm_bind. eapply peek_any_rule; [exact Hr|apply getAccountRootIndex_pos|done|apply account_check|].
  intros ps fs s1 Ht1 _ Hr1.
  apply wpm_bind. eapply peek_any_rule; [exact Hr1|apply getAccountRootIndex_pos|done|apply account_check|].
  intros pr fr s2 Ht2 _ Hr2. simpl in Hr2. apply wpm_bind, wpm_need.
  apply wpm_bind. eapply (get_rule _ _ _ _ (getAccountRootIndex from)); [exact Hr2|simpl; by simplify_map_eq|done|by apply get_balance|].
  apply wpm_bind. eapply wpm_lift; [by apply xrp_ltb|]. unfold moved in HQ. unfold drops_ok in *.
  rewrite Z.ltb_antisym. destruct (Z.leb_spec a nf) as [Hle|Hlt]; simpl.
  2:{ unfold failed_processing. apply wpm_bind. unfold vopen. eexists _, s2. split; [done|].
      apply wpm_ret. eapply HQ; [congruence|exact Hr2|done]. }
  apply wpm_bind. eapply wpm_lift; [by apply sub_xrp|].
  eapply (set_update_rule _ _ _ _ (getAccountRootIndex from)); [exact Hr2|simpl; by simplify_map_eq|done|by apply (set_balance _ nf)|].
  intros s3 Ht3 Hr3. simpl in Hr3. apply wpm_bind, wpm_need.
  apply wpm_bind. eapply (get_rule _ _ _ _ (getAccountRootIndex to)); [exact Hr3|simpl; by simplify_map_eq|simpl; by simplify_map_eq|by apply get_balance|].
  apply wpm_bind. eapply wpm_lift; [by apply add_xrp|].
  eapply (set_update_rule _ _ _ _ (getAccountRootIndex to)); [exact Hr3|simpl; by simplify_map_eq|simpl; by simplify_map_eq|by apply (set_balance _ nt)|].
  intros s4 Ht4 Hr4. apply wpm_ret. eapply HQ; [congruence|exact Hr4|done].
Qed.

End rule.

Lemma transferXRP_spec (s : St V) from to a nf nt fo ro : good (av s) ->
  STAmount.id160 from -> STAmount.id160 to -> from <> to -> from <> 0 -> to <> 0 ->
  drops_ok a -> drops_ok (nt + a) ->
  holds_drops (contents (av s)) from nf fo -> holds_drops (contents (av s)) to nt ro ->
  exists r s', transferXRP from to (xrp a) s = Ok (r, s') /\ good (av s') /\ untouched s s' /\
    moved (contents (av s)) (contents (av s')) from to a nf nt fo ro r (isOpen (View.vinfo (av s))) /\
    total (contents (av s')) = total (contents (av s)).
Proof.
  intros Hg Hf Ht Hne Hf0 Ht0 Ha Hsum Hhf Hht.
  destruct (wpm_view (transferXRP from to (xrp a)) s
    (fun r m => moved (contents (av s)) m from to a nf nt fo ro r (isOpen (View.vinfo (av s)))))
    as (r & s' & ? & ? & ? & Hm); [done| |].
  - intros b d Hr. eapply transferXRP_rule; [done..|]. intros r m' ap' s' Hts Hr' Hm.
    replace (isOpen (View.vinfo (av s'))) with (isOpen (View.vinfo (av s))) in Hm.
    + by apply (settled b d s s' _ _ _
        (fun m => moved (contents (av s)) m from to a nf nt fo ro r (isOpen (View.vinfo (av s)))) Hts Hr').
    + simpl. by rewrite (rep_base _ _ _ _ Hr), (rep_base _ _ _ _ Hr').
  - exists r, s'. split_and!; try done.
    by apply (moved_total _ _ from to a nf nt fo ro r _ Hf Ht Hne Hhf Hht Hm).
Qed.

(** [transferXRP] moves drops.  Between two accounts of a view, with room for
    the drops at the receiver, the transfer takes exactly the amount from the
    one balance and adds it to the other, or, when the sender has less than the
    amount, fails and changes nothing; no other entry changes, and the drops of
    all accounts together stay the same. *)
Theorem transferXRP_conserves (s : St V) from to a nf nt fo ro : good (av s) ->
  STAmount.id160 from -> STAmount.id160 to -> from <> to -> from <> 0 -> to <> 0 ->
  drops_ok a -> drops_ok (nt + a) ->
  holds_drops (contents (av s)) from nf fo -> holds_drops (contents (av s)) to nt ro ->
  exists r s', transferXRP from to (xrp a) s = Ok (r, s') /\ good (av s') /\ untouched s s' /\
    moved (contents (av s)) (contents (av s')) from to a nf nt fo ro r (isOpen (View.vinfo (av s))) /\
    total (contents (av s')) = total (contents (av s)).
Proof. apply transferXRP_spec. Qed.

(** Between two accounts that exist, [accountSend] of XRP takes the steps of
    [transferXRP]. *)
Lemma accountSend_XRP_steps (s : St V) from to amount pf pt s1 s2 : from <> 0 -> to <> 0 -> from <> to ->
  STAmount.mIsNative amount = true ->
  peek (account from) s = Ok (Some pf, s1) -> peek (account to) s1 = Ok (Some pt, s2) ->
  accountSend_XRP from to amount s = transferXRP from to amount s.
Proof.
  intros Hf Ht Hne Hn Hpf Hpt. unfold accountSend_XRP, transferXRP.
  rewrite (proj2 (Z.eqb_neq from 0)), (proj2 (Z.eqb_neq to 0)), (proj2 (Z.eqb_neq from to)), Hn by done.
  assert (Hok : forall (K : M V TER), (_ ← assert true; K) = K).
  { intros K. unfold assert, Keylet.assert. simpl. rewrite andb_false_r. done. }
  simpl negb. rewrite !Hok. unfold mbind, M_bind. rewrite Hpf, Hpt. simpl.
  destruct (get pf _ s2) as [[balance s3]| |]; [|done..].
  destruct (lift _ s3) as [[[] s4]| |]; [| |done..].
  - unfold failed_processing, mbind, M_bind, vopen. simpl. by case_if.
  - destruct (lift _ s4) as [[left s5]| |]; [|done..]. destruct (set pf _ s5) as [[[] s6]| |]; [|done..].
    destruct (update pf s6) as [[[] s7]| |]; [|done..]. simpl. done.
Qed.

(** Sending XRP with [accountSend] between two accounts that exist is
    recording the credit and then [transferXRP]: the same result, the same
    changes and the same exceptions. *)
Theorem accountSend_transferXRP (s : St V) from to amount fo ro : good (av s) ->
  from <> 0 -> to <> 0 -> from <> to ->
  STAmount.mIsNative amount = true -> 0 < STAmount.signum amount ->
  contents (av s) !! getAccountRootIndex from = Some (account_entry from fo) ->
  contents (av s) !! getAccountRootIndex to = Some (account_entry to ro) ->
  accountSend from to amount s = (_ ← creditHook from to amount; transferXRP from to amount) s.
Proof.
  intros Hg Hf Ht Hne Hn Hs Hmf Hmt. unfold accountSend, assert, Keylet.assert.
  rewrite (proj2 (Z.leb_le 0 _)), Hn by lia. rewrite andb_false_r.
  unfold isZero, STAmount.is_zero. rewrite (proj2 (Z.eqb_neq _ 0)), (proj2 (Z.eqb_neq from to)) by (done || lia).
  simpl. unfold mbind, M_bind. simpl.
  destruct (creditHook from to amount s) as [[[] s']| |] eqn:Hc; [|done..].
  assert (av s' = av s) as Hav.
  { unfold creditHook in Hc. destruct (DeferredCredits.creditHook _ _ _ _); simpl in Hc; [|done..].
    by injection Hc as <-. }
  pose proof (good_rep s') as Hr. rewrite Hav in Hr. specialize (Hr Hg).
  destruct (peek_any_rule _ _ s' _ (account from) _
    (fun p s1 => exists k, rep (ApplyView.base_ (av s)) (ApplyStateTable.dropsDestroyed_ (ApplyView.items_ (av s)),
       ApplyStateTable.dropsCreated_ (ApplyView.items_ (av s))) s1 k /\ am k = contents (av s) /\ is_Some p)
    Hr (getAccountRootIndex_pos from) Hmf (account_check from fo)) as (p & s1 & Hp & k & Hr1 & Hk & [pf ->]).
  { intros p f s1 _ _ Hr1. eexists. split; [exact Hr1|done]. }
  rewrite <- Hk in Hmt.
  destruct (peek_any_rule _ _ s1 _ (account to) _ (fun p _ => is_Some p) Hr1 (getAccountRootIndex_pos to)
    Hmt (account_check to ro)) as (p & s2 & Hp2 & [pt ->]); [done|].
  by eapply accountSend_XRP_steps.
Qed.

(** ** The owner count *)

(** The nearest 32-bit number. *)
Definition clamp32 (z : Z) : Z := Z.max 0 (Z.min z (2 ^ 32 - 1)).

Definition with_owners (o : STObject) (n : Z) : STObject := <[sfOwnerCount := Some (U32 n)]> o.

Lemma adjusted_clamp n amount : - 2 ^ 31 <= amount < 2 ^ 31 -> 0 <= n < 2 ^ 32 ->
  adjusted (V := V) n amount = if 0 <=? n + amount then mret (clamp32 (n + amount)) else _ ← assert false; mret 0.
Proof.
  intros Ha Hn. unfold adjusted, clamp32. destruct (Z.ltb_spec 0 amount).
  - rewrite (proj2 (Z.leb_le 0 (n + amount))) by lia. destruct (Z.leb_spec (n + amount) (2 ^ 32 - 1)).
    + rewrite u32_id by lia. rewrite (proj2 (Z.ltb_ge _ _)) by lia. f_equal. lia.
    + replace (u32 (n + amount)) with (n + amount - 2 ^ 32).
      * rewrite (proj2 (Z.ltb_lt _ _)) by lia. f_equal. lia.
      * unfold u32. rewrite <- (Z_mod_plus_full _ (-1)), Z.mod_small; lia.
  - destruct (Z.leb_spec 0 (n + amount)).
    + rewrite u32_id by lia. rewrite (proj2 (Z.ltb_ge _ _)) by lia. f_equal. lia.
    + replace (u32 (n + amount)) with (n + amount + 2 ^ 32).
      * by rewrite (proj2 (Z.ltb_lt _ _)) by lia.
      * unfold u32. rewrite <- (Z_mod_plus_full _ 1), Z.mod_small; lia.
Qed.

Lemma adjustOwnerCount_rule b d s k i p f e n amount (Q : unit -> St V -> Prop) : rep b d s k ->
  ap k !! i = Some (p, f) -> am k !! i = Some e -> fields e !! sfOwnerCount = Some (Some (U32 n)) ->
  amount <> 0 -> - 2 ^ 31 <= amount < 2 ^ 31 -> 0 <= n < 2 ^ 32 -> NDEBUG = true \/ 0 <= n + amount ->
  (forall s', tabs s' = tabs s ->
     rep b d s' (mkKnow (<[i := with_fields e (with_owners (fields e) (clamp32 (n + amount)))]> (am k))
                   (<[i := (p, true)]> (ap k)) (loose k) (dirty k)) -> Q tt s') ->
  wpm (adjustOwnerCount p amount) s Q.
Proof.
  intros Hr Hp He Ho Ha0 Ha Hn Hok HQ. unfold adjustOwnerCount.
  apply wpm_bind, wpm_assert; [by rewrite (proj2 (Z.eqb_neq _ _))|].
  apply wpm_bind. eapply get_rule; [done..|unfold getFieldU32, getField; by rewrite Ho|].
  apply wpm_bind. rewrite adjusted_clamp by done.
  assert (Hset : setFieldU32 sfOwnerCount (clamp32 (n + amount)) (fields e) =
                 Ok (with_owners (fields e) (clamp32 (n + amount)))).
  { apply setField_ok; [|done]. unfold has_place. by rewrite Ho. }
  destruct (Z.leb_spec 0 (n + amount)) as [Hle|Hlt].
  - apply wpm_ret. by eapply set_update_last.
  - destruct Hok as [Hnd|]; [|lia]. apply wpm_bind. unfold assert, Keylet.assert. rewrite Hnd. simpl.
    eapply wpm_lift; [done|]. apply wpm_ret. replace 0 with (clamp32 (n + amount)) by (unfold clamp32; lia).
    by eapply set_update_last.
Qed.

(** The owner count never wraps.  [adjustOwnerCount] on the account a view
    shows adds to its count and stops at the ends of the 32-bit range, and
    changes nothing else; only a debug build stops with an assertion instead,
    when more is taken away than there is. *)
Theorem adjustOwnerCount_saturates (s : St V) id o n amount : good (av s) -> amount <> 0 ->
  - 2 ^ 31 <= amount < 2 ^ 31 -> 0 <= n < 2 ^ 32 ->
  contents (av s) !! getAccountRootIndex id = Some (account_entry id o) ->
  o !! sfOwnerCount = Some (Some (U32 n)) ->
  let run := (p ← peek (account id); q ← need p; adjustOwnerCount q amount) s in
  if negb NDEBUG && (n + amount <? 0) then run = Throw "assert"
  else exists s', run = Ok (tt, s') /\ good (av s') /\ untouched s s' /\
    contents (av s') = <[getAccountRootIndex id := account_entry id (with_owners o (clamp32 (n + amount)))]>
                         (contents (av s)).
Proof.
  intros Hg Ha0 Ha Hn Hm Ho run. subst run. destruct (negb NDEBUG && (n + amount <? 0)) eqn:Hc.
  - reflect_bools. pose proof (good_rep s Hg) as Hr.
    destruct (peek_any_rule _ _ s _ (account id) _ (fun p s1 => exists p' k f,
      p = Some p' /\ rep (ApplyView.base_ (av s)) (ApplyStateTable.dropsDestroyed_ (ApplyView.items_ (av s)),
       ApplyStateTable.dropsCreated_ (ApplyView.items_ (av s))) s1 k /\ am k = contents (av s) /\
      ap k !! getAccountRootIndex id = Some (p', f))
      Hr (getAccountRootIndex_pos id) Hm (account_check id o)) as (p & s1 & Hp & p' & k & f & -> & Hr1 & Hk & Hap).
    { intros p f s1 _ _ Hr1. eexists p, _, f. split_and!; [done|exact Hr1|done|apply lookup_insert_eq]. }
    unfold mbind, M_bind. rewrite Hp. simpl. unfold adjustOwnerCount, mbind, M_bind.
    destruct (deref_rule _ _ s1 k _ p' f (account_entry id o) (fun e s2 => e = account_entry id o /\ s2 = s1) Hr1 Hap)
      as (e & s2 & Hd & -> & ->); [by rewrite Hk|done|].
    unfold assert, Keylet.assert. rewrite (proj2 (Z.eqb_neq _ _)), andb_false_r by done. simpl.
    unfold get, mbind, M_bind. rewrite Hd. unfold lift, getFieldU32, getField. simpl. rewrite Ho. simpl.
    rewrite adjusted_clamp by done. rewrite (proj2 (Z.leb_gt _ _)) by lia.
    unfold mbind, M_bind, assert, Keylet.assert. by destruct NDEBUG.
  - destruct (wpm_view (p ← peek (account id); q ← need p; adjustOwnerCount q amount) s
      (fun _ m => m = <[getAccountRootIndex id := account_entry id (with_owners o (clamp32 (n + amount)))]>
                        (contents (av s)))) as ([] & s' & ?); [done| |by exists s'].
    intros b d Hr. apply wpm_bind.
    eapply peek_any_rule; [exact Hr|apply getAccountRootIndex_pos|done|apply account_check|].
    intros p f s1 Ht1 _ Hr1. apply wpm_bind, wpm_need.
    eapply adjustOwnerCount_rule; [exact Hr1|apply lookup_insert_eq|done|done|done|done|done| |].
    + apply andb_false_iff in Hc as [Hc|Hc]; [left; by destruct NDEBUG|right; by apply Z.ltb_ge].
    + intros s' Ht' Hr'. by apply (settled b d s s' _ _ _ (fun m => m = _) ltac:(congruence) Hr').
Qed.

End transfer.

(** ** An example: the accounts 7 and 9 *)

Module Examples.
#[export] Instance debug : Build := {| NDEBUG := false |}.
#[export] Existing Instance IdealHash.ideal.
#[export] Existing Instance IdealHash.ideal_laws.

Definition account_of (id n : Z) : STObject :=
  match (sle ← make_SLE (account id); o ← setAccountID sfAccount id (fields sle);
         o ← setFieldU32 sfOwnerCount 2 o; setFieldAmount sfBalance (xrp n) o) with Ok o => o | _ => ∅ end.

Definition accounts79 : gmap Z Entry :=
  {[ getAccountRootIndex 7 := account_entry 7 (account_of 7 100);
     getAccountRootIndex 9 := account_entry 9 (account_of 9 5) ]}.

Definition ledger79 : Ledger.t STObject := Ledger.mk accounts79 ∅ info0.

Definition start79 : St (Ledger.t STObject) := mkSt (ApplyView.make ledger79) [∅].

Lemma id_small n : 0 <= n < 100 -> STAmount.id160 n.
Proof. unfold STAmount.id160. lia. Qed.

Lemma ledger79_good : good ledger79.
Proof.
  split; [|done]. intros i s Hs. change (accounts79 !! i = Some s) in Hs.
  unfold accounts79 in Hs. rewrite lookup_insert_Some in Hs. destruct Hs as [[<- <-]|[_ Hs]].
  - split; [reflexivity|apply getAccountRootIndex_pos].
  - rewrite lookup_singleton_Some in Hs. destruct Hs as [<- <-]. split; [reflexivity|apply getAccountRootIndex_pos].
Qed.

Lemma start79_good : good (av start79).
Proof. apply ApplyView.make_good, ledger79_good. Qed.

Lemma start79_contents : contents (av start79) = contents ledger79.
Proof. apply (ApplyView.make_good ledger79 ledger79_good). Qed.

Lemma start79_7 : holds_drops (contents (av start79)) 7 100 (account_of 7 100).
Proof. rewrite start79_contents. unfold holds_drops.
  split; [vm_compute; reflexivity|]. split; [vm_compute; reflexivity|]. by split; vm_compute. Qed.

Lemma start79_9 : holds_drops (contents (av start79)) 9 5 (account_of 9 5).
Proof. rewrite start79_contents. unfold holds_drops.
  split; [vm_compute; reflexivity|]. split; [vm_compute; reflexivity|]. by split; vm_compute. Qed.

Lemma transferXRP_conserves_witness : exists r s',
  transferXRP 7 9 (xrp 30) start79 = Ok (r, s') /\ good (av s') /\ untouched start79 s' /\
  moved (contents (av start79)) (contents (av s')) 7 9 30 100 5 (account_of 7 100) (account_of 9 5) r
    (isOpen (View.vinfo (av start79))) /\
  total (contents (av s')) = total (contents (av start79)).
Proof.
  apply (transferXRP_conserves start79 7 9 30 100 5 (account_of 7 100) (account_of 9 5) start79_good
           (id_small 7 ltac:(lia)) (id_small 9 ltac:(lia)));
    [done|done|done|by vm_compute|by vm_compute|apply start79_7|apply start79_9].
Defined.

Lemma accountSend_transferXRP_witness :
  accountSend 7 9 (xrp 30) start79 = (_ ← creditHook 7 9 (xrp 30); transferXRP 7 9 (xrp 30)) start79.
Proof.
  apply (accountSend_transferXRP start79 7 9 (xrp 30) (account_of 7 100) (account_of 9 5) start79_good);
    [done|done|done|done|done|apply start79_7|apply start79_9].
Defined.

Lemma adjustOwnerCount_saturates_witness : exists s',
  (p ← peek (account 7); q ← need p; adjustOwnerCount q (-2)) start79 = Ok (tt, s') /\
  good (av s') /\ untouched start79 s' /\
  contents (av s') = <[getAccountRootIndex 7 := account_entry 7 (with_owners (account_of 7 100) (clamp32 (2 + -2)))]>
                       (contents (av start79)).
Proof.
  refine (adjustOwnerCount_saturates start79 7 (account_of 7 100) 2 (-2) start79_good _ _ _ _ _);
    [done|done|done|apply start79_7|by vm_compute].
Defined.

End Examples.
End Transfers.
