(* ===== verification/LineCredit.v ===== *)
(** * Credits on trust lines

    [rippleCredit], [issueIOU] and [redeemIOU] (ledger/impl/View.cpp) on a trust
    line that exists and stays: the balance of the line changes by the amount, in the
    terms of the sender; a sender that no longer needs the line gives up its
    reserve; and the three functions do the same. *)

From stdpp Require Import base tactics numbers list strings gmap sorting option.
From S2P Require Import Prelude Decimal IOUAmount BigNum Serializer STAmount.
From S2P Require Import View StateTable ApplyStateTable Fields Indexes PaymentSandbox ViewOps Directory.
From S2P Require Import TrustLines Transfers.

Module LineCredit.
Import Fields ViewOps Indexes TrustLines Transfers.

(** ** What a credit does to the entries *)

(** The condition for giving up the reserve of the sender's side, on values. *)
Definition clears (high : bool) (before after : STAmount.t) (line_o account_o : STObject) : bool :=
  let flags := u32_of sfFlags line_o in
  positive before && negb (positive after) &&
  has flags (side high lsfLowReserve lsfHighReserve) &&
  negb (Bool.eqb (has flags (side high lsfLowNoRipple lsfHighNoRipple))
                 (has (getFlags account_o) lsfDefaultRipple)) &&
  negb (has flags (side high lsfLowFreeze lsfHighFreeze)) &&
  isZero (amt_of (side high sfLowLimit sfHighLimit) line_o) &&
  (u32_of (side high sfLowQualityIn sfHighQualityIn) line_o =? 0) &&
  (u32_of (side high sfLowQualityOut sfHighQualityOut) line_o =? 0).

Definition with_amount (f : SField) (a : STAmount.t) (o : STObject) : STObject := <[f := Some (AMT a)]> o.

(** The line after the credit. *)
Definition credited (high : bool) (after : STAmount.t) (clear : bool) (o : STObject) : STObject :=
  with_amount sfBalance (sided high after)
    (if clear
     then <[sfFlags := Some (U32 (without (u32_of sfFlags o) (side high lsfLowReserve lsfHighReserve)))]> o
     else o).

Section credit.
Context `{Build} {SHA : SHA512Half} {SL : SHA512HalfLaws SHA} {V : Type} {RV : ReadView STObject V}.
Context {VM : ViewModel STObject V} {RL : ReadViewLaws STObject V}.

Definition line_entry (a c currency : Z) (o : STObject) : Entry :=
  mkSLE (getRippleStateIndex a c currency) ltRIPPLE_STATE o.

(** The entries after a credit that keeps the line. *)
Definition after_credit (m : gmap Z Entry) (sender receiver currency : Z) (after : STAmount.t) (clear : bool)
    (line_o account_o : STObject) : gmap Z Entry :=
  <[getRippleStateIndex sender receiver currency :=
      line_entry sender receiver currency (credited (receiver <? sender) after clear line_o)]>
    (if clear
     then <[getAccountRootIndex sender :=
              account_entry sender (with_owners account_o (u32_of sfOwnerCount account_o - 1))]> m
     else m).

(** A line and the account of its sender are shown. *)
Record on_line (m : gmap Z Entry) (sender receiver currency : Z) (line_o account_o : STObject) : Prop := {
  line_shown : m !! getRippleStateIndex sender receiver currency = Some (line_entry sender receiver currency line_o);
  line_typed : conforms (RippleState ++ common_fields) line_o;
  sender_shown : m !! getAccountRootIndex sender = Some (account_entry sender account_o);
  sender_typed : conforms (AccountRoot ++ common_fields) account_o;
  sender_owns : 0 < u32_of sfOwnerCount account_o < 2 ^ 32 }.

#[local] Ltac in_template := by apply (bool_decide_unpack _); vm_compute.

Lemma line_place o f : conforms (RippleState ++ common_fields) o ->
  bool_decide (f ∈ (RippleState ++ common_fields).*1) = true -> has_place f o.
Proof. intros [_ Hp] Hf%bool_decide_eq_true. by apply Hp. Qed.

Lemma line_check a c cu o : Keylet.check (line_at (getRippleStateIndex a c cu)) (line_entry a c cu o) = Ok true.
Proof. unfold Keylet.check, Keylet.assert. simpl. by rewrite andb_false_r. Qed.

Section rules.
Variables (b : V) (d : Z * Z).

(** The condition, with the flags of the sender's account at hand. *)
Lemma clears_reserve_rule s k i p f e high before after account_o senderFlags (Q : bool -> St V -> Prop) :
  rep b d s k -> ap k !! i = Some (p, f) -> am k !! i = Some e ->
  conforms (RippleState ++ common_fields) (fields e) ->
  (forall Q' : Z -> St V -> Prop, Q' (getFlags account_o) s -> wpm senderFlags s Q') ->
  Q (clears high before after (fields e) account_o) s ->
  wpm (clears_reserve p high before after (u32_of sfFlags (fields e)) senderFlags) s Q.
Proof.
  intros Hr Hp He Hc Hsend. unfold clears_reserve, clears. set (flags := u32_of sfFlags (fields e)).
  destruct (positive before); simpl; [|apply wpm_ret]. destruct (positive after); simpl; [apply wpm_ret|].
  destruct (has flags (side high lsfLowReserve lsfHighReserve)); simpl; [|apply wpm_ret]. intros HQ.
  apply wpm_bind, Hsend. revert HQ. destruct (Bool.eqb _ _); simpl; [apply wpm_ret|].
  destruct (has flags (side high lsfLowFreeze lsfHighFreeze)); simpl; [apply wpm_ret|]. intros HQ.
  apply wpm_bind. eapply get_rule; [exact Hr|done|done|
    apply get_amt_of; [apply line_place; [done|by destruct high]|by destruct high]|]. revert HQ.
  destruct (isZero _); simpl; [|apply wpm_ret]. intros HQ.
  apply wpm_bind. eapply get_rule; [exact Hr|done|done|
    apply get_u32_of; [apply line_place; [done|by destruct high]|by destruct high]|]. revert HQ.
  destruct (u32_of (side high sfLowQualityIn sfHighQualityIn) (fields e) =? 0); simpl; [|apply wpm_ret]. intros HQ.
  apply wpm_bind. eapply get_rule; [exact Hr|done|done|
    apply get_u32_of; [apply line_place; [done|by destruct high]|by destruct high]|]. by apply wpm_ret.
Qed.

Section line.
Variables (sender receiver currency : Z) (line_o account_o : STObject) (amount after : STAmount.t).
Variables (tabs0 tabs1 : list DeferredCredits.table).

Abbreviation high := (receiver <? sender).
Abbreviation before := (sided high (amt_of sfBalance line_o)).
Abbreviation clear := (clears high before after line_o account_o).
Abbreviation kline := (getRippleStateIndex sender receiver currency).

Hypotheses (Hafter : STAmount.sub before amount = Ok after)
  (Hhook : DeferredCredits.creditHook sender receiver amount tabs0 = Ok tabs1)
  (Hkept : clear && unused high after (u32_of sfFlags line_o) = false).

Lemma keys_ne : kline <> getAccountRootIndex sender.
Proof. apply not_eq_sym, account_not_line. Qed.

(** Giving up the reserve. *)
Lemma give_up_rule s k p f q (g : bool) (Q : unit -> St V -> Prop) : rep b d s k ->
  on_line (am k) sender receiver currency line_o account_o ->
  ap k !! kline = Some (p, f) -> ap k !! getAccountRootIndex sender = Some (q, g) ->
  (forall s' ap', tabs s' = tabs s -> ap' !! kline = Some (p, f) ->
     rep b d s' (mkKnow (<[kline := line_entry sender receiver currency
         (<[sfFlags := Some (U32 (without (u32_of sfFlags line_o) (side high lsfLowReserve lsfHighReserve)))]> line_o)]>
       (<[getAccountRootIndex sender :=
           account_entry sender (with_owners account_o (u32_of sfOwnerCount account_o - 1))]> (am k)))
       ap' (loose k) (fun j => dirty k j \/ j = kline)) -> Q tt s') ->
  wpm (_ ← adjustOwnerCount q (-1);
       set p (setFieldU32 sfFlags (without (u32_of sfFlags line_o) (side high lsfLowReserve lsfHighReserve)))) s Q.
Proof.
  intros Hr [Hl Hlt Hs Hst Hown] Hp Hq HQ. pose proof keys_ne as Hne. apply wpm_bind.
  assert (Hcount : account_o !! sfOwnerCount = Some (Some (U32 (u32_of sfOwnerCount account_o)))).
  { destruct Hst as [_ Hpl]. specialize (Hpl sfOwnerCount ltac:(in_template)).
    unfold has_place, u32_of in *. destruct (account_o !! sfOwnerCount) as [[[]|]|]; done || lia. }
  eapply adjustOwnerCount_rule; [exact Hr|exact Hq|exact Hs|exact Hcount|done|done|lia|right; lia|].
  intros s1 Ht1 Hr1. simpl in Hr1.
  replace (clamp32 (u32_of sfOwnerCount account_o + -1)) with (u32_of sfOwnerCount account_o - 1) in Hr1
    by (unfold clamp32; lia).
  eapply set_pending; [exact Hr1|simpl; by rewrite lookup_insert_ne|simpl; by rewrite lookup_insert_ne| |].
  { apply setField_ok; [|done]. apply line_place; [done|by vm_compute]. }
  intros s2 Ht2 Hr2. eapply HQ; [congruence| |exact Hr2]. simpl. by rewrite lookup_insert_ne.
Qed.

(** The end of a credit that keeps the line. *)
Lemma finish_rule s k m p f o (Q : TER -> St V -> Prop) :
  rep b d s k -> ap k !! kline = Some (p, f) ->
  am k !! kline = Some (line_entry sender receiver currency o) -> has_place sfBalance o ->
  <[kline := line_entry sender receiver currency (with_amount sfBalance (sided high after) o)]> (am k) = m ->
  (forall s' ap', tabs s' = tabs s ->
     rep b d s' (mkKnow m ap' (loose k) (fun j => dirty k j /\ j <> kline)) -> Q tesSUCCESS s') ->
  wpm (_ ← set p (setFieldAmount sfBalance (sided high after)); _ ← update p; mret tesSUCCESS) s Q.
Proof.
  intros Hr Hp He Ho Hm HQ. apply wpm_pair.
  eapply set_update_settles; [exact Hr|done|exact He|by apply setField_ok|].
  intros s' Ht Hr'. apply wpm_ret. eapply HQ; [done|]. rewrite <- Hm. exact Hr'.
Qed.

Lemma flags_place o v : conforms (RippleState ++ common_fields) o -> has_place sfBalance (<[sfFlags := Some (U32 v)]> o).
Proof. intros Ho. apply has_place_insert; [|done]. apply line_place; [done|by vm_compute]. Qed.

Lemma rippleCredit_line_rule s k p f (Q : TER -> St V -> Prop) : rep b d s k -> tabs s = tabs0 ->
  on_line (am k) sender receiver currency line_o account_o -> ap k !! kline = Some (p, f) ->
  (forall s' ap', tabs s' = tabs1 ->
     rep b d s' (mkKnow (after_credit (am k) sender receiver currency after clear line_o account_o)
                   ap' (loose k) (dirty k)) -> Q tesSUCCESS s') ->
  wpm (rippleCredit_line p sender receiver amount) s Q.
Proof.
  intros Hr Ht0 Hon Hp HQ. pose proof Hon as [Hl Hlt Hs Hst Hown]. pose proof keys_ne as Hne.
  unfold rippleCredit_line. apply wpm_bind. eapply creditHook_rule; [exact Hr|by rewrite Ht0|].
  intros s1 Ht1 Hr1. apply wpm_bind.
  eapply get_rule; [exact Hr1|done|exact Hl|apply get_amt_of; [apply line_place; [done|by vm_compute]|done]|].
  simpl fields. apply wpm_bind. eapply wpm_lift; [exact Hafter|].
  apply wpm_bind. eapply get_rule; [exact Hr1|done|exact Hl|
    apply get_u32_of; [apply line_place; [done|by vm_compute]|done]|]. simpl fields.
  apply wpm_bind.
  eapply (clears_reserve_rule s1 k kline p f (line_entry sender receiver currency line_o) high before after account_o);
    [exact Hr1|done|exact Hl|exact Hlt| |].
  { intros Q' HQ'. apply wpm_bind. eapply read_rule; [exact Hr1|apply getAccountRootIndex_pos| |].
    - simpl. rewrite Hs. unfold Keylet.checked. by rewrite account_check.
    - by apply wpm_ret. }
  simpl fields. unfold after_credit in HQ. destruct clear eqn:Hc; simpl in Hkept.
  - apply wpm_bind, wpm_bind.
    eapply peek_any_rule; [exact Hr1|apply getAccountRootIndex_pos|exact Hs|apply account_check|].
    intros q g s2 Ht2 _ Hr2. apply wpm_bind, wpm_need.
    eapply give_up_rule; [exact Hr2|done|simpl; by rewrite lookup_insert_ne|apply lookup_insert_eq|].
    intros s3 ap3 Ht3 Hp3 Hr3. simpl in Hr3. rewrite Hkept. simpl.
    eapply finish_rule; [exact Hr3|exact Hp3|apply lookup_insert_eq|by apply flags_place| |].
    + simpl. by rewrite insert_insert_eq.
    + intros s4 ap4 Ht4 Hr4. apply (HQ s4 ap4); [congruence|]. eapply rep_weaken; [exact Hr4|done..|].
      simpl. by intros j [[?|?] ?].
  - apply wpm_bind, wpm_ret. simpl.
    eapply finish_rule; [exact Hr1|exact Hp|exact Hl|apply line_place; [done|by vm_compute]|done|].
    intros s4 ap4 Ht4 Hr4. apply (HQ s4 ap4); [congruence|]. eapply rep_weaken; [exact Hr4|done..|].
    simpl. by intros j [? ?].
Qed.

Lemma adjust_line_rule s k p f (Q : TER -> St V -> Prop) : rep b d s k -> tabs s = tabs0 ->
  on_line (am k) sender receiver currency line_o account_o -> ap k !! kline = Some (p, f) ->
  (forall s' ap', tabs s' = tabs1 ->
     rep b d s' (mkKnow (after_credit (am k) sender receiver currency after clear line_o account_o)
                   ap' (loose k) (dirty k)) -> Q tesSUCCESS s') ->
  wpm (adjust_line p sender receiver amount) s Q.
Proof.
  intros Hr Ht0 Hon Hp HQ. pose proof Hon as [Hl Hlt Hs Hst Hown]. pose proof keys_ne as Hne.
  unfold adjust_line. apply wpm_bind.
  eapply get_rule; [exact Hr|done|exact Hl|apply get_amt_of; [apply line_place; [done|by vm_compute]|done]|].
  simpl fields. apply wpm_bind. eapply wpm_lift; [exact Hafter|].
  apply wpm_bind. unfold updateTrustLine. apply wpm_bind.
  eapply get_rule; [exact Hr|done|exact Hl|
    apply get_u32_of; [apply line_place; [done|by vm_compute]|done]|]. simpl fields.
  apply wpm_bind. eapply peek_any_rule; [exact Hr|apply getAccountRootIndex_pos|exact Hs|apply account_check|].
  intros q g s1 Ht1 _ Hr1. apply wpm_bind, wpm_assert; [done|]. apply wpm_bind.
  eapply (clears_reserve_rule s1 _ kline p f (line_entry sender receiver currency line_o) high before after account_o);
    [exact Hr1|simpl; by rewrite lookup_insert_ne|exact Hl|exact Hlt| |].
  { intros Q' HQ'. apply wpm_bind, wpm_need. eapply get_rule; [exact Hr1|apply lookup_insert_eq|exact Hs|done|done]. }
  simpl fields. unfold after_credit in HQ. destruct clear eqn:Hc; simpl in Hkept.
  - apply wpm_bind, wpm_need. apply wpm_pair.
    eapply give_up_rule; [exact Hr1|done|simpl; by rewrite lookup_insert_ne|apply lookup_insert_eq|].
    intros s2 ap2 Ht2 Hp2 Hr2. simpl in Hr2. apply wpm_ret. rewrite Hkept.
    apply wpm_bind. eapply creditHook_rule; [exact Hr2|by rewrite Ht2, Ht1, Ht0|]. intros s3 Ht3 Hr3.
    eapply finish_rule; [exact Hr3|exact Hp2|apply lookup_insert_eq|by apply flags_place| |].
    + simpl. by rewrite insert_insert_eq.
    + intros s4 ap4 Ht4 Hr4. apply (HQ s4 ap4); [congruence|]. eapply rep_weaken; [exact Hr4|done..|].
      simpl. by intros j [[?|?] ?].
  - apply wpm_ret. apply wpm_bind. eapply creditHook_rule; [exact Hr1|by rewrite Ht1, Ht0|]. intros s3 Ht3 Hr3.
    eapply finish_rule; [exact Hr3|simpl; by rewrite lookup_insert_ne|exact Hl|
      apply line_place; [done|by vm_compute]|done|].
    intros s4 ap4 Ht4 Hr4. apply (HQ s4 ap4); [congruence|]. eapply rep_weaken; [exact Hr4|done..|].
    simpl. by intros j [? ?].
Qed.

End line.
End rules.

(** ** The theorems *)

(** Two different accounts that can have a line. *)
Definition parties (x y : Z) : Prop := x <> y /\ x <> 0 /\ y <> 0 /\ x <> noAccount /\ y <> noAccount.

(** The credit is recorded, its result fits, and the line stays. *)
Record credit_goes (s : St V) (sender receiver : Z) (amount after : STAmount.t) (line_o account_o : STObject)
    (tabs1 : list DeferredCredits.table) : Prop := {
  goes_line : on_line (contents (av s)) sender receiver (STAmount.currency (STAmount.mIssue amount)) line_o account_o;
  goes_after : STAmount.sub (sided (receiver <? sender) (amt_of sfBalance line_o)) amount = Ok after;
  goes_hook : DeferredCredits.creditHook sender receiver amount (tabs s) = Ok tabs1;
  goes_kept : clears (receiver <? sender) (sided (receiver <? sender) (amt_of sfBalance line_o)) after line_o account_o
    && unused (receiver <? sender) after (u32_of sfFlags line_o) = false }.

(** The outcome of such a credit. *)
Definition credit_done (s s' : St V) (sender receiver : Z) (amount after : STAmount.t)
    (line_o account_o : STObject) (tabs1 : list DeferredCredits.table) : Prop :=
  good (av s') /\ same_store s s' /\ tabs s' = tabs1 /\
  contents (av s') = after_credit (contents (av s)) sender receiver (STAmount.currency (STAmount.mIssue amount))
    after (clears (receiver <? sender) (sided (receiver <? sender) (amt_of sfBalance line_o)) after line_o account_o)
    line_o account_o.

Section outcome.
Variables (s : St V) (sender receiver : Z) (amount after : STAmount.t) (line_o account_o : STObject).
Variables (tabs1 : list DeferredCredits.table).
Hypotheses (Hg : good (av s)) (Hp : parties sender receiver)
  (Hgo : credit_goes s sender receiver amount after line_o account_o tabs1).

Abbreviation currency := (STAmount.currency (STAmount.mIssue amount)).

(** A program that looks for the line and then goes on with [body]. *)
Lemma outcome (body : loc -> M V TER) (none : M V TER) :
  (forall b d s1 k p f (Q : TER -> St V -> Prop), rep b d s1 k -> tabs s1 = tabs s ->
     on_line (am k) sender receiver currency line_o account_o ->
     ap k !! getRippleStateIndex sender receiver currency = Some (p, f) ->
     (forall s' ap', tabs s' = tabs1 ->
        rep b d s' (mkKnow (after_credit (am k) sender receiver currency after
          (clears (receiver <? sender) (sided (receiver <? sender) (amt_of sfBalance line_o)) after line_o account_o)
          line_o account_o) ap' (loose k) (dirty k)) -> Q tesSUCCESS s') ->
     wpm (body p) s1 Q) ->
  exists s', (state ← peek (line_at (getRippleStateIndex sender receiver currency));
              match state with None => none | Some state => body state end) s = Ok (tesSUCCESS, s') /\
    credit_done s s' sender receiver amount after line_o account_o tabs1.
Proof.
  intros Hbody. destruct (wpm_run (state ← peek (line_at (getRippleStateIndex sender receiver currency));
              match state with None => none | Some state => body state end) s
    (fun r t m => r = tesSUCCESS /\ t = tabs1 /\ m = after_credit (contents (av s)) sender receiver currency after
      (clears (receiver <? sender) (sided (receiver <? sender) (amt_of sfBalance line_o)) after line_o account_o)
      line_o account_o) Hg) as (r & s' & ? & ? & ? & -> & ? & ?); [|by exists s'].
  intros b d Hr. destruct Hgo as [Hon _ _ _]. apply wpm_bind.
  eapply peek_any_rule; [exact Hr|apply getRippleStateIndex_pos|apply Hon|apply line_check|].
  intros p f s1 Ht1 _ Hr1. eapply Hbody; [exact Hr1|done|exact Hon|apply lookup_insert_eq|].
  intros s' ap' Ht' Hr'. eexists. split; [exact Hr'|]. split; [by intros i []|done].
Qed.

Lemma check_true {A} (c : bool) (K : M V A) : c = true -> (_ ← assert c; K) = K.
Proof. intros ->. unfold assert, Keylet.assert. simpl. by rewrite andb_false_r. Qed.

Lemma rippleCredit_spec check : negb check || (sender =? STAmount.account (STAmount.mIssue amount))
    || (receiver =? STAmount.account (STAmount.mIssue amount)) = true ->
  exists s', rippleCredit sender receiver amount check s = Ok (tesSUCCESS, s') /\
    credit_done s s' sender receiver amount after line_o account_o tabs1.
Proof.
  intros Hch. destruct Hp as (Hne & Hs0 & Hr0 & Hs1 & Hr1). destruct Hgo as [_ Ha Hh Hk].
  unfold rippleCredit. rewrite check_true by done.
  rewrite check_true by (by rewrite (proj2 (Z.eqb_neq _ _))).
  destruct (outcome (fun p => rippleCredit_line p sender receiver amount)
    (new_line (receiver <? sender) currency sender receiver (getRippleStateIndex sender receiver currency) amount))
    as (s' & Hrun & Hdone).
  { intros. by eapply rippleCredit_line_rule. }
  exists s'. split; [|done]. rewrite <- Hrun. unfold mbind, M_bind.
  destruct (peek _ s) as [[p s1]| |]; [|done..].
  unfold STAmount.isXRP_id, assert, Keylet.assert.
  rewrite !(proj2 (Z.eqb_neq _ _)) by done. simpl. by rewrite andb_false_r.
Qed.

Lemma issueIOU_spec issue : STAmount.mIssue amount = issue -> STAmount.account issue = sender ->
  exists s', issueIOU receiver amount issue s = Ok (tesSUCCESS, s') /\
    credit_done s s' sender receiver amount after line_o account_o tabs1.
Proof.
  intros <- Hi. destruct Hp as (Hne & Hs0 & Hr0 & Hs1 & Hr1). destruct Hgo as [_ Ha Hh Hk].
  unfold issueIOU, STAmount.isXRP_id. rewrite Hi.
  rewrite !check_true; [|by rewrite (proj2 (Z.eqb_neq _ _))|..].
  - apply outcome. intros. by eapply adjust_line_rule.
  - unfold STAmount.issue_eqb, STAmount.compare_issue, STAmount.compare_id. rewrite Z.ltb_irrefl. simpl.
    case_if; [done|]. by rewrite Z.ltb_irrefl.
  - by rewrite !(proj2 (Z.eqb_neq _ _)).
Qed.

Lemma redeemIOU_spec issue : STAmount.mIssue amount = issue -> STAmount.account issue = receiver ->
  exists s', redeemIOU sender amount issue s = Ok (tesSUCCESS, s') /\
    credit_done s s' sender receiver amount after line_o account_o tabs1.
Proof.
  intros <- Hi. destruct Hp as (Hne & Hs0 & Hr0 & Hs1 & Hr1). destruct Hgo as [_ Ha Hh Hk].
  unfold redeemIOU, STAmount.isXRP_id. rewrite Hi.
  rewrite !check_true; [|by rewrite (proj2 (Z.eqb_neq _ _))|..].
  - apply outcome. intros. by eapply adjust_line_rule.
  - unfold STAmount.issue_eqb, STAmount.compare_issue, STAmount.compare_id. rewrite Z.ltb_irrefl. simpl.
    case_if; [done|]. by rewrite Z.ltb_irrefl.
  - by rewrite !(proj2 (Z.eqb_neq _ _)).
Qed.

End outcome.

(** [issueIOU] and [redeemIOU] are [rippleCredit] from the issuer and to the
    issuer: on a line that exists and is not given up they have the same result,
    leave the same entries and record the same credits. *)
Theorem issue_redeem_are_credits (s : St V) sender receiver amount after line_o account_o tabs1 issue :
  good (av s) -> parties sender receiver ->
  credit_goes s sender receiver amount after line_o account_o tabs1 ->
  STAmount.mIssue amount = issue -> STAmount.account issue = sender \/ STAmount.account issue = receiver ->
  exists s1 s2, rippleCredit sender receiver amount true s = Ok (tesSUCCESS, s1) /\
    (if STAmount.account issue =? sender then issueIOU receiver amount issue else redeemIOU sender amount issue) s
      = Ok (tesSUCCESS, s2) /\
    contents (av s2) = contents (av s1) /\ tabs s2 = tabs s1 /\ good (av s1) /\ good (av s2).
Proof.
  intros Hg Hp Hgo Hi Hacc.
  destruct (rippleCredit_spec s sender receiver amount after line_o account_o tabs1 Hg Hp Hgo true)
    as (s1 & Hrun1 & Hg1 & _ & Ht1 & Hc1).
  { rewrite Hi. destruct Hacc as [-> | ->]; rewrite Z.eqb_refl; [done|by rewrite orb_true_r]. }
  assert (exists s2, (if STAmount.account issue =? sender then issueIOU receiver amount issue
      else redeemIOU sender amount issue) s = Ok (tesSUCCESS, s2) /\
    credit_done s s2 sender receiver amount after line_o account_o tabs1)
    as (s2 & Hrun2 & Hg2 & _ & Ht2 & Hc2).
  { destruct Hacc as [Hacc|Hacc].
    - rewrite (proj2 (Z.eqb_eq _ _)) by done. by apply issueIOU_spec.
    - rewrite (proj2 (Z.eqb_neq _ _)); [by apply redeemIOU_spec|]. destruct Hp as (Hne & _). congruence. }
  exists s1, s2. split_and!; try done; congruence.
Qed.

(** A direct send reports success whatever [rippleCredit] reported, also when it
    could not list a new line. *)
Lemma rippleSend_reports_success (s s' : St V) sender receiver amount r : parties sender receiver ->
  sender = STAmount.account (STAmount.mIssue amount) \/ receiver = STAmount.account (STAmount.mIssue amount) ->
  rippleCredit sender receiver amount false s = Ok (r, s') ->
  rippleSend sender receiver amount s = Ok ((tesSUCCESS, amount), s').
Proof.
  intros (Hne & Hs0 & Hr0 & _) Hi Hc. unfold rippleSend, STAmount.isXRP_id.
  rewrite (proj2 (Z.eqb_neq sender 0)), (proj2 (Z.eqb_neq receiver 0)), (proj2 (Z.eqb_neq sender receiver)) by done.
  rewrite !check_true by done.
  assert (((sender =? STAmount.account (STAmount.mIssue amount)) || (receiver =? STAmount.account (STAmount.mIssue amount)))
    = true) as ->.
  { destruct Hi as [<- | <-]; rewrite Z.eqb_refl; [done|by rewrite orb_true_r]. }
  simpl. unfold mbind, M_bind. by rewrite Hc.
Qed.

End credit.

(** ** An example: the accounts 7 and 9 and their line *)

Module Examples.
Export Transfers.Examples.

Definition usd (v : Z) : STAmount.t :=
  STAmount.mk (STAmount.mkIssue 5 9) (v * 10 ^ 15) (if v =? 0 then -100 else -15) false false.

Definition of_build (type : Z) (sets : list (SField * Value)) : STObject :=
  match build type sets with Ok o => o | _ => ∅ end.

Definition line79 : STObject := Eval vm_compute in
  of_build ltRIPPLE_STATE [(sfBalance, AMT (usd 8)); (sfFlags, U32 (Z.lor lsfLowReserve lsfHighReserve))].

Definition account7 : STObject := Eval vm_compute in
  of_build Keylet.ltACCOUNT_ROOT [(sfAccount, ACC 7); (sfOwnerCount, U32 2); (sfFlags, U32 lsfDefaultRipple);
                                  (sfBalance, AMT (xrp 100))].

Definition entries79 : gmap Z Entry :=
  {[ getRippleStateIndex 7 9 5 := line_entry 7 9 5 line79;
     getAccountRootIndex 7 := account_entry 7 account7 ]}.

Definition ledger_line : Ledger.t STObject := Ledger.mk entries79 ∅ info0.
Definition start_line : St (Ledger.t STObject) := mkSt (ApplyView.make ledger_line) [∅].

Lemma ledger_line_good : good ledger_line.
Proof.
  split; [|done]. intros i s Hs. change (entries79 !! i = Some s) in Hs.
  unfold entries79 in Hs. rewrite lookup_insert_Some in Hs. destruct Hs as [[<- <-]|[_ Hs]].
  - split; [reflexivity|apply getRippleStateIndex_pos].
  - rewrite lookup_singleton_Some in Hs. destruct Hs as [<- <-]. split; [reflexivity|apply getAccountRootIndex_pos].
Qed.

Lemma start_line_good : good (av start_line).
Proof. apply ApplyView.make_good, ledger_line_good. Qed.

Lemma start_line_contents : contents (av start_line) = entries79.
Proof. apply (ApplyView.make_good ledger_line ledger_line_good). Qed.

Lemma parties79 : parties 7 9.
Proof. unfold parties, noAccount. lia. Qed.

(** The account 7 pays back all of its 8. *)
Lemma goes79 : exists tabs1, credit_goes start_line 7 9 (usd 8) (usd 0) line79 account7 tabs1.
Proof.
  eexists. split; [split| | |].
  - rewrite start_line_contents. apply lookup_insert_eq.
  - eapply (build_conforms ltRIPPLE_STATE _
      [(sfBalance, AMT (usd 8)); (sfFlags, U32 (Z.lor lsfLowReserve lsfHighReserve))]); vm_compute; reflexivity.
  - rewrite start_line_contents. unfold entries79. rewrite lookup_insert_ne by apply keys_ne.
    apply lookup_insert_eq.
  - eapply (build_conforms Keylet.ltACCOUNT_ROOT _ [(sfAccount, ACC 7); (sfOwnerCount, U32 2);
      (sfFlags, U32 lsfDefaultRipple); (sfBalance, AMT (xrp 100))]); vm_compute; reflexivity.
  - by vm_compute.
  - vm_compute. reflexivity.
  - vm_compute. reflexivity.
  - vm_compute. reflexivity.
Qed.

Lemma issue_redeem_are_credits_witness : exists s1 s2,
  rippleCredit 7 9 (usd 8) true start_line = Ok (tesSUCCESS, s1) /\
  redeemIOU 7 (usd 8) (STAmount.mkIssue 5 9) start_line = Ok (tesSUCCESS, s2) /\
  contents (av s2) = contents (av s1) /\ tabs s2 = tabs s1 /\ good (av s1) /\ good (av s2).
Proof.
  destruct goes79 as [tabs1 Hgo].
  apply (issue_redeem_are_credits start_line 7 9 (usd 8) (usd 0) line79 account7 tabs1 (STAmount.mkIssue 5 9)
           start_line_good parties79 Hgo eq_refl). right. reflexivity.
Defined.

End Examples.
End LineCredit.
