(* ===== verification/LineLife.v ===== *)
(** * The life of a trust line

    [trustCreate] and [trustDelete] (ledger/impl/View.cpp) keep a trust line and
    the directories of its two owners together: the line is created with its key
    at the end of both directories and the page numbers in its hints, and when
    it is deleted its key leaves both. *)

From stdpp Require Import base tactics numbers list strings gmap sorting option.
From S2P Require Import Prelude Decimal IOUAmount BigNum Serializer STAmount.
From S2P Require Import View StateTable ApplyStateTable Fields Indexes PaymentSandbox ViewOps Directory.
From S2P Require Import TrustLines Transfers LineCredit.

Module LineLife.
Import Fields ViewOps Indexes Directory TrustLines Transfers LineCredit.

Section life.
Context `{Build} {SHA : SHA512Half} {SL : SHA512HalfLaws SHA} {V : Type} {RV : ReadView STObject V}.
Context {VM : ViewModel STObject V} {RL : ReadViewLaws STObject V}.

(** No page of the one directory is a page of the other. *)
Definition apart (r1 r2 : Z) : Prop :=
  forall n m, 0 <= n < 2 ^ 64 -> 0 <= m < 2 ^ 64 -> getDirNodeIndex r1 n <> getDirNodeIndex r2 m.

Definition no_pages (root : Z) (ap : gmap Z (loc * bool)) : Prop :=
  forall n, 0 <= n < 2 ^ 64 -> ap !! getDirNodeIndex root n = None.

(** A directory stays when only entries outside of it change. *)
Lemma dir_outside r m m' pages : dir m r pages ->
  (forall n, 0 <= n < 2 ^ 64 -> m' !! getDirNodeIndex r n = m !! getDirNodeIndex r n) -> dir m' r pages.
Proof. apply dir_frame. Qed.

Lemma apart_outside r1 r2 n : apart r1 r2 -> 0 <= n < 2 ^ 64 -> outside r1 (getDirNodeIndex r2 n).
Proof. intros Ha Hn m Hm Heq. by apply (Ha m n). Qed.

Lemma apart_sym r1 r2 : apart r1 r2 -> apart r2 r1.
Proof. intros Ha n m Hn Hm Heq. by apply (Ha m n). Qed.

(** ** Deleting *)

(** Where a key is found from the hint of a line: in the page of the hint, or
    without a hint in the first page, up to number 20, that has it. *)
Definition found_from (pages : list (Z * list Z)) (hint : option Z) (x : Z) : Prop :=
  exists j n es, pages !! j = Some (n, es) /\ x ∈ es /\
    match hint with
    | Some u => u = n
    | None => n <= 20 /\ forall i a y, pages !! i = Some (a, y) -> a < n -> x ∉ y
    end.

(** The hint in a field. *)
Definition hint_of (f : SField) (o : STObject) : option Z :=
  if isFieldPresent f o then Some (u64_of f o) else None.

Lemma hint_value f o : has_place f o -> default 0 (hint_of f o) = u64_of f o.
Proof.
  unfold has_place, hint_of, isFieldPresent, u64_of. by destruct (o !! f) as [[[]|]|].
Qed.

Section rules.
Variables (b : V) (d : Z * Z).

(** One of the two deletions. *)
Lemma unlist_rule s k root pages f o x (Q : TER -> St V -> Prop) : rep b d s k ->
  pages_distinct root -> no_pages root (ap k) -> dir (am k) root pages ->
  has_place f o -> found_from pages (hint_of f o) x ->
  (forall m' s', tabs s' = tabs s -> rep b d s' (mkKnow m' (ap k) (loose k) (dirty k)) ->
     deleted root false (am k) m' pages x -> Q tesSUCCESS s') ->
  wpm (dirDelete false (u64_of f o) root x false (negb (isFieldPresent f o))) s Q.
Proof.
  intros Hr Hroot Hnp Hd Hf (j & n & es & Hj & Hx & Hh) HQ. pose proof (hint_value f o Hf) as Hv.
  pose proof (dir_range _ _ _ Hd _ _ (pages_no _ _ _ _ Hj)) as Hn.
  unfold hint_of in *. destruct (isFieldPresent f o); simpl in *; unfold dirDelete.
  - subst n. eapply (dirDelete_rule root Hroot); [exact Hr|done|done|exact Hd|exact Hj|exact Hx|lia|by left|lia|lia|exact HQ].
  - destruct Hh as [Hn20 Hbefore]. rewrite <- Hv.
    eapply (dirDelete_rule root Hroot); [exact Hr|done|done|exact Hd|exact Hj|exact Hx|lia| | |lia|exact HQ].
    + destruct (decide (0 = n)); [by left|right]. split; [lia|done].
    + intros i a y Hi Ha. eapply Hbefore; [done|lia].
Qed.

(** What is left of the directories of a line that went. *)
Definition unlisted (m m' : gmap Z Entry) (low high x : Z) (pl ph : list (Z * list Z)) : Prop :=
  m' !! x = None /\
  (exists pl', dir m' low pl' /\ removed false x (entries pl) (entries pl')) /\
  (exists ph', dir m' high ph' /\ removed false x (entries ph) (entries ph')) /\
  (forall i, i <> x -> outside low i -> outside high i -> m' !! i = m !! i).

Lemma trustDelete_rule s k p f x o la ha pl ph (Q : TER -> St V -> Prop) :
  let low := getOwnerDirIndex la in let high := getOwnerDirIndex ha in
  rep b d s k -> apart low high -> no_pages low (ap k) -> no_pages high (ap k) ->
  outside low x -> outside high x -> ap k !! x = Some (p, f) ->
  am k !! x = Some (mkSLE x ltRIPPLE_STATE o) -> conforms (RippleState ++ common_fields) o ->
  dir (am k) low pl -> dir (am k) high ph ->
  found_from pl (hint_of sfLowNode o) x -> found_from ph (hint_of sfHighNode o) x ->
  (forall m' s', tabs s' = tabs s -> rep b d s' (mkKnow m' (delete x (ap k)) (loose k) (fun j => dirty k j /\ j <> x)) ->
     unlisted (am k) m' low high x pl ph -> Q tesSUCCESS s') ->
  wpm (trustDelete p la ha) s Q.
Proof.
  intros low high Hr Hap Hnl Hnh Hol Hoh Hp He Hc Hdl Hdh Hfl Hfh HQ. unfold trustDelete.
  assert (Hpl : has_place sfLowNode o) by (apply line_place; [done|by vm_compute]).
  assert (Hph : has_place sfHighNode o) by (apply line_place; [done|by vm_compute]).
  apply wpm_bind. eapply get_rule; [exact Hr|done|exact He|done|].
  apply wpm_bind. eapply get_rule; [exact Hr|done|exact He|done|].
  apply wpm_bind. eapply get_rule; [exact Hr|done|exact He|by apply get_u64_of|].
  apply wpm_bind. eapply get_rule; [exact Hr|done|exact He|by apply get_u64_of|].
  apply wpm_bind. eapply deref_rule; [exact Hr|done|exact He|]. simpl.
  apply wpm_bind. eapply unlist_rule; [exact Hr|apply ownerDir_pages|done|exact Hdl|done|done|].
  intros m1 s1 Ht1 Hr1 [Hout1 (pl' & Hdl' & Hrl)]. rewrite bool_decide_eq_true_2 by done.
  assert (He1 : m1 !! x = Some (mkSLE x ltRIPPLE_STATE o)) by (by rewrite Hout1).
  assert (Hdh1 : dir m1 high ph).
  { eapply dir_outside; [exact Hdh|]. intros n Hn. apply Hout1. by apply apart_outside. }
  apply wpm_bind. apply wpm_bind. eapply deref_rule; [exact Hr1|done|exact He1|]. simpl.
  eapply unlist_rule; [exact Hr1|apply ownerDir_pages|done|exact Hdh1|done|done|].
  intros m2 s2 Ht2 Hr2 [Hout2 (ph' & Hdh' & Hrh)]. simpl in Hout2.
  apply wpm_bind. eapply erase_rule; [exact Hr2|done|]. intros s3 Ht3 Hr3. simpl in Hr3.
  apply wpm_ret. eapply HQ; [congruence|exact Hr3|]. split; [|split; [|split]].
  - apply lookup_delete_eq.
  - exists pl'. split; [|done]. eapply dir_outside; [exact Hdl'|]. intros n Hn.
    rewrite lookup_delete_ne by (by apply Hol). apply Hout2. apply apart_outside; [by apply apart_sym|done].
  - exists ph'. split; [|done]. eapply dir_outside; [exact Hdh'|]. intros n Hn.
    by rewrite lookup_delete_ne by (by apply Hoh).
  - intros i Hi Hil Hih. rewrite lookup_delete_ne by done. rewrite Hout2 by done. by apply Hout1.
Qed.

End rules.

(** The two owners' directories and a line between them, ready to be deleted. *)
Record deletable (m : gmap Z Entry) (la ha x : Z) (o : STObject) (pl ph : list (Z * list Z)) : Prop := {
  del_apart : apart (getOwnerDirIndex la) (getOwnerDirIndex ha);
  del_outside : outside (getOwnerDirIndex la) x /\ outside (getOwnerDirIndex ha) x /\ x <> 0;
  del_line : m !! x = Some (mkSLE x ltRIPPLE_STATE o) /\ conforms (RippleState ++ common_fields) o;
  del_dirs : dir m (getOwnerDirIndex la) pl /\ dir m (getOwnerDirIndex ha) ph;
  del_found : found_from pl (hint_of sfLowNode o) x /\ found_from ph (hint_of sfHighNode o) x }.

(** [trustDelete] of a line that both owners' directories list where its
    hints say, or for an old line without hints within the pages up to 20, ends
    with success: the line is gone, one occurrence of its key is gone from each
    directory and the rest of both stays a directory, and nothing else changes. *)
Theorem trustDelete_unlists (s : St V) la ha x o pl ph : good (av s) ->
  deletable (contents (av s)) la ha x o pl ph -> exists s',
    (p ← peek (line_at x); q ← need p; trustDelete q la ha) s = Ok (tesSUCCESS, s') /\
    good (av s') /\ untouched s s' /\
    unlisted (contents (av s)) (contents (av s')) (getOwnerDirIndex la) (getOwnerDirIndex ha) x pl ph.
Proof.
  intros Hg [Hap (Hol & Hoh & Hx0) [He Hc] [Hdl Hdh] [Hfl Hfh]].
  destruct (wpm_view (p ← peek (line_at x); q ← need p; trustDelete q la ha) s
    (fun r m => r = tesSUCCESS /\
       unlisted (contents (av s)) m (getOwnerDirIndex la) (getOwnerDirIndex ha) x pl ph))
    as (r & s' & ? & ? & ? & -> & ?); [done| |by exists s'].
  intros b d Hr. apply wpm_bind. eapply peek_rule; [exact Hr|done|exact He| |by apply lookup_empty|].
  { unfold Keylet.check, Keylet.assert. simpl. by rewrite andb_false_r. }
  intros p s1 Ht1 Hr1. apply wpm_bind, wpm_need. simpl in Hr1.
  assert (Hnp : forall r, outside r x -> no_pages r (<[x := (p, false)]> (∅ : gmap Z (loc * bool)))).
  { intros r Hr' n Hn. rewrite lookup_insert_ne by (by apply Hr'). apply lookup_empty. }
  eapply trustDelete_rule; [exact Hr1|done|by apply Hnp|by apply Hnp|done|done|apply lookup_insert_eq|
    exact He|done|done|done|done|done|].
  intros m' s' Ht' Hr' Hu. split; [congruence|]. eexists. split; [exact Hr'|]. split; [by intros i [[] _]|done].
Qed.

(** ** Creating *)

Definition owner_fields (owner : Z) (_ : bool) : STObject -> result STObject := setAccountID sfOwner owner.

Lemma owner_describes root owner : describes root (owner_fields owner).
Proof.
  intros c prev next es o Ho. unfold owner_fields, setAccountID.
  destruct (page_set _ _ _ _ _ sfOwner (ACC owner) Ho) as [-> Hp];
    [by apply (bool_decide_unpack _); vm_compute|done|].
  eexists. split; [done|]. destruct Ho as [Hi Hr _ Hpr Hn].
  split; unfold u64_at in *; by simplify_map_eq.
Qed.

(** Another page can still be added. *)
Definition room (pages : list (Z * list Z)) : Prop :=
  forall es, pages !! (length pages - 1)%nat <> Some (2 ^ 64 - 1, es).

(** The key became the last of the directory, in the page [n]. *)
Definition listed (m' : gmap Z Entry) (root x n : Z) (pages : list (Z * list Z)) : Prop :=
  exists pages' es, dir m' root pages' /\ entries pages' = entries pages ++ [x] /\
    pages' !! (length pages' - 1)%nat = Some (n, es ++ [x]).

Section create_rules.
Variables (b : V) (d : Z * Z).

Lemma list_rule s k root owner pages x (Q : TER * Z -> St V -> Prop) : rep b d s k ->
  pages_distinct root -> no_pages root (ap k) -> dir (am k) root pages -> room pages ->
  (forall n m' s', tabs s' = tabs s -> rep b d s' (mkKnow m' (ap k) (loose k) (dirty k)) ->
     listed m' root x n pages -> (forall i, outside root i -> m' !! i = am k !! i) -> Q (tesSUCCESS, n) s') ->
  wpm (dirAdd root x (ownerDirDescriber owner)) s Q.
Proof.
  intros Hr Hroot Hnp Hd Hroom HQ. change (ownerDirDescriber owner) with
    (fun (p : loc) (c : bool) => set (V := V) p (owner_fields owner c)).
  eapply (dirAdd_rule root Hroot); [exact Hr|apply owner_describes|exact Hd|done|].
  intros r n m' s' Ht Hr' [Hout [(-> & pages' & Hd' & He & es & Hl)|(-> & -> & es & Hl & _)]].
  - eapply HQ; [done|exact Hr'| |done]. by exists pages', es.
  - by destruct (Hroom es).
Qed.

(** Setting a field of the new line, which is flagged. *)
Lemma set_line_rule {A} s k x p o f v (K : M V A) (Q : A -> St V -> Prop) : rep b d s k ->
  ap k !! x = Some (p, true) -> am k !! x = Some (mkSLE x ltRIPPLE_STATE o) ->
  conforms (RippleState ++ common_fields) o ->
  bool_decide (f ∈ (RippleState ++ common_fields).*1) = true -> getSType v = fieldType f ->
  (forall s', tabs s' = tabs s -> conforms (RippleState ++ common_fields) (<[f := Some v]> o) ->
     rep b d s' (mkKnow (<[x := mkSLE x ltRIPPLE_STATE (<[f := Some v]> o)]> (am k)) (ap k) (loose k) (dirty k)) ->
     wpm K s' Q) ->
  wpm (_ ← set p (setField f v); K) s Q.
Proof.
  intros Hr Hp He Hc Hf Hv HQ. pose proof (setField_conforms _ o f v Hc) as Hs.
  apply wpm_bind. destruct (setField f v o) as [o'| |] eqn:Ho; [|apply bool_decide_eq_true in Hf; by destruct Hs|done].
  destruct Hs as (_ & _ & -> & Hc'). eapply set_rule; [exact Hr|done|exact He|done|]. intros s' Ht Hr'. by apply HQ.
Qed.

(** The flags of a new line. *)
Definition line_flags (setHigh auth noRipple freeze : bool) (peerFlags : Z) : Z :=
  let flags := side setHigh lsfLowReserve lsfHighReserve in
  let flags := if auth then Z.lor flags (side setHigh lsfLowAuth lsfHighAuth) else flags in
  let flags := if noRipple then Z.lor flags (side setHigh lsfLowNoRipple lsfHighNoRipple) else flags in
  let flags := if freeze then Z.lor flags (side setHigh lsfLowFreeze lsfHighFreeze) else flags in
  if Z.land peerFlags lsfDefaultRipple =? 0 then Z.lor flags (side setHigh lsfHighNoRipple lsfLowNoRipple) else flags.

(** A new line: [setHigh] is the side of the account whose limit is set. *)
Record line_made (setHigh : bool) (balance limit : STAmount.t) (qIn qOut flags nl nh : Z) (o : STObject) : Prop := {
  made_typed : conforms (RippleState ++ common_fields) o;
  made_balance : amt_of sfBalance o = if setHigh then STAmount.neg balance else balance;
  made_limit : amt_of (side setHigh sfLowLimit sfHighLimit) o = limit;
  made_other : isZero (amt_of (side setHigh sfHighLimit sfLowLimit) o) = true;
  made_qualities : u32_of (side setHigh sfLowQualityIn sfHighQualityIn) o = qIn /\
    u32_of (side setHigh sfLowQualityOut sfHighQualityOut) o = qOut;
  made_flags : u32_of sfFlags o = flags;
  made_hints : hint_of sfLowNode o = Some nl /\ hint_of sfHighNode o = Some nh }.

Lemma no_amount_zero c a : exists z, no_amount c a = Ok z /\ isZero z = true.
Proof.
  unfold no_amount, STAmount.of_issue, STAmount.canonicalize, STAmount.isXRP. simpl.
  case_if; eexists; done.
Qed.

(** The fields a line has before they are set. *)
Definition line0 : STObject := Eval vm_compute in
  match make_SLE (line_at 1) with Ok e => fields e | _ => ∅ end.

Lemma make_line x : make_SLE (line_at x) = Ok (mkSLE x ltRIPPLE_STATE line0).
Proof. vm_compute. reflexivity. Qed.

Lemma line0_typed : conforms (RippleState ++ common_fields) line0.
Proof.
  destruct (make_SLE_conforms ltRIPPLE_STATE 1 (RippleState ++ common_fields) eq_refl) as (o & Ho & Hc).
  change (Keylet.mk ltRIPPLE_STATE 1) with (line_at 1) in Ho. rewrite make_line in Ho. by injection Ho as <-.
Qed.

(** The quality fields are set when they are not zero. *)
Lemma quality_rule {A} s k x p o f v (K : M V A) (Q : A -> St V -> Prop) : rep b d s k ->
  ap k !! x = Some (p, true) -> am k !! x = Some (mkSLE x ltRIPPLE_STATE o) ->
  conforms (RippleState ++ common_fields) o ->
  bool_decide (f ∈ (RippleState ++ common_fields).*1) = true -> fieldType f = 2 ->
  (forall s', tabs s' = tabs s ->
     let o' := if negb (v =? 0) then <[f := Some (U32 v)]> o else o in
     conforms (RippleState ++ common_fields) o' ->
     rep b d s' (mkKnow (<[x := mkSLE x ltRIPPLE_STATE o']> (am k)) (ap k) (loose k) (dirty k)) ->
     wpm K s' Q) ->
  wpm (_ ← (if negb (v =? 0) then set p (setFieldU32 f v) else mret tt); K) s Q.
Proof.
  intros Hr Hp He Hc Hf Ht HQ. destruct (negb (v =? 0)).
  - eapply set_line_rule; [exact Hr|done|exact He|done|done|done|]. intros. by apply HQ.
  - apply wpm_bind, wpm_ret. apply HQ; [done|done|]. rewrite insert_id by done. by destruct k.
Qed.

End create_rules.

Section create.
Variables (b : V) (d : Z * Z) (srcHigh : bool) (src dst x : Z) (account_o peer_o : STObject).
Variables (auth noRipple freeze : bool) (balance limit : STAmount.t) (qIn qOut : Z).
Variables (tabs0 tabs1 : list DeferredCredits.table).

Abbreviation setDst := (STAmount.account (STAmount.mIssue limit) =? dst).
Abbreviation setHigh := (xorb srcHigh setDst).
Abbreviation setter := (if setDst then dst else src).
Abbreviation peer := (if setDst then src else dst).
Abbreviation low := (if negb srcHigh then src else dst).
Abbreviation high := (if srcHigh then src else dst).
Abbreviation owners := (u32_of sfOwnerCount account_o).
Abbreviation flags := (line_flags setHigh auth noRipple freeze (getFlags peer_o)).

Hypotheses (Hhook : DeferredCredits.creditHook src dst balance tabs0 = Ok tabs1)
  (Howner : getAccountID sfAccount account_o = Ok setter)
  (Hown : account_o !! sfOwnerCount = Some (Some (U32 owners))) (Hcount : 0 <= owners < 2 ^ 32)
  (Hx : x <> getAccountRootIndex setter /\ x <> getAccountRootIndex peer)
  (Hparties : getAccountRootIndex setter <> getAccountRootIndex peer).

Lemma setter_side : (if setHigh then high else low) = setter.
Proof. by destruct srcHigh, setDst. Qed.

Lemma peer_side : (if setHigh then low else high) = peer.
Proof. by destruct srcHigh, setDst. Qed.

(** The fields as [trustCreate] sets them. *)
Lemma made sh z nl nh fl o7 o8 : isZero z = true ->
  o7 = (if negb (qIn =? 0) then <[side sh sfLowQualityIn sfHighQualityIn := Some (U32 qIn)]>
         (<[side sh sfHighLimit sfLowLimit := Some (AMT z)]> (<[side sh sfLowLimit sfHighLimit := Some (AMT limit)]>
           (<[sfHighNode := Some (U64 nh)]> (<[sfLowNode := Some (U64 nl)]> line0))))
        else <[side sh sfHighLimit sfLowLimit := Some (AMT z)]> (<[side sh sfLowLimit sfHighLimit := Some (AMT limit)]>
           (<[sfHighNode := Some (U64 nh)]> (<[sfLowNode := Some (U64 nl)]> line0)))) ->
  o8 = (if negb (qOut =? 0) then <[side sh sfLowQualityOut sfHighQualityOut := Some (U32 qOut)]> o7 else o7) ->
  let o := <[sfBalance := Some (AMT (if sh then STAmount.neg balance else balance))]> (<[sfFlags := Some (U32 fl)]> o8) in
  conforms (RippleState ++ common_fields) o -> line_made sh balance limit qIn qOut fl nl nh o.
Proof.
  intros Hz H7 H8 o Hc. split; [done|..]; subst o o8 o7;
    unfold amt_of, u32_of, hint_of, isFieldPresent, u64_of.
  all: destruct (Z.eqb_spec qIn 0) as [->|], (Z.eqb_spec qOut 0) as [->|], sh; simpl;
    repeat first [rewrite lookup_insert_eq | rewrite lookup_insert_ne by done]; done.
Qed.

Lemma trustCreate_line_rule s k p pa fa nl nh (Q : unit -> St V -> Prop) : rep b d s k -> tabs s = tabs0 ->
  ap k !! x = Some (p, true) -> am k !! x = Some (mkSLE x ltRIPPLE_STATE line0) ->
  ap k !! getAccountRootIndex setter = Some (pa, fa) ->
  am k !! getAccountRootIndex setter = Some (account_entry setter account_o) ->
  am k !! getAccountRootIndex peer = Some (account_entry peer peer_o) ->
  (forall o m' ap' s', tabs s' = tabs1 -> line_made setHigh balance limit qIn qOut flags nl nh o ->
     rep b d s' (mkKnow m' ap' (loose k) (dirty k)) ->
     m' !! x = Some (mkSLE x ltRIPPLE_STATE o) ->
     m' !! getAccountRootIndex setter = Some (account_entry setter (with_owners account_o (clamp32 (owners + 1)))) ->
     (forall i, i <> x -> i <> getAccountRootIndex setter -> m' !! i = am k !! i) -> Q tt s') ->
  wpm (trustCreate_line srcHigh src dst p pa auth noRipple freeze balance limit qIn qOut nl nh) s Q.
Proof.
  intros Hr Ht0 Hp He Hpa Hea Hep HQ. destruct Hx as [Hxa Hxp].
  unfold trustCreate_line. rewrite setter_side, peer_side.
  apply wpm_bind. eapply (wpm_mono _ _ (fun _ s1 => s1 = s)).
  { destruct NDEBUG eqn:Hnd; [by apply wpm_ret|]. apply wpm_bind.
    eapply get_rule; [exact Hr|done|exact Hea|exact Howner|]. simpl.
    apply wpm_assert; [|done]. apply Z.eqb_refl. }
  intros [] s1 ->. apply wpm_bind.
  eapply peek_any_rule; [exact Hr|apply getAccountRootIndex_pos|exact Hep|apply account_check|].
  intros pp fp s2 Ht2 _ Hr2. simpl in Hr2. apply wpm_bind, wpm_assert; [done|].
  assert (Hp2 : <[getAccountRootIndex peer := (pp, fp)]> (ap k) !! x = Some (p, true)) by (by rewrite lookup_insert_ne).
  eapply set_line_rule; [exact Hr2|exact Hp2|exact He|apply line0_typed|done|done|]. intros s3 Ht3 Hc3 Hr3.
  eapply set_line_rule; [exact Hr3|exact Hp2|apply lookup_insert_eq|done|done|done|]. intros s4 Ht4 Hc4 Hr4.
  eapply set_line_rule; [exact Hr4|exact Hp2|apply lookup_insert_eq|done|by destruct setHigh|by destruct setHigh|].
  intros s5 Ht5 Hc5 Hr5. destruct (no_amount_zero (STAmount.currency (STAmount.mIssue balance)) peer) as (z & Hz & Hzz).
  apply wpm_bind. eapply wpm_lift; [exact Hz|].
  eapply set_line_rule; [exact Hr5|exact Hp2|apply lookup_insert_eq|done|by destruct setHigh|by destruct setHigh|].
  intros s6 Ht6 Hc6 Hr6.
  eapply quality_rule; [exact Hr6|exact Hp2|apply lookup_insert_eq|done|by destruct setHigh|by destruct setHigh|].
  intros s7 Ht7 o7 Hc7 Hr7.
  eapply quality_rule; [exact Hr7|exact Hp2|apply lookup_insert_eq|done|by destruct setHigh|by destruct setHigh|].
  intros s8 Ht8 o8 Hc8 Hr8. simpl in Hr8. rewrite !insert_insert_eq in Hr8.
  apply wpm_bind, wpm_need. apply wpm_bind.
  eapply (get_rule _ _ _ _ (getAccountRootIndex peer)); [exact Hr8|apply lookup_insert_eq|
    simpl; rewrite lookup_insert_ne by done; exact Hep|done|].
  eapply set_line_rule; [exact Hr8|exact Hp2|apply lookup_insert_eq|done|done|done|]. intros s9 Ht9 Hc9 Hr9.
  simpl in Hr9. rewrite insert_insert_eq in Hr9.
  apply wpm_bind. eapply (adjustOwnerCount_rule _ _ _ _ (getAccountRootIndex setter));
    [exact Hr9|simpl; rewrite lookup_insert_ne by done; exact Hpa|simpl; rewrite lookup_insert_ne by done; exact Hea|
     exact Hown|done|done|done|right; lia|].
  intros s10 Ht10 Hr10. simpl in Hr10.
  eapply set_line_rule; [exact Hr10|simpl; rewrite lookup_insert_ne by (by apply not_eq_sym); exact Hp2|
    simpl; rewrite lookup_insert_ne by (by apply not_eq_sym); apply lookup_insert_eq|done|done|done|].
  intros s11 Ht11 Hc11 Hr11. simpl in Hr11.
  eapply creditHook_rule; [exact Hr11| |].
  { replace (tabs s11) with tabs0 by congruence. exact Hhook. }
  intros s12 Ht12 Hr12. eapply HQ; [done| |exact Hr12|apply lookup_insert_eq| |].
  - by eapply made.
  - rewrite lookup_insert_ne by done. apply lookup_insert_eq.
  - intros i Hix Hia. by rewrite !lookup_insert_ne by (by apply not_eq_sym).
Qed.

(** The line is there, both directories list it, and nothing else changed. *)
Definition created (m m' : gmap Z Entry) (pl ph : list (Z * list Z)) : Prop := exists o nl nh,
  m' !! x = Some (mkSLE x ltRIPPLE_STATE o) /\
  line_made setHigh balance limit qIn qOut flags nl nh o /\
  listed m' (getOwnerDirIndex low) x nl pl /\ listed m' (getOwnerDirIndex high) x nh ph /\
  m' !! getAccountRootIndex setter = Some (account_entry setter (with_owners account_o (clamp32 (owners + 1)))) /\
  (forall i, i <> x -> i <> getAccountRootIndex setter ->
     outside (getOwnerDirIndex low) i -> outside (getOwnerDirIndex high) i -> m' !! i = m !! i).

Lemma account_outside owner c : outside (getOwnerDirIndex owner) (getAccountRootIndex c).
Proof.
  intros n Hn Heq. symmetry in Heq. destruct (decide (n = 0)) as [->|].
  - revert Heq. apply spaces_differ; [apply Serializer.be_bytes_bytes..|by vm_compute].
  - by apply page_not_account in Heq.
Qed.

Lemma listed_frame m m' root n pages : listed m root x n pages ->
  (forall n, 0 <= n < 2 ^ 64 -> m' !! getDirNodeIndex root n = m !! getDirNodeIndex root n) ->
  listed m' root x n pages.
Proof. intros (pages' & es & Hd & ? & ?) Hm. exists pages', es. split; [by eapply dir_outside|done]. Qed.

(** A view ready for the line. *)
Record creatable (m : gmap Z Entry) (pl ph : list (Z * list Z)) : Prop := {
  cre_apart : apart (getOwnerDirIndex low) (getOwnerDirIndex high);
  cre_outside : outside (getOwnerDirIndex low) x /\ outside (getOwnerDirIndex high) x /\ x <> 0;
  cre_free : m !! x = None;
  cre_dirs : dir m (getOwnerDirIndex low) pl /\ dir m (getOwnerDirIndex high) ph;
  cre_room : room pl /\ room ph;
  cre_accounts : m !! getAccountRootIndex setter = Some (account_entry setter account_o) /\
    m !! getAccountRootIndex peer = Some (account_entry peer peer_o) }.

Lemma trustCreate_rule s k pa fa pl ph (Q : TER -> St V -> Prop) : rep b d s k -> tabs s = tabs0 ->
  creatable (am k) pl ph -> no_pages (getOwnerDirIndex low) (ap k) -> no_pages (getOwnerDirIndex high) (ap k) ->
  ap k !! getAccountRootIndex setter = Some (pa, fa) ->
  (forall m' ap' s', tabs s' = tabs1 -> rep b d s' (mkKnow m' ap' (loose k) (dirty k)) ->
     created (am k) m' pl ph -> Q tesSUCCESS s') ->
  wpm (trustCreate srcHigh src dst x pa auth noRipple freeze balance limit qIn qOut) s Q.
Proof.
  intros Hr Ht0 [Hap (Hol & Hoh & Hx0) Hfree [Hdl Hdh] [Hrl Hrh] [Hea Hep]] Hnl Hnh Hpa HQ.
  destruct Hx as [Hxa Hxp]. unfold trustCreate.
  apply wpm_bind. eapply wpm_lift; [apply make_line|].
  apply wpm_bind. eapply make_shared_rule; [exact Hr|]. intros p s1 Ht1 Hlo Hr1.
  apply wpm_bind. eapply insert_rule; [exact Hr1|apply lookup_insert_eq|done|done|]. intros s2 Ht2 Hr2.
  simpl in Hr2. rewrite delete_insert_id in Hr2 by done.
  apply wpm_bind. eapply deref_rule; [exact Hr2|apply lookup_insert_eq|apply lookup_insert_eq|]. simpl sle_key.
  assert (Hnp : forall r, outside r x -> no_pages r (ap k) -> no_pages r (<[x := (p, true)]> (ap k))).
  { intros r Hr' Hn n Hn'. rewrite lookup_insert_ne by (by apply Hr'). by apply Hn. }
  apply wpm_bind. eapply list_rule; [exact Hr2|apply ownerDir_pages|by apply Hnp| |exact Hrl|].
  { eapply dir_outside; [exact Hdl|]. intros n Hn. simpl. apply lookup_insert_ne. by apply Hol. }
  intros nl m3 s3 Ht3 Hr3 Hlist3 Hout3. simpl in Hout3. simpl negb. cbn iota.
  assert (Hx3 : m3 !! x = Some (mkSLE x ltRIPPLE_STATE line0)) by (rewrite Hout3 by done; apply lookup_insert_eq).
  apply wpm_bind. eapply deref_rule; [exact Hr3|apply lookup_insert_eq|exact Hx3|]. simpl sle_key.
  apply wpm_bind. eapply list_rule; [exact Hr3|apply ownerDir_pages|by apply Hnp| |exact Hrh|].
  { eapply dir_outside; [exact Hdh|]. intros n Hn. simpl. rewrite Hout3 by (by apply apart_outside).
    apply lookup_insert_ne. by apply Hoh. }
  intros nh m4 s4 Ht4 Hr4 Hlist4 Hout4. simpl in Hout4. cbn iota.
  assert (Hkeep : forall i, i <> x -> outside (getOwnerDirIndex low) i -> outside (getOwnerDirIndex high) i ->
    m4 !! i = am k !! i).
  { intros i Hi Hil Hih. rewrite Hout4, Hout3 by done. by apply lookup_insert_ne, not_eq_sym. }
  apply wpm_bind. eapply trustCreate_line_rule; [exact Hr4|congruence|apply lookup_insert_eq| | | | |].
  { simpl. by rewrite Hout4. }
  { simpl. rewrite lookup_insert_ne by done. exact Hpa. }
  { simpl. rewrite Hkeep; [exact Hea|by apply not_eq_sym|apply account_outside..]. }
  { simpl. rewrite Hkeep; [exact Hep|by apply not_eq_sym|apply account_outside..]. }
  intros o m' ap' s' Ht' Hmade Hr' Hline Hacc Hrest. simpl in Hrest. apply wpm_ret.
  eapply HQ; [done|exact Hr'|]. exists o, nl, nh. split_and!; try done.
  - eapply listed_frame; [exact Hlist3|]. intros n Hn. rewrite Hrest.
    + apply Hout4. apply apart_outside; [by apply apart_sym|done].
    + by apply not_eq_sym, Hol.
    + by apply not_eq_sym, account_outside.
  - eapply listed_frame; [exact Hlist4|]. intros n Hn. apply Hrest.
    + by apply not_eq_sym, Hoh.
    + by apply not_eq_sym, account_outside.
  - intros i Hi Hia Hil Hih. rewrite Hrest by done. by apply Hkeep.
Qed.

End create.

(** [trustCreate] makes the line and lists it.  On a view without the line,
    with both accounts and room in their directories, it ends with success: the
    line has the balance in the low account's terms, the limit on the side of
    the account it is issued by and none on the other, the qualities, the flags
    and the numbers of the pages that list it; its key is the last one of both
    owners' directories; the owner count of the account that sets the limit
    goes up by one; the credit is recorded, and nothing else changes. *)
Theorem trustCreate_lists (s : St V) srcHigh src dst x account_o peer_o auth noRipple freeze balance limit qIn qOut
    tabs1 pl ph : good (av s) ->
  DeferredCredits.creditHook src dst balance (tabs s) = Ok tabs1 ->
  let setter := if STAmount.account (STAmount.mIssue limit) =? dst then dst else src in
  let peer := if STAmount.account (STAmount.mIssue limit) =? dst then src else dst in
  getAccountID sfAccount account_o = Ok setter ->
  account_o !! sfOwnerCount = Some (Some (U32 (u32_of sfOwnerCount account_o))) ->
  0 <= u32_of sfOwnerCount account_o < 2 ^ 32 ->
  x <> getAccountRootIndex setter /\ x <> getAccountRootIndex peer ->
  getAccountRootIndex setter <> getAccountRootIndex peer ->
  creatable srcHigh src dst x account_o peer_o limit (contents (av s)) pl ph ->
  exists s', (p ← peek (account setter); q ← need p;
      trustCreate srcHigh src dst x q auth noRipple freeze balance limit qIn qOut) s = Ok (tesSUCCESS, s') /\
    good (av s') /\ same_store s s' /\ tabs s' = tabs1 /\
    created srcHigh src dst x account_o peer_o auth noRipple freeze balance limit qIn qOut
      (contents (av s)) (contents (av s')) pl ph.
Proof.
  intros Hg Hhook setter peer Hacc Hown Hcount Hx Hpar Hcre.
  destruct (wpm_run (p ← peek (account setter); q ← need p;
      trustCreate srcHigh src dst x q auth noRipple freeze balance limit qIn qOut) s
    (fun r t m => r = tesSUCCESS /\ t = tabs1 /\ created srcHigh src dst x account_o peer_o auth noRipple freeze
       balance limit qIn qOut (contents (av s)) m pl ph) Hg) as (r & s' & ? & ? & ? & -> & ? & ?); [|by exists s'].
  intros b d Hr. apply wpm_bind.
  eapply peek_rule; [exact Hr|apply getAccountRootIndex_pos|apply Hcre|apply account_check|apply lookup_empty|].
  intros p s1 Ht1 Hr1. apply wpm_bind, wpm_need.
  assert (Hnp : forall owner, no_pages (getOwnerDirIndex owner)
    (<[getAccountRootIndex setter := (p, false)]> (∅ : gmap Z (loc * bool)))).
  { intros owner n Hn. rewrite lookup_insert_ne by (by apply account_outside). apply lookup_empty. }
  eapply trustCreate_rule; [exact Hhook|done|done|done|done|done|exact Hr1|done|exact Hcre|apply Hnp|apply Hnp|
    apply lookup_insert_eq|].
  intros m' ap' s' Ht' Hr' Hc. eexists. split; [exact Hr'|]. split; [by intros i []|done].
Qed.

(** Directories of different owners are apart, and no line is a page. *)
Lemma owners_apart a c : STAmount.id160 a -> STAmount.id160 c -> a <> c ->
  getOwnerDirIndex a < 2 ^ 256 -> getOwnerDirIndex c < 2 ^ 256 -> apart (getOwnerDirIndex a) (getOwnerDirIndex c).
Proof.
  intros Ha Hc Hne Hra Hrc n m Hn Hm Heq.
  assert (Hbytes : forall l x, Serializer.bytes (Serializer.be_bytes l x)) by apply Serializer.be_bytes_bytes.
  assert (Hroots : getOwnerDirIndex a <> getOwnerDirIndex c).
  { intros Hr. apply sha_split in Hr as [_ Hr]; [|apply Hbytes..]. by apply Hne, (be_bytes_inj 20). }
  assert (Hpos : forall o, 0 <= getOwnerDirIndex o).
  { intros o. apply Z.lt_le_incl, sha_pos. by apply bytes_app. }
  revert Heq. unfold getDirNodeIndex. repeat case_if; intros Heq; [done|..].
  - apply spaces_differ in Heq; [done|apply Hbytes|by apply bytes_app|by vm_compute].
  - apply spaces_differ in Heq; [done|by apply bytes_app|apply Hbytes|by vm_compute].
  - apply sha_split in Heq as [_ Heq]; [|by apply bytes_app..].
    apply be_bytes_app_inv in Heq as [Heq _]. by apply Hroots, (be_bytes_inj 32).
Qed.

Lemma line_outside owner a c cu : outside (getOwnerDirIndex owner) (getRippleStateIndex a c cu).
Proof.
  assert (Hbytes : forall l x, Serializer.bytes (Serializer.be_bytes l x)) by apply Serializer.be_bytes_bytes.
  intros n Hn. unfold getDirNodeIndex, getRippleStateIndex. repeat case_if;
    (apply spaces_differ; [..|by vm_compute]; repeat (apply Hbytes || apply bytes_app)).
Qed.

End life.

(** ** An example: the accounts 7 and 9 get a line and lose it *)

Module Examples.
Export LineCredit.Examples.

Definition line_key : Z := getRippleStateIndex 7 9 5.

Lemma apart79 : apart (getOwnerDirIndex 7) (getOwnerDirIndex 9).
Proof. apply owners_apart; [by apply id_small|by apply id_small|done|by vm_compute|by vm_compute]. Qed.

Lemma no_dir m owner : (forall n, 0 <= n < 2 ^ 64 -> m !! getDirNodeIndex (getOwnerDirIndex owner) n = None) ->
  dir m (getOwnerDirIndex owner) [].
Proof. intros Hm. split; simpl; try done; [by left|]. auto. Qed.

Lemma accounts79_dir owner : dir (contents (av start79)) (getOwnerDirIndex owner) [].
Proof.
  rewrite start79_contents. apply no_dir. intros n Hn.
  change (accounts79 !! getDirNodeIndex (getOwnerDirIndex owner) n = None). unfold accounts79.
  rewrite lookup_insert_ne by (by apply account_outside). apply lookup_singleton_ne. by apply account_outside.
Qed.

Definition limit9 : STAmount.t := STAmount.mk (STAmount.mkIssue 5 9) 0 (-100) false false.
Definition balance8 : STAmount.t := STAmount.setIssuer (usd 8) noAccount.

Lemma creatable79 : creatable false 7 9 line_key (account_of 9 5) (account_of 7 100) limit9
  (contents (av start79)) [] [].
Proof.
  split; cbn [negb].
  - apply apart79.
  - split_and!; [apply line_outside..|apply getRippleStateIndex_pos].
  - rewrite start79_contents. change (accounts79 !! line_key = None). unfold accounts79.
    rewrite lookup_insert_ne by apply account_not_line. apply lookup_singleton_ne, account_not_line.
  - split; apply accounts79_dir.
  - by split.
  - split; [apply start79_9|apply start79_7].
Qed.

Lemma trustCreate_lists_witness : exists tabs1 s',
  (p ← peek (account 9); q ← need p;
   trustCreate false 7 9 line_key q false true false balance8 limit9 0 0) start79 = Ok (tesSUCCESS, s') /\
  good (av s') /\ same_store start79 s' /\ tabs s' = tabs1 /\
  created false 7 9 line_key (account_of 9 5) (account_of 7 100) false true false balance8 limit9 0 0
    (contents (av start79)) (contents (av s')) [] [].
Proof.
  eexists. apply (trustCreate_lists start79 false 7 9 line_key (account_of 9 5) (account_of 7 100) false true false
    balance8 limit9 0 0 _ [] [] start79_good).
  - vm_compute. reflexivity.
  - vm_compute. reflexivity.
  - vm_compute. reflexivity.
  - by vm_compute.
  - split; apply not_eq_sym, account_not_line.
  - apply account_key_ne; [by apply id_small|by apply id_small|done].
  - apply creatable79.
Defined.

(** The same accounts with the line and its directories. *)
Definition page_with (root x : Z) : STObject :=
  match (sle ← make_SLE (page root 0); o ← setFieldH256 sfRootIndex root (fields sle);
         setFieldV256 sfIndexes [x] o) with Ok o => o | _ => ∅ end.

Lemma page_with_of root x : page_of root 0 0 [x] (page_with root x).
Proof.
  unfold page_with. destruct (make_page_entry root 0) as (o & o' & -> & Ho & Hp). simpl. rewrite Ho. simpl.
  by destruct (page_set_indexes _ _ _ _ [x] _ Hp) as (o2 & -> & ?).
Qed.

Definition hinted : STObject := Eval vm_compute in
  of_build ltRIPPLE_STATE [(sfLowNode, U64 0); (sfHighNode, U64 0)].

Definition listed_line : gmap Z Entry :=
  <[getDirNodeIndex (getOwnerDirIndex 7) 0 :=
      page_entry (getOwnerDirIndex 7) 0 (page_with (getOwnerDirIndex 7) line_key)]>
  (<[getDirNodeIndex (getOwnerDirIndex 9) 0 :=
      page_entry (getOwnerDirIndex 9) 0 (page_with (getOwnerDirIndex 9) line_key)]>
   {[ line_key := mkSLE line_key ltRIPPLE_STATE hinted ]}).

Definition ledger_listed : Ledger.t STObject := Ledger.mk listed_line ∅ info0.
Definition start_listed : St (Ledger.t STObject) := mkSt (ApplyView.make ledger_listed) [].

Lemma ledger_listed_good : good ledger_listed.
Proof.
  split; [|done]. intros i s Hs. change (listed_line !! i = Some s) in Hs. unfold listed_line in Hs.
  rewrite lookup_insert_Some in Hs. destruct Hs as [[<- <-]|[_ Hs]].
  { split; [reflexivity|by apply (ownerDir_pages 7)]. }
  rewrite lookup_insert_Some in Hs. destruct Hs as [[<- <-]|[_ Hs]].
  { split; [reflexivity|by apply (ownerDir_pages 9)]. }
  rewrite lookup_singleton_Some in Hs. destruct Hs as [<- <-]. split; [reflexivity|apply getRippleStateIndex_pos].
Qed.

Lemma start_listed_good : good (av start_listed).
Proof. apply ApplyView.make_good, ledger_listed_good. Qed.

Lemma start_listed_contents : contents (av start_listed) = listed_line.
Proof. apply (ApplyView.make_good ledger_listed ledger_listed_good). Qed.

Lemma dir9 : dir (<[getDirNodeIndex (getOwnerDirIndex 9) 0 :=
      page_entry (getOwnerDirIndex 9) 0 (page_with (getOwnerDirIndex 9) line_key)]>
   {[ line_key := mkSLE line_key ltRIPPLE_STATE hinted ]}) (getOwnerDirIndex 9) [(0, [line_key])].
Proof.
  apply dir_new_root; [apply ownerDir_pages| |done|apply page_with_of].
  apply no_dir. intros n Hn. apply lookup_singleton_ne. by apply line_outside.
Qed.

Lemma deletable79 : deletable (contents (av start_listed)) 7 9 line_key hinted [(0, [line_key])] [(0, [line_key])].
Proof.
  rewrite start_listed_contents. split.
  - apply apart79.
  - split_and!; [apply line_outside..|apply getRippleStateIndex_pos].
  - split.
    + unfold listed_line. rewrite !lookup_insert_ne; [apply lookup_singleton_eq|..];
        apply not_eq_sym; by apply line_outside.
    + apply (build_conforms ltRIPPLE_STATE _ [(sfLowNode, U64 0); (sfHighNode, U64 0)]); vm_compute; reflexivity.
  - split; unfold listed_line.
    + apply dir_new_root; [apply ownerDir_pages| |done|apply page_with_of].
      apply no_dir. intros n Hn. rewrite lookup_insert_ne by (by apply apart_sym; [apply apart79|..]).
      apply lookup_singleton_ne. by apply line_outside.
    + eapply dir_outside; [apply dir9|]. intros n Hn. apply lookup_insert_ne. by apply apart79.
  - split; exists 0%nat, 0, [line_key]; (split; [done|split; [by left|vm_compute; done]]).
Qed.

Lemma trustDelete_unlists_witness : exists s',
  (p ← peek (line_at line_key); q ← need p; trustDelete q 7 9) start_listed = Ok (tesSUCCESS, s') /\
  good (av s') /\ untouched start_listed s' /\
  unlisted (contents (av start_listed)) (contents (av s')) (getOwnerDirIndex 7) (getOwnerDirIndex 9) line_key
    [(0, [line_key])] [(0, [line_key])].
Proof.
  apply (trustDelete_unlists start_listed 7 9 line_key hinted [(0, [line_key])] [(0, [line_key])] start_listed_good).
  apply deletable79.
Defined.

End Examples.
End LineLife.
