(* ===== verification/LineClose.v ===== *)
(** * Credits that close a trust line

    [rippleCredit] (ledger/impl/View.cpp) on a trust line that exists, on all of
    its branches: the balance changes by the amount; a sender whose side needs no
    reserve any more gives it up; and a line that with this holds nothing and has
    no reserve left is deleted, from the view and from both owners' directories. *)

From stdpp Require Import base tactics numbers list strings gmap sorting option.
From S2P Require Import Prelude Decimal IOUAmount BigNum Serializer STAmount.
From S2P Require Import View StateTable ApplyStateTable Fields Indexes PaymentSandbox ViewOps Directory.
From S2P Require Import TrustLines Transfers LineCredit LineLife.

Module LineClose.
Import Fields ViewOps Indexes Directory TrustLines Transfers LineCredit LineLife.





Section close.
Context `{Build} {SHA : SHA512Half} {SL : SHA512HalfLaws SHA} {V : Type} {RV : ReadView STObject V}.
Context {VM : ViewModel STObject V} {RL : ReadViewLaws STObject V}.




Section rules.
Variables (b : V) (d : Z * Z).
Variables (sender receiver currency : Z) (line_o account_o : STObject) (amount after : STAmount.t).
Variables (tabs0 tabs1 : list DeferredCredits.table) (pl ph : list (Z * list Z)).

Abbreviation high := (receiver <? sender).
Abbreviation before := (sided high (amt_of sfBalance line_o)).
Abbreviation kline := (getRippleStateIndex sender receiver currency).

Hypotheses (Hne : sender <> receiver) (Hafter : STAmount.sub before amount = Ok after)
  (Hhook : DeferredCredits.creditHook sender receiver amount tabs0 = Ok tabs1)
  (Hclear : clears high before after line_o account_o = true)
  (Hunused : unused high after (u32_of sfFlags line_o) = true).





End rules.


End close.

(** ** An example: the account 7 pays back all of its 8 on the line with 9 *)

Module Examples.
Export LineLife.Examples.















End Examples.
End LineClose.
