(* ===== verification/Holdings.v ===== *)
(** * What an account can spend

    [accountHolds] (ledger/impl/View.cpp): of XRP, the balance above the reserve;
    of an issued currency, the balance of the trust line in the account's terms,
    or nothing when there is no line or the issuer has frozen it. *)

From stdpp Require Import base tactics numbers list strings gmap sorting option.
From S2P Require Import Prelude Decimal IOUAmount BigNum Serializer STAmount.
From S2P Require Import View StateTable ApplyStateTable Fields Indexes PaymentSandbox ViewOps Directory.
From S2P Require Import TrustLines Transfers LineCredit.

Module Holdings.
Import Fields ViewOps Indexes TrustLines Transfers LineCredit.

Section holdings.
Context `{Build} {SHA : SHA512Half} {SL : SHA512HalfLaws SHA} {V : Type} {RV : ReadView STObject V}.
Context {VM : ViewModel STObject V} {RL : ReadViewLaws STObject V}.

(** The entries under these keys, when there are any, are of the right type. *)
Definition typed_at (m : gmap Z Entry) (kl : Keylet.t) : Prop :=
  forall e, m !! Keylet.key kl = Some e -> Keylet.check kl e = Ok true.

Lemma read_typed (view : V) kl : good view -> Keylet.key kl <> 0 -> typed_at (contents view) kl ->
  View.vread view kl = Ok (contents view !! Keylet.key kl).
Proof.
  intros Hg Hk Ht. rewrite read_law by done. unfold Keylet.checked.
  destruct (contents view !! Keylet.key kl) as [e|] eqn:He; [|done]. by rewrite (Ht e He).
Qed.

(** The issuer froze everything it issued, or this line. *)
Definition frozen (m : gmap Z Entry) (acct currency issuer : Z) : bool :=
  flagged (m !! getAccountRootIndex issuer) lsfGlobalFreeze ||
  (negb (issuer =? acct) &&
   flagged (m !! getRippleStateIndex acct issuer currency) (if acct <? issuer then lsfHighFreeze else lsfLowFreeze)).

Lemma isFrozen_spec (view : V) acct currency issuer : good view -> currency <> 0 ->
  typed_at (contents view) (account issuer) -> typed_at (contents view) (line acct issuer currency) ->
  isFrozen view acct currency issuer = Ok (frozen (contents view) acct currency issuer).
Proof.
  intros Hg Hc Ha Hl. unfold isFrozen, frozen, STAmount.isXRP_id. rewrite (proj2 (Z.eqb_neq _ _)) by done.
  rewrite (read_typed view (account issuer)) by (done || apply getAccountRootIndex_pos). simpl.
  destruct (flagged _ lsfGlobalFreeze); simpl; [done|].
  destruct (negb (issuer =? acct)); simpl; [|done].
  by rewrite (read_typed view (line acct issuer currency)) by (done || apply getRippleStateIndex_pos).
Qed.

(** What the account has of the currency, before deferred credits. *)
Definition holding (m : gmap Z Entry) (acct currency issuer : Z) (handling : FreezeHandling) : STAmount.t :=
  match m !! getRippleStateIndex acct issuer currency with
  | None => STAmount.mk (STAmount.mkIssue currency issuer) 0 (-100) false false
  | Some e =>
      if bool_decide (handling = fhZERO_IF_FROZEN) && frozen m acct currency issuer
      then STAmount.mk (STAmount.mkIssue currency issuer) 0 (-100) false false
      else STAmount.setIssuer (sided (issuer <? acct) (amt_of sfBalance (fields e))) issuer
  end.

(** What an account can spend.  Of XRP it is the balance less the reserve
    for its owner count, and nothing when the balance is below the reserve; of
    an issued currency it is the balance of the line in the account's terms and
    in the issuer's name, and zero of that issue without a line or, when asked
    to respect it, under a freeze of the issuer or of the line.  The deferred
    credits are then taken off. *)
Theorem accountHolds_correct (fees : Fees) tabs (view : V) acct issuer handling : good view ->
  (forall n o c, holds_drops (contents view) acct n o -> o !! sfOwnerCount = Some (Some (U32 c)) ->
     0 <= c * increment fees < 2 ^ 64 -> drops_ok (reserve fees + c * increment fees) ->
     accountHolds fees tabs view acct 0 issuer handling =
     DeferredCredits.balanceHook tabs acct issuer (xrp (Z.max 0 (n - (reserve fees + c * increment fees))))) /\
  (forall currency, currency <> 0 ->
     typed_at (contents view) (account issuer) -> typed_at (contents view) (line acct issuer currency) ->
     (forall e, contents view !! getRippleStateIndex acct issuer currency = Some e -> has_place sfBalance (fields e)) ->
     accountHolds fees tabs view acct currency issuer handling =
     DeferredCredits.balanceHook tabs acct issuer (holding (contents view) acct currency issuer handling)).
Proof.
  intros Hg. split.
  - intros n o c (He & Hb & Hn) Hc Hmul Hres. unfold accountHolds, accountHolds_amount. simpl.
    rewrite (read_typed view (account acct));
      [|done|apply getAccountRootIndex_pos|intros e He'; simpl in He'; rewrite He in He'; injection He' as <-;
        apply account_check]. simpl. rewrite He. simpl.
    unfold getFieldU32, getField. rewrite Hc. simpl. rewrite (get_balance _ _ Hb). simpl.
    unfold accountReserve. rewrite (u64_id (c * _)) by done.
    unfold drops_ok, STAmount.cMaxNativeN in *. rewrite u64_id by lia.
    unfold STAmount.of_u64. rewrite andb_false_r.
    change (STAmount.mk STAmount.xrpIssue ?x 0 true false) with (xrp x).
    pose proof (xrp_ltb n (reserve fees + c * increment fees) ltac:(unfold drops_ok, STAmount.cMaxNativeN; lia)
      ltac:(unfold drops_ok, STAmount.cMaxNativeN; lia)) as Hltb.
    unfold STAmount.ltb in Hltb. simpl in Hltb. injection Hltb as Hltb. simpl. rewrite Hltb. clear Hltb.
    destruct (Z.ltb_spec n (reserve fees + c * increment fees)); simpl.
    + by rewrite Z.max_l by lia.
    + rewrite sub_xrp by (unfold drops_ok, STAmount.cMaxNativeN; lia). simpl. by rewrite Z.max_r by lia.
  - intros currency Hc Ha Hl Hpl. unfold accountHolds, accountHolds_amount, holding, STAmount.isXRP_id.
    rewrite (proj2 (Z.eqb_neq _ _)) by done.
    rewrite (read_typed view (line acct issuer currency)) by (done || apply getRippleStateIndex_pos). simpl.
    assert (Hzero : STAmount.clear_issue amount0 (STAmount.mkIssue currency issuer) =
                    STAmount.mk (STAmount.mkIssue currency issuer) 0 (-100) false false).
    { unfold STAmount.clear_issue, STAmount.setIssue, STAmount.clear, STAmount.isXRP_id. simpl.
      by rewrite (proj2 (Z.eqb_neq _ _)). }
    destruct (contents view !! getRippleStateIndex acct issuer currency) as [e|] eqn:He; simpl; [|by rewrite Hzero].
    rewrite isFrozen_spec by done. rewrite (get_amt_of sfBalance) by (by auto).
    case_bool_decide; simpl; [|done]. destruct (frozen _ _ _ _); simpl; [by rewrite Hzero|done].
Qed.

End holdings.

Import Transfers.Examples.

Lemma accountHolds_correct_witness :
  accountHolds (mkFees 10 10 20 5) [] ledger79 7 0 0 fhZERO_IF_FROZEN = Ok (xrp 70).
Proof.
  refine (proj1 (accountHolds_correct (mkFees 10 10 20 5) [] ledger79 7 0 fhZERO_IF_FROZEN
    ledger79_good) 100 (account_of 7 100) 2 _ _ _ _).
  - rewrite <- start79_contents. apply start79_7.
  - vm_compute. reflexivity.
  - by vm_compute.
  - by split; vm_compute.
Defined.

End Holdings.
