(* ===== verification/LedgerBuild.v ===== *)
(** * Building ledgers

    The life of a [Ledger] (app/ledger/Ledger.cpp): the genesis ledger, the
    ledger that follows another one, its hash, its fees, the skip list that
    records the hashes of its ancestors, and its acceptance; the steps of
    app/ledger/impl/LedgerConsensusImp.cpp that make a closed ledger of the
    agreed transactions; and [hashOfSeq] and [addRaw] of ledger/impl/View.cpp.
    The root hash of a [SHAMap], the application of the transactions and the
    digest are parameters. *)

From stdpp Require Import base tactics numbers list strings gmap sorting option.
From S2P Require Import Prelude Decimal IOUAmount BigNum Serializer STAmount Timing.
From S2P Require Import View StateTable ApplyStateTable Fields Indexes PaymentSandbox ViewOps Directory TrustLines.

(** [SHAMap::getHash] of the two trees of a ledger. *)
Class RootHash := {
  state_root : gmap Z (SLE Fields.STObject) -> Z;
  tx_root : gmap Z (list Z) -> Z }.

Module LedgerBuild.
Import Fields Indexes TrustLines.

#[local] Existing Instance Serializer.reader_ret.
#[local] Existing Instance Serializer.reader_bind.

Abbreviation Entry := (SLE STObject).
Abbreviation Maps := (Ledger.t STObject).

(** The part of the configuration a ledger's fees come from. *)
Record Config := mkConfig {
  FEE_DEFAULT : Z; TRANSACTION_FEE_BASE : Z; FEE_ACCOUNT_RESERVE : Z; FEE_OWNER_RESERVE : Z }.

(** The members of a [Ledger]; the trees and [info_] are the view of [View]. *)
Record t := mk { maps : Maps; mImmutable : bool; fees_ : Fees }.

Definition info (l : t) : LedgerInfo := Ledger.info_ (maps l).

Definition set_maps (m : Maps) (l : t) : t := mk m (mImmutable l) (fees_ l).

Definition set_info (i : LedgerInfo) (l : t) : t :=
  set_maps (Ledger.mk (Ledger.stateMap_ (maps l)) (Ledger.txMap_ (maps l)) i) l.

(** Assignments to members of [info_]. *)
Definition with_roots (txh acch : Z) (i : LedgerInfo) : LedgerInfo :=
  mkInfo (isOpen i) (seq i) (parentCloseTime i) (hash i) txh acch (parentHash i)
    (drops i) (validated i) (accepted i) (closeFlags i) (closeTimeResolution i) (closeTime i).
Definition with_hash (h : Z) (i : LedgerInfo) : LedgerInfo :=
  mkInfo (isOpen i) (seq i) (parentCloseTime i) h (txHash i) (accountHash i) (parentHash i)
    (drops i) (validated i) (accepted i) (closeFlags i) (closeTimeResolution i) (closeTime i).
Definition with_open (b : bool) (i : LedgerInfo) : LedgerInfo :=
  mkInfo b (seq i) (parentCloseTime i) (hash i) (txHash i) (accountHash i) (parentHash i)
    (drops i) (validated i) (accepted i) (closeFlags i) (closeTimeResolution i) (closeTime i).
Definition with_close (acc : bool) (flags res time : Z) (i : LedgerInfo) : LedgerInfo :=
  mkInfo (isOpen i) (seq i) (parentCloseTime i) (hash i) (txHash i) (accountHash i) (parentHash i)
    (drops i) (validated i) acc flags res time.

Definition sLCF_NoConsensusTime : Z := 1.
Definition getCloseAgree (i : LedgerInfo) : bool := Z.land (closeFlags i) sLCF_NoConsensusTime =? 0.

(** [HashPrefix::ledgerMaster]: the characters L, W and R and a zero. *)
Definition ledgerMaster : Z := Z.shiftl (Z.shiftl (Z.shiftl 76 8 + 87) 8 + 82) 8.

Definition SYSTEM_CURRENCY_START : Z := 1 * (70 * 1000 * 1000) * 1000000.
Definition ledgerDefaultTimeResolution : Z := default 0 (Timing.ledgerPossibleTimeResolutions !! 2%nat).

(** ** The header *)

(** [addRaw (LedgerInfo const&, Serializer&)]. *)
Definition addRaw (i : LedgerInfo) (s : list Z) : list Z :=
  let s := (Serializer.add32 (seq i) s).2 in
  let s := (Serializer.add64 (drops i) s).2 in
  let s := (Serializer.add256 (parentHash i) s).2 in
  let s := (Serializer.add256 (txHash i) s).2 in
  let s := (Serializer.add256 (accountHash i) s).2 in
  let s := (Serializer.add32 (parentCloseTime i) s).2 in
  let s := (Serializer.add32 (closeTime i) s).2 in
  let s := (Serializer.add8 (u8 (closeTimeResolution i)) s).2 in
  (Serializer.add8 (u8 (closeFlags i)) s).2.

Section ledger.
Context `{Build} {SHA : SHA512Half} {RH : RootHash}.

(** The digest [updateHash] stores. *)
Definition header_hash (i : LedgerInfo) : Z :=
  sha512Half (Serializer.be_bytes 4 ledgerMaster ++ Serializer.be_bytes 4 (seq i) ++
    Serializer.be_bytes 8 (drops i) ++ Serializer.be_bytes 32 (parentHash i) ++
    Serializer.be_bytes 32 (txHash i) ++ Serializer.be_bytes 32 (accountHash i) ++
    Serializer.be_bytes 4 (parentCloseTime i) ++ Serializer.be_bytes 4 (closeTime i) ++
    Serializer.be_bytes 1 (closeTimeResolution i) ++ Serializer.be_bytes 1 (closeFlags i)).

Definition updateHash (l : t) : t :=
  let i := if mImmutable l then info l
           else with_roots (tx_root (Ledger.txMap_ (maps l))) (state_root (Ledger.stateMap_ (maps l))) (info l) in
  set_info (with_hash (header_hash i) i) l.

(** [setRaw] up to the trees, which are named by the hashes read and fetched
    when they are walked. *)
Definition setRaw (hasPrefix : bool) (i : LedgerInfo) : Serializer.reader LedgerInfo :=
  _ ← (if hasPrefix then Serializer.iget32 else mret 0);
  seq ← Serializer.iget32;
  drops ← Serializer.iget64;
  parentHash ← Serializer.iget256;
  txHash ← Serializer.iget256;
  accountHash ← Serializer.iget256;
  parentCloseTime ← Serializer.iget32;
  closeTime ← Serializer.iget32;
  closeTimeResolution ← Serializer.iget8;
  closeFlags ← Serializer.iget8;
  let i := mkInfo (isOpen i) seq parentCloseTime (hash i) txHash accountHash parentHash drops
             (validated i) (accepted i) closeFlags closeTimeResolution closeTime in
  mret (with_hash (header_hash i) i).

(** ** Fees *)

(** [if (sle->getFieldIndex (f) != -1) ... = sle->getField...(f)]. *)
Definition fee_field (get : SField -> STObject -> result Z) (f : SField) (dflt : Z) (o : STObject) : result Z :=
  match o !! f with None => Ok dflt | Some _ => get f o end.

Definition setFees (config : Config) (l : t) : result t :=
  let fees := mkFees (FEE_DEFAULT config) (u32 (TRANSACTION_FEE_BASE config))
                (u32 (FEE_ACCOUNT_RESERVE config)) (u32 (FEE_OWNER_RESERVE config)) in
  found ← Ledger.read (maps l) Indexes.fees;
  fees ← match found with
         | None => Ok fees
         | Some sle =>
             base ← fee_field getFieldU64 sfBaseFee (base fees) (fields sle);
             units ← fee_field getFieldU32 sfReferenceFeeUnits (units fees) (fields sle);
             reserve ← fee_field getFieldU32 sfReserveBase (reserve fees) (fields sle);
             increment ← fee_field getFieldU32 sfReserveIncrement (increment fees) (fields sle);
             Ok (mkFees base units reserve increment)
         end;
  Ok (mk (maps l) (mImmutable l) fees).

(** ** Acceptance *)

Definition setImmutable (config : Config) (l : t) : result t :=
  let l := updateHash l in setFees config (mk (maps l) true (fees_ l)).

Definition setClosed (l : t) : t := set_info (with_open false (info l)) l.

(** [setAccepted (closeTime, closeResolution, correctCloseTime)]. *)
Definition setAccepted_at (config : Config) (closeTime closeResolution : Z) (correctCloseTime : bool) (l : t)
    : result t :=
  _ ← Keylet.assert (negb (isOpen (info l)) && negb (accepted (info l)));
  setImmutable config (set_info (with_close true (if correctCloseTime then 0 else sLCF_NoConsensusTime)
    closeResolution
    (if correctCloseTime then Timing.roundCloseTime closeTime closeResolution else closeTime) (info l)) l).

Definition setAccepted (config : Config) (l : t) : result t :=
  let i := info l in
  let time := if Z.land (closeFlags i) sLCF_NoConsensusTime =? 0
              then Timing.roundCloseTime (closeTime i) (closeTimeResolution i) else closeTime i in
  setImmutable config (set_info (with_close true (closeFlags i) (closeTimeResolution i) time i) l).

(** ** New ledgers *)

(** The constructor for the genesis ledger, whose account is [id]. *)
Definition create_genesis (config : Config) (id : Z) : result t :=
  let l := mk (Ledger.mk ∅ ∅ (with_close false 0 ledgerDefaultTimeResolution 0
                (mkInfo true 1 0 0 0 0 0 SYSTEM_CURRENCY_START false false 0 0 0))) false (mkFees 0 0 0 0) in
  sle ← make_SLE (account id);
  o ← setFieldU32 sfSequence 1 (fields sle);
  o ← setAccountID sfAccount id o;
  o ← setFieldAmount sfBalance (STAmount.of_u64 (drops (info l)) false) o;
  m ← Ledger.raw_insert (maps l) (mkSLE (sle_key sle) (getType sle) o);
  l ← setAccepted config (setClosed (updateHash (set_maps m l)));
  setFees config l.

(** The constructor for the ledger after [prevLedger]; [now] is the time of the
    network. *)
Definition open_ledger (now : Z) (prevLedger : t) : result t :=
  let p := info prevLedger in
  let seq := u32 (seq p + 1) in
  res ← Timing.getNextLedgerTimeResolution (closeTimeResolution p) (getCloseAgree p) seq;
  let time := if closeTime p =? 0 then Timing.roundCloseTime now res else u32 (closeTime p + res) in
  Ok (mk (Ledger.mk (Ledger.stateMap_ (maps prevLedger)) ∅
            (mkInfo true seq (closeTime p) ((hash p + 1) mod 2 ^ 256) 0 0 (hash p) (drops p)
               false false 0 res time))
        false (fees_ prevLedger)).

(** ** The skip list *)

Definition peek (l : Maps) (k : Keylet.t) : result (option Entry) :=
  Keylet.checked k (Ledger.stateMap_ l !! Keylet.key k).

(** One of the two records of [updateSkipList]; [bounded] is the one that keeps
    256 hashes. *)
Definition push_hash (k : Keylet.t) (bounded : bool) (prevIndex parent : Z) (l : Maps) : result Maps :=
  found ← peek l k;
  sle ← match found with None => make_SLE k | Some sle => Ok sle end;
  hashes ← match found with None => Ok [] | Some sle => getFieldV256 sfHashes (fields sle) end;
  _ ← Keylet.assert (Directory.size hashes <=? 256);
  let hashes := if bounded && (Directory.size hashes =? 256) then drop 1 hashes else hashes in
  o ← setFieldV256 sfHashes (hashes ++ [parent]) (fields sle);
  o ← setFieldU32 sfLastLedgerSequence prevIndex o;
  let sle := mkSLE (sle_key sle) (getType sle) o in
  match found with None => Ledger.raw_insert l sle | Some _ => Ledger.raw_replace l sle end.

Definition updateSkipList (l : t) : result t :=
  if seq (info l) =? 0 then Ok l
  else
    let prevIndex := u32 (seq (info l) - 1) in
    m ← (if Z.land prevIndex 255 =? 0
         then push_hash (skip_of prevIndex) false prevIndex (parentHash (info l)) (maps l)
         else Ok (maps l));
    m ← push_hash skip true prevIndex (parentHash (info l)) m;
    Ok (set_maps m l).

(** ** The next closed ledger *)

(** The start of a server without a ledger: the genesis ledger and the next. *)
Definition startGenesisLedger (config : Config) (id now : Z) : result (t * t) :=
  genesis ← create_genesis config id;
  next ← open_ledger now genesis;
  next ← setAccepted config (setClosed next);
  Ok (genesis, next).

(** [LedgerConsensusImp::accept] from the previous ledger to the new one;
    [applyTransactions] applies the consensus set to the view it is given. *)
Definition build_ledger (config : Config)
    (applyTransactions : OpenView.t STObject Maps -> result (OpenView.t STObject Maps))
    (now closeTime closeResolution : Z) (closeTimeCorrect : bool) (previous : t) : result t :=
  newLCL ← open_ledger now previous;
  let newLCL := setClosed newLCL in
  let accum := OpenView.make (maps newLCL) in
  _ ← Keylet.assert (negb (isOpen (OpenView.info_ accum)));
  accum ← applyTransactions accum;
  m ← OpenView.apply accum (maps newLCL);
  newLCL ← updateSkipList (set_maps m newLCL);
  setAccepted_at config closeTime closeResolution closeTimeCorrect newLCL.

(** ** Hashes of ancestors *)

Section hashes.
Context {V : Type} {RV : ReadView STObject V}.

(** The block "within 256"; the conversions are those of the code's [int] and of
    its comparison with a size. *)
Definition recent_hash (ledger : V) (s : Z) : result (option Z) :=
  let i := View.vinfo ledger in
  let diff := i32 (seq i - s) in
  if diff <=? 256 then
    found ← View.vread ledger skip;
    match found with
    | None => Ok None
    | Some hashIndex =>
        _ ← (if NDEBUG then Ok tt else
               last ← getFieldU32 sfLastLedgerSequence (fields hashIndex);
               Keylet.assert (last =? u32 (seq i - 1)));
        vec ← getFieldV256 sfHashes (fields hashIndex);
        if u64 diff <=? Directory.size vec
        then Ok (vec !! Z.to_nat (Directory.size vec - diff)) else Ok None
    end
  else Ok None.

(** The block "in skiplist". *)
Definition old_hash (ledger : V) (s : Z) : result (option Z) :=
  found ← View.vread ledger (skip_of s);
  match found with
  | None => Ok None
  | Some hashIndex =>
      lastSeq ← getFieldU32 sfLastLedgerSequence (fields hashIndex);
      _ ← Keylet.assert (s <=? lastSeq);
      _ ← Keylet.assert (Z.land lastSeq 255 =? 0);
      let diff := Z.shiftr (u32 (lastSeq - s)) 8 in
      vec ← getFieldV256 sfHashes (fields hashIndex);
      if diff <? Directory.size vec
      then Ok (vec !! Z.to_nat (Directory.size vec - diff - 1)) else Ok None
  end.

Definition hashOfSeq (ledger : V) (s : Z) : result (option Z) :=
  let i := View.vinfo ledger in
  if seq i <? s then Ok None
  else if s =? seq i then Ok (Some (hash i))
  else if s =? u32 (seq i - 1) then Ok (Some (parentHash i))
  else
    recent ← recent_hash ledger s;
    match recent with
    | Some h => Ok (Some h)
    | None => if negb (Z.land s 255 =? 0) then Ok None else old_hash ledger s
    end.

End hashes.

End ledger.
End LedgerBuild.
