(* ===== verification/LedgerChain.v ===== *)
(** * Chains of ledgers

    The header of a ledger is written and read back with its hash, and in a
    chain of ledgers each built on the one before, the skip lists let
    [hashOfSeq] find the ancestors: all of the last 256 and, further back,
    every 256th. *)

From stdpp Require Import base tactics numbers list strings gmap sorting option.
From S2P Require Import Prelude Decimal IOUAmount BigNum Serializer STAmount Timing.
From S2P Require Import View StateTable Fields Indexes ViewOps Directory TrustLines LedgerBuild.

Module LedgerChain.
Import Fields Indexes LedgerBuild.

(** ** The header *)

(** The members of a header are in the ranges of their types. *)
Record header_fits (i : LedgerInfo) : Prop := {
  fits_seq : 0 <= seq i < 2 ^ 32;
  fits_drops : 0 <= drops i < 2 ^ 64;
  fits_parent : 0 <= parentHash i < 2 ^ 256;
  fits_tx : 0 <= txHash i < 2 ^ 256;
  fits_account : 0 <= accountHash i < 2 ^ 256;
  fits_parent_time : 0 <= parentCloseTime i < 2 ^ 32;
  fits_time : 0 <= closeTime i < 2 ^ 32;
  fits_resolution : 0 <= closeTimeResolution i < 2 ^ 8;
  fits_flags : 0 <= closeFlags i < 2 ^ 8 }.

Lemma be_bytes_1 i : Serializer.be_bytes 1 i = [u8 i].
Proof. simpl. by rewrite Serializer.land_255. Qed.

Lemma addRaw_bytes i s : addRaw i s = s ++ Serializer.be_bytes 4 (seq i) ++
    Serializer.be_bytes 8 (drops i) ++ Serializer.be_bytes 32 (parentHash i) ++
    Serializer.be_bytes 32 (txHash i) ++ Serializer.be_bytes 32 (accountHash i) ++
    Serializer.be_bytes 4 (parentCloseTime i) ++ Serializer.be_bytes 4 (closeTime i) ++
    Serializer.be_bytes 1 (closeTimeResolution i) ++ Serializer.be_bytes 1 (closeFlags i).
Proof.
  unfold addRaw. rewrite !be_bytes_1, !Serializer.add32_be, !Serializer.add64_be.
  unfold Serializer.add256, Serializer.addBitString, Serializer.addRaw, Serializer.add8.
  cbn [snd]. by rewrite <- !app_assoc.
Qed.

Ltac read_member :=
  first [by apply Serializer.iget32_reads | by apply Serializer.iget64_reads
        |by apply (Serializer.igetBitString_reads _ 32) | by apply Serializer.iget8_reads].

Section header.
Context {SHA : SHA512Half}.

(** The header [setRaw] makes of the members of [i] in place of those of [i0]. *)
Definition header_read (i0 i : LedgerInfo) : LedgerInfo :=
  mkInfo (isOpen i0) (seq i) (parentCloseTime i) (header_hash i) (txHash i) (accountHash i)
    (parentHash i) (drops i) (validated i0) (accepted i0) (closeFlags i) (closeTimeResolution i)
    (closeTime i).

(** The header of a ledger is read back as [addRaw] wrote it, with what
    follows left in place, with or without the prefix; and the hash [updateHash]
    gives it is the digest of the prefix and the bytes of [addRaw], so that it
    comes out the same on the reading side. *)
Theorem header_roundtrip (i i0 : LedgerInfo) (hasPrefix : bool) (rest : list Z) : header_fits i ->
  header_hash i = sha512Half (addRaw i (Serializer.be_bytes 4 ledgerMaster)) /\
  Serializer.reads (Serializer.SerialIter
      (addRaw i (if hasPrefix then Serializer.be_bytes 4 ledgerMaster else []) ++ rest))
    rest (setRaw hasPrefix i0) (header_read i0 i).
Proof.
  intros []. split; [by rewrite addRaw_bytes|]. rewrite addRaw_bytes, <- !app_assoc.
  unfold setRaw. eapply (Serializer.reads_bind _ _ _ _ _ (if hasPrefix then ledgerMaster else 0)).
  { destruct hasPrefix.
    - apply Serializer.iget32_reads; [apply Serializer.view_start|by vm_compute].
    - apply Serializer.reads_ret. apply Serializer.view_start. }
  intros it Hv. rewrite !be_bytes_1, !u8_id in Hv by done. cbn [app] in Hv.
  repeat (eapply Serializer.reads_bind; [read_member|intros ? ?]).
  by apply Serializer.reads_ret.
Qed.

End header.

(** ** The records of the skip list *)

Section skip.
Context `{Build} {SHA : SHA512Half} {SL : SHA512HalfLaws SHA} {RH : RootHash}.

#[local] Hint Resolve Serializer.be_bytes_bytes bytes_app : sand.

Lemma skip_keys g : getLedgerHashIndex <> getLedgerHashIndex_of g /\
  getLedgerHashIndex <> 0 /\ getLedgerHashIndex_of g <> 0.
Proof.
  unfold getLedgerHashIndex, getLedgerHashIndex_of. split_and!.
  - intros Heq%sha_inj; [|auto with sand..]. apply (f_equal length) in Heq.
    rewrite length_app, !Serializer.length_be_bytes in Heq. done.
  - apply Z.neq_sym, Z.lt_neq, sha_pos. auto with sand.
  - apply Z.neq_sym, Z.lt_neq, sha_pos. auto with sand.
Qed.

Lemma account_not_skip x g k : k = getLedgerHashIndex \/ k = getLedgerHashIndex_of g -> getAccountRootIndex x <> k.
Proof.
  unfold getAccountRootIndex, getLedgerHashIndex, getLedgerHashIndex_of.
  intros [->| ->]; [rewrite <- (app_nil_r (Serializer.be_bytes 2 spaceSkipList))|];
    apply spaces_differ; first [by auto with sand | by constructor | by vm_compute].
Qed.

Lemma shiftr_16 s : Z.shiftr s 16 = s / 65536.
Proof. by rewrite Z.shiftr_div_pow2. Qed.

(** The record of every 256th hash is shared by 65536 ledgers. *)
Lemma skip_of_group a b : 0 <= a < 2 ^ 32 -> 0 <= b < 2 ^ 32 ->
  (Keylet.key (skip_of a) = Keylet.key (skip_of b) <-> a / 65536 = b / 65536).
Proof.
  intros Ha Hb. unfold skip_of, getLedgerHashIndex_of. cbn [Keylet.key].
  rewrite !shiftr_16. split; [|by intros ->].
  intros [_ Heq]%sha_split; [|auto with sand..].
  apply be_bytes_inj in Heq; [done|..]; change (2 ^ (8 * Z.of_nat 4)) with (2 ^ 32);
    (split; [apply Z.div_pos; lia|apply Z.div_lt_upper_bound; lia]).
Qed.

(** The record under [k] has these hashes and this last number; without hashes
    there is none. *)
Definition recorded (k : Keylet.t) (hs : list Z) (last : Z) (m : gmap Z Entry) : Prop :=
  match hs with
  | [] => m !! Keylet.key k = None
  | _ => exists o, m !! Keylet.key k = Some (mkSLE (Keylet.key k) (Keylet.type k) o) /\
      o !! sfHashes = Some (Some (VEC hs)) /\ o !! sfLastLedgerSequence = Some (Some (U32 last))
  end.

Lemma recorded_some k hs last m : hs <> [] -> recorded k hs last m -> exists o,
  m !! Keylet.key k = Some (mkSLE (Keylet.key k) (Keylet.type k) o) /\
  o !! sfHashes = Some (Some (VEC hs)) /\ o !! sfLastLedgerSequence = Some (Some (U32 last)).
Proof. by destruct hs. Qed.

Lemma recorded_ne k hs last m j e : j <> Keylet.key k -> recorded k hs last m ->
  recorded k hs last (<[j := e]> m).
Proof. intros Hj. unfold recorded. by rewrite lookup_insert_ne. Qed.

Lemma recorded_snoc k hs x last m : recorded k (hs ++ [x]) last m <-> exists o,
  m !! Keylet.key k = Some (mkSLE (Keylet.key k) (Keylet.type k) o) /\
  o !! sfHashes = Some (Some (VEC (hs ++ [x]))) /\ o !! sfLastLedgerSequence = Some (Some (U32 last)).
Proof. unfold recorded. by destruct hs. Qed.

Lemma checked_record k (o : STObject) : Keylet.type k = ltLEDGER_HASHES ->
  Keylet.checked k (Some (mkSLE (Keylet.key k) (Keylet.type k) o)) =
  Ok (Some (mkSLE (Keylet.key k) (Keylet.type k) o)).
Proof.
  intros Hk. unfold Keylet.checked, Keylet.check, Keylet.assert. cbn [getType]. rewrite Hk. simpl.
  by destruct NDEBUG.
Qed.

(** The list [push_hash] makes of the one it finds. *)
Definition pushed (bounded : bool) (hs : list Z) (x : Z) : list Z :=
  (if bounded && (Directory.size hs =? 256) then drop 1 hs else hs) ++ [x].

Lemma push_hash_spec k b prev x hs last (l : Maps) :
  Keylet.type k = ltLEDGER_HASHES -> Directory.size hs <= 256 ->
  recorded k hs last (Ledger.stateMap_ l) -> exists e,
    push_hash k b prev x l = Ok (Ledger.set_state (<[Keylet.key k := e]> (Ledger.stateMap_ l)) l) /\
    sle_key e = Keylet.key k /\
    recorded k (pushed b hs x) prev (<[Keylet.key k := e]> (Ledger.stateMap_ l)).
Proof.
  intros Hk Hsz Hr. destruct k as [type key]. simpl in *. subst type. unfold push_hash, peek. simpl.
  assert (Hhas : exists o, has_place sfHashes o /\ has_place sfLastLedgerSequence o /\
    (match hs with
     | [] => Ledger.stateMap_ l !! key = None /\ make_SLE (Keylet.mk ltLEDGER_HASHES key) = Ok (mkSLE key ltLEDGER_HASHES o)
     | _ => Ledger.stateMap_ l !! key = Some (mkSLE key ltLEDGER_HASHES o) /\ getFieldV256 sfHashes o = Ok hs
     end)).
  { destruct hs as [|h hs].
    - destruct (make_SLE_conforms ltLEDGER_HASHES key _ eq_refl) as (o & Hm & _ & Hp). exists o.
      split_and!; try done; apply Hp; by vm_compute; repeat constructor.
    - destruct Hr as (o & Ho & Hh & Hl). cbn [Keylet.key Keylet.type] in Ho. exists o. unfold has_place, getFieldV256, getField.
      by rewrite Ho, Hh, Hl. }
  destruct Hhas as (o & Hh & Hl & Hcase).
  set (o2 := <[sfLastLedgerSequence := Some (U32 prev)]> (<[sfHashes := Some (VEC (pushed b hs x))]> o)).
  exists (mkSLE key ltLEDGER_HASHES o2). split; [|split; [done|]].
  - assert (Hset : forall B (K : STObject -> result B),
      (o1 ← setFieldV256 sfHashes (pushed b hs x) o; o1 ← setFieldU32 sfLastLedgerSequence prev o1; K o1) = K o2).
    { intros B K. unfold setFieldV256, setFieldU32. rewrite setField_ok by done. simpl.
      rewrite setField_ok; [done|by apply has_place_insert|done]. }
    assert (Hassert : Keylet.assert (Directory.size hs <=? 256) = Ok tt).
    { unfold Keylet.assert. rewrite (proj2 (Z.leb_le _ _)) by done. by destruct NDEBUG. }
    unfold pushed in Hset. destruct hs as [|h hs]; destruct Hcase as [Hl1 Hl2]; rewrite Hl1.
    + cbn [Keylet.checked mbind result_bind]. rewrite Hl2. cbn [mbind result_bind]. rewrite Hassert.
      cbn [mbind result_bind fields]. rewrite Hset.
      unfold Ledger.raw_insert. simpl. by rewrite Hl1.
    + rewrite (checked_record (Keylet.mk ltLEDGER_HASHES key)) by done. cbn [mbind result_bind fields].
      rewrite Hl2. cbn [mbind result_bind]. rewrite Hassert. cbn [mbind result_bind]. rewrite Hset.
      unfold Ledger.raw_replace. simpl. by rewrite Hl1.
  - unfold pushed at 1. apply recorded_snoc. exists o2. simpl. unfold o2.
    rewrite lookup_insert_eq, lookup_insert_eq, lookup_insert_ne, lookup_insert_eq by done. done.
Qed.

(** ** What the records of a ledger hold *)

(** With [h] the hash of every ledger and [f] the number of the first one that
    has a successor with records: the last 256 hashes before ledger [n], and of
    the 65536 ledgers of group [g] every 256th, as far as they are before [n]. *)
Definition window (h : Z -> Z) (f n : Z) : list Z :=
  h <$> seqZ (Z.max f (n - 256)) (n - Z.max f (n - 256)).
Definition group_first (f g : Z) : Z := Z.max ((f + 255) / 256) (256 * g).
Definition group_end (n g : Z) : Z := Z.min ((n - 1) / 256 + 1) (256 * g + 256).
Definition group (h : Z -> Z) (f n g : Z) : list Z :=
  (fun i => h (256 * i)) <$> seqZ (group_first f g) (group_end n g - group_first f g).

Record skips (h : Z -> Z) (f n : Z) (m : gmap Z Entry) : Prop := {
  skips_recent : recorded skip (window h f n) (n - 1) m;
  skips_old g : 0 <= g < 65536 -> recorded (skip_of (65536 * g)) (group h f n g) (256 * (group_end n g - 1)) m }.

Ltac euclid := Z.to_euclidean_division_equations; lia.

Lemma seqZ_snoc a b : a <= b -> seqZ a (b + 1 - a) = seqZ a (b - a) ++ [b].
Proof.
  intros Hab. replace (b + 1 - a) with ((b - a) + 1) by lia. rewrite seqZ_app by lia.
  f_equal. replace (a + (b - a)) with b by lia. done.
Qed.

Lemma size_window h f n : f <= n -> Directory.size (window h f n) = n - Z.max f (n - 256).
Proof. intros. unfold Directory.size, window. rewrite length_fmap, length_seqZ. lia. Qed.

Lemma size_group h f n g : Directory.size (group h f n g) = Z.max 0 (group_end n g - group_first f g).
Proof. unfold Directory.size, group. rewrite length_fmap, length_seqZ. lia. Qed.

Lemma drop_seqZ (h : Z -> Z) a b : a < b -> drop 1 (h <$> seqZ a (b - a)) = h <$> seqZ (a + 1) (b - (a + 1)).
Proof.
  intros Hab. rewrite seqZ_cons by lia. rewrite fmap_cons. unfold drop at 1. f_equal. f_equal; lia.
Qed.

Lemma pushed_window h f n : f <= n -> pushed true (window h f n) (h n) = window h f (n + 1).
Proof.
  intros Hf. unfold pushed. rewrite size_window by done. rewrite andb_true_l.
  destruct (Z.eqb_spec (n - Z.max f (n - 256)) 256).
  - unfold window. rewrite drop_seqZ by lia.
    replace (Z.max f (n + 1 - 256)) with (Z.max f (n - 256) + 1) by lia.
    rewrite seqZ_snoc by lia. by rewrite fmap_app.
  - unfold window. replace (Z.max f (n + 1 - 256)) with (Z.max f (n - 256)) by lia.
    rewrite seqZ_snoc by lia. by rewrite fmap_app.
Qed.

Lemma pushed_group h f n g : f <= n -> 0 <= n -> n mod 256 = 0 -> n / 65536 = g ->
  pushed false (group h f n g) (h n) = group h f (n + 1) g /\ n = 256 * (group_end (n + 1) g - 1).
Proof.
  intros Hf Hn Hm Hg. assert (group_end n g = n / 256 /\ group_end (n + 1) g = n / 256 + 1) as [He He1].
  { unfold group_end. replace (n + 1 - 1) with n by lia. euclid. }
  assert (group_first f g <= n / 256) by (unfold group_first; euclid).
  split; [|rewrite He1; euclid]. unfold pushed, group. simpl. rewrite He, He1, seqZ_snoc by done.
  rewrite fmap_app. simpl. do 3 f_equal. euclid.
Qed.

(** The other groups stay. *)
Lemma group_same h f n g m : 0 <= n -> n mod 256 <> 0 \/ n / 65536 <> g ->
  recorded (skip_of (65536 * g)) (group h f n g) (256 * (group_end n g - 1)) m ->
  recorded (skip_of (65536 * g)) (group h f (n + 1) g) (256 * (group_end (n + 1) g - 1)) m.
Proof.
  intros Hn Hg. destruct (decide (group_end (n + 1) g = group_end n g)) as [He|He].
  - unfold group. by rewrite He.
  - assert (group_end n g <= group_first f g /\ group_end (n + 1) g <= group_first f g) as [H1 H2].
    { unfold group_end, group_first in *. replace (n + 1 - 1) with n in * by lia. euclid. }
    unfold group. by rewrite !(seqZ_nil _ (_ - _)) by lia.
Qed.

Definition keyed (m : gmap Z Entry) : Prop := forall i e, m !! i = Some e -> sle_key e = i /\ i <> 0.

Lemma keyed_insert m i e : keyed m -> sle_key e = i -> i <> 0 -> keyed (<[i := e]> m).
Proof. intros Hm He Hi j e' [[<- <-]|[_ Hj]]%lookup_insert_Some; [done|auto]. Qed.

Lemma skip_of_ne g n : 0 <= g < 65536 -> 0 <= n < 2 ^ 32 -> n / 65536 <> g ->
  Keylet.key (skip_of n) <> Keylet.key (skip_of (65536 * g)).
Proof. intros Hg Hn Hne Heq%skip_of_group; [euclid|lia|lia]. Qed.

Lemma skip_of_eq n : 0 <= n < 2 ^ 32 -> skip_of n = skip_of (65536 * (n / 65536)).
Proof.
  intros Hn. unfold skip_of, getLedgerHashIndex_of. rewrite !shiftr_16. by rewrite (Z.mul_comm 65536), Z.div_mul.
Qed.

(** The record of every 256th hash, when the parent's number is a multiple. *)
Lemma push_old h f n (l : Maps) : f <= n -> 0 <= n < 2 ^ 32 -> n mod 256 = 0 ->
  keyed (Ledger.stateMap_ l) -> skips h f n (Ledger.stateMap_ l) -> exists m,
    push_hash (skip_of n) false n (h n) l = Ok (Ledger.set_state m l) /\ keyed m /\
    recorded skip (window h f n) (n - 1) m /\
    (forall g, 0 <= g < 65536 ->
       recorded (skip_of (65536 * g)) (group h f (n + 1) g) (256 * (group_end (n + 1) g - 1)) m).
Proof.
  intros Hf Hn Hm Hkeys [Hr Ho]. set (g0 := n / 65536).
  assert (Hg0 : 0 <= g0 < 65536) by (unfold g0; euclid).
  destruct (pushed_group h f n g0) as [Hp Hl]; [lia|lia|done|done|].
  rewrite skip_of_eq by done. fold g0.
  destruct (push_hash_spec (skip_of (65536 * g0)) false n (h n) _ _ l eq_refl
    ltac:(rewrite size_group; unfold group_end, group_first; lia) (Ho g0 Hg0)) as (e & Hpush & He & Hrec).
  eexists. split; [exact Hpush|]. split_and!.
  - apply keyed_insert; [done|done|]. apply skip_keys.
  - apply recorded_ne; [|done]. apply not_eq_sym, skip_keys.
  - intros g Hg. destruct (decide (g = g0)) as [->|Hne].
    + rewrite Hp in Hrec. by rewrite <- Hl.
    + apply recorded_ne; [|apply group_same; [lia|by right; apply not_eq_sym|by apply Ho]].
      apply skip_of_ne; [done|lia|]. unfold g0 in *. euclid.
Qed.

Lemma set_state_id (l : Maps) : Ledger.set_state (Ledger.stateMap_ l) l = l.
Proof. by destruct l. Qed.

Lemma updateSkipList_spec h f n (l : t) : f <= n -> 0 <= n -> n + 1 < 2 ^ 32 ->
  seq (info l) = n + 1 -> parentHash (info l) = h n ->
  keyed (Ledger.stateMap_ (maps l)) -> skips h f n (Ledger.stateMap_ (maps l)) -> exists m,
    updateSkipList l = Ok (set_maps (Ledger.set_state m (maps l)) l) /\ keyed m /\ skips h f (n + 1) m.
Proof.
  intros Hf Hn Hn1 Hseq Hpar Hkeys Hs. unfold updateSkipList.
  rewrite Hseq, Hpar, (proj2 (Z.eqb_neq _ _)) by lia. replace (n + 1 - 1) with n by lia.
  rewrite u32_id, Serializer.land_255 by lia.
  assert (exists m, (if n mod 256 =? 0 then push_hash (skip_of n) false n (h n) (maps l) else Ok (maps l)) =
      Ok (Ledger.set_state m (maps l)) /\ keyed m /\
    recorded skip (window h f n) (n - 1) m /\
    (forall g, 0 <= g < 65536 ->
       recorded (skip_of (65536 * g)) (group h f (n + 1) g) (256 * (group_end (n + 1) g - 1)) m))
    as (m & -> & Hkm & Hrm & Hgm).
  { destruct (Z.eqb_spec (n mod 256) 0) as [Hm|Hm]; [apply push_old; (done || lia)|].
    exists (Ledger.stateMap_ (maps l)). rewrite set_state_id. split; [done|]. destruct Hs as [Hr Ho].
    split_and!; try done. intros g Hg. apply group_same; [done|by left|by apply Ho]. }
  cbn [mbind result_bind].
  destruct (push_hash_spec skip true n (h n) (window h f n) (n - 1) (Ledger.set_state m (maps l)) eq_refl)
    as (e & -> & He & Hrec); [rewrite size_window; lia|done|].
  cbn [mbind result_bind]. eexists. split; [done|]. cbn [Ledger.stateMap_ Ledger.set_state] in *. split.
  - apply keyed_insert; [done|done|]. apply (skip_keys 0).
  - split.
    + rewrite pushed_window in Hrec by done. by replace (n + 1 - 1) with n by lia.
    + intros g Hg. apply recorded_ne; [|by apply Hgm]. apply skip_keys.
Qed.

(** ** Looking up *)

Lemma read_recorded k hs last (l : Maps) : Keylet.type k = ltLEDGER_HASHES -> Keylet.key k <> 0 ->
  recorded k hs last (Ledger.stateMap_ l) -> exists found, Ledger.read l k = Ok found /\
    match found with
    | None => hs = []
    | Some e => hs <> [] /\ getFieldV256 sfHashes (fields e) = Ok hs /\
        getFieldU32 sfLastLedgerSequence (fields e) = Ok last
    end.
Proof.
  intros Hk Hz Hr. unfold Ledger.read. rewrite (proj2 (Z.eqb_neq _ _)) by done. destruct hs as [|x hs].
  - unfold recorded in Hr. rewrite Hr. by exists None.
  - destruct Hr as (o & -> & Hh & Hl). rewrite checked_record by done. eexists. split; [done|]. simpl.
    unfold getFieldV256, getFieldU32, getField. by rewrite Hh, Hl.
Qed.

Lemma window_lookup h f n s : f <= s < n -> n - s <= 256 ->
  window h f n !! Z.to_nat (Directory.size (window h f n) - (n - s)) = Some (h s).
Proof.
  intros Hs Hd. rewrite size_window by lia. unfold window. apply list_lookup_fmap_Some.
  exists s. split; [done|]. apply lookup_seqZ. lia.
Qed.

Lemma group_lookup h f n s : f <= s < n -> 0 <= s -> s mod 256 = 0 ->
  group h f n (s / 65536) !!
    Z.to_nat (Directory.size (group h f n (s / 65536)) - (group_end n (s / 65536) - 1 - s / 256) - 1) = Some (h s).
Proof.
  intros Hs Hs0 Hm. rewrite size_group.
  assert (group_first f (s / 65536) <= s / 256 < group_end n (s / 65536)) as Hin
    by (unfold group_first, group_end; euclid).
  unfold group. apply list_lookup_fmap_Some. exists (s / 256). split; [f_equal; euclid|].
  apply lookup_seqZ. split; lia.
Qed.

Lemma recent_hash_spec h f n (l : Maps) s : recorded skip (window h f n) (n - 1) (Ledger.stateMap_ l) ->
  1 <= f <= s -> s < n < 2 ^ 32 -> seq (Ledger.info_ l) = n ->
  recent_hash l s = Ok (if n - s <=? 256 then Some (h s) else None).
Proof.
  intros Hr Hf Hs Hseq. unfold recent_hash. change (View.vinfo l) with (Ledger.info_ l).
  change (View.vread l) with (Ledger.read l). rewrite Hseq.
  destruct (read_recorded skip _ _ l eq_refl ltac:(apply (skip_keys 0)) Hr) as (found & -> & Hfound).
  assert (Hne : window h f n <> []).
  { intros Hw. apply (f_equal Directory.size) in Hw. rewrite size_window in Hw by lia.
    unfold Directory.size in Hw. simpl in Hw. lia. }
  destruct found as [e|]; [|done]. destruct Hfound as (_ & Hv & Hl).
  cbn [mbind result_bind]. rewrite Hl. cbn [mbind result_bind]. rewrite u32_id, Z.eqb_refl, ViewOps.assert_true by (done || lia).
  replace (if NDEBUG then Ok tt else Ok tt) with (Ok tt : result unit) by (by destruct NDEBUG).
  rewrite Hv. cbn [mbind result_bind].
  destruct (decide (n - s < 2 ^ 31)).
  - rewrite i32_id by lia. destruct (Z.leb_spec (n - s) 256); [|done].
    rewrite u64_id by lia. rewrite (proj2 (Z.leb_le _ _)) by (rewrite size_window; lia).
    by rewrite window_lookup by lia.
  - rewrite (proj2 (Z.leb_gt (n - s) 256)) by lia.
    assert (i32 (n - s) = n - s - 2 ^ 32) as -> by (unfold i32; euclid).
    assert (u64 (n - s - 2 ^ 32) = n - s - 2 ^ 32 + 2 ^ 64) as -> by (unfold u64; euclid).
    rewrite (proj2 (Z.leb_le _ _)) by lia. rewrite (proj2 (Z.leb_gt _ _)) by (rewrite size_window; lia). done.
Qed.

Lemma old_hash_spec h f n (l : Maps) s : skips h f n (Ledger.stateMap_ l) ->
  1 <= f <= s -> s < n < 2 ^ 32 -> s mod 256 = 0 -> old_hash l s = Ok (Some (h s)).
Proof.
  intros [_ Ho] Hf Hs Hm. unfold old_hash. change (View.vread l) with (Ledger.read l).
  set (g := s / 65536). assert (Hg : 0 <= g < 65536) by (unfold g; euclid).
  assert (Hin : group_first f g <= s / 256 < group_end n g) by (unfold g, group_first, group_end; euclid).
  rewrite skip_of_eq by lia. fold g.
  destruct (read_recorded (skip_of (65536 * g)) _ _ l eq_refl ltac:(apply skip_keys) (Ho g Hg))
    as (found & -> & Hfound). cbn [mbind result_bind].
  destruct found as [e|]; cycle 1.
  { apply (f_equal Directory.size) in Hfound. rewrite size_group in Hfound.
    unfold Directory.size in Hfound. simpl in Hfound. lia. }
  destruct Hfound as (_ & Hv & Hl). rewrite Hl. cbn [mbind result_bind].
  assert (Hend : group_end n g <= n / 256 + 1) by (unfold group_end; euclid).
  rewrite (ViewOps.assert_true (s <=? _)) by (apply Z.leb_le; euclid). cbn [mbind result_bind].
  rewrite Serializer.land_255, (ViewOps.assert_true (_ =? 0)) by (apply Z.eqb_eq; rewrite Z.mul_comm; apply Z.mod_mul; lia).
  cbn [mbind result_bind]. rewrite Hv. cbn [mbind result_bind].
  rewrite u32_id by euclid. rewrite Serializer.shiftr_8.
  assert ((256 * (group_end n g - 1) - s) / 256 = group_end n g - 1 - s / 256) as -> by euclid.
  rewrite (proj2 (Z.ltb_lt _ _)) by (rewrite size_group; unfold group_end, group_first in *; lia).
  unfold g. by rewrite group_lookup by lia.
Qed.

Lemma hashOfSeq_spec h f n (l : Maps) s : skips h f n (Ledger.stateMap_ l) ->
  1 <= f <= s -> s <= n < 2 ^ 32 -> seq (Ledger.info_ l) = n -> hash (Ledger.info_ l) = h n ->
  (f < n -> parentHash (Ledger.info_ l) = h (n - 1)) ->
  hashOfSeq l s = Ok (if (n - s <=? 256) || (Z.land s 255 =? 0) then Some (h s) else None).
Proof.
  intros Hsk Hf Hs Hseq Hhash Hpar. unfold hashOfSeq. change (View.vinfo l) with (Ledger.info_ l).
  rewrite Hseq, (proj2 (Z.ltb_ge _ _)), !Serializer.land_255 by lia.
  destruct (Z.eqb_spec s n) as [->|Hne]; [by rewrite Hhash, (proj2 (Z.leb_le _ _)) by lia|].
  rewrite u32_id by lia. destruct (Z.eqb_spec s (n - 1)) as [->|Hne1].
  { rewrite Hpar, (proj2 (Z.leb_le _ _)) by lia. done. }
  rewrite (recent_hash_spec h f n) by (done || lia || apply Hsk). cbn [mbind result_bind].
  destruct (Z.leb_spec (n - s) 256); [done|].
  destruct (Z.eqb_spec (s mod 256) 0); [|done]. simpl. eapply old_hash_spec; (done || lia).
Qed.

(** ** The next ledger *)

(** Applying a view to a ledger changes of the header the drops only. *)
Definition header_but_drops (l : Maps) : LedgerInfo := set_info_drops 0 (Ledger.info_ l).

Lemma raw_apply_header tb (l l' : Maps) : RawStateTable.apply tb l = Ok l' ->
  header_but_drops l' = header_but_drops l.
Proof.
  intros Ha. refine (wp_ok _ (fun l' => header_but_drops l' = header_but_drops l) (fun _ => True) l' _ Ha).
  unfold RawStateTable.apply.
  refine (foldM_wp (fun l' => header_but_drops l' = header_but_drops l) _ _ _ _ _ _); [|done].
  intros s [i [a e]] _ Hs. unfold RawStateTable.apply_item. cbn [snd].
  destruct a; cbn [rawErase rawInsert rawReplace Ledger.RawView_Ledger];
    unfold Ledger.raw_erase, Ledger.raw_insert, Ledger.raw_replace; by destruct (_ !! _).
Qed.

Lemma tx_inserts_keep txs : forall (l l' : Maps),
  foldM (fun to item => rawTxInsert to item.1 item.2.1 item.2.2) l txs = Ok l' ->
  Ledger.stateMap_ l' = Ledger.stateMap_ l /\ Ledger.info_ l' = Ledger.info_ l.
Proof.
  induction txs as [|[k [txn meta]] txs IH]; intros l l'; simpl; [by intros [= <-]|].
  unfold Ledger.raw_tx_insert. intros Hrun.
  destruct (Keylet.assert _) as [[]| |]; simpl in Hrun; [|done..].
  destruct (match meta with Some _ => _ | None => _ end) as [item| |]; simpl in Hrun; [|done..].
  destruct (_ !! _); [done|]. simpl in Hrun. by apply IH in Hrun as [-> ->].
Qed.

(** Transactions leave the records of the skip list alone. *)
Definition leaves_skips (applyTransactions : OpenView.t STObject Maps -> result (OpenView.t STObject Maps)) : Prop :=
  forall v v', good v -> applyTransactions v = Ok v' ->
    good v' /\ OpenView.base_ v' = OpenView.base_ v /\
    forall g k, k = getLedgerHashIndex \/ k = getLedgerHashIndex_of g -> contents v' !! k = contents v !! k.

Lemma skips_same h f n (m m' : gmap Z Entry) :
  (forall g k, k = getLedgerHashIndex \/ k = getLedgerHashIndex_of g -> m' !! k = m !! k) ->
  skips h f n m -> skips h f n m'.
Proof.
  intros Hm [Hr Ho]. split.
  - unfold recorded in *. rewrite (Hm 0) by (by left). done.
  - intros g Hg. specialize (Ho g Hg). unfold recorded in *.
    rewrite (Hm (65536 * g)) by (by right). done.
Qed.

Lemma openview_apply_spec (accum : OpenView.t STObject Maps) (base m : Maps) :
  good accum -> OpenView.base_ accum = base -> OpenView.apply accum base = Ok m ->
  contents m = contents accum /\ good m /\ header_but_drops m = header_but_drops base.
Proof.
  intros [Hgb Hok] Hb Ha. subst base. unfold OpenView.apply in Ha.
  destruct (RawStateTable.raw_apply_spec _ _ Hok (OpenView.base_ accum) Hgb eq_refl)
    as (m1 & Hm1 & [Hg1 Hd1] & Hc1 & _).
  rewrite Hm1 in Ha. cbn [mbind result_bind] in Ha. apply tx_inserts_keep in Ha as [Hs Hi].
  split_and!; [simpl in *; by rewrite Hs|by split; [simpl; rewrite Hs|simpl; rewrite Hi]|].
  unfold header_but_drops. rewrite Hi. by apply raw_apply_header in Hm1.
Qed.

Lemma setFees_maps config (l l' : t) : setFees config l = Ok l' -> maps l' = maps l.
Proof.
  unfold setFees. destruct (Ledger.read _ _) as [found| |]; cbn [mbind result_bind]; [|done..].
  destruct (match found with Some _ => _ | None => _ end) as [fe| |]; cbn [mbind result_bind]; [|done..].
  by intros [= <-].
Qed.

Lemma setImmutable_spec config (l l' : t) : setImmutable config l = Ok l' ->
  Ledger.stateMap_ (maps l') = Ledger.stateMap_ (maps l) /\
  seq (info l') = seq (info l) /\ parentHash (info l') = parentHash (info l) /\ drops (info l') = drops (info l).
Proof.
  unfold setImmutable. intros Hf%setFees_maps. unfold info. rewrite Hf. by destruct l as [? [] ?].
Qed.

(** What is known of the last ledger of a chain. *)
Record tip (h : Z -> Z) (f : Z) (l : t) : Prop := {
  tip_seq : f <= seq (info l) < 2 ^ 32;
  tip_good : good (maps l);
  tip_hash : hash (info l) = h (seq (info l));
  tip_parent : f < seq (info l) -> parentHash (info l) = h (seq (info l) - 1);
  tip_skips : skips h f (seq (info l)) (Ledger.stateMap_ (maps l)) }.

Lemma open_ledger_spec now (l l' : t) : open_ledger now l = Ok l' -> 0 <= seq (info l) < 2 ^ 32 - 1 ->
  Ledger.stateMap_ (maps l') = Ledger.stateMap_ (maps l) /\ seq (info l') = seq (info l) + 1 /\
  parentHash (info l') = hash (info l) /\ drops (info l') = drops (info l).
Proof.
  unfold open_ledger. destruct (Timing.getNextLedgerTimeResolution _ _ _); cbn [mbind result_bind]; [|done..].
  intros [= <-] Hs. simpl. rewrite u32_id by lia. done.
Qed.

Lemma build_ledger_spec h f config apply now ct res correct (l l' : t) :
  leaves_skips apply -> 1 <= f -> seq (info l) + 1 < 2 ^ 32 -> tip h f l ->
  build_ledger config apply now ct res correct l = Ok l' ->
  seq (info l') = seq (info l) + 1 /\ parentHash (info l') = h (seq (info l)) /\ good (maps l') /\
  skips h f (seq (info l) + 1) (Ledger.stateMap_ (maps l')).
Proof.
  intros Hap Hf1 Hseq [Hs [Hk Hd] Hh _ Hsk]. unfold build_ledger.
  destruct (open_ledger now l) as [n1| |] eqn:Ho; cbn [mbind result_bind]; [|done..].
  apply open_ledger_spec in Ho as (Hst & Hq & Hp & Hdr); [|lia].
  assert (Hg1 : good (maps (setClosed n1))).
  { split; simpl; rewrite ?Hst; [done|by rewrite Hdr]. }
  destruct (Keylet.assert _); cbn [mbind result_bind]; [|done..].
  destruct (apply _) as [accum| |] eqn:Ha; cbn [mbind result_bind]; [|done..].
  destruct (OpenView.open_make_good _ Hg1) as (Hgm & Hcm & _).
  destruct (Hap _ _ Hgm Ha) as (Hga & Hba & Hkeep).
  destruct (OpenView.apply accum _) as [m| |] eqn:Hm; cbn [mbind result_bind]; [|done..].
  apply openview_apply_spec in Hm as (Hcon & Hgmm & Hhd); [|done|done].
  assert (Hfields : seq (Ledger.info_ m) = seq (info l) + 1 /\ parentHash (Ledger.info_ m) = hash (info l)).
  { unfold header_but_drops in Hhd. injection Hhd as _ -> _ _ _ _ -> _ _ _ _ _. by split. }
  destruct Hfields as [Hmq Hmp].
  destruct (updateSkipList_spec h f (seq (info l)) (set_maps m (setClosed n1))) as (m2 & -> & Hk2 & Hs2);
    [lia|lia|lia|done|by rewrite <- Hh|exact (proj1 Hgmm)| |].
  { apply (skips_same h f _ (Ledger.stateMap_ (maps l))); [|done]. intros g k Hgk.
    change (Ledger.stateMap_ (maps (set_maps m (setClosed n1)))) with (contents m).
    rewrite Hcon, (Hkeep g k Hgk), Hcm. simpl. by rewrite Hst. }
  cbn [mbind result_bind]. unfold setAccepted_at.
  destruct (Keylet.assert _); cbn [mbind result_bind]; [|done..].
  intros (Hst2 & Hq2 & Hp2 & Hd2)%setImmutable_spec.
  rewrite Hst2, Hq2, Hp2. split_and!; [done|by rewrite <- Hh| |done].
  split; simpl; [rewrite Hst2; done|]. unfold info in Hd2. rewrite Hd2. simpl. exact (proj2 Hgmm).
Qed.

(** ** Chains *)

(** A ledger with no records yet, such as the one after the genesis ledger. *)
Record no_records (l : t) : Prop := {
  first_seq : 1 <= seq (info l) < 2 ^ 32;
  first_good : good (maps l);
  first_none g k : k = getLedgerHashIndex \/ k = getLedgerHashIndex_of g -> Ledger.stateMap_ (maps l) !! k = None }.

(** Ledgers in order, each built on the one before. *)
Inductive chain (config : Config) : list t -> Prop :=
| chain_first l : no_records l -> chain config [l]
| chain_next ls l apply now ct res correct l' :
    chain config (ls ++ [l]) -> leaves_skips apply -> seq (info l) + 1 < 2 ^ 32 ->
    build_ledger config apply now ct res correct l = Ok l' -> chain config ((ls ++ [l]) ++ [l']).

Lemma skips_ext h h' f n m : (forall s, f <= s < n -> h s = h' s) -> skips h f n m -> skips h' f n m.
Proof.
  intros Hh [Hr Ho].
  assert (Hw : window h f n = window h' f n).
  { apply list_fmap_ext. intros i s Hs%lookup_seqZ. apply Hh. lia. }
  assert (Hg : forall g, group h f n g = group h' f n g).
  { intros g. apply list_fmap_ext. intros i s Hs%lookup_seqZ. apply Hh.
    unfold group_first, group_end in Hs. euclid. }
  split; [by rewrite <- Hw|]. intros g Hgr. rewrite <- Hg. by apply Ho.
Qed.

(** The hash of the ledger with a number, in a chain that starts with [f]. *)
Definition hash_at (ls : list t) (f s : Z) : option Z := (fun a => hash (info a)) <$> ls !! Z.to_nat (s - f).

Lemma chain_tip config ls : chain config ls -> exists first l,
  list.head ls = Some first /\ list.last ls = Some l /\ 1 <= seq (info first) /\
  seq (info l) = seq (info first) + Z.of_nat (length ls) - 1 /\
  tip (fun s => default 0 (hash_at ls (seq (info first)) s)) (seq (info first)) l.
Proof.
  induction 1 as [l [Hs Hg Hn]|ls l apply now ct res correct l' _ IH Hap Hlt Hb].
  - exists l, l. split_and!; try done; [lia|simpl; lia|]. split; try done; try lia.
    + unfold hash_at. by rewrite Z.sub_diag.
    + split.
      * unfold window. rewrite seqZ_nil by lia. by apply (Hn 0); left.
      * intros g Hgr. unfold group. rewrite seqZ_nil by (unfold group_end, group_first; euclid).
        apply (Hn (65536 * g)). by right.
  - destruct IH as (first & l0 & Hhd & Hla & H1 & Hlen & Htip).
    rewrite last_snoc in Hla. injection Hla as <-. set (f := seq (info first)) in *.
    rewrite length_app in Hlen. simpl in Hlen.
    destruct (build_ledger_spec _ f config apply now ct res correct l l' Hap H1 Hlt Htip Hb)
      as (Hq & Hp & Hg & Hsk).
    assert (Hold : forall s, f <= s < seq (info l) + 1 ->
      default 0 (hash_at (ls ++ [l]) f s) = default 0 (hash_at ((ls ++ [l]) ++ [l']) f s)).
    { intros s Hs. unfold hash_at. rewrite (lookup_app_l (ls ++ [l])) by (rewrite length_app; simpl; lia). done. }
    exists first, l'. rewrite last_snoc. split_and!; try done.
    + apply head_app_Some. by left.
    + rewrite Hq, !length_app. simpl. lia.
    + fold f. split; rewrite ?Hq; try done; [lia| | |].
      * unfold hash_at. rewrite lookup_app_r by (rewrite length_app; simpl; lia). rewrite length_app. simpl.
        by replace (Z.to_nat (seq (info l) + 1 - f) - (length ls + 1))%nat with 0%nat by lia.
      * intros _. rewrite Hp. replace (seq (info l) + 1 - 1) with (seq (info l)) by lia. apply Hold.
        destruct Htip. lia.
      * exact (skips_ext _ _ _ _ _ Hold Hsk).
Qed.

(** C35: the skip lists find the ancestors.  In any chain of ledgers, each made by
    [build_ledger] from the one before with whatever transactions, [hashOfSeq]
    on the last ledger returns without failing: for a number within 256 of it,
    and for every multiple of 256 further back, the hash of the ledger of the
    chain with that number; nothing for other numbers and for later ones. *)
Theorem hashOfSeq_ancestors config ls first l s : chain config ls ->
  list.head ls = Some first -> list.last ls = Some l -> seq (info first) <= s ->
  hashOfSeq (maps l) s =
    Ok (if (seq (info l) - s <=? 256) || (Z.land s 255 =? 0)
        then hash_at ls (seq (info first)) s else None).
Proof.
  intros Hc Hf Hl Hs. destruct (chain_tip config ls Hc) as (first' & l0 & Hf' & Hl' & H1 & Hlen & Htip).
  rewrite Hf' in Hf. rewrite Hl' in Hl. injection Hf as ->. injection Hl as ->.
  destruct (decide (s <= seq (info l))) as [Hle|Hgt].
  - destruct Htip as [Hseq _ Hh Hp Hsk].
    rewrite (hashOfSeq_spec _ (seq (info first)) (seq (info l)) (maps l) s Hsk) by (done || lia).
    assert (is_Some (hash_at ls (seq (info first)) s)) as [x ->]; [|done].
    unfold hash_at. apply fmap_is_Some, lookup_lt_is_Some. lia.
  - unfold hashOfSeq. change (View.vinfo (maps l)) with (info l). rewrite (proj2 (Z.ltb_lt _ _)) by lia.
    replace (hash_at ls (seq (info first)) s) with (@None Z); [by destruct (_ || _)|].
    unfold hash_at. rewrite lookup_ge_None_2 by lia. done.
Qed.

End skip.

(** ** The first ledgers of a server *)

Module Examples.
Import IdealHash.

#[local] Instance debug : Build := {| NDEBUG := false |}.
#[local] Instance roots : RootHash :=
  {| state_root m := Z.of_nat (base.size m); tx_root m := Z.of_nat (base.size m) |}.

Definition config0 : Config := mkConfig 10 10 1000000 1000000.
Definition no_transactions (v : OpenView.t STObject Maps) : result (OpenView.t STObject Maps) := Ok v.

(** The value of a computation that succeeds. *)
Definition get (r : result t) : t :=
  match r with Ok a => a | _ => mk (Ledger.mk ∅ ∅ info0) false (TrustLines.mkFees 0 0 0 0) end.

Definition genesis : t := Eval vm_compute in get (create_genesis config0 4711).
Definition ledger2 : t := Eval vm_compute in
  get (p ← startGenesisLedger config0 4711 1000; Ok p.2).
Definition after (l : t) : t := get (build_ledger config0 no_transactions 1000 1030 30 true l).
Definition ledger3 : t := Eval vm_compute in after ledger2.
Definition ledger4 : t := Eval vm_compute in after ledger3.

Lemma header_roundtrip_witness :
  header_hash (info genesis) = sha512Half (addRaw (info genesis) (Serializer.be_bytes 4 ledgerMaster)) /\
  Serializer.reads (Serializer.SerialIter (addRaw (info genesis) [] ++ [7])) [7]
    (setRaw false info0) (header_read info0 (info genesis)).
Proof.
  apply (header_roundtrip (info genesis) info0 false [7]). split; by vm_compute.
Defined.

Lemma no_transactions_leave : leaves_skips no_transactions.
Proof. intros v v' Hg [= <-]. done. Qed.

Lemma ledger2_start : no_records ledger2.
Proof.
  split; [by vm_compute| |].
  - split; [|by vm_compute]. apply (bool_decide_unpack
      (map_Forall (fun i (e : Entry) => sle_key e = i /\ i <> 0) (Ledger.stateMap_ (maps ledger2)))).
    by vm_compute.
  - intros g k Hk. destruct (Ledger.stateMap_ (maps ledger2) !! k) as [e|] eqn:He; [|done].
    assert (Hall : map_Forall (fun i (_ : Entry) => i = getAccountRootIndex 4711) (Ledger.stateMap_ (maps ledger2)))
      by (apply (bool_decide_unpack _); by vm_compute).
    specialize (Hall k e He). by destruct (account_not_skip 4711 g k Hk).
Qed.

Lemma chain4 : chain config0 [ledger2; ledger3; ledger4].
Proof.
  apply (chain_next config0 [ledger2] ledger3 no_transactions 1000 1030 30 true ledger4);
    [|apply no_transactions_leave|by vm_compute|by vm_compute].
  apply (chain_next config0 [] ledger2 no_transactions 1000 1030 30 true ledger3);
    [|apply no_transactions_leave|by vm_compute|by vm_compute].
  apply chain_first, ledger2_start.
Qed.

Lemma hashOfSeq_ancestors_witness :
  hashOfSeq (maps ledger4) 2 = Ok (Some (hash (info ledger2))) /\
  hashOfSeq (maps ledger4) 5 = Ok None.
Proof.
  split.
  - rewrite (hashOfSeq_ancestors config0 [ledger2; ledger3; ledger4] ledger2 ledger4 2 chain4 eq_refl eq_refl);
      [by vm_compute|done].
  - rewrite (hashOfSeq_ancestors config0 [ledger2; ledger3; ledger4] ledger2 ledger4 5 chain4 eq_refl eq_refl);
      [by vm_compute|done].
Defined.

(** The ledger after the genesis ledger is accepted without [updateSkipList], so
    its own parent, the genesis ledger, is never recorded. *)
Lemma genesis_not_recorded : parentHash (info ledger2) = hash (info genesis) /\
  hashOfSeq (maps ledger3) 1 = Ok None /\ hashOfSeq (maps ledger4) 1 = Ok None.
Proof. by vm_compute. Qed.

End Examples.
End LedgerChain.
