(* ===== verification/AmendmentTable.v ===== *)
(** * Voting on amendments

    [AmendmentTableImpl] (app/misc/AmendmentTableImpl.cpp, AmendmentTable.h): the
    amendments a server knows, which of them it vetoes, supports and has
    enabled, what it announces in its validations and, from the validations of
    the other servers, which changes it proposes to the ledger; with
    [getEnabledAmendments] and [getMajorityAmendments] of ledger/impl/View.cpp,
    the record the ledger itself keeps.  The mutex of the table makes each
    operation one step.  The set of validations is the list of its values: the
    order does not matter. *)

From stdpp Require Import base tactics numbers list strings gmap sorting option.
From S2P Require Import Prelude Decimal IOUAmount BigNum Serializer STAmount View Fields Indexes.

(** A validation, as far as votes are concerned. *)
Record STValidation := mkValidation { isTrusted : bool; val_fields : Fields.STObject }.

Module AmendmentTable.
Import Fields.

(** ** The record in the ledger *)

Section ledger.
Context `{Build} {SHA : SHA512Half} {V : Type} {RV : ReadView STObject V}.

Definition getEnabledAmendments (view : V) : result (gset Z) :=
  sleAmendments ← View.vread view Indexes.amendments;
  match sleAmendments with
  | None => Ok ∅
  | Some sle => l ← getFieldV256 sfAmendments (fields sle); Ok (list_to_set l)
  end.

(** One turn of the loop of [getMajorityAmendments]. *)
Definition add_majority (majorities : gmap Z Z) (m : Inner) : result (gmap Z Z) :=
  a ← inner_get sfAmendment m;
  t ← inner_get sfCloseTime m;
  Ok (<[a := t]> majorities).

Definition getMajorityAmendments (view : V) : result (gmap Z Z) :=
  sleAmendments ← View.vread view Indexes.amendments;
  match sleAmendments with
  | Some sle =>
      if isFieldPresent sfMajorities (fields sle)
      then majArray ← getFieldArray sfMajorities (fields sle); foldM add_majority ∅ majArray
      else Ok ∅
  | None => Ok ∅
  end.

End ledger.

(** ** The table *)

Record AmendmentState := mkState {
  mVetoed : bool; mEnabled : bool; mSupported : bool; mDefault : bool; mFriendlyName : string }.

Definition state0 : AmendmentState := mkState false false false false "".

Record AmendmentName := mkName { id : Z; friendlyName : string; valid : bool }.

Record t := mk {
  m_amendmentMap : gmap Z AmendmentState;
  m_lastUpdateSeq : Z;
  m_majorityTime : Z;
  mMajorityFraction : Z }.

Definition make (majorityTime majorityFraction : Z) : t := mk ∅ 0 majorityTime majorityFraction.

Definition set_map (m : gmap Z AmendmentState) (tb : t) : t :=
  mk m (m_lastUpdateSeq tb) (m_majorityTime tb) (mMajorityFraction tb).

Definition set_vetoed (b : bool) (s : AmendmentState) : AmendmentState :=
  mkState b (mEnabled s) (mSupported s) (mDefault s) (mFriendlyName s).
Definition set_enabled (b : bool) (s : AmendmentState) : AmendmentState :=
  mkState (mVetoed s) b (mSupported s) (mDefault s) (mFriendlyName s).
Definition set_supported (b : bool) (s : AmendmentState) : AmendmentState :=
  mkState (mVetoed s) (mEnabled s) b (mDefault s) (mFriendlyName s).
Definition setFriendlyName (n : string) (s : AmendmentState) : AmendmentState :=
  mkState (mVetoed s) (mEnabled s) (mSupported s) (mDefault s) n.

Definition getExisting (a : Z) (tb : t) : option AmendmentState := m_amendmentMap tb !! a.

(** The state of [a] and the table, in which [a] now is. *)
Definition getCreate (a : Z) (tb : t) : AmendmentState * t :=
  match m_amendmentMap tb !! a with
  | Some s => (s, tb)
  | None => (state0, set_map (<[a := state0]> (m_amendmentMap tb)) tb)
  end.

Definition put (a : Z) (s : AmendmentState) (tb : t) : t := set_map (<[a := s]> (m_amendmentMap tb)) tb.

Definition addKnown (name : AmendmentName) (tb : t) : result t :=
  _ ← throw_if (negb (valid name)) "addKnown was given an invalid hash";
  let '(s, tb) := getCreate (id name) tb in
  let s := if bool_decide (friendlyName name = ""%string) then s else setFriendlyName (friendlyName name) s in
  Ok (put (id name) (set_supported true (set_vetoed false s)) tb).

Definition veto (a : Z) (tb : t) : bool * t :=
  let '(s, tb) := getCreate a tb in
  if mVetoed s then (false, tb) else (true, put a (set_vetoed true s) tb).

Definition unVeto (a : Z) (tb : t) : bool * t :=
  match getExisting a tb with
  | Some s => if mVetoed s then (true, put a (set_vetoed false s) tb) else (false, tb)
  | None => (false, tb)
  end.

Definition enable (a : Z) (tb : t) : bool * t :=
  let '(s, tb) := getCreate a tb in
  if mEnabled s then (false, tb) else (true, put a (set_enabled true s) tb).

Definition disable (a : Z) (tb : t) : bool * t :=
  match getExisting a tb with
  | Some s => if mEnabled s then (true, put a (set_enabled false s) tb) else (false, tb)
  | None => (false, tb)
  end.

Definition isEnabled (a : Z) (tb : t) : bool :=
  match getExisting a tb with Some s => mEnabled s | None => false end.
Definition isSupported (a : Z) (tb : t) : bool :=
  match getExisting a tb with Some s => mSupported s | None => false end.

Definition getVetoed (tb : t) : gset Z := dom (filter (fun e => mVetoed e.2 = true) (m_amendmentMap tb)).
Definition getEnabled (tb : t) : gset Z := dom (filter (fun e => mEnabled e.2 = true) (m_amendmentMap tb)).

(** Amendments we support, do not veto, and are not enabled. *)
Definition getDesired (enabled : gset Z) (tb : t) : gset Z :=
  dom (filter (fun e => mSupported e.2 = true /\ mVetoed e.2 = false /\ e.1 ∉ enabled) (m_amendmentMap tb)).

(** [m_amendmentMap[e]...] creates the entry it does not find. *)
Definition setEnabled (l : list Z) (tb : t) : t :=
  set_map (fold_left (fun m a => <[a := set_enabled true (default state0 (m !! a))]> m) l
             (set_enabled false <$> m_amendmentMap tb)) tb.
Definition setSupported (l : list Z) (tb : t) : t :=
  set_map (fold_left (fun m a => <[a := set_supported true (default state0 (m !! a))]> m) l
             (set_supported false <$> m_amendmentMap tb)) tb.

(** What our validations announce. *)
Definition doValidation (enabledAmendments : gset Z) (tb : t) : list Z :=
  merge_sort Z.le (elements (getDesired enabledAmendments tb)).

Definition needValidatedLedger (ledgerSeq : Z) (tb : t) : bool :=
  negb (u32 (ledgerSeq - 1) / 256 =? u32 (m_lastUpdateSeq tb - 1) / 256).

Definition doValidatedLedger (ledgerSeq : Z) (enabled : gset Z) (tb : t) : t :=
  set_map (map_imap (fun a s => Some (set_enabled (bool_decide (a ∈ enabled)) s)) (m_amendmentMap tb)) tb.

(** ** Counting *)

Record AmendmentSet := mkSet { mCloseTime : Z; mTrustedValidations : Z; mVotes : gmap Z Z }.

Definition set0 (ct : Z) : AmendmentSet := mkSet ct 0 ∅.
Definition addVoter (s : AmendmentSet) : AmendmentSet :=
  mkSet (mCloseTime s) (mTrustedValidations s + 1) (mVotes s).
Definition addVote (a : Z) (s : AmendmentSet) : AmendmentSet :=
  mkSet (mCloseTime s) (mTrustedValidations s) (<[a := default 0 (mVotes s !! a) + 1]> (mVotes s)).
Definition count (a : Z) (s : AmendmentSet) : Z := default 0 (mVotes s !! a).

(** One turn of the loop over the validations. *)
Definition add_validation (s : AmendmentSet) (val : STValidation) : result AmendmentSet :=
  if isTrusted val then
    let s := addVoter s in
    if isFieldPresent sfAmendments (val_fields val)
    then l ← getFieldV256 sfAmendments (val_fields val); Ok (fold_left (fun s a => addVote a s) l s)
    else Ok s
  else Ok s.

Definition tfGotMajority : Z := 0x00010000.
Definition tfLostMajority : Z := 0x00020000.

(** The action for one amendment: the flags of the transaction to propose. *)
Definition action (closeTime majorityTime_ : Z) (enabled hasValMajority : bool) (majorityTime : Z)
    (s : AmendmentState) : option Z :=
  if enabled then None
  else if hasValMajority && (majorityTime =? 0) && negb (mVetoed s) then Some tfGotMajority
  else if negb hasValMajority && negb (majorityTime =? 0) then Some tfLostMajority
  else if negb (majorityTime =? 0) && (majorityTime + majorityTime_ <=? closeTime) && negb (mVetoed s) then Some 0
  else None.

Definition threshold (trusted fraction : Z) : Z := Z.quot (trusted * fraction + 255) 256.

Definition doVoting (closeTime : Z) (enabledAmendments : gset Z) (majorityAmendments : gmap Z Z)
    (valSet : list STValidation) (tb : t) : result (gmap Z Z) :=
  amendmentSet ← foldM add_validation (set0 closeTime) valSet;
  let thr := threshold (mTrustedValidations amendmentSet) (mMajorityFraction tb) in
  Ok (map_imap (fun a s =>
        action closeTime (m_majorityTime tb) (bool_decide (a ∈ enabledAmendments))
          (thr <=? count a amendmentSet) (default 0 (majorityAmendments !! a)) s)
      (m_amendmentMap tb)).

(** ** Lemmas *)

(** The validations can be read. *)
Definition readable (val : STValidation) : Prop := has_place sfAmendments (val_fields val).

(** The number of times trusted validations name an amendment, and of trusted
    validations. *)
Definition named (a : Z) (val : STValidation) : Z :=
  if isTrusted val then Z.of_nat (count_occ Z.eq_dec (vec_of sfAmendments (val_fields val)) a) else 0.
Fixpoint votes (a : Z) (vals : list STValidation) : Z :=
  match vals with [] => 0 | v :: vals => named a v + votes a vals end.
Definition trusted (vals : list STValidation) : Z := Z.of_nat (length (filter (fun v => isTrusted v = true) vals)).

(** The count of the vote: the names reach the threshold. *)
Definition has_majority (tb : t) (vals : list STValidation) (a : Z) : bool :=
  threshold (trusted vals) (mMajorityFraction tb) <=? votes a vals.

(** What a majority is: there are trusted validations, and at least
    [fraction] of 256 of them name the amendment, each counted once. *)
Definition supports (a : Z) (val : STValidation) : Prop :=
  isTrusted val = true /\ a ∈ vec_of sfAmendments (val_fields val).
#[global] Instance supports_dec a val : Decision (supports a val).
Proof. unfold supports. apply _. Defined.

Definition supporters (a : Z) (vals : list STValidation) : Z := Z.of_nat (length (filter (supports a) vals)).

Definition majority_of (fraction : Z) (vals : list STValidation) (a : Z) : Prop :=
  0 < trusted vals /\ fraction * trusted vals <= 256 * supporters a vals.

(** Each trusted validation names an amendment at most once, and there is one. *)
Definition regular (vals : list STValidation) : Prop :=
  0 < trusted vals /\ Forall (fun v => NoDup (vec_of sfAmendments (val_fields v))) vals.

Lemma supporters_votes a vals : supporters a vals <= votes a vals.
Proof.
  induction vals as [|v vals IH]; [done|]. unfold supporters in *. rewrite filter_cons. simpl. unfold named.
  case_decide as Hs; [destruct Hs as [-> Hin]|destruct (isTrusted v); lia].
  apply list_elem_of_In, (count_occ_In Z.eq_dec) in Hin. simpl. lia.
Qed.

Lemma votes_supporters a vals : regular vals -> votes a vals = supporters a vals.
Proof.
  intros [_ Hn]. induction Hn as [|v vals Hv Hn IH]; [done|]. unfold supporters in *. rewrite filter_cons. simpl.
  unfold named. apply NoDup_ListNoDup, (NoDup_count_occ Z.eq_dec) with (x := a) in Hv. rewrite IH.
  case_decide as Hs; unfold supports in Hs; rewrite list_elem_of_In, (count_occ_In Z.eq_dec) in Hs.
  - destruct Hs as [-> ?]. simpl. lia.
  - destruct (isTrusted v); [|lia]. destruct (decide (count_occ Z.eq_dec (vec_of sfAmendments (val_fields v)) a = 0%nat)); [lia|].
    destruct Hs. split; [done|lia].
Qed.

Lemma threshold_le n f v : 0 <= n -> 0 <= f -> threshold n f <= v <-> f * n <= 256 * v.
Proof.
  intros Hn Hf. unfold threshold. rewrite Z.quot_div_nonneg by nia.
  pose proof (Z.div_mod (n * f + 255) 256 ltac:(done)). pose proof (Z.mod_pos_bound (n * f + 255) 256 ltac:(done)). lia.
Qed.

(** The count finds every majority, and on regular validations nothing else. *)
Lemma majority_counted tb vals a : 0 <= mMajorityFraction tb -> majority_of (mMajorityFraction tb) vals a ->
  has_majority tb vals a = true.
Proof.
  intros Hf [Ht Hm]. apply Z.leb_le, threshold_le; [lia|done|]. pose proof (supporters_votes a vals). lia.
Qed.

Lemma counted_majority tb vals a : 0 <= mMajorityFraction tb -> regular vals ->
  has_majority tb vals a = true -> majority_of (mMajorityFraction tb) vals a.
Proof.
  intros Hf Hr Hm%Z.leb_le. pose proof Hr as [Ht _]. apply threshold_le in Hm; [|lia|done].
  rewrite votes_supporters in Hm by done. by split.
Qed.

Lemma addVotes_spec l : forall s a, let s' := fold_left (fun s a => addVote a s) l s in
  count a s' = count a s + Z.of_nat (count_occ Z.eq_dec l a) /\ mTrustedValidations s' = mTrustedValidations s.
Proof.
  induction l as [|b l IH]; intros s a; simpl; [lia|]. destruct (IH (addVote b s) a) as [-> ->].
  split; [|done]. unfold count, addVote. simpl. destruct (Z.eq_dec b a) as [->|Hne].
  - rewrite lookup_insert_eq. simpl. lia.
  - by rewrite lookup_insert_ne.
Qed.

Lemma add_validation_spec s val : readable val -> exists s', add_validation s val = Ok s' /\
  (forall a, count a s' = count a s + named a val) /\
  mTrustedValidations s' = mTrustedValidations s + (if isTrusted val then 1 else 0).
Proof.
  intros Hr. unfold add_validation, named. destruct (isTrusted val); [|exists s; split; [done|]; split; [intros|]; lia].
  pose proof (get_vec_of sfAmendments (val_fields val) Hr eq_refl) as Hg. unfold isFieldPresent, vec_of in *.
  destruct (val_fields val !! sfAmendments) as [[v|]|] eqn:Hf.
  - rewrite Hg. simpl. eexists. split; [done|].
    split; [intros a|]; destruct (addVotes_spec (match v with VEC l => l | _ => [] end) (addVoter s) 0); [|done].
    by destruct (addVotes_spec (match v with VEC l => l | _ => [] end) (addVoter s) a) as [-> _].
  - exists (addVoter s). split; [done|]. split; [intros a; simpl; unfold count; simpl; lia|done].
  - unfold readable, has_place in Hr. by rewrite Hf in Hr.
Qed.

Lemma count_votes vals : forall s, Forall readable vals -> exists s', foldM add_validation s vals = Ok s' /\
  (forall a, count a s' = count a s + votes a vals) /\
  mTrustedValidations s' = mTrustedValidations s + trusted vals.
Proof.
  induction vals as [|v vals IH]; intros s Hr; simpl.
  - exists s. split; [done|]. unfold trusted. simpl. split; [intros|]; lia.
  - apply Forall_cons_1 in Hr as [Hv Hr]. destruct (add_validation_spec s v Hv) as (s1 & -> & Hc & Ht). simpl.
    destruct (IH s1 Hr) as (s2 & -> & Hc2 & Ht2). exists s2. split; [done|]. split.
    + intros a. rewrite Hc2, Hc. lia.
    + rewrite Ht2, Ht. unfold trusted. rewrite filter_cons. destruct (isTrusted v); simpl; lia.
Qed.

(** What [doVoting] proposes, amendment by amendment. *)
Lemma doVoting_spec closeTime enabled majority vals tb : Forall readable vals -> exists actions,
  doVoting closeTime enabled majority vals tb = Ok actions /\
  forall a, actions !! a = s ← m_amendmentMap tb !! a;
    action closeTime (m_majorityTime tb) (bool_decide (a ∈ enabled)) (has_majority tb vals a)
      (default 0 (majority !! a)) s.
Proof.
  intros Hr. unfold doVoting. destruct (count_votes vals (set0 closeTime) Hr) as (s & -> & Hc & Ht). simpl.
  eexists. split; [done|]. intros a. rewrite map_lookup_imap. unfold has_majority.
  rewrite Hc, Ht. unfold set0, count. simpl. rewrite lookup_empty. simpl. by rewrite !Z.add_0_l.
Qed.

End AmendmentTable.
