(* ===== verification/Change.v ===== *)
(** * Changes of fees and amendments

    The pseudo-transactions by which validators change the fees and the
    amendments of the ledger: how [FeeVoteImpl] (app/misc/FeeVoteImpl.cpp) and
    [AmendmentTable] (app/misc/AmendmentTable.h) propose them, and what the
    transactor [Change] (app/tx/impl/Change.cpp) does with them.  The identity
    of a transaction is a parameter; the position taken into a consensus round
    is the map of its transactions by identity. *)

From stdpp Require Import base tactics numbers list strings gmap sorting option.
From S2P Require Import Prelude Decimal IOUAmount BigNum Serializer STAmount.
From S2P Require Import View StateTable ApplyStateTable Fields Indexes PaymentSandbox ViewOps.
From S2P Require Import TrustLines LedgerBuild AmendmentTable.

Module Change.
Import Fields ViewOps TrustLines.

(** ** Transactions *)

Record STTx := mkTx { tx_type_ : Z; tx_fields : STObject }.

Definition ttAMENDMENT : Z := 100.
Definition ttFEE : Z := 101.

Definition tx_common_fields : list (SField * SOE_Flags) :=
  [(sfTransactionType, SOE_REQUIRED); (sfFlags, SOE_OPTIONAL); (sfSourceTag, SOE_OPTIONAL);
   (sfAccount, SOE_REQUIRED); (sfSequence, SOE_REQUIRED); (sfPreviousTxnID, SOE_OPTIONAL);
   (sfLastLedgerSequence, SOE_OPTIONAL); (sfAccountTxnID, SOE_OPTIONAL); (sfFee, SOE_REQUIRED);
   (sfOperationLimit, SOE_OPTIONAL); (sfMemos, SOE_OPTIONAL); (sfSigningPubKey, SOE_REQUIRED);
   (sfTxnSignature, SOE_OPTIONAL); (sfMultiSigners, SOE_OPTIONAL)].

Definition EnableAmendment : list (SField * SOE_Flags) :=
  [(sfLedgerSequence, SOE_OPTIONAL); (sfAmendment, SOE_REQUIRED)].

Definition SetFee : list (SField * SOE_Flags) :=
  [(sfLedgerSequence, SOE_OPTIONAL); (sfBaseFee, SOE_REQUIRED); (sfReferenceFeeUnits, SOE_REQUIRED);
   (sfReserveBase, SOE_REQUIRED); (sfReserveIncrement, SOE_REQUIRED)].

(** [STTx (TxType)] for the two types of pseudo-transactions. *)
Definition make_tx (elements : list (SField * SOE_Flags)) (type : Z) : result STTx :=
  o ← setField sfTransactionType (U16 type) (set_template (elements ++ tx_common_fields));
  Ok (mkTx type o).

(** The transactions of a position; [addGiveItem] leaves one that is there. *)
Abbreviation Position := (gmap Z STTx).

(** ** Voting *)

Module VotableInteger.

Record t := mk { mCurrent : Z; mTarget : Z; mVoteMap : gmap Z Z }.

Definition addVote (vote : Z) (v : t) : t :=
  mk (mCurrent v) (mTarget v) (<[vote := default 0 (mVoteMap v !! vote) + 1]> (mVoteMap v)).

(** The constructor adds our vote. *)
Definition make (current target : Z) : t := addVote target (mk current target ∅).

Definition noVote (v : t) : t := addVote (mCurrent v) v.

(** One turn of the loop of [getVotes]; the pair is [ourVote] and [weight]. *)
Definition better (v : t) (acc : Z * Z) (e : Z * Z) : Z * Z :=
  if (e.1 <=? Z.max (mTarget v) (mCurrent v)) && (Z.min (mTarget v) (mCurrent v) <=? e.1) && (acc.2 <? e.2)
  then e else acc.

Definition getVotes (v : t) : Z :=
  (fold_left (better v) (Ordered.in_order (mVoteMap v)) (mCurrent v, 0)).1.

End VotableInteger.

Section voting.
Context `{Build} {SHA : SHA512Half}.

(** [FeeVote::Setup]. *)
Record Setup := mkSetup { reference_fee : Z; account_reserve : Z; owner_reserve : Z }.

(** The fees [getBaseFee], [getReserve (0)] and [getReserveInc] of a ledger
    report are those of its fee settings; a validation names those we want
    otherwise. *)
Definition fee_doValidation (target : Setup) (fees : Fees) (baseValidation : STObject) : result STObject :=
  o ← (if negb (base fees =? reference_fee target)
       then setFieldU64 sfBaseFee (reference_fee target) baseValidation else Ok baseValidation);
  o ← (if negb (reserve fees =? account_reserve target)
       then setFieldU32 sfReserveBase (u32 (account_reserve target)) o else Ok o);
  if negb (increment fees =? owner_reserve target)
  then setFieldU32 sfReserveIncrement (u32 (owner_reserve target)) o else Ok o.

(** The vote of a validation on one setting. *)
Definition cast_vote (get : SField -> STObject -> result Z) (f : SField) (o : STObject)
    (v : VotableInteger.t) : result VotableInteger.t :=
  if isFieldPresent f o then x ← get f o; Ok (VotableInteger.addVote x v)
  else Ok (VotableInteger.noVote v).

Definition cast_votes (vs : VotableInteger.t * VotableInteger.t * VotableInteger.t) (val : STValidation)
    : result (VotableInteger.t * VotableInteger.t * VotableInteger.t) :=
  if isTrusted val then
    let '(baseFeeVote, baseReserveVote, incReserveVote) := vs in
    a ← cast_vote getFieldU64 sfBaseFee (val_fields val) baseFeeVote;
    b ← cast_vote getFieldU32 sfReserveBase (val_fields val) baseReserveVote;
    c ← cast_vote getFieldU32 sfReserveIncrement (val_fields val) incReserveVote;
    Ok (a, b, c)
  else Ok vs.

(** The transaction for a change of fees. *)
Definition fee_tx (baseFee baseReserve incReserve : Z) : result STTx :=
  trans ← make_tx SetFee ttFEE;
  o ← setAccountID sfAccount 0 (tx_fields trans);
  o ← setFieldU64 sfBaseFee baseFee o;
  o ← setFieldU32 sfReferenceFeeUnits 10 o;
  o ← setFieldU32 sfReserveBase baseReserve o;
  o ← setFieldU32 sfReserveIncrement incReserve o;
  Ok (mkTx ttFEE o).

Definition addGiveItem (getTransactionID : STTx -> Z) (trans : STTx) (initialPosition : Position) : Position :=
  match initialPosition !! getTransactionID trans with
  | Some _ => initialPosition
  | None => <[getTransactionID trans := trans]> initialPosition
  end.

(** [seq] and [fees] are those of the last closed ledger. *)
Definition fee_doVoting (getTransactionID : STTx -> Z) (target : Setup) (seq : Z) (fees : Fees)
    (vals : list STValidation) (initialPosition : Position) : result Position :=
  _ ← Keylet.assert (seq mod 256 =? 0);
  let baseFeeVote := VotableInteger.make (base fees) (reference_fee target) in
  let baseReserveVote := VotableInteger.make (u32 (reserve fees)) (u32 (account_reserve target)) in
  let incReserveVote := VotableInteger.make (u32 (increment fees)) (u32 (owner_reserve target)) in
  vs ← foldM cast_votes (baseFeeVote, baseReserveVote, incReserveVote) vals;
  let baseFee := VotableInteger.getVotes vs.1.1 in
  let baseReserve := VotableInteger.getVotes vs.1.2 in
  let incReserve := VotableInteger.getVotes vs.2 in
  if negb (baseFee =? base fees) || negb (baseReserve =? reserve fees) || negb (incReserve =? increment fees)
  then trans ← fee_tx baseFee baseReserve incReserve; Ok (addGiveItem getTransactionID trans initialPosition)
  else Ok initialPosition.

(** The transaction for one action of [AmendmentTable::doVoting]. *)
Definition amendment_tx (seq amendment flags : Z) : result STTx :=
  trans ← make_tx EnableAmendment ttAMENDMENT;
  o ← setAccountID sfAccount 0 (tx_fields trans);
  o ← setFieldH256 sfAmendment amendment o;
  o ← setFieldU32 sfLedgerSequence (u32 (seq + 1)) o;
  o ← (if negb (flags =? 0) then setFieldU32 sfFlags flags o else Ok o);
  Ok (mkTx ttAMENDMENT o).

(** The amendments our validation announces. *)
Definition amendment_doValidation {V} `{ReadView STObject V} (lastClosedLedger : V) (tb : AmendmentTable.t)
    (baseValidation : STObject) : result STObject :=
  enabled ← AmendmentTable.getEnabledAmendments lastClosedLedger;
  let ourAmendments := AmendmentTable.doValidation enabled tb in
  if bool_decide (ourAmendments = []) then Ok baseValidation
  else setFieldV256 sfAmendments ourAmendments baseValidation.

(** The actions for the ledger after [lastClosedLedger]. *)
Definition amendment_actions {V} `{ReadView STObject V} (lastClosedLedger : V)
    (parentValidations : list STValidation) (tb : AmendmentTable.t) : result (gmap Z Z) :=
  enabled ← AmendmentTable.getEnabledAmendments lastClosedLedger;
  majorities ← AmendmentTable.getMajorityAmendments lastClosedLedger;
  AmendmentTable.doVoting (parentCloseTime (View.vinfo lastClosedLedger)) enabled majorities parentValidations tb.

(** [propose] is the build option [RIPPLE_PROPOSE_AMENDMENTS]. *)
Definition amendment_doVoting {V} `{ReadView STObject V} (propose : bool) (getTransactionID : STTx -> Z)
    (lastClosedLedger : V) (parentValidations : list STValidation) (tb : AmendmentTable.t)
    (initialPosition : Position) : result Position :=
  actions ← amendment_actions lastClosedLedger parentValidations tb;
  foldM (fun pos it =>
    trans ← amendment_tx (seq (View.vinfo lastClosedLedger)) it.1 it.2;
    Ok (if propose then addGiveItem getTransactionID trans pos else pos))
    initialPosition (Ordered.in_order actions).

End voting.

(** ** The transactor *)

Section transactor.
Context `{Build} {SHA : SHA512Half} {V : Type} {RV : ReadView STObject V}.

Definition lift_view {A} (f : LedgerInfo -> A) : M V A := fun s => Ok (f (View.vinfo (av s)), s).

Definition checkSign (tx : STTx) : result TER :=
  acct ← getAccountID sfAccount (tx_fields tx);
  if negb (acct =? 0) then Ok temBAD_SRC_ACCOUNT
  else
    key ← getFieldVL sfSigningPubKey (tx_fields tx);
    let signature := match getFieldVL sfTxnSignature (tx_fields tx) with Ok b => b | _ => [] end in
    if negb (bool_decide (key = [])) || negb (bool_decide (signature = [])) then Ok temBAD_SIGNATURE
    else Ok tesSUCCESS.

Definition checkSeq (tx : STTx) : result TER :=
  sequence ← getFieldU32 sfSequence (tx_fields tx);
  Ok (if negb (sequence =? 0) || isFieldPresent sfPreviousTxnID (tx_fields tx) then temBAD_SEQUENCE
      else tesSUCCESS).

Definition payFee (tx : STTx) : result TER :=
  fee ← getFieldAmount sfFee (tx_fields tx);
  Ok (if STAmount.eqb fee amount0 then tesSUCCESS else temBAD_FEE).

Definition preCheck (tx : STTx) : M V TER :=
  account_ ← lift (getAccountID sfAccount (tx_fields tx));
  if negb (account_ =? 0) then mret temBAD_SRC_ACCOUNT
  else is_open ← vopen; mret (if is_open : bool then temINVALID else tesSUCCESS).

(** An entry of [sfMajorities]. *)
Definition majority (amendment time : Z) : Inner :=
  mkInner sfMajority [(sfAmendment, amendment); (sfCloseTime, time)].

(** The loop over the old majorities: whether the amendment was found, and the
    others; nothing when it has a majority already. *)
Fixpoint scan (amendment : Z) (gotMajority : bool) (old : list Inner) (found : bool)
    (newMajorities : list Inner) : result (option (bool * list Inner)) :=
  match old with
  | [] => Ok (Some (found, newMajorities))
  | m :: old =>
      a ← inner_get sfAmendment m;
      if a =? amendment
      then if gotMajority then Ok None else scan amendment gotMajority old true newMajorities
      else scan amendment gotMajority old found (newMajorities ++ [m])
  end.

(** The object under a key, which is made when it is not there. *)
Definition peek_or_insert (k : Keylet.t) : M V loc :=
  found ← peek k;
  match found with
  | Some p => mret p
  | None => sle ← lift (make_SLE k); p ← make_shared sle; _ ← insert p; mret p
  end.

(** The result, and the amendment to enable in the server's table. *)
Definition applyAmendment (tx : STTx) : M V (TER * option Z) :=
  amendment ← lift (getFieldH256 sfAmendment (tx_fields tx));
  amendmentObject ← peek_or_insert Indexes.amendments;
  amendments ← get amendmentObject (getFieldV256 sfAmendments);
  if bool_decide (amendment ∈ amendments) then mret (tefALREADY, None)
  else
    let flags := getFlags (tx_fields tx) in
    let gotMajority := negb (Z.land flags AmendmentTable.tfGotMajority =? 0) in
    let lostMajority := negb (Z.land flags AmendmentTable.tfLostMajority =? 0) in
    if gotMajority && lostMajority then mret (temINVALID_FLAG, None)
    else
      present ← get amendmentObject (fun o => Ok (isFieldPresent sfMajorities o));
      scanned ← (if present : bool
                 then old ← get amendmentObject (getFieldArray sfMajorities);
                      lift (scan amendment gotMajority old false [])
                 else mret (Some (false, [])));
      match scanned with
      | None => mret (tefALREADY, None)
      | Some (found, newMajorities) =>
          if negb found && lostMajority then mret (tefALREADY, None)
          else
            newMajorities ← (if gotMajority then
                               t ← lift_view parentCloseTime;
                               mret (newMajorities ++ [majority amendment t])
                             else mret newMajorities);
            _ ← (if negb gotMajority && negb lostMajority
                 then set amendmentObject (setFieldV256 sfAmendments (amendments ++ [amendment]))
                 else mret tt);
            _ ← (if bool_decide (newMajorities = [])
                 then set amendmentObject (makeFieldAbsent sfMajorities)
                 else set amendmentObject (setFieldArray sfMajorities newMajorities));
            _ ← update amendmentObject;
            mret (tesSUCCESS, if negb gotMajority && negb lostMajority then Some amendment else None)
      end.

(** The server's table and whether the server is blocked, after the change. *)
Definition enable_in_table (change : option Z) (tb : AmendmentTable.t) (blocked : bool)
    : AmendmentTable.t * bool :=
  match change with
  | None => (tb, blocked)
  | Some a => let tb := (AmendmentTable.enable a tb).2 in
              (tb, blocked || negb (AmendmentTable.isSupported a tb))
  end.

(** The four fields of the fee settings. *)
Definition fill_fees (tx : STTx) (feeObject : loc) : M V unit :=
  baseFee ← lift (getFieldU64 sfBaseFee (tx_fields tx));
  _ ← set feeObject (setFieldU64 sfBaseFee baseFee);
  units ← lift (getFieldU32 sfReferenceFeeUnits (tx_fields tx));
  _ ← set feeObject (setFieldU32 sfReferenceFeeUnits units);
  reserveBase ← lift (getFieldU32 sfReserveBase (tx_fields tx));
  _ ← set feeObject (setFieldU32 sfReserveBase reserveBase);
  reserveIncrement ← lift (getFieldU32 sfReserveIncrement (tx_fields tx));
  set feeObject (setFieldU32 sfReserveIncrement reserveIncrement).

Definition applyFee (tx : STTx) : M V TER :=
  feeObject ← peek_or_insert Indexes.fees;
  _ ← fill_fees tx feeObject;
  _ ← update feeObject;
  mret tesSUCCESS.

Definition doApply (tx : STTx) : M V (TER * option Z) :=
  if tx_type_ tx =? ttAMENDMENT then applyAmendment tx
  else if tx_type_ tx =? ttFEE then r ← applyFee tx; mret (r, None)
  else mret (temUNKNOWN, None).

End transactor.

(** ** Rules *)

Section rules.
Context `{Build} {SHA : SHA512Half} {V : Type} {RV : ReadView STObject V}.
Context {VM : ViewModel STObject V} {RL : ReadViewLaws STObject V}.

(** The entry under [k] has its format, or there is none. *)
Definition formatted (k : Keylet.t) (elements : list (SField * SOE_Flags)) (m : gmap Z Entry) : Prop :=
  m !! Keylet.key k = None \/
  exists o, m !! Keylet.key k = Some (mkSLE (Keylet.key k) (Keylet.type k) o) /\ conforms elements o.

(** The object [peek_or_insert] gives: the one there, or a new one. *)
Definition object_at (k : Keylet.t) (m : gmap Z Entry) (o : STObject) : Prop :=
  m !! Keylet.key k = Some (mkSLE (Keylet.key k) (Keylet.type k) o) \/
  m !! Keylet.key k = None /\ make_SLE k = Ok (mkSLE (Keylet.key k) (Keylet.type k) o).

Lemma peek_or_insert_rule b d s k elements m (Q : loc -> St V -> Prop) :
  rep b d s (mkKnow m ∅ ∅ ApplyStateTable.none) -> Keylet.key k <> 0 -> 0 <= Keylet.type k ->
  findByType (Keylet.type k) = Some elements -> formatted k elements m ->
  (forall p f o s', tabs s' = tabs s -> conforms elements o -> object_at k m o ->
     rep b d s' (mkKnow (<[Keylet.key k := mkSLE (Keylet.key k) (Keylet.type k) o]> m)
                   {[Keylet.key k := (p, f)]} ∅ ApplyStateTable.none) -> Q p s') ->
  wpm (peek_or_insert k) s Q.
Proof.
  intros Hr Hk Ht He Hm HQ. apply wpm_bind. destruct Hm as [Hm|(o & Hm & Ho)].
  - eapply peek_none_rule; [done|done|done|]. destruct k as [type key]. simpl in *.
    destruct (make_SLE_conforms type key elements He) as (o & Hmk & Ho).
    apply wpm_bind. eapply wpm_lift; [done|]. apply wpm_bind. eapply make_shared_rule; [done|].
    intros p s1 Ht1 _ Hr1. apply wpm_bind. eapply insert_rule; [done|apply lookup_insert_eq|done|done|].
    intros s2 Ht2 Hr2. apply wpm_ret. apply (HQ p true o); [congruence|done|by right|].
    eapply rep_weaken; [exact Hr2|done|done| |done]. simpl. apply map_empty_subseteq.
  - eapply peek_rule; [done|done|done|by apply check_own_type|apply lookup_empty|].
    intros p s1 Ht1 Hr1. apply wpm_ret. apply (HQ p false o); [done|done|by left|].
    rewrite insert_id by done. done.
Qed.

End rules.
End Change.
