(* ===== verification/FeeVoting.v ===== *)
(** * What validators vote on fees, and what becomes of it

    [VotableInteger::getVotes] picks the most voted value between the current
    setting and our target; [FeeVoteImpl::doVoting] proposes the three settings
    so chosen, and [Change::applyFee] makes them the fees of the ledger. *)

From stdpp Require Import base tactics numbers list strings gmap sorting option.
From S2P Require Import Prelude Decimal IOUAmount BigNum Serializer STAmount.
From S2P Require Import View StateTable ApplyStateTable Fields Indexes PaymentSandbox ViewOps.
From S2P Require Import TrustLines LedgerBuild AmendmentTable Change.

Module FeeVoting.
Import Ordered Fields ViewOps TrustLines LedgerBuild Change.

(** ** The most voted value *)

Definition between (cur tgt x : Z) : Prop := Z.min tgt cur <= x <= Z.max tgt cur.

(** [r] is the value between [cur] and [tgt] with the most votes, the smallest
    of them when there are several; our own vote for [tgt] counts. *)
Definition chosen (cur tgt : Z) (votes : list Z) (r : Z) : Prop :=
  let n x := count_occ Z.eq_dec (tgt :: votes) x in
  between cur tgt r /\ forall x, between cur tgt x -> (n x <= n r)%nat /\ (n x = n r -> r <= x).

Section fold.
Variable v : VotableInteger.t.
Let inside (e : Z * Z) : Prop := between (VotableInteger.mCurrent v) (VotableInteger.mTarget v) e.1.

(** What [getVotes] knows after the elements [p]. *)
Definition best (p : list (Z * Z)) (acc : Z * Z) : Prop :=
  0 <= acc.2 /\ (forall e, e ∈ p -> inside e -> e.2 <= acc.2) /\
  (acc = (VotableInteger.mCurrent v, 0) \/
   acc ∈ p /\ inside acc /\ forall e, e ∈ p -> inside e -> e.2 = acc.2 -> acc.1 <= e.1).

Lemma better_best p acc e : (forall e', e' ∈ p -> e'.1 <= e.1) -> 0 < e.2 -> best p acc ->
  best (p ++ [e]) (VotableInteger.better v acc e).
Proof.
  intros Hs He (H0 & Hmax & Hacc).
  assert (Hin : forall e', e' ∈ p ++ [e] -> e' ∈ p \/ e' = e).
  { intros e' [?|?%list_elem_of_singleton]%elem_of_app; auto. }
  unfold VotableInteger.better. destruct (_ && _ && _) eqn:Hc; reflect_bools.
  - split; [lia|]. split; [|right; split; [apply elem_of_app; right; by left|]; split; [by split|]].
    + intros e' [He'| ->]%Hin Hi; [|lia]. specialize (Hmax e' He' Hi). lia.
    + intros e' [He'| ->]%Hin Hi Heq; [|lia]. specialize (Hmax e' He' Hi). lia.
  - assert (Hno : inside e -> e.2 <= acc.2).
    { intros [Hi1 Hi2]. rewrite !andb_false_iff in Hc. destruct Hc as [[Hc|Hc]|Hc]; reflect_bools; lia. }
    split; [done|]. split; [intros e' [He'| ->]%Hin Hi; auto|].
    destruct Hacc as [->|(Hp & Hi & Hmin)]; [by left|]. right.
    split; [apply elem_of_app; by left|]. split; [done|].
    intros e' [He'| ->]%Hin Hi' Heq; auto.
Qed.

Lemma fold_best q : forall p acc, StronglySorted Ordered.key_le (p ++ q) -> (forall e, e ∈ q -> 0 < e.2) ->
  best p acc -> best (p ++ q) (fold_left (VotableInteger.better v) q acc).
Proof.
  induction q as [|e q IH]; intros p acc Hs Hpos Hb; simpl; [by rewrite app_nil_r|].
  replace (p ++ e :: q) with ((p ++ [e]) ++ q) in * by (by rewrite <- app_assoc).
  apply IH; [done|intros; apply Hpos; by right|].
  apply better_best; [|apply Hpos; by left|done].
  intros e' He'. apply StronglySorted_app_1_l in Hs. 
  refine (StronglySorted_app_1_elem_of _ _ _ e' e Hs He' _). by left.
Qed.

End fold.

Definition add_all (votes : list Z) (v : VotableInteger.t) : VotableInteger.t :=
  fold_left (fun v x => VotableInteger.addVote x v) votes v.

Lemma add_all_kept votes : forall v, VotableInteger.mCurrent (add_all votes v) = VotableInteger.mCurrent v /\
  VotableInteger.mTarget (add_all votes v) = VotableInteger.mTarget v.
Proof. induction votes as [|x votes IH]; intros v; simpl; [done|]. apply (IH (VotableInteger.addVote x v)). Qed.

(** The map holds the number of votes of every value that has some. *)
Definition tallies (votes : list Z) (m : gmap Z Z) : Prop := forall x,
  m !! x = if decide (x ∈ votes) then Some (Z.of_nat (count_occ Z.eq_dec votes x)) else None.

Lemma tallies_add votes m x : tallies votes m -> tallies (votes ++ [x]) (<[x := default 0 (m !! x) + 1]> m).
Proof.
  intros Hm y. rewrite count_occ_app. simpl. destruct (decide (y = x)) as [->|Hne].
  - rewrite lookup_insert_eq, decide_True by (apply elem_of_app; right; by left).
    f_equal. rewrite Hm. destruct (Z.eq_dec x x); [|done]. case_decide as Hd; simpl; [lia|].
    rewrite (proj1 (count_occ_not_In Z.eq_dec votes x)); [lia|]. by rewrite <- list_elem_of_In.
  - rewrite lookup_insert_ne by done. rewrite Hm. destruct (Z.eq_dec x y); [congruence|].
    rewrite Nat.add_0_r. destruct (decide (y ∈ votes)) as [Hd|Hd].
    + by rewrite decide_True by (apply elem_of_app; by left).
    + rewrite decide_False; [done|]. by intros [?|?%list_elem_of_singleton]%elem_of_app.
Qed.

Lemma tallies_all more : forall votes v, tallies votes (VotableInteger.mVoteMap v) ->
  tallies (votes ++ more) (VotableInteger.mVoteMap (add_all more v)).
Proof.
  induction more as [|x more IH]; intros votes v Hv; simpl; [by rewrite app_nil_r|].
  replace (votes ++ x :: more) with ((votes ++ [x]) ++ more) by (by rewrite <- app_assoc).
  apply IH. by apply tallies_add.
Qed.

Lemma getVotes_chosen cur tgt votes :
  chosen cur tgt votes (VotableInteger.getVotes (add_all votes (VotableInteger.make cur tgt))).
Proof.
  set (v := add_all votes (VotableInteger.make cur tgt)).
  assert (Ht : tallies (tgt :: votes) (VotableInteger.mVoteMap v)).
  { apply (tallies_all votes [tgt]). apply (tallies_add [] ∅). intros y. by rewrite lookup_empty. }
  destruct (add_all_kept votes (VotableInteger.make cur tgt)) as [Hc Hg]. fold v in Hc, Hg. simpl in Hc, Hg.
  pose proof (fold_best v (Ordered.in_order (VotableInteger.mVoteMap v)) [] (cur, 0)) as Hb. simpl in Hb.
  destruct Hb as (H0 & Hmax & Hacc).
  - apply StronglySorted_merge_sort; apply _.
  - intros [x n] Hx%Ordered.elem_of_in_order. rewrite Ht in Hx. case_decide as Hd; [|done].
    assert (n = Z.of_nat (count_occ Z.eq_dec (tgt :: votes) x)) as -> by congruence. cbn [snd].
    apply list_elem_of_In, (count_occ_In Z.eq_dec) in Hd. lia.
  - split; [done|]. split; [by intros ? []%not_elem_of_nil|]. left. by rewrite Hc.
  - unfold VotableInteger.getVotes. rewrite Hc. set (acc := fold_left _ _ _) in *.
    assert (Hin : forall x, x ∈ tgt :: votes ->
      (x, Z.of_nat (count_occ Z.eq_dec (tgt :: votes) x)) ∈ Ordered.in_order (VotableInteger.mVoteMap v)).
    { intros x Hx. apply Ordered.elem_of_in_order. rewrite Ht. by rewrite decide_True. }
    assert (Htgt : between cur tgt tgt) by (unfold between; lia).
    unfold between in Hmax, Hacc. rewrite Hc, Hg in Hmax, Hacc. destruct Hacc as [Hacc|(Ha & Hia & Hmin)].
    + exfalso. specialize (Hmax _ (Hin tgt ltac:(by left)) Htgt). rewrite Hacc in Hmax. cbn [snd] in Hmax.
      rewrite count_occ_cons_eq in Hmax by done. lia.
    + assert (Hacc2 : acc.2 = Z.of_nat (count_occ Z.eq_dec (tgt :: votes) acc.1)).
      { destruct acc as [x n]. apply Ordered.elem_of_in_order in Ha. rewrite Ht in Ha. case_decide; [|done].
        cbn [fst snd]. congruence. }
      split; [done|]. intros x Hx. destruct (decide (x ∈ tgt :: votes)) as [Hd|Hd].
      * specialize (Hmax _ (Hin x Hd) Hx). specialize (Hmin _ (Hin x Hd) Hx). cbn [fst snd] in Hmax, Hmin.
        rewrite Hacc2 in Hmax, Hmin. split; [lia|]. intros Heq. apply Hmin. by rewrite Heq.
      * rewrite (proj1 (count_occ_not_In Z.eq_dec (tgt :: votes) x)) by (by rewrite <- list_elem_of_In).
        split; [lia|]. intros Heq. exfalso. rewrite <- Heq in Hacc2.
        specialize (Hmax _ (Hin tgt ltac:(by left)) Htgt). rewrite Hacc2 in Hmax. cbn [snd] in Hmax.
        rewrite count_occ_cons_eq in Hmax by done. lia.
Qed.

(** ** The proposal *)

(** A validation whose votes on fees can be read. *)
Definition fee_readable (val : STValidation) : Prop :=
  has_place sfBaseFee (val_fields val) /\ has_place sfReserveBase (val_fields val) /\
  has_place sfReserveIncrement (val_fields val).

(** The votes of the trusted validations on one setting; those that name none
    vote for the current one. *)
Definition ballots (read : SField -> STObject -> Z) (f : SField) (cur : Z) (vals : list STValidation) : list Z :=
  (fun val => if isFieldPresent f (val_fields val) then read f (val_fields val) else cur) <$>
  filter (fun val => isTrusted val = true) vals.

Lemma cast_vote_ok get read f o v : (has_place f o -> get f o = Ok (read f o)) -> has_place f o ->
  cast_vote get f o v = Ok (VotableInteger.addVote
    (if isFieldPresent f o then read f o else VotableInteger.mCurrent v) v).
Proof. intros Hg Hp. unfold cast_vote. destruct (isFieldPresent f o); [by rewrite Hg|done]. Qed.

Lemma cast_votes_one x y z val : fee_readable val -> cast_votes (x, y, z) val =
  Ok (add_all (ballots u64_of sfBaseFee (VotableInteger.mCurrent x) [val]) x,
      add_all (ballots u32_of sfReserveBase (VotableInteger.mCurrent y) [val]) y,
      add_all (ballots u32_of sfReserveIncrement (VotableInteger.mCurrent z) [val]) z).
Proof.
  intros (H1 & H2 & H3). unfold cast_votes, ballots. rewrite !filter_cons, !filter_nil.
  destruct (isTrusted val); [|done]. simpl.
  rewrite (cast_vote_ok getFieldU64 u64_of) by (done || intros; by apply get_u64_of). simpl.
  by rewrite !(cast_vote_ok getFieldU32 u32_of) by (done || intros; by apply get_u32_of).
Qed.

Lemma add_all_ballots read f cur val vals v :
  add_all (ballots read f cur (val :: vals)) v = add_all (ballots read f cur vals) (add_all (ballots read f cur [val]) v).
Proof.
  unfold ballots, add_all. rewrite !filter_cons, filter_nil. by destruct (isTrusted val).
Qed.

Lemma cast_votes_spec vals : forall x y z, Forall fee_readable vals ->
  foldM cast_votes (x, y, z) vals =
  Ok (add_all (ballots u64_of sfBaseFee (VotableInteger.mCurrent x) vals) x,
      add_all (ballots u32_of sfReserveBase (VotableInteger.mCurrent y) vals) y,
      add_all (ballots u32_of sfReserveIncrement (VotableInteger.mCurrent z) vals) z).
Proof.
  induction vals as [|val vals IH]; intros x y z Hr; [done|].
  apply Forall_cons_1 in Hr as [Hv Hr]. cbn [foldM]. rewrite cast_votes_one by done. cbn [mbind result_bind].
  rewrite IH by done. rewrite !(add_all_ballots _ _ _ val vals). by rewrite !(proj1 (add_all_kept _ _)).
Qed.

(** The fields of the transaction for a change of fees. *)
Definition fee_fields (a b c : Z) (o : STObject) : Prop :=
  getAccountID sfAccount o = Ok 0 /\ getFieldU64 sfBaseFee o = Ok a /\
  getFieldU32 sfReferenceFeeUnits o = Ok 10 /\ getFieldU32 sfReserveBase o = Ok b /\
  getFieldU32 sfReserveIncrement o = Ok c.

Lemma fee_tx_spec a b c : exists o, fee_tx a b c = Ok (mkTx ttFEE o) /\ fee_fields a b c o.
Proof. eexists. split; [by vm_compute|]. split_and!; by vm_compute. Qed.

Definition fees_fit (fees : Fees) : Prop :=
  0 <= reserve fees < 2 ^ 32 /\ 0 <= increment fees < 2 ^ 32.

Section vote.
Context `{Build} (getTransactionID : STTx -> Z).

(** The fee vote.  On a flag ledger, with the validations of the trusted
    validators, the base fee, the reserve and the increment that [doVoting]
    chooses are each the most voted value between the ledger's and ours (the
    smallest when votes are equal), never beyond our target; a transaction
    setting all three is added to the position exactly when one of them differs
    from the ledger's, unless the position has it already. *)
Theorem fee_vote_correct target seq fees vals pos : seq mod 256 = 0 -> fees_fit fees -> Forall fee_readable vals ->
  exists baseFee baseReserve incReserve o,
    chosen (base fees) (reference_fee target) (ballots u64_of sfBaseFee (base fees) vals) baseFee /\
    chosen (reserve fees) (u32 (account_reserve target)) (ballots u32_of sfReserveBase (reserve fees) vals) baseReserve /\
    chosen (increment fees) (u32 (owner_reserve target)) (ballots u32_of sfReserveIncrement (increment fees) vals)
      incReserve /\
    fee_fields baseFee baseReserve incReserve o /\
    fee_doVoting getTransactionID target seq fees vals pos =
      Ok (if bool_decide ((baseFee, baseReserve, incReserve) = (base fees, reserve fees, increment fees)) then pos
          else addGiveItem getTransactionID (mkTx ttFEE o) pos).
Proof.
  intros Hseq [Hf1 Hf2] Hr. unfold fee_doVoting. rewrite Hseq. unfold Keylet.assert, throw_if.
  rewrite andb_false_r, !(u32_id (reserve fees)), !(u32_id (increment fees)) by done. cbn [mbind result_bind].
  rewrite cast_votes_spec by done. cbn [mbind result_bind fst snd].
  set (a := VotableInteger.getVotes _). set (b := VotableInteger.getVotes (add_all (ballots u32_of sfReserveBase _ _) _)).
  set (c := VotableInteger.getVotes (add_all (ballots u32_of sfReserveIncrement _ _) _)).
  destruct (fee_tx_spec a b c) as (o & Htx & Ho). exists a, b, c, o.
  split_and!; [apply getVotes_chosen..|done|]. rewrite Htx. cbn [mbind result_bind].
  case_bool_decide as Heq.
  - injection Heq as -> -> ->. by rewrite !Z.eqb_refl.
  - destruct (Z.eqb_spec a (base fees)), (Z.eqb_spec b (reserve fees)), (Z.eqb_spec c (increment fees)); simpl; congruence.
Qed.

End vote.

(** ** The change *)

Section change.
Context `{Build} {SHA : SHA512Half} {SL : SHA512HalfLaws SHA} {V : Type} {RV : ReadView STObject V}.
Context {VM : ViewModel STObject V} {RL : ReadViewLaws STObject V}.

Abbreviation FeeFormat := (FeeSettings ++ common_fields).

Lemma fees_key : Keylet.key Indexes.fees <> 0.
Proof. apply Z.neq_sym, Z.lt_neq, sha_pos, Serializer.be_bytes_bytes. Qed.

Lemma fee_place o f : conforms FeeFormat o -> f ∈ FeeFormat.*1 -> has_place f o.
Proof. intros [_ Hp]. apply Hp. Qed.

(** The fee settings with these values. *)
Definition with_fees (a units b c : Z) (o : STObject) : STObject :=
  <[sfReserveIncrement := Some (U32 c)]> (<[sfReserveBase := Some (U32 b)]>
    (<[sfReferenceFeeUnits := Some (U32 units)]> (<[sfBaseFee := Some (U64 a)]> o))).

(** Setting one field of the object under [key]. *)
Lemma set_one_rule b d s m p (f : bool) o key typ (D : Z -> Prop) g v (Q : unit -> St V -> Prop) :
  rep b d s (mkKnow (<[key := mkSLE key typ o]> m) {[key := (p, f)]} ∅ D) ->
  has_place g o -> getSType v = fieldType g ->
  (forall s', tabs s' = tabs s ->
     rep b d s' (mkKnow (<[key := mkSLE key typ (<[g := Some v]> o)]> m) {[key := (p, f)]} ∅
                   (fun j => D j \/ j = key)) -> Q tt s') ->
  wpm (set p (setField g v)) s Q.
Proof.
  intros Hr Hp Hv HQ. eapply set_pending; [exact Hr|apply lookup_singleton_eq|apply lookup_insert_eq|
    by apply setField_ok|]. intros s' Ht Hr'. apply HQ; [done|]. simpl in Hr'. by rewrite insert_insert_eq in Hr'.
Qed.

Lemma fill_fees_rule b d s m p (f : bool) o key typ tx a b' c (Q : unit -> St V -> Prop) :
  rep b d s (mkKnow (<[key := mkSLE key typ o]> m) {[key := (p, f)]} ∅ ApplyStateTable.none) ->
  conforms FeeFormat o -> fee_fields a b' c (tx_fields tx) ->
  (forall s', tabs s' = tabs s ->
     rep b d s' (mkKnow (<[key := mkSLE key typ (with_fees a 10 b' c o)]> m) {[key := (p, f)]} ∅
                   (fun j => j = key)) -> Q tt s') ->
  wpm (fill_fees tx p) s Q.
Proof.
  intros Hr Ho (_ & Ha & Hu & Hb & Hc) HQ.
  assert (Hpl : forall g, g ∈ [sfBaseFee; sfReferenceFeeUnits; sfReserveBase; sfReserveIncrement] -> has_place g o).
  { intros g Hg. apply fee_place; [done|]. revert g Hg. apply list.Forall_forall.
    apply (bool_decide_unpack _). by vm_compute. }
  unfold fill_fees. apply wpm_bind. eapply wpm_lift; [exact Ha|]. apply wpm_bind.
  eapply set_one_rule; [exact Hr|apply Hpl; by left|done|]. intros s1 Ht1 Hr1.
  apply wpm_bind. eapply wpm_lift; [exact Hu|]. apply wpm_bind.
  eapply set_one_rule; [exact Hr1| |done|]; [apply has_place_insert; [apply Hpl; right; by left|done]|].
  intros s2 Ht2 Hr2. apply wpm_bind. eapply wpm_lift; [exact Hb|]. apply wpm_bind.
  eapply set_one_rule; [exact Hr2| |done|].
  { do 2 (apply has_place_insert; [|done]). apply Hpl. do 2 right. by left. }
  intros s3 Ht3 Hr3. apply wpm_bind. eapply wpm_lift; [exact Hc|].
  eapply set_one_rule; [exact Hr3| |done|].
  { do 3 (apply has_place_insert; [|done]). apply Hpl. do 3 right. by left. }
  intros s4 Ht4 Hr4. apply HQ; [congruence|].
  eapply rep_weaken; [exact Hr4|done..|]. simpl. intros j. unfold ApplyStateTable.none. tauto.
Qed.

(** A change of fees takes effect.  Applying the transaction for a change of
    fees to a view succeeds and touches only the ledger's fee settings, which it
    makes when there are none; a ledger that has them takes its base fee,
    reserve and increment from the transaction, whatever its configuration. *)
Theorem fee_change_applies (s : St V) tx a b c : good (av s) -> tx_type_ tx = ttFEE ->
  fee_fields a b c (tx_fields tx) -> formatted Indexes.fees FeeFormat (contents (av s)) ->
  exists s' o, doApply tx s = Ok ((tesSUCCESS, None), s') /\ good (av s') /\ untouched s s' /\
    contents (av s') = <[Indexes.getLedgerFeeIndex := mkSLE Indexes.getLedgerFeeIndex ltFEE_SETTINGS o]> (contents (av s)) /\
    forall config (l : LedgerBuild.t),
      Ledger.stateMap_ (maps l) !! Indexes.getLedgerFeeIndex = Some (mkSLE Indexes.getLedgerFeeIndex ltFEE_SETTINGS o) ->
      setFees config l = Ok (mk (maps l) (mImmutable l) (mkFees a 10 b c)).
Proof.
  intros Hg Htx Hf Hm.
  destruct (wpm_view (applyFee tx) s (fun r m => r = tesSUCCESS /\ exists o, conforms FeeFormat o /\
    m = <[Indexes.getLedgerFeeIndex := mkSLE Indexes.getLedgerFeeIndex ltFEE_SETTINGS (with_fees a 10 b c o)]> (contents (av s))) Hg)
    as (r & s' & Hrun & Hg' & Hu & -> & o & Ho & Hc).
  - intros b0 d Hr. apply wpm_bind.
    eapply peek_or_insert_rule; [exact Hr|apply fees_key|done|done|done|].
    intros p f o s1 Ht1 Ho _ Hr1. apply wpm_bind. eapply fill_fees_rule; [exact Hr1|done|done|].
    intros s2 Ht2 Hr2. apply wpm_bind. eapply update_rule; [exact Hr2|apply lookup_singleton_eq|].
    intros s3 Ht3 Hr3. apply wpm_ret. split; [congruence|]. eexists. split; [exact Hr3|]. simpl.
    split; [intros j [? ?]; done|]. split; [done|]. by exists o.
  - exists s', (with_fees a 10 b c o). unfold doApply. rewrite Htx. simpl. split.
    { unfold mbind, M_bind. by rewrite Hrun. }
    do 3 (split; [done|]). intros config l Hl. unfold setFees, Ledger.read.
    rewrite (proj2 (Z.eqb_neq _ _)) by apply fees_key. cbn [Keylet.key Indexes.fees]. rewrite Hl.
    pose proof (check_own_type Indexes.fees (with_fees a 10 b c o) ltac:(done)) as Hck.
    cbn [Keylet.key Keylet.type Indexes.fees] in Hck. unfold Keylet.checked. rewrite Hck. cbn [mbind result_bind fields].
    unfold fee_field, getFieldU64, getFieldU32, getField, with_fees.
    by repeat (rewrite ?lookup_insert_eq; cbn [as_u32 as_u64 mbind result_bind]; rewrite ?lookup_insert_ne by done).
Qed.

End change.

(** ** Three validators and a ledger without fee settings *)

Module Examples.
#[export] Instance debug : Build := {| NDEBUG := false |}.
#[export] Existing Instance IdealHash.ideal.
#[export] Existing Instance IdealHash.ideal_laws.

(** The fields of a validation that carries votes. *)
Definition val_template : list (SField * SOE_Flags) :=
  [(sfBaseFee, SOE_OPTIONAL); (sfReserveBase, SOE_OPTIONAL); (sfReserveIncrement, SOE_OPTIONAL);
   (sfAmendments, SOE_OPTIONAL)].

Definition voting (sets : list (SField * Value)) : STValidation :=
  mkValidation true (match foldM (fun o fv => setField fv.1 fv.2 o) (set_template val_template) sets with
                     | Ok o => o | _ => ∅ end).

Definition vals3 : list STValidation :=
  [voting [(sfBaseFee, U64 12)]; voting [(sfBaseFee, U64 12); (sfReserveBase, U32 40)]; voting []].

Definition fees0 : Fees := mkFees 10 10 20 5.

Lemma vals3_readable : Forall fee_readable vals3.
Proof. repeat (apply Forall_cons; [by vm_compute|]). apply Forall_nil. Qed.

Lemma fee_vote_correct_witness : exists a b c o,
  chosen 10 15 [12; 12; 10] a /\ fee_fields a b c o /\
  fee_doVoting (fun _ => 1) (mkSetup 15 20 5) 512 fees0 vals3 ∅ =
    Ok (if bool_decide ((a, b, c) = (10, 20, 5)) then ∅ else {[ 1 := mkTx ttFEE o ]}).
Proof.
  destruct (fee_vote_correct (fun _ => 1) (mkSetup 15 20 5) 512 fees0 vals3 ∅ eq_refl
    ltac:(by vm_compute) vals3_readable) as (a & b & c & o & Ha & _ & _ & Ho & Hv).
  exists a, b, c, o. split; [exact Ha|]. split; [exact Ho|]. exact Hv.
Defined.

Definition ledger0 : Ledger.t STObject := Ledger.mk ∅ ∅ info0.
Definition start0 : St (Ledger.t STObject) := mkSt (ApplyView.make ledger0) [].

Lemma ledger0_good : good ledger0.
Proof. split; [|done]. intros i s Hs. simpl in Hs. by rewrite lookup_empty in Hs. Qed.

Lemma start0_good : good (av start0).
Proof. apply ApplyView.make_good, ledger0_good. Qed.

Lemma start0_contents : contents (av start0) = contents ledger0.
Proof. apply (ApplyView.make_good ledger0 ledger0_good). Qed.

Definition fee_tx_of (a b c : Z) : STTx := match fee_tx a b c with Ok tx => tx | _ => mkTx 0 ∅ end.

Lemma fee_change_applies_witness : exists s' o,
  doApply (fee_tx_of 12 20 5) start0 = Ok ((tesSUCCESS, None), s') /\ good (av s') /\ untouched start0 s' /\
  contents (av s') = <[Indexes.getLedgerFeeIndex := mkSLE Indexes.getLedgerFeeIndex ltFEE_SETTINGS o]> (contents (av start0)) /\
  forall config (l : LedgerBuild.t),
    Ledger.stateMap_ (maps l) !! Indexes.getLedgerFeeIndex = Some (mkSLE Indexes.getLedgerFeeIndex ltFEE_SETTINGS o) ->
    setFees config l = Ok (mk (maps l) (mImmutable l) (mkFees 12 10 20 5)).
Proof.
  apply (fee_change_applies start0 (fee_tx_of 12 20 5) 12 20 5 start0_good eq_refl).
  - split_and!; by vm_compute.
  - left. rewrite start0_contents. apply lookup_empty.
Defined.

End Examples.
End FeeVoting.
