(* ===== verification/AmendmentRun.v ===== *)
(** * The life of an amendment

    From the votes to the ledger and back: [doVoting] reads the ledger's record
    and the validations and proposes changes, [applyAmendment] makes them, the
    next flag ledger is voted on in the light of the result.  The record is
    related to two lists, the enabled amendments and those with a majority since
    a time, and the theorems on runs say when an amendment becomes enabled. *)

From stdpp Require Import base tactics numbers list strings gmap sorting option.
From S2P Require Import Prelude Decimal IOUAmount BigNum Serializer STAmount.
From S2P Require Import View StateTable ApplyStateTable Fields Indexes PaymentSandbox ViewOps.
From S2P Require Import AmendmentTable Change.

Module AmendmentRun.
Import Ordered Fields ViewOps AmendmentTable Change.

(** ** The record as two lists *)

Record record := mkRecord { enabled : list Z; majorities : list (Z * Z) }.

Definition record0 : record := mkRecord [] [].

Abbreviation Format := (Amendments ++ common_fields).

Definition of_object (o : STObject) (x : record) : Prop :=
  conforms Format o /\ vec_of sfAmendments o = enabled x /\
  arr_of sfMajorities o = (fun p => majority p.1 p.2) <$> majorities x.

(** The entry of the ledger stands for the record. *)
Definition shows `{SHA512Half} (e : option Entry) (x : record) : Prop :=
  match e with
  | None => x = record0
  | Some e => exists o, e = mkSLE (Keylet.key Indexes.amendments) (Keylet.type Indexes.amendments) o /\ of_object o x
  end.

Definition others (a : Z) (l : list (Z * Z)) : list (Z * Z) := filter (fun p => p.1 <> a) l.

(** What a transaction does to the record, [now] being the close time of the
    parent ledger. *)
Definition amend (now a flags : Z) (x : record) : TER * record :=
  let got := negb (Z.land flags tfGotMajority =? 0) in
  let lost := negb (Z.land flags tfLostMajority =? 0) in
  if bool_decide (a ∈ enabled x) then (tefALREADY, x)
  else if got && lost then (temINVALID_FLAG, x)
  else if got then
    if bool_decide (a ∈ (majorities x).*1) then (tefALREADY, x)
    else (tesSUCCESS, mkRecord (enabled x) (majorities x ++ [(a, now)]))
  else if lost then
    if bool_decide (a ∈ (majorities x).*1)
    then (tesSUCCESS, mkRecord (enabled x) (others a (majorities x)))
    else (tefALREADY, x)
  else (tesSUCCESS, mkRecord (enabled x ++ [a]) (others a (majorities x))).

Lemma majority_inj p q : majority p.1 p.2 = majority q.1 q.2 -> p = q.
Proof. destruct p, q. unfold majority. simpl. by intros [= -> ->]. Qed.


(** The loop of [applyAmendment]. *)
Lemma scan_spec a got l : forall found new, scan a got ((fun p => majority p.1 p.2) <$> l) found new =
  Ok (if got && bool_decide (a ∈ l.*1) then None
      else Some (found || bool_decide (a ∈ l.*1), new ++ ((fun p => majority p.1 p.2) <$> others a l))).
Proof.
  induction l as [|[b t] l IH]; intros found new.
  - simpl. rewrite app_nil_r. by destruct got, found.
  - assert (Hi : inner_get sfAmendment (majority b t) = Ok b) by done.
    rewrite !fmap_cons. cbn [scan fst snd]. rewrite Hi. cbn [mbind result_bind].
    unfold others. rewrite filter_cons. cbn [fst]. destruct (Z.eqb_spec b a) as [->|Hne].
    + rewrite (bool_decide_true (a ∈ a :: _)) by (by left). rewrite decide_False by (by intros []).
      destruct got; [done|]. simpl. rewrite IH. by rewrite orb_true_r.
    + rewrite decide_True by done. rewrite IH. simpl.
      replace (bool_decide (a ∈ b :: l.*1)) with (bool_decide (a ∈ l.*1)).
      * by rewrite <- app_assoc.
      * apply bool_decide_ext. rewrite elem_of_cons. split; [by right|]. by intros [->|].
Qed.

Lemma others_none a l : bool_decide (a ∈ l.*1) = false -> others a l = l.
Proof.
  intros Hn%bool_decide_eq_false. unfold others. induction l as [|q l IH]; [done|]. simpl in Hn.
  rewrite filter_cons, decide_True by (intros Heq; apply Hn; rewrite Heq; by left).
  f_equal. apply IH. intros Hin. apply Hn. by right.
Qed.

Section apply.
Context `{Build} {SHA : SHA512Half} {SL : SHA512HalfLaws SHA} {V : Type} {RV : ReadView STObject V}.
Context {VM : ViewModel STObject V} {RL : ReadViewLaws STObject V}.

Abbreviation akey := (Keylet.key Indexes.amendments).

Lemma amendments_key : akey <> 0.
Proof. apply Z.neq_sym, Z.lt_neq, sha_pos, Serializer.be_bytes_bytes. Qed.

Lemma new_object o : make_SLE Indexes.amendments = Ok (mkSLE akey (Keylet.type Indexes.amendments) o) -> of_object o record0.
Proof.
  intros Hm. destruct (make_SLE_conforms ltAMENDMENTS akey Format eq_refl) as (o' & Hm' & Ho').
  assert (exists o0, make_SLE Indexes.amendments = Ok (mkSLE akey (Keylet.type Indexes.amendments) o0) /\
    vec_of sfAmendments o0 = [] /\ arr_of sfMajorities o0 = []) as (o0 & Hm0 & Hv & Ha)
    by (eexists; split; [reflexivity|split; by vm_compute]).
  assert (o0 = o) as <- by congruence. assert (o' = o0) as -> by (unfold Indexes.amendments in *; simpl in *; congruence).
  done.
Qed.

(** The transaction of an action. *)
Definition amends (tx : STTx) (a flags : Z) : Prop :=
  tx_type_ tx = ttAMENDMENT /\ getFieldH256 sfAmendment (tx_fields tx) = Ok a /\ getFlags (tx_fields tx) = flags.

Lemma place o f : conforms Format o -> f ∈ Format.*1 -> has_place f o.
Proof. intros [_ Hp]. apply Hp. Qed.

Lemma of_object_at m o x : object_at Indexes.amendments m o -> shows (m !! akey) x -> of_object o x.
Proof.
  intros [Hm|[Hm Hn]]; rewrite Hm; simpl.
  - intros (o' & [= <-] & Ho). done.
  - intros ->. by apply new_object.
Qed.

Lemma in_format f : bool_decide (f ∈ Format.*1) = true -> f ∈ Format.*1.
Proof. apply bool_decide_eq_true_1. Qed.

(** Storing the new majorities. *)
Lemma store_majorities l o en : conforms Format o -> vec_of sfAmendments o = en -> exists o',
  (if bool_decide (l = []) then makeFieldAbsent sfMajorities o else setFieldArray sfMajorities l o) = Ok o' /\
  conforms Format o' /\ vec_of sfAmendments o' = en /\ arr_of sfMajorities o' = l.
Proof.
  intros Ho He. pose proof (place o sfMajorities Ho ltac:(by apply in_format)) as Hp.
  assert (Hne : forall v, vec_of sfAmendments (<[sfMajorities := v]> o) = en)
    by (intros v; unfold vec_of in *; by rewrite lookup_insert_ne).
  case_bool_decide as Hl.
  - subst l. unfold makeFieldAbsent. unfold has_place in Hp. destruct Ho as [Hd Hpl].
    destruct (o !! sfMajorities) as [[v|]|] eqn:Hf; [| |done].
    + eexists. split; [done|]. split; [|split; [apply Hne|unfold arr_of; by rewrite lookup_insert_eq]].
      split; intros f; destruct (decide (f = sfMajorities)) as [->|Hn].
      * rewrite lookup_insert_eq, <- Hd, Hf. split; eauto.
      * by rewrite lookup_insert_ne.
      * intros _. unfold has_place. by rewrite lookup_insert_eq.
      * intros Hin. unfold has_place. rewrite lookup_insert_ne by done. by apply Hpl.
    + exists o. split; [done|]. split; [by split|]. split; [done|]. unfold arr_of. by rewrite Hf.
  - pose proof (setField_conforms Format o sfMajorities (ARR l) Ho) as Hs.
    unfold setFieldArray. rewrite (setField_ok _ _ _ Hp) in * by done. destruct Hs as (_ & _ & _ & Hs).
    eexists. split; [done|]. split; [done|]. split; [apply Hne|]. unfold arr_of. by rewrite lookup_insert_eq.
Qed.

Lemma store_enabled l o : conforms Format o -> exists o',
  setFieldV256 sfAmendments l o = Ok o' /\ conforms Format o' /\ vec_of sfAmendments o' = l /\
  arr_of sfMajorities o' = arr_of sfMajorities o.
Proof.
  intros Ho. pose proof (place o sfAmendments Ho ltac:(by apply in_format)) as Hp.
  pose proof (setField_conforms Format o sfAmendments (VEC l) Ho) as Hs.
  unfold setFieldV256. rewrite (setField_ok _ _ _ Hp) in * by done. destruct Hs as (_ & _ & _ & Hs).
  eexists. split; [done|]. split; [done|]. unfold vec_of, arr_of.
  rewrite lookup_insert_eq, lookup_insert_ne by done. done.
Qed.

(** What the record's majorities are in the object. *)
Lemma read_majorities o x : of_object o x ->
  (if isFieldPresent sfMajorities o then getFieldArray sfMajorities o else Ok []) =
  Ok ((fun p => majority p.1 p.2) <$> majorities x).
Proof.
  intros (Ho & _ & Hm). rewrite <- Hm. unfold isFieldPresent.
  pose proof (get_arr_of sfMajorities o (place o sfMajorities Ho ltac:(by apply in_format)) eq_refl) as Hg.
  rewrite Hg. unfold arr_of. by destruct (o !! sfMajorities) as [[]|].
Qed.

(** The end of [applyAmendment] in terms of the record. *)
Definition outcome (m : gmap Z Entry) (a : Z) (out : TER * record) (r : TER * option Z) (m' : gmap Z Entry) : Prop :=
  r.1 = out.1 /\ (is_Some r.2 <-> r.1 = tesSUCCESS /\ a ∈ enabled out.2) /\
  exists o', m' = <[akey := mkSLE akey (Keylet.type Indexes.amendments) o']> m /\ of_object o' out.2.

Lemma store_rule b d (s : St V) m p (f : bool) o l en enable a (Q : TER * option Z -> St V -> Prop) :
  rep b d s (mkKnow (<[akey := mkSLE akey (Keylet.type Indexes.amendments) o]> m) {[akey := (p, f)]} ∅
                ApplyStateTable.none) ->
  conforms Format o -> vec_of sfAmendments o = en ->
  (forall s' o', tabs s' = tabs s -> conforms Format o' ->
     vec_of sfAmendments o' = (if enable : bool then en ++ [a] else en) -> arr_of sfMajorities o' = l ->
     rep b d s' (mkKnow (<[akey := mkSLE akey (Keylet.type Indexes.amendments) o']> m) {[akey := (p, true)]} ∅
                   (fun _ => False)) ->
     Q (tesSUCCESS, if enable then Some a else None) s') ->
  wpm (_ ← (if enable then set p (setFieldV256 sfAmendments (en ++ [a])) else mret tt);
       _ ← (if bool_decide (l = []) then set p (makeFieldAbsent sfMajorities)
            else set p (setFieldArray sfMajorities l));
       _ ← update p;
       mret (tesSUCCESS, if enable then Some a else None)) s Q.
Proof.
  intros Hr Ho He HQ. apply wpm_bind.
  assert (Hstep : forall s1 o1 D, tabs s1 = tabs s -> conforms Format o1 ->
    vec_of sfAmendments o1 = (if enable then en ++ [a] else en) -> (forall j, D j -> j = akey) ->
    rep b d s1 (mkKnow (<[akey := mkSLE akey (Keylet.type Indexes.amendments) o1]> m) {[akey := (p, f)]} ∅ D) ->
    wpm (_ ← (if bool_decide (l = []) then set p (makeFieldAbsent sfMajorities)
              else set p (setFieldArray sfMajorities l));
         _ ← update p;
         mret (tesSUCCESS, if enable then Some a else None)) s1 Q).
  { intros s1 o1 D Ht1 Ho1 He1 HD Hr1. destruct (store_majorities l o1 _ Ho1 He1) as (o2 & Hs2 & Ho2 & He2 & Hm2).
    apply wpm_bind. destruct (bool_decide (l = []));
      (eapply set_pending; [exact Hr1|apply lookup_singleton_eq|apply lookup_insert_eq|exact Hs2|]);
      intros s2 Ht2 Hr2; simpl in Hr2; rewrite insert_insert_eq in Hr2; apply wpm_bind;
      (eapply update_rule; [exact Hr2|apply lookup_singleton_eq|]); intros s3 Ht3 Hr3; apply wpm_ret;
      (apply (HQ s3 o2); [congruence|done|done|done|]); simpl in Hr3; rewrite insert_singleton_eq in Hr3;
      (eapply rep_weaken; [exact Hr3|done|done|done|]); simpl; intros j [[Hj%HD| ->] Hn]; done. }
  destruct enable.
  - destruct (store_enabled (en ++ [a]) o Ho) as (o1 & Hs1 & Ho1 & He1 & _).
    eapply set_pending; [exact Hr|apply lookup_singleton_eq|apply lookup_insert_eq|exact Hs1|].
    intros s1 Ht1 Hr1. simpl in Hr1. rewrite insert_insert_eq in Hr1.
    eapply Hstep; [exact Ht1|exact Ho1|exact He1| |exact Hr1]. simpl. by intros j [[]|].
  - apply wpm_ret. eapply Hstep; [done|exact Ho|exact He| |exact Hr]. by intros j [].
Qed.

Lemma formatted_shows m x : shows (m !! akey) x -> formatted Indexes.amendments Format m.
Proof.
  unfold shows, formatted. destruct (m !! akey) as [e|]; [|by left].
  intros (o & -> & Ho & _). right. by exists o.
Qed.

(** The clock of the view is that of the ledger it is over. *)
Lemma parentCloseTime_rule (s0 s : St V) d k (Q : Z -> St V -> Prop) :
  rep (ApplyView.base_ (av s0)) d s k -> Q (parentCloseTime (View.vinfo (av s0))) s ->
  wpm (lift_view parentCloseTime) s Q.
Proof.
  intros Hr HQ. exists (parentCloseTime (View.vinfo (av s))), s. split; [done|].
  change (View.vinfo (av s)) with (View.vinfo (ApplyView.base_ (av s))). by rewrite (rep_base _ _ _ _ Hr).
Qed.

(** Looking for the amendment among the majorities. *)
Lemma scan_rule b d (s : St V) m p (f : bool) o x a got (Q : option (bool * list Inner) -> St V -> Prop) :
  rep b d s (mkKnow (<[akey := mkSLE akey (Keylet.type Indexes.amendments) o]> m) {[akey := (p, f)]} ∅
               ApplyStateTable.none) -> of_object o x ->
  Q (if got && bool_decide (a ∈ (majorities x).*1) then None
     else Some (bool_decide (a ∈ (majorities x).*1),
                (fun p => majority p.1 p.2) <$> others a (majorities x))) s ->
  wpm (if isFieldPresent sfMajorities o
       then old ← get p (getFieldArray sfMajorities); lift (scan a got old false [])
       else mret (Some (false, []))) s Q.
Proof.
  intros Hr Hox HQ. pose proof (read_majorities o x Hox) as Hrd. destruct (isFieldPresent sfMajorities o).
  - apply wpm_bind. eapply get_rule; [exact Hr|apply lookup_singleton_eq|apply lookup_insert_eq|exact Hrd|].
    eapply wpm_lift; [apply scan_spec|]. exact HQ.
  - apply wpm_ret. destruct (majorities x) as [|q l]; [|done]. by rewrite andb_false_r in HQ.
Qed.

(** The successful end. *)
Lemma done_rule d (s s2 : St V) m p (f : bool) o x y a l out (enable : bool) :
  out = (tesSUCCESS, y) -> tabs s2 = tabs s -> of_object o x -> bool_decide (a ∈ enabled x) = false ->
  rep (ApplyView.base_ (av s)) d s2 (mkKnow (<[akey := mkSLE akey (Keylet.type Indexes.amendments) o]> m)
    {[akey := (p, f)]} ∅ ApplyStateTable.none) ->
  enabled y = (if enable then enabled x ++ [a] else enabled x) -> (fun p => majority p.1 p.2) <$> majorities y = l ->
  wpm (_ ← (if enable then set p (setFieldV256 sfAmendments (enabled x ++ [a])) else mret tt);
       _ ← (if bool_decide (l = []) then set p (makeFieldAbsent sfMajorities)
            else set p (setFieldArray sfMajorities l));
       _ ← update p;
       mret (tesSUCCESS, if enable then Some a else None)) s2
    (fun r s' => tabs s' = tabs s /\ exists k, rep (ApplyView.base_ (av s)) d s' k /\ (forall i, ~ dirty k i) /\
      outcome m a out r (am k)).
Proof.
  intros -> Ht2 (Ho & He & _) Hen%bool_decide_eq_false Hr2 Hy Hl.
  eapply store_rule; [exact Hr2|exact Ho|exact He|]. intros s3 o3 Ht3 Ho3 Hv3 Ha3 Hr3. split; [congruence|].
  eexists. split; [exact Hr3|]. split; [by intros i []|]. split; [done|]. simpl. split.
  - rewrite Hy. destruct enable; split; [|eauto|by intros []|by intros [_ ?]]. intros _. split; [done|].
    apply elem_of_app. right. by left.
  - exists o3. split; [done|]. split; [done|]. by rewrite Hy, Hl.
Qed.

Lemma applyAmendment_spec (s : St V) tx a flags x : good (av s) -> amends tx a flags ->
  shows (contents (av s) !! akey) x -> exists r s', applyAmendment tx s = Ok (r, s') /\ good (av s') /\
    untouched s s' /\ outcome (contents (av s)) a (amend (parentCloseTime (View.vinfo (av s))) a flags x) r (contents (av s')).
Proof.
  intros Hg (_ & Hta & Htf) Hx. apply wpm_view; [done|]. intros b d Hr.
  assert (Hb : b = ApplyView.base_ (av s)) by (by rewrite (rep_base _ _ _ _ Hr)). subst b.
  unfold applyAmendment. apply wpm_bind. eapply wpm_lift; [exact Hta|]. apply wpm_bind.
  eapply peek_or_insert_rule; [exact Hr|apply amendments_key|done|done|by eapply formatted_shows|].
  intros p f o s1 Ht1 _ Hat Hr1. pose proof (of_object_at _ _ _ Hat Hx) as Hox. destruct Hox as (Ho & He & Hm).
  apply wpm_bind. eapply get_rule; [exact Hr1|apply lookup_singleton_eq|apply lookup_insert_eq| |].
  { apply get_vec_of; [by apply place, in_format|done]. }
  cbn [fields]. rewrite He.
  (* a result that leaves the record alone *)
  assert (Hsame : forall r, r <> tesSUCCESS -> amend (parentCloseTime (View.vinfo (av s))) a flags x = (r, x) ->
    forall s2, tabs s2 = tabs s1 -> rep (ApplyView.base_ (av s)) d s2
      (mkKnow (<[akey := mkSLE akey (Keylet.type Indexes.amendments) o]> (contents (av s))) {[akey := (p, f)]} ∅ ApplyStateTable.none) ->
    wpm (mret (r, None)) s2 (fun r s' => tabs s' = tabs s /\ exists k, rep (ApplyView.base_ (av s)) d s' k /\
      (forall i, ~ dirty k i) /\ outcome (contents (av s)) a (amend (parentCloseTime (View.vinfo (av s))) a flags x) r (am k))).
  { intros r Hn Ha s2 Ht2 Hr2. apply wpm_ret. split; [congruence|]. eexists. split; [exact Hr2|]. split; [by intros i []|].
    rewrite Ha. split; [done|]. split; [|by exists o]. cbn [fst snd].
    split; [by intros [? [=]]|by intros [? _]]. }
  destruct (bool_decide (a ∈ enabled x)) eqn:Hen.
  { apply Hsame; [done|unfold amend; by rewrite Hen|done|done]. }
  cbv zeta. rewrite Htf. unfold amend in Hsame |- *. rewrite Hen in Hsame |- *. cbv zeta in Hsame |- *.
  set (got := negb (Z.land flags tfGotMajority =? 0)) in *. set (lost := negb (Z.land flags tfLostMajority =? 0)) in *.
  destruct (got && lost) eqn:Hgl; [by apply Hsame|].
  apply wpm_bind. eapply get_rule; [exact Hr1|apply lookup_singleton_eq|apply lookup_insert_eq|reflexivity|].
  apply wpm_bind. cbn [fields].
  eapply scan_rule; [exact Hr1|by split|].
  pose proof (fun enable l y out Hout => done_rule d s s1 (contents (av s)) p f o x y a l out enable Hout Ht1
    (conj Ho (conj He Hm)) Hen Hr1) as Hdone.
  destruct (bool_decide (a ∈ (majorities x).*1)) eqn:Hma; destruct got; destruct lost; try done; cbn [andb negb].
  - by apply Hsame.
  - apply (Hdone false _ (mkRecord (enabled x) (others a (majorities x)))); done.
  - apply (Hdone true _ (mkRecord (enabled x ++ [a]) (others a (majorities x)))); done.
  - apply wpm_bind, wpm_bind. eapply parentCloseTime_rule; [exact Hr1|]. apply wpm_ret.
    apply (Hdone false _ (mkRecord (enabled x) (majorities x ++ [(a, parentCloseTime (View.vinfo (av s)))]))); [done..|].
    cbn [majorities]. rewrite fmap_app. by rewrite others_none.
  - by apply Hsame.
  - apply (Hdone true _ (mkRecord (enabled x ++ [a]) (others a (majorities x)))); done.
Qed.

(** ** A round of voting *)

(** [t] the time of the record. *)
Inductive Status := Waiting | Since (t : Z) | Active.

Definition status (x : record) (a : Z) : Status :=
  if bool_decide (a ∈ enabled x) then Active
  else match (list_to_map (majorities x) : gmap Z Z) !! a with Some t => Since t | None => Waiting end.

(** How the status of an amendment known to the table moves in a round. *)
Definition next (now closeTime : Z) (tb : AmendmentTable.t) (maj : bool) (s : AmendmentState) (st : Status) : Status :=
  match st with
  | Active => Active
  | Waiting => if maj && negb (mVetoed s) then Since now else Waiting
  | Since t =>
      if negb maj then Waiting
      else if (t + m_majorityTime tb <=? closeTime) && negb (mVetoed s) then Active else Since t
  end.

(** The record is in order: an amendment has one majority, since a time that is
    not 0, and none once it is enabled. *)
Definition sound (x : record) : Prop :=
  NoDup (majorities x).*1 /\ Forall (fun p => p.2 <> 0) (majorities x) /\
  forall a, a ∈ enabled x -> a ∉ (majorities x).*1.

Lemma others_fst a l b : b ∈ (others a l).*1 <-> b <> a /\ b ∈ l.*1.
Proof.
  unfold others. rewrite !list_elem_of_fmap. setoid_rewrite list_elem_of_filter. split.
  - intros ([c t] & -> & Hn & Hin). split; [done|]. by exists (c, t).
  - intros (Hn & [c t] & -> & Hin). by exists (c, t).
Qed.

Lemma others_NoDup a l : NoDup l.*1 -> NoDup (others a l).*1.
Proof.
  induction l as [|[b t] l IH]; [done|]. rewrite fmap_cons. intros [Hb Hl]%list.NoDup_cons.
  unfold others in *. rewrite filter_cons. case_decide; [|by apply IH]. rewrite fmap_cons. apply list.NoDup_cons.
  split; [|by apply IH]. simpl in *. by intros [_ ?]%(others_fst a l b).
Qed.

Lemma others_lookup a b l : b <> a ->
  (list_to_map (others a l) : gmap Z Z) !! b = (list_to_map l : gmap Z Z) !! b.
Proof.
  intros Hn. induction l as [|[c t] l IH]; [done|]. unfold others in *. rewrite filter_cons. cbn [fst].
  destruct (decide (c <> a)) as [Hc|Hc].
  - simpl. destruct (decide (c = b)) as [->|Hcb]; [by rewrite !lookup_insert_eq|].
    by rewrite !lookup_insert_ne.
  - assert (c = a) as -> by (by destruct (decide (c = a))). simpl. by rewrite lookup_insert_ne.
Qed.

Lemma app_lookup l a t b : (list_to_map (l ++ [(a, t)]) : gmap Z Z) !! b =
  match (list_to_map l : gmap Z Z) !! b with Some u => Some u | None => if decide (b = a) then Some t else None end.
Proof.
  induction l as [|[c u] l IH]; simpl.
  - case_decide as Hd; [subst; by rewrite lookup_insert_eq|by rewrite lookup_insert_ne].
  - destruct (decide (b = c)) as [->|Hbc]; [by rewrite !lookup_insert_eq|]. by rewrite !lookup_insert_ne.
Qed.

Lemma no_majority x a : a ∉ (majorities x).*1 <-> (list_to_map (majorities x) : gmap Z Z) !! a = None.
Proof. split; [apply not_elem_of_list_to_map_1|apply not_elem_of_list_to_map_2]. Qed.

Lemma sound_others x en a : sound x -> (forall b, b ∈ en -> b = a \/ b ∈ enabled x) -> sound (mkRecord en (others a (majorities x))).
Proof.
  intros (Hn & Ht & Hd) Hen. split; [|split]; simpl.
  - by apply others_NoDup.
  - apply list.Forall_forall. intros p [_ Hp]%list_elem_of_filter. by apply (proj1 (list.Forall_forall _ _) Ht).
  - intros b Hb [Hne Hin]%others_fst. destruct (Hen b Hb) as [?|He]; [done|]. by apply (Hd b).
Qed.

Lemma amend_sound now a flags x : sound x -> now <> 0 -> sound (amend now a flags x).2.
Proof.
  intros Hs Hnow. unfold amend. case_bool_decide as He; [done|].
  destruct (negb (_ =? 0) && negb (_ =? 0)); [done|].
  destruct (negb (Z.land flags tfGotMajority =? 0)); [|destruct (negb (Z.land flags tfLostMajority =? 0))].
  - case_bool_decide as Hm; [done|]. destruct Hs as (Hn & Ht & Hd). split; [|split]; simpl.
    + rewrite fmap_app. apply list.NoDup_app. split; [done|]. split; [|apply NoDup_singleton].
      by intros b Hb ->%list_elem_of_singleton.
    + apply list.Forall_app. split; [done|]. by apply Forall_singleton.
    + intros b Hb. rewrite fmap_app. intros [Hin| ->%list_elem_of_singleton]%elem_of_app; [by apply (Hd b)|done].
  - case_bool_decide; [|done]. apply sound_others; [done|]. by right.
  - apply sound_others; [done|]. intros b [?| ?%list_elem_of_singleton]%elem_of_app; [by right|by left].
Qed.

Lemma amend_other now a b flags x : b <> a -> status (amend now a flags x).2 b = status x b.
Proof.
  intros Hne. unfold amend. case_bool_decide as He; [done|].
  destruct (negb (_ =? 0) && negb (_ =? 0)); [done|].
  destruct (negb (Z.land flags tfGotMajority =? 0)); [|destruct (negb (Z.land flags tfLostMajority =? 0))].
  - case_bool_decide; [done|]. unfold status. simpl. rewrite app_lookup, decide_False by done.
    by destruct (list_to_map (majorities x) !! b).
  - case_bool_decide; [|done]. unfold status. simpl. by rewrite others_lookup.
  - unfold status. simpl. rewrite others_lookup by done.
    by rewrite (bool_decide_ext (b ∈ enabled x ++ [a]) (b ∈ enabled x)) by (rewrite elem_of_app, list_elem_of_singleton; tauto).
Qed.

(** What a transaction does to the status of its amendment. *)
Definition move (now flags : Z) (st : Status) : Status :=
  let got := negb (Z.land flags tfGotMajority =? 0) in
  let lost := negb (Z.land flags tfLostMajority =? 0) in
  match st with
  | Active => Active
  | _ => if got && lost then st
         else if got then match st with Since t => Since t | _ => Since now end
         else if lost then Waiting else Active
  end.

Lemma amend_own now a flags x : status (amend now a flags x).2 a = move now flags (status x a).
Proof.
  unfold amend, move. unfold status at 2. destruct (bool_decide (a ∈ enabled x)) eqn:He.
  { unfold status. simpl. by rewrite He. }
  assert (Hx : status x a = match (list_to_map (majorities x) : gmap Z Z) !! a with Some t => Since t | None => Waiting end)
    by (unfold status; by rewrite He).
  assert (Ho : status (mkRecord (enabled x) (others a (majorities x))) a = Waiting).
  { unfold status. simpl. rewrite He. rewrite not_elem_of_list_to_map_1; [done|].
    by intros []%others_fst. }
  assert (Ha : forall l, status (mkRecord (enabled x ++ [a]) l) a = Active).
  { intros l. unfold status. simpl. rewrite bool_decide_true; [done|]. apply elem_of_app. right. by left. }
  destruct (bool_decide (a ∈ (majorities x).*1)) eqn:Hm.
  - assert (is_Some ((list_to_map (majorities x) : gmap Z Z) !! a)) as [t Ht].
    { apply not_eq_None_Some. intros Hno%no_majority. by apply bool_decide_eq_true in Hm. }
    rewrite Ht in *. destruct (negb _), (negb _); simpl; try done. by rewrite Hx.
  - apply bool_decide_eq_false, no_majority in Hm. rewrite Hm in *.
    destruct (negb _), (negb _); simpl; try done. rewrite Hx. unfold status. simpl. by rewrite He, app_lookup, Hm, decide_True.
Qed.

(** The action that [doVoting] chooses moves the amendment as [next] says. *)
Lemma action_next now closeTime tb maj s x a : sound x ->
  match action closeTime (m_majorityTime tb) (bool_decide (a ∈ enabled x)) maj
          (default 0 ((list_to_map (majorities x) : gmap Z Z) !! a)) s with
  | Some flags => move now flags (status x a) | None => status x a end =
  next now closeTime tb maj s (status x a).
Proof.
  intros (_ & Ht & _). unfold action, status. destruct (bool_decide (a ∈ enabled x)); [done|].
  destruct (list_to_map (majorities x) !! a) as [t|] eqn:Hat; simpl.
  - assert (t <> 0) as Ht0%Z.eqb_neq by (apply (proj1 (list.Forall_forall _ _) Ht (a, t)); by apply elem_of_list_to_map_2).
    rewrite Ht0, andb_false_r, andb_true_r. simpl. destruct maj; simpl; [|done].
    by destruct ((t + m_majorityTime tb <=? closeTime) && negb (mVetoed s)).
  - rewrite andb_true_r, andb_false_r. simpl. by destruct (maj && negb (mVetoed s)).
Qed.

(** The transactions one after the other. *)
Definition amend_all (now : Z) (l : list (Z * Z)) (x : record) : record :=
  fold_left (fun x it => (amend now it.1 it.2 x).2) l x.

Lemma amend_all_sound now l : forall x, sound x -> now <> 0 -> sound (amend_all now l x).
Proof. induction l as [|it l IH]; intros x Hx Hn; simpl; [done|]. apply IH; [by apply amend_sound|done]. Qed.

Lemma amend_all_status now l a : forall x, NoDup l.*1 -> status (amend_all now l x) a =
  match (list_to_map l : gmap Z Z) !! a with Some fl => move now fl (status x a) | None => status x a end.
Proof.
  induction l as [|[b fl] l IH]; intros x Hnd; simpl; [done|]. apply list.NoDup_cons in Hnd as [Hnb Hnd]. simpl in Hnb.
  rewrite IH by done. destruct (decide (b = a)) as [->|Hba].
  - rewrite lookup_insert_eq, not_elem_of_list_to_map_1 by done. apply amend_own.
  - rewrite lookup_insert_ne by done. by rewrite amend_other.
Qed.

(** ** The ledger *)

(** What the vote reads of the last closed ledger. *)
Lemma add_majorities l : forall m, NoDup l.*1 ->
  (forall a, a ∈ l.*1 -> m !! a = None) ->
  foldM add_majority m ((fun p => majority p.1 p.2) <$> l) = Ok ((list_to_map l : gmap Z Z) ∪ m).
Proof.
  induction l as [|[b t] l IH]; intros m Hnd Hm; [change (Ok m = Ok ((∅ : gmap Z Z) ∪ m)); by rewrite map_empty_union|].
  rewrite !fmap_cons in *. apply list.NoDup_cons in Hnd as [Hb Hnd]. cbn [fst snd] in *.
  change (foldM add_majority (<[b := t]> m) ((fun p => majority p.1 p.2) <$> l) =
    Ok ((<[b := t]> (list_to_map l : gmap Z Z)) ∪ m)).
  rewrite IH; [|done|].
  - f_equal. rewrite <- insert_union_l, <- insert_union_r by (by apply not_elem_of_list_to_map_1). done.
  - intros a Ha. rewrite lookup_insert_ne by (by intros ->). apply Hm. by right.
Qed.

Lemma read_record (v : V) x : good v -> shows (contents v !! akey) x -> sound x ->
  getEnabledAmendments v = Ok (list_to_set (enabled x)) /\
  getMajorityAmendments v = Ok (list_to_map (majorities x)).
Proof.
  intros Hg Hx (Hnd & _ & _). unfold getEnabledAmendments, getMajorityAmendments.
  rewrite read_law by (done || apply amendments_key). destruct (contents v !! akey) as [e|]; simpl in Hx; cbn [Keylet.checked mbind result_bind].
  - destruct Hx as (o & -> & Hox). unfold Keylet.checked.
    rewrite check_own_type by done. cbn [mbind result_bind fields]. pose proof (read_majorities o x Hox) as Hrd.
    destruct Hox as (Ho & He & Hm). split.
    + rewrite (get_vec_of sfAmendments o) by (done || by apply place, in_format). cbn [mbind result_bind]. by rewrite He.
    + destruct (isFieldPresent sfMajorities o).
      * rewrite Hrd. cbn [mbind result_bind]. rewrite add_majorities; [|done|intros; apply lookup_empty].
        by rewrite map_union_empty.
      * destruct (majorities x); [done|]. by injection Hrd.
  - by subst x.
Qed.

Lemma amendment_tx_spec sq a flags : exists tx, amendment_tx sq a flags = Ok tx /\ amends tx a flags.
Proof.
  unfold amendment_tx. generalize (u32 (sq + 1)). intros n. destruct (Z.eqb_spec flags 0) as [->|Hf].
  - eexists. split; [vm_compute; reflexivity|]. split_and!; vm_compute; reflexivity.
  - eexists. split; [cbn [negb]; vm_compute; reflexivity|]. split_and!; vm_compute; reflexivity.
Qed.

(** Applying the transactions for a list of actions, in its order. *)
Definition apply_all (sq : Z) (l : list (Z * Z)) (s : St V) : result (St V) :=
  foldM (fun s it => tx ← amendment_tx sq it.1 it.2; r ← applyAmendment tx s; Ok r.2) s l.

Lemma apply_all_spec sq l : forall (s : St V) x, good (av s) -> shows (contents (av s) !! akey) x ->
  exists s', apply_all sq l s = Ok s' /\ good (av s') /\ same_store s s' /\
    shows (contents (av s') !! akey) (amend_all (parentCloseTime (View.vinfo (av s))) l x).
Proof.
  induction l as [|[a fl] l IH]; intros s x Hg Hx; [by exists s|].
  unfold apply_all. cbn [foldM fst snd]. destruct (amendment_tx_spec sq a fl) as (tx & -> & Htx).
  cbn [mbind result_bind]. destruct (applyAmendment_spec s tx a fl x Hg Htx Hx)
    as (r & s1 & -> & Hg1 & [_ Hst] & _ & _ & o & Hc & Ho). cbn [snd].
  destruct (IH s1 _ Hg1 ltac:(rewrite Hc, lookup_insert_eq; by exists o)) as (s2 & Hrun & Hg2 & Hst2 & Hs2).
  exists s2. split; [exact Hrun|]. split; [done|]. unfold same_store in *.
  destruct Hst as (Hb & ? & ?), Hst2 as (? & ? & ?). split; [split_and!; congruence|].
  cbn [amend_all fold_left]. revert Hs2. unfold View.vinfo; simpl. by rewrite Hb.
Qed.

(** ** The position *)

(** The transaction of an action. *)
Definition tx_of (sq : Z) (it : Z * Z) : STTx :=
  match amendment_tx sq it.1 it.2 with Ok tx => tx | _ => mkTx 0 ∅ end.

Lemma tx_of_ok sq it : amendment_tx sq it.1 it.2 = Ok (tx_of sq it).
Proof. unfold tx_of. by destruct (amendment_tx_spec sq it.1 it.2) as (tx & -> & _). Qed.

(** Applying the transactions of a position, one after the other. *)
Definition apply_txs (l : list STTx) (s : St V) : result (St V) :=
  foldM (fun s tx => r ← applyAmendment tx s; Ok r.2) s l.

Lemma apply_txs_all sq l : forall s, apply_txs (tx_of sq <$> l) s = apply_all sq l s.
Proof.
  induction l as [|it l IH]; intros s; [done|]. unfold apply_txs, apply_all in *. cbn [foldM].
  rewrite fmap_cons. cbn [foldM]. rewrite (tx_of_ok sq it). cbn [mbind result_bind].
  destruct (applyAmendment (tx_of sq it) s) as [r| |]; [apply IH|done..].
Qed.

(** [propose] is the build option [RIPPLE_PROPOSE_AMENDMENTS], which
    BeastConfig.h sets to 0 unless the build says otherwise. *)
Section rounds.
Variables (propose : bool) (getTransactionID : STTx -> Z).

(** The transactions for different amendments have different identities. *)
Definition ids_differ (sq : Z) : Prop :=
  forall it it', getTransactionID (tx_of sq it) = getTransactionID (tx_of sq it') -> it.1 = it'.1.

(** What [doVoting] puts in an empty position. *)
Lemma positions sq l : ids_differ sq -> forall pos : Position, NoDup l.*1 ->
  (forall it, it ∈ l -> pos !! getTransactionID (tx_of sq it) = None) -> exists pos',
  foldM (fun pos it => trans ← amendment_tx sq it.1 it.2;
    Ok (if propose then addGiveItem getTransactionID trans pos else pos)) pos l = Ok pos' /\
  (map_to_list pos').*2 ≡ₚ (if propose then tx_of sq <$> l else []) ++ (map_to_list pos).*2.
Proof.
  intros Hid. induction l as [|it l IH]; intros pos Hnd Hpos; [exists pos; by destruct propose|].
  rewrite fmap_cons in Hnd. apply list.NoDup_cons in Hnd as [Hn Hnd]. cbn [foldM].
  rewrite tx_of_ok. cbn [mbind result_bind]. unfold addGiveItem at 2. rewrite Hpos by (by left).
  destruct propose.
  - destruct (IH (<[getTransactionID (tx_of sq it) := tx_of sq it]> pos) Hnd) as (pos' & -> & Hp).
    { intros it' Hin. rewrite lookup_insert_ne; [apply Hpos; by right|]. intros Heq%Hid. apply Hn.
      rewrite Heq. by apply list_elem_of_fmap_2. }
    exists pos'. split; [done|]. rewrite Hp, map_to_list_insert by (apply Hpos; by left).
    cbn [fmap list_fmap app snd]. by rewrite <- Permutation_middle.
  - destruct (IH pos Hnd) as (pos' & -> & Hp); [intros it' Hin; apply Hpos; by right|]. by exists pos'.
Qed.

(** ** Rounds *)

(** A round of voting: the flag ledger that was closed, the validations and the
    table of the server that votes, the order in which the transactions it
    proposes are applied, and the ledger they are applied to. *)
Record Round := mkRound {
  lcl : V; validations : list STValidation; table : AmendmentTable.t;
  order : list STTx; building : St V }.

(** The time recorded for a majority, and the time the vote is at. *)
Definition recorded (r : Round) : Z := parentCloseTime (View.vinfo (av (building r))).
Definition closing (r : Round) : Z := parentCloseTime (View.vinfo (lcl r)).

Definition outcome_of (r : Round) : result (St V) := apply_txs (order r) (building r).

(** The round is on the ledger whose record is [e], and its transactions are
    those [doVoting] puts in the position, in some order; with [propose] off
    these are none. *)
Definition held (r : Round) (e : option Entry) : Prop :=
  good (lcl r) /\ good (av (building r)) /\ contents (lcl r) !! akey = e /\ contents (av (building r)) !! akey = e /\
  Forall readable (validations r) /\ 0 <= mMajorityFraction (table r) /\ recorded r <> 0 /\
  ids_differ (seq (View.vinfo (lcl r))) /\
  forall pos, amendment_doVoting propose getTransactionID (lcl r) (validations r) (table r) ∅ = Ok pos ->
    order r ≡ₚ (map_to_list pos).*2.

(** Successive flag ledgers; the record changes only by the rounds. *)
Inductive history (e : option Entry) : list Round -> option Entry -> Prop :=
| history_nil : history e [] e
| history_snoc rs e' r s : history e rs e' -> held r e' -> outcome_of r = Ok s ->
    history e (rs ++ [r]) (contents (av s) !! akey).

(** The trusted validators of the round have a majority for [a]: the share of
    the table's fraction, 204 of 256 in Application.cpp. *)
Definition majority_at (a : Z) (r : Round) : Prop := majority_of (mMajorityFraction (table r)) (validations r) a.

(** The count of the round finds a majority. *)
Definition counted_at (a : Z) (r : Round) : Prop := has_majority (table r) (validations r) a = true.


Definition wanted_at (a : Z) (r : Round) : Prop := exists s, m_amendmentMap (table r) !! a = Some s /\ mVetoed s = false.

Definition step (a : Z) (r : Round) (st : Status) : Status :=
  if propose then
    match m_amendmentMap (table r) !! a with
    | Some s => next (recorded r) (closing r) (table r) (has_majority (table r) (validations r) a) s st
    | None => st
    end
  else st.

(** The transactions of a round are those of a list of actions. *)
Lemma held_order r e actions : held r e -> amendment_actions (lcl r) (validations r) (table r) = Ok actions ->
  exists l, order r = tx_of (seq (View.vinfo (lcl r))) <$> l /\ l ≡ₚ (if propose then map_to_list actions else []).
Proof.
  intros (_ & _ & _ & _ & _ & _ & _ & Hid & Hord) Hact. unfold amendment_doVoting in Hord. rewrite Hact in Hord.
  destruct (positions (seq (View.vinfo (lcl r))) (Ordered.in_order actions) Hid ∅) as (pos & Hpos & Hp).
  { apply in_order_keys. }
  { intros. apply lookup_empty. }
  specialize (Hord pos Hpos). rewrite Hp, map_to_list_empty, app_nil_r in Hord.
  assert (Hin : Ordered.in_order actions ≡ₚ map_to_list actions) by apply merge_sort_Permutation.
  destruct propose; [|exists []; by apply Permutation_nil_r in Hord].
  apply Permutation_map_inv in Hord as (l & -> & Hl). exists l. split; [done|]. by rewrite <- Hl.
Qed.

Lemma round_step r e x : held r e -> shows e x -> sound x -> exists s x', outcome_of r = Ok s /\
  shows (contents (av s) !! akey) x' /\ sound x' /\ forall a, status x' a = step a r (status x a).
Proof.
  intros Hh Hx Hs. pose proof Hh as (Hl & Hb & Hle & Hbe & Hv & _ & Hn & _).
  destruct (read_record (lcl r) x Hl ltac:(by rewrite Hle) Hs) as [He Hm].
  destruct (doVoting_spec (closing r) (list_to_set (enabled x)) (list_to_map (majorities x)) (validations r) (table r) Hv)
    as (actions & Hact & Hspec).
  destruct (held_order r e actions Hh) as (l & Ho & Hp).
  { unfold amendment_actions. rewrite He, Hm. exact Hact. }
  destruct (apply_all_spec (seq (View.vinfo (lcl r))) l (building r) x Hb ltac:(by rewrite Hbe))
    as (s & Hrun & _ & _ & Hsh). fold (recorded r) in Hsh.
  assert (Hnd : NoDup l.*1) by (rewrite Hp; destruct propose; [apply NoDup_fst_map_to_list|apply NoDup_nil_2]).
  exists s, (amend_all (recorded r) l x). unfold outcome_of. rewrite Ho, apply_txs_all.
  split; [done|]. split; [done|]. split; [by apply amend_all_sound|]. intros a. rewrite amend_all_status by done.
  rewrite (list_to_map_proper _ _ Hnd Hp). unfold step. destruct propose; [|done].
  rewrite list_to_map_to_list, Hspec. destruct (m_amendmentMap (table r) !! a) as [st|]; [|done].
  rewrite <- action_next by done.
  cbn [mbind option_bind]. by rewrite (bool_decide_ext _ _ (elem_of_list_to_set (C := gset Z) a (enabled x))).
Qed.

(** The record of the ledger after a history, amendment by amendment. *)
Lemma history_sound e rs e' x : history e rs e' -> shows e x -> sound x -> exists x',
  shows e' x' /\ sound x' /\ forall a, status x' a = fold_left (fun st r => step a r st) rs (status x a).
Proof.
  intros Hh Hx Hs. induction Hh as [|rs e' r s Hh (x1 & Hx1 & Hs1 & Hst1) Hr Ho]; [by exists x|].
  destruct (round_step r e' x1 Hr Hx1 Hs1) as (s' & x2 & Ho' & Hx2 & Hs2 & Hst2).
  assert (s' = s) as -> by congruence. exists x2. split; [done|]. split; [done|].
  intros a. by rewrite Hst2, fold_left_app, Hst1.
Qed.




Lemma history_fractions e rs e' : history e rs e' -> Forall (fun r => 0 <= mMajorityFraction (table r)) rs.
Proof.
  induction 1 as [|rs e' r s _ IH Hr _]; [apply Forall_nil_2|]. apply list.Forall_app. split; [done|].
  apply Forall_singleton. apply Hr.
Qed.


(** As long as the validators and the table want it, the majority of an
    amendment is recorded and stays recorded. *)
Lemma steps_wanted a r1 rs st : propose = true ->
  Forall (fun r => counted_at a r /\ wanted_at a r) (r1 :: rs) ->
  (forall t, st = Since t -> t <= recorded r1) ->
  match fold_left (fun st r => step a r st) (r1 :: rs) st with
  | Waiting => False | Since t => t <= recorded r1 | Active => True end.
Proof.
  intros Hp Hw Hst. unfold counted_at in *. induction rs as [|r rs IH] using rev_ind.
  - apply Forall_singleton in Hw as [Hm (s & Hs & Hv)]. cbn [fold_left]. unfold step. rewrite Hp, Hs, Hm.
    destruct st as [|t|]; cbn [next]; rewrite ?Hv; simpl; [lia|..|done].
    destruct (_ && _); [done|]. by apply Hst.
  - rewrite app_comm_cons in *. apply list.Forall_app in Hw as [Hw Hr]. specialize (IH Hw). rewrite fold_left_app.
    cbn [fold_left] in *. apply Forall_singleton in Hr as [Hm (s & Hs & Hv)].
    unfold step at 1. rewrite Hp, Hs, Hm.
    destruct (fold_left _ rs _) as [|t|]; cbn [next negb]; [done|..|done]. by destruct (_ && _).
Qed.

Lemma status_active x a : status x a = Active <-> a ∈ enabled x.
Proof.
  unfold status. case_bool_decide; [done|]. by destruct (list_to_map (majorities x) !! a).
Qed.


(** C37: an amendment with the votes is enabled.  In a build that proposes
    amendments (RIPPLE_PROPOSE_AMENDMENTS, off unless the build sets it), if at a
    flag ledger and at all those after it, up to one at which the majority time
    has passed since the first, the table's fraction of the trusted validations
    names an amendment the server knows and does not veto, then the transactions
    that the last vote puts in the position can be applied, in any order, and
    the ledger they leave has the amendment enabled. *)
Theorem amendment_enabled e r1 rs e' r2 x a : propose = true ->
  history e (r1 :: rs) e' -> held r2 e' -> shows e x -> sound x ->
  Forall (fun r => majority_at a r /\ wanted_at a r) ((r1 :: rs) ++ [r2]) ->
  (forall t, status x a = Since t -> t <= recorded r1) ->
  recorded r1 + m_majorityTime (table r2) <= closing r2 ->
  exists s y, outcome_of r2 = Ok s /\ shows (contents (av s) !! akey) y /\ sound y /\ a ∈ enabled y.
Proof.
  intros Hp Hh Hr2 Hx Hs Hall Ht Hle.
  assert (Hcount : Forall (fun r => counted_at a r /\ wanted_at a r) ((r1 :: rs) ++ [r2])).
  { pose proof (history_fractions e (r1 :: rs) e' Hh) as Hfr.
    assert (Forall (fun r => 0 <= mMajorityFraction (table r)) ((r1 :: rs) ++ [r2])) as Hfr2
      by (apply list.Forall_app; split; [done|]; apply Forall_singleton, Hr2).
    rewrite list.Forall_forall in *. intros r Hr. destruct (Hall r Hr) as [Hm Hw]. split; [|done].
    apply majority_counted; [by apply Hfr2|done]. }
  apply list.Forall_app in Hcount as [Hw Hw2].
  destruct (history_sound e (r1 :: rs) e' x Hh Hx Hs) as (x1 & Hx1 & Hs1 & Hst1).
  destruct (round_step r2 e' x1 Hr2 Hx1 Hs1) as (s & y & Ho & Hy & Hsy & Hst).
  exists s, y. split; [done|]. split; [done|]. split; [done|]. apply status_active. rewrite Hst, Hst1.
  pose proof (steps_wanted a r1 rs (status x a) Hp Hw Ht) as Hsw.
  apply Forall_singleton in Hw2 as [Hm (st & Hk & Hv)]. unfold step at 1. unfold counted_at in Hm. rewrite Hp, Hk, Hm.
  destruct (fold_left _ (r1 :: rs) _) as [|t|]; cbn [next negb]; [done|..|done].
  rewrite Hv. by rewrite (proj2 (Z.leb_le _ _)) by lia.
Qed.

End rounds.
End apply.

(** ** Two flag ledgers: the votes for an amendment, and its majority time *)

Module Examples.
#[export] Instance debug : Build := {| NDEBUG := false |}.
#[export] Existing Instance IdealHash.ideal.
#[export] Existing Instance IdealHash.ideal_laws.

Abbreviation L := (Ledger.t STObject).

Definition info_at (sq time : Z) : LedgerInfo := mkInfo false sq time 0 0 0 0 0 false false 0 0 0.
Definition at_ (sq time : Z) (m : gmap Z Entry) : L := Ledger.mk m ∅ (info_at sq time).
Definition over (sq time : Z) (m : gmap Z Entry) : St L := mkSt (ApplyView.make (at_ sq time m)) [].

(** Four of five validators vote for the amendment 7; the identity of a
    transaction is here the amendment it names. *)
Definition ballot (l : list Z) : STValidation := mkValidation true {[ sfAmendments := Some (VEC l) ]}.
Definition ballots5 : list STValidation := [ballot [7]; ballot [7; 9]; ballot []; ballot [7]; ballot [9; 7]].
Definition table1 : AmendmentTable.t := mk {[ 7 := set_supported true state0 ]} 0 50 204.

Definition named_id (tx : STTx) : Z := match getFieldH256 sfAmendment (tx_fields tx) with Ok a => a | _ => 0 end.

Lemma named_differ sq : ids_differ named_id sq.
Proof.
  intros [a fl] [b fl']. unfold tx_of, named_id. cbn [fst snd].
  destruct (amendment_tx_spec sq a fl) as (tx & -> & _ & -> & _).
  destruct (amendment_tx_spec sq b fl') as (tx' & -> & _ & -> & _). done.
Qed.

Definition round1 : Round (V := L) :=
  mkRound (at_ 256 100 ∅) ballots5 table1 [tx_of 256 (7, tfGotMajority)] (over 257 110 ∅).
Definition s1 : St L := match outcome_of round1 with Ok s => s | _ => building round1 end.
Definition m1 : gmap Z Entry := contents (av s1).
Definition round2 : Round (V := L) := mkRound (at_ 512 170 m1) ballots5 table1 [tx_of 512 (7, 0)] (over 513 180 m1).

Lemma at_good sq time m : (forall i e, m !! i = Some e -> sle_key e = i /\ i <> 0) -> good (at_ sq time m).
Proof. intros Hm. split; [exact Hm|done]. Qed.

Lemma over_good sq time m : (forall i e, m !! i = Some e -> sle_key e = i /\ i <> 0) ->
  good (av (over sq time m)) /\ contents (av (over sq time m)) = m.
Proof. intros Hm. destruct (ApplyView.make_good (at_ sq time m) (at_good sq time m Hm)) as (? & ? & _). done. Qed.

Lemma ballots5_readable : Forall readable ballots5.
Proof. repeat (apply list.Forall_cons_2; [by vm_compute|]). apply Forall_nil. Qed.

(** A round whose position is the transaction of one action. *)
Lemma held_at sq time sq' t m a flags e : (forall i e, m !! i = Some e -> sle_key e = i /\ i <> 0) -> t <> 0 ->
  m !! Keylet.key Indexes.amendments = e -> amendment_actions (at_ sq time m) ballots5 table1 = Ok {[ a := flags ]} ->
  held true named_id (mkRound (at_ sq time m) ballots5 table1 [tx_of sq (a, flags)] (over sq' t m)) e.
Proof.
  intros Hm Ht He Ha. destruct (over_good sq' t m Hm) as [Hg Hc]. split; [by apply at_good|]. split; [done|].
  split; [exact He|]. split; [cbn [building]; by rewrite Hc|]. split; [apply ballots5_readable|]. split; [done|].
  split; [done|]. split; [apply named_differ|].
  cbn [lcl validations table order]. intros pos. unfold amendment_doVoting. rewrite Ha. cbn [mbind result_bind].
  replace (Ordered.in_order ({[a := flags]} : gmap Z Z)) with [(a, flags)]
    by (unfold Ordered.in_order; by rewrite map_to_list_singleton).
  cbn [foldM]. change (seq (View.vinfo (at_ sq time m))) with sq. rewrite tx_of_ok. cbn [mbind result_bind].
  unfold addGiveItem. rewrite lookup_empty, insert_empty. generalize (tx_of sq (a, flags)). intros tx Heq.
  assert (pos = {[named_id tx := tx]}) as -> by congruence. by rewrite map_to_list_singleton.
Qed.

Lemma round1_held : held true named_id round1 None.
Proof. apply (held_at 256 100 257 110 ∅ 7 tfGotMajority); [by intros i e; rewrite lookup_empty|done|done|by vm_compute]. Qed.

Lemma round1_outcome : outcome_of round1 = Ok s1 /\ good (av s1).
Proof.
  destruct (apply_all_spec 256 [(7, tfGotMajority)] (over 257 110 ∅) record0) as (s & Hs & Hg & _).
  - apply over_good. intros i e. by rewrite lookup_empty.
  - rewrite (proj2 (over_good 257 110 ∅ ltac:(by intros i e; rewrite lookup_empty))). by rewrite lookup_empty.
  - assert (Ho : outcome_of round1 = Ok s) by (rewrite <- Hs; apply (apply_txs_all 256 [(7, tfGotMajority)])).
    unfold s1. by rewrite Ho.
Qed.

Lemma m1_keys i e : m1 !! i = Some e -> sle_key e = i /\ i <> 0.
Proof. apply good_keys, round1_outcome. Qed.

Lemma round2_held : held true named_id round2 (m1 !! Keylet.key Indexes.amendments).
Proof. apply (held_at 512 170 513 180 m1 7 0); [exact m1_keys|done|done|by vm_compute]. Qed.

Lemma history1 : history true named_id None [round1] (m1 !! Keylet.key Indexes.amendments).
Proof.
  apply (history_snoc true named_id None [] None round1 s1); [apply history_nil|apply round1_held|apply round1_outcome].
Qed.

Lemma record0_sound : sound record0.
Proof. split; [apply NoDup_nil_2|]. split; [apply Forall_nil|]. by intros a ?%not_elem_of_nil. Qed.

Lemma wanted : Forall (fun r => majority_at 7 r /\ wanted_at 7 r) [round1; round2].
Proof.
  repeat (apply list.Forall_cons_2; [split; [by vm_compute|by exists (set_supported true state0)]|]). apply Forall_nil.
Qed.

Lemma amendment_enabled_witness : exists s y, outcome_of round2 = Ok s /\
  shows (contents (av s) !! Keylet.key Indexes.amendments) y /\ sound y /\ 7 ∈ enabled y.
Proof.
  apply (amendment_enabled true named_id None round1 [] (m1 !! Keylet.key Indexes.amendments) round2 record0 7
    eq_refl history1 round2_held eq_refl record0_sound wanted).
  - intros t. by vm_compute.
  - by vm_compute.
Defined.





(** A validation that names an amendment twice counts twice. *)
Lemma double_vote : votes 7 [ballot [7; 7]] = 2 /\ trusted [ballot [7; 7]] = 1.
Proof. by vm_compute. Qed.

End Examples.

(** Without trusted validations every amendment has a majority. *)
Lemma no_validations_majority tb a : has_majority tb [] a = true.
Proof. done. Qed.

(** [doValidatedLedger] does not record the ledger it was called for. *)
Lemma needValidatedLedger_again ledgerSeq enabled n tb :
  needValidatedLedger n (doValidatedLedger ledgerSeq enabled tb) = needValidatedLedger n tb.
Proof. done. Qed.

End AmendmentRun.
