(* ===== verification/LoadFeeTrack.v ===== *)
(** * Fees under load

    [LoadFeeTrackImp] (core/impl/LoadFeeTrackImp.h): the factor by which a
    server multiplies transaction fees when it, its cluster or the network is
    loaded, how the local factor goes up and down, and the scaling of fees.
    The mutex makes each operation one step. *)

From stdpp Require Import base tactics numbers list.
From S2P Require Import Prelude.

Module LoadFeeTrack.

Definition lftNormalFee : Z := 256.
Definition lftFeeIncFraction : Z := 4.
Definition lftFeeDecFraction : Z := 4.
Definition lftFeeMax : Z := lftNormalFee * 1000000.

Record t := mk {
  mLocalTxnLoadFee : Z; mRemoteTxnLoadFee : Z; mClusterTxnLoadFee : Z; raiseCount : Z }.

Definition make : t := mk lftNormalFee lftNormalFee lftNormalFee 0.

(** The second factor has 32 bits: a wider argument is cut. *)
Definition mulDiv (value mul div : Z) : Z :=
  let mul := u32 mul in
  if 0xFFFFFFFF <? value then u64 (value / div * mul) else u64 (value * mul) / div.

(** The factor that applies. *)
Definition factor (bAdmin : bool) (s : t) : Z :=
  let feeFactor := Z.max (mLocalTxnLoadFee s) (mRemoteTxnLoadFee s) in
  let uRemFee := Z.max (mRemoteTxnLoadFee s) (mClusterTxnLoadFee s) in
  if bAdmin && (uRemFee <? feeFactor) && (feeFactor <? u32 (4 * uRemFee)) then uRemFee else feeFactor.

Definition scaleFeeLoad (fee baseFee referenceFeeUnits : Z) (bAdmin : bool) (s : t) : Z :=
  let big := 0xFFFFFFFF <? fee in
  let fee := if big then fee / referenceFeeUnits else u64 (fee * baseFee) in
  let fee := mulDiv fee (factor bAdmin s) lftNormalFee in
  if big then u64 (fee * baseFee) else fee / referenceFeeUnits.

Definition scaleFeeBase (fee baseFee referenceFeeUnits : Z) : Z := mulDiv fee baseFee referenceFeeUnits.

Definition getRemoteFee (s : t) : Z := mRemoteTxnLoadFee s.
Definition getLocalFee (s : t) : Z := mLocalTxnLoadFee s.
Definition getLoadBase : Z := lftNormalFee.
Definition getClusterFee (s : t) : Z := mClusterTxnLoadFee s.
Definition getLoadFactor (s : t) : Z :=
  Z.max (mClusterTxnLoadFee s) (Z.max (mLocalTxnLoadFee s) (mRemoteTxnLoadFee s)).

Definition setClusterFee (fee : Z) (s : t) : t :=
  mk (mLocalTxnLoadFee s) (mRemoteTxnLoadFee s) fee (raiseCount s).
Definition setRemoteFee (f : Z) (s : t) : t :=
  mk (mLocalTxnLoadFee s) f (mClusterTxnLoadFee s) (raiseCount s).

Definition isLoadedLocal (s : t) : bool :=
  negb (raiseCount s =? 0) || negb (mLocalTxnLoadFee s =? lftNormalFee).
Definition isLoadedCluster (s : t) : bool :=
  negb (raiseCount s =? 0) || negb (mLocalTxnLoadFee s =? lftNormalFee)
  || negb (mClusterTxnLoadFee s =? lftNormalFee).

Definition raiseLocalFee (s : t) : bool * t :=
  let count := i32 (raiseCount s + 1) in
  if count <? 2 then (false, mk (mLocalTxnLoadFee s) (mRemoteTxnLoadFee s) (mClusterTxnLoadFee s) count)
  else
    let origFee := mLocalTxnLoadFee s in
    let fee := if origFee <? mRemoteTxnLoadFee s then mRemoteTxnLoadFee s else origFee in
    let fee := u32 (fee + fee / lftFeeIncFraction) in
    let fee := if lftFeeMax <? fee then lftFeeMax else fee in
    (negb (origFee =? fee), mk fee (mRemoteTxnLoadFee s) (mClusterTxnLoadFee s) count).

(** The new value of the local fee. *)
Definition lowered (fee : Z) : Z :=
  let fee := u32 (fee - fee / lftFeeDecFraction) in
  if fee <? lftNormalFee then lftNormalFee else fee.

Definition lowerLocalFee (s : t) : bool * t :=
  let fee := lowered (mLocalTxnLoadFee s) in
  (negb (mLocalTxnLoadFee s =? fee), mk fee (mRemoteTxnLoadFee s) (mClusterTxnLoadFee s) 0).

(** ** The life of the tracker *)

(** What is done to the tracker.  [Remote f] is [setRemoteFee f], of any 32 bits. *)
Inductive op := Raise | Lower | Cluster (f : Z) | Remote (f : Z).

Definition fee32 (f : Z) : Prop := 0 <= f < 2 ^ 32.

Inductive step : op -> t -> t -> Prop :=
| step_raise s : step Raise s (raiseLocalFee s).2
| step_lower s : step Lower s (lowerLocalFee s).2
| step_cluster s f : fee32 f -> step (Cluster f) s (setClusterFee f s)
| step_remote s f : fee32 f -> step (Remote f) s (setRemoteFee f s).

(** [reached ops s]: the operations [ops], the last one first, lead to [s]. *)
Inductive reached : list op -> t -> Prop :=
| reached_make : reached [] make
| reached_step ops o s s' : reached ops s -> step o s s' -> reached (o :: ops) s'.

(** A remote factor from which a raise does not overflow. *)
Definition sane_fee (f : Z) : Prop := f + f / 4 < 2 ^ 32.
Definition sane_remote (s : t) : Prop := sane_fee (mRemoteTxnLoadFee s).
Definition sane_op (o : op) : Prop := match o with Remote f => sane_fee f | _ => True end.

(** Reached while only such factors were reported. *)
Definition reachable (s : t) : Prop := exists ops, reached ops s /\ Forall sane_op ops.

Definition inv (s : t) : Prop :=
  lftNormalFee <= mLocalTxnLoadFee s <= lftFeeMax /\ 0 <= mRemoteTxnLoadFee s < 2 ^ 32 /\
  0 <= mClusterTxnLoadFee s < 2 ^ 32 /\ sane_remote s.

Ltac consts := unfold lftFeeMax, lftNormalFee, lftFeeIncFraction, lftFeeDecFraction, sane_remote, sane_fee, fee32 in *.

(** Linear arithmetic with divisions by constants and the tests of the code. *)
Ltac fees := consts; simpl in *; repeat case_match; simpl in *; Z.to_euclidean_division_equations; lia.

Lemma u32_fee z : 0 <= z < 2 ^ 32 -> u32 z = z.
Proof. apply u32_id. Qed.

Lemma lowered_range fee : lftNormalFee <= fee <= lftFeeMax -> lftNormalFee <= lowered fee <= fee.
Proof. intros Hf. unfold lowered. consts. rewrite u32_fee; fees. Qed.

Lemma raised_range s : inv s -> mLocalTxnLoadFee s <= mLocalTxnLoadFee (raiseLocalFee s).2 <= lftFeeMax.
Proof.
  intros (Hl & Hr & Hc & Hs). unfold raiseLocalFee. destruct (i32 _ <? 2); [simpl; lia|]. cbn [snd mLocalTxnLoadFee].
  consts. destruct (Z.ltb_spec (mLocalTxnLoadFee s) (mRemoteTxnLoadFee s)); rewrite u32_fee; fees.
Qed.

Lemma raise_frame s : mRemoteTxnLoadFee (raiseLocalFee s).2 = mRemoteTxnLoadFee s /\
  mClusterTxnLoadFee (raiseLocalFee s).2 = mClusterTxnLoadFee s.
Proof. unfold raiseLocalFee. by destruct (_ <? 2). Qed.

Lemma move_inv o s s' : inv s -> step o s s' -> sane_op o -> inv s'.
Proof.
  intros Hi Hst Ho. pose proof Hi as (Hl & Hr & Hc & Hs). destruct Hst as [s|s|s f Hf|s f Hf]; unfold inv.
  - pose proof (raised_range s Hi). unfold sane_remote. destruct (raise_frame s) as [-> ->]. split_and!; try done; lia.
  - pose proof (lowered_range _ Hl). simpl. split_and!; try done; lia.
  - done.
  - done.
Qed.

Lemma tracked_inv s : reachable s -> inv s.
Proof.
  intros (ops & Hr & Hs). induction Hr as [|ops o s s' _ IH Hst]; [by vm_compute|].
  inversion Hs; subst. eapply move_inv; [by apply IH|done|done].
Qed.

(** Whatever is reported, no operation leads above the maximum. *)
Lemma local_fee_capped ops s : reached ops s -> 0 <= mLocalTxnLoadFee s <= lftFeeMax.
Proof.
  induction 1 as [|ops o s s' _ IH Hst]; [by vm_compute|]. destruct Hst as [s|s|s f Hf|s f Hf]; [| |done|done].
  - unfold raiseLocalFee. destruct (i32 _ <? 2); [done|]. cbn [snd mLocalTxnLoadFee].
    match goal with |- context [u32 ?z] => pose proof (u32_range z); destruct (Z.ltb_spec lftFeeMax (u32 z)) end; consts; lia.
  - simpl. unfold lowered. consts. rewrite u32_fee; fees.
Qed.

(** C39: the local factor moves within its limits.  In every state the operations
    of the tracker lead to, whatever remote factors are reported, the local factor
    is at most the maximum.  As long as every remote factor [f] that was reported
    leaves room for a raise in 32 bits, [f + f / 4 < 2 ^ 32], it is at least the
    normal factor; raising never lowers it, and from the second raise in a row on
    it is a quarter ([lftFeeIncFraction] is 4; a comment of the code says a
    sixteenth) above the larger of the local and the remote factor, or at the
    maximum; lowering never raises it. *)
Theorem local_fee_bounded ops s : reached ops s ->
  mLocalTxnLoadFee s <= lftFeeMax /\
  (Forall sane_op ops ->
   lftNormalFee <= mLocalTxnLoadFee s /\
   mLocalTxnLoadFee s <= mLocalTxnLoadFee (raiseLocalFee s).2 /\
   (1 <= raiseCount s < 2 ^ 31 - 1 ->
      let before := Z.max (mLocalTxnLoadFee s) (mRemoteTxnLoadFee s) in
      mLocalTxnLoadFee (raiseLocalFee s).2 = Z.min lftFeeMax (before + before / 4)) /\
   mLocalTxnLoadFee (lowerLocalFee s).2 <= mLocalTxnLoadFee s).
Proof.
  intros Hr0. split; [apply (local_fee_capped _ _ Hr0)|]. intros Hsane. assert (Hr : inv s) by (apply tracked_inv; by exists ops).
  pose proof Hr as (Hl & Hm & _ & Hs). pose proof (raised_range s Hr).
  pose proof (lowered_range _ Hl). split; [lia|]. split; [lia|]. split; [|simpl; lia]. intros Hc. unfold raiseLocalFee.
  rewrite i32_id by lia. destruct (Z.ltb_spec (raiseCount s + 1) 2); [lia|]. cbn [snd mLocalTxnLoadFee]. consts.
  destruct (Z.ltb_spec (mLocalTxnLoadFee s) (mRemoteTxnLoadFee s)).
  - rewrite Z.max_r by lia. rewrite u32_fee by fees. destruct (Z.ltb_spec (256 * 1000000) (mRemoteTxnLoadFee s + mRemoteTxnLoadFee s / 4)); lia.
  - rewrite Z.max_l by lia. rewrite u32_fee by fees. destruct (Z.ltb_spec (256 * 1000000) (mLocalTxnLoadFee s + mLocalTxnLoadFee s / 4)); lia.
Qed.

Lemma lowered_mono a b : lftNormalFee <= a -> a <= b <= lftFeeMax -> lowered a <= lowered b.
Proof. intros Ha Hb. unfold lowered. consts. rewrite !u32_fee; fees. Qed.

Lemma lowered_iter n a : lftNormalFee <= a <= lftFeeMax ->
  lftNormalFee <= Nat.iter n lowered a <= Nat.iter n lowered lftFeeMax /\ Nat.iter n lowered lftFeeMax <= lftFeeMax.
Proof.
  intros Ha. induction n as [|n [IH IHm]]; [simpl; lia|]. simpl.
  pose proof (lowered_range (Nat.iter n lowered a) ltac:(lia)).
  pose proof (lowered_range (Nat.iter n lowered lftFeeMax) ltac:(lia)).
  pose proof (lowered_mono (Nat.iter n lowered a) (Nat.iter n lowered lftFeeMax) ltac:(lia) ltac:(lia)). lia.
Qed.

Definition lower_times (n : nat) (s : t) : t := Nat.iter n (fun s => (lowerLocalFee s).2) s.

Lemma lower_times_fee n s : mLocalTxnLoadFee (lower_times n s) = Nat.iter n lowered (mLocalTxnLoadFee s).
Proof. unfold lower_times. induction n as [|n IH]; [done|]. by rewrite !Nat.iter_succ, <- IH. Qed.

(** The load passes.  From every state the tracker reaches, 49 calls of
    [lowerLocalFee] without a raise in between bring the local factor back to
    normal, whatever it was; the server then no longer counts as loaded, and a
    further call reports no change. *)
Theorem local_fee_recovers s : reachable s ->
  mLocalTxnLoadFee (lower_times 49 s) = lftNormalFee /\ isLoadedLocal (lower_times 49 s) = false /\
  (lowerLocalFee (lower_times 49 s)).1 = false.
Proof.
  intros (Hl & _)%tracked_inv. assert (Hf : mLocalTxnLoadFee (lower_times 49 s) = lftNormalFee).
  { rewrite lower_times_fee. destruct (lowered_iter 49 _ Hl) as [H1 _].
    assert (Hmax : Nat.iter 49 lowered lftFeeMax = lftNormalFee) by (by vm_compute). lia. }
  split; [done|]. split.
  - unfold isLoadedLocal. rewrite Hf. done.
  - unfold lowerLocalFee. by rewrite Hf.
Qed.

(** ** Scaling *)

Lemma mulDiv_bounds value mul div : 0 <= value < 2 ^ 64 -> 0 <= mul < 2 ^ 32 -> 0 < div ->
  value * mul < 2 ^ 64 * div -> let r := mulDiv value mul div in
  0 <= r < 2 ^ 64 /\ r * div <= value * mul < (r + 1) * div + (if 0xFFFFFFFF <? value then (div - 1) * mul else 0).
Proof.
  intros Hv Hm Hd Hno. unfold mulDiv. rewrite u32_fee by done.
  pose proof (Z.mul_div_le value div Hd). pose proof (Z.mod_pos_bound value div Hd) as Hmod.
  pose proof (Z.div_mod value div ltac:(lia)) as Hdm.
  pose proof (Z.div_pos value div ltac:(lia) Hd). destruct (Z.ltb_spec 0xFFFFFFFF value); cbv zeta.
  - rewrite u64_id by nia. split; [nia|]. split; nia.
  - rewrite u64_id by nia. pose proof (Z.mul_div_le (value * mul) div Hd).
    pose proof (Z.mul_succ_div_gt (value * mul) div Hd). pose proof (Z.div_pos (value * mul) div ltac:(nia) Hd).
    split; [|lia]. split; [done|]. apply Z.div_lt_upper_bound; lia.
Qed.

Lemma factor_range admin s : inv s -> lftNormalFee <= factor admin s < 2 ^ 32 \/
  admin = true /\ factor admin s = Z.max (mRemoteTxnLoadFee s) (mClusterTxnLoadFee s).
Proof.
  intros (Hl & Hr & Hc & _). unfold factor. cbv zeta. destruct (admin && _) eqn:Ha; simpl.
  - destruct (_ <? u32 _); [|left; consts; lia]. apply andb_true_iff in Ha as [-> _]. by right.
  - left. consts. lia.
Qed.

(** Fees under load.  For a fee of at most 32 bits whose product with the
    base fee fits in 64, scaling by the load gives at most the exact value
    fee * base fee * factor / 256 / units.  It is less than one drop short of it
    when the product has at most 32 bits; a larger product is divided first, and
    the result may be short by another 255/256 of the factor over the units. *)
Theorem scaleFeeLoad_bounds fee baseFee units admin s : reachable s ->
  0 <= fee <= 0xFFFFFFFF -> 0 <= baseFee -> 0 < units < 2 ^ 32 ->
  fee * baseFee * factor admin s < 2 ^ 64 * lftNormalFee -> fee * baseFee < 2 ^ 64 ->
  let r := scaleFeeLoad fee baseFee units admin s in
  let exact := fee * baseFee * factor admin s in
  r * (lftNormalFee * units) <= exact <
    (r + 1) * (lftNormalFee * units) + (if 0xFFFFFFFF <? fee * baseFee then (lftNormalFee - 1) * factor admin s else 0).
Proof.
  intros Hr%tracked_inv Hf Hb Hu Hno Hp. unfold scaleFeeLoad.
  assert (Hbig : (0xFFFFFFFF <? fee) = false) by (apply Z.ltb_ge; lia). rewrite Hbig. cbv zeta.
  rewrite u64_id by nia.
  assert (Hfac : 0 <= factor admin s < 2 ^ 32).
  { pose proof (factor_range admin s Hr) as Hfr. destruct Hr as (? & ? & ? & _), Hfr as [?|[_ ->]]; consts; lia. }
  destruct (mulDiv_bounds (fee * baseFee) (factor admin s) lftNormalFee) as [Hm Hd]; [nia|done|done|done|].
  set (m := mulDiv _ _ _) in *. pose proof (Z.mul_div_le m units ltac:(lia)).
  pose proof (Z.mul_succ_div_gt m units ltac:(lia)). consts. split; nia.
Qed.

(** ** A tracker under load *)

Definition s3 : t := (raiseLocalFee (raiseLocalFee (raiseLocalFee make).2).2).2.

Lemma s3_reached : reached [Raise; Raise; Raise] s3.
Proof. do 3 (eapply reached_step; [|apply step_raise]). apply reached_make. Qed.

Lemma s3_reachable : reachable s3.
Proof. exists [Raise; Raise; Raise]. split; [apply s3_reached|by repeat constructor]. Qed.

Lemma s3_count : 1 <= raiseCount s3 < 2 ^ 31 - 1.
Proof. by vm_compute. Qed.

Lemma local_fee_bounded_witness : mLocalTxnLoadFee s3 = 400 /\
  mLocalTxnLoadFee (raiseLocalFee s3).2 =
    Z.min lftFeeMax (Z.max (mLocalTxnLoadFee s3) (mRemoteTxnLoadFee s3) +
                     Z.max (mLocalTxnLoadFee s3) (mRemoteTxnLoadFee s3) / 4).
Proof.
  split; [by vm_compute|].
  destruct (local_fee_bounded [Raise; Raise; Raise] s3 s3_reached) as (_ & Hs).
  destruct Hs as (_ & _ & Hr & _); [repeat constructor|exact (Hr s3_count)].
Defined.

Lemma local_fee_recovers_witness : mLocalTxnLoadFee (lower_times 49 s3) = lftNormalFee /\
  isLoadedLocal (lower_times 49 s3) = false /\ (lowerLocalFee (lower_times 49 s3)).1 = false.
Proof. exact (local_fee_recovers s3 s3_reachable). Defined.

Lemma scaleFeeLoad_bounds_witness :
  let r := scaleFeeLoad 1000 10 10 false s3 in
  r * 2560 <= 1000 * 10 * factor false s3 < (r + 1) * 2560 + 0.
Proof.
  refine (scaleFeeLoad_bounds 1000 10 10 false s3 s3_reachable _ _ _ _ _); by vm_compute.
Defined.

(** A remote factor near the top of its range makes a raise wrap around: without
    the bound on the reported factors the local one can fall to 0. *)
Lemma raise_wraps : let s := setRemoteFee 0xCCCCCCCD make in
  mLocalTxnLoadFee (raiseLocalFee (raiseLocalFee s).2).2 = 0.
Proof. by vm_compute. Qed.

(** A base fee of more than 32 bits is cut by [scaleFeeBase]. *)
Lemma scaleFeeBase_cuts : scaleFeeBase 10 (2 ^ 32) 10 = 0.
Proof. by vm_compute. Qed.

End LoadFeeTrack.
