(* ===== verification/ShaNode.v ===== *)
(** * Nodes of the hash tree

    shamap/impl/SHAMapTreeNode.cpp and shamap/impl/SHAMapNodeID.cpp: the leaves
    and inner nodes of a [SHAMap] with their hashes, their two serialised forms
    and the reading of these, and the positions of nodes in the tree.  A 256-bit
    number is a [Z].  The generation mark for synchronisation ([mFullBelowGen])
    is left out, and so is the lock around the children. *)

From stdpp Require Import base tactics numbers list strings option.
From S2P Require Import Prelude Serializer View Indexes.

Module ShaNode.
Import Serializer.

(** ** Positions *)

Module NodeID.

(** [mNodeID] has the bits of the path, the others are zero. *)
Record t := mk { mDepth : nat; mNodeID : Z }.

Definition root : t := mk 0 0.
Definition isRoot (id : t) : bool := Nat.eqb (mDepth id) 0.

(** [* (hash.begin () + i)]. *)
Definition byte_at (hash : Z) (i : nat) : Z := be_bytes 32 hash !!! i.

(** The table of masks: [selector] after each pair of entries. *)
Fixpoint mask_entries (i : nat) (n : nat) (selector : Blob) : list Z :=
  match n with
  | O => [be_value selector]
  | S n => be_value selector :: be_value (<[i := 0xF0]> selector) ::
           mask_entries (S i) n (<[i := 0xFF]> selector)
  end.

Definition masks : list Z := Eval vm_compute in mask_entries 0 32 (replicate 32 0).

Definition Masks (depth : nat) : Z := masks !!! depth.

(** The constructor from a depth and a hash. *)
Definition canonical (depth : nat) (hash : Z) : t := mk depth (Z.land hash (Masks depth)).

Definition getChildNodeID (m : Z) (id : t) : t :=
  let b := be_bytes 32 (mNodeID id) in
  let i := Nat.div2 (mDepth id) in
  let child := be_value (<[i := Z.lor (b !!! i) (if Nat.odd (mDepth id) then m else Z.shiftl m 4)]> b) in
  canonical (S (mDepth id)) child.

Definition selectBranch (hash : Z) (id : t) : Z :=
  let branch := byte_at hash (Nat.div2 (mDepth id)) in
  if Nat.odd (mDepth id) then Z.land branch 0xf else Z.shiftr branch 4.

End NodeID.

(** ** Nodes *)

Inductive TNType := tnTRANSACTION_NM | tnTRANSACTION_MD | tnACCOUNT_STATE.

#[export] Instance TNType_eq_dec : EqDecision TNType.
Proof. solve_decision. Defined.

Record SHAMapItem := mkItem { key : Z; data : Blob }.

#[export] Instance SHAMapItem_eq_dec : EqDecision SHAMapItem.
Proof. solve_decision. Defined.

(** The members of an inner node, over the type of nodes. *)
Record inner (N : Type) := mkInner {
  iHash : Z; iSeq : Z; mHashes : list Z; mChildren : list (option N); mIsBranch : Z }.
Arguments mkInner {N} iHash iSeq mHashes mChildren mIsBranch.
Arguments iHash {N} i.
Arguments iSeq {N} i.
Arguments mHashes {N} i.
Arguments mChildren {N} i.
Arguments mIsBranch {N} i.

#[warnings="-register-all"]
Inductive node :=
| TreeNode (mItem : SHAMapItem) (mType : TNType) (mHash mSeq : Z)
| InnerNode (i : inner node).

Definition isLeaf (n : node) : bool := match n with TreeNode _ _ _ _ => true | _ => false end.
Definition isInner (n : node) : bool := match n with InnerNode _ => true | _ => false end.
Definition getSeq (n : node) : Z := match n with TreeNode _ _ _ s => s | InnerNode i => iSeq i end.
Definition getNodeHash (n : node) : Z := match n with TreeNode _ _ h _ => h | InnerNode i => iHash i end.

Definition setSeq (s : Z) (n : node) : node :=
  match n with
  | TreeNode it ty h _ => TreeNode it ty h s
  | InnerNode i => InnerNode (mkInner (iHash i) s (mHashes i) (mChildren i) (mIsBranch i))
  end.

(** [clone]: the same node with another sequence. *)
Definition clone (s : Z) (n : node) : node := setSeq s n.

Definition newInner (seq : Z) : inner node := mkInner 0 seq (replicate 16 0) (replicate 16 None) 0.

Section nodes.
Context `{Build} {SHA : SHA512Half}.

Definition prefix_transactionID : Z := 0x54584E00.
Definition prefix_txNode : Z := 0x534E4400.
Definition prefix_leafNode : Z := 0x4D4C4E00.
Definition prefix_innerNode : Z := 0x4D494E00.

(** What is hashed for a leaf. *)
Definition leaf_bytes (type : TNType) (it : SHAMapItem) : Blob :=
  match type with
  | tnTRANSACTION_NM => be_bytes 4 prefix_transactionID ++ data it
  | tnACCOUNT_STATE => be_bytes 4 prefix_leafNode ++ data it ++ be_bytes 32 (key it)
  | tnTRANSACTION_MD => be_bytes 4 prefix_txNode ++ data it ++ be_bytes 32 (key it)
  end.

Definition leaf_hash (type : TNType) (it : SHAMapItem) : Z := sha512Half (leaf_bytes type it).

(** What is hashed for an inner node: the array [mHashes]. *)
Definition inner_bytes (hashes : list Z) : Blob :=
  be_bytes 4 prefix_innerNode ++ concat (be_bytes 32 <$> hashes).

(** [SHAMapTreeNode (item, type, seq)]. *)
Definition make_leaf (it : SHAMapItem) (type : TNType) (seq : Z) : result node :=
  _ ← Keylet.assert (12 <=? size (data it));
  Ok (TreeNode it type (leaf_hash type it) seq).

(** With the hash given. *)
Definition make_leaf_hashed (it : SHAMapItem) (type : TNType) (seq hash : Z) : result node :=
  _ ← Keylet.assert (12 <=? size (data it));
  Ok (TreeNode it type hash seq).

Definition isEmptyBranch (m : Z) (i : inner node) : bool := Z.land (mIsBranch i) (Z.shiftl 1 m) =? 0.
Definition isEmpty (i : inner node) : bool := mIsBranch i =? 0.
Definition getBranchCount (i : inner node) : Z :=
  foldl (fun count m => if isEmptyBranch m i then count else count + 1) 0 (seqZ 0 16).
Definition getChildHash (m : Z) (i : inner node) : Z := mHashes i !!! Z.to_nat m.
Definition getChild (m : Z) (i : inner node) : option node := mChildren i !!! Z.to_nat m.

Definition setChild (m : Z) (child : option node) (i : inner node) : result (inner node) :=
  _ ← Keylet.assert ((0 <=? m) && (m <? 16));
  _ ← Keylet.assert (negb (iSeq i =? 0));
  Ok (mkInner 0 (iSeq i) (<[Z.to_nat m := 0]> (mHashes i)) (<[Z.to_nat m := child]> (mChildren i))
        (match child with Some _ => Z.lor | None => Z.ldiff end (mIsBranch i) (Z.shiftl 1 m))).

Definition shareChild (m : Z) (child : node) (i : inner node) : result (inner node) :=
  _ ← Keylet.assert ((0 <=? m) && (m <? 16));
  _ ← Keylet.assert (negb (iSeq i =? 0));
  Ok (mkInner (iHash i) (iSeq i) (mHashes i) (<[Z.to_nat m := Some child]> (mChildren i)) (mIsBranch i)).

(** The hash of an inner node, from [mHashes]. *)
Definition updateHash_inner (i : inner node) : inner node :=
  mkInner (if mIsBranch i =? 0 then 0 else sha512Half (inner_bytes (mHashes i)))
    (iSeq i) (mHashes i) (mChildren i) (mIsBranch i).

Definition updateHashDeep (i : inner node) : inner node :=
  updateHash_inner (mkInner (iHash i) (iSeq i)
    (zip_with (fun h c => match c with Some n => getNodeHash n | None => h end) (mHashes i) (mChildren i))
    (mChildren i) (mIsBranch i)).

(** Whether the hash changed, and the node. *)
Definition updateHash (n : node) : bool * node :=
  match n with
  | TreeNode it ty h s => (negb (leaf_hash ty it =? h), TreeNode it ty (leaf_hash ty it) s)
  | InnerNode i => (negb (iHash (updateHash_inner i) =? iHash i), InnerNode (updateHash_inner i))
  end.

(** [SHAMapTreeNode::setItem] on a leaf. *)
Definition setItem (it : SHAMapItem) (type : TNType) (hash seq : Z) : result (bool * node) :=
  _ ← Keylet.assert (negb (seq =? 0));
  Ok (updateHash (TreeNode it type hash seq)).

(** ** Serialised forms *)

Inductive SHANodeFormat := snfPREFIX | snfWIRE | snfHASH.

Definition addRaw_inner (format : SHANodeFormat) (i : inner node) (s : Blob) : result Blob :=
  match format with
  | snfHASH => Ok (snd (add256 (iHash i) s))
  | snfPREFIX =>
      _ ← Keylet.assert (negb (isEmpty i));
      Ok (foldl (fun s h => snd (add256 h s)) (snd (add32 prefix_innerNode s)) (mHashes i))
  | snfWIRE =>
      _ ← Keylet.assert (negb (isEmpty i));
      Ok (if getBranchCount i <? 12
          then snd (add8 3 (foldl (fun s m => if isEmptyBranch m i then s
                                              else snd (add8 m (snd (add256 (getChildHash m i) s))))
                              s (seqZ 0 16)))
          else snd (add8 2 (foldl (fun s h => snd (add256 h s)) s (mHashes i))))
  end.

Definition addRaw_leaf (format : SHANodeFormat) (it : SHAMapItem) (type : TNType) (hash : Z) (s : Blob) : Blob :=
  match format with
  | snfHASH => snd (add256 hash s)
  | snfPREFIX =>
      match type with
      | tnACCOUNT_STATE =>
          snd (add256 (key it) (snd (addRaw (data it) (snd (add32 prefix_leafNode s)))))
      | tnTRANSACTION_NM => snd (addRaw (data it) (snd (add32 prefix_transactionID s)))
      | tnTRANSACTION_MD =>
          snd (add256 (key it) (snd (addRaw (data it) (snd (add32 prefix_txNode s)))))
      end
  | snfWIRE =>
      match type with
      | tnACCOUNT_STATE => snd (add8 1 (snd (add256 (key it) (snd (addRaw (data it) s)))))
      | tnTRANSACTION_NM => snd (add8 0 (snd (addRaw (data it) s)))
      | tnTRANSACTION_MD => snd (add8 4 (snd (add256 (key it) (snd (addRaw (data it) s)))))
      end
  end.

Definition addNodeRaw (format : SHANodeFormat) (n : node) (s : Blob) : result Blob :=
  match n with
  | TreeNode it ty h _ => Ok (addRaw_leaf format it ty h s)
  | InnerNode i => addRaw_inner format i s
  end.

(** ** Reading *)

(** [Serializer::get256]. *)
Definition get256 (offset : Z) (s : Blob) : option Z := be_value <$> getRaw offset 32 s.

(** A leaf, with its hash given or computed. *)
Definition read_leaf (it : SHAMapItem) (type : TNType) (seq hash : Z) (hashValid : bool) : result node :=
  if hashValid then make_leaf_hashed it type seq hash else make_leaf it type seq.

(** [mHashes[pos] = h], and the branch is there when [h] is not zero. *)
Definition read_hash (pos : Z) (h : Z) (i : inner node) : inner node :=
  mkInner (iHash i) (iSeq i) (<[Z.to_nat pos := h]> (mHashes i)) (mChildren i)
    (if h =? 0 then mIsBranch i else Z.lor (mIsBranch i) (Z.shiftl 1 pos)).

Definition read_inner (i : inner node) (hash : Z) (hashValid : bool) : node :=
  InnerNode (if hashValid then mkInner hash (iSeq i) (mHashes i) (mChildren i) (mIsBranch i)
             else updateHash_inner i).

(** The sixteen hashes of a full inner node; a hash that is not read stays. *)
Definition read_full (s : Blob) (seq : Z) : inner node :=
  foldl (fun i m => match get256 (m * 32) s with
                    | Some h => read_hash m h i
                    | None => i
                    end) (newInner seq) (seqZ 0 16).

Definition read_compressed (s : Blob) (seq : Z) : result (inner node) :=
  foldM (fun i m =>
    match get8 (32 + m * 33) s with
    | None => Throw "short CI node"
    | Some pos =>
        if (pos <? 0) || (16 <=? pos) then Throw "invalid CI node"
        else Ok (match get256 (m * 33) s with Some h => read_hash pos h i | None => i end)
    end) (newInner seq) (seqZ 0 (size s / 33)).

(** A leaf whose data are followed by its key. *)
Definition read_keyed (s : Blob) (type : TNType) (check : bool) (short invalid : string) (seq hash : Z)
    (hashValid : bool) : result node :=
  if size s <? 32 then Throw short
  else
    let u := default 0 (get256 (size s - 32) s) in
    let d := default s (chop 32 s) in
    if check && (u =? 0) then Throw invalid
    else read_leaf (mkItem u d) type seq hash hashValid.

Definition just (r : result node) : result (option node) := n ← r; Ok (Some n).

(** [SHAMapAbstractNode::make]; [None] is a null pointer. *)
Definition make (rawNode : Blob) (seq : Z) (format : SHANodeFormat) (hash : Z) (hashValid : bool)
    : result (option node) :=
  match format with
  | snfWIRE =>
      match list.last rawNode with
      | None => Ok None
      | Some type =>
          let s := take (length rawNode - 1) rawNode in
          if (type <? 0) || (4 <? type) then Ok None
          else if type =? 0 then
            just (read_leaf (mkItem (sha512Half (be_bytes 4 prefix_transactionID ++ s)) s)
                       tnTRANSACTION_NM seq hash hashValid)
          else if type =? 1 then
            just (read_keyed s tnACCOUNT_STATE true "short AS node" "invalid AS node" seq hash hashValid)
          else if type =? 2 then
            if negb (size s =? 512) then Throw "invalid FI node"
            else Ok (Some (read_inner (read_full s seq) hash hashValid))
          else if type =? 3 then
            i ← read_compressed s seq; Ok (Some (read_inner i hash hashValid))
          else
            just (read_keyed s tnTRANSACTION_MD true "short TM node" "invalid TM node" seq hash hashValid)
      end
  | snfPREFIX =>
      if size rawNode <? 4 then Throw "invalid P node"
      else
        let prefix := be_value (take 4 rawNode) in
        let s := drop 4 rawNode in
        if prefix =? prefix_transactionID then
          just (read_leaf (mkItem (sha512Half rawNode) s) tnTRANSACTION_NM seq hash hashValid)
        else if prefix =? prefix_leafNode then
          just (read_keyed s tnACCOUNT_STATE true "short PLN node" "invalid PLN node" seq hash hashValid)
        else if prefix =? prefix_innerNode then
          if negb (size s =? 512) then Throw "invalid PIN node"
          else Ok (Some (read_inner (read_full s seq) hash hashValid))
        else if prefix =? prefix_txNode then
          just (read_keyed s tnTRANSACTION_MD false "short TXN node" "" seq hash hashValid)
        else Throw "invalid node prefix"
  | snfHASH => _ ← Keylet.assert false; Throw "Unknown format"
  end.

End nodes.
End ShaNode.
