(* ===== verification/ShaMap.v ===== *)
(** * The hash tree

    [SHAMap] (shamap/SHAMap.h, shamap/impl/SHAMap.cpp, SHAMapDelta.cpp): a radix
    tree of fan-out 16 over 256-bit keys whose nodes carry the hashes of what is
    below them.  A node that another map may hold is cloned before it is changed
    ([unshareNode]), so the tree of a map is a value here; the sequence numbers
    by which the code knows which nodes it may change are kept.  A child that is
    not in memory is read from the node store [db], which holds nodes in their
    prefixed form by hash; the cache of nodes in front of the store and the
    hooking up of a node that was read only save reads and are left out.  The
    stacks of pending nodes of [walkSubTree], [walkBranch] and [compare] are the
    recursions below: what is pushed last is taken first. *)

From stdpp Require Import base tactics numbers list strings option gmap.
From S2P Require Import Prelude Serializer View Indexes ShaNode.

Module ShaMap.
Import Serializer ShaNode.

Inductive SHAMapState := Modifying | Immutable | Synching | Floating | Invalid.

#[export] Instance SHAMapState_eq_dec : EqDecision SHAMapState.
Proof. solve_decision. Defined.

Record t := mk { root_ : node; seq_ : Z; state_ : SHAMapState; backed_ : bool }.

Definition set_root (r : node) (m : t) : t := mk r (seq_ m) (state_ m) (backed_ m).
Definition set_state (s : SHAMapState) (m : t) : t := mk (root_ m) (seq_ m) s (backed_ m).

Abbreviation Stack := (list (node * NodeID.t)).

(** The levels of the tree below the root, and the root. *)
Definition levels : nat := 65.

Section map.
Context `{Build} {SHA : SHA512Half}.

Definition make_map (seq : Z) : result t :=
  _ ← Keylet.assert (negb (seq =? 0));
  Ok (mk (InnerNode (newInner seq)) seq Modifying true).

Definition setImmutable (m : t) : result t :=
  _ ← Keylet.assert (negb (bool_decide (state_ m = Invalid)));
  Ok (set_state Immutable m).
Definition isSynching (m : t) : bool :=
  bool_decide (state_ m = Floating) || bool_decide (state_ m = Synching).
Definition setSynching (m : t) : t := set_state Synching m.
Definition clearSynching (m : t) : t := set_state Modifying m.
Definition isValid (m : t) : bool := negb (bool_decide (state_ m = Invalid)).
Definition setUnbacked (m : t) : t := mk (root_ m) (seq_ m) (state_ m) false.

Section store.
Context (db : gmap Z Blob).

(** [fetchNodeFromDB]; an object that cannot be read is as good as missing. *)
Definition fetchNodeNT (hash : Z) (backed : bool) : option node :=
  if backed then
    match db !! hash with
    | Some obj => match make obj 0 snfPREFIX hash true with Ok n => n | _ => None end
    | None => None
    end
  else None.

(** [descendThrow] on a branch that is not empty. *)
Definition descendThrow (parent : inner node) (branch : Z) (backed : bool) : result node :=
  match getChild branch parent with
  | Some n => Ok n
  | None => match fetchNodeNT (getChildHash branch parent) backed with
            | Some n => Ok n
            | None => Throw "SHAMapMissingNode"
            end
  end.

(** ** Walking down *)

Fixpoint getStack_from (fuel : nat) (id : Z) (include_nonmatching_leaf : bool) (n : node) (nodeID : NodeID.t)
    (stack : Stack) (backed : bool) : result Stack :=
  match fuel with
  | O => OutOfFuel
  | S fuel =>
      match n with
      | InnerNode inner =>
          let stack := (n, nodeID) :: stack in
          let branch := NodeID.selectBranch id nodeID in
          if isEmptyBranch branch inner then Ok stack
          else
            n ← descendThrow inner branch backed;
            getStack_from fuel id include_nonmatching_leaf n (NodeID.getChildNodeID branch nodeID) stack backed
      | TreeNode it _ _ _ =>
          Ok (if include_nonmatching_leaf || (key it =? id) then (n, nodeID) :: stack else stack)
      end
  end.

(** The top of the stack is the head. *)
Definition getStack (id : Z) (include_nonmatching_leaf : bool) (m : t) : result Stack :=
  getStack_from levels id include_nonmatching_leaf (root_ m) NodeID.root [] (backed_ m).

(** A leaf found: its item, type and hash. *)
Definition leaf : Type := SHAMapItem * TNType * Z.

Fixpoint walk_from (fuel : nat) (id : Z) (n : node) (nodeID : NodeID.t) (backed : bool) : result (option leaf) :=
  match fuel with
  | O => OutOfFuel
  | S fuel =>
      match n with
      | InnerNode inner =>
          let branch := NodeID.selectBranch id nodeID in
          if isEmptyBranch branch inner then Ok None
          else n ← descendThrow inner branch backed; walk_from fuel id n (NodeID.getChildNodeID branch nodeID) backed
      | TreeNode it ty h _ => Ok (if key it =? id then Some (it, ty, h) else None)
      end
  end.

Definition walkToPointer (id : Z) (m : t) : result (option leaf) := walk_from levels id (root_ m) NodeID.root (backed_ m).

Definition item_of (l : option leaf) : option SHAMapItem := match l with Some x => Some x.1.1 | None => None end.

Definition fetch (id : Z) (m : t) : result (option SHAMapItem) := l ← walkToPointer id m; Ok (item_of l).
Definition peekItem (id : Z) (m : t) : result (option SHAMapItem) := l ← walkToPointer id m; Ok (item_of l).
Definition peekItem_hash (id : Z) (m : t) : result (option (SHAMapItem * Z)) :=
  l ← walkToPointer id m;
  Ok (match l with Some x => Some (x.1.1, x.2) | None => None end).
Definition hasItem (id : Z) (m : t) : result bool := l ← walkToPointer id m; Ok (bool_decide (is_Some l)).

(** The first of the branches that is not empty. *)
Definition first_branch (branches : list Z) (inner : inner node) : option Z :=
  head (filter (fun b => isEmptyBranch b inner = false) branches).

(** [firstBelow] and [lastBelow] go down the first branch of this order. *)
Fixpoint endBelow (order : list Z) (fuel : nat) (n : node) (backed : bool) : result (option leaf) :=
  match fuel with
  | O => OutOfFuel
  | S fuel =>
      match n with
      | TreeNode it ty h _ => Ok (Some (it, ty, h))
      | InnerNode inner =>
          match first_branch order inner with
          | Some b => n ← descendThrow inner b backed; endBelow order fuel n backed
          | None => Ok None
          end
      end
  end.

Definition firstBelow (n : node) (backed : bool) : result (option leaf) := endBelow (seqZ 0 16) levels n backed.
Definition lastBelow (n : node) (backed : bool) : result (option leaf) :=
  endBelow (reverse (seqZ 0 16)) levels n backed.

(** The item below the node if there is only one. *)
Fixpoint onlyBelow (fuel : nat) (n : node) (backed : bool) : result (option SHAMapItem) :=
  match fuel with
  | O => OutOfFuel
  | S fuel =>
      match n with
      | TreeNode it _ _ _ => Ok (Some it)
      | InnerNode inner =>
          match filter (fun b => isEmptyBranch b inner = false) (seqZ 0 16) with
          | [] => _ ← Keylet.assert false; Ok None
          | [b] => n ← descendThrow inner b backed; onlyBelow fuel n backed
          | b :: _ => _ ← descendThrow inner b backed; Ok None
          end
      end
  end.

Definition peekFirstItem (m : t) : result (option SHAMapItem) := l ← firstBelow (root_ m) (backed_ m); Ok (item_of l).
Definition peekLastItem (m : t) : result (option SHAMapItem) := l ← lastBelow (root_ m) (backed_ m); Ok (item_of l).

(** Up the stack, to a leaf [beyond] the key or to the first of the branches
    beyond the one of the key, which are [beside] it in this order. *)
Fixpoint seek (beyond : Z -> Z -> bool) (beside : Z -> list Z) (end_ : node -> bool -> result (option leaf))
    (missing : string) (id : Z) (stack : Stack) (backed : bool) : result (option SHAMapItem) :=
  match stack with
  | [] => Ok None
  | (TreeNode it _ _ _, _) :: stack =>
      if beyond id (key it) then Ok (Some it) else seek beyond beside end_ missing id stack backed
  | (InnerNode inner, nodeID) :: stack =>
      match first_branch (beside (NodeID.selectBranch id nodeID)) inner with
      | Some i =>
          n ← descendThrow inner i backed;
          l ← end_ n backed;
          match l with
          | None => Throw missing
          | Some l => Ok (Some l.1.1)
          end
      | None => seek beyond beside end_ missing id stack backed
      end
  end.

Definition after (b : Z) : list Z := seqZ (b + 1) (15 - b).
Definition before (b : Z) : list Z := reverse (seqZ 0 b).

Definition peekNextItem (id : Z) (m : t) : result (option SHAMapItem) :=
  stack ← getStack id true m; seek Z.ltb after firstBelow "SHAMapMissingNode" id stack (backed_ m).

Definition peekPrevItem (id : Z) (m : t) : result (option SHAMapItem) :=
  stack ← getStack id true m; seek Z.gtb before lastBelow "null" id stack (backed_ m).

(** ** Changing *)

(** The node, as one that this map may change. *)
Definition unshareNode (n : node) (m : t) : result node :=
  _ ← Keylet.assert (getSeq n <=? seq_ m);
  if negb (getSeq n =? seq_ m)
  then _ ← Keylet.assert (negb (bool_decide (state_ m = Immutable))); Ok (clone (seq_ m) n)
  else Ok n.

(** The inner node on the stack, unshared and with its branch towards [target]
    set. *)
Definition set_towards (target : Z) (child : option node) (n : node) (nodeID : NodeID.t) (m : t)
    : result (inner node) :=
  _ ← Keylet.assert (isInner n);
  n ← unshareNode n m;
  match n with
  | InnerNode i => setChild (NodeID.selectBranch target nodeID) child i
  | TreeNode _ _ _ _ => Throw "null"
  end.

Fixpoint dirty_up (target : Z) (child : node) (stack : Stack) (m : t) : result node :=
  match stack with
  | [] => Ok child
  | (n, nodeID) :: stack =>
      i ← set_towards target (Some child) n nodeID m;
      dirty_up target (InnerNode i) stack m
  end.

(** The new root. *)
Definition dirtyUp (stack : Stack) (target : Z) (child : node) (m : t) : result node :=
  _ ← Keylet.assert (negb (bool_decide (state_ m = Synching)) && negb (bool_decide (state_ m = Immutable)));
  _ ← Keylet.assert (getSeq child =? seq_ m);
  dirty_up target child stack m.

(** Up from a node that may have lost its last children but one. *)
Fixpoint del_up (id : Z) (type : TNType) (prevNode : option node) (stack : Stack) (m : t) : result node :=
  match stack with
  | [] => Ok (default (root_ m) prevNode)
  | (n, nodeID) :: stack =>
      i ← set_towards id prevNode n nodeID m;
      if NodeID.isRoot nodeID then del_up id type (Some (InnerNode i)) stack m
      else
        let bc := getBranchCount i in
        if bc =? 0 then del_up id type None stack m
        else if bc =? 1 then
          item ← onlyBelow levels (InnerNode i) (backed_ m);
          match item with
          | Some item => n ← make_leaf item type (iSeq i); del_up id type (Some n) stack m
          | None => del_up id type (Some (InnerNode i)) stack m
          end
        else del_up id type (Some (InnerNode i)) stack m
  end.

(** [delItem] with the path to the item. *)
Definition del_at (id : Z) (m : t) (stack : Stack) : result (bool * t) :=
  match stack with
  | [] => Throw "SHAMapMissingNode"
  | (TreeNode it type _ _, _) :: stack =>
      if negb (key it =? id) then Ok (false, m)
      else r ← del_up id type None stack m; Ok (true, set_root r m)
  | (InnerNode _, _) :: _ => Ok (false, m)
  end.

Definition delItem (id : Z) (m : t) : result (bool * t) :=
  _ ← Keylet.assert (negb (bool_decide (state_ m = Immutable)));
  stack ← getStack id true m;
  del_at id m stack.

Definition leaf_type (isTransaction hasMeta : bool) : TNType :=
  if negb isTransaction then tnACCOUNT_STATE else if hasMeta then tnTRANSACTION_MD else tnTRANSACTION_NM.

(** New inner nodes down to where the two keys part. *)
Fixpoint split (fuel : nat) (tag other : Z) (nodeID : NodeID.t) (seq : Z) (stack : Stack) (m : t)
    : result (Z * Z * inner node * Stack) :=
  match fuel with
  | O => OutOfFuel
  | S fuel =>
      let b1 := NodeID.selectBranch tag nodeID in
      let b2 := NodeID.selectBranch other nodeID in
      if b1 =? b2
      then split fuel tag other (NodeID.getChildNodeID b1 nodeID) (seq_ m) ((InnerNode (newInner seq), nodeID) :: stack) m
      else Ok (b1, b2, newInner seq, stack)
  end.

(** The two leaves where the keys part; [n] is the leaf that was there. *)
Definition add_parted (item otherItem : SHAMapItem) (type : TNType) (n : node) (m : t)
    (parted : Z * Z * inner node * Stack) : result (bool * t) :=
  let '(b1, b2, i, stack) := parted in
  newNode ← make_leaf item type (seq_ m);
  i ← setChild b1 (Some newNode) i;
  newNode ← make_leaf otherItem type (seq_ m);
  i ← setChild b2 (Some newNode) i;
  r ← dirtyUp stack (key item) (InnerNode i) m;
  (* a root that is a leaf has no parent to hang the new nodes on *)
  Ok (true, set_root (if isLeaf (root_ m) then n else r) m).

(** [addGiveItem] with the path to where the item belongs. *)
Definition add_at (item : SHAMapItem) (type : TNType) (m : t) (stack : Stack) : result (bool * t) :=
  let tag := key item in
  match stack with
  | [] => Throw "SHAMapMissingNode"
  | (InnerNode _ as n, nodeID) :: stack =>
      n ← unshareNode n m;
      match n with
      | InnerNode i =>
          let branch := NodeID.selectBranch tag nodeID in
          _ ← Keylet.assert (isEmptyBranch branch i);
          newNode ← make_leaf item type (seq_ m);
          i ← setChild branch (Some newNode) i;
          r ← dirtyUp stack tag (InnerNode i) m;
          Ok (true, set_root r m)
      | TreeNode _ _ _ _ => Throw "null"
      end
  | (TreeNode otherItem _ _ _ as n, nodeID) :: stack =>
      if key otherItem =? tag then Ok (false, m)
      else
        n ← unshareNode n m;
        parted ← split levels tag (key otherItem) nodeID (getSeq n) stack m;
        add_parted item otherItem type n m parted
  end.

Definition addGiveItem (item : SHAMapItem) (isTransaction hasMeta : bool) (m : t) : result (bool * t) :=
  _ ← Keylet.assert (negb (bool_decide (state_ m = Immutable)));
  stack ← getStack (key item) true m;
  add_at item (leaf_type isTransaction hasMeta) m stack.

Definition addItem (item : SHAMapItem) (isTransaction hasMetaData : bool) (m : t) : result (bool * t) :=
  addGiveItem item isTransaction hasMetaData m.

(** The path with another node at its end, and nothing else changed. *)
Fixpoint relink (target : Z) (child : node) (stack : Stack) : node :=
  match stack with
  | [] => child
  | (InnerNode i, nodeID) :: stack =>
      relink target (InnerNode (mkInner (iHash i) (iSeq i) (mHashes i)
        (<[Z.to_nat (NodeID.selectBranch target nodeID) := Some child]> (mChildren i)) (mIsBranch i))) stack
  | (n, _) :: stack => relink target n stack
  end.

(** [updateGiveItem] with the path to the item. *)
Definition update_at (item : SHAMapItem) (type : TNType) (m : t) (stack : Stack) : result (bool * t) :=
  let tag := key item in
  match stack with
  | [] => Throw "SHAMapMissingNode"
  | (TreeNode it ty h s as n, _) :: stack =>
      if negb (key it =? tag) then _ ← Keylet.assert false; Ok (false, m)
      else
        n' ← unshareNode n m;
        r ← setItem item type h (getSeq n');
        let '(changed, n') := r in
        if changed : bool then r ← dirtyUp stack tag n' m; Ok (true, set_root r m)
        else
          (* an unchanged hash: the leaf was changed in place if it is ours, else the clone is dropped *)
          Ok (true, if (s =? seq_ m) || bool_decide (stack = []) then set_root (relink tag n' stack) m else m)
  | (InnerNode _, _) :: _ => _ ← Keylet.assert false; Ok (false, m)
  end.

Definition updateGiveItem (item : SHAMapItem) (isTransaction hasMeta : bool) (m : t) : result (bool * t) :=
  _ ← Keylet.assert (negb (bool_decide (state_ m = Immutable)));
  stack ← getStack (key item) true m;
  update_at item (leaf_type isTransaction hasMeta) m stack.

(** ** Hashing and writing *)

Definition preFlushNode (n : node) (m : t) : result node :=
  _ ← Keylet.assert (negb (getSeq n =? 0));
  Ok (if negb (getSeq n =? seq_ m) then clone (seq_ m) n else n).

(** The store, and the nodes flushed so far. *)
Definition writeNode (n : node) (out : gmap Z Blob) (m : t) : result (node * gmap Z Blob) :=
  _ ← Keylet.assert (getSeq n =? seq_ m);
  let n := setSeq 0 n in
  raw ← addNodeRaw snfPREFIX n [];
  Ok (n, <[getNodeHash n := raw]> out).

Definition write_if (doWrite : bool) (n : node) (out : gmap Z Blob) (m : t) : result (node * gmap Z Blob) :=
  if doWrite && backed_ m then writeNode n out m else Ok (n, out).

Definition Flushed : Type := gmap Z Blob * Z.

(** The branch [pos] of an inner node that is ours; [down] flushes an inner
    child. *)
Definition flush_branch (down : inner node -> Flushed -> result (node * Flushed)) (doWrite : bool) (m : t)
    (acc : inner node * Flushed) (pos : Z) : result (inner node * Flushed) :=
  let '(node_, st) := acc in
  if isEmptyBranch pos node_ then Ok (node_, st)
  else
    match getChild pos node_ with
    | None => Ok (node_, st)
    | Some child =>
        if getSeq child =? 0 then Ok (node_, st)
        else
          child ← preFlushNode child m;
          match child with
          | InnerNode i =>
              r ← down i st;
              let '(n, st) := r in
              _ ← Keylet.assert (iSeq node_ =? seq_ m);
              node_ ← shareChild pos n node_;
              Ok (node_, st)
          | TreeNode _ _ _ _ =>
              _ ← Keylet.assert (iSeq node_ =? seq_ m);
              let child := (updateHash child).2 in
              r ← write_if doWrite child st.1 m;
              node_ ← shareChild pos r.1 node_;
              Ok (node_, (r.2, st.2 + 1))
          end
    end.

(** Flushing an inner node that is ours: its children first. *)
Fixpoint flush_inner (fuel : nat) (doWrite : bool) (node_ : inner node) (st : Flushed) (m : t)
    : result (node * Flushed) :=
  match fuel with
  | O => OutOfFuel
  | S fuel =>
      r ← foldM (flush_branch (fun i st => flush_inner fuel doWrite i st m) doWrite m) (node_, st) (seqZ 0 16);
      let '(node_, st) := r in
      r ← write_if doWrite (InnerNode (updateHashDeep node_)) st.1 m;
      Ok (r.1, (r.2, st.2 + 1))
  end.

(** The map, what was written, and how many nodes were flushed. *)
Definition walkSubTree (doWrite : bool) (out : gmap Z Blob) (m : t) : result (t * Flushed) :=
  if getSeq (root_ m) =? 0 then Ok (m, (out, 0))
  else
    match root_ m with
    | TreeNode _ _ _ _ =>
        n ← preFlushNode (root_ m) m;
        r ← write_if doWrite n out m;
        Ok (set_root r.1 m, (r.2, 1))
    | InnerNode i =>
        if isEmpty i then Ok (m, (out, 0))
        else
          n ← preFlushNode (root_ m) m;
          match n with
          | InnerNode i => r ← flush_inner levels doWrite i (out, 0) m; Ok (set_root r.1 m, r.2)
          | TreeNode _ _ _ _ => Throw "null"
          end
    end.

Definition unshare (m : t) : result t := r ← walkSubTree false ∅ m; Ok r.1.

Definition getHash (m : t) : result (Z * t) :=
  let hash := getNodeHash (root_ m) in
  if hash =? 0 then m ← unshare m; Ok (getNodeHash (root_ m), m) else Ok (hash, m).

Definition snapShot (isMutable : bool) (m : t) : result t :=
  let newMap := mk (root_ m) (u32 (seq_ m + 1)) (if isMutable then Modifying else Immutable) true in
  if negb (bool_decide (state_ m = Immutable)) || negb isMutable then unshare newMap else Ok newMap.

Definition fetchRoot (hash : Z) (m : t) : result (bool * t) :=
  if hash =? getNodeHash (root_ m) then Ok (true, m)
  else
    match fetchNodeNT hash (backed_ m) with
    | Some newRoot => _ ← Keylet.assert (getNodeHash newRoot =? hash); Ok (true, set_root newRoot m)
    | None => Ok (false, m)
    end.

End store.

(** The store after the dirty nodes were written. *)
Definition flushDirty (db : gmap Z Blob) (m : t) : result (Z * t * gmap Z Blob) :=
  r ← walkSubTree true db m;
  Ok (r.2.2, r.1, r.2.1).

End map.
End ShaMap.
