(* ===== verification/ShaTree.v ===== *)
(** * What a hash tree holds

    The relation between the nodes of a [SHAMap] and the finite map they hold:
    at depth [d] the items are sorted into branches by digit [d] of their key,
    a branch with one item is a leaf, one with more an inner node, and hashes
    are zero or those of what is below.  The reading operations are those of the
    finite map. *)

From stdpp Require Import base tactics numbers list strings option gmap sorting.
From S2P Require Import Prelude Serializer View Indexes ShaNode ShaMap.

Module ShaTree.
Import Serializer ShaNode ShaMap.

(** ** Digits of keys *)

Definition is_key (k : Z) : Prop := 0 <= k < 2 ^ 256.

(** The [d]-th hexadecimal digit from the top, and the digits above it. *)
Definition nib (d : nat) (k : Z) : Z := (k / 16 ^ (63 - Z.of_nat d)) mod 16.
Definition pre (d : nat) (k : Z) : Z := k / 16 ^ (64 - Z.of_nat d).

Lemma nib_range d k : 0 <= nib d k < 16.
Proof. apply Z.mod_pos_bound. lia. Qed.

Lemma be_bytes_lookup n k j : (j < n)%nat ->
  be_bytes n k !! j = Some ((k / 256 ^ (Z.of_nat n - 1 - Z.of_nat j)) mod 256).
Proof.
  revert k. induction n as [|n IH]; intros k Hj; [lia|]. cbn [be_bytes].
  destruct (decide (j = n)) as [->|Hne].
  - rewrite lookup_app_r by (by rewrite length_be_bytes). rewrite length_be_bytes, Nat.sub_diag. simpl.
    rewrite land_255. do 2 f_equal. replace (Z.of_nat (S n) - 1 - Z.of_nat n) with 0 by lia.
    by rewrite Z.pow_0_r, Z.div_1_r.
  - rewrite lookup_app_l by (rewrite length_be_bytes; lia). rewrite IH by lia. f_equal. f_equal.
    rewrite shiftr_8, Z.div_div by lia. f_equal. rewrite <- Z.pow_succ_r by lia. f_equal. lia.
Qed.

Lemma select_nib k id : (NodeID.mDepth id < 64)%nat -> NodeID.selectBranch k id = nib (NodeID.mDepth id) k.
Proof.
  intros Hd. unfold NodeID.selectBranch, NodeID.byte_at, nib. set (d := NodeID.mDepth id) in *.
  pose proof (Nat.div2_odd d) as Hodd. set (j := Nat.div2 d) in *.
  assert (Hj : (j < 32)%nat) by (destruct (Nat.odd d); simpl in *; lia).
  assert (be_bytes 32 k !!! j = (k / 256 ^ (31 - Z.of_nat j)) mod 256) as ->
    by (apply list_lookup_total_correct; by apply (be_bytes_lookup 32)).
  destruct (Nat.odd d); simpl in Hodd.
  - replace (63 - Z.of_nat d) with (2 * (31 - Z.of_nat j)) by lia. rewrite Z.pow_mul_r by lia.
    change (16 ^ 2) with 256. change 15 with (Z.ones 4). rewrite Z.land_ones by lia. change (2 ^ 4) with 16.
    set (q := k / 256 ^ (31 - Z.of_nat j)). change 256 with (16 * 16). rewrite Z.rem_mul_r by lia.
    rewrite (Z.mul_comm 16 (_ mod 16)), Z.mod_add by lia. apply Z.mod_mod. lia.
  - replace (63 - Z.of_nat d) with (Z.succ (2 * (31 - Z.of_nat j))) by lia.
    rewrite Z.pow_succ_r, Z.pow_mul_r by lia. change (16 ^ 2) with 256. rewrite Z.shiftr_div_pow2 by lia.
    change (2 ^ 4) with 16. rewrite (Z.mul_comm 16), <- Z.div_div by lia.
    set (q := k / 256 ^ (31 - Z.of_nat j)). change 256 with (16 * 16). rewrite Z.rem_mul_r by lia.
    rewrite (Z.mul_comm 16 (_ mod 16)), Z.div_add by lia. rewrite Z.div_small by (apply Z.mod_pos_bound; lia). lia.
Qed.

Lemma select_range k id : (NodeID.mDepth id < 64)%nat -> 0 <= NodeID.selectBranch k id < 16.
Proof. intros. rewrite select_nib by done. apply nib_range. Qed.

Lemma pre_0 k : is_key k -> pre 0 k = 0.
Proof. intros Hk. unfold pre. apply Z.div_small. done. Qed.

Lemma pre_64 k : pre 64 k = k.
Proof. unfold pre. apply Z.div_1_r. Qed.

Lemma pre_S d k : (d < 64)%nat -> pre (S d) k = pre d k * 16 + nib d k.
Proof.
  intros Hd. unfold pre, nib. replace (64 - Z.of_nat (S d)) with (63 - Z.of_nat d) by lia.
  replace (64 - Z.of_nat d) with (Z.succ (63 - Z.of_nat d)) by lia. rewrite Z.pow_succ_r by lia.
  rewrite (Z.mul_comm 16 (16 ^ _)), <- Z.div_div by (try apply Z.pow_nonzero; lia).
  pose proof (Z.div_mod (k / 16 ^ (63 - Z.of_nat d)) 16). lia.
Qed.

(** A smaller prefix means a smaller key. *)
Lemma pre_lt d k k' : pre d k < pre d k' -> k < k'.
Proof.
  unfold pre. intros Hlt. destruct (Z.lt_ge_cases k k') as [|Hge]; [done|].
  pose proof (Z.div_le_mono k' k (16 ^ (64 - Z.of_nat d))) as Hm.
  destruct (Z.le_gt_cases 0 (64 - Z.of_nat d)) as [Hp|Hp].
  - pose proof (Z.pow_pos_nonneg 16 _ ltac:(lia) Hp). lia.
  - rewrite Z.pow_neg_r in Hlt by lia. rewrite !Z.div_0_r in Hlt. lia.
Qed.

(** ** Parts of a map *)

Abbreviation Items := (gmap Z Blob).

Definition part (d : nat) (b : Z) (x : Items) : Items := filter (fun e => nib d e.1 = b) x.

Lemma lookup_part d b x k : part d b x !! k = if decide (nib d k = b) then x !! k else None.
Proof.
  unfold part. destruct (x !! k) as [v|] eqn:Hk.
  - case_decide as Hb; [by apply map_lookup_filter_Some|]. apply map_lookup_filter_None. right. intros v' _. exact Hb.
  - assert (filter (fun e => nib d e.1 = b) x !! k = None) as -> by (apply map_lookup_filter_None; by left).
    by destruct (decide _).
Qed.

Lemma part_own d x k : part d (nib d k) x !! k = x !! k.
Proof. by rewrite lookup_part, decide_True. Qed.

Lemma part_insert d x k v : part d (nib d k) (<[k := v]> x) = <[k := v]> (part d (nib d k) x).
Proof.
  apply map_eq. intros j. rewrite lookup_part. destruct (decide (j = k)) as [->|Hne].
  - by rewrite !lookup_insert_eq, decide_True.
  - by rewrite !lookup_insert_ne, lookup_part.
Qed.

Lemma part_insert_ne d b x k v : b <> nib d k -> part d b (<[k := v]> x) = part d b x.
Proof.
  intros Hb. apply map_eq. intros j. rewrite !lookup_part. case_decide as Hd; [|done].
  rewrite lookup_insert_ne; [done|]. intros ->. congruence.
Qed.

Lemma part_delete d x k : part d (nib d k) (delete k x) = delete k (part d (nib d k) x).
Proof.
  apply map_eq. intros j. rewrite lookup_part. destruct (decide (j = k)) as [->|Hne].
  - rewrite !lookup_delete_eq. by case_decide.
  - by rewrite !lookup_delete_ne, lookup_part.
Qed.

Lemma part_delete_ne d b x k : b <> nib d k -> part d b (delete k x) = part d b x.
Proof.
  intros Hb. apply map_eq. intros j. rewrite !lookup_part. case_decide as Hd; [|done].
  rewrite lookup_delete_ne; [done|]. intros ->. congruence.
Qed.

Lemma part_empty d b : part d b ∅ = ∅.
Proof. apply map_filter_empty. Qed.

Lemma part_single d j v : part d (nib d j) {[j := v]} = {[j := v]}.
Proof. rewrite <- insert_empty. by rewrite part_insert, part_empty. Qed.

Lemma part_single_ne d b j v : b <> nib d j -> part d b {[j := v]} = ∅.
Proof. intros Hb. rewrite <- insert_empty. by rewrite part_insert_ne, part_empty. Qed.

Lemma part_sub d b x : part d b x ⊆ x.
Proof. apply map_filter_subseteq. Qed.

(** All keys begin with [p]. *)
Definition within (d : nat) (p : Z) (x : Items) : Prop := forall k, is_Some (x !! k) -> is_key k /\ pre d k = p.

Lemma within_part d p b x : (d < 64)%nat -> within d p x -> within (S d) (p * 16 + b) (part d b x).
Proof.
  intros Hd Hx k [v Hk]. rewrite lookup_part in Hk. case_decide as Hb; [|done].
  destruct (Hx k ltac:(by exists v)) as [Hkey Hp]. split; [done|]. rewrite pre_S by done. congruence.
Qed.

Lemma within_64 p x : within 64 p x -> forall k v, x !! k = Some v -> x = {[k := v]}.
Proof.
  intros Hx k v Hk. apply map_eq. intros j. destruct (decide (j = k)) as [->|Hne].
  - by rewrite lookup_singleton_eq.
  - rewrite lookup_singleton_ne by done. destruct (x !! j) as [w|] eqn:Hj; [|done].
    destruct (Hx k ltac:(by exists v)) as [_ H1]. destruct (Hx j ltac:(by exists w)) as [_ H2].
    rewrite pre_64 in *. congruence.
Qed.

(** More than one item. *)
Definition several (x : Items) : Prop := exists j k, j <> k /\ is_Some (x !! j) /\ is_Some (x !! k).

(** ** Branches *)

Section branches.
Context `{Build} {SHA : SHA512Half}.

Lemma assert_ok b : b = true -> Keylet.assert b = Ok tt.
Proof. intros ->. unfold Keylet.assert. by destruct NDEBUG. Qed.

(** An assertion that holds is passed. *)
Lemma assert_pass {A} b (K : unit -> result A) : b = true -> (Keylet.assert b ≫= K) = K tt.
Proof. intros Hb. by rewrite assert_ok. Qed.

Lemma isEmptyBranch_bit b (i : inner node) : 0 <= b -> isEmptyBranch b i = negb (Z.testbit (mIsBranch i) b).
Proof. intros Hb. unfold isEmptyBranch. rewrite Z.shiftl_1_l. by apply land_bit. Qed.

(** The arrays have sixteen places and the mask sixteen bits. *)
Definition sixteen (i : inner node) : Prop :=
  length (mHashes i) = 16%nat /\ length (mChildren i) = 16%nat /\ 0 <= mIsBranch i < 2 ^ 16.

(** [setChild] where its assertions hold. *)
Definition set_child (b : Z) (child : option node) (i : inner node) : inner node :=
  mkInner 0 (iSeq i) (<[Z.to_nat b := 0]> (mHashes i)) (<[Z.to_nat b := child]> (mChildren i))
    (match child with Some _ => Z.lor | None => Z.ldiff end (mIsBranch i) (Z.shiftl 1 b)).

Lemma setChild_ok b child i : 0 <= b < 16 -> iSeq i <> 0 -> setChild b child i = Ok (set_child b child i).
Proof.
  intros Hb Hs. unfold setChild. rewrite assert_pass by (apply andb_true_iff; split; lia).
  by rewrite assert_pass by (by rewrite (proj2 (Z.eqb_neq _ _))).
Qed.

Lemma set_child_sixteen b child i : 0 <= b < 16 -> sixteen i -> sixteen (set_child b child i).
Proof.
  intros Hb (Hh & Hc & Hm). unfold sixteen, set_child. cbn [mHashes mChildren mIsBranch].
  rewrite !length_insert. split; [done|]. split; [done|]. rewrite Z.shiftl_1_l.
  assert (Hhi : forall z n, 0 <= z -> 0 <= n -> (forall j, n <= j -> Z.testbit z j = false) -> 0 <= z < 2 ^ n).
  { intros z n Hz Hn Hj. split; [done|]. destruct (Z.eq_dec z 0) as [->|Hz0]; [apply Z.pow_pos_nonneg; lia|].
    apply Z.log2_lt_pow2; [lia|]. destruct (Z.lt_ge_cases (Z.log2 z) n) as [|Hge]; [done|].
    pose proof (Z.bit_log2 z ltac:(lia)) as Hbit. rewrite (Hj _ Hge) in Hbit. done. }
  apply Hhi; [|lia|].
  - destruct child; [apply Z.lor_nonneg; split; [lia|apply Z.pow_nonneg; lia]|apply Z.ldiff_nonneg; left; lia].
  - intros j Hj. destruct child.
    + rewrite Z.lor_spec, Z.pow2_bits_false by lia. rewrite (testbit_high _ 16) by lia. done.
    + rewrite Z.ldiff_spec. by rewrite (testbit_high _ 16) by lia.
Qed.

Lemma set_child_empty b child b' i : 0 <= b < 16 -> 0 <= b' < 16 ->
  isEmptyBranch b' (set_child b child i) =
  if decide (b' = b) then match child with Some _ => false | None => true end else isEmptyBranch b' i.
Proof.
  intros Hb Hb'. rewrite !isEmptyBranch_bit by lia. unfold set_child. cbn [mIsBranch]. rewrite Z.shiftl_1_l.
  destruct (decide (b' = b)) as [->|Hne]; destruct child; rewrite ?Z.lor_spec, ?Z.ldiff_spec.
  - by rewrite Z.pow2_bits_true, orb_true_r by lia.
  - by rewrite Z.pow2_bits_true, andb_false_r by lia.
  - by rewrite Z.pow2_bits_false, orb_false_r by lia.
  - by rewrite Z.pow2_bits_false, andb_true_r by lia.
Qed.

Lemma place_insert {A} `{Inhabited A} (b b' : Z) (l : list A) v : 0 <= b < 16 -> 0 <= b' < 16 -> length l = 16%nat ->
  <[Z.to_nat b := v]> l !!! Z.to_nat b' = if decide (b' = b) then v else l !!! Z.to_nat b'.
Proof.
  intros Hb Hb' Hl. destruct (decide (b' = b)) as [->|Hne].
  - apply list_lookup_total_insert_eq. lia.
  - apply list_lookup_total_insert_ne. lia.
Qed.

Lemma set_child_child b child b' i : 0 <= b < 16 -> 0 <= b' < 16 -> sixteen i ->
  getChild b' (set_child b child i) = if decide (b' = b) then child else getChild b' i.
Proof. intros Hb Hb' (_ & Hc & _). unfold getChild, set_child. cbn [mChildren]. by apply place_insert. Qed.

Lemma set_child_hash b child b' i : 0 <= b < 16 -> 0 <= b' < 16 -> sixteen i ->
  getChildHash b' (set_child b child i) = if decide (b' = b) then 0 else getChildHash b' i.
Proof. intros Hb Hb' (Hh & _ & _). unfold getChildHash, set_child. cbn [mHashes]. by apply place_insert. Qed.

Lemma newInner_sixteen s : sixteen (newInner s).
Proof. done. Qed.

Lemma newInner_empty s b : 0 <= b < 16 -> isEmptyBranch b (newInner s) = true.
Proof. intros Hb. rewrite isEmptyBranch_bit by lia. simpl. by rewrite Z.bits_0. Qed.

Lemma newInner_at s b : 0 <= b < 16 -> getChild b (newInner s) = None /\ getChildHash b (newInner s) = 0.
Proof.
  intros Hb. unfold getChild, getChildHash. cbn [mChildren mHashes newInner].
  split; apply lookup_total_replicate_2; lia.
Qed.

Lemma isEmpty_spec i : sixteen i -> isEmpty i = true <-> forall b, 0 <= b < 16 -> isEmptyBranch b i = true.
Proof.
  intros (_ & _ & Hm). unfold isEmpty. rewrite Z.eqb_eq. split.
  - intros Hz b Hb. rewrite isEmptyBranch_bit by lia. by rewrite Hz, Z.bits_0.
  - intros Hb. apply Z.bits_inj'. intros n Hn. rewrite Z.bits_0. destruct (Z.lt_ge_cases n 16) as [Hlt|Hge].
    + specialize (Hb n ltac:(lia)). rewrite isEmptyBranch_bit in Hb by lia. by apply negb_true_iff in Hb.
    + apply (testbit_high _ 16); lia.
Qed.

End branches.

(** ** The relation *)

Section relation.
Context `{Build} {SHA : SHA512Half} (db : gmap Z Blob) (bk : bool) (ty : TNType) (sq : Z * Z).

(** [c] is the node of the branch [b]. *)
Definition child_at (i : inner node) (b : Z) (c : node) : Prop := descendThrow db i b bk = Ok c.

(** The hashes are those of what is below; [n] levels. *)
Fixpoint hashed (n : nat) (t : node) : Prop :=
  match t, n with
  | TreeNode it ty h _, _ => h = leaf_hash ty it
  | InnerNode i, O => False
  | InnerNode i, S n =>
      iHash i = iHash (updateHash_inner i) /\
      forall b, 0 <= b < 16 ->
        if isEmptyBranch b i then getChildHash b i = 0
        else exists c, child_at i b c /\ getChildHash b i = getNodeHash c /\ hashed n c
  end.

(** A node that is not the root: not empty, and inner only with several items. *)
Definition proper (c : node) (x : Items) : Prop := x <> ∅ /\ (isInner c = true -> several x).

(** The subtree [t] of [n] levels holds [x], in nodes of the sequences [sq]. *)
Fixpoint ok (n : nat) (t : node) (x : Items) : Prop :=
  match t, n with
  | TreeNode it ty' h s, _ =>
      ty' = ty /\ x = {[key it := data it]} /\ h = leaf_hash ty it /\ sq.1 <= s <= sq.2
  | InnerNode i, O => False
  | InnerNode i, S n' =>
      sixteen i /\ sq.1 <= iSeq i <= sq.2 /\
      (iHash i <> 0 \/ iSeq i = 0 -> hashed n t) /\
      forall b, 0 <= b < 16 ->
        if isEmptyBranch b i
        then part (63 - n') b x = ∅ /\ getChildHash b i = 0 /\ getChild b i = None
        else exists c, child_at i b c /\ ok n' c (part (63 - n') b x) /\ proper c (part (63 - n') b x) /\
             (getChild b i = None -> getNodeHash c = getChildHash b i /\ getSeq c = 0)
  end.

Lemma ok_seq n t x : ok n t x -> sq.1 <= getSeq t <= sq.2.
Proof. destruct t as [it ty' h s|i]; [by destruct n; intros (_ & _ & _ & ?)|]. destruct n; [done|]. by intros (_ & ? & _). Qed.

Lemma ok_leaf n it ty' h s x : ok n (TreeNode it ty' h s) x <->
  ty' = ty /\ x = {[key it := data it]} /\ h = leaf_hash ty it /\ sq.1 <= s <= sq.2.
Proof. by destruct n. Qed.

(** The branch of a key. *)
Lemma ok_branch n i x k : ok (S n) (InnerNode i) x ->
  if isEmptyBranch (nib (63 - n) k) i then x !! k = None
  else exists c, child_at i (nib (63 - n) k) c /\ ok n c (part (63 - n) (nib (63 - n) k) x) /\
       proper c (part (63 - n) (nib (63 - n) k) x).
Proof.
  intros (_ & _ & _ & Hb). specialize (Hb _ (nib_range (63 - n) k)). destruct (isEmptyBranch _ i).
  - destruct Hb as [Hb _]. rewrite <- (part_own (63 - n)), Hb. apply lookup_empty.
  - destruct Hb as (c & Hc & Ho & Hp & _). by exists c.
Qed.

(** ** Reading *)

Definition found (id : Z) (x : Items) : option leaf :=
  match x !! id with
  | Some d => Some (mkItem id d, ty, leaf_hash ty (mkItem id d))
  | None => None
  end.

Lemma walk_spec n : forall fuel id t nodeID x, (n < fuel)%nat -> (NodeID.mDepth nodeID = 64 - n)%nat -> (n <= 64)%nat ->
  ok n t x -> walk_from db fuel id t nodeID bk = Ok (found id x).
Proof.
  induction n as [|n IH]; intros [|fuel] id [it ty' h s|i] nodeID x Hf Hd Hn Ho; try lia; try done; cbn [walk_from].
  1-2: apply ok_leaf in Ho as (-> & -> & -> & _); unfold found; destruct (Z.eqb_spec (key it) id) as [<-|Hne];
    [rewrite lookup_singleton_eq; by destruct it|by rewrite lookup_singleton_ne].
  rewrite select_nib by lia. pose proof (ok_branch n i x id Ho) as Hb.
  replace (NodeID.mDepth nodeID) with (63 - n)%nat by lia. destruct (isEmptyBranch _ i).
  - unfold found. by rewrite Hb.
  - destruct Hb as (c & Hc & Hoc & _). rewrite Hc. cbn [mbind result_bind].
    rewrite (IH fuel id c _ (part (63 - n) (nib (63 - n) id) x)); [|lia|..|done].
    + unfold found. by rewrite part_own.
    + simpl. lia.
    + lia.
Qed.

(** *** Neighbours

    The first key in an order of the keys, in which the branches are taken. *)
Section order.
Context (R : Z -> Z -> Prop) (branches : list Z).
Context (R_refl : forall k, R k k).
Context (R_pre : forall d k j, pre d k <> pre d j -> R (pre d k) (pre d j) -> R k j).
Context (R_add : forall a b c, R b c -> R (a + b) (a + c)).
Context (all : forall b, b ∈ branches <-> 0 <= b < 16).
Context (sorted : StronglySorted R branches).

(** [r] is the first item of [x]. *)
Definition first_of (x : Items) (r : option leaf) : Prop :=
  match r with
  | Some l => found (key l.1.1) x = Some l /\ forall j, is_Some (x !! j) -> R (key l.1.1) j
  | None => x = ∅
  end.

(** The first branch of a list that is not empty. *)
Lemma first_branch_spec l i : StronglySorted R l ->
  match first_branch l i with
  | Some b => b ∈ l /\ isEmptyBranch b i = false /\ forall b', b' ∈ l -> isEmptyBranch b' i = false -> R b b'
  | None => forall b, b ∈ l -> isEmptyBranch b i = true
  end.
Proof.
  unfold first_branch. induction l as [|a l IH]; intros Hs; [by intros b ?%not_elem_of_nil|].
  apply StronglySorted_inv in Hs as [Hs Ha]. rewrite filter_cons. destruct (isEmptyBranch a i) eqn:He.
  - rewrite decide_False by done. specialize (IH Hs). destruct (list.head _) as [b|].
    + destruct IH as (Hb & Hne & Hm). split; [by right|]. split; [done|]. intros b' [->|Hb']%elem_of_cons Hb'e; [congruence|].
      by apply Hm.
    + intros b [->|Hb]%elem_of_cons; [done|]. by apply IH.
  - rewrite decide_True by done. simpl. split; [by left|]. split; [done|].
    intros b' [->|Hb']%elem_of_cons _; [apply R_refl|]. by apply (proj1 (list.Forall_forall _ _) Ha).
Qed.

(** Keys of different branches. *)
Lemma branch_order n p x j k : (n < 64)%nat -> within (63 - n) p x -> is_Some (x !! j) -> is_Some (x !! k) ->
  nib (63 - n) j <> nib (63 - n) k -> R (nib (63 - n) j) (nib (63 - n) k) -> R j k.
Proof.
  intros Hn Hw Hj Hk Hne Hr. destruct (Hw j Hj) as [_ Hpj]. destruct (Hw k Hk) as [_ Hpk].
  apply (R_pre (S (63 - n))); rewrite !pre_S by lia; rewrite Hpj, Hpk; [lia|]. by apply R_add.
Qed.

Lemma first_of_part n p x i b c r : (n < 64)%nat -> within (63 - n) p x -> ok (S n) (InnerNode i) x ->
  isEmptyBranch b i = false -> (forall b', 0 <= b' < 16 -> isEmptyBranch b' i = false -> R b b') ->
  proper c (part (63 - n) b x) -> first_of (part (63 - n) b x) r -> first_of x r.
Proof.
  intros Hn Hw Ho Hb Hm [Hne _] Hr. destruct r as [l|]; [|done]. destruct Hr as [Hl Hmin].
  assert (Hx : x !! key l.1.1 = part (63 - n) b x !! key l.1.1 /\ nib (63 - n) (key l.1.1) = b).
  { unfold found in Hl. rewrite lookup_part in *. by destruct (decide _). }
  destruct Hx as [Hx Hnib]. split; [unfold found in *; by rewrite Hx|]. intros j Hj.
  destruct (decide (nib (63 - n) j = b)) as [Hjb|Hjb].
  - apply Hmin. by rewrite lookup_part, decide_True.
  - eapply branch_order; [done|done|..|done|congruence|].
    + rewrite Hx. unfold found in Hl. by destruct (part _ _ _ !! _).
    + rewrite Hnib. apply Hm; [apply nib_range|]. pose proof (ok_branch n i x j Ho) as Hjo.
      destruct (isEmptyBranch (nib (63 - n) j) i); [|done]. destruct Hj as [? Hj]. congruence.
Qed.

Lemma end_spec n : forall fuel t x p, (n < fuel)%nat -> (n <= 64)%nat -> within (64 - n) p x -> ok n t x ->
  exists r, endBelow db branches fuel t bk = Ok r /\ first_of x r.
Proof.
  induction n as [|n IH]; intros [|fuel] [it ty' h s|i] x p Hf Hn Hw Ho; try lia; try done; cbn [endBelow].
  1-2: apply ok_leaf in Ho as (-> & -> & -> & _); eexists; (split; [done|]); cbn [first_of fst];
    unfold found; rewrite lookup_singleton_eq; (split; [by destruct it|]); intros j Hj;
    apply lookup_singleton_is_Some in Hj as ->; apply R_refl.
  pose proof (first_branch_spec branches i sorted) as Hfb. destruct (first_branch branches i) as [b|].
  - destruct Hfb as (Hb & Hne & Hm). apply all in Hb. pose proof Ho as (_ & _ & _ & Hbs). specialize (Hbs b Hb).
    rewrite Hne in Hbs. destruct Hbs as (c & Hc & Hoc & Hpc & _). rewrite Hc. cbn [mbind result_bind].
    replace (64 - S n)%nat with (63 - n)%nat in Hw by lia.
    assert (Hwp : within (64 - n) (p * 16 + b) (part (63 - n) b x)).
    { replace (64 - n)%nat with (S (63 - n)) by lia. apply within_part; [lia|done]. }
    destruct (IH fuel c _ _ ltac:(lia) ltac:(lia) Hwp Hoc) as (r & Hr & Hfr).
    exists r. split; [done|]. apply (first_of_part n p x i b c r); [lia|exact Hw|exact Ho|exact Hne| |exact Hpc|exact Hfr].
    intros b' Hb'. apply Hm. by apply all.
  - exists None. split; [done|]. simpl. apply map_eq. intros k. rewrite lookup_empty.
    pose proof (ok_branch n i x k Ho) as Hk. rewrite Hfb in Hk; [done|]. apply all, nib_range.
Qed.

(** The first item beyond a key. *)
Context (beyond : Z -> Z -> bool) (beside : Z -> list Z).
Context (beyond_R : forall k j, beyond k j = true <-> R k j /\ k <> j).
Context (R_total : forall k j, R k j \/ R j k).
Context (R_anti : forall k j, R k j -> R j k -> k = j).
Context (besides : forall b b', 0 <= b < 16 -> b' ∈ beside b <-> 0 <= b' < 16 /\ beyond b b' = true).
Context (sorted_beside : forall b, StronglySorted R (beside b)).

Definition first_beyond (id : Z) (x : Items) (r : option SHAMapItem) : Prop :=
  match r with
  | Some it => x !! key it = Some (data it) /\ beyond id (key it) = true /\
               forall j, is_Some (x !! j) -> beyond id j = true -> R (key it) j
  | None => forall j, is_Some (x !! j) -> beyond id j = false
  end.

Abbreviation seek_ := (seek db beyond beside (endBelow db branches levels)).

(** The node on the stack whose branch of the key is done. *)
Lemma seek_inner n i x p id nodeID stack missing : (n < 64)%nat -> (NodeID.mDepth nodeID = 63 - n)%nat ->
  within (63 - n) p x -> ok (S n) (InnerNode i) x -> is_key id -> pre (63 - n) id = p ->
  (forall j, is_Some (x !! j) -> nib (63 - n) j = nib (63 - n) id -> beyond id j = false) ->
  exists r, first_beyond id x r /\
    seek_ missing id ((InnerNode i, nodeID) :: stack) bk =
    match r with Some it => Ok (Some it) | None => seek_ missing id stack bk end.
Proof.
  intros Hn Hd Hw Ho Hid Hp Hown. cbn [seek]. rewrite select_nib by lia. rewrite Hd.
  pose proof (nib_range (63 - n) id) as Hb0. set (b0 := nib (63 - n) id) in *.
  (* keys are beyond exactly when their branches are *)
  assert (Hbey : forall j, is_Some (x !! j) -> nib (63 - n) j <> b0 -> beyond id j = beyond b0 (nib (63 - n) j)).
  { intros j Hj Hne. destruct (Hw j Hj) as [_ Hpj]. apply eq_true_iff_eq. rewrite !beyond_R.
    assert (Hpre : forall a c, pre (63 - n) a = pre (63 - n) c -> nib (63 - n) a <> nib (63 - n) c ->
      R (nib (63 - n) a) (nib (63 - n) c) -> R a c).
    { intros a c Hac Hne' Hr. apply (R_pre (S (63 - n))); rewrite !pre_S by lia; rewrite Hac; [lia|]. by apply R_add. }
    split; intros [Hr Hx].
    - split; [|done]. destruct (R_total b0 (nib (63 - n) j)) as [|Hc]; [done|]. exfalso. apply Hx.
      apply R_anti; [done|]. apply Hpre; [congruence|done|done].
    - split; [|intros ->; done]. apply Hpre; [congruence|done|done]. }
  pose proof (first_branch_spec (beside b0) i (sorted_beside b0)) as Hfb.
  destruct (first_branch (beside b0) i) as [b|].
  - destruct Hfb as (Hb & Hne & Hm). apply (besides b0 b Hb0) in Hb as [Hb Hbb].
    pose proof Ho as (_ & _ & _ & Hbs). specialize (Hbs b Hb). rewrite Hne in Hbs.
    destruct Hbs as (c & Hc & Hoc & Hpc & _). rewrite Hc. cbn [mbind result_bind].
    assert (Hwp : within (64 - n) (p * 16 + b) (part (63 - n) b x)).
    { replace (64 - n)%nat with (S (63 - n)) by lia. apply within_part; [lia|done]. }
    destruct (end_spec n levels c _ _ ltac:(unfold levels; lia) ltac:(lia) Hwp Hoc) as (r & -> & Hfr).
    cbn [mbind result_bind]. destruct r as [l|]; [|by destruct Hpc]. destruct Hfr as [Hl Hmin].
    exists (Some l.1.1). split; [|done].
    assert (Hx : x !! key l.1.1 = Some (data l.1.1) /\ nib (63 - n) (key l.1.1) = b).
    { unfold found in Hl. rewrite lookup_part in *. destruct (decide _); [|done]. split; [|done].
      destruct (x !! key l.1.1); [|done]. injection Hl as <-. done. }
    destruct Hx as [Hx Hnb]. assert (Hbne : b <> b0) by (apply beyond_R in Hbb as [_ ?]; congruence).
    split; [done|]. split.
    + rewrite Hbey; [by rewrite Hnb|by exists (data l.1.1)|congruence].
    + intros j Hj Hjb. destruct (decide (nib (63 - n) j = b)) as [Hjn|Hjn].
      * apply Hmin. by rewrite lookup_part, decide_True.
      * destruct (decide (nib (63 - n) j = b0)) as [Hj0|Hj0]; [by rewrite (Hown j Hj Hj0) in Hjb|].
        rewrite (Hbey j Hj Hj0) in Hjb.
        apply (branch_order n p x); [exact Hn|exact Hw|by exists (data l.1.1)|exact Hj|congruence|].
        rewrite Hnb. apply Hm; [apply (besides b0 _ Hb0); split; [apply nib_range|done]|].
        pose proof (ok_branch n i x j Ho) as Hjo.
        destruct (isEmptyBranch (nib (63 - n) j) i); [|done]. destruct Hj as [? Hj]. congruence.
  - exists None. split; [|done]. intros j Hj. destruct (decide (nib (63 - n) j = b0)) as [Hj0|Hj0]; [by apply Hown|].
    rewrite (Hbey j Hj Hj0). apply not_true_is_false. intros Hbb.
    pose proof (ok_branch n i x j Ho) as Hjo. rewrite Hfb in Hjo; [|apply (besides b0 _ Hb0); split; [apply nib_range|done]].
    destruct Hj as [? Hj]. congruence.
Qed.

Lemma seek_spec n : forall fuel t x p id nodeID stack missing, (n < fuel)%nat -> (n <= 64)%nat ->
  (NodeID.mDepth nodeID = 64 - n)%nat -> within (64 - n) p x -> ok n t x -> is_key id -> pre (64 - n) id = p ->
  exists r, first_beyond id x r /\
    (stack ← getStack_from db fuel id true t nodeID stack bk; seek_ missing id stack bk) =
    match r with Some it => Ok (Some it) | None => seek_ missing id stack bk end.
Proof.
  induction n as [|n IH]; intros [|fuel] [it ty' h s|i] x p id nodeID stack missing Hf Hn Hd Hw Ho Hid Hp; try lia; try done;
    cbn [getStack_from orb mbind result_bind].
  1-2: apply ok_leaf in Ho as (-> & -> & -> & _); cbn [seek]; destruct (beyond id (key it)) eqn:Hb;
    [exists (Some it)|exists None]; (split; [|done]); cbn [first_beyond];
    [split; [apply lookup_singleton_eq|]; split; [done|]; intros j Hj _; apply lookup_singleton_is_Some in Hj as ->; apply R_refl|
     intros j Hj; by apply lookup_singleton_is_Some in Hj as <-].
  replace (64 - S n)%nat with (63 - n)%nat in * by lia.
  rewrite select_nib by lia. rewrite Hd. pose proof (ok_branch n i x id Ho) as Hb.
  destruct (isEmptyBranch (nib (63 - n) id) i) eqn:He.
  - cbn [mbind result_bind]. apply (seek_inner n i x p); [lia|done..|].
    intros j Hj Hjn. exfalso. pose proof (ok_branch n i x j Ho) as Hjo. rewrite Hjn, He in Hjo.
    destruct Hj as [? Hj]. congruence.
  - destruct Hb as (c & Hc & Hoc & Hpc). rewrite Hc. cbn [mbind result_bind].
    assert (Hwp : within (64 - n) (p * 16 + nib (63 - n) id) (part (63 - n) (nib (63 - n) id) x)).
    { replace (64 - n)%nat with (S (63 - n)) by lia. apply within_part; [lia|done]. }
    destruct (IH fuel c _ _ id (NodeID.getChildNodeID (nib (63 - n) id) nodeID) ((InnerNode i, nodeID) :: stack) missing
      ltac:(lia) ltac:(lia) ltac:(simpl; lia) Hwp Hoc Hid) as (r & Hr & ->).
    { replace (64 - n)%nat with (S (63 - n)) by lia. rewrite pre_S by lia. by rewrite Hp. }
    destruct r as [it|].
    + exists (Some it). split; [|done]. destruct Hr as (Hit & Hbe & Hmin).
      rewrite lookup_part in Hit. destruct (decide _) as [Hni|]; [|done]. split; [done|]. split; [done|].
      intros j Hj Hjb. destruct (decide (nib (63 - n) j = nib (63 - n) id)) as [Hjn|Hjn].
      * apply Hmin; [|done]. by rewrite lookup_part, decide_True.
      * apply (branch_order n p x); [lia|exact Hw|by exists (data it)|exact Hj|congruence|]. rewrite Hni.
        destruct (Hw j Hj) as [_ Hpj]. apply beyond_R in Hjb as [Hjb Hij].
        destruct (R_total (nib (63 - n) id) (nib (63 - n) j)) as [|Hc']; [done|]. exfalso. apply Hij. apply R_anti; [done|].
        apply (R_pre (S (63 - n))); rewrite !pre_S by lia; rewrite Hpj, Hp; [lia|]. by apply R_add.
    + apply (seek_inner n i x p); [lia|done..|]. intros j Hj Hjn. apply Hr. by rewrite lookup_part, decide_True.
Qed.

End order.

End relation.

(** The map holds [x], in nodes of the sequence [lo] and above; those of the
    sequence zero are in the store. *)
Record holds `{Build} {SHA : SHA512Half} (lo : Z) (db : gmap Z Blob) (ty : TNType) (m : ShaMap.t) (x : Items) : Prop := {
  holds_root : isInner (root_ m) = true;
  holds_tree : ok db (backed_ m) ty (lo, seq_ m) 64 (root_ m) x;
  holds_seq : 0 < seq_ m /\ 0 <= lo <= seq_ m;
  holds_keys : forall k d, x !! k = Some d -> is_key k /\ (12 <= length d)%nat }.

End ShaTree.
