(* ===== verification/ShaEdit.v ===== *)
(** * Changing a hash tree

    [addGiveItem], [updateGiveItem] and [delItem] of a [SHAMap] insert, replace
    and delete in the finite map the tree holds, and keep its shape: every
    assertion on the way holds. *)

From stdpp Require Import base tactics numbers list strings option gmap sorting.
From S2P Require Import Prelude Serializer View Indexes ShaNode ShaMap ShaTree.

Module ShaEdit.
Import Serializer ShaNode ShaMap ShaTree.

(** Every level has fuel. *)
Lemma levels_gt n : (n <= 64)%nat -> (n < levels)%nat.
Proof. unfold levels. lia. Qed.

(** To go on after a step that is done, without unfolding what follows. *)
Lemma bind_pass {A B} (a : A) (K : A -> result B) : (Ok a ≫= K) = K a.
Proof. done. Qed.

(** The fuel of the descents is not to be unfolded. *)
#[local] Strategy opaque [levels split getStack_from].

(** The branches that are there. *)
Definition present (i : inner node) : list Z := filter (fun b => isEmptyBranch b i = false) (seqZ 0 16).

Lemma elem_of_present i b : b ∈ present i <-> 0 <= b < 16 /\ isEmptyBranch b i = false.
Proof. unfold present. rewrite list_elem_of_filter, elem_of_seqZ. intuition lia. Qed.

Lemma count_present i : getBranchCount i = Z.of_nat (length (present i)).
Proof.
  unfold getBranchCount, present. change 0 with (Z.of_nat 0) at 1. generalize (seqZ 0 16). intros l. revert i.
  assert (Hg : forall i k, foldl (fun count b => if isEmptyBranch b i then count else count + 1) (Z.of_nat k) l =
    Z.of_nat (k + length (filter (fun b => isEmptyBranch b i = false) l))).
  { intros i. induction l as [|b l IH]; intros k; [simpl; lia|]. cbn [foldl]. rewrite filter_cons.
    destruct (isEmptyBranch b i) eqn:He.
    - rewrite decide_False by done. apply IH.
    - rewrite decide_True by done. replace (Z.of_nat k + 1) with (Z.of_nat (S k)) by lia. rewrite IH. simpl. lia. }
  intros i. apply (Hg i 0%nat).
Qed.

Section edit.
Context `{Build} {SHA : SHA512Half} (db : gmap Z Blob) (ty : TNType) (m : ShaMap.t) (lo : Z).
Context (seq_pos : 0 < seq_ m /\ 0 <= lo <= seq_ m) (changing : state_ m = Modifying).

Abbreviation okm := (ok db (backed_ m) ty (lo, seq_ m)).
Abbreviation getStack_ := (getStack_from db).

(** The inner node as one of this map. *)
Definition own (i : inner node) : inner node :=
  mkInner (iHash i) (seq_ m) (mHashes i) (mChildren i) (mIsBranch i).

Lemma unshare_inner i : lo <= iSeq i <= seq_ m -> unshareNode (InnerNode i) m = Ok (InnerNode (own i)).
Proof.
  intros Hs. unfold unshareNode. rewrite assert_pass by (simpl; lia). simpl. destruct (Z.eqb_spec (iSeq i) (seq_ m)) as [He|].
  - simpl. unfold own. rewrite <- He. by destruct i.
  - simpl. by rewrite assert_pass by (by rewrite changing).
Qed.

Lemma unshare_leaf it ty' h s : lo <= s <= seq_ m ->
  unshareNode (TreeNode it ty' h s) m = Ok (TreeNode it ty' h (seq_ m)).
Proof.
  intros Hs. unfold unshareNode. rewrite assert_pass by (simpl; lia). simpl. destruct (Z.eqb_spec s (seq_ m)) as [He|].
  - simpl. by rewrite He.
  - simpl. by rewrite assert_pass by (by rewrite changing).
Qed.

Lemma make_leaf_ok it s : (12 <= length (data it))%nat -> make_leaf it ty s = Ok (TreeNode it ty (leaf_hash ty it) s).
Proof. intros Hd. unfold make_leaf, size. by rewrite assert_pass by (apply Z.leb_le; lia). Qed.

Lemma own_sixteen i : sixteen i -> sixteen (own i).
Proof. done. Qed.

Lemma set_towards_ok target child i nodeID : (NodeID.mDepth nodeID < 64)%nat -> lo <= iSeq i <= seq_ m ->
  set_towards target child (InnerNode i) nodeID m =
  Ok (set_child (nib (NodeID.mDepth nodeID) target) child (own i)).
Proof.
  intros Hd Hs. unfold set_towards. rewrite assert_pass by done. rewrite unshare_inner by done. cbn [mbind result_bind].
  rewrite select_nib by done. apply setChild_ok; [apply nib_range|simpl; lia].
Qed.

(** An inner node with one branch set. *)
Lemma ok_set n b child i x x' : 0 <= b < 16 -> okm (S n) (InnerNode i) x ->
  (forall b', b' <> b -> part (63 - n) b' x' = part (63 - n) b' x) ->
  match child with
  | Some c => okm n c (part (63 - n) b x') /\ proper c (part (63 - n) b x')
  | None => part (63 - n) b x' = ∅
  end -> okm (S n) (InnerNode (set_child b child (own i))) x'.
Proof.
  intros Hb (H16 & Hs & _ & Hbs) Hother Hchild. pose proof (own_sixteen i H16) as H16'.
  split; [by apply set_child_sixteen|]. split; [simpl; lia|]. split; [simpl; intros [?|?]; lia|].
  intros b' Hb'. rewrite set_child_empty by done. unfold child_at, descendThrow.
  rewrite set_child_child, set_child_hash by done. destruct (decide (b' = b)) as [->|Hne].
  - destruct child as [c|]; [|done]. destruct Hchild as [Hoc Hpc]. by exists c.
  - specialize (Hbs b' Hb'). rewrite Hother by done. exact Hbs.
Qed.

Lemma ok_newInner n : (n < 64)%nat -> okm (S n) (InnerNode (newInner (seq_ m))) ∅.
Proof.
  intros Hn. split; [apply newInner_sixteen|]. split; [simpl; lia|]. split; [simpl; intros [?|?]; lia|].
  intros b Hb. rewrite newInner_empty by done. destruct (newInner_at (seq_ m) b Hb) as [-> ->].
  split; [apply part_empty|done].
Qed.

Lemma own_new : own (newInner (seq_ m)) = newInner (seq_ m).
Proof. done. Qed.

Lemma several_insert x k v j : j <> k -> is_Some (x !! j) -> several (<[k := v]> x).
Proof.
  intros Hne Hj. exists j, k. split; [done|]. rewrite lookup_insert_ne by done. split; [done|].
  rewrite lookup_insert_eq. by eexists.
Qed.

(** A leaf, as the subtree of its item. *)
Lemma leaf_ok n it : okm n (TreeNode it ty (leaf_hash ty it) (seq_ m)) {[key it := data it]} /\
  proper (TreeNode it ty (leaf_hash ty it) (seq_ m)) {[key it := data it]}.
Proof.
  split; [apply ok_leaf; split_and!; try done; cbn; lia|]. split; [|done]. apply map_non_empty_singleton.
Qed.

Section up.
Context (tag : Z).

(** The end of a change below a stack: the new subtree goes up. *)
Definition finish (t' : node) (stack : Stack) : result (bool * ShaMap.t) :=
  r ← dirty_up tag t' stack m; Ok (true, set_root r m).

Lemma dirtyUp_ok stack t' : getSeq t' = seq_ m -> dirtyUp stack tag t' m = dirty_up tag t' stack m.
Proof.
  intros Hs. unfold dirtyUp. rewrite assert_pass by (by rewrite changing). by rewrite assert_pass by (apply Z.eqb_eq; lia).
Qed.

(** One level up. *)
Lemma finish_cons n i x x' nodeID stack c :
  okm (S n) (InnerNode i) x -> (n < 64)%nat -> (NodeID.mDepth nodeID = 63 - n)%nat ->
  (forall b', b' <> nib (63 - n) tag -> part (63 - n) b' x' = part (63 - n) b' x) ->
  okm n c (part (63 - n) (nib (63 - n) tag) x') -> proper c (part (63 - n) (nib (63 - n) tag) x') ->
  exists t', okm (S n) t' x' /\ getSeq t' = seq_ m /\ isInner t' = true /\
    finish c ((InnerNode i, nodeID) :: stack) = finish t' stack.
Proof.
  intros Ho Hn Hd Hx' Hc Hp. unfold finish. cbn [dirty_up]. pose proof Ho as (_ & Hs & _).
  rewrite set_towards_ok by (done || lia). rewrite Hd. cbn [mbind result_bind].
  eexists. split; [|split; [|split; [|done]]]; [|done..]. eapply ok_set; [apply nib_range|exact Ho|done|by split].
Qed.

End up.

(** ** Adding *)

Section add.
Context (item : SHAMapItem) (long : (12 <= length (data item))%nat).
Context (root_inner : isInner (root_ m) = true).

Abbreviation tag := (key item).

Lemma split_spec n : forall fuel nodeID stack other otherData leaf_,
  (n < fuel)%nat -> (n <= 64)%nat -> (NodeID.mDepth nodeID = 64 - n)%nat -> other <> tag ->
  pre (64 - n) other = pre (64 - n) tag -> (12 <= length otherData)%nat ->
  exists t', okm n t' (<[tag := data item]> {[other := otherData]}) /\ getSeq t' = seq_ m /\ isInner t' = true /\
    (parted ← split fuel tag other nodeID (seq_ m) stack m;
     add_parted item (mkItem other otherData) ty leaf_ m parted) = finish tag t' stack.
Proof.
  induction n as [|n IH]; intros [|fuel] nodeID stack other otherData leaf_ Hf Hn Hd Hne Hp Hlen; try lia.
  { rewrite !pre_64 in Hp. done. }
  replace (64 - S n)%nat with (63 - n)%nat in * by lia. cbn [split]. rewrite !select_nib by lia. rewrite Hd.
  set (x := <[tag := data item]> {[other := otherData]}) in *.
  destruct (Z.eqb_spec (nib (63 - n) tag) (nib (63 - n) other)) as [He|He].
  - assert (Hp' : pre (64 - n) other = pre (64 - n) tag).
    { replace (64 - n)%nat with (S (63 - n)) by lia. rewrite !pre_S by lia. by rewrite Hp, He. }
    destruct (IH fuel (NodeID.getChildNodeID (nib (63 - n) tag) nodeID) ((InnerNode (newInner (seq_ m)), nodeID) :: stack)
      other otherData leaf_ ltac:(lia) ltac:(lia) ltac:(simpl; lia) Hne Hp' Hlen) as (c & Hoc & Hsc & Hic & ->).
    assert (Hpart : part (63 - n) (nib (63 - n) tag) x = x).
    { unfold x. rewrite part_insert. f_equal. rewrite He. apply part_single. }
    eapply (finish_cons tag n _ ∅); [apply ok_newInner; lia|lia|done|..].
    + intros b' Hb'. unfold x. rewrite part_insert_ne, part_single_ne, part_empty by congruence. done.
    + by rewrite Hpart.
    + rewrite Hpart. split; [apply insert_non_empty|]. intros _. eapply several_insert; [done|].
      rewrite lookup_singleton_eq. by eexists.
  - cbn [mbind result_bind add_parted]. rewrite !make_leaf_ok by done. cbn [mbind result_bind].
    rewrite (setChild_ok (nib (63 - n) tag)) by (apply nib_range || simpl; lia). cbn [mbind result_bind].
    rewrite setChild_ok by (apply nib_range || simpl; lia). cbn [mbind result_bind].
    rewrite dirtyUp_ok by done. destruct (root_ m) as [|ri] eqn:Hroot; [done|]. cbn [isLeaf].
    destruct (leaf_ok n item) as [Hlo Hlp]. destruct (leaf_ok n (mkItem other otherData)) as [Hoo Hop].
    assert (H1 : okm (S n) (InnerNode (set_child (nib (63 - n) tag)
      (Some (TreeNode item ty (leaf_hash ty item) (seq_ m))) (newInner (seq_ m)))) {[tag := data item]}).
    { rewrite <- own_new. apply (ok_set n _ (Some _) _ ∅); [apply nib_range|apply ok_newInner; lia| |].
      - intros b' Hb'. by rewrite part_single_ne, part_empty.
      - by rewrite part_single. }
    eexists. split; [|split; [|split; [|done]]]; [|done..].
    refine (ok_set n _ (Some _) _ _ _ _ H1 _ _); [apply nib_range|..].
    + intros b' Hb'. unfold x. destruct (decide (b' = nib (63 - n) tag)) as [->|Hb2].
      * rewrite part_insert, part_single, part_single_ne by done. apply insert_empty.
      * by rewrite part_insert_ne, !part_single_ne.
    + unfold x. rewrite part_insert_ne by congruence. by rewrite part_single.
Qed.

(** The part of an insertion, and the parts beside it. *)
Lemma within_tag n p x : (n < 64)%nat -> within (63 - n) p x -> pre (63 - n) tag = p ->
  within (64 - n) (pre (64 - n) tag) (part (63 - n) (nib (63 - n) tag) x).
Proof.
  intros Hn Hw Hp. replace (64 - n)%nat with (S (63 - n)) by lia. rewrite pre_S by lia. rewrite Hp.
  apply within_part; [lia|done].
Qed.

(** At a leaf. *)
Lemma add_leaf n it h s nodeID stack : (n <= 64)%nat -> (NodeID.mDepth nodeID = 64 - n)%nat -> lo <= s <= seq_ m ->
  pre (64 - n) (key it) = pre (64 - n) tag -> (12 <= length (data it))%nat ->
  let x := {[key it := data it]} in
  match x !! tag with
  | Some _ => add_at item ty m ((TreeNode it ty h s, nodeID) :: stack) = Ok (false, m)
  | None => exists t', okm n t' (<[tag := data item]> x) /\ getSeq t' = seq_ m /\ isInner t' = true /\
      add_at item ty m ((TreeNode it ty h s, nodeID) :: stack) = finish tag t' stack
  end.
Proof.
  intros Hn Hd Hs Hp Hlen x. cbn [add_at]. destruct (Z.eqb_spec (key it) tag) as [Heq|Hne].
  - unfold x. by rewrite Heq, lookup_singleton_eq.
  - unfold x. rewrite lookup_singleton_ne by done.
    destruct it as [other otherData]. cbn [key data] in *.
    destruct (split_spec n levels nodeID stack other otherData (TreeNode (mkItem other otherData) ty h (seq_ m))
      (levels_gt n Hn) Hn Hd Hne Hp Hlen) as (t' & Ho & Ht & Hi & Heq).
    exists t'. split; [exact Ho|]. split; [exact Ht|]. split; [exact Hi|]. rewrite <- Heq.
    rewrite (unshare_leaf _ _ _ _ Hs), bind_pass. reflexivity.
Qed.

Lemma add_from n : forall fuel t x nodeID stack,
  (n < fuel)%nat -> (n <= 64)%nat -> (NodeID.mDepth nodeID = 64 - n)%nat -> okm n t x ->
  within (64 - n) (pre (64 - n) tag) x -> (forall k d, x !! k = Some d -> (12 <= length d)%nat) ->
  match x !! tag with
  | Some _ => (st ← getStack_ fuel tag true t nodeID stack (backed_ m); add_at item ty m st) = Ok (false, m)
  | None => exists t', okm n t' (<[tag := data item]> x) /\ getSeq t' = seq_ m /\ isInner t' = true /\
      (st ← getStack_ fuel tag true t nodeID stack (backed_ m); add_at item ty m st) = finish tag t' stack
  end.
Proof.
  induction n as [|n IH]; intros [|fuel] [it ty' h s|i] x nodeID stack Hf Hn Hd Ho Hw Hlong; try lia; try done;
    cbn [getStack_from orb mbind result_bind].
  1-2: apply ok_leaf in Ho as (-> & -> & -> & Hs);
    (apply add_leaf; [lia|exact Hd|exact Hs| |apply (Hlong (key it)), lookup_singleton_eq]);
    apply (Hw (key it)); rewrite lookup_singleton_eq; by eexists.
  replace (64 - S n)%nat with (63 - n)%nat in * by lia. rewrite select_nib by lia. rewrite Hd.
  pose proof (ok_branch _ _ _ _ n i x tag Ho) as Hb. pose proof Ho as (H16 & Hs & _ & Hbs).
  destruct (isEmptyBranch (nib (63 - n) tag) i) eqn:He.
  - rewrite Hb. cbn [mbind result_bind add_at]. rewrite unshare_inner by done. cbn [mbind result_bind].
    rewrite select_nib by lia. rewrite Hd. rewrite assert_pass by exact He. rewrite make_leaf_ok by done. cbn [mbind result_bind].
    rewrite setChild_ok by (apply nib_range || simpl; lia). cbn [mbind result_bind]. rewrite dirtyUp_ok by done.
    eexists. split; [|split; [|split; [|done]]]; [|done..].
    specialize (Hbs _ (nib_range (63 - n) tag)). rewrite He in Hbs. destruct Hbs as [Hpart _].
    apply (ok_set n _ (Some _) _ x); [apply nib_range|done|intros; by apply part_insert_ne|].
    rewrite part_insert, Hpart. apply leaf_ok.
  - destruct Hb as (c & Hc & Hoc & Hpc). rewrite Hc. cbn [mbind result_bind].
    set (y := part (63 - n) (nib (63 - n) tag) x) in *.
    pose proof (within_tag n _ x ltac:(lia) Hw eq_refl) as Hwp.
    assert (Hlp : forall k d, y !! k = Some d -> (12 <= length d)%nat).
    { intros k d Hk. unfold y in Hk. rewrite lookup_part in Hk. case_decide; [|done]. by apply (Hlong k). }
    specialize (IH fuel c y (NodeID.getChildNodeID (nib (63 - n) tag) nodeID) ((InnerNode i, nodeID) :: stack)
      ltac:(lia) ltac:(lia) ltac:(simpl; lia) Hoc Hwp Hlp). unfold y at 1 in IH. rewrite part_own in IH.
    destruct (x !! tag) eqn:Hx; [exact IH|]. destruct IH as (c' & Hoc' & Hsc' & Hic' & ->).
    apply (finish_cons tag n i x); [done|lia|done|intros; by apply part_insert_ne|..]; rewrite part_insert; [done|].
    split; [apply insert_non_empty|]. intros _. destruct Hpc as [Hne _].
    destruct (map_choose y Hne) as (j & v & Hj). apply several_insert with j; [|by exists v].
    intros ->. unfold y in Hj. rewrite part_own in Hj. congruence.
Qed.

End add.

(** ** Replacing *)

Section update.
Context (item : SHAMapItem).

Abbreviation tag := (key item).

(** The pointer to a node that is the child already. *)
Definition link (b : Z) (c : node) (i : inner node) : inner node :=
  mkInner (iHash i) (iSeq i) (mHashes i) (<[Z.to_nat b := Some c]> (mChildren i)) (mIsBranch i).

(** Nodes with the same marks. *)
Definition alike (c c' : node) : Prop :=
  getNodeHash c' = getNodeHash c /\ getSeq c' = getSeq c /\ isInner c' = isInner c /\
  forall k, hashed db (backed_ m) k c -> hashed db (backed_ m) k c'.

Lemma link_child b c i b' : 0 <= b < 16 -> 0 <= b' < 16 -> sixteen i ->
  getChild b' (link b c i) = if decide (b' = b) then Some c else getChild b' i.
Proof. intros Hb Hb' (_ & Hc & _). unfold getChild, link. cbn [mChildren]. by apply place_insert. Qed.

Lemma link_at b c i b' : 0 <= b < 16 -> 0 <= b' < 16 -> sixteen i ->
  descendThrow db (link b c i) b' (backed_ m) = if decide (b' = b) then Ok c else descendThrow db i b' (backed_ m).
Proof. intros Hb Hb' H16. unfold descendThrow. rewrite link_child by done. by destruct (decide _). Qed.

Lemma link_ok n b i x c c' : 0 <= b < 16 -> okm (S n) (InnerNode i) x -> isEmptyBranch b i = false ->
  child_at db (backed_ m) i b c -> alike c c' -> okm n c' (part (63 - n) b x) ->
  okm (S n) (InnerNode (link b c' i)) x /\ alike (InnerNode i) (InnerNode (link b c' i)).
Proof.
  intros Hb (H16 & Hs & Hh & Hbs) Hne Hc (Hch & Hcs & Hci & Hck) Hoc.
  assert (Hal : alike (InnerNode i) (InnerNode (link b c' i))).
  { split; [done|]. split; [done|]. split; [done|]. intros [|k]; [done|]. intros [Hih Hall]. split; [exact Hih|].
    intros b' Hb'. specialize (Hall b' Hb'). change (isEmptyBranch b' (link b c' i)) with (isEmptyBranch b' i).
    destruct (isEmptyBranch b' i); [done|]. destruct Hall as (c0 & Hc0 & Hch0 & Hhd0). unfold child_at.
    rewrite link_at by done. destruct (decide (b' = b)) as [->|]; [|by exists c0].
    unfold child_at in *. rewrite Hc in Hc0. injection Hc0 as ->. exists c'. split; [done|]. split; [by rewrite Hch|]. by apply Hck. }
  split; [|done]. split; [destruct H16 as (?&?&?); split; [done|]; split; [|done]; simpl; by rewrite length_insert|].
  split; [done|]. split; [intros Hz; apply Hal, Hh, Hz|]. intros b' Hb'. specialize (Hbs b' Hb').
  change (isEmptyBranch b' (link b c' i)) with (isEmptyBranch b' i).
  change (getChildHash b' (link b c' i)) with (getChildHash b' i). unfold child_at. rewrite link_at, link_child by done.
  destruct (decide (b' = b)) as [->|]; [|exact Hbs]. rewrite Hne in *. destruct Hbs as (c0 & Hc0 & _ & Hp & _).
  unfold child_at in *. rewrite Hc in Hc0. injection Hc0 as <-. exists c'. split; [done|]. split; [done|].
  split; [|done]. destruct Hp as [Hp1 Hp2]. split; [done|]. by rewrite Hci.
Qed.

(** The replacement ends with a changed subtree, with the same one linked anew,
    or with nothing done. *)
Definition replaced (n : nat) (t : node) (x : Items) (stack : Stack) (r : result (bool * ShaMap.t)) : Prop :=
  (exists t', okm n t' (<[tag := data item]> x) /\ getSeq t' = seq_ m /\ isInner t' = isInner t /\
     r = finish tag t' stack) \/
  (<[tag := data item]> x = x /\ exists t', okm n t' x /\ alike t t' /\ r = Ok (true, set_root (relink tag t' stack) m)) \/
  (<[tag := data item]> x = x /\ r = Ok (true, m)).

(** The new data are those of the item if the hashes are the same. *)
Definition distinct (x : Items) : Prop :=
  forall d, x !! tag = Some d -> leaf_hash ty (mkItem tag d) = leaf_hash ty item -> d = data item.

Lemma update_leaf n it s nodeID stack : lo <= s <= seq_ m -> key it = tag -> stack <> [] ->
  distinct {[key it := data it]} ->
  replaced n (TreeNode it ty (leaf_hash ty it) s) {[key it := data it]} stack
    (update_at item ty m ((TreeNode it ty (leaf_hash ty it) s, nodeID) :: stack)).
Proof.
  intros Hs Hk Hne Hdis. cbn [update_at]. rewrite Hk, Z.eqb_refl. cbn [negb]. rewrite unshare_leaf, bind_pass by done.
  unfold setItem. rewrite assert_pass by (apply negb_true_iff, Z.eqb_neq; simpl; lia). cbn [updateHash getSeq].
  rewrite bind_pass. destruct (Z.eqb_spec (leaf_hash ty item) (leaf_hash ty it)) as [He|He]; cbn [negb].
  - assert (it = item) as ->.
    { destruct it as [k d]. cbn [key] in Hk. subst k. rewrite (Hdis d); [by destruct item|apply lookup_singleton_eq|done]. }
    assert (<[tag := data item]> ({[tag := data item]} : Items) = {[tag := data item]}) as Hid by apply insert_singleton_eq.
    rewrite bool_decide_false, orb_false_r by done. destruct (Z.eqb_spec s (seq_ m)) as [->|].
    + right. left. split; [done|]. eexists. split; [apply leaf_ok|]. split; [|done]. done.
    + right. right. done.
  - left. eexists. split; [|split; [|split; [|unfold finish; by rewrite dirtyUp_ok]]]; [|done..].
    rewrite <- Hk, insert_singleton_eq, Hk. apply leaf_ok.
Qed.

Lemma update_from n : forall fuel t x nodeID stack, (n < fuel)%nat -> (n <= 64)%nat ->
  (NodeID.mDepth nodeID = 64 - n)%nat -> okm n t x -> is_Some (x !! tag) -> (isInner t = true \/ stack <> []) ->
  distinct x ->
  replaced n t x stack (st ← getStack_ fuel tag true t nodeID stack (backed_ m); update_at item ty m st).
Proof.
  induction n as [|n IH]; intros [|fuel] [it ty' h s|i] x nodeID stack Hf Hn Hd Ho Hx Hst Hdis; try lia; try done;
    cbn [getStack_from orb]; rewrite ?bind_pass.
  1-2: apply ok_leaf in Ho as (-> & -> & -> & Hs); apply lookup_singleton_is_Some in Hx;
    destruct Hst; [done|]; apply update_leaf; done.
  replace (64 - S n)%nat with (63 - n)%nat in * by lia. rewrite select_nib by lia. rewrite Hd.
  pose proof (ok_branch _ _ _ _ n i x tag Ho) as Hb.
  destruct (isEmptyBranch (nib (63 - n) tag) i) eqn:He; [rewrite Hb in Hx; by destruct Hx|].
  destruct Hb as (c & Hc & Hoc & Hpc). unfold child_at in Hc. rewrite Hc, bind_pass.
  set (y := part (63 - n) (nib (63 - n) tag) x) in *.
  assert (Hpart : part (63 - n) (nib (63 - n) tag) (<[tag := data item]> x) = <[tag := data item]> y) by apply part_insert.
  assert (Hsame : <[tag := data item]> y = y -> <[tag := data item]> x = x).
  { intros Hy. apply insert_id. rewrite <- (part_own (63 - n)). fold y. rewrite <- Hy. apply lookup_insert_eq. }
  edestruct (IH fuel c y (NodeID.getChildNodeID (nib (63 - n) tag) nodeID) ((InnerNode i, nodeID) :: stack))
    as [(c' & Hoc' & Hsc & Hic & ->)|[(Hy & c' & Hoc' & Hal & ->)|[Hy ->]]]; [lia|lia|simpl; lia|done| |by right| |..].
  - unfold y. by rewrite part_own.
  - unfold distinct, y. by rewrite part_own.
  - left. apply (finish_cons tag n i x); [done|lia|done|intros; by apply part_insert_ne|by rewrite Hpart|].
    rewrite Hpart. split; [apply insert_non_empty|]. rewrite Hic. intros Hin. destruct Hpc as [_ Hsev].
    destruct (Hsev Hin) as (j & k & Hjk & Hj & Hk). exists j, k. split; [done|].
    rewrite !lookup_insert_is_Some'. tauto.
  - right. left. split; [by apply Hsame|]. cbn [relink]. rewrite select_nib by lia. rewrite Hd.
    destruct (link_ok n (nib (63 - n) tag) i x c c') as [Hlo Hla]; [apply nib_range|done..|].
    eexists. split; [exact Hlo|]. split; [exact Hla|]. done.
  - right. right. split; [by apply Hsame|done].
Qed.

End update.

(** ** Deleting *)

(** An item is in a branch that is present. *)
Lemma ok_present n i x k : okm (S n) (InnerNode i) x -> is_Some (x !! k) -> nib (63 - n) k ∈ present i.
Proof.
  intros Ho Hk. apply elem_of_present. split; [apply nib_range|]. pose proof (ok_branch _ _ _ _ n i x k Ho) as Hb.
  destruct (isEmptyBranch _ i); [|done]. rewrite Hb in Hk. by destruct Hk.
Qed.

Lemma present_item n i x b : okm (S n) (InnerNode i) x -> b ∈ present i ->
  exists c, child_at db (backed_ m) i b c /\ okm n c (part (63 - n) b x) /\ proper c (part (63 - n) b x) /\
  exists k, is_Some (x !! k) /\ nib (63 - n) k = b.
Proof.
  intros (_ & _ & _ & Hbs) [Hb He]%elem_of_present. specialize (Hbs b Hb). rewrite He in Hbs.
  destruct Hbs as (c & Hc & Hoc & Hp & _). exists c. split; [done|]. split; [done|]. split; [done|].
  destruct (map_choose _ (proj1 Hp)) as (k & v & Hk). rewrite lookup_part in Hk. case_decide; [|done].
  exists k. split; [by exists v|done].
Qed.

Lemma present_nil n i x : okm (S n) (InnerNode i) x -> present i = [] -> x = ∅.
Proof.
  intros Ho Hp. apply map_eq. intros k. rewrite lookup_empty. destruct (x !! k) as [v|] eqn:Hk; [|done].
  pose proof (ok_present n i x k Ho ltac:(by exists v)) as Hin. rewrite Hp in Hin. by apply not_elem_of_nil in Hin.
Qed.

Lemma present_one n i x b : okm (S n) (InnerNode i) x -> present i = [b] -> part (63 - n) b x = x.
Proof.
  intros Ho Hp. apply map_eq. intros k. rewrite lookup_part. case_decide as Hb; [done|].
  destruct (x !! k) as [v|] eqn:Hk; [|done]. pose proof (ok_present n i x k Ho ltac:(by exists v)) as Hin.
  rewrite Hp in Hin. apply list_elem_of_singleton in Hin. done.
Qed.

Lemma present_more n i x b b' l : okm (S n) (InnerNode i) x -> present i = b :: b' :: l -> several x.
Proof.
  intros Ho Hp. assert (Hnd : NoDup (present i)) by apply NoDup_filter, NoDup_seqZ.
  rewrite Hp in Hnd. apply list.NoDup_cons in Hnd as [Hnin _].
  destruct (present_item n i x b Ho) as (_ & _ & _ & _ & j & Hj & Hjb); [rewrite Hp; by left|].
  destruct (present_item n i x b' Ho) as (_ & _ & _ & _ & k & Hk & Hkb); [rewrite Hp; right; by left|].
  exists j, k. split; [|done]. intros ->. apply Hnin. rewrite <- Hjb, Hkb. by left.
Qed.

Lemma onlyBelow_spec n : forall fuel t x, (n < fuel)%nat -> okm n t x -> x <> ∅ ->
  exists r, onlyBelow db fuel t (backed_ m) = Ok r /\
    match r with Some it => x = {[key it := data it]} | None => several x end.
Proof.
  induction n as [|n IH]; intros [|fuel] [it ty' h s|i] x Hf Ho Hx; try lia; try done; cbn [onlyBelow].
  1-2: apply ok_leaf in Ho as (-> & -> & -> & Hs); by exists (Some it).
  fold (present i). destruct (present i) as [|b [|b' l]] eqn:Hp.
  - by apply (present_nil n i x) in Hp.
  - destruct (present_item n i x b Ho) as (c & Hc & Hoc & _); [rewrite Hp; by left|]. unfold child_at in Hc.
    rewrite Hc, bind_pass. rewrite (present_one n i x b) in Hoc by done. apply IH; [lia|done|done].
  - destruct (present_item n i x b Ho) as (c & Hc & _); [rewrite Hp; by left|]. unfold child_at in Hc.
    rewrite Hc, bind_pass. exists None. split; [done|]. by apply (present_more n i x b b' l).
Qed.

Section del.
Context (id : Z).

Definition finish_del (prev : option node) (stack : Stack) : result (bool * ShaMap.t) :=
  r ← del_up db id ty prev stack m; Ok (true, set_root r m).

(** What is left of a subtree. *)
Definition left_over (n : nat) (prev : option node) (x : Items) : Prop :=
  match prev with
  | Some t' => okm n t' x /\ proper t' x
  | None => x = ∅
  end.

(** One level up, below the root. *)
Lemma del_cons n i x nodeID stack prev : (n < 63)%nat -> (NodeID.mDepth nodeID = 63 - n)%nat -> okm (S n) (InnerNode i) x ->
  (forall k d, x !! k = Some d -> (12 <= length d)%nat) ->
  left_over n prev (part (63 - n) (nib (63 - n) id) (delete id x)) ->
  exists prev', left_over (S n) prev' (delete id x) /\
    finish_del prev ((InnerNode i, nodeID) :: stack) = finish_del prev' stack.
Proof.
  intros Hn Hd Ho Hlong Hprev. unfold finish_del. cbn [del_up]. pose proof Ho as (_ & Hs & _).
  rewrite set_towards_ok by (done || lia). rewrite bind_pass, Hd.
  set (i' := set_child (nib (63 - n) id) prev (own i)).
  assert (Ho' : okm (S n) (InnerNode i') (delete id x)).
  { apply (ok_set n _ prev i x); [apply nib_range|done|intros; by apply part_delete_ne|]. by destruct prev. }
  replace (NodeID.isRoot nodeID) with false by (unfold NodeID.isRoot; rewrite Hd; by destruct (63 - n)%nat eqn:?; [lia|]).
  rewrite count_present. destruct (present i') as [|b [|b' l]] eqn:Hp; cbn [length].
  - exists None. split; [|done]. by apply (present_nil n i').
  - assert (Hne : delete id x <> ∅).
    { destruct (present_item n i' _ b Ho') as (_ & _ & _ & _ & k & [v Hk] & _); [rewrite Hp; by left|].
      intros Hz. rewrite Hz, lookup_empty in Hk. done. }
    change (Z.of_nat 1 =? 0) with false. change (Z.of_nat 1 =? 1) with true. cbn match.
    destruct (onlyBelow_spec (S n) levels _ _ ltac:(apply levels_gt; lia) Ho' Hne) as (r & -> & Hr). rewrite bind_pass.
    destruct r as [it|].
    + rewrite make_leaf_ok. 2:{ apply (Hlong (key it)). apply (lookup_weaken {[key it := data it]}).
        - apply lookup_singleton_eq. - rewrite <- Hr. apply delete_subseteq. }
      rewrite bind_pass. eexists (Some _). split; [|done]. unfold left_over. rewrite Hr.
      destruct (leaf_ok (S n) it) as [Hlo Hlp]. done.
    + exists (Some (InnerNode i')). split; [|done]. split; [done|]. by split.
  - replace (Z.of_nat (S (S (length l))) =? 0) with false by (symmetry; apply Z.eqb_neq; lia).
    replace (Z.of_nat (S (S (length l))) =? 1) with false by (symmetry; apply Z.eqb_neq; lia).
    exists (Some (InnerNode i')). split; [|done]. split; [done|].
    pose proof (present_more n i' _ b b' l Ho' Hp) as Hsev. split; [|done].
    intros Hz. destruct Hsev as (j & k & _ & [v Hj] & _). by rewrite Hz, lookup_empty in Hj.
Qed.

(** Below the root. *)
Lemma del_from n : forall fuel t x nodeID stack, (n < fuel)%nat -> (n < 64)%nat ->
  (NodeID.mDepth nodeID = 64 - n)%nat -> okm n t x -> (forall k d, x !! k = Some d -> (12 <= length d)%nat) ->
  let r := (st ← getStack_ fuel id true t nodeID stack (backed_ m); del_at db id m st) in
  match x !! id with
  | None => r = Ok (false, m)
  | Some _ => exists prev, left_over n prev (delete id x) /\ r = finish_del prev stack
  end.
Proof.
  induction n as [|n IH]; intros [|fuel] [it ty' h s|i] x nodeID stack Hf Hn Hd Ho Hlong r; try lia; try done;
    subst r; cbn [getStack_from orb]; rewrite ?bind_pass.
  1-2: apply ok_leaf in Ho as (-> & -> & -> & Hs); cbn [del_at]; destruct (Z.eqb_spec (key it) id) as [Heq|Hne]; cbn [negb];
    [rewrite Heq, lookup_singleton_eq; exists None; split; [apply delete_singleton_eq|reflexivity]|by rewrite lookup_singleton_ne].
  replace (64 - S n)%nat with (63 - n)%nat in * by lia. rewrite select_nib by lia. rewrite Hd.
  pose proof (ok_branch _ _ _ _ n i x id Ho) as Hb.
  destruct (isEmptyBranch (nib (63 - n) id) i) eqn:He; [by rewrite Hb, bind_pass|].
  destruct Hb as (c & Hc & Hoc & Hpc). unfold child_at in Hc. rewrite Hc, bind_pass.
  specialize (IH fuel c _ (NodeID.getChildNodeID (nib (63 - n) id) nodeID) ((InnerNode i, nodeID) :: stack)
    ltac:(lia) ltac:(lia) ltac:(simpl; lia) Hoc). rewrite part_own in IH. cbn zeta in IH.
  destruct (x !! id) eqn:Hx.
  - destruct IH as (prev & Hprev & ->).
    { intros k d Hk. apply (Hlong k). by apply (lookup_weaken _ _ _ _ Hk), part_sub. }
    apply del_cons; [lia|done|done|done|]. by rewrite part_delete.
  - apply IH. intros k d Hk. apply (Hlong k). by apply (lookup_weaken _ _ _ _ Hk), part_sub.
Qed.

(** From the root, which stays an inner node. *)
Lemma del_root t x : isInner t = true -> okm 64 t x -> (forall k d, x !! k = Some d -> (12 <= length d)%nat) ->
  let r := (st ← getStack_ levels id true t NodeID.root [] (backed_ m); del_at db id m st) in
  match x !! id with
  | None => r = Ok (false, m)
  | Some _ => exists t', okm 64 t' (delete id x) /\ isInner t' = true /\ r = Ok (true, set_root t' m)
  end.
Proof.
  destruct t as [|i]; [done|]. intros _ Ho Hlong r. subst r. pose proof (levels_gt 64 ltac:(lia)) as Hlv. 
  destruct levels as [|fuel]; [lia|]. cbn [getStack_from]. 
  rewrite select_nib by (cbn; lia). change (NodeID.mDepth NodeID.root) with (63 - 63)%nat.
  pose proof (ok_branch _ _ _ _ 63 i x id Ho) as Hb.
  destruct (isEmptyBranch (nib (63 - 63) id) i) eqn:He; [by rewrite Hb, bind_pass|].
  destruct Hb as (c & Hc & Hoc & Hpc). unfold child_at in Hc. rewrite Hc, bind_pass.
  pose proof (del_from 63 fuel c _ (NodeID.getChildNodeID (nib (63 - 63) id) NodeID.root) [(InnerNode i, NodeID.root)]
    ltac:(lia) ltac:(lia) ltac:(done) Hoc) as Hf. rewrite part_own in Hf. cbn zeta in Hf.
  destruct (x !! id) eqn:Hx.
  - destruct Hf as (prev & Hprev & ->).
    { intros k d Hk. apply (Hlong k). by apply (lookup_weaken _ _ _ _ Hk), part_sub. }
    unfold finish_del. cbn [del_up]. pose proof Ho as (_ & Hs & _).
    rewrite set_towards_ok by (done || cbn; lia). rewrite bind_pass. change (NodeID.isRoot NodeID.root) with true. cbn match.
    eexists. split; [|split; [|by rewrite bind_pass]]; [|done].
    apply (ok_set 63 _ prev i x); [apply nib_range|done|intros; by apply part_delete_ne|].
    rewrite <- part_delete in Hprev. by destruct prev.
  - apply Hf. intros k d Hk. apply (Hlong k). by apply (lookup_weaken _ _ _ _ Hk), part_sub.
Qed.

End del.
End edit.

(** ** The operations on the map that is held *)

Section held.
Context `{Build} {SHA : SHA512Half} (db : gmap Z Blob) (isTransaction hasMeta : bool) (lo : Z) (m : ShaMap.t) (x : Items).
Abbreviation ty := (leaf_type isTransaction hasMeta).
Context (held : holds lo db ty m x) (changing : state_ m = Modifying).

(** Another root under the same map. *)
Lemma holds_set_root t' y : isInner t' = true -> ok db (backed_ m) ty (lo, seq_ m) 64 t' y ->
  (forall k d, y !! k = Some d -> is_key k /\ (12 <= length d)%nat) -> holds lo db ty (set_root t' m) y.
Proof. intros Hi Ho Hk. destruct held as [_ _ Hs _]. by constructor. Qed.

Lemma keys_insert item : is_key (key item) -> (12 <= length (data item))%nat ->
  forall k d, (<[key item := data item]> x) !! k = Some d -> is_key k /\ (12 <= length d)%nat.
Proof.
  intros Hk Hd k d. destruct (decide (k = key item)) as [->|Hne].
  - rewrite lookup_insert_eq. by intros [= <-].
  - rewrite lookup_insert_ne by done. apply (holds_keys _ _ _ _ _ held).
Qed.

(** The same map but for its root. *)
Definition same_map (m' : ShaMap.t) : Prop := seq_ m' = seq_ m /\ state_ m' = state_ m /\ backed_ m' = backed_ m.

Lemma addGiveItem_spec item : is_key (key item) -> (12 <= length (data item))%nat ->
  match x !! key item with
  | Some _ => addGiveItem db item isTransaction hasMeta m = Ok (false, m)
  | None => exists m', addGiveItem db item isTransaction hasMeta m = Ok (true, m') /\
      holds lo db ty m' (<[key item := data item]> x) /\ same_map m'
  end.
Proof.
  intros Hk Hd. destruct held as [Hroot Htree Hseq Hkeys]. unfold addGiveItem, getStack.
  rewrite assert_pass by (by rewrite changing).
  assert (Hw : within (64 - 64) (pre (64 - 64) (key item)) x).
  { intros k [v Hv]. destruct (Hkeys k v Hv) as [Hkk _]. split; [done|]. simpl. by rewrite !pre_0. }
  pose proof (add_from db ty m lo Hseq changing item Hd Hroot 64 levels (root_ m) x NodeID.root []
    ltac:(by apply levels_gt) ltac:(lia) ltac:(done) Htree Hw) as Ha.
  specialize (Ha (fun k d Hkd => proj2 (Hkeys k d Hkd))). destruct (x !! key item) eqn:Hx; [exact Ha|].
  destruct Ha as (t' & Hok & Hs & Hi & Heq). exists (set_root t' m). split; [exact Heq|].
  split; [|done]. apply holds_set_root; [done|done|]. by apply keys_insert.
Qed.

Lemma updateGiveItem_spec item : is_key (key item) -> (12 <= length (data item))%nat -> is_Some (x !! key item) ->
  distinct ty item x ->
  exists m', updateGiveItem db item isTransaction hasMeta m = Ok (true, m') /\
    holds lo db ty m' (<[key item := data item]> x) /\ same_map m'.
Proof.
  intros Hk Hd Hx Hdis. pose proof held as [Hroot Htree Hseq Hkeys]. unfold updateGiveItem, getStack.
  rewrite assert_pass by (by rewrite changing).
  destruct (update_from db ty m lo Hseq changing item 64 levels (root_ m) x NodeID.root []
    ltac:(by apply levels_gt) ltac:(lia) ltac:(done) Htree Hx ltac:(by left) Hdis)
    as [(t' & Ho & Hs & Hi & ->)|[(Hy & t' & Ho & Hal & ->)|[Hy ->]]].
  - exists (set_root t' m). split; [done|]. split; [|done].
    apply holds_set_root; [congruence|done|]. by apply keys_insert.
  - exists (set_root t' m). split; [done|]. rewrite Hy. split; [|done].
    apply holds_set_root; [|done|done]. destruct Hal as (_ & _ & Hi & _). congruence.
  - exists m. rewrite Hy. done.
Qed.

Lemma delItem_spec id :
  match x !! id with
  | None => delItem db id m = Ok (false, m)
  | Some _ => exists m', delItem db id m = Ok (true, m') /\ holds lo db ty m' (delete id x) /\ same_map m'
  end.
Proof.
  pose proof held as [Hroot Htree Hseq Hkeys]. unfold delItem, getStack. rewrite assert_pass by (by rewrite changing).
  pose proof (del_root db ty m lo Hseq changing id (root_ m) x Hroot Htree (fun k d Hkd => proj2 (Hkeys k d Hkd))) as Hdel.
  cbn zeta in Hdel. destruct (x !! id); [|exact Hdel]. destruct Hdel as (t' & Ho & Hi & ->).
  exists (set_root t' m). split; [done|]. split; [|done]. apply holds_set_root; [done|done|].
  intros k d Hkd. apply Hkeys. by apply (lookup_weaken _ _ _ _ Hkd), delete_subseteq.
Qed.

Lemma fetch_spec id : fetch db id m = Ok (mkItem id <$> x !! id).
Proof.
  destruct held as [Hroot Htree Hseq Hkeys]. unfold fetch, walkToPointer.
  rewrite (walk_spec db (backed_ m) ty (lo, seq_ m) 64 levels id (root_ m) NodeID.root x (levels_gt 64 ltac:(lia)) ltac:(done) ltac:(lia) Htree).
  rewrite bind_pass. unfold item_of, found. by destruct (x !! id).
Qed.

End held.

End ShaEdit.
