(* ===== verification/ShaHash.v ===== *)
(** * Hashes of a hash tree

    The hash of the root of a [SHAMap] is a function of the items it holds:
    [root_hash] is that function, by recursion on the digits of the keys, and
    [flush_spec] shows that [walkSubTree] makes every hash of the tree the one
    of what is below it. *)

From stdpp Require Import base tactics numbers list strings option gmap sorting.
From S2P Require Import Prelude Serializer View Indexes ShaNode ShaMap ShaTree ShaEdit.

Module ShaHash.
Import Serializer ShaNode ShaMap ShaTree ShaEdit.

(** ** The hash of a set of items *)

Section reference.
Context {SHA : SHA512Half} (ty : TNType).

Definition branch_hashes (below : Items -> Z) (d : nat) (x : Items) : list Z :=
  (fun b => below (part d b x)) <$> seqZ 0 16.

(** Of a subtree of [n] levels: nothing, one item, or several. *)
Fixpoint tree_hash (n : nat) (x : Items) : Z :=
  match map_to_list x with
  | [] => 0
  | [(k, d)] => leaf_hash ty (mkItem k d)
  | _ => match n with
         | O => 0
         | S n => sha512Half (inner_bytes (branch_hashes (tree_hash n) (63 - n) x))
         end
  end.

Definition root_hash (x : Items) : Z :=
  if decide (x = ∅) then 0 else sha512Half (inner_bytes (branch_hashes (tree_hash 63) (63 - 63) x)).

(** What is hashed for a subtree, for an inner node and what is below it, and
    for the whole tree. *)
Fixpoint tree_strings (n : nat) (x : Items) : list Blob :=
  match map_to_list x with
  | [] => []
  | [(k, d)] => [leaf_bytes ty (mkItem k d)]
  | _ => match n with
         | O => []
         | S n => inner_bytes (branch_hashes (tree_hash n) (63 - n) x) ::
                  (seqZ 0 16 ≫= fun b => tree_strings n (part (63 - n) b x))
         end
  end.

Definition node_strings (n : nat) (x : Items) : list Blob :=
  inner_bytes (branch_hashes (tree_hash n) (63 - n) x) :: (seqZ 0 16 ≫= fun b => tree_strings n (part (63 - n) b x)).

Definition root_strings (x : Items) : list Blob := if decide (x = ∅) then [] else node_strings 63 x.

Lemma tree_hash_empty n : tree_hash n ∅ = 0.
Proof. destruct n; cbn [tree_hash]; by rewrite map_to_list_empty. Qed.

Lemma tree_hash_one n k d : tree_hash n {[k := d]} = leaf_hash ty (mkItem k d).
Proof. destruct n; cbn [tree_hash]; by rewrite map_to_list_singleton. Qed.

Lemma several_list x : several x -> exists e e' l, map_to_list x = e :: e' :: l.
Proof.
  intros (j & k & Hjk & [v Hj] & [w Hk]). apply elem_of_map_to_list in Hj, Hk.
  destruct (map_to_list x) as [|e [|e' l]]; [by apply not_elem_of_nil in Hj| |by exists e, e', l].
  apply list_elem_of_singleton in Hj, Hk. congruence.
Qed.

Lemma tree_hash_several n x : several x ->
  tree_hash (S n) x = sha512Half (inner_bytes (branch_hashes (tree_hash n) (63 - n) x)).
Proof. intros (e & e' & l & He)%several_list. cbn [tree_hash]. rewrite He. by destruct e, e'. Qed.

Lemma strings_empty n : tree_strings n ∅ = [].
Proof. destruct n; cbn [tree_strings]; by rewrite map_to_list_empty. Qed.

Lemma strings_one n k d : tree_strings n {[k := d]} = [leaf_bytes ty (mkItem k d)].
Proof. destruct n; cbn [tree_strings]; by rewrite map_to_list_singleton. Qed.

Lemma strings_several n x : several x -> tree_strings (S n) x = node_strings n x.
Proof. intros (e & e' & l & He)%several_list. cbn [tree_strings]. rewrite He. by destruct e, e'. Qed.

Lemma elem_of_branch n b s x : 0 <= b < 16 -> s ∈ tree_strings n (part (63 - n) b x) ->
  s ∈ (seqZ 0 16 ≫= fun b => tree_strings n (part (63 - n) b x)).
Proof. intros Hb Hs. apply list_elem_of_bind. exists b. split; [done|]. apply elem_of_seqZ. lia. Qed.

End reference.

(** ** Prefixed nodes *)

Definition node_bytes (n : node) : Blob :=
  match n with TreeNode it ty _ _ => leaf_bytes ty it | InnerNode i => inner_bytes (mHashes i) end.

Lemma add256_be h s : (add256 h s).2 = s ++ be_bytes 32 h.
Proof. done. Qed.

Lemma foldl_add256 l s : foldl (fun s h => (add256 h s).2) s l = s ++ concat (be_bytes 32 <$> l).
Proof.
  revert s. induction l as [|h l IH]; intros s; [by rewrite app_nil_r|]. cbn [foldl fmap list_fmap concat].
  by rewrite IH, add256_be, app_assoc.
Qed.

Lemma prefix_bytes `{Build} n : (forall i, n = InnerNode i -> isEmpty i = false) -> addNodeRaw snfPREFIX n [] = Ok (node_bytes n).
Proof.
  intros He. destruct n as [it ty h s|i].
  - by destruct ty; cbn [addNodeRaw addRaw_leaf]; unfold addRaw; rewrite add32_be; cbn [snd]; rewrite ?add256_be, <- ?app_assoc.
  - cbn [addNodeRaw addRaw_inner]. rewrite (He i eq_refl). rewrite assert_pass by done. by rewrite foldl_add256, add32_be.
Qed.

(** ** The hashes of a tree *)

Section hashes.
Context `{Build} {SHA : SHA512Half} (db : gmap Z Blob) (bk : bool) (ty : TNType) (sq : Z * Z).

Abbreviation okh := (ok db bk ty sq).

(** A list of sixteen by its places. *)
Lemma sixteen_map (l : list Z) (f : Z -> Z) : length l = 16%nat ->
  (forall b, 0 <= b < 16 -> l !!! Z.to_nat b = f b) -> l = f <$> seqZ 0 16.
Proof.
  intros Hl Hf. apply list_eq. intros j. rewrite list_lookup_fmap. destruct (decide (j < 16)%nat) as [Hj|Hj].
  - assert (seqZ 0 16 !! j = Some (Z.of_nat j)) as -> by (apply lookup_seqZ; lia). cbn [fmap option_fmap option_map].
    rewrite <- Hf by lia. rewrite Nat2Z.id. apply list_lookup_lookup_total_lt. lia.
  - rewrite !lookup_ge_None_2; [done| |lia]. rewrite length_seqZ. lia.
Qed.

(** The hash kept for a branch, given those of the children. *)
Lemma branch_hash n i x b : okh (S n) (InnerNode i) x -> hashed db bk (S n) (InnerNode i) -> 0 <= b < 16 ->
  (forall c, okh n c (part (63 - n) b x) -> proper c (part (63 - n) b x) -> hashed db bk n c ->
     getNodeHash c = tree_hash ty n (part (63 - n) b x)) ->
  getChildHash b i = tree_hash ty n (part (63 - n) b x).
Proof.
  intros (_ & _ & _ & Hbs) [_ Hall] Hb Hbelow. specialize (Hall b Hb). specialize (Hbs b Hb).
  destruct (isEmptyBranch b i).
  - destruct Hbs as (-> & -> & _). by rewrite tree_hash_empty.
  - destruct Hall as (c & Hc & -> & Hhc). destruct Hbs as (c0 & Hc0 & Hoc & Hp & _).
    unfold child_at in *. rewrite Hc in Hc0. injection Hc0 as <-. by apply Hbelow.
Qed.

Lemma hashed_inner n i x : okh (S n) (InnerNode i) x -> hashed db bk (S n) (InnerNode i) ->
  (forall b c, okh n c (part (63 - n) b x) -> proper c (part (63 - n) b x) -> hashed db bk n c ->
     getNodeHash c = tree_hash ty n (part (63 - n) b x)) ->
  iHash i = if decide (x = ∅) then 0 else sha512Half (inner_bytes (branch_hashes (tree_hash ty n) (63 - n) x)).
Proof.
  intros Ho Hh Hbelow. pose proof Ho as (H16 & _ & _ & Hbs). pose proof Hh as [Hi _]. rewrite Hi. cbn [iHash updateHash_inner].
  fold (isEmpty i). assert (Hmt : isEmpty i = true <-> x = ∅).
  { rewrite isEmpty_spec by done. split.
    - intros Hbe. apply map_eq. intros k. rewrite lookup_empty. pose proof (ok_branch _ _ _ _ n i x k Ho) as Hk.
      by rewrite Hbe in Hk by apply nib_range.
    - intros -> b Hb. specialize (Hbs b Hb). destruct (isEmptyBranch b i); [done|].
      destruct Hbs as (c & _ & _ & [Hne _] & _). by rewrite part_empty in Hne. }
  destruct (decide (x = ∅)) as [Hx|Hx].
  - by rewrite (proj2 Hmt).
  - replace (isEmpty i) with false by (symmetry; apply not_true_is_false; tauto). do 2 f_equal.
    unfold branch_hashes. apply sixteen_map; [apply H16|]. intros b Hb. fold (getChildHash b i).
    apply branch_hash; [done..|]. apply Hbelow.
Qed.

(** The items of an inner node with a branch. *)
Lemma ok_nonempty n i x : okh (S n) (InnerNode i) x -> x <> ∅ -> isEmpty i = false.
Proof.
  intros Ho Hx. apply not_true_is_false. intros He. apply Hx. pose proof Ho as (H16 & _).
  pose proof (proj1 (isEmpty_spec i H16) He) as Hb. apply map_eq. intros k.
  rewrite lookup_empty. pose proof (ok_branch _ _ _ _ n i x k Ho) as Hk. by rewrite Hb in Hk by apply nib_range.
Qed.

(** A node that is hashed has the hash of its bytes. *)
Lemma hashed_bytes n t x : okh n t x -> hashed db bk n t -> x <> ∅ -> getNodeHash t = sha512Half (node_bytes t).
Proof.
  destruct t as [it ty' h s|i]; [by intros (-> & _ & -> & _)%ok_leaf _ _|]. destruct n as [|n]; [done|]. intros Ho [Hi _] Hx.
  cbn [getNodeHash]. rewrite Hi. cbn [iHash updateHash_inner]. fold (isEmpty i). by rewrite (ok_nonempty n i x Ho Hx).
Qed.

(** Below the root. *)
Lemma hashed_tree n : forall t x, okh n t x -> proper t x -> hashed db bk n t -> getNodeHash t = tree_hash ty n x.
Proof.
  induction n as [|n IH]; intros [it ty' h s|i] x Ho [Hne Hsev] Hh; try done.
  1-2: apply ok_leaf in Ho as (-> & -> & -> & _); rewrite tree_hash_one; by destruct it.
  rewrite tree_hash_several by (by apply Hsev). cbn [getNodeHash].
  rewrite (hashed_inner n i x Ho Hh); [by rewrite decide_False|]. intros b c Hoc Hpc Hhc. by apply IH.
Qed.

Lemma hashed_root t x : okh 64 t x -> isInner t = true -> hashed db bk 64 t -> getNodeHash t = root_hash ty x.
Proof.
  destruct t as [|i]; [done|]. intros Ho _ Hh. cbn [getNodeHash]. apply (hashed_inner 63 i x Ho Hh).
  intros b c Hoc Hpc Hhc. by apply hashed_tree.
Qed.

(** The strings of a node and what is below it. *)
Definition strings_of (n : nat) (t : node) (x : Items) : list Blob :=
  match t with TreeNode it _ _ _ => [leaf_bytes ty it] | InnerNode _ => node_strings ty (pred n) x end.

Lemma strings_of_tree n t x : okh n t x -> proper t x -> strings_of n t x = tree_strings ty n x.
Proof.
  destruct t as [it ty' h s|i].
  - intros (-> & -> & _)%ok_leaf _. rewrite strings_one. by destruct it.
  - destruct n as [|n]; [done|]. intros _ [_ Hsev]. by rewrite strings_several by (by apply Hsev).
Qed.

Lemma hashed_hashes n i x : okh (S n) (InnerNode i) x -> hashed db bk (S n) (InnerNode i) ->
  mHashes i = branch_hashes (tree_hash ty n) (63 - n) x.
Proof.
  intros Ho Hh. apply sixteen_map; [apply Ho|]. intros b Hb. fold (getChildHash b i). apply branch_hash; [done..|].
  intros c Hoc Hpc Hhc. by apply hashed_tree.
Qed.

Lemma hashed_node_bytes n t x : okh n t x -> hashed db bk n t -> node_bytes t ∈ strings_of n t x.
Proof.
  destruct t as [it ty' h s|i].
  - intros (-> & _)%ok_leaf _. by left.
  - destruct n as [|n]; [done|]. intros Ho Hh. cbn [strings_of node_bytes pred]. unfold node_strings.
    rewrite (hashed_hashes n i x Ho Hh). by left.
Qed.

(** Nodes that are not ours are hashed, and so are leaves. *)
Lemma ok_hashed n t x : okh n t x -> getSeq t = 0 \/ isLeaf t = true \/ getNodeHash t <> 0 -> hashed db bk n t.
Proof.
  destruct t as [it ty' h s|i].
  - intros (-> & _ & -> & _)%ok_leaf _. by destruct n.
  - destruct n as [|n]; [done|]. intros (_ & _ & Hh & _) [Hs|[|Hz]]; [|done|]; apply Hh; [by right|by left].
Qed.

End hashes.

(** ** Flushing *)

Section flush.
Context `{Build} {SHA : SHA512Half} (db : gmap Z Blob) (ty : TNType) (m : ShaMap.t) (lo : Z).
Context (seq_pos : 0 < seq_ m /\ 0 <= lo <= seq_ m).

(** What is written has the sequence zero. *)
Context (w : bool) (lo_written : w && backed_ m = true -> lo = 0).

Abbreviation okm := (ok db (backed_ m) ty (lo, seq_ m)).
Abbreviation hashedm := (hashed db (backed_ m)).

(** The branches hold the parts; [ok] without the node's own hash. *)
Definition branches_ok (n : nat) (i : inner node) (x : Items) : Prop :=
  sixteen i /\ forall b, 0 <= b < 16 ->
    if isEmptyBranch b i
    then part (63 - n) b x = ∅ /\ getChildHash b i = 0 /\ getChild b i = None
    else exists c, child_at db (backed_ m) i b c /\ okm n c (part (63 - n) b x) /\ proper c (part (63 - n) b x) /\
         (getChild b i = None -> getNodeHash c = getChildHash b i /\ getSeq c = 0).

Lemma link_branches n b i x c : 0 <= b < 16 -> branches_ok n i x -> isEmptyBranch b i = false ->
  okm n c (part (63 - n) b x) -> proper c (part (63 - n) b x) -> branches_ok n (link b c i) x.
Proof.
  intros Hb [H16 Hbs] Hne Hoc Hp. split.
  { destruct H16 as (?&?&?). split; [done|]. split; [|done]. simpl. by rewrite length_insert. }
  intros b' Hb'. specialize (Hbs b' Hb'). change (isEmptyBranch b' (link b c i)) with (isEmptyBranch b' i).
  change (getChildHash b' (link b c i)) with (getChildHash b' i). unfold child_at. rewrite link_at, link_child by done.
  destruct (decide (b' = b)) as [->|]; [|exact Hbs]. rewrite Hne in *. by exists c.
Qed.

Lemma shareChild_ok b c i : 0 <= b < 16 -> iSeq i <> 0 -> shareChild b c i = Ok (link b c i).
Proof.
  intros Hb Hs. unfold shareChild. rewrite assert_pass by (apply andb_true_iff; split; lia).
  by rewrite assert_pass by (by rewrite (proj2 (Z.eqb_neq _ _))).
Qed.

Lemma preFlush_ok t : getSeq t <> 0 -> preFlushNode t m = Ok (clone (seq_ m) t).
Proof.
  intros Hs. unfold preFlushNode. rewrite assert_pass by (by rewrite (proj2 (Z.eqb_neq _ _))).
  destruct (Z.eqb_spec (getSeq t) (seq_ m)) as [He|]; [|done]. cbn [negb]. rewrite <- He. by destruct t as [|[]].
Qed.

(** A new sequence on a node that is hashed, or that is ours. *)
Lemma hashed_setSeq n s t : hashedm n t -> hashedm n (setSeq s t).
Proof. by destruct t, n. Qed.

Lemma ok_setSeq n s t x : okm n t x -> (hashedm n t \/ 0 < s) -> lo <= s <= seq_ m -> okm n (setSeq s t) x.
Proof.
  destruct t as [it ty' h s'|i].
  - intros (-> & -> & -> & _)%ok_leaf _ Hs. by apply ok_leaf.
  - destruct n as [|n]; [done|]. intros (H16 & Hs' & Hh & Hbs) Hor Hs. split; [exact H16|]. split; [exact Hs|].
    split; [|exact Hbs]. intros Hz. apply (hashed_setSeq (S n) s (InnerNode i)). destruct Hor as [|Hs0]; [done|].
    apply Hh. left. destruct Hz as [Hz|Hz]; cbn in *; [done|lia].
Qed.

(** The strings put in the store. *)
Definition writes (ws : list Blob) (out : gmap Z Blob) : gmap Z Blob := foldl (fun o s => <[sha512Half s := s]> o) out ws.

(** Strings among [strs] were written, and each of them if [all]. *)
Definition emitted (strs : Blob -> Prop) (all : Prop) (out out' : gmap Z Blob) : Prop :=
  exists ws, out' = writes ws out /\ (forall s, s ∈ ws -> strs s) /\ (all -> w && backed_ m = true -> forall s, strs s -> s ∈ ws).

Lemma emitted_app p q all out out1 out2 : emitted p all out out1 -> emitted q all out1 out2 ->
  emitted (fun s => p s \/ q s) all out out2.
Proof.
  intros (ws & -> & Hp & Hpa) (ws' & -> & Hq & Hqa). exists (ws ++ ws'). split; [unfold writes; by rewrite foldl_app|].
  split.
  - intros s [Hs|Hs]%elem_of_app; [left; by apply Hp|right; by apply Hq].
  - intros Ha Hw s [Hs|Hs]; apply elem_of_app; [left; by apply Hpa|right; by apply Hqa].
Qed.

Lemma emitted_weaken (p q : Blob -> Prop) (all all' : Prop) out out' : emitted p all out out' -> (forall s, p s -> q s) ->
  (all' -> all /\ forall s, q s -> p s) -> emitted q all' out out'.
Proof.
  intros (ws & -> & Hp & Hpa) Hpq Hall. exists ws. split; [done|]. split; [intros s Hs; by apply Hpq, Hp|].
  intros Ha Hw s Hs. destruct (Hall Ha) as [Hall' Hqp]. by apply Hpa; [..|apply Hqp].
Qed.

Lemma emitted_none (p : Blob -> Prop) (all : Prop) out : (all -> forall s, ~ p s) -> emitted p all out out.
Proof. intros Hall. exists []. split; [done|]. split; [by intros s ?%not_elem_of_nil|]. intros Ha _ s Hs. by destruct (Hall Ha s). Qed.

Lemma write_if_ok n t x out : okm n t x -> hashedm n t -> x <> ∅ -> getSeq t = seq_ m ->
  exists t' out', write_if w t out m = Ok (t', out') /\ okm n t' x /\ hashedm n t' /\
    isInner t' = isInner t /\ emitted (fun s => s = node_bytes t) True out out'.
Proof.
  intros Ho Hh Hx Hs. unfold write_if. destruct (w && backed_ m) eqn:Hw.
  2:{ eexists _, _. split; [done|]. split; [done|]. split; [done|]. split; [done|]. exists []. split; [done|].
      split; [by intros s ?%not_elem_of_nil|by rewrite Hw]. }
  specialize (lo_written eq_refl). unfold writeNode. rewrite assert_pass by (apply Z.eqb_eq; lia). rewrite prefix_bytes.
  2:{ intros i Hi. destruct t as [|i0]; [done|]. injection Hi as <-. destruct n as [|n]; [done|]. exact (ok_nonempty _ _ _ _ n i0 x Ho Hx). }
  rewrite bind_pass. eexists _, _. split; [done|]. split; [by apply ok_setSeq; [|left|lia]|].
  split; [by apply hashed_setSeq|]. split; [by destruct t|]. exists [node_bytes t]. split.
  - cbn [writes foldl]. rewrite <- (hashed_bytes db (backed_ m) ty (lo, seq_ m) n t x Ho Hh Hx). by destruct t.
  - split; [by intros s ->%list_elem_of_singleton|]. intros _ _ s ->. by left.
Qed.

(** The hashes of the children in memory. *)
Lemma deep_hash b i : 0 <= b < 16 -> sixteen i ->
  getChildHash b (updateHashDeep i) = match getChild b i with Some c => getNodeHash c | None => getChildHash b i end.
Proof.
  intros Hb (Hh & Hc & _). unfold getChildHash, getChild, updateHashDeep, updateHash_inner. cbn [mHashes].
  apply list_lookup_total_correct. rewrite lookup_zip_with.
  rewrite (list_lookup_lookup_total_lt (mHashes i)) by lia. rewrite (list_lookup_lookup_total_lt (mChildren i)) by lia.
  done.
Qed.

Lemma deep_at b i : 0 <= b < 16 -> sixteen i ->
  descendThrow db (updateHashDeep i) b (backed_ m) = descendThrow db i b (backed_ m).
Proof.
  intros Hb H16. unfold descendThrow. rewrite deep_hash by done. change (getChild b (updateHashDeep i)) with (getChild b i).
  by destruct (getChild b i).
Qed.

Lemma deep_ok n i x : branches_ok n i x -> iSeq i = seq_ m ->
  (forall b c, 0 <= b < 16 -> getChild b i = Some c -> hashedm n c) ->
  okm (S n) (InnerNode (updateHashDeep i)) x /\ hashedm (S n) (InnerNode (updateHashDeep i)).
Proof.
  intros [H16 Hbs] Hs Hc.
  assert (Hh : hashedm (S n) (InnerNode (updateHashDeep i))).
  { split; [done|]. intros b Hb. specialize (Hbs b Hb). rewrite deep_hash by done.
    change (isEmptyBranch b (updateHashDeep i)) with (isEmptyBranch b i). unfold child_at. rewrite deep_at by done.
    destruct (isEmptyBranch b i); [by destruct Hbs as (_ & -> & ->)|]. destruct Hbs as (c & Hca & Hoc & _ & Hnone).
    exists c. split; [exact Hca|]. unfold child_at, descendThrow in Hca. destruct (getChild b i) as [c'|] eqn:Hg.
    - injection Hca as ->. split; [done|]. by apply (Hc b).
    - destruct (Hnone eq_refl) as [-> Hs0]. split; [done|]. eapply ok_hashed; [exact Hoc|by left]. }
  split; [|done]. split.
  { destruct H16 as (Hl1 & Hl2 & ?). split; [|done]. simpl. rewrite length_zip_with. rewrite Hl1, Hl2. done. }
  split; [simpl; lia|]. split; [done|]. intros b Hb. specialize (Hbs b Hb). rewrite deep_hash by done.
  change (isEmptyBranch b (updateHashDeep i)) with (isEmptyBranch b i).
  change (getChild b (updateHashDeep i)) with (getChild b i). unfold child_at. rewrite deep_at by done.
  destruct (isEmptyBranch b i); [by destruct Hbs as (-> & -> & ->)|]. destruct Hbs as (c & Hca & Hoc & Hp & Hnone).
  exists c. split; [exact Hca|]. split; [done|]. split; [done|]. intros Hg. rewrite Hg in *. by apply Hnone.
Qed.

(** Every node is in memory and to be flushed. *)
Fixpoint dirty (n : nat) (t : node) : Prop :=
  getSeq t <> 0 /\
  match t, n with
  | InnerNode i, S n => forall b, 0 <= b < 16 -> isEmptyBranch b i = false -> exists c, getChild b i = Some c /\ dirty n c
  | _, _ => True
  end.

(** The child of a branch is hashed. *)
Definition settled (n : nat) (i : inner node) (b : Z) : Prop :=
  forall c, getChild b i = Some c -> hashedm n c.

(** The node [i0] with some branches flushed, [rest] to go. *)
Record flushing (n : nat) (x : Items) (i0 : inner node) (out0 : gmap Z Blob) (rest : list Z) (acc : inner node * Flushed) : Prop := {
  flushing_ok : branches_ok n acc.1 x;
  flushing_seq : iSeq acc.1 = seq_ m;
  flushing_settled : forall b, 0 <= b < 16 -> b ∉ rest -> settled n acc.1 b;
  flushing_rest : mIsBranch acc.1 = mIsBranch i0 /\ forall b, b ∈ rest -> 0 <= b < 16 -> getChild b acc.1 = getChild b i0;
  flushing_out : emitted (fun s => exists b, 0 <= b < 16 /\ (b ∉ rest) /\ s ∈ tree_strings ty n (part (63 - n) b x))
    (dirty (S n) (InnerNode i0)) out0 acc.2.1 }.

(** The descent gives a hashed subtree. *)
Definition flushes (n : nat) (down : inner node -> Flushed -> result (node * Flushed)) : Prop :=
  forall i x st, okm n (InnerNode i) x -> iSeq i = seq_ m -> x <> ∅ ->
  exists t' st', down i st = Ok (t', st') /\ okm n t' x /\ hashedm n t' /\ isInner t' = true /\
    emitted (fun s => s ∈ node_strings ty (pred n) x) (dirty n (InnerNode i)) st.1 st'.1.

(** A branch done leaves one less. *)
Lemma flushing_done n x i0 out0 b rest i st : 0 <= b < 16 -> b ∉ rest -> flushing n x i0 out0 (b :: rest) (i, st) ->
  settled n i b -> (dirty (S n) (InnerNode i0) -> tree_strings ty n (part (63 - n) b x) = []) -> flushing n x i0 out0 rest (i, st).
Proof.
  intros Hb Hnin [Hbo Hs Hall [Hmask Hrest] Hout] Hset Hnone. constructor; [done|done| | |].
  - intros b' Hb' Hr. destruct (decide (b' = b)) as [->|]; [done|]. apply Hall; [done|]. by apply not_elem_of_cons.
  - split; [done|]. intros b' Hb' Hr. apply Hrest; [by right|done].
  - eapply emitted_weaken; [exact Hout|..].
    + intros s (b' & Hb' & Hr & Hs'). exists b'. split; [done|]. split; [|done]. by apply not_elem_of_cons in Hr as [_ ?].
    + intros Hd. split; [done|]. intros s (b' & Hb' & Hr & Hs'). exists b'. split; [done|]. split; [|done].
      apply not_elem_of_cons. split; [|done]. intros ->. rewrite (Hnone Hd) in Hs'. by apply not_elem_of_nil in Hs'.
Qed.

Lemma flushing_link n x i0 out0 b rest i st st' c c0 : 0 <= b < 16 -> b ∉ rest -> flushing n x i0 out0 (b :: rest) (i, st) ->
  getChild b i = Some c0 -> okm n c (part (63 - n) b x) -> isInner c = isInner c0 -> hashedm n c ->
  emitted (fun s => s ∈ tree_strings ty n (part (63 - n) b x)) (dirty n c0) st.1 st'.1 ->
  flushing n x i0 out0 rest (link b c i, st').
Proof.
  intros Hb Hnin [Hbo Hs Hall [Hmask Hrest] Hout] Hg Hoc Hi Hh Hem. cbn [fst snd] in *. pose proof Hbo as [H16 Hbs]. specialize (Hbs b Hb).
  destruct (isEmptyBranch b i) eqn:He; [destruct Hbs as (_ & _ & Hn); congruence|].
  destruct Hbs as (c1 & Hc1 & _ & Hp & _). unfold child_at, descendThrow in Hc1. rewrite Hg in Hc1. injection Hc1 as <-.
  constructor; cbn [fst snd].
  - apply link_branches; [done..|]. destruct Hp as [? Hp]. split; [done|]. by rewrite Hi.
  - done.
  - intros b' Hb' Hr c'. rewrite link_child by done. destruct (decide (b' = b)) as [->|Hne].
    + by intros [= <-].
    + apply Hall; [done|]. by apply not_elem_of_cons.
  - split; [done|]. intros b' Hb' Hr. rewrite link_child by done. rewrite decide_False by congruence. apply Hrest; [by right|done].
  - assert (Hd0 : dirty (S n) (InnerNode i0) -> dirty n c0).
    { intros [_ Hd]. destruct (Hd b Hb) as (c' & Hc' & Hdc); [unfold isEmptyBranch in *; by rewrite <- Hmask|].
      rewrite <- (Hrest b ltac:(by left) Hb), Hg in Hc'. by injection Hc' as <-. }
    eapply emitted_weaken; [eapply emitted_app; [exact Hout|eapply (emitted_weaken _ _ _ (dirty (S n) (InnerNode i0))); [exact Hem|..]]|..].
    + by intros s Hs'.
    + intros Hd. split; [by apply Hd0|done].
    + intros s [(b' & Hb' & Hr & Hs')|Hs'].
      * exists b'. split; [done|]. split; [|done]. by apply not_elem_of_cons in Hr as [_ ?].
      * by exists b.
    + intros Hd. split; [done|]. intros s (b' & Hb' & Hr & Hs'). destruct (decide (b' = b)) as [->|Hne]; [by right|].
      left. exists b'. split; [done|]. split; [|done]. by apply not_elem_of_cons.
Qed.

Lemma dirty_setSeq n s t : s <> 0 -> dirty n t -> dirty n (setSeq s t).
Proof. intros Hs. destruct t as [|i], n; intros [? Hd]; by split. Qed.

Lemma flush_branch_ok n x i0 out0 b rest acc down : (n < 64)%nat -> flushes n down -> 0 <= b < 16 -> b ∉ rest ->
  flushing n x i0 out0 (b :: rest) acc -> exists acc', flush_branch down w m acc b = Ok acc' /\ flushing n x i0 out0 rest acc'.
Proof.
  intros Hn Hdown Hb Hnin Hf. destruct acc as [i st]. unfold flush_branch. pose proof Hf as [[H16 Hbs] Hs _ [Hmask Hrest] _].
  cbn [fst] in *. specialize (Hbs b Hb). specialize (Hrest b ltac:(by left) Hb).
  assert (Hsame : isEmptyBranch b i = isEmptyBranch b i0) by (unfold isEmptyBranch; by rewrite Hmask).
  destruct (isEmptyBranch b i) eqn:He.
  { eexists. split; [done|]. eapply flushing_done; [done..| |].
    - intros c Hc. destruct Hbs as (_ & _ & Hg). congruence.
    - intros _. destruct Hbs as (-> & _). apply strings_empty. }
  assert (Hdc : dirty (S n) (InnerNode i0) -> exists c, getChild b i = Some c /\ dirty n c).
  { intros [_ Hd]. rewrite Hrest. apply Hd; [done|congruence]. }
  destruct (getChild b i) as [c|] eqn:Hg.
  2:{ eexists. split; [done|]. eapply flushing_done; [done..| |].
      - intros c Hc. congruence.
      - intros Hd. by destruct (Hdc Hd) as (? & ? & _). }
  destruct Hbs as (c1 & Hc1 & Hoc & Hp & _). unfold child_at, descendThrow in Hc1. rewrite Hg in Hc1. injection Hc1 as <-.
  destruct (Z.eqb_spec (getSeq c) 0) as [Hs0|Hs0].
  { eexists. split; [done|]. eapply flushing_done; [done..| |].
    - intros c' Hc'. rewrite Hg in Hc'. injection Hc' as <-. eapply ok_hashed; [done|by left].
    - intros Hd. destruct (Hdc Hd) as (c' & [= <-] & Hdc'). destruct n, c; by destruct Hdc'. }
  rewrite preFlush_ok, bind_pass by done.
  assert (Hoc' : okm n (clone (seq_ m) c) (part (63 - n) b x)) by (apply ok_setSeq; [done|right; lia|lia]).
  assert (Hp' : proper (clone (seq_ m) c) (part (63 - n) b x)) by (by destruct c).
  pose proof (strings_of_tree _ _ _ _ n _ _ Hoc' Hp') as Hstr.
  destruct c as [it ty' h s|ci]; cbn [clone setSeq] in *.
  - rewrite assert_pass by (apply Z.eqb_eq; lia). cbn [updateHash snd].
    apply ok_leaf in Hoc' as Hleaf. destruct Hleaf as (-> & Hx & -> & _).
    destruct (write_if_ok n _ _ st.1 Hoc' (ok_hashed _ _ _ _ _ _ _ Hoc' ltac:(by right; left)) (proj1 Hp) eq_refl)
      as (t' & out' & -> & Ho' & Hh' & Hi' & Hem). rewrite bind_pass. cbn [fst snd].
    rewrite shareChild_ok, bind_pass by (done || lia). eexists. split; [done|]. eapply flushing_link; [done..|].
    cbn [fst]. rewrite <- Hstr. eapply emitted_weaken; [exact Hem|..]; cbn [strings_of node_bytes].
    + intros s' ->. by left.
    + intros _. split; [done|]. by intros s' ->%list_elem_of_singleton.
  - destruct (Hdown _ _ st Hoc' eq_refl (proj1 Hp)) as (t' & st' & -> & Ho' & Hh' & Hi' & Hem). rewrite bind_pass.
    rewrite assert_pass by (apply Z.eqb_eq; lia). rewrite shareChild_ok, bind_pass by (done || lia).
    eexists. split; [done|]. eapply flushing_link; [done..|]. rewrite <- Hstr. cbn [strings_of].
    eapply emitted_weaken; [exact Hem|done|]. intros Hd. split; [|done]. apply (dirty_setSeq n (seq_ m) (InnerNode ci)); [lia|done].
Qed.

Lemma flush_branches_ok n x i0 out0 down l : (n < 64)%nat -> flushes n down -> NoDup l -> (forall b, b ∈ l -> 0 <= b < 16) ->
  forall acc, flushing n x i0 out0 l acc ->
  exists acc', foldM (flush_branch down w m) acc l = Ok acc' /\ flushing n x i0 out0 [] acc'.
Proof.
  intros Hn Hdown. induction l as [|b l IH]; intros Hnd Hl acc Hf; [by exists acc|].
  apply list.NoDup_cons in Hnd as [Hnin Hnd]. cbn [foldM].
  destruct (flush_branch_ok n x i0 out0 b l acc down Hn Hdown) as (acc' & -> & Hf'); [apply Hl; by left|done|done|].
  rewrite bind_pass. apply IH; [done| |done]. intros b' Hb'. apply Hl. by right.
Qed.

Lemma flush_spec n : forall fuel, (n < fuel)%nat -> (n <= 64)%nat -> flushes n (fun i st => flush_inner fuel w i st m).
Proof.
  induction n as [|n IH]; intros [|fuel] Hf Hn; try lia; intros i x st Ho Hs Hx; [done|]. cbn [flush_inner].
  pose proof Ho as (H16 & _ & _ & Hbs).
  destruct (flush_branches_ok n x i st.1 _ (seqZ 0 16) ltac:(lia) (IH fuel ltac:(lia) ltac:(lia)) (NoDup_seqZ _ _)
    ltac:(intros b Hb; apply elem_of_seqZ in Hb; lia) (i, st)) as ([i' st'] & -> & Hfl).
  { constructor; [by split|done| |done|].
    - intros b Hb Hnin. exfalso. apply Hnin, elem_of_seqZ. lia.
    - apply emitted_none. intros _ s (b & Hb & Hnin & _). apply Hnin, elem_of_seqZ. lia. }
  rewrite bind_pass. destruct Hfl as [Hbo Hs' Hset _ Hout]. cbn [fst snd] in *.
  destruct (deep_ok n i' x Hbo Hs') as [Hdo Hdh].
  { intros b c Hb Hg. by apply (Hset b Hb); [apply not_elem_of_nil|]. }
  pose proof (hashed_node_bytes _ _ _ _ (S n) _ x Hdo Hdh) as Hin.
  destruct (write_if_ok (S n) _ x st'.1 Hdo Hdh Hx ltac:(exact Hs')) as (t' & out' & -> & Ho' & Hh' & Hi' & Hem).
  rewrite bind_pass. eexists _, _. split; [done|]. split; [done|]. split; [done|]. split; [done|]. cbn [fst snd pred].
  eapply emitted_weaken; [eapply emitted_app; [exact Hout|eapply (emitted_weaken _ _ _ (dirty (S n) (InnerNode i))); [exact Hem|..]]|..].
  - by intros s Hs0.
  - done.
  - intros s [(b & Hb & _ & Hsb)|Heq]; [right; by apply (elem_of_branch ty n b)|subst s; exact Hin].
  - intros Hd. split; [done|]. intros s Hsn. unfold node_strings in Hsn. apply elem_of_cons in Hsn as [->|Hsn].
    + right. cbn [node_bytes]. by rewrite (hashed_hashes _ _ _ _ n _ x Hdo Hdh).
    + left. apply list_elem_of_bind in Hsn as (b & Hsb & Hb). exists b. apply elem_of_seqZ in Hb. split; [lia|].
      split; [apply not_elem_of_nil|done].
Qed.

End flush.

(** ** The operations *)

Section held.
Context `{Build} {SHA : SHA512Half} (db : gmap Z Blob) (ty : TNType) (lo : Z) (m : ShaMap.t) (x : Items).
Context (held : holds lo db ty m x).

(** Flushing keeps the items, and then every hash is that of what is below. *)
Lemma walkSubTree_spec w out : (w && backed_ m = true -> lo = 0) ->
  exists m' f, walkSubTree w out m = Ok (m', f) /\ holds lo db ty m' x /\ same_map m m' /\
  hashed db (backed_ m') 64 (root_ m').
Proof.
  intros Hlo. pose proof held as [Hroot Htree Hseq Hkeys]. unfold walkSubTree.
  destruct (Z.eqb_spec (getSeq (root_ m)) 0) as [Hs|Hs].
  { eexists _, _. split; [done|]. split; [done|]. split; [done|]. eapply ok_hashed; [done|by left]. }
  destruct (root_ m) as [|i] eqn:Hr; [done|]. destruct (isEmpty i) eqn:He.
  { eexists _, _. split; [done|]. split; [done|]. split; [done|]. rewrite Hr. pose proof Htree as (H16 & _ & _ & Hbs).
    pose proof (proj1 (isEmpty_spec i H16) He) as Hb. destruct (decide (iHash i = 0)) as [Hz|Hz].
    - split; [cbn [iHash updateHash_inner]; fold (isEmpty i); by rewrite He|]. intros b Hb'. specialize (Hbs b Hb').
      rewrite (Hb b Hb') in *. apply Hbs.
    - eapply ok_hashed; [done|by right; right]. }
  rewrite preFlush_ok, bind_pass by done. cbn [clone setSeq].
  set (i' := mkInner _ (seq_ m) _ _ _).
  assert (Ho' : ok db (backed_ m) ty (lo, seq_ m) 64 (InnerNode i') x) by
    (apply (ok_setSeq db ty m lo 64 (seq_ m) (InnerNode i)); [done|right; lia|lia]).
  assert (Hx : x <> ∅).
  { intros ->. pose proof Htree as (H16 & _ & _ & Hbs). apply not_true_iff_false in He. apply He.
    apply isEmpty_spec; [done|]. intros b Hb. specialize (Hbs b Hb). destruct (isEmptyBranch b i); [done|].
    destruct Hbs as (c & _ & _ & [Hne _] & _). by rewrite part_empty in Hne. }
  destruct (flush_spec db ty m lo Hseq w Hlo 64 levels (levels_gt 64 ltac:(lia)) ltac:(lia) i' x (out, 0) Ho' eq_refl Hx)
    as (t' & st' & Hfl & Hot & Hht & Hit & _). rewrite Hfl, bind_pass. eexists _, _. split; [done|]. cbn [fst snd].
  split; [by constructor|]. by split.
Qed.

End held.
End ShaHash.
