(* ===== verification/ShaRun.v ===== *)
(** * Hash trees in use

    The operations of a [SHAMap] in any order do what they would do to a finite
    map from keys to data: their results, the neighbours of a key and the hash
    of the root are functions of what was put in. *)

From stdpp Require Import base tactics numbers list strings option gmap sorting.
From S2P Require Import Prelude Serializer View Indexes ShaNode ShaMap ShaTree ShaEdit ShaHash.

Module ShaRun.
Import Serializer ShaNode ShaMap ShaTree ShaEdit ShaHash.

(** The fuel of the descents is not to be unfolded. *)
#[local] Strategy opaque [levels getStack_from endBelow].

(** ** Neighbours *)

Lemma sorted_up a n : StronglySorted Z.le (seqZ a n).
Proof.
  destruct (Z.le_gt_cases 0 n) as [Hn|Hn]; [|rewrite seqZ_nil by lia; constructor].
  revert a. pattern n. apply natlike_ind; [constructor| |done]. clear n Hn. intros n Hn IH a.
  rewrite seqZ_cons by lia. constructor; [rewrite Z.pred_succ; apply IH|].
  apply list.Forall_forall. intros z Hz. apply elem_of_seqZ in Hz. lia.
Qed.

Lemma sorted_down a n : StronglySorted Z.ge (reverse (seqZ a n)).
Proof.
  pose proof (sorted_up a n) as Hs. induction Hs as [|z l Hs IH Hz]; [constructor|]. rewrite reverse_cons.
  clear Hs. assert (Hz' : Forall (fun y => z <= y) (reverse l)) by (by apply Forall_reverse). clear Hz.
  induction IH as [|y l' _ IH' Hy]; [repeat constructor|]. apply Forall_cons_1 in Hz' as [Hzy Hz'].
  cbn [app]. constructor; [by apply IH'|]. apply list.Forall_app. split; [done|]. apply list.Forall_cons_2; [lia|constructor].
Qed.

Lemma pre_mono d k j : k <= j -> pre d k <= pre d j.
Proof. intros Hkj. destruct (Z.le_gt_cases (pre d k) (pre d j)) as [|Hlt]; [done|]. apply pre_lt in Hlt. lia. Qed.

Section neighbours.
Context `{Build} {SHA : SHA512Half} (db : gmap Z Blob) (ty : TNType) (lo : Z) (m : ShaMap.t) (x : Items).
Context (held : holds lo db ty m x).

Lemma held_within : within (64 - 64) 0 x.
Proof.
  intros k [d Hk]. destruct (holds_keys _ _ _ _ _ held k d Hk) as [Hkey _]. split; [done|]. simpl. by apply pre_0.
Qed.

(** The least item above a key, the greatest below it. *)
Definition next_item (id : Z) (r : option SHAMapItem) : Prop :=
  match r with
  | Some it => x !! key it = Some (data it) /\ id < key it /\ forall j, is_Some (x !! j) -> id < j -> key it <= j
  | None => forall j, is_Some (x !! j) -> j <= id
  end.

Definition prev_item (id : Z) (r : option SHAMapItem) : Prop :=
  match r with
  | Some it => x !! key it = Some (data it) /\ key it < id /\ forall j, is_Some (x !! j) -> j < id -> j <= key it
  | None => forall j, is_Some (x !! j) -> id <= j
  end.

Lemma peekNextItem_spec id : is_key id -> exists r, peekNextItem db id m = Ok r /\ next_item id r.
Proof.
  intros Hid. pose proof held as [Hroot Htree Hseq Hkeys]. unfold peekNextItem, getStack.
  change (firstBelow db) with (endBelow db (seqZ 0 16) levels).
  destruct (seek_spec db (backed_ m) ty (lo, seq_ m) Z.le (seqZ 0 16) ltac:(intros; lia)
    ltac:(intros d k j Hne Hle; apply Z.lt_le_incl, (pre_lt d); lia) ltac:(intros; lia)
    ltac:(intros; rewrite elem_of_seqZ; lia) (sorted_up 0 16) Z.ltb after ltac:(intros; rewrite Z.ltb_lt; lia)
    ltac:(intros; lia) ltac:(intros; lia)
    ltac:(intros b b' Hb; unfold after; rewrite elem_of_seqZ, Z.ltb_lt; lia)
    ltac:(intros b; apply sorted_up) 64 levels (root_ m) x 0 id NodeID.root [] "SHAMapMissingNode"
    (levels_gt 64 ltac:(lia)) ltac:(lia) ltac:(done) held_within Htree Hid (pre_0 id Hid)) as (r & Hr & Heq).
  exists r. split; [rewrite Heq; by destruct r|]. destruct r as [it|]; cbn [first_beyond next_item prev_item] in *.
  - destruct Hr as (Hit & Hlt & Hmin). split; [done|]. split; [lia|]. intros j Hj Hij. apply Hmin; [done|lia].
  - intros j Hj. specialize (Hr j Hj). lia.
Qed.

Lemma peekPrevItem_spec id : is_key id -> exists r, peekPrevItem db id m = Ok r /\ prev_item id r.
Proof.
  intros Hid. pose proof held as [Hroot Htree Hseq Hkeys]. unfold peekPrevItem, getStack.
  change (lastBelow db) with (endBelow db (reverse (seqZ 0 16)) levels).
  destruct (seek_spec db (backed_ m) ty (lo, seq_ m) Z.ge (reverse (seqZ 0 16)) ltac:(intros; lia)
    ltac:(intros d k j Hne Hle; apply Z.le_ge, Z.lt_le_incl, (pre_lt d); lia) ltac:(intros; lia)
    ltac:(intros; rewrite elem_of_reverse, elem_of_seqZ; lia) (sorted_down 0 16) Z.gtb before
    ltac:(intros; rewrite Z.gtb_lt; lia) ltac:(intros; lia) ltac:(intros; lia)
    ltac:(intros b b' Hb; unfold before; rewrite elem_of_reverse, elem_of_seqZ, Z.gtb_lt; lia)
    ltac:(intros b; apply sorted_down) 64 levels (root_ m) x 0 id NodeID.root [] "null"
    (levels_gt 64 ltac:(lia)) ltac:(lia) ltac:(done) held_within Htree Hid (pre_0 id Hid)) as (r & Hr & Heq).
  exists r. split; [rewrite Heq; by destruct r|]. destruct r as [it|]; cbn [first_beyond next_item prev_item] in *.
  - destruct Hr as (Hit & Hlt & Hmin). split; [done|]. split; [lia|]. intros j Hj Hij.
    specialize (Hmin j Hj ltac:(lia)). lia.
  - intros j Hj. specialize (Hr j Hj). lia.
Qed.

Lemma peekFirstItem_spec : exists r, peekFirstItem db m = Ok r /\
  match r with
  | Some it => x !! key it = Some (data it) /\ forall j, is_Some (x !! j) -> key it <= j
  | None => x = ∅
  end.
Proof.
  pose proof held as [Hroot Htree Hseq Hkeys]. unfold peekFirstItem, firstBelow.
  destruct (end_spec db (backed_ m) ty (lo, seq_ m) Z.le (seqZ 0 16) ltac:(intros; lia)
    ltac:(intros d k j Hne Hle; apply Z.lt_le_incl, (pre_lt d); lia) ltac:(intros; lia)
    ltac:(intros; rewrite elem_of_seqZ; lia) (sorted_up 0 16) 64 levels (root_ m) x 0
    (levels_gt 64 ltac:(lia)) ltac:(lia) held_within Htree) as (r & -> & Hr).
  rewrite bind_pass. eexists. split; [done|]. destruct r as [l|]; cbn [first_of item_of] in *; [|done].
  destruct Hr as [Hl Hmin]. split; [|done]. unfold found in Hl. destruct (x !! key l.1.1); [|done]. by injection Hl as <-.
Qed.

Lemma peekLastItem_spec : exists r, peekLastItem db m = Ok r /\
  match r with
  | Some it => x !! key it = Some (data it) /\ forall j, is_Some (x !! j) -> j <= key it
  | None => x = ∅
  end.
Proof.
  pose proof held as [Hroot Htree Hseq Hkeys]. unfold peekLastItem, lastBelow.
  destruct (end_spec db (backed_ m) ty (lo, seq_ m) Z.ge (reverse (seqZ 0 16)) ltac:(intros; lia)
    ltac:(intros d k j Hne Hle; apply Z.le_ge, Z.lt_le_incl, (pre_lt d); lia) ltac:(intros; lia)
    ltac:(intros; rewrite elem_of_reverse, elem_of_seqZ; lia) (sorted_down 0 16) 64 levels (root_ m) x 0
    (levels_gt 64 ltac:(lia)) ltac:(lia) held_within Htree) as (r & -> & Hr).
  rewrite bind_pass. eexists. split; [done|]. destruct r as [l|]; cbn [first_of item_of] in *; [|done].
  destruct Hr as [Hl Hmin]. split; [|intros j Hj; specialize (Hmin j Hj); lia].
  unfold found in Hl. destruct (x !! key l.1.1); [|done]. by injection Hl as <-.
Qed.

(** The hash of the map is that of its items; the map still holds them. *)
Lemma getHash_spec : exists m', getHash m = Ok (root_hash ty x, m') /\ holds lo db ty m' x /\ same_map m m' /\
  hashed db (backed_ m') 64 (root_ m').
Proof.
  pose proof held as [Hroot Htree Hseq Hkeys]. unfold getHash.
  destruct (Z.eqb_spec (getNodeHash (root_ m)) 0) as [Hz|Hz].
  - destruct (walkSubTree_spec db ty lo m x held false ∅ ltac:(done)) as (m' & f & Hw & Hm & Hs & Hh). unfold unshare.
    rewrite Hw, !bind_pass. cbn [fst]. exists m'. split; [|done]. do 2 f_equal.
    eapply hashed_root; [apply Hm|apply Hm|exact Hh].
  - assert (Hh : hashed db (backed_ m) 64 (root_ m)) by (eapply ok_hashed; [done|by right; right]).
    exists m. split; [|done]. do 2 f_equal. by eapply hashed_root.
Qed.

End neighbours.

(** ** Sequences of operations *)

Inductive Op := AddItem (it : SHAMapItem) | UpdateItem (it : SHAMapItem) | DelItem (id : Z) | Fetch (id : Z) | HashOf | SnapShot.

(** What an operation gives back. *)
Inductive Answer := Done (b : bool) | Item (it : option SHAMapItem) | Hash (h : Z) | Copy.

Section run.
Context `{Build} {SHA : SHA512Half} (db : gmap Z Blob) (isTransaction hasMeta : bool) (lo : Z).
Abbreviation ty := (leaf_type isTransaction hasMeta).

(** One operation of the code; after a snapshot the work goes on with the copy. *)
Definition step (o : Op) (m : ShaMap.t) : result (Answer * ShaMap.t) :=
  match o with
  | AddItem it => r ← addGiveItem db it isTransaction hasMeta m; Ok (Done r.1, r.2)
  | UpdateItem it => r ← updateGiveItem db it isTransaction hasMeta m; Ok (Done r.1, r.2)
  | DelItem id => r ← delItem db id m; Ok (Done r.1, r.2)
  | Fetch id => r ← fetch db id m; Ok (Item r, m)
  | HashOf => r ← getHash m; Ok (Hash r.1, r.2)
  | SnapShot => m ← snapShot true m; Ok (Copy, m)
  end.

Fixpoint run (ops : list Op) (m : ShaMap.t) : result (list Answer * ShaMap.t) :=
  match ops with
  | [] => Ok ([], m)
  | o :: ops => r ← step o m; s ← run ops r.2; Ok (r.1 :: s.1, s.2)
  end.

(** The same on a finite map. *)
Definition abs_step (o : Op) (x : Items) : Answer * Items :=
  match o with
  | AddItem it => match x !! key it with Some _ => (Done false, x) | None => (Done true, <[key it := data it]> x) end
  | UpdateItem it => (Done true, <[key it := data it]> x)
  | DelItem id => match x !! id with Some _ => (Done true, delete id x) | None => (Done false, x) end
  | Fetch id => (Item (mkItem id <$> x !! id), x)
  | HashOf => (Hash (root_hash ty x), x)
  | SnapShot => (Copy, x)
  end.

Fixpoint abs_run (ops : list Op) (x : Items) : list Answer * Items :=
  match ops with
  | [] => ([], x)
  | o :: ops => let r := abs_step o x in let s := abs_run ops r.2 in (r.1 :: s.1, s.2)
  end.

(** Items have 256-bit keys and at least twelve bytes; what is replaced is
    there, and its hash changes if its data do. *)
Definition fit (it : SHAMapItem) : Prop := is_key (key it) /\ (12 <= length (data it))%nat.

Definition allowed (o : Op) (x : Items) : Prop :=
  match o with
  | AddItem it => fit it
  | UpdateItem it => fit it /\ is_Some (x !! key it) /\ distinct ty it x
  | _ => True
  end.

Fixpoint all_allowed (ops : list Op) (x : Items) : Prop :=
  match ops with
  | [] => True
  | o :: ops => allowed o x /\ all_allowed ops (abs_step o x).2
  end.

(** A node is a node of the copy; the copy reads from the store. *)
Lemma ok_copy n sq sq' bk t x : sq <= sq' -> ok db bk ty (lo, sq) n t x -> ok db true ty (lo, sq') n t x.
Proof.
  intros Hsq. destruct bk.
  - revert t x. induction n as [|n IH]; intros [it ty' h s|i] x Ho; try done.
    1-2: apply ok_leaf in Ho as (-> & -> & -> & ?); apply ok_leaf; split_and!; (done || cbn in *; lia).
    destruct Ho as (H16 & Hs & Hh & Hbs). split; [done|]. split; [cbn in *; lia|]. split; [done|]. intros b Hb. specialize (Hbs b Hb).
    destruct (isEmptyBranch b i); [done|]. destruct Hbs as (c & Hc & Hoc & Hrest). exists c. split; [done|]. split; [|done].
    by apply IH.
  - assert (Hat : forall i b c, child_at db false i b c -> child_at db true i b c).
    { intros i b c. unfold child_at, descendThrow. by destruct (getChild b i). }
    assert (Hhd : forall k u, hashed db false k u -> hashed db true k u).
    { induction k as [|k IH]; intros [|i]; try done. intros [Hi Hall]. split; [done|]. intros b Hb. specialize (Hall b Hb).
      destruct (isEmptyBranch b i); [done|]. destruct Hall as (c & Hc & He & Hh). exists c. split_and!; [by apply Hat|done|by apply IH]. }
    revert t x. induction n as [|n IH]; intros [it ty' h s|i] x Ho; try done.
    1-2: apply ok_leaf in Ho as (-> & -> & -> & ?); apply ok_leaf; split_and!; (done || cbn in *; lia).
    destruct Ho as (H16 & Hs & Hh & Hbs). split; [done|]. split; [cbn in *; lia|]. split; [intros Hz; by apply Hhd, Hh|].
    intros b Hb. specialize (Hbs b Hb).
    destruct (isEmptyBranch b i); [done|]. destruct Hbs as (c & Hc & Hoc & Hrest). exists c. split; [by apply Hat|]. split; [|done].
    by apply IH.
Qed.

Lemma snapShot_spec m x isMutable : holds lo db ty m x -> seq_ m + 1 < 2 ^ 32 ->
  exists m', snapShot isMutable m = Ok m' /\ holds lo db ty m' x /\ seq_ m' = seq_ m + 1 /\
    state_ m' = (if isMutable then Modifying else Immutable) /\ backed_ m' = true.
Proof.
  intros [Hroot Htree Hseq Hkeys] Hlt. unfold snapShot. rewrite u32_id by lia.
  set (m' := mk (root_ m) (seq_ m + 1) (if isMutable then Modifying else Immutable) true).
  assert (Hm' : holds lo db ty m' x).
  { constructor; [done| |cbn; lia|done]. cbn [m' root_ seq_ backed_]. eapply ok_copy; [|done]. lia. }
  destruct (_ || _); [|by exists m'].
  destruct (walkSubTree_spec db ty lo m' x Hm' false ∅ ltac:(done)) as (m2 & f & Hw & Hm2 & (Hs1 & Hs2 & Hs3) & _). unfold unshare.
  rewrite Hw, bind_pass. exists m2. split; [done|]. split; [done|]. by rewrite Hs1, Hs2, Hs3.
Qed.

(** One step of both. *)
Lemma step_spec o m x : holds lo db ty m x -> state_ m = Modifying -> seq_ m + 1 < 2 ^ 32 -> allowed o x ->
  exists m', step o m = Ok ((abs_step o x).1, m') /\ holds lo db ty m' (abs_step o x).2 /\ state_ m' = Modifying /\
    seq_ m <= seq_ m' <= seq_ m + 1 /\ (backed_ m = true -> backed_ m' = true).
Proof.
  intros Hm Hst Hlt Ha. destruct o as [it|it|id|id| |]; cbn [step abs_step allowed] in *.
  - destruct Ha as [Hk Hd]. pose proof (addGiveItem_spec db isTransaction hasMeta lo m x Hm Hst it Hk Hd) as Hadd.
    destruct (x !! key it); [rewrite Hadd, bind_pass; exists m; split_and!; (done || lia)|].
    destruct Hadd as (m' & -> & Hm' & Hs1 & Hs2 & Hs3). rewrite bind_pass. exists m'. split_and!; (done || congruence || lia).
  - destruct Ha as ([Hk Hd] & Hx & Hdis).
    destruct (updateGiveItem_spec db isTransaction hasMeta lo m x Hm Hst it Hk Hd Hx Hdis) as (m' & -> & Hm' & Hs1 & Hs2 & Hs3).
    rewrite bind_pass. exists m'. split_and!; (done || congruence || lia).
  - pose proof (delItem_spec db isTransaction hasMeta lo m x Hm Hst id) as Hdel.
    destruct (x !! id); [|rewrite Hdel, bind_pass; exists m; split_and!; (done || lia)].
    destruct Hdel as (m' & -> & Hm' & Hs1 & Hs2 & Hs3). rewrite bind_pass. exists m'. split_and!; (done || congruence || lia).
  - rewrite (fetch_spec db isTransaction hasMeta lo m x Hm id), bind_pass. exists m. split_and!; (done || lia).
  - destruct (getHash_spec db ty lo m x Hm) as (m' & -> & Hm' & (Hs1 & Hs2 & Hs3) & _). rewrite bind_pass. exists m'.
    split_and!; (done || congruence || lia).
  - destruct (snapShot_spec m x true Hm Hlt) as (m' & -> & Hm' & Hs1 & Hs2 & Hs3). rewrite bind_pass. exists m'.
    split_and!; (done || congruence || lia).
Qed.

Lemma ops_spec ops : forall m x, holds lo db ty m x -> state_ m = Modifying -> seq_ m + Z.of_nat (length ops) < 2 ^ 32 ->
  all_allowed ops x -> exists m', run ops m = Ok ((abs_run ops x).1, m') /\ holds lo db ty m' (abs_run ops x).2 /\ state_ m' = Modifying /\
    (backed_ m = true -> backed_ m' = true).
Proof.
  induction ops as [|o ops IH]; intros m x Hm Hst Hlt Ha; [by exists m|]. destruct Ha as [Ha Has].
  cbn [length] in Hlt. destruct (step_spec o m x Hm Hst ltac:(lia) Ha) as (m1 & Hs & Hm1 & Hst1 & Hseq1 & Hbk1).
  cbn [run abs_run]. rewrite Hs, bind_pass. cbn [fst snd].
  destruct (IH m1 _ Hm1 Hst1 ltac:(lia) Has) as (m2 & -> & Hm2 & Hst2 & Hbk2). rewrite bind_pass. exists m2.
  split_and!; [done..|]. intros Hbk. by apply Hbk2, Hbk1.
Qed.

Lemma make_map_spec seq : 0 < seq -> 0 <= lo <= seq -> exists m, make_map seq = Ok m /\ holds lo db ty m ∅ /\ state_ m = Modifying /\
  seq_ m = seq /\ backed_ m = true.
Proof.
  intros Hs Hlo. unfold make_map. rewrite assert_pass by (by rewrite (proj2 (Z.eqb_neq _ _)) by lia). eexists. split; [done|].
  split; [|done]. constructor; [done| |by split|].
  - exact (ok_newInner db ty (mk (InnerNode (newInner seq)) seq Modifying true) lo (conj Hs Hlo) 63 ltac:(lia)).
  - intros k d. by rewrite lookup_empty.
Qed.

End run.

(** A new map has nothing in the store. *)
Section new.
Context `{Build} {SHA : SHA512Half} (db : gmap Z Blob) (isTransaction hasMeta : bool).
Abbreviation ty := (leaf_type isTransaction hasMeta).
Abbreviation run := (run db isTransaction hasMeta).
Abbreviation abs_run := (abs_run isTransaction hasMeta).
Abbreviation all_allowed := (all_allowed isTransaction hasMeta).

Lemma run_new seq ops : 0 < seq -> seq + Z.of_nat (length ops) < 2 ^ 32 -> all_allowed ops ∅ ->
  exists m, (m0 ← make_map seq; run ops m0) = Ok ((abs_run ops ∅).1, m) /\ holds 1 db ty m (abs_run ops ∅).2 /\ state_ m = Modifying /\
    backed_ m = true.
Proof.
  intros Hs Hlt Ha. destruct (make_map_spec db isTransaction hasMeta 1 seq Hs ltac:(lia)) as (m0 & -> & Hm0 & Hst & Hseq & Hbk).
  rewrite bind_pass. destruct (ops_spec db isTransaction hasMeta 1 ops m0 ∅ Hm0 Hst ltac:(lia) Ha) as (m & Hr & Hm & Hst' & Hbk').
  exists m. split_and!; [done..|]. by apply Hbk'.
Qed.

(** C28: any sequence of additions, replacements, deletions, look-ups, hashings
    and snapshots on a new hash tree answers as on a finite map from keys to
    data, no assertion fails on the way, and the tree ends up holding that map. *)
Theorem shamap_refines seq ops : 0 < seq -> seq + Z.of_nat (length ops) < 2 ^ 32 -> all_allowed ops ∅ ->
  exists m, (m0 ← make_map seq; run ops m0) = Ok ((abs_run ops ∅).1, m) /\ holds 1 db ty m (abs_run ops ∅).2.
Proof. intros Hs Hlt Ha. destruct (run_new seq ops Hs Hlt Ha) as (m & Hr & Hm & _). by exists m. Qed.

End new.

Section order.
Context `{Build} {SHA : SHA512Half} (db : gmap Z Blob).

(** [peekNextItem] and [peekPrevItem] give the item with the least key above
    and the greatest key below a key, which need not be in the map, or nothing
    when there is none; [peekFirstItem] and [peekLastItem] the ends. *)
Theorem neighbours_correct lo ty m x id : holds lo db ty m x -> is_key id ->
  (exists r, peekNextItem db id m = Ok r /\ next_item x id r) /\
  (exists r, peekPrevItem db id m = Ok r /\ prev_item x id r) /\
  (exists r, peekFirstItem db m = Ok r /\
     match r with Some it => x !! key it = Some (data it) /\ forall j, is_Some (x !! j) -> key it <= j | None => x = ∅ end) /\
  (exists r, peekLastItem db m = Ok r /\
     match r with Some it => x !! key it = Some (data it) /\ forall j, is_Some (x !! j) -> j <= key it | None => x = ∅ end).
Proof.
  intros Hm Hid. split; [by apply (peekNextItem_spec db ty lo)|]. split; [by apply (peekPrevItem_spec db ty lo)|].
  split; [by apply (peekFirstItem_spec db ty lo)|by apply (peekLastItem_spec db ty lo)].
Qed.

End order.

(** ** A map *)

Module Sample.

#[export] Instance debug : Build := {| NDEBUG := false |}.

(** A hash that tells the strings of the sample apart. *)
#[export] Instance toy : SHA512Half := fun l => 1 + foldl (fun a b => (a * 31 + b + 1) mod 65521) 5 l.

(** The first and the third key have two digits in common. *)
Definition one : SHAMapItem := mkItem (0x10 * 16 ^ 62) (replicate 12 1).
Definition two : SHAMapItem := mkItem (0x20 * 16 ^ 62) (replicate 12 2).
Definition three : SHAMapItem := mkItem (0x105 * 16 ^ 61) (replicate 13 3).
Definition two' : SHAMapItem := mkItem (key two) (replicate 14 2).

Definition ops : list Op :=
  [AddItem one; AddItem two; AddItem one; AddItem three; HashOf; UpdateItem two'; Fetch (key three); DelItem (key one); SnapShot;
   DelItem (key one); HashOf].

Lemma fits it : (0 <=? key it) && (key it <? 2 ^ 256) && (12 <=? length (data it))%nat = true -> fit it.
Proof. intros Hb. apply andb_prop in Hb as [[Hb1 Hb2]%andb_prop Hb3]. split; [split; lia|]. by apply Nat.leb_le. Qed.

Lemma ops_allowed : all_allowed false false ops ∅.
Proof.
  split; [by apply fits|]. split; [by apply fits|]. split; [by apply fits|]. split; [by apply fits|]. split; [done|].
  split; [|done]. split; [by apply fits|]. split; [by vm_compute; eexists|].
  intros d Hd He. vm_compute in Hd. injection Hd as <-. vm_compute in He. discriminate He.
Qed.

End Sample.

Section witnesses.
Import Sample.

Lemma shamap_refines_witness : exists m,
  (m0 ← make_map 7; run ∅ false false ops m0) = Ok ((abs_run false false ops ∅).1, m) /\
  holds 1 ∅ tnACCOUNT_STATE m (abs_run false false ops ∅).2.
Proof. apply (shamap_refines ∅ false false 7 ops); [done|done|apply ops_allowed]. Defined.

Lemma neighbours_correct_witness : exists m, (m0 ← make_map 7; run ∅ false false ops m0) = Ok ((abs_run false false ops ∅).1, m) /\
  (exists r, peekNextItem ∅ (key two) m = Ok r /\ next_item (abs_run false false ops ∅).2 (key two) r) /\
  (exists r, peekPrevItem ∅ (key two) m = Ok r /\ prev_item (abs_run false false ops ∅).2 (key two) r).
Proof.
  destruct (run_new ∅ false false 7 ops ltac:(done) ltac:(done) ops_allowed) as (m & Hr & Hm & _). exists m. split; [exact Hr|].
  destruct (neighbours_correct ∅ 1 _ m _ (key two) Hm (proj1 (fits two eq_refl))) as (Hn & Hp & _). by split.
Defined.

End witnesses.
End ShaRun.
