(* ===== verification/ShaUnique.v ===== *)
(** * The hash of a tree identifies its items

    As long as no two of the strings that are hashed for two trees collide,
    trees with the same root hash hold the same items. *)

From stdpp Require Import base tactics numbers list strings option gmap sorting.
From S2P Require Import Prelude Serializer View Indexes ShaNode ShaMap ShaTree ShaEdit ShaHash ShaRun.

Module ShaUnique.
Import Serializer ShaNode ShaMap ShaTree ShaEdit ShaHash ShaRun.

(** The fuel of the descents is not to be unfolded. *)
#[local] Strategy opaque [levels getStack_from endBelow tree_hash].

(** ** What is hashed *)

Section strings.
Context {SHA : SHA512Half} (ty : TNType).

Abbreviation tree_strings := (ShaHash.tree_strings ty).
Abbreviation root_strings := (ShaHash.root_strings ty).

(** The strings hash to 256-bit numbers that are not zero, different ones to
    different ones. *)
Definition collision_free (l : list Blob) : Prop :=
  Forall (fun s => 0 < sha512Half s < 2 ^ 256 /\ Forall (fun s' => sha512Half s = sha512Half s' -> s = s') l) l.

#[export] Instance collision_free_dec l : Decision (collision_free l).
Proof. unfold collision_free. apply _. Defined.

(** The key of a transaction without metadata is its hash. *)
Definition keyed (x : Items) : Prop :=
  ty = tnTRANSACTION_NM -> forall k d, x !! k = Some d -> k = leaf_hash ty (mkItem k d).

(** Other leaves are hashed with their keys. *)
Lemma keyed_other x : ty <> tnTRANSACTION_NM -> keyed x.
Proof. intros Hty He. by destruct Hty. Qed.

Lemma free_inj l s s' : collision_free l -> s ∈ l -> s' ∈ l -> sha512Half s = sha512Half s' -> s = s'.
Proof.
  intros Hl Hs Hs'. apply (proj1 (list.Forall_forall _ _) Hl) in Hs as [_ Hs].
  by apply (proj1 (list.Forall_forall _ _) Hs).
Qed.

Lemma free_range l s : collision_free l -> s ∈ l -> 0 < sha512Half s < 2 ^ 256.
Proof. intros Hl Hs. by apply (proj1 (list.Forall_forall _ _) Hl) in Hs as [Hr _]. Qed.

(** ** The strings determine what they are made from *)

Lemma be_bytes_determine n a b : 0 <= a < 2 ^ (8 * Z.of_nat n) -> 0 <= b < 2 ^ (8 * Z.of_nat n) ->
  be_bytes n a = be_bytes n b -> a = b.
Proof.
  intros Ha Hb He. apply (f_equal be_value) in He. rewrite !be_value_bytes in He. by rewrite !Z.mod_small in He by done.
Qed.

Lemma hashes_inj l l' : length l = length l' -> Forall (fun h => 0 <= h < 2 ^ 256) l -> Forall (fun h => 0 <= h < 2 ^ 256) l' ->
  concat (be_bytes 32 <$> l) = concat (be_bytes 32 <$> l') -> l = l'.
Proof.
  revert l'. induction l as [|a l IH]; intros [|b l'] Hlen Hl Hl' He; try done.
  apply Forall_cons_1 in Hl as [Ha Hl], Hl' as [Hb Hl']. cbn [fmap list_fmap concat] in He.
  apply app_inj_1 in He as [Hab He]; [|by rewrite !length_be_bytes]. f_equal.
  - by apply (be_bytes_determine 32) in Hab.
  - apply IH; [by injection Hlen|done..].
Qed.

Lemma leaf_inner_ne it l : leaf_bytes ty it <> inner_bytes l.
Proof.
  unfold leaf_bytes, inner_bytes. intros He. apply (f_equal (take 4)) in He.
  rewrite (take_app_length' (be_bytes 4 prefix_innerNode)) in He by done.
  destruct ty; rewrite take_app_length' in He by done; vm_compute in He; done.
Qed.

Lemma leaf_inj k d k' d' : is_key k -> is_key k' ->
  (ty = tnTRANSACTION_NM -> k = leaf_hash ty (mkItem k d) /\ k' = leaf_hash ty (mkItem k' d')) ->
  leaf_bytes ty (mkItem k d) = leaf_bytes ty (mkItem k' d') -> k = k' /\ d = d'.
Proof.
  intros Hk Hk' Hnm He. assert (Hhash : leaf_hash ty (mkItem k d) = leaf_hash ty (mkItem k' d')) by (unfold leaf_hash; by rewrite He).
  unfold leaf_bytes in He. cbn [key data] in He. destruct ty.
  - apply app_inj_1 in He as [_ ->]; [|done]. destruct (Hnm eq_refl) as [-> ->]. by rewrite Hhash.
  - apply app_inj_1 in He as [_ He]; [|done]. apply app_inj_2 in He as [-> He]; [|by rewrite !length_be_bytes].
    by apply (be_bytes_determine 32) in He as ->.
  - apply app_inj_1 in He as [_ He]; [|done]. apply app_inj_2 in He as [-> He]; [|by rewrite !length_be_bytes].
    by apply (be_bytes_determine 32) in He as ->.
Qed.

(** ** Trees *)

(** Nothing, one item, or several. *)
Lemma items_cases (x : Items) : x = ∅ \/ (exists k d, x = {[k := d]}) \/ several x.
Proof.
  destruct (decide (x = ∅)) as [|Hx]; [by left|]. right. apply map_choose in Hx as (k & d & Hk).
  destruct (decide (delete k x = ∅)) as [He|He].
  - left. exists k, d. by rewrite <- (insert_delete_id x k d Hk), He, insert_empty.
  - right. apply map_choose in He as (j & v & Hj). apply lookup_delete_Some in Hj as [Hne Hj].
    exists j, k. split; [done|]. by split; eexists.
Qed.

Lemma hash_range n l x : collision_free l -> (forall s, s ∈ tree_strings n x -> s ∈ l) -> 0 <= tree_hash ty n x < 2 ^ 256.
Proof.
  intros Hl Hs. destruct (items_cases x) as [->|[(k & d & ->)|Hsev]].
  - rewrite tree_hash_empty. split; [done|]. by apply Z.pow_pos_nonneg.
  - rewrite tree_hash_one. unfold leaf_hash. rewrite strings_one in Hs.
    pose proof (free_range l _ Hl (Hs _ ltac:(by left))). lia.
  - destruct n as [|n].
    + apply several_list in Hsev as ([] & [] & l' & He). cbn [tree_hash]. rewrite He. split; [done|]. by apply Z.pow_pos_nonneg.
    + rewrite tree_hash_several by done. rewrite strings_several in Hs by done.
      pose proof (free_range l _ Hl (Hs _ ltac:(by left))). lia.
Qed.

(** Two inner nodes with the same string have the same branches. *)
Lemma branches_inj n l x y : collision_free l ->
  (forall b s, 0 <= b < 16 -> s ∈ tree_strings n (part (63 - n) b x) -> s ∈ l) ->
  (forall b s, 0 <= b < 16 -> s ∈ tree_strings n (part (63 - n) b y) -> s ∈ l) ->
  inner_bytes (branch_hashes (tree_hash ty n) (63 - n) x) = inner_bytes (branch_hashes (tree_hash ty n) (63 - n) y) ->
  forall b, 0 <= b < 16 -> tree_hash ty n (part (63 - n) b x) = tree_hash ty n (part (63 - n) b y).
Proof.
  intros Hl Hx Hy He b Hb. unfold inner_bytes in He. apply app_inj_1 in He as [_ He]; [|done].
  assert (Hr : forall z, (forall b s, 0 <= b < 16 -> s ∈ tree_strings n (part (63 - n) b z) -> s ∈ l) ->
    Forall (fun h => 0 <= h < 2 ^ 256) (branch_hashes (tree_hash ty n) (63 - n) z)).
  { intros z Hz. apply list.Forall_forall. intros h Hh. apply list_elem_of_fmap in Hh as (c & -> & Hc).
    apply elem_of_seqZ in Hc. apply (hash_range n l); [done|]. intros s. apply Hz. lia. }
  apply hashes_inj in He; [|by unfold branch_hashes; rewrite !length_fmap|by apply Hr..].
  assert (Hb' : seqZ 0 16 !! Z.to_nat b = Some b) by (apply lookup_seqZ; lia).
  apply (f_equal (fun l => l !! Z.to_nat b)) in He. unfold branch_hashes in He. rewrite !list_lookup_fmap, Hb' in He.
  by injection He.
Qed.

Lemma parts_eq d x y : (forall b, 0 <= b < 16 -> part d b x = part d b y) -> x = y.
Proof.
  intros He. apply map_eq. intros k. rewrite <- (part_own d x k), <- (part_own d y k). by rewrite He by apply nib_range.
Qed.

Lemma keyed_part d b x : keyed x -> keyed (part d b x).
Proof. intros Hx Hty k v Hk. apply Hx; [done|]. by apply (lookup_weaken _ _ _ _ Hk), part_sub. Qed.

(** The string of the top of a tree that is not empty. *)
Inductive top_string (n : nat) (x : Items) (s : Blob) : Prop :=
| top_leaf k d : x = {[k := d]} -> s = leaf_bytes ty (mkItem k d) -> top_string n x s
| top_inner n' : n = S n' -> several x -> s = inner_bytes (branch_hashes (tree_hash ty n') (63 - n') x) -> top_string n x s.

Lemma top_string_of n p x : (n <= 64)%nat -> within (64 - n) p x -> x <> ∅ ->
  exists s, top_string n x s /\ s ∈ tree_strings n x /\ tree_hash ty n x = sha512Half s.
Proof.
  intros Hn Hw Hx. destruct (items_cases x) as [->|[(k & d & ->)|Hsev]]; [done|..].
  - eexists. split; [by eapply top_leaf|]. rewrite strings_one, tree_hash_one. split; [by left|done].
  - destruct n as [|n].
    + destruct Hsev as (j & k & Hne & [v Hj] & [w Hk]). pose proof (within_64 _ _ Hw j v Hj) as Hone.
      rewrite Hone, lookup_singleton_ne in Hk by done. done.
    + eexists. split; [by eapply top_inner|]. rewrite strings_several, tree_hash_several by done. split; [by left|done].
Qed.

(** Subtrees of [n] levels are determined by their hashes. *)
Definition determined (l : list Blob) (n : nat) : Prop :=
  forall x y p, within (64 - n) p x -> within (64 - n) p y -> keyed x -> keyed y ->
  (forall s, s ∈ tree_strings n x -> s ∈ l) -> (forall s, s ∈ tree_strings n y -> s ∈ l) ->
  tree_hash ty n x = tree_hash ty n y -> x = y.

(** An inner node by its string. *)
Lemma inner_inj n l p x y : collision_free l -> (n < 64)%nat -> determined l n ->
  within (63 - n) p x -> within (63 - n) p y -> keyed x -> keyed y ->
  (forall s, s ∈ (seqZ 0 16 ≫= fun b => tree_strings n (part (63 - n) b x)) -> s ∈ l) ->
  (forall s, s ∈ (seqZ 0 16 ≫= fun b => tree_strings n (part (63 - n) b y)) -> s ∈ l) ->
  inner_bytes (branch_hashes (tree_hash ty n) (63 - n) x) = inner_bytes (branch_hashes (tree_hash ty n) (63 - n) y) -> x = y.
Proof.
  intros Hl Hn Hdet Hwx Hwy Hkx Hky Hsx Hsy Heq.
  assert (Hbx : forall b s, 0 <= b < 16 -> s ∈ tree_strings n (part (63 - n) b x) -> s ∈ l).
  { intros b' s Hb' Hs. apply Hsx. by apply (elem_of_branch ty n b'). }
  assert (Hby : forall b s, 0 <= b < 16 -> s ∈ tree_strings n (part (63 - n) b y) -> s ∈ l).
  { intros b' s Hb' Hs. apply Hsy. by apply (elem_of_branch ty n b'). }
  pose proof (branches_inj n l x y Hl Hbx Hby Heq) as Hbr.
  apply (parts_eq (63 - n)). intros b Hb. apply (Hdet _ _ (p * 16 + b)).
  + replace (64 - n)%nat with (S (63 - n)) by lia. apply within_part; [lia|done].
  + replace (64 - n)%nat with (S (63 - n)) by lia. apply within_part; [lia|done].
  + by apply keyed_part.
  + by apply keyed_part.
  + intros s. by apply Hbx.
  + intros s. by apply Hby.
  + by apply Hbr.
Qed.

Lemma tree_inj n l : collision_free l -> (n <= 64)%nat -> determined l n.
Proof.
  intros Hl. induction n as [n IH] using lt_wf_ind. intros Hn x y p Hwx Hwy Hkx Hky Hsx Hsy He.
  assert (Hpos : forall z, within (64 - n) p z -> (forall s, s ∈ tree_strings n z -> s ∈ l) -> z <> ∅ -> tree_hash ty n z <> 0).
  { intros z Hw Hs Hz. destruct (top_string_of n p z Hn Hw Hz) as (s & _ & Hin & ->).
    pose proof (free_range l s Hl (Hs s Hin)). lia. }
  destruct (decide (x = ∅)) as [->|Hx], (decide (y = ∅)) as [->|Hy]; [done|..].
  { exfalso. apply (Hpos y Hwy Hsy Hy). by rewrite <- He, tree_hash_empty. }
  { exfalso. apply (Hpos x Hwx Hsx Hx). by rewrite He, tree_hash_empty. }
  destruct (top_string_of n p x Hn Hwx Hx) as (s & Ht & Hin & Hsh).
  destruct (top_string_of n p y Hn Hwy Hy) as (s' & Ht' & Hin' & Hsh').
  rewrite Hsh, Hsh' in He. apply (free_inj l) in He; [|done|by apply Hsx|by apply Hsy]. subst s'. clear Hsh Hsh' Hx Hy Hpos.
  destruct Ht as [k d -> ->|n' -> Hsx' ->], Ht' as [k' d' -> Heq|n'' Hnn Hsy' Heq].
  - destruct (Hwx k) as [Hk _]; [rewrite lookup_singleton_eq; by eexists|].
    destruct (Hwy k') as [Hk' _]; [rewrite lookup_singleton_eq; by eexists|].
    apply leaf_inj in Heq as [-> ->]; [done..|]. intros Hty.
    split; [apply (Hkx Hty)|apply (Hky Hty)]; apply lookup_singleton_eq.
  - by apply leaf_inner_ne in Heq.
  - by apply eq_sym, leaf_inner_ne in Heq.
  - injection Hnn as <-. rewrite strings_several in Hsx, Hsy by done. replace (64 - S n')%nat with (63 - n')%nat in * by lia.
    apply (inner_inj n' l p); [done|lia|by apply IH; lia|done..| | |done]; intros s Hs; [apply Hsx|apply Hsy]; by right.
Qed.

Lemma root_inj l x y : collision_free l -> within 0 0 x -> within 0 0 y -> keyed x -> keyed y ->
  (forall s, s ∈ root_strings x -> s ∈ l) -> (forall s, s ∈ root_strings y -> s ∈ l) ->
  root_hash ty x = root_hash ty y -> x = y.
Proof.
  unfold ShaHash.root_strings, node_strings, root_hash. intros Hl Hwx Hwy Hkx Hky Hsx Hsy He.
  destruct (decide (x = ∅)) as [->|Hx], (decide (y = ∅)) as [->|Hy]; [done|..].
  { pose proof (free_range l _ Hl (Hsy _ ltac:(by left))). lia. }
  { pose proof (free_range l _ Hl (Hsx _ ltac:(by left))). lia. }
  apply (free_inj l) in He; [|done|apply Hsx; by left|apply Hsy; by left].
  apply (inner_inj 63 l 0 x y Hl (le_n 64) (tree_inj 63 l Hl (le_S 63 63 (le_n 63))) Hwx Hwy Hkx Hky); [..|exact He];
    intros s Hs; [apply Hsx|apply Hsy]; by right.
Qed.

End strings.

Section maps.
Context `{Build} {SHA : SHA512Half} (db : gmap Z Blob) (ty : TNType).

(** C29: two hash trees of the same type hold the same items exactly when their
    root hashes are equal, whatever operations made them, unless two of the
    strings hashed for them collide. *)
Theorem equal_hashes lo lo' m m' x x' : holds lo db ty m x -> holds lo' db ty m' x' -> keyed ty x -> keyed ty x' ->
  collision_free (root_strings ty x ++ root_strings ty x') ->
  exists h h' m1 m1', getHash m = Ok (h, m1) /\ getHash m' = Ok (h', m1') /\ (h = h' <-> x = x').
Proof.
  intros Hm Hm' Hk Hk' Hl. destruct (getHash_spec db ty lo m x Hm) as (m1 & Hg & _).
  destruct (getHash_spec db ty lo' m' x' Hm') as (m1' & Hg' & _). exists (root_hash ty x), (root_hash ty x'), m1, m1'.
  split; [done|]. split; [done|]. split; [|by intros ->].
  apply (root_inj ty (root_strings ty x ++ root_strings ty x')); [done|by eapply held_within|by eapply held_within|done|done|..];
    intros s Hs; apply elem_of_app; [by left|by right].
Qed.

End maps.

Section witnesses.
Import Sample.

Lemma equal_hashes_witness : exists m m' h h' m1 m1',
  (m0 ← make_map 7; run ∅ false false ops m0) = Ok ((abs_run false false ops ∅).1, m) /\
  (m0 ← make_map 1; run ∅ false false [AddItem three; AddItem two'] m0) = Ok ((abs_run false false [AddItem three; AddItem two'] ∅).1, m') /\
  getHash m = Ok (h, m1) /\ getHash m' = Ok (h', m1') /\ h = h'.
Proof.
  destruct (run_new ∅ false false 7 ops ltac:(done) ltac:(done) ops_allowed) as (m & Hr & Hm & _).
  destruct (run_new ∅ false false 1 [AddItem three; AddItem two'] ltac:(done) ltac:(done)
    ltac:(split; [by apply fits|]; split; [by apply fits|done])) as (m' & Hr' & Hm' & _).
  set (x := (abs_run false false ops ∅).2) in Hm. set (x' := (abs_run false false [AddItem three; AddItem two'] ∅).2) in Hm'.
  destruct (equal_hashes ∅ (leaf_type false false) 1 1 m m' x x') as (h & h' & m1 & m1' & Hg & Hg' & Heq);
    [exact Hm|exact Hm'|by apply keyed_other|by apply keyed_other|apply (bool_decide_unpack _); by vm_compute|].
  exists m, m', h, h', m1, m1'. split; [exact Hr|]. split; [exact Hr'|]. split; [exact Hg|]. split; [exact Hg'|].
  apply Heq. apply (bool_decide_unpack _). by vm_compute.
Defined.

End witnesses.
End ShaUnique.
