(* ===== verification/ShaDelta.v ===== *)
(** * Differences of two hash trees

    [SHAMap::walkBranch], [compare] and [walkMap] (shamap/impl/SHAMapDelta.cpp).
    [compare] does not look below nodes with the same hash; [compare_complete]
    shows that what it reports is still the difference of the items. *)

From stdpp Require Import base tactics numbers list strings option gmap sorting.
From S2P Require Import Prelude Serializer View Indexes ShaNode ShaMap ShaTree ShaEdit ShaHash ShaRun ShaUnique.

Module ShaDelta.
Import Serializer ShaNode ShaMap ShaTree ShaEdit ShaHash ShaRun ShaUnique.

(** The fuel of the descents is not to be unfolded. *)
#[local] Strategy opaque [levels getStack_from endBelow tree_hash].

(** The item of the first map and that of the second. *)
Abbreviation DeltaRef := (option SHAMapItem * option SHAMapItem)%type.
Abbreviation Delta := (gmap Z DeltaRef).

Record Walk := mkWalk { differences : Delta; maxCount : Z }.

(** [differences.insert (...); if (--maxCount <= 0) return false]; an insertion
    does not overwrite. *)
Definition note (e : Z * DeltaRef) (w : Walk) : bool * Walk :=
  let w := mkWalk (match differences w !! e.1 with Some _ => differences w | None => <[e.1 := e.2]> (differences w) end)
                  (maxCount w - 1) in
  (negb (maxCount w <=? 0), w).

(** Until one of them returns [false]. *)
Fixpoint each {A W} (f : A -> W -> result (bool * W)) (l : list A) (w : W) : result (bool * W) :=
  match l with
  | [] => Ok (true, w)
  | a :: l => r ← f a w; if r.1 : bool then each f l r.2 else Ok r
  end.

Fixpoint mapR {A B} (f : A -> result B) (l : list A) : result (list B) :=
  match l with
  | [] => Ok []
  | a :: l => b ← f a; r ← mapR f l; Ok (b :: r)
  end.

Section delta.
Context `{Build} {SHA : SHA512Half} (db : gmap Z Blob).

Definition orient (isFirstMap : bool) (mine other : option SHAMapItem) : DeltaRef :=
  if isFirstMap then (mine, other) else (other, mine).

(** A leaf of the branch; the state has [emptyBranch]. *)
Definition walk_leaf (otherMapItem : option SHAMapItem) (isFirstMap : bool) (item : SHAMapItem) (st : bool * Walk)
    : bool * (bool * Walk) :=
  let '(emptyBranch, w) := st in
  match (if emptyBranch then None else otherMapItem) with
  | Some o =>
      if negb (key item =? key o) then
        let r := note (key item, orient isFirstMap (Some item) None) w in (r.1, (emptyBranch, r.2))
      else if negb (bool_decide (data item = data o)) then
        let r := note (key item, orient isFirstMap (Some item) (Some o)) w in (r.1, (true, r.2))
      else (true, (true, w))
  | None => let r := note (key item, orient isFirstMap (Some item) None) w in (r.1, (emptyBranch, r.2))
  end.

(** The loop: the branches of an inner node are pushed from the first to the
    last. *)
Fixpoint walk_nodes (fuel : nat) (otherMapItem : option SHAMapItem) (isFirstMap backed : bool) (n : node)
    (st : bool * Walk) : result (bool * (bool * Walk)) :=
  match fuel with
  | O => OutOfFuel
  | S fuel =>
      match n with
      | InnerNode i =>
          pushed ← mapR (fun b => descendThrow db i b backed) (filter (fun b => isEmptyBranch b i = false) (seqZ 0 16));
          each (walk_nodes fuel otherMapItem isFirstMap backed) (reverse pushed) st
      | TreeNode item _ _ _ => Ok (walk_leaf otherMapItem isFirstMap item st)
      end
  end.

Definition walkBranch (n : node) (otherMapItem : option SHAMapItem) (isFirstMap : bool) (w : Walk) (backed : bool)
    : result (bool * Walk) :=
  r ← walk_nodes levels otherMapItem isFirstMap backed n (bool_decide (otherMapItem = None), w);
  let '(more, (emptyBranch, w)) := r in
  if negb more then Ok (false, w)
  else if negb emptyBranch then
    match otherMapItem with
    | Some o => Ok (note (key o, orient isFirstMap None (Some o)) w)
    | None => Throw "null"
    end
  else Ok (true, w).

(** Two leaves. *)
Definition compare_leaves (ours other : SHAMapItem) (w : Walk) : bool * Walk :=
  if key ours =? key other then
    if negb (bool_decide (data ours = data other)) then note (key ours, (Some ours, Some other)) w else (true, w)
  else
    let r := note (key ours, (Some ours, None)) w in
    if r.1 : bool then note (key other, (None, Some other)) r.2 else r.

(** One branch of two inner nodes: differences of one of them are noted, pairs
    of nodes are pushed. *)
Definition compare_branch (ours other : inner node) (backed backed' : bool) (i : Z) (st : list (node * node) * Walk)
    : result (bool * (list (node * node) * Walk)) :=
  let '(stack, w) := st in
  if getChildHash i ours =? getChildHash i other then Ok (true, st)
  else if isEmptyBranch i other then
    iNode ← descendThrow db ours i backed;
    r ← walkBranch iNode None true w backed;
    Ok (r.1, (stack, r.2))
  else if isEmptyBranch i ours then
    iNode ← descendThrow db other i backed';
    r ← walkBranch iNode None false w backed';
    Ok (r.1, (stack, r.2))
  else
    a ← descendThrow db ours i backed;
    b ← descendThrow db other i backed';
    Ok (true, ((a, b) :: stack, w)).

(** The loop of [compare], on a pair of nodes and those pushed for it. *)
Fixpoint compare_nodes (fuel : nat) (backed backed' : bool) (p : node * node) (w : Walk) : result (bool * Walk) :=
  match fuel with
  | O => OutOfFuel
  | S fuel =>
      match p with
      | (TreeNode ours _ _ _, TreeNode other _ _ _) => Ok (compare_leaves ours other w)
      | (InnerNode _ as ours, TreeNode other _ _ _) => walkBranch ours (Some other) true w backed
      | (TreeNode ours _ _ _, InnerNode _ as other) => walkBranch other (Some ours) false w backed'
      | (InnerNode ours, InnerNode other) =>
          r ← each (compare_branch ours other backed backed') (seqZ 0 16) ([], w);
          let '(more, (stack, w)) := r in
          if more : bool then each (compare_nodes fuel backed backed') stack w else Ok (false, w)
      end
  end.

(** [getHash] may flush either map. *)
Definition compare (m otherMap : ShaMap.t) (maxCount : Z) (differences : Delta) : result (bool * Delta) :=
  _ ← Keylet.assert (isValid m && isValid otherMap);
  r ← getHash m;
  s ← getHash otherMap;
  if r.1 =? s.1 then Ok (true, differences)
  else
    w ← compare_nodes levels (backed_ r.2) (backed_ s.2) (root_ r.2, root_ s.2) (mkWalk differences maxCount);
    Ok (w.1, ShaDelta.differences w.2).

(** [walkMap]: the hashes of nodes that are not there, up to [maxMissing]; the
    inner nodes found are pushed. *)
Definition descendNoStore (parent : inner node) (branch : Z) (backed : bool) : result (option node) :=
  match getChild branch parent with
  | Some n => Ok (Some n)
  | None =>
      if backed then
        match fetchNodeNT db (getChildHash branch parent) backed with
        | Some n => Ok (Some n)
        | None => Throw "SHAMapMissingNode"
        end
      else Ok None
  end.

Definition missing_branch (node_ : inner node) (backed : bool) (i : Z) (st : list (inner node) * (list Z * Z))
    : result (bool * (list (inner node) * (list Z * Z))) :=
  let '(stack, (missingNodes, maxMissing)) := st in
  if isEmptyBranch i node_ then Ok (true, st)
  else
    next ← descendNoStore node_ i backed;
    match next with
    | Some (InnerNode nextNode) => Ok (true, (nextNode :: stack, (missingNodes, maxMissing)))
    | Some _ => Ok (true, st)
    | None =>
        let maxMissing := maxMissing - 1 in
        Ok (negb (maxMissing <=? 0), (stack, (missingNodes ++ [getChildHash i node_], maxMissing)))
    end.

Fixpoint missing_below (fuel : nat) (backed : bool) (node_ : inner node) (st : list Z * Z) : result (bool * (list Z * Z)) :=
  match fuel with
  | O => OutOfFuel
  | S fuel =>
      r ← each (missing_branch node_ backed) (seqZ 0 16) ([], st);
      let '(more, (stack, st)) := r in
      if more : bool then each (missing_below fuel backed) stack st else Ok (false, st)
  end.

Definition walkMap (m : ShaMap.t) (maxMissing : Z) : result (list Z) :=
  match root_ m with
  | TreeNode _ _ _ _ => Ok []
  | InnerNode i => r ← missing_below levels (backed_ m) i ([], maxMissing); Ok r.2.1
  end.

End delta.

(** ** Differences noted in turn *)

Fixpoint notes (l : list (Z * DeltaRef)) (w : Walk) : bool * Walk :=
  match l with
  | [] => (true, w)
  | e :: l => let r := note e w in if r.1 : bool then notes l r.2 else r
  end.

Lemma notes_app l l' w : notes (l ++ l') w = let r := notes l w in if r.1 : bool then notes l' r.2 else r.
Proof.
  revert w. induction l as [|e l IH]; intros w; [done|]. cbn [notes app]. destruct (note e w) as [[] w'] eqn:Hn; cbn [fst snd]; [|done].
  apply IH.
Qed.

Lemma notes_one e w : notes [e] w = note e w.
Proof. cbn [notes]. by destruct (note e w) as [[] w']. Qed.

(** The list has the values of [f], each once. *)
Definition enum (l : list (Z * DeltaRef)) (f : Z -> option DeltaRef) : Prop :=
  NoDup l.*1 /\ forall k v, (k, v) ∈ l <-> f k = Some v.

Lemma enum_nil f : (forall k, f k = None) -> enum [] f.
Proof. intros Hf. split; [constructor|]. intros k v. rewrite Hf. split; [by intros ?%not_elem_of_nil|done]. Qed.

Lemma enum_one k v f : (forall j, f j = if decide (j = k) then Some v else None) -> enum [(k, v)] f.
Proof.
  intros Hf. split; [apply NoDup_singleton|]. intros j w. rewrite list_elem_of_singleton, Hf.
  destruct (decide (j = k)) as [->|]; split; intros Heq; by inv Heq.
Qed.

Lemma enum_app l l' f g h : enum l f -> enum l' g -> (forall k, f k = None \/ g k = None) ->
  (forall k, h k = match f k with Some v => Some v | None => g k end) -> enum (l ++ l') h.
Proof.
  intros [Hn Hl] [Hn' Hl'] Hd Hh. split.
  - rewrite fmap_app. apply NoDup_app. split; [done|]. split; [|done]. intros k Hk Hk'.
    apply list_elem_of_fmap in Hk as ([j v] & -> & Hv), Hk' as ([j' v'] & Heq & Hv'). cbn in *. subst j'.
    apply Hl in Hv. apply Hl' in Hv'. destruct (Hd j); congruence.
  - intros k v. rewrite elem_of_app, Hl, Hl', Hh. destruct (Hd k) as [Hf|Hg].
    + rewrite Hf. intuition congruence.
    + rewrite Hg. destruct (f k); intuition congruence.
Qed.

Lemma enum_ext l f g : enum l f -> (forall k, f k = g k) -> enum l g.
Proof. intros [Hn Hl] He. split; [done|]. intros k v. by rewrite <- He. Qed.

(** The keys of these branches. *)
Definition restrict (d : nat) (l : list Z) (f : Z -> option DeltaRef) (k : Z) : option DeltaRef :=
  if decide (nib d k ∈ l) then f k else None.

Lemma enum_cons d b l f l1 l2 : b ∉ l -> enum l1 (restrict d [b] f) -> enum l2 (restrict d l f) ->
  enum (l1 ++ l2) (restrict d (b :: l) f).
Proof.
  intros Hnin Hl1 Hl2. eapply enum_app; [exact Hl1|exact Hl2|..]; intros k; unfold restrict.
  - destruct (decide (nib d k ∈ [b])) as [Hb|]; [|by left]. apply list_elem_of_singleton in Hb. right.
    rewrite decide_False; [done|]. congruence.
  - destruct (decide (nib d k ∈ [b])) as [Hb|Hb]; rewrite list_elem_of_singleton in Hb.
    + rewrite decide_True by (rewrite Hb; by left). destruct (f k) eqn:Hk; [done|]. by case_decide.
    + destruct (decide (nib d k ∈ l)); [by rewrite decide_True by (by right)|].
      rewrite decide_False; [done|]. by intros [|]%elem_of_cons.
Qed.

Lemma enum_restrict_nil d f : enum [] (restrict d [] f).
Proof. apply enum_nil. intros k. unfold restrict. by rewrite decide_False by apply not_elem_of_nil. Qed.

(** ** The walk of a branch *)

Section walk.
Context `{Build} {SHA : SHA512Half} (db : gmap Z Blob) (bk : bool) (ty : TNType) (sq : Z * Z).
Context (o : option SHAMapItem) (first : bool).

Abbreviation okw := (ok db bk ty sq).

Definition item_map (o : option SHAMapItem) : Items := match o with Some it => {[key it := data it]} | None => ∅ end.

(** The difference at a key. *)
Definition diff_at (first : bool) (x y : Items) (k : Z) : option DeltaRef :=
  if decide (x !! k = y !! k) then None else Some (orient first (mkItem k <$> x !! k) (mkItem k <$> y !! k)).

(** Those of the keys of [x]. *)
Definition own_diff (x : Items) (k : Z) : option DeltaRef :=
  match x !! k with Some _ => diff_at first x (item_map o) k | None => None end.

(** The other item was met. *)
Definition hit (x : Items) : bool :=
  match o with Some it => bool_decide (is_Some (x !! key it)) | None => false end.

(** [other] is to be met in [x] only if it was not met before. *)
Definition unmet (e : bool) (x : Items) : Prop := e = true -> hit x = false.

(** What walking a part gives: the differences [f] noted, and the mark. *)
Definition walked (f : Z -> option DeltaRef) (e' : bool) (w : Walk) (r : result (bool * (bool * Walk))) : Prop :=
  exists l e'', enum l f /\ r = Ok ((notes l w).1, (e'', (notes l w).2)) /\ ((notes l w).1 = true -> e'' = e').

Lemma item_map_lookup it k : item_map (Some it) !! k = if decide (k = key it) then Some (data it) else None.
Proof. cbn [item_map]. case_decide as Hk; [subst; apply lookup_singleton_eq|by apply lookup_singleton_ne]. Qed.

Lemma walk_leaf_spec it e w : unmet e {[key it := data it]} ->
  walked (own_diff {[key it := data it]}) (e || hit {[key it := data it]}) w (Ok (walk_leaf o first it (e, w))).
Proof.
  intros Hun. set (x := {[key it := data it]}). 
  assert (Hown : forall k, own_diff x k = if decide (k = key it) then diff_at first x (item_map o) (key it) else None).
  { intros k. unfold own_diff, x. case_decide as Hk; [subst; by rewrite lookup_singleton_eq|by rewrite lookup_singleton_ne]. }
  assert (Hx : x !! key it = Some (data it)) by apply lookup_singleton_eq.
  assert (Hfresh : item_map o !! key it = None -> enum [(key it, orient first (Some it) None)] (own_diff x)).
  { intros Ho. apply enum_one. intros j. rewrite Hown. case_decide; [|done]. unfold diff_at. rewrite Hx, Ho, decide_False by done.
    cbn [fmap option_fmap option_map]. by destruct it. }
  unfold walk_leaf. destruct o as [it'|] eqn:Ho.
  - rewrite item_map_lookup in Hfresh. unfold unmet, hit in *. rewrite Ho in *. destruct e.
    + (* met before *)
      specialize (Hun eq_refl). apply bool_decide_eq_false in Hun.
      assert (key it <> key it') as Hne by (intros Hk; apply Hun; rewrite <- Hk, lookup_singleton_eq; by eexists).
      eexists _, true. rewrite decide_False in Hfresh by done. split; [by apply Hfresh|]. rewrite notes_one. done.
    + destruct (Z.eqb_spec (key it) (key it')) as [Hk|Hne]; cbn [negb].
      * assert (Hhit : bool_decide (is_Some (x !! key it')) = true) by (apply bool_decide_eq_true; rewrite <- Hk, Hx; by eexists).
        assert (Hit : item_map (Some it') !! key it = Some (data it')) by (rewrite item_map_lookup; by rewrite decide_True).
        destruct (decide (data it = data it')) as [Hd|Hd];
          [rewrite (bool_decide_eq_true_2 _ Hd)|rewrite (bool_decide_eq_false_2 _ Hd)]; cbn [negb].
        -- exists [], true. split; [|split; [done|intros _; symmetry; exact Hhit]]. apply enum_nil. intros k. rewrite Hown. destruct (decide (k = key it)); [|done].
           unfold diff_at. rewrite Hx, Hit. by rewrite decide_True by congruence.
        -- eexists _, true. split; [|rewrite notes_one; split; [done|intros _; symmetry; exact Hhit]]. apply enum_one. intros k. rewrite Hown. destruct (decide (k = key it)); [|done].
           unfold diff_at. rewrite Hx, Hit. rewrite decide_False by congruence.
           cbn [fmap option_fmap option_map]. rewrite Hk at 2. by destruct it, it'.
      * rewrite decide_False in Hfresh by done. eexists _, false. split; [by apply Hfresh|]. rewrite notes_one.
        rewrite bool_decide_eq_false_2; [done|]. unfold x. rewrite lookup_singleton_ne by done. by intros [].
  - unfold hit. rewrite Ho. eexists _, e. split; [by apply Hfresh|]. rewrite notes_one, orb_false_r. by destruct e.
Qed.

Lemma own_diff_part d b x k : own_diff (part d b x) k = restrict d [b] (own_diff x) k.
Proof.
  unfold own_diff, restrict, diff_at. rewrite lookup_part. destruct (decide (nib d k ∈ [b])) as [Hb|Hb];
    rewrite list_elem_of_singleton in Hb; destruct (decide (nib d k = b)); done.
Qed.

(** The other item was met in these branches. *)
Definition hit_in (d : nat) (l : list Z) (x : Items) : bool :=
  match o with Some it => bool_decide (is_Some (x !! key it) /\ nib d (key it) ∈ l) | None => false end.

Lemma hit_part d b x : hit (part d b x) = hit_in d [b] x.
Proof.
  unfold hit, hit_in. destruct o as [it|]; [|done]. apply bool_decide_ext. rewrite lookup_part, list_elem_of_singleton.
  destruct (decide _); [tauto|]. split; [by intros []|by intros []].
Qed.

Lemma hit_cons d b l x : hit_in d (b :: l) x = hit_in d [b] x || hit_in d l x.
Proof.
  unfold hit_in. destruct o as [it|]; [|done]. apply eq_true_iff_eq. rewrite orb_true_iff, !bool_decide_eq_true.
  rewrite list_elem_of_singleton, elem_of_cons. tauto.
Qed.

(** Two parts walked in turn. *)
Lemma walked_app d b l x e w (cs : list node) (walk : node -> bool * Walk -> result (bool * (bool * Walk))) c :
  b ∉ l -> (e = true -> hit_in d (b :: l) x = false) ->
  walked (own_diff (part d b x)) (e || hit (part d b x)) w (walk c (e, w)) ->
  (forall e' w', (e' = true -> hit_in d l x = false) ->
     walked (restrict d l (own_diff x)) (e' || hit_in d l x) w' (each walk cs (e', w'))) ->
  walked (restrict d (b :: l) (own_diff x)) (e || hit_in d (b :: l) x) w (each walk (c :: cs) (e, w)).
Proof.
  intros Hnin Hun (l1 & e1 & Hl1 & Hw1 & He1) Hrest. cbn [each]. rewrite Hw1, bind_pass. cbn [fst snd].
  assert (Hjoin : forall l2, enum l2 (restrict d l (own_diff x)) -> enum (l1 ++ l2) (restrict d (b :: l) (own_diff x))).
  { intros l2 Hl2. apply enum_cons; [done| |done]. eapply enum_ext; [exact Hl1|]. intros k. apply own_diff_part. }
  rewrite hit_cons. rewrite hit_cons in Hun. rewrite hit_part in He1. destruct (notes l1 w) as [more w1] eqn:Hn1. cbn [fst snd] in *.
  destruct more.
  - specialize (He1 eq_refl). destruct (Hrest e1 w1) as (l2 & e2 & Hl2 & Hw2 & He2).
    { intros He. rewrite He1 in He. apply orb_true_iff in He as [He|He].
      - specialize (Hun He). by apply orb_false_iff in Hun as [_ ?].
      - unfold hit_in in *. destruct o as [it|]; [|done]. apply bool_decide_eq_true in He as [_ He].
        apply bool_decide_eq_false. intros [_ Hl]. apply list_elem_of_singleton in He. congruence. }
    exists (l1 ++ l2), e2. split; [by apply Hjoin|]. rewrite notes_app, Hn1. cbn [fst snd]. split; [exact Hw2|].
    intros Hm. rewrite (He2 Hm), He1. by rewrite orb_assoc.
  - (* the rest is not walked *)
    destruct (Hrest false w1) as (l2 & e2 & Hl2 & _); [done|]. exists (l1 ++ l2), e1. split; [by apply Hjoin|]. rewrite notes_app, Hn1. cbn [fst snd]. done.
Qed.

(** The children of branches that are present. *)
Lemma pushed_children n i x l : okw (S n) (InnerNode i) x -> Forall (fun b => 0 <= b < 16 /\ isEmptyBranch b i = false) l ->
  exists cs, mapR (fun b => descendThrow db i b bk) l = Ok cs /\ Forall2 (fun b c => okw n c (part (63 - n) b x)) l cs.
Proof.
  intros (_ & _ & _ & Hbs). induction 1 as [|b l [Hb He] _ IH]; [by exists []|]. cbn [mapR].
  specialize (Hbs b Hb). rewrite He in Hbs. destruct Hbs as (c & Hc & Hoc & _). unfold child_at in Hc. rewrite Hc, bind_pass.
  destruct IH as (cs & -> & Hcs). rewrite bind_pass. eexists. split; [done|]. by constructor.
Qed.

Lemma walk_children n walk x l cs : (forall c y e w, okw n c y -> unmet e y -> walked (own_diff y) (e || hit y) w (walk c (e, w))) ->
  NoDup l -> Forall2 (fun b c => okw n c (part (63 - n) b x)) l cs -> forall e w,
  (e = true -> hit_in (63 - n) l x = false) ->
  walked (restrict (63 - n) l (own_diff x)) (e || hit_in (63 - n) l x) w (each walk cs (e, w)).
Proof.
  intros Hwalk Hnd Hcs. revert Hnd. induction Hcs as [|b c l cs Hoc _ IH]; intros Hnd e w Hun.
  - exists [], e. split; [apply enum_restrict_nil|].
    split; [done|]. intros _. unfold hit_in. destruct o; [|by rewrite orb_false_r].
    rewrite bool_decide_eq_false_2, orb_false_r; [done|]. by intros [_ ?%not_elem_of_nil].
  - apply list.NoDup_cons in Hnd as [Hnin Hnd]. apply walked_app; [done|done| |].
    + apply Hwalk; [done|]. intros He. specialize (Hun He). rewrite hit_cons in Hun. apply orb_false_iff in Hun as [Hun _].
      by rewrite hit_part.
    + intros e' w' Hun'. by apply IH.
Qed.

Lemma walk_nodes_spec n : forall fuel t x e w, (n < fuel)%nat -> okw n t x -> unmet e x ->
  walked (own_diff x) (e || hit x) w (walk_nodes db fuel o first bk t (e, w)).
Proof.
  induction n as [|n IH]; intros [|fuel] [it ty' h s|i] x e w Hf Ho Hun; try lia; try done; cbn [walk_nodes].
  1-2: apply ok_leaf in Ho as (-> & -> & -> & _); by apply walk_leaf_spec.
  fold (present i). destruct (pushed_children n i x (present i) Ho) as (cs & -> & Hcs).
  { apply list.Forall_forall. intros b. apply elem_of_present. }
  rewrite bind_pass. apply Forall2_reverse in Hcs.
  assert (Hall : forall k, is_Some (x !! k) -> nib (63 - n) k ∈ reverse (present i)).
  { intros k Hk. apply elem_of_reverse, elem_of_present. split; [apply nib_range|].
    pose proof (ok_branch _ _ _ _ n i x k Ho) as Hb. destruct (isEmptyBranch _ i); [|done]. rewrite Hb in Hk. by destruct Hk. }
  assert (Hhit : hit_in (63 - n) (reverse (present i)) x = hit x).
  { unfold hit_in, hit. destruct o as [it|]; [|done]. apply bool_decide_ext. split; [tauto|]. intros Hk. split; [done|]. by apply Hall. }
  destruct (walk_children n (walk_nodes db fuel o first bk) x (reverse (present i)) (reverse cs)) with (e := e) (w := w)
    as (l & e'' & Hl & Hw & He).
  - intros c y e' w' Hoc Hun'. apply IH; [lia|done|done].
  - rewrite reverse_Permutation. apply NoDup_filter, NoDup_seqZ.
  - done.
  - by rewrite Hhit.
  - exists l, e''. split; [|by rewrite <- Hhit]. eapply enum_ext; [exact Hl|]. intros k. unfold restrict.
    case_decide as Hk; [done|]. unfold own_diff. destruct (x !! k) eqn:Hxk; [|done]. destruct Hk. apply Hall. by eexists.
Qed.

(** The whole difference with the other item. *)
Lemma walkBranch_spec n t x w : (n <= 64)%nat -> okw n t x ->
  exists l, enum l (diff_at first x (item_map o)) /\ walkBranch db t o first w bk = Ok (notes l w).
Proof.
  intros Hn Ho. unfold walkBranch.
  destruct (walk_nodes_spec n levels t x (bool_decide (o = None)) w (levels_gt n Hn) Ho) as (l & e & Hl & -> & He).
  { intros Hnone. apply bool_decide_eq_true in Hnone. unfold hit. by rewrite Hnone. }
  rewrite bind_pass. destruct (notes l w) as [more w'] eqn:Hnotes. cbn [fst snd] in *.
  assert (Hown : forall k, is_Some (x !! k) -> own_diff x k = diff_at first x (item_map o) k).
  { intros k [d Hk]. unfold own_diff. by rewrite Hk. }
  (* what remains is the other item if it was not met *)
  assert (Hrest : hit x = false -> forall it, o = Some it ->
    enum (l ++ [(key it, orient first None (Some it))]) (diff_at first x (item_map o))).
  { intros Hh it Hit. unfold hit in Hh. rewrite Hit in Hh. apply bool_decide_eq_false in Hh. apply eq_None_not_Some in Hh.
    eapply (enum_app _ _ (own_diff x) (fun k => if decide (k = key it) then Some (orient first None (Some it)) else None));
      [done|by apply enum_one|..]; intros k; destruct (decide (k = key it)) as [->|Hne].
    - left. unfold own_diff. by rewrite Hh.
    - by right.
    - assert (Hat : item_map o !! key it = Some (data it)) by (rewrite Hit, item_map_lookup; by rewrite decide_True).
      unfold own_diff. rewrite Hh. unfold diff_at. rewrite Hh, Hat, decide_False by done. cbn. by destruct it.
    - assert (Hat : item_map o !! k = None) by (rewrite Hit, item_map_lookup; by rewrite decide_False).
      unfold own_diff, diff_at. destruct (x !! k) eqn:Hk; [by destruct (decide _)|]. rewrite Hat. by rewrite decide_True. }
  assert (Hmet : (o = None \/ hit x = true) -> enum l (diff_at first x (item_map o))).
  { intros Hor. eapply enum_ext; [exact Hl|]. intros k. destruct (x !! k) eqn:Hk; [apply Hown; by eexists|].
    unfold own_diff. rewrite Hk. symmetry. unfold diff_at. rewrite Hk. destruct o as [it|] eqn:Hit; [|by rewrite decide_True].
    destruct Hor as [|Hh]; [done|]. unfold hit in Hh. rewrite Hit in Hh. apply bool_decide_eq_true in Hh as [v Hv].
    assert (Hat : item_map (Some it) !! k = None) by (rewrite item_map_lookup; by rewrite decide_False by congruence).
    rewrite Hat. by rewrite decide_True. }
  destruct more; cbn [negb].
  - rewrite (He eq_refl). destruct o as [it|] eqn:Hit.
    + rewrite bool_decide_eq_false_2 by done. cbn [orb]. destruct (hit x) eqn:Hh; cbn [negb].
      * exists l. rewrite Hnotes. split; [apply Hmet; by right|done].
      * eexists. split; [by apply Hrest|]. rewrite notes_app, Hnotes. cbn [fst snd]. by rewrite notes_one.
    + rewrite bool_decide_eq_true_2 by done. cbn [orb negb]. exists l. rewrite Hnotes. split; [apply Hmet; by left|done].
  - destruct o as [it|] eqn:Hit.
    + destruct (hit x) eqn:Hh.
      * exists l. rewrite Hnotes. split; [apply Hmet; by right|done].
      * eexists. split; [by apply Hrest|]. rewrite notes_app, Hnotes. done.
    + exists l. rewrite Hnotes. split; [apply Hmet; by left|done].
Qed.

End walk.

(** ** The comparison *)

Section compare.
Context `{Build} {SHA : SHA512Half} (db : gmap Z Blob) (ty : TNType) (bk bk' : bool) (sq sq' : Z * Z) (strs : list Blob).
Context (free : collision_free strs).

Abbreviation diff := (diff_at true).

Lemma diff_flip x y k : diff_at false y x k = diff x y k.
Proof. unfold diff_at, orient. destruct (decide (y !! k = x !! k)), (decide (x !! k = y !! k)); congruence. Qed.

Lemma diff_part d b x y k : diff (part d b x) (part d b y) k = restrict d [b] (diff x y) k.
Proof.
  unfold restrict, diff_at. rewrite !lookup_part. destruct (decide (nib d k ∈ [b])) as [Hb|Hb];
    rewrite list_elem_of_singleton in Hb; destruct (decide (nib d k = b)); done.
Qed.

(** A walk that notes the values of [f]. *)
Definition noted {A} (walk : A -> Walk -> result (bool * Walk)) (c : A) (f : Z -> option DeltaRef) : Prop :=
  forall w, exists l, enum l f /\ walk c w = Ok (notes l w).

Lemma each_noted {A} (walk : A -> Walk -> result (bool * Walk)) d f l cs : NoDup l ->
  Forall2 (fun b c => noted walk c (restrict d [b] f)) l cs -> noted (each walk) cs (restrict d l f).
Proof.
  intros Hnd Hcs. revert Hnd. induction Hcs as [|b c l cs Hc _ IH]; intros Hnd w.
  - exists []. split; [apply enum_restrict_nil|done].
  - apply list.NoDup_cons in Hnd as [Hnin Hnd]. destruct (Hc w) as (l1 & Hl1 & Hw1). cbn [each]. rewrite Hw1, bind_pass.
    destruct (IH Hnd (notes l1 w).2) as (l2 & Hl2 & Hw2). exists (l1 ++ l2). split; [by apply enum_cons|].
    rewrite notes_app. destruct (notes l1 w) as [[] w1]; cbn [fst snd] in *; [exact Hw2|done].
Qed.

Lemma compare_leaves_spec ours other w : exists l,
  enum l (diff {[key ours := data ours]} {[key other := data other]}) /\ compare_leaves ours other w = notes l w.
Proof.
  unfold compare_leaves. destruct (Z.eqb_spec (key ours) (key other)) as [Hk|Hk].
  - destruct (decide (data ours = data other)) as [Hd|Hd];
      [rewrite bool_decide_eq_true_2 by done|rewrite bool_decide_eq_false_2 by done]; cbn [negb].
    + exists []. split; [|done]. apply enum_nil. intros k. unfold diff_at. by rewrite Hk, Hd, decide_True.
    + eexists. split; [|by rewrite <- notes_one]. apply enum_one. intros j. unfold diff_at.
      destruct (decide (j = key ours)) as [->|Hne].
      * rewrite <- Hk, !lookup_singleton_eq, decide_False by congruence. cbn. rewrite Hk at 2. by destruct ours, other.
      * rewrite !lookup_singleton_ne by congruence. by rewrite decide_True.
  - exists [(key ours, (Some ours, None)); (key other, (None, Some other))]. split.
    + apply (enum_app [_] [_] (fun j => if decide (j = key ours) then Some (Some ours, None) else None)
        (fun j => if decide (j = key other) then Some (None, Some other) else None));
        [by apply enum_one|by apply enum_one|..]; intros j; destruct (decide (j = key ours)) as [->|Hne].
      * right. by rewrite decide_False.
      * by left.
      * unfold diff_at. rewrite lookup_singleton_eq, lookup_singleton_ne by done. rewrite decide_False by done. by destruct ours.
      * unfold diff_at. rewrite (lookup_singleton_ne (key ours)) by done. destruct (decide (j = key other)) as [->|Hne'].
        -- rewrite lookup_singleton_eq, decide_False by done. by destruct other.
        -- rewrite lookup_singleton_ne by done. by rewrite decide_True.
    + cbn [notes]. destruct (note _ w) as [[] w']; cbn [fst snd]; [|done]. by destruct (note _ w') as [[] ?].
Qed.

(** A subtree of one of the maps, hashed, with its strings. *)
Record side (bk : bool) (sq : Z * Z) (n : nat) (p : Z) (t : node) (x : Items) : Prop := {
  side_ok : ok db bk ty sq n t x;
  side_hashed : hashed db bk n t;
  side_within : within (64 - n) p x;
  side_keyed : keyed ty x }.

(** The strings of the branches are among those that do not collide. *)
Definition covered (n : nat) (x : Items) : Prop := forall b s, 0 <= b < 16 -> s ∈ tree_strings ty n (part (63 - n) b x) -> s ∈ strs.

Definition paired (ours other : inner node) (b : Z) : bool :=
  negb (getChildHash b ours =? getChildHash b other) && negb (isEmptyBranch b other) && negb (isEmptyBranch b ours).

Lemma side_part bk0 sq0 n p t x b : (n < 64)%nat -> side bk0 sq0 (S n) p t x ->
  within (64 - n) (p * 16 + b) (part (63 - n) b x) /\ keyed ty (part (63 - n) b x).
Proof.
  intros Hn [_ _ Hw Hk]. split; [|by apply keyed_part].
  replace (64 - S n)%nat with (63 - n)%nat in Hw by lia. replace (64 - n)%nat with (S (63 - n)) by lia.
  apply within_part; [lia|done].
Qed.

(** The child of a side is a side. *)
Lemma side_child bk0 sq0 n p i x b : (n < 64)%nat -> side bk0 sq0 (S n) p (InnerNode i) x -> 0 <= b < 16 -> isEmptyBranch b i = false ->
  exists c, child_at db bk0 i b c /\ side bk0 sq0 n (p * 16 + b) c (part (63 - n) b x).
Proof.
  intros Hn Hs Hb He. destruct (side_part _ _ n p _ x b Hn Hs) as [Hw Hk]. destruct Hs as [Ho Hh _ _]. pose proof Ho as (_ & _ & _ & Hbs). specialize (Hbs b Hb). rewrite He in Hbs.
  destruct Hbs as (c & Hc & Hoc & _). exists c. split; [done|]. constructor; [done| |done|done].
  destruct Hh as [_ Hall]. specialize (Hall b Hb). rewrite He in Hall. destruct Hall as (c' & Hc' & _ & Hhc).
    unfold child_at in *. rewrite Hc in Hc'. by injection Hc' as <-.
Qed.

Lemma side_hash bk0 sq0 n p i x b : side bk0 sq0 (S n) p (InnerNode i) x -> 0 <= b < 16 ->
  getChildHash b i = tree_hash ty n (part (63 - n) b x).
Proof.
  intros [Ho Hh _ _] Hb. eapply branch_hash; [done..|]. intros c Hoc Hpc Hhc. by eapply hashed_tree.
Qed.

Lemma side_empty bk0 sq0 n p i x b : side bk0 sq0 (S n) p (InnerNode i) x -> 0 <= b < 16 ->
  isEmptyBranch b i = true -> part (63 - n) b x = ∅.
Proof. intros [(_ & _ & _ & Hbs) _ _ _] Hb He. specialize (Hbs b Hb). rewrite He in Hbs. by destruct Hbs. Qed.

(** One branch of two inner nodes. *)
Lemma compare_branch_spec n p i j x y b stack w : (n < 64)%nat -> side bk sq (S n) p (InnerNode i) x ->
  side bk' sq' (S n) p (InnerNode j) y -> covered n x -> covered n y -> 0 <= b < 16 ->
  if paired i j b
  then exists c c', side bk sq n (p * 16 + b) c (part (63 - n) b x) /\ side bk' sq' n (p * 16 + b) c' (part (63 - n) b y) /\
       compare_branch db i j bk bk' b (stack, w) = Ok (true, ((c, c') :: stack, w))
  else exists l, enum l (restrict (63 - n) [b] (diff x y)) /\
       compare_branch db i j bk bk' b (stack, w) = Ok ((notes l w).1, (stack, (notes l w).2)).
Proof.
  intros Hn Hx Hy Hcx Hcy Hb. unfold compare_branch, paired.
  assert (Hd : forall l f, (forall k, f k = diff (part (63 - n) b x) (part (63 - n) b y) k) -> enum l f ->
    enum l (restrict (63 - n) [b] (diff x y))).
  { intros l f Hf Hl. eapply enum_ext; [exact Hl|]. intros k. by rewrite Hf, diff_part. }
  destruct (Z.eqb_spec (getChildHash b i) (getChildHash b j)) as [He|He]; cbn [negb andb].
  - exists []. split; [|done]. eapply Hd; [done|]. apply enum_nil. intros k.
    rewrite (side_hash _ _ _ _ _ _ _ Hx Hb), (side_hash _ _ _ _ _ _ _ Hy Hb) in He. unfold diff_at.
    destruct (side_part _ _ n p _ x b Hn Hx) as [Hwx Hkx]. destruct (side_part _ _ n p _ y b Hn Hy) as [Hwy Hky].
    assert (part (63 - n) b x = part (63 - n) b y) as ->.
    { apply (tree_inj ty n strs free ltac:(lia) _ _ (p * 16 + b)); [done..|intros s; by apply Hcx|intros s; by apply Hcy|done]. }
    by rewrite decide_True.
  - destruct (isEmptyBranch b j) eqn:Hj; cbn [negb andb]; [|destruct (isEmptyBranch b i) eqn:Hi; cbn [negb andb]].
    + destruct (isEmptyBranch b i) eqn:Hi.
      { exfalso. apply He. rewrite (side_hash _ _ _ _ _ _ _ Hx Hb), (side_hash _ _ _ _ _ _ _ Hy Hb).
        by rewrite (side_empty _ _ _ _ _ _ _ Hx Hb Hi), (side_empty _ _ _ _ _ _ _ Hy Hb Hj). }
      destruct (side_child _ _ _ _ _ _ _ Hn Hx Hb Hi) as (c & Hc & Hsc). unfold child_at in Hc. rewrite Hc, bind_pass.
      destruct (walkBranch_spec db bk ty sq None true n c _ w ltac:(lia) (side_ok _ _ _ _ _ _ Hsc)) as (l & Hl & ->).
      rewrite bind_pass. exists l. split; [|done]. eapply Hd; [|exact Hl]. intros k.
      by rewrite (side_empty _ _ _ _ _ _ _ Hy Hb Hj).
    + destruct (side_child _ _ _ _ _ _ _ Hn Hy Hb Hj) as (c & Hc & Hsc). unfold child_at in Hc. rewrite Hc, bind_pass.
      destruct (walkBranch_spec db bk' ty sq' None false n c _ w ltac:(lia) (side_ok _ _ _ _ _ _ Hsc)) as (l & Hl & ->).
      rewrite bind_pass. exists l. split; [|done]. eapply Hd; [|exact Hl]. intros k.
      by rewrite (side_empty _ _ _ _ _ _ _ Hx Hb Hi), diff_flip.
    + destruct (side_child _ _ _ _ _ _ _ Hn Hx Hb Hi) as (c & Hc & Hsc).
      destruct (side_child _ _ _ _ _ _ _ Hn Hy Hb Hj) as (c' & Hc' & Hsc').
      unfold child_at in Hc, Hc'. rewrite Hc, bind_pass, Hc', bind_pass. by exists c, c'.
Qed.

(** All branches: the differences of one side noted, the pairs pushed. *)
Lemma compare_branches_spec n p i j x y l : (n < 64)%nat -> side bk sq (S n) p (InnerNode i) x ->
  side bk' sq' (S n) p (InnerNode j) y -> covered n x -> covered n y -> NoDup l -> Forall (fun b => 0 <= b < 16) l ->
  forall stack w, exists ds ps stack',
    enum ds (restrict (63 - n) (filter (fun b => paired i j b = false) l) (diff x y)) /\
    Forall2 (fun b c => 0 <= b < 16 /\ side bk sq n (p * 16 + b) c.1 (part (63 - n) b x) /\ side bk' sq' n (p * 16 + b) c.2 (part (63 - n) b y))
      (reverse (filter (fun b => paired i j b = true) l)) ps /\
    each (compare_branch db i j bk bk') l (stack, w) = Ok ((notes ds w).1, (stack', (notes ds w).2)) /\
    ((notes ds w).1 = true -> stack' = ps ++ stack).
Proof.
  intros Hn Hx Hy Hcx Hcy. induction l as [|b l IH]; intros Hnd Hl stack w.
  { exists [], [], stack. split; [apply enum_restrict_nil|]. split; [by constructor|]. done. }
  apply list.NoDup_cons in Hnd as [Hnin Hnd]. apply Forall_cons_1 in Hl as [Hb Hl].
  pose proof (compare_branch_spec n p i j x y b stack w Hn Hx Hy Hcx Hcy Hb) as Hbr. cbn [each]. rewrite !filter_cons.
  destruct (paired i j b) eqn:Hp.
  - destruct Hbr as (c & c' & Hc & Hc' & ->). rewrite bind_pass. cbn [fst snd].
    destruct (IH Hnd Hl ((c, c') :: stack) w) as (ds & ps & stack' & Hds & Hps & Heach & Hst).
    rewrite decide_False, decide_True by done. exists ds, (ps ++ [(c, c')]), stack'. split; [done|].
    split; [rewrite reverse_cons; apply List.Forall2_app; [done|constructor; [by split|constructor]]|]. split; [exact Heach|].
    intros Hm. by rewrite <- app_assoc, (Hst Hm).
  - destruct Hbr as (l1 & Hl1 & ->). rewrite bind_pass. cbn [fst snd].
    destruct (IH Hnd Hl stack (notes l1 w).2) as (ds & ps & stack' & Hds & Hps & Heach & Hst).
    rewrite decide_True, decide_False by done. assert (b ∉ filter (fun b => paired i j b = false) l) by (by intros [_ ?]%list_elem_of_filter).
    destruct (notes l1 w) as [more w1] eqn:Hn1. cbn [fst snd] in *. destruct more.
    + exists (l1 ++ ds), ps, stack'. split; [by apply enum_cons|]. split; [done|]. rewrite notes_app, Hn1. cbn [fst snd]. done.
    + exists (l1 ++ ds), ps, stack. split; [by apply enum_cons|]. split; [done|]. rewrite notes_app, Hn1. cbn [fst snd]. done.
Qed.

(** The strings of the branches are among those of the tree. *)
Lemma covered_down n x : (forall s, s ∈ tree_strings ty (S n) x -> s ∈ strs) -> covered n x.
Proof.
  intros Hs b s Hb Hin. apply Hs. destruct (items_cases x) as [->|[(k & d & ->)|Hsev]].
  - rewrite part_empty in Hin. exfalso. destruct n; cbn [tree_strings] in Hin; rewrite map_to_list_empty in Hin; by apply not_elem_of_nil in Hin.
  - rewrite strings_one. destruct (decide (b = nib (63 - n) k)) as [->|Hne].
    + by rewrite part_single, strings_one in Hin.
    + rewrite part_single_ne in Hin by done. exfalso.
      destruct n; cbn [tree_strings] in Hin; rewrite map_to_list_empty in Hin; by apply not_elem_of_nil in Hin.
  - rewrite strings_several by done. right. by apply (elem_of_branch ty n b).
Qed.

(** Both inner nodes. *)
Lemma compare_inner n p i j x y (down : node * node -> Walk -> result (bool * Walk)) : (n < 64)%nat ->
  side bk sq (S n) p (InnerNode i) x -> side bk' sq' (S n) p (InnerNode j) y -> covered n x -> covered n y ->
  (forall b c c', 0 <= b < 16 -> side bk sq n (p * 16 + b) c (part (63 - n) b x) -> side bk' sq' n (p * 16 + b) c' (part (63 - n) b y) ->
     noted down (c, c') (diff (part (63 - n) b x) (part (63 - n) b y))) ->
  forall w, exists l, enum l (diff x y) /\
    (r ← each (compare_branch db i j bk bk') (seqZ 0 16) ([], w);
     let '(more, (stack, w)) := r in
     if more : bool then each down stack w else Ok (false, w)) = Ok (notes l w).
Proof.
  intros Hn Hx Hy Hcx Hcy Hdown w.
  destruct (compare_branches_spec n p i j x y (seqZ 0 16) Hn Hx Hy Hcx Hcy (NoDup_seqZ _ _)
    ltac:(apply list.Forall_forall; intros b; rewrite elem_of_seqZ; lia) [] w) as (ds & ps & stack' & Hds & Hps & -> & Hst).
  rewrite bind_pass.
  assert (Hpairs : noted (each down) ps (restrict (63 - n) (reverse (filter (fun b => paired i j b = true) (seqZ 0 16))) (diff x y))).
  { apply each_noted; [rewrite reverse_Permutation; apply NoDup_filter, NoDup_seqZ|].
    eapply Forall2_impl; [exact Hps|]. intros b [c c'] (Hb & Hc & Hc') w0.
    destruct (Hdown b c c' Hb Hc Hc' w0) as (l & Hl & Hw). exists l. split; [|done].
    eapply enum_ext; [exact Hl|]. intros k. apply diff_part. }
  destruct (Hpairs (notes ds w).2) as (l2 & Hl2 & Hw2). exists (ds ++ l2). split.
  - eapply enum_app; [exact Hds|exact Hl2|..]; intros k; unfold restrict.
    + destruct (decide (nib (63 - n) k ∈ filter _ _)) as [H1|]; [|by left]. right. rewrite decide_False; [done|].
      intros H2. rewrite elem_of_reverse in H2. apply list_elem_of_filter in H1 as [H1 _], H2 as [H2 _]. congruence.
    + pose proof (nib_range (63 - n) k) as Hr. destruct (paired i j (nib (63 - n) k)) eqn:Hp.
      * rewrite decide_False by (intros [? _]%list_elem_of_filter; congruence). rewrite decide_True; [done|].
        apply elem_of_reverse, list_elem_of_filter. split; [done|]. apply elem_of_seqZ. lia.
      * rewrite decide_True by (apply list_elem_of_filter; split; [done|]; apply elem_of_seqZ; lia).
        destruct (diff x y k); [done|]. by case_decide.
  - rewrite notes_app. destruct (notes ds w) as [more w']. cbn [fst snd] in *. destruct more; [|done].
    rewrite (Hst eq_refl), app_nil_r. exact Hw2.
Qed.

Lemma compare_nodes_spec n : forall fuel p t u x y, (n < fuel)%nat -> (n <= 64)%nat ->
  side bk sq n p t x -> side bk' sq' n p u y ->
  (forall n', n = S n' -> covered n' x /\ covered n' y) -> noted (compare_nodes db fuel bk bk') (t, u) (diff x y).
Proof.
  induction n as [|n IH]; intros [|fuel] p [it ty1 h s|i] [it' ty2 h' s'|j] x y Hf Hn Ht Hu Hcov w; try lia;
    try (by destruct (side_ok _ _ _ _ _ _ Ht)); try (by destruct (side_ok _ _ _ _ _ _ Hu)); cbn [compare_nodes].
  (* two leaves *)
  1-2: pose proof (side_ok _ _ _ _ _ _ Ht) as (_ & -> & _)%ok_leaf; pose proof (side_ok _ _ _ _ _ _ Hu) as (_ & -> & _)%ok_leaf;
    destruct (compare_leaves_spec it it' w) as (l & Hl & ->); by exists l.
  - pose proof (side_ok _ _ _ _ _ _ Ht) as (_ & -> & _)%ok_leaf.
    destruct (walkBranch_spec db bk' ty sq' (Some it) false (S n) _ y w Hn (side_ok _ _ _ _ _ _ Hu)) as (l & Hl & ->).
    exists l. split; [|done]. eapply enum_ext; [exact Hl|]. intros k. apply diff_flip.
  - pose proof (side_ok _ _ _ _ _ _ Hu) as (_ & -> & _)%ok_leaf.
    apply (walkBranch_spec db bk ty sq (Some it') true (S n) _ x w Hn (side_ok _ _ _ _ _ _ Ht)).
  - destruct (Hcov n eq_refl) as [Hcx Hcy]. apply (compare_inner n p i j x y); [lia|done..|].
    intros b c c' Hb Hc Hc'. apply (IH fuel (p * 16 + b)); [lia|lia|done|done|]. intros n' ->.
    split; apply covered_down; intros s; [by apply Hcx|by apply Hcy].
Qed.

End compare.

(** ** The difference of two maps *)

Definition delta (x y : Items) : Delta := map_imap (fun k _ => diff_at true x y k) (x ∪ y).

Lemma lookup_delta x y k : delta x y !! k = diff_at true x y k.
Proof.
  unfold delta. rewrite map_lookup_imap, lookup_union. unfold diff_at.
  by destruct (x !! k), (y !! k).
Qed.

Lemma enum_delta l x y : enum l (diff_at true x y) -> list_to_map l = delta x y.
Proof.
  intros [Hnd Hl]. apply map_eq. intros k. rewrite lookup_delta. apply option_eq. intros v.
  rewrite <- elem_of_list_to_map by done. apply Hl.
Qed.

(** What is noted in an empty table before the limit is reached. *)
Lemma notes_spec l : forall d c, NoDup l.*1 -> (forall k, k ∈ l.*1 -> d !! k = None) -> (0 < c)%nat ->
  notes l (mkWalk d (Z.of_nat c)) =
  if decide (length l < c)%nat then (true, mkWalk (list_to_map l ∪ d) (Z.of_nat (c - length l)))
  else (false, mkWalk (list_to_map (take c l) ∪ d) 0).
Proof.
  induction l as [|[k v] l IH]; intros d c Hnd Hd Hc; cbn [notes].
  { rewrite decide_True by (simpl; lia). cbn [length list_to_map foldr]. rewrite (left_id_L ∅ (∪)). do 3 f_equal. lia. }
  cbn [fmap list_fmap fst] in *. apply list.NoDup_cons in Hnd as [Hnin Hnd]. unfold note. cbn [differences maxCount fst snd].
  rewrite (Hd k) by (by left). assert (Hins : forall l', k ∉ l'.*1 -> list_to_map ((k, v) :: l') ∪ d = list_to_map l' ∪ <[k := v]> d).
  { intros l' Hl'. cbn [list_to_map foldr fst snd]. rewrite <- insert_union_l. rewrite <- insert_union_r; [done|]. by apply not_elem_of_list_to_map. }
  destruct (Z.leb_spec (Z.of_nat c - 1) 0) as [H1|H1]; cbn [negb].
  - assert (c = 1%nat) as -> by lia. rewrite decide_False by (simpl; lia). cbn [take]. rewrite take_0, Hins by apply not_elem_of_nil.
    by rewrite list_to_map_nil, (left_id_L ∅ (∪)).
  - replace (Z.of_nat c - 1) with (Z.of_nat (c - 1)) by lia. rewrite IH; [|done| |lia].
    2:{ intros j Hj. rewrite lookup_insert_ne; [|congruence]. apply Hd. by right. }
    destruct c as [|c]; [lia|]. replace (S c - 1)%nat with c by lia. cbn [length take].
    destruct (decide (length l < c)%nat).
    + rewrite decide_True by lia. rewrite Hins by done. do 3 f_equal.
    + rewrite decide_False by lia. rewrite Hins; [done|]. intros Hin. apply Hnin. rewrite fmap_take in Hin.
      eapply elem_of_take in Hin as (j & Hj & _). by apply list_elem_of_lookup_2 in Hj.
Qed.

Section maps.
Context `{Build} {SHA : SHA512Half} (db : gmap Z Blob) (ty : TNType).

(** C30: [compare] reports differences of the items of the two maps and nothing
    else, although it skips what has the same hash, and up to the limit all of
    them: when there are at most [count] differences the table is complete, and
    when there are more it has [count] of them.  It answers [true] exactly when
    there are fewer than [count].  So [true] means a complete table, as the comment
    of the code says; but [false] does not mean that there are too many, as the
    comment says: with exactly [count] differences the answer is [false] and the
    table is complete. *)
Theorem compare_complete lo lo' m m' x y count : holds lo db ty m x -> holds lo' db ty m' y -> isValid m = true -> isValid m' = true ->
  keyed ty x -> keyed ty y -> collision_free (root_strings ty x ++ root_strings ty y) -> 0 < count ->
  exists more d, compare db m m' count ∅ = Ok (more, d) /\ d ⊆ delta x y /\
    (more = true <-> Z.of_nat (base.size (delta x y)) < count) /\
    (if more then d = delta x y else Z.of_nat (base.size d) = count) /\
    (Z.of_nat (base.size (delta x y)) <= count -> d = delta x y).
Proof.
  intros Hm Hm' Hv Hv' Hk Hk' Hfree Hc. unfold compare. rewrite assert_pass by (by rewrite Hv, Hv').
  destruct (getHash_spec db ty lo m x Hm) as (m1 & -> & Hm1 & _ & Hh1). rewrite bind_pass.
  destruct (getHash_spec db ty lo' m' y Hm') as (m2 & -> & Hm2 & _ & Hh2). rewrite bind_pass. cbn [fst snd].
  assert (Hsx : forall s, s ∈ root_strings ty x -> s ∈ root_strings ty x ++ root_strings ty y) by (intros s Hs; apply elem_of_app; by left).
  assert (Hsy : forall s, s ∈ root_strings ty y -> s ∈ root_strings ty x ++ root_strings ty y) by (intros s Hs; apply elem_of_app; by right).
  pose proof (held_within db ty lo m x Hm) as Hwx. pose proof (held_within db ty lo' m' y Hm') as Hwy.
  destruct (Z.eqb_spec (root_hash ty x) (root_hash ty y)) as [He|He].
  - apply (root_inj ty _ x y Hfree Hwx Hwy Hk Hk' Hsx Hsy) in He. subst y.
    assert (Hmt : delta x x = ∅) by (apply map_eq; intros k; rewrite lookup_delta, lookup_empty; unfold diff_at; by rewrite decide_True).
    exists true, ∅. rewrite Hmt, map_size_empty. split; [done|]. split; [done|]. split; [|done]. by split; [intros _; lia|].
  - destruct (compare_nodes_spec db ty (backed_ m1) (backed_ m2) (lo, seq_ m1) (lo', seq_ m2) _ Hfree 64 levels 0 (root_ m1) (root_ m2) x y
      (levels_gt 64 (le_n 64)) (le_n 64)) with (w := mkWalk ∅ count) as (l & Hl & ->).
    { constructor; [apply Hm1|done..]. }
    { constructor; [apply Hm2|done..]. }
    { intros n' [= <-]. split; intros b s Hb Hs; [apply Hsx|apply Hsy]; unfold root_strings; rewrite decide_False.
      1,3: right; by apply (elem_of_branch ty 63 b).
      all: intros ->; rewrite part_empty in Hs; cbn [tree_strings] in Hs; rewrite map_to_list_empty in Hs; by apply not_elem_of_nil in Hs. }
    rewrite bind_pass. replace count with (Z.of_nat (Z.to_nat count)) by lia. pose proof Hl as [Hnd _].
    rewrite (notes_spec l ∅ (Z.to_nat count) Hnd) by (done || lia). rewrite <- (enum_delta l x y Hl).
    rewrite map_size_list_to_map by done. case_decide as Hlen; eexists _, _; (split; [done|]); cbn [fst snd differences]; rewrite (right_id_L ∅ (∪)).
    + split; [done|]. split; [|done]. split; [intros _; lia|done].
    + assert (Hndt : NoDup (take (Z.to_nat count) l).*1) 
        by (rewrite fmap_take; rewrite <- (take_drop (Z.to_nat count) l.*1) in Hnd; by apply NoDup_app in Hnd as [? _]).
      split; [|split; [split; [done|lia]|split]].
      * apply map_subseteq_spec. intros k v Hkv. apply elem_of_list_to_map_2 in Hkv. apply elem_of_list_to_map_1; [done|].
        apply elem_of_take in Hkv as (i & Hi & _). by apply list_elem_of_lookup_2 in Hi.
      * rewrite map_size_list_to_map by done. rewrite length_take. lia.
      * intros Hle. by rewrite take_ge by lia.
Qed.

End maps.

(** ** Nothing is missing from a map that is held *)

Section missing.
Context `{Build} {SHA : SHA512Half} (db : gmap Z Blob) (ty : TNType) (bk : bool) (sq : Z * Z).

Lemma missing_branches n i x l : ok db bk ty sq (S n) (InnerNode i) x -> Forall (fun b => 0 <= b < 16) l -> forall stack st,
  Forall (fun j => exists y, ok db bk ty sq n (InnerNode j) y) stack ->
  exists stack', each (missing_branch db i bk) l (stack, st) = Ok (true, (stack', st)) /\
    Forall (fun j => exists y, ok db bk ty sq n (InnerNode j) y) stack'.
Proof.
  intros (_ & _ & _ & Hbs). induction 1 as [|b l Hb _ IH]; intros stack [missing count] Hst; [by exists stack|]. cbn [each]. unfold missing_branch.
  specialize (Hbs b Hb). destruct (isEmptyBranch b i); [by apply IH|]. destruct Hbs as (c & Hc & Hoc & _).
  unfold child_at, descendThrow in Hc. unfold descendNoStore.
  assert (match getChild b i with Some n0 => Ok (Some n0) | None =>
    if bk then match fetchNodeNT db (getChildHash b i) bk with Some n0 => Ok (Some n0) | None => Throw "SHAMapMissingNode" end
    else Ok None end = Ok (Some c)) as ->.
  { destruct (getChild b i); [congruence|]. unfold fetchNodeNT in *. destruct bk; [|done]. by destruct (match db !! _ with Some _ => _ | None => _ end); simplify_eq. }
  rewrite bind_pass.
  destruct c as [|j]; [by apply IH|]. apply IH. constructor; [by eexists|done].
Qed.

Lemma missing_below_spec n : forall fuel i x st, (n < fuel)%nat -> ok db bk ty sq n (InnerNode i) x ->
  missing_below db fuel bk i st = Ok (true, st).
Proof.
  induction n as [|n IH]; intros [|fuel] i x st Hf Ho; try lia; [done|]. cbn [missing_below].
  destruct (missing_branches n i x (seqZ 0 16) Ho ltac:(apply list.Forall_forall; intros b; rewrite elem_of_seqZ; lia) [] st) as (stack & -> & Hst);
    [constructor|]. rewrite bind_pass. induction Hst as [|j stack [y Hy] _ IHs]; [done|]. cbn [each].
  rewrite (IH fuel j y st ltac:(lia) Hy), bind_pass. exact IHs.
Qed.

End missing.

(** [walkMap] ends and reports no node of a map that is held. *)
Lemma walkMap_none `{Build} {SHA : SHA512Half} db ty lo m x count : holds lo db ty m x -> walkMap db m count = Ok [].
Proof.
  intros [Hroot Htree _ _]. unfold walkMap. destruct (root_ m) as [|i]; [done|].
  by rewrite (missing_below_spec db ty (backed_ m) (lo, seq_ m) 64 levels i x _ (levels_gt 64 (le_n 64)) Htree).
Qed.

(** *** A backed map *)

Section backed.
Context `{Build} {SHA : SHA512Half} (db : gmap Z Blob).

Lemma missing_branch_backed i b stack st r : missing_branch db i true b (stack, st) = Ok r -> r.1 = true /\ r.2.2 = st.
Proof.
  destruct st as [missing count]. unfold missing_branch, descendNoStore. destruct (isEmptyBranch b i); [by intros [= <-]|].
  destruct (getChild b i) as [[|]|]; [by intros [= <-]..|]. destruct (fetchNodeNT db _ true) as [[|]|]; [by intros [= <-]..|done].
Qed.

Lemma missing_branches_backed i l : forall stack st r, each (missing_branch db i true) l (stack, st) = Ok r -> r.1 = true /\ r.2.2 = st.
Proof.
  induction l as [|b l IH]; intros stack st r; cbn [each]; [by intros [= <-]|].
  destruct (missing_branch db i true b (stack, st)) as [[more [stack' st']]| |] eqn:Hb; [|done..]. rewrite bind_pass. cbn [fst snd].
  apply missing_branch_backed in Hb as [Hm Hs]. cbn [fst snd] in *. subst. apply IH.
Qed.

Lemma missing_below_backed fuel : forall i st r, missing_below db fuel true i st = Ok r -> r = (true, st).
Proof.
  induction fuel as [|fuel IH]; intros i st r; cbn [missing_below]; [done|].
  destruct (each _ _ _) as [[more [stack st']]| |] eqn:He; [|done..]. rewrite bind_pass.
  apply missing_branches_backed in He as [Hm Hs]. cbn [fst snd] in *. subst.
  revert r. induction stack as [|j stack IHs]; intros r; cbn [each]; [by intros [= <-]|].
  destruct (missing_below db fuel true j st) as [r'| |] eqn:Hj; [|done..]. rewrite bind_pass. apply IH in Hj as ->. apply IHs.
Qed.

(** On a map backed by the store [walkMap] never reports a missing node: it
    ends with an empty list or throws at the first node that is not there,
    because the node is fetched by the function that throws. *)
Theorem walkMap_never_reports m count l : backed_ m = true -> walkMap db m count = Ok l -> l = [].
Proof.
  intros Hbk. unfold walkMap. destruct (root_ m) as [|i]; [by intros [= <-]|]. rewrite Hbk.
  destruct (missing_below db levels true i ([], count)) as [r| |] eqn:Hr; [|done..]. rewrite bind_pass.
  apply missing_below_backed in Hr as ->. by intros [= <-].
Qed.

End backed.

Section witnesses.
Import Sample.

Lemma compare_complete_witness : exists m m' more d,
  (m0 ← make_map 7; run ∅ false false ops m0) = Ok ((abs_run false false ops ∅).1, m) /\
  (m0 ← make_map 1; run ∅ false false [AddItem one; AddItem two] m0) = Ok ((abs_run false false [AddItem one; AddItem two] ∅).1, m') /\
  compare ∅ m m' 4 ∅ = Ok (more, d) /\ more = true /\
  d = delta (abs_run false false ops ∅).2 (abs_run false false [AddItem one; AddItem two] ∅).2.
Proof.
  destruct (run_new ∅ false false 7 ops ltac:(done) ltac:(done) ops_allowed) as (m & Hr & Hm & Hst & _).
  destruct (run_new ∅ false false 1 [AddItem one; AddItem two] ltac:(done) ltac:(done)
    ltac:(split; [by apply fits|]; split; [by apply fits|done])) as (m' & Hr' & Hm' & Hst' & _).
  set (x := (abs_run false false ops ∅).2) in *. set (x' := (abs_run false false [AddItem one; AddItem two] ∅).2) in *.
  destruct (compare_complete ∅ (leaf_type false false) 1 1 m m' x x' 4) as (more & d & Hc & _ & Hmore & Hd & _);
    [exact Hm|exact Hm'|unfold isValid; by rewrite Hst|unfold isValid; by rewrite Hst'|by apply keyed_other|by apply keyed_other|
     apply (bool_decide_unpack _); by vm_compute|done|].
  assert (more = true) as -> by (apply Hmore; by vm_compute).
  exists m, m', true, d. split; [exact Hr|]. split; [exact Hr'|]. split; [exact Hc|]. split; [reflexivity|exact Hd].
Defined.

(** The root has a branch whose node is nowhere. *)
Definition torn (backed : bool) : ShaMap.t :=
  mk (InnerNode (mkInner 9 1 (<[3%nat := 77]> (replicate 16 0)) (replicate 16 None) 8)) 1 Synching backed.

Definition bare : ShaMap.t := mk (InnerNode (newInner 1)) 1 Modifying true.

Lemma walkMap_never_reports_witness : walkMap ∅ (torn true) 32 = Throw "SHAMapMissingNode" /\ walkMap ∅ (torn false) 32 = Ok [77] /\
  walkMap ∅ bare 32 = Ok [] /\ exists l, walkMap ∅ bare 32 = Ok l /\ l = [].
Proof.
  split; [by vm_compute|]. split; [by vm_compute|]. split; [by vm_compute|]. exists []. split; [by vm_compute|].
  apply (walkMap_never_reports ∅ bare 32); by vm_compute.
Defined.

End witnesses.
End ShaDelta.
