(* ===== verification/ShaWire.v ===== *)
(** * Serialised nodes

    The raw forms of the nodes of a hash tree ([addNodeRaw]) are read back by
    [make] as the nodes they came from, without the children in memory, and the
    prefixed form is the string whose hash is that of the node. *)

From stdpp Require Import base tactics numbers list strings option gmap sorting.
From S2P Require Import Prelude Serializer View Indexes ShaNode ShaMap ShaTree ShaEdit ShaHash ShaRun ShaUnique.

Module ShaWire.
Import Serializer ShaNode ShaMap ShaTree ShaEdit ShaHash ShaRun ShaUnique.

(** ** Records of a fixed size *)

Lemma concat_slice (w : nat) (ls : list Blob) j : Forall (fun s => length s = w) ls -> (j < length ls)%nat ->
  exists rest, drop (j * w) (concat ls) = (ls !!! j) ++ rest.
Proof.
  intros Hls. revert j. induction Hls as [|s ls Hs Hls IH]; intros j Hj; [simpl in Hj; lia|]. destruct j as [|j].
  - by exists (concat ls).
  - cbn [length] in Hj. destruct (IH j ltac:(lia)) as [rest Hr]. exists rest. cbn [concat].
    replace (S j * w)%nat with (length s + j * w)%nat by lia. rewrite drop_app_add. exact Hr.
Qed.

Lemma length_concat (w : nat) (ls : list Blob) : Forall (fun s => length s = w) ls -> length (concat ls) = (length ls * w)%nat.
Proof. induction 1 as [|s ls Hs _ IH]; [done|]. cbn [concat length]. rewrite length_app, IH, Hs. done. Qed.

Lemma foldl_ext_in {A B} (f g : A -> B -> A) l a : (forall a b, b ∈ l -> f a b = g a b) -> foldl f a l = foldl g a l.
Proof.
  revert a. induction l as [|b l IH]; intros a Hf; [done|]. cbn [foldl]. rewrite Hf by (by left). apply IH.
  intros a' b' Hb'. apply Hf. by right.
Qed.

Lemma foldM_indexed {T A} (f : T -> Z -> result T) (g : T -> A -> T) (l : list A) s :
  (forall s j a, l !! j = Some a -> f s (Z.of_nat j) = Ok (g s a)) -> foldM f s (seqZ 0 (Z.of_nat (length l))) = Ok (foldl g s l).
Proof.
  assert (Hg : forall k s, (forall s j a, l !! j = Some a -> f s (k + Z.of_nat j) = Ok (g s a)) ->
    foldM f s (seqZ k (Z.of_nat (length l))) = Ok (foldl g s l)); [|intros Hf; apply Hg; intros; rewrite Z.add_0_l; by apply Hf].
  clear s. induction l as [|a l IH]; intros k s Hf; [done|]. cbn [length]. rewrite seqZ_cons by lia. cbn [foldM foldl].
  pose proof (Hf s 0%nat a eq_refl) as H0. rewrite Z.add_0_r in H0. rewrite H0, bind_pass.
  replace (Z.pred (Z.of_nat (S (length l)))) with (Z.of_nat (length l)) by lia. apply IH.
  intros s' j b Hj. replace (Z.succ k + Z.of_nat j) with (k + Z.of_nat (S j)) by lia. by apply Hf.
Qed.

Section nodes.
Context `{Build} {SHA : SHA512Half}.

(** ** Inner nodes *)

(** The hashes are those of the branches that are there. *)
Definition wf_inner (i : inner node) : Prop :=
  length (mHashes i) = 16%nat /\ 0 <= mIsBranch i < 2 ^ 16 /\ Forall (fun h => 0 <= h < 2 ^ 256) (mHashes i) /\
  forall b, 0 <= b < 16 -> isEmptyBranch b i = (getChildHash b i =? 0).

(** The node as it is read: no children in memory. *)
Definition as_read (hash seq : Z) (i : inner node) : inner node :=
  mkInner hash seq (mHashes i) (replicate 16 None) (mIsBranch i).

(** Hashes read in some order. *)
Definition read_all (l : list (Z * Z)) (i : inner node) : inner node := foldl (fun i e => read_hash e.1 e.2 i) i l.

Record reading (l : list (Z * Z)) (i0 i : inner node) : Prop := {
  reading_len : length (mHashes i) = 16%nat;
  reading_mask : 0 <= mIsBranch i < 2 ^ 16;
  reading_rest : iHash i = iHash i0 /\ iSeq i = iSeq i0 /\ mChildren i = mChildren i0;
  reading_at : forall b, 0 <= b < 16 ->
    mHashes i !!! Z.to_nat b = default (mHashes i0 !!! Z.to_nat b) (list_to_map (M := gmap Z Z) l !! b);
  reading_bit : forall b, 0 <= b < 16 -> Z.testbit (mIsBranch i) b =
    Z.testbit (mIsBranch i0) b || match list_to_map (M := gmap Z Z) l !! b with Some h => negb (h =? 0) | None => false end }.

Lemma lor_bits m b : 0 <= m < 2 ^ 16 -> 0 <= b < 16 -> 0 <= Z.lor m (Z.shiftl 1 b) < 2 ^ 16.
Proof.
  intros Hm Hb. rewrite Z.shiftl_1_l. split; [apply Z.lor_nonneg; split; [lia|apply Z.pow_nonneg; lia]|].
  destruct (Z.eq_dec (Z.lor m (2 ^ b)) 0) as [->|Hz]; [done|].
  assert (0 < Z.lor m (2 ^ b)) by (assert (0 <= Z.lor m (2 ^ b)) by (apply Z.lor_nonneg; split; [lia|apply Z.pow_nonneg; lia]); lia).
  apply Z.log2_lt_pow2; [done|]. rewrite Z.log2_lor by (try apply Z.pow_nonneg; lia). rewrite Z.log2_pow2 by lia.
  apply Z.max_lub_lt; [|lia]. destruct (Z.eq_dec m 0) as [->|]; [done|]. apply Z.log2_lt_pow2; lia.
Qed.

Lemma read_all_spec l i0 : length (mHashes i0) = 16%nat -> 0 <= mIsBranch i0 < 2 ^ 16 ->
  NoDup l.*1 -> Forall (fun e => 0 <= e.1 < 16) l -> reading l i0 (read_all l i0).
Proof.
  revert i0. induction l as [|[p h] l IH]; intros i0 Hlen Hm Hnd Hl.
  { constructor; try done. intros b Hb. by rewrite orb_false_r. }
  cbn [fmap list_fmap fst] in Hnd. apply list.NoDup_cons in Hnd as [Hnin Hnd]. apply Forall_cons_1 in Hl as [Hp Hl]. cbn [fst] in Hp.
  destruct (IH (read_hash p h i0)) as [R1 R2 R3 R4 R5]; [cbn [read_hash mHashes]; by rewrite length_insert| |done|done|].
  { cbn [read_hash mIsBranch]. destruct (h =? 0); [done|]. by apply lor_bits. }
  assert (Hnone : list_to_map (M := gmap Z Z) l !! p = None) by (by apply not_elem_of_list_to_map).
  cbn [read_all foldl fst snd]. constructor; [done..|exact R3| |].
  - intros b Hb. etrans; [by apply R4|]. cbn [list_to_map foldr fst snd]. cbn [read_hash mHashes]. rewrite place_insert by done.
    destruct (decide (b = p)) as [->|Hne].
    + by rewrite Hnone, lookup_insert_eq.
    + by rewrite lookup_insert_ne.
  - intros b Hb. etrans; [by apply R5|]. cbn [list_to_map foldr fst snd]. cbn [read_hash mIsBranch].
    destruct (decide (b = p)) as [->|Hne].
    + rewrite Hnone, lookup_insert_eq. destruct (h =? 0); [by rewrite !orb_false_r|].
      rewrite Z.lor_spec, Z.shiftl_1_l, Z.pow2_bits_true by lia. by rewrite !orb_true_r.
    + rewrite lookup_insert_ne by done. f_equal. destruct (h =? 0); [done|].
      by rewrite Z.lor_spec, Z.shiftl_1_l, Z.pow2_bits_false, orb_false_r by lia.
Qed.

(** Reading the hashes of all branches that are there gives the node back. *)
Lemma read_all_back l seq i : wf_inner i -> NoDup l.*1 -> Forall (fun e => 0 <= e.1 < 16) l ->
  (forall b, 0 <= b < 16 -> default 0 (list_to_map (M := gmap Z Z) l !! b) = getChildHash b i) ->
  read_all l (newInner seq) = as_read 0 seq i.
Proof.
  intros (Hlen & Hm & _ & Hmask) Hnd Hl Hat.
  destruct (read_all_spec l (newInner seq) eq_refl ltac:(done) Hnd Hl) as [R1 R2 (R3 & R4 & R5) R6 R7].
  destruct (read_all l (newInner seq)) as [h s hs cs mask] eqn:Hr. cbn [iHash iSeq mHashes mChildren mIsBranch newInner] in *. subst.
  unfold as_read. f_equal.
  - apply (list_eq_same_length _ _ 16); [done..|]. intros j a c Hj Ha Hc.
    specialize (R6 (Z.of_nat j) ltac:(lia)). specialize (Hat (Z.of_nat j) ltac:(lia)). unfold getChildHash in Hat.
    rewrite Nat2Z.id in R6, Hat. rewrite (list_lookup_total_correct _ _ _ Ha) in R6.
    rewrite (list_lookup_total_correct _ _ _ Hc) in Hat. rewrite lookup_total_replicate_2 in R6 by lia. congruence.
  - apply Z.bits_inj'. intros b Hb. destruct (Z.lt_ge_cases b 16) as [Hlt|Hge].
    + rewrite R7 by lia. rewrite Z.bits_0. cbn [orb]. specialize (Hmask b ltac:(lia)). rewrite isEmptyBranch_bit in Hmask by lia.
      rewrite <- Hat in Hmask by lia. destruct (list_to_map l !! b) as [h|]; cbn [default from_option id] in Hmask; unfold id in Hmask.
      * rewrite <- Hmask. by rewrite negb_involutive.
      * rewrite Z.eqb_refl in Hmask. by destruct (Z.testbit (mIsBranch i) b).
    + rewrite !(testbit_high _ 16) by lia. done.
Qed.

(** *** The sixteen hashes *)

Lemma get256_at j (ls : list Blob) tail h w : Forall (fun s => length s = w) ls -> (32 <= w)%nat -> (j < length ls)%nat ->
  0 <= h < 2 ^ 256 -> take 32 (ls !!! j) = be_bytes 32 h -> get256 (Z.of_nat j * Z.of_nat w) (concat ls ++ tail) = Some h.
Proof.
  intros Hls Hw Hj Hh Hb. unfold get256, getRaw, size. pose proof (length_concat w ls Hls) as Hlen.
  destruct (Z.ltb_spec (Z.of_nat (length (concat ls ++ tail))) (Z.of_nat j * Z.of_nat w + 32)) as [Hlt|_].
  { rewrite length_app in Hlt. nia. }
  cbn [fmap option_fmap option_map]. f_equal. replace (Z.to_nat (Z.of_nat j * Z.of_nat w)) with (j * w)%nat by lia.
  assert (Hjl : length (ls !!! j) = w).
  { apply (proj1 (list.Forall_forall _ _) Hls). eapply list_elem_of_lookup_2. by apply list_lookup_lookup_total_lt. }
  rewrite drop_app_le by nia. destruct (concat_slice w ls j Hls Hj) as [rest ->].
  change (Z.to_nat 32) with 32%nat. rewrite <- app_assoc, take_app_le by lia. rewrite Hb, be_value_bytes. by apply Z.mod_small.
Qed.

Lemma hashes_records (l : list Z) : Forall (fun s => length s = 32%nat) (be_bytes 32 <$> l).
Proof. apply list.Forall_forall. intros s Hs. apply list_elem_of_fmap in Hs as (h & -> & _). apply length_be_bytes. Qed.

(** The places of the hashes. *)
Definition places (i : inner node) : list (Z * Z) := (fun b => (b, getChildHash b i)) <$> seqZ 0 16.

Lemma places_lookup i b l : b ∈ l -> NoDup l ->
  list_to_map (M := gmap Z Z) ((fun b => (b, getChildHash b i)) <$> l) !! b = Some (getChildHash b i).
Proof.
  intros Hb Hnd. apply elem_of_list_to_map_1.
  - rewrite <- list_fmap_compose. cbn. by rewrite list_fmap_id.
  - apply list_elem_of_fmap. by exists b.
Qed.

Lemma places_keys i (l : list Z) : ((fun b => (b, getChildHash b i)) <$> l).*1 = l.
Proof. rewrite <- list_fmap_compose. cbn. by rewrite list_fmap_id. Qed.

Lemma read_full_back i seq tail : wf_inner i -> read_full (concat (be_bytes 32 <$> mHashes i) ++ tail) seq = as_read 0 seq i.
Proof.
  intros Hi. pose proof Hi as (Hlen & _ & Hr & _). rewrite <- (read_all_back (places i)); [|done|..].
  - unfold read_full, read_all, places. rewrite foldl_fmap. apply foldl_ext_in. intros a b Hb. apply elem_of_seqZ in Hb.
    rewrite <- (Z2Nat.id b) at 1 by lia. change 32 with (Z.of_nat 32).
    rewrite (get256_at (Z.to_nat b) _ tail (getChildHash b i) 32); [done|apply hashes_records|lia| | |].
    + rewrite length_fmap. lia.
    + apply (proj1 (list.Forall_forall _ _) Hr). eapply list_elem_of_lookup_2, list_lookup_lookup_total_lt. lia.
    + rewrite (list_lookup_total_fmap (be_bytes 32)) by lia. by rewrite take_ge by (by rewrite length_be_bytes).
  - unfold places. rewrite places_keys. apply NoDup_seqZ.
  - apply list.Forall_forall. intros e He. apply list_elem_of_fmap in He as (b & -> & Hb). apply elem_of_seqZ in Hb. cbn. lia.
  - intros b Hb. unfold places. rewrite places_lookup; [done|apply elem_of_seqZ; lia|apply NoDup_seqZ].
Qed.

(** *** The hashes of the branches that are there *)

Lemma read_compressed_back i seq : wf_inner i ->
  read_compressed (concat ((fun b => be_bytes 32 (getChildHash b i) ++ [b]) <$> present i)) seq = Ok (as_read 0 seq i).
Proof.
  intros Hi. pose proof Hi as (Hlen & _ & Hr & Hmask). set (ls := _ <$> present i).
  assert (Hls : Forall (fun s => length s = 33%nat) ls).
  { apply list.Forall_forall. intros s Hs. apply list_elem_of_fmap in Hs as (b & -> & _). by rewrite length_app, length_be_bytes. }
  assert (Hll : length ls = length (present i)) by apply length_fmap.
  unfold read_compressed, size. rewrite (length_concat 33 ls Hls), Hll.
  replace (Z.of_nat (length (present i) * 33) / 33) with (Z.of_nat (length (present i))) by
    (rewrite Nat2Z.inj_mul, Z.div_mul by lia; lia).
  rewrite (foldM_indexed _ (fun a b => read_hash b (getChildHash b i) a) (present i)).
  - f_equal. rewrite <- (read_all_back ((fun b => (b, getChildHash b i)) <$> present i)); [unfold read_all; by rewrite foldl_fmap|done|..].
    + rewrite places_keys. apply NoDup_filter, NoDup_seqZ.
    + apply list.Forall_forall. intros e He. apply list_elem_of_fmap in He as (b & -> & Hb). by apply elem_of_present in Hb as [Hb _].
    + intros b Hb. destruct (isEmptyBranch b i) eqn:He.
      * rewrite not_elem_of_list_to_map_1; [|rewrite places_keys; intros [_ ?]%elem_of_present; congruence].
        rewrite Hmask in He by done. apply Z.eqb_eq in He. by rewrite He.
      * rewrite places_lookup; [done|by apply elem_of_present|apply NoDup_filter, NoDup_seqZ].
  - intros a j b Hj. pose proof (list_elem_of_lookup_2 _ _ _ Hj) as Hb. apply elem_of_present in Hb as [Hb _].
    assert (Hrec : ls !! j = Some (be_bytes 32 (getChildHash b i) ++ [b])) by (unfold ls; by rewrite list_lookup_fmap, Hj).
    pose proof (lookup_lt_Some _ _ _ Hrec) as Hlt. destruct (concat_slice 33 ls j Hls Hlt) as [rest Hdrop].
    rewrite (list_lookup_total_correct _ _ _ Hrec) in Hdrop.
    assert (Hat : concat ls !! (j * 33 + 32)%nat = Some b).
    { rewrite <- lookup_drop, Hdrop, <- app_assoc, lookup_app_r by (by rewrite length_be_bytes). by rewrite length_be_bytes. }
    unfold get8, size. destruct (Z.leb_spec (Z.of_nat (length (concat ls))) (32 + Z.of_nat j * 33)) as [Hle|_].
    { apply lookup_lt_Some in Hat. lia. }
    replace (Z.to_nat (32 + Z.of_nat j * 33)) with (j * 33 + 32)%nat by lia. rewrite Hat.
    replace ((b <? 0) || (16 <=? b)) with false by (symmetry; apply orb_false_iff; lia). do 2 f_equal.
    rewrite <- (app_nil_r (concat ls)). change 33 with (Z.of_nat 33).
    rewrite (get256_at j ls [] (getChildHash b i) 33); [done|done|lia|done| |].
    + apply (proj1 (list.Forall_forall _ _) Hr). eapply list_elem_of_lookup_2, list_lookup_lookup_total_lt. lia.
    + rewrite (list_lookup_total_correct _ _ _ Hrec). rewrite take_app_length' by (by rewrite length_be_bytes). done.
Qed.

(** ** Nodes *)

Definition wf_node (n : node) : Prop :=
  match n with
  | TreeNode it ty _ _ => is_key (key it) /\ (12 <= length (data it))%nat /\
      (if bool_decide (ty = tnTRANSACTION_NM) then key it = leaf_hash ty it else key it <> 0)
  | InnerNode i => wf_inner i /\ isEmpty i = false
  end.

(** The node as it is read with a hash. *)
Definition read_back (hash seq : Z) (n : node) : node :=
  match n with TreeNode it ty _ _ => TreeNode it ty hash seq | InnerNode i => InnerNode (as_read hash seq i) end.

(** The hash given, or computed from what was read. *)
Definition hash_of (hash : Z) (hashValid : bool) (n : node) : Z := if hashValid then hash else sha512Half (node_bytes n).

Lemma read_leaf_ok it ty seq hash hv : (12 <= length (data it))%nat ->
  just (read_leaf it ty seq hash hv) = Ok (Some (TreeNode it ty (if hv then hash else leaf_hash ty it) seq)).
Proof.
  intros Hd. unfold read_leaf. destruct hv; unfold make_leaf_hashed, make_leaf, size; by rewrite assert_pass by (apply Z.leb_le; lia).
Qed.

Lemma read_inner_ok i seq hash hv : isEmpty i = false ->
  read_inner (as_read 0 seq i) hash hv = InnerNode (as_read (if hv then hash else sha512Half (inner_bytes (mHashes i))) seq i).
Proof.
  intros He. unfold read_inner, updateHash_inner, as_read. cbn [iHash iSeq mHashes mChildren mIsBranch]. unfold isEmpty in He. rewrite He.
  by destruct hv.
Qed.

Lemma read_keyed_ok it ty check short invalid seq hash hv : is_key (key it) -> (12 <= length (data it))%nat -> key it <> 0 ->
  just (read_keyed (data it ++ be_bytes 32 (key it)) ty check short invalid seq hash hv) =
  Ok (Some (TreeNode it ty (if hv then hash else leaf_hash ty it) seq)).
Proof.
  intros Hk Hd Hz. unfold read_keyed. set (s := data it ++ be_bytes 32 (key it)).
  assert (Hs : size s = size (data it) + 32) by (unfold s, size; rewrite length_app, length_be_bytes; lia).
  rewrite (proj2 (Z.ltb_ge _ _)) by (rewrite Hs; unfold size; lia). replace (size s - 32) with (size (data it)) by lia.
  assert (Hg : get256 (size (data it)) s = Some (key it)).
  { unfold get256. change 32 with (size (be_bytes 32 (key it))) at 1. unfold s. rewrite <- (app_nil_r (be_bytes 32 (key it))) at 2.
    rewrite getRaw_app. cbn [fmap option_fmap option_map]. rewrite be_value_bytes. f_equal. by apply Z.mod_small. }
  assert (Hc : chop 32 s = Some (data it)).
  { unfold chop. rewrite (proj2 (Z.ltb_ge _ _)) by (rewrite Hs; unfold size; lia). f_equal. replace (size s - 32) with (size (data it)) by lia.
    unfold size. rewrite Nat2Z.id. unfold s. by apply take_app_length. }
  rewrite Hg, Hc. cbn [default from_option]. unfold id. rewrite (proj2 (Z.eqb_neq _ _) Hz), andb_false_r.
  destruct it as [k d]. by apply read_leaf_ok.
Qed.

Lemma wire_split s (b : Z) : list.last (s ++ [b]) = Some b /\ take (length (s ++ [b]) - 1) (s ++ [b]) = s.
Proof.
  split; [apply last_snoc|]. rewrite length_app. cbn [length]. replace (length s + 1 - 1)%nat with (length s) by lia. by apply take_app_length.
Qed.

Lemma prefix_split p s : 0 <= p < 2 ^ 32 ->
  (size (be_bytes 4 p ++ s) <? 4) = false /\ be_value (take 4 (be_bytes 4 p ++ s)) = p /\ drop 4 (be_bytes 4 p ++ s) = s.
Proof.
  intros Hp. split; [apply Z.ltb_ge; unfold size; rewrite length_app, length_be_bytes; lia|].
  rewrite take_app_length', drop_app_length' by (by rewrite length_be_bytes). split; [|done]. rewrite be_value_bytes. by apply Z.mod_small.
Qed.

Lemma concat_16 i : wf_inner i -> size (concat (be_bytes 32 <$> mHashes i)) = 512.
Proof.
  intros (Hlen & _). unfold size. rewrite (length_concat 32) by apply hashes_records. by rewrite length_fmap, Hlen.
Qed.

(** The branches in the compressed form. *)
Lemma foldl_compressed i l s : foldl (fun s m => if isEmptyBranch m i then s else (add8 m (add256 (getChildHash m i) s).2).2) s l =
  s ++ concat ((fun b => be_bytes 32 (getChildHash b i) ++ [b]) <$> filter (fun b => isEmptyBranch b i = false) l).
Proof.
  revert s. induction l as [|b l IH]; intros s; [by rewrite app_nil_r|]. cbn [foldl]. rewrite IH, filter_cons.
  destruct (isEmptyBranch b i); [by rewrite decide_False|]. rewrite decide_True by done. cbn [fmap list_fmap concat].
  unfold add8. cbn [snd]. by rewrite add256_be, <- !app_assoc.
Qed.

(** *** Prefixed *)
Lemma prefix_back n seq hash hv : wf_node n -> addNodeRaw snfPREFIX n [] = Ok (node_bytes n) /\
  make (node_bytes n) seq snfPREFIX hash hv = Ok (Some (read_back (hash_of hash hv n) seq n)).
Proof.
  intros Hn. destruct n as [it ty h s|i].
  - destruct Hn as (Hk & Hd & Hty). split; [by apply prefix_bytes|].
    unfold make. cbn [node_bytes]. destruct ty; cbn [leaf_bytes].
    + destruct (prefix_split prefix_transactionID (data it) ltac:(done)) as (-> & -> & ->). rewrite Z.eqb_refl.
      rewrite bool_decide_eq_true_2 in Hty by done. rewrite read_leaf_ok by done. unfold leaf_hash, leaf_bytes in *.
      destruct it as [k d]. unfold hash_of. cbn [key data read_back node_bytes leaf_bytes] in *. by rewrite <- Hty.
    + destruct (prefix_split prefix_txNode (data it ++ be_bytes 32 (key it)) ltac:(done)) as (-> & -> & ->).
      change (prefix_txNode =? prefix_transactionID) with false. change (prefix_txNode =? prefix_leafNode) with false.
      change (prefix_txNode =? prefix_innerNode) with false. rewrite Z.eqb_refl. by apply read_keyed_ok.
    + destruct (prefix_split prefix_leafNode (data it ++ be_bytes 32 (key it)) ltac:(done)) as (-> & -> & ->).
      change (prefix_leafNode =? prefix_transactionID) with false. rewrite Z.eqb_refl. by apply read_keyed_ok.
  - destruct Hn as [Hi He]. split; [apply prefix_bytes; by intros j [= <-]|].
    set (r := Ok (Some (read_back _ seq _))). unfold make. cbn [node_bytes]. unfold inner_bytes.
    destruct (prefix_split prefix_innerNode (concat (be_bytes 32 <$> mHashes i)) ltac:(done)) as (-> & -> & ->).
    change (prefix_innerNode =? prefix_transactionID) with false. change (prefix_innerNode =? prefix_leafNode) with false. rewrite Z.eqb_refl.
    rewrite (concat_16 i Hi). change (negb (512 =? 512)) with false. cbn match.
    pose proof (read_full_back i seq [] Hi) as Hr. rewrite app_nil_r in Hr. rewrite Hr. subst r. by rewrite read_inner_ok.
Qed.

(** *** As sent to peers *)
Lemma wire_back n seq hash hv : wf_node n -> exists raw, addNodeRaw snfWIRE n [] = Ok raw /\
  make raw seq snfWIRE hash hv = Ok (Some (read_back (hash_of hash hv n) seq n)).
Proof.
  intros Hn. destruct n as [it ty h s|i].
  - destruct Hn as (Hk & Hd & Hty). eexists. split; [done|]. unfold make, addRaw_leaf, addRaw, add8. destruct ty; cbn [snd app].
    + destruct (wire_split (data it) 0) as [-> ->]. change ((0 <? 0) || (4 <? 0)) with false. rewrite Z.eqb_refl.
      rewrite bool_decide_eq_true_2 in Hty by done. rewrite read_leaf_ok by done. unfold leaf_hash, leaf_bytes in *.
      destruct it as [k d]. unfold hash_of. cbn [key data read_back node_bytes leaf_bytes] in *. by rewrite <- Hty.
    + rewrite add256_be. destruct (wire_split (data it ++ be_bytes 32 (key it)) 4) as [-> ->].
      change ((4 <? 0) || (4 <? 4)) with false. cbn [Z.eqb Pos.eqb]. by apply read_keyed_ok.
    + rewrite add256_be. destruct (wire_split (data it ++ be_bytes 32 (key it)) 1) as [-> ->].
      change ((1 <? 0) || (4 <? 1)) with false. cbn [Z.eqb Pos.eqb]. by apply read_keyed_ok.
  - destruct Hn as [Hi He]. cbn [addNodeRaw addRaw_inner]. rewrite He. rewrite assert_pass by done. eexists. split; [done|].
    unfold make, add8. cbn [snd]. destruct (getBranchCount i <? 12).
    + rewrite foldl_compressed. cbn [app]. destruct (wire_split (concat ((fun b => be_bytes 32 (getChildHash b i) ++ [b]) <$> present i)) 3) as [H1 H2].
      fold (present i). rewrite H1, H2. change ((3 <? 0) || (4 <? 3)) with false. cbn [Z.eqb Pos.eqb].
      rewrite read_compressed_back, bind_pass by done. by rewrite read_inner_ok.
    + rewrite foldl_add256. cbn [app]. destruct (wire_split (concat (be_bytes 32 <$> mHashes i)) 2) as [-> ->].
      change ((2 <? 0) || (4 <? 2)) with false. cbn [Z.eqb Pos.eqb]. rewrite (concat_16 i Hi). change (negb (512 =? 512)) with false.
      pose proof (read_full_back i seq [] Hi) as Hr. rewrite app_nil_r in Hr. rewrite Hr. by rewrite read_inner_ok.
Qed.

(** A node in the form for the store or the one for peers, where an inner
    node with few branches is compressed, is read back as it was, without
    children in memory and with the hash given or the hash of its bytes; the form
    for the store is the string the hash of the node is taken of. *)
Theorem node_roundtrip n seq hash hashValid format : wf_node n -> format <> snfHASH ->
  exists raw, addNodeRaw format n [] = Ok raw /\
    make raw seq format hash hashValid = Ok (Some (read_back (hash_of hash hashValid n) seq n)) /\
    (format = snfPREFIX -> hash_of hash false n = sha512Half raw).
Proof.
  intros Hn Hf. destruct format; [|..|done].
  - destruct (prefix_back n seq hash hashValid Hn) as [Hr Hm]. by exists (node_bytes n).
  - destruct (wire_back n seq hash hashValid Hn) as (raw & Hr & Hm). by exists raw.
Qed.

End nodes.

Section witnesses.
Import Sample.

(** Branches 3 and 10. *)
Definition branchy : inner node := mkInner 0 1 (<[3%nat := 77]> (<[10%nat := 2 ^ 255]> (replicate 16 0))) (replicate 16 None) 0x408.

Lemma node_roundtrip_witness : exists raw, addNodeRaw snfWIRE (InnerNode branchy) [] = Ok raw /\ length raw = 67%nat /\
  make raw 0 snfWIRE 5 true = Ok (Some (read_back 5 0 (InnerNode branchy))).
Proof.
  destruct (node_roundtrip (InnerNode branchy) 0 5 true snfWIRE) as (raw & Hr & Hm & _); [|done|].
  - split; [|done]. split; [done|]. split; [done|]. split.
    + apply (bool_decide_unpack _). by vm_compute.
    + intros b Hb. assert (Hall : Forall (fun b => isEmptyBranch b branchy = (getChildHash b branchy =? 0)) (seqZ 0 16))
        by (apply (bool_decide_unpack _); by vm_compute). apply (proj1 (list.Forall_forall _ _) Hall), elem_of_seqZ. lia.
  - exists raw. split; [exact Hr|]. split; [|exact Hm]. vm_compute in Hr. injection Hr as <-. done.
Defined.

End witnesses.
End ShaWire.
