(* ===== verification/ShaStore.v ===== *)
(** * Hash trees and the node store

    What [flushDirty] writes of a tree is enough to read the tree back by the
    hash of its root ([fetchRoot]). *)

From stdpp Require Import base tactics numbers list strings option gmap sorting.
From S2P Require Import Prelude Serializer View Indexes ShaNode ShaMap ShaTree ShaEdit ShaHash ShaRun ShaUnique ShaWire.

Module ShaStore.
Import Serializer ShaNode ShaMap ShaTree ShaEdit ShaHash ShaRun ShaUnique ShaWire.

(** The fuel of the descents is not to be unfolded. *)
#[local] Strategy opaque [levels getStack_from endBelow tree_hash].

(** ** Reading *)

Lemma as_read_hash b h s i : getChildHash b (as_read h s i) = getChildHash b i.
Proof. done. Qed.
Lemma as_read_empty b h s i : isEmptyBranch b (as_read h s i) = isEmptyBranch b i.
Proof. done. Qed.
Lemma as_read_sixteen h s i : wf_inner i -> sixteen (as_read h s i).
Proof. by intros (? & ? & _). Qed.
Lemma as_read_child b h s i : 0 <= b < 16 -> getChild b (as_read h s i) = None.
Proof. intros Hb. unfold getChild. cbn [mChildren as_read]. apply lookup_total_replicate_2. lia. Qed.

Section reading.
Context `{Build} {SHA : SHA512Half} (db : gmap Z Blob) (ty : TNType) (sq : Z) (sq_nonneg : 0 <= sq).

(** The strings are in the store under their hashes. *)
Definition stored (l : list Blob) : Prop := forall s, s ∈ l -> db !! sha512Half s = Some s.
Definition digests (l : list Blob) : Prop := forall s, s ∈ l -> 0 < sha512Half s < 2 ^ 256.

(** Items that have a leaf in the store. *)
Definition storable (x : Items) : Prop := forall k d, x !! k = Some d -> wf_node (TreeNode (mkItem k d) ty 0 0).

Lemma storable_part d b x : storable x -> storable (part d b x).
Proof. intros Hx k v Hk. apply Hx. by apply (lookup_weaken _ _ _ _ Hk), part_sub. Qed.

Abbreviation oks := (ok db true ty (0, sq)).

(** A node whose bytes are in the store. *)
Lemma fetch_bytes n : wf_node n -> db !! sha512Half (node_bytes n) = Some (node_bytes n) ->
  fetchNodeNT db (sha512Half (node_bytes n)) true = Some (read_back (sha512Half (node_bytes n)) 0 n).
Proof.
  intros Hn Hdb. unfold fetchNodeNT. rewrite Hdb. destruct (prefix_back n 0 (sha512Half (node_bytes n)) true Hn) as [_ Hm]. by rewrite Hm.
Qed.

(** What is read of a subtree. *)
Definition reads (n : nat) (x : Items) : Prop :=
  exists c, fetchNodeNT db (tree_hash ty n x) true = Some c /\ oks n c x /\ proper c x /\ getNodeHash c = tree_hash ty n x /\
    getSeq c = 0 /\ hashed db true n c.

(** The inner node of some hashes. *)
Definition inner_of (f : Z -> Z) : inner node := read_all ((fun b => (b, f b)) <$> seqZ 0 16) (newInner 0).

Lemma inner_of_at f b : 0 <= b < 16 -> getChildHash b (inner_of f) = f b /\ isEmptyBranch b (inner_of f) = (f b =? 0).
Proof.
  intros Hb. set (l := (fun b => (b, f b)) <$> seqZ 0 16).
  assert (Hkeys : l.*1 = seqZ 0 16) by (unfold l; rewrite <- list_fmap_compose; cbn; by rewrite list_fmap_id).
  destruct (read_all_spec l (newInner 0) eq_refl ltac:(done)) as [_ _ _ Hat Hbit].
  { rewrite Hkeys. apply NoDup_seqZ. }
  { apply list.Forall_forall. intros e He. apply list_elem_of_fmap in He as (c & -> & Hc). apply elem_of_seqZ in Hc. cbn. lia. }
  assert (Hl : list_to_map (M := gmap Z Z) l !! b = Some (f b)).
  { apply elem_of_list_to_map_1; [rewrite Hkeys; apply NoDup_seqZ|]. apply list_elem_of_fmap. exists b. split; [done|]. apply elem_of_seqZ. lia. }
  fold (inner_of f) in Hat, Hbit. split.
  - unfold getChildHash. rewrite Hat by done. by rewrite Hl.
  - rewrite isEmptyBranch_bit by lia. rewrite Hbit by done. rewrite Hl. cbn [mIsBranch newInner]. rewrite Z.bits_0. cbn [orb].
    apply negb_involutive.
Qed.

Lemma inner_of_wf f : (forall b, 0 <= b < 16 -> 0 <= f b < 2 ^ 256) -> wf_inner (inner_of f) /\ mHashes (inner_of f) = f <$> seqZ 0 16.
Proof.
  intros Hf. destruct (read_all_spec ((fun b => (b, f b)) <$> seqZ 0 16) (newInner 0) eq_refl ltac:(done)) as [Hlen Hmask _ _ _].
  { rewrite <- list_fmap_compose. cbn. rewrite list_fmap_id. apply NoDup_seqZ. }
  { apply list.Forall_forall. intros e He. apply list_elem_of_fmap in He as (c & -> & Hc). apply elem_of_seqZ in Hc. cbn. lia. }
  fold (inner_of f) in *. assert (Hh : mHashes (inner_of f) = f <$> seqZ 0 16).
  { apply sixteen_map; [done|]. intros b Hb. by apply inner_of_at. }
  split; [|done]. split; [done|]. split; [done|]. split.
  - rewrite Hh. apply list.Forall_forall. intros h Hin. apply list_elem_of_fmap in Hin as (b & -> & Hb). apply elem_of_seqZ in Hb. apply Hf. lia.
  - intros b Hb. destruct (inner_of_at f b Hb) as [-> ->]. done.
Qed.

Lemma inner_exists f : (forall b, 0 <= b < 16 -> 0 <= f b < 2 ^ 256) -> exists i, wf_inner i /\ mHashes i = f <$> seqZ 0 16 /\
  forall b, 0 <= b < 16 -> getChildHash b i = f b /\ isEmptyBranch b i = (f b =? 0).
Proof.
  intros Hf. exists (inner_of f). destruct (inner_of_wf f Hf) as [Hwf Hh]. split; [exact Hwf|]. split; [exact Hh|].
  intros b Hb. exact (inner_of_at f b Hb).
Qed.

Lemma read_node n x : (n < 64)%nat -> x <> ∅ -> stored (node_strings ty n x) -> digests (node_strings ty n x) ->
  (forall b, 0 <= b < 16 -> part (63 - n) b x <> ∅ -> reads n (part (63 - n) b x) /\ tree_hash ty n (part (63 - n) b x) <> 0) ->
  (forall b, 0 <= b < 16 -> 0 <= tree_hash ty n (part (63 - n) b x) < 2 ^ 256) ->
  exists i, fetchNodeNT db (sha512Half (inner_bytes (branch_hashes (tree_hash ty n) (63 - n) x))) true = Some (InnerNode i) /\
    oks (S n) (InnerNode i) x /\ hashed db true (S n) (InnerNode i) /\ iSeq i = 0 /\
    iHash i = sha512Half (inner_bytes (branch_hashes (tree_hash ty n) (63 - n) x)).
Proof.
  intros Hn Hx Hst Hdg Hbelow Hrange. set (f := fun b => tree_hash ty n (part (63 - n) b x)).
  destruct (inner_exists f Hrange) as (i0 & Hwf & Hhs & Hi0). set (h := sha512Half (inner_bytes (branch_hashes (tree_hash ty n) (63 - n) x))).
  assert (Hbytes : node_bytes (InnerNode i0) = inner_bytes (branch_hashes (tree_hash ty n) (63 - n) x)) by
    (cbn [node_bytes]; by rewrite Hhs).
  assert (Hmt : forall b, 0 <= b < 16 -> isEmptyBranch b i0 = true <-> part (63 - n) b x = ∅).
  { intros b Hb. destruct (Hi0 b Hb) as [_ ->]. unfold f. rewrite Z.eqb_eq. split.
    - intros Hz. destruct (decide (part (63 - n) b x = ∅)) as [|Hne]; [done|]. by destruct (Hbelow b Hb Hne).
    - intros ->. apply tree_hash_empty. }
  assert (Hne : isEmpty i0 = false).
  { apply not_true_is_false. intros He. apply Hx, (parts_eq (63 - n)). intros b Hb. rewrite part_empty. apply Hmt; [done|].
    unfold isEmpty, isEmptyBranch in *. apply Z.eqb_eq in He. by rewrite He, Z.land_0_l. }
  pose proof (fetch_bytes (InnerNode i0) (conj Hwf Hne)) as Hfetch. rewrite Hbytes in Hfetch.
  exists (as_read h 0 i0). split; [apply Hfetch, Hst; by left|].
  assert (Hat : forall b, 0 <= b < 16 -> part (63 - n) b x <> ∅ -> exists c, child_at db true (as_read h 0 i0) b c /\
    oks n c (part (63 - n) b x) /\ proper c (part (63 - n) b x) /\ getNodeHash c = f b /\ getSeq c = 0 /\ hashed db true n c).
  { intros b Hb Hp. destruct (Hbelow b Hb Hp) as [(c & Hc & Hoc & Hpc & Hhc & Hsc & Hhd) _]. exists c. split; [|done].
    unfold child_at, descendThrow. rewrite as_read_child by done.
    rewrite (as_read_hash b h 0 i0). destruct (Hi0 b Hb) as [-> _]. unfold f. by rewrite Hc. }
  assert (Hh : hashed db true (S n) (InnerNode (as_read h 0 i0))).
  { split.
    - cbn [iHash updateHash_inner as_read mIsBranch mHashes]. fold (isEmpty i0). rewrite Hne, Hhs. done.
    - intros b Hb. rewrite as_read_empty.
      rewrite as_read_hash. destruct (Hi0 b Hb) as [-> He].
      destruct (isEmptyBranch b i0) eqn:Heb; [symmetry in He; by apply Z.eqb_eq in He|].
      destruct (Hat b Hb) as (c & Hc & _ & _ & Hhc & _ & Hhd); [intros Hp; apply Hmt in Hp; congruence|]. by exists c. }
  split; [|by split].
  split; [by apply as_read_sixteen|]. split; [cbn; lia|]. split; [done|].
  intros b Hb. rewrite as_read_empty.
  rewrite as_read_hash. destruct (Hi0 b Hb) as [-> He].
  destruct (isEmptyBranch b i0) eqn:Heb.
  - apply (Hmt b Hb) in Heb. rewrite Heb. split; [done|]. split; [symmetry in He; by apply Z.eqb_eq in He|].
    by apply as_read_child.
  - destruct (Hat b Hb) as (c & Hc & Hoc & Hpc & Hhc & Hsc & _); [intros Hp; apply Hmt in Hp; congruence|]. by exists c.
Qed.

Lemma read_tree n : forall p x, (n <= 64)%nat -> within (64 - n) p x -> storable x -> x <> ∅ ->
  stored (tree_strings ty n x) -> digests (tree_strings ty n x) -> reads n x.
Proof.
  induction n as [|n IH]; intros p x Hn Hw Hit Hx Hst Hdg.
  all: destruct (items_cases x) as [->|[(k & d & ->)|Hsev]]; [done|..].
  1,3: rewrite strings_one in Hst, Hdg; pose proof (Hit k d (lookup_singleton_eq k d)) as Hwf; unfold reads; rewrite tree_hash_one;
    pose proof (fetch_bytes _ Hwf (Hst _ ltac:(by left))) as Hf; cbn [node_bytes] in Hf; unfold leaf_hash; rewrite Hf;
    (eexists; split; [reflexivity|]); cbn [read_back]; (split; [by apply ok_leaf|]); (split; [split; [apply map_non_empty_singleton|done]|done]).
  - exfalso. destruct Hsev as (j & k & Hne & [v Hj] & [w Hk]). pose proof (within_64 _ _ Hw j v Hj) as Hone.
    rewrite Hone, lookup_singleton_ne in Hk by done. done.
  - rewrite strings_several in Hst, Hdg by done. replace (64 - S n)%nat with (63 - n)%nat in * by lia.
    assert (Hsub : forall b s, 0 <= b < 16 -> s ∈ tree_strings ty n (part (63 - n) b x) -> s ∈ node_strings ty n x).
    { intros b s Hb Hs. right. by apply (elem_of_branch ty n b). }
    destruct (read_node n x ltac:(lia) Hx Hst Hdg) as (i & Hf & Ho & Hh & Hs & Hi).
    + intros b Hb Hp. assert (Hr : reads n (part (63 - n) b x)).
      { apply (IH (p * 16 + b)); [lia| |by apply storable_part|done|..].
        - replace (64 - n)%nat with (S (63 - n)) by lia. apply within_part; [lia|done].
        - intros s Hs. apply Hst. by apply (Hsub b).
        - intros s Hs. apply Hdg. by apply (Hsub b). }
      split; [done|]. destruct (top_string_of ty n (p * 16 + b) (part (63 - n) b x) ltac:(lia)) as (s & _ & Hs & ->); [|done|].
      * replace (64 - n)%nat with (S (63 - n)) by lia. apply within_part; [lia|done].
      * pose proof (Hdg s (Hsub b s Hb Hs)). lia.
    + intros b Hb. destruct (decide (part (63 - n) b x = ∅)) as [->|Hp]; [rewrite tree_hash_empty; split; [done|by apply Z.pow_pos_nonneg]|].
      destruct (top_string_of ty n (p * 16 + b) (part (63 - n) b x) ltac:(lia)) as (s & _ & Hs & ->); [|done|].
      * replace (64 - n)%nat with (S (63 - n)) by lia. apply within_part; [lia|done].
      * pose proof (Hdg s (Hsub b s Hb Hs)). lia.
    + exists (InnerNode i). rewrite tree_hash_several by done. split; [done|]. split; [done|]. split; [by split|]. split; [done|]. by split.
Qed.

End reading.

(** ** Writing *)

Section writing.
Context `{Build} {SHA : SHA512Half} (ty : TNType).

(** Of strings that do not collide none is overwritten by another. *)
Lemma writes_stored l ws : collision_free l -> (forall s, s ∈ ws -> s ∈ l) -> forall out s, s ∈ l ->
  s ∈ ws \/ out !! sha512Half s = Some s -> writes ws out !! sha512Half s = Some s.
Proof.
  intros Hl. induction ws as [|a ws IH]; intros Hws out s Hs Hor.
  { destruct Hor as [Hin|]; [by apply not_elem_of_nil in Hin|done]. }
  cbn [writes foldl]. apply IH; [intros b Hb; apply Hws; by right|done|].
  destruct Hor as [[->|Hin]%elem_of_cons|Hout]; [right; apply lookup_insert_eq|by left|].
  right. destruct (decide (sha512Half a = sha512Half s)) as [He|He].
  - apply (free_inj l) in He as ->; [apply lookup_insert_eq|done|apply Hws; by left|done].
  - by rewrite lookup_insert_ne.
Qed.

Lemma ok_dirty db bk sq n : forall t x, ok db bk ty (1, sq) n t x -> dirty n t.
Proof.
  induction n as [|n IH]; intros t x Ho; pose proof (ok_seq _ _ _ _ _ _ _ Ho) as Hs; cbn [fst snd] in Hs; destruct t as [|i]; try done.
  1-2: split; [lia|done].
  split; [lia|]. destruct Ho as (_ & _ & _ & Hbs). intros b Hb He. specialize (Hbs b Hb). rewrite He in Hbs.
  destruct Hbs as (c & Hc & Hoc & _ & Hnone). pose proof (ok_seq _ _ _ _ _ _ _ Hoc) as Hsc. cbn [fst snd] in Hsc.
  unfold child_at, descendThrow in Hc. destruct (getChild b i) as [c'|]; [|destruct (Hnone eq_refl); lia].
  injection Hc as ->. exists c. split; [done|]. by apply (IH c (part (63 - n) b x)).
Qed.

Lemma ok_lower db bk lo lo' sq n : lo' <= lo -> forall t x, ok db bk ty (lo, sq) n t x -> ok db bk ty (lo', sq) n t x.
Proof.
  intros Hlo. induction n as [|n IH]; intros [it ty' h s|i] x Ho; try done.
  1-2: apply ok_leaf in Ho as (-> & -> & -> & ?); apply ok_leaf; split_and!; (done || cbn in *; lia).
  destruct Ho as (H16 & Hs & Hh & Hbs). split; [done|]. split; [cbn in *; lia|]. split; [done|]. intros b Hb. specialize (Hbs b Hb).
  destruct (isEmptyBranch b i); [done|]. destruct Hbs as (c & Hc & Hoc & Hrest). exists c. split; [done|]. split; [|done]. by apply IH.
Qed.

Lemma flush_stores db m x : holds 1 db ty m x -> backed_ m = true -> x <> ∅ -> collision_free (root_strings ty x) ->
  exists k m' db', flushDirty db m = Ok (k, m', db') /\ holds 0 db ty m' x /\ same_map m m' /\
    getNodeHash (root_ m') = root_hash ty x /\ stored db' (root_strings ty x).
Proof.
  intros [Hroot Htree [Hseq Hlo] Hkeys] Hbk Hx Hfree. unfold flushDirty, walkSubTree.
  pose proof (ok_dirty _ _ _ _ _ _ Htree) as Hdirty. pose proof (ok_lower _ _ 1 0 _ _ ltac:(lia) _ _ Htree) as Htree0.
  pose proof (ok_seq _ _ _ _ _ _ _ Htree) as Hrs. cbn [fst snd] in Hrs.
  rewrite (proj2 (Z.eqb_neq _ _)) by lia. destruct (root_ m) as [|i] eqn:Hr; [done|]. cbn [getSeq] in Hrs.
  rewrite (ok_nonempty _ _ _ _ 63 i x Htree Hx). rewrite preFlush_ok, bind_pass by (cbn [getSeq]; lia). cbn [clone setSeq].
  set (i' := mkInner _ (seq_ m) _ _ _).
  assert (Ho' : ok db (backed_ m) ty (0, seq_ m) 64 (InnerNode i') x) by
    (apply (ok_setSeq db ty m 0 64 (seq_ m) (InnerNode i)); [done|right; lia|lia]).
  destruct (flush_spec db ty m 0 ltac:(lia) true ltac:(done) 64 levels (levels_gt 64 ltac:(lia)) ltac:(lia) i' x (db, 0) Ho' eq_refl Hx)
    as (t' & [out' k] & Hfl & Hot & Hht & Hit & Hem). rewrite Hfl, !bind_pass. cbn [fst snd] in *.
  exists k, (set_root t' m), out'. split; [done|].
  split; [constructor; [done|done|cbn [set_root seq_]; lia|done]|]. split; [done|]. split; [by eapply hashed_root|].
  destruct Hem as (ws & -> & Hin & Hall). unfold root_strings in *. rewrite decide_False in Hfree |- * by done.
  specialize (Hall (dirty_setSeq 64 (seq_ m) (InnerNode i) ltac:(lia) Hdirty)). rewrite Hbk in Hall.
  intros s Hs. apply (writes_stored (node_strings ty 63 x)); [done|exact Hin|done|]. left. by apply (Hall eq_refl).
Qed.

(** A map read from its root. *)
Lemma fetchRoot_reads db x m0 : x <> ∅ -> within 0 0 x -> storable ty x -> stored db (root_strings ty x) ->
  (forall s, s ∈ root_strings ty x -> 0 < sha512Half s < 2 ^ 256) ->
  0 < seq_ m0 -> backed_ m0 = true -> getNodeHash (root_ m0) = 0 ->
  exists m', fetchRoot db (root_hash ty x) m0 = Ok (true, m') /\ holds 0 db ty m' x /\ same_map m0 m'.
Proof.
  unfold root_strings, root_hash. intros Hx Hw Hit Hst Hdg Hseq Hbk Hz. rewrite decide_False in Hst by done.
  rewrite decide_False in Hdg by done. rewrite decide_False by done.
  assert (Hsub : forall b s, 0 <= b < 16 -> s ∈ tree_strings ty 63 (part (63 - 63) b x) -> s ∈ node_strings ty 63 x).
  { intros b s Hb Hs. right. by apply (elem_of_branch ty 63 b). }
  assert (Hwp : forall b, within (64 - 63) (0 * 16 + b) (part (63 - 63) b x)) by (intros b; apply (within_part 0); [lia|done]).
  assert (Htop : forall b, 0 <= b < 16 -> part (63 - 63) b x <> ∅ -> 0 < tree_hash ty 63 (part (63 - 63) b x) < 2 ^ 256).
  { intros b Hb Hp. destruct (top_string_of ty 63 _ (part (63 - 63) b x) ltac:(lia) (Hwp b) Hp) as (s & _ & Hs & ->).
    exact (Hdg s (Hsub b s Hb Hs)). }
  destruct (read_node db ty (seq_ m0) ltac:(lia) 63 x ltac:(lia) Hx Hst Hdg) as (i & Hf & Ho & Hh & Hs & Hi).
  { intros b Hb Hp. split; [|pose proof (Htop b Hb Hp); lia].
    apply (read_tree db ty (seq_ m0) ltac:(lia) 63 (0 * 16 + b)); [lia|apply Hwp|by apply storable_part|done|..];
      intros s Hs; [apply Hst|apply Hdg]; by apply (Hsub b). }
  { intros b Hb. destruct (decide (part (63 - 63) b x = ∅)) as [->|Hp]; [rewrite tree_hash_empty; split; [done|by apply Z.pow_pos_nonneg]|].
    pose proof (Htop b Hb Hp). lia. }
  unfold fetchRoot. rewrite Hz. pose proof (Hdg _ ltac:(by left)) as Hpos. rewrite (proj2 (Z.eqb_neq _ _)) by lia. rewrite Hbk, Hf.
  rewrite assert_pass by (by apply Z.eqb_eq). exists (set_root (InnerNode i) m0). split; [done|]. split; [|done].
  constructor; [done| |cbn; lia|].
  - cbn [set_root root_ backed_ seq_]. rewrite Hbk. exact Ho.
  - intros k d Hk. destruct (Hit k d Hk) as (Hkey & Hd & _). done.
Qed.

(** C31: the tree of a map that was never written is read back from what
    [flushDirty] puts in the store: a new map whose root is fetched by the hash
    of the first holds the same items. *)
Theorem flush_roundtrip db m x m0 seq : holds 1 db ty m x -> backed_ m = true -> x <> ∅ -> storable ty x ->
  collision_free (root_strings ty x) -> 0 < seq -> make_map seq = Ok m0 ->
  exists k m1 db' m2, flushDirty db m = Ok (k, m1, db') /\ holds 0 db ty m1 x /\
    fetchRoot db' (getNodeHash (root_ m1)) m0 = Ok (true, m2) /\ holds 0 db' ty m2 x.
Proof.
  intros Hm Hbk Hx Hit Hfree Hseq Hm0. destruct (flush_stores db m x Hm Hbk Hx Hfree) as (k & m1 & db' & Hfl & Hm1 & _ & Hh & Hst).
  unfold make_map in Hm0. rewrite assert_pass in Hm0 by (by rewrite (proj2 (Z.eqb_neq _ _)) by lia). injection Hm0 as <-.
  destruct (fetchRoot_reads db' x (mk (InnerNode (newInner seq)) seq Modifying true) Hx) as (m2 & Hf & Hm2 & _); try done.
  - by eapply held_within.
  - intros s Hs. by apply (free_range _ s Hfree).
  - exists k, m1, db', m2. rewrite Hh. done.
Qed.

End writing.

Section witnesses.
Import Sample.

Lemma storable_dec (x : Items) :
  forallb (fun e => (0 <? e.1) && (e.1 <? 2 ^ 256) && (12 <=? length e.2)%nat) (map_to_list x) = true -> storable tnACCOUNT_STATE x.
Proof.
  intros Hx k d Hk. apply elem_of_map_to_list, list_elem_of_In in Hk. apply (proj1 (forallb_forall _ _) Hx) in Hk. cbn [fst snd] in Hk.
  apply andb_prop in Hk as [[H1 H2]%andb_prop H3]. apply Nat.leb_le in H3. split; [split; cbn [key]; lia|]. split; [done|]. cbn [key].
  rewrite bool_decide_eq_false_2 by done. lia.
Qed.

Lemma flush_roundtrip_witness : exists m m0 k m1 db' m2,
  (m0 ← make_map 7; run ∅ false false ops m0) = Ok ((abs_run false false ops ∅).1, m) /\ make_map 3 = Ok m0 /\
  flushDirty ∅ m = Ok (k, m1, db') /\ fetchRoot db' (getNodeHash (root_ m1)) m0 = Ok (true, m2) /\
  holds 0 db' tnACCOUNT_STATE m2 (abs_run false false ops ∅).2.
Proof.
  destruct (run_new ∅ false false 7 ops ltac:(done) ltac:(done) ops_allowed) as (m & Hr & Hm & _ & Hbk).
  set (x := (abs_run false false ops ∅).2) in *.
  destruct (flush_roundtrip tnACCOUNT_STATE ∅ m x (mk (InnerNode (newInner 3)) 3 Modifying true) 3) as (k & m1 & db' & m2 & Hf & _ & Hg & Hm2);
    [exact Hm|exact Hbk|intros Hx; apply (f_equal map_to_list) in Hx; by vm_compute in Hx|apply storable_dec; by vm_compute|
     apply (bool_decide_unpack _); by vm_compute|lia|reflexivity|].
  exists m, (mk (InnerNode (newInner 3)) 3 Modifying true), k, m1, db', m2. split; [exact Hr|]. split; [reflexivity|].
  split; [exact Hf|]. split; [exact Hg|exact Hm2].
Defined.

End witnesses.
End ShaStore.
