(* ===== verification/MultiSign.v ===== *)
(** * Multi-signed transactions

    A transaction may carry the signatures of the members of its account's
    signer list instead of one signature.  [STTx::checkMultiSign]
    (protocol/impl/STTx.cpp) checks the form of the signatures and verifies
    them; [Transactor::checkMultiSign] (app/tx/impl/Transactor.cpp) matches the
    signers with the signer lists of the ledger, by one walk along both sorted
    lists, and compares the weights with the quorum.  A member of the list may
    itself be signed for by the members of its own list.  Verification of a
    signature and the account of a public key are parameters. *)

From stdpp Require Import base tactics numbers list strings gmap sorting option.
From S2P Require Import Prelude Decimal IOUAmount BigNum Serializer STAmount.
From S2P Require Import View StateTable ApplyStateTable Fields Indexes PaymentSandbox ViewOps.
From S2P Require Import TrustLines.

Module MultiSign.
Import Fields Indexes ViewOps TrustLines.

(** ** The signers of a transaction *)

(** The inner objects [sfSigningAccount] and [sfSigningFor]. *)
Record SigningAccount := mkSigning {
  sa_Account : Z; sa_SigningPubKey : list Z; sa_MultiSignature : list Z }.
Record SigningFor := mkFor { for_Account : Z; for_SigningAccounts : list SigningAccount }.

Definition maxMultiSigners : nat := 8.

Definition count_ok {A} (l : list A) : bool := (1 <=? length l)%nat && (length l <=? maxMultiSigners)%nat.

Section format.
(** Whether the signature of a signing account for another is valid. *)
Context (validSig : Z -> SigningAccount -> bool).

(** The loop over the signing accounts; [None] when the signatures are refused. *)
Fixpoint check_signings (signingForID : Z) (directSigning : bool) (lastSigningAcctID : Z)
    (firstLevelSigners : gset Z) (signingAccounts : list SigningAccount) : option (gset Z) :=
  match signingAccounts with
  | [] => Some firstLevelSigners
  | signingAcct :: rest =>
      let signingAcctID := sa_Account signingAcct in
      if signingForID =? signingAcctID then None
      else if signingAcctID <=? lastSigningAcctID then None
      else if directSigning && bool_decide (signingAcctID ∈ firstLevelSigners) then None
      else
        let firstLevelSigners :=
          if directSigning then {[signingAcctID]} ∪ firstLevelSigners else firstLevelSigners in
        if validSig signingForID signingAcct
        then check_signings signingForID directSigning signingAcctID firstLevelSigners rest
        else None
  end.

Fixpoint check_fors (txnAccountID lastSigningForID : Z) (firstLevelSigners : gset Z)
    (multiSigners : list SigningFor) : bool :=
  match multiSigners with
  | [] => true
  | signingFor :: rest =>
      let signingForID := for_Account signingFor in
      if signingForID <=? lastSigningForID then false
      else
        let directSigning := signingForID =? txnAccountID in
        if negb directSigning && bool_decide (signingForID ∈ firstLevelSigners) then false
        else
          let firstLevelSigners :=
            if directSigning then firstLevelSigners else {[signingForID]} ∪ firstLevelSigners in
          if negb (count_ok (for_SigningAccounts signingFor)) then false
          else
            match check_signings signingForID directSigning 0 firstLevelSigners (for_SigningAccounts signingFor) with
            | None => false
            | Some firstLevelSigners => check_fors txnAccountID signingForID firstLevelSigners rest
            end
  end.

(** [STTx::checkMultiSign]; the signers are absent or an array. *)
Definition tx_checkMultiSign (txnAccountID : Z) (multiSigners : option (list SigningFor)) : bool :=
  match multiSigners with
  | None => false
  | Some multiSigners => count_ok multiSigners && check_fors txnAccountID 0 ∅ multiSigners
  end.

End format.

(** ** Signer lists *)

Record SignerEntry := mkEntry { account : Z; weight : Z }.

#[export] Instance SignerEntry_eq_dec : EqDecision SignerEntry.
Proof. solve_decision. Defined.

Fixpoint decode_entries (sEntries : list Inner) (vec : list SignerEntry) : result (TER * list SignerEntry) :=
  match sEntries with
  | [] => Ok (tesSUCCESS, vec)
  | sEntry :: rest =>
      if negb (inner_name sEntry =? sfSignerEntry) then Ok (temMALFORMED, vec)
      else
        a ← inner_get sfAccount sEntry;
        w ← inner_get sfSignerWeight sEntry;
        decode_entries rest (vec ++ [mkEntry a w])
  end.

(** [SignerEntries::deserialize]. *)
Definition deserialize (obj : STObject) : result (TER * list SignerEntry) :=
  if isFieldPresent sfSignerEntries obj
  then sEntries ← getFieldArray sfSignerEntries obj; decode_entries sEntries []
  else Ok (temMALFORMED, []).

Record GetSignerListResult := mkList { ter : TER; quorum : Z; signerEntries : list SignerEntry }.

Section transactor.
Context `{Build} {SHA : SHA512Half} {V : Type} {RV : ReadView STObject V}.
(** The account whose master key a public key is. *)
Context (calcAccountID : list Z -> Z).

Definition getSignerList (signingForAcctID : Z) (view : V) : result GetSignerListResult :=
  accountSignersList ← View.vread view (Indexes.signers signingForAcctID);
  match accountSignersList with
  | None => Ok (mkList tefNOT_MULTI_SIGNING (2 ^ 32 - 1) [])
  | Some sle =>
      quorum ← getFieldU32 sfSignerQuorum (fields sle);
      decoded ← deserialize (fields sle);
      Ok (mkList decoded.1 quorum (if bool_decide (decoded.1 = tesSUCCESS) then decoded.2 else []))
  end.

(** [while (itr->account < id) if (++itr == end) ...]: what is left of the
    entries, [None] when they are used up.  Following the iterator at the end is
    undefined. *)
Fixpoint seek (id : Z) (itr : list SignerEntry) : result (option (list SignerEntry)) :=
  match itr with
  | [] => Throw "end iterator"
  | e :: rest =>
      if account e <? id
      then if bool_decide (rest = []) then Ok None else seek id rest
      else Ok (Some itr)
  end.

(** The entry of a signer, and the iterator; [None] for [tefBAD_SIGNATURE]. *)
Definition match_entry (id : Z) (itr : list SignerEntry) : result (option (SignerEntry * list SignerEntry)) :=
  found ← seek id itr;
  match found with
  | None => Ok None
  | Some [] => Throw "end iterator"
  | Some (e :: rest) =>
      if negb (account e =? id) then Ok None
      else if weight e <=? 0 then Ok None
      else Ok (Some (e, e :: rest))
  end.

(** Whether a key may sign for an account: the key of an account that is not in
    the ledger, its master key unless disabled, or its regular key. *)
Definition signer_authorized (view : V) (signingAcctID signingAcctIDFromPubKey : Z) : result TER :=
  signersAccountRoot ← View.vread view (Indexes.account signingAcctID);
  if signingAcctIDFromPubKey =? signingAcctID
  then match signersAccountRoot with
       | None => Ok tesSUCCESS
       | Some root =>
           signerAccountFlags ← getFieldU32 sfFlags (fields root);
           Ok (if has signerAccountFlags lsfDisableMaster then tefMASTER_DISABLED else tesSUCCESS)
       end
  else match signersAccountRoot with
       | None => Ok tefBAD_SIGNATURE
       | Some root =>
           if negb (isFieldPresent sfRegularKey (fields root)) then Ok tefBAD_SIGNATURE
           else
             key ← getAccountID sfRegularKey (fields root);
             Ok (if negb (signingAcctIDFromPubKey =? key) then tefBAD_SIGNATURE else tesSUCCESS)
       end.

Fixpoint signing_loop (view : V) (itr : list SignerEntry) (weightSum : Z)
    (signingAccounts : list SigningAccount) : result (TER * Z) :=
  match signingAccounts with
  | [] => Ok (tesSUCCESS, weightSum)
  | signingAccount :: rest =>
      let signingAcctID := sa_Account signingAccount in
      found ← match_entry signingAcctID itr;
      match found with
      | None => Ok (tefBAD_SIGNATURE, 0)
      | Some (e, itr) =>
          t ← signer_authorized view signingAcctID (calcAccountID (sa_SigningPubKey signingAccount));
          if bool_decide (t = tesSUCCESS) then signing_loop view itr (u32 (weightSum + weight e)) rest
          else Ok (t, 0)
      end
  end.

Definition checkSigningAccounts (signerEntries : list SignerEntry) (signingAccounts : list SigningAccount)
    (view : V) : result (TER * Z) :=
  signing_loop view signerEntries 0 signingAccounts.

(** One [SigningFor] of another account: its entry, and the signers for it. *)
Definition signing_for (view : V) (itr : list SignerEntry) (signingFor : SigningFor)
    : result (TER * Z * list SignerEntry) :=
  let signingForID := for_Account signingFor in
  found ← match_entry signingForID itr;
  match found with
  | None => Ok (tefBAD_SIGNATURE, 0, itr)
  | Some (e, itr) =>
      inner ← getSignerList signingForID view;
      if negb (bool_decide (ter inner = tesSUCCESS)) then Ok (ter inner, 0, itr)
      else
        r ← checkSigningAccounts (signerEntries inner) (for_SigningAccounts signingFor) view;
        if negb (bool_decide (r.1 = tesSUCCESS)) then Ok (r.1, 0, itr)
        else if r.2 <? quorum inner then Ok (tefBAD_QUORUM, 0, itr)
        else Ok (tesSUCCESS, weight e, itr)
  end.

Fixpoint multi_loop (account_ : Z) (view : V) (outer : GetSignerListResult) (itr : list SignerEntry)
    (weightSum : Z) (multiSigners : list SigningFor) : result TER :=
  match multiSigners with
  | [] => Ok (if weightSum <? quorum outer then tefBAD_QUORUM else tesSUCCESS)
  | signingFor :: rest =>
      if for_Account signingFor =? account_ then
        r ← checkSigningAccounts (signerEntries outer) (for_SigningAccounts signingFor) view;
        if negb (bool_decide (r.1 = tesSUCCESS)) then Ok r.1
        else multi_loop account_ view outer itr (u32 (weightSum + r.2)) rest
      else
        r ← signing_for view itr signingFor;
        if negb (bool_decide (r.1.1 = tesSUCCESS)) then Ok r.1.1
        else multi_loop account_ view outer r.2 (u32 (weightSum + r.1.2)) rest
  end.

(** [Transactor::checkMultiSign]. *)
Definition checkMultiSign (account_ : Z) (view : V) (multiSigners : option (list SigningFor)) : result TER :=
  outer ← getSignerList account_ view;
  if negb (bool_decide (ter outer = tesSUCCESS)) then Ok (ter outer)
  else multi_loop account_ view outer (signerEntries outer) 0 (default [] multiSigners).

End transactor.

(** ** What the walk finds *)

Definition entry_of (entries : list SignerEntry) (id : Z) : option SignerEntry :=
  List.find (fun e => account e =? id) entries.

Definition sorted_entries : list SignerEntry -> Prop := StronglySorted (fun a b => account a < account b).

(** The weight of some accounts in a list. *)
Definition weights_of (entries : list SignerEntry) (ids : list Z) : Z :=
  foldr (fun id n => from_option weight 0 (entry_of entries id) + n) 0 ids.

Lemma entry_of_skip pre itr id : Forall (fun e => account e < id) pre ->
  entry_of (pre ++ itr) id = entry_of itr id.
Proof.
  induction 1 as [|e pre He _ IH]; [done|]. cbn. rewrite (proj2 (Z.eqb_neq _ _)) by lia. apply IH.
Qed.

Lemma entry_of_above e rest id : sorted_entries (e :: rest) -> id < account e ->
  entry_of (e :: rest) id = None.
Proof.
  intros [_ Hr]%StronglySorted_inv Hid. cbn. rewrite (proj2 (Z.eqb_neq _ _)) by lia.
  induction Hr as [|x rest Hx _ IH]; [done|]. cbn. by rewrite (proj2 (Z.eqb_neq _ _)) by lia.
Qed.

Lemma entry_of_at e rest : entry_of (e :: rest) (account e) = Some e.
Proof. cbn. by rewrite Z.eqb_refl. Qed.

Lemma sorted_app_r pre itr : sorted_entries (pre ++ itr) -> sorted_entries itr.
Proof. induction pre as [|e pre IH]; [done|]. by intros [? _]%StronglySorted_inv; apply IH. Qed.

Lemma seek_entry_spec id itr : itr <> [] -> exists r, seek id itr = Ok r /\
  match r with
  | None => Forall (fun e => account e < id) itr
  | Some l => exists pre e rest, itr = pre ++ l /\ l = e :: rest /\
      Forall (fun e => account e < id) pre /\ id <= account e
  end.
Proof.
  induction itr as [|e rest IH]; [done|]. intros _. cbn [seek].
  destruct (Z.ltb_spec (account e) id) as [Hlt|Hge].
  - case_bool_decide as Hr; [subst; exists None; split; [done|by repeat constructor]|].
    destruct (IH Hr) as (r & Hs & Hm). exists r. split; [done|]. destruct r as [l|].
    + destruct Hm as (pre & e' & rest' & -> & -> & Hpre & Hid). exists (e :: pre), e', rest'.
      split_and!; [done|done|by constructor|done].
    + by constructor.
  - eexists. split; [done|]. exists [], e, rest. by split_and!.
Qed.

(** The walk from [itr] is a lookup. *)
Lemma match_entry_spec id itr : sorted_entries itr -> itr <> [] -> exists r, match_entry id itr = Ok r /\
  match r with
  | None => forall e, entry_of itr id = Some e -> weight e <= 0
  | Some (e, l) => entry_of itr id = Some e /\ 0 < weight e /\ l <> [] /\
      exists pre, itr = pre ++ l /\ Forall (fun e => account e < id) pre
  end.
Proof.
  intros Hs Hne. unfold match_entry. destruct (seek_entry_spec id itr Hne) as ([l|] & -> & Hm); cbn.
  - destruct Hm as (pre & e & rest & Hi & -> & Hpre & Hid).
    assert (He : entry_of itr id = entry_of (e :: rest) id) by (rewrite Hi; by apply entry_of_skip).
    destruct (Z.eqb_spec (account e) id) as [<-|Hacc]; cbn [negb].
    + rewrite entry_of_at in He. destruct (Z.leb_spec (weight e) 0) as [Hw|Hw].
      * exists None. split; [done|]. intros e'. rewrite He. by intros [= <-].
      * exists (Some (e, e :: rest)). split_and!; [done|done|done|done|]. by exists pre.
    + exists None. split; [done|]. intros e'. rewrite He, entry_of_above; [done| |lia].
      apply (sorted_app_r pre). by rewrite <- Hi.
  - exists None. split; [done|]. intros e Hf. rewrite <- (app_nil_r itr), entry_of_skip in Hf by done. done.
Qed.

Section proofs.
Context `{Build} {SHA : SHA512Half} {V : Type} {RV : ReadView STObject V}.
Context (calcAccountID : list Z -> Z) (validSig : Z -> SigningAccount -> bool) (view : V).

(** A signer whose vote counts for a list. *)
Definition approved (entries : list SignerEntry) (a : SigningAccount) : Prop :=
  (exists e, entry_of entries (sa_Account a) = Some e /\ 0 < weight e) /\
  signer_authorized view (sa_Account a) (calcAccountID (sa_SigningPubKey a)) = Ok tesSUCCESS.

Definition rising {A} (key : A -> Z) : list A -> Prop := StronglySorted (fun a b => key a < key b).

(** Moving along the list loses no entry that is still to be looked up. *)
Lemma moved_on {A} (key : A -> Z) entries itr pre l a (rest : list A) : itr = pre ++ l ->
  Forall (fun e => account e < key a) pre -> Forall (fun b => key a < key b) rest ->
  Forall (fun b => entry_of itr (key b) = entry_of entries (key b)) rest ->
  Forall (fun b => entry_of l (key b) = entry_of entries (key b)) rest.
Proof.
  intros -> Hpre Hgt Hl. rewrite !list.Forall_forall in *. intros b Hb. rewrite <- Hl by done.
  symmetry. apply entry_of_skip. rewrite list.Forall_forall in *. intros e He.
  specialize (Hpre e He). specialize (Hgt b Hb). lia.
Qed.

Lemma rising_NoDup {A} (key : A -> Z) l : rising key l -> NoDup (key <$> l).
Proof.
  induction 1 as [|a l Hl IH Ha]; cbn; [constructor|]. apply list.NoDup_cons. split; [|done].
  intros (b & Hb & Hin)%list_elem_of_fmap. rewrite list.Forall_forall in Ha. specialize (Ha b Hin). cbn in Ha. lia.
Qed.

Lemma u32_chain a b c : u32 (u32 (a + b) + c) = u32 (a + (b + c)).
Proof. unfold u32. rewrite Z.add_mod_idemp_l by lia. f_equal. lia. Qed.

Context (Hauth : forall id key, exists t, signer_authorized view id key = Ok t).

Lemma signing_loop_spec entries : forall accts itr w, sorted_entries itr -> itr <> [] -> 0 <= w < 2 ^ 32 ->
  rising sa_Account accts ->
  Forall (fun a => entry_of itr (sa_Account a) = entry_of entries (sa_Account a)) accts ->
  exists t w', signing_loop calcAccountID view itr w accts = Ok (t, w') /\
    (t = tesSUCCESS <-> Forall (approved entries) accts) /\
    (t = tesSUCCESS -> w' = u32 (w + weights_of entries (sa_Account <$> accts))).
Proof.
  induction accts as [|a accts IH]; intros itr w Hs Hne Hw Hr Hl.
  { exists tesSUCCESS, w. split_and!; [done| |]; [by split|]. intros _. cbn. by rewrite Z.add_0_r, u32_id. }
  apply StronglySorted_inv in Hr as [Hr Ha]. apply Forall_cons_1 in Hl as [Hla Hl].
  cbn [signing_loop]. destruct (match_entry_spec (sa_Account a) itr Hs Hne) as ([[e l]|] & -> & Hm); cbn [mbind result_bind].
  - destruct Hm as (He & Hwe & Hnl & pre & -> & Hpre).
    destruct (Hauth (sa_Account a) (calcAccountID (sa_SigningPubKey a))) as [t Ht]. rewrite Ht. cbn [mbind result_bind].
    case_bool_decide as Hok.
    + subst t. destruct (IH l (u32 (w + weight e))) as (t & w' & -> & Hiff & Hsum);
        [by eapply sorted_app_r|done|apply u32_range|done|by eapply moved_on|].
      exists t, w'. split_and!; [done| |].
      * rewrite Hiff, list.Forall_cons. split; [|by intros [_ ?]]. intros HF. split; [|done].
        split; [|done]. exists e. by rewrite <- Hla.
      * intros Hok. rewrite (Hsum Hok). cbn [fmap list_fmap weights_of foldr]. rewrite <- Hla, He. cbn [from_option].
        by rewrite u32_chain.
    + exists t, 0. split_and!; [done| |by intros ->]. split; [by intros ->|].
      intros [[_ Hap] _]%Forall_cons_1. rewrite Ht in Hap. by injection Hap.
  - exists tefBAD_SIGNATURE, 0. split_and!; [done| |done]. split; [done|].
    intros [[(e & He & Hwe) _] _]%Forall_cons_1. rewrite <- Hla in He. specialize (Hm e He). lia.
Qed.

Lemma checkSigningAccounts_spec entries accts : sorted_entries entries -> entries <> [] -> rising sa_Account accts ->
  exists t w, checkSigningAccounts calcAccountID entries accts view = Ok (t, w) /\
    (t = tesSUCCESS <-> Forall (approved entries) accts) /\
    (t = tesSUCCESS -> w = u32 (weights_of entries (sa_Account <$> accts))).
Proof.
  intros Hs Hne Hr. apply signing_loop_spec; [done|done|lia|done|]. by apply list.Forall_forall.
Qed.

(** A signer list as [SetSignerList] writes it. *)
Definition wf_list (es : list SignerEntry) : Prop :=
  sorted_entries es /\ (2 <= length es <= maxMultiSigners)%nat /\
  Forall (fun e => 0 <= weight e < 2 ^ 16) es.

(** The signer lists the view shows. *)
Context (lists : Z -> option (Z * list SignerEntry)).
Context (Hlists : forall id, getSignerList id view =
  Ok (match lists id with
      | None => mkList tefNOT_MULTI_SIGNING (2 ^ 32 - 1) []
      | Some (q, es) => mkList tesSUCCESS q es
      end)).
Context (Hwf : forall id q es, lists id = Some (q, es) -> wf_list es).

Lemma wf_nonempty es : wf_list es -> es <> [].
Proof. intros (_ & Hl & _) ->. cbn in Hl. lia. Qed.

Lemma weights_bound es ids : wf_list es ->
  0 <= weights_of es ids <= Z.of_nat (length ids) * (2 ^ 16 - 1).
Proof.
  intros (_ & _ & Hw). induction ids as [|id ids IH]; [done|]. cbn [length].
  change (weights_of es (id :: ids)) with (from_option weight 0 (entry_of es id) + weights_of es ids).
  assert (0 <= from_option weight 0 (entry_of es id) < 2 ^ 16); [|lia].
  destruct (entry_of es id) as [e|] eqn:He; cbn [from_option]; [|lia].
  apply List.find_some in He as [He _]. apply list_elem_of_In in He.
  by eapply (proj1 (list.Forall_forall _ _) Hw).
Qed.

(** The signing accounts as the transaction's form allows them. *)
Definition well_formed (f : SigningFor) : Prop :=
  (1 <= length (for_SigningAccounts f) <= maxMultiSigners)%nat /\ rising sa_Account (for_SigningAccounts f).

Lemma weights_small es f : wf_list es -> well_formed f ->
  u32 (weights_of es (sa_Account <$> for_SigningAccounts f)) = weights_of es (sa_Account <$> for_SigningAccounts f).
Proof.
  intros Hes [Hl _]. pose proof (weights_bound es (sa_Account <$> for_SigningAccounts f) Hes) as Hb.
  rewrite length_fmap in Hb. unfold maxMultiSigners in Hl. apply u32_id. lia.
Qed.

(** A member of the list for whom the members of its own list sign, to their
    quorum. *)
Definition approved_for (entries : list SignerEntry) (f : SigningFor) : Prop :=
  (exists e, entry_of entries (for_Account f) = Some e /\ 0 < weight e) /\
  exists q es, lists (for_Account f) = Some (q, es) /\ Forall (approved es) (for_SigningAccounts f) /\
    q <= weights_of es (sa_Account <$> for_SigningAccounts f).

Lemma signing_for_spec itr f : sorted_entries itr -> itr <> [] -> well_formed f ->
  exists t w l, signing_for calcAccountID view itr f = Ok (t, w, l) /\
    (t = tesSUCCESS <-> approved_for itr f) /\
    (t = tesSUCCESS -> w = weights_of itr [for_Account f] /\ l <> [] /\
       exists pre, itr = pre ++ l /\ Forall (fun e => account e < for_Account f) pre).
Proof.
  intros Hs Hne Hf. unfold signing_for.
  destruct (match_entry_spec (for_Account f) itr Hs Hne) as ([[e l]|] & -> & Hm); cbn [mbind result_bind].
  2: { exists tefBAD_SIGNATURE, 0, itr. split_and!; [done| |done]. split; [done|].
       intros [(e & He & Hw) _]. specialize (Hm e He). lia. }
  destruct Hm as (He & Hwe & Hnl & Hpre). rewrite Hlists. cbn [mbind result_bind].
  destruct (lists (for_Account f)) as [[q es]|] eqn:Hr; cbn [ter quorum signerEntries].
  2: { eexists _, _, _. split_and!; [done| |done]. split; [done|]. by intros [_ (q' & es' & Hr' & _)]; simplify_eq. }
  rewrite bool_decide_eq_true_2 by done. cbn [negb].
  destruct (checkSigningAccounts_spec es (for_SigningAccounts f))
    as (t & w & -> & Hiff & Hsum); [by eapply Hwf|by eapply wf_nonempty, Hwf|apply Hf|]. cbn [mbind result_bind fst snd].
  case_bool_decide as Ht; cbn [negb].
  2: { eexists _, _, _. split_and!; [done| |done]. split; [done|].
       intros [_ (q' & es' & Hr' & HF & _)]. simplify_eq. by apply Hiff in HF. }
  rewrite (Hsum Ht), weights_small by (done || by eapply Hwf).
  destruct (Z.ltb_spec (weights_of es (sa_Account <$> for_SigningAccounts f)) q) as [Hq|Hq].
  - eexists _, _, _. split_and!; [done| |done]. split; [done|].
    intros [_ (q' & es' & Hr' & _ & Hq')]. simplify_eq. lia.
  - eexists _, _, _. split_and!; [done| |].
    + split; [|done]. intros _. split; [by exists e|]. exists q, es. by rewrite <- Hiff.
    + intros _. split_and!; [|done|done]. cbn. rewrite He. cbn. lia.
Qed.

(** The accounts that speak for [txn] itself, each with its weight in the list. *)
Definition spokesmen (txn : Z) (f : SigningFor) : list Z :=
  if for_Account f =? txn then sa_Account <$> for_SigningAccounts f else [for_Account f].
Definition first_level (txn : Z) (multiSigners : list SigningFor) : list Z := multiSigners ≫= spokesmen txn.

Definition counts (txn : Z) (entries : list SignerEntry) (f : SigningFor) : Prop :=
  if for_Account f =? txn then Forall (approved entries) (for_SigningAccounts f) else approved_for entries f.

Lemma weights_app es l l' : weights_of es (l ++ l') = weights_of es l + weights_of es l'.
Proof.
  induction l as [|id l IH]; [done|]. unfold weights_of in *. cbn [app foldr]. rewrite IH. lia.
Qed.

Lemma first_level_cons txn f ms : first_level txn (f :: ms) = spokesmen txn f ++ first_level txn ms.
Proof. done. Qed.

Lemma multi_loop_spec txn outer : wf_list (signerEntries outer) -> forall ms itr w,
  sorted_entries itr -> itr <> [] -> 0 <= w < 2 ^ 32 -> rising for_Account ms -> Forall well_formed ms ->
  Forall (fun f => entry_of itr (for_Account f) = entry_of (signerEntries outer) (for_Account f)) ms ->
  exists t, multi_loop calcAccountID txn view outer itr w ms = Ok t /\
    (t = tesSUCCESS <-> Forall (counts txn (signerEntries outer)) ms /\
       quorum outer <= u32 (w + weights_of (signerEntries outer) (first_level txn ms))).
Proof.
  intros Hout ms. induction ms as [|f ms IH]; intros itr w Hs Hne Hw Hr HW Hl.
  { eexists. split; [done|]. cbn [first_level mbind list_bind weights_of foldr]. rewrite Z.add_0_r, u32_id by lia.
    destruct (Z.ltb_spec w (quorum outer)); split; [done|intros [_ ?]; lia|by split|done]. }
  apply StronglySorted_inv in Hr as [Hr Hf]. apply Forall_cons_1 in HW as [HWf HW]. apply Forall_cons_1 in Hl as [Hlf Hl].
  cbn [multi_loop]. rewrite first_level_cons, weights_app. setoid_rewrite list.Forall_cons.
  unfold counts at 1, spokesmen at 1. destruct (for_Account f =? txn) eqn:Hd.
  - destruct (checkSigningAccounts_spec (signerEntries outer) (for_SigningAccounts f))
      as (t & w' & -> & Hiff & Hsum); [apply Hout|by apply wf_nonempty|apply HWf|]. cbn [mbind result_bind fst snd].
    case_bool_decide as Ht; cbn [negb].
    + destruct (IH itr (u32 (w + w'))) as (t' & -> & Hiff'); [done|done|apply u32_range|done|done|done|].
      exists t'. split; [done|]. rewrite Hiff', <- Hiff, u32_chain, (Hsum Ht), weights_small by done. by destruct_and?; split; intros; destruct_and?; split_and?.
    + exists t. split; [done|]. rewrite <- Hiff. by split; intros; destruct_and?.
  - destruct (signing_for_spec itr f Hs Hne HWf) as (t & w' & l & -> & Hiff & Hsum). cbn [mbind result_bind fst snd].
    assert (Hsame : approved_for itr f <-> approved_for (signerEntries outer) f) by (unfold approved_for; by rewrite Hlf).
    setoid_rewrite <- Hsame. case_bool_decide as Ht; cbn [negb].
    + destruct (Hsum Ht) as (-> & Hnl & pre & -> & Hpre).
      destruct (IH l (u32 (w + weights_of (pre ++ l) [for_Account f]))) as (t' & -> & Hiff');
        [by eapply sorted_app_r|done|apply u32_range|done|done|by eapply moved_on|].
      exists t'. split; [done|]. rewrite Hiff', <- Hiff, u32_chain.
      replace (weights_of (pre ++ l) [for_Account f]) with (weights_of (signerEntries outer) [for_Account f])
        by (cbn; by rewrite Hlf).
      by split; intros; destruct_and?; split_and?.
    + exists t. split; [done|]. rewrite <- Hiff. by split; intros; destruct_and?.
Qed.

Lemma checkMultiSign_spec txn ms q es : lists txn = Some (q, es) -> (length ms <= maxMultiSigners)%nat ->
  rising for_Account ms -> Forall well_formed ms -> exists t,
  checkMultiSign calcAccountID txn view (Some ms) = Ok t /\
  (t = tesSUCCESS <-> Forall (counts txn es) ms /\ q <= weights_of es (first_level txn ms)).
Proof.
  intros Hq Hlen Hr HW. unfold checkMultiSign. rewrite Hlists, Hq. cbn [mbind result_bind ter signerEntries].
  rewrite bool_decide_eq_true_2 by done. cbn [negb]. change (default [] (Some ms)) with ms.
  pose proof (Hwf _ _ _ Hq) as Hes.
  destruct (multi_loop_spec txn (mkList tesSUCCESS q es) Hes ms es 0) as (t & -> & Hiff);
    [apply Hes|by apply wf_nonempty|lia|done|done|by apply list.Forall_forall|].
  exists t. split; [done|]. rewrite Hiff. cbn [signerEntries quorum]. rewrite Z.add_0_l, u32_id; [done|].
  pose proof (weights_bound es (first_level txn ms) Hes) as Hb.
  assert (length (first_level txn ms) <= 64)%nat; [|lia].
  assert (Hl : (length (first_level txn ms) <= 8 * length ms)%nat); [|unfold maxMultiSigners in *; lia].
  clear - HW. induction HW as [|f ms [Hf _] _ IH]; [done|]. rewrite first_level_cons, length_app. cbn [length].
  unfold spokesmen, maxMultiSigners in *. case_match; [rewrite length_fmap|cbn [length]]; lia.
Qed.

End proofs.

(** ** What the form guarantees *)

Section form.
Context (validSig : Z -> SigningAccount -> bool).

Lemma check_signings_facts signingFor direct : forall accts last firsts firsts',
  check_signings validSig signingFor direct last firsts accts = Some firsts' ->
  rising sa_Account accts /\ Forall (fun a => last < sa_Account a) accts /\
  Forall (fun a => validSig signingFor a = true /\ sa_Account a <> signingFor) accts /\
  (forall id, id ∈ firsts' <-> id ∈ firsts \/ direct = true /\ id ∈ sa_Account <$> accts) /\
  (direct = true -> Forall (fun id => id ∉ firsts) (sa_Account <$> accts)).
Proof.
  induction accts as [|a accts IH]; intros last firsts firsts'; cbn [check_signings].
  { intros [= <-]. split_and!; [constructor|done|done| |by intros _].
    intros id. cbn. rewrite elem_of_nil. tauto. }
  destruct (Z.eqb_spec signingFor (sa_Account a)); [done|].
  destruct (Z.leb_spec (sa_Account a) last); [done|].
  destruct (direct && bool_decide (sa_Account a ∈ firsts)) eqn:Hd; [done|].
  destruct (validSig signingFor a) eqn:Hv; [|done].
  intros Hrec. apply IH in Hrec as (Hr & Hgt & Hval & Hin & Hout). split_and!.
  - by constructor.
  - constructor; [done|]. eapply list.Forall_impl; [exact Hgt|]. cbn. lia.
  - by constructor.
  - intros id. rewrite Hin. cbn [fmap list_fmap]. rewrite elem_of_cons. destruct direct; [rewrite elem_of_union, elem_of_singleton; tauto|].
    split; [tauto|intros [?|[? _]]; [by left|done]].
  - intros ->. specialize (Hout eq_refl). cbn [andb] in Hd. apply bool_decide_eq_false in Hd. constructor; [done|].
    eapply list.Forall_impl; [exact Hout|]. cbn. intros id. rewrite elem_of_union. tauto.
Qed.

(** Every signature is valid, and none speaks twice for the account. *)
Lemma check_fors_facts txn : forall ms last firsts, check_fors validSig txn last firsts ms = true ->
  rising for_Account ms /\ Forall (fun f => last < for_Account f) ms /\ Forall well_formed ms /\
  Forall (fun f => Forall (fun a => validSig (for_Account f) a = true) (for_SigningAccounts f)) ms /\
  NoDup (first_level txn ms) /\ Forall (fun id => id ∉ firsts) (first_level txn ms).
Proof.
  induction ms as [|f ms IH]; intros last firsts; cbn [check_fors].
  { intros _. split_and!; constructor. }
  destruct (Z.leb_spec (for_Account f) last); [done|]. set (direct := for_Account f =? txn).
  destruct (negb direct && bool_decide (for_Account f ∈ firsts)) eqn:Hd; [done|].
  destruct (count_ok (for_SigningAccounts f)) eqn:Hc; [|done]. cbn [negb].
  destruct (check_signings _ _ _ _ _ _) as [firsts'|] eqn:Hs; [|done]. intros Hrec.
  apply IH in Hrec as (Hr & Hgt & HW & Hval & Hnd & Hout).
  apply check_signings_facts in Hs as (Hra & _ & Hva & Hin & Hda).
  assert (Hsp : NoDup (spokesmen txn f) /\ Forall (fun id => (id ∉ firsts) /\ id ∈ firsts') (spokesmen txn f)).
  { unfold spokesmen. fold direct. destruct direct; cbn [negb andb] in *.
    - split; [by apply rising_NoDup|]. specialize (Hda eq_refl). rewrite list.Forall_forall in *. intros id Hid.
      split; [by apply Hda|]. apply Hin. by right.
    - apply bool_decide_eq_false in Hd. split; [apply NoDup_singleton|]. constructor; [|done].
      split; [done|]. apply Hin. left. rewrite elem_of_union, elem_of_singleton. by left. }
  destruct Hsp as [Hsp1 Hsp2]. rewrite first_level_cons. split_and!.
  - by constructor.
  - constructor; [done|]. eapply list.Forall_impl; [exact Hgt|]. cbn. lia.
  - constructor; [|done]. split; [|done]. unfold count_ok in Hc. apply andb_true_iff in Hc as [H1 H2].
    by apply Nat.leb_le in H1, H2.
  - constructor; [|done]. eapply list.Forall_impl; [exact Hva|]. by intros a [? _].
  - apply list.NoDup_app. split_and!; [done| |done]. intros id Hid Hid'. rewrite list.Forall_forall in *.
    apply (Hout id Hid'), (Hsp2 id Hid).
  - apply list.Forall_app. split; [eapply list.Forall_impl; [exact Hsp2|]; by intros id [? _]|].
    eapply list.Forall_impl; [exact Hout|]. intros id Hid Hf. apply Hid, Hin. left. destruct direct; [done|]. apply elem_of_union. by right.
Qed.

End form.

(** ** The ledger's lists *)

(** The fields [writeSignersToLedger] sets. *)
Definition enc (e : SignerEntry) : Inner := mkInner sfSignerEntry [(sfAccount, account e); (sfSignerWeight, weight e)].

Lemma decode_enc es : forall vec, decode_entries (enc <$> es) vec = Ok (tesSUCCESS, vec ++ es).
Proof.
  induction es as [|[a w] es IH]; intros vec; [by rewrite app_nil_r|].
  change (decode_entries (enc <$> es) (vec ++ [mkEntry a w]) = Ok (tesSUCCESS, vec ++ mkEntry a w :: es)).
  by rewrite IH, <- app_assoc.
Qed.

Section ledger.
Context `{Build} {SHA : SHA512Half} {SL : SHA512HalfLaws SHA} {V : Type} {RV : ReadView STObject V}.
Context {VM : ViewModel STObject V} {RL : ReadViewLaws STObject V}.

Definition AccountFormat : list (SField * SOE_Flags) := AccountRoot ++ common_fields.

(** The entry of [id]'s signer list. *)
Definition holds_list (m : gmap Z Entry) (id q : Z) (es : list SignerEntry) : Prop := exists o,
  m !! getSignerListIndex id = Some (mkSLE (getSignerListIndex id) ltSIGNER_LIST o) /\
  o !! sfSignerQuorum = Some (Some (U32 q)) /\ o !! sfSignerEntries = Some (Some (ARR (enc <$> es))).

(** The account roots and the signer lists have their formats. *)
Record signers_wf (m : gmap Z Entry) : Prop := {
  roots_wf id : m !! getAccountRootIndex id = None \/ exists o,
    m !! getAccountRootIndex id = Some (mkSLE (getAccountRootIndex id) Keylet.ltACCOUNT_ROOT o) /\
    conforms AccountFormat o;
  lists_wf id : m !! getSignerListIndex id = None \/ exists q es, holds_list m id q es /\ wf_list es }.

(** The signer list of an account. *)
Definition list_in (m : gmap Z Entry) (id : Z) : option (Z * list SignerEntry) :=
  match m !! getSignerListIndex id with
  | None => None
  | Some sle => match deserialize (fields sle) with
                | Ok (_, es) => Some (u32_of sfSignerQuorum (fields sle), es)
                | _ => None
                end
  end.

Lemma holds_list_in m id q es : holds_list m id q es -> list_in m id = Some (q, es).
Proof.
  intros (o & Hm & Hq & Hes). unfold list_in. rewrite Hm. cbn [fields]. unfold deserialize, isFieldPresent, getFieldArray, getField, u32_of.
  rewrite Hes, Hq. cbn [mbind result_bind as_arr]. by rewrite decode_enc.
Qed.

Lemma checked_signers id (o : STObject) :
  Keylet.checked (Indexes.signers id) (Some (mkSLE (getSignerListIndex id) ltSIGNER_LIST o)) =
  Ok (Some (mkSLE (getSignerListIndex id) ltSIGNER_LIST o)).
Proof. by apply (checked_own (Indexes.signers id)). Qed.

Lemma checked_account id (o : STObject) :
  Keylet.checked (Indexes.account id) (Some (mkSLE (getAccountRootIndex id) Keylet.ltACCOUNT_ROOT o)) =
  Ok (Some (mkSLE (getAccountRootIndex id) Keylet.ltACCOUNT_ROOT o)).
Proof. by apply (checked_own (Indexes.account id)). Qed.

Lemma getSignerList_in view id : good view -> signers_wf (contents view) ->
  getSignerList id view = Ok (match list_in (contents view) id with
                              | None => mkList tefNOT_MULTI_SIGNING (2 ^ 32 - 1) []
                              | Some (q, es) => mkList tesSUCCESS q es
                              end).
Proof.
  intros Hg [_ Hl]. unfold getSignerList. rewrite read_law; [|done|apply getSignerListIndex_pos].
  change (Keylet.key (Indexes.signers id)) with (getSignerListIndex id). destruct (Hl id) as [Hn|(q & es & Hh & _)].
  - unfold list_in. by rewrite Hn.
  - rewrite (holds_list_in _ _ _ _ Hh). destruct Hh as (o & Hm & Hq & Hes). rewrite Hm.
    rewrite checked_signers.
    cbn [mbind result_bind fields]. unfold getFieldU32, getField. rewrite Hq. cbn [as_u32 mbind result_bind].
    unfold deserialize, isFieldPresent, getFieldArray, getField. rewrite Hes. cbn [as_arr mbind result_bind].
    rewrite decode_enc. cbn [mbind result_bind fst snd app]. by rewrite bool_decide_eq_true_2.
Qed.

Lemma authorized_total view id key : good view -> signers_wf (contents view) ->
  exists t, signer_authorized view id key = Ok t.
Proof.
  intros Hg [Hr _]. unfold signer_authorized. rewrite read_law; [|done|apply getAccountRootIndex_pos].
  change (Keylet.key (Indexes.account id)) with (getAccountRootIndex id). destruct (Hr id) as [->|(o & -> & Ho)].
  - cbn. case_match; by eexists.
  - rewrite checked_account. cbn [mbind result_bind fields].
    destruct Ho as [_ Hp].
    rewrite get_u32_of, get_acc_of by (done || by apply Hp; eapply bool_decide_unpack).
    cbn [mbind result_bind]. repeat case_match; by eexists.
Qed.

(** C26: multi-signing counts every member of the signer list once, and the
    quorum decides.  When the signatures of a transaction have the form
    [STTx::checkMultiSign] requires, every one of them is valid and no account
    speaks twice for the transaction's account, directly or through those who
    sign for it; and [Transactor::checkMultiSign] then ends without an error of
    iteration, and accepts the transaction exactly when every signer is in its
    list with a positive weight and uses a key the ledger allows it, every
    member signed for reaches the quorum of its own list, and the weights of the
    members reach the quorum of the account's list. *)
Theorem multisign_correct calcAccountID validSig (view : V) txn q es ms : good view ->
  signers_wf (contents view) -> holds_list (contents view) txn q es ->
  tx_checkMultiSign validSig txn (Some ms) = true ->
  Forall (fun f => Forall (fun a => validSig (for_Account f) a = true) (for_SigningAccounts f)) ms /\
  NoDup (first_level txn ms) /\
  exists t, checkMultiSign calcAccountID txn view (Some ms) = Ok t /\
    (t = tesSUCCESS <->
     Forall (counts calcAccountID view (list_in (contents view)) txn es) ms /\
     q <= weights_of es (first_level txn ms)).
Proof.
  intros Hg Hwf Hh [Hc Hf]%andb_true_iff. apply andb_true_iff in Hc as [_ Hc%Nat.leb_le].
  apply check_fors_facts in Hf as (Hr & _ & HW & Hval & Hnd & _). split; [done|]. split; [done|].
  apply checkMultiSign_spec; [by intros; apply authorized_total| | |by apply holds_list_in|done|done|done].
  - intros id. by apply getSignerList_in.
  - intros id q' es' Hq. destruct (lists_wf _ Hwf id) as [Hn|(q0 & es0 & Hh0 & Hwf0)].
    + unfold list_in in Hq. by rewrite Hn in Hq.
    + rewrite (holds_list_in _ _ _ _ Hh0) in Hq. by injection Hq as <- <-.
Qed.

End ledger.

(** ** An example: 9 signs for 7, and 20 signs for 11, who signs for 7 *)

Module Examples.
#[local] Instance debug : Build := {| NDEBUG := false |}.
#[local] Existing Instance IdealHash.ideal.
#[local] Existing Instance IdealHash.ideal_laws.

Definition root_of (id : Z) : STObject :=
  match build Keylet.ltACCOUNT_ROOT [(sfAccount, ACC id)] with Ok o => o | _ => ∅ end.
Definition list_of (q : Z) (es : list SignerEntry) : STObject :=
  match build ltSIGNER_LIST [(sfSignerQuorum, U32 q); (sfSignerEntries, ARR (enc <$> es))] with
  | Ok o => o | _ => ∅ end.

Definition list7 : list SignerEntry := [mkEntry 9 1; mkEntry 11 2].
Definition list11 : list SignerEntry := [mkEntry 20 1; mkEntry 21 1].

Definition entries : gmap Z Entry :=
  {[ getAccountRootIndex 7 := mkSLE (getAccountRootIndex 7) Keylet.ltACCOUNT_ROOT (root_of 7);
     getSignerListIndex 7 := mkSLE (getSignerListIndex 7) ltSIGNER_LIST (list_of 3 list7);
     getSignerListIndex 11 := mkSLE (getSignerListIndex 11) ltSIGNER_LIST (list_of 1 list11) ]}.

Definition signing : Ledger.t STObject := Ledger.mk entries ∅ info0.

Definition signers79 : list SigningFor :=
  [mkFor 7 [mkSigning 9 [9] []]; mkFor 11 [mkSigning 20 [20] []]].

Definition master (key : list Z) : Z := default 0 (head key).

Lemma signing_good : good signing.
Proof.
  split; [|done]. intros i s Hs. change (entries !! i = Some s) in Hs. unfold entries in Hs.
  rewrite !lookup_insert_Some, lookup_singleton_Some in Hs.
  destruct Hs as [[<- <-]|[_ [[<- <-]|[_ [<- <-]]]]]; (split; [reflexivity|]);
    [apply getAccountRootIndex_pos|apply getSignerListIndex_pos..].
Qed.

Lemma holds7 : holds_list (contents signing) 7 3 list7.
Proof. exists (list_of 3 list7). by split_and!; vm_compute. Qed.

Lemma wf7 : wf_list list7.
Proof. unfold wf_list, sorted_entries. split_and!; [|cbn; unfold maxMultiSigners; lia..|]; repeat constructor; cbn; lia. Qed.

Lemma wf11 : wf_list list11.
Proof. unfold wf_list, sorted_entries. split_and!; [|cbn; unfold maxMultiSigners; lia..|]; repeat constructor; cbn; lia. Qed.

Lemma signing_wf : signers_wf (contents signing).
Proof.
  split; intros id.
  - destruct (contents signing !! getAccountRootIndex id) as [e|] eqn:He; [right|by left].
    change (contents signing) with entries in He. unfold entries in He. rewrite !lookup_insert_Some, lookup_singleton_Some in He.
    destruct He as [[Hk <-]|[_ [[Hk <-]|[_ [Hk <-]]]]]; [|by symmetry in Hk; apply account_not_signers in Hk..].
    exists (root_of 7). rewrite Hk. split; [done|].
    by apply (build_conforms Keylet.ltACCOUNT_ROOT _ [(sfAccount, ACC 7)]).
  - destruct (contents signing !! getSignerListIndex id) as [e|] eqn:He; [right|by left].
    unfold holds_list. rewrite He. change (contents signing) with entries in He. unfold entries in He. rewrite !lookup_insert_Some, lookup_singleton_Some in He.
    destruct He as [[Hk _]|[_ [[Hk <-]|[_ [Hk <-]]]]]; [by apply account_not_signers in Hk|..].
    + exists 3, list7. split; [|apply wf7]. exists (list_of 3 list7). rewrite Hk. split; [reflexivity|]. by split; vm_compute.
    + exists 1, list11. split; [|apply wf11]. exists (list_of 1 list11). rewrite Hk. split; [reflexivity|]. by split; vm_compute.
Qed.

Lemma multisign_correct_witness :
  checkMultiSign master 7 signing (Some signers79) = Ok tesSUCCESS /\
  NoDup (first_level 7 signers79) /\ 3 <= weights_of list7 (first_level 7 signers79).
Proof.
  destruct (multisign_correct master (fun _ _ => true) signing 7 3 list7 signers79 signing_good signing_wf
              holds7 ltac:(by vm_compute)) as (_ & Hnd & t & Ht & Hiff).
  assert (Ht' : checkMultiSign master 7 signing (Some signers79) = Ok tesSUCCESS) by (vm_compute; reflexivity).
  split_and!; [done|done|]. rewrite Ht in Ht'. apply Hiff. by injection Ht'.
Defined.

End Examples.

End MultiSign.
