(* ===== verification/TxMeta.v ===== *)
(** * The metadata of a transaction

    When a transaction is applied to a ledger that is being built,
    [ApplyStateTable::apply (OpenView&, ...)] (ledger/impl/ApplyStateTable.cpp)
    records in a [TxMeta] (ledger/TxMeta.h, ledger/impl/TxMeta.cpp) which entries
    it created, modified and deleted, with their old and new fields, and threads
    the transaction to them: an entry of a threaded type, and the account roots
    of the owners of an entry that is created or deleted, name the last
    transaction that affected them ([STLedgerEntry::thread]).  Owners that the
    transaction did not touch itself are changed in a table of their own.  The
    serialized transaction and the serialization of the metadata are
    parameters. *)

From stdpp Require Import base tactics numbers list strings gmap sorting option.
From S2P Require Import Prelude Decimal IOUAmount BigNum Serializer STAmount.
From S2P Require Import View StateTable ApplyStateTable Fields Indexes PaymentSandbox ViewOps.
From S2P Require Import TrustLines.

Module TxMeta.
Import Fields Indexes ViewOps TrustLines.

(** ** Comparing fields *)

(** The fields of an inner object, whatever their order. *)
Definition inner_map (i : Inner) : gmap Z Z := list_to_map (inner_fields i).

Fixpoint inners_eqb (l r : list Inner) : bool :=
  match l, r with
  | [], [] => true
  | x :: l, y :: r => bool_decide (inner_map x = inner_map y) && inners_eqb l r
  | _, _ => false
  end.

(** [STBase::operator==] for two values: amounts compare without their issuers. *)
Definition value_eqb (v w : Value) : bool :=
  match v, w with
  | AMT a, AMT b => STAmount.eqb a b
  | ARR l, ARR r => inners_eqb l r
  | _, _ => bool_decide (v = w)
  end.

Definition field_eqb (x y : option Value) : bool :=
  match x, y with
  | None, None => true
  | Some v, Some w => value_eqb v w
  | _, _ => false
  end.

(** [hasMatchingEntry] of the object [o] for the field [f] with the value [x]. *)
Definition hasMatchingEntry (o : STObject) (f : SField) (x : option Value) : bool :=
  match o !! f with None => false | Some y => field_eqb x y end.

Definition present (o : STObject) : STObject := filter (fun p => is_Some p.2) o.

(** [STObject::operator==]. *)
Definition object_eqb (o1 o2 : STObject) : bool :=
  forallb (fun p => hasMatchingEntry o2 p.1 p.2) (map_to_list (present o1)) &&
  (base.size (present o1) =? base.size (present o2))%nat.

(** [isDefault]; an account that was never set is 0. *)
Definition isDefault (x : option Value) : bool :=
  match x with
  | None => true
  | Some (U8 v) | Some (U16 v) | Some (U32 v) | Some (U64 v)
  | Some (H128 v) | Some (H160 v) | Some (H256 v) | Some (ACC v) => v =? 0
  | Some (AMT a) => (STAmount.mValue a =? 0) && STAmount.mIsNative a
  | Some (VL l) | Some (VEC l) => bool_decide (l = [])
  | Some (ARR l) => bool_decide (l = [])
  | Some (PATHS l) => bool_decide (l = [])
  end.

(** ** Which fields are recorded *)

Definition sMD_Never : Z := 0x00.
Definition sMD_ChangeOrig : Z := 0x01.
Definition sMD_ChangeNew : Z := 0x02.
Definition sMD_DeleteFinal : Z := 0x04.
Definition sMD_Create : Z := 0x08.
Definition sMD_Always : Z := 0x10.
Definition sMD_Default : Z := 0x0f.

Definition fieldMeta (f : SField) : Z :=
  if (f =? sfLedgerEntryType) || (f =? sfIndexes) then sMD_Never
  else if (f =? sfPreviousTxnLgrSeq) || (f =? sfPreviousTxnID) then sMD_DeleteFinal
  else if f =? sfRootIndex then sMD_Always
  else sMD_Default.

Definition shouldMeta (f : SField) (c : Z) : bool := has (fieldMeta f) c.

(** The fields of [orig] that change in [cur]. *)
Definition previous_fields (orig cur : STObject) : STObject :=
  filter (fun p => shouldMeta p.1 sMD_ChangeOrig && negb (hasMatchingEntry cur p.1 p.2) = true) orig.
Definition kept_fields (c : Z) (o : STObject) : STObject :=
  filter (fun p => shouldMeta p.1 c = true) o.
Definition new_fields (o : STObject) : STObject :=
  filter (fun p => negb (isDefault p.2) && shouldMeta p.1 (Z.lor sMD_Create sMD_Always) = true) o.

(** ** The metadata *)

Definition sfCreatedNode : SField := Eval vm_compute in field_code 14 3.
Definition sfDeletedNode : SField := Eval vm_compute in field_code 14 4.
Definition sfModifiedNode : SField := Eval vm_compute in field_code 14 5.

(** An affected node: its name, [sfLedgerIndex], [sfLedgerEntryType], the pair
    [sfPreviousTxnID] and [sfPreviousTxnLgrSeq], and the objects
    [sfPreviousFields], [sfFinalFields] and [sfNewFields]. *)
Record Node := mkNode {
  n_name : SField; n_index : Z; n_type : Z; n_thread : option (Z * Z);
  n_previous : option STObject; n_final : option STObject; n_new : option STObject }.

Record t := mk {
  mTransactionID : Z; mLedger : Z; mIndex : Z; mResult : Z;
  mDelivered : option STAmount.t; mNodes : list Node }.

(** The constructor and [init]. *)
Definition init (id ledger : Z) : t := mk id ledger (2 ^ 32 - 1) 255 None [].

Definition set_nodes (l : list Node) (m : t) : t :=
  mk (mTransactionID m) (mLedger m) (mIndex m) (mResult m) (mDelivered m) l.
Definition setDeliveredAmount (a : option STAmount.t) (m : t) : t :=
  mk (mTransactionID m) (mLedger m) (mIndex m) (mResult m) a (mNodes m).

Definition new_node (type : SField) (index nodeType : Z) : Node := mkNode type index nodeType None None None None.
Definition retype (type : SField) (nodeType : Z) (n : Node) : Node :=
  mkNode type (n_index n) nodeType (n_thread n) (n_previous n) (n_final n) (n_new n).

(** The first node with an index is changed; one is added when there is none. *)
Fixpoint upsert (index : Z) (f : Node -> Node) (fresh : Node) (l : list Node) : list Node :=
  match l with
  | [] => [fresh]
  | n :: l => if n_index n =? index then f n :: l else n :: upsert index f fresh l
  end.

Definition setAffectedNode (node : Z) (type : SField) (nodeType : Z) (m : t) : t :=
  set_nodes (upsert node (retype type nodeType) (new_node type node nodeType) (mNodes m)) m.

Definition find_node (index : Z) (m : t) : option Node :=
  List.find (fun n => n_index n =? index) (mNodes m).

(** [getAffectedNode (node).emplace_back (...)] for each of the three objects;
    empty ones are not recorded. *)
Definition nonempty (o : STObject) : option STObject := if bool_decide (o = ∅) then None else Some o.
Definition record_fields (previous final new : option STObject) (index : Z) (m : t) : t :=
  let f n := mkNode (n_name n) (n_index n) (n_type n) (n_thread n) previous final new in
  set_nodes ((fun n => if n_index n =? index then f n else n) <$> mNodes m) m.

(** [TxMeta::thread] on [getAffectedNode (to, sfModifiedNode)], which exists or
    is made; whether the node was not threaded yet. *)
Definition thread_node `{Build} (index nodeType prevTxID prevLgrID : Z) (m : t) : result (bool * t) :=
  let node := default (new_node sfModifiedNode index nodeType) (find_node index m) in
  let threaded n := mkNode (n_name n) (n_index n) (n_type n) (Some (prevTxID, prevLgrID))
                      (n_previous n) (n_final n) (n_new n) in
  match n_thread node with
  | None => Ok (true, set_nodes (upsert index threaded (threaded node) (mNodes m)) m)
  | Some (id, seq) =>
      _ ← Keylet.assert (id =? prevTxID);
      _ ← Keylet.assert (seq =? prevLgrID);
      Ok (false, m)
  end.

(** [addRaw]: the result and the index, and the nodes by their index. *)
Definition node_le (a b : Node) : Prop := n_index a <= n_index b.

#[export] Instance node_le_dec : RelDecision node_le.
Proof. intros a b. unfold node_le. apply _. Defined.

Definition finish_meta `{Build} (ter : TER) (index : Z) (m : t) : result t :=
  let r := TER_code ter in
  _ ← Keylet.assert ((r =? 0) || (100 <? r) && (r <=? 255));
  Ok (mk (mTransactionID m) (mLedger m) index r (mDelivered m) (merge_sort node_le (mNodes m))).

(** ** Threading *)

(** [STLedgerEntry::thread]: the transaction and the ledger threaded before, and
    the new fields; [None] when the transaction is threaded already. *)
Definition thread `{Build} (txID ledgerSeq : Z) (o : STObject) : result (option (Z * Z * STObject)) :=
  oldPrevTxID ← getFieldH256 sfPreviousTxnID o;
  if oldPrevTxID =? txID then
    seq ← getFieldU32 sfPreviousTxnLgrSeq o;
    _ ← Keylet.assert (seq =? ledgerSeq);
    Ok None
  else
    prevLedgerID ← getFieldU32 sfPreviousTxnLgrSeq o;
    o ← setFieldH256 sfPreviousTxnID txID o;
    o ← setFieldU32 sfPreviousTxnLgrSeq ledgerSeq o;
    Ok (Some (oldPrevTxID, prevLedgerID, o)).

Definition isThreadedType (o : STObject) : bool := bool_decide (is_Some (o !! sfPreviousTxnID)).

(** The table, the owners changed besides, and the metadata. *)
Record T := mkT { tb : ApplyStateTable.t STObject; mods : gmap Z Entry; meta : t }.

(** Where an entry that is threaded lives. *)
Inductive target := in_items (p : loc) | in_mods (key : Z).

Definition target_get (to : target) (s : T) : result Entry :=
  match to with
  | in_items p => ApplyStateTable.deref p (tb s)
  | in_mods k => match mods s !! k with Some e => Ok e | None => Throw "null" end
  end.

Definition target_set (to : target) (o : STObject) (s : T) : result T :=
  match to with
  | in_items p => tb' ← ApplyStateTable.write p o (tb s); Ok (mkT tb' (mods s) (meta s))
  | in_mods k => match mods s !! k with
                 | Some e => Ok (mkT (tb s) (<[k := with_fields e o]> (mods s)) (meta s))
                 | None => Throw "null"
                 end
  end.

Section apply.
Context `{Build} {SHA : SHA512Half} {V : Type} {RV : ReadView STObject V}.

Definition threadItem (to : target) (s : T) : result (bool * T) :=
  e ← target_get to s;
  threaded ← thread (mTransactionID (meta s)) (mLedger (meta s)) (fields e);
  match threaded with
  | None => Ok (false, s)
  | Some (prevTxID, prevLgrID, o) =>
      s ← target_set to o s;
      if prevTxID =? 0 then Ok (true, s)
      else
        nodeType ← getFieldU16 sfLedgerEntryType o;
        r ← thread_node (sle_key e) nodeType prevTxID prevLgrID (meta s);
        _ ← Keylet.assert r.1;
        Ok (r.1, mkT (tb s) (mods s) r.2)
  end.

Definition getForMod (base : V) (key : Z) (s : T) : result (option target * T) :=
  match mods s !! key with
  | Some _ => Ok (Some (in_mods key), s)
  | None =>
      match ApplyStateTable.items_ (tb s) !! key with
      | Some (ApplyStateTable.erase_, _) => Ok (None, s)
      | Some (ApplyStateTable.insert_, p) | Some (ApplyStateTable.modify_, p) => Ok (Some (in_items p), s)
      | _ =>
          c ← View.vread base (Keylet.unchecked key);
          match c with
          | None => Ok (None, s)
          | Some sle => Ok (Some (in_mods key), mkT (tb s) (<[key := sle]> (mods s)) (meta s))
          end
      end
  end.

Definition threadTx (base : V) (to : Z) (s : T) : result (bool * T) :=
  r ← getForMod base (getAccountRootIndex to) s;
  _ ← Keylet.assert (bool_decide (is_Some r.1));
  match r.1 with
  | None => Ok (false, r.2)
  | Some sle => threadItem sle r.2
  end.

Definition threadOwners (base : V) (sle : Entry) (s : T) : result (bool * T) :=
  if negb (getType sle =? Keylet.ltACCOUNT_ROOT) && bool_decide (is_Some (fields sle !! sfAccount))
  then a ← getAccountID sfAccount (fields sle); threadTx base a s
  else if getType sle =? ltRIPPLE_STATE
  then low ← getFieldAmount sfLowLimit (fields sle);
       r ← threadTx base (STAmount.account (STAmount.mIssue low)) s;
       if r.1 : bool
       then high ← getFieldAmount sfHighLimit (fields sle);
            threadTx base (STAmount.account (STAmount.mIssue high)) r.2
       else Ok r
  else Ok (false, s).

(** A node that is deleted, ... *)
Definition deleted_item (base : V) (index : Z) (p : loc) (origNode : Entry) (s : T) : result T :=
  r ← threadOwners base origNode s;
  curNode ← ApplyStateTable.deref p (tb r.2);
  Ok (mkT (tb r.2) (mods r.2)
        (record_fields (nonempty (previous_fields (fields origNode) (fields curNode)))
           (nonempty (kept_fields (Z.lor sMD_Always sMD_DeleteFinal) (fields curNode))) None index (meta r.2))).

(** ... modified, ... *)
Definition modified_item (index : Z) (p : loc) (origNode curNode : Entry) (s : T) : result T :=
  s ← (if isThreadedType (fields curNode) then r ← threadItem (in_items p) s; Ok r.2 else Ok s);
  curNode ← ApplyStateTable.deref p (tb s);
  Ok (mkT (tb s) (mods s)
        (record_fields (nonempty (previous_fields (fields origNode) (fields curNode)))
           (nonempty (kept_fields (Z.lor sMD_Always sMD_ChangeNew) (fields curNode))) None index (meta s))).

(** ... or created. *)
Definition created_item (base : V) (index : Z) (p : loc) (curNode : Entry) (s : T) : result T :=
  r ← threadOwners base curNode s;
  s ← (if isThreadedType (fields curNode) then r ← threadItem (in_items p) r.2; Ok r.2 else Ok r.2);
  curNode ← ApplyStateTable.deref p (tb s);
  Ok (mkT (tb s) (mods s) (record_fields None None (nonempty (new_fields (fields curNode))) index (meta s))).

Definition affect (index : Z) (type : SField) (curNode : Entry) (s : T) : result T :=
  nodeType ← getFieldU16 sfLedgerEntryType (fields curNode);
  Ok (mkT (tb s) (mods s) (setAffectedNode index type nodeType (meta s))).

(** One turn of the loop over the items. *)
Definition meta_item (base : V) (s : T) (item : Z * (ApplyStateTable.Action * loc)) : result T :=
  let '(index, (action, p)) := item in
  match action with
  | ApplyStateTable.cache_ => Ok s
  | ApplyStateTable.erase_ =>
      origNode ← View.vread base (Keylet.unchecked index);
      curNode ← ApplyStateTable.deref p (tb s);
      s ← affect index sfDeletedNode curNode s;
      match origNode with
      | None => Throw "null"
      | Some origNode => deleted_item base index p origNode s
      end
  | ApplyStateTable.insert_ =>
      origNode ← View.vread base (Keylet.unchecked index);
      curNode ← ApplyStateTable.deref p (tb s);
      s ← affect index sfCreatedNode curNode s;
      _ ← Keylet.assert (bool_decide (origNode = None));
      created_item base index p curNode s
  | ApplyStateTable.modify_ =>
      origNode ← View.vread base (Keylet.unchecked index);
      curNode ← ApplyStateTable.deref p (tb s);
      match origNode with
      | None => Throw "null"
      | Some origNode =>
          if object_eqb (fields curNode) (fields origNode) then Ok s
          else s ← affect index sfModifiedNode curNode s; modified_item index p origNode curNode s
      end
  end.

End apply.

(** ** Applying a table with the transaction *)

Section apply_tx.
Context `{Build} {SHA : SHA512Half} {V : Type} {RV : ReadView STObject V}.
(** The serialized metadata. *)
Context (addRaw : t -> list Z).

Abbreviation Target := (OpenView.t STObject V).

(** The metadata, the owners changed, and the table with its threaded entries. *)
Definition build_meta (to : Target) (txID : Z) (deliver : option STAmount.t) (table : ApplyStateTable.t STObject)
    : result T :=
  foldM (meta_item to) (mkT table ∅ (setDeliveredAmount deliver (init txID (seq (View.vinfo to)))))
    (Ordered.in_order (ApplyStateTable.items_ table)).

(** [ApplyStateTable::apply] with a transaction; [txn] is its serialization. *)
Definition apply_tx (to : Target) (txID : Z) (txn : list Z) (ter : TER) (deliver : option STAmount.t)
    (table : ApplyStateTable.t STObject) : result Target :=
  if negb (isOpen (View.vinfo to)) then
    s ← build_meta to txID deliver table;
    to ← foldM (fun to mod_ => rawReplace to mod_.2) to (Ordered.in_order (mods s));
    m ← finish_meta ter (OpenView.txCount to) (meta s);
    to ← rawTxInsert to txID txn (Some (addRaw m));
    ApplyStateTable.apply (tb s) to
  else
    to ← rawTxInsert to txID txn None;
    ApplyStateTable.apply table to.

End apply_tx.

End TxMeta.
