(* ===== verification/Threading.v ===== *)
(** * What applying with metadata does to the ledger

    [apply_tx] puts into the ledger what the transaction's view shows, except
    that entries may name the transaction as the last that affected them.  The
    loop over the items keeps an invariant that relates the table to the one it
    started with: the objects differ by a stamp only, and a node of the metadata
    that names an earlier transaction belongs to an entry that is stamped. *)

From stdpp Require Import base tactics numbers list strings gmap sorting option.
From S2P Require Import Prelude Decimal IOUAmount BigNum Serializer STAmount.
From S2P Require Import View StateTable ApplyStateTable Fields Indexes PaymentSandbox ViewOps.
From S2P Require Import TrustLines Transfers TxMeta.

Module Threading.
Import Fields Indexes ViewOps TrustLines TxMeta.

Section stamps.
Context (txID lgr : Z).

(** The fields of an entry that names the transaction. *)
Definition stamp_fields (o : STObject) : STObject :=
  <[sfPreviousTxnLgrSeq := Some (U32 lgr)]> (<[sfPreviousTxnID := Some (H256 txID)]> o).
Definition stamp (e : Entry) : Entry := with_fields e (stamp_fields (fields e)).
Definition stamped (e : Entry) : Prop :=
  fields e !! sfPreviousTxnID = Some (Some (H256 txID)) /\
  fields e !! sfPreviousTxnLgrSeq = Some (Some (U32 lgr)).

(** An entry that can name a transaction, and does not name this one. *)
Definition threadable (e : Entry) : Prop :=
  has_place sfPreviousTxnID (fields e) /\ has_place sfPreviousTxnLgrSeq (fields e) /\
  has_place sfLedgerEntryType (fields e) /\ h256_of sfPreviousTxnID (fields e) <> txID.

Definition entry_ok (e : Entry) : Prop :=
  has_place sfLedgerEntryType (fields e) /\ (isThreadedType (fields e) = true -> threadable e).

(** [e] is [e0], maybe with a stamp. *)
Definition upto (e0 e : Entry) : Prop := e = e0 \/ threadable e0 /\ e = stamp e0.

Lemma stamp_stamped e : stamped (stamp e).
Proof.
  unfold stamped, stamp, stamp_fields. cbn [fields with_fields].
  by rewrite lookup_insert_ne, !lookup_insert_eq.
Qed.

Lemma threadable_not_stamped e : threadable e -> ~ stamped e.
Proof. intros (_ & _ & _ & Hne) [Hs _]. apply Hne. unfold h256_of. by rewrite Hs. Qed.

Lemma stamp_key e : sle_key (stamp e) = sle_key e.
Proof. done. Qed.

Lemma upto_key e0 e : upto e0 e -> sle_key e = sle_key e0.
Proof. by intros [->|[_ ->]]. Qed.

Context `{Build}.

Lemma thread_fresh e : threadable e -> thread txID lgr (fields e) =
  Ok (Some (h256_of sfPreviousTxnID (fields e), u32_of sfPreviousTxnLgrSeq (fields e), stamp_fields (fields e))).
Proof.
  intros (H1 & H2 & _ & Hne). unfold thread. rewrite get_h256_of by done. cbn [mbind result_bind].
  rewrite (proj2 (Z.eqb_neq _ _)) by done. rewrite get_u32_of by done. cbn [mbind result_bind].
  unfold setFieldH256, setFieldU32. rewrite setField_ok by done. cbn [mbind result_bind].
  by rewrite setField_ok by (done || by apply has_place_insert).
Qed.

Lemma thread_done e : stamped e -> thread txID lgr (fields e) = Ok None.
Proof.
  intros [Hi Hl]. unfold thread, getFieldH256, getFieldU32, getField. rewrite Hi, Hl. cbn [mbind result_bind as_h256 as_u32].
  by rewrite !Z.eqb_refl, assert_true.
Qed.

(** A stamped entry differs from every one that is not. *)
Lemma stamped_differs e o : stamped e -> o !! sfPreviousTxnID <> Some (Some (H256 txID)) ->
  object_eqb (fields e) o = false.
Proof.
  intros [Hi _] Hne. apply not_true_is_false. intros [Hall _]%andb_true_iff. apply Hne.
  rewrite forallb_forall in Hall. specialize (Hall (sfPreviousTxnID, Some (H256 txID))). cbn [fst snd] in Hall.
  unfold hasMatchingEntry in Hall.
  assert (Hin : In (sfPreviousTxnID, Some (H256 txID)) (map_to_list (present (fields e)))).
  { apply list_elem_of_In, elem_of_map_to_list, map_lookup_filter_Some. by split; [|eexists]. }
  specialize (Hall Hin). destruct (o !! sfPreviousTxnID) as [[w|]|]; [|done..]. cbn in Hall.
  apply bool_decide_eq_true in Hall. by subst w.
Qed.

End stamps.

(** ** Nodes *)

Section nodes.
Context (index : Z) (f : Node -> Node) (fresh : Node).
Hypothesis keeps : forall n, n_index (f n) = n_index n.
Hypothesis fresh_index : n_index fresh = index.

Lemma upsert_in l n : n ∈ upsert index f fresh l -> n ∈ l \/ n = fresh \/ exists x, x ∈ l /\ n_index x = index /\ n = f x.
Proof.
  induction l as [|x l IH]; cbn [upsert].
  - intros ->%list_elem_of_singleton. by right; left.
  - destruct (Z.eqb_spec (n_index x) index) as [Hx|Hx]; intros [->|Hn]%elem_of_cons.
    + right; right. exists x. split_and!; [by left|done|done].
    + left. by right.
    + left. by left.
    + destruct (IH Hn) as [?|[?|(y & Hy & ? & ?)]]; [left; by right|by right; left|].
      right; right. exists y. split_and!; [by right|done|done].
Qed.

Lemma upsert_indexes l : n_index <$> l ⊆ n_index <$> upsert index f fresh l /\ index ∈ n_index <$> upsert index f fresh l.
Proof.
  induction l as [|x l [IH1 IH2]]; cbn [upsert].
  - split; [by intros k ?%elem_of_nil|]. rewrite <- fresh_index. apply elem_of_cons. by left.
  - destruct (Z.eqb_spec (n_index x) index) as [<-|Hx]; cbn [fmap list_fmap].
    + rewrite keeps. split; [done|]. apply elem_of_cons. by left.
    + split; [|apply elem_of_cons; by right]. intros k [->|Hk]%elem_of_cons; apply elem_of_cons; [by left|right; by apply IH1].
Qed.

End nodes.

Lemma find_node_in index m n : find_node index m = Some n -> n ∈ mNodes m /\ n_index n = index.
Proof. intros [Hin Hi%Z.eqb_eq]%List.find_some. by apply list_elem_of_In in Hin. Qed.

(** The metadata [m'] names an earlier transaction where [m] does, and at
    [index]. *)
Definition nodes_grow (index : Z) (m m' : TxMeta.t) : Prop :=
  mTransactionID m' = mTransactionID m /\ mLedger m' = mLedger m /\
  (n_index <$> mNodes m) ⊆ (n_index <$> mNodes m') /\ index ∈ n_index <$> mNodes m' /\
  forall n, n ∈ mNodes m' -> is_Some (n_thread n) ->
    (exists x, x ∈ mNodes m /\ is_Some (n_thread x) /\ n_index x = n_index n) \/ n_index n = index.

Lemma thread_node_spec `{Build} index nodeType a b m :
  (forall n, find_node index m = Some n -> n_thread n = None) ->
  exists m', thread_node index nodeType a b m = Ok (true, m') /\ nodes_grow index m m'.
Proof.
  intros Hn. unfold thread_node. set (node := default _ _).
  assert (Hnode : n_thread node = None /\ n_index node = index).
  { unfold node. destruct (find_node index m) as [n|] eqn:Hf; [|done]. split; [by apply Hn|]. apply (find_node_in _ _ _ Hf). }
  destruct Hnode as [-> Hi]. eexists. split; [done|]. set (f := fun n => mkNode _ _ _ _ _ _ _).
  destruct (upsert_indexes index f (f node) (fun _ => eq_refl) Hi (mNodes m)) as [H1 H2].
  split_and!; [done|done|done|done|]. cbn [mNodes set_nodes]. intros n Hin Hs.
  apply upsert_in in Hin as [?|[->|(x & _ & Hx & ->)]]; [left; by exists n|by right|by right].
Qed.

Lemma setAffectedNode_grow index type nodeType m : nodes_grow index m (setAffectedNode index type nodeType m).
Proof.
  unfold setAffectedNode. destruct (upsert_indexes index (retype type nodeType) (new_node type index nodeType)
    (fun _ => eq_refl) eq_refl (mNodes m)) as [H1 H2].
  split_and!; [done|done|done|done|]. cbn [mNodes set_nodes]. intros n Hin Hs.
  apply upsert_in in Hin as [?|[->|(x & Hx & _ & ->)]]; [left; by exists n|by destruct Hs|left; by exists x].
Qed.

Lemma record_indexes a b c index m : n_index <$> mNodes (record_fields a b c index m) = n_index <$> mNodes m.
Proof.
  unfold record_fields. cbn [mNodes set_nodes]. rewrite <- list_fmap_compose. apply list_fmap_ext.
  intros _ n _. cbn. by case_match.
Qed.

Lemma record_threads a b c index m n : n ∈ mNodes (record_fields a b c index m) ->
  exists x, x ∈ mNodes m /\ n_thread x = n_thread n /\ n_index x = n_index n.
Proof.
  unfold record_fields. cbn [mNodes set_nodes]. intros (x & -> & Hx)%list_elem_of_fmap. exists x.
  split; [done|]. by case_match.
Qed.

Section threading.
Context `{Build} {SHA : SHA512Half} {SL : SHA512HalfLaws SHA} {V : Type} {RV : ReadView STObject V}.
Context {VM : ViewModel STObject V} {RL : ReadViewLaws STObject V}.
Context (txID lgr : Z) (base : V) (table : ApplyStateTable.t STObject).

Abbreviation items := (ApplyStateTable.items_ table).

(** The item of [k] will be applied, and its object is at [p]. *)
Definition flagged (k : Z) (p : loc) : Prop :=
  exists a, items !! k = Some (a, p) /\ a <> ApplyStateTable.cache_.
Definition unflagged (k : Z) : Prop := forall p, ~ flagged k p.

(** The entry under [k] is stamped. *)
Definition stamped_at (s : T) (k : Z) : Prop :=
  (exists e, mods s !! k = Some e /\ stamped txID lgr e) \/
  (exists p e, flagged k p /\ ApplyStateTable.heap (tb s) !! p = Some e /\ stamped txID lgr e).

Record inv (s : T) : Prop := {
  inv_items : ApplyStateTable.items_ (tb s) = items;
  inv_drops : ApplyStateTable.same_drops table (tb s);
  inv_heap p : option_Forall2 (upto txID lgr) (ApplyStateTable.heap table !! p) (ApplyStateTable.heap (tb s) !! p);
  inv_mods k e : mods s !! k = Some e ->
    exists e0, contents base !! k = Some e0 /\ upto txID lgr e0 e /\ unflagged k;
  inv_id : mTransactionID (meta s) = txID;
  inv_seq : mLedger (meta s) = lgr;
  inv_nodes n : n ∈ mNodes (meta s) -> is_Some (n_thread n) -> stamped_at s (n_index n) }.

(** Stamps and nodes are never taken back. *)
Definition indexes (s : T) : list Z := n_index <$> mNodes (meta s).
Definition grows (s s' : T) : Prop :=
  (forall k, stamped_at s k -> stamped_at s' k) /\ indexes s ⊆ indexes s'.

#[local] Instance grows_preorder : PreOrder grows.
Proof.
  split; [by intros s; split|]. intros s1 s2 s3 [H1 H1'] [H2 H2']. split; [auto|by etrans].
Qed.

(** The object of the entry with the key [k], as it was at the start. *)
Definition at_target (to : target) (k : Z) (e0 : Entry) : Prop :=
  sle_key e0 = k /\ threadable txID e0 /\
  match to with
  | in_items p => flagged k p /\ ApplyStateTable.heap table !! p = Some e0
  | in_mods k' => k' = k /\ contents base !! k = Some e0
  end.

Lemma target_get_spec s to k e0 : inv s -> at_target to k e0 ->
  (forall k', to = in_mods k' -> is_Some (mods s !! k')) ->
  exists e, target_get to s = Ok e /\ upto txID lgr e0 e.
Proof.
  intros Hi (Hk & Ht & Hat) Hm. destruct to as [p|k'].
  - destruct Hat as [_ Hp]. pose proof (inv_heap s Hi p) as Hh. rewrite Hp in Hh.
    destruct (ApplyStateTable.heap (tb s) !! p) as [e|] eqn:He; inversion Hh; subst.
    exists e. split; [|done]. unfold target_get, ApplyStateTable.deref. by rewrite He.
  - destruct Hat as [-> Hb]. destruct (Hm k eq_refl) as [e He]. exists e. cbn. rewrite He. split; [done|].
    destruct (inv_mods s Hi k e He) as (e0' & Hb' & Hu & _). congruence.
Qed.

(** Stamping the entry of a target. *)
Lemma target_set_spec s to k e0 : inv s -> at_target to k e0 -> target_get to s = Ok e0 ->
  exists s', target_set to (stamp_fields txID lgr (fields e0)) s = Ok s' /\
    inv s' /\ grows s s' /\ stamped_at s' k /\ meta s' = meta s.
Proof.
  intros Hi (Hk & Ht & Hat) Hg. pose proof (stamp_stamped txID lgr e0) as Hst. destruct to as [p|k'].
  - destruct Hat as [Hf Hp]. cbn in *. unfold ApplyStateTable.write. rewrite Hg. cbn [mbind result_bind].
    change (mkSLE _ _ _) with (stamp txID lgr e0). eexists. split; [done|].
    set (s' := mkT _ (mods s) (meta s)).
    assert (Hgr : forall j, stamped_at s j -> stamped_at s' j).
    { intros j [Hj|(p' & e & Hf' & He & Hs)]; [by left|]. right. exists p'. cbn.
      destruct (decide (p' = p)) as [->|Hne]; [exists (stamp txID lgr e0); by rewrite lookup_insert_eq|].
      exists e. by rewrite lookup_insert_ne. }
    split_and!; [|by split|right; exists p, (stamp txID lgr e0); cbn; by rewrite lookup_insert_eq|done].
    split; try apply Hi.
    + intros p'. cbn. destruct (decide (p' = p)) as [->|Hne]; [|rewrite lookup_insert_ne by done; apply Hi].
      rewrite Hp, lookup_insert_eq. constructor. by right.
    + intros n Hn Hth. apply Hgr. by apply (inv_nodes s Hi).
  - destruct Hat as [-> Hb]. cbn in *. destruct (mods s !! k) as [e|] eqn:He; [|done]. injection Hg as ->.
    eexists. split; [done|]. set (s' := mkT (tb s) _ (meta s)).
    assert (Hgr : forall j, stamped_at s j -> stamped_at s' j).
    { intros j [(e & Hj & Hs)|Hj]; [|by right]. left. cbn.
      destruct (decide (j = k)) as [->|Hne]; [eexists; by rewrite lookup_insert_eq|].
      exists e. by rewrite lookup_insert_ne. }
    split_and!; [|by split|left; eexists; cbn; by rewrite lookup_insert_eq|done].
    split; try apply Hi.
    + intros j e. cbn. destruct (decide (j = k)) as [->|Hne].
      * rewrite lookup_insert_eq. intros [= <-]. destruct (inv_mods s Hi k e0 He) as (e0' & Hb' & _ & Hu).
        exists e0. split_and!; [done|by right|done].
      * rewrite lookup_insert_ne by done. apply Hi.
    + intros n Hn Hth. apply Hgr. by apply (inv_nodes s Hi).
Qed.

(** Changes of the metadata keep the invariant when the new name is stamped. *)
Lemma inv_meta s m' index : inv s -> nodes_grow index (meta s) m' ->
  stamped_at s index \/ (forall n, n ∈ mNodes m' -> is_Some (n_thread n) ->
    exists x, x ∈ mNodes (meta s) /\ is_Some (n_thread x) /\ n_index x = n_index n) ->
  inv (mkT (tb s) (mods s) m') /\ grows s (mkT (tb s) (mods s) m') /\ index ∈ indexes (mkT (tb s) (mods s) m').
Proof.
  intros Hi (Hid & Hseq & Hincl & Hidx & Hth) Hst. split_and!; [|by split|done].
  destruct Hi as [H1 H2 H3 H4 H5 H6 H7].
  assert (Hnode : forall n, n ∈ mNodes m' -> is_Some (n_thread n) -> stamped_at s (n_index n)).
  { intros n Hn Hs. destruct Hst as [Hst|Hold].
    - destruct (Hth n Hn Hs) as [(x & Hx & Hxs & <-)| ->]; [by apply H7|done].
    - destruct (Hold n Hn Hs) as (x & Hx & Hxs & <-). by apply H7. }
  split; [done|done|done|done|cbn; congruence|cbn; congruence|done].
Qed.

Lemma not_yet_threaded s to k e0 : inv s -> at_target to k e0 -> target_get to s = Ok e0 -> ~ stamped_at s k.
Proof.
  intros Hi (Hk & Ht & Hat) Hg. pose proof (threadable_not_stamped txID lgr e0 Ht) as Hns.
  destruct to as [p|k']; cbn in Hg; intros [(e & He & Hs)|(p' & e & Hf & He & Hs)].
  - destruct (inv_mods s Hi k e He) as (_ & _ & _ & Hu). apply (Hu p), Hat.
  - destruct Hat as [(a & Ha & Hc) _], Hf as (a' & Ha' & _). rewrite Ha in Ha'. injection Ha' as <- <-.
    unfold ApplyStateTable.deref in Hg. rewrite He in Hg. by injection Hg as ->.
  - destruct Hat as [-> _]. rewrite He in Hg. by injection Hg as ->.
  - destruct Hat as [-> _]. destruct (mods s !! k) as [e'|] eqn:Hm; [|done].
    destruct (inv_mods s Hi k e' Hm) as (_ & _ & _ & Hu). by apply (Hu p').
Qed.

Lemma threadItem_spec s to k e0 : inv s -> at_target to k e0 ->
  (forall k', to = in_mods k' -> is_Some (mods s !! k')) ->
  exists r s', threadItem to s = Ok (r, s') /\ inv s' /\ grows s s' /\ stamped_at s' k.
Proof.
  intros Hi Hat Hm. destruct (target_get_spec s to k e0 Hi Hat Hm) as (e & Hg & Hu).
  unfold threadItem. rewrite Hg. cbn [mbind result_bind]. rewrite (inv_id s Hi), (inv_seq s Hi).
  pose proof Hat as (Hk & Ht & _). destruct Hu as [->|[_ ->]].
  - rewrite thread_fresh by done. cbn [mbind result_bind].
    destruct (target_set_spec s to k e0 Hi Hat Hg) as (s1 & -> & Hi1 & Hg1 & Hs1 & Hm1). cbn [mbind result_bind].
    destruct (h256_of sfPreviousTxnID (fields e0) =? 0); [by eexists _, s1|].
    assert (Hty : exists ty, getFieldU16 sfLedgerEntryType (stamp_fields txID lgr (fields e0)) = Ok ty).
    { destruct Ht as (_ & _ & Hp & _). unfold getFieldU16, getField, stamp_fields. rewrite !lookup_insert_ne by done.
      unfold has_place in Hp. destruct (_ !! sfLedgerEntryType) as [[[]|]|]; try done; by eexists. }
    destruct Hty as [ty ->]. cbn [mbind result_bind]. rewrite Hm1, Hk.
    destruct (thread_node_spec k ty (h256_of sfPreviousTxnID (fields e0)) (u32_of sfPreviousTxnLgrSeq (fields e0)) (meta s))
      as (m' & -> & Hgrow).
    { intros n [Hn Hnk]%find_node_in. destruct (n_thread n) eqn:Hth; [|done].
      destruct (not_yet_threaded s to k e0 Hi Hat Hg). rewrite <- Hnk. apply (inv_nodes s Hi); [done|by rewrite Hth]. }
    cbn [mbind result_bind fst snd]. rewrite assert_true by done. cbn [mbind result_bind].
    rewrite <- Hm1 in Hgrow. destruct (inv_meta s1 m' k Hi1 Hgrow (or_introl Hs1)) as (Hi2 & Hg2 & _).
    eexists _, _. split_and!; [done|done|by etrans|]. by apply Hg2.
  - rewrite thread_done by apply stamp_stamped. cbn [mbind result_bind]. exists false, s. split_and!; [done|done|done|].
    pose proof (stamp_stamped txID lgr e0) as Hst. destruct Hat as (_ & _ & Hat). destruct to as [p|k']; cbn in Hg.
    + right. exists p, (stamp txID lgr e0). split; [apply Hat|]. split; [|done].
      unfold ApplyStateTable.deref in Hg. revert Hg. by destruct (ApplyStateTable.heap (tb s) !! p) as [e|]; [intros [= ->]|].
    + left. destruct Hat as [-> _]. exists (stamp txID lgr e0). split; [|done].
      revert Hg. by destruct (mods s !! k) as [e|]; [intros [= ->]|].
Qed.

(** The account root of an owner, in the items or in the base. *)
Definition owner_ok (a : Z) : Prop := exists e0, threadable txID e0 /\ sle_key e0 = getAccountRootIndex a /\
  ((exists p act, items !! getAccountRootIndex a = Some (act, p) /\
      (act = ApplyStateTable.insert_ \/ act = ApplyStateTable.modify_) /\ ApplyStateTable.heap table !! p = Some e0) \/
   unflagged (getAccountRootIndex a) /\ contents base !! getAccountRootIndex a = Some e0).

Context (Hbase : good base).

Lemma getForMod_spec s a : inv s -> owner_ok a -> exists to e0 s',
  getForMod base (getAccountRootIndex a) s = Ok (Some to, s') /\ inv s' /\ grows s s' /\
  at_target to (getAccountRootIndex a) e0 /\ (forall k', to = in_mods k' -> is_Some (mods s' !! k')).
Proof.
  intros Hi (e0 & Ht & Hk & Ho). unfold getForMod. rewrite (inv_items s Hi).
  destruct (mods s !! getAccountRootIndex a) as [e|] eqn:He.
  - destruct (inv_mods s Hi _ e He) as (e1 & Hb & Hu & Hun). eexists _, e0, s.
    split_and!; [done|done|done| |intros k' [= <-]; by rewrite He].
    split_and!; [done|done|done|]. destruct Ho as [(p & act & Hit & Hact & _)|[_ Hb']]; [|congruence].
    destruct (Hun p). exists act. by destruct Hact as [->| ->].
  - destruct Ho as [(p & act & Hit & Hact & Hp)|[Hun Hb]].
    + exists (in_items p), e0, s. rewrite Hit. split_and!; [by destruct Hact as [->| ->]|done|done| |done].
      split_and!; [done|done|exists act; by destruct Hact as [->| ->]|done].
    + exists (in_mods (getAccountRootIndex a)), e0. set (s' := mkT (tb s) (<[getAccountRootIndex a := e0]> (mods s)) (meta s)).
      exists s'. assert (Hrd : View.vread base (Keylet.unchecked (getAccountRootIndex a)) = Ok (Some e0)).
      { rewrite read_law by (done || apply getAccountRootIndex_pos). cbn [Keylet.key Keylet.unchecked].
        by rewrite Hb, Keylet.checked_any. }
      assert (Hgr : forall k, stamped_at s k -> stamped_at s' k).
      { intros k [(e & Hke & Hs)|Hs]; [|by right]. left. exists e. cbn. rewrite lookup_insert_ne; [done|]. congruence. }
      split_and!; [|split|by split|done|intros k' [= <-]; cbn; by rewrite lookup_insert_eq].
      * destruct (items !! getAccountRootIndex a) as [[[] p]|] eqn:Hit; cbn [mbind result_bind];
          [by rewrite Hrd|destruct (Hun p); by eexists..|by rewrite Hrd].
      * apply Hi. * apply Hi. * apply Hi.
      * intros k e. cbn. destruct (decide (k = getAccountRootIndex a)) as [->|Hne].
        -- rewrite lookup_insert_eq. intros [= <-]. exists e0. split_and!; [done|by left|done].
        -- rewrite lookup_insert_ne by done. apply Hi.
      * apply Hi. * apply Hi.
      * intros n Hn Hth. apply Hgr. by apply (inv_nodes s Hi).
Qed.

Lemma threadTx_spec s a : inv s -> owner_ok a ->
  exists r s', threadTx base a s = Ok (r, s') /\ inv s' /\ grows s s'.
Proof.
  intros Hi Ho. unfold threadTx. destruct (getForMod_spec s a Hi Ho) as (to & e0 & s1 & -> & Hi1 & Hg1 & Hat & Hm).
  cbn [mbind result_bind fst snd]. rewrite assert_true by done. cbn [mbind result_bind].
  destruct (threadItem_spec s1 to _ e0 Hi1 Hat Hm) as (r & s2 & -> & Hi2 & Hg2 & _).
  exists r, s2. split_and!; [done|done|by etrans].
Qed.

(** The accounts [threadOwners] threads to, and the fields that name them. *)
Definition owners_of (e : Entry) : list Z :=
  if negb (getType e =? Keylet.ltACCOUNT_ROOT) && bool_decide (is_Some (fields e !! sfAccount))
  then [acc_of sfAccount (fields e)]
  else if getType e =? ltRIPPLE_STATE
  then [STAmount.account (STAmount.mIssue (amt_of sfLowLimit (fields e)));
        STAmount.account (STAmount.mIssue (amt_of sfHighLimit (fields e)))]
  else [].
Definition owner_fields (e : Entry) : Prop :=
  (is_Some (fields e !! sfAccount) -> has_place sfAccount (fields e)) /\
  (getType e = ltRIPPLE_STATE -> has_place sfLowLimit (fields e) /\ has_place sfHighLimit (fields e)).

Lemma threadOwners_spec s e : inv s -> owner_fields e -> Forall owner_ok (owners_of e) ->
  exists r s', threadOwners base e s = Ok (r, s') /\ inv s' /\ grows s s'.
Proof.
  intros Hi [Hf1 Hf2]. unfold threadOwners, owners_of. destruct (negb _ && bool_decide _) eqn:Hc.
  - apply andb_true_iff in Hc as [_ Hc%bool_decide_eq_true]. intros [Ho _]%Forall_cons_1.
    rewrite get_acc_of by auto. cbn [mbind result_bind]. by apply threadTx_spec.
  - destruct (Z.eqb_spec (getType e) ltRIPPLE_STATE) as [Ht|_]; [|intros _; by exists false, s].
    destruct (Hf2 Ht) as [Hl Hh]. intros [Ho1 [Ho2 _]%Forall_cons_1]%Forall_cons_1.
    rewrite (get_amt_of sfLowLimit) by done. cbn [mbind result_bind].
    destruct (threadTx_spec s _ Hi Ho1) as (r & s1 & -> & Hi1 & Hg1). cbn [mbind result_bind fst snd].
    destruct r; [|by eexists _, s1]. rewrite (get_amt_of sfHighLimit) by done. cbn [mbind result_bind].
    destruct (threadTx_spec s1 _ Hi1 Ho2) as (r & s2 & -> & Hi2 & Hg2). exists r, s2.
    split_and!; [done|done|by etrans].
Qed.

(** Both owners of a trust line should be threaded, but when the low account is
    threaded already the high account is left out. *)
Lemma threadOwners_stops s e p r : getType e = ltRIPPLE_STATE -> fields e !! sfAccount = None ->
  has_place sfLowLimit (fields e) ->
  mods s !! getAccountRootIndex (STAmount.account (STAmount.mIssue (amt_of sfLowLimit (fields e)))) = None ->
  ApplyStateTable.items_ (tb s) !! getAccountRootIndex (STAmount.account (STAmount.mIssue (amt_of sfLowLimit (fields e)))) =
    Some (ApplyStateTable.modify_, p) ->
  ApplyStateTable.heap (tb s) !! p = Some r -> mTransactionID (meta s) = txID -> mLedger (meta s) = lgr ->
  stamped txID lgr r -> threadOwners base e s = Ok (false, s).
Proof.
  intros Ht Ha Hl Hm Hit Hp Hid Hseq Hs. unfold threadOwners. rewrite Ht, Ha. cbn [andb negb].
  change (negb (ltRIPPLE_STATE =? Keylet.ltACCOUNT_ROOT) && bool_decide (is_Some (None (A := option Value)))) with false.
  change (ltRIPPLE_STATE =? ltRIPPLE_STATE) with true. cbn iota. rewrite (get_amt_of sfLowLimit) by done. cbn [mbind result_bind].
  unfold threadTx, getForMod. rewrite Hm, Hit. cbn [mbind result_bind fst snd]. rewrite assert_true by done. cbn [mbind result_bind].
  unfold threadItem, target_get, ApplyStateTable.deref. rewrite Hp. cbn [mbind result_bind]. rewrite Hid, Hseq.
  by rewrite thread_done.
Qed.

(** Recording the fields of a node, the last step for an item. *)
Lemma record_inv s a b c k : inv s -> inv (mkT (tb s) (mods s) (record_fields a b c k (meta s))) /\
  grows s (mkT (tb s) (mods s) (record_fields a b c k (meta s))).
Proof.
  intros Hi. split; [|split; [done|]; unfold indexes; cbn [meta]; by rewrite record_indexes].
  destruct Hi as [H1 H2 H3 H4 H5 H6 H7]. split; try done.
  intros n (x & Hx & Hxt & <-)%record_threads Hs. cbn [mods tb]. apply H7; [done|by rewrite Hxt].
Qed.

Lemma deref_spec s p e0 : inv s -> ApplyStateTable.heap table !! p = Some e0 ->
  exists e, ApplyStateTable.deref p (tb s) = Ok e /\ upto txID lgr e0 e /\ ApplyStateTable.heap (tb s) !! p = Some e.
Proof.
  intros Hi Hp. pose proof (inv_heap s Hi p) as Hh. rewrite Hp in Hh.
  destruct (ApplyStateTable.heap (tb s) !! p) as [e|] eqn:He; inversion Hh; subst.
  exists e. unfold ApplyStateTable.deref. by rewrite He.
Qed.

Lemma affect_spec s k type e0 e : inv s -> has_place sfLedgerEntryType (fields e0) -> upto txID lgr e0 e ->
  exists s', affect k type e s = Ok s' /\ inv s' /\ grows s s' /\ k ∈ indexes s' /\ tb s' = tb s.
Proof.
  intros Hi Hp Hu. unfold affect.
  assert (Hty : exists ty, getFieldU16 sfLedgerEntryType (fields e) = Ok ty).
  { unfold getFieldU16, getField. assert (fields e !! sfLedgerEntryType = fields e0 !! sfLedgerEntryType) as ->.
    { destruct Hu as [->|[_ ->]]; [done|]. cbn. unfold stamp_fields. by rewrite !lookup_insert_ne. }
    unfold has_place in Hp. destruct (_ !! sfLedgerEntryType) as [[[]|]|]; try done; by eexists. }
  destruct Hty as [ty ->]. cbn [mbind result_bind]. eexists. split; [done|].
  destruct (inv_meta s (setAffectedNode k type ty (meta s)) k Hi (setAffectedNode_grow _ _ _ _)) as (H1 & H2 & H3); [|done].
  right. unfold setAffectedNode. cbn [mNodes set_nodes]. intros n Hin Hs.
  apply upsert_in in Hin as [?|[->|(x & Hx & _ & ->)]]; [by exists n|by destruct Hs|by exists x].
Qed.

(** Threading to an item itself, when its type is threaded. *)
Lemma thread_self s k p e0 e : inv s -> entry_ok txID e0 -> flagged k p -> sle_key e0 = k ->
  ApplyStateTable.heap table !! p = Some e0 -> upto txID lgr e0 e ->
  exists s', (if isThreadedType (fields e) then r ← threadItem (in_items p) s; Ok r.2 else Ok s) = Ok s' /\
    inv s' /\ grows s s' /\ (isThreadedType (fields e0) = true -> stamped_at s' k).
Proof.
  intros Hi [_ Hth] Hf Hk Hp Hu.
  assert (Hty : isThreadedType (fields e) = true -> threadable txID e0).
  { destruct Hu as [->|[? _]]; auto. }
  assert (Hty' : isThreadedType (fields e0) = true -> isThreadedType (fields e) = true).
  { destruct Hu as [->|[_ ->]]; [done|]. intros _. apply bool_decide_eq_true. cbn. unfold stamp_fields.
    rewrite lookup_insert_ne, lookup_insert_eq by done. by eexists. }
  destruct (isThreadedType (fields e)).
  - destruct (threadItem_spec s (in_items p) k e0 Hi) as (r & s' & -> & Hi' & Hg' & Hs'); [|done|].
    { split_and!; [done|by apply Hty|done|done]. }
    cbn [mbind result_bind snd]. by exists s'.
  - exists s. split_and!; [done..|]. by intros ?%Hty'.
Qed.

(** What the loop needs of an item, ... *)
Definition item_fits (k : Z) (a : ApplyStateTable.Action) (p : loc) : Prop :=
  exists e0, ApplyStateTable.heap table !! p = Some e0 /\ sle_key e0 = k /\ k <> 0 /\ entry_ok txID e0 /\
    match a with
    | ApplyStateTable.cache_ => True
    | ApplyStateTable.erase_ => exists o, contents base !! k = Some o /\ owner_fields o /\ Forall owner_ok (owners_of o)
    | ApplyStateTable.insert_ => contents base !! k = None /\ owner_fields e0 /\ Forall owner_ok (owners_of e0)
    | ApplyStateTable.modify_ => exists o, contents base !! k = Some o /\ entry_ok txID o
    end.

(** ... and what it leaves. *)
Definition item_done (s : T) (item : Z * (ApplyStateTable.Action * loc)) : Prop :=
  let '(k, (a, p)) := item in
  forall e0 o, ApplyStateTable.heap table !! p = Some e0 ->
    (a = ApplyStateTable.erase_ -> k ∈ indexes s) /\
    (a = ApplyStateTable.insert_ \/
     a = ApplyStateTable.modify_ /\ contents base !! k = Some o /\ object_eqb (fields e0) (fields o) = false ->
     k ∈ indexes s /\ (isThreadedType (fields e0) = true -> stamped_at s k)).

Lemma item_done_grows s s' item : grows s s' -> item_done s item -> item_done s' item.
Proof.
  destruct item as [k [a p]]. intros [Hg Hi] Hd e0 o Hp. destruct (Hd e0 o Hp) as [H1 H2].
  split; [auto|]. intros Hc. destruct (H2 Hc) as [H3 H4]. split; auto.
Qed.

Lemma erase_item_spec s k p : inv s -> items !! k = Some (ApplyStateTable.erase_, p) -> item_fits k ApplyStateTable.erase_ p ->
  exists s', meta_item base s (k, (ApplyStateTable.erase_, p)) = Ok s' /\ inv s' /\ grows s s' /\
    item_done s' (k, (ApplyStateTable.erase_, p)).
Proof.
  intros Hi Hit (e0 & Hp & Hk & Hk0 & Hok & o & Ho & Hof & Hown). cbn [meta_item].
  rewrite read_law by done. cbn [Keylet.key Keylet.unchecked]. rewrite Ho, Keylet.checked_any. cbn [mbind result_bind].
  destruct (deref_spec s p e0 Hi Hp) as (e & -> & Hu & _). cbn [mbind result_bind].
  destruct (affect_spec s k sfDeletedNode e0 e Hi (proj1 Hok) Hu) as (s1 & -> & Hi1 & Hg1 & Hk1 & _). cbn [mbind result_bind].
  unfold deleted_item. destruct (threadOwners_spec s1 o Hi1 Hof Hown) as (r & s2 & -> & Hi2 & Hg2). cbn [mbind result_bind snd].
  destruct (deref_spec s2 p e0 Hi2 Hp) as (e' & -> & _ & _). cbn [mbind result_bind].
  eexists. split; [done|]. destruct (record_inv s2 (nonempty (previous_fields (fields o) (fields e')))
    (nonempty (kept_fields (Z.lor sMD_Always sMD_DeleteFinal) (fields e'))) None k Hi2) as [Hi3 Hg3].
  split_and!; [done|by etrans; [|etrans]|]. intros e1 o1 _. split; [|by intros [?|[? _]]].
  intros _. by apply Hg3, Hg2.
Qed.

Lemma insert_item_spec s k p : inv s -> items !! k = Some (ApplyStateTable.insert_, p) -> item_fits k ApplyStateTable.insert_ p ->
  exists s', meta_item base s (k, (ApplyStateTable.insert_, p)) = Ok s' /\ inv s' /\ grows s s' /\
    item_done s' (k, (ApplyStateTable.insert_, p)).
Proof.
  intros Hi Hit (e0 & Hp & Hk & Hk0 & Hok & Ho & Hof & Hown). cbn [meta_item].
  rewrite read_law by done. cbn [Keylet.key Keylet.unchecked]. rewrite Ho, Keylet.checked_any. cbn [mbind result_bind].
  destruct (deref_spec s p e0 Hi Hp) as (e & -> & Hu & _). cbn [mbind result_bind].
  destruct (affect_spec s k sfCreatedNode e0 e Hi (proj1 Hok) Hu) as (s1 & -> & Hi1 & Hg1 & Hk1 & _). cbn [mbind result_bind].
  rewrite assert_true by done. cbn [mbind result_bind]. unfold created_item.
  assert (Hown' : owner_fields e /\ owners_of e = owners_of e0).
  { destruct Hu as [->|[_ ->]]; [done|]. unfold owner_fields, owners_of, acc_of, amt_of, has_place, stamp, stamp_fields in *.
    cbn [fields with_fields getType] in *. by rewrite !lookup_insert_ne. }
  destruct Hown' as [Hof' Heq]. rewrite <- Heq in Hown.
  destruct (threadOwners_spec s1 e Hi1 Hof' Hown) as (r & s2 & -> & Hi2 & Hg2). cbn [mbind result_bind snd].
  assert (Hfl : flagged k p) by (by exists ApplyStateTable.insert_).
  destruct (thread_self s2 k p e0 e Hi2 Hok Hfl Hk Hp Hu) as (s3 & -> & Hi3 & Hg3 & Hs3). cbn [mbind result_bind].
  destruct (deref_spec s3 p e0 Hi3 Hp) as (e' & -> & _ & _). cbn [mbind result_bind].
  eexists. split; [done|]. destruct (record_inv s3 None None (nonempty (new_fields (fields e'))) k Hi3) as [Hi4 Hg4].
  split_and!; [done|by etrans; [|etrans; [|etrans]]|]. intros e1 o1 Hp1. split; [done|].
  intros _. split; [by apply Hg4, Hg3, Hg2|]. rewrite Hp in Hp1. injection Hp1 as <-. intros Hty. by apply Hg4, Hs3.
Qed.

Lemma modify_item_spec s k p : inv s -> items !! k = Some (ApplyStateTable.modify_, p) -> item_fits k ApplyStateTable.modify_ p ->
  exists s', meta_item base s (k, (ApplyStateTable.modify_, p)) = Ok s' /\ inv s' /\ grows s s' /\
    item_done s' (k, (ApplyStateTable.modify_, p)).
Proof.
  intros Hi Hit (e0 & Hp & Hk & Hk0 & Hok & o & Ho & Hoo). cbn [meta_item].
  rewrite read_law by done. cbn [Keylet.key Keylet.unchecked]. rewrite Ho, Keylet.checked_any. cbn [mbind result_bind].
  destruct (deref_spec s p e0 Hi Hp) as (e & -> & Hu & _). cbn [mbind result_bind].
  destruct (object_eqb (fields e) (fields o)) eqn:Heq.
  - exists s. split_and!; [done..|]. intros e1 o1 Hp1. split; [done|]. rewrite Hp in Hp1. injection Hp1 as <-.
    intros [?|(_ & Ho1 & Hne)]; [done|]. rewrite Ho in Ho1. injection Ho1 as <-.
    destruct Hu as [->|[_ ->]]; [congruence|]. rewrite stamped_differs with (txID := txID) (lgr := lgr) in Heq; [done|apply stamp_stamped|].
    intros Hx. assert (isThreadedType (fields o) = true) as Hty by (apply bool_decide_eq_true; by eexists).
    destruct (proj2 Hoo Hty) as (_ & _ & _ & Hn). unfold h256_of in Hn. by rewrite Hx in Hn.
  - destruct (affect_spec s k sfModifiedNode e0 e Hi (proj1 Hok) Hu) as (s1 & -> & Hi1 & Hg1 & Hk1 & _). cbn [mbind result_bind].
    unfold modified_item. assert (Hfl : flagged k p) by (by exists ApplyStateTable.modify_).
    destruct (thread_self s1 k p e0 e Hi1 Hok Hfl Hk Hp Hu) as (s3 & -> & Hi3 & Hg3 & Hs3). cbn [mbind result_bind].
    destruct (deref_spec s3 p e0 Hi3 Hp) as (e' & -> & _ & _). cbn [mbind result_bind].
    eexists. split; [done|]. destruct (record_inv s3 (nonempty (previous_fields (fields o) (fields e')))
      (nonempty (kept_fields (Z.lor sMD_Always sMD_ChangeNew) (fields e'))) None k Hi3) as [Hi4 Hg4].
    split_and!; [done|by etrans; [|etrans]|]. intros e1 o1 Hp1. split; [done|].
    intros _. split; [by apply Hg4, Hg3|]. rewrite Hp in Hp1. injection Hp1 as <-. intros Hty. by apply Hg4, Hs3.
Qed.

Context (Hfits : forall k a p, items !! k = Some (a, p) -> item_fits k a p).

Lemma meta_item_spec s k a p : inv s -> items !! k = Some (a, p) ->
  exists s', meta_item base s (k, (a, p)) = Ok s' /\ inv s' /\ grows s s' /\ item_done s' (k, (a, p)).
Proof.
  intros Hi Hit. pose proof (Hfits k a p Hit) as Hf. destruct a.
  - exists s. split_and!; [done..|]. intros e0 o _. by split; [|intros [?|[? _]]].
  - by apply erase_item_spec.
  - by apply insert_item_spec.
  - by apply modify_item_spec.
Qed.

Lemma meta_loop_spec l : forall s, inv s -> (forall k it, (k, it) ∈ l -> items !! k = Some it) ->
  exists s', foldM (meta_item base) s l = Ok s' /\ inv s' /\ grows s s' /\ forall it, it ∈ l -> item_done s' it.
Proof.
  induction l as [|[k [a p]] l IH]; intros s Hi Hin.
  { exists s. split_and!; [done..|]. by intros it ?%elem_of_nil. }
  destruct (meta_item_spec s k a p Hi (Hin k _ ltac:(by left))) as (s1 & Hs1 & Hi1 & Hg1 & Hd1).
  destruct (IH s1 Hi1) as (s2 & Hs2 & Hi2 & Hg2 & Hd2); [intros; apply Hin; by right|].
  exists s2. cbn [foldM]. rewrite Hs1. cbn [mbind result_bind]. split_and!; [done|done|by etrans|].
  intros it [->|Hit]%elem_of_cons; [by eapply item_done_grows|auto].
Qed.

Lemma build_spec delivered : exists s,
  foldM (meta_item base) (mkT table ∅ (setDeliveredAmount delivered (init txID lgr))) (Ordered.in_order items) = Ok s /\
  inv s /\ forall k it, items !! k = Some it -> item_done s (k, it).
Proof.
  destruct (meta_loop_spec (Ordered.in_order items) (mkT table ∅ (setDeliveredAmount delivered (init txID lgr))))
    as (s & Hs & Hi & _ & Hd).
  - split; try done. intros p. cbn. destruct (ApplyStateTable.heap table !! p); constructor. by left.
    intros n Hn. by apply elem_of_nil in Hn.
  - intros k it. apply Ordered.elem_of_in_order.
  - exists s. split_and!; [done|done|]. intros k it Hit. by apply Hd, Ordered.elem_of_in_order.
Qed.

(** What the changed owners and the threaded table show. *)
Definition outcome (s : T) : gmap Z Entry :=
  StateTable.overlay (ApplyStateTable.eff_applied (ApplyStateTable.heap (tb s))) items
    (StateTable.overlay (fun e => Some (Some e)) (mods s) (contents base)).

(** What the view of the transaction shows. *)
Definition shown0 : gmap Z Entry :=
  StateTable.overlay (ApplyStateTable.eff (ApplyStateTable.heap table)) items (contents base).

Lemma outcome_upto s k : inv s -> ApplyStateTable.ok (contents base) table ->
  ApplyStateTable.clean ApplyStateTable.none (contents base) table ->
  option_Forall2 (upto txID lgr) (shown0 !! k) (outcome s !! k).
Proof.
  intros Hi Hok Hc. unfold outcome, shown0. rewrite !StateTable.lookup_overlay.
  assert (Hm : option_Forall2 (upto txID lgr) (contents base !! k)
    match mods s !! k with Some e => Some e | None => contents base !! k end).
  { destruct (mods s !! k) as [e|] eqn:He; [destruct (inv_mods s Hi k e He) as (e0 & -> & Hu & _); by constructor|].
    destruct (contents base !! k); constructor. by left. }
  destruct (items !! k) as [[[] p]|] eqn:Hit; cbn [ApplyStateTable.eff ApplyStateTable.eff_applied]; [| | | |done].
  - assert (Hcl : ApplyStateTable.heap table !! p = contents base !! k) by (exact (Hc k p (fun f => f) Hit)). rewrite Hcl.
    by destruct (mods s !! k).
  - constructor.
  - apply (inv_heap s Hi).
  - apply (inv_heap s Hi).
Qed.

Lemma outcome_stamped s k e : inv s -> stamped_at s k -> outcome s !! k = Some e -> stamped txID lgr e.
Proof.
  intros Hi Hs. unfold outcome. rewrite !StateTable.lookup_overlay.
  destruct Hs as [(e' & He & Hs)|(p & e' & (a & Hit & Ha) & He & Hs)].
  - destruct (inv_mods s Hi k e' He) as (_ & _ & _ & Hun). rewrite He.
    destruct (items !! k) as [[a p]|] eqn:Hit; [|by intros [= <-]].
    destruct a; [by intros [= <-]|destruct (Hun p); by eexists..].
  - rewrite Hit. destruct a; cbn; [done|done|rewrite He; by intros [= <-]..].
Qed.

End threading.

(** An object matches itself. *)
Lemma field_eqb_refl x : field_eqb x x = true.
Proof.
  destruct x as [v|]; [|done]. cbn. destruct v; cbn; try by apply bool_decide_eq_true.
  - unfold STAmount.eqb, STAmount.areComparable. by rewrite !Bool.eqb_reflx, !Z.eqb_refl.
  - induction v as [|i l IH]; [done|]. cbn. by rewrite bool_decide_eq_true_2, IH.
Qed.

Lemma object_eqb_refl o : object_eqb o o = true.
Proof.
  unfold object_eqb. rewrite Nat.eqb_refl, andb_true_r. apply forallb_forall. intros [f x] Hin.
  apply list_elem_of_In, elem_of_map_to_list, map_lookup_filter_Some in Hin as [Hf _]. cbn.
  unfold hasMatchingEntry. rewrite Hf. apply field_eqb_refl.
Qed.

Section applied.
Context `{Build} {SHA : SHA512Half} {SL : SHA512HalfLaws SHA} {V : Type} {RV : ReadView STObject V}.
Context {VM : ViewModel STObject V} {RL : ReadViewLaws STObject V}.
Context (addRaw : TxMeta.t -> list Z).

Abbreviation Target := (OpenView.t STObject V).

(** Raw changes leave the transactions and the header of an open view alone. *)
Definition same_txs (v v' : Target) : Prop :=
  OpenView.txs_ v' = OpenView.txs_ v /\ OpenView.info_ v' = OpenView.info_ v.

Lemma with_items_txs (v v' : Target) r : OpenView.with_items v r = Ok v' -> same_txs v v'.
Proof. unfold OpenView.with_items. destruct r; cbn; [|done..]. by intros [= <-]. Qed.

Lemma foldM_txs {A} (f : Target -> A -> result Target) l :
  (forall v v' x, f v x = Ok v' -> same_txs v v') -> forall v v', foldM f v l = Ok v' -> same_txs v v'.
Proof.
  intros Hf. induction l as [|x l IH]; intros v v'; cbn [foldM]; [by intros [= <-]|].
  destruct (f v x) as [v1| |] eqn:Hx; cbn; [|done..]. intros Hl. apply Hf in Hx as [H1 H2].
  apply IH in Hl as [H3 H4]. split; congruence.
Qed.

Lemma apply_txs (table : ApplyStateTable.t STObject) (v v' : Target) :
  ApplyStateTable.apply table v = Ok v' -> same_txs v v'.
Proof.
  unfold ApplyStateTable.apply. intros Hf. apply foldM_txs in Hf; [done|].
  intros w w' [k [a p]]. unfold ApplyStateTable.apply_item.
  destruct a; [by intros [= <-]|..]; destruct (ApplyStateTable.deref p table); cbn; try done; apply with_items_txs.
Qed.

Lemma mods_spec (to : Target) (mods_ : gmap Z Entry) : good to ->
  (forall k e, mods_ !! k = Some e -> sle_key e = k /\ is_Some (contents to !! k)) ->
  exists to', foldM (fun to mod_ => rawReplace to mod_.2) to (Ordered.in_order mods_) = Ok to' /\ good to' /\
    contents to' = StateTable.overlay (fun e => Some (Some e)) mods_ (contents to) /\ supply to' = supply to /\
    same_txs to to'.
Proof.
  intros Hg Hm. destruct (StateTable.apply_items_spec (fun e => Some (Some e))
    (fun (to : Target) (mod_ : Z * Entry) => rawReplace to mod_.2) mods_ (contents to)) with (to := to) as (to' & Hf & Hg' & Hc & Hs); [|done|done|].
  - intros v k e He Hgv Hck. destruct (Hm k e He) as [<- [o Ho]]. cbn [snd].
    apply (rawReplace_law v e o); [done|]. by rewrite Hck.
  - exists to'. split_and!; [done..|]. eapply foldM_txs; [|exact Hf]. intros v v' x. apply with_items_txs.
Qed.

(** The entries of a ledger that a transaction changes from [m] to [m']: every
    one has the fields of its type, and the owners of those that come or go are
    accounts that can be threaded. *)
Record ledger_fits (txID : Z) (m m' : gmap Z Entry) : Prop := {
  fits_before k e : m !! k = Some e -> entry_ok txID e /\ owner_fields e;
  fits_after k e : m' !! k = Some e -> entry_ok txID e /\ owner_fields e;
  fits_owners k e a : m !! k = None /\ m' !! k = Some e \/ m !! k = Some e /\ m' !! k = None ->
    a ∈ owners_of e -> exists r, m' !! getAccountRootIndex a = Some r /\ threadable txID r }.

Lemma owner_found txID (to : Target) table a r : good to -> ApplyStateTable.ok (contents to) table ->
  ApplyStateTable.clean ApplyStateTable.none (contents to) table ->
  shown0 to table !! getAccountRootIndex a = Some r -> threadable txID r -> owner_ok txID to table a.
Proof.
  intros Hg [Hok _] Hc Hr Ht. unfold shown0 in Hr. rewrite StateTable.lookup_overlay in Hr. exists r. split; [done|].
  destruct (ApplyStateTable.items_ table !! getAccountRootIndex a) as [[act p]|] eqn:Hit.
  - destruct (Hok _ _ Hit) as ((s & Hp & Hk) & _ & _). cbn [snd] in Hp.
    assert (Hcl : act = ApplyStateTable.cache_ -> contents to !! getAccountRootIndex a = ApplyStateTable.heap table !! p).
    { intros ->. symmetry. exact (Hc _ p (fun f => f) Hit). }
    assert (r = s) as -> by (destruct act; cbn in Hr; congruence). split; [done|].
    destruct act; [right; split; [intros p' (a' & Ha' & Hne); congruence|rewrite (Hcl eq_refl); congruence]|done|left..];
      exists p; eexists; (split; [done|]); (split; [auto|congruence]).
  - split; [by apply (good_keys _ _ _ Hg Hr)|]. right. split; [|done]. intros p (a' & Ha' & _). congruence.
Qed.

Lemma items_fit txID (to : Target) table : good to -> ApplyStateTable.ok (contents to) table ->
  ApplyStateTable.clean ApplyStateTable.none (contents to) table ->
  (forall k p e, ApplyStateTable.items_ table !! k = Some (ApplyStateTable.erase_, p) ->
     ApplyStateTable.heap table !! p = Some e -> entry_ok txID e) ->
  ledger_fits txID (contents to) (shown0 to table) ->
  forall k a p, ApplyStateTable.items_ table !! k = Some (a, p) -> item_fits txID to table k a p.
Proof.
  intros Hg Hok Hc Hh [Hb Ha Ho] k a p Hit. destruct (proj1 Hok _ _ Hit) as ((e & Hp & Hk) & Hk0 & Hm). cbn [fst snd] in *.
  assert (Hown : forall o, (contents to !! k = None /\ shown0 to table !! k = Some o \/
    contents to !! k = Some o /\ shown0 to table !! k = None) -> Forall (owner_ok txID to table) (owners_of o)).
  { intros o Hco. apply list.Forall_forall. intros b Hin. destruct (Ho k o b Hco Hin) as (r & Hr & Ht).
    by eapply owner_found. }
  assert (Hsh : shown0 to table !! k = match a with ApplyStateTable.erase_ => None | _ => Some e end).
  { unfold shown0. rewrite StateTable.lookup_overlay, Hit. by destruct a. }
  assert (He : entry_ok txID e).
  { destruct a; [|by eapply Hh|by apply (Ha k)..]. apply (Hb k). by rewrite <- (Hc k p (fun f => f) Hit). }
  exists e. split_and!; [done|done|done|done|]. destruct a; [done|..].
  - destruct Hm as [o Hm]. exists o. split_and!; [done|by apply (Hb k)|]. apply Hown. by right.
  - split_and!; [done|by apply (Ha k)|]. apply Hown. by left.
  - destruct Hm as [o Hm]. exists o. split; [done|by apply (Hb k)].
Qed.

(** Whether an entry comes, goes or gets other fields. *)
Definition changes (m m' : gmap Z Entry) (k : Z) : Prop :=
  match m !! k, m' !! k with
  | None, None => False
  | Some o, Some e => object_eqb (fields e) (fields o) = false
  | _, _ => True
  end.

Lemma changes_done txID lgr (to : Target) table s k : inv txID lgr to table s ->
  ApplyStateTable.ok (contents to) table -> ApplyStateTable.clean ApplyStateTable.none (contents to) table ->
  (forall k it, ApplyStateTable.items_ table !! k = Some it -> item_done txID lgr to table s (k, it)) ->
  changes (contents to) (shown0 to table) k ->
  k ∈ indexes s /\ forall e, shown0 to table !! k = Some e -> isThreadedType (fields e) = true -> stamped_at txID lgr table s k.
Proof.
  intros Hi [Hok _] Hc Hd. unfold changes. rewrite (StateTable.lookup_overlay _ _ _ k : shown0 to table !! k = _).
  destruct (ApplyStateTable.items_ table !! k) as [[a p]|] eqn:Hit.
  2: { destruct (contents to !! k) as [o|]; [by rewrite object_eqb_refl|done]. }
  destruct (Hok _ _ Hit) as ((e0 & Hp & Hk) & _ & Hm). cbn [fst snd] in *.
  destruct a; cbn [ApplyStateTable.eff]; rewrite ?Hp.
  - rewrite (Hc k p (fun f => f) Hit : _ = contents to !! k) in Hp. rewrite Hp. by rewrite object_eqb_refl.
  - destruct (Hd k _ Hit e0 e0 Hp) as [Hx _]. intros _. split; [by apply Hx|done].
  - destruct (Hd k _ Hit e0 e0 Hp) as [_ Hx]. intros _. destruct (Hx (or_introl eq_refl)) as [? ?]. split; [done|]. by intros e [= <-].
  - destruct Hm as [o Ho]. rewrite Ho. intros Hne. destruct (Hd k _ Hit e0 o Hp) as [_ Hx].
    destruct (Hx (or_intror (conj eq_refl (conj Ho Hne)))) as [? ?]. split; [done|]. by intros e [= <-].
Qed.

Lemma TER_code_le ter : TER_code ter <= 255.
Proof. by destruct ter. Qed.

Lemma finish_meta_spec ter index m : TER_code ter = 0 \/ 100 < TER_code ter -> exists md,
  finish_meta ter index m = Ok md /\ mResult md = TER_code ter /\ mIndex md = index /\
  StronglySorted node_le (mNodes md) /\ mNodes md ≡ₚ mNodes m.
Proof.
  intros Ht. unfold finish_meta. rewrite assert_true.
  - eexists. split; [done|]. split_and!; [done|done| |apply merge_sort_Permutation].
    apply StronglySorted_merge_sort; [intros x y z; unfold node_le; lia|intros x y; unfold node_le; lia].
  - pose proof (TER_code_le ter). apply orb_true_iff. rewrite andb_true_iff, Z.eqb_eq, Z.ltb_lt, Z.leb_le. lia.
Qed.

Lemma apply_tx_spec (v : ApplyView.t STObject Target) txID txn ter deliver :
  let to := ApplyView.base_ v in
  let lgr := seq (OpenView.info_ to) in
  good v -> isOpen (OpenView.info_ to) = false -> OpenView.txs_ to !! txID = None ->
  TER_code ter = 0 \/ 100 < TER_code ter ->
  (forall k p e, ApplyStateTable.items_ (ApplyView.items_ v) !! k = Some (ApplyStateTable.erase_, p) ->
     ApplyStateTable.heap (ApplyView.items_ v) !! p = Some e -> entry_ok txID e) ->
  ledger_fits txID (contents to) (contents v) ->
  exists to' md, apply_tx addRaw to txID txn ter deliver (ApplyView.items_ v) = Ok to' /\
    good to' /\ supply to' = supply v /\
    (forall k, option_Forall2 (upto txID lgr) (contents v !! k) (contents to' !! k)) /\
    (forall k, changes (contents to) (contents v) k -> k ∈ n_index <$> mNodes md /\
       forall e, contents to' !! k = Some e -> isThreadedType (fields e) = true -> stamped txID lgr e) /\
    OpenView.txs_ to' = <[txID := (txn, Some (addRaw md))]> (OpenView.txs_ to) /\
    OpenView.info_ to' = OpenView.info_ to /\
    mResult md = TER_code ter /\ StronglySorted node_le (mNodes md).
Proof.
  intros to lgr (Hg & [Hok Hc]) Hcl Htx Hter Hheap Hfit.
  set (table := ApplyView.items_ v) in *. change (contents v) with (shown0 to table) in *.
  destruct (build_spec txID lgr to table Hg (items_fit txID to table Hg Hok Hc Hheap Hfit) deliver) as (s & Hs & Hi & Hd).
  unfold apply_tx. change (View.vinfo to) with (OpenView.info_ to). rewrite Hcl. cbn [negb].
  unfold build_meta. change (seq (View.vinfo to)) with lgr. rewrite Hs. cbn [mbind result_bind].
  assert (Hmk : forall k e, mods s !! k = Some e -> sle_key e = k /\ is_Some (contents to !! k)).
  { intros k e He. destruct (inv_mods _ _ _ _ s Hi k e He) as (e0 & Hb & Hu & _). split; [|by eexists].
    rewrite (upto_key _ _ _ _ Hu). by apply (good_keys _ _ _ Hg Hb). }
  destruct (mods_spec to (mods s) Hg Hmk) as (to1 & -> & Hg1 & Hc1 & Hs1 & Ht1 & Hi1). cbn [mbind result_bind].
  destruct (finish_meta_spec ter (OpenView.txCount to1) (meta s) Hter) as (md & -> & Hr & _ & Hsort & Hperm). cbn [mbind result_bind].
  cbn [rawTxInsert OpenView.TxsRawView_OpenView]. unfold OpenView.raw_tx_insert. rewrite Ht1, Htx. cbn [mbind result_bind].
  set (to2 := OpenView.mk _ (OpenView.info_ to1) (OpenView.base_ to1) (OpenView.items_ to1)).
  assert (Hg2 : good to2 /\ contents to2 = contents to1 /\ supply to2 = supply to1) by done. destruct Hg2 as (Hg2 & Hc2 & Hs2).
  assert (Hok2 : ApplyStateTable.ok (contents to2) (tb s)).
  { destruct Hok as [Hok [Hd1 Hd2]]. split; [|by destruct (inv_drops _ _ _ _ s Hi) as [-> ->]].
    rewrite (inv_items _ _ _ _ s Hi). intros k [a p] Hit. destruct (Hok _ _ Hit) as ((e & Hp & Hk) & Hk0 & Hm). cbn [fst snd] in *.
    split_and!; [|done|].
    - destruct (deref_spec txID lgr to table s p e Hi Hp) as (e' & _ & Hu & He'). exists e'. split; [done|]. by rewrite (upto_key _ _ _ _ Hu).
    - cbn [fst snd]. rewrite Hc2, Hc1, StateTable.lookup_overlay. destruct (mods s !! k) as [e'|] eqn:He; [|done].
      destruct a; [by eexists..| |by eexists]. destruct (inv_mods _ _ _ _ s Hi k e' He) as (e0 & Hb & _). pose proof (eq_trans (eq_sym Hb) Hm) as Hne. done. }
  destruct (ApplyStateTable.apply_spec (contents to2) (tb s) to2 Hok2 Hg2 eq_refl) as (to' & Ha & Hg' & Hc' & Hs').
  destruct (apply_txs (tb s) to2 to' Ha) as [Ht' Hi'].
  assert (Hout : contents to' = outcome to table s).
  { rewrite Hc', Hc2, Hc1, (inv_items _ _ _ _ s Hi). done. }
  exists to', md. split_and!; [done|done| | | |by rewrite Ht'|by rewrite Hi'|done|done].
  - rewrite Hs', Hs2, Hs1. unfold ApplyStateTable.drops_after. by destruct (inv_drops _ _ _ _ s Hi) as [-> ->].
  - intros k. rewrite Hout. by apply outcome_upto.
  - intros k Hch. destruct (changes_done txID lgr to table s k Hi Hok Hc Hd Hch) as [Hk Hst].
    split; [by rewrite Hperm|]. intros e He Hty. rewrite Hout in He. apply (outcome_stamped txID lgr to table s k e Hi); [|done].
    pose proof (outcome_upto txID lgr to table s k Hi Hok Hc) as Hu. rewrite He in Hu.
    destruct (shown0 to table !! k) as [e0|] eqn:He0; [|by inversion Hu].
    apply (Hst e0 eq_refl). inversion Hu as [? ? Hue|]; subst. destruct Hue as [->|[(Hp & _) _]]; [done|].
    apply bool_decide_eq_true. unfold has_place in Hp. by destruct (fields e0 !! sfPreviousTxnID).
Qed.

(** C27: a transaction applied to a ledger leaves what its view shows, and
    threads.  For a view over a closed ledger whose entries have the fields of
    their types, and whose owners exist, applying the view with its transaction
    succeeds; the ledger then shows every entry the view shows, at most with the
    transaction's identity and the ledger's index as its last transaction, and
    accounts for the same drops; every entry that came, went or got other fields
    is a node of the metadata, and names the transaction if its type can; the
    transaction is recorded with its result and the nodes ordered by index. *)
Theorem apply_tx_threads (v : ApplyView.t STObject Target) txID txn ter deliver :
  let to := ApplyView.base_ v in
  let lgr := seq (OpenView.info_ to) in
  good v -> isOpen (OpenView.info_ to) = false -> OpenView.txs_ to !! txID = None ->
  TER_code ter = 0 \/ 100 < TER_code ter ->
  (forall k p e, ApplyStateTable.items_ (ApplyView.items_ v) !! k = Some (ApplyStateTable.erase_, p) ->
     ApplyStateTable.heap (ApplyView.items_ v) !! p = Some e -> entry_ok txID e) ->
  ledger_fits txID (contents to) (contents v) ->
  exists to' md, apply_tx addRaw to txID txn ter deliver (ApplyView.items_ v) = Ok to' /\
    good to' /\ supply to' = supply v /\
    (forall k, option_Forall2 (upto txID lgr) (contents v !! k) (contents to' !! k)) /\
    (forall k, changes (contents to) (contents v) k -> k ∈ n_index <$> mNodes md /\
       forall e, contents to' !! k = Some e -> isThreadedType (fields e) = true -> stamped txID lgr e) /\
    OpenView.txs_ to' = <[txID := (txn, Some (addRaw md))]> (OpenView.txs_ to) /\
    OpenView.info_ to' = OpenView.info_ to /\
    mResult md = TER_code ter /\ StronglySorted node_le (mNodes md).
Proof. apply apply_tx_spec. Qed.

End applied.

(** ** An example: 7 pays 9, in a ledger that is being closed *)

(** The entries of a map, one by one. *)
Lemma all_entries (P : Entry -> Prop) (check : Entry -> bool) (m : gmap Z Entry) :
  (forall e, check e = true -> P e) -> forallb (fun x => check x.2) (map_to_list m) = true ->
  forall k e, m !! k = Some e -> P e.
Proof.
  intros Hc Hall k e He. apply Hc. rewrite forallb_forall in Hall. apply (Hall (k, e)).
  by apply list_elem_of_In, elem_of_map_to_list.
Qed.

Module Examples.
Import Transfers Transfers.Examples.

Definition place (f : SField) (o : STObject) : bool :=
  match o !! f with Some (Some v) => getSType v =? fieldType f | Some None => true | None => false end.

Lemma place_ok f o : place f o = true -> has_place f o.
Proof. unfold place, has_place. destruct (o !! f) as [[v|]|]; [by intros ?%Z.eqb_eq|done|done]. Qed.

(** An account root that can be threaded. *)
Definition simple (txID : Z) (e : Entry) : bool :=
  place sfPreviousTxnID (fields e) && place sfPreviousTxnLgrSeq (fields e) && place sfLedgerEntryType (fields e) &&
  negb (h256_of sfPreviousTxnID (fields e) =? txID) && place sfAccount (fields e) && (getType e =? Keylet.ltACCOUNT_ROOT).

Lemma simple_ok txID e : simple txID e = true -> entry_ok txID e /\ owner_fields e /\ owners_of e = [].
Proof.
  intros Hp. repeat (apply andb_true_iff in Hp as [Hp ?]). apply Z.eqb_eq in H. apply negb_true_iff, Z.eqb_neq in H1.
  split_and!.
  - split; [by apply place_ok|]. intros _. split_and!; [by apply place_ok..|done].
  - split; [intros _; by apply place_ok|]. by rewrite H.
  - unfold owners_of. by rewrite H.
Qed.

Definition closing : OpenView.t STObject (Ledger.t STObject) :=
  OpenView.mk ∅ (mkInfo false 12 0 0 0 0 0 0 false false 0 0 0) ledger79 RawStateTable.empty.

Lemma closing_good : good closing.
Proof. apply (OpenView.open_make_good ledger79 ledger79_good). Qed.

Definition paid : ApplyView.t STObject (OpenView.t STObject (Ledger.t STObject)) :=
  match transferXRP 7 9 (xrp 30) (mkSt (ApplyView.make closing) []) with
  | Ok (_, s) => av s
  | _ => ApplyView.make closing
  end.

Lemma paid_good : good paid.
Proof.
  destruct (ApplyView.make_good closing closing_good) as [Hg Hc].
  destruct (transferXRP_spec (mkSt (ApplyView.make closing) []) 7 9 30 100 5 (account_of 7 100) (account_of 9 5) Hg
           (id_small 7 ltac:(lia)) (id_small 9 ltac:(lia))) as (r & s' & Hr & Hg' & _);
    [done|done|done|by vm_compute|by vm_compute| | |].
  - split; [vm_compute; reflexivity|]. split; [vm_compute; reflexivity|]. by split; vm_compute.
  - split; [vm_compute; reflexivity|]. split; [vm_compute; reflexivity|]. by split; vm_compute.
  - unfold paid. by rewrite Hr.
Qed.

Lemma apply_tx_threads_witness : exists to' md,
  apply_tx (fun _ => []) closing 5 [1; 2] tesSUCCESS None (ApplyView.items_ paid) = Ok to' /\
  (forall k, changes (contents closing) (contents paid) k -> k ∈ n_index <$> mNodes md) /\
  changes (contents closing) (contents paid) (getAccountRootIndex 9).
Proof.
  assert (Hb : ApplyView.base_ paid = closing) by (by vm_compute).
  destruct (apply_tx_threads (fun _ => []) paid 5 [1; 2] tesSUCCESS None) as (to' & md & Ha & _ & _ & _ & Hch & _).
  - apply paid_good.
  - by rewrite Hb.
  - by rewrite Hb.
  - by left.
  - intros k p e _. apply (all_entries (entry_ok 5) (simple 5)); [by intros e' (? & _)%simple_ok|by vm_compute].
  - assert (H1 : forallb (fun x => simple 5 x.2) (map_to_list (contents (ApplyView.base_ paid))) = true) by (by vm_compute).
    assert (H2 : forallb (fun x => simple 5 x.2) (map_to_list (contents paid)) = true) by (by vm_compute).
    pose proof (all_entries _ (simple 5) _ (simple_ok 5) H1) as HP1. pose proof (all_entries _ (simple 5) _ (simple_ok 5) H2) as HP2.
    clear H1 H2. split.
    + intros k e He. destruct (HP1 k e He) as (Ho & Hf & _). exact (conj Ho Hf).
    + intros k e He. destruct (HP2 k e He) as (Ho & Hf & _). exact (conj Ho Hf).
    + intros k e a Hor Hin. assert (owners_of e = []) as Hnil.
      { destruct Hor as [[_ He]|[He _]]; [apply (HP2 k e He)|apply (HP1 k e He)]. }
      rewrite Hnil in Hin. destruct (not_elem_of_nil _ Hin).
  - rewrite Hb in *. exists to', md. split_and!; [done|intros k Hk; by apply Hch|]. by vm_compute.
Defined.

End Examples.

End Threading.
