(* ===== verification/Transactor.v ===== *)
(** * The transactor

    What every transaction goes through ([Transactor] of app/tx/impl/Transactor.h
    and Transactor.cpp): the checks of its form, its signature, its sequence
    number and its fee against the account root, the work of its own type, and
    the decision of what reaches the ledger ([operator()]): everything, only the
    fee and the sequence number, or nothing.  The type of a transaction overrides
    some of the steps; a [Processor] lists them.  Verification of a single
    signature, the account of a key and the serializations are parameters. *)

From stdpp Require Import base tactics numbers list strings gmap sorting option.
From S2P Require Import Prelude Decimal IOUAmount BigNum Serializer STAmount.
From S2P Require Import View StateTable ApplyStateTable Fields Indexes PaymentSandbox ViewOps.
From S2P Require Import TrustLines Change LoadFeeTrack MultiSign TxMeta.

Module Transactor.
Import Fields Indexes ViewOps TrustLines Change MultiSign.

(** ** The context *)

(** [ApplyFlags]. *)
Definition tapNO_CHECK_SIGN : Z := 0x01.
Definition tapENABLE_TESTING : Z := 0x02.
Definition tapRETRY : Z := 0x20.
Definition tapADMIN : Z := 0x400.

(** [STTx::sig_state_]. *)
Inductive SigState := sig_indeterminate | sig_good | sig_bad.

#[export] Instance SigState_eq_dec : EqDecision SigState.
Proof. solve_decision. Defined.

(** [ApplyContext] without its view, and the server's state a transactor reads:
    the transaction with its identity, serialization and signers, the flags, the
    fees of the ledger, [TRANSACTION_FEE_BASE], the load fees, the build option
    [RIPPLE_ENABLE_MULTI_SIGN], and the parameters. *)
Record Ctx := mkCtx {
  tx : STTx; txID : Z; txn : list Z; multiSigners : option (list SigningFor);
  flags : Z; fees : Fees; feeBase : Z; track : LoadFeeTrack.t; enableMultiSign : bool;
  verifySingle : STTx -> bool; verifyMulti : Z -> SigningAccount -> bool;
  calcAccountID : list Z -> Z; addRaw : TxMeta.t -> list Z }.

Definition tx_o (c : Ctx) : STObject := tx_fields (tx c).

(** The members; [extra] are those of the derived class. *)
Record Members (X : Type) := mkMem {
  account_ : Z; mFeeDue : STAmount.t; mPriorBalance : STAmount.t; mSourceBalance : STAmount.t;
  mHasAuthKey : bool; mSigMaster : bool; mSigningPubKey : list Z; sig_state : SigState; extra : X }.
Arguments mkMem {X}.
Arguments account_ {X}. Arguments mFeeDue {X}. Arguments mPriorBalance {X}. Arguments mSourceBalance {X}.
Arguments mHasAuthKey {X}. Arguments mSigMaster {X}. Arguments mSigningPubKey {X}. Arguments sig_state {X}.
Arguments extra {X}.

Section members.
Context {X : Type}.
Implicit Types m : Members X.

Definition set_account (a : Z) m := mkMem a (mFeeDue m) (mPriorBalance m) (mSourceBalance m)
  (mHasAuthKey m) (mSigMaster m) (mSigningPubKey m) (sig_state m) (extra m).
Definition set_feeDue (d : STAmount.t) m := mkMem (account_ m) d (mPriorBalance m) (mSourceBalance m)
  (mHasAuthKey m) (mSigMaster m) (mSigningPubKey m) (sig_state m) (extra m).
Definition set_balances (prior source : STAmount.t) m := mkMem (account_ m) (mFeeDue m) prior source
  (mHasAuthKey m) (mSigMaster m) (mSigningPubKey m) (sig_state m) (extra m).
Definition set_authKey (b : bool) m := mkMem (account_ m) (mFeeDue m) (mPriorBalance m) (mSourceBalance m)
  b (mSigMaster m) (mSigningPubKey m) (sig_state m) (extra m).
Definition set_sigMaster (b : bool) m := mkMem (account_ m) (mFeeDue m) (mPriorBalance m) (mSourceBalance m)
  (mHasAuthKey m) b (mSigningPubKey m) (sig_state m) (extra m).
Definition set_key (k : list Z) m := mkMem (account_ m) (mFeeDue m) (mPriorBalance m) (mSourceBalance m)
  (mHasAuthKey m) (mSigMaster m) k (sig_state m) (extra m).
Definition set_sig (s : SigState) m := mkMem (account_ m) (mFeeDue m) (mPriorBalance m) (mSourceBalance m)
  (mHasAuthKey m) (mSigMaster m) (mSigningPubKey m) s (extra m).
Definition set_extra (x : X) m := mkMem (account_ m) (mFeeDue m) (mPriorBalance m) (mSourceBalance m)
  (mHasAuthKey m) (mSigMaster m) (mSigningPubKey m) (sig_state m) x.

(** The constructor; the balances are set before they are read. *)
Definition initial (sig : SigState) (x : X) : Members X :=
  mkMem 0 amount0 amount0 amount0 false false [] sig x.

End members.

(** What the work of a transaction does besides changing the view: the amount a
    payment delivered, and the amendment to enable in the server's table. *)
Record Effects := mkEffects { delivered : option STAmount.t; enables : option Z }.
Definition no_effects : Effects := mkEffects None None.

(** ** The checks before the ledger is read *)

(** [STTx::checkSign]. *)
Definition tx_checkSingleSign (c : Ctx) : bool :=
  match multiSigners c with Some _ => false | None => verifySingle c (tx c) end.
Definition tx_checkSign (c : Ctx) (allowMultiSign : bool) (sig : SigState) : bool :=
  match sig with
  | sig_good => true
  | sig_bad => false
  | sig_indeterminate =>
      if allowMultiSign then
        match getFieldVL sfSigningPubKey (tx_o c), getAccountID sfAccount (tx_o c) with
        | Ok [], Ok account => tx_checkMultiSign (verifyMulti c) account (multiSigners c)
        | Ok (_ :: _), _ => tx_checkSingleSign c
        | _, _ => false
        end
      else tx_checkSingleSign c
  end.

(** Whether multi-signing is built in, or enabled for testing. *)
Definition multi_enabled (c : Ctx) : bool := enableMultiSign c || has (flags c) tapENABLE_TESTING.

Section pre.
Context {X : Type}.

Definition preCheckAccount (c : Ctx) (m : Members X) : result (TER * Members X) :=
  account ← getAccountID sfAccount (tx_o c);
  Ok (if account =? 0 then temBAD_SRC_ACCOUNT else tesSUCCESS, set_account account m).

Definition preCheckSigningKey (c : Ctx) (m : Members X) : result (TER * Members X) :=
  key ← getFieldVL sfSigningPubKey (tx_o c);
  let m := set_key key m in
  if bool_decide (sig_state m = sig_good) then Ok (tesSUCCESS, m)
  else if bool_decide (sig_state m = sig_bad) ||
          negb (has (flags c) tapNO_CHECK_SIGN) && negb (tx_checkSign c (multi_enabled c) (sig_state m))
  then Ok (temINVALID, set_sig sig_bad m)
  else Ok (tesSUCCESS, set_sig sig_good m).

Definition preCheck (c : Ctx) (m : Members X) : result (TER * Members X) :=
  r ← preCheckAccount c m;
  if negb (bool_decide (r.1 = tesSUCCESS)) then Ok r else preCheckSigningKey c r.2.

Definition calculateBaseFee (c : Ctx) : Z := feeBase c.

Definition calculateFee (c : Ctx) (base_fee : Z) (m : Members X) : Members X :=
  set_feeDue (STAmount.of_u64 (LoadFeeTrack.scaleFeeLoad base_fee (base (fees c)) (units (fees c))
                                 (has (flags c) tapADMIN) (track c)) false) m.

End pre.

(** ** The checks against the ledger *)

Section checks.
Context `{Build} {SHA : SHA512Half} {B : Type} {RV : ReadView STObject B}.

(** The ledger view transactions are applied to. *)
Abbreviation Base := (OpenView.t STObject B).
Abbreviation Prog := (M Base).

Definition txExists (key : Z) : Prog bool := fun s => Ok (OpenView.txExists (ApplyView.base_ (av s)) key, s).
Definition vseq : Prog Z := fun s => Ok (seq (View.vinfo (av s)), s).

Section steps.
Context {X : Type}.

Definition payFee (c : Ctx) (m : Members X) : Prog (TER * Members X) :=
  saPaid ← lift (getFieldAmount sfFee (tx_o c));
  if negb (STAmount.isLegalNet saPaid) then mret (temBAD_AMOUNT, m)
  else
    is_open ← vopen;
    short ← (if is_open : bool then lift (STAmount.ltb saPaid (mFeeDue m)) else mret false);
    if short : bool then mret (telINSUF_FEE_P, m)
    else if (STAmount.signum saPaid <? 0) || negb (STAmount.mIsNative saPaid) then mret (temBAD_FEE, m)
    else if STAmount.signum saPaid =? 0 then mret (tesSUCCESS, m)
    else
      sle ← peek (Indexes.account (account_ m));
      poor ← lift (STAmount.ltb (mSourceBalance m) saPaid);
      if poor : bool then
        mret (if positive (mSourceBalance m) && negb is_open then tecINSUFF_FEE else terINSUF_FEE_B, m)
      else
        balance ← lift (STAmount.sub (mSourceBalance m) saPaid);
        sle ← need sle;
        _ ← set sle (setFieldAmount sfBalance balance);
        mret (tesSUCCESS, set_balances (mPriorBalance m) balance m).

Definition checkSeq (c : Ctx) (m : Members X) : Prog TER :=
  sle ← peek (Indexes.account (account_ m));
  t_seq ← lift (getFieldU32 sfSequence (tx_o c));
  sle ← need sle;
  a_seq ← get sle (getFieldU32 sfSequence);
  if negb (t_seq =? a_seq) then
    if a_seq <? t_seq then mret terPRE_SEQ
    else known ← txExists (txID c); mret (if known : bool then tefALREADY else tefPAST_SEQ)
  else
    wrong_prior ← (if isFieldPresent sfAccountTxnID (tx_o c)
                   then mine ← get sle (getFieldH256 sfAccountTxnID);
                        theirs ← lift (getFieldH256 sfAccountTxnID (tx_o c));
                        mret (negb (mine =? theirs))
                   else mret false);
    if wrong_prior : bool then mret tefWRONG_PRIOR
    else
      late ← (if isFieldPresent sfLastLedgerSequence (tx_o c)
              then now ← vseq; last ← lift (getFieldU32 sfLastLedgerSequence (tx_o c)); mret (last <? now)
              else mret false);
      if late : bool then mret tefMAX_LEDGER
      else
        _ ← set sle (setFieldU32 sfSequence (u32 (t_seq + 1)));
        tracks ← get sle (fun o => Ok (isFieldPresent sfAccountTxnID o));
        _ ← (if tracks : bool then set sle (setFieldH256 sfAccountTxnID (txID c)) else mret tt);
        mret tesSUCCESS.

Definition checkSingleSign (c : Ctx) (m : Members X) : Prog (TER * Members X) :=
  sle ← peek (Indexes.account (account_ m));
  let key := calcAccountID c (mSigningPubKey m) in
  if key =? account_ m then
    sle ← need sle;
    disabled ← get sle (fun o => Ok (isFlag lsfDisableMaster o));
    mret (if disabled : bool then tefMASTER_DISABLED else tesSUCCESS, set_sigMaster true m)
  else if mHasAuthKey m then
    sle ← need sle;
    regular ← get sle (getAccountID sfRegularKey);
    mret (if key =? regular then tesSUCCESS else tefBAD_AUTH, m)
  else mret (tefBAD_AUTH_MASTER, m).

(** [checkMultiSign] reads through the view. *)
Definition checkMulti (c : Ctx) (m : Members X) : Prog (TER * Members X) :=
  fun s => t ← checkMultiSign (calcAccountID c) (account_ m) (av s) (multiSigners c); Ok ((t, m), s).

Definition checkSign (c : Ctx) (m : Members X) : Prog (TER * Members X) :=
  if multi_enabled c && bool_decide (mSigningPubKey m = []) then checkMulti c m else checkSingleSign c m.

End steps.

(** ** Applying *)

(** The steps a type of transaction may override. *)
Record Processor (X : Type) := mkProc {
  p_extra : X;
  p_mustHaveValidAccount : bool;
  p_baseFee : Ctx -> Members X -> Prog Z;
  p_preCheck : Ctx -> Members X -> Prog (TER * Members X);
  p_checkSeq : Ctx -> Members X -> Prog TER;
  p_payFee : Ctx -> Members X -> Prog (TER * Members X);
  p_checkSign : Ctx -> Members X -> Prog (TER * Members X);
  p_doApply : Ctx -> Members X -> Prog (TER * Effects) }.
Arguments mkProc {X}.
Arguments p_extra {X}. Arguments p_mustHaveValidAccount {X}. Arguments p_baseFee {X}. Arguments p_preCheck {X}.
Arguments p_checkSeq {X}. Arguments p_payFee {X}. Arguments p_checkSign {X}. Arguments p_doApply {X}.

(** A type that overrides [preCheck] and [doApply] only. *)
Definition plain {X} (x : X) (pre : Ctx -> Members X -> Prog (TER * Members X))
    (work : Ctx -> Members X -> Prog (TER * Effects)) : Processor X :=
  mkProc x true (fun c _ => mret (calculateBaseFee c)) pre checkSeq payFee checkSign work.

(** [Transactor::apply]. *)
Definition apply {X} (p : Processor X) (c : Ctx) (m : Members X) : Prog (TER * Effects) :=
  saTxnFee ← lift (getFieldAmount sfFee (tx_o c));
  if negb (STAmount.mIsNative saTxnFee) || STAmount.mIsNegative saTxnFee || negb (STAmount.isLegalNet saTxnFee)
  then mret (temBAD_FEE, no_effects)
  else
    r ← p_preCheck p c m;
    if negb (bool_decide (r.1 = tesSUCCESS)) then mret (r.1, no_effects)
    else
      sle ← peek (Indexes.account (account_ r.2));
      base_fee ← p_baseFee p c r.2;
      let m := calculateFee c base_fee r.2 in
      if negb (bool_decide (is_Some sle)) && p_mustHaveValidAccount p then mret (terNO_ACCOUNT, no_effects)
      else
        m ← (match sle with
             | None => mret m
             | Some sle =>
                 prior ← get sle (getFieldAmount sfBalance);
                 auth ← get sle (fun o => Ok (isFieldPresent sfRegularKey o));
                 mret (set_authKey auth (set_balances prior prior m))
             end);
        t ← p_checkSeq p c m;
        if negb (bool_decide (t = tesSUCCESS)) then mret (t, no_effects)
        else
          r ← p_payFee p c m;
          if negb (bool_decide (r.1 = tesSUCCESS)) then mret (r.1, no_effects)
          else
            r ← p_checkSign p c r.2;
            if negb (bool_decide (r.1 = tesSUCCESS)) then mret (r.1, no_effects)
            else
              _ ← (match sle with None => mret tt | Some sle => update sle end);
              p_doApply p c r.2.

(** "Only claim the transaction fee", in a fresh view: the result, the fee
    claimed, and whether to apply. *)
Definition claim_fee (c : Ctx) (ter : TER) (didApply : bool) (fee : STAmount.t) : Prog (TER * bool * STAmount.t) :=
  id ← lift (getAccountID sfAccount (tx_o c));
  txnAcct ← peek (Indexes.account id);
  match txnAcct with
  | None => mret (terNO_ACCOUNT, didApply, fee)
  | Some txnAcct =>
      t_seq ← lift (getFieldU32 sfSequence (tx_o c));
      a_seq ← get txnAcct (getFieldU32 sfSequence);
      if a_seq <? t_seq then mret (terPRE_SEQ, didApply, fee)
      else if t_seq <? a_seq then mret (tefPAST_SEQ, didApply, fee)
      else
        balance ← get txnAcct (getFieldAmount sfBalance);
        is_open ← vopen;
        short ← (if STAmount.signum balance =? 0 then mret true
                 else if is_open : bool then lift (STAmount.ltb balance fee) else mret false);
        if short : bool then mret (terINSUF_FEE_B, didApply, fee)
        else
          more ← lift (STAmount.ltb balance fee);
          let fee := if more : bool then balance else fee in
          left ← lift (STAmount.sub balance fee);
          _ ← set txnAcct (setFieldAmount sfBalance left);
          _ ← set txnAcct (setFieldU32 sfSequence (u32 (t_seq + 1)));
          _ ← update txnAcct;
          mret (ter, true, fee)
  end.

(** The last step: the fee leaves a closed ledger, and the view is applied. *)
Definition conclude (c : Ctx) (ter : TER) (fee : STAmount.t) (e : Effects) (s : St Base) : result Base :=
  s ← (if negb (isOpen (View.vinfo (av s))) then
         _ ← throw_if (negb (STAmount.mIsNative fee) || STAmount.mIsNegative fee) "amount is negative!";
         Ok (if negb (STAmount.signum fee =? 0)
             then mkSt (ApplyView.raw_destroyXRP (av s) (STAmount.mValue fee)) (tabs s) else s)
       else Ok s);
  TxMeta.apply_tx (addRaw c) (ApplyView.base_ (av s)) (txID c) (txn c) ter (delivered e) (ApplyView.items_ (av s)).

Definition fresh_state (base : Base) : St Base := mkSt (ApplyView.make base) [].

(** [Transactor::operator()]: the result, whether it was applied, and the base.
    The effects outside the ledger are those of the work. *)
Definition run {X} (p : Processor X) (c : Ctx) (sig : SigState) (base : Base) : result (TER * bool * Effects * Base) :=
  if txID c =? 0 then Ok (temINVALID_FLAG, false, no_effects, base)
  else
    r ← apply p c (initial sig (p_extra p)) (fresh_state base);
    let '((ter, e), s) := r in
    if bool_decide (ter = temUNKNOWN) then Ok (temUNKNOWN, false, e, base)
    else
      let didApply := isTesSuccess ter in
      fee ← getFieldAmount sfFee (tx_o c);
      let ter := if 5200 <? ApplyStateTable.size_ (ApplyView.items_ (av s)) then tecOVERSIZE else ter in
      if bool_decide (ter = tecOVERSIZE) || isTecClaim ter && negb (has (flags c) tapRETRY) then
        r ← claim_fee c ter didApply fee (fresh_state base);
        let '((ter, didApply, fee), s) := r in
        let e := mkEffects None (enables e) in
        if didApply : bool then base' ← conclude c ter fee e s; Ok (ter, true, e, base')
        else Ok (ter, false, e, base)
      else if didApply then base' ← conclude c ter fee e s; Ok (ter, true, e, base')
      else Ok (ter, false, e, base).

End checks.

Arguments mkProc {B X}.
Arguments p_extra {B X}. Arguments p_mustHaveValidAccount {B X}. Arguments p_baseFee {B X}.
Arguments p_preCheck {B X}. Arguments p_checkSeq {B X}. Arguments p_payFee {B X}. Arguments p_checkSign {B X}.
Arguments p_doApply {B X}.

End Transactor.
