(* ===== verification/TransactorRun.v ===== *)
(** * What a transaction costs

    Whatever the work of a transaction does, a result of the class [tec] leaves
    in the ledger the claim of the fee and the use of the sequence number, and
    nothing else; the drops the accounts lose are those the ledger loses.  A
    transaction that was applied is refused when it is applied again. *)

From stdpp Require Import base tactics numbers list strings gmap sorting option.
From S2P Require Import Prelude Decimal IOUAmount BigNum Serializer STAmount.
From S2P Require Import View StateTable ApplyStateTable Fields Indexes PaymentSandbox ViewOps.
From S2P Require Import TrustLines Transfers Change LoadFeeTrack MultiSign TxMeta Threading Transactor.

Module TransactorRun.
Import Fields Indexes ViewOps TrustLines Transfers Change Transactor.

(** ** The account of a transaction *)

(** An account with [n] drops and the sequence number [sq]. *)
Record sender {SHA : SHA512Half} (m : gmap Z Entry) (id n sq : Z) (o : STObject) : Prop := {
  s_entry : m !! getAccountRootIndex id = Some (account_entry id o);
  s_balance : o !! sfBalance = Some (Some (AMT (xrp n)));
  s_drops : drops_ok n;
  s_seq : o !! sfSequence = Some (Some (U32 sq)) }.

(** The transaction is [id]'s, with the sequence number [sq] and the fee [f]. *)
Record charges (c : Ctx) (id sq f : Z) : Prop := {
  t_account : getAccountID sfAccount (tx_o c) = Ok id;
  t_seq : getFieldU32 sfSequence (tx_o c) = Ok sq;
  t_fee : getFieldAmount sfFee (tx_o c) = Ok (xrp f);
  t_drops : drops_ok f }.

Definition with_seq (o : STObject) (sq : Z) : STObject := <[sfSequence := Some (U32 sq)]> o.

(** The account root after a fee: [n] drops and the next sequence number. *)
Definition charged (o : STObject) (n sq : Z) : STObject := with_seq (with_drops o n) (u32 (sq + 1)).

Lemma xrp_signum n : drops_ok n -> STAmount.signum (xrp n) = if n =? 0 then 0 else 1.
Proof. intros _. unfold STAmount.signum, xrp. cbn. by destruct (n =? 0). Qed.

Lemma set_seq o sq sq' : o !! sfSequence = Some (Some (U32 sq)) -> setFieldU32 sfSequence sq' o = Ok (with_seq o sq').
Proof. intros Ho. apply setField_ok; [|done]. unfold has_place. by rewrite Ho. Qed.

Lemma charged_total {SHA : SHA512Half} m id n n' sq o : sender m id n sq o ->
  total (<[getAccountRootIndex id := account_entry id (charged o n' sq)]> m) = total m - n + n'.
Proof.
  intros Hs. rewrite (total_replace _ _ _ _ (s_entry m id n sq o Hs)). unfold drops_of. cbn [getType account_entry fields].
  unfold charged, with_seq, with_drops. rewrite lookup_insert_ne, lookup_insert_eq by done.
  rewrite (s_balance m id n sq o Hs). unfold STAmount.signed. cbn. lia.
Qed.

Section claim.
Context `{Build} {SHA : SHA512Half} {SL : SHA512HalfLaws SHA} {B : Type} {RV : ReadView STObject B}.
Context {VM : ViewModel STObject B} {RL : ReadViewLaws STObject B}.

Abbreviation Base := (OpenView.t STObject B).

Lemma claim_fee_rule c ter did id n sq f o (base : Base) : good base -> isOpen (OpenView.info_ base) = false ->
  charges c id sq f -> sender (contents base) id n sq o -> n <> 0 -> exists s',
  claim_fee c ter did (xrp f) (fresh_state base) = Ok ((ter, true, xrp (Z.min f n)), s') /\
  good (av s') /\ untouched (fresh_state base) s' /\
  contents (av s') = <[getAccountRootIndex id := account_entry id (charged o (n - Z.min f n) sq)]> (contents base).
Proof.
  intros Hg Hcl [Hacc Hseq Hfee Hf] [He Hb Hn Hsq] Hn0.
  destruct (ApplyView.make_good base Hg) as (Hgv & Hcv & _).
  destruct (wpm_view (claim_fee c ter did (xrp f)) (fresh_state base)
    (fun r m => r = (ter, true, xrp (Z.min f n)) /\
       m = <[getAccountRootIndex id := account_entry id (charged o (n - Z.min f n) sq)]> (contents base)))
    as (r & s' & Hrun & Hg' & Hu & -> & Hc'); [done| |by exists s'].
  intros b d Hr. cbn [av fresh_state] in Hr. rewrite Hcv in Hr. unfold claim_fee.
  apply wpm_bind. eapply wpm_lift; [done|]. apply wpm_bind.
  eapply peek_any_rule; [exact Hr|apply getAccountRootIndex_pos|done|apply account_check|].
  intros p fl s1 Ht1 _ Hr1. cbn [am ap loose dirty] in Hr1. change (Keylet.key (account id)) with (getAccountRootIndex id) in Hr1.
  apply wpm_bind. eapply wpm_lift; [done|].
  apply wpm_bind. eapply (get_rule _ _ _ _ (getAccountRootIndex id)); [exact Hr1|apply lookup_insert_eq|done| |].
  { cbn [fields account_entry]. unfold getFieldU32, getField. by rewrite Hsq. }
  rewrite Z.ltb_irrefl. apply wpm_bind.
  eapply (get_rule _ _ _ _ (getAccountRootIndex id)); [exact Hr1|apply lookup_insert_eq|done|by apply get_balance|].
  apply wpm_bind. unfold vopen. eexists _, s1. split; [done|].
  assert (Hop : isOpen (View.vinfo (av s1)) = false).
  { change (View.vinfo (av s1)) with (OpenView.info_ (ApplyView.base_ (av s1))).
    rewrite (rep_base _ _ _ _ Hr1), <- (rep_base _ _ _ _ Hr). done. }
  rewrite Hop, xrp_signum, (proj2 (Z.eqb_neq _ _) Hn0) by done. apply wpm_bind, wpm_ret. apply wpm_bind.
  eapply wpm_lift; [by apply xrp_ltb|].
  replace (if n <? f then xrp n else xrp f) with (xrp (Z.min f n)) by (destruct (Z.ltb_spec n f); f_equal; lia).
  apply wpm_bind. eapply wpm_lift; [apply sub_xrp; unfold drops_ok in *; lia|].
  apply wpm_bind. eapply (set_pending _ _ _ _ (getAccountRootIndex id)); [exact Hr1|apply lookup_insert_eq|done|by apply (set_balance _ n)|].
  intros s2 Ht2 Hr2. cbn [am ap loose dirty] in Hr2.
  apply wpm_pair. eapply (set_update_settles _ _ _ _ (getAccountRootIndex id)).
  - exact Hr2.
  - apply lookup_insert_eq.
  - apply lookup_insert_eq.
  - apply (set_seq _ sq). cbn [fields with_fields account_entry]. unfold with_drops. by rewrite lookup_insert_ne.
  - intros s3 Ht3 Hr3. cbn [am ap loose dirty] in Hr3. apply wpm_ret. split; [congruence|].
    eexists. split; [exact Hr3|]. cbn [am dirty]. split; [by intros i [[[]|?] ?]|]. split; [done|].
    by rewrite insert_insert_eq.
Qed.

(** ** Applying the view *)

(** The entries have the fields of their types, and none names the transaction. *)
Definition all_fit (txID_ : Z) (m : gmap Z Entry) : Prop :=
  forall k e, m !! k = Some e -> Threading.entry_ok txID_ e /\ Threading.owner_fields e.

(** The ledger [m'] is [m], but entries may name the transaction. *)
Definition shows (txID_ lgr : Z) (m m' : gmap Z Entry) : Prop :=
  forall k, option_Forall2 (Threading.upto txID_ lgr) (m !! k) (m' !! k).

Lemma upto_drops txID_ lgr e0 e : Threading.upto txID_ lgr e0 e -> drops_of e = drops_of e0.
Proof.
  intros [->|[_ ->]]; [done|]. unfold drops_of, Threading.stamp, Threading.stamp_fields. cbn [fields with_fields getType].
  by rewrite !lookup_insert_ne.
Qed.

Lemma total_fmap m : total m = map_fold (fun _ d n => d + n) 0 (drops_of <$> m).
Proof. unfold total. by rewrite map_fold_fmap. Qed.

Lemma shows_total txID_ lgr m m' : shows txID_ lgr m m' -> total m' = total m.
Proof.
  intros Hs. rewrite !total_fmap. f_equal. apply map_eq. intros k. rewrite !lookup_fmap.
  specialize (Hs k). inversion Hs as [e0 e Hu|]; [|done]. cbn. f_equal. by eapply upto_drops.
Qed.

(** The ledger gets the view and the transaction, and loses the fee. *)
Lemma conclude_spec c ter f e (s : St Base) :
  let base := ApplyView.base_ (av s) in
  good (av s) -> isOpen (OpenView.info_ base) = false -> OpenView.txs_ base !! txID c = None ->
  TER_code ter = 0 \/ 100 < TER_code ter -> 0 <= f <= supply (av s) ->
  (forall k p e, ApplyStateTable.items_ (ApplyView.items_ (av s)) !! k = Some (ApplyStateTable.erase_, p) ->
     ApplyStateTable.heap (ApplyView.items_ (av s)) !! p = Some e -> Threading.entry_ok (txID c) e) ->
  Threading.ledger_fits (txID c) (contents base) (contents (av s)) ->
  exists base' md, conclude c ter (xrp f) e s = Ok base' /\ good base' /\
    supply base' = supply (av s) - f /\
    shows (txID c) (seq (OpenView.info_ base)) (contents (av s)) (contents base') /\
    OpenView.txs_ base' = <[txID c := (txn c, Some (addRaw c md))]> (OpenView.txs_ base) /\
    OpenView.info_ base' = OpenView.info_ base.
Proof.
  intros base Hg Hcl Htx Hter Hf Her Hfit. unfold conclude.
  change (View.vinfo (av s)) with (OpenView.info_ base). rewrite Hcl. cbn [negb].
  change (throw_if (negb (STAmount.mIsNative (xrp f)) || STAmount.mIsNegative (xrp f)) "amount is negative!") with (Ok tt).
  cbn [mbind result_bind]. set (s' := if negb _ then _ else s).
  assert (Hs' : good (av s') /\ ApplyView.base_ (av s') = base /\ contents (av s') = contents (av s) /\
    ApplyStateTable.items_ (ApplyView.items_ (av s')) = ApplyStateTable.items_ (ApplyView.items_ (av s)) /\
    ApplyStateTable.heap (ApplyView.items_ (av s')) = ApplyStateTable.heap (ApplyView.items_ (av s)) /\
    supply (av s') = supply (av s) - f).
  { pose proof (good_supply _ Hg) as Hsup. unfold s'. destruct (Z.eqb_spec f 0) as [->|Hf0].
    - cbn. rewrite Z.sub_0_r. done.
    - assert (Hsig : negb (STAmount.signum (xrp f) =? 0) = true).
      { unfold STAmount.signum, xrp. cbn. by rewrite (proj2 (Z.eqb_neq _ _) Hf0). }
      rewrite Hsig. cbn [av]. change (STAmount.mValue (xrp f)) with f.
      destruct (rawDestroyXRP_law (av s) f Hg) as (v' & [= <-] & Hg' & Hc' & Hs').
      split_and!; [done|done|done|done|done|]. change (supply (ApplyView.raw_destroyXRP (av s) f) = supply (av s) - f).
      etrans; [exact Hs'|]. rewrite u64_id; lia. }
  clearbody s'. destruct Hs' as (Hg' & Hb' & Hc' & Hi' & Hh' & Hsup).
  destruct (Threading.apply_tx_spec (addRaw c) (av s') (txID c) (txn c) ter (delivered e)) as
    (base' & md & Ha & Hgb & Hsb & Hup & _ & Htxs & Hinfo & _); rewrite ?Hb', ?Hi', ?Hh', ?Hc'; try done.
  rewrite Hb' in Ha, Hup, Htxs, Hinfo. exists base', md. split_and!; [done|done|lia| |done|done].
  intros k. specialize (Hup k). by rewrite Hc' in Hup.
Qed.

Lemma same_store_supply (s s' : St Base) : same_store s s' -> supply (av s') = supply (av s).
Proof.
  intros (Hb & Hd & Hc). unfold supply, ApplyView.ViewModel_ApplyView, ApplyStateTable.drops_after. by rewrite Hb, Hd, Hc.
Qed.

(** ** Entries that stay *)

Lemma fit_insert txID_ (e : Entry) f v : f ∉ [sfPreviousTxnID; sfPreviousTxnLgrSeq; sfLedgerEntryType; sfAccount; sfLowLimit; sfHighLimit] ->
  Threading.entry_ok txID_ e /\ Threading.owner_fields e ->
  Threading.entry_ok txID_ (with_fields e (<[f := v]> (fields e))) /\
  Threading.owner_fields (with_fields e (<[f := v]> (fields e))).
Proof.
  intros Hf [[H1 H2] [H3 H4]]. rewrite !not_elem_of_cons in Hf. destruct_and!.
  unfold Threading.entry_ok, Threading.owner_fields, Threading.threadable, has_place, TxMeta.isThreadedType, h256_of in *.
  cbn [fields with_fields getType] in *. by rewrite !lookup_insert_ne by (by apply not_eq_sym || done).
Qed.

Lemma fit_account txID_ id o f v : f ∉ [sfPreviousTxnID; sfPreviousTxnLgrSeq; sfLedgerEntryType; sfAccount; sfLowLimit; sfHighLimit] ->
  Threading.entry_ok txID_ (account_entry id o) /\ Threading.owner_fields (account_entry id o) ->
  Threading.entry_ok txID_ (account_entry id (<[f := v]> o)) /\ Threading.owner_fields (account_entry id (<[f := v]> o)).
Proof. intros Hf Hok. pose proof (fit_insert txID_ (account_entry id o) f v Hf Hok) as Hi. exact Hi. Qed.

(** When every entry of the base stays, the view has erased none, and there are
    no owners to thread to. *)
Lemma no_erased (v : ApplyView.t STObject Base) k p : good v ->
  (forall k, is_Some (contents (ApplyView.base_ v) !! k) -> is_Some (contents v !! k)) ->
  ApplyStateTable.items_ (ApplyView.items_ v) !! k <> Some (ApplyStateTable.erase_, p).
Proof.
  intros (_ & [Hok _] & _) Hd Hit. destruct (Hok _ _ Hit) as (_ & _ & Hm). cbn [fst] in Hm.
  destruct (Hd k Hm) as [e He].
  change (StateTable.overlay (ApplyStateTable.eff (ApplyStateTable.heap (ApplyView.items_ v)))
    (ApplyStateTable.items_ (ApplyView.items_ v)) (contents (ApplyView.base_ v)) !! k = Some e) in He.
  by rewrite StateTable.lookup_overlay, Hit in He.
Qed.

Lemma fits_same_keys txID_ (m m' : gmap Z Entry) : all_fit txID_ m -> all_fit txID_ m' ->
  (forall k, is_Some (m !! k) <-> is_Some (m' !! k)) -> Threading.ledger_fits txID_ m m'.
Proof.
  intros Hm Hm' Hd. split; [done|done|]. intros k e a [[Hn He]|[He Hn]] _.
  - destruct (proj2 (Hd k)); [by eexists|congruence].
  - destruct (proj1 (Hd k)); [by eexists|congruence].
Qed.

Lemma same_keys_insert (m : gmap Z Entry) k e e' : m !! k = Some e ->
  forall j, is_Some (m !! j) <-> is_Some (<[k := e']> m !! j).
Proof. intros Hk j. destruct (decide (j = k)) as [->|Hne]; [by rewrite lookup_insert_eq, Hk|by rewrite lookup_insert_ne]. Qed.

Lemma fit_charged txID_ m id n n' sq o : all_fit txID_ m -> sender m id n sq o ->
  all_fit txID_ (<[getAccountRootIndex id := account_entry id (charged o n' sq)]> m).
Proof.
  intros Hfit Hs k e. destruct (decide (k = getAccountRootIndex id)) as [->|Hne]; [|rewrite lookup_insert_ne by done; apply Hfit].
  rewrite lookup_insert_eq. intros [= <-]. unfold charged, with_seq, with_drops.
  apply fit_account; [by apply (bool_decide_unpack _)|]. apply fit_account; [by apply (bool_decide_unpack _)|].
  by eapply Hfit, Hs.
Qed.

(** ** Claiming the fee *)

(** The result reported: a view that grew too large counts as one of class [tec]. *)
Definition reported (ter : TER) (s : St Base) : TER :=
  if 5200 <? ApplyStateTable.size_ (ApplyView.items_ (av s)) then tecOVERSIZE else ter.

Lemma claim_spec {X} (p : Processor X) c sig (base : Base) ter e s1 id n sq f o :
  good base -> isOpen (OpenView.info_ base) = false -> txID c <> 0 -> OpenView.txs_ base !! txID c = None ->
  charges c id sq f -> sender (contents base) id n sq o -> 0 < n <= supply base ->
  all_fit (txID c) (contents base) ->
  Transactor.apply p c (initial sig (p_extra p)) (fresh_state base) = Ok ((ter, e), s1) ->
  isTecClaim ter = true -> ter <> tecCLAIM -> has (flags c) tapRETRY = false ->
  exists base' md, run p c sig base = Ok (reported ter s1, true, mkEffects None (enables e), base') /\
    good base' /\
    shows (txID c) (seq (OpenView.info_ base))
      (<[getAccountRootIndex id := account_entry id (charged o (n - Z.min f n) sq)]> (contents base)) (contents base') /\
    supply base' = supply base - Z.min f n /\
    total (contents base') = total (contents base) - Z.min f n /\
    OpenView.txs_ base' = <[txID c := (txn c, Some (addRaw c md))]> (OpenView.txs_ base) /\
    OpenView.info_ base' = OpenView.info_ base.
Proof.
  intros Hg Hcl Hid Htx Hch Hs Hn Hfit Happ Hcla Hne Hretry.
  assert (Htec : isTecClaim (reported ter s1) = true /\ 100 < TER_code (reported ter s1)).
  { unfold reported. case_match; [done|]. split; [done|]. apply Z.leb_le in Hcla. destruct ter; cbn in *; try lia; done. }
  destruct Htec as [Htec Hcode].
  destruct (claim_fee_rule c (reported ter s1) (isTesSuccess ter) id n sq f o base Hg Hcl Hch Hs ltac:(lia))
    as (s2 & Hclaim & Hg2 & [_ [Hb2 [Hd2 Hc2]]] & Hcon).
  set (m1 := <[getAccountRootIndex id := _]> (contents base)) in *. change (ApplyView.base_ (av (fresh_state base))) with base in Hb2.
  assert (Hsup : supply (av s2) = supply base).
  { destruct (ApplyView.make_good base Hg) as (_ & _ & <-). by apply (same_store_supply (fresh_state base) s2). }
  pose proof (same_keys_insert (contents base) _ _ (account_entry id (charged o (n - Z.min f n) sq)) (s_entry _ _ _ _ _ Hs)) as Hkeys.
  fold m1 in Hkeys. pose proof (t_drops _ _ _ _ Hch) as Hf. unfold drops_ok in Hf.
  destruct (conclude_spec c (reported ter s1) (Z.min f n) (mkEffects None (enables e)) s2) as (base' & md & Hconc & Hg' & Hs' & Hsh & Htxs & Hinfo);
    rewrite ?Hb2, ?Hcon; try done.
  - by right.
  - rewrite Hsup. lia.
  - intros k q e' Hit _. destruct (no_erased (av s2) k q Hg2); [|done]. intros j. rewrite Hb2, Hcon. apply Hkeys.
  - apply fits_same_keys; [done|by eapply fit_charged|done].
  - rewrite Hb2, Hcon in Hsh. rewrite Hb2 in Htxs, Hinfo. exists base', md. split_and!; [|done|done|lia| |done|done].
    + unfold run. rewrite (proj2 (Z.eqb_neq _ _) Hid), Happ. cbn [mbind result_bind].
      rewrite bool_decide_eq_false_2 by (intros ->; done). rewrite (t_fee _ _ _ _ Hch). cbn [mbind result_bind].
      fold (reported ter s1). rewrite Htec, Hretry. cbn [andb negb]. rewrite orb_true_r, Hclaim. cbn [mbind result_bind].
      rewrite Hconc. done.
    + rewrite (shows_total _ _ _ _ Hsh). unfold m1. rewrite (charged_total _ _ _ _ _ _ Hs). lia.
Qed.

(** C17: a failed transaction costs its fee and its sequence number, and nothing
    else.  Whatever the type of the transaction and whatever its work did to the
    view before it gave up with a result of class [tec], when retries are not
    allowed the ledger that is being closed ends up with the one account root
    changed: the fee, or what was left of the balance, is gone from it and the
    sequence number is the next; every other entry is as before.  The ledger's
    drops and the drops of all accounts together shrink by that fee, and the
    transaction is recorded. *)
Theorem claim_only {X} (p : Processor X) c sig (base : Base) ter e s1 id n sq f o :
  good base -> isOpen (OpenView.info_ base) = false -> txID c <> 0 -> OpenView.txs_ base !! txID c = None ->
  charges c id sq f -> sender (contents base) id n sq o -> 0 < n <= supply base ->
  all_fit (txID c) (contents base) ->
  Transactor.apply p c (initial sig (p_extra p)) (fresh_state base) = Ok ((ter, e), s1) ->
  isTecClaim ter = true -> ter <> tecCLAIM -> has (flags c) tapRETRY = false ->
  exists base' md, run p c sig base = Ok (reported ter s1, true, mkEffects None (enables e), base') /\
    good base' /\
    shows (txID c) (seq (OpenView.info_ base))
      (<[getAccountRootIndex id := account_entry id (charged o (n - Z.min f n) sq)]> (contents base)) (contents base') /\
    supply base' = supply base - Z.min f n /\
    total (contents base') = total (contents base) - Z.min f n /\
    OpenView.txs_ base' = <[txID c := (txn c, Some (addRaw c md))]> (OpenView.txs_ base) /\
    OpenView.info_ base' = OpenView.info_ base.
Proof. apply claim_spec. Qed.

(** ** Sequence numbers *)

Lemma run_bind {A C} (prog : M Base A) (k : A -> M Base C) s a s' : prog s = Ok (a, s') -> (prog ≫= k) s = k a s'.
Proof. intros Hr. unfold mbind, M_bind. by rewrite Hr. Qed.

(** A view that has only been looked at. *)
Definition peeked (base : Base) (k : Z) (e : Entry) : St Base :=
  mkSt (ApplyView.mk base (ApplyStateTable.mk {[k := (ApplyStateTable.cache_, fresh (dom (∅ : gmap loc Entry)))]}
                             {[fresh (dom (∅ : gmap loc Entry)) := e]} 0 0)) [].

Lemma peek_first (base : Base) id o : good base -> contents base !! getAccountRootIndex id = Some (account_entry id o) ->
  peek (Indexes.account id) (fresh_state base) =
  Ok (Some (fresh (dom (∅ : gmap loc Entry))), peeked base (getAccountRootIndex id) (account_entry id o)).
Proof.
  intros Hg He. unfold peek, on_view, ApplyView.peek, ApplyStateTable.peek. cbn [fresh_state av ApplyView.base_ ApplyView.items_ ApplyView.make].
  change (ApplyStateTable.items_ ApplyStateTable.empty) with (∅ : gmap Z (ApplyStateTable.Action * loc)).
  rewrite lookup_empty, read_law by (done || apply getAccountRootIndex_pos).
  change (Keylet.key (Indexes.account id)) with (getAccountRootIndex id). rewrite He.
  unfold account_entry. rewrite MultiSign.checked_account. done.
Qed.

Lemma peek_again (base : Base) id o :
  peek (Indexes.account id) (peeked base (getAccountRootIndex id) (account_entry id o)) =
  Ok (Some (fresh (dom (∅ : gmap loc Entry))), peeked base (getAccountRootIndex id) (account_entry id o)).
Proof.
  unfold peek, on_view, ApplyView.peek, ApplyStateTable.peek, peeked. cbn [av ApplyView.base_ ApplyView.items_ ApplyStateTable.items_].
  change (Keylet.key (Indexes.account id)) with (getAccountRootIndex id). rewrite lookup_singleton_eq.
  unfold ApplyStateTable.deref. cbn [ApplyStateTable.heap]. rewrite lookup_singleton_eq. cbn [mbind result_bind].
  by rewrite account_check.
Qed.

Lemma peeked_get {A} (base : Base) k e (g : STObject -> result A) :
  get (fresh (dom (∅ : gmap loc Entry))) g (peeked base k e) = (a ← g (fields e); Ok (a, peeked base k e)).
Proof.
  unfold get, deref, mbind, M_bind, peeked, ApplyStateTable.deref. cbn [av ApplyView.items_ ApplyStateTable.heap].
  rewrite lookup_singleton_eq. cbn. unfold lift. by destruct (g (fields e)).
Qed.

Lemma peeked_size (base : Base) k e : ApplyStateTable.size_ (ApplyView.items_ (av (peeked base k e))) = 0.
Proof. unfold ApplyStateTable.size_, Ordered.in_order, peeked. cbn [av ApplyView.items_ ApplyStateTable.items_]. by rewrite map_to_list_singleton. Qed.

(** A transaction is applied at most once.  When the account's sequence
    number is beyond that of the transaction, which is so after it was applied,
    fully or for its fee, the transaction is refused again: whatever its work is,
    the result is [tefALREADY] if the ledger has the transaction and
    [tefPAST_SEQ] if not, it is not applied, and the ledger is untouched. *)
Theorem replay_refused {X} (x : X) pre work c sig (base : Base) mem id n sq sq' f o :
  good base -> txID c <> 0 -> charges c id sq f -> sender (contents base) id n sq' o -> sq < sq' ->
  pre c (initial sig x) (fresh_state base) = Ok ((tesSUCCESS, mem), fresh_state base) -> account_ mem = id ->
  run (plain x pre work) c sig base =
  Ok (if OpenView.txExists base (txID c) then tefALREADY else tefPAST_SEQ, false, no_effects, base).
Proof.
  intros Hg Hid Hch Hs Hlt Hpre Hacc. unfold run. rewrite (proj2 (Z.eqb_neq _ _) Hid).
  assert (Happ : Transactor.apply (plain x pre work) c (initial sig (p_extra (plain (B := B) x pre work)))
    (fresh_state base) = Ok ((if OpenView.txExists base (txID c) then tefALREADY else tefPAST_SEQ, no_effects),
                              peeked base (getAccountRootIndex id) (account_entry id o))).
  { unfold Transactor.apply. erewrite run_bind by (unfold lift; by rewrite (t_fee _ _ _ _ Hch)).
    assert (Hlegal : negb (STAmount.mIsNative (xrp f)) || STAmount.mIsNegative (xrp f) || negb (STAmount.isLegalNet (xrp f)) = false).
    { unfold STAmount.isLegalNet. cbn. pose proof (t_drops _ _ _ _ Hch) as Hd. unfold drops_ok in Hd. by rewrite (proj2 (Z.leb_le _ _)) by lia. }
    rewrite Hlegal. cbn [p_preCheck p_extra plain]. erewrite run_bind by (exact Hpre). cbn [fst snd].
    rewrite bool_decide_eq_true_2 by done. cbn [negb]. rewrite Hacc.
    erewrite run_bind by (by apply peek_first; [|apply Hs]). erewrite run_bind by reflexivity. rewrite bool_decide_eq_true_2 by done. cbn [negb andb].
    erewrite run_bind.
    2: { erewrite run_bind by (rewrite peeked_get; cbn [fields account_entry]; rewrite (get_balance _ _ (s_balance _ _ _ _ _ Hs)); reflexivity).
         erewrite run_bind by (rewrite peeked_get; reflexivity). reflexivity. }
    cbn [p_checkSeq plain]. erewrite run_bind.
    2: { unfold Transactor.checkSeq. cbn [account_ set_authKey set_balances calculateFee set_feeDue]. rewrite Hacc.
         erewrite run_bind by apply peek_again. erewrite run_bind by (unfold lift; by rewrite (t_seq _ _ _ _ Hch)).
         erewrite run_bind by reflexivity.
         erewrite run_bind by (rewrite peeked_get; cbn [fields account_entry]; unfold getFieldU32, getField; rewrite (s_seq _ _ _ _ _ Hs); reflexivity).
         rewrite (proj2 (Z.eqb_neq _ _)) by lia. cbn [negb]. rewrite (proj2 (Z.ltb_ge _ _)) by lia.
         erewrite run_bind by reflexivity. reflexivity. }
    cbn [peeked av ApplyView.base_]. by destruct (OpenView.txExists base (txID c)). }
  rewrite Happ. cbn [mbind result_bind]. rewrite (t_fee _ _ _ _ Hch). cbn [mbind result_bind]. rewrite peeked_size.
  by destruct (OpenView.txExists base (txID c)).
Qed.

End claim.

(** ** An example: a transaction of account 7 whose work fails *)

Module Examples.
Import Transfers.Examples Threading.Examples.

Definition ledger105 : Ledger.t STObject := Ledger.mk accounts79 ∅ (set_info_drops 105 info0).

Definition closing105 : OpenView.t STObject (Ledger.t STObject) :=
  OpenView.mk ∅ (mkInfo false 12 0 0 0 0 0 105 false false 0 0 0) ledger105 RawStateTable.empty.

Lemma closing105_good : good closing105.
Proof.
  assert (Hl : good ledger105) by (split; [apply ledger79_good|done]). apply (OpenView.open_make_good ledger105 Hl).
Qed.

Definition tx7 (sq f : Z) : STTx :=
  mkTx 0 (<[sfAccount := Some (ACC 7)]> (<[sfSequence := Some (U32 sq)]> (<[sfFee := Some (AMT (xrp f))]>
           (<[sfSigningPubKey := Some (VL [7])]> (set_template tx_common_fields))))).

Definition ctx7 (sq f : Z) : Ctx :=
  mkCtx (tx7 sq f) 5 [1; 2] None 0 (mkFees 10 10 20 5) 10 LoadFeeTrack.make false (fun _ => true) (fun _ _ => false)
    (fun key => default 0 (head key)) (fun _ => []).

Definition failing : Processor unit := plain (B := Ledger.t STObject) tt (fun c m => lift (preCheck c m)) (fun _ _ => mret (tecNO_DST, no_effects)).

Lemma sender7 : sender (contents closing105) 7 100 0 (account_of 7 100).
Proof. split; [by vm_compute..|done|by vm_compute]. Qed.

Lemma charges7 f : drops_ok f -> charges (ctx7 0 f) 7 0 f.
Proof. intros Hf. by split. Qed.

Lemma fit105 : all_fit 5 (contents closing105).
Proof.
  intros k e He. assert (H1 : forallb (fun x => simple 5 x.2) (map_to_list (contents closing105)) = true) by (by vm_compute).
  destruct (Threading.all_entries _ (simple 5) _ (simple_ok 5) H1 k e He) as (Ho & Hf & _). exact (conj Ho Hf).
Qed.

(** What the work of [failing] leaves behind: nothing but a look at the account,
    whose fee and sequence number are already changed. *)
Definition applied7 := Transactor.apply failing (ctx7 0 12) (initial sig_indeterminate tt) (fresh_state closing105).

Definition state7 : St (OpenView.t STObject (Ledger.t STObject)) :=
  match applied7 with Ok (_, s) => s | _ => fresh_state closing105 end.

Lemma applied7_eq : applied7 = Ok ((tecNO_DST, no_effects), state7).
Proof. vm_compute. reflexivity. Qed.

Lemma supply105 : 0 < 100 <= supply closing105 /\ supply closing105 = 105.
Proof. vm_compute. repeat split; discriminate. Qed.

Lemma claim_only_witness : exists base',
  run failing (ctx7 0 12) sig_indeterminate closing105 = Ok (reported tecNO_DST state7, true, no_effects, base') /\
  supply base' = 93 /\ total (contents base') = total (contents closing105) - 12.
Proof.
  destruct (claim_only failing (ctx7 0 12) sig_indeterminate closing105 tecNO_DST no_effects state7 7 100 0 12 (account_of 7 100)
    closing105_good eq_refl ltac:(discriminate) eq_refl (charges7 12 ltac:(split; discriminate)) sender7 (proj1 supply105)
    fit105 applied7_eq eq_refl ltac:(discriminate) eq_refl) as (base' & md & Hrun & _ & _ & Hs & Ht & _).
  exists base'. split; [exact Hrun|]. split; [|exact Ht]. rewrite Hs, (proj2 supply105). reflexivity.
Defined.

Lemma replay_refused_witness :
  run (plain tt (fun c m => lift (preCheck c m)) (fun _ _ => mret (tesSUCCESS, no_effects))) (ctx7 0 12) sig_indeterminate
    (OpenView.mk {[5 := ([1; 2], None)]} (OpenView.info_ closing105)
       (Ledger.mk (<[getAccountRootIndex 7 := account_entry 7 (charged (account_of 7 100) 88 0)]> accounts79) ∅ (set_info_drops 93 info0))
       RawStateTable.empty) = Ok (tefALREADY, false, no_effects, OpenView.mk {[5 := ([1; 2], None)]} (OpenView.info_ closing105)
       (Ledger.mk (<[getAccountRootIndex 7 := account_entry 7 (charged (account_of 7 100) 88 0)]> accounts79) ∅ (set_info_drops 93 info0))
       RawStateTable.empty).
Proof.
  set (base := OpenView.mk _ _ _ _).
  apply (replay_refused tt (fun c m => lift (preCheck c m)) (fun _ _ => mret (tesSUCCESS, no_effects)) (ctx7 0 12) sig_indeterminate base
           (set_sig sig_good (set_key [7] (set_account 7 (initial sig_indeterminate tt)))) 7 88 0 1 12
           (charged (account_of 7 100) 88 0)); [|done|by apply charges7| |lia|by vm_compute|done].
  - assert (Hl : good (OpenView.base_ base)); [|apply (OpenView.open_make_good _ Hl)].
    split; [|done]. intros i s Hs. change (<[getAccountRootIndex 7 := account_entry 7 (charged (account_of 7 100) 88 0)]> accounts79 !! i = Some s) in Hs.
    apply lookup_insert_Some in Hs as [[<- <-]|[_ Hs]]; [split; [done|apply getAccountRootIndex_pos]|].
    by apply (good_keys _ _ _ ledger79_good Hs).
  - split; [by vm_compute..|done|by vm_compute].
Defined.

End Examples.

End TransactorRun.
