(* ===== verification/Footprint.v ===== *)
(** * How many entries a program touches

    A transaction whose view holds more than 5200 changes is cut down to its fee
    ([Transactor::operator()], [view().size()]).  Here is a bound on the number of
    entries a program over a view can touch, by its steps: looking up, inserting,
    flagging and erasing take up at most one entry each. *)

From stdpp Require Import base tactics numbers list strings gmap sorting option.
From S2P Require Import Prelude Decimal IOUAmount BigNum Serializer STAmount.
From S2P Require Import View StateTable ApplyStateTable Fields Indexes PaymentSandbox ViewOps Directory TrustLines.

Module Footprint.
Import Fields Indexes ViewOps Directory TrustLines.

(** The entries in the table of a view. *)
Definition touched {V} (s : St V) : nat := base.size (ApplyStateTable.items_ (ApplyView.items_ (av s))).

Lemma size_touched {V} (s : St V) :
  ApplyStateTable.size_ (ApplyView.items_ (av s)) <= Z.of_nat (touched s).
Proof.
  unfold ApplyStateTable.size_, touched. set (m := ApplyStateTable.items_ _).
  assert (Hl : length (Ordered.in_order m) = base.size m).
  { rewrite <- length_map_to_list. apply Permutation_length. unfold Ordered.in_order. apply merge_sort_Permutation. }
  rewrite <- Hl. generalize (Ordered.in_order m). intros l.
  assert (Hf : forall l n, fold_left (fun ret (item : Z * (ApplyStateTable.Action * loc)) => match item.2.1 with
     | ApplyStateTable.erase_ | ApplyStateTable.insert_ | ApplyStateTable.modify_ => ret + 1
     | ApplyStateTable.cache_ => ret end) l n <= n + Z.of_nat (length l)).
  { clear. induction l as [|x l IH]; intros n; [cbn; lia|]. cbn [fold_left length]. etrans; [apply IH|]. case_match; lia. }
  specialize (Hf l 0). lia.
Qed.

Section grows.
Context `{Build} {SHA : SHA512Half} {V : Type} {RV : ReadView STObject V}.

(** The program takes up at most [n] more entries. *)
Definition grows {A} (n : nat) (prog : M V A) : Prop :=
  forall s a s', prog s = Ok (a, s') -> (touched s' <= touched s + n)%nat.

Lemma grows_le {A} n n' (prog : M V A) : grows n prog -> (n <= n')%nat -> grows n' prog.
Proof. intros Hg Hn s a s' Hr. specialize (Hg s a s' Hr). lia. Qed.

Lemma grows_ret {A} (a : A) n : grows n (mret a).
Proof. intros s a' s' [= <- <-]. lia. Qed.

Lemma grows_bind {A C} n n' (prog : M V A) (f : A -> M V C) :
  grows n prog -> (forall a, grows n' (f a)) -> grows (n + n') (prog ≫= f).
Proof.
  intros Hp Hf s c s'. unfold mbind, M_bind. destruct (prog s) as [[a s1]| |] eqn:Hr; [|done..].
  intros Hr'. specialize (Hp _ _ _ Hr). specialize (Hf _ _ _ _ Hr'). lia.
Qed.

(** A step that leaves the table alone. *)
Lemma grows_step {A C} n (prog : M V A) (f : A -> M V C) :
  grows 0 prog -> (forall a, grows n (f a)) -> grows n (prog ≫= f).
Proof. apply (grows_bind 0). Qed.

(** A program and a conversion of its result. *)
Lemma grows_last {A C} n (prog : M V A) (f : A -> M V C) :
  grows n prog -> (forall a, grows 0 (f a)) -> grows n (prog ≫= f).
Proof. rewrite <- (Nat.add_0_r n) at 2. apply grows_bind. Qed.

(** A step that may take up an entry. *)
Lemma grows_next {A C} n (prog : M V A) (f : A -> M V C) :
  grows 1 prog -> (forall a, grows n (f a)) -> grows (S n) (prog ≫= f).
Proof. apply (grows_bind 1). Qed.

Lemma grows_lift {A} (r : result A) n : grows n (lift r).
Proof. intros s a s'. unfold lift. destruct r; [|done..]. cbn. intros [= _ <-]. lia. Qed.

Lemma grows_known {A C} (a : A) (f : A -> M V C) n : grows n (f a) -> grows n (lift (Ok a) ≫= f).
Proof. intros Hf s c s' Hr. by eapply Hf. Qed.

Lemma grows_throw {A} what n : grows n (ViewOps.throw what : M V A).
Proof. intros s a s'. done. Qed.

Lemma grows_assert b n : grows n (ViewOps.assert b).
Proof. apply grows_lift. Qed.

Lemma grows_need p n : grows n (need p).
Proof. destruct p; [apply grows_ret|apply grows_throw]. Qed.

Lemma grows_vread k n : grows n (vread k).
Proof. intros s a s'. unfold vread. destruct (ApplyView.read (av s) k); [|done..]. cbn. intros [= _ <-]. lia. Qed.

Lemma grows_vopen n : grows n vopen.
Proof. intros s a s'. unfold vopen. intros [= _ <-]. lia. Qed.

Lemma grows_deref p n : grows n (deref p).
Proof.
  intros s a s'. unfold deref. destruct (ApplyStateTable.deref _ _); [|done..]. cbn. intros [= _ <-]. lia.
Qed.

Lemma grows_get {A} p (g : STObject -> result A) n : grows n (get p g).
Proof. apply grows_step; [apply grows_deref|]. intros e. apply grows_lift. Qed.

Lemma size_insert_le (m : gmap Z (ApplyStateTable.Action * loc)) k x : (base.size (<[k := x]> m) <= S (base.size m))%nat.
Proof. rewrite map_size_insert. destruct (m !! k); cbn; lia. Qed.

Lemma size_delete_le (m : gmap Z (ApplyStateTable.Action * loc)) k : (base.size (delete k m) <= S (base.size m))%nat.
Proof. rewrite map_size_delete. destruct (m !! k); cbn; lia. Qed.

(** An operation on the table that takes up at most [n] entries. *)
Lemma grows_do n (f : ApplyStateTable.t STObject -> result (ApplyStateTable.t STObject)) :
  (forall tb tb', f tb = Ok tb' -> (base.size (ApplyStateTable.items_ tb') <= base.size (ApplyStateTable.items_ tb) + n)%nat) ->
  grows n (do_view (V := V) (fun v => ApplyView.with_items v (f (ApplyView.items_ v)))).
Proof.
  intros Hf s a s'. unfold do_view, on_view, ApplyView.with_items.
  destruct (f (ApplyView.items_ (av s))) as [tb| |] eqn:Ht; [|done..]. cbn. intros [= _ <-]. by apply Hf in Ht.
Qed.

Lemma grows_set p g n : grows n (set p g).
Proof.
  apply grows_step; [apply grows_deref|]. intros e. apply grows_step; [apply grows_lift|]. intros o.
  apply grows_do. intros tb tb'. unfold ApplyStateTable.write.
  destruct (ApplyStateTable.deref _ _); [|done..]. cbn. intros [= <-]. cbn. lia.
Qed.

Lemma grows_update p : grows 1 (update p).
Proof.
  apply grows_do. intros tb tb'. unfold ApplyStateTable.update. destruct (ApplyStateTable.deref _ _) as [sle| |]; [|done..]. cbn.
  destruct (ApplyStateTable.items_ tb !! _) as [[a q]|] eqn:Hi; [|done]. destruct (throw_if _ _); [|done..]. cbn.
  destruct a; intros [= <-]; cbn; rewrite ?Nat.add_1_r; auto using size_insert_le.
Qed.

Lemma grows_insert p : grows 1 (insert p).
Proof.
  apply grows_do. intros tb tb'. unfold ApplyStateTable.insert. destruct (ApplyStateTable.deref _ _) as [sle| |]; [|done..]. cbn.
  destruct (ApplyStateTable.items_ tb !! _) as [[[] q]|]; intros [= <-]; cbn; rewrite ?Nat.add_1_r; auto using size_insert_le.
Qed.

Lemma grows_erase p : grows 1 (erase p).
Proof.
  apply grows_do. intros tb tb'. unfold ApplyStateTable.erase. destruct (ApplyStateTable.deref _ _) as [sle| |]; [|done..]. cbn.
  destruct (ApplyStateTable.items_ tb !! _) as [[a q]|]; [|done]. destruct (throw_if _ _); [|done..]. cbn.
  destruct a; intros [= <-]; cbn; rewrite ?Nat.add_1_r; auto using size_insert_le, size_delete_le.
Qed.

Lemma grows_make_shared sle n : grows n (make_shared sle).
Proof. intros s a s'. unfold make_shared, on_view. cbn. intros [= _ <-]. unfold touched. cbn. lia. Qed.

Lemma grows_peek k : grows 1 (peek k).
Proof.
  intros s a s'. unfold peek, on_view, ApplyView.peek, ApplyStateTable.peek.
  destruct (ApplyStateTable.items_ (ApplyView.items_ (av s)) !! Keylet.key k) as [[[] q]|].
  1,3,4: destruct (ApplyStateTable.deref _ _) as [e| |]; [|done..]; cbn; destruct (Keylet.check k e); [|done..];
    cbn; intros [= _ <-]; unfold touched; cbn; lia.
  - cbn. intros [= _ <-]. unfold touched. cbn. lia.
  - destruct (View.vread _ _) as [[e|]| |]; [| |done..]; cbn; intros [= _ <-]; unfold touched; cbn; [|lia].
    rewrite Nat.add_1_r. apply size_insert_le.
Qed.

End grows.

Create HintDb footprint.
#[export] Hint Resolve grows_ret grows_lift grows_throw grows_assert grows_need grows_vread grows_vopen grows_deref
  grows_get grows_set grows_make_shared : footprint.

(** Programs by their structure: steps that take up no entry, ... *)
Ltac grow0 := solve [auto with footprint nocore | assumption].
(** ... steps that take up one, ... *)
Ltac grow1 := first [ apply grows_peek | apply grows_update | apply grows_insert | apply grows_erase ].
(** ... and their composition. *)
Ltac grow := repeat first
  [ grow0 | solve [grow1] | solve [eapply grows_le; [grow1|lia]]
  | apply grows_step; [solve [repeat first [ grow0 | apply grows_step; [grow0|intros ?] | case_match ]]|intros ?]
  | apply grows_next; [solve [grow1]|intros ?]
  | case_match ].

End Footprint.
