(* ===== verification/TransactorSteps.v ===== *)
(** * The way of a transaction to its work

    What the steps before the work of a transaction do ([Transactor::apply] of
    app/tx/impl/Transactor.cpp): when the checks pass, the work starts in a view
    that shows the ledger with the fee taken and the sequence number used, and
    what the work leaves reaches the ledger when it succeeds. *)

From stdpp Require Import base tactics numbers list strings gmap sorting option.
From S2P Require Import Prelude Decimal IOUAmount BigNum Serializer STAmount.
From S2P Require Import View StateTable ApplyStateTable Fields Indexes PaymentSandbox ViewOps.
From S2P Require Import Directory TrustLines Transfers Change LoadFeeTrack MultiSign TxMeta Threading.
From S2P Require Import Footprint Transactor TransactorRun.

Module TransactorSteps.
Import Fields Indexes ViewOps TrustLines Transfers Change Footprint Transactor TransactorRun.

(** ** The entries the steps touch *)

Section steps.
Context `{Build} {SHA : SHA512Half} {B : Type} {RV : ReadView STObject B}.
Context {X : Type}.

Lemma grows_checkSeq c (m : Members X) : grows 1 (Transactor.checkSeq (B := B) c m).
Proof.
  unfold Transactor.checkSeq. assert (Htx : forall k, grows 0 (Transactor.txExists (B := B) k)).
  { intros k s a s'. intros [= _ <-]. lia. }
  assert (Hvs : grows 0 (Transactor.vseq (B := B))) by (intros s a s' [= _ <-]; lia).
  pose proof (Htx (txID c)) as Ht. grow.
Qed.

Lemma grows_payFee c (m : Members X) : grows 1 (Transactor.payFee (B := B) c m).
Proof. unfold Transactor.payFee. grow. Qed.

Lemma grows_checkSign c (m : Members X) : grows 1 (Transactor.checkSign (B := B) c m).
Proof.
  unfold Transactor.checkSign. case_match.
  - intros s a s'. unfold checkMulti. destruct (MultiSign.checkMultiSign _ _ _ _); [|done..]. cbn. intros [= _ <-]. lia.
  - unfold checkSingleSign. grow.
Qed.

(** A type that may also have its own base fee. *)
Definition with_fee (x : X) fee pre work : Processor (B := B) X := mkProc x true fee pre checkSeq payFee checkSign work.

Lemma grows_apply_fee (x : X) fee pre work c m n k : grows 0 (pre c m) -> (forall m', grows k (fee c m')) ->
  (forall m', grows n (work c m')) -> grows (5 + (k + n)) (Transactor.apply (with_fee x fee pre work) c m).
Proof.
  intros Hpre Hfee Hw. apply (grows_le (1 + (k + (4 + n)))); [|lia].
  unfold Transactor.apply. cbn [p_preCheck p_checkSeq p_payFee p_checkSign p_doApply p_baseFee with_fee p_mustHaveValidAccount].
  apply grows_step; [grow0|]. intros f. case_match; [grow0|]. apply grows_step; [done|]. intros r.
  case_match; [grow0|]. apply grows_next; [grow1|]. intros sle. apply grows_bind; [apply Hfee|]. intros bf.
  case_match; [grow0|]. apply grows_step; [grow|]. intros m'.
  apply grows_next; [apply grows_checkSeq|]. intros t. case_match; [grow0|].
  apply grows_next; [apply grows_payFee|]. intros r'. case_match; [grow0|].
  apply grows_next; [apply grows_checkSign|]. intros r''. case_match; [grow0|].
  apply grows_next; [grow|]. intros _. apply Hw.
Qed.

Lemma grows_apply (x : X) pre work c m n : grows 0 (pre c m) -> (forall m', grows n (work c m')) ->
  grows (5 + n) (Transactor.apply (plain (B := B) x pre work) c m).
Proof. intros Hpre Hw. apply (grows_apply_fee x _ pre work c m n 0); [done|intros ?; grow0|done]. Qed.

End steps.

(** ** The checks that pass *)

Section rule.
Context `{Build} {SHA : SHA512Half} {SL : SHA512HalfLaws SHA} {B : Type} {RV : ReadView STObject B}.
Context {VM : ViewModel STObject B} {RL : ReadViewLaws STObject B}.

Abbreviation Base := (OpenView.t STObject B).

(** Nothing but the sequence number decides when the transaction is applied: it
    is not too late, and neither it nor the account tracks the one before. *)
Definition in_turn (c : Ctx) (o : STObject) (now : Z) : Prop :=
  isFieldPresent sfAccountTxnID (tx_o c) = false /\ isFieldPresent sfAccountTxnID o = false /\
  (isFieldPresent sfLastLedgerSequence (tx_o c) = false \/
   exists last, getFieldU32 sfLastLedgerSequence (tx_o c) = Ok last /\ now <= last).

(** A single signature, of the master key or of the regular key. *)
Definition authorised {X} (c : Ctx) (mem : Members X) (id : Z) (o : STObject) : Prop :=
  multi_enabled c && bool_decide (mSigningPubKey mem = []) = false /\
  if calcAccountID c (mSigningPubKey mem) =? id then isFlag lsfDisableMaster o = false
  else o !! sfRegularKey = Some (Some (ACC (calcAccountID c (mSigningPubKey mem)))).

(** The members when the work starts. *)
Record prepared {X} (c : Ctx) (bf : Z) (mem m' : Members X) (n f : Z) : Prop := {
  p_account : account_ m' = account_ mem;
  p_prior : mPriorBalance m' = xrp n;
  p_source : mSourceBalance m' = xrp (n - f);
  p_master : mSigMaster m' = (calcAccountID c (mSigningPubKey mem) =? account_ mem) || mSigMaster mem;
  p_due : mFeeDue m' = mFeeDue (calculateFee c bf mem);
  p_more : extra m' = extra mem }.

Lemma charged_order o n sq : with_drops (with_seq o (u32 (sq + 1))) n = charged o n sq.
Proof. unfold charged, with_drops, with_seq. by apply insert_insert_ne. Qed.

Lemma charged_free o n sq : o !! sfBalance = Some (Some (AMT (xrp n))) -> with_seq o (u32 (sq + 1)) = charged o n sq.
Proof. intros Ho. unfold charged, with_drops. by rewrite (insert_id o) by done. Qed.

(** [checkSeq] for the transaction whose turn it is. *)
Lemma checkSeq_rule {X} c (m : Members X) (b : Base) d s mm p id n sq f o (Q : TER -> St Base -> Prop) :
  rep b d s (mkKnow mm {[getAccountRootIndex id := (p, false)]} ∅ ApplyStateTable.none) ->
  charges c id sq f -> sender mm id n sq o -> account_ m = id -> in_turn c o (seq (OpenView.info_ b)) ->
  (forall s', tabs s' = tabs s ->
     rep b d s' (mkKnow (<[getAccountRootIndex id := account_entry id (with_seq o (u32 (sq + 1)))]> mm)
                   {[getAccountRootIndex id := (p, false)]} ∅ (fun j => j = getAccountRootIndex id)) -> Q tesSUCCESS s') ->
  wpm (Transactor.checkSeq c m) s Q.
Proof.
  intros Hr Hch Hs Hid (Ht1 & Ho1 & Hlast) HQ. unfold Transactor.checkSeq. rewrite Hid.
  apply wpm_bind. eapply peek_held_rule; [exact Hr|apply getAccountRootIndex_pos|apply Hs|apply account_check|apply lookup_singleton_eq|].
  intros s1 Hts1 Hr1. apply wpm_bind. eapply wpm_lift; [apply Hch|]. apply wpm_bind, wpm_need.
  apply wpm_bind. eapply (get_rule _ _ _ _ (getAccountRootIndex id)); [exact Hr1|apply lookup_singleton_eq|apply Hs| |].
  { cbn [fields account_entry]. unfold getFieldU32, getField. by rewrite (s_seq _ _ _ _ _ Hs). }
  rewrite Z.eqb_refl, Ht1. cbn [negb]. apply wpm_bind, wpm_ret. apply wpm_bind.
  assert (Hb1 : OpenView.info_ (ApplyView.base_ (av s1)) = OpenView.info_ b) by (by rewrite (rep_base _ _ _ _ Hr1)).
  assert (Hlate : wpm (if isFieldPresent sfLastLedgerSequence (tx_o c)
     then now ← vseq; last ← lift (getFieldU32 sfLastLedgerSequence (tx_o c)); mret (last <? now)
     else mret false) s1 (fun r s' => r = false /\ s' = s1)).
  { case_match eqn:Hp; [|by apply wpm_ret]. destruct Hlast as [?|(last & Hl & Hle)]; [done|].
    apply wpm_bind. eexists _, s1. split; [done|]. apply wpm_bind. eapply wpm_lift; [done|]. apply wpm_ret.
    split; [|done]. change (View.vinfo (av s1)) with (OpenView.info_ (ApplyView.base_ (av s1))). rewrite Hb1.
    apply Z.ltb_ge. lia. }
  eapply wpm_mono; [exact Hlate|]. intros r s' [-> ->]. apply wpm_bind.
  eapply (set_rule _ _ _ _ (getAccountRootIndex id)); [exact Hr1|apply lookup_singleton_eq|apply Hs|by apply (set_seq _ sq), Hs|].
  intros s2 Hts2 Hr2. cbn [am ap loose dirty fields account_entry] in Hr2.
  assert (Hno : isFieldPresent sfAccountTxnID (with_seq o (u32 (sq + 1))) = false).
  { unfold isFieldPresent, with_seq in *. by rewrite lookup_insert_ne. }
  apply wpm_bind. eapply (get_rule _ _ _ _ (getAccountRootIndex id)); [exact Hr2|apply lookup_singleton_eq|apply lookup_insert_eq| |].
  { cbn [fields with_fields]. by rewrite Hno. }
  apply wpm_bind, wpm_ret. apply wpm_ret. apply HQ; [congruence|].
  eapply rep_weaken; [exact Hr2|done..|]. cbn [dirty]. by intros i [[]|?].
Qed.

(** [payFee] when the account can pay. *)
Lemma payFee_rule {X} c (m : Members X) (b : Base) d s mm p id n n' f o (D : Z -> Prop) (Q : TER * Members X -> St Base -> Prop) :
  rep b d s (mkKnow mm {[getAccountRootIndex id := (p, false)]} ∅ D) -> isOpen (OpenView.info_ b) = false ->
  D (getAccountRootIndex id) -> getFieldAmount sfFee (tx_o c) = Ok (xrp f) -> drops_ok f -> drops_ok n -> f <= n ->
  mm !! getAccountRootIndex id = Some (account_entry id o) -> o !! sfBalance = Some (Some (AMT (xrp n'))) ->
  (f = 0 -> n' = n) -> account_ m = id -> mSourceBalance m = xrp n ->
  (forall s', tabs s' = tabs s ->
     rep b d s' (mkKnow (<[getAccountRootIndex id := account_entry id (with_drops o (n - f))]> mm)
                   {[getAccountRootIndex id := (p, false)]} ∅ D) ->
     Q (tesSUCCESS, set_balances (mPriorBalance m) (xrp (n - f)) m) s') ->
  wpm (Transactor.payFee c m) s Q.
Proof.
  intros Hr Hcl HD Hfee Hf Hn Hle He Hb Hzero Hid Hsrc HQ. unfold Transactor.payFee. rewrite Hid, Hsrc.
  apply wpm_bind. eapply wpm_lift; [done|].
  assert (Hlegal : STAmount.isLegalNet (xrp f) = true).
  { unfold STAmount.isLegalNet. cbn. apply Z.leb_le. apply Hf. }
  rewrite Hlegal. cbn [negb]. apply wpm_bind. unfold vopen. eexists _, s. split; [done|].
  change (View.vinfo (av s)) with (OpenView.info_ (ApplyView.base_ (av s))). rewrite (rep_base _ _ _ _ Hr), Hcl.
  apply wpm_bind, wpm_ret. rewrite xrp_signum by done. cbn [STAmount.mIsNative xrp negb orb].
  destruct (Z.eqb_spec f 0) as [->|Hf0]; cbn.
  - apply wpm_ret. rewrite <- (insert_id mm (getAccountRootIndex id) (account_entry id o)) in Hr by done.
    specialize (Hzero eq_refl) as ->. rewrite Z.sub_0_r in HQ.
    replace m with (set_balances (mPriorBalance m) (xrp n) m) by (rewrite <- Hsrc; by destruct m).
    apply HQ; [done|]. unfold with_drops. by rewrite (insert_id o).
  - apply wpm_bind. eapply peek_held_rule; [exact Hr|apply getAccountRootIndex_pos|done|apply account_check|apply lookup_singleton_eq|].
    intros s1 Ht1 Hr1. apply wpm_bind. eapply wpm_lift; [by apply xrp_ltb|]. rewrite (proj2 (Z.ltb_ge _ _)) by lia.
    apply wpm_bind. eapply wpm_lift; [by apply sub_xrp|]. apply wpm_bind, wpm_need. apply wpm_bind.
    eapply (set_pending _ _ _ _ (getAccountRootIndex id)); [exact Hr1|apply lookup_singleton_eq|done|by apply (set_balance _ n')|].
    intros s2 Ht2 Hr2. cbn [am ap loose dirty fields account_entry] in Hr2. apply wpm_ret. apply HQ; [congruence|].
    eapply rep_weaken; [exact Hr2|done..|]. cbn [dirty]. by intros i [?| ->].
Qed.

(** [checkSign] of a single signature the ledger allows. *)
Lemma checkSign_rule {X} c (mem m : Members X) (b : Base) d s mm p id o (D : Z -> Prop) (Q : TER * Members X -> St Base -> Prop) :
  rep b d s (mkKnow mm {[getAccountRootIndex id := (p, false)]} ∅ D) -> account_ m = id ->
  mSigningPubKey m = mSigningPubKey mem -> mHasAuthKey m = isFieldPresent sfRegularKey o ->
  mm !! getAccountRootIndex id = Some (account_entry id o) -> authorised c mem id o ->
  (forall s', tabs s' = tabs s -> rep b d s' (mkKnow mm {[getAccountRootIndex id := (p, false)]} ∅ D) ->
     Q (tesSUCCESS, if calcAccountID c (mSigningPubKey mem) =? id then set_sigMaster true m else m) s') ->
  wpm (Transactor.checkSign c m) s Q.
Proof.
  intros Hr Hid Hkey Hauth He [Hsingle Hok] HQ. unfold Transactor.checkSign. rewrite Hkey, Hsingle.
  unfold Transactor.checkSingleSign. rewrite Hid, Hkey. apply wpm_bind.
  eapply peek_held_rule; [exact Hr|apply getAccountRootIndex_pos|done|apply account_check|apply lookup_singleton_eq|].
  intros s1 Ht1 Hr1. case_match.
  - apply wpm_bind, wpm_need. apply wpm_bind.
    eapply (get_rule _ _ _ _ (getAccountRootIndex id)); [exact Hr1|apply lookup_singleton_eq|done|done|].
    cbn [fields account_entry]. rewrite Hok. apply wpm_ret. by apply HQ.
  - rewrite Hauth. unfold isFieldPresent. rewrite Hok. apply wpm_bind, wpm_need. apply wpm_bind.
    eapply (get_rule _ _ _ _ (getAccountRootIndex id)); [exact Hr1|apply lookup_singleton_eq|done| |].
    { cbn [fields account_entry]. unfold getAccountID, getField. by rewrite Hok. }
    rewrite Z.eqb_refl. apply wpm_ret. by apply HQ.
Qed.

(** The work starts on the ledger with the fee and the sequence number taken. *)
Lemma apply_fee_rule {X} (x : X) fee pre work c sig (base : Base) mem id n sq f o bf (Q : TER * Effects -> St Base -> Prop) :
  good base -> isOpen (OpenView.info_ base) = false -> charges c id sq f -> sender (contents base) id n sq o -> f <= n ->
  pre c (initial sig x) (fresh_state base) = Ok ((tesSUCCESS, mem), fresh_state base) -> account_ mem = id ->
  in_turn c o (seq (OpenView.info_ base)) -> authorised c mem id o ->
  (forall p s' (Q' : Z -> St Base -> Prop),
     rep base (0, 0) s' (mkKnow (contents base) {[getAccountRootIndex id := (p, false)]} ∅ ApplyStateTable.none) ->
     (forall s2, tabs s2 = tabs s' ->
        rep base (0, 0) s2 (mkKnow (contents base) {[getAccountRootIndex id := (p, false)]} ∅ ApplyStateTable.none) -> Q' bf s2) ->
     wpm (fee c mem) s' Q') ->
  (forall m' p s', tabs s' = [] -> prepared c bf mem m' n f ->
     rep base (0, 0) s' (mkKnow (<[getAccountRootIndex id := account_entry id (charged o (n - f) sq)]> (contents base))
       {[getAccountRootIndex id := (p, true)]} ∅ ApplyStateTable.none) -> wpm (work c m') s' Q) ->
  wpm (Transactor.apply (with_fee x fee pre work) c (initial sig x)) (fresh_state base) Q.
Proof.
  intros Hg Hcl Hch Hs Hle Hpre Hid Hturn Hauth Hbf Hwork. unfold Transactor.apply.
  cbn [p_preCheck p_checkSeq p_payFee p_checkSign p_doApply p_baseFee with_fee p_mustHaveValidAccount].
  apply wpm_bind. eapply wpm_lift; [apply Hch|].
  assert (Hlegal : negb (STAmount.mIsNative (xrp f)) || STAmount.mIsNegative (xrp f) || negb (STAmount.isLegalNet (xrp f)) = false).
  { unfold STAmount.isLegalNet. cbn. pose proof (t_drops _ _ _ _ Hch) as Hd. unfold drops_ok in Hd. by rewrite (proj2 (Z.leb_le _ _)) by lia. }
  rewrite Hlegal. apply wpm_bind. exists (tesSUCCESS, mem), (fresh_state base). split; [done|].
  rewrite bool_decide_eq_true_2 by done. cbn [negb fst snd]. rewrite Hid.
  destruct (ApplyView.make_good base Hg) as (Hgv & Hcv & _).
  pose proof (good_rep (fresh_state base) Hgv) as Hr. cbn [av fresh_state ApplyView.base_ ApplyView.make] in Hr. rewrite Hcv in Hr.
  apply wpm_bind. eapply peek_rule; [exact Hr|apply getAccountRootIndex_pos|apply Hs|apply account_check|done|].
  intros p s0 Ht0 Hr0. cbn [am ap loose dirty] in Hr0.
  change (<[Keylet.key (account id):=(p, false)]> (∅ : gmap Z (loc * bool)))
    with ({[getAccountRootIndex id := (p, false)]} : gmap Z (loc * bool)) in Hr0.
  apply wpm_bind. apply (Hbf p); [exact Hr0|]. intros s1 Ht1' Hr1. assert (Ht1 : tabs s1 = []) by (by rewrite Ht1').
  rewrite bool_decide_eq_true_2 by (by eexists). cbn [negb andb]. apply wpm_bind.
  set (m0 := calculateFee c bf mem).
  assert (Hm : wpm (prior ← get p (getFieldAmount sfBalance);
      auth ← get p (fun o => Ok (isFieldPresent sfRegularKey o)); mret (set_authKey auth (set_balances prior prior m0))) s1
    (fun r s' => r = set_authKey (isFieldPresent sfRegularKey o) (set_balances (xrp n) (xrp n) m0) /\ s' = s1)).
  { apply wpm_bind. eapply (get_rule _ _ _ _ (getAccountRootIndex id)); [exact Hr1|apply lookup_singleton_eq|apply Hs|by apply get_balance, Hs|].
    apply wpm_bind. eapply (get_rule _ _ _ _ (getAccountRootIndex id)); [exact Hr1|apply lookup_singleton_eq|apply Hs|done|].
    by apply wpm_ret. }
  eapply wpm_mono; [exact Hm|]. intros r s' [-> ->]. set (m1 := set_authKey _ _). apply wpm_bind.
  eapply checkSeq_rule; [exact Hr1|done|done|done|done|]. intros s2 Ht2 Hr2.
  rewrite bool_decide_eq_true_2 by done. cbn [negb]. apply wpm_bind.
  eapply (payFee_rule c m1 base _ s2 _ p id n n f (with_seq o (u32 (sq + 1)))); [exact Hr2|done|done|apply Hch|apply Hch|apply Hs|done|apply lookup_insert_eq| |done|done|done|].
  { unfold with_seq. rewrite lookup_insert_ne by done. apply Hs. }
  intros s3 Ht3 Hr3. cbn [fst snd negb]. rewrite bool_decide_eq_true_2 by done. cbn [negb]. rewrite insert_insert_eq, charged_order in Hr3.
  apply wpm_bind. eapply (checkSign_rule c mem); [exact Hr3|done|done| |apply lookup_insert_eq| |].
  { unfold charged, with_seq, with_drops, isFieldPresent. by rewrite !lookup_insert_ne. }
  { destruct Hauth as [Hk Ho]. split; [done|]. unfold charged, with_seq, with_drops, isFlag, getFlags. by rewrite !lookup_insert_ne. }
  intros s4 Ht4 Hr4. cbn [fst snd]. rewrite bool_decide_eq_true_2 by done. cbn [negb].
  apply wpm_bind. eapply (update_rule _ _ _ _ (getAccountRootIndex id)); [exact Hr4|apply lookup_singleton_eq|].
  intros s5 Ht5 Hr5. cbn [am ap loose dirty] in Hr5. apply (Hwork _ p).
  - rewrite Ht5, Ht4, Ht3, Ht2, Ht1. done.
  - split; try (case_match; done). cbn. rewrite <- Hid. by case_match.
  - rewrite insert_singleton_eq in Hr5. eapply rep_weaken; [exact Hr5|done..|]. cbn [dirty]. by intros i [-> ?].
Qed.

(** For a type without a base fee of its own. *)
Lemma apply_rule {X} (x : X) pre work c sig (base : Base) mem id n sq f o (Q : TER * Effects -> St Base -> Prop) :
  good base -> isOpen (OpenView.info_ base) = false -> charges c id sq f -> sender (contents base) id n sq o -> f <= n ->
  pre c (initial sig x) (fresh_state base) = Ok ((tesSUCCESS, mem), fresh_state base) -> account_ mem = id ->
  in_turn c o (seq (OpenView.info_ base)) -> authorised c mem id o ->
  (forall m' p s', tabs s' = [] -> prepared c (calculateBaseFee c) mem m' n f ->
     rep base (0, 0) s' (mkKnow (<[getAccountRootIndex id := account_entry id (charged o (n - f) sq)]> (contents base))
       {[getAccountRootIndex id := (p, true)]} ∅ ApplyStateTable.none) -> wpm (work c m') s' Q) ->
  wpm (Transactor.apply (plain x pre work) c (initial sig x)) (fresh_state base) Q.
Proof.
  intros Hg Hcl Hch Hs Hle Hpre Hid Hturn Hauth Hwork.
  eapply (apply_fee_rule x _ pre work); [done..| |exact Hwork]. intros p s' Q' Hr HQ'. apply wpm_ret. by apply HQ'.
Qed.

(** What a transaction that succeeds leaves in the ledger. *)
Record applied (c : Ctx) (base base' : Base) (m' : gmap Z Entry) (supply' : Z) : Prop := {
  a_good : good base';
  a_shows : shows (txID c) (seq (OpenView.info_ base)) m' (contents base');
  a_supply : supply base' = supply';
  a_total : total (contents base') = total m';
  a_txs : exists md, OpenView.txs_ base' = <[txID c := (txn c, Some (addRaw c md))]> (OpenView.txs_ base);
  a_info : OpenView.info_ base' = OpenView.info_ base }.

(** A view that has erased nothing, or only entries that can be threaded. *)
Definition erased_fit (txID_ : Z) (s : St Base) : Prop :=
  forall k p e, ApplyStateTable.items_ (ApplyView.items_ (av s)) !! k = Some (ApplyStateTable.erase_, p) ->
    ApplyStateTable.heap (ApplyView.items_ (av s)) !! p = Some e -> Threading.entry_ok txID_ e.

Lemma run_success {X} (p : Processor X) c sig (base : Base) e s1 f k d :
  good base -> isOpen (OpenView.info_ base) = false -> txID c <> 0 -> OpenView.txs_ base !! txID c = None ->
  getFieldAmount sfFee (tx_o c) = Ok (xrp f) ->
  Transactor.apply p c (initial sig (p_extra p)) (fresh_state base) = Ok ((tesSUCCESS, e), s1) ->
  rep base d s1 k -> (forall i, ~ dirty k i) -> Z.of_nat (touched s1) <= 5200 ->
  erased_fit (txID c) s1 -> Threading.ledger_fits (txID c) (contents base) (am k) ->
  0 <= f <= supply (av s1) ->
  exists base', run p c sig base = Ok (tesSUCCESS, true, e, base') /\
    applied c base base' (am k) (supply (av s1) - f).
Proof.
  intros Hg Hcl Hid Htx Hfee Happ Hr HD Hsz Her Hfit Hsup.
  destruct (rep_is_good _ _ _ _ Hr HD) as [Hg1 Hc1]. pose proof (rep_base _ _ _ _ Hr) as Hb1.
  destruct (conclude_spec c tesSUCCESS f e s1) as (base' & md & Hconc & Hg' & Hs' & Hsh & Htxs & Hinfo);
    rewrite ?Hb1, ?Hc1; try done; [by left|].
  rewrite Hb1, Hc1 in Hsh. rewrite Hb1 in Htxs, Hinfo. exists base'. split.
  - unfold run. rewrite (proj2 (Z.eqb_neq _ _) Hid), Happ. cbn [mbind result_bind].
    rewrite bool_decide_eq_false_2 by done. rewrite Hfee. cbn [mbind result_bind].
    pose proof (size_touched s1). rewrite (proj2 (Z.ltb_ge _ _)) by lia.
    rewrite bool_decide_eq_false_2 by done. cbn [isTecClaim TER_code orb andb Z.leb Z.compare isTesSuccess Z.eqb].
    rewrite Hconc. done.
  - split; [done|done|done|by eapply shows_total|by exists md|done].
Qed.

Lemma no_erasures (s : St Base) k d (base : Base) txID_ : rep base d s k -> (forall i, ~ dirty k i) ->
  (forall i, is_Some (contents base !! i) -> is_Some (am k !! i)) -> erased_fit txID_ s.
Proof.
  intros Hr HD Hk i p e Hi _. destruct (rep_is_good _ _ _ _ Hr HD) as [Hg1 Hc1].
  destruct (no_erased (av s) i p Hg1); [|done]. intros j. rewrite (rep_base _ _ _ _ Hr), Hc1. apply Hk.
Qed.

(** The supply a view accounts for, by the drops created and destroyed. *)
Lemma rep_supply (s : St Base) k base cr : rep base (0, cr) s k -> 0 <= supply base + cr < 2 ^ 64 -> supply (av s) = supply base + cr.
Proof.
  intros Hr Hb. pose proof (rep_drops _ _ _ _ Hr) as [= Hd Hc]. pose proof (rep_base _ _ _ _ Hr) as Hb1.
  change (supply (av s)) with (ApplyStateTable.drops_after (supply (ApplyView.base_ (av s))) (ApplyView.items_ (av s))).
  rewrite ApplyStateTable.drops_after_eq, Hd, Hc, Hb1, Z.sub_0_r. by apply u64_id.
Qed.

End rule.
End TransactorSteps.
