(* ===== verification/TxFlags.v ===== *)
(** * The flags of transactions

    protocol/TxFlags.h: the flags a transaction may carry, by its type, and the
    flags of accounts that a transaction sets or clears by number. *)

From stdpp Require Import base numbers.
From S2P Require Import Prelude.

Module TxFlags.

(** The flags that are not among these: [~flags] on 32 bits. *)
Definition all_but (flags : list Z) : Z := u32 (Z.lnot (fold_left Z.lor flags 0)).

Definition tfFullyCanonicalSig : Z := 0x80000000.
Definition tfUniversal : Z := tfFullyCanonicalSig.
Definition tfUniversalMask : Z := all_but [tfUniversal].

Definition requireDestTag : Z := 0x00010000.
Definition tfOptionalDestTag : Z := 0x00020000.
Definition tfRequireAuth : Z := 0x00040000.
Definition tfOptionalAuth : Z := 0x00080000.
Definition tfDisallowXRP : Z := 0x00100000.
Definition tfAllowXRP : Z := 0x00200000.
Definition tfAccountSetMask : Z :=
  all_but [tfUniversal; requireDestTag; tfOptionalDestTag; tfRequireAuth; tfOptionalAuth; tfDisallowXRP; tfAllowXRP].

Definition asfRequireDest : Z := 1.
Definition asfRequireAuth : Z := 2.
Definition asfDisallowXRP : Z := 3.
Definition asfDisableMaster : Z := 4.
Definition asfAccountTxnID : Z := 5.
Definition asfNoFreeze : Z := 6.
Definition asfGlobalFreeze : Z := 7.
Definition asfDefaultRipple : Z := 8.

Definition tfPassive : Z := 0x00010000.
Definition tfImmediateOrCancel : Z := 0x00020000.
Definition tfFillOrKill : Z := 0x00040000.
Definition tfSell : Z := 0x00080000.
Definition tfOfferCreateMask : Z := all_but [tfUniversal; tfPassive; tfImmediateOrCancel; tfFillOrKill; tfSell].

Definition tfNoRippleDirect : Z := 0x00010000.
Definition tfPartialPayment : Z := 0x00020000.
Definition tfLimitQuality : Z := 0x00040000.
Definition tfPaymentMask : Z := all_but [tfUniversal; tfPartialPayment; tfLimitQuality; tfNoRippleDirect].

Definition tfSetfAuth : Z := 0x00010000.
Definition tfSetNoRipple : Z := 0x00020000.
Definition tfClearNoRipple : Z := 0x00040000.
Definition tfSetFreeze : Z := 0x00100000.
Definition tfClearFreeze : Z := 0x00200000.
Definition tfTrustSetMask : Z :=
  all_but [tfUniversal; tfSetfAuth; tfSetNoRipple; tfClearNoRipple; tfSetFreeze; tfClearFreeze].

End TxFlags.
