(* ===== verification/DividendTx.v ===== *)
(** * Dividends

    The transactions that pay new drops to accounts ([Dividend] of
    app/tx/impl/Dividend.h and Dividend.cpp).  They are of three kinds: one opens
    a dividend for a ledger, one pays an account its share, one closes the
    dividend.  They carry no fee and no sequence number; what keeps an account
    from being paid twice is the field [sfDividendLedger] of its root. *)

From stdpp Require Import base tactics numbers list strings gmap sorting option.
From S2P Require Import Prelude Decimal IOUAmount BigNum Serializer STAmount.
From S2P Require Import View StateTable ApplyStateTable Fields Indexes PaymentSandbox ViewOps.
From S2P Require Import Directory TrustLines Transfers Change LoadFeeTrack MultiSign TxMeta Threading.
From S2P Require Import Footprint Transactor TransactorRun TransactorSteps.

Module DividendTx.
Import Fields Indexes ViewOps TrustLines Transfers Change Footprint Transactor TransactorRun TransactorSteps.

(** [DividendMaster::DivdendType] and [DivdendState]. *)
Definition DivType_Done : Z := 0.
Definition DivType_Start : Z := 1.
Definition DivType_Apply : Z := 2.
Definition DivState_Done : Z := 0.
Definition DivState_Start : Z := 1.

Definition ttDIVIDEND : Z := 181.

(** The format "Incentive". *)
Definition Incentive : list (SField * SOE_Flags) :=
  [(sfDividendType, SOE_REQUIRED); (sfDividendLedger, SOE_REQUIRED); (sfDestination, SOE_OPTIONAL);
   (sfDividendCoins, SOE_REQUIRED)].

Section dividend.
Context `{Build} {SHA : SHA512Half} {B : Type} {RV : ReadView STObject B}.

Abbreviation Prog := (M (OpenView.t STObject B)).

(** The account the configuration trusts with dividends: the setting
    [public_key] of the section [dividend_account], and its decoding. *)
Context (public_key : string) (parseBase58 : string -> option Z).

Definition preCheck (c : Ctx) (m : Members unit) : result (TER * Members unit) :=
  fee ← getFieldAmount sfFee (tx_o c);
  if negb (STAmount.mIsNative fee) || negb (STAmount.signum fee =? 0) then Ok (temBAD_FEE, m)
  else if negb (isFieldPresent sfDividendType (tx_o c)) then Ok (temBAD_DIV_TYPE, m)
  else if negb (isFieldPresent sfDividendLedger (tx_o c)) then Ok (temINVALID, m)
  else if negb (isFieldPresent sfDividendCoins (tx_o c)) then Ok (temINVALID, m)
  else if bool_decide (public_key = "") then Ok (tefBAD_AUTH, m)
  else
    match parseBase58 public_key with
    | None => Ok (temBAD_SIGNATURE, m)
    | Some accountPublic =>
        key ← getFieldVL sfSigningPubKey (tx_o c);
        if negb (calcAccountID c key =? accountPublic) then Ok (temBAD_SIGNATURE, m)
        else
          t_seq ← getFieldU32 sfSequence (tx_o c);
          Ok (if negb (t_seq =? 0) || isFieldPresent sfPreviousTxnID (tx_o c)
              then temBAD_SEQUENCE else tesSUCCESS, m)
    end.

Definition startCalc (c : Ctx) : Prog TER :=
  dividendObject ← peek_or_insert Indexes.dividend;
  dividendLedger ← lift (getFieldU32 sfDividendLedger (tx_o c));
  dividendCoins ← lift (getFieldU64 sfDividendCoins (tx_o c));
  _ ← set dividendObject (setFieldU8 sfDividendState DivState_Start);
  _ ← set dividendObject (setFieldU32 sfDividendLedger dividendLedger);
  _ ← set dividendObject (setFieldU64 sfDividendCoins dividendCoins);
  _ ← update dividendObject;
  mret tesSUCCESS.

Definition doneApply : Prog TER :=
  dividendObject ← peek Indexes.dividend;
  match dividendObject with
  | None => mret temMALFORMED
  | Some dividendObject =>
      _ ← set dividendObject (setFieldU8 sfDividendState DivState_Done);
      _ ← update dividendObject;
      mret tesSUCCESS
  end.

(** [ApplyContext::createXRP]. *)
Definition createXRP (drops : Z) : Prog unit :=
  do_view (fun v => Ok (ApplyView.raw_createXRP v drops)).

Definition applyTx (c : Ctx) : Prog TER :=
  account_id ← lift (getAccountID sfDestination (tx_o c));
  divCoins ← lift (getFieldU64 sfDividendCoins (tx_o c));
  found ← peek (Indexes.account account_id);
  match found with
  | None => mret tefBAD_LEDGER
  | Some sle =>
      accountDividendLedger ← (present ← get sle (fun o => Ok (isFieldPresent sfDividendLedger o));
                               if present : bool then get sle (getFieldU32 sfDividendLedger) else mret 0);
      divLedgerSeq ← lift (getFieldU32 sfDividendLedger (tx_o c));
      if divLedgerSeq =? accountDividendLedger then mret tefFAILURE
      else
        _ ← (if 0 <? divCoins
             then balance ← get sle (getFieldAmount sfBalance);
                  balance ← lift (STAmount.add balance (STAmount.of_u64 divCoins false));
                  _ ← set sle (setFieldAmount sfBalance balance);
                  createXRP divCoins
             else mret tt);
        _ ← (if isFieldPresent sfDividendLedger (tx_o c)
             then set sle (setFieldU32 sfDividendLedger divLedgerSeq) else mret tt);
        _ ← update sle;
        mret tesSUCCESS
  end.

Definition doApply (c : Ctx) : Prog TER :=
  if tx_type_ (tx c) =? ttDIVIDEND then
    divOpType ← (if isFieldPresent sfDividendType (tx_o c)
                 then lift (getFieldU8 sfDividendType (tx_o c)) else mret DivType_Start);
    if divOpType =? DivType_Start then startCalc c
    else if divOpType =? DivType_Apply then applyTx c
    else if divOpType =? DivType_Done then doneApply
    else mret temUNKNOWN
  else mret temUNKNOWN.

(** The steps the class overrides: no sequence number, no fee, no check of the
    signature, no source account. *)
Definition processor : Processor (B := B) unit :=
  mkProc tt false (fun _ _ => mret 0) (fun c m => lift (preCheck c m)) (fun _ _ => mret tesSUCCESS)
    (fun _ m => mret (tesSUCCESS, m)) (fun _ m => mret (tesSUCCESS, m))
    (fun c _ => t ← doApply c; mret (t, no_effects)).

End dividend.

(** ** What a payment does *)

(** The transaction pays [k] drops to [id] for the ledger [L]. *)
Record pays (c : Ctx) (id L k : Z) : Prop := {
  d_type : tx_type_ (tx c) = ttDIVIDEND;
  d_kind : tx_o c !! sfDividendType = Some (Some (U8 DivType_Apply));
  d_ledger : tx_o c !! sfDividendLedger = Some (Some (U32 L));
  d_coins : tx_o c !! sfDividendCoins = Some (Some (U64 k));
  d_dest : getAccountID sfDestination (tx_o c) = Ok id;
  d_free : getFieldAmount sfFee (tx_o c) = Ok (xrp 0) }.

(** The account root after it. *)
Definition paid (o : STObject) (n L : Z) : STObject := <[sfDividendLedger := Some (U32 L)]> (with_drops o n).

Lemma paid_drops {SHA : SHA512Half} m id n k L o : holds_drops m id n o ->
  total (<[getAccountRootIndex id := account_entry id (paid o (n + k) L)]> m) = total m + k.
Proof.
  intros (He & Hb & _). rewrite (total_replace _ _ _ _ He). unfold drops_of. cbn [getType account_entry fields].
  unfold paid, with_drops. rewrite lookup_insert_ne, lookup_insert_eq, Hb by done. unfold STAmount.signed. cbn. lia.
Qed.

Section proofs.
Context `{Build} {SHA : SHA512Half} {SL : SHA512HalfLaws SHA} {B : Type} {RV : ReadView STObject B}.
Context {VM : ViewModel STObject B} {RL : ReadViewLaws STObject B}.
Context (public_key : string) (parseBase58 : string -> option Z).

Abbreviation Base := (OpenView.t STObject B).

Lemma grows_createXRP n k : grows (V := Base) k (createXRP n).
Proof. intros s a s'. unfold createXRP, do_view, on_view. cbn. intros [= _ <-]. unfold touched. cbn. lia. Qed.

#[local] Hint Resolve grows_createXRP : footprint.

Lemma grows_peek_or_insert k : grows (V := Base) 2 (peek_or_insert k).
Proof. unfold peek_or_insert. grow. Qed.

Lemma grows_dividend_doApply c : grows 3 (doApply (B := B) c).
Proof.
  unfold doApply. assert (Hs : grows 3 (startCalc (B := B) c)).
  { apply (grows_bind 2 1); [apply grows_peek_or_insert|]. intros p. grow. }
  case_match; [|grow0]. apply grows_step; [grow|]. intros t. unfold applyTx, doneApply. grow.
Qed.

Lemma grows_processor c m : grows 5 (Transactor.apply (processor (B := B) public_key parseBase58) c m).
Proof.
  unfold Transactor.apply, processor. cbn [p_preCheck p_checkSeq p_payFee p_checkSign p_doApply p_baseFee].
  apply grows_step; [grow0|]. intros fee. case_match; [grow0|]. apply grows_step; [grow0|]. intros r.
  case_match; [grow0|]. apply grows_next; [grow1|]. intros sle. apply grows_step; [grow0|]. intros bf.
  case_match; [grow0|]. apply grows_step; [grow|]. intros m'. do 3 (apply grows_step; [grow0|]; intros ?; case_match; [grow0|]).
  apply grows_next; [grow|]. intros _. apply grows_last; [apply grows_dividend_doApply|]. grow.
Qed.

Lemma createXRP_rule (b : Base) d s k n (Q : unit -> St Base -> Prop) : rep b d s k ->
  (forall s', tabs s' = tabs s -> rep b (d.1, u64 (d.2 + n)) s' k -> Q tt s') -> wpm (createXRP n) s Q.
Proof.
  intros [Hb Hbase Hd [(Hok & Hdd & Hdc) Hcl] Hsh Hpt Hlo] HQ. eexists tt, _. split; [done|]. apply HQ; [done|]. subst d.
  split; try done. split; [|done]. split; [done|]. split; [done|]. apply u64_range.
Qed.

(** The share of an account: paid once for a dividend. *)
Lemma applyTx_rule c (b : Base) s m id n o L k (Q : TER -> St Base -> Prop) :
  rep b (0, 0) s (mkKnow m ∅ ∅ ApplyStateTable.none) -> pays c id L k -> holds_drops m id n o ->
  has_place sfDividendLedger o -> 0 <= k -> drops_ok (n + k) ->
  (forall s' ap', if L =? u32_of sfDividendLedger o
     then rep b (0, 0) s' (mkKnow m ap' ∅ ApplyStateTable.none) -> Q tefFAILURE s'
     else rep b (0, k) s' (mkKnow (<[getAccountRootIndex id := account_entry id (paid o (n + k) L)]> m) ap' ∅ ApplyStateTable.none) ->
       Q tesSUCCESS s') ->
  wpm (applyTx c) s Q.
Proof.
  intros Hr Hp (He & Hb & Hn) Hpl Hk Hnk HQ. unfold applyTx. unfold drops_ok in *.
  apply wpm_bind. eapply wpm_lift; [apply Hp|]. apply wpm_bind. eapply wpm_lift.
  { unfold getFieldU64, getField. by rewrite (d_coins _ _ _ _ Hp). }
  apply wpm_bind. eapply peek_rule; [exact Hr|apply getAccountRootIndex_pos|done|apply account_check|done|].
  intros p s1 _ Hr1. cbn [am ap loose dirty] in Hr1. set (i := getAccountRootIndex id) in *.
  change (<[Keylet.key (account id) := (p, false)]> (∅ : gmap Z (loc * bool))) with ({[i := (p, false)]} : gmap Z (loc * bool)) in Hr1.
  apply wpm_bind.
  assert (Hl : wpm (present ← get p (fun o => Ok (isFieldPresent sfDividendLedger o));
    if present : bool then get p (getFieldU32 sfDividendLedger) else mret 0) s1 (fun r s' => r = u32_of sfDividendLedger o /\ s' = s1)).
  { apply wpm_bind. eapply (get_rule _ _ _ _ i); [exact Hr1|apply lookup_singleton_eq|done|done|]. cbn [fields account_entry].
    destruct (isFieldPresent sfDividendLedger o) eqn:Hpr.
    - eapply (get_rule _ _ _ _ i); [exact Hr1|apply lookup_singleton_eq|done| |done]. by apply get_u32_of.
    - apply wpm_ret. split; [|done]. unfold isFieldPresent in Hpr. unfold u32_of. by destruct (o !! sfDividendLedger) as [[]|]. }
  eapply wpm_mono; [exact Hl|]. intros r s' [-> ->]. apply wpm_bind. eapply wpm_lift.
  { unfold getFieldU32, getField. by rewrite (d_ledger _ _ _ _ Hp). }
  destruct (L =? u32_of sfDividendLedger o).
  { apply wpm_ret. by eapply HQ. }
  assert (Hpres : isFieldPresent sfDividendLedger (tx_o c) = true) by (unfold isFieldPresent; by rewrite (d_ledger _ _ _ _ Hp)).
  apply wpm_bind.
  assert (Hpay : wpm (if 0 <? k then balance ← get p (getFieldAmount sfBalance);
      balance ← lift (STAmount.add balance (STAmount.of_u64 k false));
      _ ← set p (setFieldAmount sfBalance balance); createXRP k else mret tt) s1
    (fun _ s' => rep b (0, k) s' (mkKnow (<[i := account_entry id (with_drops o (n + k))]> m) {[i := (p, false)]} ∅ (fun j => j = i)))).
  { destruct (Z.ltb_spec 0 k).
    - apply wpm_bind. eapply (get_rule _ _ _ _ i); [exact Hr1|apply lookup_singleton_eq|done|by apply get_balance|].
      replace (STAmount.of_u64 k false) with (xrp k) by (unfold STAmount.of_u64; by rewrite andb_false_r).
      apply wpm_bind. eapply wpm_lift; [apply add_xrp; unfold drops_ok; lia|]. apply wpm_bind.
      eapply (set_rule _ _ _ _ i); [exact Hr1|apply lookup_singleton_eq|done|by apply (set_balance _ n)|].
      intros s2 _ Hr2. cbn [am ap loose dirty fields account_entry] in Hr2. eapply createXRP_rule; [exact Hr2|].
      intros s3 _ Hr3. cbn [fst snd] in Hr3. rewrite Z.add_0_l, u64_id in Hr3 by (unfold STAmount.cMaxNativeN in *; lia).
      eapply rep_weaken; [exact Hr3|done..|]. cbn [dirty]. by intros j [[]|?].
    - apply wpm_ret. assert (k = 0) as -> by lia. rewrite Z.add_0_r. unfold with_drops. rewrite (insert_id o), insert_id by done.
      eapply rep_weaken; [exact Hr1|done..|]. by intros j []. }
  eapply wpm_mono; [exact Hpay|]. intros ? s2 Hr2. cbn beta in Hr2. rewrite Hpres. apply wpm_pair.
  eapply (set_update_settles _ _ _ _ i); [exact Hr2|apply lookup_singleton_eq|apply lookup_insert_eq| |].
  { apply setField_ok; [|done]. cbn [fields account_entry]. unfold has_place, with_drops in *. by rewrite lookup_insert_ne. }
  intros s3 _ Hr3. cbn [am ap loose dirty fields account_entry] in Hr3. rewrite insert_insert_eq in Hr3. apply wpm_ret.
  apply (HQ s3 (<[i := (p, true)]> {[i := (p, false)]})). eapply rep_weaken; [exact Hr3|done..|]. cbn [dirty]. by intros j [-> ?].
Qed.

(** The rest of the account root is as it was. *)
Lemma fit_paid txID_ id o n L : Threading.entry_ok txID_ (account_entry id o) /\ Threading.owner_fields (account_entry id o) ->
  Threading.entry_ok txID_ (account_entry id (paid o n L)) /\ Threading.owner_fields (account_entry id (paid o n L)).
Proof.
  intros Hf. unfold paid, with_drops. apply fit_account; [by apply (bool_decide_unpack _)|].
  apply fit_account; [by apply (bool_decide_unpack _)|done].
Qed.

(** C19: a dividend creates exactly the drops it pays, and pays an account once.
    A payment of [k] drops to an account for the ledger [L], signed with the key
    of the trusted account and without a fee, applied to a ledger that is being
    closed: when the account was last paid for the same ledger, it is refused and
    the ledger is untouched; otherwise the account has [k] drops more and is
    marked with [L], every other entry is as before, and both the drops of all
    accounts and those the ledger accounts for have grown by [k]. *)
Theorem dividend_pays c sig (base : Base) id n o L k :
  good base -> isOpen (OpenView.info_ base) = false -> txID c <> 0 -> OpenView.txs_ base !! txID c = None ->
  pays c id L k -> preCheck public_key parseBase58 c (initial sig tt) = Ok (tesSUCCESS, initial sig tt) ->
  contents base !! getAccountRootIndex 0 = None -> holds_drops (contents base) id n o -> has_place sfDividendLedger o ->
  0 <= k -> drops_ok (n + k) -> supply base + k < 2 ^ 64 -> all_fit (txID c) (contents base) ->
  if L =? u32_of sfDividendLedger o
  then run (processor public_key parseBase58) c sig base = Ok (tefFAILURE, false, no_effects, base)
  else exists base', run (processor public_key parseBase58) c sig base = Ok (tesSUCCESS, true, no_effects, base') /\
    applied c base base' (<[getAccountRootIndex id := account_entry id (paid o (n + k) L)]> (contents base)) (supply base + k) /\
    total (contents base') = total (contents base) + k.
Proof.
  intros Hg Hcl Hid Htx Hp Hpre Hno Hh Hpl Hk Hnk Hsup Hfit. pose proof (d_free _ _ _ _ Hp) as Hfee.
  destruct (ApplyView.make_good base Hg) as (Hgv & Hcv & _).
  pose proof (good_rep (fresh_state base) Hgv) as Hr. cbn [av fresh_state ApplyView.base_ ApplyView.make] in Hr. rewrite Hcv in Hr.
  assert (Happ : wpm (Transactor.apply (processor public_key parseBase58) c (initial sig tt)) (fresh_state base)
    (fun r s' => if L =? u32_of sfDividendLedger o
       then r = (tefFAILURE, no_effects) /\ exists k', rep base (0, 0) s' k'
       else r = (tesSUCCESS, no_effects) /\ exists ap', rep base (0, k) s'
         (mkKnow (<[getAccountRootIndex id := account_entry id (paid o (n + k) L)]> (contents base)) ap' ∅ ApplyStateTable.none))).
  { unfold Transactor.apply, processor. cbn [p_preCheck p_checkSeq p_payFee p_checkSign p_doApply p_baseFee].
    apply wpm_bind. eapply wpm_lift; [done|]. cbn [STAmount.mIsNative STAmount.mIsNegative xrp negb orb STAmount.isLegalNet].
    change (negb (STAmount.mValue (xrp 0) <=? STAmount.cMaxNativeN)) with false.
    apply wpm_bind. eapply wpm_lift; [done|]. cbn [fst snd]. rewrite bool_decide_eq_true_2 by done. cbn [negb].
    apply wpm_bind. eapply peek_none_rule; [exact Hr|apply getAccountRootIndex_pos|done|].
    apply wpm_bind, wpm_ret. rewrite andb_false_r. apply wpm_bind, wpm_ret. do 3 (apply wpm_bind, wpm_ret; cbn [fst snd]; rewrite bool_decide_eq_true_2 by done; cbn [negb]).
    apply wpm_bind, wpm_ret. apply wpm_bind. unfold doApply. rewrite (d_type _ _ _ _ Hp), Z.eqb_refl.
    assert (Hty : isFieldPresent sfDividendType (tx_o c) = true) by (unfold isFieldPresent; by rewrite (d_kind _ _ _ _ Hp)).
    rewrite Hty. apply wpm_bind. eapply wpm_lift; [unfold getFieldU8, getField; by rewrite (d_kind _ _ _ _ Hp)|].
    change (DivType_Apply =? DivType_Start) with false. rewrite Z.eqb_refl.
    eapply (applyTx_rule c base _ (contents base) id n o L k); [exact Hr|done..|]. intros s' ap'.
    case_match; intros Hr'; apply wpm_ret; (split; [done|by eexists]). }
  destruct Happ as (r & s1 & Happ & HQ). pose proof (grows_processor c _ _ _ _ Happ) as Hsz.
  change (touched (fresh_state base)) with 0%nat in Hsz. case_match eqn:HL.
  - destruct HQ as [-> [k' Hr']]. unfold run. rewrite (proj2 (Z.eqb_neq _ _) Hid). cbn [p_extra processor]. rewrite Happ. cbn [mbind result_bind].
    rewrite bool_decide_eq_false_2 by done. rewrite Hfee. cbn [mbind result_bind].
    pose proof (size_touched s1). rewrite (proj2 (Z.ltb_ge _ _)) by lia. done.
  - destruct HQ as [-> [ap' Hr']]. pose proof (good_supply _ Hg) as Hs0. set (m' := <[getAccountRootIndex id := _]> (contents base)) in *.
    pose proof (rep_supply s1 _ base k Hr') as Hs1. specialize (Hs1 ltac:(lia)).
    pose proof (same_keys_insert (contents base) _ _ (account_entry id (paid o (n + k) L)) (proj1 Hh)) as Hkeys. fold m' in Hkeys.
    destruct (run_success (processor public_key parseBase58) c sig base no_effects s1 0 _ _ Hg Hcl Hid Htx Hfee Happ Hr') as (base' & Hrun & Ha).
    + by intros i [].
    + lia.
    + eapply no_erasures; [exact Hr'|by intros i []|]. intros i. apply Hkeys.
    + apply fits_same_keys; [done| |done]. intros j e. unfold m'. cbn [am].
      destruct (decide (j = getAccountRootIndex id)) as [->|Hne]; [|rewrite lookup_insert_ne by done; apply Hfit].
      rewrite lookup_insert_eq. intros [= <-]. apply fit_paid. by eapply Hfit, Hh.
    + lia.
    + exists base'. rewrite Hs1, Z.sub_0_r in Ha. split_and!; [done|done|]. rewrite (a_total _ _ _ _ _ Ha). by apply paid_drops.
Qed.

End proofs.

(** ** Examples: dividends for account 9 *)

Module Examples.
Import Transfers.Examples Threading.Examples TransactorRun.Examples.

Definition dividend_tx (id L k : Z) : STTx :=
  mkTx ttDIVIDEND (<[sfDividendType := Some (U8 DivType_Apply)]> (<[sfDividendLedger := Some (U32 L)]>
    (<[sfDividendCoins := Some (U64 k)]> (<[sfDestination := Some (ACC id)]> (<[sfFee := Some (AMT (xrp 0))]>
    (<[sfSigningPubKey := Some (VL [42])]> (set_template (Incentive ++ tx_common_fields)))))))).

(** The identity of the transaction is [txid]; its signature is not valid. *)
Definition dividend_ctx (txid id L k : Z) : Ctx :=
  mkCtx (dividend_tx id L k) txid [1; 2] None 0 (mkFees 10 10 20 5) 10 LoadFeeTrack.make false (fun _ => false) (fun _ _ => false)
    (fun key => default 0 (head key)) (fun _ => []).

Definition trusted (_ : string) : option Z := Some 42.

Lemma dividend_pays_witness : exists base',
  run (processor "r42" trusted) (dividend_ctx 5 9 3 10) sig_indeterminate closing105 = Ok (tesSUCCESS, true, no_effects, base') /\
  supply base' = 115 /\ total (contents base') = total (contents closing105) + 10.
Proof.
  assert (Hh : holds_drops (contents closing105) 9 5 (account_of 9 5)).
  { split; [vm_compute; reflexivity|]. split; [vm_compute; reflexivity|]. split; vm_compute; discriminate. }
  destruct (dividend_pays "r42" trusted (dividend_ctx 5 9 3 10) sig_indeterminate closing105 9 5 (account_of 9 5) 3 10
    closing105_good eq_refl ltac:(discriminate) eq_refl ltac:(split; reflexivity) eq_refl eq_refl Hh I ltac:(discriminate)
    ltac:(split; discriminate) eq_refl fit105) as (base' & Hrun & Ha & Ht).
  exists base'. split; [exact Hrun|]. split; [|exact Ht]. rewrite (a_supply _ _ _ _ _ Ha), (proj2 supply105). reflexivity.
Defined.

(** The next ledger, on what a transaction left. *)
Definition next_ledger (r : result (TER * bool * Effects * OpenView.t STObject (Ledger.t STObject))) : OpenView.t STObject (Ledger.t STObject) :=
  match r with
  | Ok (_, _, _, b) => OpenView.mk ∅ (OpenView.info_ b) (OpenView.base_ b) (OpenView.items_ b)
  | _ => closing105
  end.

Definition pay (txid L : Z) (b : OpenView.t STObject (Ledger.t STObject)) :=
  run (processor "r42" trusted) (dividend_ctx txid 9 L 10) sig_indeterminate b.

(** Only the last dividend is remembered: the transaction for the ledger 1 is
    refused while that is the last one paid, and pays again after the one for
    the ledger 2.  The signature of these transactions does not verify. *)
Lemma dividend_replayed :
  let b1 := next_ledger (pay 5 1 closing105) in
  let b2 := next_ledger (pay 6 2 b1) in
  let b3 := next_ledger (pay 5 1 b2) in
  (exists b, pay 5 1 b1 = Ok (tefFAILURE, false, no_effects, b)) /\
  supply b1 = 115 /\ supply b2 = 125 /\ supply b3 = 135.
Proof. split; [eexists; vm_compute; reflexivity|]. vm_compute. split_and!; reflexivity. Qed.

End Examples.
End DividendTx.
