(* ===== verification/PaymentTx.v ===== *)
(** * Payments

    The transactor of payments ([Payment] of app/tx/impl/Payment.h and
    Payment.cpp): its checks, the creation of the destination, the direct transfer
    of drops, and the use it makes of the ripple calculation.  The calculation
    itself ([path::RippleCalc::rippleCalculate], run in a sandbox that is then
    applied) is a parameter. *)

From stdpp Require Import base tactics numbers list strings gmap sorting option.
From S2P Require Import Prelude Decimal IOUAmount BigNum Serializer STAmount.
From S2P Require Import View StateTable ApplyStateTable Fields Indexes PaymentSandbox ViewOps.
From S2P Require Import Directory TrustLines Transfers Change LoadFeeTrack MultiSign TxMeta Threading.
From S2P Require Import Footprint Transactor TransactorRun TransactorSteps TxFlags.

Module PaymentTx.
Import Fields Indexes ViewOps TrustLines Transfers Change Footprint Transactor TransactorRun TransactorSteps TxFlags.

Definition ttPAYMENT : Z := 0.

(** The format "Payment". *)
Definition Payment : list (SField * SOE_Flags) :=
  [(sfDestination, SOE_REQUIRED); (sfAmount, SOE_REQUIRED); (sfSendMax, SOE_OPTIONAL); (sfPaths, SOE_DEFAULT);
   (sfInvoiceID, SOE_OPTIONAL); (sfDestinationTag, SOE_OPTIONAL); (sfDeliverMin, SOE_OPTIONAL)].

Definition deliverMinTime : Z := 493149600.
Definition badCurrency : Z := 0x5852500000000000.
Definition MaxPathSize : nat := 6.
Definition MaxPathLength : nat := 8.

Definition isTerRetry (x : TER) : bool := (TER_code terRETRY <=? TER_code x) && (TER_code x <? TER_code tesSUCCESS).

(** [path::RippleCalc::Input]. *)
Record Input := mkInput {
  partialPaymentAllowed : bool; defaultPathsAllowed : bool; limitQuality : bool;
  deleteUnfundedOffers : bool; isLedgerOpen : bool }.

(** The most the source spends; without [sfSendMax] it is the amount delivered,
    as the source's own issue. *)
Definition max_source (c : Ctx) (account_id : Z) (saDstAmount : STAmount.t) : result STAmount.t :=
  if isFieldPresent sfSendMax (tx_o c) then getFieldAmount sfSendMax (tx_o c)
  else if STAmount.mIsNative saDstAmount then Ok saDstAmount
  else STAmount.of_issue (STAmount.mkIssue (STAmount.currency (STAmount.mIssue saDstAmount)) account_id)
         (STAmount.mValue saDstAmount) (STAmount.mOffset saDstAmount) (STAmount.signum saDstAmount <? 0).

Section payment.
Context `{Build} {SHA : SHA512Half} {B : Type} {RV : ReadView STObject B}.

Abbreviation Prog := (M (OpenView.t STObject B)).
Abbreviation Mem := (Members unit).

Definition allowDeliverMin (c : Ctx) : Prog bool :=
  t ← lift_view parentCloseTime; mret ((deliverMinTime <? t) || has (flags c) tapENABLE_TESTING).

(** The checks of [sfDeliverMin]. *)
Definition check_deliver_min (c : Ctx) (partialPayment : bool) (saDstAmount : STAmount.t) : Prog TER :=
  if isFieldPresent sfDeliverMin (tx_o c) then
    allowed ← allowDeliverMin c;
    if negb allowed then mret temMALFORMED
    else if negb partialPayment then mret temBAD_AMOUNT
    else
      dMin ← lift (getFieldAmount sfDeliverMin (tx_o c));
      if negb (STAmount.isLegalNet dMin) || (STAmount.signum dMin <=? 0) then mret temBAD_AMOUNT
      else if negb (STAmount.issue_eqb (STAmount.mIssue dMin) (STAmount.mIssue saDstAmount)) then mret temBAD_AMOUNT
      else
        more ← lift (STAmount.gtb dMin saDstAmount);
        mret (if more : bool then temBAD_AMOUNT else tesSUCCESS)
  else mret tesSUCCESS.

(** The account is not set yet when this runs. *)
Definition preCheck (c : Ctx) (m : Mem) : Prog (TER * Mem) :=
  let uTxFlags := getFlags (tx_o c) in
  if has uTxFlags tfPaymentMask then mret (temINVALID_FLAG, m)
  else
    let partialPayment := has uTxFlags tfPartialPayment in
    let limit := has uTxFlags tfLimitQuality in
    let defaultPaths := negb (has uTxFlags tfNoRippleDirect) in
    let bPaths := isFieldPresent sfPaths (tx_o c) in
    let bMax := isFieldPresent sfSendMax (tx_o c) in
    saDstAmount ← lift (getFieldAmount sfAmount (tx_o c));
    maxSourceAmount ← lift (max_source c (account_ m) saDstAmount);
    let uSrcCurrency := STAmount.currency (STAmount.mIssue maxSourceAmount) in
    let uDstCurrency := STAmount.currency (STAmount.mIssue saDstAmount) in
    let bXRPDirect := (uSrcCurrency =? 0) && (uDstCurrency =? 0) in
    if negb (STAmount.isLegalNet saDstAmount) || negb (STAmount.isLegalNet maxSourceAmount) then mret (temBAD_AMOUNT, m)
    else
      uDstAccountID ← lift (getAccountID sfDestination (tx_o c));
      if uDstAccountID =? 0 then mret (temDST_NEEDED, m)
      else if bMax && (STAmount.signum maxSourceAmount <=? 0) then mret (temBAD_AMOUNT, m)
      else if STAmount.signum saDstAmount <=? 0 then mret (temBAD_AMOUNT, m)
      else if (badCurrency =? uSrcCurrency) || (badCurrency =? uDstCurrency) then mret (temBAD_CURRENCY, m)
      else if (account_ m =? uDstAccountID) && (uSrcCurrency =? uDstCurrency) && negb bPaths then mret (temREDUNDANT, m)
      else if bXRPDirect && bMax then mret (temBAD_SEND_XRP_MAX, m)
      else if bXRPDirect && bPaths then mret (temBAD_SEND_XRP_PATHS, m)
      else if bXRPDirect && partialPayment then mret (temBAD_SEND_XRP_PARTIAL, m)
      else if bXRPDirect && limit then mret (temBAD_SEND_XRP_LIMIT, m)
      else if bXRPDirect && negb defaultPaths then mret (temBAD_SEND_XRP_NO_DIRECT, m)
      else
        t ← check_deliver_min c partialPayment saDstAmount;
        if negb (bool_decide (t = tesSUCCESS)) then mret (t, m)
        else lift (Transactor.preCheck c m).

(** The destination: created, refused, or flagged as changed. *)
Definition destination (c : Ctx) (uDstAccountID : Z) (saDstAmount : STAmount.t) (partialPayment : bool) : Prog (TER * option loc) :=
  let k := Indexes.account uDstAccountID in
  found ← peek k;
  match found with
  | None =>
      is_open ← vopen;
      if negb (STAmount.mIsNative saDstAmount) then mret (tecNO_DST, None)
      else if is_open && partialPayment then mret (telNO_DST_PARTIAL, None)
      else
        short ← lift (STAmount.ltb saDstAmount (STAmount.of_u64 (accountReserve (fees c) 0) false));
        if short : bool then mret (tecNO_DST_INSUF_XRP, None)
        else
          sle ← lift (make_SLE k);
          sleDst ← make_shared sle;
          _ ← set sleDst (setAccountID sfAccount uDstAccountID);
          _ ← set sleDst (setFieldU32 sfSequence 1);
          _ ← insert sleDst;
          mret (tesSUCCESS, Some sleDst)
  | Some sleDst =>
      fl ← get sleDst (fun o => Ok (getFlags o));
      if has fl lsfRequireDestTag && negb (isFieldPresent sfDestinationTag (tx_o c)) then mret (tecDST_TAG_NEEDED, None)
      else _ ← update sleDst; mret (tesSUCCESS, Some sleDst)
  end.

(** The direct transfer of drops. *)
Definition direct (c : Ctx) (m : Mem) (sleDst : loc) (saDstAmount : STAmount.t) : Prog TER :=
  sle ← vread (Indexes.account (account_ m));
  uOwnerCount ← (match sle with
                 | Some e => lift (getFieldU32 sfOwnerCount (fields e))
                 | None => ViewOps.throw "null"
                 end);
  let uReserve := STAmount.of_u64 (accountReserve (fees c) uOwnerCount) false in
  fee ← lift (getFieldAmount sfFee (tx_o c));
  less ← lift (STAmount.ltb fee uReserve);
  let mmm := if less : bool then uReserve else fee in
  needed ← lift (STAmount.add saDstAmount mmm);
  short ← lift (STAmount.ltb (mPriorBalance m) needed);
  if short : bool then mret tecUNFUNDED_PAYMENT
  else
    src ← peek (Indexes.account (account_ m));
    src ← need src;
    left ← lift (STAmount.sub (mSourceBalance m) saDstAmount);
    _ ← set src (setFieldAmount sfBalance left);
    balance ← get sleDst (getFieldAmount sfBalance);
    balance ← lift (STAmount.add balance saDstAmount);
    _ ← set sleDst (setFieldAmount sfBalance balance);
    fl ← get sleDst (fun o => Ok (getFlags o));
    _ ← (if has fl lsfPasswordSpent then set sleDst (fun o => Ok (clearFlag lsfPasswordSpent o)) else mret tt);
    mret tesSUCCESS.

(** The ripple calculation, in a sandbox over the view that is applied to it at
    the end: the result and the amount delivered. *)
Context (rippleCalculate : STAmount.t -> STAmount.t -> Z -> Z -> list (list PathElement) -> Input -> Prog (TER * STAmount.t)).

(** An exception is a result, and leaves no trace in the view; what ends the
    process is not caught. *)
Definition try_catch {A} (prog : Prog A) (handler : A) : Prog A := fun s => catching (handler, s) (prog s).

Definition indirect (c : Ctx) (m : Mem) (uDstAccountID : Z) (saDstAmount maxSourceAmount : STAmount.t)
    (partialPayment limit defaultPaths deliverMin : bool) : Prog (TER * Effects) :=
  spsPaths ← lift (getFieldPathSet sfPaths (tx_o c));
  try_catch
    (is_open ← vopen;
     let rcInput := mkInput partialPayment defaultPaths limit true is_open in
     let pathTooBig := (MaxPathSize <? length spsPaths)%nat ||
                       existsb (fun path => (MaxPathLength <? length path)%nat) spsPaths in
     r ← (if is_open && pathTooBig then mret (telBAD_PATH_COUNT, no_effects)
          else
            rc ← rippleCalculate maxSourceAmount saDstAmount uDstAccountID (account_ m) spsPaths rcInput;
            if bool_decide (rc.1 = tesSUCCESS) && negb (STAmount.eqb rc.2 saDstAmount) then
              little ← (if deliverMin : bool
                        then dMin ← lift (getFieldAmount sfDeliverMin (tx_o c)); lift (STAmount.ltb rc.2 dMin)
                        else mret false);
              mret (if little : bool then (tecPATH_PARTIAL, no_effects) else (tesSUCCESS, mkEffects (Some rc.2) None))
            else mret (rc.1, no_effects));
     mret (if isTerRetry r.1 then (tecPATH_DRY, r.2) else r))
    (tefEXCEPTION, no_effects).

Definition doApply (c : Ctx) (m : Mem) : Prog (TER * Effects) :=
  let uTxFlags := getFlags (tx_o c) in
  let partialPayment := has uTxFlags tfPartialPayment in
  let limit := has uTxFlags tfLimitQuality in
  let defaultPaths := negb (has uTxFlags tfNoRippleDirect) in
  let bPaths := isFieldPresent sfPaths (tx_o c) in
  let bMax := isFieldPresent sfSendMax (tx_o c) in
  deliverMin ← (if isFieldPresent sfDeliverMin (tx_o c) then allowDeliverMin c else mret false);
  uDstAccountID ← lift (getAccountID sfDestination (tx_o c));
  saDstAmount ← lift (getFieldAmount sfAmount (tx_o c));
  maxSourceAmount ← lift (max_source c (account_ m) saDstAmount);
  dst ← destination c uDstAccountID saDstAmount partialPayment;
  match dst with
  | (t, None) => mret (t, no_effects)
  | (_, Some sleDst) =>
      if bPaths || bMax || negb (STAmount.mIsNative saDstAmount)
      then indirect c m uDstAccountID saDstAmount maxSourceAmount partialPayment limit defaultPaths deliverMin
      else t ← direct c m sleDst saDstAmount; mret (t, no_effects)
  end.

Definition processor : Processor (B := B) unit := plain tt preCheck doApply.

End payment.

(** ** Direct payments of drops *)

(** The transaction sends [a] drops to the account [to], and nothing else. *)
Record sends (c : Ctx) (to a : Z) : Prop := {
  y_flags : has (getFlags (tx_o c)) tfPaymentMask = false /\ has (getFlags (tx_o c)) tfPartialPayment = false /\
            has (getFlags (tx_o c)) tfLimitQuality = false /\ has (getFlags (tx_o c)) tfNoRippleDirect = false;
  y_plain : isFieldPresent sfPaths (tx_o c) = false /\ isFieldPresent sfSendMax (tx_o c) = false /\
            isFieldPresent sfDeliverMin (tx_o c) = false;
  y_dest : getAccountID sfDestination (tx_o c) = Ok to;
  y_to : to <> 0;
  y_amount : getFieldAmount sfAmount (tx_o c) = Ok (xrp a);
  y_drops : 0 < a /\ drops_ok a }.

(** The fee of the password is available again. *)
Definition rearmed (o : STObject) : STObject :=
  if has (getFlags o) lsfPasswordSpent then clearFlag lsfPasswordSpent o else o.

(** The root of a new account. *)
Definition new_root (id : Z) : STObject :=
  <[sfSequence := Some (U32 1)]> (<[sfAccount := Some (ACC id)]> (<[sfLedgerEntryType := Some (U16 Keylet.ltACCOUNT_ROOT)]>
    (set_template (AccountRoot ++ common_fields)))).

(** Where the drops go: an account that has [nt] drops and asks for no tag that
    the transaction lacks, or one that is created with at least the reserve. *)
Definition receiver {SHA : SHA512Half} (c : Ctx) (m : gmap Z Entry) (to a nt : Z) (ro : STObject) : Prop :=
  holds_drops m to nt ro /\ (has (getFlags ro) lsfRequireDestTag = true -> isFieldPresent sfDestinationTag (tx_o c) = true) \/
  m !! getAccountRootIndex to = None /\ nt = 0 /\ ro = new_root to /\ drops_ok (accountReserve (fees c) 0) /\
  accountReserve (fees c) 0 <= a.

(** The root of the receiver afterwards. *)
Definition received (ro : STObject) (n : Z) : STObject := rearmed (with_drops ro n).

Lemma received_balance ro n : received ro n !! sfBalance = Some (Some (AMT (xrp n))).
Proof.
  unfold received, rearmed, clearFlag, with_drops. rewrite lookup_insert_ne by done.
  case_match; [|apply lookup_insert_eq]. repeat case_match; rewrite ?lookup_insert_ne by done; apply lookup_insert_eq.
Qed.

Section proofs.
Context `{Build} {SHA : SHA512Half} {SL : SHA512HalfLaws SHA} {B : Type} {RV : ReadView STObject B}.
Context {VM : ViewModel STObject B} {RL : ReadViewLaws STObject B}.

Abbreviation Base := (OpenView.t STObject B).

Lemma new_root_entry to : make_SLE (Indexes.account to) =
  Ok (account_entry to (<[sfLedgerEntryType := Some (U16 Keylet.ltACCOUNT_ROOT)]> (set_template (AccountRoot ++ common_fields)))).
Proof. reflexivity. Qed.

Lemma new_root_balance to : new_root to !! sfBalance = Some (Some (AMT (xrp 0))).
Proof. unfold new_root. rewrite !lookup_insert_ne by done. by vm_compute. Qed.

(** The destination is at hand, flagged as changed. *)
Lemma destination_rule c (b : Base) d s m i x to a nt ro (Q : TER * option loc -> St Base -> Prop) :
  rep b d s (mkKnow m {[i := x]} ∅ ApplyStateTable.none) -> i <> getAccountRootIndex to -> drops_ok a ->
  receiver c m to a nt ro ->
  (forall q s', rep b d s' (mkKnow (<[getAccountRootIndex to := account_entry to ro]> m)
       (<[getAccountRootIndex to := (q, true)]> {[i := x]}) ∅ ApplyStateTable.none) -> Q (tesSUCCESS, Some q) s') ->
  wpm (destination c to (xrp a) false) s Q.
Proof.
  intros Hr Hij Ha Hrcv HQ. unfold destination. set (j := getAccountRootIndex to) in *. apply wpm_bind.
  destruct Hrcv as [[(He & _) Htag]|(Hno & _ & -> & Hres & Hle)].
  - eapply peek_rule; [exact Hr|apply getAccountRootIndex_pos|done|apply account_check|cbn [ap]; by rewrite lookup_singleton_ne|].
    intros q s1 _ Hr1. cbn [am ap loose dirty] in Hr1. change (Keylet.key (account to)) with j in Hr1. apply wpm_bind.
    eapply (get_rule _ _ _ _ j); [exact Hr1|apply lookup_insert_eq|done|done|]. cbn [fields account_entry].
    assert (Hok : has (getFlags ro) lsfRequireDestTag && negb (isFieldPresent sfDestinationTag (tx_o c)) = false).
    { destruct (has _ _); [|done]. by rewrite Htag. }
    rewrite Hok. apply wpm_bind. eapply (update_rule _ _ _ _ j); [exact Hr1|apply lookup_insert_eq|].
    intros s2 _ Hr2. cbn [am ap loose dirty] in Hr2. rewrite insert_insert_eq in Hr2. apply wpm_ret. apply HQ.
    rewrite insert_id by done. eapply rep_weaken; [exact Hr2|done..|]. by intros ? [? _].
  - eapply peek_none_rule; [exact Hr|apply getAccountRootIndex_pos|done|].
    apply wpm_bind. unfold vopen. eexists _, s. split; [done|]. cbn [STAmount.mIsNative xrp negb]. rewrite andb_false_r.
    replace (STAmount.of_u64 (accountReserve (fees c) 0) false) with (xrp (accountReserve (fees c) 0))
      by (unfold STAmount.of_u64; by rewrite andb_false_r).
    apply wpm_bind. eapply wpm_lift; [by apply xrp_ltb|]. rewrite (proj2 (Z.ltb_ge _ _)) by done.
    apply wpm_bind. eapply wpm_lift; [apply new_root_entry|]. apply wpm_bind. eapply make_shared_rule; [exact Hr|].
    intros q s1 _ _ Hr1. cbn [am ap loose dirty] in Hr1. apply wpm_bind.
    eapply set_loose_rule; [exact Hr1|apply lookup_insert_eq|apply setField_ok; [|done]; by vm_compute|].
    intros s2 _ Hr2. cbn [am ap loose dirty fields account_entry] in Hr2. rewrite insert_insert_eq in Hr2. apply wpm_bind.
    eapply set_loose_rule; [exact Hr2|apply lookup_insert_eq| |].
    { apply setField_ok; [|done]. cbn [fields with_fields]. apply has_place_insert; [by vm_compute|done]. }
    intros s3 _ Hr3. cbn [am ap loose dirty fields with_fields] in Hr3. rewrite insert_insert_eq in Hr3. apply wpm_bind.
    eapply insert_rule; [exact Hr3|apply lookup_insert_eq|apply getAccountRootIndex_pos|done|].
    intros s4 _ Hr4. cbn [am ap loose dirty] in Hr4. rewrite delete_insert_id in Hr4 by done. apply wpm_ret. by apply HQ.
Qed.

(** The reserve of an account, and what it must hold to send [a] drops. *)
Definition reserve_of (c : Ctx) (o : STObject) : Z := accountReserve (fees c) (u32_of sfOwnerCount o).
Definition funds_needed (c : Ctx) (o : STObject) (a f : Z) : Z := a + Z.max f (reserve_of c o).

Lemma direct_rule c (mem : Members unit) (b : Base) d s m ptrs i p q id to a nt n f o ro (Q : TER -> St Base -> Prop) :
  rep b d s (mkKnow m ptrs ∅ ApplyStateTable.none) -> i = getAccountRootIndex id -> i <> getAccountRootIndex to ->
  ptrs !! i = Some (p, true) -> ptrs !! getAccountRootIndex to = Some (q, true) ->
  m !! i = Some (account_entry id o) -> m !! getAccountRootIndex to = Some (account_entry to ro) ->
  account_ mem = id -> mPriorBalance mem = xrp n -> mSourceBalance mem = xrp (n - f) ->
  has_place sfOwnerCount o -> o !! sfBalance = Some (Some (AMT (xrp (n - f)))) -> ro !! sfBalance = Some (Some (AMT (xrp nt))) ->
  getFieldAmount sfFee (tx_o c) = Ok (xrp f) -> drops_ok f -> drops_ok n -> drops_ok a -> drops_ok nt -> drops_ok (nt + a) ->
  drops_ok (reserve_of c o) -> drops_ok (funds_needed c o a f) ->
  (forall s', if n <? funds_needed c o a f
     then rep b d s' (mkKnow m ptrs ∅ ApplyStateTable.none) -> Q tecUNFUNDED_PAYMENT s'
     else rep b d s' (mkKnow (<[getAccountRootIndex to := account_entry to (received ro (nt + a))]>
            (<[i := account_entry id (with_drops o (n - f - a))]> m)) ptrs ∅ ApplyStateTable.none) -> Q tesSUCCESS s') ->
  wpm (direct c mem q (xrp a)) s Q.
Proof.
  intros Hr -> Hij Hp Hq He Het Hid Hpr Hsrc Hoc Hb Hbt Hfee Hf Hn Ha Hnt Hnta HR HN HQ. unfold direct. rewrite Hid, Hpr, Hsrc.
  set (i := getAccountRootIndex id) in *. set (j := getAccountRootIndex to) in *.
  apply wpm_bind. eapply read_rule; [exact Hr|apply getAccountRootIndex_pos| |].
  { cbn [am]. change (Keylet.key (account id)) with i. rewrite He. unfold account_entry. apply MultiSign.checked_account. }
  apply wpm_bind. eapply wpm_lift; [by apply get_u32_of|]. cbn [fields account_entry].
  replace (STAmount.of_u64 (accountReserve (fees c) (u32_of sfOwnerCount o)) false) with (xrp (reserve_of c o))
    by (unfold STAmount.of_u64; by rewrite andb_false_r).
  apply wpm_bind. eapply wpm_lift; [done|]. apply wpm_bind. eapply wpm_lift; [by apply xrp_ltb|].
  replace (if f <? reserve_of c o then xrp (reserve_of c o) else xrp f) with (xrp (Z.max f (reserve_of c o)))
    by (destruct (Z.ltb_spec f (reserve_of c o)); f_equal; lia).
  apply wpm_bind. eapply wpm_lift; [apply add_xrp; [done|]; unfold drops_ok in *; lia|].
  change (a + Z.max f (reserve_of c o)) with (funds_needed c o a f).
  apply wpm_bind. eapply wpm_lift; [by apply xrp_ltb|]. destruct (Z.ltb_spec n (funds_needed c o a f)) as [Hlt|Hge].
  { apply wpm_ret. by apply HQ. }
  unfold funds_needed, drops_ok in *.
  apply wpm_bind. eapply peek_held_rule; [exact Hr|apply getAccountRootIndex_pos|done|apply account_check|done|].
  intros s1 _ Hr1. apply wpm_bind, wpm_need. apply wpm_bind. eapply wpm_lift; [apply sub_xrp; unfold drops_ok; lia|].
  apply wpm_bind. eapply (set_rule _ _ _ _ i); [exact Hr1|done|done|by apply (set_balance _ (n - f))|].
  intros s2 _ Hr2. cbn [am ap loose dirty fields account_entry] in Hr2. apply wpm_bind.
  eapply (get_rule _ _ _ _ j); [exact Hr2|done|cbn [am]; by rewrite lookup_insert_ne|by apply get_balance|].
  apply wpm_bind. eapply wpm_lift; [by apply add_xrp|]. apply wpm_bind.
  eapply (set_rule _ _ _ _ j); [exact Hr2|done|cbn [am]; by rewrite lookup_insert_ne|by apply (set_balance _ nt)|].
  intros s3 _ Hr3. cbn [am ap loose dirty fields account_entry] in Hr3. apply wpm_bind.
  eapply (get_rule _ _ _ _ j); [exact Hr3|done|apply lookup_insert_eq|done|]. cbn [fields with_fields].
  apply wpm_bind. unfold received, rearmed in HQ. destruct (has (getFlags (with_drops ro (nt + a))) lsfPasswordSpent).
  - eapply (set_rule _ _ _ _ j); [exact Hr3|done|apply lookup_insert_eq|done|].
    intros s4 _ Hr4. cbn [am ap loose dirty fields with_fields] in Hr4. rewrite insert_insert_eq in Hr4.
    apply wpm_ret. by apply HQ.
  - apply wpm_ret. apply wpm_ret. by apply HQ.
Qed.

(** The checks before the ledger is read. *)
Lemma preCheck_passes c sig (base : Base) mem to a : sends c to a ->
  Transactor.preCheck c (initial sig tt) = Ok (tesSUCCESS, mem) ->
  preCheck c (initial sig tt) (fresh_state base) = Ok ((tesSUCCESS, mem), fresh_state base).
Proof.
  intros [(Hf1 & Hf2 & Hf3 & Hf4) (Hp1 & Hp2 & Hp3) Hd Hto Ha [Hpos Hok]] Hpre. unfold preCheck, max_source, check_deliver_min.
  rewrite Hf1, Hf2, Hf3, Hf4, Hp1, Hp2, Hp3. erewrite run_bind by (unfold lift; rewrite Ha; reflexivity).
  cbn [STAmount.mIsNative xrp]. erewrite run_bind by reflexivity.
  assert (Hlegal : STAmount.isLegalNet (xrp a) = true) by (unfold STAmount.isLegalNet; cbn; apply Z.leb_le, Hok).
  rewrite Hlegal. cbn [negb orb STAmount.currency STAmount.mIssue xrp STAmount.xrpIssue].
  erewrite run_bind by (unfold lift; rewrite Hd; reflexivity). rewrite (proj2 (Z.eqb_neq to 0)) by done. cbn [andb].
  rewrite xrp_signum, (proj2 (Z.eqb_neq a 0)) by (done || lia). cbn [Z.leb Z.compare].
  change (account_ (initial sig tt)) with 0. rewrite (proj2 (Z.eqb_neq 0 to)) by done.
  change (badCurrency =? 0) with false. cbn [orb andb negb Z.eqb]. erewrite run_bind by reflexivity.
  rewrite bool_decide_eq_true_2 by done. cbn [negb]. unfold lift. by rewrite Hpre.
Qed.

Lemma grows_lift_view {A} (g : LedgerInfo -> A) n : grows (V := Base) n (lift_view g).
Proof. intros s a s' [= _ <-]. lia. Qed.

#[local] Hint Resolve grows_lift_view : footprint.

Lemma grows_allowDeliverMin c n : grows n (allowDeliverMin (B := B) c).
Proof. unfold allowDeliverMin. grow. Qed.

#[local] Hint Resolve grows_allowDeliverMin : footprint.

Lemma grows_check_deliver_min c b a n : grows n (check_deliver_min (B := B) c b a).
Proof. unfold check_deliver_min. grow. Qed.

#[local] Hint Resolve grows_check_deliver_min : footprint.

Lemma grows_preCheck c m : grows 0 (preCheck (B := B) c m).
Proof. unfold preCheck. grow. Qed.

(** The entries touched by a direct payment. *)
Lemma grows_payment_doApply ripple c m to a : sends c to a -> grows 4 (doApply (B := B) ripple c m).
Proof.
  intros [_ (Hp1 & Hp2 & Hp3) Hd _ Ha _]. unfold doApply. rewrite Hp1, Hp2, Hp3, Hd, Ha. cbn [orb].
  apply grows_step; [grow0|]. intros dm. apply grows_step; [grow0|]. intros to'.
  apply grows_known. apply grows_step; [grow0|]. intros ms. apply (grows_bind 2 2); [unfold destination; grow|].
  intros [t [q|]]; [|grow0]. cbn [STAmount.mIsNative xrp negb]. apply grows_last; [|grow].
  apply (grows_le 1); [|lia]. unfold direct. grow.
Qed.

(** ** The ledger after a payment *)

Lemma paid_total c m id to a nt n n' sq o ro : getAccountRootIndex id <> getAccountRootIndex to ->
  sender m id n sq o -> receiver c m to a nt ro ->
  total (<[getAccountRootIndex to := account_entry to (received ro (nt + a))]>
    (<[getAccountRootIndex id := account_entry id (charged o n' sq)]> m)) = total m - n + n' + a.
Proof.
  intros Hne Hs Hrcv.
  assert (Hd : drops_of (account_entry to (received ro (nt + a))) = nt + a).
  { unfold drops_of. cbn [getType account_entry fields]. rewrite received_balance. done. }
  destruct Hrcv as [[(He & Hb & _) _]|(Hno & -> & _)].
  - rewrite (total_replace _ _ (account_entry to ro)) by (by rewrite lookup_insert_ne). rewrite Hd, (charged_total _ _ _ _ _ _ Hs).
    unfold drops_of. cbn [getType account_entry fields]. rewrite Hb. unfold STAmount.signed. cbn. lia.
  - rewrite total_insert by (by rewrite lookup_insert_ne). rewrite Hd, (charged_total _ _ _ _ _ _ Hs). lia.
Qed.

Lemma fit_received txID_ id ro n : Threading.entry_ok txID_ (account_entry id ro) /\ Threading.owner_fields (account_entry id ro) ->
  Threading.entry_ok txID_ (account_entry id (received ro n)) /\ Threading.owner_fields (account_entry id (received ro n)).
Proof.
  intros Hf. unfold received, rearmed, with_drops.
  pose proof (fit_account txID_ id ro sfBalance (Some (AMT (xrp n))) ltac:(by apply (bool_decide_unpack _)) Hf) as Hf'.
  case_match; [|done]. unfold clearFlag. repeat case_match; try done. apply fit_account; [by apply (bool_decide_unpack _)|done].
Qed.

Lemma fit_new_root txID_ id : txID_ <> 0 ->
  Threading.entry_ok txID_ (account_entry id (new_root id)) /\ Threading.owner_fields (account_entry id (new_root id)).
Proof.
  intros Hid. unfold new_root. apply fit_account; [by apply (bool_decide_unpack _)|].
  unfold Threading.entry_ok, Threading.owner_fields, Threading.threadable, has_place, TxMeta.isThreadedType, h256_of.
  cbn [fields account_entry getType]. rewrite lookup_insert_eq. rewrite !lookup_insert_ne by done. split; [split|split].
  - by rewrite lookup_insert_eq.
  - intros _. split_and!; by vm_compute.
  - done.
  - done.
Qed.

Lemma fits_payment c txID_ m id to a nt n n' sq o ro : txID_ <> 0 -> getAccountRootIndex id <> getAccountRootIndex to ->
  all_fit txID_ m -> sender m id n sq o -> receiver c m to a nt ro ->
  Threading.ledger_fits txID_ m (<[getAccountRootIndex to := account_entry to (received ro (nt + a))]>
    (<[getAccountRootIndex id := account_entry id (charged o n' sq)]> m)).
Proof.
  intros Hid Hne Hfit Hs Hrcv. set (m1 := <[getAccountRootIndex id := _]> m).
  assert (Hm1 : all_fit txID_ m1) by (by eapply fit_charged).
  assert (Hro : Threading.entry_ok txID_ (account_entry to ro) /\ Threading.owner_fields (account_entry to ro)).
  { destruct Hrcv as [[(He & _) _]|(_ & _ & -> & _)]; [by eapply Hfit|by apply fit_new_root]. }
  split; [done| |].
  - intros k e. destruct (decide (k = getAccountRootIndex to)) as [->|Hk]; [|rewrite lookup_insert_ne by done; apply Hm1].
    rewrite lookup_insert_eq. intros [= <-]. by apply fit_received.
  - intros k e x Hch Hx. destruct (decide (k = getAccountRootIndex to)) as [->|Hk].
    + rewrite lookup_insert_eq in Hch. destruct Hch as [[_ [= <-]]|[_ ?]]; [|done].
      unfold Threading.owners_of in Hx. cbn [getType account_entry] in Hx. by rewrite elem_of_nil in Hx.
    + rewrite lookup_insert_ne in Hch by done.
      pose proof (same_keys_insert m _ _ (account_entry id (charged o n' sq)) (s_entry _ _ _ _ _ Hs) k) as [Hk1 Hk2]. fold m1 in Hk1, Hk2.
      destruct Hch as [[Hn Hy]|[Hy Hn]]; [destruct Hk2|destruct Hk1]; (by eexists) || congruence.
Qed.

Lemma charged_again o x y sq : with_drops (charged o x sq) y = charged o y sq.
Proof.
  unfold charged, with_drops, with_seq. rewrite (insert_insert_ne _ sfBalance sfSequence) by done. by rewrite insert_insert_eq.
Qed.

(** What a direct payment does to the view before anything is applied. *)
Lemma payment_applies ripple c sig (base : Base) mem id n sq f o to a nt ro :
  good base -> isOpen (OpenView.info_ base) = false -> charges c id sq f -> sender (contents base) id n sq o -> f <= n ->
  has_place sfOwnerCount o -> sends c to a -> getAccountRootIndex id <> getAccountRootIndex to ->
  Transactor.preCheck c (initial sig tt) = Ok (tesSUCCESS, mem) -> account_ mem = id ->
  in_turn c o (seq (OpenView.info_ base)) -> authorised c mem id o ->
  receiver c (contents base) to a nt ro -> drops_ok (nt + a) -> drops_ok (reserve_of c o) -> drops_ok (funds_needed c o a f) ->
  wpm (Transactor.apply (processor ripple) c (initial sig tt)) (fresh_state base) (fun r s' =>
    if n <? funds_needed c o a f then r = (tecUNFUNDED_PAYMENT, no_effects)
    else r = (tesSUCCESS, no_effects) /\ exists ptrs, rep base (0, 0) s' (mkKnow
      (<[getAccountRootIndex to := account_entry to (received ro (nt + a))]>
        (<[getAccountRootIndex id := account_entry id (charged o (n - f - a) sq)]> (contents base))) ptrs ∅ ApplyStateTable.none)).
Proof.
  intros Hg Hcl Hch Hs Hle Hoc Hsend Hne Hpre Hid Hturn Hauth Hrcv Hnta HR HN.
  pose proof Hsend as [_ (Hp1 & Hp2 & Hp3) Hd Hto Ha [Hpos Hok]].
  eapply (apply_rule tt preCheck (doApply ripple)); [done|done|done|done|done|by eapply preCheck_passes|done|done|done|].
  intros m' p s' _ [Hacc Hprior Hsrc _ _ _] Hr. unfold doApply. rewrite Hp1, Hp2, Hp3. cbn [orb].
  apply wpm_bind, wpm_ret. apply wpm_bind. eapply wpm_lift; [done|]. apply wpm_bind. eapply wpm_lift; [done|].
  apply wpm_bind. eapply wpm_lift; [unfold max_source; rewrite Hp2; reflexivity|].
  apply wpm_bind. destruct (y_flags _ _ _ Hsend) as (_ & -> & _). set (m1 := <[getAccountRootIndex id := _]> (contents base)) in *.
  assert (Hrcv1 : receiver c m1 to a nt ro).
  { destruct Hrcv as [[(He & Hb) Ht]|(Hno & Hrest)]; [left|right]; unfold m1; rewrite ?lookup_insert_ne by done; [|done].
    split; [|done]. split; [by rewrite lookup_insert_ne|done]. }
  assert (Hbt : ro !! sfBalance = Some (Some (AMT (xrp nt))) /\ drops_ok nt).
  { destruct Hrcv as [[(_ & ? & ?) _]|(_ & -> & -> & _)]; [done|]. split; [apply new_root_balance|done]. }
  eapply destination_rule; [exact Hr|done|done|exact Hrcv1|]. intros q s1 Hr1. cbn [STAmount.mIsNative xrp negb].
  apply wpm_bind. pose proof (t_drops _ _ _ _ Hch) as Hf. pose proof (s_drops _ _ _ _ _ Hs) as Hn.
  assert (Hoc1 : u32_of sfOwnerCount (charged o (n - f) sq) = u32_of sfOwnerCount o).
  { unfold u32_of, charged, with_seq, with_drops. by rewrite !lookup_insert_ne. }
  assert (HR1 : reserve_of c (charged o (n - f) sq) = reserve_of c o) by (unfold reserve_of; by rewrite Hoc1).
  assert (HN1 : funds_needed c (charged o (n - f) sq) a f = funds_needed c o a f) by (unfold funds_needed; by rewrite HR1).
  eapply (direct_rule c m' base _ s1 _ _ _ p q id to a nt n f (charged o (n - f) sq) ro);
    [exact Hr1|done|done|by rewrite lookup_insert_ne, lookup_singleton_eq|apply lookup_insert_eq| |apply lookup_insert_eq
    |congruence|done|done| | |apply Hbt|apply Hch|done|done|done|apply Hbt|done|by rewrite HR1|by rewrite HN1|].
  { rewrite lookup_insert_ne by done. apply lookup_insert_eq. }
  { unfold has_place, charged, with_seq, with_drops in *. by rewrite !lookup_insert_ne. }
  { unfold charged, with_seq, with_drops. by rewrite lookup_insert_ne, lookup_insert_eq. }
  intros s2. rewrite HN1. case_match; intros Hr2; apply wpm_ret; [done|]. split; [done|]. rewrite charged_again in Hr2.
  rewrite (insert_insert_ne _ (getAccountRootIndex id)), insert_insert_eq in Hr2 by done. unfold m1 in Hr2.
  rewrite insert_insert_eq in Hr2. by eexists.
Qed.

(** C18: a direct payment moves its drops and destroys its fee, or costs only its
    fee.  A payment of [a] drops from an account to another, which is created if
    it is not there, applied to a ledger that is being closed when it is the turn
    of its sequence number: if the sender holds the amount and the larger of the
    fee and its reserve, the receiver has [a] drops more, the sender [a] drops and
    the fee less and the next sequence number; if not, the sender has lost the
    fee and the sequence number.  Every other entry is as before; the drops of
    the ledger and those of all accounts have shrunk by the fee, and the payment
    is never cut down for its size.  This holds whatever the ripple calculation
    does. *)
Theorem payment_moves ripple c sig (base : Base) mem id n sq f o to a nt ro :
  good base -> isOpen (OpenView.info_ base) = false -> txID c <> 0 -> OpenView.txs_ base !! txID c = None ->
  charges c id sq f -> sender (contents base) id n sq o -> f <= n -> 0 < n <= supply base ->
  has_place sfOwnerCount o -> sends c to a -> STAmount.id160 id -> STAmount.id160 to -> id <> to ->
  Transactor.preCheck c (initial sig tt) = Ok (tesSUCCESS, mem) -> account_ mem = id ->
  in_turn c o (seq (OpenView.info_ base)) -> authorised c mem id o -> has (flags c) tapRETRY = false ->
  receiver c (contents base) to a nt ro -> drops_ok (nt + a) -> drops_ok (reserve_of c o) -> drops_ok (funds_needed c o a f) ->
  all_fit (txID c) (contents base) ->
  let funded := funds_needed c o a f <=? n in
  exists base', run (processor ripple) c sig base =
      Ok (if funded then tesSUCCESS else tecUNFUNDED_PAYMENT, true, no_effects, base') /\
    applied c base base'
      (if funded
       then <[getAccountRootIndex to := account_entry to (received ro (nt + a))]>
              (<[getAccountRootIndex id := account_entry id (charged o (n - f - a) sq)]> (contents base))
       else <[getAccountRootIndex id := account_entry id (charged o (n - f) sq)]> (contents base)) (supply base - f) /\
    total (contents base') = total (contents base) - f.
Proof.
  intros Hg Hcl Htid Htx Hch Hs Hle Hn Hoc Hsend Hi1 Hi2 Hne Hpre Hid Hturn Hauth Hretry Hrcv Hnta HR HN Hfit funded.
  pose proof (account_key_ne id to Hi1 Hi2 Hne) as Hk. pose proof (t_drops _ _ _ _ Hch) as [Hf0 _].
  destruct (payment_applies ripple c sig base mem id n sq f o to a nt ro) as (r & s1 & Happ & HQ); [done..|].
  assert (Hsz : (touched s1 <= 9)%nat).
  { apply (grows_apply tt preCheck (doApply ripple) c (initial sig tt) 4) in Happ; [done| |].
    - apply grows_preCheck.
    - intros m'. by eapply grows_payment_doApply. }
  unfold funded. rewrite Z.leb_antisym. destruct (Z.ltb_spec n (funds_needed c o a f)) as [Hlt|Hge]; cbn [negb].
  - subst r. destruct (claim_spec (processor ripple) c sig base tecUNFUNDED_PAYMENT no_effects s1 id n sq f o) as
      (base' & md & Hrun & Hg' & Hsh & Hsup & Htot & Htxs & Hinfo); try done.
    rewrite (Z.min_l f n) in * by done. exists base'. split; [|split; [|done]].
    + assert (Hrep : reported tecUNFUNDED_PAYMENT s1 = tecUNFUNDED_PAYMENT).
      { unfold reported. pose proof (size_touched s1). by rewrite (proj2 (Z.ltb_ge _ _)) by lia. }
      by rewrite Hrun, Hrep.
    + split; [done|done|done| |by exists md|done]. by eapply shows_total.
  - destruct HQ as [-> [ptrs Hr]]. pose proof (good_supply _ Hg) as Hs0. pose proof (rep_supply s1 _ base 0 Hr ltac:(lia)) as Hs1.
    destruct (run_success (processor ripple) c sig base no_effects s1 f _ _ Hg Hcl Htid Htx (t_fee _ _ _ _ Hch) Happ Hr) as (base' & Hrun & Ha).
    + by intros i [].
    + lia.
    + eapply no_erasures; [exact Hr|by intros i []|]. cbn [am]. intros i Hi.
      destruct (decide (i = getAccountRootIndex to)) as [->|H1]; [by rewrite lookup_insert_eq|]. rewrite lookup_insert_ne by done.
      destruct (decide (i = getAccountRootIndex id)) as [->|H2]; [by rewrite lookup_insert_eq|]. by rewrite lookup_insert_ne.
    + by eapply fits_payment.
    + lia.
    + rewrite Hs1, Z.add_0_r in Ha. exists base'. split; [done|]. split; [done|].
      rewrite (a_total _ _ _ _ _ Ha). cbn [am]. rewrite (paid_total c _ _ _ _ _ _ _ _ _ _ Hk Hs Hrcv). lia.
Qed.

(** A payment to oneself is never refused as redundant: the account is not known
    yet when the check compares it with the destination. *)
Lemma never_redundant c sig (s s' : St Base) m : preCheck c (initial sig tt) s <> Ok ((temREDUNDANT, m), s').
Proof.
  set (go := fun r : result (TER * Members unit * St Base) => r <> Ok ((temREDUNDANT, m), s')).
  assert (Hret : forall t (m0 : Members unit) s0, t <> temREDUNDANT -> go ((mret (t, m0) : M Base _) s0)).
  { intros t m0 s0 Ht [= ? _ _]. done. }
  assert (Hbind : forall A (prog : M Base A) k s0, (forall a s1, prog s0 = Ok (a, s1) -> go (k a s1)) -> go ((prog ≫= k) s0)).
  { intros A prog k s0 Hk. unfold mbind, M_bind. destruct (prog s0) as [[a s1]| |] eqn:Hp; [by apply Hk|done..]. }
  change (go (preCheck c (initial sig tt) s)). unfold preCheck. change (account_ (initial sig tt)) with 0.
  case_match; [by apply Hret|]. apply Hbind. intros dst s1 _. apply Hbind. intros ms s2 _.
  case_match; [by apply Hret|]. apply Hbind. intros to s3 _. destruct (Z.eqb_spec to 0) as [->|Hto]; [by apply Hret|].
  rewrite (proj2 (Z.eqb_neq 0 to)) by done. cbn [andb].
  repeat (case_match; [by apply Hret|]). apply Hbind. intros t s4 Ht. destruct (bool_decide_reflect (t = tesSUCCESS)) as [->|Hns]; cbn [negb].
  - unfold go, lift, Transactor.preCheck, preCheckAccount, preCheckSigningKey.
    destruct (getAccountID sfAccount (tx_o c)) as [z| |]; [|done..]. cbn. destruct (z =? 0); cbn; [by intros [=]|].
    destruct (getFieldVL sfSigningPubKey (tx_o c)) as [key| |]; [|done..]. cbn.
    rewrite (bool_decide_eq_true_2 (tesSUCCESS = tesSUCCESS)) by done. cbn.
    destruct (bool_decide (sig = sig_good)); cbn; [by intros [=]|].
    destruct (bool_decide (sig = sig_bad) || negb (has (flags c) tapNO_CHECK_SIGN) && negb (tx_checkSign c (multi_enabled c) sig)); cbn; by intros [=].
  - apply Hret. intros ->. revert Ht. unfold check_deliver_min, allowDeliverMin, lift_view, lift, mbind, M_bind.
    case_match; [|done]. cbn. repeat (case_match; try done); cbn; intros; simplify_eq.
    all: repeat (case_match; simplify_eq; try done).
Qed.

End proofs.

(** ** Examples: account 7 pays 9, a new account, and itself *)

Module Examples.
Import Transfers.Examples Threading.Examples TransactorRun.Examples.

Definition pay_tx (to a : Z) : STTx :=
  mkTx ttPAYMENT (<[sfDestination := Some (ACC to)]> (<[sfAmount := Some (AMT (xrp a))]> (<[sfAccount := Some (ACC 7)]>
    (<[sfSequence := Some (U32 0)]> (<[sfFee := Some (AMT (xrp 12))]> (<[sfSigningPubKey := Some (VL [7])]>
    (set_template (Payment ++ tx_common_fields)))))))).

Definition pay_ctx (to a : Z) : Ctx :=
  mkCtx (pay_tx to a) 5 [1; 2] None 0 (mkFees 10 10 20 5) 10 LoadFeeTrack.make false (fun _ => true) (fun _ _ => false)
    (fun key => default 0 (head key)) (fun _ => []).

Definition no_ripple (_ _ : STAmount.t) (_ _ : Z) (_ : list (list PathElement)) (_ : Input)
    : M (OpenView.t STObject (Ledger.t STObject)) (TER * STAmount.t) := mret (tefINTERNAL, amount0).

Definition signed7 : Members unit := set_sig sig_good (set_key [7] (set_account 7 (initial sig_indeterminate tt))).

Lemma payment_moves_witness : exists base',
  run (processor no_ripple) (pay_ctx 9 30) sig_indeterminate closing105 = Ok (tesSUCCESS, true, no_effects, base') /\
  supply base' = 93 /\ total (contents base') = total (contents closing105) - 12.
Proof.
  assert (Hrcv : receiver (pay_ctx 9 30) (contents closing105) 9 30 5 (account_of 9 5)).
  { left. split; [|discriminate]. split; [vm_compute; reflexivity|]. split; [vm_compute; reflexivity|]. split; vm_compute; discriminate. }
  destruct (payment_moves no_ripple (pay_ctx 9 30) sig_indeterminate closing105 signed7 7 100 0 12 (account_of 7 100) 9 30 5 (account_of 9 5)
    closing105_good eq_refl ltac:(discriminate) eq_refl ltac:(split; [reflexivity..|split; discriminate]) sender7 ltac:(discriminate)
    (proj1 supply105) eq_refl
    ltac:(split; [split_and!; reflexivity|split_and!; reflexivity|reflexivity|discriminate|reflexivity|split; [reflexivity|split; discriminate]])
    (id_small 7 ltac:(lia)) (id_small 9 ltac:(lia)) ltac:(discriminate) eq_refl eq_refl
    ltac:(split_and!; [reflexivity|reflexivity|left; reflexivity]) ltac:(split; reflexivity) eq_refl Hrcv
    ltac:(split; discriminate) ltac:(split; discriminate) ltac:(split; discriminate) fit105) as (base' & Hrun & Ha & Ht).
  exists base'. split; [exact Hrun|]. split; [|exact Ht]. rewrite (a_supply _ _ _ _ _ Ha), (proj2 supply105). reflexivity.
Defined.

(** The balance of an account after a payment, and the result. *)
Definition outcome (to a id : Z) : TER * option STAmount.t :=
  match run (processor no_ripple) (pay_ctx to a) sig_indeterminate closing105 with
  | Ok (ter, _, _, b) =>
      (ter, match contents b !! getAccountRootIndex id with
            | Some e => match fields e !! sfBalance with Some (Some (AMT x)) => Some x | _ => None end
            | None => None
            end)
  | _ => (tefEXCEPTION, None)
  end.

(** To a new account, for less than its reserve, and for more than the sender has. *)
Lemma pay_new_account : outcome 11 30 11 = (tesSUCCESS, Some (xrp 30)) /\
  outcome 11 19 7 = (tecNO_DST_INSUF_XRP, Some (xrp 88)) /\ outcome 9 81 7 = (tecUNFUNDED_PAYMENT, Some (xrp 88)).
Proof. vm_compute. split_and!; reflexivity. Qed.

(** Paying oneself succeeds and costs the fee: the two pointers are to one entry. *)
Lemma pay_oneself : outcome 7 30 7 = (tesSUCCESS, Some (xrp 88)).
Proof. vm_compute. reflexivity. Qed.

End Examples.
End PaymentTx.
