(* ===== verification/SignerListTx.v ===== *)
(** * Signer lists

    The transactor that sets, replaces and removes the signer list of an account
    ([SetSignerList] of app/tx/impl/SetSignerList.h and SetSignerList.cpp): what it
    accepts as a list, and what it does to the ledger.  The lists it writes are
    those that multi-signing (file MultiSign.v) relies on. *)

From stdpp Require Import base tactics numbers list strings gmap sorting option.
From S2P Require Import Prelude Decimal IOUAmount BigNum Serializer STAmount.
From S2P Require Import View StateTable ApplyStateTable Fields Indexes PaymentSandbox ViewOps.
From S2P Require Import Directory TrustLines Transfers LineLife Change LoadFeeTrack MultiSign TxMeta Threading.
From S2P Require Import Footprint Transactor TransactorRun TransactorSteps TxFlags.

Module SignerListTx.
Import Fields Indexes ViewOps Directory TrustLines Transfers LineLife MultiSign Change Transactor TransactorRun TransactorSteps.

Definition ttSIGNER_LIST_SET : Z := 12.

(** The format "SignerListSet". *)
Definition SignerListSet : list (SField * SOE_Flags) :=
  [(sfSignerQuorum, SOE_REQUIRED); (sfSignerEntries, SOE_OPTIONAL)].

Definition minEntries : nat := 2.
Definition maxEntries : nat := maxMultiSigners.

(** The members of the class. *)
Inductive Operation := op_unknown | op_set | op_destroy.
Record Extra := mkExtra { do_ : Operation; quorum_ : Z; signers_ : list SignerEntry }.
Definition extra0 : Extra := mkExtra op_unknown 0 [].

(** ** The checks *)

Definition entry_le (a b : SignerEntry) : Prop := MultiSign.account a <= MultiSign.account b.
#[export] Instance entry_le_dec : RelDecision entry_le.
Proof. intros a b. unfold entry_le. apply _. Defined.

(** [std::adjacent_find] finds two entries of the same account. *)
Fixpoint adjacent (signers : list SignerEntry) : bool :=
  match signers with
  | a :: (b :: _) as rest => (MultiSign.account a =? MultiSign.account b) || adjacent rest
  | _ => false
  end.

(** The loop over the sorted entries: the weight of all, unless the account
    itself is among them. *)
Fixpoint weigh (account_id : Z) (signers : list SignerEntry) (allSignersWeight : Z) : option Z :=
  match signers with
  | [] => Some allSignersWeight
  | signer :: signers =>
      let allSignersWeight := u64 (allSignersWeight + weight signer) in
      if MultiSign.account signer =? account_id then None else weigh account_id signers allSignersWeight
  end.

(** [signers] is sorted on return. *)
Definition validateQuorumAndSignerEntries (account_id quorum : Z) (signers : list SignerEntry) : TER * list SignerEntry :=
  if (length signers <? minEntries)%nat || (maxEntries <? length signers)%nat then (temMALFORMED, signers)
  else
    let signers := merge_sort entry_le signers in
    if adjacent signers then (temBAD_SIGNER, signers)
    else
      match weigh account_id signers 0 with
      | None => (temBAD_SIGNER, signers)
      | Some allSignersWeight =>
          (if (quorum <=? 0) || (allSignersWeight <? quorum) then temBAD_QUORUM else tesSUCCESS, signers)
      end.

(** The result of [preCheckAccount] is not looked at. *)
Definition preCheck (c : Ctx) (m : Members Extra) : result (TER * Members Extra) :=
  if negb (multi_enabled c) then Ok (temDISABLED, m)
  else
    r ← preCheckAccount c m;
    let m := r.2 in
    quorum ← getFieldU32 sfSignerQuorum (tx_o c);
    let m := set_extra (mkExtra (do_ (extra m)) quorum (signers_ (extra m))) m in
    let hasSignerEntries := isFieldPresent sfSignerEntries (tx_o c) in
    if negb (quorum =? 0) && hasSignerEntries then
      d ← deserialize (tx_o c);
      if negb (bool_decide (d.1 = tesSUCCESS)) then Ok (d.1, m)
      else
        let '(ter, signers) := validateQuorumAndSignerEntries (account_ m) quorum d.2 in
        if negb (bool_decide (ter = tesSUCCESS)) then Ok (ter, m)
        else preCheckSigningKey c (set_extra (mkExtra op_set quorum signers) m)
    else if (quorum =? 0) && negb hasSignerEntries then
      preCheckSigningKey c (set_extra (mkExtra op_destroy quorum (signers_ (extra m))) m)
    else Ok (temMALFORMED, m).

(** ** The work *)

Definition ownerCountDelta (entryCount : nat) : Z := 2 + Z.of_nat entryCount.

(** The entry of a signer within the array. *)
Definition toLedger (signers : list SignerEntry) : list Inner := enc <$> signers.

Section work.
Context `{Build} {SHA : SHA512Half} {B : Type} {RV : ReadView STObject B}.

Abbreviation Prog := (M (OpenView.t STObject B)).

(** [keylet::signers (uint256)]. *)
Definition signers_at (index : Z) : Keylet.t := Keylet.mk ltSIGNER_LIST index.

Definition writeSignersToLedger (m : Members Extra) (ledgerEntry : loc) : Prog unit :=
  _ ← set ledgerEntry (setFieldU32 sfSignerQuorum (quorum_ (extra m)));
  set ledgerEntry (setFieldArray sfSignerEntries (toLedger (signers_ (extra m)))).

Definition destroySignerList (m : Members Extra) (index : Z) : Prog TER :=
  signerList ← peek (signers_at index);
  match signerList with
  | None => mret tesSUCCESS
  | Some signerList =>
      accountSignersList ← peek (Indexes.signers (account_ m));
      removeFromOwnerCount ← (match accountSignersList with
                              | Some p => actualList ← get p (getFieldArray sfSignerEntries);
                                          mret (ownerCountDelta (length actualList))
                              | None => mret 0
                              end);
      hint ← get signerList (getFieldU64 sfOwnerNode);
      result ← dirDelete false hint (getOwnerDirIndex (account_ m)) index false (hint =? 0);
      _ ← (if bool_decide (result = tesSUCCESS)
           then sle ← peek (Indexes.account (account_ m));
                sle ← need sle;
                adjustOwnerCount sle removeFromOwnerCount
           else mret tt);
      _ ← erase signerList;
      mret result
  end.

Definition replaceSignerList (c : Ctx) (m : Members Extra) (index : Z) : Prog TER :=
  ter ← destroySignerList m index;
  if negb (bool_decide (ter = tesSUCCESS)) then mret ter
  else
    sle ← peek (Indexes.account (account_ m));
    sle ← need sle;
    oldOwnerCount ← get sle (getFieldU32 sfOwnerCount);
    let addedOwnerCount := ownerCountDelta (length (signers_ (extra m))) in
    let newReserve := accountReserve (fees c) (u32 (oldOwnerCount + addedOwnerCount)) in
    short ← lift (STAmount.ltb (mPriorBalance m) (STAmount.of_u64 newReserve false));
    if short : bool then mret tecINSUFFICIENT_RESERVE
    else
      e ← lift (make_SLE (signers_at index));
      signerList ← make_shared e;
      _ ← insert signerList;
      _ ← writeSignersToLedger m signerList;
      added ← dirAdd (getOwnerDirIndex (account_ m)) index (ownerDirDescriber (account_ m));
      if negb (bool_decide (added.1 = tesSUCCESS)) then mret added.1
      else
        _ ← set signerList (setFieldU64 sfOwnerNode added.2);
        _ ← adjustOwnerCount sle addedOwnerCount;
        mret added.1.

Definition doApply (c : Ctx) (m : Members Extra) : Prog TER :=
  let index := getSignerListIndex (account_ m) in
  match do_ (extra m) with
  | op_set => replaceSignerList c m index
  | op_destroy => destroySignerList m index
  | op_unknown => _ ← ViewOps.assert false; mret temMALFORMED
  end.

Definition processor : Processor (B := B) Extra :=
  plain extra0 (fun c m => lift (preCheck c m)) (fun c m => t ← doApply c m; mret (t, no_effects)).

End work.

(** ** Which lists are accepted *)

#[export] Instance entry_le_total : Total entry_le.
Proof. intros a b. unfold entry_le. lia. Qed.
#[export] Instance entry_le_trans : Transitive entry_le.
Proof. intros a b c. unfold entry_le. lia. Qed.

Abbreviation accounts es := (MultiSign.account <$> es).

(** The weight of all. *)
Definition all_weights (es : list SignerEntry) : Z := foldr Z.add 0 (weight <$> es).

Lemma adjacent_spec es : StronglySorted entry_le es -> (adjacent es = false <-> NoDup (accounts es)).
Proof.
  induction es as [|a es IH]; intros Hs; [split; constructor|]. apply StronglySorted_inv in Hs as [Hs Ha].
  destruct es as [|b es]; [split; [intros _; cbn; apply NoDup_singleton|done]|].
  change (adjacent (a :: b :: es)) with ((MultiSign.account a =? MultiSign.account b) || adjacent (b :: es)).
  rewrite orb_false_iff, IH, (fmap_cons _ a), (list.NoDup_cons (MultiSign.account a)), Z.eqb_neq by done. split; intros [H1 H2]; (split; [|done]).
  - rewrite list_elem_of_fmap. intros (e & He & Hin). apply elem_of_cons in Hin as [->|Hin]; [done|].
    apply StronglySorted_inv in Hs as [_ Hb]. apply (proj1 (list.Forall_forall _ _) Hb) in Hin. apply Forall_cons_1 in Ha as [Hab _].
    unfold entry_le in *. lia.
  - intros Heq. apply H1. rewrite Heq. by apply list_elem_of_here.
Qed.

Lemma strictly_sorted es : StronglySorted entry_le es -> NoDup (accounts es) -> sorted_entries es.
Proof.
  induction 1 as [|a es Hs IH Ha]; intros Hnd; [constructor|]. rewrite fmap_cons, list.NoDup_cons in Hnd. destruct Hnd as [Hni Hnd].
  constructor; [by apply IH|]. apply list.Forall_forall. intros e He. apply (proj1 (list.Forall_forall _ _) Ha) in He as Hle.
  unfold entry_le in Hle. assert (MultiSign.account a <> MultiSign.account e); [|lia]. intros Heq. apply Hni. rewrite Heq. by apply list_elem_of_fmap_2.
Qed.

Lemma weigh_spec id es w0 : 0 <= w0 -> Forall (fun e => 0 <= weight e < 2 ^ 16) es ->
  w0 + Z.of_nat (length es) * 2 ^ 16 < 2 ^ 64 ->
  weigh id es w0 = if bool_decide (id ∈ accounts es) then None else Some (w0 + all_weights es).
Proof.
  revert w0. induction es as [|e es IH]; intros w0 Hw0 Hw Hb; [cbn; by rewrite Z.add_0_r|].
  apply Forall_cons_1 in Hw as [He Hw]. cbn [weigh length] in *. rewrite u64_id by lia. rewrite fmap_cons.
  destruct (Z.eqb_spec (MultiSign.account e) id) as [<-|Hne].
  - by rewrite bool_decide_eq_true_2 by (by apply list_elem_of_here).
  - rewrite IH by (done || lia). rewrite (bool_decide_ext (id ∈ MultiSign.account e :: accounts es) (id ∈ accounts es)).
    + case_match; [done|]. f_equal. unfold all_weights. cbn. lia.
    + rewrite elem_of_cons. split; [intros [->|?]; done|by right].
Qed.

Lemma all_weights_perm es es' : es ≡ₚ es' -> all_weights es = all_weights es'.
Proof. unfold all_weights. induction 1; cbn in *; lia. Qed.

(** C22: the lists that are accepted are those that can be satisfied.  A quorum
    and entries pass the check exactly when there are two to eight entries, of
    accounts that differ from each other and from the account itself, and the
    quorum is positive and no more than all their weights together; what is then
    stored is the same entries sorted by account, as multi-signing needs them. *)
Theorem signer_list_accepted id q es : Forall (fun e => 0 <= weight e < 2 ^ 16) es ->
  let r := validateQuorumAndSignerEntries id q es in
  (r.1 = tesSUCCESS <-> ((2 <= length es <= 8)%nat /\ NoDup (accounts es) /\ (id ∉ accounts es) /\ 0 < q <= all_weights es)) /\
  (r.1 = tesSUCCESS -> r.2 ≡ₚ es /\ wf_list r.2).
Proof.
  intros Hw r. unfold r, validateQuorumAndSignerEntries, minEntries, maxEntries, maxMultiSigners.
  destruct (Nat.ltb_spec (length es) 2) as [Hl|Hl]; cbn [orb]; [split; [split; [done|intros (? & _); lia]|done]|].
  destruct (Nat.ltb_spec 8 (length es)) as [Hu|Hu]; [split; [split; [done|intros (? & _); lia]|done]|].
  pose proof (merge_sort_Permutation entry_le es) as Hp. pose proof (StronglySorted_merge_sort entry_le es) as Hs.
  set (es' := merge_sort entry_le es) in *. assert (Hpa : accounts es' ≡ₚ accounts es) by (by apply fmap_Permutation).
  pose proof (adjacent_spec es' Hs) as Hadj. rewrite Hpa in Hadj.
  destruct (adjacent es'); [split; [split; [done|intros (_ & Hnd & _); by apply Hadj in Hnd]|done]|].
  assert (Hnd : NoDup (accounts es)) by (by apply Hadj). rewrite weigh_spec; [|lia|by rewrite Hp|rewrite Hp; lia].
  rewrite (bool_decide_ext (id ∈ accounts es') (id ∈ accounts es)) by (by rewrite Hpa).
  case_bool_decide as Hin; [split; [split; [done|by intros (_ & _ & ? & _)]|done]|]. rewrite Z.add_0_l, (all_weights_perm es' es) by done.
  cbn [fst snd]. destruct (Z.leb_spec q 0) as [Hq|Hq]; cbn [orb]; [split; [split; [done|intros (_ & _ & _ & ?); lia]|done]|].
  destruct (Z.ltb_spec (all_weights es) q) as [Hq'|Hq']; [split; [split; [done|intros (_ & _ & _ & ?); lia]|done]|].
  split; [split; [|done]|]; intros _; [|split; [done|]].
  - split; [lia|]. split; [done|]. split; [done|lia].
  - split; [apply strictly_sorted; [done|by rewrite Hpa]|].
    split; [rewrite Hp; unfold maxMultiSigners; lia|by rewrite Hp].
Qed.

(** ** Examples *)

Module Examples.
Import Transfers.Examples Threading.Examples TransactorRun.Examples.

Lemma signer_list_accepted_witness :
  (validateQuorumAndSignerEntries 7 5 [mkEntry 9 2; mkEntry 8 3]).1 = tesSUCCESS.
Proof.
  apply (signer_list_accepted 7 5 [mkEntry 9 2; mkEntry 8 3]
           ltac:(repeat (constructor; [split; [discriminate|reflexivity]|]); constructor)).
  split; [cbn; lia|]. split; [apply (bool_decide_unpack _); reflexivity|].
  split; [apply (bool_decide_unpack _); reflexivity|split; [reflexivity|discriminate]].
Defined.

(** Sequence number [seq]: a list with quorum [q], or its removal when [q] is 0. *)
Definition list_ctx (seq q : Z) (es : list SignerEntry) : Ctx :=
  let o := <[sfSignerQuorum := Some (U32 q)]> (<[sfAccount := Some (ACC 7)]>
    (<[sfSequence := Some (U32 seq)]> (<[sfFee := Some (AMT (xrp 12))]> (<[sfSigningPubKey := Some (VL [7])]>
    (set_template (SignerListSet ++ tx_common_fields)))))) in
  mkCtx (mkTx ttSIGNER_LIST_SET (if q =? 0 then o else <[sfSignerEntries := Some (ARR (toLedger es))]> o))
    (5 + seq) [1; 2] None 0 (mkFees 10 10 20 5) 10 LoadFeeTrack.make true (fun _ => true) (fun _ _ => false)
    (fun key => default 0 (head key)) (fun _ => []).

(** The result, the list the account has then, and its owner count. *)
Definition shown (t : TER) (b : OpenView.t STObject (Ledger.t STObject)) : TER * option (Z * list SignerEntry) * option Z :=
  (t, match contents b !! getSignerListIndex 7 with
      | Some e => match getFieldU32 sfSignerQuorum (fields e), deserialize (fields e) with
                  | Ok q, Ok (_, es) => Some (q, es)
                  | _, _ => None
                  end
      | None => None
      end,
   match contents b !! getAccountRootIndex 7 with
   | Some e => match getFieldU32 sfOwnerCount (fields e) with Ok n => Some n | _ => None end
   | None => None
   end).

Fixpoint runs (cs : list Ctx) (b : OpenView.t STObject (Ledger.t STObject)) : list (TER * option (Z * list SignerEntry) * option Z) :=
  match cs with
  | [] => []
  | c :: cs => match run processor c sig_indeterminate b with
               | Ok (t, _, _, b) => shown t b :: runs cs b
               | _ => []
               end
  end.

(** A list is set and removed.  The account starts with two entries
    of its own: removing a list of two signers should give back the four it
    counts for, but adds four more. *)
Lemma removal_raises_count :
  runs [list_ctx 0 5 [mkEntry 9 2; mkEntry 8 3]; list_ctx 1 0 []] closing105 =
  [(tesSUCCESS, Some (5, [mkEntry 8 3; mkEntry 9 2]), Some 6); (tesSUCCESS, None, Some 10)].
Proof. vm_compute. reflexivity. Qed.

End Examples.
End SignerListTx.
