(* ===== verification/SignerListRun.v ===== *)
(** * Signer lists in the ledger

    What setting and removing a signer list does to the ledger
    ([SetSignerList::doApply], app/tx/impl/SetSignerList.cpp): the list that is
    written is the one multi-signing reads, the owner's directory lists it, and
    the ledger keeps the shape the checks of signatures rely on. *)

From stdpp Require Import base tactics numbers list strings gmap sorting option.
From S2P Require Import Prelude Decimal IOUAmount BigNum Serializer STAmount.
From S2P Require Import View StateTable ApplyStateTable Fields Indexes PaymentSandbox ViewOps.
From S2P Require Import Directory TrustLines Transfers LineCredit LineLife Change LoadFeeTrack MultiSign TxMeta Threading.
From S2P Require Import Footprint Transactor TransactorRun TransactorSteps SignerListTx.

Module SignerListRun.
Import Fields Indexes ViewOps Directory TrustLines Transfers LineLife MultiSign Change Transactor TransactorRun SignerListTx.

Section store.
Context `{Build} {SHA : SHA512Half} {SL : SHA512HalfLaws SHA} {B : Type} {RV : ReadView STObject B}.
Context {VM : ViewModel STObject B} {RL : ReadViewLaws STObject B}.

Abbreviation Base := (OpenView.t STObject B).
Abbreviation dir_of id := (getOwnerDirIndex id).
Abbreviation list_of id := (getSignerListIndex id).
Abbreviation root_of id := (getAccountRootIndex id).

Lemma signers_outside owner id : outside (dir_of owner) (list_of id).
Proof.
  intros n Hn Heq. symmetry in Heq. revert Heq. unfold getDirNodeIndex.
  assert (Hb : forall a c, Serializer.bytes (Serializer.be_bytes a c)) by (intros; apply Serializer.be_bytes_bytes).
  case_if; apply spaces_differ; first [apply bytes_app; apply Hb|apply Hb|by vm_compute].
Qed.

(** The fields of a list before they are set. *)
Definition list0 : STObject := Eval vm_compute in
  match make_SLE (signers_at 1) with Ok e => fields e | _ => ∅ end.

Lemma make_list x : make_SLE (signers_at x) = Ok (mkSLE x ltSIGNER_LIST list0).
Proof. vm_compute. reflexivity. Qed.

(** An account with its owner count [n], and the directory of what it owns. *)
Record owner (m : gmap Z Entry) (id n : Z) (o : STObject) (pages : list (Z * list Z)) : Prop := {
  o_entry : m !! root_of id = Some (account_entry id o);
  o_count : o !! sfOwnerCount = Some (Some (U32 n));
  o_range : 0 <= n /\ n + 10 < 2 ^ 32;
  o_dir : dir m (dir_of id) pages }.

(** The entry of a list, with the page of the directory that lists it. *)
Record list_entry (q hint : Z) (es : list SignerEntry) (o : STObject) : Prop := {
  l_quorum : o !! sfSignerQuorum = Some (Some (U32 q));
  l_entries : o !! sfSignerEntries = Some (Some (ARR (enc <$> es)));
  l_hint : o !! sfOwnerNode = Some (Some (U64 hint)) }.

(** What changes in the ledger besides the directory. *)
Definition changes (m m' : gmap Z Entry) (id n : Z) (o : STObject) (e : option Entry) : Prop :=
  m' !! list_of id = e /\ m' !! root_of id = Some (account_entry id (with_owners o n)) /\
  forall i, i <> list_of id -> i <> root_of id -> outside (dir_of id) i -> m' !! i = m !! i.

Lemma changes_wf m m' id n n' o pages e : owner m id n o pages -> changes m m' id n' o e -> signers_wf m ->
  (e = None \/ exists q es, holds_list m' id q es /\ wf_list es) -> signers_wf m'.
Proof.
  intros Ho (Hl & Hr & Hm) [Hroots Hlists] He. split; intros id'.
  - destruct (decide (root_of id' = root_of id)) as [Heq|Hne].
    + right. rewrite Heq, Hr. eexists. split; [done|]. destruct (Hroots id) as [Hn|(o' & Ho' & Hc)]; rewrite (o_entry _ _ _ _ _ Ho) in *; [done|].
      injection Ho' as <-. pose proof (setField_conforms AccountFormat o sfOwnerCount (U32 n') Hc) as Hs.
      rewrite setField_ok in Hs; [by apply Hs| |done]. unfold has_place. by rewrite (o_count _ _ _ _ _ Ho).
    + rewrite Hm; [apply Hroots|apply account_not_signers|done|apply account_outside].
  - destruct (decide (list_of id' = list_of id)) as [Heq|Hne].
    + destruct He as [->|(q & es & Hh & Hes)]; [left; by rewrite Heq|]. right. exists q, es. split; [|done]. unfold holds_list. by rewrite Heq.
    + assert (Hsame : m' !! list_of id' = m !! list_of id').
      { apply Hm; [done|apply not_eq_sym, account_not_signers|apply signers_outside]. }
      unfold holds_list. rewrite Hsame. apply Hlists.
Qed.

Section rules.
Variables (b : Base) (d : Z * Z).

(** Writing a list into an account that has none. *)
Lemma write_rule s m ptrs mem id q es n o pages p f (Q : TER -> St Base -> Prop) :
  rep b d s (mkKnow m ptrs ∅ ApplyStateTable.none) -> no_pages (dir_of id) ptrs -> ptrs !! root_of id = Some (p, f) ->
  owner m id n o pages -> room pages -> m !! list_of id = None -> (length es <= 8)%nat ->
  account_ mem = id -> quorum_ (extra mem) = q -> signers_ (extra mem) = es ->
  (forall hint lo m' ap' s', tabs s' = tabs s -> rep b d s' (mkKnow m' ap' ∅ ApplyStateTable.none) ->
     changes m m' id (n + ownerCountDelta (length es)) o (Some (mkSLE (list_of id) ltSIGNER_LIST lo)) ->
     list_entry q hint es lo -> listed m' (dir_of id) (list_of id) hint pages -> Q tesSUCCESS s') ->
  wpm (e ← lift (make_SLE (signers_at (list_of id))); signerList ← make_shared e; _ ← insert signerList;
       _ ← writeSignersToLedger mem signerList;
       added ← dirAdd (dir_of id) (list_of id) (ownerDirDescriber id);
       if negb (bool_decide (added.1 = tesSUCCESS)) then mret added.1
       else _ ← set signerList (setFieldU64 sfOwnerNode added.2);
            _ ← adjustOwnerCount p (ownerCountDelta (length es)); mret added.1) s Q.
Proof.
  intros Hr Hnp Hp Ho Hroom Hnew Hlen Hid Hq Hes HQ. pose proof (account_not_signers id id) as Hne.
  apply wpm_bind. eapply wpm_lift; [apply make_list|].
  apply wpm_bind. eapply make_shared_rule; [exact Hr|]. intros pl s1 Ht1 _ Hr1. cbn [am ap loose dirty] in Hr1.
  apply wpm_bind. eapply insert_rule; [exact Hr1|apply lookup_insert_eq|apply getSignerListIndex_pos|done|].
  intros s2 Ht2 Hr2. cbn [am ap loose dirty sle_key] in Hr2. rewrite delete_insert_id in Hr2 by done.
  unfold writeSignersToLedger. rewrite Hq, Hes. apply wpm_bind, wpm_bind.
  eapply (set_rule _ _ _ _ (list_of id)); [exact Hr2|apply lookup_insert_eq|apply lookup_insert_eq|by apply setField_ok|].
  intros s3 Ht3 Hr3. cbn [am ap loose dirty fields] in Hr3. rewrite insert_insert_eq in Hr3.
  eapply (set_rule _ _ _ _ (list_of id)); [exact Hr3|apply lookup_insert_eq|apply lookup_insert_eq|by apply setField_ok|].
  intros s4 Ht4 Hr4. cbn [am ap loose dirty fields] in Hr4. rewrite insert_insert_eq in Hr4.
  apply wpm_bind. eapply list_rule; [exact Hr4|apply ownerDir_pages| | |exact Hroom|].
  { intros a Ha. cbn [ap]. rewrite lookup_insert_ne by (by apply signers_outside). by apply Hnp. }
  { eapply dir_outside; [apply Ho|]. intros a Ha. cbn [am]. rewrite lookup_insert_ne by (by apply signers_outside). done. }
  intros hint m5 s5 Ht5 Hr5 Hlist Hout. cbn [am ap loose dirty] in Hr5, Hout. cbn [fst snd].
  rewrite bool_decide_eq_true_2 by done. cbn [negb]. apply wpm_bind.
  eapply (set_rule _ _ _ _ (list_of id)); [exact Hr5|apply lookup_insert_eq| | |].
  { cbn [am]. rewrite Hout by apply signers_outside. apply lookup_insert_eq. }
  { by apply setField_ok. }
  intros s6 Ht6 Hr6. cbn [am ap loose dirty fields with_fields sle_key getType] in Hr6.
  apply wpm_bind. eapply (adjustOwnerCount_rule _ _ _ _ (root_of id) _ _ (account_entry id o)); [exact Hr6| | | | | | | |].
  { cbn [ap]. rewrite lookup_insert_ne by (by apply not_eq_sym). exact Hp. }
  { cbn [am]. rewrite lookup_insert_ne by (by apply not_eq_sym). rewrite Hout by apply account_outside.
    rewrite lookup_insert_ne by (by apply not_eq_sym). apply Ho. }
  { apply Ho. }
  { unfold ownerCountDelta. lia. }
  { unfold ownerCountDelta. lia. }
  { pose proof (o_range _ _ _ _ _ Ho). lia. }
  { right. pose proof (o_range _ _ _ _ _ Ho). unfold ownerCountDelta. lia. }
  intros s7 Ht7 Hr7. cbn [am ap loose dirty fields account_entry] in Hr7. apply wpm_ret.
  assert (Hcl : clamp32 (n + ownerCountDelta (length es)) = n + ownerCountDelta (length es)).
  { pose proof (o_range _ _ _ _ _ Ho). unfold clamp32, ownerCountDelta. lia. }
  rewrite Hcl in Hr7. eapply HQ; [congruence|exact Hr7| | |].
  - split; [|split].
    + rewrite lookup_insert_ne by done. apply lookup_insert_eq.
    + apply lookup_insert_eq.
    + intros i Hi1 Hi2 Hi3. rewrite !lookup_insert_ne by (by apply not_eq_sym). rewrite Hout by done. by apply lookup_insert_ne, not_eq_sym.
  - split; by vm_compute.
  - eapply listed_frame; [exact Hlist|]. intros a Ha. rewrite !lookup_insert_ne; [done|by apply signers_outside|by apply account_outside].
Qed.

(** Removing the list of an account: its entry is at the page of the hint. *)
Lemma destroy_rule s m mem id q hint es ys j n o lo pages (Q : TER -> St Base -> Prop) :
  rep b d s (mkKnow m ∅ ∅ ApplyStateTable.none) -> owner m id n o pages -> (length es <= 8)%nat ->
  m !! list_of id = Some (mkSLE (list_of id) ltSIGNER_LIST lo) -> list_entry q hint es lo ->
  pages !! j = Some (hint, ys) -> list_of id ∈ ys -> account_ mem = id ->
  (forall m' ap' s', tabs s' = tabs s -> rep b d s' (mkKnow m' ap' ∅ ApplyStateTable.none) ->
     changes m m' id (n + ownerCountDelta (length es)) o None ->
     (exists pages', dir m' (dir_of id) pages' /\ removed false (list_of id) (entries pages) (entries pages')) ->
     Q tesSUCCESS s') ->
  wpm (destroySignerList mem (list_of id)) s Q.
Proof.
  intros Hr Ho Hlen He Hl Hj Hx Hid HQ. pose proof (account_not_signers id id) as Hne. unfold destroySignerList. rewrite Hid.
  assert (Hck : Keylet.check (signers_at (list_of id)) (mkSLE (list_of id) ltSIGNER_LIST lo) = Ok true).
  { by apply (check_own_type (Indexes.signers id)). }
  apply wpm_bind. eapply peek_rule; [exact Hr|apply getSignerListIndex_pos|exact He|exact Hck|done|].
  intros pl s1 Ht1 Hr1. cbn [am ap loose dirty Keylet.key signers_at] in Hr1.
  apply wpm_bind. eapply (peek_held_rule _ _ _ _ (Indexes.signers id)); [exact Hr1|apply getSignerListIndex_pos|exact He|exact Hck|apply lookup_insert_eq|].
  intros s2 Ht2 Hr2. apply wpm_bind, wpm_bind.
  eapply (get_rule _ _ _ _ (list_of id)); [exact Hr2|apply lookup_insert_eq|exact He| |].
  { cbn [fields]. unfold getFieldArray, getField. by rewrite (l_entries _ _ _ _ Hl). }
  apply wpm_ret. rewrite length_fmap. apply wpm_bind.
  eapply (get_rule _ _ _ _ (list_of id)); [exact Hr2|apply lookup_insert_eq|exact He| |].
  { cbn [fields]. unfold getFieldU64, getField. by rewrite (l_hint _ _ _ _ Hl). }
  pose proof (dir_range _ _ _ (o_dir _ _ _ _ _ Ho) _ _ (pages_no _ _ _ _ Hj)) as Hh.
  apply wpm_bind. unfold dirDelete.
  eapply (dirDelete_rule (dir_of id) (ownerDir_pages id)); [exact Hr2|done| |apply Ho|exact Hj|exact Hx|lia|by left|lia|lia|].
  { intros a Ha. cbn [ap]. rewrite lookup_insert_ne by (by apply signers_outside). apply lookup_empty. }
  intros m3 s3 Ht3 Hr3 [Hout (pages' & Hd' & Hrem)]. cbn [am ap loose dirty] in Hr3, Hout.
  rewrite bool_decide_eq_true_2 by done. apply wpm_bind, wpm_bind.
  assert (He3 : m3 !! root_of id = Some (account_entry id o)) by (rewrite Hout by apply account_outside; apply Ho).
  eapply (peek_rule _ _ _ _ (Indexes.account id)); [exact Hr3|apply getAccountRootIndex_pos|exact He3|apply account_check| |].
  { cbn [ap]. by rewrite lookup_insert_ne by (by apply not_eq_sym). }
  intros p s4 Ht4 Hr4. cbn [am ap loose dirty Keylet.key Indexes.account] in Hr4. apply wpm_bind, wpm_need.
  pose proof (o_range _ _ _ _ _ Ho) as Hn.
  eapply (adjustOwnerCount_rule _ _ _ _ (root_of id) _ _ (account_entry id o)); [exact Hr4|apply lookup_insert_eq|exact He3|apply Ho|
    unfold ownerCountDelta; lia|unfold ownerCountDelta; lia|lia|right; unfold ownerCountDelta; lia|].
  intros s5 Ht5 Hr5. cbn [am ap loose dirty fields account_entry] in Hr5.
  apply wpm_bind. eapply (erase_rule _ _ _ _ (list_of id)); [exact Hr5| |].
  { cbn [ap]. rewrite !lookup_insert_ne by done. apply lookup_insert_eq. }
  intros s6 Ht6 Hr6. cbn [am ap loose dirty] in Hr6. apply wpm_ret.
  assert (Hcl : clamp32 (n + ownerCountDelta (length es)) = n + ownerCountDelta (length es)).
  { unfold clamp32, ownerCountDelta. lia. }
  rewrite Hcl in Hr6. match type of Hr6 with rep _ _ _ (mkKnow ?m ?a _ _) =>
    assert (Hr7 : rep b d s6 (mkKnow m a ∅ ApplyStateTable.none)) by (eapply rep_weaken; [exact Hr6|done..|]; by intros i [[] _]) end.
  eapply HQ; [congruence|exact Hr7| |].
  - split; [apply lookup_delete_eq|]. split; [rewrite lookup_delete_ne by (by apply not_eq_sym); apply lookup_insert_eq|].
    intros i Hi1 Hi2 Hi3. rewrite lookup_delete_ne, lookup_insert_ne by (by apply not_eq_sym). by apply Hout.
  - exists pages'. split; [|done]. eapply dir_outside; [exact Hd'|]. intros a Ha.
    rewrite lookup_delete_ne by (by apply signers_outside). apply lookup_insert_ne. by apply account_outside.
Qed.

End rules.

Lemma holds_entry m id q hint es lo : m !! list_of id = Some (mkSLE (list_of id) ltSIGNER_LIST lo) ->
  list_entry q hint es lo -> holds_list m id q es.
Proof. intros Hm Hl. exists lo. split; [done|]. split; apply Hl. Qed.

(** C23: setting a signer list makes it the one signatures are checked against.
    The transactor with a checked list, on an account that has none, fails for
    want of a reserve and changes nothing, or succeeds when the balance before
    the fee covers the reserve: then [getSignerList] finds exactly the quorum and
    the entries, the directory of the owner lists the entry at the page of its
    hint, two and one per signer are added to the owner count, nothing else
    changes, and the ledger's lists and accounts are still well formed. *)
Theorem signer_list_stored c mem (s : St Base) id q es n o pages bal :
  let reserve := accountReserve (fees c) (n + ownerCountDelta (length es)) in
  good (av s) -> signers_wf (contents (av s)) -> account_ mem = id -> extra mem = mkExtra op_set q es -> wf_list es ->
  contents (av s) !! list_of id = None -> owner (contents (av s)) id n o pages -> room pages ->
  mPriorBalance mem = xrp bal -> drops_ok bal -> drops_ok reserve -> exists s',
    doApply c mem s = Ok (if bal <? reserve then tecINSUFFICIENT_RESERVE else tesSUCCESS, s') /\
    good (av s') /\ untouched s s' /\
    if bal <? reserve then contents (av s') = contents (av s)
    else exists hint lo, getSignerList id (av s') = Ok (mkList tesSUCCESS q es) /\ list_entry q hint es lo /\
      changes (contents (av s)) (contents (av s')) id (n + ownerCountDelta (length es)) o
        (Some (mkSLE (list_of id) ltSIGNER_LIST lo)) /\
      listed (contents (av s')) (dir_of id) (list_of id) hint pages /\ signers_wf (contents (av s')).
Proof.
  intros reserve Hg Hwf Hid Hex Hes Hnew Ho Hroom Hbal Hb Hres. set (m := contents (av s)) in *.
  destruct (wpm_view (doApply c mem) s (fun r m' => if bal <? reserve then r = tecINSUFFICIENT_RESERVE /\ m' = m else
    r = tesSUCCESS /\ exists hint lo, list_entry q hint es lo /\
      changes m m' id (n + ownerCountDelta (length es)) o (Some (mkSLE (list_of id) ltSIGNER_LIST lo)) /\
      listed m' (dir_of id) (list_of id) hint pages)) as (r & s' & Hrun & Hg' & Hu & HQ); [done| |].
  - intros b d Hr. unfold doApply. rewrite Hex. cbn [do_]. unfold replaceSignerList, destroySignerList. rewrite Hid, Hex.
    cbn [signers_]. apply wpm_bind, wpm_bind. eapply peek_none_rule; [exact Hr|apply getSignerListIndex_pos|done|].
    apply wpm_ret. rewrite bool_decide_eq_true_2 by done. cbn [negb].
    apply wpm_bind. eapply peek_rule; [exact Hr|apply getAccountRootIndex_pos|apply Ho|apply account_check|done|].
    intros p s1 Ht1 Hr1. cbn [am ap loose dirty] in Hr1. apply wpm_bind, wpm_need.
    apply wpm_bind. eapply (get_rule _ _ _ _ (root_of id)); [exact Hr1|apply lookup_insert_eq|apply Ho| |].
    { cbn [fields account_entry]. unfold getFieldU32, getField. by rewrite (o_count _ _ _ _ _ Ho). }
    assert (Hn : u32 (n + ownerCountDelta (length es)) = n + ownerCountDelta (length es)).
    { apply u32_id. pose proof (o_range _ _ _ _ _ Ho). destruct Hes as (_ & Hl & _). unfold maxMultiSigners in Hl.
      unfold ownerCountDelta. lia. }
    rewrite Hn, Hbal. change (accountReserve (fees c) (n + ownerCountDelta (length es))) with reserve.
    replace (STAmount.of_u64 reserve false) with (xrp reserve) by (unfold STAmount.of_u64; by rewrite andb_false_r).
    apply wpm_bind. eapply wpm_lift; [by apply xrp_ltb|]. destruct (bal <? reserve).
    { apply wpm_ret. split; [done|]. eexists. split; [exact Hr1|]. split; [by intros i []|done]. }
    eapply (write_rule b d s1 m _ mem id q es n o pages p false); try done.
    + intros a Ha. rewrite lookup_insert_ne by (by apply account_outside). apply lookup_empty.
    + apply lookup_insert_eq.
    + destruct Hes as (_ & Hl & _). unfold maxMultiSigners in Hl. lia.
    + by rewrite Hex.
    + by rewrite Hex.
    + intros hint lo m' ap' s' Ht Hr' Hch Hl Hli. split; [congruence|]. eexists. split; [exact Hr'|]. split; [by intros i []|].
      split; [done|]. by exists hint, lo.
  - exists s'. destruct (bal <? reserve); [by destruct HQ as [-> ->]|]. destruct HQ as (-> & hint & lo & Hl & Hch & Hli).
    split; [done|]. split; [done|]. split; [done|]. exists hint, lo.
    assert (Hh : holds_list (contents (av s')) id q es) by (eapply holds_entry; [apply Hch|done]).
    assert (Hwf' : signers_wf (contents (av s'))) by (eapply changes_wf; [exact Ho|exact Hch|done|right; by exists q, es]).
    split; [|done]. by rewrite (getSignerList_in _ _ Hg' Hwf'), (holds_list_in _ _ _ _ Hh).
Qed.

(** Removing the list takes it away from the account and its directory, and what
    the list counted for is added to the owner count once more instead of being
    taken from it. *)
Lemma signer_list_removed c mem (s : St Base) id q hint es ys j n o lo pages more :
  good (av s) -> signers_wf (contents (av s)) -> account_ mem = id -> extra mem = mkExtra op_destroy 0 more ->
  owner (contents (av s)) id n o pages -> contents (av s) !! list_of id = Some (mkSLE (list_of id) ltSIGNER_LIST lo) ->
  list_entry q hint es lo -> pages !! j = Some (hint, ys) -> list_of id ∈ ys -> (length es <= 8)%nat -> exists s',
    doApply c mem s = Ok (tesSUCCESS, s') /\ good (av s') /\ untouched s s' /\ list_in (contents (av s')) id = None /\
    changes (contents (av s)) (contents (av s')) id (n + ownerCountDelta (length es)) o None /\
    (exists pages', dir (contents (av s')) (dir_of id) pages' /\
       removed false (list_of id) (entries pages) (entries pages')) /\ signers_wf (contents (av s')).
Proof.
  intros Hg Hwf Hid Hex Ho He Hl Hj Hx Hlen. set (m := contents (av s)) in *.
  destruct (wpm_view (doApply c mem) s (fun r m' => r = tesSUCCESS /\
      changes m m' id (n + ownerCountDelta (length es)) o None /\
      (exists pages', dir m' (dir_of id) pages' /\ removed false (list_of id) (entries pages) (entries pages'))))
    as (r & s' & Hrun & Hg' & Hu & -> & Hch & Hrem); [done| |].
  - intros b d Hr. unfold doApply. rewrite Hex, Hid. cbn [do_]. eapply destroy_rule; [exact Hr|done..|].
    intros m' ap' s' Ht Hr' Hch Hrem. split; [congruence|]. eexists. split; [exact Hr'|]. split; [by intros i []|done].
  - exists s'. split_and!; try done.
    + unfold list_in. by rewrite (proj1 Hch).
    + eapply changes_wf; [exact Ho|exact Hch|done|by left].
Qed.

End store.

(** ** Examples *)

Module Examples.
Import Transfers.Examples Threading.Examples TransactorRun.Examples LineLife.Examples SignerListTx.Examples.

Abbreviation start105 := (fresh_state closing105).

Lemma start105_good : good (av start105).
Proof. apply ApplyView.make_good, closing105_good. Qed.

Lemma closing105_contents : contents closing105 = accounts79.
Proof.
  assert (Hl : good ledger105) by (split; [apply ledger79_good|done]).
  destruct (OpenView.open_make_good ledger105 Hl) as (_ & Hc & _). exact Hc.
Qed.

Lemma start105_contents : contents (av start105) = accounts79.
Proof. rewrite <- closing105_contents. apply (ApplyView.make_good closing105 closing105_good). Qed.

Lemma closing105_dir id : dir (contents closing105) (getOwnerDirIndex id) [].
Proof. rewrite closing105_contents. change accounts79 with (contents ledger79). rewrite <- start79_contents. apply accounts79_dir. Qed.

Lemma accounts79_no_list id : accounts79 !! getSignerListIndex id = None.
Proof. unfold accounts79. rewrite lookup_insert_ne by apply account_not_signers. apply lookup_singleton_ne, account_not_signers. Qed.

Lemma account_of_typed id n : conforms AccountFormat (account_of id n).
Proof.
  apply (build_conforms Keylet.ltACCOUNT_ROOT _ [(sfAccount, ACC id); (sfOwnerCount, U32 2); (sfBalance, AMT (xrp n))]); vm_compute; reflexivity.
Qed.

Lemma accounts79_wf : signers_wf accounts79.
Proof.
  split; intros id; [|left; apply accounts79_no_list].
  destruct (accounts79 !! getAccountRootIndex id) as [e|] eqn:He; [right|by left].
  unfold accounts79 in He. rewrite lookup_insert_Some, lookup_singleton_Some in He.
  destruct He as [[Hk <-]|[_ [Hk <-]]]; rewrite <- Hk; eexists; (split; [reflexivity|apply account_of_typed]).
Qed.

Lemma owner7 : owner accounts79 7 2 (account_of 7 100) [].
Proof.
  split; [vm_compute; reflexivity|vm_compute; reflexivity|split; reflexivity || discriminate|].
  rewrite <- closing105_contents. apply closing105_dir.
Qed.

Definition setting7 : Members Extra :=
  set_balances (xrp 100) (xrp 88) (set_account 7 (initial sig_good (mkExtra op_set 3 MultiSign.Examples.list7))).

Lemma signer_list_stored_witness : exists s', doApply (list_ctx 0 3 []) setting7 start105 = Ok (tesSUCCESS, s') /\
  getSignerList 7 (av s') = Ok (mkList tesSUCCESS 3 MultiSign.Examples.list7).
Proof.
  destruct (signer_list_stored (list_ctx 0 3 []) setting7 start105 7 3 MultiSign.Examples.list7 2 (account_of 7 100) [] 100)
    as (s' & Hrun & _ & _ & HQ).
  - apply start105_good.
  - rewrite start105_contents. apply accounts79_wf.
  - reflexivity.
  - reflexivity.
  - apply MultiSign.Examples.wf7.
  - rewrite start105_contents. apply accounts79_no_list.
  - rewrite start105_contents. apply owner7.
  - done.
  - reflexivity.
  - split; discriminate.
  - split; discriminate.
  - cbn in HQ. exists s'. split; [exact Hrun|]. by destruct HQ as (hint & lo & HQ & _).
Defined.

End Examples.
End SignerListRun.
