(* ===== verification/AccountTx.v ===== *)
(** * Settings of accounts

    The transactors that change an account's own root: its flags and descriptive
    fields ([SetAccount] of app/tx/impl/SetAccount.h and SetAccount.cpp) and its
    regular key ([SetRegularKey] of SetRegularKey.h and SetRegularKey.cpp).  The
    definitions of the latter are prefixed with [key_]. *)

From stdpp Require Import base tactics numbers list strings gmap sorting option.
From S2P Require Import Prelude Decimal IOUAmount BigNum Serializer STAmount.
From S2P Require Import View StateTable ApplyStateTable Fields Indexes PaymentSandbox ViewOps.
From S2P Require Import Directory TrustLines Transfers Change LoadFeeTrack MultiSign TxMeta Threading.
From S2P Require Import Footprint Transactor TransactorRun TransactorSteps TxFlags.

Module AccountTx.
Import Fields Indexes ViewOps Directory TrustLines Transfers Change Transactor TransactorRun TxFlags.

Definition ttACCOUNT_SET : Z := 3.
Definition ttREGULAR_KEY_SET : Z := 5.

(** The formats "AccountSet" and "SetRegularKey". *)
Definition AccountSet : list (SField * SOE_Flags) :=
  [(sfEmailHash, SOE_OPTIONAL); (sfWalletLocator, SOE_OPTIONAL); (sfWalletSize, SOE_OPTIONAL);
   (sfMessageKey, SOE_OPTIONAL); (sfDomain, SOE_OPTIONAL); (sfTransferRate, SOE_OPTIONAL);
   (sfSetFlag, SOE_OPTIONAL); (sfClearFlag, SOE_OPTIONAL)].
Definition SetRegularKey : list (SField * SOE_Flags) := [(sfRegularKey, SOE_OPTIONAL)].

Definition DOMAIN_BYTES_MAX : nat := 256.
Definition PUBLIC_BYTES_MAX : nat := 33.

(** A flag is asked for by a flag of the transaction or by its number. *)
Definition asked (uTxFlags tf uFlag asf : Z) : bool := has uTxFlags tf || (uFlag =? asf).

Definition bSetRequireAuth (uTxFlags uSetFlag : Z) := asked uTxFlags tfRequireAuth uSetFlag asfRequireAuth.
Definition bClearRequireAuth (uTxFlags uClearFlag : Z) := asked uTxFlags tfOptionalAuth uClearFlag asfRequireAuth.
Definition bSetRequireDest (uTxFlags uSetFlag : Z) := asked uTxFlags requireDestTag uSetFlag asfRequireDest.
Definition bClearRequireDest (uTxFlags uClearFlag : Z) := asked uTxFlags tfOptionalDestTag uClearFlag asfRequireDest.
Definition bSetDisallowXRP (uTxFlags uSetFlag : Z) := asked uTxFlags tfDisallowXRP uSetFlag asfDisallowXRP.
Definition bClearDisallowXRP (uTxFlags uClearFlag : Z) := asked uTxFlags tfAllowXRP uClearFlag asfDisallowXRP.

Definition preCheck (c : Ctx) (m : Members unit) : result (TER * Members unit) :=
  let uTxFlags := getFlags (tx_o c) in
  if has uTxFlags tfAccountSetMask then Ok (temINVALID_FLAG, m)
  else
    uSetFlag ← getFieldU32 sfSetFlag (tx_o c);
    uClearFlag ← getFieldU32 sfClearFlag (tx_o c);
    if negb (uSetFlag =? 0) && (uSetFlag =? uClearFlag) then Ok (temINVALID_FLAG, m)
    else if bSetRequireAuth uTxFlags uSetFlag && bClearRequireAuth uTxFlags uClearFlag then Ok (temINVALID_FLAG, m)
    else if bSetRequireDest uTxFlags uSetFlag && bClearRequireDest uTxFlags uClearFlag then Ok (temINVALID_FLAG, m)
    else if bSetDisallowXRP uTxFlags uSetFlag && bClearDisallowXRP uTxFlags uClearFlag then Ok (temINVALID_FLAG, m)
    else
      bad ← (if isFieldPresent sfTransferRate (tx_o c)
             then uRate ← getFieldU32 sfTransferRate (tx_o c); Ok (negb (uRate =? 0) && (uRate <? QUALITY_ONE))
             else Ok false);
      if bad : bool then Ok (temBAD_TRANSFER_RATE, m) else Transactor.preCheck c m.

(** ** The flags *)

(** A flag that is set when it is missing and cleared when it is there. *)
Definition set_clear (f : Z) (set_ clear : bool) (uFlagsIn uFlagsOut : Z) : Z :=
  let uFlagsOut := if set_ && negb (has uFlagsIn f) then Z.lor uFlagsOut f else uFlagsOut in
  if clear && has uFlagsIn f then without uFlagsOut f else uFlagsOut.

Definition default_ripple (uSetFlag uClearFlag uFlagsOut : Z) : Z :=
  if uSetFlag =? asfDefaultRipple then Z.lor uFlagsOut lsfDefaultRipple
  else if uClearFlag =? asfDefaultRipple then without uFlagsOut lsfDefaultRipple
  else uFlagsOut.

(** Fails without the master key, unless the master key is disabled. *)
Definition no_freeze (mSigMaster : bool) (uSetFlag uFlagsIn uFlagsOut : Z) : TER + Z :=
  if uSetFlag =? asfNoFreeze then
    if negb mSigMaster && negb (has uFlagsIn lsfDisableMaster) then inl tecNEED_MASTER_KEY
    else inr (Z.lor uFlagsOut lsfNoFreeze)
  else inr uFlagsOut.

Definition global_freeze (uSetFlag uClearFlag uFlagsOut : Z) : Z :=
  let uFlagsOut := if uSetFlag =? asfGlobalFreeze then Z.lor uFlagsOut lsfGlobalFreeze else uFlagsOut in
  if negb (uSetFlag =? asfGlobalFreeze) && (uClearFlag =? asfGlobalFreeze) && negb (has uFlagsOut lsfNoFreeze)
  then without uFlagsOut lsfGlobalFreeze else uFlagsOut.

Section account.
Context `{Build} {SHA : SHA512Half} {B : Type} {RV : ReadView STObject B}.

Abbreviation Prog := (M (OpenView.t STObject B)).

Definition owner_dir_empty (id : Z) : Prog bool := fun s => r ← dirIsEmpty (av s) (ownerDir id); Ok (r, s).

Definition require_auth (c : Ctx) (m : Members unit) (uSetFlag uClearFlag uFlagsIn uFlagsOut : Z) : Prog (TER + Z) :=
  let uTxFlags := getFlags (tx_o c) in
  refused ← (if bSetRequireAuth uTxFlags uSetFlag && negb (has uFlagsIn lsfRequireAuth)
             then empty ← owner_dir_empty (account_ m); mret (negb empty)
             else mret false);
  mret (if refused : bool then inl (if has (flags c) tapRETRY then terOWNERS else tecOWNERS)
        else inr (set_clear lsfRequireAuth (bSetRequireAuth uTxFlags uSetFlag) (bClearRequireAuth uTxFlags uClearFlag)
                    uFlagsIn uFlagsOut)).

Definition disable_master (m : Members unit) (sle : loc) (uSetFlag uClearFlag uFlagsIn uFlagsOut : Z) : Prog (TER + Z) :=
  let setting := (uSetFlag =? asfDisableMaster) && negb (has uFlagsIn lsfDisableMaster) in
  if setting && negb (mSigMaster m) then mret (inl tecNEED_MASTER_KEY)
  else
    without_key ← (if setting then regular ← get sle (fun o => Ok (isFieldPresent sfRegularKey o)); mret (negb regular)
                   else mret false);
    mret (if without_key : bool then inl tecNO_REGULAR_KEY
          else inr (set_clear lsfDisableMaster (uSetFlag =? asfDisableMaster) (uClearFlag =? asfDisableMaster)
                      uFlagsIn uFlagsOut)).

(** The flags in the order of the code. *)
Definition account_flags (c : Ctx) (m : Members unit) (sle : loc) (uSetFlag uClearFlag uFlagsIn : Z) : Prog (TER + Z) :=
  let uTxFlags := getFlags (tx_o c) in
  r ← require_auth c m uSetFlag uClearFlag uFlagsIn uFlagsIn;
  match r with
  | inl t => mret (inl t)
  | inr uFlagsOut =>
      let uFlagsOut := set_clear lsfRequireDestTag (bSetRequireDest uTxFlags uSetFlag)
                         (bClearRequireDest uTxFlags uClearFlag) uFlagsIn uFlagsOut in
      let uFlagsOut := set_clear lsfDisallowXRP (bSetDisallowXRP uTxFlags uSetFlag)
                         (bClearDisallowXRP uTxFlags uClearFlag) uFlagsIn uFlagsOut in
      r ← disable_master m sle uSetFlag uClearFlag uFlagsIn uFlagsOut;
      mret (match r with
            | inl t => inl t
            | inr uFlagsOut =>
                match no_freeze (mSigMaster m) uSetFlag uFlagsIn (default_ripple uSetFlag uClearFlag uFlagsOut) with
                | inl t => inl t
                | inr uFlagsOut => inr (global_freeze uSetFlag uClearFlag uFlagsOut)
                end
            end)
  end.

(** ** The fields *)

Definition account_txn_id (sle : loc) (uSetFlag uClearFlag : Z) : Prog unit :=
  _ ← (if uSetFlag =? asfAccountTxnID
       then there ← get sle (fun o => Ok (isFieldPresent sfAccountTxnID o));
            if negb there then set sle (makeFieldPresent sfAccountTxnID) else mret tt
       else mret tt);
  if uClearFlag =? asfAccountTxnID
  then there ← get sle (fun o => Ok (isFieldPresent sfAccountTxnID o));
       if there : bool then set sle (makeFieldAbsent sfAccountTxnID) else mret tt
  else mret tt.

Definition email_hash (c : Ctx) (sle : loc) : Prog unit :=
  if isFieldPresent sfEmailHash (tx_o c) then
    uHash ← lift (getFieldH128 sfEmailHash (tx_o c));
    set sle (if uHash =? 0 then makeFieldAbsent sfEmailHash else setFieldH128 sfEmailHash uHash)
  else mret tt.

Definition wallet_locator (c : Ctx) (sle : loc) : Prog unit :=
  if isFieldPresent sfWalletLocator (tx_o c) then
    uHash ← lift (getFieldH256 sfWalletLocator (tx_o c));
    set sle (if uHash =? 0 then makeFieldAbsent sfWalletLocator else setFieldH256 sfWalletLocator uHash)
  else mret tt.

(** A field of bytes, which may be too long. *)
Definition blob_field (c : Ctx) (sle : loc) (f : SField) (max : nat) (too_long : TER) : Prog TER :=
  if isFieldPresent f (tx_o c) then
    blob ← lift (getFieldVL f (tx_o c));
    if (max <? length blob)%nat then mret too_long
    else _ ← set sle (if bool_decide (blob = []) then makeFieldAbsent f else setFieldVL f blob); mret tesSUCCESS
  else mret tesSUCCESS.

Definition transfer_rate (c : Ctx) (sle : loc) : Prog unit :=
  if isFieldPresent sfTransferRate (tx_o c) then
    uRate ← lift (getFieldU32 sfTransferRate (tx_o c));
    if (uRate =? 0) || (uRate =? QUALITY_ONE) then set sle (makeFieldAbsent sfTransferRate)
    else if QUALITY_ONE <? uRate then set sle (setFieldU32 sfTransferRate uRate)
    else mret tt
  else mret tt.

Definition doApply (c : Ctx) (m : Members unit) : Prog TER :=
  sle ← peek (Indexes.account (account_ m));
  sle ← need sle;
  uFlagsIn ← get sle (getFieldU32 sfFlags);
  uSetFlag ← lift (getFieldU32 sfSetFlag (tx_o c));
  uClearFlag ← lift (getFieldU32 sfClearFlag (tx_o c));
  r ← account_flags c m sle uSetFlag uClearFlag uFlagsIn;
  match r with
  | inl t => mret t
  | inr uFlagsOut =>
      _ ← account_txn_id sle uSetFlag uClearFlag;
      _ ← email_hash c sle;
      _ ← wallet_locator c sle;
      t ← blob_field c sle sfMessageKey PUBLIC_BYTES_MAX telBAD_PUBLIC_KEY;
      if negb (bool_decide (t = tesSUCCESS)) then mret t
      else
        t ← blob_field c sle sfDomain DOMAIN_BYTES_MAX telBAD_DOMAIN;
        if negb (bool_decide (t = tesSUCCESS)) then mret t
        else
          _ ← transfer_rate c sle;
          _ ← (if negb (uFlagsIn =? uFlagsOut) then set sle (setFieldU32 sfFlags uFlagsOut) else mret tt);
          mret tesSUCCESS
  end.

Definition processor : Processor (B := B) unit :=
  plain tt (fun c m => lift (preCheck c m)) (fun c m => t ← doApply c m; mret (t, no_effects)).

(** ** The regular key *)

(** Nothing while the password is not spent and the master key signs. *)
Definition key_baseFee (c : Ctx) (m : Members unit) : Prog Z :=
  sle ← peek (Indexes.account (account_ m));
  armed ← (match sle with
           | None => mret false
           | Some sle => fl ← get sle (fun o => Ok (getFlags o)); mret (negb (has fl lsfPasswordSpent))
           end);
  mret (if armed && (calcAccountID c (mSigningPubKey m) =? account_ m) then 0 else calculateBaseFee c).

Definition key_preCheck (c : Ctx) (m : Members unit) : result (TER * Members unit) :=
  if has (getFlags (tx_o c)) tfUniversalMask then Ok (temINVALID_FLAG, m) else Transactor.preCheck c m.

Definition key_doApply (c : Ctx) (m : Members unit) : Prog TER :=
  sle ← peek (Indexes.account (account_ m));
  sle ← need sle;
  _ ← (if STAmount.signum (mFeeDue m) =? 0 then set sle (fun o => Ok (setFlag lsfPasswordSpent o)) else mret tt);
  if isFieldPresent sfRegularKey (tx_o c) then
    key ← lift (getAccountID sfRegularKey (tx_o c));
    _ ← set sle (setAccountID sfRegularKey key);
    mret tesSUCCESS
  else
    disabled ← get sle (fun o => Ok (isFlag lsfDisableMaster o));
    if disabled : bool then mret tecMASTER_DISABLED
    else _ ← set sle (makeFieldAbsent sfRegularKey); mret tesSUCCESS.

Definition key_processor : Processor (B := B) unit :=
  mkProc tt true key_baseFee (fun c m => lift (key_preCheck c m)) checkSeq payFee checkSign
    (fun c m => t ← key_doApply c m; mret (t, no_effects)).

End account.
End AccountTx.
