(* ===== verification/AccountRun.v ===== *)
(** * What account settings can do

    What the transactors of file AccountTx.v leave of an account root: it can
    always be signed for, the promise not to freeze is kept, and nothing but the
    settings changes. *)

From stdpp Require Import base tactics numbers list strings gmap sorting option.
From S2P Require Import Prelude Decimal IOUAmount BigNum Serializer STAmount.
From S2P Require Import View StateTable ApplyStateTable Fields Indexes PaymentSandbox ViewOps.
From S2P Require Import Directory TrustLines Transfers LineLife Change LoadFeeTrack MultiSign TxMeta Threading.
From S2P Require Import DirWalk Footprint Transactor TransactorRun TransactorSteps TxFlags AccountTx SignerListTx SignerListRun.

Module AccountRun.
Import Fields Indexes ViewOps Directory TrustLines Transfers MultiSign Change Transactor TransactorRun Footprint TransactorSteps TxFlags AccountTx.

(** ** Single flags *)

Lemma has_bit x k : 0 <= k -> has x (2 ^ k) = Z.testbit x k.
Proof.
  intros Hk. unfold has. destruct (Z.testbit x k) eqn:Hb; cbn.
  - apply negb_true_iff, Z.eqb_neq. intros He. assert (Hf : Z.testbit (Z.land x (2 ^ k)) k = false) by (by rewrite He, Z.bits_0).
    by rewrite Z.land_spec, Hb, Z.pow2_bits_true in Hf.
  - apply negb_false_iff, Z.eqb_eq. apply Z.bits_inj'. intros j Hj. rewrite Z.land_spec, Z.bits_0.
    destruct (decide (j = k)) as [->|]; [by rewrite Hb|]. by rewrite Z.pow2_bits_false, andb_false_r by done.
Qed.

Lemma isFlag_bit x k : 0 <= k -> (Z.land x (2 ^ k) =? 2 ^ k) = Z.testbit x k.
Proof.
  intros Hk. destruct (Z.testbit x k) eqn:Hb.
  - apply Z.eqb_eq, Z.bits_inj'. intros j Hj. rewrite Z.land_spec. destruct (decide (j = k)) as [->|]; [by rewrite Hb, Z.pow2_bits_true|].
    by rewrite Z.pow2_bits_false, andb_false_r by done.
  - apply Z.eqb_neq. intros He. assert (Hf : Z.testbit (Z.land x (2 ^ k)) k = true) by (by rewrite He, Z.pow2_bits_true).
    by rewrite Z.land_spec, Hb in Hf.
Qed.

Lemma lor_bit x j k : 0 <= j -> 0 <= k -> Z.testbit (Z.lor x (2 ^ k)) j = Z.testbit x j || (j =? k).
Proof. intros Hj Hk. by rewrite Z.lor_spec, Z.pow2_bits_eqb, (Z.eqb_sym k). Qed.

Lemma without_bit x j k : 0 <= j < 32 -> 0 <= k -> Z.testbit (without x (2 ^ k)) j = Z.testbit x j && negb (j =? k).
Proof.
  intros Hj Hk. unfold without, u32. rewrite Z.land_spec. f_equal.
  change (Z.lnot (2 ^ k) mod 4294967296) with (Z.lnot (2 ^ k) mod 2 ^ 32).
  rewrite Z.mod_pow2_bits_low by lia. rewrite Z.lnot_spec, Z.pow2_bits_eqb, (Z.eqb_sym k) by lia. done.
Qed.

(** What a step does to the flag [j]: nothing, or what it is for. *)
Lemma set_clear_bit k st cl fin fout j : 0 <= j < 32 -> 0 <= k ->
  Z.testbit (set_clear (2 ^ k) st cl fin fout) j =
  if j =? k then (Z.testbit fout j || st && negb (Z.testbit fin k)) && negb (cl && Z.testbit fin k) else Z.testbit fout j.
Proof.
  intros Hj Hk. unfold set_clear. rewrite has_bit by done.
  destruct (Z.eqb_spec j k) as [->|Hne]; destruct (Z.testbit fin k), st, cl; cbn [andb negb];
    rewrite ?without_bit, ?lor_bit, ?Z.eqb_refl by lia; rewrite ?(proj2 (Z.eqb_neq j k) Hne); cbn;
    rewrite ?orb_true_r, ?orb_false_r, ?andb_false_r, ?andb_true_r; done.
Qed.

Lemma conforms_insert elements o f v : conforms elements o -> f ∈ elements.*1 -> getSType v = fieldType f ->
  conforms elements (<[f := Some v]> o).
Proof.
  intros Ho Hf Hv. pose proof (setField_conforms elements o f v Ho) as Hs.
  rewrite setField_ok in Hs; [by apply Hs|by apply Ho|done].
Qed.

(** The bits of the flags of accounts. *)
Definition bPasswordSpent : Z := 16.
Definition bRequireAuth : Z := 18.
Definition bDisableMaster : Z := 20.
Definition bNoFreeze : Z := 21.
Definition bGlobalFreeze : Z := 22.

(** What may become of the flags [x]: the master key is disabled only by itself
    and when there is another key, authorization is required only of an account
    that owns nothing, who gave up freezing does not get it back and cannot end a
    freeze, and the password stays as it is. *)
Record flags_allowed (master regular empty : bool) (x y : Z) : Prop := {
  fa_master : Z.testbit y bDisableMaster = true -> Z.testbit x bDisableMaster = true \/ master = true /\ regular = true;
  fa_auth : Z.testbit y bRequireAuth = true -> Z.testbit x bRequireAuth = true \/ empty = true;
  fa_promise : Z.testbit x bNoFreeze = true -> Z.testbit y bNoFreeze = true;
  fa_frozen : Z.testbit x bNoFreeze = true -> Z.testbit x bGlobalFreeze = true -> Z.testbit y bGlobalFreeze = true;
  fa_spent : Z.testbit y bPasswordSpent = Z.testbit x bPasswordSpent }.

Lemma default_ripple_bit st cl x j : 0 <= j < 23 -> Z.testbit (default_ripple st cl x) j = Z.testbit x j.
Proof.
  intros Hj. unfold default_ripple. change lsfDefaultRipple with (2 ^ 23).
  repeat case_match; rewrite ?without_bit, ?lor_bit by lia; rewrite ?(proj2 (Z.eqb_neq j 23)) by lia; cbn;
    by rewrite ?orb_false_r, ?andb_true_r.
Qed.

Lemma no_freeze_bit master st x y z j : no_freeze master st x y = inr z -> 0 <= j < 32 ->
  Z.testbit z j = Z.testbit y j || (st =? asfNoFreeze) && (j =? bNoFreeze).
Proof.
  unfold no_freeze. change lsfNoFreeze with (2 ^ bNoFreeze). intros Hz Hj. case_match; [case_match; [done|]|]; injection Hz as <-; cbn [andb].
  - apply lor_bit; lia || done.
  - by rewrite orb_false_r.
Qed.

Lemma global_freeze_bit st cl x j : 0 <= j < 32 -> j <> bGlobalFreeze -> Z.testbit (global_freeze st cl x) j = Z.testbit x j.
Proof.
  intros Hj Hne. unfold global_freeze. change lsfGlobalFreeze with (2 ^ bGlobalFreeze).
  repeat case_match; rewrite ?without_bit, ?lor_bit by (lia || done); rewrite ?(proj2 (Z.eqb_neq j _) Hne); cbn;
    by rewrite ?orb_false_r, ?andb_true_r.
Qed.

Lemma global_freeze_stays st cl x : Z.testbit x bNoFreeze = true -> Z.testbit x bGlobalFreeze = true ->
  Z.testbit (global_freeze st cl x) bGlobalFreeze = true.
Proof.
  intros Hp Hf. unfold global_freeze. change lsfGlobalFreeze with (2 ^ bGlobalFreeze). change lsfNoFreeze with (2 ^ bNoFreeze).
  assert (Hor : Z.testbit (Z.lor x (2 ^ bGlobalFreeze)) bNoFreeze = true) by (by rewrite lor_bit, Hp by done).
  destruct (st =? asfGlobalFreeze); cbn [andb negb].
  - by rewrite lor_bit, Hf by done.
  - rewrite has_bit, Hp by done. by rewrite andb_false_r.
Qed.

(** The flags the code computes from [x], when nothing refused. *)
Lemma flags_path master regular empty x st cl sa ca sd cd sx cx z :
  sa && negb (has x lsfRequireAuth) && negb empty = false ->
  (st =? asfDisableMaster) && negb (has x lsfDisableMaster) && negb master = false ->
  (st =? asfDisableMaster) && negb (has x lsfDisableMaster) && negb regular = false ->
  no_freeze master st x (default_ripple st cl (set_clear lsfDisableMaster (st =? asfDisableMaster) (cl =? asfDisableMaster) x
    (set_clear lsfDisallowXRP sx cx x (set_clear lsfRequireDestTag sd cd x (set_clear lsfRequireAuth sa ca x x))))) = inr z ->
  flags_allowed master regular empty x (global_freeze st cl z).
Proof.
  change lsfRequireAuth with (2 ^ bRequireAuth). change lsfDisableMaster with (2 ^ bDisableMaster).
  change lsfDisallowXRP with (2 ^ 19). change lsfRequireDestTag with (2 ^ 17). rewrite !has_bit by done.
  intros Ha Hm Hr Hz. set (y := default_ripple _ _ _) in Hz.
  assert (Hbit : forall j, 0 <= j < 23 -> j <> 17 -> j <> 19 -> Z.testbit z j =
    (if j =? bDisableMaster then (Z.testbit x j || (st =? asfDisableMaster) && negb (Z.testbit x bDisableMaster)) && negb ((cl =? asfDisableMaster) && Z.testbit x bDisableMaster)
     else if j =? bRequireAuth then (Z.testbit x j || sa && negb (Z.testbit x bRequireAuth)) && negb (ca && Z.testbit x bRequireAuth)
     else Z.testbit x j) || (st =? asfNoFreeze) && (j =? bNoFreeze)).
  { intros j Hj H17 H19. rewrite (no_freeze_bit _ _ _ _ _ j Hz) by lia. f_equal. unfold y. rewrite default_ripple_bit by lia.
    rewrite !set_clear_bit by (lia || done). rewrite (proj2 (Z.eqb_neq j 17) H17), (proj2 (Z.eqb_neq j 19) H19).
    destruct (Z.eqb_spec j bDisableMaster) as [->|]; [done|]. done. }
  split; rewrite ?global_freeze_bit, ?Hbit by (done || split; done).
  - cbn [Z.eqb Pos.eqb bDisableMaster bNoFreeze]. rewrite andb_false_r, orb_false_r.
    destruct (Z.testbit x 20) eqn:Hx; [by left|]. unfold bDisableMaster in *. rewrite Hx in *. destruct (st =? asfDisableMaster); [|by rewrite andb_false_l].
    destruct master, regular; try done. by right.
  - cbn [Z.eqb Pos.eqb bDisableMaster bRequireAuth bNoFreeze]. rewrite andb_false_r, orb_false_r. unfold bRequireAuth in *.
    destruct (Z.testbit x 18) eqn:Hx; [by left|]. rewrite ?Hx in *. destruct sa; [|done]. destruct empty; [by right|done].
  - cbn [Z.eqb Pos.eqb bDisableMaster bRequireAuth bNoFreeze]. unfold bNoFreeze. by intros ->.
  - intros Hp Hf. apply global_freeze_stays; rewrite Hbit by done; cbn [Z.eqb Pos.eqb bDisableMaster bRequireAuth bNoFreeze bGlobalFreeze];
      unfold bNoFreeze, bGlobalFreeze in *; by rewrite ?Hp, ?Hf.
  - cbn [Z.eqb Pos.eqb bDisableMaster bRequireAuth bNoFreeze bPasswordSpent]. by rewrite andb_false_r, orb_false_r.
Qed.

Section run.
Context `{Build} {SHA : SHA512Half} {SL : SHA512HalfLaws SHA} {B : Type} {RV : ReadView STObject B}.
Context {VM : ViewModel STObject B} {RL : ReadViewLaws STObject B}.

Abbreviation Base := (OpenView.t STObject B).

(** The master key can sign, or there is another key. *)
Definition controllable (o : STObject) : Prop := isFlag lsfDisableMaster o = true -> isFieldPresent sfRegularKey o = true.

(** The fields [SetAccount] changes besides the flags. *)
Definition settings : list SField :=
  [sfAccountTxnID; sfEmailHash; sfWalletLocator; sfMessageKey; sfDomain; sfTransferRate].

(** [o'] is [o] with other settings. *)
Definition reset (o o' : STObject) : Prop := conforms AccountFormat o' /\ forall f, f ∉ settings -> o' !! f = o !! f.

Section rules.
Variables (b : Base) (d : Z * Z) (m : gmap Z Entry) (p : loc) (id : Z).

(** The account is held, and flagged, and its fields are [o]. *)
Definition shown (s : St Base) (o : STObject) : Prop :=
  rep b d s (mkKnow (<[getAccountRootIndex id := account_entry id o]> m) {[getAccountRootIndex id := (p, true)]} ∅ ApplyStateTable.none).

Lemma look_rule {A} s o (g : STObject -> result A) a (Q : A -> St Base -> Prop) : shown s o -> g o = Ok a -> Q a s -> wpm (get p g) s Q.
Proof. intros Hr Hg HQ. by eapply (get_rule _ _ _ _ (getAccountRootIndex id)); [exact Hr|apply lookup_singleton_eq|apply lookup_insert_eq|exact Hg|]. Qed.

Lemma edit_rule s o (g : STObject -> result STObject) o' (Q : unit -> St Base -> Prop) : shown s o -> g o = Ok o' ->
  (forall s', tabs s' = tabs s -> shown s' o' -> Q tt s') -> wpm (set p g) s Q.
Proof.
  intros Hr Hg HQ. eapply (set_rule _ _ _ _ (getAccountRootIndex id)); [exact Hr|apply lookup_singleton_eq|apply lookup_insert_eq|exact Hg|].
  intros s' Ht Hr'. cbn [am ap loose dirty] in Hr'. rewrite insert_insert_eq in Hr'. by apply HQ.
Qed.

Lemma root_rule s o (Q : loc -> St Base -> Prop) : shown s o ->
  (forall s', tabs s' = tabs s -> shown s' o -> Q p s') -> wpm (sle ← peek (Indexes.account id); need sle) s Q.
Proof.
  intros Hr HQ. apply wpm_bind.
  eapply peek_held_rule; [exact Hr|apply getAccountRootIndex_pos|apply lookup_insert_eq|apply account_check|apply lookup_singleton_eq|].
  intros s1 Ht Hr1. apply wpm_need. by apply HQ.
Qed.

(** A step that only changes settings. *)
Definition sets_only {A} (o0 : STObject) (s : St Base) (P : A -> Prop) (a : A) (s' : St Base) : Prop :=
  tabs s' = tabs s /\ P a /\ exists o', shown s' o' /\ reset o0 o'.

Lemma reset_place o0 o f : reset o0 o -> f ∈ settings -> has_place f o.
Proof.
  intros [[_ Hp] _] Hf. apply Hp.
  assert (Hall : Forall (fun f => f ∈ AccountFormat.*1) settings) by (apply (bool_decide_unpack _); vm_compute; exact I).
  by apply (proj1 (list.Forall_forall _ _) Hall) in Hf.
Qed.

Lemma reset_with o0 o f w : reset o0 o -> f ∈ settings -> (forall v, w = Some v -> getSType v = fieldType f) -> reset o0 (<[f := w]> o).
Proof.
  intros Ho Hf Hw. pose proof (reset_place o0 o f Ho Hf) as Hpl. destruct Ho as [[Hd Hp] Hk].
  split; [split|].
  - intros g. rewrite <- Hd. destruct (decide (g = f)) as [->|]; [|by rewrite lookup_insert_ne].
    rewrite lookup_insert_eq. unfold has_place in Hpl. destruct (o !! f); [split; by eexists|done].
  - intros g Hg. destruct (decide (g = f)) as [->|]; unfold has_place.
    + rewrite lookup_insert_eq. destruct w; [by apply Hw|done].
    + rewrite lookup_insert_ne by done. by apply Hp.
  - intros g Hg. rewrite lookup_insert_ne; [by apply Hk|]. by intros ->.
Qed.

Lemma set_setting s s0 o0 o f v (Q : unit -> St Base -> Prop) : shown s o -> reset o0 o -> tabs s = tabs s0 -> f ∈ settings ->
  getSType v = fieldType f -> (forall s', sets_only o0 s0 (fun _ : unit => True) tt s' -> Q tt s') -> wpm (set p (setField f v)) s Q.
Proof.
  intros Hs Ho Ht Hf Hv HQ. eapply edit_rule; [exact Hs|apply setField_ok; [by eapply reset_place|done]|].
  intros s' Ht' Hs'. apply HQ. split; [congruence|]. split; [done|]. eexists. split; [exact Hs'|]. apply reset_with; [done|done|].
  by intros ? [= <-].
Qed.

Lemma drop_setting s s0 o0 o f (Q : unit -> St Base -> Prop) : shown s o -> reset o0 o -> tabs s = tabs s0 -> f ∈ settings ->
  (forall s', sets_only o0 s0 (fun _ : unit => True) tt s' -> Q tt s') -> wpm (set p (makeFieldAbsent f)) s Q.
Proof.
  intros Hs Ho Ht Hf HQ. pose proof (reset_place o0 o f Ho Hf) as Hp.
  assert (Ha : makeFieldAbsent f o = Ok (<[f := None]> o)).
  { unfold makeFieldAbsent, has_place in *. destruct (o !! f) as [[v|]|] eqn:Hf'; [done|by rewrite insert_id|done]. }
  eapply edit_rule; [exact Hs|exact Ha|]. intros s' Ht' Hs'. apply HQ. split; [congruence|]. split; [done|]. eexists. split; [exact Hs'|].
  by apply reset_with.
Qed.

Context (c : Ctx) (Htx : conforms (AccountSet ++ tx_common_fields) (tx_o c)).

Lemma tx_place f : bool_decide (f ∈ AccountSet.*1) = true -> has_place f (tx_o c).
Proof. intros Hf%bool_decide_eq_true. apply Htx. rewrite fmap_app. apply elem_of_app. by left. Qed.

Lemma read_h128 f o : has_place f o -> fieldType f = 4 -> exists v, getFieldH128 f o = Ok v.
Proof.
  unfold has_place, getFieldH128, getField. intros Hp Ht. destruct (o !! f) as [[[]|]|]; try done; try (by eexists); by rewrite Ht in Hp.
Qed.

Lemma read_vl f o : has_place f o -> fieldType f = 7 -> exists v, getFieldVL f o = Ok v.
Proof.
  unfold has_place, getFieldVL, getField. intros Hp Ht. destruct (o !! f) as [[[]|]|]; try done; try (by eexists); by rewrite Ht in Hp.
Qed.

(** ** The steps of [SetAccount] *)

Abbreviation ok0 o0 s s' := (sets_only o0 s (fun _ : unit => True) tt s').

Lemma unchanged s s0 o0 o : shown s o -> reset o0 o -> tabs s = tabs s0 -> ok0 o0 s0 s.
Proof. intros Hs Ho Ht. split; [done|]. split; [done|]. by exists o. Qed.

Lemma in_settings f : bool_decide (f ∈ settings) = true -> f ∈ settings.
Proof. apply bool_decide_eq_true_1. Qed.

Lemma account_txn_id_rule s o0 o st cl (Q : unit -> St Base -> Prop) : shown s o -> reset o0 o ->
  (forall s', ok0 o0 s s' -> Q tt s') -> wpm (account_txn_id p st cl) s Q.
Proof.
  intros Hs Ho HQ. unfold account_txn_id. apply wpm_bind. eapply (wpm_mono _ _ (fun _ s' => ok0 o0 s s')).
  - case_match; [|apply wpm_ret; by eapply unchanged]. apply wpm_bind. eapply look_rule; [exact Hs|done|].
    destruct (isFieldPresent sfAccountTxnID o) eqn:Hp; cbn [negb]; [apply wpm_ret; by eapply unchanged|].
    eapply (edit_rule _ _ _ (<[sfAccountTxnID := defaultObject sfAccountTxnID]> o)); [exact Hs| |].
    + unfold makeFieldPresent. pose proof (reset_place o0 o sfAccountTxnID Ho ltac:(by apply in_settings)) as Hpl.
      unfold has_place, isFieldPresent in *. destruct (o !! sfAccountTxnID) as [[]|]; done.
    + intros s' Ht Hs'. split; [done|]. split; [done|]. eexists. split; [exact Hs'|].
      apply reset_with; [done|by apply in_settings|]. intros v Hv. by apply default_type.
  - intros [] s1 (Ht1 & _ & o1 & Hs1 & Ho1). case_match; [|apply wpm_ret, HQ; by eapply unchanged].
    apply wpm_bind. eapply look_rule; [exact Hs1|done|]. case_match; [|apply wpm_ret, HQ; by eapply unchanged].
    eapply drop_setting; [exact Hs1|exact Ho1|exact Ht1|by apply in_settings|exact HQ].
Qed.

Lemma email_hash_rule s o0 o (Q : unit -> St Base -> Prop) : shown s o -> reset o0 o ->
  (forall s', ok0 o0 s s' -> Q tt s') -> wpm (email_hash c p) s Q.
Proof.
  intros Hs Ho HQ. unfold email_hash. case_match; [|apply wpm_ret, HQ; by eapply unchanged].
  destruct (read_h128 sfEmailHash (tx_o c)) as [v Hv]; [by apply tx_place|done|]. apply wpm_bind. eapply wpm_lift; [exact Hv|].
  case_match; [eapply drop_setting|eapply set_setting]; first [exact Hs|exact Ho|exact HQ|by apply in_settings|done].
Qed.

Lemma wallet_locator_rule s o0 o (Q : unit -> St Base -> Prop) : shown s o -> reset o0 o ->
  (forall s', ok0 o0 s s' -> Q tt s') -> wpm (wallet_locator c p) s Q.
Proof.
  intros Hs Ho HQ. unfold wallet_locator. case_match; [|apply wpm_ret, HQ; by eapply unchanged].
  apply wpm_bind. eapply wpm_lift; [apply get_h256_of; [by apply tx_place|done]|].
  case_match; [eapply drop_setting|eapply set_setting]; first [exact Hs|exact Ho|exact HQ|by apply in_settings|done].
Qed.

Lemma transfer_rate_rule s o0 o (Q : unit -> St Base -> Prop) : shown s o -> reset o0 o ->
  (forall s', ok0 o0 s s' -> Q tt s') -> wpm (transfer_rate c p) s Q.
Proof.
  intros Hs Ho HQ. unfold transfer_rate. case_match; [|apply wpm_ret, HQ; by eapply unchanged].
  apply wpm_bind. eapply wpm_lift; [apply get_u32_of; [by apply tx_place|done]|].
  case_match; [eapply drop_setting; first [exact Hs|exact Ho|exact HQ|by apply in_settings|done]|].
  case_match; [eapply set_setting; first [exact Hs|exact Ho|exact HQ|by apply in_settings|done]|apply wpm_ret, HQ; by eapply unchanged].
Qed.

Lemma blob_field_rule s o0 o f max t (Q : TER -> St Base -> Prop) : shown s o -> reset o0 o ->
  f ∈ settings -> bool_decide (f ∈ AccountSet.*1) = true -> fieldType f = 7 ->
  (forall r s', r = t \/ r = tesSUCCESS -> ok0 o0 s s' -> Q r s') -> wpm (blob_field c p f max t) s Q.
Proof.
  intros Hs Ho Hf Hin Hty HQ. unfold blob_field. case_match; [|apply wpm_ret, HQ; [by right|by eapply unchanged]].
  destruct (read_vl f (tx_o c)) as [v Hv]; [by apply tx_place|done|]. apply wpm_bind. eapply wpm_lift; [exact Hv|].
  case_match; [apply wpm_ret, HQ; [by left|by eapply unchanged]|]. apply wpm_bind.
  assert (HQ' : forall s', ok0 o0 s s' -> wpm (mret tesSUCCESS) s' Q) by (intros s' Hs'; apply wpm_ret, HQ; [by right|done]).
  case_match; [eapply drop_setting|eapply set_setting]; first [exact Hs|exact Ho|exact HQ'|exact Hf|done].
Qed.

(** Whether an owner's directory counts as empty. *)
Definition owns_nothing (pages : list (Z * list Z)) : bool := match pages with [] | [(_, [])] => true | _ => false end.

Lemma owner_dir_rule s o pages (Q : bool -> St Base -> Prop) : shown s o -> dir m (getOwnerDirIndex id) pages ->
  Q (owns_nothing pages) s -> wpm (owner_dir_empty id) s Q.
Proof.
  intros Hs Hd HQ. destruct (rep_is_good _ _ _ _ Hs ltac:(by intros i [])) as [Hg Hc]. cbn [am] in Hc.
  exists (owns_nothing pages), s. split; [|done]. unfold owner_dir_empty.
  change (ownerDir id) with (page (getOwnerDirIndex id) 0). rewrite (DirWalk.dirIsEmpty_spec (av s) (getOwnerDirIndex id) pages Hg (ownerDir_pages id)); [done|].
  rewrite Hc. eapply dir_frame; [exact Hd|]. intros a Ha. apply lookup_insert_ne. by apply LineLife.account_outside.
Qed.

(** The flags, when no step refuses. *)
Lemma account_flags_rule s o mem pages st cl x (Q : TER + Z -> St Base -> Prop) : shown s o -> account_ mem = id ->
  dir m (getOwnerDirIndex id) pages ->
  (forall r, match r with
             | inl t => t ∈ [tecOWNERS; terOWNERS; tecNEED_MASTER_KEY; tecNO_REGULAR_KEY]
             | inr y => flags_allowed (mSigMaster mem) (isFieldPresent sfRegularKey o) (owns_nothing pages) x y
             end -> Q r s) ->
  wpm (account_flags c mem p st cl x) s Q.
Proof.
  intros Hs Hid Hd HQ. unfold account_flags, require_auth. rewrite Hid. apply wpm_bind, wpm_bind.
  set (sa := bSetRequireAuth _ _). change lsfRequireAuth with (2 ^ bRequireAuth).
  eapply (wpm_mono _ _ (fun r s' => r = sa && negb (has x (2 ^ bRequireAuth)) && negb (owns_nothing pages) /\ s' = s)).
  { destruct (sa && _); [|by apply wpm_ret]. apply wpm_bind. eapply owner_dir_rule; [done|exact Hd|]. by apply wpm_ret. }
  intros r s' [-> ->]. apply wpm_ret. destruct (sa && negb (has x (2 ^ bRequireAuth)) && negb (owns_nothing pages)) eqn:Hsa.
  { apply wpm_ret, HQ. case_match; apply (bool_decide_unpack _); vm_compute; exact I. }
  apply wpm_bind. unfold disable_master. change lsfDisableMaster with (2 ^ bDisableMaster).
  set (dis := (st =? asfDisableMaster) && negb (has x (2 ^ bDisableMaster))).
  destruct (dis && negb (mSigMaster mem)) eqn:Hdm.
  { apply wpm_ret, wpm_ret, HQ. apply (bool_decide_unpack _). vm_compute. exact I. }
  apply wpm_bind. eapply (wpm_mono _ _ (fun r s' => r = dis && negb (isFieldPresent sfRegularKey o) /\ s' = s)).
  { destruct dis; [|by apply wpm_ret]. apply wpm_bind. eapply look_rule; [exact Hs|done|]. by apply wpm_ret. }
  intros r s' [-> ->]. apply wpm_ret. destruct (dis && negb (isFieldPresent sfRegularKey o)) eqn:Hrk.
  { apply wpm_ret, HQ. apply (bool_decide_unpack _). vm_compute. exact I. }
  apply wpm_ret, HQ. destruct (no_freeze _ _ _ _) as [t|z] eqn:Hz; [|by eapply flags_path].
  unfold no_freeze in Hz. repeat case_match; try done. injection Hz as <-. apply (bool_decide_unpack _). vm_compute. exact I.
Qed.

(** The results other than success. *)
Definition refusals : list TER :=
  [tecOWNERS; terOWNERS; tecNEED_MASTER_KEY; tecNO_REGULAR_KEY; telBAD_PUBLIC_KEY; telBAD_DOMAIN].

(** [o'] is [o] with settings and flags changed as they may be. *)
Record account_kept (master empty : bool) (o o' : STObject) : Prop := {
  k_typed : conforms AccountFormat o';
  k_flags : flags_allowed master (isFieldPresent sfRegularKey o) empty (getFlags o) (getFlags o');
  k_same f : f ∉ sfFlags :: settings -> o' !! f = o !! f }.

Lemma doApply_rule s o mem pages (Q : TER -> St Base -> Prop) : shown s o -> account_ mem = id -> conforms AccountFormat o ->
  dir m (getOwnerDirIndex id) pages ->
  (forall t s', t ∈ refusals -> Q t s') ->
  (forall o' s', tabs s' = tabs s -> shown s' o' -> account_kept (mSigMaster mem) (owns_nothing pages) o o' -> Q tesSUCCESS s') ->
  wpm (doApply c mem) s Q.
Proof.
  intros Hs Hid Ho Hd Hbad HQ. unfold doApply. rewrite Hid. apply wpm_bind.
  eapply peek_held_rule; [exact Hs|apply getAccountRootIndex_pos|apply lookup_insert_eq|apply account_check|apply lookup_singleton_eq|].
  intros s1 Ht1 Hs1. apply wpm_bind, wpm_need.
  assert (Hfl : has_place sfFlags o) by (apply Ho; apply (bool_decide_unpack _); vm_compute; exact I).
  apply wpm_bind. eapply look_rule; [exact Hs1|by apply get_u32_of|].
  apply wpm_bind. eapply wpm_lift; [apply get_u32_of; [by apply tx_place|done]|].
  apply wpm_bind. eapply wpm_lift; [apply get_u32_of; [by apply tx_place|done]|].
  apply wpm_bind. eapply account_flags_rule; [exact Hs1|done|exact Hd|]. intros [t|y] Hy.
  { apply wpm_ret, Hbad. rewrite !elem_of_cons in Hy. unfold refusals. rewrite !elem_of_cons. tauto. }
  assert (Hr0 : reset o o) by done.
  apply wpm_bind. eapply account_txn_id_rule; [exact Hs1|exact Hr0|]. intros s2 (Ht2 & _ & o2 & Hs2 & Ho2).
  apply wpm_bind. eapply email_hash_rule; [exact Hs2|exact Ho2|]. intros s3 (Ht3 & _ & o3 & Hs3 & Ho3).
  apply wpm_bind. eapply wallet_locator_rule; [exact Hs3|exact Ho3|]. intros s4 (Ht4 & _ & o4 & Hs4 & Ho4).
  apply wpm_bind. eapply blob_field_rule; [exact Hs4|exact Ho4|by apply in_settings|done|done|].
  intros r5 s5 Hr5 (Ht5 & _ & o5 & Hs5 & Ho5). case_bool_decide as Hok5; cbn [negb].
  2: { destruct Hr5 as [->|]; [|done]. apply wpm_ret, Hbad. apply (bool_decide_unpack _). vm_compute. exact I. }
  apply wpm_bind. eapply blob_field_rule; [exact Hs5|exact Ho5|by apply in_settings|done|done|].
  intros r6 s6 Hr6 (Ht6 & _ & o6 & Hs6 & Ho6). case_bool_decide as Hok6; cbn [negb].
  2: { destruct Hr6 as [->|]; [|done]. apply wpm_ret, Hbad. apply (bool_decide_unpack _). vm_compute. exact I. }
  apply wpm_bind. eapply transfer_rate_rule; [exact Hs6|exact Ho6|]. intros s7 (Ht7 & _ & o7 & Hs7 & [Hc7 Hk7]).
  assert (Hfl7 : o7 !! sfFlags = o !! sfFlags) by (apply Hk7; apply (bool_decide_unpack _); vm_compute; exact I).
  assert (Hpl7 : has_place sfFlags o7) by (unfold has_place in *; by rewrite Hfl7).
  change (u32_of sfFlags o) with (getFlags o) in *. apply wpm_bind. destruct (Z.eqb_spec (getFlags o) y) as [Heq|Hne]; cbn [negb].
  - apply wpm_ret, wpm_ret. eapply HQ; [congruence|exact Hs7|]. split; [done| |].
    + unfold getFlags at 2. rewrite Hfl7. change (match o !! sfFlags with Some (Some (U32 z)) => z | _ => 0 end) with (getFlags o). by rewrite Heq at 2.
    + intros f Hf. apply Hk7. rewrite not_elem_of_cons in Hf. by destruct Hf.
  - eapply edit_rule; [exact Hs7|by apply setField_ok|]. intros s8 Ht8 Hs8. apply wpm_ret. eapply HQ; [congruence|exact Hs8|].
    pose proof (setField_conforms _ o7 sfFlags (U32 y) Hc7) as Hsf. rewrite setField_ok in Hsf by done. destruct Hsf as (_ & _ & _ & Hc8).
    split; [done| |].
    + unfold getFlags at 2. by rewrite lookup_insert_eq.
    + intros f Hf. rewrite not_elem_of_cons in Hf. destruct Hf. rewrite lookup_insert_ne by done. by apply Hk7.
Qed.

End rules.

(** An account that can be signed for stays so. *)
Lemma kept_controllable master empty o o' : account_kept master empty o o' -> controllable o -> controllable o'.
Proof.
  intros Hk Hc. unfold controllable, isFlag in *. change lsfDisableMaster with (2 ^ bDisableMaster) in *. rewrite isFlag_bit in * by done.
  intros Hb. assert (Hsame : isFieldPresent sfRegularKey o' = isFieldPresent sfRegularKey o).
  { unfold isFieldPresent. rewrite (k_same _ _ _ _ Hk); [done|]. apply (bool_decide_unpack _). vm_compute. exact I. }
  rewrite Hsame. destruct (fa_master _ _ _ _ _ (k_flags _ _ _ _ Hk) Hb) as [|[_ ?]]; auto.
Qed.

(** ** The whole transaction *)

Lemma grows_owner_dir id n : grows n (owner_dir_empty (B := B) id).
Proof. intros s a s'. unfold owner_dir_empty. destruct (dirIsEmpty _ _); [|done..]. cbn. intros [= _ <-]. lia. Qed.

Lemma grows_flags c mem p st cl x : grows 0 (account_flags (B := B) c mem p st cl x).
Proof.
  pose proof (grows_owner_dir (account_ mem) 0). unfold account_flags. apply grows_step; [unfold require_auth; grow|]. intros [t|y]; [grow0|].
  apply grows_step; [unfold disable_master; grow|]. intros r. grow0.
Qed.

Lemma grows_txn_id p st cl : grows 0 (account_txn_id (B := B) p st cl).
Proof. unfold account_txn_id. apply grows_step; [grow|]. intros _. grow. Qed.

Lemma grows_fields c p f max t : grows 0 (email_hash (B := B) c p) /\ grows 0 (wallet_locator (B := B) c p) /\
  grows 0 (transfer_rate (B := B) c p) /\ grows 0 (blob_field (B := B) c p f max t).
Proof. unfold email_hash, wallet_locator, transfer_rate, blob_field. split_and!; grow. Qed.

Lemma grows_account_doApply c mem : grows 1 (t ← doApply (B := B) c mem; mret (t, no_effects)).
Proof.
  apply grows_last; [|intros ?; grow0]. unfold doApply. apply grows_next; [grow1|]. intros p. apply grows_step; [grow0|]. intros q.
  do 3 (apply grows_step; [grow0|]; intros ?). apply grows_step; [apply grows_flags|]. intros [t|y]; [grow0|].
  apply grows_step; [apply grows_txn_id|]. intros _. do 2 (apply grows_step; [by apply (grows_fields c q 0 0%nat tesSUCCESS)|]; intros _).
  do 2 (apply grows_step; [by apply grows_fields|]; intros ?; case_match; [grow0|]).
  apply grows_step; [by apply (grows_fields c q 0 0%nat tesSUCCESS)|]. intros _. grow.
Qed.

Lemma run_refused {X} (p : Processor X) c sig (base : Base) t s1 f : txID c <> 0 -> getFieldAmount sfFee (tx_o c) = Ok (xrp f) ->
  Transactor.apply p c (initial sig (p_extra p)) (fresh_state base) = Ok ((t, no_effects), s1) -> Z.of_nat (touched s1) <= 5200 ->
  t ∈ [terOWNERS; telBAD_PUBLIC_KEY; telBAD_DOMAIN] -> run p c sig base = Ok (t, false, no_effects, base).
Proof.
  intros Hid Hfee Happ Hsz Ht. unfold run. rewrite (proj2 (Z.eqb_neq _ _) Hid), Happ. cbn [mbind result_bind].
  rewrite Hfee. pose proof (size_touched s1). cbn [mbind result_bind]. rewrite (proj2 (Z.ltb_ge _ _)) by lia.
  rewrite !elem_of_cons, elem_of_nil in Ht. by destruct Ht as [->|[->|[->|[]]]].
Qed.

Lemma charged_typed o n sq : conforms AccountFormat o -> conforms AccountFormat (charged o n sq).
Proof.
  intros Ho. unfold charged, with_seq, with_drops.
  do 2 (apply conforms_insert; [|apply (bool_decide_unpack _); vm_compute; exact I|done]). done.
Qed.

Lemma charged_controllable o n sq : controllable o -> controllable (charged o n sq).
Proof. unfold controllable, isFlag, getFlags, isFieldPresent, charged, with_seq, with_drops. by rewrite !lookup_insert_ne. Qed.

Lemma kept_fit txID_ m id n n' sq o o' master empty : all_fit txID_ m -> sender m id n sq o ->
  account_kept master empty (charged o n' sq) o' -> all_fit txID_ (<[getAccountRootIndex id := account_entry id o']> m).
Proof.
  intros Hfit Hs Hk k e. destruct (decide (k = getAccountRootIndex id)) as [->|Hne]; [|rewrite lookup_insert_ne by done; apply Hfit].
  rewrite lookup_insert_eq. intros [= <-]. destruct (Hfit _ _ (s_entry _ _ _ _ _ Hs)) as [[H1 H2] [H3 H4]].
  assert (Hsame : forall g, g ∈ [sfPreviousTxnID; sfPreviousTxnLgrSeq; sfLedgerEntryType; sfAccount; sfLowLimit; sfHighLimit] -> o' !! g = o !! g).
  { intros g Hg. rewrite (k_same _ _ _ _ Hk).
    - unfold charged, with_seq, with_drops. rewrite !elem_of_cons, elem_of_nil in Hg. destruct_or! Hg; subst g; by rewrite ?lookup_insert_ne.
    - rewrite !elem_of_cons, elem_of_nil in Hg. destruct_or! Hg; subst g; apply (bool_decide_unpack _); vm_compute; exact I. }
  unfold Threading.entry_ok, Threading.owner_fields, Threading.threadable, has_place, TxMeta.isThreadedType, h256_of in *.
  cbn [fields account_entry getType] in *. rewrite !Hsame; [done|apply (bool_decide_unpack _); vm_compute; exact I..].
Qed.

Lemma account_applies c sig (base : Base) mem id n sq f o pages :
  good base -> isOpen (OpenView.info_ base) = false -> charges c id sq f -> sender (contents base) id n sq o -> f <= n ->
  conforms (AccountSet ++ tx_common_fields) (tx_o c) -> conforms AccountFormat o -> dir (contents base) (getOwnerDirIndex id) pages ->
  AccountTx.preCheck c (initial sig tt) = Ok (tesSUCCESS, mem) -> account_ mem = id ->
  in_turn c o (seq (OpenView.info_ base)) -> authorised c mem id o ->
  wpm (Transactor.apply processor c (initial sig tt)) (fresh_state base) (fun r s' => r.2 = no_effects /\
    (r.1 = tesSUCCESS /\ (exists o' p, shown base (0, 0) (contents base) p id s' o' /\
       account_kept ((calcAccountID c (mSigningPubKey mem) =? id) || mSigMaster mem) (owns_nothing pages) (charged o (n - f) sq) o') \/
     r.1 ∈ refusals)).
Proof.
  intros Hg Hcl Hch Hs Hle Htyped Ho Hd Hpre Hid Hturn Hauth.
  eapply (apply_rule tt _ _ c sig base mem id n sq f o); [done..| |done|done|done|].
  { unfold lift. by rewrite Hpre. }
  intros m' p s' Ht Hprep Hr. apply wpm_bind.
  eapply (doApply_rule base (0, 0) (contents base) p id c Htyped s' (charged o (n - f) sq) m' pages); [exact Hr| |by apply charged_typed|exact Hd| |].
  - by rewrite (p_account _ _ _ _ _ _ Hprep).
  - intros t s2 Hbad. apply wpm_ret. split; [done|]. by right.
  - intros o' s2 _ Hs2 Hk. apply wpm_ret. split; [done|]. left. split; [done|]. exists o', p. split; [done|].
    rewrite (p_master _ _ _ _ _ _ Hprep), Hid in Hk. exact Hk.
Qed.

(** C21: what an account transaction can do.  A transaction that sets an account's
    flags and fields, in its turn and signed for, succeeds, is charged, or is
    refused.  When it succeeds, only the flags and the settings of the account
    change besides the fee and the sequence number; the master key is disabled
    only with its own signature and when there is a regular key, authorization is
    required only by an account that owns nothing, an account that gave up
    freezing keeps that promise and cannot end a global freeze; and in every case
    an account that could be signed for still can. *)
Theorem account_set_safe c sig (base : Base) mem id n sq f o pages :
  good base -> isOpen (OpenView.info_ base) = false -> txID c <> 0 -> OpenView.txs_ base !! txID c = None ->
  charges c id sq f -> sender (contents base) id n sq o -> f <= n -> 0 < n <= supply base ->
  conforms (AccountSet ++ tx_common_fields) (tx_o c) -> conforms AccountFormat o -> controllable o ->
  dir (contents base) (getOwnerDirIndex id) pages ->
  AccountTx.preCheck c (initial sig tt) = Ok (tesSUCCESS, mem) -> account_ mem = id ->
  in_turn c o (seq (OpenView.info_ base)) -> authorised c mem id o -> has (flags c) tapRETRY = false ->
  all_fit (txID c) (contents base) ->
  exists t did base', run processor c sig base = Ok (t, did, no_effects, base') /\
    (did = true -> exists o', controllable o' /\
       applied c base base' (<[getAccountRootIndex id := account_entry id o']> (contents base)) (supply base - f) /\
       if bool_decide (t = tesSUCCESS)
       then account_kept ((calcAccountID c (mSigningPubKey mem) =? id) || mSigMaster mem) (owns_nothing pages) (charged o (n - f) sq) o'
       else o' = charged o (n - f) sq) /\
    (did = false -> base' = base /\ t ∈ refusals).
Proof.
  intros Hg Hcl Htid Htx Hch Hs Hle Hn Htyped Ho Hctl Hd Hpre Hid Hturn Hauth Hretry Hfit.
  pose proof (t_drops _ _ _ _ Hch) as [Hf0 _]. set (master := (calcAccountID c (mSigningPubKey mem) =? id) || mSigMaster mem).
  destruct (account_applies c sig base mem id n sq f o pages) as ([t e] & s1 & Happ & He & HQ); [done..|]. cbn [snd] in He. subst e.
  assert (Hsz : Z.of_nat (touched s1) <= 5200).
  { apply (grows_apply tt _ _ c (initial sig tt) 1) in Happ; [change (touched (fresh_state base)) with 0%nat in Happ; lia|apply grows_lift|intros; apply grows_account_doApply]. }
  cbn [fst snd] in HQ. destruct HQ as [(-> & o' & p & Hsh & Hk)|Ht].
  - pose proof (good_supply _ Hg) as Hs0. pose proof (rep_supply s1 _ base 0 Hsh ltac:(lia)) as Hs1.
    destruct (run_success processor c sig base no_effects s1 f _ _ Hg Hcl Htid Htx (t_fee _ _ _ _ Hch) Happ Hsh) as (base' & Hrun & Ha).
    + by intros i [].
    + done.
    + eapply no_erasures; [exact Hsh|by intros i []|]. cbn [am]. intros i. apply (same_keys_insert _ _ _ _ (s_entry _ _ _ _ _ Hs)).
    + cbn [am]. apply fits_same_keys; [done| |apply (same_keys_insert _ _ _ _ (s_entry _ _ _ _ _ Hs))].
      by eapply kept_fit.
    + lia.
    + rewrite Hs1, Z.add_0_r in Ha. exists tesSUCCESS, true, base'. split; [exact Hrun|]. split; [|done]. intros _. exists o'.
      split; [by eapply kept_controllable, charged_controllable|]. split; [exact Ha|]. by rewrite bool_decide_eq_true_2.
  - destruct (decide (t ∈ [terOWNERS; telBAD_PUBLIC_KEY; telBAD_DOMAIN])) as [Href|Htec].
    + exists t, false, base. split; [by eapply run_refused; [done|apply Hch|done..]|done].
    + assert (Hcl' : isTecClaim t = true /\ t <> tecCLAIM /\ t <> tesSUCCESS).
      { unfold refusals in Ht. rewrite !elem_of_cons in Ht. rewrite !elem_of_cons in Htec. destruct_or! Ht; try subst t; try done; try tauto; by apply not_elem_of_nil in Ht. }
      destruct Hcl' as (Hcl1 & Hcl2 & Hcl3).
      destruct (claim_spec processor c sig base t no_effects s1 id n sq f o) as (base' & md & Hrun & Hg' & Hsh & Hsup & Htot & Htxs & Hinfo); try done.
      rewrite (Z.min_l f n) in * by done. exists t, true, base'. split.
      { rewrite Hrun. unfold reported. pose proof (size_touched s1). by rewrite (proj2 (Z.ltb_ge _ _)) by lia. }
      split; [|done]. intros _. exists (charged o (n - f) sq). split; [by apply charged_controllable|]. rewrite bool_decide_eq_false_2 by done.
      split; [|done]. split; [done|done|done|by eapply shows_total|by exists md|done].
Qed.

End run.

(** ** Examples *)

Module Examples.
Import Transfers.Examples Threading.Examples TransactorRun.Examples LineLife.Examples SignerListRun.Examples.

(** An account disables its master key. *)
Definition set_ctx (uSetFlag : Z) : Ctx :=
  mkCtx (mkTx ttACCOUNT_SET (<[sfSetFlag := Some (U32 uSetFlag)]> (<[sfAccount := Some (ACC 7)]>
    (<[sfSequence := Some (U32 0)]> (<[sfFee := Some (AMT (xrp 12))]> (<[sfSigningPubKey := Some (VL [7])]>
    (set_template (AccountSet ++ tx_common_fields))))))))
    5 [1; 2] None 0 (mkFees 10 10 20 5) 10 LoadFeeTrack.make false (fun _ => true) (fun _ _ => false)
    (fun key => default 0 (head key)) (fun _ => []).

Lemma set_ctx_typed k : conforms (AccountSet ++ tx_common_fields) (tx_o (set_ctx k)).
Proof.
  unfold set_ctx, tx_o. cbn [tx tx_fields].
  repeat (apply conforms_insert; [|apply (bool_decide_unpack _); vm_compute; exact I|vm_compute; reflexivity]). apply set_template_conforms.
Qed.

Definition signed7 : Members unit := set_sig sig_good (set_key [7] (set_account 7 (initial sig_indeterminate tt))).

Lemma account_set_safe_witness : exists base' o',
  run processor (set_ctx asfRequireDest) sig_indeterminate closing105 = Ok (tesSUCCESS, true, no_effects, base') /\
  supply base' = 93 /\ controllable o'.
Proof.
  destruct (account_set_safe (set_ctx asfRequireDest) sig_indeterminate closing105 signed7 7 100 0 12 (account_of 7 100) []
    closing105_good eq_refl ltac:(discriminate) eq_refl ltac:(split; [reflexivity..|split; discriminate]) sender7 ltac:(discriminate)
    (proj1 supply105) (set_ctx_typed _) (account_of_typed 7 100) ltac:(intros [=]) (closing105_dir 7) eq_refl eq_refl
    ltac:(split_and!; [reflexivity|reflexivity|left; reflexivity]) ltac:(split; reflexivity) eq_refl fit105)
    as (t & did & base' & Hrun & Hyes & Hno).
  assert (Hok : exists b', run processor (set_ctx asfRequireDest) sig_indeterminate closing105 = Ok (tesSUCCESS, true, no_effects, b')).
  { vm_compute. eexists. reflexivity. }
  destruct Hok as [b' Hok]. rewrite Hok in Hrun. injection Hrun as <- <- ->. destruct (Hyes eq_refl) as (o' & Hc & Ha & _).
  exists base', o'. split; [exact Hok|]. split; [|exact Hc]. rewrite (a_supply _ _ _ _ _ Ha), (proj2 supply105). reflexivity.
Defined.

(** Without a regular key the master key stays. *)
Lemma disable_refused : (fun r => match r with Ok (t, did, _, _) => Some (t, did) | _ => None end)
  (run processor (set_ctx asfDisableMaster) sig_indeterminate closing105) = Some (tecNO_REGULAR_KEY, true).
Proof. vm_compute. reflexivity. Qed.

End Examples.
End AccountRun.
