(* ===== verification/KeyRun.v ===== *)
(** * Setting the regular key

    What a transaction that sets or removes an account's regular key does to the
    ledger ([SetRegularKey], app/tx/impl/SetRegularKey.cpp): the key changes, an
    account is not left without a key, and the change that is free of charge is
    free once. *)

From stdpp Require Import base tactics numbers list strings gmap sorting option.
From S2P Require Import Prelude Decimal IOUAmount BigNum Serializer STAmount.
From S2P Require Import View StateTable ApplyStateTable Fields Indexes PaymentSandbox ViewOps.
From S2P Require Import Directory TrustLines Transfers LineLife Change LoadFeeTrack MultiSign TxMeta Threading.
From S2P Require Import Footprint Transactor TransactorRun TransactorSteps TxFlags AccountTx SignerListTx SignerListRun AccountRun.

Module KeyRun.
Import Fields Indexes ViewOps TrustLines Transfers MultiSign Change Footprint Transactor TransactorRun TransactorSteps TxFlags AccountTx AccountRun.

Section key.
Context `{Build} {SHA : SHA512Half} {SL : SHA512HalfLaws SHA} {B : Type} {RV : ReadView STObject B}.
Context {VM : ViewModel STObject B} {RL : ReadViewLaws STObject B}.

Abbreviation Base := (OpenView.t STObject B).

(** The change is free: the password is not spent and the master key signs. *)
Definition free_change (c : Ctx) (mem : Members unit) (o : STObject) : bool :=
  negb (has (getFlags o) lsfPasswordSpent) && (calcAccountID c (mSigningPubKey mem) =? account_ mem).

(** What the transaction costs then. *)
Definition key_fee (c : Ctx) (mem : Members unit) (o : STObject) : Z :=
  if free_change c mem o then 0 else calculateBaseFee c.

(** No fee was due. *)
Definition cost_nothing (c : Ctx) (mem : Members unit) (o : STObject) : bool :=
  STAmount.signum (mFeeDue (calculateFee c (key_fee c mem o) mem)) =? 0.

Lemma free_costs_nothing c mem o : free_change c mem o = true -> cost_nothing c mem o = true.
Proof.
  intros Hf. unfold cost_nothing, key_fee. rewrite Hf. cbn [calculateFee set_feeDue mFeeDue].
  assert (H0 : LoadFeeTrack.scaleFeeLoad 0 (base (fees c)) (units (fees c)) (has (flags c) tapADMIN) (track c) = 0).
  { apply Zdiv_0_l. }
  rewrite H0. reflexivity.
Qed.

(** The account after the work: the password is spent when no fee was due, and
    the key is the one given, or none. *)
Definition rekeyed (c : Ctx) (spend : bool) (o : STObject) : STObject :=
  let o := if spend then setFlag lsfPasswordSpent o else o in
  if isFieldPresent sfRegularKey (tx_o c) then <[sfRegularKey := Some (ACC (acc_of sfRegularKey (tx_o c)))]> o
  else <[sfRegularKey := None]> o.

(** The key cannot be removed. *)
Definition keeps_key (c : Ctx) (o : STObject) : bool := negb (isFieldPresent sfRegularKey (tx_o c)) && isFlag lsfDisableMaster o.

Lemma setFlag_spent (o : STObject) f : f <> sfFlags -> setFlag lsfPasswordSpent o !! f = o !! f.
Proof. intros Hf. unfold setFlag. repeat case_match; try done. by rewrite lookup_insert_ne. Qed.

Lemma setFlag_master (o : STObject) : isFlag lsfDisableMaster (setFlag lsfPasswordSpent o) = isFlag lsfDisableMaster o.
Proof.
  unfold isFlag. change lsfDisableMaster with (2 ^ bDisableMaster). rewrite !isFlag_bit by done. unfold setFlag.
  destruct (o !! sfFlags) as [[[]|]|] eqn:Hf; try done. unfold getFlags. rewrite lookup_insert_eq, Hf.
  change lsfPasswordSpent with (2 ^ bPasswordSpent). rewrite lor_bit by done. by rewrite orb_false_r.
Qed.

Lemma key_work_rule (b : Base) d m p id c mem s o spend (Q : TER -> St Base -> Prop) : shown b d m p id s o ->
  conforms (SetRegularKey ++ tx_common_fields) (tx_o c) -> conforms AccountFormat o -> account_ mem = id ->
  (STAmount.signum (mFeeDue mem) =? 0) = spend ->
  (keeps_key c o = true -> forall s', Q tecMASTER_DISABLED s') ->
  (keeps_key c o = false -> forall s', tabs s' = tabs s -> shown b d m p id s' (rekeyed c spend o) -> Q tesSUCCESS s') ->
  wpm (key_doApply c mem) s Q.
Proof.
  intros Hs Htx Ho Hid Hfee Hbad HQ. unfold key_doApply. rewrite Hid. apply wpm_bind.
  eapply peek_held_rule; [exact Hs|apply getAccountRootIndex_pos|apply lookup_insert_eq|apply account_check|apply lookup_singleton_eq|].
  intros s1 Ht1 Hs1. apply wpm_bind, wpm_need. rewrite Hfee. set (o1 := if spend then setFlag lsfPasswordSpent o else o).
  apply wpm_bind. eapply (wpm_mono _ _ (fun _ s2 => tabs s2 = tabs s /\ shown b d m p id s2 o1)).
  { unfold o1. destruct (spend); [|by apply wpm_ret]. eapply edit_rule; [exact Hs1|done|]. intros s2 Ht2 Hs2. split; [congruence|done]. }
  intros [] s2 [Ht2 Hs2].
  assert (Hkey : o1 !! sfRegularKey = o !! sfRegularKey) by (unfold o1; case_match; [by apply setFlag_spent|done]).
  assert (Hpl : has_place sfRegularKey o1).
  { unfold has_place. rewrite Hkey. apply Ho. apply (bool_decide_unpack _). vm_compute. exact I. }
  assert (Hmst : isFlag lsfDisableMaster o1 = isFlag lsfDisableMaster o) by (unfold o1; case_match; [apply setFlag_master|done]).
  unfold keeps_key in *. destruct (isFieldPresent sfRegularKey (tx_o c)) eqn:Hp; cbn [negb andb] in *.
  - apply wpm_bind. eapply wpm_lift.
    { apply get_acc_of; [|done]. apply Htx. apply (bool_decide_unpack _). vm_compute. exact I. }
    apply wpm_bind. eapply edit_rule; [exact Hs2|by apply setField_ok|]. intros s3 Ht3 Hs3. apply wpm_ret.
    apply HQ; [done|congruence|]. unfold rekeyed. by rewrite Hp.
  - apply wpm_bind. eapply look_rule; [exact Hs2|done|]. rewrite Hmst. destruct (isFlag lsfDisableMaster o); [apply wpm_ret; by apply Hbad|].
    apply wpm_bind. eapply (edit_rule _ _ _ _ _ _ _ _ (<[sfRegularKey := None]> o1)); [exact Hs2| |].
    { unfold makeFieldAbsent. unfold has_place in Hpl. destruct (o1 !! sfRegularKey) as [[]|] eqn:Hk; [done|by rewrite insert_id|done]. }
    intros s3 Ht3 Hs3. apply wpm_ret. apply HQ; [done|congruence|]. unfold rekeyed. by rewrite Hp.
Qed.

Lemma key_fee_rule (b : Base) d m p id c mem s o (Q : Z -> St Base -> Prop) :
  rep b d s (mkKnow m {[getAccountRootIndex id := (p, false)]} ∅ ApplyStateTable.none) ->
  m !! getAccountRootIndex id = Some (account_entry id o) -> account_ mem = id ->
  (forall s', tabs s' = tabs s -> rep b d s' (mkKnow m {[getAccountRootIndex id := (p, false)]} ∅ ApplyStateTable.none) ->
     Q (key_fee c mem o) s') -> wpm (key_baseFee c mem) s Q.
Proof.
  intros Hr Ho Hid HQ. unfold key_baseFee. rewrite Hid. apply wpm_bind.
  eapply peek_held_rule; [exact Hr|apply getAccountRootIndex_pos|exact Ho|apply account_check|apply lookup_singleton_eq|].
  intros s1 Ht1 Hr1. apply wpm_bind, wpm_bind.
  eapply (get_rule _ _ _ _ (getAccountRootIndex id)); [exact Hr1|apply lookup_singleton_eq|exact Ho|done|].
  apply wpm_ret, wpm_ret. unfold key_fee, free_change in HQ. rewrite Hid in HQ. by apply HQ.
Qed.

Lemma grows_key c mem : grows 1 (key_baseFee (B := B) c mem) /\ grows 1 (t ← key_doApply (B := B) c mem; mret (t, no_effects)).
Proof. unfold key_baseFee, key_doApply. split; [grow|]. apply grows_last; [grow|intros ?; grow0]. Qed.

Lemma rekeyed_same c spend o f : f <> sfFlags -> f <> sfRegularKey -> rekeyed c spend o !! f = o !! f.
Proof.
  intros H1 H2. unfold rekeyed. destruct (isFieldPresent sfRegularKey (tx_o c)); rewrite lookup_insert_ne by done;
    (case_match; [by apply setFlag_spent|done]).
Qed.

Lemma rekeyed_flags c spend o : getFlags (rekeyed c spend o) = getFlags (if spend then setFlag lsfPasswordSpent o else o).
Proof. unfold rekeyed, getFlags. by destruct (isFieldPresent sfRegularKey (tx_o c)); rewrite lookup_insert_ne. Qed.

Lemma rekeyed_controllable c spend o : keeps_key c o = false -> controllable (rekeyed c spend o).
Proof.
  intros Hk Hd. unfold isFlag in Hd. rewrite rekeyed_flags in Hd. change (isFlag lsfDisableMaster (if spend then setFlag lsfPasswordSpent o else o) = true) in Hd.
  assert (Hm : isFlag lsfDisableMaster o = true) by (destruct spend; [by rewrite <- setFlag_master|done]).
  unfold keeps_key in Hk. rewrite Hm, andb_true_r in Hk. unfold rekeyed, isFieldPresent in *.
  destruct (tx_o c !! sfRegularKey) as [[]|]; try done. by rewrite lookup_insert_eq.
Qed.

(** Once spent, a change is not free any more. *)
Lemma rekeyed_spent c mem o : has_place sfFlags o -> isFieldPresent sfFlags o = true -> free_change c mem (rekeyed c true o) = false.
Proof.
  intros Hp Hf. unfold free_change. rewrite rekeyed_flags.
  unfold setFlag, has_place, isFieldPresent in *. destruct (o !! sfFlags) as [[[]|]|]; try done.
  unfold getFlags. rewrite lookup_insert_eq. change lsfPasswordSpent with (2 ^ bPasswordSpent).
  rewrite has_bit, lor_bit by done. by rewrite orb_true_r.
Qed.

Lemma rekeyed_fit txID_ m id n n' sq o c spend : all_fit txID_ m -> sender m id n sq o ->
  all_fit txID_ (<[getAccountRootIndex id := account_entry id (rekeyed c spend (charged o n' sq))]> m).
Proof.
  intros Hfit Hs k e. destruct (decide (k = getAccountRootIndex id)) as [->|Hne]; [|rewrite lookup_insert_ne by done; apply Hfit].
  rewrite lookup_insert_eq. intros [= <-].
  pose proof (fit_charged txID_ m id n n' sq o Hfit Hs (getAccountRootIndex id) _ (lookup_insert_eq _ _ _)) as Hf.
  set (o1 := charged o n' sq) in *.
  assert (Hf1 : Threading.entry_ok txID_ (account_entry id (if spend then setFlag lsfPasswordSpent o1 else o1)) /\
    Threading.owner_fields (account_entry id (if spend then setFlag lsfPasswordSpent o1 else o1))).
  { case_match; [|done]. unfold setFlag. repeat case_match; try done. apply fit_account; [by apply (bool_decide_unpack _)|done]. }
  unfold rekeyed. destruct (isFieldPresent sfRegularKey (tx_o c)); (apply fit_account; [by apply (bool_decide_unpack _)|done]).
Qed.

Lemma key_applies c sig (base : Base) mem id n sq f o :
  good base -> isOpen (OpenView.info_ base) = false -> charges c id sq f -> sender (contents base) id n sq o -> f <= n ->
  conforms (SetRegularKey ++ tx_common_fields) (tx_o c) -> conforms AccountFormat o ->
  key_preCheck c (initial sig tt) = Ok (tesSUCCESS, mem) -> account_ mem = id ->
  in_turn c o (seq (OpenView.info_ base)) -> authorised c mem id o ->
  wpm (Transactor.apply key_processor c (initial sig tt)) (fresh_state base) (fun r s' =>
    if keeps_key c o then r = (tecMASTER_DISABLED, no_effects)
    else r = (tesSUCCESS, no_effects) /\
      exists p, shown base (0, 0) (contents base) p id s' (rekeyed c (cost_nothing c mem o) (charged o (n - f) sq))).
Proof.
  intros Hg Hcl Hch Hs Hle Htyped Ho Hpre Hid Hturn Hauth.
  assert (Hsame : keeps_key c (charged o (n - f) sq) = keeps_key c o).
  { unfold keeps_key, isFlag, getFlags, charged, with_seq, with_drops. by rewrite !lookup_insert_ne. }
  eapply (apply_fee_rule tt _ _ _ c sig base mem id n sq f o (key_fee c mem o)); [done..| |done|done|done| |].
  { unfold lift. by rewrite Hpre. }
  { intros p s' Q' Hr HQ'. eapply key_fee_rule; [exact Hr|apply Hs|done|exact HQ']. }
  intros m' p s' Ht Hprep Hr. apply wpm_bind.
  eapply (key_work_rule base (0, 0) (contents base) p id c m' s' (charged o (n - f) sq) (cost_nothing c mem o));
    [exact Hr|done|by apply charged_typed| | | |].
  - by rewrite (p_account _ _ _ _ _ _ Hprep).
  - by rewrite (p_due _ _ _ _ _ _ Hprep).
  - rewrite Hsame. intros -> s2. by apply wpm_ret.
  - rewrite Hsame. intros -> s2 _ Hs2. apply wpm_ret. split; [done|]. by exists p.
Qed.

(** The regular key.  A transaction that gives an account a regular key, or
    takes it away, in its turn and signed for: it is charged and fails when the
    key would be taken from an account whose master key is disabled; otherwise it
    succeeds, the account's root has the key given or none, and besides the fee
    and the sequence number only the mark of the spent password changes, which is
    set when no fee was due.  The account can be signed for afterwards, and when
    the change was free of charge the next one is not. *)
Theorem regular_key_set c sig (base : Base) mem id n sq f o :
  good base -> isOpen (OpenView.info_ base) = false -> txID c <> 0 -> OpenView.txs_ base !! txID c = None ->
  charges c id sq f -> sender (contents base) id n sq o -> f <= n -> 0 < n <= supply base ->
  conforms (SetRegularKey ++ tx_common_fields) (tx_o c) -> conforms AccountFormat o -> isFieldPresent sfFlags o = true ->
  controllable o -> key_preCheck c (initial sig tt) = Ok (tesSUCCESS, mem) -> account_ mem = id ->
  in_turn c o (seq (OpenView.info_ base)) -> authorised c mem id o -> has (flags c) tapRETRY = false ->
  all_fit (txID c) (contents base) ->
  let o' := if keeps_key c o then charged o (n - f) sq else rekeyed c (cost_nothing c mem o) (charged o (n - f) sq) in
  exists base', run key_processor c sig base =
      Ok (if keeps_key c o then tecMASTER_DISABLED else tesSUCCESS, true, no_effects, base') /\
    applied c base base' (<[getAccountRootIndex id := account_entry id o']> (contents base)) (supply base - f) /\
    controllable o' /\ (keeps_key c o = false -> free_change c mem o = true -> free_change c mem o' = false).
Proof.
  intros Hg Hcl Htid Htx Hch Hs Hle Hn Htyped Ho Hfl Hctl Hpre Hid Hturn Hauth Hretry Hfit o'.
  pose proof (t_drops _ _ _ _ Hch) as [Hf0 _].
  destruct (key_applies c sig base mem id n sq f o) as ([t e] & s1 & Happ & HQ); [done..|].
  assert (Hsz : Z.of_nat (touched s1) <= 5200).
  { apply (grows_apply_fee tt _ _ _ c (initial sig tt) 1 1) in Happ; [change (touched (fresh_state base)) with 0%nat in Happ; lia|apply grows_lift|apply grows_key|apply grows_key]. }
  unfold o'. destruct (keeps_key c o) eqn:Hk.
  - injection HQ as -> ->.
    destruct (claim_spec key_processor c sig base tecMASTER_DISABLED no_effects s1 id n sq f o) as (base' & md & Hrun & Hg' & Hsh & Hsup & Htot & Htxs & Hinfo); try done.
    rewrite (Z.min_l f n) in * by done. exists base'. split.
    { rewrite Hrun. unfold reported. pose proof (size_touched s1). by rewrite (proj2 (Z.ltb_ge _ _)) by lia. }
    split; [split; [done|done|done|by eapply shows_total|by exists md|done]|]. split; [by apply charged_controllable|done].
  - destruct HQ as [[= -> ->] [p Hsh]]. pose proof (good_supply _ Hg) as Hs0. pose proof (rep_supply s1 _ base 0 Hsh ltac:(lia)) as Hs1.
    destruct (run_success key_processor c sig base no_effects s1 f _ _ Hg Hcl Htid Htx (t_fee _ _ _ _ Hch) Happ Hsh) as (base' & Hrun & Ha).
    + by intros i [].
    + done.
    + eapply no_erasures; [exact Hsh|by intros i []|]. cbn [am]. intros i. apply (same_keys_insert _ _ _ _ (s_entry _ _ _ _ _ Hs)).
    + cbn [am]. apply fits_same_keys; [done| |apply (same_keys_insert _ _ _ _ (s_entry _ _ _ _ _ Hs))]. by eapply rekeyed_fit.
    + lia.
    + rewrite Hs1, Z.add_0_r in Ha. exists base'. split; [exact Hrun|]. split; [exact Ha|]. split.
      * apply rekeyed_controllable. unfold keeps_key, isFlag, getFlags, charged, with_seq, with_drops in *. by rewrite !lookup_insert_ne.
      * intros _ Hfree. rewrite (free_costs_nothing c mem o Hfree). apply rekeyed_spent.
        -- apply charged_typed; [done|]. apply (bool_decide_unpack _). vm_compute. exact I.
        -- unfold isFieldPresent, charged, with_seq, with_drops in *. by rewrite !lookup_insert_ne.
Qed.

End key.

(** ** Examples *)

Module Examples.
Import Transfers.Examples Threading.Examples TransactorRun.Examples LineLife.Examples SignerListRun.Examples AccountRun.Examples.

(** An account gives itself the regular key 9. *)
Definition key_ctx : Ctx :=
  mkCtx (mkTx ttREGULAR_KEY_SET (<[sfRegularKey := Some (ACC 9)]> (<[sfAccount := Some (ACC 7)]>
    (<[sfSequence := Some (U32 0)]> (<[sfFee := Some (AMT (xrp 0))]> (<[sfSigningPubKey := Some (VL [7])]>
    (set_template (SetRegularKey ++ tx_common_fields))))))))
    5 [1; 2] None 0 (mkFees 10 10 20 5) 10 LoadFeeTrack.make false (fun _ => true) (fun _ _ => false)
    (fun key => default 0 (head key)) (fun _ => []).

Lemma key_ctx_typed : conforms (SetRegularKey ++ tx_common_fields) (tx_o key_ctx).
Proof.
  unfold key_ctx, tx_o. cbn [tx tx_fields].
  repeat (apply conforms_insert; [|apply (bool_decide_unpack _); vm_compute; exact I|vm_compute; reflexivity]). apply set_template_conforms.
Qed.

Lemma regular_key_set_witness : exists base', run key_processor key_ctx sig_indeterminate closing105 = Ok (tesSUCCESS, true, no_effects, base') /\
  supply base' = 105.
Proof.
  destruct (regular_key_set key_ctx sig_indeterminate closing105 signed7 7 100 0 0 (account_of 7 100)
    closing105_good eq_refl ltac:(discriminate) eq_refl ltac:(split; [reflexivity..|split; discriminate]) sender7 ltac:(discriminate)
    (proj1 supply105) key_ctx_typed (account_of_typed 7 100) eq_refl ltac:(intros [=]) eq_refl eq_refl
    ltac:(split_and!; [reflexivity|reflexivity|left; reflexivity]) ltac:(split; reflexivity) eq_refl fit105)
    as (base' & Hrun & Ha & _).
  exists base'. split; [exact Hrun|]. rewrite (a_supply _ _ _ _ _ Ha), (proj2 supply105). reflexivity.
Defined.

End Examples.
End KeyRun.
