(* ===== verification/TrustTx.v ===== *)
(** * Setting trust lines

    The transactor that sets the limit, the qualities and the flags of one side of
    a trust line ([SetTrust] of app/tx/impl/SetTrust.h and SetTrust.cpp).  It
    creates the line, changes it, or deletes it when both sides are back to their
    defaults; each side that is not in its default state counts towards the
    reserve of its account. *)

From stdpp Require Import base tactics numbers list strings gmap sorting option.
From S2P Require Import Prelude Decimal IOUAmount BigNum Serializer STAmount.
From S2P Require Import View StateTable ApplyStateTable Fields Indexes PaymentSandbox ViewOps.
From S2P Require Import Directory TrustLines Transfers Change LoadFeeTrack MultiSign TxMeta Threading.
From S2P Require Import Footprint Transactor TransactorRun TransactorSteps TxFlags PaymentTx.

Module TrustTx.
Import Fields Indexes ViewOps Directory TrustLines Transfers Change Transactor TransactorRun TxFlags.

Definition ttTRUST_SET : Z := 20.

(** The format "TrustSet". *)
Definition TrustSet : list (SField * SOE_Flags) :=
  [(sfLimitAmount, SOE_OPTIONAL); (sfQualityIn, SOE_OPTIONAL); (sfQualityOut, SOE_OPTIONAL)].

Definition preCheck (c : Ctx) (m : Members unit) : result (TER * Members unit) :=
  if has (getFlags (tx_o c)) tfTrustSetMask then Ok (temINVALID_FLAG, m)
  else
    saLimitAmount ← getFieldAmount sfLimitAmount (tx_o c);
    if negb (STAmount.isLegalNet saLimitAmount) then Ok (temBAD_AMOUNT, m)
    else if STAmount.mIsNative saLimitAmount then Ok (temBAD_LIMIT, m)
    else if PaymentTx.badCurrency =? STAmount.currency (STAmount.mIssue saLimitAmount) then Ok (temBAD_CURRENCY, m)
    else if STAmount.signum saLimitAmount <? 0 then Ok (temBAD_LIMIT, m)
    else
      let issuer := STAmount.account (STAmount.mIssue saLimitAmount) in
      if (issuer =? 0) || (issuer =? noAccount) then Ok (temDST_NEEDED, m)
      else Transactor.preCheck c m.

(** A quality of one is no quality. *)
Definition unless_one (q : Z) : Z := if QUALITY_ONE =? q then 0 else q.

(** What the transaction asks for. *)
Record Wants := mkWants {
  bQualityIn : bool; bQualityOut : bool; uQualityIn : Z; uQualityOut : Z;
  bSetAuth : bool; bSetNoRipple : bool; bClearNoRipple : bool; bSetFreeze : bool; bClearFreeze : bool }.

Definition wants (c : Ctx) : result Wants :=
  let bQualityIn := isFieldPresent sfQualityIn (tx_o c) in
  let bQualityOut := isFieldPresent sfQualityOut (tx_o c) in
  uQualityIn ← (if bQualityIn then getFieldU32 sfQualityIn (tx_o c) else Ok 0);
  uQualityOut ← (if bQualityOut then getFieldU32 sfQualityOut (tx_o c) else Ok 0);
  let uQualityOut := if bQualityOut then unless_one uQualityOut else uQualityOut in
  let uTxFlags := getFlags (tx_o c) in
  Ok (mkWants bQualityIn bQualityOut uQualityIn uQualityOut (has uTxFlags tfSetfAuth) (has uTxFlags tfSetNoRipple)
        (has uTxFlags tfClearNoRipple) (has uTxFlags tfSetFreeze) (has uTxFlags tfClearFreeze)).

(** ** The flags of an existing line *)

(** The flags asked for; [balance] is that of the account's own side. *)
Definition line_wanted (w : Wants) (bHigh : bool) (balance : STAmount.t) (accountNoFreeze : bool) (uFlagsIn : Z) : Z :=
  let f := side bHigh lsfLowNoRipple lsfHighNoRipple in
  let uFlagsOut :=
    if bSetNoRipple w && negb (bClearNoRipple w) && (0 <=? STAmount.signum balance) then Z.lor uFlagsIn f
    else if bClearNoRipple w && negb (bSetNoRipple w) then without uFlagsIn f
    else uFlagsIn in
  let f := side bHigh lsfLowFreeze lsfHighFreeze in
  if bSetFreeze w && negb (bClearFreeze w) && negb accountNoFreeze then Z.lor uFlagsOut f
  else if bClearFreeze w && negb (bSetFreeze w) then without uFlagsOut f
  else uFlagsOut.

(** Whether a side counts towards the reserve of its account. *)
Definition reserve_set (high : bool) (qualityIn qualityOut : Z) (uFlagsOut : Z) (defRipple : bool)
    (limit balance : STAmount.t) : bool :=
  negb (qualityIn =? 0) || negb (qualityOut =? 0) ||
  negb (Bool.eqb (negb (has uFlagsOut (side high lsfLowNoRipple lsfHighNoRipple))) defRipple) ||
  has uFlagsOut (side high lsfLowFreeze lsfHighFreeze) ||
  negb (isZero limit) || positive balance.

Section trust.
Context `{Build} {SHA : SHA512Half} {B : Type} {RV : ReadView STObject B}.

Abbreviation Prog := (M (OpenView.t STObject B)).

(** The qualities of both sides once one is set, cleared or left alone; [low] and
    [high] are their fields. *)
Definition line_quality (sleRippleState : loc) (bHigh : bool) (low high : SField) (bQuality : bool) (uQuality : Z)
    : Prog (Z * Z) :=
  if negb bQuality then
    l ← get sleRippleState (getFieldU32 low);
    h ← get sleRippleState (getFieldU32 high);
    mret (l, h)
  else
    _ ← (if negb (uQuality =? 0) then set sleRippleState (setFieldU32 (side bHigh low high) uQuality)
         else set sleRippleState (makeFieldAbsent (side bHigh low high)));
    l ← (if negb bHigh then mret uQuality else get sleRippleState (getFieldU32 low));
    h ← (if bHigh then mret uQuality else get sleRippleState (getFieldU32 high));
    mret (l, h).

(** The reserve of one side: the flags, and whether it was newly reserved. *)
Definition line_reserve (sleAccount : loc) (reserveSet reserved : bool) (f uFlagsOut : Z) : Prog (Z * bool) :=
  r ← (if reserveSet && negb reserved
       then _ ← adjustOwnerCount sleAccount 1; mret (Z.lor uFlagsOut f, true)
       else mret (uFlagsOut, false));
  if negb reserveSet && reserved
  then _ ← adjustOwnerCount sleAccount (-1); mret (without r.1 f, r.2)
  else mret r.

(** A line that exists, once its limit and qualities are set: the flags, the
    reserves of both sides, and whether the line stays. *)
Definition line_finish (m : Members unit) (w : Wants) (reserveCreate : STAmount.t) (currency : Z) (bHigh : bool)
    (uLowAccountID uHighAccountID : Z) (sle sleLowAccount sleHighAccount sleRippleState : loc)
    (saLowBalance saLowLimit saHighLimit : STAmount.t) (qualityIn qualityOut : Z * Z) : Prog TER :=
  let saHighBalance := STAmount.neg saLowBalance in
  uFlagsIn ← get sleRippleState (getFieldU32 sfFlags);
  noFreeze ← (if bSetFreeze w && negb (bClearFreeze w) then get sle (fun o => Ok (isFlag lsfNoFreeze o)) else mret false);
  let uFlagsOut := line_wanted w bHigh (if bHigh then saHighBalance else saLowBalance) noFreeze uFlagsIn in
  lowFlags ← get sleLowAccount (fun o => Ok (getFlags o));
  highFlags ← get sleHighAccount (fun o => Ok (getFlags o));
  let bLowReserveSet := reserve_set false (unless_one qualityIn.1) (unless_one qualityOut.1) uFlagsOut
                          (has lowFlags lsfDefaultRipple) saLowLimit saLowBalance in
  let bHighReserveSet := reserve_set true (unless_one qualityIn.2) (unless_one qualityOut.2) uFlagsOut
                           (has highFlags lsfDefaultRipple) saHighLimit saHighBalance in
  let bDefault := negb bLowReserveSet && negb bHighReserveSet in
  let uFlagsOut := if bSetAuth w then Z.lor uFlagsOut (side bHigh lsfLowAuth lsfHighAuth) else uFlagsOut in
  low ← line_reserve sleLowAccount bLowReserveSet (has uFlagsIn lsfLowReserve) lsfLowReserve uFlagsOut;
  high ← line_reserve sleHighAccount bHighReserveSet (has uFlagsIn lsfHighReserve) lsfHighReserve low.1;
  let uFlagsOut := high.1 in
  let bReserveIncrease := if bHigh then high.2 else low.2 in
  _ ← (if negb (uFlagsIn =? uFlagsOut) then set sleRippleState (setFieldU32 sfFlags uFlagsOut) else mret tt);
  if bDefault || (PaymentTx.badCurrency =? currency) then trustDelete sleRippleState uLowAccountID uHighAccountID
  else
    short ← (if bReserveIncrease : bool then lift (STAmount.ltb (mPriorBalance m) reserveCreate) else mret false);
    if short : bool then mret tecINSUF_RESERVE_LINE
    else _ ← update sleRippleState; mret tesSUCCESS.

(** A line that exists. *)
Definition line_change (m : Members unit) (w : Wants) (reserveCreate saLimitAllow : STAmount.t) (currency uDstAccountID : Z)
    (sle sleDst sleRippleState : loc) : Prog TER :=
  let bHigh := uDstAccountID <? account_ m in
  let uLowAccountID := if negb bHigh then account_ m else uDstAccountID in
  let uHighAccountID := if bHigh then account_ m else uDstAccountID in
  let sleLowAccount := if negb bHigh then sle else sleDst in
  let sleHighAccount := if bHigh then sle else sleDst in
  saLowBalance ← get sleRippleState (getFieldAmount sfBalance);
  _ ← set sleRippleState (setFieldAmount (side bHigh sfLowLimit sfHighLimit) saLimitAllow);
  saLowLimit ← (if negb bHigh then mret saLimitAllow else get sleRippleState (getFieldAmount sfLowLimit));
  saHighLimit ← (if bHigh then mret saLimitAllow else get sleRippleState (getFieldAmount sfHighLimit));
  qualityIn ← line_quality sleRippleState bHigh sfLowQualityIn sfHighQualityIn (bQualityIn w) (uQualityIn w);
  qualityOut ← line_quality sleRippleState bHigh sfLowQualityOut sfHighQualityOut (bQualityOut w) (uQualityOut w);
  line_finish m w reserveCreate currency bHigh uLowAccountID uHighAccountID sle sleLowAccount sleHighAccount sleRippleState
    saLowBalance saLowLimit saHighLimit qualityIn qualityOut.

Definition doApply (c : Ctx) (m : Members unit) : Prog TER :=
  saLimitAmount ← lift (getFieldAmount sfLimitAmount (tx_o c));
  let currency := STAmount.currency (STAmount.mIssue saLimitAmount) in
  let uDstAccountID := STAmount.account (STAmount.mIssue saLimitAmount) in
  let bHigh := uDstAccountID <? account_ m in
  sle ← peek (Indexes.account (account_ m));
  sle ← need sle;
  uOwnerCount ← get sle (getFieldU32 sfOwnerCount);
  let reserveCreate := STAmount.of_u64 (if uOwnerCount <? 2 then 0 else accountReserve (fees c) (u32 (uOwnerCount + 1))) false in
  w ← lift (wants c);
  refused ← (if bSetAuth w then fl ← get sle (getFieldU32 sfFlags); mret (negb (has fl lsfRequireAuth)) else mret false);
  if refused : bool then mret tefNO_AUTH_REQUIRED
  else if account_ m =? uDstAccountID then
    sleDelete ← peek (line (account_ m) uDstAccountID currency);
    match sleDelete with
    | Some sleDelete => trustDelete sleDelete (account_ m) uDstAccountID
    | None => mret temDST_IS_SRC
    end
  else
    sleDst ← peek (Indexes.account uDstAccountID);
    match sleDst with
    | None => mret tecNO_DST
    | Some sleDst =>
        let saLimitAllow := STAmount.setIssuer saLimitAmount (account_ m) in
        sleRippleState ← peek (line (account_ m) uDstAccountID currency);
        match sleRippleState with
        | Some sleRippleState => line_change m w reserveCreate saLimitAllow currency uDstAccountID sle sleDst sleRippleState
        | None =>
            if isZero saLimitAmount && (negb (bQualityIn w) || (uQualityIn w =? 0)) &&
               (negb (bQualityOut w) || (uQualityOut w =? 0)) then mret tecNO_LINE_REDUNDANT
            else
              short ← lift (STAmount.ltb (mPriorBalance m) reserveCreate);
              if short : bool then mret tecNO_LINE_INSUF_RESERVE
              else
                saBalance ← lift (no_amount currency noAccount);
                trustCreate bHigh (account_ m) uDstAccountID (getRippleStateIndex (account_ m) uDstAccountID currency) sle
                  (bSetAuth w) (bSetNoRipple w && negb (bClearNoRipple w)) (bSetFreeze w && negb (bClearFreeze w))
                  saBalance saLimitAllow (uQualityIn w) (uQualityOut w)
        end
    end.

Definition processor : Processor (B := B) unit :=
  plain tt (fun c m => lift (preCheck c m)) (fun c m => t ← doApply c m; mret (t, no_effects)).

End trust.
End TrustTx.
