(* ===== verification/TrustRun.v ===== *)
(** * The reserve of a trust line

    What setting one side of a trust line that exists does to it and to the owner
    counts of the two accounts ([SetTrust::doApply], app/tx/impl/SetTrust.cpp): a
    side is marked as reserved exactly when it is not in its default state, the
    owner counts follow the marks, and the line goes when both sides are in their
    default states. *)

From stdpp Require Import base tactics numbers list strings gmap sorting option.
From S2P Require Import Prelude Decimal IOUAmount BigNum Serializer STAmount.
From S2P Require Import View StateTable ApplyStateTable Fields Indexes PaymentSandbox ViewOps.
From S2P Require Import Directory TrustLines Transfers LineCredit LineLife Change LoadFeeTrack MultiSign TxMeta Threading.
From S2P Require Import Footprint Transactor TransactorRun TransactorSteps TxFlags PaymentTx SignerListTx SignerListRun AccountTx AccountRun TrustTx.

Module TrustRun.
Import Fields Indexes ViewOps Directory TrustLines Transfers LineCredit LineLife Change Transactor TransactorRun TxFlags AccountRun TrustTx.

Definition LineFormat : list (SField * SOE_Flags) := RippleState ++ common_fields.

(** ** The line as the code computes it *)

(** A quality of one side once it is set, cleared or left alone. *)
Definition quality_done (f : SField) (bQuality : bool) (uQuality : Z) (o : STObject) : STObject :=
  if bQuality then <[f := if uQuality =? 0 then None else Some (U32 uQuality)]> o else o.

(** The fields but for the flags. *)
Definition line_fields (w : Wants) (bHigh : bool) (allow : STAmount.t) (o : STObject) : STObject :=
  quality_done (side bHigh sfLowQualityOut sfHighQualityOut) (bQualityOut w) (uQualityOut w)
    (quality_done (side bHigh sfLowQualityIn sfHighQualityIn) (bQualityIn w) (uQualityIn w)
       (<[side bHigh sfLowLimit sfHighLimit := Some (AMT allow)]> o)).

(** Whether a side of a line is in use; [def] is the setting of its account for
    rippling. *)
Definition in_use (high def : bool) (flags : Z) (o : STObject) : bool :=
  reserve_set high (unless_one (u32_of (side high sfLowQualityIn sfHighQualityIn) o))
    (unless_one (u32_of (side high sfLowQualityOut sfHighQualityOut) o)) flags def
    (amt_of (side high sfLowLimit sfHighLimit) o)
    (if high then STAmount.neg (amt_of sfBalance o) else amt_of sfBalance o).

(** The mark of the reserve and the owner count follow the use. *)
Definition mark (used reserved : bool) (f flags : Z) : Z :=
  let flags := if used && negb reserved then Z.lor flags f else flags in
  if negb used && reserved then without flags f else flags.
Definition recount (used reserved : bool) (n : Z) : Z := n + Z.b2z used - Z.b2z reserved.

Definition line_flags_out (w : Wants) (bHigh noFreeze lowDef highDef : bool) (allow : STAmount.t) (o : STObject) : Z :=
  let o1 := line_fields w bHigh allow o in
  let balance := amt_of sfBalance o in
  let f0 := u32_of sfFlags o in
  let f1 := line_wanted w bHigh (if bHigh then STAmount.neg balance else balance) noFreeze f0 in
  let f2 := if bSetAuth w then Z.lor f1 (side bHigh lsfLowAuth lsfHighAuth) else f1 in
  mark (in_use true highDef f1 o1) (has f0 lsfHighReserve) lsfHighReserve
    (mark (in_use false lowDef f1 o1) (has f0 lsfLowReserve) lsfLowReserve f2).

(** The line with its new flags. *)
Definition line_after (w : Wants) (bHigh noFreeze lowDef highDef : bool) (allow : STAmount.t) (o : STObject) : STObject :=
  <[sfFlags := Some (U32 (line_flags_out w bHigh noFreeze lowDef highDef allow o))]> (line_fields w bHigh allow o).

(** ** The marks *)

Lemma mark_bit used reserved k flags j : 0 <= j < 32 -> 0 <= k < 32 ->
  Z.testbit (mark used reserved (2 ^ k) flags) j =
  if (j =? k) && negb (Bool.eqb used reserved) then used else Z.testbit flags j.
Proof.
  intros Hj Hk. unfold mark. destruct (Z.eqb_spec j k) as [->|Hne]; destruct used, reserved; cbn [andb negb Bool.eqb];
    rewrite ?without_bit, ?lor_bit, ?Z.eqb_refl by lia; rewrite ?(proj2 (Z.eqb_neq j k) Hne); cbn;
    by rewrite ?orb_true_r, ?orb_false_r, ?andb_false_r, ?andb_true_r.
Qed.

Lemma wanted_bit w bHigh bal nf flags j : 0 <= j < 20 -> Z.testbit (line_wanted w bHigh bal nf flags) j = Z.testbit flags j.
Proof.
  intros Hj. unfold line_wanted.
  assert (H1 : forall g, g = lsfLowNoRipple \/ g = lsfHighNoRipple \/ g = lsfLowFreeze \/ g = lsfHighFreeze -> exists k, g = 2 ^ k /\ 20 <= k < 32).
  { intros g [->|[->|[->| ->]]]; [exists 20|exists 21|exists 22|exists 23]; split; (reflexivity || lia). }
  destruct (H1 (side bHigh lsfLowNoRipple lsfHighNoRipple)) as (k & -> & Hk); [destruct bHigh; cbn; auto|].
  destruct (H1 (side bHigh lsfLowFreeze lsfHighFreeze)) as (k' & -> & Hk'); [destruct bHigh; cbn; auto|].
  repeat case_match; rewrite ?without_bit, ?lor_bit by lia; rewrite ?(proj2 (Z.eqb_neq j k)), ?(proj2 (Z.eqb_neq j k')) by lia; cbn;
    rewrite ?without_bit, ?lor_bit by lia; rewrite ?(proj2 (Z.eqb_neq j k)), ?(proj2 (Z.eqb_neq j k')) by lia; cbn;
    by rewrite ?orb_false_r, ?andb_true_r.
Qed.

Lemma mark_bit_other used reserved k flags j : 0 <= j < 32 -> 0 <= k < 32 -> j <> k ->
  Z.testbit (mark used reserved (2 ^ k) flags) j = Z.testbit flags j.
Proof. intros Hj Hk Hne. rewrite mark_bit by lia. by rewrite (proj2 (Z.eqb_neq j k) Hne). Qed.

Section flags.
Variables (w : Wants) (bHigh noFreeze lowDef highDef : bool) (allow : STAmount.t) (o : STObject).

Let o1 := line_fields w bHigh allow o.
Let f0 := u32_of sfFlags o.
Let f1 := line_wanted w bHigh (if bHigh then STAmount.neg (amt_of sfBalance o) else amt_of sfBalance o) noFreeze f0.
Let F := line_flags_out w bHigh noFreeze lowDef highDef allow o.

Lemma auth_bit j : 0 <= j < 32 -> j <> 18 -> j <> 19 ->
  Z.testbit (if bSetAuth w then Z.lor f1 (side bHigh lsfLowAuth lsfHighAuth) else f1) j = Z.testbit f1 j.
Proof.
  intros Hj H1 H2. destruct (bSetAuth w); [|done].
  destruct bHigh; cbn [side]; [change lsfHighAuth with (2 ^ 19)|change lsfLowAuth with (2 ^ 18)]; rewrite lor_bit by lia;
    rewrite (proj2 (Z.eqb_neq j _)) by done; apply orb_false_r.
Qed.

(** The sides are marked as they are used, ... *)
Lemma marked : has F lsfLowReserve = in_use false lowDef f1 o1 /\ has F lsfHighReserve = in_use true highDef f1 o1.
Proof.
  change lsfLowReserve with (2 ^ 16). change lsfHighReserve with (2 ^ 17). rewrite !has_bit by done.
  unfold F, line_flags_out. fold o1 f0 f1. change lsfLowReserve with (2 ^ 16). change lsfHighReserve with (2 ^ 17).
  rewrite !has_bit by done. split.
  - rewrite mark_bit_other by done. rewrite mark_bit by done. cbn [Z.eqb Pos.eqb andb]. rewrite auth_bit by done.
    unfold f1. rewrite wanted_bit by done. fold f1. by destruct (in_use false lowDef f1 o1), (Z.testbit f0 16).
  - rewrite mark_bit by done. cbn [Z.eqb Pos.eqb andb]. rewrite mark_bit_other by done. rewrite auth_bit by done.
    unfold f1. rewrite wanted_bit by done. fold f1. by destruct (in_use true highDef f1 o1), (Z.testbit f0 17).
Qed.

(** ... and the use does not depend on the marks. *)
Lemma use_stays high def : in_use high def F (line_after w bHigh noFreeze lowDef highDef allow o) = in_use high def f1 o1.
Proof.
  assert (Hbit : forall j, 20 <= j < 32 -> Z.testbit F j = Z.testbit f1 j).
  { intros j Hj. unfold F, line_flags_out. fold o1 f0 f1. change lsfLowReserve with (2 ^ 16). change lsfHighReserve with (2 ^ 17).
    rewrite !mark_bit_other by lia. apply auth_bit; lia. }
  assert (Hsame : forall g, g <> sfFlags -> line_after w bHigh noFreeze lowDef highDef allow o !! g = o1 !! g).
  { intros g Hg. unfold line_after. by rewrite lookup_insert_ne. }
  unfold in_use, reserve_set, u32_of, amt_of. rewrite !Hsame by (by destruct high).
  destruct high; cbn [side]; [change lsfHighNoRipple with (2 ^ 21); change lsfHighFreeze with (2 ^ 23)
                             |change lsfLowNoRipple with (2 ^ 20); change lsfLowFreeze with (2 ^ 22)];
    rewrite !has_bit, !Hbit by (lia || done); done.
Qed.

End flags.

Section line.
Context `{Build} {SHA : SHA512Half} {SL : SHA512HalfLaws SHA} {B : Type} {RV : ReadView STObject B}.
Context {VM : ViewModel STObject B} {RL : ReadViewLaws STObject B}.

Abbreviation Base := (OpenView.t STObject B).

(** A line can be deleted from a ledger that has the same directories. *)
Lemma deletable_frame m m' low high x o o' pgl pgh : deletable m low high x o pgl pgh ->
  m' !! x = Some (mkSLE x ltRIPPLE_STATE o') -> conforms LineFormat o' ->
  hint_of sfLowNode o' = hint_of sfLowNode o /\ hint_of sfHighNode o' = hint_of sfHighNode o ->
  (forall i, i <> x -> (forall a, i <> getAccountRootIndex a) -> m' !! i = m !! i) ->
  deletable m' low high x o' pgl pgh.
Proof.
  intros [H1 H2 H3 [H4 H5] [H6 H7]] Hx Ho [Hl Hh] Hm.
  assert (Hpage : forall r n, outside (getOwnerDirIndex r) x -> 0 <= n < 2 ^ 64 ->
    m' !! getDirNodeIndex (getOwnerDirIndex r) n = m !! getDirNodeIndex (getOwnerDirIndex r) n).
  { intros r n Hox Hn. apply Hm; [by apply not_eq_sym, Hox|]. intros a. by apply not_eq_sym, account_outside. }
  split; [done|done|done| |by rewrite Hl, Hh].
  split; (eapply dir_outside; [eassumption|]); intros n Hn; apply Hpage; (apply H2 || done).
Qed.

Section held.
Variables (b : Base) (d : Z * Z) (m : gmap Z Entry) (x low high : Z) (pl pa pb : loc).
Hypotheses (Hxa : x <> getAccountRootIndex low) (Hxb : x <> getAccountRootIndex high)
  (Hab : getAccountRootIndex low <> getAccountRootIndex high).

(** The line and the two accounts are held; nothing else has changed. *)
Record held (s : St Base) (o lo ho : STObject) : Prop := mkHeld {
  h_know : exists m' ptrs D, rep b d s (mkKnow m' ptrs ∅ D) /\
    (m' !! x = Some (mkSLE x ltRIPPLE_STATE o) /\ m' !! getAccountRootIndex low = Some (account_entry low lo) /\
     m' !! getAccountRootIndex high = Some (account_entry high ho) /\
     forall i, i <> x -> i <> getAccountRootIndex low -> i <> getAccountRootIndex high -> m' !! i = m !! i) /\
    (ptrs !! x = Some (pl, false) /\ (exists f, ptrs !! getAccountRootIndex low = Some (pa, f)) /\
     (exists f, ptrs !! getAccountRootIndex high = Some (pb, f)) /\
     forall i, i <> x -> i <> getAccountRootIndex low -> i <> getAccountRootIndex high -> ptrs !! i = None) /\
    forall i, D i -> i = x }.

Lemma held_get {A} s o lo ho (g : STObject -> result A) a (Q : A -> St Base -> Prop) : held s o lo ho -> g o = Ok a -> Q a s -> wpm (get pl g) s Q.
Proof. intros [(m' & ptrs & D & Hr & (Hx & _) & (Hp & _) & _)] Hg HQ. by eapply (get_rule _ _ _ _ x); [exact Hr|exact Hp|exact Hx|exact Hg|]. Qed.

Lemma held_low {A} s o lo ho (g : STObject -> result A) a (Q : A -> St Base -> Prop) : held s o lo ho -> g lo = Ok a -> Q a s -> wpm (get pa g) s Q.
Proof.
  intros [(m' & ptrs & D & Hr & (_ & Hx & _) & (_ & [f Hp] & _) & _)] Hg HQ.
  by eapply (get_rule _ _ _ _ (getAccountRootIndex low)); [exact Hr|exact Hp|exact Hx|exact Hg|].
Qed.

Lemma held_high {A} s o lo ho (g : STObject -> result A) a (Q : A -> St Base -> Prop) : held s o lo ho -> g ho = Ok a -> Q a s -> wpm (get pb g) s Q.
Proof.
  intros [(m' & ptrs & D & Hr & (_ & _ & Hx & _) & (_ & _ & [f Hp] & _) & _)] Hg HQ.
  by eapply (get_rule _ _ _ _ (getAccountRootIndex high)); [exact Hr|exact Hp|exact Hx|exact Hg|].
Qed.

Lemma held_set s o lo ho (g : STObject -> result STObject) o' (Q : unit -> St Base -> Prop) : held s o lo ho -> g o = Ok o' ->
  (forall s', tabs s' = tabs s -> held s' o' lo ho -> Q tt s') -> wpm (set pl g) s Q.
Proof.
  intros [(m' & ptrs & D & Hr & (Hx & Ha & Hb & Hm) & (Hp & Hpa & Hpb & Hpm) & HD)] Hg HQ.
  eapply (set_rule _ _ _ _ x); [exact Hr|exact Hp|exact Hx|exact Hg|]. intros s' Ht Hr'. apply HQ; [done|]. cbn [am ap loose dirty] in Hr'.
  split. eexists _, _, _. split; [exact Hr'|]. split; [|split; [done|by intros i [?| ->]; auto]].
  split; [apply lookup_insert_eq|]. rewrite !lookup_insert_ne by done. split; [done|]. split; [done|].
  intros i Hi Hia Hib. rewrite lookup_insert_ne by (by apply not_eq_sym). by apply Hm.
Qed.

(** The owner count of one of the accounts. *)
Lemma held_adjust_low s o lo ho n amount (Q : unit -> St Base -> Prop) : held s o lo ho ->
  lo !! sfOwnerCount = Some (Some (U32 n)) -> 0 <= n < 2 ^ 32 -> amount = 1 \/ amount = -1 -> 0 <= n + amount ->
  (forall s', tabs s' = tabs s -> held s' o (with_owners lo (clamp32 (n + amount))) ho -> Q tt s') -> wpm (adjustOwnerCount pa amount) s Q.
Proof.
  intros [(m' & ptrs & D & Hr & (Hx & Ha & Hb & Hm) & (Hp & [f Hpa] & [g Hpb] & Hpm) & HD)] Hn Hn0 Ham Hpos HQ.
  eapply (adjustOwnerCount_rule _ _ _ _ (getAccountRootIndex low)); [exact Hr|exact Hpa|exact Ha|exact Hn|lia|lia|done|by right|].
  intros s' Ht Hr'. apply HQ; [done|]. cbn [am ap loose dirty] in Hr'. split. eexists _, _, _. split; [exact Hr'|].
  rewrite !lookup_insert_eq, !lookup_insert_ne by done. split; [|split; [|done]].
  - split; [done|]. split; [done|]. split; [done|]. intros i Hi Hia Hib. rewrite lookup_insert_ne by (by apply not_eq_sym). by apply Hm.
  - split; [done|]. split; [by eexists|]. split; [by eexists|]. intros i Hi Hia Hib. rewrite lookup_insert_ne by (by apply not_eq_sym). by apply Hpm.
Qed.

Lemma held_adjust_high s o lo ho n amount (Q : unit -> St Base -> Prop) : held s o lo ho ->
  ho !! sfOwnerCount = Some (Some (U32 n)) -> 0 <= n < 2 ^ 32 -> amount = 1 \/ amount = -1 -> 0 <= n + amount ->
  (forall s', tabs s' = tabs s -> held s' o lo (with_owners ho (clamp32 (n + amount))) -> Q tt s') -> wpm (adjustOwnerCount pb amount) s Q.
Proof.
  intros [(m' & ptrs & D & Hr & (Hx & Ha & Hb & Hm) & (Hp & [f Hpa] & [g Hpb] & Hpm) & HD)] Hn Hn0 Ham Hpos HQ.
  eapply (adjustOwnerCount_rule _ _ _ _ (getAccountRootIndex high)); [exact Hr|exact Hpb|exact Hb|exact Hn|lia|lia|done|by right|].
  intros s' Ht Hr'. apply HQ; [done|]. cbn [am ap loose dirty] in Hr'. split. eexists _, _, _. split; [exact Hr'|].
  rewrite !lookup_insert_eq, !lookup_insert_ne by (by apply not_eq_sym). split; [|split; [|done]].
  - split; [done|]. split; [done|]. split; [done|]. intros i Hi Hia Hib. rewrite lookup_insert_ne by (by apply not_eq_sym). by apply Hm.
  - split; [done|]. split; [by eexists|]. split; [by eexists|]. intros i Hi Hia Hib. rewrite lookup_insert_ne by (by apply not_eq_sym). by apply Hpm.
Qed.

Lemma line_place_of f o : conforms LineFormat o -> bool_decide (f ∈ LineFormat.*1) = true -> has_place f o.
Proof. intros Ho Hf. apply Ho. by apply bool_decide_eq_true in Hf. Qed.

Lemma quality_done_typed f bq q o : conforms LineFormat o -> bool_decide (f ∈ LineFormat.*1) = true -> fieldType f = 2 ->
  conforms LineFormat (quality_done f bq q o).
Proof.
  intros Ho Hf Ht. unfold quality_done. destruct bq; [|done]. apply bool_decide_eq_true in Hf. case_match; [|by apply conforms_insert].
  destruct Ho as [Hd Hp]. split.
  - intros g. rewrite <- Hd. destruct (decide (g = f)) as [->|]; [|by rewrite lookup_insert_ne]. rewrite lookup_insert_eq.
    pose proof (proj2 (Hd f) Hf) as [? ->]. split; by eexists.
  - intros g Hg. unfold has_place. destruct (decide (g = f)) as [->|]; [by rewrite lookup_insert_eq|]. rewrite lookup_insert_ne by done. by apply Hp.
Qed.

Lemma line_quality_rule s o lo ho bHigh lf hf bq q (Q : Z * Z -> St Base -> Prop) : held s o lo ho -> conforms LineFormat o ->
  bool_decide (lf ∈ LineFormat.*1) = true -> bool_decide (hf ∈ LineFormat.*1) = true -> fieldType lf = 2 -> fieldType hf = 2 -> lf <> hf ->
  let o' := quality_done (side bHigh lf hf) bq q o in
  (forall s', tabs s' = tabs s -> held s' o' lo ho -> Q (u32_of lf o', u32_of hf o') s') -> wpm (line_quality pl bHigh lf hf bq q) s Q.
Proof.
  intros Hs Ho Hl Hh Htl Hth Hne o' HQ. unfold line_quality.
  assert (Ho' : conforms LineFormat o') by (apply quality_done_typed; by destruct bHigh).
  destruct bq; cbn [negb].
  - apply wpm_bind. eapply (wpm_mono _ _ (fun _ s1 => tabs s1 = tabs s /\ held s1 o' lo ho)).
    { unfold o', quality_done. assert (Hpl : has_place (side bHigh lf hf) o) by (apply line_place_of; [done|by destruct bHigh]).
      destruct (Z.eqb_spec q 0); cbn [negb].
      - eapply (held_set _ _ _ _ _ (<[side bHigh lf hf := None]> o)); [exact Hs| |by intros s' Ht Hs'; split].
        unfold makeFieldAbsent. unfold has_place in Hpl. destruct (o !! side bHigh lf hf) as [[]|] eqn:Hk; [done|by rewrite insert_id|done].
      - eapply held_set; [exact Hs|apply setField_ok; [done|by destruct bHigh]|by intros s' Ht Hs'; split]. }
    intros [] s1 [Ht1 Hs1]. unfold o', quality_done in *.
    assert (Hown : u32_of (side bHigh lf hf) (<[side bHigh lf hf := if q =? 0 then None else Some (U32 q)]> o) = q).
    { unfold u32_of. rewrite lookup_insert_eq. by destruct (Z.eqb_spec q 0). }
    destruct bHigh; cbn [negb side] in *.
    + apply wpm_bind. eapply held_get; [exact Hs1|apply get_u32_of; [by apply line_place_of|done]|]. apply wpm_bind, wpm_ret, wpm_ret.
      specialize (HQ s1 Ht1 Hs1). by rewrite Hown in HQ.
    + apply wpm_bind, wpm_ret. apply wpm_bind. eapply held_get; [exact Hs1|apply get_u32_of; [by apply line_place_of|done]|]. apply wpm_ret.
      specialize (HQ s1 Ht1 Hs1). by rewrite Hown in HQ.
  - apply wpm_bind. eapply held_get; [exact Hs|apply get_u32_of; [by apply line_place_of|done]|].
    apply wpm_bind. eapply held_get; [exact Hs|apply get_u32_of; [by apply line_place_of|done]|]. apply wpm_ret. by apply HQ.
Qed.

Lemma recount_same o n : 0 <= n < 2 ^ 32 -> o !! sfOwnerCount = Some (Some (U32 n)) -> with_owners o n = o.
Proof. intros Hn Ho. unfold with_owners. by apply insert_id. Qed.

Lemma clamp_id n : 0 <= n < 2 ^ 32 -> clamp32 n = n.
Proof. unfold clamp32. lia. Qed.

(** The reserve of either side, by the rule for its owner count. *)
Lemma line_reserve_rule s p n used reserved f flags (P : Z -> St Base -> Prop) (Q : Z * bool -> St Base -> Prop) :
  0 <= n < 2 ^ 32 - 1 -> (reserved = true -> 0 < n) -> P n s ->
  (forall amount (Q' : unit -> St Base -> Prop), amount = 1 \/ amount = -1 -> 0 <= n + amount ->
     (forall s', tabs s' = tabs s -> P (n + amount) s' -> Q' tt s') -> wpm (adjustOwnerCount p amount) s Q') ->
  (forall s', tabs s' = tabs s -> P (recount used reserved n) s' -> Q (mark used reserved f flags, used && negb reserved) s') ->
  wpm (line_reserve p used reserved f flags) s Q.
Proof.
  intros Hn Hpos Hs Hadj HQ. unfold line_reserve, recount, mark in *.
  destruct used, reserved; cbn [andb negb Z.b2z] in *.
  - apply wpm_bind, wpm_ret, wpm_ret. cbn. apply HQ; [done|]. by replace (n + 1 - 1) with n by lia.
  - apply wpm_bind, wpm_bind. apply Hadj; [by left|lia|]. intros s' Ht Hs'. apply wpm_ret, wpm_ret. apply HQ; [done|]. by rewrite Z.sub_0_r.
  - apply wpm_bind, wpm_ret, wpm_bind. apply Hadj; [by right|specialize (Hpos eq_refl); lia|]. intros s' Ht Hs'. apply wpm_ret. apply HQ; [done|].
    by replace (n + 0 - 1) with (n + -1) by lia.
  - apply wpm_bind, wpm_ret, wpm_ret. apply HQ; [done|]. by replace (n + 0 - 0) with n by lia.
Qed.

Lemma line_fields_typed w bHigh allow o : conforms LineFormat o -> conforms LineFormat (line_fields w bHigh allow o).
Proof.
  intros Ho. unfold line_fields. do 2 (apply quality_done_typed; [|by destruct bHigh|by destruct bHigh]).
  apply conforms_insert; [done|by destruct bHigh; apply (bool_decide_unpack _)|by destruct bHigh].
Qed.

(** What the changes leave alone. *)
Lemma line_fields_same w bHigh allow o g : g ∉ [sfLowLimit; sfHighLimit; sfLowQualityIn; sfHighQualityIn; sfLowQualityOut; sfHighQualityOut] ->
  line_fields w bHigh allow o !! g = o !! g.
Proof.
  intros Hg. rewrite !not_elem_of_cons in Hg. destruct_and! Hg. unfold line_fields, quality_done.
  destruct bHigh; cbn [side]; repeat case_match; by rewrite ?lookup_insert_ne by (by apply not_eq_sym).
Qed.

Section change.
Variables (s : St Base) (mem : Members unit) (w : Wants) (prior reserveCreate allow : STAmount.t) (currency dst : Z).
Variables (o lo ho : STObject) (nl nh : Z) (bHigh : bool).
Hypotheses (Hs : held s o lo ho) (Ho : conforms LineFormat o) (Hfl : isFieldPresent sfFlags o = true).
Hypotheses (Hnl : lo !! sfOwnerCount = Some (Some (U32 nl))) (Hnh : ho !! sfOwnerCount = Some (Some (U32 nh))).
Hypotheses (Hrl : 0 <= nl < 2 ^ 32 - 1) (Hrh : 0 <= nh < 2 ^ 32 - 1).
Hypotheses (Hside : (dst <? account_ mem) = bHigh) (Hlow : low = if negb bHigh then account_ mem else dst)
  (Hhigh : high = if bHigh then account_ mem else dst).

Definition no_freeze_of : bool := if bSetFreeze w && negb (bClearFreeze w) then isFlag lsfNoFreeze (if bHigh then ho else lo) else false.
Definition low_def : bool := has (getFlags lo) lsfDefaultRipple.
Definition high_def : bool := has (getFlags ho) lsfDefaultRipple.
Definition new_line : STObject := line_after w bHigh no_freeze_of low_def high_def allow o.
Definition new_flags : Z := line_flags_out w bHigh no_freeze_of low_def high_def allow o.
Definition low_used : bool := in_use false low_def new_flags new_line.
Definition high_used : bool := in_use true high_def new_flags new_line.
Definition low_reserved : bool := has (u32_of sfFlags o) lsfLowReserve.
Definition high_reserved : bool := has (u32_of sfFlags o) lsfHighReserve.
Definition low_after : STObject := with_owners lo (recount low_used low_reserved nl).
Definition high_after : STObject := with_owners ho (recount high_used high_reserved nh).

Hypotheses (Hpl : low_reserved = true -> 0 < nl) (Hph : high_reserved = true -> 0 < nh).

(** The end of the change: the line goes, or stays if it can be afforded. *)
Definition settle : M Base TER :=
  if negb low_used && negb high_used || (PaymentTx.badCurrency =? currency) then trustDelete pl low high
  else
    short ← (if (if bHigh then high_used && negb high_reserved else low_used && negb low_reserved)
             then lift (STAmount.ltb (mPriorBalance mem) reserveCreate) else mret false);
    if short : bool then mret tecINSUF_RESERVE_LINE else _ ← update pl; mret tesSUCCESS.

Let o3 := line_fields w bHigh allow o.

Lemma line_finish_rule s3 (Q : TER -> St Base -> Prop) : held s3 o3 lo ho -> tabs s3 = tabs s ->
  (forall s', tabs s' = tabs s -> held s' new_line low_after high_after -> wpm settle s' Q) ->
  wpm (line_finish mem w reserveCreate currency bHigh low high (if bHigh then pb else pa) pa pb pl
         (amt_of sfBalance o3) (amt_of sfLowLimit o3) (amt_of sfHighLimit o3)
         (u32_of sfLowQualityIn o3, u32_of sfHighQualityIn o3) (u32_of sfLowQualityOut o3, u32_of sfHighQualityOut o3)) s3 Q.
Proof.
  intros Hs3 Ht3 HQ. unfold line_finish. assert (Ho3 : conforms LineFormat o3) by (by apply line_fields_typed).
  assert (Hsame : forall g, g ∉ [sfLowLimit; sfHighLimit; sfLowQualityIn; sfHighQualityIn; sfLowQualityOut; sfHighQualityOut] -> o3 !! g = o !! g)
    by (intros g; apply line_fields_same).
  assert (Hf0 : u32_of sfFlags o3 = u32_of sfFlags o) by (unfold u32_of; rewrite Hsame; [done|by apply (bool_decide_unpack _)]).
  assert (Hbal : amt_of sfBalance o3 = amt_of sfBalance o) by (unfold amt_of; rewrite Hsame; [done|by apply (bool_decide_unpack _)]).
  apply wpm_bind. eapply held_get; [exact Hs3|apply get_u32_of; [by apply line_place_of|done]|]. rewrite Hf0.
  apply wpm_bind. eapply (wpm_mono _ _ (fun r s' => r = no_freeze_of /\ s' = s3)).
  { unfold no_freeze_of. destruct (bSetFreeze w && negb (bClearFreeze w)); [|by apply wpm_ret]. destruct bHigh; [eapply held_high|eapply held_low]; done. }
  intros r s' [-> ->]. apply wpm_bind. eapply held_low; [exact Hs3|done|]. apply wpm_bind. eapply held_high; [exact Hs3|done|].
  fold low_def high_def. cbn [fst snd].
  set (f1 := line_wanted _ _ _ _ _). set (f2 := if bSetAuth w then _ else _).
  assert (Hf1 : f1 = line_wanted w bHigh (if bHigh then STAmount.neg (amt_of sfBalance o) else amt_of sfBalance o) no_freeze_of (u32_of sfFlags o))
    by (unfold f1; by rewrite Hbal).
  change (reserve_set false _ _ f1 low_def _ _) with (in_use false low_def f1 o3).
  change (reserve_set true _ _ f1 high_def _ _) with (in_use true high_def f1 o3).
  assert (Hul : in_use false low_def f1 o3 = low_used) by (unfold low_used, new_flags, new_line; rewrite use_stays, Hf1; done).
  assert (Huh : in_use true high_def f1 o3 = high_used) by (unfold high_used, new_flags, new_line; rewrite use_stays, Hf1; done).
  rewrite Hul, Huh. fold low_reserved high_reserved. apply wpm_bind.
  eapply (line_reserve_rule s3 pa nl _ _ _ _ (fun n s' => held s' o3 (with_owners lo n) ho)); [done|done|by rewrite recount_same by (done || lia)| |].
  { intros amount Q' Ham Hpos HQ'. eapply held_adjust_low; [exact Hs3|exact Hnl|lia|done|done|]. intros s' Ht Hs'. apply HQ'; [done|].
    by rewrite clamp_id in Hs' by lia. }
  intros s4 Ht4 Hs4. fold low_after in Hs4. cbn [fst snd]. apply wpm_bind.
  eapply (line_reserve_rule s4 pb nh _ _ _ _ (fun n s' => held s' o3 low_after (with_owners ho n))); [done|done|by rewrite recount_same by (done || lia)| |].
  { intros amount Q' Ham Hpos HQ'. eapply held_adjust_high; [exact Hs4|exact Hnh|lia|done|done|]. intros s' Ht Hs'. apply HQ'; [done|].
    by rewrite clamp_id in Hs' by lia. }
  intros s5 Ht5 Hs5. fold high_after in Hs5. cbn [fst snd].
  assert (HF : mark high_used high_reserved lsfHighReserve (mark low_used low_reserved lsfLowReserve f2) = new_flags).
  { rewrite <- Hul, <- Huh. unfold new_flags, line_flags_out. fold o3. rewrite <- Hf1. done. }
  rewrite HF. apply wpm_bind. eapply (wpm_mono _ _ (fun _ s' => tabs s' = tabs s5 /\ held s' new_line low_after high_after)).
  { destruct (Z.eqb_spec (u32_of sfFlags o) new_flags) as [Heq|Hne]; cbn [negb].
    - apply wpm_ret. split; [done|]. replace new_line with o3; [done|]. unfold new_line, line_after. fold o3. symmetry. apply insert_id.
      change (line_flags_out w bHigh no_freeze_of low_def high_def allow o) with new_flags. rewrite <- Heq, <- Hf0.
      assert (Hp3 : isFieldPresent sfFlags o3 = true) by (unfold isFieldPresent in *; rewrite Hsame; [done|by apply (bool_decide_unpack _)]).
      pose proof (line_place_of sfFlags o3 Ho3 eq_refl) as Hpl3. unfold has_place, isFieldPresent, u32_of in *.
      destruct (o3 !! sfFlags) as [[[]|]|]; done.
    - eapply held_set; [exact Hs5|apply setField_ok; [by apply line_place_of|done]|]. by intros s' Ht Hs'. }
  intros [] s6 [Ht6 Hs6]. apply (HQ s6); [congruence|done].
Qed.

Lemma line_change_rule (Q : TER -> St Base -> Prop) :
  (forall s', tabs s' = tabs s -> held s' new_line low_after high_after -> wpm settle s' Q) ->
  wpm (line_change mem w reserveCreate allow currency dst (if bHigh then pb else pa) (if bHigh then pa else pb) pl) s Q.
Proof.
  intros HQ. unfold line_change. rewrite Hside.
  replace (if negb bHigh then if bHigh then pb else pa else if bHigh then pa else pb) with pa by (by destruct bHigh).
  replace (if bHigh then if bHigh then pb else pa else if bHigh then pa else pb) with pb by (by destruct bHigh).
  rewrite <- Hlow, <- Hhigh.
  apply wpm_bind. eapply held_get; [exact Hs|apply get_amt_of; [by apply line_place_of|done]|].
  apply wpm_bind. eapply held_set; [exact Hs|apply setField_ok; [apply line_place_of; [done|by destruct bHigh]|by destruct bHigh]|].
  intros s1 Ht1 Hs1. set (o1 := <[_ := _]> o) in *.
  assert (Ho1 : conforms LineFormat o1) by (apply conforms_insert; [done|by destruct bHigh; apply (bool_decide_unpack _)|by destruct bHigh]).
  apply wpm_bind. eapply (wpm_mono _ _ (fun r s' => r = amt_of sfLowLimit o1 /\ s' = s1)).
  { destruct bHigh; cbn [negb]; [eapply held_get; [exact Hs1|apply get_amt_of; [by apply line_place_of|done]|done]|].
    apply wpm_ret. split; [|done]. unfold o1, amt_of. cbn [side]. by rewrite lookup_insert_eq. }
  intros r s' [-> ->]. apply wpm_bind. eapply (wpm_mono _ _ (fun r s' => r = amt_of sfHighLimit o1 /\ s' = s1)).
  { destruct bHigh; [|eapply held_get; [exact Hs1|apply get_amt_of; [by apply line_place_of|done]|done]].
    apply wpm_ret. split; [|done]. unfold o1, amt_of. cbn [side]. by rewrite lookup_insert_eq. }
  intros r s' [-> ->]. apply wpm_bind. eapply line_quality_rule; [exact Hs1|done|done|done|done|done|done|]. intros s2 Ht2 Hs2.
  set (o2 := quality_done _ _ _ o1) in *. assert (Ho2 : conforms LineFormat o2) by (apply quality_done_typed; by destruct bHigh).
  apply wpm_bind. eapply line_quality_rule; [exact Hs2|done|done|done|done|done|done|]. intros s3 Ht3 Hs3.
  change (quality_done _ _ _ o2) with o3 in *.
  assert (Heq : amt_of sfBalance o = amt_of sfBalance o3 /\ amt_of sfLowLimit o1 = amt_of sfLowLimit o3 /\
    amt_of sfHighLimit o1 = amt_of sfHighLimit o3 /\ u32_of sfLowQualityIn o2 = u32_of sfLowQualityIn o3 /\
    u32_of sfHighQualityIn o2 = u32_of sfHighQualityIn o3).
  { unfold o3, line_fields, o2, o1, quality_done, amt_of, u32_of.
    destruct bHigh, (bQualityIn w), (bQualityOut w); cbn [side]; by repeat first [rewrite lookup_insert_ne by done | rewrite lookup_insert_eq]. }
  destruct Heq as (-> & -> & -> & -> & ->). apply line_finish_rule; [exact Hs3|congruence|done].
Qed.

(** The ledger with the line and the accounts as they are now. *)
Definition after : gmap Z Entry :=
  <[x := mkSLE x ltRIPPLE_STATE new_line]> (<[getAccountRootIndex low := account_entry low low_after]>
    (<[getAccountRootIndex high := account_entry high high_after]> m)).

Lemma held_after s' : held s' new_line low_after high_after -> exists ptrs D, rep b d s' (mkKnow after ptrs ∅ D) /\
  (ptrs !! x = Some (pl, false) /\ forall i, i <> x -> i <> getAccountRootIndex low -> i <> getAccountRootIndex high -> ptrs !! i = None) /\
  forall i, D i -> i = x.
Proof.
  intros [(m' & ptrs & D & Hr & (Hx & Ha & Hb & Hm) & (Hp & _ & _ & Hpm) & HD)]. exists ptrs, D. split; [|done].
  assert (Heq : m' = after); [|by rewrite <- Heq].
  apply map_eq. intros i. unfold after. destruct (decide (i = x)) as [->|Hix]; [by rewrite lookup_insert_eq|]. rewrite lookup_insert_ne by done.
  destruct (decide (i = getAccountRootIndex low)) as [->|Hil]; [by rewrite lookup_insert_eq|]. rewrite lookup_insert_ne by done.
  destruct (decide (i = getAccountRootIndex high)) as [->|Hih]; [by rewrite lookup_insert_eq|]. rewrite lookup_insert_ne by done. by apply Hm.
Qed.

Lemma new_line_typed : conforms LineFormat new_line.
Proof. apply conforms_insert; [by apply line_fields_typed|by apply (bool_decide_unpack _)|done]. Qed.

Lemma new_line_hint f : f = sfLowNode \/ f = sfHighNode -> hint_of f new_line = hint_of f o.
Proof.
  intros Hf. unfold hint_of, isFieldPresent, u64_of, new_line, line_after.
  rewrite lookup_insert_ne by (by destruct Hf as [->| ->]). rewrite line_fields_same; [done|]. by destruct Hf as [->| ->]; apply (bool_decide_unpack _).
Qed.

Lemma after_outside i : i <> x -> (forall a, i <> getAccountRootIndex a) -> after !! i = m !! i.
Proof. intros Hi Ha. unfold after. by rewrite !lookup_insert_ne by (by apply not_eq_sym). Qed.

(** The line and its directories before it goes. *)
Lemma after_deletable pgl pgh : deletable m low high x o pgl pgh -> deletable after low high x new_line pgl pgh.
Proof.
  intros Hdel. eapply deletable_frame; [exact Hdel|apply lookup_insert_eq|apply new_line_typed|by rewrite !new_line_hint by auto|].
  intros i Hi Ha. by apply after_outside.
Qed.

Variables (pgl pgh : list (Z * list Z)) (bal R : Z).
Hypotheses (Hdel : deletable m low high x o pgl pgh) (Hcur : currency <> PaymentTx.badCurrency)
  (Hprior : mPriorBalance mem = xrp bal) (Hres : reserveCreate = xrp R) (Hbal : drops_ok bal) (HR : drops_ok R).

(** The account's own side is newly reserved and its balance does not allow it. *)
Definition unaffordable : bool :=
  (if bHigh then high_used && negb high_reserved else low_used && negb low_reserved) && (bal <? R).

Lemma settle_rule s' : held s' new_line low_after high_after -> wpm settle s' (fun r s2 =>
  if negb low_used && negb high_used then r = tesSUCCESS /\ tabs s2 = tabs s' /\
    exists m2 ptrs, rep b d s2 (mkKnow m2 ptrs ∅ ApplyStateTable.none) /\ unlisted after m2 (getOwnerDirIndex low) (getOwnerDirIndex high) x pgl pgh
  else if unaffordable then r = tecINSUF_RESERVE_LINE
  else r = tesSUCCESS /\ tabs s2 = tabs s' /\ exists ptrs, rep b d s2 (mkKnow after ptrs ∅ ApplyStateTable.none)).
Proof.
  intros Hh. destruct (held_after s' Hh) as (ptrs & D & Hr & [Hp Hpm] & HD). unfold settle, unaffordable.
  rewrite (proj2 (Z.eqb_neq _ _) (not_eq_sym Hcur)), orb_false_r. destruct (negb low_used && negb high_used).
  - destruct (after_deletable pgl pgh Hdel) as [H1 (H2 & H2' & _) [H3 H3'] [H4 H4'] [H5 H5']].
    assert (Hnp : forall r, outside (getOwnerDirIndex r) x -> no_pages (getOwnerDirIndex r) ptrs).
    { intros r Hox n Hn. apply Hpm; [by apply not_eq_sym, Hox|by apply not_eq_sym, account_outside..]. }
    eapply trustDelete_rule; [exact Hr|done|by apply Hnp|by apply Hnp|done|done|exact Hp|exact H3|exact H3'|exact H4|exact H4'|exact H5|exact H5'|].
    intros m2 s2 Ht2 Hr2 Hun. split; [done|]. split; [done|]. exists m2, (delete x ptrs). split; [|done].
    eapply rep_weaken; [exact Hr2|done..|]. cbn [dirty]. intros i [Hi Hne]. by apply HD in Hi.
  - set (inc := if bHigh then _ else _). apply wpm_bind.
    eapply (wpm_mono _ _ (fun r s2 => r = inc && (bal <? R) /\ s2 = s')).
    { destruct inc; [|by apply wpm_ret]. rewrite Hprior, Hres. eapply wpm_lift; [by apply xrp_ltb|]. done. }
    intros r s2 [-> ->]. destruct (inc && (bal <? R)); [by apply wpm_ret|]. apply wpm_bind.
    eapply (update_rule _ _ _ _ x); [exact Hr|exact Hp|]. intros s3 Ht3 Hr3. cbn [am ap loose dirty] in Hr3. apply wpm_ret.
    split; [done|]. split; [done|]. exists (<[x := (pl, true)]> ptrs). eapply rep_weaken; [exact Hr3|done..|]. cbn [dirty]. intros i [? ?]. exfalso. by auto.
Qed.

End change.
End held.

(** A line with its two accounts, seen from [id], and a transaction of [id] about
    it.  [low] and [high] are [id] and [dst] in order. *)
Record line_case (m : gmap Z Entry) (c : Ctx) (mem : Members unit) (id dst : Z) (lim : STAmount.t) (w : Wants)
    (low high : Z) (o lo ho : STObject) (nl nh : Z) : Prop := {
  q_ids : STAmount.id160 id /\ STAmount.id160 dst /\ id <> dst;
  q_order : low = (if dst <? id then dst else id) /\ high = (if dst <? id then id else dst);
  q_limit : getFieldAmount sfLimitAmount (tx_o c) = Ok lim /\ STAmount.account (STAmount.mIssue lim) = dst;
  q_wants : wants c = Ok w;
  q_auth : bSetAuth w = true -> has (u32_of sfFlags (if dst <? id then ho else lo)) lsfRequireAuth = true;
  q_account : account_ mem = id;
  q_low : m !! getAccountRootIndex low = Some (account_entry low lo) /\ lo !! sfOwnerCount = Some (Some (U32 nl));
  q_high : m !! getAccountRootIndex high = Some (account_entry high ho) /\ ho !! sfOwnerCount = Some (Some (U32 nh));
  q_flags : has_place sfFlags lo /\ has_place sfFlags ho /\ isFieldPresent sfFlags o = true;
  q_counts : 0 <= nl < 2 ^ 32 - 1 /\ 0 <= nh < 2 ^ 32 - 1;
  q_reserved : (low_reserved o = true -> 0 < nl) /\ (high_reserved o = true -> 0 < nh);
  q_currency : STAmount.currency (STAmount.mIssue lim) <> PaymentTx.badCurrency }.

(** The reserve for the account's next entry; the first two cost none. *)
Definition line_reserve_of (c : Ctx) (n : Z) : Z := if n <? 2 then 0 else accountReserve (fees c) (n + 1).

(** Once the line and the accounts are found. *)
Lemma line_begin b d m x low high pl p q (s : St Base) id dst mem w reserveCreate currency allow o lo ho nl nh pgl pgh bal R :
  let bHigh := dst <? id in
  rep b d s (mkKnow m (<[x := (pl, false)]> (<[getAccountRootIndex dst := (q, false)]> (<[getAccountRootIndex id := (p, false)]> ∅))) ∅ ApplyStateTable.none) ->
  getAccountRootIndex id <> getAccountRootIndex dst -> getAccountRootIndex id <> x -> getAccountRootIndex dst <> x ->
  low = (if bHigh then dst else id) -> high = (if bHigh then id else dst) -> account_ mem = id ->
  m !! getAccountRootIndex low = Some (account_entry low lo) -> lo !! sfOwnerCount = Some (Some (U32 nl)) ->
  m !! getAccountRootIndex high = Some (account_entry high ho) -> ho !! sfOwnerCount = Some (Some (U32 nh)) ->
  isFieldPresent sfFlags o = true -> 0 <= nl < 2 ^ 32 - 1 -> 0 <= nh < 2 ^ 32 - 1 ->
  (low_reserved o = true -> 0 < nl) -> (high_reserved o = true -> 0 < nh) -> currency <> PaymentTx.badCurrency ->
  deletable m low high x o pgl pgh -> mPriorBalance mem = xrp bal -> reserveCreate = xrp R -> drops_ok bal -> drops_ok R ->
  let m' := after m x low high w allow o lo ho nl nh bHigh in
  wpm (line_change mem w reserveCreate allow currency dst p q pl) s (fun r s2 =>
    if negb (low_used w allow o lo ho bHigh) && negb (high_used w allow o lo ho bHigh) then r = tesSUCCESS /\ tabs s2 = tabs s /\
      exists m2 ptrs, rep b d s2 (mkKnow m2 ptrs ∅ ApplyStateTable.none) /\ unlisted m' m2 (getOwnerDirIndex low) (getOwnerDirIndex high) x pgl pgh
    else if unaffordable w allow o lo ho bHigh bal R then r = tecINSUF_RESERVE_LINE
    else r = tesSUCCESS /\ tabs s2 = tabs s /\ exists ptrs, rep b d s2 (mkKnow m' ptrs ∅ ApplyStateTable.none)).
Proof.
  intros bHigh Hr Hkey Hx1 Hx2 Hlow Hhigh Hid Hel Hnl Heh Hnh Hfo Hcl Hch Hpl Hph Hcur Hdel Hbal HR0 Hb HR m'.
  set (pa := if bHigh then q else p). set (pb := if bHigh then p else q).
  assert (Hp : p = if bHigh then pb else pa) by (unfold pa, pb; by destruct bHigh).
  assert (Hq : q = if bHigh then pa else pb) by (unfold pa, pb; by destruct bHigh).
  assert (Hxa : x <> getAccountRootIndex low) by (subst low; destruct bHigh; by apply not_eq_sym).
  assert (Hxb : x <> getAccountRootIndex high) by (subst high; destruct bHigh; by apply not_eq_sym).
  assert (Hab : getAccountRootIndex low <> getAccountRootIndex high) by (subst low high; destruct bHigh; [by apply not_eq_sym|done]).
  assert (Hh : held b d m x low high pl pa pb s o lo ho).
  { split. eexists _, _, _. split; [exact Hr|]. split; [split; [apply Hdel|done]|]. split; [|by intros i []].
    split; [apply lookup_insert_eq|]. rewrite !(lookup_insert_ne _ x) by done. unfold pa, pb. subst low high.
    split; [|split].
    - exists false. destruct bHigh; [apply lookup_insert_eq|]. rewrite lookup_insert_ne by (by apply not_eq_sym). apply lookup_insert_eq.
    - exists false. destruct bHigh; [|apply lookup_insert_eq]. rewrite lookup_insert_ne by (by apply not_eq_sym). apply lookup_insert_eq.
    - intros i Hi1 Hi2 Hi3. rewrite !lookup_insert_ne; [apply lookup_empty|..]; destruct bHigh; by apply not_eq_sym. }
  pose proof (line_change_rule b d m x low high pl pa pb Hxa Hxb Hab s mem w reserveCreate allow currency dst o lo ho nl nh bHigh Hh) as Hrule.
  rewrite <- Hp, <- Hq in Hrule. apply Hrule; [apply Hdel|done|done|done|done|done|by rewrite Hid|rewrite Hid; subst low; by destruct bHigh|by rewrite Hid|done|done|].
  intros s' Ht Hs'. eapply wpm_mono; [eapply (settle_rule b d m x low high pl pa pb); try done; apply Hdel|].
  intros r s2 HQ. cbn beta in HQ. by rewrite Ht in HQ.
Qed.

Lemma doApply_line_rule c mem (s : St Base) id dst lim w low high o lo ho nl nh pgl pgh bal b d m :
  rep b d s (mkKnow m ∅ ∅ ApplyStateTable.none) ->
  let x := getRippleStateIndex id dst (STAmount.currency (STAmount.mIssue lim)) in
  let bHigh := dst <? id in
  let allow := STAmount.setIssuer lim id in
  let R := line_reserve_of c (if bHigh then nh else nl) in
  let m' := after m x low high w allow o lo ho nl nh bHigh in
  line_case m c mem id dst lim w low high o lo ho nl nh -> deletable m low high x o pgl pgh ->
  mPriorBalance mem = xrp bal -> drops_ok bal -> drops_ok R ->
  wpm (doApply c mem) s (fun r s2 =>
    if negb (low_used w allow o lo ho bHigh) && negb (high_used w allow o lo ho bHigh) then r = tesSUCCESS /\ tabs s2 = tabs s /\
      exists m2 ptrs, rep b d s2 (mkKnow m2 ptrs ∅ ApplyStateTable.none) /\ unlisted m' m2 (getOwnerDirIndex low) (getOwnerDirIndex high) x pgl pgh
    else if unaffordable w allow o lo ho bHigh bal R then r = tecINSUF_RESERVE_LINE
    else r = tesSUCCESS /\ tabs s2 = tabs s /\ exists ptrs, rep b d s2 (mkKnow m' ptrs ∅ ApplyStateTable.none)).
Proof.
  intros Hr x bHigh allow R m' [(Hi1 & Hi2 & Hne) [Hlow Hhigh] [Hlim Hdst] Hw Hauth Hid [Hel Hnl] [Heh Hnh] (Hfl & Hfh & Hfo) [Hcl Hch] [Hpl Hph] Hcur]
    Hdel Hbal Hb HR. unfold doApply. apply wpm_bind. eapply wpm_lift; [exact Hlim|]. rewrite Hid, Hdst. fold bHigh in Hlow, Hhigh, Hauth |- *.
  pose proof (account_key_ne id dst Hi1 Hi2 Hne) as Hkey. pose proof (account_not_line id id dst (STAmount.currency (STAmount.mIssue lim))) as Hx1.
  pose proof (account_not_line dst id dst (STAmount.currency (STAmount.mIssue lim))) as Hx2. fold x in Hx1, Hx2.
  set (own := if bHigh then ho else lo) in *. set (other := if bHigh then lo else ho).
  assert (Hown : m !! getAccountRootIndex id = Some (account_entry id own)) by (unfold own; subst low high; by destruct bHigh).
  assert (Hoth : m !! getAccountRootIndex dst = Some (account_entry dst other)) by (unfold other; subst low high; by destruct bHigh).
  apply wpm_bind. eapply peek_rule; [exact Hr|apply getAccountRootIndex_pos|exact Hown|apply account_check|done|].
  intros p s1 Ht1 Hr1. cbn [am ap loose dirty] in Hr1. apply wpm_bind, wpm_need.
  change (Keylet.key (Indexes.account id)) with (getAccountRootIndex id) in Hr1.
  apply wpm_bind. eapply (get_rule _ _ _ _ (getAccountRootIndex id)); [exact Hr1|apply lookup_insert_eq|exact Hown| |].
  { cbn [fields account_entry]. unfold getFieldU32, getField. instantiate (1 := if bHigh then nh else nl). unfold own. destruct bHigh; [by rewrite Hnh|by rewrite Hnl]. }
  assert (Hn : u32 ((if bHigh then nh else nl) + 1) = (if bHigh then nh else nl) + 1) by (apply u32_id; destruct bHigh; lia). rewrite Hn.
  replace (STAmount.of_u64 _ false) with (xrp R) by (unfold STAmount.of_u64; by rewrite andb_false_r).
  apply wpm_bind. eapply wpm_lift; [exact Hw|]. apply wpm_bind. eapply (wpm_mono _ _ (fun r s2 => r = false /\ s2 = s1)).
  { destruct (bSetAuth w) eqn:Hsa; [|by apply wpm_ret]. apply wpm_bind.
    eapply (get_rule _ _ _ _ (getAccountRootIndex id)); [exact Hr1|apply lookup_insert_eq|exact Hown| |].
    { cbn [fields account_entry]. apply get_u32_of; [|done]. unfold own. by destruct bHigh. }
    apply wpm_ret. by rewrite Hauth. }
  intros r s2 [-> ->]. rewrite (proj2 (Z.eqb_neq _ _) Hne).
  apply wpm_bind. eapply peek_rule; [exact Hr1|apply getAccountRootIndex_pos|exact Hoth|apply account_check|cbn [ap]; rewrite lookup_insert_ne by done; apply lookup_empty|].
  intros q s2 Ht2 Hr2. cbn [am ap loose dirty] in Hr2. change (Keylet.key (Indexes.account dst)) with (getAccountRootIndex dst) in Hr2.
  apply wpm_bind. eapply (peek_rule _ _ _ _ (line id dst _)); [exact Hr2|apply getRippleStateIndex_pos|apply Hdel| | |].
  { unfold Keylet.check, Keylet.assert. simpl. by rewrite andb_false_r. }
  { change (Keylet.key (line id dst _)) with x. cbn [ap]. rewrite !lookup_insert_ne by done. apply lookup_empty. }
  intros pl s3 Ht3 Hr3. cbn [am ap loose dirty] in Hr3. change (Keylet.key (line id dst _)) with x in Hr3.
  eapply wpm_mono; [eapply (line_begin b d m x low high pl p q s3 id dst mem); done|].
  intros r s4 HQ. cbn beta in HQ. by rewrite Ht3, Ht2, Ht1 in HQ.
Qed.

(** C20: the reserve of a trust line.  Setting one side of a line that exists ends
    with success, unless the account cannot afford to have its side reserved.  On
    success the line has the new limit and qualities on that side and the flags
    asked for; each side is marked as reserved exactly when it is not in its
    default state, and the owner counts of both accounts have changed with the
    marks; when no side is in use any more the line is gone from the ledger and
    from both directories, and otherwise nothing but the line and the two counts
    has changed. *)
Theorem trust_line_set c mem (s : St Base) id dst lim w low high o lo ho nl nh pgl pgh bal :
  let m := contents (av s) in
  let x := getRippleStateIndex id dst (STAmount.currency (STAmount.mIssue lim)) in
  let bHigh := dst <? id in
  let allow := STAmount.setIssuer lim id in
  let n := if bHigh then nh else nl in
  let R := line_reserve_of c n in
  let line' := new_line w allow o lo ho bHigh in
  let m' := after m x low high w allow o lo ho nl nh bHigh in
  let ul := low_used w allow o lo ho bHigh in
  let uh := high_used w allow o lo ho bHigh in
  good (av s) -> line_case m c mem id dst lim w low high o lo ho nl nh -> deletable m low high x o pgl pgh ->
  mPriorBalance mem = xrp bal -> drops_ok bal -> drops_ok R ->
  has (u32_of sfFlags line') lsfLowReserve = ul /\ has (u32_of sfFlags line') lsfHighReserve = uh /\
  exists r s', doApply c mem s = Ok (r, s') /\
    if negb ul && negb uh then r = tesSUCCESS /\ good (av s') /\ untouched s s' /\
      unlisted m' (contents (av s')) (getOwnerDirIndex low) (getOwnerDirIndex high) x pgl pgh
    else if unaffordable w allow o lo ho bHigh bal R then r = tecINSUF_RESERVE_LINE
    else r = tesSUCCESS /\ good (av s') /\ untouched s s' /\ contents (av s') = m'.
Proof.
  intros m x bHigh allow n R line' m' ul uh Hg Hc Hdel Hbal Hb HR.
  assert (Hmark : u32_of sfFlags line' = new_flags w allow o lo ho bHigh) by (unfold u32_of, line', new_line, line_after; by rewrite lookup_insert_eq).
  assert (Hm : has (new_flags w allow o lo ho bHigh) lsfLowReserve = ul /\ has (new_flags w allow o lo ho bHigh) lsfHighReserve = uh).
  { unfold ul, uh, low_used, high_used, new_line, new_flags. rewrite !use_stays. apply marked. }
  destruct Hm as [Hm1 Hm2]. rewrite Hmark. split; [exact Hm1|]. split; [exact Hm2|].
  pose proof (good_rep s Hg) as Hr. fold m in Hr.
  destruct (doApply_line_rule c mem s id dst lim w low high o lo ho nl nh pgl pgh bal (ApplyView.base_ (av s)) _ m Hr Hc Hdel Hbal Hb HR) as (r & s' & Hrun & HQ).
  exists r, s'. split; [exact Hrun|]. fold x bHigh allow n R ul uh m' in HQ.
  assert (Hdone : forall m2 ptrs, tabs s' = tabs s -> rep (ApplyView.base_ (av s)) (ApplyStateTable.dropsDestroyed_ (ApplyView.items_ (av s)),
     ApplyStateTable.dropsCreated_ (ApplyView.items_ (av s))) s' (mkKnow m2 ptrs ∅ ApplyStateTable.none) ->
    good (av s') /\ untouched s s' /\ contents (av s') = m2).
  { intros m2 ptrs Ht Hr2. destruct (rep_is_good _ _ _ _ Hr2 ltac:(by intros i [])) as [Hg' Hc']. split; [done|]. split; [|done].
    pose proof (rep_drops _ _ _ _ Hr2) as [= ? ?]. pose proof (rep_base _ _ _ _ Hr2). done. }
  destruct (negb ul && negb uh); [|case_match; [done|]].
  - destruct HQ as (-> & Ht & m2 & ptrs & Hr2 & Hun). destruct (Hdone _ _ Ht Hr2) as (? & ? & ->). done.
  - destruct HQ as (-> & Ht & ptrs & Hr2). destruct (Hdone _ _ Ht Hr2) as (? & ? & ->). done.
Qed.

End line.

(** ** Examples *)

Module Examples.
Import Transfers.Examples Threading.Examples TransactorRun.Examples LineLife.Examples.

(** The accounts 7 and 9 and a line between them that both directories list. *)
Definition lined : gmap Z Entry :=
  <[getAccountRootIndex 7 := account_entry 7 (account_of 7 100)]> (<[getAccountRootIndex 9 := account_entry 9 (account_of 9 5)]> listed_line).
Definition ledger_lined : Ledger.t STObject := Ledger.mk lined ∅ info0.

Lemma ledger_lined_good : good ledger_lined.
Proof.
  split; [|done]. intros i e He. change (lined !! i = Some e) in He. unfold lined in He. rewrite lookup_insert_Some in He.
  destruct He as [[<- <-]|[_ He]]; [split; [reflexivity|apply getAccountRootIndex_pos]|]. rewrite lookup_insert_Some in He.
  destruct He as [[<- <-]|[_ He]]; [split; [reflexivity|apply getAccountRootIndex_pos]|]. by apply (proj1 ledger_listed_good).
Qed.

Definition start_lined : St (OpenView.t STObject (Ledger.t STObject)) := fresh_state (OpenView.make ledger_lined).

Lemma start_lined_good : good (av start_lined).
Proof. apply ApplyView.make_good, OpenView.open_make_good, ledger_lined_good. Qed.

Lemma start_lined_contents : contents (av start_lined) = lined.
Proof.
  destruct (OpenView.open_make_good ledger_lined ledger_lined_good) as (Hg & Hc & _). change lined with (contents ledger_lined). rewrite <- Hc.
  apply (ApplyView.make_good (OpenView.make ledger_lined) Hg).
Qed.

Lemma deletable_lined : deletable lined 7 9 line_key hinted [(0, [line_key])] [(0, [line_key])].
Proof.
  pose proof deletable79 as Hd. rewrite start_listed_contents in Hd.
  eapply deletable_frame; [exact Hd| |apply Hd|done|].
  - unfold lined. rewrite !lookup_insert_ne by apply account_not_line. apply Hd.
  - intros i _ Ha. unfold lined. by rewrite !lookup_insert_ne by (by apply not_eq_sym).
Qed.

Definition limit20 : STAmount.t := STAmount.mk (STAmount.mkIssue 5 9) 2000000000000000 (-14) false false.

Definition trust_ctx : Ctx :=
  mkCtx (mkTx ttTRUST_SET (<[sfLimitAmount := Some (AMT limit20)]> (<[sfAccount := Some (ACC 7)]>
    (<[sfSequence := Some (U32 0)]> (<[sfFee := Some (AMT (xrp 12))]> (<[sfSigningPubKey := Some (VL [7])]>
    (set_template (TrustSet ++ tx_common_fields))))))))
    5 [1; 2] None 0 (mkFees 10 10 20 5) 10 LoadFeeTrack.make false (fun _ => true) (fun _ _ => false)
    (fun key => default 0 (head key)) (fun _ => []).

Definition no_wants : Wants := mkWants false false 0 0 false false false false false.
Definition trusting7 : Members unit := set_balances (xrp 100) (xrp 88) (set_account 7 (initial sig_good tt)).

Lemma line_case7 : line_case lined trust_ctx trusting7 7 9 limit20 no_wants 7 9 hinted (account_of 7 100) (account_of 9 5) 2 2.
Proof.
  split; try (vm_compute; reflexivity).
  - split; [apply id_small; lia|]. split; [apply id_small; lia|discriminate].
  - split; reflexivity.
  - split; reflexivity.
  - intros [=].
  - split; vm_compute; reflexivity.
  - split; vm_compute; reflexivity.
  - split; [vm_compute; reflexivity|]. split; vm_compute; reflexivity.
  - split; split; discriminate || reflexivity.
  - split; intros _; reflexivity.
  - discriminate.
Qed.

Lemma trust_line_set_witness : exists s', doApply trust_ctx trusting7 start_lined = Ok (tesSUCCESS, s') /\
  u32_of sfOwnerCount (fields (default (account_entry 7 ∅) (contents (av s') !! getAccountRootIndex 7))) = 3.
Proof.
  destruct (trust_line_set trust_ctx trusting7 start_lined 7 9 limit20 no_wants 7 9 hinted (account_of 7 100) (account_of 9 5) 2 2
    [(0, [line_key])] [(0, [line_key])] 100 start_lined_good) as (_ & _ & r & s' & Hrun & HQ).
  - rewrite start_lined_contents. apply line_case7.
  - rewrite start_lined_contents. apply deletable_lined.
  - reflexivity.
  - split; discriminate.
  - split; discriminate.
  - match type of HQ with (if ?a then _ else if ?b then _ else _) => assert (Ha : a = false) by (vm_compute; reflexivity);
      assert (Hb : b = false) by (vm_compute; reflexivity); rewrite Ha, Hb in HQ end.
    destruct HQ as (-> & _ & _ & Hc). exists s'. split; [exact Hrun|]. rewrite Hc, start_lined_contents. vm_compute. reflexivity.
Defined.

End Examples.
End TrustRun.
