(* ===== verification/OwnedTx.v ===== *)
(** * Tickets and cancelled offers

    Transactors that add to what an account owns or take from it: [CreateTicket]
    (app/tx/impl/CreateTicket.cpp), [CancelTicket] (CancelTicket.cpp) and
    [CancelOffer] (CancelOffer.cpp).  Their definitions are prefixed with
    [create_], [cancel_] and [offer_]. *)

From stdpp Require Import base tactics numbers list strings gmap sorting option.
From S2P Require Import Prelude Decimal IOUAmount BigNum Serializer STAmount.
From S2P Require Import View StateTable ApplyStateTable Fields Indexes PaymentSandbox ViewOps.
From S2P Require Import Directory TrustLines Transfers Change LoadFeeTrack MultiSign TxMeta Threading.
From S2P Require Import Footprint Transactor TransactorRun TransactorSteps TxFlags.

Module OwnedTx.
Import Fields Indexes ViewOps Directory TrustLines Transfers Change Transactor TransactorRun TxFlags.

Definition ttOFFER_CANCEL : Z := 8.
Definition ttTICKET_CREATE : Z := 10.
Definition ttTICKET_CANCEL : Z := 11.

(** The formats "OfferCancel", "TicketCreate" and "TicketCancel". *)
Definition OfferCancel : list (SField * SOE_Flags) := [(sfOfferSequence, SOE_REQUIRED)].
Definition TicketCreate : list (SField * SOE_Flags) := [(sfTarget, SOE_OPTIONAL); (sfExpiration, SOE_OPTIONAL)].
Definition TicketCancel : list (SField * SOE_Flags) := [(sfTicketID, SOE_REQUIRED)].

(** [keylet::offer (uint256)] and [keylet::ticket (uint256)]. *)
Definition offer_at (key : Z) : Keylet.t := Keylet.mk ltOFFER key.
Definition ticket_at (key : Z) : Keylet.t := Keylet.mk ltTICKET key.

(** ** Offers *)

Definition offer_preCheck (c : Ctx) (m : Members unit) : result (TER * Members unit) :=
  if has (getFlags (tx_o c)) tfUniversalMask then Ok (temINVALID_FLAG, m)
  else
    uOfferSequence ← getFieldU32 sfOfferSequence (tx_o c);
    if uOfferSequence =? 0 then Ok (temBAD_SEQUENCE, m) else Transactor.preCheck c m.

Section owned.
Context `{Build} {SHA : SHA512Half} {B : Type} {RV : ReadView STObject B}.

(** The build option [RIPPLE_ENABLE_TICKETS]. *)
Context (enableTickets : bool).

Abbreviation Prog := (M (OpenView.t STObject B)).

(** The sequence number has been used already when this runs. *)
Definition offer_doApply (c : Ctx) (m : Members unit) : Prog TER :=
  uOfferSequence ← lift (getFieldU32 sfOfferSequence (tx_o c));
  sle ← vread (Indexes.account (account_ m));
  sq ← (match sle with
        | Some sle => lift (getFieldU32 sfSequence (fields sle))
        | None => ViewOps.throw "null"
        end);
  if u32 (sq - 1) <=? uOfferSequence then mret temBAD_SEQUENCE
  else
    sleOffer ← peek (offer_at (getOfferIndex (account_ m) uOfferSequence));
    match sleOffer with
    | Some _ => offerDelete sleOffer
    | None => mret tesSUCCESS
    end.

Definition offer_processor : Processor (B := B) unit :=
  plain tt (fun c m => lift (offer_preCheck c m)) (fun c m => t ← offer_doApply c m; mret (t, no_effects)).

(** ** Tickets *)

Definition tickets_enabled (c : Ctx) : bool := enableTickets || has (flags c) tapENABLE_TESTING.

Definition create_preCheck (c : Ctx) (m : Members unit) : result (TER * Members unit) :=
  if negb (tickets_enabled c) then Ok (temDISABLED, m)
  else
    bad ← (if isFieldPresent sfExpiration (tx_o c)
           then e ← getFieldU32 sfExpiration (tx_o c); Ok (e =? 0) else Ok false);
    if bad : bool then Ok (temBAD_EXPIRATION, m) else Transactor.preCheck c m.

Definition getAccountReserve (c : Ctx) (account : loc) : Prog STAmount.t :=
  n ← get account (getFieldU32 sfOwnerCount);
  mret (STAmount.of_u64 (accountReserve (fees c) (u32 (n + 1))) false).

(** The new ticket, before it is inserted. *)
Definition create_ticket (m : Members unit) (sq expiration : Z) : Prog loc :=
  e ← lift (make_SLE (ticket_at (getTicketIndex (account_ m) sq)));
  sleTicket ← make_shared e;
  _ ← set sleTicket (setAccountID sfAccount (account_ m));
  _ ← set sleTicket (setFieldU32 sfSequence sq);
  _ ← (if negb (expiration =? 0) then set sleTicket (setFieldU32 sfExpiration expiration) else mret tt);
  mret sleTicket.

(** Who may use the ticket, when that is not its owner; [false] when there is no
    such account. *)
Definition create_target (c : Ctx) (m : Members unit) (sleTicket : loc) : Prog bool :=
  if isFieldPresent sfTarget (tx_o c) then
    target_account ← lift (getAccountID sfTarget (tx_o c));
    sleTarget ← peek (Indexes.account target_account);
    match sleTarget with
    | None => mret false
    | Some _ =>
        _ ← (if negb (target_account =? account_ m) then set sleTicket (setAccountID sfTarget target_account) else mret tt);
        mret true
    end
  else mret true.

Definition create_doApply (c : Ctx) (m : Members unit) : Prog TER :=
  sle ← vread (Indexes.account (account_ m));
  n ← (match sle with
       | Some sle => lift (getFieldU32 sfOwnerCount (fields sle))
       | None => ViewOps.throw "null"
       end);
  short ← lift (STAmount.ltb (mPriorBalance m) (STAmount.of_u64 (accountReserve (fees c) (u32 (n + 1))) false));
  if short : bool then mret tecINSUFFICIENT_RESERVE
  else
    expiration ← (if isFieldPresent sfExpiration (tx_o c) then lift (getFieldU32 sfExpiration (tx_o c)) else mret 0);
    now ← lift_view parentCloseTime;
    if isFieldPresent sfExpiration (tx_o c) && (expiration <=? now) then mret tesSUCCESS
    else
      sq ← lift (getFieldU32 sfSequence (tx_o c));
      sleTicket ← create_ticket m sq expiration;
      _ ← insert sleTicket;
      found ← create_target c m sleTicket;
      if negb found then mret tecNO_TARGET
      else
        e ← deref sleTicket;
        added ← dirAdd (getOwnerDirIndex (account_ m)) (sle_key e) (ownerDirDescriber (account_ m));
        if negb (bool_decide (added.1 = tesSUCCESS)) then mret added.1
        else
          _ ← set sleTicket (setFieldU64 sfOwnerNode added.2);
          sle ← peek (Indexes.account (account_ m));
          sle ← need sle;
          _ ← adjustOwnerCount sle 1;
          mret added.1.

Definition create_processor : Processor (B := B) unit :=
  plain tt (fun c m => lift (create_preCheck c m)) (fun c m => t ← create_doApply c m; mret (t, no_effects)).

Definition cancel_preCheck (c : Ctx) (m : Members unit) : result (TER * Members unit) :=
  if negb (tickets_enabled c) then Ok (temDISABLED, m) else Transactor.preCheck c m.

(** The owner, the target, and after it expired anyone. *)
Definition cancel_authorized (m : Members unit) (sleTicket : loc) (ticket_owner : Z) : Prog bool :=
  if account_ m =? ticket_owner then mret true
  else
    targeted ← get sleTicket (fun o => Ok (isFieldPresent sfTarget o));
    authorized ← (if targeted : bool then t ← get sleTicket (getAccountID sfTarget); mret (account_ m =? t) else mret false);
    if authorized : bool then mret true
    else
      expires ← get sleTicket (fun o => Ok (isFieldPresent sfExpiration o));
      if expires : bool then
        expiration ← get sleTicket (getFieldU32 sfExpiration);
        now ← lift_view parentCloseTime;
        mret (expiration <=? now)
      else mret false.

Definition cancel_doApply (c : Ctx) (m : Members unit) : Prog TER :=
  ticketId ← lift (getFieldH256 sfTicketID (tx_o c));
  sleTicket ← peek (ticket_at ticketId);
  match sleTicket with
  | None => mret tecNO_ENTRY
  | Some sleTicket =>
      ticket_owner ← get sleTicket (getAccountID sfAccount);
      authorized ← cancel_authorized m sleTicket ticket_owner;
      if negb authorized then mret tecNO_PERMISSION
      else
        hint ← get sleTicket (getFieldU64 sfOwnerNode);
        result ← dirDelete false hint (getOwnerDirIndex ticket_owner) ticketId false (hint =? 0);
        sle ← peek (Indexes.account ticket_owner);
        sle ← need sle;
        _ ← adjustOwnerCount sle (-1);
        _ ← erase sleTicket;
        mret result
  end.

Definition cancel_processor : Processor (B := B) unit :=
  plain tt (fun c m => lift (cancel_preCheck c m)) (fun c m => t ← cancel_doApply c m; mret (t, no_effects)).

End owned.
End OwnedTx.
