(* ===== verification/OwnedRun.v ===== *)
(** * Tickets and offers in the ledger

    What the transactors of file OwnedTx.v do to the ledger: a ticket is made and
    listed, it is cancelled by those who may, and an offer that is cancelled is
    gone from the ledger, from its owner's directory and from the book. *)

From stdpp Require Import base tactics numbers list strings gmap sorting option.
From S2P Require Import Prelude Decimal IOUAmount BigNum Serializer STAmount.
From S2P Require Import View StateTable ApplyStateTable Fields Indexes PaymentSandbox ViewOps.
From S2P Require Import Directory TrustLines Transfers LineCredit LineLife Change LoadFeeTrack MultiSign TxMeta Threading.
From S2P Require Import Footprint Transactor TransactorRun TransactorSteps TxFlags AccountTx SignerListTx SignerListRun AccountRun OwnedTx.

Module OwnedRun.
Import Fields Indexes ViewOps Directory TrustLines Transfers LineLife Change Transactor TransactorRun SignerListRun OwnedTx.

Section owned.
Context `{Build} {SHA : SHA512Half} {SL : SHA512HalfLaws SHA} {B : Type} {RV : ReadView STObject B}.
Context {VM : ViewModel STObject B} {RL : ReadViewLaws STObject B}.

Abbreviation Base := (OpenView.t STObject B).
Abbreviation dir_of id := (getOwnerDirIndex id).
Abbreviation root_of id := (getAccountRootIndex id).

(** A key outside of the directories of owners, and of no account. *)
Definition apart_key (x : Z) : Prop :=
  x <> 0 /\ (forall a, x <> root_of a) /\ (forall a, outside (dir_of a) x).

Lemma be_bytes_ok a c : Serializer.bytes (Serializer.be_bytes a c).
Proof. apply Serializer.be_bytes_bytes. Qed.

Lemma space_apart sp r : Serializer.bytes r -> Serializer.be_bytes 2 sp <> Serializer.be_bytes 2 spaceAccount ->
  Serializer.be_bytes 2 sp <> Serializer.be_bytes 2 spaceOwnerDir -> Serializer.be_bytes 2 sp <> Serializer.be_bytes 2 spaceDirNode ->
  apart_key (sha512Half (Serializer.be_bytes 2 sp ++ r)).
Proof.
  intros Hr H1 H2 H3. split; [|split].
  - apply Z.neq_sym, Z.lt_neq, sha_pos. apply bytes_app; [apply be_bytes_ok|done].
  - intros a. apply spaces_differ; [done|apply be_bytes_ok|done].
  - intros a n Hn. unfold getDirNodeIndex. case_if; apply spaces_differ; try done; first [apply be_bytes_ok|apply bytes_app; apply be_bytes_ok].
Qed.

Lemma ticket_apart id sq : apart_key (getTicketIndex id sq).
Proof. apply space_apart; [apply bytes_app; apply be_bytes_ok|by vm_compute..]. Qed.

Lemma offer_apart id sq : apart_key (getOfferIndex id sq).
Proof. apply space_apart; [apply bytes_app; apply be_bytes_ok|by vm_compute..]. Qed.

(** What changes besides the directory: the entry [x] and the owner count. *)
Definition owned_change (m m' : gmap Z Entry) (x id n : Z) (o : STObject) (e : option Entry) : Prop :=
  m' !! x = e /\ m' !! root_of id = Some (account_entry id (with_owners o n)) /\
  forall i, i <> x -> i <> root_of id -> outside (dir_of id) i -> m' !! i = m !! i.

(** The entries of tickets. *)
Definition TicketFormat : list (SField * SOE_Flags) := Ticket ++ common_fields.

(** Who may cancel a ticket: its owner, its target, and anyone once it expired. *)
Definition may_cancel (now who : Z) (o : STObject) : bool :=
  (who =? acc_of sfAccount o) || isFieldPresent sfTarget o && (who =? acc_of sfTarget o) ||
  isFieldPresent sfExpiration o && (u32_of sfExpiration o <=? now).

Section rules.
Variables (b : Base) (d : Z * Z).

Lemma now_rule s k (Q : Z -> St Base -> Prop) : rep b d s k -> Q (parentCloseTime (OpenView.info_ b)) s -> wpm (lift_view parentCloseTime) s Q.
Proof.
  intros Hr HQ. exists (parentCloseTime (View.vinfo (av s))), s. split; [done|].
  change (View.vinfo (av s)) with (OpenView.info_ (ApplyView.base_ (av s))). by rewrite (rep_base _ _ _ _ Hr).
Qed.

Lemma ticket_place f o : conforms TicketFormat o -> bool_decide (f ∈ TicketFormat.*1) = true -> has_place f o.
Proof. intros Ho Hf. apply Ho. by apply bool_decide_eq_true in Hf. Qed.

Lemma cancel_authorized_rule s m ptrs x p f mem o (Q : bool -> St Base -> Prop) :
  rep b d s (mkKnow m ptrs ∅ ApplyStateTable.none) -> ptrs !! x = Some (p, f) -> m !! x = Some (mkSLE x ltTICKET o) -> conforms TicketFormat o ->
  Q (may_cancel (parentCloseTime (OpenView.info_ b)) (account_ mem) o) s -> wpm (cancel_authorized mem p (acc_of sfAccount o)) s Q.
Proof.
  intros Hr Hp Hm Ho HQ. unfold cancel_authorized, may_cancel in *. destruct (account_ mem =? acc_of sfAccount o); [by apply wpm_ret|].
  cbn [orb] in HQ. apply wpm_bind. eapply (get_rule _ _ _ _ x); [exact Hr|exact Hp|exact Hm|done|]. cbn [fields].
  apply wpm_bind. eapply (wpm_mono _ _ (fun r s' => r = isFieldPresent sfTarget o && (account_ mem =? acc_of sfTarget o) /\ s' = s)).
  { destruct (isFieldPresent sfTarget o); [|by apply wpm_ret]. apply wpm_bind.
    eapply (get_rule _ _ _ _ x); [exact Hr|exact Hp|exact Hm|apply get_acc_of; [by apply ticket_place|done]|]. by apply wpm_ret. }
  intros r s' [-> ->]. destruct (isFieldPresent sfTarget o && _); [by apply wpm_ret|]. cbn [orb] in HQ.
  apply wpm_bind. eapply (get_rule _ _ _ _ x); [exact Hr|exact Hp|exact Hm|done|]. cbn [fields].
  destruct (isFieldPresent sfExpiration o); [|by apply wpm_ret]. apply wpm_bind.
  eapply (get_rule _ _ _ _ x); [exact Hr|exact Hp|exact Hm|apply get_u32_of; [by apply ticket_place|done]|].
  apply wpm_bind. eapply now_rule; [exact Hr|]. by apply wpm_ret.
Qed.

(** Taking an entry from its owner. *)
Lemma unown_rule s m x p id n o pages j hint ys e (Q : TER -> St Base -> Prop) :
  rep b d s (mkKnow m (<[x := (p, false)]> ∅) ∅ ApplyStateTable.none) -> apart_key x -> m !! x = Some e -> owner m id n o pages -> 0 < n ->
  pages !! j = Some (hint, ys) -> x ∈ ys ->
  (forall m' ptrs s', tabs s' = tabs s -> rep b d s' (mkKnow m' ptrs ∅ ApplyStateTable.none) -> owned_change m m' x id (n - 1) o None ->
     (exists pages', dir m' (dir_of id) pages' /\ removed false x (entries pages) (entries pages')) -> Q tesSUCCESS s') ->
  wpm (result ← dirDelete false hint (dir_of id) x false (hint =? 0);
       sle ← peek (Indexes.account id); sle ← need sle; _ ← adjustOwnerCount sle (-1); _ ← erase p; mret result) s Q.
Proof.
  intros Hr (Hx0 & Hxr & Hxd) Hm Ho Hn Hj Hx HQ. pose proof (o_range _ _ _ _ _ Ho) as [Hn0 Hn1].
  pose proof (dir_range _ _ _ (o_dir _ _ _ _ _ Ho) _ _ (pages_no _ _ _ _ Hj)) as Hh. apply wpm_bind. unfold dirDelete.
  eapply (dirDelete_rule (dir_of id) (ownerDir_pages id)); [exact Hr|done| |apply Ho|exact Hj|exact Hx|lia|by left|lia|lia|].
  { intros a Ha. cbn [ap]. rewrite lookup_insert_ne by (by apply Hxd). apply lookup_empty. }
  intros m3 s3 Ht3 Hr3 [Hout (pages' & Hd' & Hrem)]. cbn [am ap loose dirty] in Hr3, Hout.
  assert (He3 : m3 !! root_of id = Some (account_entry id o)) by (rewrite Hout by apply account_outside; apply Ho).
  apply wpm_bind. eapply (peek_rule _ _ _ _ (Indexes.account id)); [exact Hr3|apply getAccountRootIndex_pos|exact He3|apply account_check| |].
  { cbn [ap]. rewrite lookup_insert_ne by apply Hxr. apply lookup_empty. }
  intros q s4 Ht4 Hr4. cbn [am ap loose dirty Keylet.key Indexes.account] in Hr4. apply wpm_bind, wpm_need. apply wpm_bind.
  eapply (adjustOwnerCount_rule _ _ _ _ (root_of id) _ _ (account_entry id o)); [exact Hr4|apply lookup_insert_eq|exact He3|apply Ho|done|lia|lia|right; lia|].
  intros s5 Ht5 Hr5. cbn [am ap loose dirty fields account_entry] in Hr5.
  apply wpm_bind. eapply (erase_rule _ _ _ _ x); [exact Hr5| |].
  { cbn [ap]. rewrite !lookup_insert_ne by (by apply not_eq_sym). apply lookup_insert_eq. }
  intros s6 Ht6 Hr6. cbn [am ap loose dirty] in Hr6. apply wpm_ret.
  assert (Hcl : clamp32 (n + -1) = n - 1) by (unfold clamp32; lia). rewrite Hcl in Hr6.
  match type of Hr6 with rep _ _ _ (mkKnow ?m ?a _ _) =>
    assert (Hr7 : rep b d s6 (mkKnow m a ∅ ApplyStateTable.none)) by (eapply rep_weaken; [exact Hr6|done..|]; by intros i [[] _]) end.
  eapply HQ; [congruence|exact Hr7| |].
  - split; [apply lookup_delete_eq|]. split; [rewrite lookup_delete_ne by apply Hxr; apply lookup_insert_eq|].
    intros i Hi1 Hi2 Hi3. rewrite lookup_delete_ne, lookup_insert_ne by (by apply not_eq_sym). by apply Hout.
  - exists pages'. split; [|done]. eapply dir_outside; [exact Hd'|]. intros a Ha.
    rewrite lookup_delete_ne by (by apply Hxd). apply lookup_insert_ne. by apply account_outside.
Qed.

End rules.

(** Who may cancel a ticket, and what is left.  A transaction that cancels a
    ticket is refused unless it comes from the owner of the ticket, from its
    target, or after it expired; then the ticket is gone from the ledger and from
    the directory of its owner, whose owner count goes down by one, and nothing
    else changes. *)
Theorem ticket_cancelled c mem (s : St Base) id sq n o lo hint ys j pages :
  let x := getTicketIndex id sq in
  let m := contents (av s) in
  let may := may_cancel (parentCloseTime (View.vinfo (av s))) (account_ mem) lo in
  good (av s) -> getFieldH256 sfTicketID (tx_o c) = Ok x -> m !! x = Some (mkSLE x ltTICKET lo) -> conforms TicketFormat lo ->
  acc_of sfAccount lo = id -> u64_of sfOwnerNode lo = hint -> owner m id n o pages -> 0 < n ->
  pages !! j = Some (hint, ys) -> x ∈ ys -> exists s',
    cancel_doApply c mem s = Ok (if may then tesSUCCESS else tecNO_PERMISSION, s') /\ good (av s') /\ untouched s s' /\
    if may then owned_change m (contents (av s')) x id (n - 1) o None /\
      exists pages', dir (contents (av s')) (dir_of id) pages' /\ removed false x (entries pages) (entries pages')
    else contents (av s') = m.
Proof.
  intros x m may Hg Htx Hm Hlo Hacc Hhint Ho Hn Hj Hx. destruct (ticket_apart id sq) as (Hx0 & Hxr & Hxd). fold x in Hx0, Hxr, Hxd.
  destruct (wpm_view (cancel_doApply c mem) s (fun r m' => r = (if may then tesSUCCESS else tecNO_PERMISSION) /\
    if may then owned_change m m' x id (n - 1) o None /\
      exists pages', dir m' (dir_of id) pages' /\ removed false x (entries pages) (entries pages')
    else m' = m)) as (r & s' & Hrun & Hg' & Hu & -> & HQ); [done| |by exists s'].
  intros b d Hr. unfold cancel_doApply. apply wpm_bind. eapply wpm_lift; [exact Htx|].
  apply wpm_bind. eapply peek_rule; [exact Hr|exact Hx0|exact Hm| |done|].
  { by apply (check_own_type (ticket_at x)). }
  intros p s1 Ht1 Hr1. cbn [am ap loose dirty Keylet.key ticket_at] in Hr1.
  apply wpm_bind. eapply (get_rule _ _ _ _ x); [exact Hr1|apply lookup_insert_eq|exact Hm|apply get_acc_of; [by apply ticket_place|done]|].
  cbn [fields]. apply wpm_bind. eapply cancel_authorized_rule; [exact Hr1|apply lookup_insert_eq|exact Hm|done|].
  assert (Hnow : may_cancel (parentCloseTime (OpenView.info_ b)) (account_ mem) lo = may).
  { unfold may. change (View.vinfo (av s)) with (OpenView.info_ (ApplyView.base_ (av s))). by rewrite (rep_base _ _ _ _ Hr). }
  rewrite Hnow. destruct may; cbn [negb].
  2: { apply wpm_ret. split; [done|]. eexists. split; [exact Hr1|]. split; [by intros i []|done]. }
  apply wpm_bind. eapply (get_rule _ _ _ _ x); [exact Hr1|apply lookup_insert_eq|exact Hm|apply get_u64_of; [by apply ticket_place|done]|].
  cbn [fields]. rewrite Hacc, Hhint. eapply unown_rule; [exact Hr1|apply ticket_apart|exact Hm|exact Ho|done|exact Hj|exact Hx|].
  intros m' ptrs s' Ht Hr' Hch Hd. split; [congruence|]. eexists. split; [exact Hr'|]. split; [by intros i []|done].
Qed.

(** ** A new ticket *)

Definition ticket0 : STObject := Eval vm_compute in
  match make_SLE (ticket_at 1) with Ok e => fields e | _ => ∅ end.

Lemma make_ticket x : make_SLE (ticket_at x) = Ok (mkSLE x ltTICKET ticket0).
Proof. vm_compute. reflexivity. Qed.

Lemma ticket0_typed : conforms TicketFormat ticket0.
Proof.
  destruct (make_SLE_conforms ltTICKET 1 TicketFormat eq_refl) as (o & Ho & Hc).
  change (Keylet.mk ltTICKET 1) with (ticket_at 1) in Ho. rewrite make_ticket in Ho. by injection Ho as <-.
Qed.

(** The ticket as it is inserted, with its target, and with the page that lists it. *)
Definition ticket_new (id sq expiration : Z) : STObject :=
  let o := <[sfSequence := Some (U32 sq)]> (<[sfAccount := Some (ACC id)]> ticket0) in
  if expiration =? 0 then o else <[sfExpiration := Some (U32 expiration)]> o.
Definition ticket_for (target : option Z) (id : Z) (o : STObject) : STObject :=
  match target with Some t => if t =? id then o else <[sfTarget := Some (ACC t)]> o | None => o end.
Definition ticket_made (id sq expiration : Z) (target : option Z) (hint : Z) : STObject :=
  <[sfOwnerNode := Some (U64 hint)]> (ticket_for target id (ticket_new id sq expiration)).

Lemma ticket_new_typed id sq e : conforms TicketFormat (ticket_new id sq e).
Proof.
  unfold ticket_new. assert (H2 : conforms TicketFormat (<[sfSequence := Some (U32 sq)]> (<[sfAccount := Some (ACC id)]> ticket0))).
  { do 2 (apply AccountRun.conforms_insert; [|by apply (bool_decide_unpack _)|done]). apply ticket0_typed. }
  case_match; [done|]. apply AccountRun.conforms_insert; [done|by apply (bool_decide_unpack _)|done].
Qed.

Lemma ticket_for_typed target id o : conforms TicketFormat o -> conforms TicketFormat (ticket_for target id o).
Proof.
  intros Ho. unfold ticket_for. repeat case_match; try done. apply AccountRun.conforms_insert; [done|by apply (bool_decide_unpack _)|done].
Qed.

(** What the ticket says, so that it can be cancelled by its hint. *)
Lemma ticket_made_spec id sq e target hint : let o := ticket_made id sq e target hint in
  conforms TicketFormat o /\ acc_of sfAccount o = id /\ u32_of sfSequence o = sq /\ u64_of sfOwnerNode o = hint.
Proof.
  cbn zeta. split; [apply AccountRun.conforms_insert; [apply ticket_for_typed, ticket_new_typed|by apply (bool_decide_unpack _)|done]|].
  unfold ticket_made, ticket_for, ticket_new, acc_of, u32_of, u64_of.
  destruct target as [t|]; [destruct (t =? id)|]; destruct (e =? 0);
    by repeat first [rewrite lookup_insert_eq | rewrite lookup_insert_ne by done].
Qed.

Section create.
Variables (b : Base) (d : Z * Z).

Lemma create_ticket_rule s m ptrs mem id sq e (Q : loc -> St Base -> Prop) :
  rep b d s (mkKnow m ptrs ∅ ApplyStateTable.none) -> account_ mem = id ->
  (forall p s', tabs s' = tabs s ->
     rep b d s' (mkKnow m ptrs (<[p := mkSLE (getTicketIndex id sq) ltTICKET (ticket_new id sq e)]> ∅) ApplyStateTable.none) -> Q p s') ->
  wpm (create_ticket mem sq e) s Q.
Proof.
  intros Hr Hid HQ. unfold create_ticket. rewrite Hid. apply wpm_bind. eapply wpm_lift; [apply make_ticket|].
  apply wpm_bind. eapply make_shared_rule; [exact Hr|]. intros p s1 Ht1 _ Hr1. cbn [am ap loose dirty] in Hr1.
  apply wpm_bind. eapply set_loose_rule; [exact Hr1|apply lookup_insert_eq|by apply setField_ok|].
  intros s2 Ht2 Hr2. cbn [am ap loose dirty fields with_fields sle_key getType] in Hr2. rewrite insert_insert_eq in Hr2.
  apply wpm_bind. eapply set_loose_rule; [exact Hr2|apply lookup_insert_eq|by apply setField_ok|].
  intros s3 Ht3 Hr3. cbn [am ap loose dirty fields with_fields sle_key getType] in Hr3. rewrite insert_insert_eq in Hr3.
  apply wpm_bind. unfold ticket_new in HQ. destruct (e =? 0); cbn [negb].
  - apply wpm_ret, wpm_ret. apply HQ; [congruence|exact Hr3].
  - eapply set_loose_rule; [exact Hr3|apply lookup_insert_eq|by apply setField_ok|].
    intros s4 Ht4 Hr4. cbn [am ap loose dirty fields with_fields sle_key getType] in Hr4. rewrite insert_insert_eq in Hr4.
    apply wpm_ret. apply HQ; [congruence|exact Hr4].
Qed.

(** The target is no account, or it is, or none is named. *)
Definition target_ok (m : gmap Z Entry) (c : Ctx) (target : option Z) : Prop :=
  match target with
  | None => isFieldPresent sfTarget (tx_o c) = false
  | Some t => isFieldPresent sfTarget (tx_o c) = true /\ getAccountID sfTarget (tx_o c) = Ok t /\ exists o, m !! root_of t = Some (account_entry t o)
  end.

Lemma create_target_rule s m x p ptrs c mem id target o (Q : bool -> St Base -> Prop) :
  rep b d s (mkKnow m ptrs ∅ ApplyStateTable.none) -> ptrs !! x = Some (p, true) -> (forall a, x <> root_of a) ->
  (forall i, i <> x -> ptrs !! i = None) -> m !! x = Some (mkSLE x ltTICKET o) -> conforms TicketFormat o ->
  account_ mem = id -> target_ok m c target ->
  (forall ptrs' s', tabs s' = tabs s -> rep b d s' (mkKnow (<[x := mkSLE x ltTICKET (ticket_for target id o)]> m) ptrs' ∅ ApplyStateTable.none) ->
     ptrs' !! x = Some (p, true) -> (forall i, i <> x -> (forall a, i <> root_of a) -> ptrs' !! i = None) -> Q true s') ->
  wpm (create_target c mem p) s Q.
Proof.
  intros Hr Hp Hxr Hpm Hm Ho Hid Htg HQ. unfold create_target. rewrite Hid. destruct target as [t|]; cbn [target_ok ticket_for] in *.
  - destruct Htg as (Hpr & Hget & ot & Hot). rewrite Hpr. apply wpm_bind. eapply wpm_lift; [exact Hget|].
    apply wpm_bind. eapply peek_rule; [exact Hr|apply getAccountRootIndex_pos|exact Hot|apply account_check|apply Hpm, not_eq_sym, Hxr|].
    intros q s1 Ht1 Hr1. cbn [am ap loose dirty Keylet.key Indexes.account] in Hr1.
    assert (Hp1 : <[root_of t := (q, false)]> ptrs !! x = Some (p, true)) by (by rewrite lookup_insert_ne by (by apply not_eq_sym)).
    assert (Hpm1 : forall i, i <> x -> (forall a, i <> root_of a) -> <[root_of t := (q, false)]> ptrs !! i = None).
    { intros i Hi Ha. rewrite lookup_insert_ne by (by apply not_eq_sym). by apply Hpm. }
    apply wpm_bind. destruct (t =? id); cbn [negb].
    + apply wpm_ret, wpm_ret. eapply HQ; [done| |exact Hp1|exact Hpm1]. by rewrite insert_id.
    + eapply (set_rule _ _ _ _ x); [exact Hr1|exact Hp1|exact Hm|apply setField_ok; [by apply ticket_place|done]|].
      intros s2 Ht2 Hr2. cbn [am ap loose dirty] in Hr2. apply wpm_ret. eapply HQ; [congruence|exact Hr2|exact Hp1|exact Hpm1].
  - rewrite Htg. apply wpm_ret. eapply (HQ ptrs); [done|by rewrite insert_id|done|]. intros i Hi _. by apply Hpm.
Qed.

(** The ticket is made, inserted and listed. *)
Lemma create_end s m c mem id sq n o pages expiration target : let x := getTicketIndex id sq in
  rep b d s (mkKnow m ∅ ∅ ApplyStateTable.none) -> account_ mem = id -> owner m id n o pages -> room pages -> m !! x = None -> target_ok m c target ->
  wpm (sleTicket ← create_ticket mem sq expiration; _ ← insert sleTicket; found ← create_target c mem sleTicket;
       if negb found then mret tecNO_TARGET
       else
         e ← deref sleTicket;
         added ← dirAdd (dir_of id) (sle_key e) (ownerDirDescriber id);
         if negb (bool_decide (added.1 = tesSUCCESS)) then mret added.1
         else _ ← set sleTicket (setFieldU64 sfOwnerNode added.2);
              sle ← peek (Indexes.account id); sle ← need sle; _ ← adjustOwnerCount sle 1; mret added.1) s
    (fun r s' => r = tesSUCCESS /\ tabs s' = tabs s /\ exists hint m' ptrs, rep b d s' (mkKnow m' ptrs ∅ ApplyStateTable.none) /\
       owned_change m m' x id (n + 1) o (Some (mkSLE x ltTICKET (ticket_made id sq expiration target hint))) /\
       listed m' (dir_of id) x hint pages).
Proof.
  intros x Hr Hid Ho Hroom Hnew Htg. destruct (ticket_apart id sq) as (Hx0 & Hxr & Hxd). fold x in Hx0, Hxr, Hxd.
  pose proof (o_range _ _ _ _ _ Ho) as [Hn0 Hn1]. apply wpm_bind. eapply create_ticket_rule; [exact Hr|done|]. intros p s1 Ht1 Hr1. fold x in Hr1.
  apply wpm_bind. eapply insert_rule; [exact Hr1|apply lookup_insert_eq|exact Hx0|exact Hnew|]. intros s2 Ht2 Hr2.
  cbn [am ap loose dirty sle_key] in Hr2. rewrite delete_insert_id in Hr2 by done.
  apply wpm_bind. eapply (create_target_rule _ _ x p _ _ _ id target); [exact Hr2|apply lookup_insert_eq|exact Hxr| |apply lookup_insert_eq|apply ticket_new_typed|done| |].
  { intros i Hi. rewrite lookup_insert_ne by (by apply not_eq_sym). apply lookup_empty. }
  { unfold target_ok in *. destruct target; [|done]. rewrite lookup_insert_ne by apply Hxr. done. }
  intros ptrs3 s3 Ht3 Hr3 Hp3 Hpm3. rewrite insert_insert_eq in Hr3. cbn [negb].
  apply wpm_bind. eapply deref_rule; [exact Hr3|exact Hp3|apply lookup_insert_eq|]. cbn [sle_key].
  apply wpm_bind. eapply list_rule; [exact Hr3|apply ownerDir_pages| | |exact Hroom|].
  { intros a Ha. cbn [ap]. apply Hpm3; [by apply not_eq_sym, Hxd|]. intros a'. by apply not_eq_sym, account_outside. }
  { eapply dir_outside; [apply Ho|]. intros a Ha. cbn [am]. rewrite lookup_insert_ne by (by apply Hxd). done. }
  intros hint m4 s4 Ht4 Hr4 Hlist Hout. cbn [am ap loose dirty] in Hr4, Hout. cbn [fst snd].
  rewrite bool_decide_eq_true_2 by done. cbn [negb]. apply wpm_bind.
  eapply (set_rule _ _ _ _ x); [exact Hr4|exact Hp3| | |].
  { cbn [am]. rewrite Hout by apply Hxd. apply lookup_insert_eq. }
  { apply setField_ok; [|done]. apply ticket_place; [apply ticket_for_typed, ticket_new_typed|done]. }
  intros s5 Ht5 Hr5. cbn [am ap loose dirty fields with_fields sle_key getType] in Hr5.
  assert (He5 : <[x := mkSLE x ltTICKET (ticket_made id sq expiration target hint)]> m4 !! root_of id = Some (account_entry id o)).
  { rewrite lookup_insert_ne by apply Hxr. rewrite Hout by apply account_outside. rewrite lookup_insert_ne by apply Hxr. apply Ho. }
  apply wpm_bind. eapply peek_any_rule; [exact Hr5|apply getAccountRootIndex_pos|exact He5|apply account_check|].
  intros q f s6 Ht6 _ Hr6. cbn [am ap loose dirty Keylet.key Indexes.account] in Hr6. apply wpm_bind, wpm_need. apply wpm_bind.
  eapply (adjustOwnerCount_rule _ _ _ _ (root_of id) _ _ (account_entry id o)); [exact Hr6|apply lookup_insert_eq|exact He5|apply Ho|done|lia|lia|right; lia|].
  intros s7 Ht7 Hr7. cbn [am ap loose dirty fields account_entry] in Hr7. apply wpm_ret.
  assert (Hcl : clamp32 (n + 1) = n + 1) by (unfold clamp32; lia). rewrite Hcl in Hr7. split; [done|]. split; [congruence|].
  exists hint. eexists _, _. split; [exact Hr7|]. split.
  - split; [rewrite lookup_insert_ne by (by apply not_eq_sym); apply lookup_insert_eq|]. split; [apply lookup_insert_eq|].
    intros i Hi1 Hi2 Hi3. rewrite !lookup_insert_ne by (by apply not_eq_sym). rewrite Hout by done. by apply lookup_insert_ne, not_eq_sym.
  - eapply listed_frame; [exact Hlist|]. intros a Ha. rewrite !lookup_insert_ne; [done|by apply Hxd|by apply account_outside].
Qed.

End create.

(** Making a ticket. *)
Lemma create_spec c mem (s : St Base) id sq n o pages bal expiration target :
  let x := getTicketIndex id sq in
  let m := contents (av s) in
  let R := accountReserve (fees c) (n + 1) in
  let expired := isFieldPresent sfExpiration (tx_o c) && (expiration <=? parentCloseTime (View.vinfo (av s))) in
  good (av s) -> account_ mem = id -> getFieldU32 sfSequence (tx_o c) = Ok sq ->
  (if isFieldPresent sfExpiration (tx_o c) then getFieldU32 sfExpiration (tx_o c) else Ok 0) = Ok expiration ->
  owner m id n o pages -> room pages -> m !! x = None -> target_ok m c target ->
  mPriorBalance mem = xrp bal -> drops_ok bal -> drops_ok R -> exists s',
    create_doApply c mem s = Ok (if bal <? R then tecINSUFFICIENT_RESERVE else tesSUCCESS, s') /\ good (av s') /\ untouched s s' /\
    if (bal <? R) || expired then contents (av s') = m
    else exists hint, owned_change m (contents (av s')) x id (n + 1) o (Some (mkSLE x ltTICKET (ticket_made id sq expiration target hint))) /\
      listed (contents (av s')) (dir_of id) x hint pages.
Proof.
  intros x m R expired Hg Hid Hsq Hexp Ho Hroom Hnew Htg Hbal Hb HR. destruct (ticket_apart id sq) as (Hx0 & Hxr & Hxd). fold x in Hx0, Hxr, Hxd.
  pose proof (o_range _ _ _ _ _ Ho) as [Hn0 Hn1].
  destruct (wpm_view (create_doApply c mem) s (fun r m' => r = (if bal <? R then tecINSUFFICIENT_RESERVE else tesSUCCESS) /\
    if (bal <? R) || expired then m' = m
    else exists hint, owned_change m m' x id (n + 1) o (Some (mkSLE x ltTICKET (ticket_made id sq expiration target hint))) /\
      listed m' (dir_of id) x hint pages)) as (r & s' & Hrun & Hg' & Hu & -> & HQ); [done| |by exists s'].
  intros b d Hr. fold m in Hr. unfold create_doApply. rewrite Hid. apply wpm_bind.
  eapply read_rule; [exact Hr|apply getAccountRootIndex_pos| |].
  { cbn [am]. change (Keylet.key (Indexes.account id)) with (root_of id). rewrite (o_entry _ _ _ _ _ Ho). by apply (checked_own (Indexes.account id)). }
  apply wpm_bind. eapply wpm_lift; [cbn [fields account_entry]; unfold getFieldU32, getField; by rewrite (o_count _ _ _ _ _ Ho)|].
  rewrite (u32_id (n + 1)) by lia. fold R. rewrite Hbal.
  replace (STAmount.of_u64 R false) with (xrp R) by (unfold STAmount.of_u64; by rewrite andb_false_r).
  apply wpm_bind. eapply wpm_lift; [by apply xrp_ltb|]. destruct (bal <? R); cbn [orb].
  { apply wpm_ret. split; [done|]. eexists. split; [exact Hr|]. split; [by intros i []|done]. }
  apply wpm_bind. eapply (wpm_mono _ _ (fun r s' => r = expiration /\ s' = s)).
  { destruct (isFieldPresent sfExpiration (tx_o c)); [eapply wpm_lift; [exact Hexp|done]|]. injection Hexp as <-. by apply wpm_ret. }
  intros r s' [-> ->]. apply wpm_bind. eapply now_rule; [exact Hr|].
  assert (Hnow : isFieldPresent sfExpiration (tx_o c) && (expiration <=? parentCloseTime (OpenView.info_ b)) = expired).
  { unfold expired. change (View.vinfo (av s)) with (OpenView.info_ (ApplyView.base_ (av s))). by rewrite (rep_base _ _ _ _ Hr). }
  rewrite Hnow. destruct expired.
  { apply wpm_ret. split; [done|]. eexists. split; [exact Hr|]. split; [by intros i []|done]. }
  apply wpm_bind. eapply wpm_lift; [exact Hsq|].
  eapply wpm_mono; [eapply (create_end b d s m c mem id sq n o pages expiration target); done|].
  intros r s' (-> & Ht & hint & m' & ptrs & Hr' & HQ). split; [done|]. eexists. split; [exact Hr'|]. split; [by intros i []|]. split; [done|]. by exists hint.
Qed.

(** C24: a new ticket.  The transactor that makes a ticket, for an account that
    has none of that number and a target that exists, if one is named: without
    the reserve it fails, after the expiration it does nothing; otherwise the
    ticket is in the ledger with its owner, number, expiration and target, the
    owner's directory lists it at the page of its hint, the owner count goes up by
    one, and nothing else changes. *)
Theorem ticket_created c mem (s : St Base) id sq n o pages bal expiration target :
  let x := getTicketIndex id sq in
  let m := contents (av s) in
  let R := accountReserve (fees c) (n + 1) in
  let expired := isFieldPresent sfExpiration (tx_o c) && (expiration <=? parentCloseTime (View.vinfo (av s))) in
  good (av s) -> account_ mem = id -> getFieldU32 sfSequence (tx_o c) = Ok sq ->
  (if isFieldPresent sfExpiration (tx_o c) then getFieldU32 sfExpiration (tx_o c) else Ok 0) = Ok expiration ->
  owner m id n o pages -> room pages -> m !! x = None -> target_ok m c target ->
  mPriorBalance mem = xrp bal -> drops_ok bal -> drops_ok R -> exists s',
    create_doApply c mem s = Ok (if bal <? R then tecINSUFFICIENT_RESERVE else tesSUCCESS, s') /\ good (av s') /\ untouched s s' /\
    if (bal <? R) || expired then contents (av s') = m
    else exists hint, owned_change m (contents (av s')) x id (n + 1) o (Some (mkSLE x ltTICKET (ticket_made id sq expiration target hint))) /\
      listed (contents (av s')) (dir_of id) x hint pages.
Proof. apply create_spec. Qed.

(** ** Offers *)

Definition OfferFormat : list (SField * SOE_Flags) := Offer ++ common_fields.

(** An offer of [id] in the book directory [root], ready to be deleted. *)
Record offered (m : gmap Z Entry) (x id root : Z) (lo : STObject) (pages books : list (Z * list Z)) : Prop := {
  f_entry : m !! x = Some (mkSLE x ltOFFER lo);
  f_typed : conforms OfferFormat lo;
  f_owner : acc_of sfAccount lo = id;
  f_book : h256_of sfBookDirectory lo = root;
  f_distinct : pages_distinct root /\ apart (dir_of id) root;
  f_outside : outside root x /\ outside root (root_of id);
  f_dirs : dir m (dir_of id) pages /\ dir m root books;
  f_found : found_from pages (hint_of sfOwnerNode lo) x /\
    exists j ys, books !! j = Some (u64_of sfBookNode lo, ys) /\ x ∈ ys }.

(** What is left when the offer is gone. *)
Definition unoffered (m m' : gmap Z Entry) (x id n root : Z) (o : STObject) (pages books : list (Z * list Z)) : Prop :=
  m' !! x = None /\ m' !! root_of id = Some (account_entry id (with_owners o n)) /\
  (exists pages', dir m' (dir_of id) pages' /\ removed false x (entries pages) (entries pages')) /\
  (exists books', dir m' root books' /\ removed true x (entries books) (entries books')) /\
  forall i, i <> x -> i <> root_of id -> outside (dir_of id) i -> outside root i -> m' !! i = m !! i.

Section offers.
Variables (b : Base) (d : Z * Z).

Lemma offer_place f o : conforms OfferFormat o -> bool_decide (f ∈ OfferFormat.*1) = true -> has_place f o.
Proof. intros Ho Hf. apply Ho. by apply bool_decide_eq_true in Hf. Qed.

Lemma offerDelete_rule s m x p id root n o lo pages books (Q : TER -> St Base -> Prop) :
  rep b d s (mkKnow m (<[x := (p, false)]> ∅) ∅ ApplyStateTable.none) -> apart_key x -> owner m id n o pages -> 0 < n ->
  offered m x id root lo pages books ->
  (forall m' ptrs s', tabs s' = tabs s -> rep b d s' (mkKnow m' ptrs ∅ ApplyStateTable.none) ->
     unoffered m m' x id (n - 1) root o pages books -> Q tesSUCCESS s') ->
  wpm (offerDelete (Some p)) s Q.
Proof.
  intros Hr (Hx0 & Hxr & Hxd) Ho Hn [He Hc Hacc Hbook [Hdist Hap] [Hbx Hbr] [Hd1 Hd2] [Hf1 (j & ys & Hj & Hx)]] HQ.
  pose proof (o_range _ _ _ _ _ Ho) as [Hn0 Hn1]. unfold offerDelete.
  apply wpm_bind. eapply (deref_rule _ _ _ _ x); [exact Hr|apply lookup_insert_eq|exact He|]. cbn [sle_key].
  apply wpm_bind. eapply (get_rule _ _ _ _ x); [exact Hr|apply lookup_insert_eq|exact He|apply get_acc_of; [by apply offer_place|done]|].
  apply wpm_bind. eapply (get_rule _ _ _ _ x); [exact Hr|apply lookup_insert_eq|exact He|done|].
  apply wpm_bind. eapply (get_rule _ _ _ _ x); [exact Hr|apply lookup_insert_eq|exact He|apply get_u64_of; [by apply offer_place|done]|].
  apply wpm_bind. eapply (get_rule _ _ _ _ x); [exact Hr|apply lookup_insert_eq|exact He|apply get_h256_of; [by apply offer_place|done]|].
  apply wpm_bind. eapply (get_rule _ _ _ _ x); [exact Hr|apply lookup_insert_eq|exact He|apply get_u64_of; [by apply offer_place|done]|].
  cbn [fields]. rewrite Hacc, Hbook.
  assert (Hnp : forall r, outside r x -> no_pages r (<[x := (p, false)]> (∅ : gmap Z (loc * bool)))).
  { intros r Hrx a Ha. rewrite lookup_insert_ne by (by apply Hrx). apply lookup_empty. }
  apply wpm_bind. eapply unlist_rule; [exact Hr|apply ownerDir_pages|by apply Hnp|exact Hd1|by apply offer_place|exact Hf1|].
  intros m1 s1 Ht1 Hr1 [Hout1 (pages' & Hd1' & Hrem1)]. cbn [am ap loose dirty] in Hr1, Hout1.
  assert (Hd2' : dir m1 root books) by (eapply dir_outside; [exact Hd2|]; intros a Ha; apply Hout1; by apply apart_outside).
  pose proof (dir_range _ _ _ Hd2 _ _ (pages_no _ _ _ _ Hj)) as Hh. apply wpm_bind. unfold dirDelete.
  eapply (dirDelete_rule root Hdist); [exact Hr1|done|by apply Hnp|exact Hd2'|exact Hj|exact Hx|lia|by left|lia|lia|].
  intros m2 s2 Ht2 Hr2 [Hout2 (books' & Hd2'' & Hrem2)]. cbn [am ap loose dirty] in Hr2, Hout2.
  rewrite bool_decide_eq_true_2 by done.
  assert (He2 : m2 !! root_of id = Some (account_entry id o)) by (rewrite Hout2, Hout1 by (done || apply account_outside); apply Ho).
  apply wpm_bind, wpm_bind. eapply (peek_rule _ _ _ _ (Indexes.account id)); [exact Hr2|apply getAccountRootIndex_pos|exact He2|apply account_check| |].
  { cbn [ap]. rewrite lookup_insert_ne by apply Hxr. apply lookup_empty. }
  intros q s3 Ht3 Hr3. cbn [am ap loose dirty Keylet.key Indexes.account] in Hr3. apply wpm_bind, wpm_need.
  eapply (adjustOwnerCount_rule _ _ _ _ (root_of id) _ _ (account_entry id o)); [exact Hr3|apply lookup_insert_eq|exact He2|apply Ho|done|lia|lia|right; lia|].
  intros s4 Ht4 Hr4. cbn [am ap loose dirty fields account_entry] in Hr4. apply wpm_bind. eapply (erase_rule _ _ _ _ x); [exact Hr4| |].
  { cbn [ap]. rewrite !lookup_insert_ne by (by apply not_eq_sym). apply lookup_insert_eq. }
  intros s5 Ht5 Hr5. cbn [am ap loose dirty] in Hr5. apply wpm_ret.
  assert (Hcl : clamp32 (n + -1) = n - 1) by (unfold clamp32; lia). rewrite Hcl in Hr5.
  match type of Hr5 with rep _ _ _ (mkKnow ?m ?a _ _) =>
    assert (Hr6 : rep b d s5 (mkKnow m a ∅ ApplyStateTable.none)) by (eapply rep_weaken; [exact Hr5|done..|]; by intros i [[] _]) end.
  eapply HQ; [congruence|exact Hr6|]. split; [apply lookup_delete_eq|]. split; [rewrite lookup_delete_ne by apply Hxr; apply lookup_insert_eq|].
  split; [|split].
  - exists pages'. split; [|done]. eapply dir_outside; [exact Hd1'|]. intros a Ha. rewrite lookup_delete_ne by (by apply Hxd).
    rewrite lookup_insert_ne by (by apply account_outside). apply Hout2. apply apart_outside; [by apply apart_sym|done].
  - exists books'. split; [|done]. eapply dir_outside; [exact Hd2''|]. intros a Ha. rewrite lookup_delete_ne by (by apply Hbx).
    by rewrite lookup_insert_ne by (by apply Hbr).
  - intros i H1 H2 H3 H4. rewrite lookup_delete_ne, lookup_insert_ne by (by apply not_eq_sym). rewrite Hout2 by done. by apply Hout1.
Qed.

End offers.

(** C25: an offer is cancelled.  The transactor refuses a number that is not below
    the sequence number the account had; else it succeeds.  An offer of that
    number is gone from the ledger, from its owner's directory and, the order of
    the others kept, from the directory of its book, the owner count goes down by
    one and nothing else changes; without such an offer nothing changes. *)
Theorem offer_cancelled c mem (s : St Base) id sq oseq n o pages root lo books :
  let x := getOfferIndex id oseq in
  let m := contents (av s) in
  let late := u32 (sq - 1) <=? oseq in
  good (av s) -> account_ mem = id -> getFieldU32 sfOfferSequence (tx_o c) = Ok oseq ->
  owner m id n o pages -> o !! sfSequence = Some (Some (U32 sq)) ->
  (m !! x = None \/ 0 < n /\ offered m x id root lo pages books) -> exists s',
    offer_doApply c mem s = Ok (if late then temBAD_SEQUENCE else tesSUCCESS, s') /\ good (av s') /\ untouched s s' /\
    if late || bool_decide (m !! x = None) then contents (av s') = m
    else unoffered m (contents (av s')) x id (n - 1) root o pages books.
Proof.
  intros x m late Hg Hid Htx Ho Hsq Hoff. pose proof (offer_apart id oseq) as Hap. fold x in Hap.
  destruct (wpm_view (offer_doApply c mem) s (fun r m' => r = (if late then temBAD_SEQUENCE else tesSUCCESS) /\
    if late || bool_decide (m !! x = None) then m' = m else unoffered m m' x id (n - 1) root o pages books))
    as (r & s' & Hrun & Hg' & Hu & -> & HQ); [done| |by exists s'].
  intros b d Hr. fold m in Hr. unfold offer_doApply. rewrite Hid. apply wpm_bind. eapply wpm_lift; [exact Htx|].
  apply wpm_bind. eapply read_rule; [exact Hr|apply getAccountRootIndex_pos| |].
  { cbn [am]. change (Keylet.key (Indexes.account id)) with (root_of id). rewrite (o_entry _ _ _ _ _ Ho). by apply (checked_own (Indexes.account id)). }
  apply wpm_bind. eapply wpm_lift; [cbn [fields account_entry]; unfold getFieldU32, getField; by rewrite Hsq|]. fold late.
  destruct late; cbn [orb].
  { apply wpm_ret. split; [done|]. eexists. split; [exact Hr|]. split; [by intros i []|done]. }
  apply wpm_bind. destruct Hoff as [Hnone|[Hn Hoff]].
  - eapply peek_none_rule; [exact Hr|apply Hap|done|]. apply wpm_ret. rewrite bool_decide_eq_true_2 by done.
    split; [done|]. eexists. split; [exact Hr|]. split; [by intros i []|done].
  - eapply peek_rule; [exact Hr|apply Hap|apply Hoff|by apply (check_own_type (offer_at x))|done|].
    intros p s1 Ht1 Hr1. cbn [am ap loose dirty Keylet.key offer_at] in Hr1. rewrite bool_decide_eq_false_2 by (by rewrite (f_entry _ _ _ _ _ _ _ Hoff)).
    eapply offerDelete_rule; [exact Hr1|exact Hap|exact Ho|exact Hn|exact Hoff|].
    intros m' ptrs s' Ht Hr' Hun. split; [congruence|]. eexists. split; [exact Hr'|]. split; [by intros i []|done].
Qed.

End owned.

(** ** Examples *)

Module Examples.
Import Transfers.Examples Threading.Examples TransactorRun.Examples LineLife.Examples SignerListRun.Examples.

Definition ticket_ctx : Ctx :=
  mkCtx (mkTx ttTICKET_CREATE (<[sfTarget := Some (ACC 9)]> (<[sfExpiration := Some (U32 50)]> (<[sfAccount := Some (ACC 7)]>
    (<[sfSequence := Some (U32 0)]> (<[sfFee := Some (AMT (xrp 12))]> (<[sfSigningPubKey := Some (VL [7])]>
    (set_template (TicketCreate ++ tx_common_fields)))))))))
    5 [1; 2] None 0 (mkFees 10 10 20 5) 10 LoadFeeTrack.make false (fun _ => true) (fun _ _ => false)
    (fun key => default 0 (head key)) (fun _ => []).

Definition ticketing7 : Members unit := set_balances (xrp 100) (xrp 88) (set_account 7 (initial sig_good tt)).

Lemma accounts79_no_ticket id sq : accounts79 !! getTicketIndex id sq = None.
Proof.
  destruct (ticket_apart id sq) as (_ & Hx & _). unfold accounts79.
  rewrite lookup_insert_ne by (by apply not_eq_sym). by apply lookup_singleton_ne, not_eq_sym.
Qed.

Lemma target9 : target_ok (contents (av start105)) ticket_ctx (Some 9).
Proof. rewrite start105_contents. split; [reflexivity|]. split; [reflexivity|]. exists (account_of 9 5). vm_compute. reflexivity. Qed.

Lemma ticket_created_witness : exists s', create_doApply ticket_ctx ticketing7 start105 = Ok (tesSUCCESS, s') /\
  exists hint, listed (contents (av s')) (getOwnerDirIndex 7) (getTicketIndex 7 0) hint [].
Proof.
  destruct (ticket_created ticket_ctx ticketing7 start105 7 0 2 (account_of 7 100) [] 100 50 (Some 9)) as (s' & Hrun & _ & _ & HQ).
  - apply start105_good.
  - reflexivity.
  - reflexivity.
  - reflexivity.
  - rewrite start105_contents. apply owner7.
  - done.
  - rewrite start105_contents. apply accounts79_no_ticket.
  - apply target9.
  - reflexivity.
  - split; discriminate.
  - split; discriminate.
  - change (_ || _) with false in HQ. exists s'. split; [exact Hrun|]. destruct HQ as (hint & _ & Hl). by exists hint.
Defined.

(** The target cancels the ticket. *)
Definition cancel_ctx : Ctx :=
  mkCtx (mkTx ttTICKET_CANCEL (<[sfTicketID := Some (H256 (getTicketIndex 7 0))]> (<[sfAccount := Some (ACC 9)]>
    (<[sfSequence := Some (U32 0)]> (<[sfFee := Some (AMT (xrp 12))]> (<[sfSigningPubKey := Some (VL [9])]>
    (set_template (TicketCancel ++ tx_common_fields))))))))
    6 [1; 2] None 0 (mkFees 10 10 20 5) 10 LoadFeeTrack.make false (fun _ => true) (fun _ _ => false)
    (fun key => default 0 (head key)) (fun _ => []).

Definition cancelling9 : Members unit := set_account 9 (initial sig_good tt).

Lemma ticket_cancelled_witness : exists s s', create_doApply ticket_ctx ticketing7 start105 = Ok (tesSUCCESS, s) /\
  cancel_doApply cancel_ctx cancelling9 s = Ok (tesSUCCESS, s') /\ contents (av s') !! getTicketIndex 7 0 = None.
Proof.
  destruct (create_spec ticket_ctx ticketing7 start105 7 0 2 (account_of 7 100) [] 100 50 (Some 9)) as (s & Hrun & Hg & [_ (Hbase & _)] & HQ);
    [apply start105_good|reflexivity|reflexivity|reflexivity|rewrite start105_contents; apply owner7|done
    |rewrite start105_contents; apply accounts79_no_ticket|apply target9|reflexivity|split; discriminate|split; discriminate|].
  change (_ || _) with false in HQ. destruct HQ as (hint & (Hx & Hroot & _) & pages & es & Hd & He & Hl).
  destruct (ticket_made_spec 7 0 50 (Some 9) hint) as (Ht & Hacc & _ & Hhint).
  destruct (ticket_cancelled cancel_ctx cancelling9 s 7 0 3 (with_owners (account_of 7 100) 3) (ticket_made 7 0 50 (Some 9) hint) hint (es ++ [getTicketIndex 7 0])
    (length pages - 1)%nat pages Hg eq_refl Hx Ht Hacc Hhint) as (s' & Hrun' & _ & _ & HQ').
  - split; [exact Hroot|reflexivity|split; [discriminate|reflexivity]|exact Hd].
  - reflexivity.
  - exact Hl.
  - apply elem_of_app. right. apply list_elem_of_here.
  - assert (Hmay : may_cancel (parentCloseTime (View.vinfo (av s))) (account_ cancelling9) (ticket_made 7 0 50 (Some 9) hint) = true).
    { unfold may_cancel, ticket_made, ticket_for, ticket_new, isFieldPresent, acc_of. cbn [Z.eqb Pos.eqb].
      repeat first [rewrite lookup_insert_eq | rewrite lookup_insert_ne by done]. reflexivity. }
    rewrite Hmay in Hrun', HQ'. exists s, s'. split; [exact Hrun|]. split; [exact Hrun'|]. apply HQ'.
Defined.

(** An offer of the account 7, listed by its own directory and by another one that
    stands for the book. *)
Definition offer_key : Z := getOfferIndex 7 3.
Definition offer7 : STObject := Eval vm_compute in
  of_build ltOFFER [(sfAccount, ACC 7); (sfSequence, U32 3); (sfBookDirectory, H256 (getOwnerDirIndex 9)); (sfBookNode, U64 0); (sfOwnerNode, U64 0)].
Definition owner_at (n : Z) : STObject := <[sfSequence := Some (U32 5)]> (account_of 7 n).

Definition offers : gmap Z Entry :=
  <[getDirNodeIndex (getOwnerDirIndex 7) 0 := page_entry (getOwnerDirIndex 7) 0 (page_with (getOwnerDirIndex 7) offer_key)]>
  (<[getDirNodeIndex (getOwnerDirIndex 9) 0 := page_entry (getOwnerDirIndex 9) 0 (page_with (getOwnerDirIndex 9) offer_key)]>
   (<[getAccountRootIndex 7 := account_entry 7 (owner_at 100)]> {[ offer_key := mkSLE offer_key ltOFFER offer7 ]})).
Definition ledger_offers : Ledger.t STObject := Ledger.mk offers ∅ info0.
Definition start_offers : St (OpenView.t STObject (Ledger.t STObject)) := fresh_state (OpenView.make ledger_offers).

Lemma ledger_offers_good : good ledger_offers.
Proof.
  split; [|done]. intros i e He. change (offers !! i = Some e) in He. unfold offers in He.
  rewrite !lookup_insert_Some, lookup_singleton_Some in He. destruct He as [[<- <-]|[_ [[<- <-]|[_ [[<- <-]|[_ [<- <-]]]]]]].
  - split; [reflexivity|by apply (ownerDir_pages 7)].
  - split; [reflexivity|by apply (ownerDir_pages 9)].
  - split; [reflexivity|apply getAccountRootIndex_pos].
  - split; [reflexivity|apply (offer_apart 7 3)].
Qed.

Lemma start_offers_good : good (av start_offers).
Proof. apply ApplyView.make_good, OpenView.open_make_good, ledger_offers_good. Qed.

Lemma start_offers_contents : contents (av start_offers) = offers.
Proof.
  destruct (OpenView.open_make_good ledger_offers ledger_offers_good) as (Hg & Hc & _). change offers with (contents ledger_offers). rewrite <- Hc.
  apply (ApplyView.make_good (OpenView.make ledger_offers) Hg).
Qed.

Lemma offers_dirs : dir offers (getOwnerDirIndex 7) [(0, [offer_key])] /\ dir offers (getOwnerDirIndex 9) [(0, [offer_key])].
Proof.
  destruct (offer_apart 7 3) as (_ & Hxr & Hxd). fold offer_key in Hxr, Hxd.
  assert (Hno : forall a, dir (<[getAccountRootIndex 7 := account_entry 7 (owner_at 100)]> {[ offer_key := mkSLE offer_key ltOFFER offer7 ]}) (getOwnerDirIndex a) []).
  { intros a. apply no_dir. intros n Hn. rewrite lookup_insert_ne by (by apply account_outside). apply lookup_singleton_ne. by apply Hxd. }
  split; unfold offers.
  - apply dir_new_root; [apply ownerDir_pages| |done|apply page_with_of]. eapply dir_outside; [apply Hno|].
    intros n Hn. apply lookup_insert_ne. by apply apart_sym; [apply apart79|..].
  - eapply dir_outside; [apply dir_new_root; [apply ownerDir_pages|apply Hno|done|apply page_with_of]|].
    intros n Hn. apply lookup_insert_ne. by apply apart79.
Qed.

Lemma offered7 : offered offers offer_key 7 (getOwnerDirIndex 9) offer7 [(0, [offer_key])] [(0, [offer_key])].
Proof.
  destruct (offer_apart 7 3) as (_ & Hxr & Hxd). fold offer_key in Hxr, Hxd. split.
  - unfold offers. rewrite (lookup_insert_ne _ (getDirNodeIndex (getOwnerDirIndex 7) 0)) by (apply not_eq_sym, (Hxd 7); lia).
    rewrite (lookup_insert_ne _ (getDirNodeIndex (getOwnerDirIndex 9) 0)) by (apply not_eq_sym, (Hxd 9); lia).
    rewrite (lookup_insert_ne _ (getAccountRootIndex 7)) by (apply not_eq_sym, Hxr). apply lookup_singleton_eq.
  - by apply (build_conforms ltOFFER _ [(sfAccount, ACC 7); (sfSequence, U32 3); (sfBookDirectory, H256 (getOwnerDirIndex 9)); (sfBookNode, U64 0); (sfOwnerNode, U64 0)]).
  - vm_compute. reflexivity.
  - vm_compute. reflexivity.
  - split; [apply ownerDir_pages|apply apart79].
  - split; [apply Hxd|apply account_outside].
  - apply offers_dirs.
  - split; [exists 0%nat, 0, [offer_key]; split; [done|split; [by left|vm_compute; done]]|]. exists 0%nat, [offer_key]. split; [vm_compute; reflexivity|by left].
Qed.

Definition offer_ctx : Ctx :=
  mkCtx (mkTx ttOFFER_CANCEL (<[sfOfferSequence := Some (U32 3)]> (<[sfAccount := Some (ACC 7)]>
    (<[sfSequence := Some (U32 4)]> (<[sfFee := Some (AMT (xrp 12))]> (<[sfSigningPubKey := Some (VL [7])]>
    (set_template (OfferCancel ++ tx_common_fields))))))))
    6 [1; 2] None 0 (mkFees 10 10 20 5) 10 LoadFeeTrack.make false (fun _ => true) (fun _ _ => false)
    (fun key => default 0 (head key)) (fun _ => []).

Lemma offer_cancelled_witness : exists s', offer_doApply offer_ctx ticketing7 start_offers = Ok (tesSUCCESS, s') /\
  unoffered offers (contents (av s')) offer_key 7 1 (getOwnerDirIndex 9) (owner_at 100) [(0, [offer_key])] [(0, [offer_key])].
Proof.
  destruct (offer_cancelled offer_ctx ticketing7 start_offers 7 5 3 2 (owner_at 100) [(0, [offer_key])] (getOwnerDirIndex 9) offer7 [(0, [offer_key])])
    as (s' & Hrun & _ & _ & HQ).
  - apply start_offers_good.
  - reflexivity.
  - reflexivity.
  - rewrite start_offers_contents. split; [vm_compute; reflexivity|vm_compute; reflexivity|split; [discriminate|reflexivity]|apply offers_dirs].
  - reflexivity.
  - rewrite start_offers_contents. right. split; [reflexivity|apply offered7].
  - rewrite start_offers_contents in HQ. assert (Hthere : offers !! getOfferIndex 7 3 <> None).
    { intros Hn. pose proof (f_entry _ _ _ _ _ _ _ offered7) as He. change (getOfferIndex 7 3) with offer_key in Hn. rewrite Hn in He. discriminate He. }
    rewrite bool_decide_eq_false_2 in HQ by exact Hthere.
    exists s'. split; [exact Hrun|exact HQ].
Defined.

End Examples.
End OwnedRun.
