(* ===== verification/BasicTaker.v ===== *)
(** * The arithmetic of crossing offers

    [BasicTaker] of app/tx/impl/Taker.h and Taker.cpp: what an offer that is being
    placed still wants, and how much flows when it crosses an offer of the book,
    directly or through two offers bridged by the native currency.  The flow is
    clamped, in this order, on what the owner of the offer has, on what the taker
    still wants, and on what the taker offers and has; the issuer's transfer fee
    is on top of what the order says.  The funds of an account are an argument,
    the virtual function [get_funds].  A quality is its 64-bit number; a failed
    assertion is the exception ["assertion"]. *)

From stdpp Require Import base tactics numbers list strings option.
From S2P Require Import Prelude Decimal IOUAmount BigNum Serializer STAmount AmountArith Quality.
From S2P Require Import TrustLines TxFlags.

Module BasicTaker.
Import STAmount AmountArith Quality TxFlags.

Abbreviation QUALITY_ONE := TrustLines.QUALITY_ONE.
Abbreviation has := TrustLines.has.

Inductive CrossType := XrpToIou | IouToXrp | IouToIou.

#[export] Instance CrossType_eq_dec : EqDecision CrossType.
Proof. solve_decision. Defined.

(** [BasicTaker::Rate]. *)
Record Rate := mkRate { rate_quality : Z; rate_ : t }.

Definition make_rate (quality : Z) : result Rate :=
  _ ← assert_ (negb (quality =? 0)); r ← amountFromRate quality; Ok (mkRate quality r).

(** The members.  The issues of both sides are references to those of
    [remaining_]. *)
Record Taker := mkTaker {
  account_ : Z; quality_ : Z; threshold_ : Z; sell_ : bool;
  original_ : Amounts; remaining_ : Amounts;
  m_rate_in : Z; m_rate_out : Z; cross_type_ : CrossType }.

Definition issue_in (k : Taker) : Issue := mIssue (in_ (remaining_ k)).
Definition issue_out (k : Taker) : Issue := mIssue (out (remaining_ k)).
Definition isXRP_issue (i : Issue) : bool := isXRP_id (currency i).

Definition set_remaining (r : Amounts) (k : Taker) : Taker :=
  mkTaker (account_ k) (quality_ k) (threshold_ k) (sell_ k) (original_ k) r (m_rate_in k) (m_rate_out k) (cross_type_ k).

(** The constructor. *)
Definition make (cross_type : CrossType) (account_id : Z) (amount : Amounts) (quality flags rate_in rate_out : Z) : result Taker :=
  let k th := mkTaker account_id quality th (has flags tfSell) amount amount rate_in rate_out cross_type in
  _ ← assert_ (0 <? signum (in_ amount));
  _ ← assert_ (0 <? signum (out amount));
  _ ← assert_ (negb (rate_in =? 0));
  _ ← assert_ (negb (rate_out =? 0));
  let xin := isXRP_issue (mIssue (in_ amount)) in
  let xout := isXRP_issue (mIssue (out amount)) in
  _ ← assert_ (negb (bool_decide (cross_type = XrpToIou)) || (xin && negb xout));
  _ ← assert_ (negb (bool_decide (cross_type = IouToXrp)) || (negb xin && xout));
  _ ← assert_ (negb xin || negb xout);
  if has flags tfPassive then th ← Quality.incr quality; Ok (k th) else Ok (k quality).

Definition effective_rate (rate : Z) (issue : Issue) (from to : Z) : result Rate :=
  _ ← assert_ (negb (rate =? 0));
  if negb (rate =? QUALITY_ONE) && negb (from =? to) && negb (from =? account issue) && negb (to =? account issue)
  then make_rate rate else make_rate QUALITY_ONE.

Definition in_rate (k : Taker) (from to : Z) : result Rate := effective_rate (m_rate_in k) (mIssue (in_ (original_ k))) from to.
Definition out_rate (k : Taker) (from to : Z) : result Rate := effective_rate (m_rate_out k) (mIssue (out (original_ k))) from to.

Definition reject (k : Taker) (quality : Z) : bool := Quality.ltb quality (threshold_ k).
Definition original_offer (k : Taker) : Amounts := original_ k.

(** [std::min] and [std::max]. *)
Definition min_amount (a b : t) : result t := less ← STAmount.ltb b a; Ok (if less : bool then b else a).
Definition max_amount (a b : t) : result t := less ← STAmount.ltb a b; Ok (if less : bool then b else a).

Record Flow := mkFlow { order : Amounts; issuers : Amounts }.

Definition sanity_check (f : Flow) : bool :=
  negb (isXRP (in_ (order f)) && isXRP (out (order f))) &&
  (0 <=? signum (in_ (order f))) && (0 <=? signum (out (order f))) &&
  (0 <=? signum (in_ (issuers f))) && (0 <=? signum (out (issuers f))).

(** [STAmount ()]. *)
Definition none : t := mk xrpIssue 0 0 true false.

Section taker.
Context `{B : BN}.
Context (get_funds : Z -> t -> result t).

Definition rate_divide (r : Rate) (amount : t) : result t :=
  if rate_quality r =? QUALITY_ONE then Ok amount else divide amount (rate_ r) (mIssue amount).
Definition rate_multiply (r : Rate) (amount : t) : result t :=
  if rate_quality r =? QUALITY_ONE then Ok amount else multiply amount (rate_ r) (mIssue amount).

Definition qual_div (amount : t) (quality : Z) (output : t) : result t :=
  r ← Quality.rate quality; res ← divide amount r (mIssue output); min_amount res output.
Definition qual_mul (amount : t) (quality : Z) (output : t) : result t :=
  r ← Quality.rate quality; res ← multiply amount r (mIssue output); min_amount res output.

Definition done (k : Taker) : result bool :=
  if signum (in_ (remaining_ k)) <=? 0 then Ok true
  else if negb (sell_ k) && (signum (out (remaining_ k)) <=? 0) then Ok true
  else funds ← get_funds (account_ k) (in_ (remaining_ k)); Ok (signum funds <=? 0).

Definition remaining_offer (k : Taker) : result Amounts :=
  d ← done k;
  if d : bool then i ← zeroed (in_ (remaining_ k)); o ← zeroed (out (remaining_ k)); Ok (mkAmounts i o)
  else if amounts_eqb (original_ k) (remaining_ k) then Ok (original_ k)
  else if sell_ k then
    _ ← assert_ (0 <? signum (in_ (remaining_ k)));
    r ← Quality.rate (quality_ k);
    o ← divRound (in_ (remaining_ k)) r (issue_out k) true;
    Ok (mkAmounts (in_ (remaining_ k)) o)
  else
    _ ← assert_ (0 <? signum (out (remaining_ k)));
    r ← Quality.rate (quality_ k);
    i ← mulRound (out (remaining_ k)) r (issue_in k) true;
    Ok (mkAmounts i (out (remaining_ k))).

(** ** The three kinds of flow *)

Definition flow_xrp_to_iou (k : Taker) (offer : Amounts) (quality : Z) (owner_funds taker_funds : t) (rate_out : Rate) : result Flow :=
  let oin := in_ offer in
  let oout := out offer in
  iout ← rate_multiply rate_out oout;
  (* owner balance *)
  c ← STAmount.ltb owner_funds iout;
  s ← (if c : bool then
         let iout := owner_funds in
         oout ← rate_divide rate_out iout;
         oin ← qual_mul oout quality oin;
         Ok (oin, oout, iout)
       else Ok (oin, oout, iout));
  let '(oin, oout, iout) := s in
  (* taker output *)
  c ← (if sell_ k then Ok false else STAmount.ltb (out (remaining_ k)) oout);
  s ← (if c : bool then
         let oout := out (remaining_ k) in
         oin ← qual_mul oout quality oin;
         iout ← rate_multiply rate_out oout;
         Ok (oin, oout, iout)
       else Ok (oin, oout, iout));
  let '(oin, oout, iout) := s in
  (* taker funds *)
  c ← STAmount.ltb taker_funds oin;
  s ← (if c : bool then
         let oin := taker_funds in
         oout ← qual_div oin quality oout;
         iout ← rate_multiply rate_out oout;
         Ok (oin, oout, iout)
       else Ok (oin, oout, iout));
  let '(oin, oout, iout) := s in
  (* taker input, not on the second leg of a bridge *)
  c ← (if bool_decide (cross_type_ k = XrpToIou) then STAmount.ltb (in_ (remaining_ k)) oin else Ok false);
  s ← (if c : bool then
         let oin := in_ (remaining_ k) in
         oout ← qual_div oin quality oout;
         iout ← rate_multiply rate_out oout;
         Ok (oin, oout, iout)
       else Ok (oin, oout, iout));
  let '(oin, oout, iout) := s in
  Ok (mkFlow (mkAmounts oin oout) (mkAmounts none iout)).

Definition flow_iou_to_xrp (k : Taker) (offer : Amounts) (quality : Z) (owner_funds taker_funds : t) (rate_in : Rate) : result Flow :=
  let oin := in_ offer in
  let oout := out offer in
  iin ← rate_multiply rate_in oin;
  (* owner funds *)
  c ← STAmount.ltb owner_funds oout;
  s ← (if c : bool then
         let oout := owner_funds in
         oin ← qual_mul oout quality oin;
         iin ← rate_multiply rate_in oin;
         Ok (oin, oout, iin)
       else Ok (oin, oout, iin));
  let '(oin, oout, iin) := s in
  (* taker output, not on the first leg of a bridge *)
  c ← (if negb (sell_ k) && bool_decide (cross_type_ k = IouToXrp) then STAmount.ltb (out (remaining_ k)) oout else Ok false);
  s ← (if c : bool then
         let oout := out (remaining_ k) in
         oin ← qual_mul oout quality oin;
         iin ← rate_multiply rate_in oin;
         Ok (oin, oout, iin)
       else Ok (oin, oout, iin));
  let '(oin, oout, iin) := s in
  (* taker input *)
  c ← STAmount.ltb (in_ (remaining_ k)) oin;
  s ← (if c : bool then
         let oin := in_ (remaining_ k) in
         iin ← rate_multiply rate_in oin;
         oout ← qual_div oin quality oout;
         Ok (oin, oout, iin)
       else Ok (oin, oout, iin));
  let '(oin, oout, iin) := s in
  (* taker funds *)
  c ← STAmount.ltb taker_funds iin;
  s ← (if c : bool then
         let iin := taker_funds in
         oin ← rate_divide rate_in iin;
         oout ← qual_div oin quality oout;
         Ok (oin, oout, iin)
       else Ok (oin, oout, iin));
  let '(oin, oout, iin) := s in
  Ok (mkFlow (mkAmounts oin oout) (mkAmounts iin none)).

Definition flow_iou_to_iou (k : Taker) (offer : Amounts) (quality : Z) (owner_funds taker_funds : t) (rate_in rate_out : Rate) : result Flow :=
  let oin := in_ offer in
  let oout := out offer in
  iin ← rate_multiply rate_in oin;
  iout ← rate_multiply rate_out oout;
  (* owner balance *)
  c ← STAmount.ltb owner_funds iout;
  s ← (if c : bool then
         let iout := owner_funds in
         oout ← rate_divide rate_out iout;
         oin ← qual_mul oout quality oin;
         iin ← rate_multiply rate_in oin;
         Ok (oin, oout, iin, iout)
       else Ok (oin, oout, iin, iout));
  let '(oin, oout, iin, iout) := s in
  (* taker output *)
  c ← (if sell_ k then Ok false else STAmount.ltb (out (remaining_ k)) oout);
  s ← (if c : bool then
         let oout := out (remaining_ k) in
         oin ← qual_mul oout quality oin;
         iout ← rate_multiply rate_out oout;
         iin ← rate_multiply rate_in oin;
         Ok (oin, oout, iin, iout)
       else Ok (oin, oout, iin, iout));
  let '(oin, oout, iin, iout) := s in
  (* taker input *)
  c ← STAmount.ltb (in_ (remaining_ k)) oin;
  s ← (if c : bool then
         let oin := in_ (remaining_ k) in
         iin ← rate_multiply rate_in oin;
         oout ← qual_div oin quality oout;
         iout ← rate_multiply rate_out oout;
         Ok (oin, oout, iin, iout)
       else Ok (oin, oout, iin, iout));
  let '(oin, oout, iin, iout) := s in
  (* taker funds *)
  c ← STAmount.ltb taker_funds iin;
  s ← (if c : bool then
         let iin := taker_funds in
         oin ← rate_divide rate_in iin;
         oout ← qual_div oin quality oout;
         iout ← rate_multiply rate_out oout;
         Ok (oin, oout, iin, iout)
       else Ok (oin, oout, iin, iout));
  let '(oin, oout, iin, iout) := s in
  Ok (mkFlow (mkAmounts oin oout) (mkAmounts iin iout)).

(** ** Crossing *)

(** The flow through one offer, and the taker with that much less to take. *)
Definition do_cross (k : Taker) (offer : Amounts) (quality owner : Z) : result (Flow * Taker) :=
  d ← done k;
  _ ← assert_ (negb d);
  owner_funds ← get_funds owner (out offer);
  taker_funds ← get_funds (account_ k) (in_ offer);
  f ← (match cross_type_ k with
       | XrpToIou => r ← out_rate k owner (account_ k); flow_xrp_to_iou k offer quality owner_funds taker_funds r
       | IouToXrp => r ← in_rate k owner (account_ k); flow_iou_to_xrp k offer quality owner_funds taker_funds r
       | IouToIou => r1 ← in_rate k owner (account_ k); r2 ← out_rate k owner (account_ k);
                     flow_iou_to_iou k offer quality owner_funds taker_funds r1 r2
       end);
  _ ← throw_if (negb (sanity_check f)) "Computed flow fails sanity check.";
  o ← STAmount.sub (out (remaining_ k)) (out (order f));
  i ← STAmount.sub (in_ (remaining_ k)) (in_ (order f));
  _ ← assert_ (0 <=? signum i);
  Ok (f, set_remaining (mkAmounts i o) k).

(** The adjustment of the leg that carries more. *)
Definition balance (flow1 flow2 : Flow) (quality1 quality2 : Z) (leg1_rate leg2_rate : Rate) : result (Flow * Flow) :=
  less ← STAmount.ltb (out (order flow1)) (in_ (order flow2));
  if less : bool then
    let oin := out (order flow1) in
    oout ← qual_div oin quality2 (out (order flow2));
    iout ← rate_multiply leg2_rate oout;
    Ok (flow1, mkFlow (mkAmounts oin oout) (mkAmounts (in_ (issuers flow2)) iout))
  else
    more ← STAmount.gtb (out (order flow1)) (in_ (order flow2));
    if more : bool then
      let oout := in_ (order flow2) in
      oin ← qual_mul oout quality1 (in_ (order flow1));
      iin ← rate_multiply leg1_rate oin;
      Ok (mkFlow (mkAmounts oin oout) (mkAmounts iin (out (issuers flow1))), flow2)
    else Ok (flow1, flow2).

(** The flow through two offers bridged by the native currency. *)
Definition do_cross_bridge (k : Taker) (offer1 : Amounts) (quality1 owner1 : Z) (offer2 : Amounts) (quality2 owner2 : Z)
    : result (Flow * Flow * Taker) :=
  d ← done k;
  _ ← assert_ (negb d);
  _ ← assert_ (negb (mIsNative (in_ offer1)));
  _ ← assert_ (mIsNative (out offer1));
  _ ← assert_ (mIsNative (in_ offer2));
  _ ← assert_ (negb (mIsNative (out offer2)));
  leg1_in_funds ← get_funds (account_ k) (in_ offer1);
  leg1_in_funds ← (if account_ k =? owner1 then max_amount leg1_in_funds (in_ offer1) else Ok leg1_in_funds);
  leg2_out_funds ← get_funds owner2 (out offer2);
  leg2_out_funds ← (if account_ k =? owner2 then max_amount leg2_out_funds (out offer2) else Ok leg2_out_funds);
  xrp_funds ← get_funds owner1 (out offer1);
  xrp_funds ← (if owner1 =? owner2 then max_amount (out offer1) (in_ offer2) else Ok xrp_funds);
  leg1_rate ← in_rate k owner1 (account_ k);
  leg2_rate ← out_rate k owner2 (account_ k);
  flow1 ← flow_iou_to_xrp k offer1 quality1 xrp_funds leg1_in_funds leg1_rate;
  _ ← throw_if (negb (sanity_check flow1)) "Computed flow1 fails sanity check.";
  flow2 ← flow_xrp_to_iou k offer2 quality2 leg2_out_funds xrp_funds leg2_rate;
  _ ← throw_if (negb (sanity_check flow2)) "Computed flow2 fails sanity check.";
  flows ← balance flow1 flow2 quality1 quality2 leg1_rate leg2_rate;
  let '(flow1, flow2) := flows in
  _ ← throw_if (negb (STAmount.eqb (out (order flow1)) (in_ (order flow2)))) "Bridged flow is out of balance.";
  o ← STAmount.sub (out (remaining_ k)) (out (order flow2));
  i ← STAmount.sub (in_ (remaining_ k)) (in_ (order flow1));
  Ok (flow1, flow2, set_remaining (mkAmounts i o) k).

End taker.
End BasicTaker.
