(* ===== verification/TakerFlow.v ===== *)
(** * How much an offer that crosses another one takes

    The theorems on [BasicTaker]: whatever the rounding of products and quotients
    does, the flow through an offer takes no more than the offer has on either
    side and no more than the taker still offers and, when buying, wants.  The
    step that needs an argument is the one that divides what an account has by a
    transfer rate: the quotient never exceeds the amount whose product with the
    rate was too much ([divide_back]). *)

From stdpp Require Import base tactics numbers list strings option.
From S2P Require Import Prelude Decimal IOUAmount BigNum Serializer STAmount AmountArith Quality.
From S2P Require Import TrustLines TxFlags BasicTaker.

Module TakerFlow.
Import STAmount AmountArith Quality BasicTaker.

(** ** Dividing what is less than a rounded product *)

(** What is less than the rounded product is less than the product cut off
    before rounding. *)
Lemma below_rounded F ef v e P k : 10 ^ 16 <= v -> 1 <= k -> P * 10 ^ k <= v + 7 -> cMinValue <= P <= cMaxValue ->
  0 <= F <= cMaxValue -> dec_lt F ef P (e + k) -> dec_lt F ef v e.
Proof.
  unfold cMinValue, cMaxValue. intros Hv Hk Hp HP HF Hlt. pose proof (pow10_pos (k - 1)) as Hk1.
  assert (E : 10 ^ k = 10 * 10 ^ (k - 1)) by (rewrite <- pow10_S by lia; f_equal; lia). rewrite E in Hp.
  destruct (decide (e + k <= ef)) as [Hge|Hge].
  - assert (Hn : F * 10 ^ (ef - (e + k)) < P).
    { rewrite (dec_lt_at (e + k)) in Hlt by lia. rewrite Z.sub_diag in Hlt. lia. }
    rewrite (dec_lt_at e) by lia. rewrite Z.sub_diag, (pow10_split ef (e + k) e) by lia.
    replace (e + k - e) with k by lia. rewrite E. pose proof (pow10_pos (ef - (e + k))). nia.
  - assert (Hb : dec_le F ef (10 ^ 16 - 1) (e + k - 1)) by (apply dec_le_mono; lia).
    eapply (fun a b => dec_le_lt_trans _ _ _ _ _ _ a b); [exact Hb|].
    rewrite (dec_lt_at e) by lia. rewrite Z.sub_diag. replace (e + k - 1 - e) with (k - 1) by lia.
    destruct (decide (k = 1)) as [->|Hk2]; [cbn; lia|].
    assert (E2 : 10 ^ (k - 1) = 10 * 10 ^ (k - 2)) by (rewrite <- pow10_S by lia; f_equal; lia).
    pose proof (pow10_pos (k - 2)). rewrite E2 in *. nia.
Qed.

(** A quotient that is rounded does not pass an amount the exact one is below. *)
Lemma rounded_below V e' A ea Q k : 10 ^ 16 <= V -> 1 <= k -> Q * 10 ^ k <= V + 5 -> cMinValue <= Q <= cMaxValue ->
  cMinValue <= A <= cMaxValue -> dec_lt V e' A ea -> dec_le Q (e' + k) A ea.
Proof.
  unfold cMinValue, cMaxValue. intros HV Hk Hq HQ HA Hlt. pose proof (pow10_pos (k - 1)) as Hk1.
  assert (E : 10 ^ k = 10 * 10 ^ (k - 1)) by (rewrite <- pow10_S by lia; f_equal; lia). rewrite E in Hq.
  destruct (decide (e' + k <= ea - 1)) as [Hlo|Hlo].
  { eapply (dec_le_trans _ _ (10 ^ 16) (ea - 1)); [apply dec_le_mono; lia|].
    rewrite (dec_le_at (ea - 1)) by lia. rewrite Z.sub_diag. replace (ea - (ea - 1)) with 1 by lia. lia. }
  destruct (decide (ea < e')) as [Hhi|Hhi].
  { exfalso. rewrite (dec_lt_at ea) in Hlt by lia. rewrite Z.sub_diag in Hlt. pose proof (pow10_pos (e' - ea)). nia. }
  rewrite (dec_lt_at e') in Hlt by lia. rewrite Z.sub_diag in Hlt.
  destruct (decide (e' + k = ea)) as [He|He].
  - rewrite He, dec_le_same. replace (ea - e') with k in Hlt by lia. rewrite E in Hlt. nia.
  - exfalso. assert (Hm : 10 ^ (ea - e') <= 10 ^ (k - 1)) by (apply Z.pow_le_mono_r; lia).
    pose proof (pow10_pos (ea - e')). destruct (decide (k = 1)) as [->|Hk2]; [cbn in *; nia|].
    assert (E2 : 10 ^ (k - 1) = 10 * 10 ^ (k - 2)) by (rewrite <- pow10_S by lia; f_equal; lia).
    pose proof (pow10_pos (k - 2)). nia.
Qed.

(** ** Amounts of an issued currency *)

(** Canonical, not negative, of an issue. *)
Definition fine (i : Issue) (a : t) : Prop := wf a /\ mIsNegative a = false /\ mIssue a = i.

Definition issued (i : Issue) : Prop := isXRP_id (currency i) = false.

Lemma fine_value i a : fine i a -> 0 <= mValue a.
Proof. intros (Hw & _). pose proof (wf_value a Hw). lia. Qed.

Lemma fine_units i a : fine i a -> units a = mValue a * 10 ^ (mOffset a + 100) /\ 0 <= units a.
Proof.
  intros Hf. pose proof (fine_value i a Hf). destruct Hf as (Hw & Hn & _). unfold units, signed. rewrite Hn.
  destruct (decide (0 <= mOffset a + 100)) as [Ho|Ho]; [pose proof (pow10_pos _ Ho); split; [done|nia]|].
  rewrite Z.pow_neg_r by lia. split; [done|lia].
Qed.

Lemma fine_zero i a : fine i a -> (mValue a = 0 <-> units a = 0).
Proof.
  intros Hf. destruct (fine_units i a Hf) as [-> _]. destruct Hf as ((_ & _ & Hc) & _). destruct (isXRP a).
  - destruct Hc as [-> _]. cbn. lia.
  - unfold cMinOffset, cMinValue in Hc. assert (Ho : 0 <= mOffset a + 100) by lia. pose proof (pow10_pos _ Ho). nia.
Qed.

Lemma zero_units a : mValue a = 0 -> units a = 0.
Proof. intros Hz. unfold units, signed. rewrite Hz. by destruct (mIsNegative a). Qed.

(** An amount that is not zero has its mantissa in range. *)
Lemma fine_range i a : issued i -> fine i a -> mValue a <> 0 ->
  cMinValue <= mValue a <= cMaxValue /\ cMinOffset <= mOffset a <= cMaxOffset /\ mIsNative a = false.
Proof.
  intros Hi (Hw & _ & Hia) Hz. destruct Hw as (Hn & _ & Hc). unfold isXRP in Hn, Hc. rewrite Hia in Hn, Hc. unfold issued in Hi.
  rewrite Hi in Hn, Hc. destruct Hc as [[? _]|[Hv Ho]]; [done|]. exact (conj Hv (conj Ho Hn)).
Qed.

Lemma units_lt i a b : issued i -> fine i a -> fine i b -> mValue b <> 0 -> units a < units b ->
  dec_lt (mValue a) (mOffset a) (mValue b) (mOffset b).
Proof.
  intros Hi Ha Hb Hz Hlt. destruct (fine_units i a Ha) as [Hua _], (fine_units i b Hb) as [Hub _]. rewrite Hua, Hub in Hlt.
  destruct (fine_range i b Hi Hb Hz) as (_ & Ho & _). unfold cMinOffset in Ho.
  assert (Hoa : -100 <= mOffset a).
  { destruct Ha as ((_ & _ & Hc) & _ & Hia). unfold isXRP in Hc. rewrite Hia, Hi in Hc. unfold cMinOffset in Hc. lia. }
  rewrite (dec_lt_at (-100)) by lia. by replace (mOffset a - -100) with (mOffset a + 100) by lia;
    replace (mOffset b - -100) with (mOffset b + 100) by lia.
Qed.

Lemma units_le i a b : issued i -> fine i a -> fine i b -> mValue a <> 0 -> mValue b <> 0 ->
  dec_le (mValue a) (mOffset a) (mValue b) (mOffset b) -> units a <= units b.
Proof.
  intros Hi Ha Hb Hza Hzb Hle. destruct (fine_units i a Ha) as [-> _], (fine_units i b Hb) as [-> _].
  destruct (fine_range i a Hi Ha Hza) as (_ & Hoa & _), (fine_range i b Hi Hb Hzb) as (_ & Hob & _). unfold cMinOffset in *.
  rewrite (dec_le_at (-100)) in Hle by lia. by replace (mOffset a - -100) with (mOffset a + 100) in Hle by lia;
    replace (mOffset b - -100) with (mOffset b + 100) in Hle by lia.
Qed.

(** The next call, by its lemma. *)
Ltac use lem := apply wp_bind; eapply wp_mono; [apply lem; eauto | | done].

Section rates.
Context `{L : BNLaws}.

(** The rate of a transfer fee: not zero, and not of the native currency. *)
Definition transfer_rate (r : t) : Prop := exists i, issued i /\ fine i r /\ mValue r <> 0.

Lemma multiply_digits i a r p : issued i -> fine i a -> mValue a <> 0 -> transfer_rate r -> multiply a r i = Ok p -> mValue p <> 0 ->
  fine i p /\ exists v k, 10 ^ 16 <= v /\ v * tenTo14 <= mValue a * mValue r /\ 1 <= k /\
    mOffset p = mOffset a + mOffset r + 14 + k /\ mValue p = (v + 7) / 10 ^ k.
Proof.
  intros Hi Ha Hza (ir & Hir & Hr & Hzr) Hm Hzp. destruct (fine_range i a Hi Ha Hza) as (Hva & _ & Hna).
  destruct (fine_range ir r Hir Hr Hzr) as (Hvr & _ & Hnr). unfold multiply in Hm. rewrite !is_zero_iff in Hm.
  rewrite (proj2 (Z.eqb_neq _ _) Hza), (proj2 (Z.eqb_neq _ _) Hzr), Hna, Hnr in Hm. cbn in Hm.
  pose proof (product_range _ _ 0 Hva Hvr ltac:(done)) as Hq. rewrite Z.add_0_r in Hq.
  edestruct (bn_muldiv_u64 (mValue a) (mValue r) None tenTo14) as (w & Hw & Hv);
    try (unfold word_ok, cMinValue, cMaxValue in *; cbn; rewrite ?Z.add_0_r; done || lia).
  rewrite Hw in Hm. cbn in Hm, Hv. rewrite Z.add_0_r in Hv. rewrite Hv, u64_id in Hm by lia.
  destruct Ha as (_ & Hsa & _), Hr as (_ & Hsr & _). rewrite Hsa, Hsr in Hm. cbn in Hm.
  pose proof (of_issue_quotient i false tenTo14 (mValue a * mValue r) (mOffset a + mOffset r + 14) 7 Hi ltac:(done) ltac:(done)
    ltac:(lia) ltac:(lia)) as Hround. unfold rounds in Hround. rewrite Hm in Hround. destruct Hround as (Hwf & Hip & Hb).
  rewrite (proj2 (Z.eqb_neq _ _) Hzp) in Hb. destruct Hb as (Hn & k & Hk & Ho & Hval). split; [done|].
  exists (mValue a * mValue r / tenTo14), k. split_and!; [lia| |done|done|done]. rewrite Z.mul_comm. by apply Z.mul_div_le.
Qed.

Lemma divide_digits i f r q : issued i -> fine i f -> mValue f <> 0 -> transfer_rate r -> divide f r i = Ok q -> mValue q <> 0 ->
  fine i q /\ exists v k, 10 ^ 16 <= v /\ v * mValue r <= mValue f * tenTo17 /\ 1 <= k /\
    mOffset q = mOffset f - mOffset r - 17 + k /\ mValue q = (v + 5) / 10 ^ k.
Proof.
  intros Hi Hf Hzf (ir & Hir & Hr & Hzr) Hd Hzq. destruct (fine_range i f Hi Hf Hzf) as (Hvf & _ & Hnf).
  destruct (fine_range ir r Hir Hr Hzr) as (Hvr & _ & Hnr). unfold divide in Hd. rewrite !is_zero_iff in Hd.
  rewrite (proj2 (Z.eqb_neq _ _) Hzf), (proj2 (Z.eqb_neq _ _) Hzr), Hnf, Hnr in Hd. cbn [bring_into_range mbind result_bind] in Hd.
  pose proof (quotient_range (mValue f) tenTo17 0 (mValue r) Hvf ltac:(unfold cMinValue in *; lia)
    ltac:(unfold tenTo17, tenTo14; lia) ltac:(unfold tenTo17, tenTo14; lia) Hvr) as Hq. rewrite Z.add_0_r in Hq.
  edestruct (bn_muldiv_u64 (mValue f) tenTo17 None (mValue r)) as (w & Hw & Hv);
    try (unfold word_ok, cMinValue, cMaxValue in *; cbn; rewrite ?Z.add_0_r; done || lia).
  rewrite Hw in Hd. cbn [mbind result_bind default] in Hd, Hv. unfold default, id in Hv. cbn in Hv. rewrite Z.add_0_r in Hv. rewrite Hv, u64_id in Hd by lia.
  destruct Hf as (_ & Hsf & _), Hr as (_ & Hsr & _). rewrite Hsf, Hsr in Hd. cbn [Bool.eqb negb] in Hd.
  pose proof (of_issue_quotient i false (mValue r) (mValue f * tenTo17) (mOffset f - mOffset r - 17) 5 Hi ltac:(unfold cMinValue in *; lia) ltac:(done)
    ltac:(lia) ltac:(lia)) as Hround. unfold rounds in Hround. rewrite Hd in Hround. destruct Hround as (Hwf & Hiq & Hb).
  rewrite (proj2 (Z.eqb_neq _ _) Hzq) in Hb. destruct Hb as (Hn & k & Hk & Ho & Hval). split; [done|].
  exists (mValue f * tenTo17 / mValue r), k. split_and!; [lia| |done|done|done]. rewrite Z.mul_comm. apply Z.mul_div_le. unfold cMinValue in *. lia.
Qed.

(** What an account has, when that is less than an amount with the fee on top,
    buys no more than the amount. *)
Lemma divide_back i a r p f q : issued i -> fine i a -> transfer_rate r -> multiply a r i = Ok p -> fine i f ->
  units f < units p -> fine i q -> divide f r i = Ok q -> units q <= units a.
Proof.
  intros Hi Ha Hr Hm Hf Hlt Hq Hd. pose proof (fine_units i a Ha) as [_ Ha0].
  destruct (decide (mValue q = 0)) as [Hz|Hzq]; [apply (fine_zero i q Hq) in Hz; lia|].
  assert (Hzf : mValue f <> 0).
  { intros Hz. unfold divide in Hd. rewrite !is_zero_iff, Hz in Hd. destruct Hr as (ir & _ & _ & Hzr).
    rewrite (proj2 (Z.eqb_neq _ _) Hzr) in Hd. cbn in Hd. unfold of_issue, canonicalize, isXRP in Hd. cbn in Hd. rewrite Hi in Hd. by injection Hd as <-. }
  destruct (decide (mValue a = 0)) as [Hza|Hza].
  { exfalso. unfold multiply in Hm. rewrite !is_zero_iff, Hza in Hm. cbn in Hm. unfold of_issue, canonicalize, isXRP in Hm. cbn in Hm. rewrite Hi in Hm.
    injection Hm as <-. pose proof (fine_units i f Hf) as [_ ?]. rewrite (zero_units (mk _ 0 _ _ _)) in Hlt by done. lia. }
  assert (Hzp : mValue p <> 0).
  { intros Hz. pose proof (fine_units i f Hf) as [_ ?]. rewrite (zero_units p Hz) in Hlt. lia. }
  destruct (multiply_digits i a r p Hi Ha Hza Hr Hm Hzp) as (Hp & v & k & Hv & Hvx & Hk & Hop & Hvp).
  destruct (divide_digits i f r q Hi Hf Hzf Hr Hd Hzq) as (_ & V & k' & HV & HVx & Hk' & Hoq & Hvq).
  destruct (fine_range i a Hi Ha Hza) as (Hra & _), (fine_range i f Hi Hf Hzf) as (Hrf & _), (fine_range i p Hi Hp Hzp) as (Hrp & _),
    (fine_range i q Hi Hq Hzq) as (Hrq & _).
  assert (Hcut : dec_lt (mValue f) (mOffset f) v (mOffset a + mOffset r + 14)).
  { apply (below_rounded _ _ _ _ (mValue p) k); [done|done| |done|unfold cMinValue in *; lia|].
    - rewrite Hvp. pose proof (pow10_pos k ltac:(lia)). rewrite Z.mul_comm. by apply Z.mul_div_le.
    - rewrite <- Hop. by apply (units_lt i). }
  assert (Hexact : dec_lt V (mOffset f - mOffset r - 17) (mValue a) (mOffset a)).
  { apply (dec_lt_shift _ _ _ _ (mOffset r)). destruct Hr as (ir & Hir & Hr & Hzr). destruct (fine_range ir r Hir Hr Hzr) as (Hvr & _).
    unfold cMinValue in Hvr. apply (dec_lt_mul _ _ _ _ (mValue r)); [lia|].
    apply (dec_le_lt_trans _ _ (mValue f * tenTo17) (mOffset f - 17)).
    { replace (mOffset f - mOffset r - 17 + mOffset r) with (mOffset f - 17) by lia. by apply dec_le_same. }
    change tenTo17 with (10 ^ 17). rewrite dec_lt_scale_l by lia.
    eapply dec_lt_le_trans; [exact Hcut|]. rewrite <- (dec_le_scale_r _ _ _ _ 0) by lia. rewrite Z.pow_0_r, Z.mul_1_r, Z.sub_0_r.
    rewrite (dec_le_at (mOffset a + mOffset r)) by lia. rewrite Z.sub_diag, Z.pow_0_r, Z.mul_1_r.
    replace (mOffset a + mOffset r + 14 - (mOffset a + mOffset r)) with 14 by lia. change (10 ^ 14) with tenTo14. lia. }
  apply (units_le i); [done..|]. rewrite Hoq. apply (rounded_below V _ _ _ _ k'); [done|done| |done|done|done].
  rewrite Hvq. pose proof (pow10_pos k' ltac:(lia)). rewrite Z.mul_comm. by apply Z.mul_div_le.
Qed.

(** ** The operations of the flows *)

Lemma divide_ok num den i : wf num -> wf den -> mIsNegative num = mIsNegative den ->
  wp (divide num den i) (fine i) not_assertion.
Proof.
  intros Hn Hd Hs. assert (Hin : forall r, wf r /\ mIssue r = i /\ mIsNegative r = false -> fine i r) by (intros r (? & ? & ?); by split_and!).
  unfold divide. destruct (is_zero den) eqn:Hzd; [done|].
  destruct (is_zero num) eqn:Hzn; [eapply wp_mono; [by apply of_issue_nonneg|exact Hin|done]|].
  apply wp_bind. eapply wp_mono; [apply bring_into_range_ok; by apply wf_word| |done].
  intros [nv no] Hnv. apply wp_bind. eapply wp_mono; [apply bring_into_range_ok; by apply wf_word| |done].
  intros [dv do'] Hdv. rewrite Hs, Bool.eqb_reflx. apply wp_bind.
  eapply wp_mono; [apply bn_muldiv_ok; done| |done]. intros v Hv.
  eapply wp_mono; [apply of_issue_nonneg, u64_range|exact Hin|done].
Qed.

Lemma multiply_ok v1 v2 i : wf v1 -> wf v2 -> mIsNegative v1 = mIsNegative v2 -> mIsNative v2 = false ->
  wp (multiply v1 v2 i) (fine i) not_assertion.
Proof.
  intros H1 H2 Hs Hnat. assert (Hin : forall r, wf r /\ mIssue r = i /\ mIsNegative r = false -> fine i r) by (intros r (? & ? & ?); by split_and!).
  unfold multiply. rewrite Hnat, andb_false_r. cbn [andb].
  destruct (is_zero v1) eqn:Hz1; [eapply wp_mono; [by apply of_issue_nonneg|exact Hin|done]|].
  destruct (is_zero v2) eqn:Hz2; [eapply wp_mono; [by apply of_issue_nonneg|exact Hin|done]|]. cbn [orb].
  apply wp_bind. eapply wp_mono; [apply bring_into_range_ok; by apply wf_word| |done].
  intros [nv no] Hnv. apply wp_bind. rewrite <- Hnat. eapply wp_mono; [apply bring_into_range_ok; by apply wf_word| |done].
  intros [dv do'] Hdv. rewrite Hs, Bool.eqb_reflx. apply wp_bind.
  eapply wp_mono; [apply bn_muldiv_ok; done| |done]. intros v Hv.
  eapply wp_mono; [apply of_issue_nonneg, u64_range|exact Hin|done].
Qed.

Lemma fine_ltb i a b : fine i a -> fine i b -> STAmount.ltb a b = Ok (units a <? units b).
Proof.
  intros (Ha & _ & Hia) (Hb & _ & Hib). apply (gtb_units b a Hb Ha). apply same_issue_comparable; [done|done|congruence].
Qed.

Lemma min_ok i a b : fine i a -> fine i b -> wp (min_amount a b) (fun r => fine i r /\ units r <= units b) not_assertion.
Proof.
  intros Ha Hb. unfold min_amount. rewrite (fine_ltb i b a Hb Ha). cbn. destruct (Z.ltb_spec (units b) (units a)); (split; [done|lia]).
Qed.

Lemma qual_mul_ok i j amount q output : fine i amount -> 0 <= q < 2 ^ 64 -> fine j output ->
  wp (qual_mul amount q output) (fun r => fine j r /\ units r <= units output) not_assertion.
Proof.
  intros (Hw & Hn & _) Hq Ho. unfold qual_mul. apply wp_bind. eapply wp_mono; [by apply rate_ok| |done]. intros r (Hr & Hir & Hnr).
  pose proof Ho as (_ & _ & Hio). rewrite Hio. apply wp_bind.
  eapply wp_mono; [apply multiply_ok; [done|done|congruence|]| |done].
  { destruct Hr as [-> _]. unfold isXRP. by rewrite Hir. }
  intros x Hx. by apply min_ok.
Qed.

Lemma qual_div_ok i j amount q output : fine i amount -> 0 <= q < 2 ^ 64 -> fine j output ->
  wp (qual_div amount q output) (fun r => fine j r /\ units r <= units output) not_assertion.
Proof.
  intros (Hw & Hn & _) Hq Ho. unfold qual_div. apply wp_bind. eapply wp_mono; [by apply rate_ok| |done]. intros r (Hr & Hir & Hnr).
  pose proof Ho as (_ & _ & Hio). rewrite Hio. apply wp_bind.
  eapply wp_mono; [apply divide_ok; [done|done|congruence]| |done]. intros x Hx. by apply min_ok.
Qed.

(** A rate that is one, or a transfer fee. *)
Definition rate_fine (r : Rate) : Prop := rate_quality r = QUALITY_ONE \/ transfer_rate (rate_ r).

Lemma rate_multiply_ok i r a : issued i -> fine i a -> rate_fine r ->
  wp (rate_multiply r a) (fun p => fine i p /\ rate_multiply r a = Ok p) not_assertion.
Proof.
  intros Hi Ha Hr. unfold rate_multiply. destruct (rate_quality r =? QUALITY_ONE) eqn:Hone; [done|].
  destruct Hr as [Hr|(ir & Hir & Hr & Hz)]; [apply Z.eqb_neq in Hone; done|].
  destruct Ha as (Hw & Hn & Hia). rewrite Hia. destruct (fine_range ir _ Hir Hr Hz) as (_ & _ & Hnat). destruct Hr as (Hwr & Hnr & _).
  pose proof (multiply_ok a (rate_ r) i Hw Hwr ltac:(congruence) Hnat) as Hm. destruct (multiply a (rate_ r) i); done.
Qed.

Lemma rate_divide_ok i r a p f : issued i -> fine i a -> rate_fine r -> rate_multiply r a = Ok p -> fine i p -> fine i f ->
  units f < units p -> wp (rate_divide r f) (fun q => fine i q /\ units q <= units a) not_assertion.
Proof.
  intros Hi Ha Hr Hm Hp Hf Hlt. unfold rate_divide, rate_multiply in *. destruct (rate_quality r =? QUALITY_ONE) eqn:Hone.
  { injection Hm as <-. cbn. split; [done|lia]. }
  destruct Hr as [Hr|Hr]; [apply Z.eqb_neq in Hone; done|]. pose proof Ha as (_ & _ & Hia). pose proof Hf as (Hwf & Hnf & Hif).
  rewrite Hia in Hm. rewrite Hif. pose proof Hr as (ir & Hir & (Hwr & Hnr & _) & _).
  pose proof (divide_ok f (rate_ r) i Hwf Hwr ltac:(congruence)) as Hd. destruct (divide f (rate_ r) i) as [q| |] eqn:Hq; [|done|done].
  cbn in Hd |- *. split; [done|]. by apply (divide_back i a (rate_ r) p f q).
Qed.

(** ** What is left *)

Lemma of_issue_any i m e n : 0 <= m < 2 ^ 64 -> wp (of_issue i m e n) (fun _ => True) not_assertion.
Proof.
  intros Hm. unfold of_issue. eapply wp_mono; [by apply canonicalize_spec|done|]. intros x. simpl. case_if; by intros [-> _].
Qed.

Lemma neg_fine i b : fine i b -> wf (neg b) /\ mIssue (neg b) = i /\ signed (neg b) = - mValue b /\ mOffset (neg b) = mOffset b /\
  is_zero (neg b) = (mValue b =? 0).
Proof.
  intros (Hw & Hn & Hi). rewrite is_zero_iff. unfold neg, unchecked, signed. destruct (mValue b =? 0) eqn:Hz; cbn; rewrite ?Hz, ?Hn; reflect_bools.
  - split_and!; try done. lia.
  - split_and!; try done. destruct Hw as (Hnat & Hzero & Hc). unfold wf, isXRP in *. cbn. split_and!; [done|done|exact Hc].
Qed.

(** What the two shrunk mantissas differ by. *)
Lemma shrunk_difference x oa y ob : 0 <= x -> 0 <= y -> -100 <= oa -> -100 <= ob ->
  y * 10 ^ (ob + 100) <= x * 10 ^ (oa + 100) ->
  y ÷ 10 ^ (Z.max ob (Z.max oa ob) - ob) <= x ÷ 10 ^ (Z.max oa ob - oa).
Proof.
  intros Hx Hy Hoa Hob Hle. pose proof (pow10_pos (oa + 100) ltac:(lia)). pose proof (pow10_pos (ob + 100) ltac:(lia)).
  destruct (decide (oa <= ob)) as [Ho|Ho].
  - rewrite !Z.max_r, Z.sub_diag, Z.pow_0_r, Z.quot_1_r by lia. pose proof (pow10_pos (ob - oa) ltac:(lia)).
    apply Z.quot_le_lower_bound; [done|]. apply (Z.mul_le_mono_pos_r _ _ (10 ^ (oa + 100))); [done|].
    replace (ob + 100) with ((oa + 100) + (ob - oa)) in Hle by lia. rewrite Z.pow_add_r in Hle by lia. lia.
  - rewrite (Z.max_l oa ob), Z.sub_diag, Z.pow_0_r, Z.quot_1_r, Z.max_r by lia. pose proof (pow10_pos (oa - ob) ltac:(lia)).
    apply Z.quot_le_upper_bound; [done|]. apply (Z.mul_le_mono_pos_r _ _ (10 ^ (ob + 100))); [done|].
    replace (oa + 100) with ((ob + 100) + (oa - ob)) in Hle by lia. rewrite (Z.pow_add_r _ (ob + 100)) in Hle by lia. lia.
Qed.

(** What is left of an amount is canonical, and not negative when no more is
    taken than there was. *)
Definition left_over (i : Issue) (a b r : t) : Prop := mIsNegative a = false -> units b <= units a -> fine i r.

Lemma sub_iou i a b : issued i -> wf a -> mIssue a = i -> fine i b -> wp (STAmount.sub a b) (left_over i a b) not_assertion.
Proof.
  intros Hi Ha Hia Hb. destruct (neg_fine i b Hb) as (Hwn & Hin & Hsn & Hon & Hzn). pose proof Hb as (Hwb & _ & _).
  assert (Hxa : isXRP a = false) by (unfold isXRP; by rewrite Hia). assert (Hxb : isXRP b = false) by (unfold isXRP; destruct Hb as (_ & _ & ->); done).
  unfold STAmount.sub, STAmount.add. rewrite (same_issue_comparable a (neg b)) by (done || congruence). cbn [negb throw_if mbind result_bind].
  rewrite Hzn, is_zero_iff. destruct (mValue b =? 0) eqn:Hzb; [by intros ??|]. pose proof (fine_units i b Hb) as [Hub _]. reflect_bools.
  destruct (mValue a =? 0) eqn:Hza; reflect_bools.
  { eapply wp_mono; [apply of_issue_any; pose proof (wf_value _ Hwn); unfold cMaxNativeN in *; lia| |done]. intros r _ _ Hle.
    rewrite (zero_units a Hza) in Hle. pose proof (fine_units i b Hb). pose proof (fine_zero i b Hb). lia. }
  pose proof Ha as (Hnat & _). rewrite Hnat, Hxa, !signed_value_eq by done. rewrite Hon, Hsn, !shrink_to_eq. cbn -[shrink_to i64].
  rewrite !shrink_to_eq. cbn -[i64]. rewrite Z.quot_opp_l by (pose proof (pow10_pos (Z.max (mOffset b) (Z.max (mOffset a) (mOffset b)) - mOffset b)); lia).
  set (q1 := signed a ÷ _). set (q2 := mValue b ÷ _).
  assert (Hq1 : Z.abs q1 <= cMaxNativeN) by (apply quot_signed_bound; [by apply wf_value|lia]).
  assert (Hq2 : Z.abs q2 <= cMaxNativeN).
  { unfold q2. replace (mValue b) with (signed b) by (unfold signed; by rewrite (proj1 (proj2 Hb))). apply quot_signed_bound; [by apply wf_value|lia]. }
  unfold cMaxNativeN in *. rewrite (i64_id (q1 + - q2)) by lia.
  assert (Hpos : mIsNegative a = false -> units b <= units a -> 0 <= q1 + - q2).
  { intros Hn Hle. pose proof (fine_units i a (conj Ha (conj Hn Hia))) as [Hua _]. rewrite Hua, Hub in Hle.
    assert (q2 <= q1); [|lia]. unfold q1, q2, signed. rewrite Hn.
    destruct Ha as (_ & _ & Hca), Hwb as (_ & _ & Hcb). rewrite Hxa in Hca. rewrite Hxb in Hcb. unfold cMinValue, cMinOffset in *.
    apply shrunk_difference; lia. }
  assert (Hmake : forall m e, 0 <= m < 2 ^ 64 -> wp (of_issue (mIssue a) m e false) (left_over i a b) not_assertion).
  { intros m e Hm. eapply wp_mono; [by apply of_issue_nonneg| |done]. intros r (? & ? & ?) _ _. split_and!; [done|done|congruence]. }
  case_if; [by apply Hmake|]. destruct (0 <=? q1 + - q2) eqn:Hsg; reflect_bools; [apply Hmake, u64_range|].
  eapply wp_mono; [apply of_issue_any, u64_range| |done]. intros r _ Hn Hle. specialize (Hpos Hn Hle). lia.
Qed.

(** Whatever is taken, an issued amount stays canonical. *)
Lemma sub_iou_wf i a b r : issued i -> wf a -> mIssue a = i -> fine i b -> STAmount.sub a b = Ok r -> wf r /\ mIssue r = i.
Proof.
  intros Hi Ha <- Hb. destruct (neg_fine _ b Hb) as (Hwn & Hin & _ & _ & _).
  assert (Hmake : forall m e n, 0 <= m < 2 ^ 64 -> of_issue (mIssue a) m e n = Ok r -> wf r /\ mIssue r = mIssue a)
    by (intros m e n; by apply of_issue_wf).
  unfold STAmount.sub, STAmount.add. rewrite (same_issue_comparable a (neg b)) by (done || congruence).
  cbn [negb throw_if mbind result_bind]. case_if; [by intros [= <-]|].
  case_if; [apply Hmake; pose proof (wf_value _ Hwn); unfold cMaxNativeN in *; lia|].
  destruct Ha as (Hnat & _). unfold isXRP in Hnat. rewrite Hnat, Hi, !shrink_to_eq. cbn -[shrink_to i64 u64].
  rewrite !shrink_to_eq. cbn -[i64 u64]. repeat case_if; [by apply Hmake|apply Hmake, u64_range..].
Qed.

Lemma sub_native a b : wf a -> mIssue a = xrpIssue -> fine xrpIssue b -> wp (STAmount.sub a b) (left_over xrpIssue a b) not_assertion.
Proof.
  intros Ha Hia Hb. destruct (neg_fine _ b Hb) as (Hwn & Hin & Hsn & Hon & Hzn). pose proof Hb as (Hwb & _ & Hib).
  assert (Hxa : isXRP a = true) by (unfold isXRP; by rewrite Hia). assert (Hxb : isXRP b = true) by (unfold isXRP; by rewrite Hib).
  pose proof (wf_value a Ha) as Hva. pose proof (wf_value b Hwb) as Hvb. unfold cMaxNativeN in *.
  unfold STAmount.sub, STAmount.add. rewrite (same_issue_comparable a (neg b)) by (done || congruence). cbn [negb throw_if mbind result_bind].
  rewrite Hzn, is_zero_iff. destruct (mValue b =? 0) eqn:Hzb; [by intros ??|]. pose proof (fine_units _ b Hb) as [Hub _]. reflect_bools.
  destruct (mValue a =? 0) eqn:Hza; reflect_bools.
  { eapply wp_mono; [apply of_issue_any; pose proof (wf_value _ Hwn); unfold cMaxNativeN in *; lia| |done]. intros r _ _ Hle.
    rewrite (zero_units a Hza) in Hle. pose proof (fine_units _ b Hb). pose proof (fine_zero _ b Hb). lia. }
  pose proof Ha as (Hna & _ & Hca). pose proof Hwn as (Hnn & _). rewrite Hxa in Hna, Hca. unfold isXRP in Hnn. rewrite Hin in Hnn.
  rewrite Hna, !getSNValue_eq by done. cbn [mbind result_bind]. rewrite Hsn. cbn [wp]. pose proof (signed_abs a ltac:(lia)) as Habs.
  rewrite i64_id by lia. intros Hn Hle. pose proof (fine_units _ a (conj Ha (conj Hn Hia))) as [Hua _]. rewrite Hua, Hub in Hle.
  destruct Hwb as (_ & _ & Hcb). rewrite Hxb in Hcb. destruct Hca as [Hoa _], Hcb as [Hob _]. rewrite Hoa, Hob in Hle.
  unfold signed. rewrite Hn. assert (0 <= mValue a + - mValue b <= 100000000000000000) by lia.
  unfold of_i64, STAmount.set. rewrite (proj2 (Z.ltb_ge _ _)) by lia. cbn. rewrite u64_id by lia.
  split_and!; [|done|done]. unfold wf, isXRP, cMaxNativeN. cbn. split_and!; done || lia.
Qed.

(** Native amounts are of the one native issue. *)
Definition traded (i : Issue) : Prop := issued i \/ i = xrpIssue.

Lemma sub_ok i a b : traded i -> wf a -> mIssue a = i -> fine i b -> wp (STAmount.sub a b) (left_over i a b) not_assertion.
Proof. intros [Hi| ->]; [by apply sub_iou|by apply sub_native]. Qed.

(** ** The flows *)

(** A clamp: the state stays, or a smaller one is computed. *)
Lemma clamp {S} (cond : result bool) b (new : result S) (s0 : S) (rest : S -> result Flow) (R : S -> Prop) Q :
  cond = Ok b -> (b = true -> wp new R not_assertion) -> (b = false -> R s0) -> (forall s, R s -> wp (rest s) Q not_assertion) ->
  wp (c ← cond; s ← (if c : bool then new else Ok s0); rest s) Q not_assertion.
Proof.
  intros -> Ht Hf Hrest. apply wp_bind. cbn. apply wp_bind. eapply (wp_mono _ R _ not_assertion); [|exact Hrest|done]. destruct b; [by apply Ht|by apply Hf].
Qed.

(** The order between two clamps: canonical amounts, at most so much in and out. *)
Definition order_fine (ii io : Issue) (I O : Z) (oin oout : t) : Prop :=
  fine ii oin /\ fine io oout /\ units oin <= I /\ units oout <= O.

Definition state_out (ii io : Issue) (I O : Z) (s : t * t * t) : Prop :=
  let '(oin, oout, iout) := s in order_fine ii io I O oin oout /\ fine io iout.

(** The input with the fee on top belongs to the input. *)
Definition state_in (ii io : Issue) (r : Rate) (I O : Z) (s : t * t * t) : Prop :=
  let '(oin, oout, iin) := s in order_fine ii io I O oin oout /\ fine ii iin /\ rate_multiply r oin = Ok iin.

Definition state_both (ii io : Issue) (r : Rate) (I O : Z) (s : t * t * t * t) : Prop :=
  let '(oin, oout, iin, iout) := s in order_fine ii io I O oin oout /\ fine ii iin /\ fine io iout /\ rate_multiply r oin = Ok iin.

(** What the taker still offers and wants: a seller may have got more than he
    asked for. *)
Definition takes_in (k : Taker) (ii : Issue) : Prop := fine ii (in_ (remaining_ k)).

Definition takes_out (k : Taker) (io : Issue) : Prop :=
  wf (out (remaining_ k)) /\ mIssue (out (remaining_ k)) = io /\ (sell_ k = false -> mIsNegative (out (remaining_ k)) = false).

(** What a flow is allowed to be: canonical amounts, no more than the offer has. *)
Record flow_ok (ii io : Issue) (offer : Amounts) (f : Flow) : Prop := {
  w_order : order_fine ii io (units (in_ offer)) (units (out offer)) (in_ (order f)) (out (order f));
  w_iin : exists i, fine i (in_ (issuers f)); w_iout : exists i, fine i (out (issuers f)) }.

(** No more than the taker offers, no more than a buyer wants. *)
Definition in_offered (k : Taker) (f : Flow) : Prop := units (in_ (order f)) <= units (in_ (remaining_ k)).
Definition out_wanted (k : Taker) (f : Flow) : Prop := sell_ k = false -> units (out (order f)) <= units (out (remaining_ k)).

Lemma none_fine : fine xrpIssue none.
Proof. by apply (bool_decide_unpack _). Qed.

(** The clamp on what a buyer wants, and the bound it leaves. *)
Definition too_much (k : Taker) (x : t) : bool := negb (sell_ k) && (units (out (remaining_ k)) <? units x).
Definition most (k : Taker) (O : Z) : Z := if sell_ k then O else Z.min O (units (out (remaining_ k))).

Lemma takes_wanted k io x : takes_out k io -> fine io x ->
  (if sell_ k then Ok false else STAmount.ltb (out (remaining_ k)) x) = Ok (too_much k x).
Proof.
  intros (Hw & Hi & Hb) Hx. unfold too_much. destruct (sell_ k); [done|]. apply (fine_ltb io); [|done]. by split_and!; [|apply Hb|].
Qed.

Lemma wanted_fine k io x : takes_out k io -> too_much k x = true -> fine io (out (remaining_ k)).
Proof. unfold too_much. intros (? & ? & Hn) Hb. destruct (sell_ k); [done|]. split_and!; auto. Qed.

Lemma wanted_most k x O : units x <= O -> too_much k x = false -> units x <= most k O.
Proof. unfold too_much, most. intros Hle Hb. destruct (sell_ k); [done|]. cbn in Hb. reflect_bools. lia. Qed.

Lemma most_wanted k x O : units x <= O -> too_much k x = true -> units (out (remaining_ k)) <= most k O.
Proof. unfold too_much, most. intros Hle Hb. destruct (sell_ k); [done|]. cbn in Hb. reflect_bools. lia. Qed.

Lemma most_le k O : most k O <= O /\ (sell_ k = false -> most k O <= units (out (remaining_ k))).
Proof. unfold most. destruct (sell_ k); split; [lia|done|lia|lia]. Qed.

Lemma most_flow k ii io O I' oin oout iin iout i i' offer : order_fine ii io I' (most k O) oin oout -> fine i iin -> fine i' iout ->
  I' <= units (in_ offer) -> O = units (out offer) ->
  flow_ok ii io offer (mkFlow (mkAmounts oin oout) (mkAmounts iin iout)) /\ out_wanted k (mkFlow (mkAmounts oin oout) (mkAmounts iin iout)).
Proof.
  intros (H1 & H2 & Hi & Ho) ?? HI ->. destruct (most_le k (units (out offer))) as [Hm Hw].
  split; [split; cbn; [unfold order_fine; split_and!; done || lia|eauto..]|]. intros Hs. specialize (Hw Hs). cbn. lia.
Qed.

Ltac ordered := unfold state_out, state_in, state_both, order_fine; cbn [fst snd]; split_and!; try done; try lia.

Section flows.
Context (k : Taker) (ii io : Issue) (offer : Amounts) (quality : Z) (owner_funds taker_funds : t).
Context (Hq : 0 <= quality < 2 ^ 64).
Context (Hin : fine ii (in_ offer)) (Hout : fine io (out offer)) (Hof : fine io owner_funds) (Htf : fine ii taker_funds).

Lemma flow_xrp_to_iou_ok r : issued io -> rate_fine r -> takes_out k io -> (cross_type_ k = XrpToIou -> takes_in k ii) ->
  wp (flow_xrp_to_iou k offer quality owner_funds taker_funds r)
    (fun f => (flow_ok ii io offer f /\ out_wanted k f) /\ units (in_ (order f)) <= units taker_funds /\
       (cross_type_ k = XrpToIou -> in_offered k f)) not_assertion.
Proof.
  intros Hio Hr Hko Hki. unfold flow_xrp_to_iou. use (rate_multiply_ok io). intros iout [Hfi Hmul].
  eapply (clamp _ _ _ _ _ (state_out ii io (units (in_ offer)) (units (out offer)))); [by apply (fine_ltb io)|..].
  { intros Hlt. reflect_bools. use (rate_divide_ok io r (out offer) iout owner_funds). intros o [Ho Hle].
    use (qual_mul_ok io ii). intros i [Hi Hle2]. by ordered. }
  { intros _. by ordered. }
  intros [[oin1 oout1] iout1] ((H1 & H2 & Hi1 & Ho1) & H3).
  eapply (clamp _ _ _ _ _ (state_out ii io (units (in_ offer)) (most k (units (out offer))))); [by apply (takes_wanted k io)|..].
  { intros Hb. pose proof (wanted_fine k io _ Hko Hb). use (qual_mul_ok io ii). intros i [Hi Hle2]. use (rate_multiply_ok io). intros o [Ho _].
    ordered. by eapply most_wanted. }
  { intros Hb. ordered. by apply wanted_most. }
  clear H1 H2 Hi1 Ho1 H3. intros [[oin2 oout2] iout2] ((H1 & H2 & Hi1 & Ho1) & H3).
  eapply (clamp _ _ _ _ _ (state_out ii io (units (in_ offer) `min` units taker_funds) (most k (units (out offer))))); [by apply (fine_ltb ii)|..].
  { intros Hb. reflect_bools. use (qual_div_ok ii io). intros o [Ho Hle]. use (rate_multiply_ok io). intros p [Hp _]. ordered. }
  { intros Hb. reflect_bools. ordered. }
  clear H1 H2 Hi1 Ho1 H3. intros [[oin3 oout3] iout3] ((H1 & H2 & Hi1 & Ho1) & H3).
  eapply (clamp _ (bool_decide (cross_type_ k = XrpToIou) && (units (in_ (remaining_ k)) <? units oin3)) _ _ _
    (fun s => state_out ii io (units (in_ offer) `min` units taker_funds) (most k (units (out offer))) s /\
      (cross_type_ k = XrpToIou -> units s.1.1 <= units (in_ (remaining_ k))))).
  { case_bool_decide; [apply (fine_ltb ii); [by apply Hki|done]|done]. }
  { intros Hb. reflect_bools. assert (fine ii (in_ (remaining_ k))) by (apply Hki; by case_bool_decide).
    use (qual_div_ok ii io). intros o [Ho Hle]. use (rate_multiply_ok io). intros p [Hp _]. ordered. }
  { intros Hb. split; [by ordered|]. intros Hx. cbn. rewrite bool_decide_true in Hb by done. cbn in Hb. reflect_bools. lia. }
  intros [[oin4 oout4] iout4] ((G & G3) & Gx). pose proof G as (_ & _ & Gi & _). cbn in Gx |- *.
  split; [eapply (most_flow k); eauto using none_fine; lia|split; [cbn; lia|done]].
Qed.

Lemma flow_iou_to_xrp_ok r : issued ii -> rate_fine r -> takes_in k ii -> (cross_type_ k = IouToXrp -> takes_out k io) ->
  wp (flow_iou_to_xrp k offer quality owner_funds taker_funds r)
    (fun f => flow_ok ii io offer f /\ (cross_type_ k = IouToXrp -> out_wanted k f) /\
       units (in_ (issuers f)) <= units taker_funds /\ in_offered k f) not_assertion.
Proof.
  intros Hii Hr Hki Hko. unfold flow_iou_to_xrp. use (rate_multiply_ok ii). intros iin [Hfi Hmul].
  eapply (clamp _ _ _ _ _ (state_in ii io r (units (in_ offer)) (units (out offer)))); [by apply (fine_ltb io)|..].
  { intros Hlt. reflect_bools. use (qual_mul_ok io ii). intros i [Hi Hle2]. use (rate_multiply_ok ii). intros p [Hp Hpm]. ordered. }
  { intros _. by ordered. }
  intros [[oin1 oout1] iin1] ((H1 & H2 & Hi1 & Ho1) & H3 & H4).
  set (direct := bool_decide (cross_type_ k = IouToXrp)). set (O2 := if direct then most k (units (out offer)) else units (out offer)).
  eapply (clamp _ (direct && too_much k oout1) _ _ _ (state_in ii io r (units (in_ offer)) O2)).
  { unfold direct. case_bool_decide as Hx; [|by rewrite andb_false_r]. rewrite andb_true_r. cbn [andb].
    etransitivity; [|apply (takes_wanted k io); auto]. by destruct (sell_ k). }
  { intros Hb. reflect_bools. assert (Hx : direct = true) by done. unfold O2. rewrite Hx. unfold direct in Hx. apply bool_decide_eq_true in Hx.
    pose proof (wanted_fine k io oout1 (Hko Hx) ltac:(done)). use (qual_mul_ok io ii). intros i [Hi Hle2]. use (rate_multiply_ok ii). intros p [Hp Hpm].
    ordered. by eapply most_wanted. }
  { intros Hb. ordered. unfold O2. destruct direct; [by apply wanted_most|done]. }
  clear H1 H2 Hi1 Ho1 H3 H4. intros [[oin2 oout2] iin2] ((H1 & H2 & Hi1 & Ho1) & H3 & H4).
  eapply (clamp _ _ _ _ _ (state_in ii io r (units (in_ offer) `min` units (in_ (remaining_ k))) O2)); [by apply (fine_ltb ii)|..].
  { intros Hb. reflect_bools. use (rate_multiply_ok ii). intros p [Hp Hpm]. use (qual_div_ok ii io). intros o [Ho Hle]. ordered. }
  { intros Hb. reflect_bools. ordered. }
  clear H1 H2 Hi1 Ho1 H3 H4. intros [[oin3 oout3] iin3] ((H1 & H2 & Hi1 & Ho1) & H3 & H4).
  eapply (clamp _ _ _ _ _ (fun '(oin, oout, iin) => order_fine ii io (units (in_ offer) `min` units (in_ (remaining_ k))) O2 oin oout /\
    fine ii iin /\ units iin <= units taker_funds)); [by apply (fine_ltb ii)|..].
  { intros Hb. reflect_bools. use (rate_divide_ok ii r oin3 iin3 taker_funds). intros i [Hi Hle]. use (qual_div_ok ii io). intros o [Ho Hle2]. ordered. }
  { intros Hb. reflect_bools. ordered. }
  intros [[oin4 oout4] iin4] ((G1 & G2 & Gi & Go) & G3 & G4). pose proof (most_le k (units (out offer))) as [Hm Hw]. cbn. unfold O2, direct in Go.
  split_and!; [split; cbn; [ordered; case_bool_decide; lia|by exists ii|exists xrpIssue; by apply none_fine]| |done|unfold in_offered; cbn; lia].
  intros Hx Hs. cbn. rewrite bool_decide_true in Go by done. specialize (Hw Hs). lia.
Qed.

Lemma flow_iou_to_iou_ok r1 r2 : issued ii -> issued io -> rate_fine r1 -> rate_fine r2 -> takes_in k ii -> takes_out k io ->
  wp (flow_iou_to_iou k offer quality owner_funds taker_funds r1 r2)
    (fun f => (flow_ok ii io offer f /\ out_wanted k f) /\ units (in_ (issuers f)) <= units taker_funds /\ in_offered k f) not_assertion.
Proof.
  intros Hii Hio Hr1 Hr2 Hki Hko. unfold flow_iou_to_iou. use (rate_multiply_ok ii). intros iin [Hfi Hmul]. use (rate_multiply_ok io). intros iout [Hfo Hmo].
  eapply (clamp _ _ _ _ _ (state_both ii io r1 (units (in_ offer)) (units (out offer)))); [by apply (fine_ltb io)|..].
  { intros Hlt. reflect_bools. use (rate_divide_ok io r2 (out offer) iout owner_funds). intros o [Ho Hle].
    use (qual_mul_ok io ii). intros i [Hi Hle2]. use (rate_multiply_ok ii). intros p [Hp Hpm]. ordered. }
  { intros _. by ordered. }
  intros [[[oin1 oout1] iin1] iout1] ((H1 & H2 & Hi1 & Ho1) & H3 & H4 & H5).
  eapply (clamp _ _ _ _ _ (state_both ii io r1 (units (in_ offer)) (most k (units (out offer))))); [by apply (takes_wanted k io)|..].
  { intros Hb. pose proof (wanted_fine k io _ Hko Hb). use (qual_mul_ok io ii). intros i [Hi Hle2]. use (rate_multiply_ok io). intros o [Ho _].
    use (rate_multiply_ok ii). intros p [Hp Hpm]. ordered. by eapply most_wanted. }
  { intros Hb. ordered. by apply wanted_most. }
  clear H1 H2 Hi1 Ho1 H3 H4 H5. intros [[[oin2 oout2] iin2] iout2] ((H1 & H2 & Hi1 & Ho1) & H3 & H4 & H5).
  eapply (clamp _ _ _ _ _ (state_both ii io r1 (units (in_ offer) `min` units (in_ (remaining_ k))) (most k (units (out offer)))));
    [by apply (fine_ltb ii)|..].
  { intros Hb. reflect_bools. use (rate_multiply_ok ii). intros p [Hp Hpm]. use (qual_div_ok ii io). intros o [Ho Hle].
    use (rate_multiply_ok io). intros x [Hx _]. ordered. }
  { intros Hb. reflect_bools. ordered. }
  clear H1 H2 Hi1 Ho1 H3 H4 H5. intros [[[oin3 oout3] iin3] iout3] ((H1 & H2 & Hi1 & Ho1) & H3 & H4 & H5).
  eapply (clamp _ _ _ _ _ (fun '(oin, oout, iin, iout) => order_fine ii io (units (in_ offer) `min` units (in_ (remaining_ k))) (most k (units (out offer))) oin oout /\
    fine ii iin /\ fine io iout /\ units iin <= units taker_funds)); [by apply (fine_ltb ii)|..].
  { intros Hb. reflect_bools. use (rate_divide_ok ii r1 oin3 iin3 taker_funds). intros i [Hi Hle]. use (qual_div_ok ii io). intros o [Ho Hle2].
    use (rate_multiply_ok io). intros x [Hx _]. ordered. }
  { intros Hb. reflect_bools. ordered. }
  intros [[[oin4 oout4] iin4] iout4] (G & G3 & G4 & G5). pose proof G as (_ & _ & Gi & _).
  split; [eapply (most_flow k); eauto; lia|split; [done|unfold in_offered; cbn; lia]].
Qed.

End flows.

End rates.

End TakerFlow.
