(* ===== verification/TakerCross.v ===== *)
(** * Crossing takes no more than there is

    The theorems on the two [do_cross] of [BasicTaker]: crossing an offer, or two
    offers bridged by the native currency, ends without a failed assertion, takes
    no more than the offers have, than the taker offers and, when buying, wants,
    and leaves the taker ready for the next offer. *)

From stdpp Require Import base tactics numbers list strings option.
From S2P Require Import Prelude Decimal IOUAmount BigNum Serializer STAmount AmountArith Quality.
From S2P Require Import TrustLines TxFlags BasicTaker TakerFlow.

Module TakerCross.
Import STAmount AmountArith Quality BasicTaker TakerFlow.

(** The kind of crossing, for the two issues. *)
Definition crossing (c : CrossType) (ii io : Issue) : Prop :=
  match c with
  | XrpToIou => ii = xrpIssue /\ issued io
  | IouToXrp => issued ii /\ io = xrpIssue
  | IouToIou => issued ii /\ issued io
  end.

(** A taker that can cross. *)
Record ready (k : Taker) (ii io : Issue) : Prop := {
  r_cross : crossing (cross_type_ k) ii io;
  r_in : takes_in k ii; r_out : takes_out k io;
  r_rates : 0 < m_rate_in k < 2 ^ 32 /\ 0 < m_rate_out k < 2 ^ 32 }.

(** What the taker pays: the fee of an issuer is on top. *)
Definition paid (k : Taker) (f : Flow) : t :=
  if bool_decide (cross_type_ k = XrpToIou) then in_ (order f) else in_ (issuers f).

Section cross.
Context `{L : BNLaws}.

Lemma make_rate_ok q : 0 < q < 2 ^ 32 -> wp (make_rate q) rate_fine not_assertion.
Proof.
  intros Hq. unfold make_rate. rewrite (proj2 (Z.eqb_neq q 0)) by lia. cbn [negb assert_ throw_if mbind result_bind]. unfold amountFromRate. apply wp_bind.
  eapply wp_mono; [apply of_issue_fit; [done|lia]| |intros x [-> _]; discriminate]. intros r (Hw & Hi & Hn & Hfit). cbn. right.
  exists noIssue. destruct (mValue r =? 0) eqn:Hz; reflect_bools; [|split_and!; [done|split_and!; auto|done]]. exfalso.
  unfold cMinValue, cMinOffset in Hfit. rewrite (dec_lt_at (-96)) in Hfit by lia. cbn in Hfit. lia.
Qed.

Lemma effective_rate_ok q i from to : 0 < q < 2 ^ 32 -> wp (effective_rate q i from to) rate_fine not_assertion.
Proof.
  intros Hq. unfold effective_rate. rewrite (proj2 (Z.eqb_neq q 0)) by lia. cbn [negb assert_ throw_if mbind result_bind].
  case_if; by apply make_rate_ok.
Qed.

Lemma fine_signum i a : fine i a -> 0 <= signum a.
Proof. intros (_ & Hn & _). unfold signum. rewrite Hn. by case_if. Qed.

Lemma flow_sane ii io offer f : ~ (isXRP_id (currency ii) = true /\ isXRP_id (currency io) = true) -> flow_ok ii io offer f -> sanity_check f = true.
Proof.
  intros Hx [(Hi & Ho & _) [j Hj] [l Hl]]. unfold sanity_check. repeat (apply andb_true_iff; split); try by (apply Z.leb_le; eapply fine_signum).
  destruct Hi as (_ & _ & Hi), Ho as (_ & _ & Ho). unfold isXRP. rewrite Hi, Ho.
  destruct (isXRP_id (currency ii)), (isXRP_id (currency io)); try done. by destruct Hx.
Qed.

Lemma crossing_not_native c ii io : crossing c ii io -> ~ (isXRP_id (currency ii) = true /\ isXRP_id (currency io) = true).
Proof. unfold crossing, issued. destruct c; intros [H1 H2] [? ?]; congruence. Qed.

Lemma crossing_traded c ii io : crossing c ii io -> traded ii /\ traded io.
Proof. unfold crossing, traded. destruct c; intros [? ?]; auto. Qed.

(** What is left for the next offer: a buyer can cross it, and a seller who gets an
    issued currency and may have got more than he asked for. *)
Definition leaves (k : Taker) (ii io : Issue) (xi xo : t) (k' : Taker) : Prop :=
  exists i o, STAmount.sub (in_ (remaining_ k)) xi = Ok i /\ STAmount.sub (out (remaining_ k)) xo = Ok o /\
    k' = set_remaining (mkAmounts i o) k /\ fine ii i /\
    (sell_ k = false \/ issued io -> ready k' ii io).

Lemma remaining_ok {X} k ii io xi xo (rest : t -> t -> result X) Q : ready k ii io -> fine ii xi -> fine io xo ->
  units xi <= units (in_ (remaining_ k)) -> (sell_ k = false -> units xo <= units (out (remaining_ k))) ->
  (forall o i, fine ii i -> leaves k ii io xi xo (set_remaining (mkAmounts i o) k) -> wp (rest o i) Q not_assertion) ->
  wp (o ← STAmount.sub (out (remaining_ k)) xo; i ← STAmount.sub (in_ (remaining_ k)) xi; rest o i) Q not_assertion.
Proof.
  intros [Hc Hki (Hwo & Hio & Hno) Hr] Hfi Hfo Hoff Hwant Hrest. destruct (crossing_traded _ _ _ Hc) as [Hti Hto]. pose proof Hki as (Hwi & Hni & Hii).
  pose proof (sub_ok io _ xo Hto Hwo Hio Hfo) as Ho. pose proof (sub_ok ii _ xi Hti Hwi Hii Hfi) as Hi.
  destruct (STAmount.sub (out (remaining_ k)) xo) as [o| |] eqn:Eo; [|done|done].
  destruct (STAmount.sub (in_ (remaining_ k)) xi) as [i| |] eqn:Ei; [|done|done]. cbn in Ho, Hi |- *. specialize (Hi Hni Hoff).
  apply Hrest; [done|]. exists i, o. split_and!; [done..|]. intros Hs.
  destruct (sell_ k) eqn:Hsell; [destruct Hs as [?|Hs]; [done|]|by destruct (Ho (Hno eq_refl) (Hwant eq_refl)) as (? & ? & ?); split].
  destruct (sub_iou_wf io _ xo o Hs Hwo Hio Hfo Eo). split; [done..| |done]. split_and!; [done|done|]. cbn. by rewrite Hsell.
Qed.

Context (get_funds : Z -> t -> result t).

(** C11: crossing takes no more than there is.  When the taker and the owner of
    the offer have funds of the issues that are traded and the taker is not done,
    crossing the offer ends in a value or an arithmetical exception and never in a
    failed assertion, whatever the rounding of products and quotients does.  The
    flow is canonical and within the offer on both sides; it is within what the
    taker still offers and, when he buys, wants; what he pays, an issuer's fee on
    top, is within his funds; and what is left is the difference, with which a
    buyer is ready for the next offer, and so is a seller if what he gets is an
    issued currency. *)
Theorem do_cross_within k ii io offer quality owner owner_funds taker_funds : ready k ii io -> 0 <= quality < 2 ^ 64 ->
  fine ii (in_ offer) -> fine io (out offer) -> done get_funds k = Ok false ->
  get_funds owner (out offer) = Ok owner_funds -> fine io owner_funds ->
  get_funds (account_ k) (in_ offer) = Ok taker_funds -> fine ii taker_funds ->
  wp (do_cross get_funds k offer quality owner)
    (fun '(f, k') => flow_ok ii io offer f /\ in_offered k f /\ out_wanted k f /\ units (paid k f) <= units taker_funds /\
       leaves k ii io (in_ (order f)) (out (order f)) k') not_assertion.
Proof.
  intros Hr Hq Hin Hout Hd Hgo Hof Hgt Htf. pose proof Hr as [Hc Hki Hko [Hri Hro]].
  unfold do_cross. rewrite Hd, Hgo, Hgt. cbn [negb assert_ throw_if mbind result_bind].
  apply wp_bind. eapply (wp_mono _ (fun f => (flow_ok ii io offer f /\ out_wanted k f) /\ units (paid k f) <= units taker_funds /\ in_offered k f) _ not_assertion);
    [|intros f ((Hf & Hw) & Hp & Hi)|done].
  - unfold in_rate, out_rate, paid. destruct (cross_type_ k) eqn:Hct; destruct Hc as [Hii Hio].
    + use effective_rate_ok. intros r Hrf. eapply wp_mono; [by apply (flow_xrp_to_iou_ok k ii io)| |done].
      intros f ((?&?)&?&?). rewrite bool_decide_true by done. split_and!; auto.
    + use effective_rate_ok. intros r Hrf. eapply wp_mono; [by apply (flow_iou_to_xrp_ok k ii io)| |done].
      intros f (?&?&?&?). rewrite bool_decide_false by done. split_and!; auto.
    + use effective_rate_ok. intros r Hrf. use effective_rate_ok. intros r2 Hrf2.
      eapply wp_mono; [by apply (flow_iou_to_iou_ok k ii io)| |done]. intros f ((?&?)&?&?). rewrite bool_decide_false by done. split_and!; auto.
  - rewrite (flow_sane ii io offer f) by (done || by apply (crossing_not_native (cross_type_ k))). cbn [negb throw_if mbind result_bind].
    pose proof (w_order _ _ _ _ Hf) as (Hfi & Hfo & _). apply (remaining_ok k ii io); [done..|]. intros o i Hfine Hl.
    rewrite (proj2 (Z.leb_le 0 (signum i))) by (by eapply fine_signum). by split_and!.
Qed.

(** ** The bridge *)

Lemma max_ok i a b : fine i a -> fine i b -> wp (max_amount a b) (fine i) not_assertion.
Proof. intros Ha Hb. unfold max_amount. rewrite (fine_ltb i a b Ha Hb). cbn. by case_if. Qed.

Lemma max_if_ok i (c : bool) a b x : fine i a -> fine i b -> fine i x -> wp (if c then max_amount a b else Ok x) (fine i) not_assertion.
Proof. intros. destruct c; [by apply max_ok|done]. Qed.

Lemma native_fine a : fine xrpIssue a -> mIsNative a = true.
Proof. intros ((-> & _) & _ & Hi). unfold isXRP. by rewrite Hi. Qed.

Lemma issued_fine i a : issued i -> fine i a -> mIsNative a = false.
Proof. intros Hi ((-> & _) & _ & Ha). unfold isXRP. by rewrite Ha. Qed.

Lemma native_eqb a b : fine xrpIssue a -> fine xrpIssue b -> units a = units b -> STAmount.eqb a b = true.
Proof.
  intros Ha Hb. destruct (fine_units _ a Ha) as [-> _], (fine_units _ b Hb) as [-> _].
  destruct Ha as (Hwa & Hna & Hia), Hb as (Hwb & Hnb & Hib). unfold STAmount.eqb. rewrite same_issue_comparable by (done || congruence).
  destruct Hwa as (_ & _ & Hca), Hwb as (_ & _ & Hcb). unfold isXRP in Hca, Hcb. rewrite Hia in Hca. rewrite Hib in Hcb.
  destruct Hca as [-> _], Hcb as [-> _]. intros Hv. rewrite Hna, Hnb. cbn. apply Z.eqb_eq. lia.
Qed.

(** The flows of both legs, and that they carry the same native amount. *)
Record bridged (k : Taker) (ii io : Issue) (offer1 offer2 : Amounts) (f1 f2 : Flow) : Prop := {
  b_first : flow_ok ii xrpIssue offer1 f1; b_second : flow_ok xrpIssue io offer2 f2;
  b_offered : in_offered k f1; b_wanted : out_wanted k f2 }.

Definition balanced (f1 f2 : Flow) : Prop := STAmount.eqb (out (order f1)) (in_ (order f2)) = true.

Lemma balance_ok k ii io offer1 offer2 f1 f2 q1 q2 r1 r2 : issued ii -> issued io -> 0 <= q1 < 2 ^ 64 -> 0 <= q2 < 2 ^ 64 ->
  rate_fine r1 -> rate_fine r2 -> bridged k ii io offer1 offer2 f1 f2 ->
  wp (balance f1 f2 q1 q2 r1 r2) (fun '(g1, g2) => bridged k ii io offer1 offer2 g1 g2 /\ balanced g1 g2) not_assertion.
Proof.
  intros Hii Hio Hq1 Hq2 Hr1 Hr2 [[(H1 & H2 & H3 & H4) Hi1 Ho1] [(G1 & G2 & G3 & G4) Hi2 Ho2] Hoff Hwant].
  unfold balance. rewrite (fine_ltb xrpIssue) by done. unfold STAmount.gtb. rewrite (fine_ltb xrpIssue) by done. cbn [mbind result_bind].
  destruct (Z.ltb_spec (units (out (order f1))) (units (in_ (order f2)))) as [Hlt|Hge].
  { use (qual_div_ok xrpIssue io). intros oo [Hoo Hle]. use (rate_multiply_ok io). intros iout [Hio2 _]. cbn.
    split; [|by apply eqb_refl]. split; [by split|split; cbn; [unfold order_fine; split_and!; done || lia|done|by exists io]|done|].
    intros Hs. specialize (Hwant Hs). cbn. lia. }
  destruct (Z.ltb_spec (units (in_ (order f2))) (units (out (order f1)))) as [Hgt|Hle].
  { use (qual_mul_ok xrpIssue ii). intros oi [Hoi Hle]. use (rate_multiply_ok ii). intros iin [Hii2 _]. cbn.
    split; [|by apply eqb_refl]. split; [split; cbn; [unfold order_fine; split_and!; done || lia|by exists ii|done]|by split| |done].
    unfold in_offered in *. cbn. lia. }
  cbn. split; [by split|]. apply native_eqb; [done|done|lia].
Qed.

(** Crossing two offers bridged by the native currency: both legs are within
    their offers, they carry the same native amount, and the taker gives and gets
    no more than he offers and, when buying, wants. *)
Theorem do_cross_bridge_within k ii io offer1 quality1 owner1 offer2 quality2 owner2 in_funds out_funds xrp_funds :
  ready k ii io -> cross_type_ k = IouToIou -> 0 <= quality1 < 2 ^ 64 -> 0 <= quality2 < 2 ^ 64 ->
  fine ii (in_ offer1) -> fine xrpIssue (out offer1) -> fine xrpIssue (in_ offer2) -> fine io (out offer2) -> done get_funds k = Ok false ->
  get_funds (account_ k) (in_ offer1) = Ok in_funds -> fine ii in_funds ->
  get_funds owner2 (out offer2) = Ok out_funds -> fine io out_funds ->
  get_funds owner1 (out offer1) = Ok xrp_funds -> fine xrpIssue xrp_funds ->
  wp (do_cross_bridge get_funds k offer1 quality1 owner1 offer2 quality2 owner2)
    (fun '(f1, f2, k') => bridged k ii io offer1 offer2 f1 f2 /\ balanced f1 f2 /\
       leaves k ii io (in_ (order f1)) (out (order f2)) k') not_assertion.
Proof.
  intros Hr Hct Hq1 Hq2 Hi1 Ho1 Hi2 Ho2 Hd Hg1 Hf1 Hg2 Hf2 Hgx Hfx. pose proof Hr as [Hc Hki Hko [Hri Hro]]. rewrite Hct in Hc. destruct Hc as [Hii Hio].
  unfold do_cross_bridge. rewrite Hd, (issued_fine ii (in_ offer1)), (native_fine (out offer1)), (native_fine (in_ offer2)), (issued_fine io (out offer2)) by done.
  cbn [negb assert_ throw_if mbind result_bind]. rewrite Hg1. cbn [mbind result_bind]. use (max_if_ok ii). intros lf1 Hlf1.
  rewrite Hg2. cbn [mbind result_bind]. use (max_if_ok io). intros lf2 Hlf2. rewrite Hgx. cbn [mbind result_bind]. use (max_if_ok xrpIssue). intros xf Hxf.
  unfold in_rate, out_rate. use effective_rate_ok. intros r1 Hr1. use effective_rate_ok. intros r2 Hr2.
  apply wp_bind. eapply wp_mono; [apply (flow_iou_to_xrp_ok k ii xrpIssue); try done; congruence| |done]. intros f1 (Hok1 & _ & _ & Hoff).
  rewrite (flow_sane ii xrpIssue offer1 f1) by (done || unfold issued in *; intros [? ?]; congruence). cbn [negb throw_if mbind result_bind].
  apply wp_bind. eapply wp_mono; [apply (flow_xrp_to_iou_ok k xrpIssue io); try done; congruence| |done]. intros f2 ((Hok2 & Hwant) & _).
  rewrite (flow_sane xrpIssue io offer2 f2) by (done || unfold issued in *; intros [? ?]; congruence). cbn [negb throw_if mbind result_bind].
  assert (Hb : bridged k ii io offer1 offer2 f1 f2) by by split. use (balance_ok k ii io offer1 offer2). intros [g1 g2] (Hg & Hbal).
  unfold balanced in Hbal. rewrite Hbal. cbn [negb throw_if mbind result_bind]. pose proof Hg as [[(Hgi & _) _ _] [(_ & Hgo & _) _ _] Hgoff Hgwant].
  apply (remaining_ok k ii io); [done..|]. intros o i _ Hl. by split_and!.
Qed.

End cross.

(** ** The theorems at concrete offers *)

(** A buyer of 1000 of one currency for 3000 of another, whose issuers take one
    part in 100 and one in 500 on transfers. *)
Definition eur : Issue := mkIssue 5 50.
Definition aud : Issue := mkIssue 6 60.
Definition iou_of (i : Issue) (n : Z) : t := mk i (n * 1000000000000) (-12) false false.
Definition drops_of (n : Z) : t := mk xrpIssue n 0 true false.

Definition buyer : Taker :=
  mkTaker 1 par par false (mkAmounts (iou_of eur 3000) (iou_of aud 1000)) (mkAmounts (iou_of eur 3000) (iou_of aud 1000)) 1002000000 1010000000 IouToIou.

Definition some_funds (account : Z) (x : t) : result t :=
  Ok (if mIsNative x then drops_of 700 else iou_of (mIssue x) (if account =? 1 then 2500 else 1500)).

Ltac evaluated := by apply (bool_decide_unpack _).

Lemma buyer_ready : ready buyer eur aud.
Proof. split; [done|by split_and!; [evaluated|..]|split_and!; [evaluated|done|done]|done]. Qed.

Lemma do_cross_within_witness :
  wp (do_cross some_funds buyer (mkAmounts (iou_of eur 2000) (iou_of aud 2000)) par 2)
    (fun '(f, k') => flow_ok eur aud (mkAmounts (iou_of eur 2000) (iou_of aud 2000)) f /\ in_offered buyer f /\ out_wanted buyer f /\
       units (paid buyer f) <= units (iou_of eur 2500) /\ leaves buyer eur aud (in_ (order f)) (out (order f)) k') not_assertion.
Proof.
  apply (do_cross_within some_funds buyer eur aud (mkAmounts (iou_of eur 2000) (iou_of aud 2000)) par 2 (iou_of aud 1500) (iou_of eur 2500));
    [exact buyer_ready|unfold par; lia|split_and!; [evaluated|done|done]..|done|done|split_and!; [evaluated|done|done]|done|split_and!; [evaluated|done|done]].
Defined.

Lemma do_cross_bridge_within_witness :
  wp (do_cross_bridge some_funds buyer (mkAmounts (iou_of eur 2000) (drops_of 1000)) par 2 (mkAmounts (drops_of 900) (iou_of aud 2000)) par 3)
    (fun '(f1, f2, k') => bridged buyer eur aud (mkAmounts (iou_of eur 2000) (drops_of 1000)) (mkAmounts (drops_of 900) (iou_of aud 2000)) f1 f2 /\
       balanced f1 f2 /\ leaves buyer eur aud (in_ (order f1)) (out (order f2)) k') not_assertion.
Proof.
  apply (do_cross_bridge_within some_funds buyer eur aud (mkAmounts (iou_of eur 2000) (drops_of 1000)) par 2
    (mkAmounts (drops_of 900) (iou_of aud 2000)) par 3 (iou_of eur 2500) (iou_of aud 1500) (drops_of 700));
    [exact buyer_ready|done|unfold par; lia|unfold par; lia|split_and!; [evaluated|done|done]..|done|done|split_and!; [evaluated|done|done]|
     done|split_and!; [evaluated|done|done]|done|split_and!; [evaluated|done|done]].
Defined.

Lemma order_of_example :
  match do_cross some_funds buyer (mkAmounts (iou_of eur 2000) (iou_of aud 2000)) par 2 with
  | Ok (f, k') => (order f, issuers f, remaining_ k') = 
      (mkAmounts (iou_of eur 1000) (iou_of aud 1000), mkAmounts (iou_of eur 1002) (iou_of aud 1010), mkAmounts (iou_of eur 2000) (mk aud 0 (-100) false false))
  | _ => False
  end.
Proof. vm_compute. reflexivity. Qed.

End TakerCross.
