(* ===== verification/OfferTaker.v ===== *)
(** * Taking offers

    [Offer] (app/tx/impl/Offer.h), an offer of a book whose amounts shrink as it
    is consumed, and [Taker] (Taker.h, Taker.cpp), which computes the flow with
    [BasicTaker], consumes the offers and moves the funds.  An [Offer] holds a
    pointer to its entry in the view; its amounts are mutable, so what crosses an
    offer returns it with the amounts it has after. *)

From stdpp Require Import base tactics numbers list strings gmap sorting option.
From S2P Require Import Prelude Decimal IOUAmount BigNum Serializer STAmount AmountArith Quality.
From S2P Require Import View StateTable ApplyStateTable Fields Indexes PaymentSandbox ViewOps.
From S2P Require Import Directory TrustLines BasicTaker.

Module OfferTaker.
Import Fields Indexes ViewOps Directory TrustLines.

#[local] Existing Instance BasicTaker.CrossType_eq_dec.

Abbreviation Amounts := Quality.Amounts.
Abbreviation mkAmounts := Quality.mkAmounts.
Abbreviation in_ := Quality.in_.
Abbreviation out := Quality.out.

(** ** An offer of a book *)

Record Offer := mkOffer { m_entry : option loc; m_quality : Z; m_account : Z; m_amounts : Amounts }.

(** [Offer {}]. *)
Definition no_offer : Offer := mkOffer None 0 0 (mkAmounts BasicTaker.none BasicTaker.none).

Abbreviation quality := m_quality.
Abbreviation owner := m_account.
Abbreviation amount := m_amounts.

Definition fully_consumed (o : Offer) : bool :=
  if STAmount.signum (in_ (m_amounts o)) <=? 0 then true else STAmount.signum (out (m_amounts o)) <=? 0.

(** [Taker]: the members of [BasicTaker] and its own. *)
Record Taker := mkTaker { basic : BasicTaker.Taker; xrp_flow_ : STAmount.t; direct_crossings_ : Z; bridge_crossings_ : Z }.

Abbreviation account k := (BasicTaker.account_ (basic k)).
Abbreviation cross_type k := (BasicTaker.cross_type_ (basic k)).

Definition with_basic (b : BasicTaker.Taker) (k : Taker) : Taker := mkTaker b (xrp_flow_ k) (direct_crossings_ k) (bridge_crossings_ k).
Definition crossed_directly (k : Taker) : Taker := mkTaker (basic k) (xrp_flow_ k) (u32 (direct_crossings_ k + 1)) (bridge_crossings_ k).
Definition crossed_bridge (flow : STAmount.t) (k : Taker) : Taker := mkTaker (basic k) flow (direct_crossings_ k) (u32 (bridge_crossings_ k + 1)).

Section taking.
Context `{Build} {SHA : SHA512Half} {V : Type} {RV : ReadView STObject V} {N : BN}.

(** The fees of the ledger the view shows. *)
Context (fees : Fees).

Definition make_offer (entry : loc) (quality : Z) : M V Offer :=
  account ← get entry (getAccountID sfAccount);
  pays ← get entry (getFieldAmount sfTakerPays);
  gets ← get entry (getFieldAmount sfTakerGets);
  mret (mkOffer (Some entry) quality account (mkAmounts pays gets)).

Definition consume (o : Offer) (consumed : Amounts) : M V Offer :=
  more ← lift (STAmount.gtb (in_ consumed) (in_ (m_amounts o)));
  _ ← lift (throw_if more "can't consume more than is available.");
  more ← lift (STAmount.gtb (out consumed) (out (m_amounts o)));
  _ ← lift (throw_if more "can't produce more than is available.");
  i ← lift (STAmount.sub (in_ (m_amounts o)) (in_ consumed));
  x ← lift (STAmount.sub (out (m_amounts o)) (out consumed));
  entry ← need (m_entry o);
  _ ← set entry (setFieldAmount sfTakerPays i);
  _ ← set entry (setFieldAmount sfTakerGets x);
  _ ← update entry;
  mret (mkOffer (m_entry o) (m_quality o) (m_account o) (mkAmounts i x)).

(** ** The taker *)

Definition calculateRate (view : ApplyView.t STObject V) (issuer acct : Z) : result Z :=
  if STAmount.isXRP_id issuer || (acct =? issuer) then Ok QUALITY_ONE else rippleTransferRate view issuer.

Definition make (cross_type : BasicTaker.CrossType) (acct : Z) (offer : Amounts) (flags : Z) : M V Taker := fun s =>
  rate_in ← calculateRate (av s) (STAmount.account (STAmount.mIssue (in_ offer))) acct;
  rate_out ← calculateRate (av s) (STAmount.account (STAmount.mIssue (out offer))) acct;
  q ← Quality.of_amounts offer;
  b ← BasicTaker.make cross_type acct offer q flags rate_in rate_out;
  _ ← Quality.assert_ (STAmount.issue_eqb (BasicTaker.issue_in b) (STAmount.mIssue (in_ offer)));
  _ ← Quality.assert_ (STAmount.issue_eqb (BasicTaker.issue_out b) (STAmount.mIssue (out offer)));
  Ok (mkTaker b (STAmount.of_u64 0 false) 0 0, s).

(** [Taker::get_funds], in the view as it is. *)
Definition get_funds (s : St V) (acct : Z) (funds : STAmount.t) : result STAmount.t :=
  accountFunds fees (tabs s) (av s) acct funds fhZERO_IF_FROZEN.

Definition with_funds {A} (f : (Z -> STAmount.t -> result STAmount.t) -> result A) : M V A :=
  fun s => a ← f (get_funds s); Ok (a, s).

Definition consume_offer (o : Offer) (order : Amounts) : M V Offer :=
  _ ← lift (throw_if (STAmount.signum (in_ order) <? 0) "flow with negative input.");
  _ ← lift (throw_if (STAmount.signum (out order) <? 0) "flow with negative output.");
  consume o order.

Definition transferXRP (from to : Z) (amount : STAmount.t) : M V TER :=
  _ ← lift (throw_if (negb (STAmount.isXRP amount)) "Using transferXRP with IOU");
  if from =? to then mret tesSUCCESS
  else if isZero amount then mret tesSUCCESS
  else TrustLines.transferXRP from to amount.

Definition redeemIOU (acct : Z) (amount : STAmount.t) (issue : STAmount.Issue) : M V TER :=
  _ ← lift (throw_if (STAmount.isXRP amount) "Using redeemIOU with XRP");
  if acct =? STAmount.account issue then mret tesSUCCESS
  else if isZero amount then mret tesSUCCESS
  else
    funds ← with_funds (fun get_funds => get_funds acct amount);
    _ ← lift (throw_if (STAmount.signum funds <=? 0) "redeemIOU has no funds to redeem");
    ret ← TrustLines.redeemIOU acct amount issue;
    funds ← with_funds (fun get_funds => get_funds acct amount);
    _ ← lift (throw_if (STAmount.signum funds <? 0) "redeemIOU redeemed more funds than available");
    mret ret.

Definition issueIOU (acct : Z) (amount : STAmount.t) (issue : STAmount.Issue) : M V TER :=
  _ ← lift (throw_if (STAmount.isXRP amount) "Using issueIOU with XRP");
  if acct =? STAmount.account issue then mret tesSUCCESS
  else if isZero amount then mret tesSUCCESS
  else TrustLines.issueIOU acct amount issue.

(** [if (result == tesSUCCESS) result = next]. *)
Definition and_then (result : TER) (next : M V TER) : M V TER :=
  if bool_decide (result = tesSUCCESS) then next else mret result.

(** An issued amount goes from one account, with the issuer's fee on top, to
    another. *)
Definition send_IOU (result : TER) (from : Z) (with_fee : STAmount.t) (to : Z) (sent : STAmount.t) : M V TER :=
  result ← and_then result (redeemIOU from with_fee (STAmount.mIssue with_fee));
  and_then result (issueIOU to sent (STAmount.mIssue sent)).

Definition fill (k : Taker) (flow : BasicTaker.Flow) (offer : Offer) : M V (TER * Taker * Offer) :=
  let order := BasicTaker.order flow in
  let issuers := BasicTaker.issuers flow in
  offer ← consume_offer offer order;
  result ← (if negb (bool_decide (cross_type k = BasicTaker.XrpToIou)) then
              _ ← lift (Quality.assert_ (negb (STAmount.isXRP (in_ order))));
              send_IOU tesSUCCESS (account k) (in_ issuers) (owner offer) (in_ order)
            else
              _ ← lift (Quality.assert_ (STAmount.isXRP (in_ order)));
              transferXRP (account k) (owner offer) (in_ order));
  result ← (if negb (bool_decide (cross_type k = BasicTaker.IouToXrp)) then
              _ ← lift (Quality.assert_ (negb (STAmount.isXRP (out order))));
              send_IOU result (owner offer) (out issuers) (account k) (out order)
            else
              _ ← lift (Quality.assert_ (STAmount.isXRP (out order)));
              and_then result (transferXRP (owner offer) (account k) (out order)));
  mret (result, if bool_decide (result = tesSUCCESS) then crossed_directly k else k, offer).

Definition fill_bridge (k : Taker) (flow1 : BasicTaker.Flow) (leg1 : Offer) (flow2 : BasicTaker.Flow) (leg2 : Offer)
    : M V (TER * Taker * Offer * Offer) :=
  let order1 := BasicTaker.order flow1 in
  let order2 := BasicTaker.order flow2 in
  leg1 ← consume_offer leg1 order1;
  leg2 ← consume_offer leg2 order2;
  result ← (if negb (owner leg1 =? account k)
            then send_IOU tesSUCCESS (account k) (in_ (BasicTaker.issuers flow1)) (owner leg1) (in_ order1)
            else mret tesSUCCESS);
  result ← and_then result (transferXRP (owner leg1) (owner leg2) (out order1));
  result ← (if negb (owner leg2 =? account k)
            then send_IOU result (owner leg2) (out (BasicTaker.issuers flow2)) (account k) (out order2)
            else mret result);
  if bool_decide (result = tesSUCCESS) then
    flow ← lift (STAmount.add (xrp_flow_ k) (out order1));
    mret (result, crossed_bridge flow k, leg1, leg2)
  else mret (result, k, leg1, leg2).

(** [Taker::cross]: the result, and the taker and the offer as they are after. *)
Definition cross (k : Taker) (offer : Offer) : M V (TER * Taker * Offer) :=
  if STAmount.isXRP (in_ (amount offer)) && STAmount.isXRP (out (amount offer)) then mret (tefINTERNAL, k, offer)
  else
    r ← with_funds (fun get_funds => BasicTaker.do_cross get_funds (basic k) (amount offer) (quality offer) (owner offer));
    fill (with_basic r.2 k) r.1 offer.

Definition cross_bridge (k : Taker) (leg1 leg2 : Offer) : M V (TER * Taker * Offer * Offer) :=
  if STAmount.isXRP (in_ (amount leg1)) || STAmount.isXRP (out (amount leg2)) then mret (tefINTERNAL, k, leg1, leg2)
  else
    r ← with_funds (fun get_funds => BasicTaker.do_cross_bridge get_funds (basic k)
          (amount leg1) (quality leg1) (owner leg1) (amount leg2) (quality leg2) (owner leg2));
    let '(flow1, flow2, b) := r in
    fill_bridge (with_basic b k) flow1 leg1 flow2 leg2.

End taking.
End OfferTaker.
