(* ===== verification/OfferBook.v ===== *)
(** * The offers of a book

    [BookTip] (app/tx/impl/BookTip.h, BookTip.cpp) walks the offers of a book from
    the best quality on, deleting each one before it goes on, and [OfferStream]
    (OfferStream.h, OfferStream.cpp) presents those of them that can be taken.
    Offers that are gone, expired, empty or found unfunded are removed from a
    second view too, the one that is kept when the transaction fails.  A program
    over both views is an [X]. *)

From stdpp Require Import base tactics numbers list strings gmap sorting option.
From S2P Require Import Prelude Decimal IOUAmount BigNum Serializer STAmount AmountArith Quality.
From S2P Require Import View StateTable ApplyStateTable Fields Indexes PaymentSandbox ViewOps.
From S2P Require Import Directory TrustLines BasicTaker OfferTaker.

(** ** Two views *)

Module TwoViews.
Import ViewOps.

Record Views (V : Type) := mkViews { view : St V; view_cancel : St V }.
Arguments mkViews {V}. Arguments view {V}. Arguments view_cancel {V}.

Definition X (V A : Type) : Type := Views V -> result (A * Views V).

#[export] Instance X_ret V : MRet (X V) := fun A a s => Ok (a, s).
#[export] Instance X_bind V : MBind (X V) := fun A B f m s =>
  match m s with
  | Ok (a, s') => f a s'
  | Throw e => Throw e
  | OutOfFuel => OutOfFuel
  end.

Section lifting.
Context {V : Type}.

Definition xlift {A} (r : result A) : X V A := fun s => a ← r; Ok (a, s).

Definition in_view {A} (m : M V A) : X V A := fun s =>
  r ← m (view s); Ok (r.1, mkViews r.2 (view_cancel s)).

Definition in_cancel {A} (m : M V A) : X V A := fun s =>
  r ← m (view_cancel s); Ok (r.1, mkViews (view s) r.2).

End lifting.
End TwoViews.

(** ** The tip of a book *)

Module BookTip.
Import Fields Indexes ViewOps Directory TrustLines.

Record t := mk {
  m_valid : bool; m_book : Z; m_end : Z; m_dir : Z; m_index : Z; m_entry : option loc; m_quality : Z }.

(** [keylet::offer (uint256)]. *)
Definition offer_at (key : Z) : Keylet.t := Keylet.mk ltOFFER key.

Section tip.
Context `{Build} {SHA : SHA512Half} {V : Type} {RV : ReadView STObject V}.

(** A bound on the directories of a book, and on the pages of one. *)
Context (fuel : nat).

Definition make (book : Book) : result t :=
  base ← getBookBase book; Ok (mk false base (getQualityNext base) 0 0 None 0).

Definition vsucc (key : Z) (last : option Z) : M V (option Z) :=
  fun s => r ← ApplyView.succ (av s) key last; Ok (r, s).

(** The loop of [step], one directory after the other. *)
Fixpoint next_directory (n : nat) (b : t) : M V (bool * t) :=
  match n with
  | O => lift OutOfFuel
  | S n =>
      first_page ← vsucc (m_book b) (Some (m_end b));
      match first_page with
      | None => mret (false, b)
      | Some first_page =>
          r ← dirFirst fuel first_page (m_index b);
          let index := uEntryIndex r.2 in
          if r.1 : bool then
            dir ← deref (sleNode r.2);
            entry ← peek (offer_at index);
            mret (true, mk true ((first_page - 1) mod 2 ^ 256) (m_end b) (sle_key dir) index entry (getQuality first_page))
          else next_directory n (mk (m_valid b) first_page (m_end b) (m_dir b) index (m_entry b) (m_quality b))
      end
  end.

Definition step (b : t) : M V (bool * t) :=
  b ← (match m_entry b with
       | Some entry =>
           if m_valid b then
             _ ← offerDelete (Some entry);
             mret (mk (m_valid b) (m_book b) (m_end b) (m_dir b) (m_index b) None (m_quality b))
           else mret b
       | None => mret b
       end);
  next_directory fuel b.

End tip.
End BookTip.

(** ** The offers that can be taken *)

Module OfferStream.
Import Fields Indexes ViewOps Directory TrustLines OfferTaker TwoViews.

Record t := mk { m_when : Z; m_tip : BookTip.t; m_offer : Offer }.

Abbreviation tip := m_offer.

Definition with_offer (o : Offer) (st : t) : t := mk (m_when st) (m_tip st) o.

Section stream.
Context `{Build} {SHA : SHA512Half} {V : Type} {RV : ReadView STObject V}.
Context (fuel : nat) (fees : Fees).

Definition make (book : Book) (when : Z) : result t :=
  b ← BookTip.make book; Ok (mk when b no_offer).

(** An entry of a directory whose offer is missing. *)
Definition erase (b : BookTip.t) : M V unit :=
  p ← peek (page (BookTip.m_dir b) 0);
  match p with
  | None => mret tt
  | Some p =>
      v ← get p (getFieldV256 sfIndexes);
      match list_find (fun x => x = BookTip.m_index b) v with
      | None => mret tt
      | Some (it, _) =>
          _ ← set p (setFieldV256 sfIndexes (delete it v));
          update p
      end
  end.

(** [offerDelete (view_cancel (), view_cancel ().peek (...))]. *)
Definition delete_in_cancel (key : Z) : X V unit :=
  in_cancel (p ← peek (BookTip.offer_at key); _ ← offerDelete p; mret tt).

Definition expired (when : Z) (entry : loc) : M V bool :=
  present ← get entry (fun o => Ok (isFieldPresent sfExpiration o));
  if present : bool then e ← get entry (getFieldU32 sfExpiration); mret (e <=? when) else mret false.

Definition funds_of (o : Offer) : M V STAmount.t :=
  with_funds fees (fun get_funds => get_funds (owner o) (out (amount o))).

(** One offer: whether the stream goes on past it, and the stream. *)
Definition look (st : t) (entry : loc) : X V (bool * t) :=
  e ← in_view (deref entry);
  old ← in_view (expired (m_when st) entry);
  if old : bool then _ ← delete_in_cancel (sle_key e); mret (true, st)
  else
    o ← in_view (make_offer entry (BookTip.m_quality (m_tip st)));
    if Quality.empty (amount o) then _ ← delete_in_cancel (sle_key e); mret (true, with_offer no_offer st)
    else
      owner_funds ← in_view (funds_of o);
      if STAmount.signum owner_funds <=? 0 then
        original_funds ← in_cancel (funds_of o);
        _ ← (if STAmount.eqb original_funds owner_funds then delete_in_cancel (sle_key e) else mret tt);
        mret (true, with_offer no_offer st)
      else mret (false, with_offer o st).

Fixpoint step_from (n : nat) (st : t) : X V (bool * t) :=
  match n with
  | O => xlift OutOfFuel
  | S n =>
      r ← in_view (BookTip.step fuel (m_tip st));
      let st := mk (m_when st) r.2 (m_offer st) in
      if negb r.1 then mret (false, st)
      else
        match BookTip.m_entry r.2 with
        | None => _ ← in_view (erase r.2); _ ← in_cancel (erase r.2); step_from n st
        | Some entry =>
            r ← look st entry;
            if r.1 : bool then step_from n r.2 else mret (true, r.2)
        end
  end.

Definition step (st : t) : X V (bool * t) := step_from fuel st.

End stream.
End OfferStream.
