(* ===== verification/CreateOfferTx.v ===== *)
(** * Creating offers

    The transactor [CreateOffer] (app/tx/impl/CreateOffer.h, CreateOffer.cpp): an
    offer first takes the offers of its book that are good enough, directly or
    through two books bridged by the native currency; what is left of it is placed
    in the opposite book.  The work is done in two sandboxes over the view of the
    transaction, of which the first is kept unless a fill-or-kill offer is killed.

    Exceptions during crossing are caught and give [tecINTERNAL]; what they leave
    of the sandboxes and the taker is an argument, [on_throw].  A failed assertion
    and a null pointer are not exceptions.  Logging and the server's list of order
    books are left out. *)

From stdpp Require Import base tactics numbers list strings gmap sorting option.
From S2P Require Import Prelude Decimal IOUAmount BigNum Serializer STAmount AmountArith Quality.
From S2P Require Import View StateTable ApplyStateTable Fields Indexes PaymentSandbox ViewOps.
From S2P Require Import Directory TrustLines Transfers Change LoadFeeTrack MultiSign TxMeta Threading.
From S2P Require Import Footprint Transactor TransactorRun TransactorSteps TxFlags PaymentTx BasicTaker OfferTaker OfferBook.

Module CreateOfferTx.
Import Fields Indexes ViewOps Directory TrustLines Transfers Change Transactor TransactorRun TxFlags OfferTaker TwoViews.

#[local] Existing Instance BasicTaker.CrossType_eq_dec.

Definition ttOFFER_CREATE : Z := 7.

(** The format "OfferCreate". *)
Definition OfferCreate : list (SField * SOE_Flags) :=
  [(sfTakerPays, SOE_REQUIRED); (sfTakerGets, SOE_REQUIRED); (sfExpiration, SOE_OPTIONAL); (sfOfferSequence, SOE_OPTIONAL)].

Definition setFieldH160 (f : SField) (v : Z) := setField f (H160 v).

(** ** Checks *)

Abbreviation Mem := (Members BasicTaker.CrossType).

Definition issuer (a : STAmount.t) : Z := STAmount.account (STAmount.mIssue a).
Definition currency (a : STAmount.t) : Z := STAmount.currency (STAmount.mIssue a).

Definition cross_type_of (pays_xrp gets_xrp : bool) : BasicTaker.CrossType :=
  if pays_xrp && negb gets_xrp then BasicTaker.IouToXrp
  else if gets_xrp && negb pays_xrp then BasicTaker.XrpToIou
  else BasicTaker.IouToIou.

Definition preCheck (c : Ctx) (m : Mem) : result (TER * Mem) :=
  saTakerPays ← getFieldAmount sfTakerPays (tx_o c);
  saTakerGets ← getFieldAmount sfTakerGets (tx_o c);
  let m := set_extra (cross_type_of (STAmount.mIsNative saTakerPays) (STAmount.mIsNative saTakerGets)) m in
  let uTxFlags := getFlags (tx_o c) in
  if has uTxFlags tfOfferCreateMask then Ok (temINVALID_FLAG, m)
  else if has uTxFlags tfImmediateOrCancel && has uTxFlags tfFillOrKill then Ok (temINVALID_FLAG, m)
  else
    bad ← (if isFieldPresent sfExpiration (tx_o c) then e ← getFieldU32 sfExpiration (tx_o c); Ok (e =? 0) else Ok false);
    if bad : bool then Ok (temBAD_EXPIRATION, m)
    else
      bad ← (if isFieldPresent sfOfferSequence (tx_o c) then e ← getFieldU32 sfOfferSequence (tx_o c); Ok (e =? 0) else Ok false);
      if bad : bool then Ok (temBAD_SEQUENCE, m)
      else if negb (STAmount.isLegalNet saTakerPays) || negb (STAmount.isLegalNet saTakerGets) then Ok (temBAD_AMOUNT, m)
      else if STAmount.mIsNative saTakerPays && STAmount.mIsNative saTakerGets then Ok (temBAD_OFFER, m)
      else if (STAmount.signum saTakerPays <=? 0) || (STAmount.signum saTakerGets <=? 0) then Ok (temBAD_OFFER, m)
      else if (currency saTakerPays =? currency saTakerGets) && (issuer saTakerPays =? issuer saTakerGets) then Ok (temREDUNDANT, m)
      else if (PaymentTx.badCurrency =? currency saTakerPays) || (PaymentTx.badCurrency =? currency saTakerGets) then Ok (temBAD_CURRENCY, m)
      else if negb (Bool.eqb (STAmount.mIsNative saTakerPays) (issuer saTakerPays =? 0)) ||
              negb (Bool.eqb (STAmount.mIsNative saTakerGets) (issuer saTakerGets =? 0)) then Ok (temBAD_ISSUER, m)
      else Transactor.preCheck c m.

Section offers.
Context `{Build} {SHA : SHA512Half} {B : Type} {RV : ReadView STObject B} {N : BN}.

Abbreviation Base := (OpenView.t STObject B).

(** A sandbox is an [ApplyView] over the view of the transaction. *)
Abbreviation W := (ApplyView.t STObject Base).

(** A bound on the directories of a book, the pages of one, and the offers. *)
Context (fuel : nat).

(** ** Crossing *)

Definition dry_offer (c : Ctx) (offer : Offer) : M W bool :=
  if fully_consumed offer then mret true
  else amount ← OfferStream.funds_of (fees c) offer; mret (STAmount.signum amount <=? 0).

(** Whether to cross directly, and the quality of the better way. *)
Definition select_path (have_direct : bool) (direct : OfferStream.t) (have_bridge : bool) (leg1 leg2 : OfferStream.t) : result (bool * Z) :=
  _ ← Keylet.assert (have_direct || have_bridge);
  if negb have_bridge then Ok (true, quality (OfferStream.tip direct))
  else
    bridged_quality ← Quality.composed_quality (quality (OfferStream.tip leg1)) (quality (OfferStream.tip leg2));
    let direct_quality := quality (OfferStream.tip direct) in
    if have_direct && Quality.ltb bridged_quality direct_quality then Ok (true, direct_quality) else Ok (false, bridged_quality).

Definition reachedOfferCrossingLimit (k : Taker) : bool :=
  850 <=? u32 (direct_crossings_ k + u32 (2 * bridge_crossings_ k)).

(** Past the taker's own offers, unless they are not good enough. *)
Fixpoint step_account (c : Ctx) (n : nat) (stream : OfferStream.t) (k : Taker) : X W (bool * OfferStream.t) :=
  match n with
  | O => xlift OutOfFuel
  | S n =>
      r ← OfferStream.step fuel (fees c) stream;
      if negb r.1 then mret (false, r.2)
      else
        let offer := OfferStream.tip r.2 in
        if BasicTaker.reject (basic k) (quality offer) then mret (true, r.2)
        else if negb (owner offer =? account k) then mret (true, r.2)
        else step_account c n r.2 k
  end.

Definition taker_done (c : Ctx) (k : Taker) : M W bool := with_funds (fees c) (fun get_funds => BasicTaker.done get_funds (basic k)).
Definition remaining (c : Ctx) (k : Taker) : M W Amounts := with_funds (fees c) (fun get_funds => BasicTaker.remaining_offer get_funds (basic k)).

(** The end of a turn of either loop: [Some] when the loop ends. *)
Definition turn_end (c : Ctx) (cross_result : TER) (k : Taker) (consumed : bool) (what : string) : X W (option TER) :=
  if negb (bool_decide (cross_result = tesSUCCESS)) then mret (Some tecFAILED_PROCESSING)
  else
    d ← in_view (taker_done c k);
    if d : bool then mret (Some cross_result)
    else if reachedOfferCrossingLimit k then mret (Some cross_result)
    else
      _ ← xlift (Keylet.assert consumed);
      _ ← xlift (throw_if (negb consumed) what);
      mret None.

(** The state of [direct_cross]'s loop, and of [bridged_cross]'s. *)
Fixpoint direct_loop (c : Ctx) (n : nat) (have_offer : bool) (offers : OfferStream.t) (k : Taker) : X W (TER * Taker) :=
  match n with
  | O => xlift OutOfFuel
  | S n =>
      if negb have_offer then mret (tesSUCCESS, k)
      else if BasicTaker.reject (basic k) (quality (OfferStream.tip offers)) then mret (tesSUCCESS, k)
      else
        r ← in_view (cross (fees c) k (OfferStream.tip offers));
        let '(cross_result, k, offer) := r in
        let offers := OfferStream.with_offer offer offers in
        dry ← in_view (dry_offer c offer);
        r ← (if dry : bool then step_account c fuel offers k else mret (have_offer, offers));
        fin ← turn_end c cross_result k dry "direct crossing: nothing was fully consumed.";
        match fin with
        | Some result => mret (result, k)
        | None => direct_loop c n r.1 r.2 k
        end
  end.

Definition direct_cross (c : Ctx) (k : Taker) (when : Z) : X W (TER * Amounts) :=
  offers ← xlift (OfferStream.make (mkBook (BasicTaker.issue_in (basic k)) (BasicTaker.issue_out (basic k))) when);
  r ← step_account c fuel offers k;
  r ← direct_loop c fuel r.1 r.2 k;
  rest ← in_view (remaining c r.2);
  mret (r.1, rest).

Record Bridging := mkBridging {
  have_direct : bool; offers_direct : OfferStream.t; have_bridge : bool; offers_leg1 : OfferStream.t; offers_leg2 : OfferStream.t }.

(** One direct crossing: whether the offer is used up. *)
Definition cross_directly (c : Ctx) (k : Taker) (b : Bridging) : X W (TER * Taker * bool * Bridging) :=
  r ← in_view (cross (fees c) k (OfferStream.tip (offers_direct b)));
  let '(cross_result, k, offer) := r in
  let direct := OfferStream.with_offer offer (offers_direct b) in
  dry ← in_view (dry_offer c offer);
  r ← (if dry : bool then step_account c fuel direct k else mret (have_direct b, direct));
  mret (cross_result, k, dry, mkBridging r.1 r.2 (have_bridge b) (offers_leg1 b) (offers_leg2 b)).

(** [have_bridge = (have_bridge && leg.step ())]. *)
Definition step_leg (c : Ctx) (have : bool) (leg : OfferStream.t) : X W (bool * OfferStream.t) :=
  if have then OfferStream.step fuel (fees c) leg else mret (false, leg).

Definition cross_bridged (c : Ctx) (k : Taker) (b : Bridging) : X W (TER * Taker * bool * Bridging) :=
  r ← in_view (cross_bridge (fees c) k (OfferStream.tip (offers_leg1 b)) (OfferStream.tip (offers_leg2 b)));
  let '(cross_result, k, offer1, offer2) := r in
  let leg1 := OfferStream.with_offer offer1 (offers_leg1 b) in
  let leg2 := OfferStream.with_offer offer2 (offers_leg2 b) in
  dry1 ← in_view (dry_offer c offer1);
  r1 ← (if dry1 : bool then step_leg c (have_bridge b) leg1 else mret (have_bridge b, leg1));
  dry2 ← in_view (dry_offer c offer2);
  r2 ← (if dry2 : bool then step_leg c r1.1 leg2 else mret (r1.1, leg2));
  mret (cross_result, k, dry1 || dry2, mkBridging (have_direct b) (offers_direct b) r2.1 r1.2 r2.2).

Fixpoint bridged_loop (c : Ctx) (n : nat) (b : Bridging) (k : Taker) : X W (TER * Taker) :=
  match n with
  | O => xlift OutOfFuel
  | S n =>
      if negb (have_direct b || have_bridge b) then mret (tesSUCCESS, k)
      else
        path ← xlift (select_path (have_direct b) (offers_direct b) (have_bridge b) (offers_leg1 b) (offers_leg2 b));
        if BasicTaker.reject (basic k) path.2 then mret (tesSUCCESS, k)
        else
          r ← (if path.1 : bool then cross_directly c k b else cross_bridged c k b);
          let '(cross_result, k, consumed, b) := r in
          fin ← turn_end c cross_result k consumed "bridged crossing: nothing was fully consumed.";
          match fin with
          | Some result => mret (result, k)
          | None => bridged_loop c n b k
          end
  end.

(** The taker's own offers are taken in the bridge, and not in the direct book. *)
Definition bridged_cross (c : Ctx) (k : Taker) (when : Z) : X W (TER * Amounts) :=
  let taker_amount := BasicTaker.original_offer (basic k) in
  let native := STAmount.isXRP (in_ taker_amount) || STAmount.isXRP (out taker_amount) in
  _ ← xlift (Keylet.assert (negb native));
  _ ← xlift (throw_if native "Bridging with XRP and an endpoint.");
  let issue_in := BasicTaker.issue_in (basic k) in
  let issue_out := BasicTaker.issue_out (basic k) in
  direct ← xlift (OfferStream.make (mkBook issue_in issue_out) when);
  leg1 ← xlift (OfferStream.make (mkBook issue_in STAmount.xrpIssue) when);
  leg2 ← xlift (OfferStream.make (mkBook STAmount.xrpIssue issue_out) when);
  r1 ← OfferStream.step fuel (fees c) leg1;
  r2 ← step_leg c r1.1 leg2;
  d ← step_account c fuel direct k;
  r ← bridged_loop c fuel (mkBridging d.1 d.2 r2.1 r1.2 r2.2) k;
  rest ← in_view (remaining c r.2);
  mret (r.1, rest).

(** What an exception during crossing leaves. *)
Context (on_throw : Views W -> Taker -> Views W * Taker).

Definition caught (c : Ctx) (k : Taker) (crossing : X W (TER * Amounts)) : X W (TER * Amounts) := fun s =>
  match crossing s with
  | Throw e =>
      if fatal e then Throw e
      else
        let left := on_throw s k in
        (rest ← in_view (remaining c left.2); mret (tecINTERNAL, rest)) left.1
  | r => r
  end.

Definition parent_close (s : Views W) : Z := parentCloseTime (View.vinfo (av (view s))).

Definition cross (c : Ctx) (m : Mem) (taker_amount : Amounts) : X W (TER * Amounts) := fun s =>
  let when := parent_close s in
  (k ← in_view (OfferTaker.make (extra m) (account_ m) taker_amount (getFlags (tx_o c)));
   caught c k (if bool_decide (extra m = BasicTaker.IouToIou) then bridged_cross c k when else direct_cross c k when)) s.

(** ** The work *)

(** A reading of the view of the transaction, under the sandboxes. *)
Definition ctx_read {A} (f : W -> result A) : X W A := fun s => a ← f (ApplyView.base_ (av (view s))); Ok (a, s).

Definition retry (c : Ctx) (ter tec : TER) : TER := if has (flags c) tapRETRY then ter else tec.

Definition checkAcceptAsset (c : Ctx) (m : Mem) (issue : STAmount.Issue) : X W TER :=
  _ ← xlift (Keylet.assert (negb (STAmount.isXRP_id (STAmount.currency issue))));
  issuerAccount ← ctx_read (fun v => View.vread v (Indexes.account (STAmount.account issue)));
  match issuerAccount with
  | None => mret (retry c terNO_ACCOUNT tecNO_ISSUER)
  | Some issuerAccount =>
      fl ← xlift (getFieldU32 sfFlags (fields issuerAccount));
      if has fl lsfRequireAuth then
        trustLine ← ctx_read (fun v => View.vread v (line (account_ m) (STAmount.account issue) (STAmount.currency issue)));
        match trustLine with
        | None => mret (retry c terNO_LINE tecNO_LINE)
        | Some trustLine =>
            let canonical_gt := STAmount.account issue <? account_ m in
            fl ← xlift (getFieldU32 sfFlags (fields trustLine));
            mret (if negb (has fl (if canonical_gt then lsfLowAuth else lsfHighAuth)) then retry c terNO_AUTH tecNO_AUTH else tesSUCCESS)
        end
      else mret tesSUCCESS
  end.

(** Monday, 17 August 2015, 11:00 in the time of Ripple. *)
Definition switchoverTime : Z := 493149600.

Definition getAccountReserve (c : Ctx) (deprecatedWrongOwnerCount : Z) (account : loc) : X W STAmount.t := fun s =>
  if parent_close s <=? switchoverTime
  then Ok (STAmount.of_u64 (accountReserve (fees c) (u32 (deprecatedWrongOwnerCount + 1))) false, s)
  else (n ← in_view (get account (getFieldU32 sfOwnerCount)); mret (STAmount.of_u64 (accountReserve (fees c) (u32 (n + 1))) false)) s.

(** Why an offer is refused before anything is done. *)
Definition refused (c : Ctx) (m : Mem) (saTakerPays saTakerGets : STAmount.t) (uCancelSequence uAccountSequenceNext : Z) : M W TER := fun s =>
  frozen ← isGlobalFrozen (av s) (issuer saTakerPays);
  frozen ← (if frozen : bool then Ok true else isGlobalFrozen (av s) (issuer saTakerGets));
  if frozen : bool then Ok (tecFROZEN, s)
  else
    funds ← OfferTaker.get_funds (fees c) s (account_ m) saTakerGets;
    if STAmount.signum funds <=? 0 then Ok (tecUNFUNDED_OFFER, s)
    else if isFieldPresent sfOfferSequence (tx_o c) && (u32 (uAccountSequenceNext - 1) <=? uCancelSequence) then Ok (temBAD_SEQUENCE, s)
    else Ok (tesSUCCESS, s).

(** The offer a transaction cancels along with placing a new one. *)
Definition cancel_old (c : Ctx) (m : Mem) (uCancelSequence : Z) : M W TER :=
  if isFieldPresent sfOfferSequence (tx_o c) then
    sleCancel ← peek (Indexes.offer (account_ m) uCancelSequence);
    match sleCancel with
    | Some _ => offerDelete sleCancel
    | None => mret tesSUCCESS
    end
  else mret tesSUCCESS.

Definition qualityDirDescriber (pays_currency pays_issuer gets_currency gets_issuer uRate : Z) (sle : loc) (_ : bool) : M W unit :=
  _ ← set sle (setFieldH160 sfTakerPaysCurrency pays_currency);
  _ ← set sle (setFieldH160 sfTakerPaysIssuer pays_issuer);
  _ ← set sle (setFieldH160 sfTakerGetsCurrency gets_currency);
  _ ← set sle (setFieldH160 sfTakerGetsIssuer gets_issuer);
  set sle (setFieldU64 sfExchangeRate uRate).

(** The new offer. *)
Definition insert_offer (c : Ctx) (m : Mem) (offer_index uSequence uDirectory uOwnerNode uBookNode uExpiration : Z)
    (saTakerPays saTakerGets : STAmount.t) : M W unit :=
  let uTxFlags := getFlags (tx_o c) in
  e ← lift (make_SLE (Keylet.mk ltOFFER offer_index));
  sleOffer ← make_shared e;
  _ ← set sleOffer (setAccountID sfAccount (account_ m));
  _ ← set sleOffer (setFieldU32 sfSequence uSequence);
  _ ← set sleOffer (setFieldH256 sfBookDirectory uDirectory);
  _ ← set sleOffer (setFieldAmount sfTakerPays saTakerPays);
  _ ← set sleOffer (setFieldAmount sfTakerGets saTakerGets);
  _ ← set sleOffer (setFieldU64 sfOwnerNode uOwnerNode);
  _ ← set sleOffer (setFieldU64 sfBookNode uBookNode);
  _ ← (if negb (uExpiration =? 0) then set sleOffer (setFieldU32 sfExpiration uExpiration) else mret tt);
  _ ← (if has uTxFlags tfPassive then set sleOffer (fun o => Ok (setFlag lsfPassive o)) else mret tt);
  _ ← (if has uTxFlags tfSell then set sleOffer (fun o => Ok (setFlag lsfSell o)) else mret tt);
  insert sleOffer.

(** The remainder goes into the directory of its owner and into its book, at the
    original rate. *)
Definition place (c : Ctx) (m : Mem) (sleCreator : loc) (uSequence uRate uExpiration : Z) (saTakerPays saTakerGets : STAmount.t) : M W TER :=
  let offer_index := getOfferIndex (account_ m) uSequence in
  owner ← dirAdd (getOwnerDirIndex (account_ m)) offer_index (ownerDirDescriber (account_ m));
  if negb (bool_decide (owner.1 = tesSUCCESS)) then mret owner.1
  else
    _ ← adjustOwnerCount sleCreator 1;
    book_base ← lift (getBookBase (mkBook (STAmount.mIssue saTakerPays) (STAmount.mIssue saTakerGets)));
    let uDirectory := getQualityIndex book_base uRate in
    book ← dirAdd uDirectory offer_index
             (qualityDirDescriber (currency saTakerPays) (issuer saTakerPays) (currency saTakerGets) (issuer saTakerGets) uRate);
    if negb (bool_decide (book.1 = tesSUCCESS)) then mret book.1
    else
      _ ← insert_offer c m offer_index uSequence uDirectory owner.2 book.2 uExpiration saTakerPays saTakerGets;
      mret tesSUCCESS.

(** What is done with an offer of which these amounts are left. *)
Definition place_rest (c : Ctx) (m : Mem) (sleCreator : loc) (deprecatedWrongOwnerCount uSequence uRate uExpiration : Z) (crossed : bool)
    (saTakerPays saTakerGets : STAmount.t) : X W (TER * bool) :=
  let uTxFlags := getFlags (tx_o c) in
  if has uTxFlags tfFillOrKill then mret (tesSUCCESS, false)
  else if has uTxFlags tfImmediateOrCancel then mret (tesSUCCESS, true)
  else
    reserve ← getAccountReserve c deprecatedWrongOwnerCount sleCreator;
    short ← xlift (STAmount.ltb (mPriorBalance m) reserve);
    if short : bool then mret (if crossed then tesSUCCESS else tecINSUF_RESERVE_OFFER, true)
    else
      result ← in_view (place c m sleCreator uSequence uRate uExpiration saTakerPays saTakerGets);
      mret (result, true).

(** Crossing, and what is left after it; [inl] when that is the end. *)
Definition cross_first (c : Ctx) (m : Mem) (saTakerPays saTakerGets : STAmount.t) : X W ((TER * bool) + (bool * STAmount.t * STAmount.t)) :=
  let taker_amount := mkAmounts saTakerGets saTakerPays in
  r ← cross c m taker_amount;
  let '(result, place_offer) := r in
  _ ← xlift (Keylet.assert (negb (bool_decide (result = tefINTERNAL))));
  bOpenLedger ← in_view vopen;
  let result := if bool_decide (result = tecFAILED_PROCESSING) && bOpenLedger then telFAILED_PROCESSING else result in
  if negb (bool_decide (result = tesSUCCESS)) then mret (inl (result, true))
  else
    _ ← xlift (Keylet.assert (STAmount.issue_eqb (STAmount.mIssue saTakerGets) (STAmount.mIssue (in_ place_offer))));
    _ ← xlift (Keylet.assert (STAmount.issue_eqb (STAmount.mIssue saTakerPays) (STAmount.mIssue (out place_offer))));
    let crossed := negb (Quality.amounts_eqb taker_amount place_offer) in
    if (STAmount.signum (in_ place_offer) <? 0) || (STAmount.signum (out place_offer) <? 0) then mret (inl (tefINTERNAL, true))
    else if isZero (in_ place_offer) || isZero (out place_offer) then mret (inl (result, true))
    else mret (inr (crossed, out place_offer, in_ place_offer)).

(** The part of [applyGuts] after the cancellation, with its result. *)
Definition apply_new (c : Ctx) (m : Mem) (sleCreator : loc) (deprecatedWrongOwnerCount uSequence uRate uExpiration : Z) (result : TER)
    (saTakerPays saTakerGets : STAmount.t) : X W (TER * bool) := fun s =>
  if isFieldPresent sfExpiration (tx_o c) && (uExpiration <=? parent_close s) then Ok ((tesSUCCESS, true), s)
  else
    (result ← (if bool_decide (result = tesSUCCESS) && negb (STAmount.mIsNative saTakerPays)
               then checkAcceptAsset c m (STAmount.mIssue saTakerPays) else mret result);
     next ← (if bool_decide (result = tesSUCCESS) then cross_first c m saTakerPays saTakerGets else mret (inr (false, saTakerPays, saTakerGets)));
     match next with
     | inl final => mret final
     | inr (crossed, saTakerPays, saTakerGets) =>
         _ ← xlift (Keylet.assert (positive saTakerPays && positive saTakerGets));
         if negb (bool_decide (result = tesSUCCESS)) then mret (result, true)
         else place_rest c m sleCreator deprecatedWrongOwnerCount uSequence uRate uExpiration crossed saTakerPays saTakerGets
     end) s.

(** The result, and whether the first sandbox is the one to keep. *)
Definition applyGuts (c : Ctx) (m : Mem) : X W (TER * bool) :=
  saTakerPays ← xlift (getFieldAmount sfTakerPays (tx_o c));
  saTakerGets ← xlift (getFieldAmount sfTakerGets (tx_o c));
  if negb (STAmount.isLegalNet saTakerPays) || negb (STAmount.isLegalNet saTakerGets) then mret (temBAD_AMOUNT, true)
  else
    uExpiration ← xlift (getFieldU32 sfExpiration (tx_o c));
    uCancelSequence ← xlift (getFieldU32 sfOfferSequence (tx_o c));
    p ← in_view (peek (Indexes.account (account_ m)));
    sleCreator ← in_view (need p);
    deprecatedWrongOwnerCount ← in_view (get sleCreator (getFieldU32 sfOwnerCount));
    uAccountSequenceNext ← in_view (get sleCreator (getFieldU32 sfSequence));
    uSequence ← xlift (getFieldU32 sfSequence (tx_o c));
    uRate ← xlift (STAmount.getRate saTakerGets saTakerPays);
    result ← in_view (refused c m saTakerPays saTakerGets uCancelSequence uAccountSequenceNext);
    if negb (bool_decide (result = tesSUCCESS)) then mret (result, true)
    else
      result ← in_view (cancel_old c m uCancelSequence);
      apply_new c m sleCreator deprecatedWrongOwnerCount uSequence uRate uExpiration result saTakerPays saTakerGets.

(** [Sandbox (&ctx_.view ())]. *)
Definition sandbox (s : St Base) : St W := mkSt (ApplyView.make (av s)) [].

Definition doApply (c : Ctx) (m : Mem) : M Base TER := fun s =>
  r ← applyGuts c m (mkViews (sandbox s) (sandbox s));
  let '((result, keep), views) := r in
  v ← ApplyView.apply (av (if keep : bool then view views else view_cancel views)) (av s);
  Ok (result, mkSt v (tabs s)).

Definition processor : Processor (B := B) BasicTaker.CrossType :=
  plain BasicTaker.IouToIou (fun c m => lift (preCheck c m)) (fun c m => t ← doApply c m; mret (t, no_effects)).

End offers.
End CreateOfferTx.
