(* ===== verification/OfferRun.v ===== *)
(** * Offers in the ledger

    What [CreateOfferTx] does to the ledger when nothing crosses: the offer is
    inserted and listed in the directory of its owner and in its book, at the
    price it was made for. *)

From stdpp Require Import base tactics numbers list strings gmap sorting option.
From S2P Require Import Prelude Decimal IOUAmount BigNum Serializer STAmount AmountArith Quality.
From S2P Require Import View StateTable ApplyStateTable Fields Indexes PaymentSandbox ViewOps.
From S2P Require Import Directory TrustLines Transfers LineCredit LineLife Change LoadFeeTrack MultiSign TxMeta Threading.
From S2P Require Import Footprint Transactor TransactorRun TransactorSteps TxFlags AccountTx SignerListTx SignerListRun AccountRun OwnedTx OwnedRun.
From S2P Require Import BasicTaker TakerFlow TakerCross OfferTaker OfferBook CreateOfferTx.

Module OfferRun.
Import Fields Indexes ViewOps Directory TrustLines Transfers LineLife Change Transactor TransactorRun SignerListRun OwnedRun TwoViews CreateOfferTx.

Abbreviation dir_of id := (getOwnerDirIndex id).
Abbreviation root_of id := (getAccountRootIndex id).

(** ** Describing the pages of a book *)

Section describe.
Context `{Build} {SHA : SHA512Half} {V : Type} {RV : ReadView STObject V}.

(** Two assignments through a pointer are one. *)
Lemma set_set p (f g : STObject -> result STObject) (s : St V) :
  (_ ← set p f; set p g) s = set p (fun o => o' ← f o; g o') s.
Proof.
  unfold set, mbind, M_bind, deref, lift, do_view, on_view, ApplyView.write, ApplyView.with_items, ApplyStateTable.write, ApplyStateTable.deref.
  destruct (ApplyStateTable.heap (ApplyView.items_ (av s)) !! p) as [e|] eqn:Hp; cbn; [|done]. destruct (f (fields e)) as [o| |]; cbn; [|done|done].
  rewrite Hp. cbn. rewrite lookup_insert_eq. cbn. destruct (g o) as [o'| |]; cbn; [|done|done]. rewrite lookup_insert_eq. cbn. rewrite Hp. cbn. by rewrite insert_insert_eq.
Qed.

Lemma bind_ext {A C} (m : M V A) (f g : A -> M V C) (s : St V) : (forall a s, f a s = g a s) -> (m ≫= f) s = (m ≫= g) s.
Proof. intros Hfg. unfold mbind, M_bind. destruct (m s) as [[a s']| |]; [apply Hfg|done|done]. Qed.

Lemma bind_first {A C} (m n : M V A) (f : A -> M V C) (s : St V) : m s = n s -> (m ≫= f) s = (n ≫= f) s.
Proof. unfold mbind, M_bind. by intros ->. Qed.

(** [dirAdd] depends only on what the describer does. *)
Lemma dirAdd_ext root x (f g : loc -> bool -> M V unit) (s : St V) : (forall p c s, f p c s = g p c s) -> dirAdd root x f s = dirAdd root x g s.
Proof.
  intros Hfg. unfold dirAdd, dirAdd_last. apply bind_ext. intros found s1. destruct found.
  - do 3 (apply bind_ext; intros ? ?). case_match; [done|]. case_match; [done|].
    do 7 (apply bind_ext; intros ? ?). by apply bind_first.
  - do 2 (apply bind_ext; intros ? ?). by apply bind_first.
Qed.

End describe.

Definition book_fields (pc pi gc gi rate : Z) (_ : bool) (o : STObject) : result STObject :=
  o ← setFieldH160 sfTakerPaysCurrency pc o; o ← setFieldH160 sfTakerPaysIssuer pi o;
  o ← setFieldH160 sfTakerGetsCurrency gc o; o ← setFieldH160 sfTakerGetsIssuer gi o;
  setFieldU64 sfExchangeRate rate o.

Lemma page_field root prev next es o f v : page_of root prev next es o -> bool_decide (f ∈ DirectoryNode.*1) = true -> getSType v = fieldType f ->
  f ∉ [sfIndexes; sfRootIndex; sfIndexPrevious; sfIndexNext] -> exists o', setField f v o = Ok o' /\ page_of root prev next es o'.
Proof.
  intros Ho Hf Hv Hn. apply bool_decide_eq_true in Hf. destruct (page_set _ _ _ _ _ f v Ho) as [-> Hp]; [done|done|].
  eexists. split; [done|]. rewrite !not_elem_of_cons in Hn. destruct Hn as (N1 & N2 & N3 & N4 & _). destruct Ho as [Hi Hr _ Hpr Hnx].
  split; unfold u64_at in *; rewrite ?lookup_insert_ne by done; done.
Qed.

Lemma book_describes root pc pi gc gi rate : describes root (book_fields pc pi gc gi rate).
Proof.
  intros c prev next es o Ho. unfold book_fields, setFieldH160, setFieldU64.
  assert (Hne : forall f, bool_decide (f ∉ [sfIndexes; sfRootIndex; sfIndexPrevious; sfIndexNext]) = true -> f ∉ [sfIndexes; sfRootIndex; sfIndexPrevious; sfIndexNext])
    by (intros f; apply bool_decide_eq_true).
  destruct (page_field _ _ _ _ _ sfTakerPaysCurrency (H160 pc) Ho) as (o1 & -> & H1); [done|done|by apply Hne|]. cbn.
  destruct (page_field _ _ _ _ _ sfTakerPaysIssuer (H160 pi) H1) as (o2 & -> & H2); [done|done|by apply Hne|]. cbn.
  destruct (page_field _ _ _ _ _ sfTakerGetsCurrency (H160 gc) H2) as (o3 & -> & H3); [done|done|by apply Hne|]. cbn.
  destruct (page_field _ _ _ _ _ sfTakerGetsIssuer (H160 gi) H3) as (o4 & -> & H4); [done|done|by apply Hne|]. cbn.
  by apply page_field; [..|apply Hne].
Qed.

(** ** The new offer *)

Definition offer0 : STObject := Eval vm_compute in match make_SLE (Keylet.mk ltOFFER 1) with Ok e => fields e | _ => ∅ end.

Lemma make_offer0 x : make_SLE (Keylet.mk ltOFFER x) = Ok (mkSLE x ltOFFER offer0).
Proof. vm_compute. reflexivity. Qed.

Lemma offer0_typed : conforms OfferFormat offer0.
Proof.
  destruct (make_SLE_conforms ltOFFER 1 OfferFormat eq_refl) as (o & Ho & Hc). rewrite make_offer0 in Ho. by injection Ho as <-.
Qed.

(** An offer of the ledger: who makes it, its number, what is paid and what is
    got, the directory of its book, and the pages that list it. *)
Record OfferData := mkData {
  d_owner : Z; d_sequence : Z; d_book : Z; d_pays : STAmount.t; d_gets : STAmount.t; d_ownerNode : Z; d_bookNode : Z;
  d_expiration : Z; d_passive : bool; d_sell : bool }.

Definition offer_base (f : OfferData) : STObject :=
  <[sfBookNode := Some (U64 (d_bookNode f))]> (<[sfOwnerNode := Some (U64 (d_ownerNode f))]>
  (<[sfTakerGets := Some (AMT (d_gets f))]> (<[sfTakerPays := Some (AMT (d_pays f))]>
  (<[sfBookDirectory := Some (H256 (d_book f))]> (<[sfSequence := Some (U32 (d_sequence f))]>
  (<[sfAccount := Some (ACC (d_owner f))]> offer0)))))).

Definition when_true (c : bool) (g : STObject -> STObject) (o : STObject) : STObject := if c then g o else o.

Definition offer_object (f : OfferData) : STObject :=
  when_true (d_sell f) (setFlag lsfSell) (when_true (d_passive f) (setFlag lsfPassive)
    (when_true (negb (d_expiration f =? 0)) <[sfExpiration := Some (U32 (d_expiration f))]> (offer_base f))).

Lemma conforms_flag f o : conforms OfferFormat o -> conforms OfferFormat (setFlag f o).
Proof.
  intros Ho. unfold setFlag. repeat case_match; try done. apply AccountRun.conforms_insert; [done|by apply (bool_decide_unpack _)|done].
Qed.

Lemma offer_base_typed f : conforms OfferFormat (offer_base f).
Proof. unfold offer_base. do 7 (apply AccountRun.conforms_insert; [|by apply (bool_decide_unpack _)|done]). apply offer0_typed. Qed.

Lemma offer_object_typed f : conforms OfferFormat (offer_object f).
Proof.
  unfold offer_object, when_true. assert (H1 := offer_base_typed f).
  assert (H2 : conforms OfferFormat (if negb (d_expiration f =? 0) then <[sfExpiration := Some (U32 (d_expiration f))]> (offer_base f) else offer_base f)).
  { case_match; [apply AccountRun.conforms_insert; [done|by apply (bool_decide_unpack _)|done]|done]. }
  destruct (d_sell f), (d_passive f); repeat apply conforms_flag; done.
Qed.

Lemma setFlag_other f g o : g <> sfFlags -> setFlag f o !! g = o !! g.
Proof. intros Hg. unfold setFlag. repeat case_match; try done. by rewrite lookup_insert_ne. Qed.

(** What the offer says, so that it can be found, taken and cancelled. *)
Lemma offer_object_spec f : let o := offer_object f in
  acc_of sfAccount o = d_owner f /\ u32_of sfSequence o = d_sequence f /\ h256_of sfBookDirectory o = d_book f /\
  getFieldAmount sfTakerPays o = Ok (d_pays f) /\ getFieldAmount sfTakerGets o = Ok (d_gets f) /\
  u64_of sfOwnerNode o = d_ownerNode f /\ u64_of sfBookNode o = d_bookNode f.
Proof.
  cbn zeta. unfold offer_object, when_true, acc_of, u32_of, h256_of, u64_of, getFieldAmount, getField.
  destruct (d_sell f), (d_passive f), (negb (d_expiration f =? 0)); rewrite ?setFlag_other by done; unfold offer_base;
    by repeat first [rewrite lookup_insert_eq | rewrite lookup_insert_ne by done].
Qed.

(** ** Placing *)

Section placing.
Context `{Build} {SHA : SHA512Half} {SL : SHA512HalfLaws SHA} {B : Type} {RV : ReadView STObject B}.
Context {VM : ViewModel STObject B} {RL : ReadViewLaws STObject B}.

Abbreviation Base := (OpenView.t STObject B).
Abbreviation W := (ApplyView.t STObject Base).

Variables (b : W) (d : Z * Z).

(** The next assignment to an object that is not in the view yet. *)
Lemma fill_new {A} s m ptrs p x o g o' (K : M W A) (Q : A -> St W -> Prop) :
  rep b d s (mkKnow m ptrs (<[p := mkSLE x ltOFFER o]> ∅) ApplyStateTable.none) -> g o = Ok o' ->
  (forall s', tabs s' = tabs s -> rep b d s' (mkKnow m ptrs (<[p := mkSLE x ltOFFER o']> ∅) ApplyStateTable.none) -> wpm K s' Q) ->
  wpm (_ ← set p g; K) s Q.
Proof.
  intros Hr Hg HK. apply wpm_bind. eapply set_loose_rule; [exact Hr|apply lookup_insert_eq|exact Hg|].
  intros s' Ht Hr'. cbn [am ap loose dirty with_fields sle_key getType] in Hr'. rewrite insert_insert_eq in Hr'. by apply HK.
Qed.

Lemma fill_field {A} s m ptrs p x o f v (K : M W A) (Q : A -> St W -> Prop) :
  rep b d s (mkKnow m ptrs (<[p := mkSLE x ltOFFER o]> ∅) ApplyStateTable.none) -> conforms OfferFormat o ->
  bool_decide (f ∈ OfferFormat.*1) = true -> getSType v = fieldType f ->
  (forall s', tabs s' = tabs s -> conforms OfferFormat (<[f := Some v]> o) ->
     rep b d s' (mkKnow m ptrs (<[p := mkSLE x ltOFFER (<[f := Some v]> o)]> ∅) ApplyStateTable.none) -> wpm K s' Q) ->
  wpm (_ ← set p (setField f v); K) s Q.
Proof.
  intros Hr Ho Hf Hv HK. eapply fill_new; [exact Hr|apply setField_ok; [by apply offer_place|done]|]. intros s' Ht Hr'.
  apply HK; [done| |exact Hr']. apply AccountRun.conforms_insert; [done|by apply bool_decide_eq_true in Hf|done].
Qed.

Lemma fill_if {A} s m ptrs p x o g h (c : bool) (K : M W A) (Q : A -> St W -> Prop) :
  rep b d s (mkKnow m ptrs (<[p := mkSLE x ltOFFER o]> ∅) ApplyStateTable.none) -> (c = true -> g o = Ok (h o)) ->
  (forall s', tabs s' = tabs s -> rep b d s' (mkKnow m ptrs (<[p := mkSLE x ltOFFER (when_true c h o)]> ∅) ApplyStateTable.none) -> wpm K s' Q) ->
  wpm (_ ← (if c then set p g else mret tt); K) s Q.
Proof. intros Hr Hg HK. destruct c; [eapply fill_new; [exact Hr|by apply Hg|done]|]. apply wpm_bind, wpm_ret. by apply HK. Qed.

Definition new_data (c : Ctx) (mem : Mem) (sq book ownerNode bookNode expiration : Z) (pays gets : STAmount.t) : OfferData :=
  mkData (account_ mem) sq book pays gets ownerNode bookNode expiration
    (has (getFlags (tx_o c)) TxFlags.tfPassive) (has (getFlags (tx_o c)) TxFlags.tfSell).

Lemma insert_offer_rule s m ptrs c mem x sq book n1 n2 e pays gets (Q : unit -> St W -> Prop) :
  rep b d s (mkKnow m ptrs ∅ ApplyStateTable.none) -> x <> 0 -> m !! x = None ->
  (forall p s', tabs s' = tabs s ->
     rep b d s' (mkKnow (<[x := mkSLE x ltOFFER (offer_object (new_data c mem sq book n1 n2 e pays gets))]> m) (<[x := (p, true)]> ptrs) ∅ ApplyStateTable.none) -> Q tt s') ->
  wpm (insert_offer c mem x sq book n1 n2 e pays gets) s Q.
Proof.
  intros Hr Hx Hnew HQ. unfold insert_offer. apply wpm_bind. eapply wpm_lift; [apply make_offer0|].
  apply wpm_bind. eapply make_shared_rule; [exact Hr|]. intros p s1 Ht1 _ Hr1. cbn [am ap loose dirty] in Hr1.
  eapply fill_field; [exact Hr1|apply offer0_typed|done|done|]. clear Hr1. intros s2 Ht2 Hc2 Hr2.
  eapply fill_field; [exact Hr2|exact Hc2|done|done|]. clear Hr2. intros s3 Ht3 Hc3 Hr3.
  eapply fill_field; [exact Hr3|exact Hc3|done|done|]. clear Hr3. intros s4 Ht4 Hc4 Hr4.
  eapply fill_field; [exact Hr4|exact Hc4|done|done|]. clear Hr4. intros s5 Ht5 Hc5 Hr5.
  eapply fill_field; [exact Hr5|exact Hc5|done|done|]. clear Hr5. intros s6 Ht6 Hc6 Hr6.
  eapply fill_field; [exact Hr6|exact Hc6|done|done|]. clear Hr6. intros s7 Ht7 Hc7 Hr7.
  eapply fill_field; [exact Hr7|exact Hc7|done|done|]. clear Hr7. intros s8 Ht8 Hc8 Hr8.
  change (<[sfBookNode := _]> _) with (offer_base (new_data c mem sq book n1 n2 e pays gets)) in Hr8.
  eapply (fill_if _ _ _ _ _ _ _ <[sfExpiration := Some (U32 e)]>); [exact Hr8|intros _; apply setField_ok; [by apply offer_place; [apply offer_base_typed|]|done]|].
  clear Hr8. intros s9 Ht9 Hr9. eapply (fill_if _ _ _ _ _ _ _ (setFlag lsfPassive)); [exact Hr9|done|].
  clear Hr9. intros s10 Ht10 Hr10. eapply (fill_if _ _ _ _ _ _ _ (setFlag lsfSell)); [exact Hr10|done|].
  clear Hr10. intros s11 Ht11 Hr11. eapply insert_rule; [exact Hr11|apply lookup_insert_eq|done|done|].
  intros s12 Ht12 Hr12. cbn [am ap loose dirty sle_key] in Hr12. rewrite delete_insert_id in Hr12 by done.
  eapply HQ; [congruence|exact Hr12].
Qed.

Lemma describer_sets pc pi gc gi rate p c (s : St W) :
  qualityDirDescriber pc pi gc gi rate p c s = set p (book_fields pc pi gc gi rate c) s.
Proof.
  unfold qualityDirDescriber. unfold book_fields.
  etransitivity; [apply bind_ext; intros [] s1|apply (set_set p _ (fun o => _))].
  etransitivity; [apply bind_ext; intros [] s2|apply (set_set p _ (fun o => _))].
  etransitivity; [apply bind_ext; intros [] s3|apply (set_set p _ (fun o => _))]. apply set_set.
Qed.

(** The key goes into the directory of a book. *)
Lemma book_rule s k root pc pi gc gi rate pages x (Q : TER * Z -> St W -> Prop) : rep b d s k ->
  pages_distinct root -> no_pages root (ap k) -> dir (am k) root pages -> room pages ->
  (forall n m' s', tabs s' = tabs s -> rep b d s' (mkKnow m' (ap k) (loose k) (dirty k)) ->
     listed m' root x n pages -> (forall i, outside root i -> m' !! i = am k !! i) -> Q (tesSUCCESS, n) s') ->
  wpm (dirAdd root x (qualityDirDescriber pc pi gc gi rate)) s Q.
Proof.
  intros Hr Hroot Hnp Hd Hroom HQ.
  assert (Hw : wpm (dirAdd root x (fun p c => set p (book_fields pc pi gc gi rate c))) s Q).
  { eapply (dirAdd_rule root Hroot); [exact Hr|apply book_describes|exact Hd|done|].
    intros r n m' s' Ht Hr' [Hout [(-> & pages' & Hd' & He & es & Hl)|(-> & -> & es & Hl & _)]]; [|by destruct (Hroom es)].
    eapply HQ; [done|exact Hr'| |done]. by exists pages', es. }
  destruct Hw as (a & s' & Hrun & Ha). exists a, s'. split; [|done]. rewrite <- Hrun. apply dirAdd_ext. intros p c s0. apply describer_sets.
Qed.

(** The ledger is ready for an offer of [id] in the book directory [root]. *)
Record placeable (m : gmap Z Entry) (x id n root : Z) (o : STObject) (pages books : list (Z * list Z)) : Prop := {
  pl_owner : owner m id n o pages;
  pl_free : m !! x = None;
  pl_room : room pages /\ room books;
  pl_book : dir m root books;
  pl_distinct : pages_distinct root /\ apart (dir_of id) root;
  pl_outside : outside root x /\ outside root (root_of id) }.

(** The offer is in the ledger, in the directory of its owner and in its book, and
    its owner is charged for it. *)
Record placed (m m' : gmap Z Entry) (x id n root : Z) (o : STObject) (pages books : list (Z * list Z)) (data : Z -> Z -> OfferData) : Prop := {
  pd_offer : exists n1 n2, m' !! x = Some (mkSLE x ltOFFER (offer_object (data n1 n2))) /\
    listed m' (dir_of id) x n1 pages /\ listed m' root x n2 books;
  pd_owner : m' !! root_of id = Some (account_entry id (with_owners o (n + 1)));
  pd_others i : i <> x -> i <> root_of id -> outside (dir_of id) i -> outside root i -> m' !! i = m !! i }.

Lemma place_rule s m c mem p f id sq rate e pays gets base n o pages books : let x := getOfferIndex id sq in let root := getQualityIndex base rate in
  rep b d s (mkKnow m (<[root_of id := (p, f)]> ∅) ∅ ApplyStateTable.none) -> account_ mem = id ->
  getBookBase (mkBook (STAmount.mIssue pays) (STAmount.mIssue gets)) = Ok base -> placeable m x id n root o pages books ->
  wpm (place c mem p sq rate e pays gets) s (fun r s' => r = tesSUCCESS /\ tabs s' = tabs s /\ exists m' ptrs,
    rep b d s' (mkKnow m' ptrs ∅ ApplyStateTable.none) /\
    placed m m' x id n root o pages books (fun n1 n2 => new_data c mem sq root n1 n2 e pays gets)).
Proof.
  intros x root Hr Hid Hbase [Ho Hfree [Hroom1 Hroom2] Hbook [Hdist Hap] [Hox Hor]]. destruct (offer_apart id sq) as (Hx0 & Hxr & Hxd). fold x in Hx0, Hxr, Hxd.
  pose proof (o_range _ _ _ _ _ Ho) as [Hn0 Hn1]. unfold place. rewrite Hid. fold x. apply wpm_bind.
  eapply list_rule; [exact Hr|apply ownerDir_pages| |apply Ho|exact Hroom1|].
  { intros a Ha. cbn [ap]. rewrite lookup_insert_ne by (by apply account_outside). apply lookup_empty. }
  intros n1 m1 s1 Ht1 Hr1 Hl1 Hout1. cbn [am ap loose dirty fst snd] in *. rewrite bool_decide_eq_true_2 by done. cbn [negb].
  assert (He1 : m1 !! root_of id = Some (account_entry id o)) by (rewrite Hout1 by apply account_outside; apply Ho).
  apply wpm_bind. eapply (adjustOwnerCount_rule _ _ _ _ (root_of id)); [exact Hr1|apply lookup_insert_eq|exact He1|apply Ho|done|lia|lia|right; lia|].
  intros s2 Ht2 Hr2. cbn [am ap loose dirty fields account_entry] in Hr2. rewrite insert_insert_eq in Hr2.
  assert (Hcl : clamp32 (n + 1) = n + 1) by (unfold clamp32; lia). rewrite Hcl in Hr2.
  apply wpm_bind. eapply wpm_lift; [exact Hbase|]. fold root. apply wpm_bind. eapply book_rule; [exact Hr2|exact Hdist| | |exact Hroom2|].
  { intros a Ha. cbn [ap]. rewrite lookup_insert_ne by (by apply Hor). apply lookup_empty. }
  { eapply dir_outside; [exact Hbook|]. intros a Ha. cbn [am]. rewrite lookup_insert_ne by (by apply Hor). by apply Hout1, apart_outside. }
  intros n2 m2 s3 Ht3 Hr3 Hl2 Hout2. cbn [am ap loose dirty fst snd] in *. rewrite bool_decide_eq_true_2 by done. cbn [negb].
  apply wpm_bind. eapply insert_offer_rule; [exact Hr3|exact Hx0| |].
  { rewrite Hout2 by exact Hox. rewrite lookup_insert_ne by (by apply not_eq_sym, Hxr). by rewrite Hout1 by apply Hxd. }
  intros q s4 Ht4 Hr4. apply wpm_ret. split; [done|]. split; [congruence|]. eexists _, _. split; [exact Hr4|]. split.
  - exists n1, n2. split; [apply lookup_insert_eq|]. split.
    + eapply listed_frame; [exact Hl1|]. intros a Ha. rewrite lookup_insert_ne by (by apply Hxd).
      rewrite Hout2 by (intros a' Ha'; by apply Hap). by rewrite lookup_insert_ne by (by apply account_outside).
    + eapply listed_frame; [exact Hl2|]. intros a Ha. by rewrite lookup_insert_ne by (by apply Hox).
  - rewrite lookup_insert_ne by apply Hxr. rewrite Hout2 by exact Hor. apply lookup_insert_eq.
  - intros i Hi1 Hi2 Hi3 Hi4. rewrite lookup_insert_ne by (by apply not_eq_sym). rewrite Hout2 by done.
    rewrite lookup_insert_ne by (by apply not_eq_sym). by apply Hout1.
Qed.

End placing.

End OfferRun.
