(* ===== verification/OfferMade.v ===== *)
(** * Making an offer that meets no other

    The whole transactor on an offer whose book has no offers to take: it is
    placed, unless it is not meant to stay or its owner cannot afford it. *)

From stdpp Require Import base tactics numbers list strings gmap sorting option.
From S2P Require Import Prelude Decimal IOUAmount BigNum Serializer STAmount AmountArith Quality.
From S2P Require Import View StateTable ApplyStateTable Fields Indexes PaymentSandbox ViewOps.
From S2P Require Import Directory TrustLines Transfers LineCredit LineLife Change LoadFeeTrack MultiSign TxMeta Threading.
From S2P Require Import Footprint Transactor TransactorRun TransactorSteps TxFlags AccountTx SignerListTx SignerListRun AccountRun OwnedTx OwnedRun.
From S2P Require Import BasicTaker TakerFlow TakerCross OfferTaker OfferBook CreateOfferTx OfferRun.

Module OfferMade.
Import Fields Indexes ViewOps Directory TrustLines Transfers LineLife Change Transactor TransactorRun TxFlags SignerListRun OwnedRun TwoViews.
Import OfferTaker CreateOfferTx OfferRun.

#[local] Existing Instance BasicTaker.CrossType_eq_dec.

(** ** Views that read alike *)

Section agree.
Context `{Build} {SHA : SHA512Half} {SL : SHA512HalfLaws SHA} {V V' : Type} {RV : ReadView STObject V} {RV' : ReadView STObject V'}.

Definition agree (v : V) (v' : V') : Prop := forall kl, Keylet.key kl <> 0 -> View.vread v kl = View.vread v' kl.

Lemma line_key a c cur : Keylet.key (line a c cur) <> 0.
Proof. apply getRippleStateIndex_pos. Qed.

Lemma account_key a : Keylet.key (Indexes.account a) <> 0.
Proof. apply getAccountRootIndex_pos. Qed.

Context (v : V) (v' : V') (Ha : agree v v').

Lemma isGlobalFrozen_agree i : isGlobalFrozen v i = isGlobalFrozen v' i.
Proof. unfold isGlobalFrozen. case_if; [done|]. by rewrite Ha by apply account_key. Qed.

Lemma isFrozen_agree a c i : isFrozen v a c i = isFrozen v' a c i.
Proof.
  unfold isFrozen. case_if; [done|]. rewrite (Ha (Indexes.account i)) by apply account_key. destruct (View.vread v' (Indexes.account i)) as [r| |]; [|done|done].
  cbn. case_if; [done|]. case_if; [|done]. by rewrite (Ha (line a i c)) by apply line_key.
Qed.

Lemma accountFunds_agree f t a x h : accountFunds f t v a x h = accountFunds f t v' a x h.
Proof.
  unfold accountFunds, accountHolds, accountHolds_amount. case_if; [done|]. f_equal. case_if; [by rewrite Ha by apply account_key|].
  rewrite Ha by apply line_key. destruct (View.vread v' (line a _ _)) as [[e|]| |]; [|done|done|done]. cbn. by rewrite isFrozen_agree.
Qed.

Lemma rippleTransferRate_agree i : rippleTransferRate v i = rippleTransferRate v' i.
Proof. unfold rippleTransferRate. by rewrite Ha by apply account_key. Qed.

End agree.

Lemma agree_contents `{Build} {V V'} {RV : ReadView STObject V} {VM : ViewModel STObject V} {RL : ReadViewLaws STObject V}
    {RV' : ReadView STObject V'} {VM' : ViewModel STObject V'} {RL' : ReadViewLaws STObject V'} (v : V) (v' : V') :
  good v -> good v' -> contents v = contents v' -> agree v v'.
Proof. intros Hg Hg' Hc kl Hk. rewrite !read_law by done. by rewrite Hc. Qed.

(** ** A book without offers *)

Section nobody.
Context `{Build} {SHA : SHA512Half} {SL : SHA512HalfLaws SHA} {B : Type} {RV : ReadView STObject B} {N : BN}.
Context {VM : ViewModel STObject B} {RL : ReadViewLaws STObject B}.

Abbreviation Base := (OpenView.t STObject B).
Abbreviation W := (ApplyView.t STObject Base).

Lemma xbind {A C} (m : X W A) (f : A -> X W C) s a s' : m s = Ok (a, s') -> (m ≫= f) s = f a s'.
Proof. unfold mbind, X_bind. by intros ->. Qed.

Lemma view_ok {A} (m : M W A) (s : Views W) a : m (view s) = Ok (a, view s) -> in_view m s = Ok (a, s).
Proof. unfold in_view. intros ->. by destruct s. Qed.

(** No directory of the book with this base. *)
Definition no_offers (m : gmap Z Entry) (base : Z) : Prop := forall key, base < key < getQualityNext base -> m !! key = None.

Context (fuel : nat) (Hfuel : (0 < fuel)%nat).
Context (c : Ctx) (s : Views W) (m : gmap Z Entry) (Hgood : good (av (view s))) (Hm : contents (av (view s)) = m).

Lemma tip_nobody base : no_offers m base ->
  BookTip.step fuel (BookTip.mk false base (getQualityNext base) 0 0 None 0) (view s) =
  Ok ((false, BookTip.mk false base (getQualityNext base) 0 0 None 0), view s).
Proof.
  intros Hno. unfold BookTip.step. cbn [BookTip.m_entry]. destruct fuel as [|n]; [lia|]. cbn [BookTip.next_directory]. unfold mbind, M_bind, mret, M_ret.
  unfold BookTip.vsucc. cbn [BookTip.m_book BookTip.m_end].
  destruct (succ_law (av (view s)) base (Some (getQualityNext base)) Hgood) as (r & Hr & Hn).
  change (ApplyView.succ (av (view s)) base (Some (getQualityNext base))) with (View.vsucc (av (view s)) base (Some (getQualityNext base))).
  rewrite Hr. cbn. destruct r as [k|]; [|done]. exfalso. destruct Hn as (H1 & [e He] & H2 & _). cbn in H2. rewrite Hm, Hno in He; done.
Qed.

Lemma stream_nobody base when : no_offers m base -> let st := OfferStream.mk when (BookTip.mk false base (getQualityNext base) 0 0 None 0) no_offer in
  OfferStream.step fuel (fees c) st s = Ok ((false, st), s).
Proof.
  intros Hno st. unfold OfferStream.step. pose proof (tip_nobody base Hno) as Ht. destruct fuel as [|n] eqn:Ef; [lia|]. cbn [OfferStream.step_from].
  erewrite xbind by (apply view_ok; exact Ht). done.
Qed.

Lemma step_account_nobody base when k : no_offers m base -> let st := OfferStream.mk when (BookTip.mk false base (getQualityNext base) 0 0 None 0) no_offer in
  step_account fuel c fuel st k s = Ok ((false, st), s).
Proof.
  intros Hno st. pose proof (stream_nobody base when Hno) as Hs. destruct fuel as [|n] eqn:Ef; [lia|]. cbn [step_account].
  erewrite xbind by exact Hs. done.
Qed.

(** A taker that has not crossed, and has funds. *)
Lemma remaining_nobody k funds : BasicTaker.remaining_ (basic k) = BasicTaker.original_ (basic k) ->
  0 < STAmount.signum (in_ (BasicTaker.original_ (basic k))) -> 0 < STAmount.signum (out (BasicTaker.original_ (basic k))) ->
  get_funds (fees c) (view s) (account k) (in_ (BasicTaker.original_ (basic k))) = Ok funds -> 0 < STAmount.signum funds ->
  remaining c k (view s) = Ok (BasicTaker.original_ (basic k), view s).
Proof.
  intros Hrem Hi Ho Hf Hpos. unfold remaining, with_funds, BasicTaker.remaining_offer, BasicTaker.done. rewrite Hrem.
  rewrite (proj2 (Z.leb_gt _ _) Hi), (proj2 (Z.leb_gt _ _) Ho), andb_false_r. rewrite Hf. cbn [mbind result_bind].
  rewrite (proj2 (Z.leb_gt _ _) Hpos). unfold Quality.amounts_eqb. by rewrite !Quality.eqb_refl.
Qed.

Lemma direct_nobody k when base rest : getBookBase (mkBook (BasicTaker.issue_in (basic k)) (BasicTaker.issue_out (basic k))) = Ok base -> no_offers m base ->
  remaining c k (view s) = Ok (rest, view s) -> direct_cross fuel c k when s = Ok ((tesSUCCESS, rest), s).
Proof.
  intros Hb Hno Hrem. unfold direct_cross, OfferStream.make, BookTip.make. rewrite Hb. cbn [mbind result_bind].
  erewrite xbind by reflexivity. erewrite xbind by (by apply step_account_nobody). cbn [fst snd].
  erewrite xbind. 2: { destruct fuel; [lia|]. cbn [direct_loop negb]. reflexivity. }
  cbn [fst snd]. by erewrite xbind by (apply view_ok; exact Hrem).
Qed.

Lemma bridged_nobody k when base leg1 leg2 rest : let i := BasicTaker.issue_in (basic k) in let o := BasicTaker.issue_out (basic k) in
  STAmount.isXRP (in_ (BasicTaker.original_offer (basic k))) = false -> STAmount.isXRP (out (BasicTaker.original_offer (basic k))) = false ->
  getBookBase (mkBook i o) = Ok base -> no_offers m base -> getBookBase (mkBook i STAmount.xrpIssue) = Ok leg1 -> no_offers m leg1 ->
  getBookBase (mkBook STAmount.xrpIssue o) = Ok leg2 -> remaining c k (view s) = Ok (rest, view s) ->
  bridged_cross fuel c k when s = Ok ((tesSUCCESS, rest), s).
Proof.
  intros i o Hi Ho Hb Hno Hb1 Hno1 Hb2 Hrem. unfold bridged_cross, OfferStream.make, BookTip.make. fold i o. rewrite Hi, Ho, Hb, Hb1, Hb2. cbn [mbind result_bind orb negb].
  erewrite xbind by (unfold xlift; rewrite assert_true by done; reflexivity). erewrite xbind by reflexivity.
  do 3 (erewrite xbind by reflexivity). erewrite xbind by (by apply stream_nobody). cbn [fst snd step_leg].
  erewrite xbind by reflexivity. erewrite xbind by (by apply step_account_nobody). cbn [fst snd].
  erewrite xbind. 2: { destruct fuel; [lia|]. cbn [bridged_loop have_direct have_bridge orb negb]. reflexivity. }
  cbn [fst snd]. by erewrite xbind by (apply view_ok; exact Hrem).
Qed.

End nobody.

(** ** The whole transactor *)

(** An amount is native exactly when its currency is the native one. *)
Definition regular (a : STAmount.t) : Prop := STAmount.isXRP a = STAmount.mIsNative a.

(** A transaction that offers [gets] for [pays], and cancels no offer. *)
Record offers (c : Ctx) (mem : Mem) (id sq expiration : Z) (pays gets : STAmount.t) : Prop := {
  of_pays : getFieldAmount sfTakerPays (tx_o c) = Ok pays;
  of_gets : getFieldAmount sfTakerGets (tx_o c) = Ok gets;
  of_legal : STAmount.isLegalNet pays = true /\ STAmount.isLegalNet gets = true;
  of_positive : 0 < STAmount.signum pays /\ 0 < STAmount.signum gets;
  of_regular : regular pays /\ regular gets /\ STAmount.mIsNative pays && STAmount.mIsNative gets = false;
  of_expiration : getFieldU32 sfExpiration (tx_o c) = Ok expiration;
  of_cancels : isFieldPresent sfOfferSequence (tx_o c) = false /\ getFieldU32 sfOfferSequence (tx_o c) = Ok 0;
  of_sequence : getFieldU32 sfSequence (tx_o c) = Ok sq;
  of_account : account_ mem = id;
  of_extra : extra mem = cross_type_of (STAmount.mIsNative pays) (STAmount.mIsNative gets) }.

Section made.
Context `{Build} {SHA : SHA512Half} {SL : SHA512HalfLaws SHA} {B : Type} {RV : ReadView STObject B} {N : BN}.
Context {VM : ViewModel STObject B} {RL : ReadViewLaws STObject B}.

Abbreviation Base := (OpenView.t STObject B).
Abbreviation W := (ApplyView.t STObject Base).

(** The account may hold what it asks for: the issuer exists, and authorized it
    if that is required. *)
Definition may_hold (v : W) (id : Z) (pays : STAmount.t) : Prop :=
  STAmount.mIsNative pays = true \/ exists e fl,
    View.vread v (Indexes.account (issuer pays)) = Ok (Some e) /\ getFieldU32 sfFlags (fields e) = Ok fl /\
    (has fl lsfRequireAuth = false \/ exists l lf,
      View.vread v (line id (issuer pays) (currency pays)) = Ok (Some l) /\ getFieldU32 sfFlags (fields l) = Ok lf /\
      has lf (if issuer pays <? id then lsfLowAuth else lsfHighAuth) = true).

(** The view in which the offer is made: the issuers have not frozen their
    currencies, the account has some of what it offers and may hold what it asks
    for, and nobody offers that for what it has, directly or for native
    currency. *)
Record market (v : W) (c : Ctx) (id rate : Z) (pays gets : STAmount.t) (base : Z) : Prop := {
  mk_thawed : isGlobalFrozen v (issuer pays) = Ok false /\ isGlobalFrozen v (issuer gets) = Ok false;
  mk_funded : exists funds, accountFunds (fees c) [] v id gets fhZERO_IF_FROZEN = Ok funds /\ 0 < STAmount.signum funds;
  mk_fees : forall i, i = issuer pays \/ i = issuer gets -> exists r, calculateRate v i id = Ok r /\ r <> 0;
  mk_holds : may_hold v id pays;
  mk_rate : STAmount.getRate gets pays = Ok rate;
  mk_quality : exists q, STAmount.getRate pays gets = Ok q /\ 0 < q;
  mk_book : getBookBase (mkBook (STAmount.mIssue pays) (STAmount.mIssue gets)) = Ok base;
  mk_direct : exists b, getBookBase (mkBook (STAmount.mIssue gets) (STAmount.mIssue pays)) = Ok b /\ no_offers (contents v) b;
  mk_bridge : STAmount.mIsNative pays || STAmount.mIsNative gets = true \/ exists b b',
    getBookBase (mkBook (STAmount.mIssue gets) STAmount.xrpIssue) = Ok b /\ no_offers (contents v) b /\
    getBookBase (mkBook STAmount.xrpIssue (STAmount.mIssue pays)) = Ok b' }.

(** *** Programs over two views *)

Definition xwp {A} (m : X W A) (s : Views W) (Q : A -> Views W -> Prop) : Prop := exists a s', m s = Ok (a, s') /\ Q a s'.

Lemma xwp_bind {A C} (m : X W A) (f : A -> X W C) s Q : xwp m s (fun a s' => xwp (f a) s' Q) -> xwp (m ≫= f) s Q.
Proof. intros (a & s' & Hm & HQ). unfold xwp. by rewrite (xbind _ _ _ _ _ Hm). Qed.

Lemma xwp_ret {A} (a : A) s (Q : A -> Views W -> Prop) : Q a s -> xwp (mret a) s Q.
Proof. by exists a, s. Qed.

Lemma xwp_same {A} (m : X W A) a s (Q : A -> Views W -> Prop) : m s = Ok (a, s) -> Q a s -> xwp m s Q.
Proof. by exists a, s. Qed.

Lemma xwp_lift {A} (r : result A) a s (Q : A -> Views W -> Prop) : r = Ok a -> Q a s -> xwp (xlift r) s Q.
Proof. intros ->. by exists a, s. Qed.

Lemma xwp_assert (c : bool) s (Q : unit -> Views W -> Prop) : c = true -> Q tt s -> xwp (xlift (Keylet.assert c)) s Q.
Proof. intros Hc HQ. eapply xwp_lift; [by apply assert_true|done]. Qed.

Lemma xwp_view {A} (m : M W A) v vc (Q : A -> Views W -> Prop) : wpm m v (fun a v' => Q a (mkViews v' vc)) -> xwp (in_view m) (mkViews v vc) Q.
Proof. intros (a & v' & Hm & HQ). exists a, (mkViews v' vc). unfold in_view. cbn [view view_cancel]. by rewrite Hm. Qed.

(** *** Nothing to take *)

Context (fuel : nat) (on_throw : Views W -> Taker -> Views W * Taker) (Hfuel : (0 < fuel)%nat).
Context (c : Ctx) (mem : Mem) (id sq expiration : Z) (pays gets : STAmount.t) (Hof : offers c mem id sq expiration pays gets).
Context (b : W) (d : Z * Z) (rate base : Z) (Hmk : market b c id rate pays gets base).

(** A sandbox over the view of the transaction in which one account was looked up. *)
Definition looked (p : loc) (v : St W) : Prop :=
  rep b d v (mkKnow (contents b) (<[root_of id := (p, false)]> ∅) ∅ ApplyStateTable.none) /\ tabs v = [].

Lemma looked_good p v : looked p v -> good (av v) /\ contents (av v) = contents b.
Proof. intros [Hr _]. apply (rep_is_good _ _ _ _ Hr). by intros i []. Qed.

Lemma looked_agree p v : looked p v -> agree (av v) b.
Proof. intros Hl. destruct (looked_good _ _ Hl) as [Hg Hc]. apply agree_contents; [done|apply Hl|done]. Qed.

Lemma looked_funds p v : looked p v -> exists funds, get_funds (fees c) v id gets = Ok funds /\ 0 < STAmount.signum funds.
Proof.
  intros Hl. destruct (mk_funded _ _ _ _ _ _ _ Hmk) as (funds & Hf & Hpos). exists funds. split; [|done].
  unfold get_funds. rewrite (proj2 Hl). by rewrite (accountFunds_agree _ _ (looked_agree _ _ Hl)).
Qed.

Lemma looked_rate p v i : looked p v -> i = issuer pays \/ i = issuer gets -> exists r, calculateRate (av v) i id = Ok r /\ r <> 0.
Proof.
  intros Hl Hi. destruct (mk_fees _ _ _ _ _ _ _ Hmk i Hi) as (r & Hr & Hne). exists r. split; [|done]. rewrite <- Hr.
  unfold calculateRate. case_if; [done|]. by apply rippleTransferRate_agree, (looked_agree _ _ Hl).
Qed.

Lemma issue_refl i : STAmount.issue_eqb i i = true.
Proof. unfold STAmount.issue_eqb, STAmount.compare_issue, STAmount.compare_id. by rewrite !Z.ltb_irrefl; repeat case_match. Qed.

(** The taker of this offer has taken nothing yet. *)
Record taker_of (k : Taker) : Prop := {
  tk_account : account k = id;
  tk_original : BasicTaker.original_ (basic k) = mkAmounts gets pays;
  tk_remaining : BasicTaker.remaining_ (basic k) = mkAmounts gets pays }.

Lemma basic_made rate_in rate_out q : rate_in <> 0 -> rate_out <> 0 -> 0 < q -> exists k,
  BasicTaker.make (extra mem) id (mkAmounts gets pays) q (getFlags (tx_o c)) rate_in rate_out = Ok k /\
  BasicTaker.account_ k = id /\ BasicTaker.original_ k = mkAmounts gets pays /\ BasicTaker.remaining_ k = mkAmounts gets pays.
Proof.
  intros Hi Ho Hq. destruct (of_positive _ _ _ _ _ _ _ Hof) as [H1 H2]. destruct (of_regular _ _ _ _ _ _ _ Hof) as (R1 & R2 & R3).
  unfold BasicTaker.make. cbn [Quality.in_ Quality.out]. unfold BasicTaker.isXRP_issue.
  change (STAmount.isXRP_id (STAmount.currency (STAmount.mIssue gets))) with (STAmount.isXRP gets).
  change (STAmount.isXRP_id (STAmount.currency (STAmount.mIssue pays))) with (STAmount.isXRP pays). rewrite R1, R2.
  rewrite (of_extra _ _ _ _ _ _ _ Hof). rewrite (proj2 (Z.ltb_lt _ _) H1), (proj2 (Z.ltb_lt _ _) H2).
  rewrite (proj2 (Z.eqb_neq _ _) Hi), (proj2 (Z.eqb_neq _ _) Ho). unfold Quality.incr. rewrite (proj2 (Z.ltb_lt _ _) Hq).
  destruct (STAmount.mIsNative pays), (STAmount.mIsNative gets); [done|..]; cbn; case_match; by eexists.
Qed.

Lemma taker_made p v : looked p v -> exists k, taker_of k /\
  OfferTaker.make (extra mem) id (mkAmounts gets pays) (getFlags (tx_o c)) v = Ok (k, v).
Proof.
  intros Hl. destruct (looked_rate p v (issuer gets) Hl) as (ri & Hri & Hri0); [by right|].
  destruct (looked_rate p v (issuer pays) Hl) as (ro & Hro & Hro0); [by left|].
  destruct (mk_quality _ _ _ _ _ _ _ Hmk) as (q & Hq & Hq0). destruct (basic_made ri ro q) as (k & Hk & Ha & Ho & Hr); [done..|].
  exists (mkTaker k (STAmount.of_u64 0 false) 0 0). split; [by split|]. unfold OfferTaker.make, Quality.of_amounts. cbn [Quality.in_ Quality.out].
  change (STAmount.account (STAmount.mIssue gets)) with (issuer gets). change (STAmount.account (STAmount.mIssue pays)) with (issuer pays).
  rewrite Hri. cbn [mbind result_bind]. rewrite Hro. cbn [mbind result_bind]. rewrite Hq. cbn [mbind result_bind]. rewrite Hk. cbn [mbind result_bind].
  unfold BasicTaker.issue_in, BasicTaker.issue_out. rewrite Hr. cbn [Quality.in_ Quality.out]. by rewrite !issue_refl.
Qed.

Lemma rest_all p s k : looked p (view s) -> taker_of k -> remaining c k (view s) = Ok (mkAmounts gets pays, view s).
Proof.
  intros Hl [Ha Ho Hr]. destruct (looked_funds _ _ Hl) as (funds & Hf & Hpos). destruct (of_positive _ _ _ _ _ _ _ Hof) as [H1 H2].
  rewrite <- Ho. eapply remaining_nobody; rewrite ?Ho, ?Hr, ?Ha; done.
Qed.

Lemma cross_none p s : looked p (view s) ->
  cross fuel on_throw c mem (mkAmounts gets pays) s = Ok ((tesSUCCESS, mkAmounts gets pays), s).
Proof.
  intros Hl. destruct (taker_made p (view s) Hl) as (k & Hk & Hmake). destruct (looked_good _ _ Hl) as [Hg Hc].
  destruct (mk_direct _ _ _ _ _ _ _ Hmk) as (bd & Hbd & Hnd). pose proof (rest_all p s k Hl Hk) as Hrest. destruct Hk as [Ha Ho Hr].
  destruct (of_regular _ _ _ _ _ _ _ Hof) as (R1 & R2 & R3).
  unfold cross. rewrite (of_account _ _ _ _ _ _ _ Hof). erewrite xbind by (by apply view_ok). unfold caught. rewrite (of_extra _ _ _ _ _ _ _ Hof).
  case_bool_decide as Ht.
  - destruct (mk_bridge _ _ _ _ _ _ _ Hmk) as [Hn|(b1 & b2 & Hb1 & Hn1 & Hb2)].
    { exfalso. by destruct (STAmount.mIsNative pays), (STAmount.mIsNative gets). }
    erewrite (bridged_nobody fuel Hfuel c s (contents b)); [done|done|done|..|exact Hrest]; unfold BasicTaker.issue_in, BasicTaker.issue_out, BasicTaker.original_offer;
      rewrite ?Hr, ?Ho; cbn [Quality.in_ Quality.out]; try done.
    + rewrite R2. by destruct (STAmount.mIsNative pays), (STAmount.mIsNative gets).
    + rewrite R1. by destruct (STAmount.mIsNative pays), (STAmount.mIsNative gets).
  - erewrite (direct_nobody fuel Hfuel c s (contents b)); [done|done|done|..|exact Hrest]; unfold BasicTaker.issue_in, BasicTaker.issue_out;
      rewrite ?Hr; cbn [Quality.in_ Quality.out]; done.
Qed.

Lemma first_none p s : looked p (view s) ->
  cross_first fuel on_throw c mem pays gets s = Ok (inr (false, pays, gets), s).
Proof.
  intros Hl. destruct (of_positive _ _ _ _ _ _ _ Hof) as [H1 H2]. unfold cross_first. erewrite xbind by (by eapply cross_none). cbn beta iota.
  erewrite xbind by (unfold xlift; rewrite assert_true by done; reflexivity). erewrite xbind by (apply view_ok; reflexivity).
  rewrite (bool_decide_eq_false_2 (tesSUCCESS = tecFAILED_PROCESSING)) by done. cbn [andb]. rewrite bool_decide_eq_true_2 by done. cbn [negb Quality.in_ Quality.out].
  do 2 (erewrite xbind by (unfold xlift; rewrite assert_true by apply issue_refl; reflexivity)).
  unfold Quality.amounts_eqb. rewrite !Quality.eqb_refl. cbn [andb negb].
  rewrite (proj2 (Z.ltb_ge _ _)), (proj2 (Z.ltb_ge _ _)) by lia. cbn [orb].
  change (isZero gets) with (STAmount.signum gets =? 0). change (isZero pays) with (STAmount.signum pays =? 0).
  by rewrite (proj2 (Z.eqb_neq _ _)), (proj2 (Z.eqb_neq _ _)) by lia.
Qed.

Lemma holds_asset p s : looked p (view s) ->
  (if negb (STAmount.mIsNative pays) then checkAcceptAsset c mem (STAmount.mIssue pays) else mret tesSUCCESS) s = Ok (tesSUCCESS, s).
Proof.
  intros [Hr _]. destruct (STAmount.mIsNative pays) eqn:Hn; [done|]. cbn [negb].
  destruct (mk_holds _ _ _ _ _ _ _ Hmk) as [?|(e & fl & He & Hfl & Hauth)]; [congruence|]. destruct (of_regular _ _ _ _ _ _ _ Hof) as (R1 & _).
  unfold checkAcceptAsset. erewrite xbind. 2: { unfold xlift. rewrite assert_true; [reflexivity|]. unfold regular, STAmount.isXRP in R1. by rewrite R1, Hn. }
  assert (Hread : forall {A} (f : W -> result A) a, f b = Ok a -> ctx_read f s = Ok (a, s)).
  { intros A f a Hf. unfold ctx_read. rewrite (rep_base _ _ _ _ Hr). by rewrite Hf. }
  erewrite xbind by (apply Hread, He). cbn beta iota. erewrite xbind by (unfold xlift; by rewrite Hfl). destruct Hauth as [->|(l & lf & Hline & Hlf & Hok)]; [done|].
  destruct (has fl lsfRequireAuth); [|done]. rewrite (of_account _ _ _ _ _ _ _ Hof). erewrite xbind by (apply Hread, Hline). cbn beta iota.
  erewrite xbind by (unfold xlift; by rewrite Hlf). unfold issuer in Hok. by rewrite Hok.
Qed.

(** *** What is placed *)

Context (n : Z) (o : STObject) (pages books : list (Z * list Z)) (bal : Z).
Let x := getOfferIndex id sq.
Let root := getQualityIndex base rate.
Let R := accountReserve (fees c) (n + 1).

Context (Hpl : placeable (contents b) x id n root o pages books) (Hbal : mPriorBalance mem = xrp bal) (Hbd : drops_ok bal) (HRd : drops_ok R).

Definition killed : bool := has (getFlags (tx_o c)) tfFillOrKill.
Definition unkept : bool := killed || has (getFlags (tx_o c)) tfImmediateOrCancel.

Definition made (m : gmap Z Entry) : Prop :=
  placed (contents b) m x id n root o pages books (fun n1 n2 => new_data c mem sq root n1 n2 expiration pays gets).

(** The view ends without pending changes. *)
Definition ends (v : St W) (P : gmap Z Entry -> Prop) : Prop :=
  tabs v = [] /\ exists k, rep b d v k /\ (forall i, ~ dirty k i) /\ P (am k).

Lemma looked_ends p v : looked p v -> ends v (fun m => m = contents b).
Proof. intros [Hr Ht]. split; [done|]. eexists. split; [exact Hr|]. split; [by intros i []|done]. Qed.

Lemma reserve_of p v vc : looked p v -> getAccountReserve c n p (mkViews v vc) = Ok (xrp R, mkViews v vc).
Proof.
  intros [Hr _]. pose proof (pl_owner _ _ _ _ _ _ _ _ Hpl) as Ho. pose proof (o_range _ _ _ _ _ Ho) as [Hn0 Hn1].
  assert (Hx : STAmount.of_u64 (accountReserve (fees c) (u32 (n + 1))) false = xrp R).
  { rewrite u32_id by lia. fold R. unfold STAmount.of_u64. by rewrite andb_false_r. }
  unfold getAccountReserve. rewrite Hx. case_if; [done|]. erewrite xbind; [by rewrite Hx|].
  apply view_ok. cbn [view]. assert (Hw : wpm (get p (getFieldU32 sfOwnerCount)) v (fun a s' => a = n /\ s' = v)).
  { eapply (get_rule _ _ _ _ (root_of id)); [exact Hr|apply lookup_insert_eq|apply Ho| |done].
    cbn [fields account_entry]. unfold getFieldU32, getField. by rewrite (o_count _ _ _ _ _ Ho). }
  by destruct Hw as (a & s' & -> & -> & ->).
Qed.

Lemma rest_rule p v vc : looked p v ->
  xwp (place_rest c mem p n sq rate expiration false pays gets) (mkViews v vc) (fun r s' =>
    r = (if unkept then tesSUCCESS else if bal <? R then tecINSUF_RESERVE_OFFER else tesSUCCESS, negb killed) /\ view_cancel s' = vc /\
    ends (view s') (fun m => if unkept || (bal <? R) then m = contents b else made m)).
Proof.
  intros Hl. unfold place_rest, unkept, killed. destruct (has (getFlags (tx_o c)) tfFillOrKill); cbn [orb negb].
  { apply xwp_ret. split; [done|]. split; [done|]. by apply looked_ends with p. }
  destruct (has (getFlags (tx_o c)) tfImmediateOrCancel); cbn [orb].
  { apply xwp_ret. split; [done|]. split; [done|]. by apply looked_ends with p. }
  apply xwp_bind. eapply xwp_same; [by apply reserve_of|]. rewrite Hbal. apply xwp_bind. eapply xwp_lift; [by apply xrp_ltb|].
  destruct (bal <? R). { apply xwp_ret. split; [done|]. split; [done|]. by apply looked_ends with p. }
  apply xwp_bind, xwp_view. eapply wpm_mono.
  - eapply (place_rule b d v (contents b) c mem p false id); [apply Hl|apply Hof|apply Hmk|exact Hpl].
  - intros r v' (-> & Ht & m' & ptrs & Hr & HP). apply xwp_ret. split; [done|]. split; [done|]. cbn [view].
    split; [rewrite Ht; apply Hl|]. eexists. split; [exact Hr|]. split; [by intros i []|exact HP].
Qed.

Context (Hseq : exists sn, getFieldU32 sfSequence o = Ok sn).

Lemma refused_not p v sn : looked p v -> refused c mem pays gets 0 sn v = Ok (tesSUCCESS, v).
Proof.
  intros Hl. destruct (mk_thawed _ _ _ _ _ _ _ Hmk) as [F1 F2]. destruct (looked_funds _ _ Hl) as (funds & Hf & Hpos). unfold refused.
  rewrite !(isGlobalFrozen_agree _ _ (looked_agree _ _ Hl)), F1, F2. cbn [mbind result_bind].
  rewrite (of_account _ _ _ _ _ _ _ Hof), Hf. cbn [mbind result_bind]. rewrite (proj2 (Z.leb_gt _ _)) by lia.
  by rewrite (proj1 (of_cancels _ _ _ _ _ _ _ Hof)).
Qed.

Definition expired : bool := isFieldPresent sfExpiration (tx_o c) && (expiration <=? parentCloseTime (View.vinfo b)).
Definition outcome : TER := if expired || unkept then tesSUCCESS else if bal <? R then tecINSUF_RESERVE_OFFER else tesSUCCESS.
Definition after (m : gmap Z Entry) : Prop := if expired || unkept || (bal <? R) then m = contents b else made m.

Lemma new_rule p v vc : looked p v ->
  xwp (apply_new fuel on_throw c mem p n sq rate expiration tesSUCCESS pays gets) (mkViews v vc) (fun r s' =>
    r = (outcome, expired || negb killed) /\ view_cancel s' = vc /\ ends (view s') after).
Proof.
  intros Hl. destruct (of_positive _ _ _ _ _ _ _ Hof) as [H1 H2]. unfold xwp, apply_new, parent_close. cbn [view].
  replace (View.vinfo (av v)) with (View.vinfo b) by (rewrite <- (rep_base _ _ _ _ (proj1 Hl)); done). fold expired.
  unfold outcome, after. destruct expired; cbn [orb].
  { eexists _, _. split; [reflexivity|]. split; [done|]. split; [done|]. by apply looked_ends with p. }
  rewrite (bool_decide_eq_true_2 (tesSUCCESS = tesSUCCESS)) by done. cbn [andb].
  match goal with |- exists a s', ?m ?s = Ok (a, s') /\ @?Q a s' => change (xwp m s Q) end. apply xwp_bind.
  eapply xwp_same; [by eapply holds_asset|]. rewrite (bool_decide_eq_true_2 (tesSUCCESS = tesSUCCESS)) by done.
  apply xwp_bind. eapply xwp_same; [by eapply first_none|]. apply xwp_bind. apply xwp_assert.
  { unfold positive. by rewrite (proj2 (Z.ltb_lt _ _) H1), (proj2 (Z.ltb_lt _ _) H2). }
  cbn [negb]. by apply rest_rule.
Qed.

(** The transactor up to the checks of the market. *)
Lemma guts_enter v vc (Q : TER * bool -> Views W -> Prop) :
  rep b d v (mkKnow (contents b) ∅ ∅ ApplyStateTable.none) -> tabs v = [] -> STAmount.getRate gets pays = Ok rate ->
  (forall p v1 sn, looked p v1 -> xwp (result ← in_view (refused c mem pays gets 0 sn);
     if negb (bool_decide (result = tesSUCCESS)) then mret (result, true)
     else result ← in_view (cancel_old c mem 0);
          apply_new fuel on_throw c mem p n sq rate expiration result pays gets) (mkViews v1 vc) Q) ->
  xwp (applyGuts fuel on_throw c mem) (mkViews v vc) Q.
Proof.
  intros Hr Ht Hrate HQ. pose proof (pl_owner _ _ _ _ _ _ _ _ Hpl) as Ho. destruct (of_legal _ _ _ _ _ _ _ Hof) as [L1 L2]. destruct Hseq as [sn Hsn].
  unfold applyGuts. rewrite (of_account _ _ _ _ _ _ _ Hof).
  apply xwp_bind. eapply xwp_lift; [apply Hof|]. apply xwp_bind. eapply xwp_lift; [apply Hof|]. rewrite L1, L2. cbn [negb orb].
  apply xwp_bind. eapply xwp_lift; [apply Hof|]. apply xwp_bind. eapply xwp_lift; [apply Hof|].
  apply xwp_bind, xwp_view. eapply (peek_rule _ _ _ _ (Indexes.account id)); [exact Hr|apply account_key|apply Ho|apply account_check|done|].
  intros p v1 Ht1 Hr1. cbn [am ap loose dirty Keylet.key Indexes.account] in Hr1. assert (Hl : looked p v1) by (split; [exact Hr1|congruence]).
  apply xwp_bind, xwp_view, wpm_need. apply xwp_bind, xwp_view.
  eapply (get_rule _ _ _ _ (root_of id)); [exact Hr1|apply lookup_insert_eq|apply Ho| |].
  { cbn [fields account_entry]. unfold getFieldU32, getField. by rewrite (o_count _ _ _ _ _ Ho). }
  apply xwp_bind, xwp_view. eapply (get_rule _ _ _ _ (root_of id)); [exact Hr1|apply lookup_insert_eq|apply Ho|exact Hsn|].
  apply xwp_bind. eapply xwp_lift; [apply Hof|]. apply xwp_bind. eapply xwp_lift; [exact Hrate|]. by apply HQ.
Qed.

Lemma guts_rule v vc : rep b d v (mkKnow (contents b) ∅ ∅ ApplyStateTable.none) -> tabs v = [] ->
  xwp (applyGuts fuel on_throw c mem) (mkViews v vc) (fun r s' =>
    r = (outcome, expired || negb killed) /\ view_cancel s' = vc /\ ends (view s') after).
Proof.
  intros Hr Ht. apply guts_enter; [exact Hr|exact Ht|apply Hmk|]. intros p v1 sn Hl.
  apply xwp_bind. eapply xwp_same; [apply view_ok; by eapply refused_not|]. rewrite bool_decide_eq_true_2 by done. cbn [negb].
  apply xwp_bind. eapply xwp_same; [|by apply new_rule]. apply view_ok. unfold cancel_old. by rewrite (proj1 (of_cancels _ _ _ _ _ _ _ Hof)).
Qed.

End made.

Section whole.
Context `{Build} {SHA : SHA512Half} {SL : SHA512HalfLaws SHA} {B : Type} {RV : ReadView STObject B} {N : BN}.
Context {VM : ViewModel STObject B} {RL : ReadViewLaws STObject B}.

Abbreviation Base := (OpenView.t STObject B).
Abbreviation W := (ApplyView.t STObject Base).

(** A sandbox without pending changes is applied to the view it was made over. *)
Lemma ends_apply (v : W) (sb : St W) P : ends v (0, 0) sb P -> good v -> exists v',
  ApplyView.apply (av sb) v = Ok v' /\ good v' /\ P (contents v') /\ supply v' = supply v.
Proof.
  intros (_ & k & Hr & HD & HP) Hg. pose proof (rep_fine _ _ _ _ Hr) as Hf. pose proof (rep_drops _ _ _ _ Hr) as [= Hd1 Hd2].
  destruct (ApplyStateTable.apply_spec (contents v) (ApplyView.items_ (av sb)) v (proj1 Hf) Hg eq_refl) as (v' & Ha & Hg' & Hc & Hs).
  exists v'. split; [exact Ha|]. split; [done|]. split.
  - rewrite Hc, (ApplyStateTable.clean_applied _ _ _ Hf HD). pose proof (rep_shown _ _ _ _ Hr) as Hsh. by rewrite <- Hsh in HP.
  - rewrite Hs, ApplyStateTable.drops_after_eq, Hd1, Hd2, Z.add_0_r, Z.sub_0_r. apply u64_id. pose proof (good_supply _ Hg). lia.
Qed.

(** Frozen, or without funds: the verdict before anything is done. *)
Definition verdict (frozen : bool) (funds : STAmount.t) : TER :=
  if frozen then tecFROZEN else if STAmount.signum funds <=? 0 then tecUNFUNDED_OFFER else tesSUCCESS.

(** What the transactor reads to judge an offer. *)
Record judged (v : W) (c : Ctx) (id rate : Z) (pays gets : STAmount.t) (frozen : bool) (funds : STAmount.t) : Prop := {
  jd_frozen : exists fp fg, isGlobalFrozen v (issuer pays) = Ok fp /\ isGlobalFrozen v (issuer gets) = Ok fg /\ frozen = fp || fg;
  jd_funds : frozen = false -> accountFunds (fees c) [] v id gets fhZERO_IF_FROZEN = Ok funds;
  jd_rate : STAmount.getRate gets pays = Ok rate }.

(** An offer that is refused at once. *)
Lemma guts_refused fuel on_throw c mem (v : W) sb vc id sq expiration pays gets rate base n o pages books frozen funds :
  offers c mem id sq expiration pays gets -> judged v c id rate pays gets frozen funds -> verdict frozen funds <> tesSUCCESS ->
  placeable (contents v) (getOfferIndex id sq) id n (getQualityIndex base rate) o pages books -> (exists sn, getFieldU32 sfSequence o = Ok sn) ->
  rep v (0, 0) sb (mkKnow (contents v) ∅ ∅ ApplyStateTable.none) -> tabs sb = [] ->
  xwp (applyGuts fuel on_throw c mem) (mkViews sb vc) (fun r s' =>
    r = (verdict frozen funds, true) /\ ends v (0, 0) (view s') (fun m => m = contents v)).
Proof.
  intros Hof [(fp & fg & Hfp & Hfg & ->) Hfunds Hrate] Hbad Hpl Hseq Hr Ht.
  eapply guts_enter; [exact Hof|exact Hpl|exact Hseq|exact Hr|exact Ht|exact Hrate|]. intros p v1 sn Hl.
  apply xwp_bind. eapply (xwp_same _ (verdict (fp || fg) funds)).
  { apply view_ok. cbn [view]. unfold refused, verdict. rewrite !(isGlobalFrozen_agree _ _ (looked_agree _ _ _ _ _ Hl)), Hfp. cbn [mbind result_bind].
    destruct fp; [done|]. cbn [mbind result_bind]. rewrite Hfg. cbn [mbind result_bind orb] in *. destruct fg; [done|].
    assert (get_funds (fees c) v1 id gets = Ok funds) as Hget.
    { unfold get_funds. rewrite (proj2 Hl). by rewrite (accountFunds_agree _ _ (looked_agree _ _ _ _ _ Hl)), Hfunds. }
    rewrite (of_account _ _ _ _ _ _ _ Hof), Hget. cbn [mbind result_bind]. unfold verdict in Hbad. case_match; [done|]. by rewrite (proj1 (of_cancels _ _ _ _ _ _ _ Hof)). }
  rewrite (bool_decide_eq_false_2 _ Hbad). cbn [negb]. apply xwp_ret. split; [done|]. cbn [view]. by eapply looked_ends.
Qed.

(** C12: an offer is made.  The transactor [CreateOffer] on an offer that cancels
    no other one, is for legal positive amounts, not both native, and finds
    nothing to take: the books of the opposite offers, direct and bridged, have
    none.  A currency that its issuer froze gives [tecFROZEN] and an owner without
    funds [tecUNFUNDED_OFFER], and nothing happens.  Otherwise, if it expired
    nothing happens either; if it is fill-or-kill or immediate-or-cancel it is not
    kept; if its owner, before the fee, lacks the reserve for one more entry, it
    fails; and else it is in the ledger at the rate of its amounts, listed in its
    owner's directory and in the directory of its book, the owner count goes up by
    one, and nothing else changes.  No drops are made or lost.  Of the ledger it
    asks that the owner exists and has room in its directory as the book has, that
    the issuer of what is asked for exists and authorized the owner if it has to
    ([market], for an offer that is not refused), and that the rates are positive.
    Any positive fuel is enough, and no exception is raised. *)
Theorem offer_made fuel on_throw c mem (s : St Base) id sq expiration pays gets rate base n o pages books bal frozen funds :
  let x := getOfferIndex id sq in
  let root := getQualityIndex base rate in
  let m := contents (av s) in
  let R := accountReserve (fees c) (n + 1) in
  let flags := getFlags (tx_o c) in
  let unkept := isFieldPresent sfExpiration (tx_o c) && (expiration <=? parentCloseTime (View.vinfo (av s))) ||
    (has flags tfFillOrKill || has flags tfImmediateOrCancel) in
  let refused := frozen || (STAmount.signum funds <=? 0) in
  (0 < fuel)%nat -> good (av s) -> offers c mem id sq expiration pays gets -> judged (av s) c id rate pays gets frozen funds ->
  (refused = false -> market (av s) c id rate pays gets base) ->
  placeable m x id n root o pages books -> (exists sn, getFieldU32 sfSequence o = Ok sn) ->
  mPriorBalance mem = xrp bal -> drops_ok bal -> drops_ok R -> exists s',
    doApply fuel on_throw c mem s = Ok (if frozen then tecFROZEN else if STAmount.signum funds <=? 0 then tecUNFUNDED_OFFER
      else if unkept then tesSUCCESS else if bal <? R then tecINSUF_RESERVE_OFFER else tesSUCCESS, s') /\
    good (av s') /\ tabs s' = tabs s /\ supply (av s') = supply (av s) /\
    if refused || unkept || (bal <? R) then contents (av s') = m
    else placed m (contents (av s')) x id n root o pages books (fun n1 n2 => new_data c mem sq root n1 n2 expiration pays gets).
Proof.
  intros x root m R flags unkept' refused' Hfuel Hg Hof Hj Hmk Hpl Hseq Hbal Hb HR. destruct (ApplyView.make_good (av s) Hg) as (Hg0 & Hc0 & _).
  assert (Hr : rep (av s) (0, 0) (sandbox s) (mkKnow m ∅ ∅ ApplyStateTable.none)) by (unfold m; rewrite <- Hc0; exact (good_rep (sandbox s) Hg0)).
  unfold doApply. destruct refused' eqn:Href.
  { destruct (guts_refused fuel on_throw c mem (av s) (sandbox s) (sandbox s) id sq expiration pays gets rate base n o pages books frozen funds)
      as (r & views & Hrun & -> & Hend); [done..| |done|done|done|done|].
    { unfold verdict. unfold refused' in Href. destruct frozen; [done|]. cbn [orb] in Href. by rewrite Href. }
    rewrite Hrun. cbn [mbind result_bind]. destruct (ends_apply (av s) (view views) (fun m' => m' = m)) as (v' & Ha & Hg' & Hc' & Hs'); [done..|].
    rewrite Ha. cbn [mbind result_bind]. exists (mkSt v' (tabs s)). split; [|done]. unfold verdict, refused' in *.
    destruct frozen; [done|]. cbn [orb] in Href. by rewrite Href. }
  specialize (Hmk eq_refl). apply orb_false_iff in Href as [-> Hpos]. rewrite Hpos.
  destruct (guts_rule fuel on_throw Hfuel c mem id sq expiration pays gets Hof (av s) (0, 0) rate base Hmk n o pages books bal Hpl Hbal Hb HR Hseq
    (sandbox s) (sandbox s) Hr eq_refl) as (r & views & Hrun & -> & Hvc & Hend).
  rewrite Hrun. cbn [mbind result_bind orb]. unfold after in Hend. fold m in Hend.
  assert (Hfresh : ends (av s) (0, 0) (view_cancel views) (fun m' => m' = m)).
  { rewrite Hvc. split; [done|]. eexists. split; [exact Hr|]. split; [by intros i []|done]. }
  destruct (ends_apply (av s) (if expired c expiration (av s) || negb (killed c) then view views else view_cancel views)
    (fun m' => if unkept' || (bal <? R) then m' = m
               else placed m m' x id n root o pages books (fun n1 n2 => new_data c mem sq root n1 n2 expiration pays gets))) as (v' & Ha & Hg' & Hc' & Hs'); [|done|].
  - destruct (expired c expiration (av s) || negb (killed c)) eqn:Hk; [exact Hend|].
    apply orb_false_iff in Hk as [He Hk]. apply negb_false_iff in Hk. unfold killed in Hk.
    assert (Hu : unkept' = true) by (unfold unkept', flags; rewrite Hk; apply orb_true_r). by rewrite Hu.
  - rewrite Ha. cbn [mbind result_bind]. eexists. split; [reflexivity|]. done.
Qed.

End whole.

(** ** Examples *)

Module Examples.
Import Transfers.Examples Threading.Examples TransactorRun.Examples LineLife.Examples SignerListRun.Examples.

(** The account 7 offers 10 drops for one unit that the account 9 issues. *)
Definition unit9 : STAmount.t := STAmount.mk (STAmount.mkIssue 840 9) (10 ^ 15) (-15) false false.

Definition create_ctx : Ctx :=
  mkCtx (mkTx ttOFFER_CREATE (<[sfTakerPays := Some (AMT unit9)]> (<[sfTakerGets := Some (AMT (xrp 10))]> (<[sfAccount := Some (ACC 7)]>
    (<[sfSequence := Some (U32 0)]> (<[sfFee := Some (AMT (xrp 12))]> (<[sfSigningPubKey := Some (VL [7])]>
    (set_template (OfferCreate ++ tx_common_fields)))))))))
    5 [1; 2] None 0 (mkFees 10 10 20 5) 10 LoadFeeTrack.make false (fun _ => true) (fun _ _ => false)
    (fun key => default 0 (head key)) (fun _ => []).

Definition creating7 : Mem := set_extra BasicTaker.XrpToIou (set_balances (xrp 100) (xrp 88) (set_account 7 (initial sig_good BasicTaker.IouToIou))).

Definition rate9 : Z := Eval vm_compute in match STAmount.getRate (xrp 10) unit9 with Ok r => r | _ => 0 end.
Definition base9 : Z := match getBookBase (mkBook (STAmount.mIssue unit9) (STAmount.mIssue (xrp 10))) with Ok b => b | _ => 0 end.

Definition opposite9 : Z := match getBookBase (mkBook (STAmount.mIssue (xrp 10)) (STAmount.mIssue unit9)) with Ok b => b | _ => 0 end.
Definition root9 : Z := getQualityIndex base9 rate9.

(** The directory of a book is in a name space of its own. *)
Lemma root9_book : root9 = sha512Half (Serializer.be_bytes 2 spaceBookDir ++
  (Serializer.be_bytes 20 840 ++ Serializer.be_bytes 20 0 ++ Serializer.be_bytes 20 9 ++ Serializer.be_bytes 12 0 ++ Serializer.be_bytes 8 rate9)).
Proof. vm_compute. reflexivity. Qed.

Lemma book_bytes : Serializer.bytes (Serializer.be_bytes 20 840 ++ Serializer.be_bytes 20 0 ++ Serializer.be_bytes 20 9 ++ Serializer.be_bytes 12 0 ++ Serializer.be_bytes 8 rate9).
Proof. do 4 (apply bytes_app; [apply be_bytes_ok|]). apply be_bytes_ok. Qed.

(** The keys of other name spaces are not pages of the book. *)
Lemma space_not_book sp r : Serializer.bytes r -> Serializer.be_bytes 2 sp <> Serializer.be_bytes 2 spaceBookDir ->
  Serializer.be_bytes 2 sp <> Serializer.be_bytes 2 spaceDirNode -> outside root9 (sha512Half (Serializer.be_bytes 2 sp ++ r)).
Proof.
  intros Hr H1 H2 k Hk. unfold getDirNodeIndex. case_if.
  - rewrite root9_book. apply spaces_differ; [done|apply book_bytes|done].
  - apply spaces_differ; [done|apply bytes_app; apply be_bytes_ok|done].
Qed.

Lemma root9_pages : pages_distinct root9.
Proof.
  split.
  - intros k _. unfold getDirNodeIndex. case_if; [by vm_compute|]. apply Z.neq_sym, Z.lt_neq, sha_pos.
    do 2 (apply bytes_app; [apply be_bytes_ok|]). apply be_bytes_ok.
  - intros k l Hk Hl. unfold getDirNodeIndex. repeat case_if; intros Heq; [lia|..].
    + rewrite root9_book in Heq at 1. apply spaces_differ in Heq; [done|apply book_bytes|apply bytes_app; apply be_bytes_ok|by vm_compute].
    + rewrite root9_book in Heq at 2. apply spaces_differ in Heq; [done|apply bytes_app; apply be_bytes_ok|apply book_bytes|by vm_compute].
    + apply sha_split in Heq as [_ Heq]; [|apply bytes_app; apply be_bytes_ok..].
      apply be_bytes_app_inv in Heq as [_ Heq]. by apply be_bytes_inj in Heq.
Qed.

Lemma root9_apart : apart (getOwnerDirIndex 7) root9.
Proof.
  intros k l Hk Hl. unfold getDirNodeIndex at 1. case_if; [by apply space_not_book; [apply be_bytes_ok|by vm_compute..|]|].
  unfold getDirNodeIndex. case_if.
  - rewrite root9_book. apply spaces_differ; [apply bytes_app; apply be_bytes_ok|apply book_bytes|by vm_compute].
  - intros Heq. apply sha_split in Heq as [_ Heq]; [|apply bytes_app; apply be_bytes_ok..].
    apply be_bytes_app_inv in Heq as [Heq _]. by vm_compute in Heq.
Qed.

Lemma placeable9 : placeable accounts79 (getOfferIndex 7 0) 7 2 root9 (account_of 7 100) [] [].
Proof.
  assert (Hx : outside root9 (getOfferIndex 7 0)) by (apply space_not_book; [apply bytes_app; apply be_bytes_ok|by vm_compute..]).
  assert (Ha : forall a, outside root9 (getAccountRootIndex a)) by (intros a; apply space_not_book; [apply be_bytes_ok|by vm_compute..]).
  split.
  - apply owner7.
  - vm_compute. reflexivity.
  - done.
  - split; try done; [by left|]. intros k Hk _. unfold accounts79. rewrite lookup_insert_ne by (by apply Ha). by apply lookup_singleton_ne, Ha.
  - split; [apply root9_pages|apply root9_apart].
  - split; [exact Hx|apply Ha].
Qed.

Lemma offers9 : offers create_ctx creating7 7 0 0 unit9 (xrp 10).
Proof. split; by vm_compute. Qed.

Lemma market9 : market (av start105) create_ctx 7 rate9 unit9 (xrp 10) base9.
Proof.
  split.
  - split; by vm_compute.
  - exists (xrp 70). split; by vm_compute.
  - intros i Hi. exists QUALITY_ONE. split; [|done]. destruct Hi as [-> | ->]; by vm_compute.
  - right. exists (account_entry 9 (account_of 9 5)), 0. split; [by vm_compute|]. split; [by vm_compute|]. by left.
  - vm_compute. reflexivity.
  - exists 6197953087261802496. split; by vm_compute.
  - vm_compute. reflexivity.
  - exists opposite9. split; [by vm_compute|]. intros key [Hk1 Hk2]. assert (Hempty : getQualityNext opposite9 <= opposite9) by (by vm_compute). lia.
  - by left.
Qed.

Lemma judged9 : judged (av start105) create_ctx 7 rate9 unit9 (xrp 10) false (xrp 70).
Proof. split; [exists false, false; split_and!; by vm_compute|intros _; by vm_compute|vm_compute; reflexivity]. Qed.

Lemma offer_made_witness : exists s', doApply 1 (fun s k => (s, k)) create_ctx creating7 start105 = Ok (tesSUCCESS, s') /\
  exists n1 n2, contents (av s') !! getOfferIndex 7 0 = Some (mkSLE (getOfferIndex 7 0) ltOFFER (offer_object (new_data create_ctx creating7 0 root9 n1 n2 0 unit9 (xrp 10)))) /\
    listed (contents (av s')) (getOwnerDirIndex 7) (getOfferIndex 7 0) n1 [] /\ listed (contents (av s')) root9 (getOfferIndex 7 0) n2 [].
Proof.
  destruct (offer_made 1 (fun s k => (s, k)) create_ctx creating7 start105 7 0 0 unit9 (xrp 10) rate9 base9 2 (account_of 7 100) [] [] 100 false (xrp 70)) as (s' & Hrun & _ & _ & _ & HQ).
  - lia.
  - apply start105_good.
  - apply offers9.
  - apply judged9.
  - intros _. apply market9.
  - rewrite start105_contents. apply placeable9.
  - exists 0. reflexivity.
  - reflexivity.
  - split; discriminate.
  - split; discriminate.
  - change (_ || _) with false in HQ. exists s'. split; [exact Hrun|]. apply (pd_offer _ _ _ _ _ _ _ _ _ _ HQ).
Defined.

End Examples.
End OfferMade.
