(* ===== verification/CanonicalTx.v ===== *)
(** * The order of transactions that wait for another pass

    [CanonicalTXSet] of app/misc/CanonicalTXSet.h and CanonicalTXSet.cpp: the
    transactions that may succeed later, kept in an order every server arrives
    at, whatever the order in which it met them: by account, salted with a hash
    so that no account is always first, then by sequence number, then by
    identity.  A [std::map] is the list of its pairs in the order of its keys. *)

From stdpp Require Import base tactics numbers sorting list option.
From S2P Require Import Prelude Decimal IOUAmount BigNum Serializer STAmount.
From S2P Require Import View StateTable ApplyStateTable Fields ViewOps Change MultiSign.

Module CanonicalTx.
Import Fields Change MultiSign.

(** A transaction ([STTx]) with its identity, serialization and signers. *)
Record Tx := mkTxn { t_tx : STTx; t_id : Z; t_raw : list Z; t_signers : option (list SigningFor) }.

(** ** Keys *)

Record Key := mkKey { mAccount : Z; mSeq : Z; mTXid : Z }.

#[export] Instance Key_eq_dec : EqDecision Key.
Proof. solve_decision. Defined.

Definition key_ltb (a b : Key) : bool :=
  if mAccount a <? mAccount b then true
  else if mAccount b <? mAccount a then false
  else if mSeq a <? mSeq b then true
  else if mSeq b <? mSeq a then false
  else mTXid a <? mTXid b.

Definition key_gtb (a b : Key) : bool :=
  if mAccount b <? mAccount a then true
  else if mAccount a <? mAccount b then false
  else if mSeq b <? mSeq a then true
  else if mSeq a <? mSeq b then false
  else mTXid b <? mTXid a.

Definition key_leb (a b : Key) : bool :=
  if mAccount a <? mAccount b then true
  else if mAccount b <? mAccount a then false
  else if mSeq a <? mSeq b then true
  else if mSeq b <? mSeq a then false
  else mTXid a <=? mTXid b.

Definition key_geb (a b : Key) : bool :=
  if mAccount b <? mAccount a then true
  else if mAccount a <? mAccount b then false
  else if mSeq b <? mSeq a then true
  else if mSeq a <? mSeq b then false
  else mTXid b <=? mTXid a.

(** Unlike the order, equality looks at the identity only. *)
Definition key_eqb (a b : Key) : bool := mTXid a =? mTXid b.

(** ** The set *)

Record t := mk { mSetHash : Z; mMap : list (Key * Tx) }.

Definition make (lastClosedLedgerHash : Z) : t := mk lastClosedLedgerHash [].
Definition reset (newLastClosedLedgerHash : Z) (s : t) : t := mk newLastClosedLedgerHash [].

(** [std::map::insert] leaves an equal key as it is. *)
Fixpoint map_insert (k : Key) (v : Tx) (m : list (Key * Tx)) : list (Key * Tx) :=
  match m with
  | [] => [(k, v)]
  | (k', v') :: m' =>
      if key_ltb k k' then (k, v) :: m
      else if key_ltb k' k then (k', v') :: map_insert k v m'
      else m
  end.

(** The 20 bytes of an account are the first of the 32. *)
Definition to256 (a : Z) : Z := Z.shiftl a 96.

Definition insert (txn : Tx) (s : t) : result t :=
  account ← getAccountID sfAccount (tx_fields (t_tx txn));
  sq ← getFieldU32 sfSequence (tx_fields (t_tx txn));
  let effectiveAccount := Z.lxor (mSetHash s) (to256 account) in
  Ok (mk (mSetHash s) (map_insert (mkKey effectiveAccount sq (t_id txn)) txn (mMap s))).

(** [erase] of the transaction at a position; the iterator it returns is at the
    same position. *)
Definition erase (i : nat) (s : t) : t := mk (mSetHash s) (delete i (mMap s)).
Definition size (s : t) : nat := length (mMap s).
Definition empty (s : t) : bool := bool_decide (mMap s = []).

(** ** The order *)


Lemma key_gtb_ltb a b : key_gtb a b = key_ltb b a.
Proof. reflexivity. Qed.

Lemma key_leb_ltb a b : key_leb a b = negb (key_ltb b a).
Proof. unfold key_leb, key_ltb. repeat case_match; cbn; try done; try lia. Qed.

Lemma key_geb_ltb a b : key_geb a b = negb (key_ltb a b).
Proof. unfold key_geb, key_ltb. repeat case_match; cbn; try done; try lia. Qed.

Definition before (p q : Key * Tx) : Prop := key_ltb p.1 q.1 = true.

#[export] Instance before_trans : Transitive before.
Proof. intros [a ?] [b ?] [c ?]. unfold before, key_ltb. cbn. repeat case_match; try done; lia. Qed.

Lemma key_ltb_irrefl k : key_ltb k k = false.
Proof. unfold key_ltb. repeat case_match; try done; lia. Qed.

#[export] Instance before_antisymm : AntiSymm eq before.
Proof.
  intros p q Hpq Hqp. pose proof (transitivity Hpq Hqp) as Hpp. unfold before in Hpp. by rewrite key_ltb_irrefl in Hpp.
Qed.

Lemma key_total a b : key_ltb a b = false -> key_ltb b a = false -> a = b.
Proof. destruct a, b. unfold key_ltb. cbn. repeat case_match; try done; intros; f_equal; lia. Qed.

Definition ordered (s : t) : Prop := StronglySorted before (mMap s).

Lemma map_insert_new k v m : k ∉ m.*1 -> map_insert k v m ≡ₚ (k, v) :: m.
Proof.
  induction m as [|[k' v'] m IH]; cbn [map_insert fmap list_fmap fst]; intros Hk; [done|].
  apply not_elem_of_cons in Hk as [Hne Hk]. case_match eqn:H1; [done|]. case_match eqn:H2.
  - rewrite IH by done. apply Permutation_swap.
  - by destruct Hne; apply key_total.
Qed.

Lemma map_insert_old k v m : k ∈ m.*1 -> StronglySorted before m -> map_insert k v m = m.
Proof.
  induction m as [|[k' v'] m IH]; cbn [map_insert fmap list_fmap fst]; intros Hk Hm; [by apply elem_of_nil in Hk|].
  inversion Hm as [|p m' Hs Hall]; subst. destruct (decide (k = k')) as [->|Hne]; [by rewrite key_ltb_irrefl|].
  apply elem_of_cons in Hk as [->|Hk]; [done|].
  pose proof Hk as (q & -> & Hq)%list_elem_of_fmap. rewrite list.Forall_forall in Hall. pose proof (Hall q Hq) as Hb.
  unfold before in Hb. cbn in Hb. case_match eqn:H1.
  - exfalso. pose proof (transitivity (R := before) (x := (k', v')) (y := q) (z := (k', v')) Hb H1) as Hc.
    unfold before in Hc. by rewrite key_ltb_irrefl in Hc.
  - by rewrite Hb, IH.
Qed.

Lemma map_insert_in k v m q : q ∈ map_insert k v m -> q = (k, v) \/ q ∈ m.
Proof.
  induction m as [|[k' v'] m IH]; cbn [map_insert]; intros Hq; [left; by apply list_elem_of_singleton|].
  repeat case_match; [by apply elem_of_cons in Hq| |by right]. apply elem_of_cons in Hq as [->|Hq].
  - right. apply list_elem_of_here.
  - destruct (IH Hq) as [->|?]; [by left|right; by apply list_elem_of_further].
Qed.

Lemma map_insert_ordered k v m : StronglySorted before m -> StronglySorted before (map_insert k v m).
Proof.
  induction m as [|[k' v'] m IH]; cbn [map_insert]; intros Hm; [by repeat constructor|].
  inversion Hm as [|p m' Hs Hall]; subst. case_match eqn:H1; [|case_match eqn:H2; [|done]].
  - constructor; [done|]. constructor; [done|]. eapply list.Forall_impl; [exact Hall|].
    intros q Hq. by apply (transitivity (R := before) (x := (k, v)) (y := (k', v'))).
  - constructor; [by apply IH|]. apply list.Forall_forall. intros q [->|Hq]%map_insert_in; [done|].
    rewrite list.Forall_forall in Hall. by apply Hall.
Qed.

(** ** Transactions with an account and a sequence number *)

Definition acct_of (txn : Tx) : Z := match getAccountID sfAccount (tx_fields (t_tx txn)) with Ok a => a | _ => 0 end.
Definition seq_of (txn : Tx) : Z := match getFieldU32 sfSequence (tx_fields (t_tx txn)) with Ok n => n | _ => 0 end.

Definition keyed (txn : Tx) : Prop :=
  getAccountID sfAccount (tx_fields (t_tx txn)) = Ok (acct_of txn) /\
  getFieldU32 sfSequence (tx_fields (t_tx txn)) = Ok (seq_of txn).

Definition key_of (hash : Z) (txn : Tx) : Key := mkKey (Z.lxor hash (to256 (acct_of txn))) (seq_of txn) (t_id txn).

(** Every key is that of its transaction. *)
Definition labelled (s : t) : Prop := Forall (fun p => p.1 = key_of (mSetHash s) p.2) (mMap s).

Definition txs_of (s : t) : list Tx := (mMap s).*2.

Definition fits (s : t) : Prop := ordered s /\ labelled s.

Lemma make_fits h : fits (make h).
Proof. split; constructor. Qed.

Lemma insert_keyed txn s : keyed txn -> insert txn s = Ok (mk (mSetHash s) (map_insert (key_of (mSetHash s) txn) txn (mMap s))).
Proof. intros [Ha Hs]. unfold insert. by rewrite Ha, Hs. Qed.

(** A transaction with a new identity is added, and the set stays in order. *)
Lemma insert_adds txn s : fits s -> keyed txn -> t_id txn ∉ t_id <$> txs_of s -> exists s',
  insert txn s = Ok s' /\ mSetHash s' = mSetHash s /\ fits s' /\ txs_of s' ≡ₚ txn :: txs_of s.
Proof.
  intros [Ho Hl] Hk Hid. eexists. split; [by apply insert_keyed|]. split; [done|].
  assert (Hnew : key_of (mSetHash s) txn ∉ (mMap s).*1).
  { intros (p & Hp & Hin)%list_elem_of_fmap. apply Hid. apply list_elem_of_fmap. exists p.2.
    split; [|by apply list_elem_of_fmap_2]. unfold labelled in Hl. rewrite list.Forall_forall in Hl.
    rewrite (Hl p Hin) in Hp. by injection Hp. }
  pose proof (map_insert_new (key_of (mSetHash s) txn) txn (mMap s) Hnew) as Hp. split; [split|].
  - by apply map_insert_ordered.
  - unfold labelled. cbn [mMap mSetHash]. rewrite Hp. by constructor.
  - unfold txs_of. cbn [mMap]. by rewrite Hp.
Qed.

(** Two sets of the same transactions under the same hash are the same. *)
Lemma fits_unique s s' : fits s -> fits s' -> mSetHash s = mSetHash s' -> txs_of s ≡ₚ txs_of s' -> s = s'.
Proof.
  destruct s as [h m], s' as [h' m']. unfold fits, ordered, labelled, txs_of. cbn. intros [Ho Hl] [Ho' Hl'] <- Hp. f_equal.
  assert (Hall : forall l, Forall (fun p : Key * Tx => p.1 = key_of h p.2) l -> l = (fun v => (key_of h v, v)) <$> l.*2).
  { induction 1 as [|[k v] l Hkv Hl2 IH]; [done|]. cbn in *. by rewrite Hkv, <- IH. }
  apply (StronglySorted_unique before); [done|done|]. rewrite (Hall m Hl), (Hall m' Hl'). by rewrite Hp.
Qed.

(** Of two transactions of an account the one with the lower number comes first. *)
Lemma fits_in_sequence s i j p q : fits s -> mMap s !! i = Some p -> mMap s !! j = Some q -> (i < j)%nat ->
  acct_of p.2 = acct_of q.2 -> seq_of p.2 <= seq_of q.2.
Proof.
  intros [Ho Hl] Hi Hj Hij Ha. assert (Hb : before p q).
  { unfold ordered in Ho. clear Hl Ha. revert i j Hi Hj Hij. induction Ho as [|r l Hs IH Hall]; intros i j Hi Hj Hij; [done|].
    destruct i as [|i], j as [|j]; cbn in *; try lia; [|eapply (IH i j); [done|done|lia]].
    injection Hi as ->. rewrite list.Forall_forall in Hall. apply Hall. by eapply list_elem_of_lookup_2. }
  unfold labelled in Hl. rewrite Forall_lookup in Hl. pose proof (Hl _ _ Hi) as Hkp. pose proof (Hl _ _ Hj) as Hkq.
  unfold before, key_ltb in Hb. rewrite Hkp, Hkq in Hb. cbn in Hb. rewrite Ha, Z.ltb_irrefl in Hb.
  repeat case_match; try done; lia.
Qed.

Fixpoint insert_all (txs : list Tx) (s : t) : result t :=
  match txs with
  | [] => Ok s
  | txn :: txs => s ← insert txn s; insert_all txs s
  end.

Lemma insert_all_spec txs s : fits s -> Forall keyed txs -> NoDup (t_id <$> (txs ++ txs_of s)) -> exists s',
  insert_all txs s = Ok s' /\ mSetHash s' = mSetHash s /\ fits s' /\ txs_of s' ≡ₚ txs ++ txs_of s.
Proof.
  revert s. induction txs as [|txn txs IH]; intros s Hs Hk Hnd; [by exists s|].
  inversion Hk as [|? ? Hk1 Hk2]; subst. cbn [app fmap list_fmap] in Hnd. inversion Hnd as [|? ? Hn1 Hn2]; subst.
  destruct (insert_adds txn s Hs Hk1) as (s1 & Hi & Hh & Hf & Hp).
  { intros Hin. apply Hn1. change (t_id txn ∈ t_id <$> (txs ++ txs_of s)). rewrite fmap_app. apply elem_of_app. by right. }
  destruct (IH s1) as (s2 & Hall & Hh2 & Hf2 & Hp2); [done|done| |].
  { rewrite Hp. rewrite <- Permutation_middle. by constructor. }
  exists s2. cbn [insert_all]. rewrite Hi. cbn. split; [done|]. split; [congruence|]. split; [done|].
  rewrite Hp2, Hp. symmetry. apply Permutation_middle.
Qed.

(** C15: the order of the transactions to retry is canonical.  A new set that is
    given transactions with different identities holds exactly these; of two from
    the same account, the one with the lower sequence number comes first; and a
    set with the same hash that is given the same transactions in any other order
    is the same set, so that all servers try them in the same order. *)
Theorem canonical_order h txs : Forall keyed txs -> NoDup (t_id <$> txs) -> exists s,
  insert_all txs (make h) = Ok s /\ txs_of s ≡ₚ txs /\
  (forall i j p q, mMap s !! i = Some p -> mMap s !! j = Some q -> (i < j)%nat ->
     acct_of p.2 = acct_of q.2 -> seq_of p.2 <= seq_of q.2) /\
  (forall txs', txs' ≡ₚ txs -> insert_all txs' (make h) = Ok s).
Proof.
  intros Hk Hnd. destruct (insert_all_spec txs (make h)) as (s & Hs & Hh & Hf & Hp);
    [apply make_fits|done|by rewrite app_nil_r|]. rewrite app_nil_r in Hp.
  exists s. split; [done|]. split; [done|]. split; [intros; by eapply fits_in_sequence|].
  intros txs' Hp'. destruct (insert_all_spec txs' (make h)) as (s' & Hs' & Hh' & Hf' & Hpp);
    [apply make_fits|by rewrite Hp'|by rewrite app_nil_r, Hp'|]. rewrite app_nil_r in Hpp.
  rewrite Hs'. f_equal. apply fits_unique; [done|done|congruence|by rewrite Hpp, Hp', Hp].
Qed.

Module Examples.

Definition tx_of (account sq id : Z) : Tx :=
  mkTxn (mkTx 0 (<[sfAccount := Some (ACC account)]> (<[sfSequence := Some (U32 sq)]> (set_template tx_common_fields)))) id [id] None.

Lemma canonical_order_witness : exists s, insert_all [tx_of 7 3 20; tx_of 9 1 21; tx_of 7 2 22] (make 5) = Ok s /\
  t_id <$> txs_of s = [22; 20; 21] /\
  insert_all [tx_of 9 1 21; tx_of 7 2 22; tx_of 7 3 20] (make 5) = Ok s.
Proof.
  destruct (canonical_order 5 [tx_of 7 3 20; tx_of 9 1 21; tx_of 7 2 22]) as (s & Hs & _ & _ & Hperm).
  - repeat constructor; vm_compute; reflexivity.
  - apply (bool_decide_unpack _). vm_compute. exact I.
  - exists s. split; [exact Hs|]. split.
    + apply (f_equal (fun r => match r with Ok s => t_id <$> txs_of s | _ => [] end)) in Hs.
      rewrite <- Hs. vm_compute. reflexivity.
    + apply Hperm. apply (Permutation_app_comm [tx_of 9 1 21; tx_of 7 2 22] [tx_of 7 3 20]).
Defined.

End Examples.

End CanonicalTx.
