(* ===== verification/Dispatch.v ===== *)
(** * Applying a transaction of any type

    app/tx/impl/apply.cpp: the type of a transaction chooses its transactor
    ([invoke]), and an exception is a result like any other ([apply]).  A failed
    assertion and whatever else ends the process is not an exception, and stays an
    outcome of its own.  The transactors are those of [Change] and of the files on transactions.  The
    ripple calculation of payments is a parameter, and so are what an exception
    leaves of a crossing, the key that may sign dividends with its decoding, and
    whether tickets are built in. *)

From stdpp Require Import base tactics numbers list strings gmap sorting option.
From S2P Require Import Prelude Decimal IOUAmount BigNum Serializer STAmount.
From S2P Require Import View StateTable ApplyStateTable Fields Indexes PaymentSandbox ViewOps.
From S2P Require Import TrustLines Transfers Change LoadFeeTrack MultiSign TxMeta Threading Transactor TransactorRun TransactorSteps.
From S2P Require Import DividendTx PaymentTx SignerListTx AccountTx TrustTx OwnedTx BasicTaker OfferTaker OfferBook CreateOfferTx.

Module Dispatch.
Import Fields Indexes ViewOps TrustLines Transfers Change MultiSign Transactor TransactorRun TransactorSteps.

Section dispatch.
Context `{Build} {SHA : SHA512Half} {B : Type} {RV : ReadView STObject B} {N : BN}.

Abbreviation Base := (OpenView.t STObject B).
Abbreviation Prog := (M Base).

(** The class [Change] as a transactor. *)
Definition change_preCheck (c : Ctx) (m : Members unit) : Prog (TER * Members unit) :=
  account_id ← lift (getAccountID sfAccount (tx_o c));
  ter ← Change.preCheck (tx c);
  mret (ter, set_account account_id m).

Definition change_processor : Processor (B := B) unit :=
  mkProc tt false (fun c _ => mret (calculateBaseFee c)) change_preCheck
    (fun c _ => lift (Change.checkSeq (tx c)))
    (fun c m => ter ← lift (Change.payFee (tx c)); mret (ter, m))
    (fun c m => ter ← lift (Change.checkSign (tx c)); mret (ter, m))
    (fun c _ => r ← Change.doApply (tx c); mret (r.1, mkEffects None r.2)).

(** What the dispatch does not read from this library: the bound on books and
    what an exception leaves of a crossing, the calculation of payments, the
    signer of dividends, and the build option [RIPPLE_ENABLE_TICKETS]. *)
Record Server := mkServer {
  book_fuel : nat;
  on_throw : TwoViews.Views (ApplyView.t STObject Base) -> OfferTaker.Taker -> TwoViews.Views (ApplyView.t STObject Base) * OfferTaker.Taker;
  rippleCalculate : STAmount.t -> STAmount.t -> Z -> Z -> list (list PathElement) -> PaymentTx.Input -> Prog (TER * STAmount.t);
  dividend_key : string; parseBase58 : string -> option Z;
  enableTickets : bool }.

Definition invoke (sv : Server) (c : Ctx) (sig : SigState) (base : Base) : result (TER * bool * Effects * Base) :=
  let type := tx_type_ (tx c) in
  if type =? AccountTx.ttACCOUNT_SET then run AccountTx.processor c sig base
  else if type =? OwnedTx.ttOFFER_CANCEL then run OwnedTx.offer_processor c sig base
  else if type =? CreateOfferTx.ttOFFER_CREATE then run (CreateOfferTx.processor (book_fuel sv) (on_throw sv)) c sig base
  else if type =? PaymentTx.ttPAYMENT then run (PaymentTx.processor (rippleCalculate sv)) c sig base
  else if type =? AccountTx.ttREGULAR_KEY_SET then run AccountTx.key_processor c sig base
  else if type =? SignerListTx.ttSIGNER_LIST_SET then run SignerListTx.processor c sig base
  else if type =? OwnedTx.ttTICKET_CANCEL then run (OwnedTx.cancel_processor (enableTickets sv)) c sig base
  else if type =? OwnedTx.ttTICKET_CREATE then run (OwnedTx.create_processor (enableTickets sv)) c sig base
  else if type =? TrustTx.ttTRUST_SET then run TrustTx.processor c sig base
  else if type =? DividendTx.ttDIVIDEND then run (DividendTx.processor (dividend_key sv) (parseBase58 sv)) c sig base
  else if (type =? ttAMENDMENT) || (type =? ttFEE) then run change_processor c sig base
  else Ok (temUNKNOWN, false, no_effects, base).

(** The exceptions the code catches are raised before the view is changed: what
    can go wrong while [ApplyStateTable::apply] changes it are errors of logic, and
    those end the process. *)
Definition apply (sv : Server) (c : Ctx) (sig : SigState) (base : Base) : result (TER * bool * Base) :=
  catching (tefEXCEPTION, false, base)
    (r ← invoke sv c sig base; let '(ter, didApply, _, base') := r in Ok (ter, didApply, base')).

End dispatch.
Arguments mkServer {B}.
Arguments book_fuel {B}. Arguments on_throw {B}. Arguments rippleCalculate {B}.
Arguments dividend_key {B}. Arguments parseBase58 {B}. Arguments enableTickets {B}.

(** ** What is not applied changes nothing *)

Section unapplied.
Context `{Build} {SHA : SHA512Half} {B : Type} {RV : ReadView STObject B} {N : BN}.

Abbreviation Base := (OpenView.t STObject B).

Lemma result_bind_ok {A C} (r : result A) (k : A -> result C) y : r ≫= k = Ok y -> exists a, r = Ok a /\ k a = Ok y.
Proof. destruct r as [a| |]; [|done|done]. intros Hk. by exists a. Qed.

Lemma run_unapplied {X} (p : Processor X) c sig (base : Base) t e base' :
  run p c sig base = Ok (t, false, e, base') -> base' = base.
Proof.
  unfold run. case_match; [by intros [= _ _ <-]|]. intros ([[t1 e1] s1] & _ & Hr)%result_bind_ok. case_match; [by injection Hr|].
  apply result_bind_ok in Hr as (f & _ & Hr). case_match.
  - apply result_bind_ok in Hr as ([[[t2 d2] f2] s2] & _ & Hr). destruct d2; [|by injection Hr].
    by apply result_bind_ok in Hr as (? & _ & [=]).
  - case_match; [by apply result_bind_ok in Hr as (? & _ & [=])|by injection Hr].
Qed.

Lemma invoke_unapplied sv c sig (base : Base) t e base' :
  invoke sv c sig base = Ok (t, false, e, base') -> base' = base.
Proof. unfold invoke. repeat (case_match; [by apply run_unapplied|]). by intros [= _ _ <-]. Qed.

Lemma apply_unapplied sv c sig (base : Base) t base' : apply sv c sig base = Ok (t, false, base') -> base' = base.
Proof.
  unfold apply. destruct (invoke sv c sig base) as [[[[t1 d] e] b]|x|] eqn:Hi; cbn [mbind result_bind catching]; [| |done].
  - intros [= -> -> ->]. by eapply invoke_unapplied.
  - case_match; [done|]. by intros [= _ <-].
Qed.

(** Only what ends the process gets out. *)
Lemma apply_throws sv c sig (base : Base) e : apply sv c sig base = Throw e -> fatal e = true.
Proof.
  unfold apply. destruct (invoke sv c sig base) as [[[[t1 d] e1] b]|x|]; cbn [mbind result_bind catching]; [done| |done].
  destruct (fatal x) eqn:Hf; [|done]. by intros [= <-].
Qed.

End unapplied.

(** ** Sequence numbers are taken in turn *)

Section turn.
Context `{Build} {SHA : SHA512Half} {B : Type} {RV : ReadView STObject B}.

Abbreviation Base := (OpenView.t STObject B).

(** An exception the code catches. *)
Definition mild (e : string) : Prop := fatal e = false.

(** A computation that ends, if not with a value, with such an exception. *)
Definition calm {A} (r : result A) : Prop := wp r (fun _ => True) mild.

Lemma calm_bind {A C} (r : result A) (k : A -> result C) : calm r -> (forall a, r = Ok a -> calm (k a)) -> calm (r ≫= k).
Proof. unfold calm. destruct r; [|done|done]. intros _ Hk. by apply Hk. Qed.

Lemma calm_get {A} (as_T : Value -> option A) empty f o : calm (getField as_T empty f o).
Proof. unfold calm, getField. destruct (o !! f) as [[v|]|]; [by destruct (as_T v)|done|done]. Qed.

Lemma calm_inner f i : calm (inner_get f i).
Proof. unfold calm, inner_get. by destruct (list_find _ _) as [[]|]. Qed.

(** A check that only looks at the view, never claims a fee, and lets pass only
    a transactor that knows its account. *)
Definition checks {X} (id : Z) (prog : M Base (TER * Members X)) : Prop := forall s,
  wp (prog s) (fun '(r, s') => s' = s /\ isTecClaim r.1 = false /\ (r.1 = tesSUCCESS -> account_ r.2 = id)) mild.

Definition looks {A} (prog : M Base A) : Prop := forall s, wp (prog s) (fun '(_, s') => s' = s) mild.

Context {X : Type}.
Implicit Types (m : Members X) (prog : M Base (TER * Members X)).

Lemma checks_bind {A} id (prog : M Base A) (k : A -> M Base (TER * Members X)) :
  looks prog -> (forall a, checks id (k a)) -> checks id (prog ≫= k).
Proof.
  intros Hl Hk s. unfold mbind, M_bind. specialize (Hl s). destruct (prog s) as [[a s1]| |]; [|done|done].
  simpl in Hl. subst s1. apply Hk.
Qed.

Lemma checks_fail id t m : isTecClaim t = false -> t <> tesSUCCESS -> checks id (mret (t, m)).
Proof. intros Ht Hn s. by split_and!. Qed.

Lemma looks_lift {A} (r : result A) : calm r -> looks (lift r).
Proof. intros Hr s. unfold lift. by destruct r. Qed.

Lemma looks_view {A} (f : LedgerInfo -> A) : looks (lift_view f).
Proof. by intros s. Qed.

Lemma looks_ret {A} (a : A) : looks (mret a).
Proof. by intros s. Qed.

Lemma looks_bind {A C} (prog : M Base A) (k : A -> M Base C) : looks prog -> (forall a, looks (k a)) -> looks (prog ≫= k).
Proof.
  intros Hl Hk s. unfold mbind, M_bind. specialize (Hl s). destruct (prog s) as [[a s1]| |]; [|done|done].
  simpl in Hl. subst s1. apply Hk.
Qed.

(** The same of checks that do not look at the view at all. *)
Definition sound (id : Z) (r : result (TER * Members X)) : Prop :=
  wp r (fun x => isTecClaim x.1 = false /\ (x.1 = tesSUCCESS -> account_ x.2 = id)) mild.

Lemma checks_lift id r : sound id r -> checks id (lift r).
Proof. intros Hr s. unfold lift. by destruct r. Qed.

Lemma checks_lift_bind {A} id (r : result A) (k : A -> M Base (TER * Members X)) :
  calm r -> (forall a, r = Ok a -> checks id (k a)) -> checks id (lift r ≫= k).
Proof. intros Hr Hk s. unfold mbind, M_bind, lift. destruct r as [a| |]; [|done|done]. by apply Hk. Qed.

Lemma sound_bind {A} id (r : result A) (k : A -> result (TER * Members X)) :
  calm r -> (forall a, r = Ok a -> sound id (k a)) -> sound id (r ≫= k).
Proof. unfold calm, sound. destruct r; [|done|done]. intros _ Hk. by apply Hk. Qed.

Lemma sound_fail id t m : isTecClaim t = false -> t <> tesSUCCESS -> sound id (Ok (t, m)).
Proof. intros Ht Hn. by split. Qed.

Lemma sound_key id c m : account_ m = id -> sound id (preCheckSigningKey c m).
Proof.
  intros Hm. unfold preCheckSigningKey. apply sound_bind; [apply calm_get|]. intros k _. repeat case_match; by split.
Qed.

Lemma sound_preCheck id c m : getAccountID sfAccount (tx_o c) = Ok id -> sound id (Transactor.preCheck c m).
Proof.
  intros Ha. unfold Transactor.preCheck, preCheckAccount. rewrite Ha. cbn [mbind result_bind fst snd].
  case_match; [|by apply sound_key]. case_match; [by apply sound_fail|by rewrite bool_decide_eq_true_2 in *].
Qed.

End turn.

Ltac calm_steps := repeat match goal with
  | |- calm (mbind _ _) => apply calm_bind; [|intros ? ?]
  | |- calm (Ok _) => exact I
  | |- calm (if _ then _ else _) => case_match
  | |- calm (inner_get _ _) => apply calm_inner
  | |- calm _ => apply calm_get
  end.

Ltac sound_steps := repeat match goal with
  | |- sound _ (mbind _ _) => apply sound_bind; [calm_steps|intros ? ?]
  | |- sound _ (Ok _) => by apply sound_fail
  | |- sound _ (Transactor.preCheck _ _) => by apply sound_preCheck
  | |- sound _ (if _ then _ else _) => case_match
  end.

Ltac looks_steps := repeat match goal with
  | |- looks (mbind _ _) => apply looks_bind; [|intros ?]
  | |- looks (mret _) => apply looks_ret
  | |- looks (lift _) => apply looks_lift; calm_steps
  | |- looks (lift_view _) => apply looks_view
  | |- looks (if _ then _ else _) => case_match
  end.

(** ** The checks of each type *)

Section types.
Context `{Build} {SHA : SHA512Half} {B : Type} {RV : ReadView STObject B}.
Context (c : Ctx) (id : Z) (Hid : getAccountID sfAccount (tx_o c) = Ok id).

Abbreviation Base := (OpenView.t STObject B).

Lemma checks_account m : checks (B := B) id (lift (AccountTx.preCheck c m)).
Proof. apply checks_lift. unfold AccountTx.preCheck. sound_steps. Qed.

Lemma checks_key m : checks (B := B) id (lift (AccountTx.key_preCheck c m)).
Proof. apply checks_lift. unfold AccountTx.key_preCheck. sound_steps. Qed.

Lemma checks_trust m : checks (B := B) id (lift (TrustTx.preCheck c m)).
Proof. apply checks_lift. unfold TrustTx.preCheck. sound_steps. Qed.

Lemma checks_offer_cancel m : checks (B := B) id (lift (OwnedTx.offer_preCheck c m)).
Proof. apply checks_lift. unfold OwnedTx.offer_preCheck. sound_steps. Qed.

Lemma checks_offer_create m : checks (B := B) id (lift (CreateOfferTx.preCheck c m)).
Proof. apply checks_lift. unfold CreateOfferTx.preCheck. sound_steps. Qed.

Lemma checks_create b m : checks (B := B) id (lift (OwnedTx.create_preCheck b c m)).
Proof. apply checks_lift. unfold OwnedTx.create_preCheck. sound_steps. Qed.

Lemma checks_cancel b m : checks (B := B) id (lift (OwnedTx.cancel_preCheck b c m)).
Proof. apply checks_lift. unfold OwnedTx.cancel_preCheck. sound_steps. Qed.

(** The least amount to deliver. *)
Lemma deliver_min_looks p a s :
  wp (PaymentTx.check_deliver_min (B := B) c p a s) (fun '(t, s') => s' = s /\ isTecClaim t = false) mild.
Proof.
  unfold PaymentTx.check_deliver_min, PaymentTx.allowDeliverMin.
  assert (Hb : forall A (prog : M Base A) k (Q : TER * St Base -> Prop), looks prog -> (forall x, wp (k x s) Q mild) -> wp ((prog ≫= k) s) Q mild).
  { intros A prog k Q Hl Hk. unfold mbind, M_bind. specialize (Hl s). destruct (prog s) as [[x s2]| |]; [|done|done].
    simpl in Hl. subst s2. apply Hk. }
  case_match; [|done]. apply Hb; [looks_steps|]. intros allowed. case_match; [done|]. case_match; [done|].
  apply Hb; [looks_steps|]. intros d. case_match; [done|]. case_match; [done|].
  apply Hb; [apply looks_lift|intros more; by destruct more].
  unfold STAmount.gtb, STAmount.ltb, calm. by destruct (negb (STAmount.areComparable _ _)).
Qed.

(** The amount fits its 64 bits. *)
Definition amount_fits : Prop := forall a, getFieldAmount sfAmount (tx_o c) = Ok a -> 0 <= STAmount.mValue a < 2 ^ 64.

Lemma max_source_calm account a : 0 <= STAmount.mValue a < 2 ^ 64 -> calm (PaymentTx.max_source c account a).
Proof.
  intros Ha. unfold PaymentTx.max_source. case_match; [apply calm_get|]. case_match; [done|]. unfold STAmount.of_issue.
  eapply wp_mono; [by apply STAmount.canonicalize_spec|done|]. intros e. case_match; by intros [-> _].
Qed.

Lemma checks_payment m : amount_fits -> checks (B := B) id (PaymentTx.preCheck c m).
Proof.
  intros Hfit. unfold PaymentTx.preCheck. case_match; [by apply checks_fail|].
  apply checks_lift_bind; [apply calm_get|]. intros a Ha. apply checks_lift_bind; [by apply max_source_calm, Hfit|].
  intros src _. case_match; [by apply checks_fail|]. apply checks_lift_bind; [apply calm_get|]. intros dst _.
  repeat (case_match; [by apply checks_fail|]). intros s. unfold mbind, M_bind.
  match goal with |- context [PaymentTx.check_deliver_min c ?p a s] => pose proof (deliver_min_looks p a s) as Hmin;
    destruct (PaymentTx.check_deliver_min c p a s) as [[t s1]| |] end; [|done|done].
  destruct Hmin as [-> Ht]. case_match eqn:Hs.
  - cbn. split_and!; [done|done|]. intros ->. by rewrite bool_decide_eq_true_2 in Hs.
  - by apply (checks_lift id (Transactor.preCheck c m)), sound_preCheck.
Qed.

Lemma decode_no_claim es vec : wp (decode_entries es vec) (fun d => isTecClaim d.1 = false) mild.
Proof.
  revert vec. induction es as [|e es IH]; intros vec; cbn [decode_entries]; [done|]. case_match; [done|].
  apply wp_bind. eapply wp_mono; [apply calm_inner| |done]. intros a _.
  apply wp_bind. eapply wp_mono; [apply calm_inner| |done]. intros w _. apply IH.
Qed.

Lemma deserialize_no_claim o : wp (deserialize o) (fun d => isTecClaim d.1 = false) mild.
Proof.
  unfold deserialize. case_match; [|done]. apply wp_bind. eapply wp_mono; [apply calm_get| |done].
  intros es _. apply decode_no_claim.
Qed.

Lemma validate_no_claim q es : isTecClaim (SignerListTx.validateQuorumAndSignerEntries id q es).1 = false.
Proof. unfold SignerListTx.validateQuorumAndSignerEntries. repeat case_match; done. Qed.

Lemma checks_signers m : checks (B := B) id (lift (SignerListTx.preCheck c m)).
Proof.
  apply checks_lift. unfold SignerListTx.preCheck. case_match; [by apply sound_fail|].
  unfold preCheckAccount. rewrite Hid. cbn [mbind result_bind fst snd]. apply sound_bind; [apply calm_get|]. intros q _.
  case_match; [|case_match; [by apply sound_key|by apply sound_fail]].
  pose proof (deserialize_no_claim (tx_o c)) as Hd.
  apply sound_bind; [by eapply wp_mono; [exact Hd|done|]|]. intros [t es] Ht. rewrite Ht in Hd. cbn [wp fst snd] in Hd |- *.
  case_match eqn:Hs; [apply sound_fail; [done|]; intros ->; by rewrite bool_decide_eq_true_2 in Hs|].
  cbn [account_ set_extra set_account]. pose proof (validate_no_claim q es) as Hv.
  destruct (SignerListTx.validateQuorumAndSignerEntries id q es) as [t2 es2]. cbn [fst] in Hv.
  case_match eqn:Hs2; [apply sound_fail; [done|]; intros ->; by rewrite bool_decide_eq_true_2 in Hs2|by apply sound_key].
Qed.

End types.

(** ** Not in turn *)

Section refused.
Context `{Build} {SHA : SHA512Half} {SL : SHA512HalfLaws SHA} {B : Type} {RV : ReadView STObject B} {N : BN}.
Context {VM : ViewModel STObject B} {RL : ReadViewLaws STObject B}.

Abbreviation Base := (OpenView.t STObject B).
Abbreviation looked base id o := (peeked base (getAccountRootIndex id) (account_entry id o)).

(** The transaction is refused, by a result or an exception, and the ledger is
    untouched. *)
Definition refused (r : result (TER * bool * Effects * Base)) (base : Base) : Prop :=
  wp r (fun '(_, did, _, base') => did = false /\ base' = base) mild.

Lemma checkSeq_not_in_turn {X} c (m : Members X) (base : Base) id n sq sq' f o :
  charges c id sq f -> sender (contents base) id n sq' o -> sq <> sq' -> account_ m = id -> exists t,
  checkSeq c m (looked base id o) = Ok (t, looked base id o) /\ t ∈ [terPRE_SEQ; tefALREADY; tefPAST_SEQ].
Proof.
  intros Hch Hs Hne Hacc. unfold checkSeq. rewrite Hacc. erewrite run_bind by apply peek_again.
  erewrite run_bind by (unfold lift; by rewrite (t_seq _ _ _ _ Hch)). erewrite run_bind by reflexivity.
  erewrite run_bind by (rewrite peeked_get; cbn [fields account_entry]; unfold getFieldU32, getField; rewrite (s_seq _ _ _ _ _ Hs); reflexivity).
  rewrite (proj2 (Z.eqb_neq _ _)) by done. cbn [negb]. case_match; [|erewrite run_bind by reflexivity]; eexists; (split; [reflexivity|]).
  - by repeat constructor.
  - case_match; by repeat constructor.
Qed.

Lemma run_not_in_turn {X} (x : X) fee pre work c sig (base : Base) id n sq sq' f o :
  good base -> charges c id sq f -> sender (contents base) id n sq' o -> sq <> sq' ->
  checks id (pre c (initial sig x)) ->
  (forall m, exists bf, fee c m (looked base id o) = Ok (bf, looked base id o) \/ account_ m <> id) ->
  refused (run (with_fee x fee pre work) c sig base) base.
Proof.
  intros Hg Hch Hs Hne Hpre Hfee. unfold run. case_match; [done|]. apply wp_bind.
  eapply (wp_mono _ (fun '((t1, e1), s1) => isTesSuccess t1 = false /\ isTecClaim t1 = false /\
    ApplyStateTable.size_ (ApplyView.items_ (av s1)) = 0) _ mild); [| |done].
  { unfold Transactor.apply. erewrite run_bind by (unfold lift; by rewrite (t_fee _ _ _ _ Hch)).
    case_match; [done|]. cbn [p_preCheck p_extra with_fee]. specialize (Hpre (fresh_state base)).
    unfold mbind at 1, M_bind at 1. destruct (pre c (initial sig x) (fresh_state base)) as [[r s2]| |]; [|done|done].
    destruct Hpre as (-> & Ht & Hacc). case_match eqn:Hsucc.
    { cbn. split_and!; [|done|done]. apply negb_true_iff, bool_decide_eq_false in Hsucc. by destruct r.1. }
    apply negb_false_iff, bool_decide_eq_true in Hsucc. specialize (Hacc Hsucc). rewrite Hacc.
    erewrite run_bind by (by apply peek_first; [|apply Hs]). cbn [p_baseFee with_fee].
    destruct (Hfee r.2) as (bf & [Hbf|]); [|done]. erewrite run_bind by exact Hbf.
    rewrite bool_decide_eq_true_2 by (by eexists). cbn [negb andb].
    erewrite run_bind.
    2: { erewrite run_bind by (rewrite peeked_get; cbn [fields account_entry]; rewrite (get_balance _ _ (s_balance _ _ _ _ _ Hs)); reflexivity).
         erewrite run_bind by (rewrite peeked_get; reflexivity). reflexivity. }
    cbn [p_checkSeq with_fee].
    destruct (checkSeq_not_in_turn c (set_authKey (isFieldPresent sfRegularKey o) (set_balances (xrp n) (xrp n) (calculateFee c bf r.2)))
      base id n sq sq' f o) as (t2 & Hseq & Hin); [done..|]. erewrite run_bind by exact Hseq.
    assert (Hc : isTesSuccess t2 = false /\ isTecClaim t2 = false /\ t2 <> tesSUCCESS).
    { repeat (apply elem_of_cons in Hin as [->|Hin]; [done|]). by apply elem_of_nil in Hin. }
    rewrite bool_decide_eq_false_2 by apply Hc. refine (conj (proj1 Hc) (conj (proj1 (proj2 Hc)) (peeked_size _ _ _))). }
  intros [[t1 e1] s1] (H1 & H2 & H3). case_match; [done|]. rewrite (t_fee _ _ _ _ Hch). cbn [mbind result_bind].
  rewrite H3. change (5200 <? 0) with false. cbn iota. rewrite H1, H2.
  rewrite (bool_decide_eq_false_2 (t1 = tecOVERSIZE)) by (by intros ->). done.
Qed.

Lemma baseFee_looks c (m : Members unit) (base : Base) id o : exists bf,
  AccountTx.key_baseFee c m (looked base id o) = Ok (bf, looked base id o) \/ account_ m <> id.
Proof.
  destruct (decide (account_ m = id)) as [Hm|]; [|exists 0; by right]. eexists. left. unfold AccountTx.key_baseFee. rewrite Hm.
  erewrite run_bind by apply peek_again. erewrite run_bind by (erewrite run_bind by (rewrite peeked_get; reflexivity); reflexivity).
  reflexivity.
Qed.

(** The types a transaction without an account of its own has. *)
Definition pseudo : list Z := [DividendTx.ttDIVIDEND; ttAMENDMENT; ttFEE].

(** C16: every account's transactions are applied in the order of their sequence
    numbers, each at most once.  A transaction of any type but the pseudo
    transactions, whose sequence number is not the next one of its account, too
    early or used already, is never applied, whatever its checks say and whether
    or not they throw: [apply] returns, with a result that is not applied, the
    process does not end in a failed assertion, and the ledger is untouched.  The
    amount of a payment is taken to fit the 64 bits it has. *)
Theorem turn_required sv c sig (base : Base) id n sq sq' f o :
  good base -> charges c id sq f -> sender (contents base) id n sq' o -> sq <> sq' -> tx_type_ (tx c) ∉ pseudo ->
  amount_fits c ->
  exists t, apply sv c sig base = Ok (t, false, base).
Proof.
  intros Hg Hch Hs Hne Hty Hfit. assert (Hr : refused (invoke sv c sig base) base).
  { unfold invoke. unfold pseudo in Hty. rewrite !not_elem_of_cons in Hty. destruct Hty as (Hd & Ha & Hf & _).
    rewrite <- Z.eqb_neq in Hd, Ha, Hf. rewrite Hd, Ha, Hf. cbn [orb].
    pose proof (t_account _ _ _ _ Hch) as Hid.
    assert (Hplain : forall X (x : X) pre work, (forall m, checks id (pre c m)) -> refused (run (plain (B := B) x pre work) c sig base) base).
    { intros X x pre work Hpre. eapply (run_not_in_turn x (fun c _ => mret (calculateBaseFee c))); [done..|apply Hpre|].
      intros m. eexists. left. reflexivity. }
    repeat (case_match; [first [apply Hplain | eapply (run_not_in_turn tt AccountTx.key_baseFee);
      [done..|by apply checks_key|intros; apply baseFee_looks]]|]).
    all: try (intros m; first [by apply checks_account|by apply checks_offer_cancel|by apply checks_offer_create|by apply checks_payment
      |by apply checks_signers|by apply checks_cancel|by apply checks_create|by apply checks_trust]).
    done. }
  unfold apply, refused in *. destruct (invoke sv c sig base) as [[[[t did] e] base']|e|]; [| |done].
  - destruct Hr as [-> ->]. by exists t.
  - cbn in Hr |- *. rewrite Hr. by eexists.
Qed.

End refused.

Module Examples.
Import Transfers.Examples Threading.Examples TransactorRun.Examples.

Abbreviation Closing := (OpenView.t STObject (Ledger.t STObject)).

(** A server without ripple payments, dividends and tickets. *)
Definition server0 : Server (B := Ledger.t STObject) :=
  mkServer 9 pair PaymentTx.Examples.no_ripple
    "" (fun _ => None) false.

(** The payment number [sq] of account 7, of [a] drops to account 9. *)
Definition payment (sq a : Z) : STTx :=
  mkTx PaymentTx.ttPAYMENT (<[sfSequence := Some (U32 sq)]> (tx_fields (PaymentTx.Examples.pay_tx 9 a))).

Definition payment_ctx (sq a id fl : Z) : Ctx :=
  mkCtx (payment sq a) id [id] None fl (mkFees 10 10 20 5) 10 LoadFeeTrack.make false (fun _ => true) (fun _ _ => false)
    (fun key => default 0 (head key)) (fun _ => []).

(** It is number 0 that is due. *)
Lemma turn_required_witness : exists t, apply server0 (payment_ctx 4 30 5 0) sig_indeterminate closing105 = Ok (t, false, closing105).
Proof.
  apply (turn_required server0 (payment_ctx 4 30 5 0) sig_indeterminate closing105 7 100 4 0 12 (account_of 7 100)).
  - exact closing105_good.
  - split; [reflexivity..|split; discriminate].
  - exact sender7.
  - discriminate.
  - apply (bool_decide_unpack _). vm_compute. exact I.
  - intros a. change (getFieldAmount sfAmount (tx_o (payment_ctx 4 30 5 0))) with (Ok (xrp 30)). intros Ha.
    assert (a = xrp 30) as -> by congruence. split; [discriminate|reflexivity].
Defined.

(** The result and whether it was applied. *)
Definition result_of (r : result (TER * bool * Closing)) : option (TER * bool) := match r with Ok x => Some x.1 | _ => None end.

(** In its turn, too early, of an unknown type. *)
Lemma payment_turns : result_of (apply server0 (payment_ctx 0 30 5 0) sig_indeterminate closing105) = Some (tesSUCCESS, true) /\
  result_of (apply server0 (payment_ctx 4 30 5 0) sig_indeterminate closing105) = Some (terPRE_SEQ, false) /\
  result_of (apply server0 (mkCtx (mkTx 99 ∅) 5 [] None 0 (mkFees 10 10 20 5) 10 LoadFeeTrack.make false (fun _ => true) (fun _ _ => false)
     (fun _ => 0) (fun _ => [])) sig_indeterminate closing105) = Some (temUNKNOWN, false).
Proof. vm_compute. split_and!; reflexivity. Qed.

End Examples.

End Dispatch.
