(* ===== verification/ApplySet.v ===== *)
(** * Applying a set of transactions

    The loops that apply the transactions consensus agreed on
    ([applyTransactions] of app/ledger/impl/LedgerConsensusImp.cpp) and those of
    an open ledger ([OpenLedger], app/ledger/OpenLedger.h and OpenLedger.cpp):
    each transaction is tried once in the order of the set, those that may
    succeed later wait in a [CanonicalTXSet], and up to three passes over it
    follow, the last of them final.

    The loops are written over [attempt], which tries a transaction on a view;
    [applyTransaction] and [apply_one] make it from [Dispatch.apply].  An attempt
    that ends the process, as a failed assertion in a transactor does, ends the
    loops.  A transaction of a set is the result of reading its bytes, [None] where that
    throws.  The flags of the hash router, the fees of the ledger and the load are
    fixed while a set is applied.  Locks and the cache of entries of the open
    ledger are left out. *)

From stdpp Require Import base tactics numbers list strings gmap sorting option.
From S2P Require Import Prelude Decimal IOUAmount BigNum Serializer STAmount.
From S2P Require Import View StateTable ApplyStateTable Fields Indexes PaymentSandbox ViewOps.
From S2P Require Import TrustLines Transfers Change LoadFeeTrack MultiSign TxMeta Threading Transactor TransactorRun.
From S2P Require Import PaymentTx CanonicalTx Dispatch.

Module ApplySet.
Import Fields Indexes ViewOps TrustLines Change MultiSign Transactor CanonicalTx Dispatch.

Definition LEDGER_TOTAL_PASSES : nat := 3.
Definition LEDGER_RETRY_PASSES : nat := 1.

(** [LedgerConsensusImp::resultSuccess], [resultFail] and [resultRetry], and
    [OpenLedger::Result]. *)
Inductive Outcome := resultSuccess | resultFail | resultRetry.

#[export] Instance Outcome_eq_dec : EqDecision Outcome.
Proof. solve_decision. Defined.

(** ** The loops *)

Section loops.
Context `{Build} {V : Type}.
(** [true] assures the transaction of another try. *)
Context (attempt : V -> Tx -> bool -> result (Outcome * V)).

(** The loop over the set; transactions the ledger has are skipped. *)
Fixpoint candidates (check : Z -> bool) (items : list (Z * option Tx)) (view : V) (retries : CanonicalTx.t)
    : result (V * CanonicalTx.t) :=
  match items with
  | [] => Ok (view, retries)
  | (key, txn) :: items =>
      if check key then candidates check items view retries
      else
        match txn with
        | None => candidates check items view retries
        | Some txn =>
            a ← attempt view txn true;
            retries ← (if bool_decide (a.1 = resultRetry) then CanonicalTx.insert txn retries else Ok retries);
            candidates check items a.2 retries
        end
  end.

(** One pass over the retriable transactions: what is left of them, the number
    of changes, and the view.  (The try of the pass adds nothing to the one of
    [applyTransaction].) *)
Fixpoint one_pass (certainRetry : bool) (m : list (Key * Tx)) (view : V) : result (list (Key * Tx) * nat * V) :=
  match m with
  | [] => Ok ([], 0%nat, view)
  | (k, txn) :: m =>
      a ← attempt view txn certainRetry;
      p ← one_pass certainRetry m a.2;
      let '(kept, changes, view) := p in
      Ok match a.1 with
         | resultSuccess => (kept, S changes, view)
         | resultFail => (kept, changes, view)
         | resultRetry => ((k, txn) :: kept, changes, view)
         end
  end.

(** [more] is the number of passes that may still be made. *)
Fixpoint passes (more pass : nat) (certainRetry : bool) (view : V) (retries : CanonicalTx.t) : result (V * CanonicalTx.t) :=
  match more with
  | O => _ ← Keylet.assert (empty retries || negb certainRetry); Ok (view, retries)
  | S more =>
      p ← one_pass certainRetry (mMap retries) view;
      let '(kept, changes, view) := p in
      let retries := CanonicalTx.mk (mSetHash retries) kept in
      if (changes =? 0)%nat && negb certainRetry then Ok (view, retries)
      else
        let certainRetry := if (changes =? 0)%nat || (LEDGER_RETRY_PASSES <=? pass)%nat then false else certainRetry in
        passes more (S pass) certainRetry view retries
  end.

Definition apply_set (check : Z -> bool) (items : list (Z * option Tx)) (view : V) (retries : CanonicalTx.t)
    : result (V * CanonicalTx.t) :=
  r ← candidates check items view retries;
  passes LEDGER_TOTAL_PASSES 0 true r.1 r.2.

(** The loop of [OpenLedger::apply]: an exception skips the transaction. *)
Fixpoint open_candidates (check : Z -> bool) (txs : list (option Tx)) (view : V) (retries : CanonicalTx.t) : result (V * CanonicalTx.t) :=
  match txs with
  | [] => Ok (view, retries)
  | None :: txs => open_candidates check txs view retries
  | Some tx :: txs =>
      if check (t_id tx) then open_candidates check txs view retries
      else
        a ← catching (resultFail, view) (attempt view tx true);
        retries ← (if bool_decide (a.1 = resultRetry) then catching retries (CanonicalTx.insert tx retries) else Ok retries);
        open_candidates check txs a.2 retries
  end.

Definition open_apply (check : Z -> bool) (txs : list (option Tx)) (view : V) (retries : CanonicalTx.t) : result (V * CanonicalTx.t) :=
  r ← open_candidates check txs view retries;
  passes LEDGER_TOTAL_PASSES 0 true r.1 r.2.

(** ** What the loops do *)

(** A transaction that does not succeed leaves the view. *)
Context (keeps : forall view txn b r view', attempt view txn b = Ok (r, view') -> r <> resultSuccess -> view' = view).

(** [applied] are the transactions that succeeded, in order. *)
Fixpoint leads (view : V) (applied : list (Tx * bool)) (view' : V) : Prop :=
  match applied with
  | [] => view' = view
  | (txn, b) :: applied => exists view1, attempt view txn b = Ok (resultSuccess, view1) /\ leads view1 applied view'
  end.

Lemma leads_app view l1 l2 view1 view2 : leads view l1 view1 -> leads view1 l2 view2 -> leads view (l1 ++ l2) view2.
Proof.
  revert view. induction l1 as [|[txn b] l1 IH]; intros view; cbn; [by intros ->|].
  intros (v & Hv & Hl) H2. exists v. split; [done|]. by apply IH.
Qed.

(** An attempt at one of the transactions, on a view that applied ones lead to. *)
Definition tried_with (view : V) (l : list Tx) (r : result (Outcome * V)) : Prop :=
  exists applied view1 txn b, leads view applied view1 /\ txn ∈ l /\ attempt view1 txn b = r.

(** [r] has a value of which [Q] holds, or ends as an attempt ended. *)
Definition ended {A} (view : V) (l : list Tx) (Q : A -> Prop) (r : result A) : Prop :=
  match r with
  | Ok a => Q a
  | Throw e => tried_with view l (Throw e)
  | OutOfFuel => tried_with view l OutOfFuel
  end.

Lemma ended_mono {A} view l (Q Q' : A -> Prop) r : ended view l Q r -> (forall a, Q a -> Q' a) -> ended view l Q' r.
Proof. destruct r; cbn; auto. Qed.

Lemma ended_bind {A C} view l (P : A -> Prop) (Q : C -> Prop) r (k : A -> result C) :
  ended view l P r -> (forall a, P a -> ended view l Q (k a)) -> ended view l Q (r ≫= k).
Proof. destruct r; cbn; auto. Qed.

(** After more were applied, and with more to try. *)
Lemma ended_after {A} view applied view1 l l' (Q : A -> Prop) r :
  leads view applied view1 -> l' ⊆ l -> ended view1 l' Q r -> ended view l Q r.
Proof.
  intros Hl Hs. destruct r; cbn; [done|..]; intros (ap & v & txn & b & Hv & Hin & Ha);
    exists (applied ++ ap), v, txn, b; (split; [by eapply leads_app|split; [by apply Hs|done]]).
Qed.

Lemma ended_attempt view l txn b : txn ∈ l -> ended view l (fun p => attempt view txn b = Ok p) (attempt view txn b).
Proof. intros Hin. destruct (attempt view txn b) eqn:Ha; cbn; [done|..]; by exists [], view, txn, b. Qed.

(** A transaction that was refused for good. *)
Definition refused_once (txn : Tx) : Prop := exists view b, attempt view txn b = Ok (resultFail, view).

(** What a pass comes to. *)
Definition passed (b : bool) (m : list (Key * Tx)) (view : V) (p : list (Key * Tx) * nat * V) : Prop :=
  let '(kept, changes, view') := p in
  exists applied failed, leads view applied view' /\ Forall (fun p => p.2 = b) applied /\ length applied = changes /\
    kept `sublist_of` m /\ applied.*1 ++ failed ++ kept.*2 ≡ₚ m.*2 /\ Forall refused_once failed /\
    (changes = 0%nat -> view' = view /\ Forall (fun p => attempt view p.2 b = Ok (resultRetry, view)) kept).

Lemma one_pass_spec b m view : ended view m.*2 (passed b m view) (one_pass b m view).
Proof.
  revert view. induction m as [|[k txn] m IH]; intros view; cbn [one_pass].
  { cbn. by exists [], []. }
  eapply ended_bind; [apply ended_attempt; by left|]. intros [r view1] Ha. cbn [fst snd].
  assert (Hl0 : exists ap, leads view ap view1).
  { destruct r; [by exists [(txn, b)], view1|exists []..]; by eapply keeps. }
  destruct Hl0 as [ap0 Hl0]. eapply ended_bind; [eapply ended_after; [exact Hl0|intros x Hx; by right|apply IH]|].
  intros [[kept ch] view2] (ap & fl & Hl & Hb & Hn & Hsub & Hperm & Hf & Hnone). cbn [ended]. destruct r; cbn [passed].
  - exists ((txn, b) :: ap), fl. split_and!; [by exists view1|by constructor|by cbn; f_equal|by constructor|cbn; by f_equiv|done|done].
  - assert (view1 = view) as -> by (by eapply keeps). exists ap, (txn :: fl).
    split_and!; [done|done|done|by constructor|cbn; by rewrite <- Permutation_middle, Hperm| |done].
    constructor; [by exists view, b|done].
  - assert (view1 = view) as -> by (by eapply keeps). exists ap, fl. split_and!; [done|done|done|by constructor| |done|].
    + cbn. rewrite <- Hperm, (app_assoc _ fl), (app_assoc _ fl). symmetry. apply Permutation_middle.
    + intros Hz. destruct (Hnone Hz) as [-> Hall]. split; [done|]. by constructor.
Qed.

(** No transaction that is left could be applied now, or the last one applied was
    in a final pass. *)
Definition settled (view' : V) (applied : list (Tx * bool)) (retries' : CanonicalTx.t) : Prop :=
  Forall (fun txn => attempt view' txn false = Ok (resultRetry, view')) (txs_of retries') \/
  exists l txn, applied = l ++ [(txn, false)].

Definition accounted (view : V) (before_ : list Tx) (view' : V) (retries' : CanonicalTx.t) (applied : list (Tx * bool)) (failed : list Tx) : Prop :=
  leads view applied view' /\ Forall refused_once failed /\ applied.*1 ++ failed ++ txs_of retries' ≡ₚ before_.

Lemma Forall_kept {A} (P : A -> Prop) l l' : Forall P l -> l' `sublist_of` l -> Forall P l'.
Proof.
  intros Hl Hs. apply list.Forall_forall. intros x Hx. apply (proj1 (list.Forall_forall _ _) Hl).
  eapply elem_of_submseteq; [exact Hx|]. by apply sublist_submseteq.
Qed.

Lemma fits_sublist h m m' : fits (CanonicalTx.mk h m) -> m' `sublist_of` m -> fits (CanonicalTx.mk h m').
Proof.
  unfold fits, ordered, labelled. cbn. intros [Ho Hl] Hs. split; [|by eapply Forall_kept].
  clear Hl. induction Hs as [|p l1 l2 Hs IH|p l1 l2 Hs IH]; [constructor| |].
  - inversion Ho; subst. constructor; [by apply IH|]. by eapply Forall_kept.
  - inversion Ho; subst. by apply IH.
Qed.

Lemma accounted_step view (m : list (Key * Tx)) view1 h kept ap1 fl1 view2 r2 ap2 fl2 :
  leads view ap1 view1 -> ap1.*1 ++ fl1 ++ kept.*2 ≡ₚ m.*2 -> Forall refused_once fl1 ->
  accounted view1 (txs_of (CanonicalTx.mk h kept)) view2 r2 ap2 fl2 ->
  accounted view m.*2 view2 r2 (ap1 ++ ap2) (fl1 ++ fl2).
Proof.
  intros Hl Hp Hf (Hl2 & Hf2 & Hp2). split_and!; [by eapply leads_app|by apply Forall_app|].
  unfold txs_of at 2 in Hp2. cbn [mMap] in Hp2. rewrite <- Hp, <- Hp2, fmap_app. solve_Permutation.
Qed.

(** Enough passes are left for a final one. *)
Definition enough (more pass : nat) (certainRetry : bool) : Prop :=
  certainRetry = true -> (2 <= more)%nat /\ (pass = 0%nat -> 3 <= more)%nat.

Lemma passes_spec more pass b view retries : fits retries -> enough more pass b ->
  ended view (txs_of retries) (fun '(view', retries') => exists applied failed,
    fits retries' /\ mSetHash retries' = mSetHash retries /\ accounted view (txs_of retries) view' retries' applied failed /\
    (settled view' applied retries' \/ more = 0%nat /\ applied = [])) (passes more pass b view retries).
Proof.
  revert pass b view retries. induction more as [|more IH]; intros pass b view retries Hf He; cbn [passes].
  { destruct b; [destruct (He eq_refl); lia|]. rewrite orb_true_r. unfold Keylet.assert. rewrite andb_false_r. cbn.
    exists [], []. split_and!; [done..|by split_and!|by right]. }
  eapply ended_bind; [apply one_pass_spec|]. intros [[kept ch] view1] (ap & fl & Hl & Hb & Hn & Hsub & Hperm & Hfl & Hnone).
  assert (Hf1 : fits (CanonicalTx.mk (mSetHash retries) kept)) by (eapply fits_sublist; [|exact Hsub]; by destruct retries).
  destruct ((ch =? 0)%nat && negb b) eqn:Hend.
  { apply andb_true_iff in Hend as [Hz%Nat.eqb_eq Hnb%negb_true_iff]. subst b. destruct (Hnone Hz) as [-> Hall].
    cbn. exists ap, fl. split_and!; [done..|by split_and!|]. left. left. unfold txs_of. cbn [mMap]. by apply Forall_fmap. }
  set (b' := if (ch =? 0)%nat || (LEDGER_RETRY_PASSES <=? pass)%nat then false else b).
  eapply ended_mono; [eapply ended_after; [exact Hl| |apply (IH (S pass) b' view1 (CanonicalTx.mk (mSetHash retries) kept) Hf1)]|].
  { intros txn Hin. unfold txs_of in *. rewrite <- Hperm. apply elem_of_app. right. apply elem_of_app. by right. }
  { intros Hb'. unfold b', LEDGER_RETRY_PASSES in Hb'. destruct ((ch =? 0)%nat || (1 <=? pass)%nat) eqn:Hor; [done|].
    apply orb_false_iff in Hor as [_ Hps%Nat.leb_gt]. destruct (He Hb'). lia. }
  intros [view2 r2] (ap2 & fl2 & Hf2 & Hh & Hacc & Hset).
  exists (ap ++ ap2), (fl ++ fl2). split_and!; [done|done|by eapply accounted_step|].
  left. destruct Hset as [[Hall|(l & txn & ->)]|[Hz ->]]; [by left|right; exists (ap ++ l), txn; by rewrite app_assoc|].
  right. destruct b; [destruct (He eq_refl); lia|]. rewrite app_nil_r. rewrite andb_true_r in Hend. apply Nat.eqb_neq in Hend.
  destruct ap as [|p ap _] using rev_ind; [cbn in Hn; lia|]. apply Forall_app in Hb as [_ Hb].
  destruct p as [txn b]. inversion Hb as [|? ? Hpb]; subst. cbn in Hpb. subst b. by exists ap, txn.
Qed.

(** The transactions of the set that are tried. *)
Definition tried (check : Z -> bool) (items : list (Z * option Tx)) : list Tx :=
  omap (fun i : Z * option Tx => if check i.1 then None else i.2) items.

Lemma candidates_spec check items view retries : fits retries -> Forall keyed (tried check items) ->
  NoDup (t_id <$> (tried check items ++ txs_of retries)) ->
  ended view (tried check items) (fun '(view1, retries1) => exists applied failed,
    fits retries1 /\ mSetHash retries1 = mSetHash retries /\
    accounted view (tried check items ++ txs_of retries) view1 retries1 applied failed) (candidates check items view retries).
Proof.
  revert view retries. induction items as [|[key otx] items IH]; intros view retries Hf Hk Hnd; cbn [candidates].
  { cbn. exists [], []. by split_and!. }
  unfold tried in Hk, Hnd |- *. cbn [omap list_omap fst snd] in Hk, Hnd |- *. destruct (check key); [by apply IH|].
  destruct otx as [txn|]; [|by apply IH]. cbn [app fmap list_fmap] in Hnd. inversion Hk as [|? ? Hk1 Hk2]; subst.
  inversion Hnd as [|? ? Hn1 Hn2]; subst. fold (tried check items) in Hk2, Hn1, Hn2 |- *.
  eapply ended_bind; [apply ended_attempt; by left|]. intros [r view1] Ha. cbn [fst snd].
  assert (Hsub : tried check items ⊆ txn :: tried check items) by set_solver. destruct r.
  - cbn. eapply ended_mono; [eapply (ended_after view [(txn, true)] view1); [by exists view1|exact Hsub|by apply IH]|].
    intros [v2 r2] (ap & fl & Hf2 & Hh & Hl & Hfl & Hp). exists ((txn, true) :: ap), fl. split_and!; [done..|].
    split_and!; [by exists view1|done|cbn; by f_equiv].
  - assert (view1 = view) as -> by (by eapply keeps). cbn.
    eapply ended_mono; [eapply (ended_after view [] view); [done|exact Hsub|by apply IH]|].
    intros [v2 r2] (ap & fl & Hf2 & Hh & Hl & Hfl & Hp). exists ap, (txn :: fl). split_and!; [done..|].
    split_and!; [done|constructor; [by exists view, true|done]|cbn; by rewrite <- Permutation_middle, Hp].
  - assert (view1 = view) as -> by (by eapply keeps). rewrite bool_decide_eq_true_2 by done.
    destruct (insert_adds txn retries Hf Hk1) as (r1 & Hi & Hh1 & Hf1 & Hp1).
    { intros Hin. apply Hn1. change (t_id txn ∈ t_id <$> (tried check items ++ txs_of retries)). rewrite fmap_app. apply elem_of_app. by right. }
    rewrite Hi. cbn. eapply ended_mono; [eapply (ended_after view [] view); [done|exact Hsub|apply (IH view r1 Hf1 Hk2)]|].
    { rewrite Hp1, <- Permutation_middle. by constructor. }
    intros [v2 r2] (ap & fl & Hf2 & Hh & Hl & Hfl & Hp). exists ap, fl. split_and!; [done|congruence|]. split_and!; [done|done|].
    rewrite Hp, Hp1. symmetry. apply Permutation_middle.
Qed.

Lemma apply_set_spec check items view retries : fits retries -> Forall keyed (tried check items) ->
  NoDup (t_id <$> (tried check items ++ txs_of retries)) ->
  ended view (tried check items ++ txs_of retries) (fun '(view', retries') => exists applied failed,
    fits retries' /\ accounted view (tried check items ++ txs_of retries) view' retries' applied failed /\
    settled view' applied retries') (apply_set check items view retries).
Proof.
  intros Hf Hk Hnd. unfold apply_set. eapply ended_bind.
  { eapply (ended_after view [] view); [done| |by apply candidates_spec]. set_solver. }
  intros [v1 r1] (ap1 & fl1 & Hf1 & Hh & Hl1 & Hfl1 & Hp1). cbn [fst snd].
  eapply ended_mono; [eapply ended_after; [exact Hl1| |apply passes_spec; [done|]]|].
  { intros txn Hin. rewrite <- Hp1. apply elem_of_app. right. apply elem_of_app. by right. }
  { intros _. unfold LEDGER_TOTAL_PASSES. lia. }
  intros [v2 r2] (ap2 & fl2 & Hf2 & Hh2 & Hacc & Hset). exists (ap1 ++ ap2), (fl1 ++ fl2). split; [done|]. split.
  - destruct Hacc as (Hl2 & Hfl2 & Hp2). split_and!; [by eapply leads_app|by apply Forall_app|].
    rewrite <- Hp1, <- Hp2, fmap_app. solve_Permutation.
  - destruct Hset as [[Hall|(l & txn & ->)]|[? _]]; [by left|right; exists (ap1 ++ l), txn; by rewrite app_assoc|done].
Qed.

(** The two copies of the algorithm agree when attempts throw nothing that is
    caught. *)
Lemma open_apply_agrees check txs view retries : (forall view txn b e, attempt view txn b = Throw e -> fatal e = true) ->
  Forall keyed (tried check ((fun tx => (t_id tx, Some tx)) <$> txs)) ->
  open_apply check (Some <$> txs) view retries = apply_set check ((fun tx => (t_id tx, Some tx)) <$> txs) view retries.
Proof.
  intros Hth Hk. unfold open_apply, apply_set. assert (Hc : forall view retries,
    open_candidates check (Some <$> txs) view retries = candidates check ((fun tx => (t_id tx, Some tx)) <$> txs) view retries).
  { clear view retries. induction txs as [|tx txs IH]; intros view retries; [done|]. unfold tried in Hk.
    cbn [fmap list_fmap candidates open_candidates omap list_omap fst snd] in *. destruct (check (t_id tx)); [by apply IH|].
    inversion Hk as [|? ? Hk1 Hk2]; subst.
    assert (catching (resultFail, view) (attempt view tx true) = attempt view tx true) as ->.
    { destruct (attempt view tx true) eqn:Ha; [done| |done]. cbn. by rewrite (Hth _ _ _ _ Ha). }
    destruct (attempt view tx true) as [[r view1]| |]; [|done|done]. cbn [mbind result_bind fst snd]. case_bool_decide.
    - rewrite (insert_keyed _ _ Hk1). cbn [catching mbind result_bind]. by apply IH.
    - cbn [mbind result_bind]. by apply IH. }
  by rewrite Hc.
Qed.

(** ** A queue of one account *)

Lemma sorted_drop {A} (R : A -> A -> Prop) l n : StronglySorted R l -> StronglySorted R (drop n l).
Proof. intros Hs. revert n. induction Hs as [|t q Hs IH Hall]; intros [|n]; cbn; [constructor..|by constructor|apply IH]. Qed.

(** Transactions of one account with growing sequence numbers. *)
Definition one_account (id : Z) (queue : list Tx) : Prop :=
  Forall (fun txn => keyed txn /\ acct_of txn = id) queue /\ StronglySorted (fun a b => seq_of a < seq_of b) queue.

Definition labels (h : Z) (queue : list Tx) : list (Key * Tx) := (fun txn => (key_of h txn, txn)) <$> queue.

Lemma labels_fit h id queue : one_account id queue -> fits (CanonicalTx.mk h (labels h queue)).
Proof.
  intros [Ha Hs]. unfold fits, ordered, labelled, labels. cbn. split; [|apply Forall_fmap; by apply Forall_true].
  induction Hs as [|txn queue Hs IH Hall]; [constructor|]. inversion Ha as [|? ? [_ Ha1] Ha2]; subst. cbn. constructor; [by apply IH|].
  apply Forall_fmap. apply list.Forall_forall. intros t Ht. pose proof (proj1 (list.Forall_forall _ _) Hall t Ht) as Hlt.
  destruct (proj1 (list.Forall_forall _ _) Ha2 t Ht) as [_ Hat]. unfold before, key_ltb. cbn. rewrite Hat, Z.ltb_irrefl.
  by rewrite (proj2 (Z.ltb_lt _ _)).
Qed.

Context (id : Z) (queue : list Tx) (view_at : nat -> V).
(** Each succeeds in its turn, and is told to come again before. *)
Context (queue_ok : one_account id queue).
Context (in_turn : forall i txn, queue !! i = Some txn -> attempt (view_at i) txn true = Ok (resultSuccess, view_at (S i))).
Context (too_early : forall i j txn, (i < j)%nat -> queue !! j = Some txn -> attempt (view_at i) txn true = Ok (resultRetry, view_at i)).
Context (ids : NoDup (t_id <$> queue)).

Lemma one_account_drop n : one_account id (drop n queue).
Proof.
  destruct queue_ok as [Ha Hs]. split; [by apply Forall_drop|by apply sorted_drop].
Qed.

Lemma candidates_queue check items i retries : fits retries -> tried check items ++ txs_of retries ≡ₚ drop i queue ->
  exists j retries', candidates check items (view_at i) retries = Ok (view_at j, retries') /\
    mSetHash retries' = mSetHash retries /\ fits retries' /\ txs_of retries' ≡ₚ drop j queue /\ (j <= length queue \/ j = i)%nat.
Proof.
  revert i retries. induction items as [|[key otx] items IH]; intros i retries Hf Hp; cbn [candidates].
  { exists i, retries. split_and!; [done..|by right]. }
  unfold tried in Hp. cbn [omap list_omap fst snd] in Hp. fold (tried check items) in Hp. destruct (check key); [by apply IH|].
  destruct otx as [txn|]; [|by apply IH].
  assert (Hin : txn ∈ drop i queue) by (rewrite <- Hp; apply list_elem_of_here).
  apply list_elem_of_lookup in Hin as [d Hd]. rewrite lookup_drop in Hd. destruct d as [|d].
  - rewrite Nat.add_0_r in Hd. rewrite (in_turn _ _ Hd). cbn. rewrite (drop_S _ _ _ Hd) in Hp.
    cbn [app] in Hp. apply Permutation_cons_inv in Hp.
    destruct (IH (S i) retries Hf Hp) as (j & r & Hr & Hh & Hf2 & Hp2 & Hj). exists j, r. split_and!; [done..|].
    left. apply lookup_lt_Some in Hd. lia.
  - rewrite (too_early i (i + S d)) by (done || lia). cbn [mbind result_bind fst snd]. rewrite bool_decide_eq_true_2 by done.
    destruct queue_ok as [Hq _].
    destruct (proj1 (Forall_lookup _ _) Hq _ _ Hd) as [Hk _].
    destruct (insert_adds txn retries Hf Hk) as (r1 & Hi & Hh1 & Hf1 & Hp1).
    { assert (Hnd : NoDup (t_id <$> (txn :: tried check items) ++ txs_of retries)).
      { rewrite Hp. rewrite <- (take_drop i queue), fmap_app in ids. by apply list.NoDup_app in ids as (_ & _ & ?). }
      cbn in Hnd. inversion Hnd as [|? ? Hn1 _]; subst. intros Hin. apply Hn1.
      change (t_id txn ∈ t_id <$> (tried check items ++ txs_of retries)). rewrite fmap_app. apply elem_of_app. by right. }
    rewrite Hi. cbn. destruct (IH i r1 Hf1) as (j & r & Hr & Hh & Hf2 & Hp2 & Hj).
    { rewrite Hp1, <- Permutation_middle. exact Hp. }
    exists j, r. split_and!; [done|congruence|done..].
Qed.

Lemma one_pass_queue h j : (j <= length queue)%nat ->
  one_pass true (labels h (drop j queue)) (view_at j) = Ok ([], (length queue - j)%nat, view_at (length queue)).
Proof.
  intros Hj. remember (length queue - j)%nat as n eqn:Hn. revert j Hj Hn. induction n as [|n IH]; intros j Hj Hn.
  - rewrite drop_ge by lia. cbn. by replace (length queue) with j by lia.
  - destruct (lookup_lt_is_Some_2 queue j) as [txn Ht]; [lia|]. rewrite (drop_S _ _ _ Ht). cbn [labels fmap list_fmap one_pass].
    rewrite (in_turn _ _ Ht). cbn [mbind result_bind fst snd]. change ((fun txn => (key_of h txn, txn)) <$> drop (S j) queue) with (labels h (drop (S j) queue)).
    rewrite IH by lia. done.
Qed.

Lemma apply_set_queue check items h : tried check items ≡ₚ queue ->
  apply_set check items (view_at 0) (make h) = Ok (view_at (length queue), make h).
Proof.
  intros Hp. destruct (candidates_queue check items 0 (make h)) as (j & r & Hr & Hh & Hf & Hpr & Hj);
    [apply make_fits|by rewrite app_nil_r|]. unfold apply_set. rewrite Hr. cbn [mbind result_bind fst snd].
  assert (r = CanonicalTx.mk h (labels h (drop j queue))) as ->.
  { apply fits_unique; [done|by eapply labels_fit, one_account_drop|done|]. rewrite Hpr. unfold txs_of, labels. cbn [mMap].
    by rewrite <- list_fmap_compose, list_fmap_id. }
  assert (Hj' : (j <= length queue)%nat) by lia. unfold LEDGER_TOTAL_PASSES, LEDGER_RETRY_PASSES. cbn [passes mMap mSetHash].
  rewrite (one_pass_queue h j Hj'). cbn [mbind result_bind]. rewrite andb_false_r. by destruct (length queue - j)%nat.
Qed.

End loops.

(** ** The ledger that is being closed *)

Definition isTelLocal (x : TER) : bool := (TER_code telLOCAL_ERROR <=? TER_code x) && (TER_code x <? TER_code temMALFORMED).
Definition isTemMalformed (x : TER) : bool := (TER_code temMALFORMED <=? TER_code x) && (TER_code x <? TER_code tefFAILURE).
Definition isTefFailure (x : TER) : bool := (TER_code tefFAILURE <=? TER_code x) && (TER_code x <? TER_code terRETRY).

Definition SF_SIGGOOD : Z := 0x04.

(** What the application of every transaction of a set reads of the server: the
    fees of the ledger, [TRANSACTION_FEE_BASE], the load fees, the build option,
    the parameters of the transactors, and the flags of the hash router. *)
Record Env := mkEnv {
  e_fees : Fees; e_feeBase : Z; e_track : LoadFeeTrack.t; e_multiSign : bool;
  e_verifySingle : STTx -> bool; e_verifyMulti : Z -> SigningAccount -> bool;
  e_calcAccountID : list Z -> Z; e_addRaw : TxMeta.t -> list Z; getFlags_router : Z -> Z }.

Definition context (env : Env) (txn : Tx) (fl : Z) : Ctx :=
  mkCtx (t_tx txn) (t_id txn) (t_raw txn) (t_signers txn) fl (e_fees env) (e_feeBase env) (e_track env) (e_multiSign env)
    (e_verifySingle env) (e_verifyMulti env) (e_calcAccountID env) (e_addRaw env).

Section server.
Context `{Build} {SHA : SHA512Half} {B : Type} {RV : ReadView STObject B} {N : BN}.
Context (sv : Server (B := B)) (env : Env).

Abbreviation Base := (OpenView.t STObject B).

(** What a result means for the transaction. *)
Definition outcome (result : TER * bool) : Outcome :=
  if result.2 then resultSuccess
  else if isTefFailure result.1 || isTemMalformed result.1 || isTelLocal result.1 then resultFail
  else resultRetry.

(** The state of the signature is computed anew each time, which gives what the
    code remembers of it. *)
Definition applyTransaction (fl : Z) (view : Base) (txn : Tx) (retryAssured : bool) : result (Outcome * Base) :=
  let fl := if retryAssured then Z.lor fl tapRETRY else fl in
  let fl := if Z.land (getFlags_router env (t_id txn)) SF_SIGGOOD =? SF_SIGGOOD then Z.lor fl tapNO_CHECK_SIGN else fl in
  catching (resultFail, view)
    (r ← Dispatch.apply sv (context env txn fl) sig_indeterminate view; Ok (outcome r.1, r.2)).

(** [applyTransactions]; a null set has no items. *)
Definition applyTransactions (set : option (list (Z * option Tx))) (view : Base) (check : Z -> bool)
    (retriableTransactions : CanonicalTx.t) (fl : Z) : result (Base * CanonicalTx.t) :=
  apply_set (applyTransaction fl) check (default [] set) view retriableTransactions.

(** The middle of [LedgerConsensusImp::accept]: what [LedgerBuild.build_ledger]
    is given to apply the set that was agreed on, named by its hash.  The new
    ledger has no transactions to check against. *)
Definition apply_agreed (set : list (Z * option Tx)) (hash : Z) (accum : Base) : result Base :=
  r ← applyTransactions (Some set) accum (fun _ => false) (make hash) 0; Ok r.1.

Lemma applyTransaction_keeps fl view txn b r view' : applyTransaction fl view txn b = Ok (r, view') -> r <> resultSuccess -> view' = view.
Proof.
  unfold applyTransaction. destruct (Dispatch.apply _ _ _ view) as [[[ter did] view1]|e|] eqn:Ha; cbn [mbind result_bind catching fst snd]; [| |done].
  - intros [= <- <-] Hn. destruct did; [done|]. by eapply apply_unapplied.
  - destruct (fatal e); [done|]. by intros [= <- <-].
Qed.

Lemma applyTransaction_throws fl view txn b e : applyTransaction fl view txn b = Throw e -> fatal e = true.
Proof.
  unfold applyTransaction. destruct (Dispatch.apply _ _ _ view) as [[[ter did] view1]|x|]; cbn [mbind result_bind catching]; [done| |done].
  destruct (fatal x) eqn:Hx; [|done]. by intros [= <-].
Qed.

(** C13: what becomes of the transactions of a set.  Unless a transaction ends the
    process, the three passes end without a failed assertion: every transaction
    that was tried, of the set or among those already waiting, is in the end either
    applied exactly once, or failed for good, or still waiting; the view is the one
    that results from the applied ones, one after the other; those waiting are in
    canonical order; and none of them could be applied to the final view in a final
    attempt, unless the last transaction applied was applied in a final pass.  The
    loops fail no assertion of their own: if the process ends, it was in an attempt
    to apply one of these transactions to a view that applied ones had led to, by
    something that is no exception; and the search for offers can be cut short only
    in such an attempt too. *)
Theorem set_applied set view check retries fl :
  let txs := tried check (default [] set) ++ txs_of retries in
  fits retries -> Forall keyed (tried check (default [] set)) -> NoDup (t_id <$> txs) ->
  match applyTransactions set view check retries fl with
  | Ok (view', retries') => exists applied failed,
      fits retries' /\ leads (applyTransaction fl) view applied view' /\ Forall (refused_once (applyTransaction fl)) failed /\
      applied.*1 ++ failed ++ txs_of retries' ≡ₚ txs /\
      (Forall (fun txn => applyTransaction fl view' txn false = Ok (resultRetry, view')) (txs_of retries') \/
       exists l txn, applied = l ++ [(txn, false)])
  | Throw e => fatal e = true /\ exists applied view1 txn b,
      leads (applyTransaction fl) view applied view1 /\ txn ∈ txs /\ applyTransaction fl view1 txn b = Throw e
  | OutOfFuel => exists applied view1 txn b,
      leads (applyTransaction fl) view applied view1 /\ txn ∈ txs /\ applyTransaction fl view1 txn b = OutOfFuel
  end.
Proof.
  intros txs Hf Hk Hnd. unfold applyTransactions.
  pose proof (apply_set_spec (applyTransaction fl) (applyTransaction_keeps fl) check (default [] set) view retries Hf Hk Hnd) as Hs.
  destruct (apply_set _ _ _ _ _) as [[view' retries']|e|]; [| |exact Hs].
  - destruct Hs as (ap & fd & Hf' & (Hl & Hfd & Hp) & Hset). by exists ap, fd.
  - split; [|exact Hs]. destruct Hs as (ap & v & txn & b & _ & _ & Ha). by eapply applyTransaction_throws.
Qed.

(** C14: a queue of transactions of one account is applied completely, whatever
    its order in the set.  If each transaction succeeds on the view the ones
    before it lead to, and one that comes too early is only told to come again,
    then [applyTransactions] on the set of them, listed in any order, ends with
    the view all of them lead to, and nothing is left waiting. *)
Theorem queue_applied set check h fl id queue view_at :
  one_account id queue -> NoDup (t_id <$> queue) ->
  (forall i txn, queue !! i = Some txn -> applyTransaction fl (view_at i) txn true = Ok (resultSuccess, view_at (S i))) ->
  (forall i j txn, (i < j)%nat -> queue !! j = Some txn -> applyTransaction fl (view_at i) txn true = Ok (resultRetry, view_at i)) ->
  tried check (default [] set) ≡ₚ queue ->
  applyTransactions set (view_at 0%nat) check (make h) fl = Ok (view_at (length queue), make h).
Proof. intros Hq Hids Hturn Hearly Hp. by eapply (apply_set_queue (applyTransaction fl) id queue view_at). Qed.

(** ** The open ledger *)

(** [OpenLedger::apply_one] repeats [applyTransaction], without the catch. *)
Definition apply_one (fl : Z) (view : Base) (tx : Tx) (retry : bool) : result (Outcome * Base) :=
  let fl := if retry then Z.lor fl tapRETRY else fl in
  let fl := if Z.land (getFlags_router env (t_id tx)) SF_SIGGOOD =? SF_SIGGOOD then Z.lor fl tapNO_CHECK_SIGN else fl in
  r ← Dispatch.apply sv (context env tx fl) sig_indeterminate view; Ok (outcome r.1, r.2).

Lemma apply_one_same fl view tx b : apply_one fl view tx b = applyTransaction fl view tx b.
Proof.
  unfold apply_one, applyTransaction. destruct (Dispatch.apply _ _ _ view) as [r|e|] eqn:Ha; cbn [mbind result_bind catching]; [done| |done].
  by rewrite (apply_throws _ _ _ _ _ Ha).
Qed.

(** The state is [current_]; a new one is a view of the next ledger. *)
Definition create (ledger : B) : Base := OpenView.make_open ledger.

Definition modify (f : Base -> bool * Base) (current : Base) : bool * Base :=
  let '(changed, next) := f current in (changed, if changed then next else current).

(** The transactions of the view, read from what it stores, in the order of
    their identities. *)
Definition txs_in (read : list Z -> option Tx) (view : Base) : list (option Tx) :=
  (fun item : Z * (list Z * option (list Z)) => read item.2.1) <$> Ordered.in_order (OpenView.txs_ view).

(** The local transactions; what becomes of them is not looked at. *)
Definition apply_locals (fl : Z) (locals : CanonicalTx.t) (view : Base) : result Base :=
  foldM (fun view item => r ← Dispatch.apply sv (context env item.2 fl) sig_indeterminate view; Ok r.2) view (mMap locals).

(** [accept]: the new [current_], and what is left of [retries].  [check] is
    [txExists] of the ledger. *)
Definition accept (ledger : B) (check : Z -> bool) (read : list Z -> option Tx) (locals : CanonicalTx.t) (retriesFirst : bool)
    (retries : CanonicalTx.t) (fl : Z) (current : Base) : result (Base * CanonicalTx.t) :=
  let next := create ledger in
  r ← (if retriesFirst then open_apply (apply_one fl) check [] next retries else Ok (next, retries));
  r ← (if bool_decide (OpenView.txs_ current = ∅) then Ok r else open_apply (apply_one fl) check (txs_in read current) r.1 r.2);
  next ← apply_locals fl locals r.1; Ok (next, r.2).

(** The loops depend on the values of [attempt] alone. *)
Lemma one_pass_ext {V} (f g : V -> Tx -> bool -> result (Outcome * V)) : (forall view txn b, f view txn b = g view txn b) ->
  forall b m view, one_pass f b m view = one_pass g b m view.
Proof.
  intros Hfg b m. induction m as [|[k txn] m IH]; intros view; [done|]. cbn [one_pass]. rewrite Hfg.
  destruct (g view txn b) as [[r v]| |]; [|done|done]. cbn [mbind result_bind]. by rewrite IH.
Qed.

Lemma passes_ext {V} (f g : V -> Tx -> bool -> result (Outcome * V)) : (forall view txn b, f view txn b = g view txn b) ->
  forall more pass b view retries, passes f more pass b view retries = passes g more pass b view retries.
Proof.
  intros Hfg more. induction more as [|more IH]; intros pass b view retries; [done|]. cbn [passes]. rewrite (one_pass_ext f g Hfg).
  destruct (one_pass g b (mMap retries) view) as [[[kept ch] v]| |]; [|done|done]. cbn [mbind result_bind]. by rewrite IH.
Qed.

Lemma open_apply_ext {V} (f g : V -> Tx -> bool -> result (Outcome * V)) : (forall view txn b, f view txn b = g view txn b) ->
  forall check txs view retries, open_apply f check txs view retries = open_apply g check txs view retries.
Proof.
  intros Hfg check txs view retries. unfold open_apply.
  assert (Hc : forall view retries, open_candidates f check txs view retries = open_candidates g check txs view retries).
  { induction txs as [|[tx|] txs IH]; intros v r; [done| |apply IH]. cbn [open_candidates]. case_match; [apply IH|]. rewrite Hfg.
    destruct (catching (resultFail, v) _) as [[o v1]| |]; [|done|done]. cbn [mbind result_bind].
    match goal with |- (?r ≫= _) = _ => destruct r; [apply IH|done|done] end. }
  rewrite Hc. destruct (open_candidates g check txs view retries) as [[v r]| |]; [|done|done]. by apply passes_ext.
Qed.

(** No transaction of the open ledger gets lost when a ledger is accepted: those
    the new ledger does not have are tried on the new open ledger, and are then in
    it, failed for good, or still waiting, unless one of them ends the process. *)
Lemma accept_carries ledger check read locals retries fl current txs :
  OpenView.txs_ current <> ∅ -> txs_in read current = Some <$> txs -> fits retries ->
  Forall keyed (tried check ((fun tx => (t_id tx, Some tx)) <$> txs)) ->
  NoDup (t_id <$> (tried check ((fun tx => (t_id tx, Some tx)) <$> txs) ++ txs_of retries)) ->
  exists carried,
    accept ledger check read locals false retries fl current =
      (r ← carried; next ← apply_locals fl locals r.1; Ok (next, r.2)) /\
    ended (applyTransaction fl) (create ledger) (tried check ((fun tx => (t_id tx, Some tx)) <$> txs) ++ txs_of retries)
      (fun '(next, retries') => exists applied failed, fits retries' /\
         accounted (applyTransaction fl) (create ledger) (tried check ((fun tx => (t_id tx, Some tx)) <$> txs) ++ txs_of retries)
           next retries' applied failed /\ settled (applyTransaction fl) next applied retries') carried.
Proof.
  intros Hne Hread Hf Hk Hnd.
  exists (apply_set (applyTransaction fl) check ((fun tx => (t_id tx, Some tx)) <$> txs) (create ledger) retries). split.
  - unfold accept. cbn [mbind result_bind fst snd]. rewrite bool_decide_eq_false_2 by done. rewrite Hread.
    rewrite (open_apply_ext (apply_one fl) (applyTransaction fl)) by (intros; apply apply_one_same).
    rewrite (open_apply_agrees (applyTransaction fl)); [done|apply applyTransaction_throws|done].
  - by apply apply_set_spec; [apply applyTransaction_keeps|..].
Qed.

End server.

(** ** An example: two payments of account 7 *)

Module Examples.
Import Transfers.Examples Threading.Examples TransactorRun.Examples Dispatch.Examples.

Definition env0 : Env :=
  mkEnv (mkFees 10 10 20 5) 10 LoadFeeTrack.make false (fun _ => true) (fun _ _ => false)
    (fun key => default 0 (head key)) (fun _ => []) (fun _ => 0).

(** The payment number [sq], of 5 drops to account 9. *)
Definition pay (sq : Z) : Tx := mkTxn (payment sq 5) (50 - sq) [sq] None.

Definition step (view : Closing) (sq : Z) : result (Outcome * Closing) := applyTransaction server0 env0 0 view (pay sq) true.

Definition outcome_in (r : result (Outcome * Closing)) : option Outcome := match r with Ok x => Some x.1 | _ => None end.
Definition view_in (view : Closing) (r : result (Outcome * Closing)) : Closing := match r with Ok x => x.2 | _ => view end.

Lemma step_eq (r : result (Outcome * Closing)) view o : outcome_in r = Some o -> r = Ok (o, view_in view r).
Proof. destruct r as [[o' v]| |]; [|done|done]. by intros [= ->]. Qed.

Lemma step_keeps view sq o v : step view sq = Ok (o, v) -> o <> resultSuccess -> v = view.
Proof. apply applyTransaction_keeps. Qed.

Definition view1 : Closing := view_in closing105 (step closing105 0).
Definition view2 : Closing := view_in view1 (step view1 1).
Definition view_at (i : nat) : Closing := match i with 0%nat => closing105 | 1%nat => view1 | _ => view2 end.

(** The set lists the second payment first, as its identity is lower. *)
Definition set01 : list (Z * option Tx) := [(49, Some (pay 1)); (50, Some (pay 0))].

Lemma pay_in_turn i txn : [pay 0; pay 1] !! i = Some txn -> applyTransaction server0 env0 0 (view_at i) txn true = Ok (resultSuccess, view_at (S i)).
Proof.
  assert (H0 : outcome_in (step closing105 0) = Some resultSuccess) by (vm_compute; reflexivity).
  assert (H1 : outcome_in (step view1 1) = Some resultSuccess) by (vm_compute; reflexivity).
  destruct i as [|[|i]]; [intros [= <-]|intros [= <-]|done]; unfold view_at.
  - exact (step_eq _ closing105 _ H0).
  - exact (step_eq _ view1 _ H1).
Qed.

Lemma pay_too_early i j txn : (i < j)%nat -> [pay 0; pay 1] !! j = Some txn ->
  applyTransaction server0 env0 0 (view_at i) txn true = Ok (resultRetry, view_at i).
Proof.
  intros Hij. destruct i as [|i], j as [|[|j]]; try lia; [|done..]. intros [= <-].
  assert (H1 : outcome_in (step closing105 1) = Some resultRetry) by (vm_compute; reflexivity).
  pose proof (step_eq _ closing105 _ H1) as Hs.
  pose proof (step_keeps closing105 1 resultRetry _ Hs ltac:(discriminate)) as Hv. rewrite Hv in Hs. exact Hs.
Qed.

Lemma queue_applied_witness :
  applyTransactions server0 env0 (Some set01) closing105 (fun _ => false) (make 3) 0 = Ok (view2, make 3).
Proof.
  apply (queue_applied server0 env0 (Some set01) (fun _ => false) 3 0 7 [pay 0; pay 1] view_at).
  - split; [repeat constructor; vm_compute; reflexivity|]. repeat constructor; vm_compute; reflexivity.
  - apply (bool_decide_unpack _). vm_compute. exact I.
  - exact pay_in_turn.
  - exact pay_too_early.
  - apply Permutation_swap.
Defined.

(** Without the first payment the second one waits, and would not be applied now. *)
Definition set1 : list (Z * option Tx) := [(49, Some (pay 1)); (51, None)].

Definition left_over : result (Closing * CanonicalTx.t) :=
  applyTransactions server0 env0 (Some set1) closing105 (fun _ => false) (make 3) 0.

Lemma set_applied_witness : exists view' retries' applied failed, left_over = Ok (view', retries') /\
  leads (applyTransaction server0 env0 0) closing105 applied view' /\ applied.*1 ++ failed ++ txs_of retries' ≡ₚ [pay 1] /\
  t_id <$> txs_of retries' = [49].
Proof.
  assert (Hids : match left_over with Ok (_, r) => Some (t_id <$> txs_of r) | _ => None end = Some [49]) by (vm_compute; reflexivity).
  pose proof (set_applied server0 env0 (Some set1) closing105 (fun _ => false) (make 3) 0 (make_fits 3)) as Hset.
  cbv zeta in Hset. fold left_over in Hset. destruct left_over as [[v r]|e|]; [|discriminate|discriminate].
  injection Hids as Hids. destruct Hset as (ap & fd & _ & Hl & _ & Hp & _).
  - repeat constructor; vm_compute; reflexivity.
  - apply (bool_decide_unpack _). vm_compute. exact I.
  - exists v, r, ap, fd. split; [reflexivity|]. split; [exact Hl|]. split; [exact Hp|]. exact Hids.
Defined.

End Examples.
End ApplySet.
